(* ===== verification/_CoqProject ===== *)
-Q . S2P
Prelude.v
GoStrings.v
Sha256.v
Identity.v
Lifecycle.v
Policy.v
JsonText.v
Canonical.v
JsonLemmas.v
CanonicalNumbers.v
CanonicalTheorems.v
DecodeWf.v
CanonicalRequests.v
LaneAdmission.v
AuditRecords.v
Db.v
AuditStore.v
AdmissionStore.v
Idempotency.v
Sessions.v
Commands.v
LostRecovery.v
Listings.v
CommandlessRecovery.v
RunPayload.v
RestartPlan.v
Jobs.v
Scheduler.v
TeardownRecovery.v
RemoteDb.v
RemoteProjections.v
RemoteEvents.v
RemoteUpserts.v
Retention.v
LocalIntents.v
LocalIntentOps.v
BridgeJson.v
WireJson.v
RemoteReplies.v
Mailbox.v
MailboxOps.v
MailboxClosure.v
MailboxCleanup.v
MailboxConfig.v
MailboxDiagnostics.v
RemoteReads.v
Dispatcher.v
Reconciliation.v
IntentSteps.v
IntentRefinement.v
MixedRecovery.v
Settlement.v
Authority.v
AuthorityOps.v
JobOps.v
Histories.v
AuthorityTheorems.v
AcceptRetry.v
JobTheorems.v
ListingTheorems.v
SchedulerTheorems.v
RecoveryTheorems.v
RetentionTheorems.v
MirrorStreams.v
MirrorTheorems.v
MirrorInvariant.v
IntentTheorems.v
Footprints.v
DispatchInvariant.v
DispatchSteps.v
DispatchRuns.v
DispatchHistories.v
DispatchTheorems.v
Subscribers.v
SubscriberTheorems.v
MailboxChanges.v
MailboxFiles.v
MailboxLedgers.v
MailboxTheorems.v
MailboxOutcomes.v
