(* ===== verification/Prelude.v ===== *)
(** * Remote Session Runner: a verified model of the execution authority

    Remote Session Runner accepts shell commands from controllers, runs them in
    sessions on an execution host and streams their output back.  The program
    is written in Go under [src/src].  Its core is the execution authority: the
    package [domain] (identifiers, state machines, policy, canonical request
    hashes) and the package [store] (one SQLite database that decides what was
    accepted, what runs, and what every reader may see).  Every front end (HTTPS,
    unix socket, file mailbox, SSH) turns a request into calls of the store, and
    every worker asks the store what to do next; a property of the store is
    therefore a property of the system, whatever the front ends and the workers
    do.  The same database is also the memory of a controller: the requests it
    made of remote hosts (local intents) and what it learned of their execution
    (mirrored events and projections).  This library models both sides and
    proves them correct.

    ** How the parts interact

    A request is canonicalized and hashed ([domain/canonical.go]), checked
    against the environment policy ([domain/policy.go]) and accepted in one
    transaction of the store: the transaction consults the lane admission gate
    ([laneadmission/state.go], [store/lane_admission.go]), binds the idempotency
    key ([store/idempotency.go]), writes the session, command or job rows and
    appends an audit record ([store/audit.go]).  The scheduler
    ([store/scheduler.go]) later moves the oldest eligible command from queued
    to running together with its session and a command slot; the worker appends
    output events and finally completes the command, which closes its event
    stream ([store/commands.go]).  Readers replay a stream from a cursor and then
    follow it live through a bounded subscription ([store/subscribers.go]).
    After a crash, lost runtimes are confirmed and their capacity is released
    ([store/lost_recovery.go] and the further recoveries); a controlled restart
    preserves one queued job by a durable plan that closes the scheduler
    ([store/controlled_restart_plan.go]).  Garbage collection removes what is
    finished and old ([store/gc.go]).

    A controller records a request as a local intent under an idempotency key
    ([store/local_intents.go]); a dispatcher claims it under a lease, sends it
    and records how far it got.  What the remote authority then reports is kept
    as projections of sessions, commands and jobs ([store/remote_projections.go],
    [store/remote_jobs.go]) and as a mirrored prefix of the event stream
    ([store/remote_events.go]); a range of events the remote host can no longer
    deliver is recorded as a gap, which from then on decides what is said about
    the output of the command.

    The remote driver of the dispatcher ([dispatcher/remote.go] and the files
    beside it) moves the intents: it turns an intent into a frame of the SSH
    bridge ([sshbridge/protocol.go]), claims it, sends the frame to the host the
    target names and records what the answer proves.  A lost answer leaves the
    intent uncertain; a later reconciliation asks the host what became of it and
    either accepts it or, inside two deadlines, sends the same frame again.
    Accepted commands and runs are followed by strict reads and by event streams
    until the host has proved how they ended.

    The file mailbox is a front end whose files can be lost or repeated, so the
    store keeps the truth about them ([store/mailbox_exchanges.go] and the files
    beside it).  A request file is accepted as an exchange under the request ID of
    its mailbox, or frozen as a diagnostic when it is malformed.  Responses are
    published as numbered revisions until a terminal one freezes the outcome; the
    client acknowledges that revision, which shortens the time the response is
    kept.  A response may name the event file of a command, which several
    exchanges share; expired response and event files are claimed, removed from
    disk and marked as removed.  The registry says which mailboxes are configured
    and which were retired for good.

    ** Modelling conventions

    - A Go function that can fail returns [result] (or runs in the monad [stx]
      of a transaction); the error is the sentinel that [errors.Is] finds.
    - A table of the database is a finite map from its primary key to the other
      columns; an INSERT checks the PRIMARY KEY, UNIQUE, FOREIGN KEY and CHECK
      clauses of the schema.  A transaction that fails leaves the database as it
      was ([Db]).
    - Strings and byte slices are byte strings.  A Go string type with named
      constants is an inductive type with one more constructor for every other
      string.  Integers are [Z]; the guards of the code at the ends of [int64]
      and [uint64] are written out, SHA-256 works on words modulo [2^32].
    - A [time.Time] is the number of its nanoseconds since year 1, in the
      range where the stored text of a timestamp can be read back; the order of
      the stored texts, which is not the order of the instants, is modelled
      where SQLite sorts or compares by it ([Listings], [Retention],
      [LocalIntentOps], [MailboxOps], [MailboxDiagnostics]).  [storable] says that an instant is in this range.
    - A column of JSON text that the program only marshals, unmarshals and
      compares is the value it denotes ([RemoteDb]); the responses and diagnostics
      of the mailbox, whose bytes are hashed and compared, are bytes ([WireJson]).
    - The triggers of the schema are part of the statement that fires them
      ([Mailbox.update_exchanges], [MailboxDiagnostics.update_diagnostic]).
    - The clock, the freshly drawn identifiers and the configured limits are
      arguments of the operations.
    - The driver runs against a [World] ([Dispatcher]): the clock, the routes,
      and what each host answers to each call, an arbitrary function of
      everything said so far.  The trace of a driver is the list of its calls and
      streams with their outcomes.  Between two steps of the driver other front
      ends may record further requests; the driver itself is one thread, as the
      daemon runs it.  A payload of a frame is the JSON value it denotes; a value
      that Go returns beside an error is dropped.

    ** Files

    - [Prelude]: errors, the two monads, tactics, generic lemmas.
    - [GoStrings], [Sha256], [JsonText]: what the program uses of the packages
      [strings], [unicode/utf8], [crypto/sha256] and [encoding/json].
    - [Identity] ([domain/identity.go], [domain/limits.go]), [Lifecycle]
      ([domain/state.go]), [Policy] ([domain/policy.go]), [Canonical]
      ([domain/canonical.go]): the domain package.
    - [LaneAdmission] ([laneadmission/state.go]), [AuditRecords]
      ([audit/audit.go]): the two packages the store builds on.
    - [Db]: the tables of [store/migrations/*.sql] and the transaction wrapper.
    - [AuditStore], [AdmissionStore], [Idempotency], [Sessions], [Commands],
      [LostRecovery], [RestartPlan], [Jobs] with [RunPayload], [Scheduler],
      [Subscribers]: one file per file of [store] (audit, lane_admission,
      idempotency, sessions, commands, lost_recovery, controlled_restart_plan,
      jobs, scheduler, subscribers); [Listings]: the reads of sessions and
      lost_recovery whose order is that of timestamp texts.
    - [LostRecovery] (also [store/lost_recovery_metadata.go]),
      [CommandlessRecovery] ([store/commandless_lost_recovery.go]),
      [TeardownRecovery] ([store/completed_teardown_recovery.go]),
      [MixedRecovery] ([store/mixed_runtime_recovery.go]), [Settlement]
      ([store/stalled_job_recovery.go]): the offline recoveries.
    - [Retention] ([store/gc.go]): the garbage-collection pass.
    - [RemoteDb]: the tables of the controller, and UPDATE, DELETE and EXISTS over
      a table.  [RemoteEvents]
      ([store/remote_events.go]), [RemoteProjections] and [RemoteUpserts]
      ([store/remote_projections.go], [store/remote_jobs.go]): the mirror of
      remote execution.  [LocalIntents], [LocalIntentOps]
      ([store/local_intents.go], [store/remote_status_failures.go]): the data,
      validation and reads of intents, and their operations.
    - [BridgeJson]: the JSON, time and base64 decoding the dispatcher uses.
      [RemoteReplies]: frames, and what a reply proves ([sshbridge/protocol.go],
      [dispatcher/remote.go]); [RemoteReads]: projections and events out of
      replies ([dispatcher/projections.go], [dispatcher/events.go]);
      [Dispatcher]: the driver, its world and its monad ([dispatcher/routing.go]),
      and dispatch, guards, readiness, retry and reconciliation of intents in doubt
      ([dispatcher/remote.go]);
      [Reconciliation]: accepted work followed to its end
      ([dispatcher/events.go], [dispatcher/jobs.go], [dispatcher/sessions.go],
      [dispatcher/reconciliation.go]).
    - [WireJson]: [json.Marshal] and [json.Unmarshal] on texts, as the mailbox
      uses them.  [Mailbox]: references, data, validation and reads of exchanges
      ([store/mailbox_scope.go], [store/mailbox_exchanges.go]); [MailboxOps]:
      acceptance, listings, completion, publication, event-file references,
      acknowledgement and evidence (also [store/mailbox_ack.go],
      [store/mailbox_lifecycle.go]); [MailboxClosure]: runs in doubt closed by
      the owner or for want of a status; [MailboxCleanup]
      ([store/mailbox_cleanup.go]); [MailboxConfig]
      ([store/mailbox_configuration.go]); [MailboxDiagnostics]
      ([store/mailbox_ingress_diagnostics.go]).  Their tables are the record
      [MailboxTables] of [RemoteDb], a part of the controller's [Mirror].
    - [MailboxChanges]: the mailbox tables as an abstract transition system, and
      every operation on exchanges as a sequence of its changes; [MailboxFiles]:
      the same for the cleanup, with the invariant on event files;
      [MailboxLedgers]: for diagnostics and registry, with their invariant.
    - [Footprints]: which tables an operation of the controller leaves alone.
      [DispatchInvariant]: what the rows of a driver say about its trace, and
      triples for its monad; [DispatchSteps], [DispatchRuns],
      [DispatchHistories]: every operation keeps it, in every history.
    - [IntentSteps]: intents as an abstract transition system with its
      invariant; [IntentRefinement]: every operation is a run of it.
      [MirrorStreams]: the grammar of a mirrored stream.  [MirrorInvariant]: the
      mirror as a transition system.
    - [Authority]: the abstract specification, a transition system on the seven
      tables the authority owns, with its invariants.  [AuthorityOps], [JobOps]
      and [Histories]: every operation of the store is a sequence of its steps; the
      operations as one type, and the stores they lead to.
    - [JsonLemmas], [CanonicalNumbers], [CanonicalTheorems], [DecodeWf],
      [CanonicalRequests], [AuthorityTheorems], [AcceptRetry],
      [JobTheorems], [ListingTheorems], [SchedulerTheorems],
      [RecoveryTheorems], [RetentionTheorems], [SubscriberTheorems],
      [MirrorTheorems], [MirrorInvariant], [IntentTheorems],
      [DispatchTheorems], [MailboxTheorems], [MailboxOutcomes]: the theorems, per component.

    ** What the theorems show

    - Histories ([AuthorityTheorems]).  In every store reachable by the
      operations, whatever their order, arguments and failures: the event rows
      of a command are a run of its state machine numbered without gaps, and are
      exactly what was handed to the subscribers; at most one command of a
      session is active; slots and reservations stay under their limits; a slot
      is released only after its command ended; session histories are legal
      walks; recorded history never changes.
    - Acceptance ([Idempotency], [AcceptRetry], [JobTheorems]).  A retried
      request returns what the first one created and changes nothing; another
      request under the same key is a conflict until the key expires.
    - Scheduling, recovery and restart ([SchedulerTheorems]).  Claims are atomic
      and oldest-first; the restart plan lets only the planned command through;
      lost recovery releases everything selected or nothing.
    - Offline recoveries ([RecoveryTheorems]).  A set of commandless sessions, or
      a mixed set, is released as a whole with its work items or not at all; the
      settlement of cancelled jobs is exact and can be repeated.
    - Garbage collection ([RetentionTheorems]).  A pass keeps all live work and a
      second pass does nothing; a pass is blocked for good by a reference of the
      mailbox, and it can remove a binding that is still in force.
    - Jobs ([JobTheorems]).  Job rows can always be read back and match their
      canonical payload; checkpoints move from the expected phase; the probe
      disposition keeps capacity retained.
    - Canonical requests ([CanonicalNumbers], [CanonicalTheorems], [DecodeWf],
      [CanonicalRequests]).  Decoding terminates; two requests have the same
      canonical text exactly when they say the same; the canonical form is its
      own canonical form.
    - Streams ([AuthorityTheorems], [SubscriberTheorems]).  A replay is the suffix after
      the cursor; a subscriber gets a gap-free and duplicate-free continuation
      under every interleaving, within its bounds.
    - The mirror ([MirrorTheorems], [MirrorInvariant]).  A
      controller that replays and mirrors holds exactly what the authority
      published; in every reachable mirror the retained prefix is lawful and
      numbered up to its cursor; a gap decides every projection of its command;
      nothing learned is taken back, except by garbage collection, after which
      the prefix of the command can no longer be inspected.  The theorem that
      relates mirror and authority assumes what the two sides do not check of
      each other: payloads within the limit of the mirror ([mirrorable]) and one
      truncation event per command ([truncated_once]).
    - Local intents ([IntentTheorems]).  A request is recorded once per key; an
      intent is claimed at most once and in the order of its session; its
      lifecycle is a run of the delivery state machine; its request never
      changes and a settled intent stays settled.
    - The remote driver ([DispatchTheorems]).  In every state it can reach,
      whatever the hosts answer, lose or invent and however often it restarts:
      the delivery state of an intent is true of what was sent and answered;
      every delivery of an intent is the same frame to the same host; a decided
      intent is never sent again; a command waits until its session is reported
      ready; an intent in doubt is sent again only after the host reported it
      missing and inside both deadlines.  The hypothesis [records_requests] says
      that the front ends beside the driver only record requests, as new intents.
    - The mailbox ([MailboxTheorems], [MailboxOutcomes]).  In every state its operations lead to: a claimed event
      file has only expired readers; a terminal outcome is final; a request is
      accepted once; a request is accepted, refused or unknown, never two of
      these; a retired mailbox stays retired.  An acknowledgement is exact and
      can be repeated; the owner can close a run only while its outcome is
      unknown.  The histories ([mailbox_history]) leave out one thing the code
      allows and its comments exclude, a completion that reaches exchanges which
      are settled already ([none_settled]);
      [complete_rewrites_settled_exchange] shows what it does.  The clock of a
      claim of event files is [storable].
    - Gates and policy ([AdmissionStore], [LaneAdmission], [Policy]).

    ** Bounds and fuel

    - [Canonical.decode_bound] is twice the length of the text plus one: a
      nested value consumes at least one byte per two recursive calls
      ([decode_terminates] shows the fuel is never used up).
    - [WireJson.scan_bound] is the same bound for the reader of any JSON text
      ([scan_bound_suffices]).
    - The token reader looks at most twice for a token (a separator, then the
      token); the escape scanner has the length of the text as fuel; SHA-256 has
      the number of blocks.
    - Nothing else is bounded: histories and interleavings have any length.

    ** What is not modelled

    - I/O errors, a busy database, cancelled contexts: a statement fails only
      because of a clause of the schema.
    - The texts of error messages, log lines and metrics.
    - The inventories and metrics of [store].  Of its mailbox files: the paged
      query for publishable responses with its cursor, which computes deadlines in
      floating-point Julian days; the validation of a store that has no registry
      yet; the checks whether a table of the registry exists.
    - Garbage collection removes history and is therefore not one of the
      operations of [Histories] and of the histories of mirror and intents.
    - The closing of a run by its owner reconciles an intent without the driver; it
      is one of the operations of the mailbox histories and not of the histories of
      intents and driver.
    - Of the dispatcher: the local driver with its HTTP client, the joins of
      several probes, a driver without a store ([configured]), cancelled contexts.
    - The front ends, the workers, installation and release tooling: processes,
      files and sockets around the authority.  They are listed in the manifest. *)

From stdpp Require Export base option list gmap strings sorting list_numbers.
From Stdlib Require Export ZArith Lia.

#[global] Open Scope string_scope.
#[global] Open Scope list_scope.
#[global] Open Scope Z_scope.

(** ** Errors

    A Go error is the sentinel that [errors.Is] finds in it.  The text that
    [fmt.Errorf] adds is dropped; [%w: %v] keeps the outer sentinel only,
    [%w: %w] keeps both ([Errs]).  [ErrSQL] is a statement that SQLite refuses
    because of a PRIMARY KEY, UNIQUE, CHECK or FOREIGN KEY clause. *)
Inductive error : Type :=
  (* domain/identity.go *)
  | ErrEmptyID | ErrInvalidControllerType | ErrInvalidTargetKind | ErrEmptyTargetProfile
  (* domain/limits.go *)
  | ErrSerializedInputTooLarge | ErrScriptTooLarge | ErrScriptInvalidUTF8
  (* domain/state.go *)
  | ErrInvalidSessionState | ErrIllegalSessionTransition
  | ErrInvalidCommandState | ErrIllegalCommandTransition
  (* domain/policy.go *)
  | ErrInvalidEnvironment | ErrInvalidSource | ErrEnvironmentTargetMismatch
  | ErrEnvironmentSourceMismatch | ErrRepositoryAliasNotAllowed | ErrControllerMismatch
  | ErrUnsupportedIsolationRequirement | ErrInvalidServiceLimits
  | ErrInvalidRequestedLimits | ErrLimitExceedsServiceCeiling
  (* domain/canonical.go *)
  | ErrInvalidCanonicalJSON | ErrInvalidCanonicalDefaults | ErrInvalidCanonicalHash
  (* audit/audit.go *)
  | ErrInvalidRecord
  (* laneadmission/state.go, store/lane_admission.go *)
  | ErrInvalidState | ErrInvalidIdentity | ErrStaleEpoch | ErrEpochIdentitySwitch
  | ErrAdmissionClosed | ErrInvalidTransition
  | ErrLaneAdmissionNotConfigured | ErrLaneAdmissionCorrupt
  (* store/idempotency.go, store/sessions.go *)
  | ErrInvalidIdempotency | ErrIdempotencyKey | ErrIdempotencyConflict
  | ErrSessionNotFound | ErrSessionExists | ErrInvalidSession | ErrSessionLifecycle
  | ErrSessionCapacityExceeded | ErrSessionReservationNotFound
  (* store/commands.go *)
  | ErrInvalidCommand | ErrCommandNotFound | ErrCommandSessionState | ErrCommandPayloadCorrupt
  | ErrCommandEvent | ErrCommandOrderCorrupt | ErrCommandNotEligible | ErrCommandTerminal
  | ErrCommandReplayGap | ErrCommandReplayExpired | ErrCommandTransition
  (* store/scheduler.go *)
  | ErrCommandSlotsFull | ErrCommandSlotNotFound | ErrCommandSlotNotReleasable
  | ErrCommandSlotCorrupt
  (* store/controlled_restart_plan.go, store/lost_recovery.go *)
  | ErrControlledRestartPlanNotFound | ErrControlledRestartPlanConflict
  | ErrControlledRestartPlanCorrupt | ErrControlledRestartPlanNotActive
  | ErrLostRuntimeRecoveryNotReleasable
  (* store/jobs.go *)
  | ErrInvalidJob | ErrJobNotFound | ErrJobExists | ErrJobPhaseConflict | ErrJobPayloadCorrupt
  | ErrProbeDispositionNotEligible
  (* store/commandless_lost_recovery.go, store/completed_teardown_recovery.go,
     store/stalled_job_recovery.go, store/gc.go *)
  | ErrCommandlessLostRuntimeRecoveryNotReleasable | ErrCompletedTeardownRecoveryNotReleasable
  | ErrClosedCancelledJobSettlementNotEligible | ErrInvalidGarbageCollection
  (* store/subscribers.go *)
  | ErrSubscriberOverflow | ErrInvalidSubscriber
  (* store/remote_events.go, store/remote_projections.go *)
  | ErrRemoteEventBatch | ErrRemoteEventGap | ErrRemoteEventConflict | ErrRemoteEventTerminal
  | ErrRemoteEventNotFound | ErrRemoteEventRetentionExpired
  | ErrRemoteGapRecord | ErrRemoteGapConflict | ErrRemoteGapNotFound
  | ErrRemoteProjectionInvalid | ErrRemoteProjectionNotFound | ErrRemoteProjectionConflict
  (* store/local_intents.go *)
  | ErrInvalidLocalIntent | ErrLocalIntentExists | ErrLocalIntentNotFound | ErrLocalIntentPayloadCorrupt
  | ErrLocalIntentTransition | ErrLocalIdempotencyCorrupt | ErrNoEligibleLocalIntent
  | ErrLocalIntentLeaseHeld | ErrLocalIntentLeaseLost | ErrInvalidLocalIntentLease
  (* dispatcher/remote.go, dispatcher/routing.go, dispatcher/events.go, dispatcher/local.go *)
  | ErrRemoteDriverConfiguration | ErrNoRemoteDispatchWork | ErrRemoteRejected | ErrRemoteUncertain
  | ErrRemoteResponse | ErrRemotePayload | ErrRemoteNotReconciled | ErrRemoteUncertaintyDeadline
  | ErrRemoteIdempotencyDeadline | ErrRemoteSessionNotReady | ErrRemoteSessionCreateFailed
  | ErrRemoteCancelledBeforeDelivery | ErrRemoteRouteUnavailable
  | ErrRemoteEventCallerUnavailable | ErrRemoteEventStream | ErrRemoteEventHistoryUnavailable
  | ErrRemoteEventCursor | ErrRemoteTerminalUnconfirmed
  | ErrDriverConfiguration | ErrNoLocalDispatchWork | ErrUnsupportedLocalOperation
  | ErrLocaldRejected | ErrLocaldTransport | ErrLocaldResponse
  (* sshclient/client.go *)
  | ErrTransport
  (* store/mailbox_exchanges.go, store/mailbox_ack.go, store/mailbox_lifecycle.go,
     store/mailbox_cleanup.go, store/mailbox_ingress_diagnostics.go *)
  | ErrMailboxExchangeInvalid | ErrMailboxExchangeConflict | ErrMailboxExchangeNotFound
  | ErrMailboxResponseInvalid | ErrMailboxResponseExpired | ErrMailboxEventReferenceExpired
  | ErrMailboxTerminalImmutable | ErrMailboxOwnerAbandonmentNotEligible | ErrMailboxConfigurationPending
  | ErrMailboxRemoteStatusFailureNotEligible | ErrMailboxLifecycleEvidenceInvalid
  | ErrMailboxAckInvalid | ErrMailboxAckConflict | ErrMailboxCleanupState
  | ErrMailboxIngressDiagnosticInvalid | ErrMailboxIngressDiagnosticNotFound | ErrMailboxIngressDiagnosticConflict
  | ErrMailboxIngressDiagnosticExpired | ErrMailboxIngressDiagnosticCleanupState
  (* an error value without a sentinel, a refused SQL statement, two sentinels *)
  | ErrText (msg : string)
  | ErrSQL (statement : string)
  | Errs (outer inner : error).

(** Equality is decided on codes; the sentinels are numbered in their order. *)
Inductive error_tree : Type := CodeLeaf (number : N) (text : string) | CodeNode (outer inner : error_tree).
#[export] Instance error_tree_eq_dec : EqDecision error_tree.
Proof. solve_decision. Defined.

Fixpoint error_code (e : error) : error_tree :=
  match e with
  | ErrEmptyID => CodeLeaf 2 EmptyString | ErrInvalidControllerType => CodeLeaf 3 EmptyString
  | ErrInvalidTargetKind => CodeLeaf 4 EmptyString | ErrEmptyTargetProfile => CodeLeaf 5 EmptyString
  | ErrSerializedInputTooLarge => CodeLeaf 6 EmptyString | ErrScriptTooLarge => CodeLeaf 7 EmptyString
  | ErrScriptInvalidUTF8 => CodeLeaf 8 EmptyString | ErrInvalidSessionState => CodeLeaf 9 EmptyString
  | ErrIllegalSessionTransition => CodeLeaf 10 EmptyString | ErrInvalidCommandState => CodeLeaf 11 EmptyString
  | ErrIllegalCommandTransition => CodeLeaf 12 EmptyString | ErrInvalidEnvironment => CodeLeaf 13 EmptyString
  | ErrInvalidSource => CodeLeaf 14 EmptyString | ErrEnvironmentTargetMismatch => CodeLeaf 15 EmptyString
  | ErrEnvironmentSourceMismatch => CodeLeaf 16 EmptyString
  | ErrRepositoryAliasNotAllowed => CodeLeaf 17 EmptyString | ErrControllerMismatch => CodeLeaf 18 EmptyString
  | ErrUnsupportedIsolationRequirement => CodeLeaf 19 EmptyString
  | ErrInvalidServiceLimits => CodeLeaf 20 EmptyString | ErrInvalidRequestedLimits => CodeLeaf 21 EmptyString
  | ErrLimitExceedsServiceCeiling => CodeLeaf 22 EmptyString | ErrInvalidCanonicalJSON => CodeLeaf 23 EmptyString
  | ErrInvalidCanonicalDefaults => CodeLeaf 24 EmptyString | ErrInvalidCanonicalHash => CodeLeaf 25 EmptyString
  | ErrInvalidRecord => CodeLeaf 26 EmptyString | ErrInvalidState => CodeLeaf 27 EmptyString
  | ErrInvalidIdentity => CodeLeaf 28 EmptyString | ErrStaleEpoch => CodeLeaf 29 EmptyString
  | ErrEpochIdentitySwitch => CodeLeaf 30 EmptyString | ErrAdmissionClosed => CodeLeaf 31 EmptyString
  | ErrInvalidTransition => CodeLeaf 32 EmptyString | ErrLaneAdmissionNotConfigured => CodeLeaf 33 EmptyString
  | ErrLaneAdmissionCorrupt => CodeLeaf 34 EmptyString | ErrInvalidIdempotency => CodeLeaf 35 EmptyString
  | ErrIdempotencyKey => CodeLeaf 36 EmptyString | ErrIdempotencyConflict => CodeLeaf 37 EmptyString
  | ErrSessionNotFound => CodeLeaf 38 EmptyString | ErrSessionExists => CodeLeaf 39 EmptyString
  | ErrInvalidSession => CodeLeaf 40 EmptyString | ErrSessionLifecycle => CodeLeaf 41 EmptyString
  | ErrSessionCapacityExceeded => CodeLeaf 42 EmptyString | ErrSessionReservationNotFound => CodeLeaf 43 EmptyString
  | ErrInvalidCommand => CodeLeaf 44 EmptyString | ErrCommandNotFound => CodeLeaf 45 EmptyString
  | ErrCommandSessionState => CodeLeaf 46 EmptyString | ErrCommandPayloadCorrupt => CodeLeaf 47 EmptyString
  | ErrCommandEvent => CodeLeaf 48 EmptyString | ErrCommandOrderCorrupt => CodeLeaf 49 EmptyString
  | ErrCommandNotEligible => CodeLeaf 50 EmptyString | ErrCommandTerminal => CodeLeaf 51 EmptyString
  | ErrCommandReplayGap => CodeLeaf 52 EmptyString | ErrCommandReplayExpired => CodeLeaf 53 EmptyString
  | ErrCommandTransition => CodeLeaf 54 EmptyString | ErrCommandSlotsFull => CodeLeaf 55 EmptyString
  | ErrCommandSlotNotFound => CodeLeaf 56 EmptyString | ErrCommandSlotNotReleasable => CodeLeaf 57 EmptyString
  | ErrCommandSlotCorrupt => CodeLeaf 58 EmptyString | ErrControlledRestartPlanNotFound => CodeLeaf 59 EmptyString
  | ErrControlledRestartPlanConflict => CodeLeaf 60 EmptyString
  | ErrControlledRestartPlanCorrupt => CodeLeaf 61 EmptyString
  | ErrControlledRestartPlanNotActive => CodeLeaf 62 EmptyString
  | ErrLostRuntimeRecoveryNotReleasable => CodeLeaf 63 EmptyString | ErrInvalidJob => CodeLeaf 64 EmptyString
  | ErrJobNotFound => CodeLeaf 65 EmptyString | ErrJobExists => CodeLeaf 66 EmptyString
  | ErrJobPhaseConflict => CodeLeaf 67 EmptyString | ErrJobPayloadCorrupt => CodeLeaf 68 EmptyString
  | ErrProbeDispositionNotEligible => CodeLeaf 69 EmptyString
  | ErrCommandlessLostRuntimeRecoveryNotReleasable => CodeLeaf 70 EmptyString
  | ErrCompletedTeardownRecoveryNotReleasable => CodeLeaf 71 EmptyString
  | ErrClosedCancelledJobSettlementNotEligible => CodeLeaf 72 EmptyString
  | ErrInvalidGarbageCollection => CodeLeaf 73 EmptyString | ErrSubscriberOverflow => CodeLeaf 74 EmptyString
  | ErrInvalidSubscriber => CodeLeaf 75 EmptyString | ErrRemoteEventBatch => CodeLeaf 76 EmptyString
  | ErrRemoteEventGap => CodeLeaf 77 EmptyString | ErrRemoteEventConflict => CodeLeaf 78 EmptyString
  | ErrRemoteEventTerminal => CodeLeaf 79 EmptyString | ErrRemoteEventNotFound => CodeLeaf 80 EmptyString
  | ErrRemoteEventRetentionExpired => CodeLeaf 81 EmptyString | ErrRemoteGapRecord => CodeLeaf 82 EmptyString
  | ErrRemoteGapConflict => CodeLeaf 83 EmptyString | ErrRemoteGapNotFound => CodeLeaf 84 EmptyString
  | ErrRemoteProjectionInvalid => CodeLeaf 85 EmptyString | ErrRemoteProjectionNotFound => CodeLeaf 86 EmptyString
  | ErrRemoteProjectionConflict => CodeLeaf 87 EmptyString | ErrInvalidLocalIntent => CodeLeaf 88 EmptyString
  | ErrLocalIntentExists => CodeLeaf 89 EmptyString | ErrLocalIntentNotFound => CodeLeaf 90 EmptyString
  | ErrLocalIntentPayloadCorrupt => CodeLeaf 91 EmptyString | ErrLocalIntentTransition => CodeLeaf 92 EmptyString
  | ErrLocalIdempotencyCorrupt => CodeLeaf 93 EmptyString | ErrNoEligibleLocalIntent => CodeLeaf 94 EmptyString
  | ErrLocalIntentLeaseHeld => CodeLeaf 95 EmptyString | ErrLocalIntentLeaseLost => CodeLeaf 96 EmptyString
  | ErrInvalidLocalIntentLease => CodeLeaf 97 EmptyString | ErrRemoteDriverConfiguration => CodeLeaf 98 EmptyString
  | ErrNoRemoteDispatchWork => CodeLeaf 99 EmptyString | ErrRemoteRejected => CodeLeaf 100 EmptyString
  | ErrRemoteUncertain => CodeLeaf 101 EmptyString | ErrRemoteResponse => CodeLeaf 102 EmptyString
  | ErrRemotePayload => CodeLeaf 103 EmptyString | ErrRemoteNotReconciled => CodeLeaf 104 EmptyString
  | ErrRemoteUncertaintyDeadline => CodeLeaf 105 EmptyString
  | ErrRemoteIdempotencyDeadline => CodeLeaf 106 EmptyString | ErrRemoteSessionNotReady => CodeLeaf 107 EmptyString
  | ErrRemoteSessionCreateFailed => CodeLeaf 108 EmptyString
  | ErrRemoteCancelledBeforeDelivery => CodeLeaf 109 EmptyString
  | ErrRemoteRouteUnavailable => CodeLeaf 110 EmptyString
  | ErrRemoteEventCallerUnavailable => CodeLeaf 111 EmptyString | ErrRemoteEventStream => CodeLeaf 112 EmptyString
  | ErrRemoteEventHistoryUnavailable => CodeLeaf 113 EmptyString | ErrRemoteEventCursor => CodeLeaf 114 EmptyString
  | ErrRemoteTerminalUnconfirmed => CodeLeaf 115 EmptyString | ErrDriverConfiguration => CodeLeaf 116 EmptyString
  | ErrNoLocalDispatchWork => CodeLeaf 117 EmptyString | ErrUnsupportedLocalOperation => CodeLeaf 118 EmptyString
  | ErrLocaldRejected => CodeLeaf 119 EmptyString | ErrLocaldTransport => CodeLeaf 120 EmptyString
  | ErrLocaldResponse => CodeLeaf 121 EmptyString | ErrTransport => CodeLeaf 122 EmptyString
  | ErrMailboxExchangeInvalid => CodeLeaf 123 EmptyString | ErrMailboxExchangeConflict => CodeLeaf 124 EmptyString
  | ErrMailboxExchangeNotFound => CodeLeaf 125 EmptyString | ErrMailboxResponseInvalid => CodeLeaf 126 EmptyString
  | ErrMailboxResponseExpired => CodeLeaf 127 EmptyString
  | ErrMailboxEventReferenceExpired => CodeLeaf 128 EmptyString
  | ErrMailboxTerminalImmutable => CodeLeaf 129 EmptyString
  | ErrMailboxOwnerAbandonmentNotEligible => CodeLeaf 130 EmptyString
  | ErrMailboxConfigurationPending => CodeLeaf 131 EmptyString
  | ErrMailboxRemoteStatusFailureNotEligible => CodeLeaf 132 EmptyString
  | ErrMailboxLifecycleEvidenceInvalid => CodeLeaf 133 EmptyString
  | ErrMailboxAckInvalid => CodeLeaf 134 EmptyString | ErrMailboxAckConflict => CodeLeaf 135 EmptyString
  | ErrMailboxCleanupState => CodeLeaf 136 EmptyString
  | ErrMailboxIngressDiagnosticInvalid => CodeLeaf 137 EmptyString
  | ErrMailboxIngressDiagnosticNotFound => CodeLeaf 138 EmptyString
  | ErrMailboxIngressDiagnosticConflict => CodeLeaf 139 EmptyString
  | ErrMailboxIngressDiagnosticExpired => CodeLeaf 140 EmptyString
  | ErrMailboxIngressDiagnosticCleanupState => CodeLeaf 141 EmptyString
  | ErrText msg => CodeLeaf 0 msg
  | ErrSQL statement => CodeLeaf 1 statement
  | Errs outer inner => CodeNode (error_code outer) (error_code inner)
  end.
Fixpoint error_of_code (c : error_tree) : error :=
  match c with
  | CodeNode outer inner => Errs (error_of_code outer) (error_of_code inner)
  | CodeLeaf number text =>
      match number with
      | 0 => ErrText text
      | 1 => ErrSQL text
      | 2 => ErrEmptyID | 3 => ErrInvalidControllerType | 4 => ErrInvalidTargetKind | 5 => ErrEmptyTargetProfile
      | 6 => ErrSerializedInputTooLarge | 7 => ErrScriptTooLarge | 8 => ErrScriptInvalidUTF8
      | 9 => ErrInvalidSessionState | 10 => ErrIllegalSessionTransition | 11 => ErrInvalidCommandState
      | 12 => ErrIllegalCommandTransition | 13 => ErrInvalidEnvironment | 14 => ErrInvalidSource
      | 15 => ErrEnvironmentTargetMismatch | 16 => ErrEnvironmentSourceMismatch | 17 => ErrRepositoryAliasNotAllowed
      | 18 => ErrControllerMismatch | 19 => ErrUnsupportedIsolationRequirement | 20 => ErrInvalidServiceLimits
      | 21 => ErrInvalidRequestedLimits | 22 => ErrLimitExceedsServiceCeiling | 23 => ErrInvalidCanonicalJSON
      | 24 => ErrInvalidCanonicalDefaults | 25 => ErrInvalidCanonicalHash | 26 => ErrInvalidRecord
      | 27 => ErrInvalidState | 28 => ErrInvalidIdentity | 29 => ErrStaleEpoch | 30 => ErrEpochIdentitySwitch
      | 31 => ErrAdmissionClosed | 32 => ErrInvalidTransition | 33 => ErrLaneAdmissionNotConfigured
      | 34 => ErrLaneAdmissionCorrupt | 35 => ErrInvalidIdempotency | 36 => ErrIdempotencyKey
      | 37 => ErrIdempotencyConflict | 38 => ErrSessionNotFound | 39 => ErrSessionExists | 40 => ErrInvalidSession
      | 41 => ErrSessionLifecycle | 42 => ErrSessionCapacityExceeded | 43 => ErrSessionReservationNotFound
      | 44 => ErrInvalidCommand | 45 => ErrCommandNotFound | 46 => ErrCommandSessionState
      | 47 => ErrCommandPayloadCorrupt | 48 => ErrCommandEvent | 49 => ErrCommandOrderCorrupt
      | 50 => ErrCommandNotEligible | 51 => ErrCommandTerminal | 52 => ErrCommandReplayGap
      | 53 => ErrCommandReplayExpired | 54 => ErrCommandTransition | 55 => ErrCommandSlotsFull
      | 56 => ErrCommandSlotNotFound | 57 => ErrCommandSlotNotReleasable | 58 => ErrCommandSlotCorrupt
      | 59 => ErrControlledRestartPlanNotFound | 60 => ErrControlledRestartPlanConflict
      | 61 => ErrControlledRestartPlanCorrupt | 62 => ErrControlledRestartPlanNotActive
      | 63 => ErrLostRuntimeRecoveryNotReleasable | 64 => ErrInvalidJob | 65 => ErrJobNotFound | 66 => ErrJobExists
      | 67 => ErrJobPhaseConflict | 68 => ErrJobPayloadCorrupt | 69 => ErrProbeDispositionNotEligible
      | 70 => ErrCommandlessLostRuntimeRecoveryNotReleasable | 71 => ErrCompletedTeardownRecoveryNotReleasable
      | 72 => ErrClosedCancelledJobSettlementNotEligible | 73 => ErrInvalidGarbageCollection
      | 74 => ErrSubscriberOverflow | 75 => ErrInvalidSubscriber | 76 => ErrRemoteEventBatch | 77 => ErrRemoteEventGap
      | 78 => ErrRemoteEventConflict | 79 => ErrRemoteEventTerminal | 80 => ErrRemoteEventNotFound
      | 81 => ErrRemoteEventRetentionExpired | 82 => ErrRemoteGapRecord | 83 => ErrRemoteGapConflict
      | 84 => ErrRemoteGapNotFound | 85 => ErrRemoteProjectionInvalid | 86 => ErrRemoteProjectionNotFound
      | 87 => ErrRemoteProjectionConflict | 88 => ErrInvalidLocalIntent | 89 => ErrLocalIntentExists
      | 90 => ErrLocalIntentNotFound | 91 => ErrLocalIntentPayloadCorrupt | 92 => ErrLocalIntentTransition
      | 93 => ErrLocalIdempotencyCorrupt | 94 => ErrNoEligibleLocalIntent | 95 => ErrLocalIntentLeaseHeld
      | 96 => ErrLocalIntentLeaseLost | 97 => ErrInvalidLocalIntentLease | 98 => ErrRemoteDriverConfiguration
      | 99 => ErrNoRemoteDispatchWork | 100 => ErrRemoteRejected | 101 => ErrRemoteUncertain | 102 => ErrRemoteResponse
      | 103 => ErrRemotePayload | 104 => ErrRemoteNotReconciled | 105 => ErrRemoteUncertaintyDeadline
      | 106 => ErrRemoteIdempotencyDeadline | 107 => ErrRemoteSessionNotReady | 108 => ErrRemoteSessionCreateFailed
      | 109 => ErrRemoteCancelledBeforeDelivery | 110 => ErrRemoteRouteUnavailable
      | 111 => ErrRemoteEventCallerUnavailable | 112 => ErrRemoteEventStream | 113 => ErrRemoteEventHistoryUnavailable
      | 114 => ErrRemoteEventCursor | 115 => ErrRemoteTerminalUnconfirmed | 116 => ErrDriverConfiguration
      | 117 => ErrNoLocalDispatchWork | 118 => ErrUnsupportedLocalOperation | 119 => ErrLocaldRejected
      | 120 => ErrLocaldTransport | 121 => ErrLocaldResponse | 122 => ErrTransport | 123 => ErrMailboxExchangeInvalid
      | 124 => ErrMailboxExchangeConflict | 125 => ErrMailboxExchangeNotFound | 126 => ErrMailboxResponseInvalid
      | 127 => ErrMailboxResponseExpired | 128 => ErrMailboxEventReferenceExpired | 129 => ErrMailboxTerminalImmutable
      | 130 => ErrMailboxOwnerAbandonmentNotEligible | 131 => ErrMailboxConfigurationPending
      | 132 => ErrMailboxRemoteStatusFailureNotEligible | 133 => ErrMailboxLifecycleEvidenceInvalid
      | 134 => ErrMailboxAckInvalid | 135 => ErrMailboxAckConflict | 136 => ErrMailboxCleanupState
      | 137 => ErrMailboxIngressDiagnosticInvalid | 138 => ErrMailboxIngressDiagnosticNotFound
      | 139 => ErrMailboxIngressDiagnosticConflict | 140 => ErrMailboxIngressDiagnosticExpired
      | 141 => ErrMailboxIngressDiagnosticCleanupState
      | _ => ErrText text
      end%N
  end.

Lemma error_of_error_code e : error_of_code (error_code e) = e.
Proof. induction e; cbn; congruence. Qed.

#[export] Instance error_eq_dec : EqDecision error.
Proof.
  refine (fun x y => cast_if (decide (error_code x = error_code y))); [|congruence].
  by rewrite <-(error_of_error_code x), <-(error_of_error_code y), e.
Defined.

(** [errors.Is] on the sentinels. *)
Fixpoint errors_is (e target : error) : bool :=
  bool_decide (e = target) ||
  match e with Errs outer inner => errors_is outer target || errors_is inner target | _ => false end.

(** ** The error monad and the state-and-error monad *)
Inductive result (A : Type) : Type :=
  | Ok (a : A)
  | Err (e : error).
Arguments Ok {A} a.
Arguments Err {A} e.

Definition result_is_ok {A} (r : result A) : bool := match r with Ok _ => true | Err _ => false end.
Definition result_map_err {A} (f : error -> error) (r : result A) : result A :=
  match r with Ok a => Ok a | Err e => Err (f e) end.

#[export] Instance result_ret : MRet result := fun A a => Ok a.
#[export] Instance result_bind : MBind result := fun A B k m =>
  match m with Ok a => k a | Err e => Err e end.

(** A computation that reads and writes an [S]; an error throws the writes away. *)
Definition stx (S A : Type) : Type := S -> result (A * S).

#[export] Instance stx_ret S : MRet (stx S) := fun A a s => Ok (a, s).
#[export] Instance stx_bind S : MBind (stx S) := fun A B k m s =>
  match m s with Ok (a, s') => k a s' | Err e => Err e end.

Section stx_operations.
Context {S : Type}.

Definition throw {A} (e : error) : stx S A := fun _ => Err e.
Definition lift {A} (r : result A) : stx S A := fun s =>
  match r with Ok a => Ok (a, s) | Err e => Err e end.
Definition query {A} (f : S -> A) : stx S A := fun s => Ok (f s, s).
Definition modify (f : S -> S) : stx S unit := fun s => Ok (tt, f s).
(** [if cond { return e }] *)
Definition fail_if (cond : bool) (e : error) : stx S unit :=
  if cond then throw e else mret tt.
End stx_operations.

(** [if cond { return e }] outside a transaction *)
Definition refuse_if (cond : bool) (e : error) : result unit := if cond then Err e else Ok tt.

(** A pointer or a [sql.Null...] column that must be present. *)
Definition or_fail {S A} (o : option A) (e : error) : stx S A :=
  match o with Some a => mret a | None => throw e end.

Section monad_lemmas.
Context {S A B : Type}.

Lemma result_bind_Ok (m : result A) (k : A -> result B) b :
  mbind k m = Ok b <-> exists a, m = Ok a /\ k a = Ok b.
Proof. destruct m; simpl; split; [eauto|naive_solver|done|naive_solver]. Qed.

Lemma stx_bind_Ok (m : stx S A) (k : A -> stx S B) s b s' :
  mbind k m s = Ok (b, s') <-> exists a s1, m s = Ok (a, s1) /\ k a s1 = Ok (b, s').
Proof.
  unfold mbind, stx_bind. destruct (m s) as [[a s1]|e]; split; [|naive_solver|done|naive_solver].
  intros; eauto.
Qed.

Lemma stx_bind_run (m : stx S A) (k : A -> stx S B) s a s1 :
  m s = Ok (a, s1) -> mbind k m s = k a s1.
Proof. unfold mbind, stx_bind. by intros ->. Qed.

Lemma stx_bind_err (m : stx S A) (k : A -> stx S B) s e :
  m s = Err e -> mbind k m s = Err e.
Proof. unfold mbind, stx_bind. by intros ->. Qed.

Lemma stx_ret_Ok (a a' : A) (s s' : S) :
  (mret a : stx S A) s = Ok (a', s') <-> a = a' /\ s = s'.
Proof. unfold mret, stx_ret. naive_solver. Qed.

Lemma throw_Ok e (a : A) (s s' : S) : throw e s = Ok (a, s') <-> False.
Proof. done. Qed.

Lemma lift_Ok (r : result A) a (s s' : S) : lift r s = Ok (a, s') <-> r = Ok a /\ s = s'.
Proof. unfold lift. destruct r; naive_solver. Qed.

Lemma query_Ok (f : S -> A) a (s s' : S) : query f s = Ok (a, s') <-> f s = a /\ s = s'.
Proof. unfold query. naive_solver. Qed.

Lemma modify_Ok (f : S -> S) u (s s' : S) : modify f s = Ok (u, s') <-> u = tt /\ s' = f s.
Proof. unfold modify. destruct u; naive_solver. Qed.

Lemma fail_if_Ok b e u (s s' : S) : fail_if b e s = Ok (u, s') <-> u = tt /\ b = false /\ s = s'.
Proof. unfold fail_if, throw, mret, stx_ret. destruct b, u; naive_solver. Qed.

Lemma refuse_if_Ok b e u : refuse_if b e = Ok u <-> u = tt /\ b = false.
Proof. unfold refuse_if. destruct b, u; naive_solver. Qed.

Lemma or_fail_Ok (o : option A) e a (s s' : S) :
  or_fail o e s = Ok (a, s') <-> o = Some a /\ s = s'.
Proof. unfold or_fail, throw, mret, stx_ret. destruct o; naive_solver. Qed.

Lemma result_map_err_Ok f (r : result A) a : result_map_err f r = Ok a <-> r = Ok a.
Proof. destruct r; naive_solver. Qed.
End monad_lemmas.

Lemma refuse_if_bind {A} b e (k : result A) v :
  (refuse_if b e;; k) = Ok v <-> b = false /\ k = Ok v.
Proof. unfold refuse_if. destruct b; simpl; naive_solver. Qed.

Lemma unit_bind_Ok {A} (m : result unit) (k : result A) v :
  (m;; k) = Ok v <-> m = Ok tt /\ k = Ok v.
Proof. destruct m as [[]|]; simpl; naive_solver. Qed.

(** ** Running a computation forwards

    The equations of the monad, as the rewrite database [tx_run]. *)
Section run_lemmas.
Context {S A B : Type}.
Implicit Types (k : A -> stx S B).

Lemma query_bind (f : S -> A) k s : mbind k (query f) s = k (f s) s.
Proof. done. Qed.
Lemma modify_bind (f : S -> S) (k : unit -> stx S B) s : mbind k (modify f) s = k tt (f s).
Proof. done. Qed.
Lemma ret_bind a k s : mbind k (mret a : stx S A) s = k a s.
Proof. done. Qed.
Lemma lift_bind_ok a k s : mbind k (lift (Ok a)) s = k a s.
Proof. done. Qed.
Lemma lift_bind_err e k s : mbind k (lift (Err e)) s = Err e.
Proof. done. Qed.
Lemma or_fail_bind_some a e k s : mbind k (or_fail (Some a) e) s = k a s.
Proof. done. Qed.
Lemma or_fail_bind_none e k s : mbind k (or_fail None e) s = Err e.
Proof. done. Qed.
Lemma fail_if_bind_false e (k : unit -> stx S B) s : mbind k (fail_if false e) s = k tt s.
Proof. done. Qed.
Lemma fail_if_bind_true e (k : unit -> stx S B) s : mbind k (fail_if true e) s = Err e.
Proof. done. Qed.
Lemma throw_bind e k s : mbind k (throw e) s = Err e.
Proof. done. Qed.
End run_lemmas.

Create HintDb tx_run.
#[export] Hint Rewrite @query_bind @modify_bind @ret_bind @lift_bind_ok @lift_bind_err
  @or_fail_bind_some @or_fail_bind_none @fail_if_bind_false @fail_if_bind_true @throw_bind : tx_run.

(** Run the goal as far as the equations go. *)
Ltac tx_run := repeat (progress (autorewrite with tx_run; cbn beta)).

(** ** Inversion of successful runs

    [tx_inv H] turns [H : (x <- m; k) s = Ok r] into the runs of its steps, and
    rewrites the successful guards into the condition that let them pass. *)
Ltac tx_step H :=
  lazymatch type of H with
  | mbind _ _ _ = Ok (_, _) =>
      let a := fresh "a" in let s := fresh "s" in let H1 := fresh "Hrun" in
      apply stx_bind_Ok in H; destruct H as (a & s & H1 & H); tx_step H1; tx_step H
  | mbind _ _ = Ok _ =>
      let a := fresh "a" in let H1 := fresh "Hrun" in
      apply result_bind_Ok in H; destruct H as (a & H1 & H); tx_step H1; tx_step H
  | mret _ _ = Ok (_, _) =>
      let H2 := fresh "Hs" in apply stx_ret_Ok in H; destruct H as [H H2];
      lazymatch type of H with
      | (_, _) = (_, _) => injection H; clear H; intros; subst
      | _ => subst
      end
  | throw _ _ = Ok (_, _) => apply throw_Ok in H; contradiction
  | lift _ _ = Ok (_, _) =>
      let H2 := fresh "Hs" in apply lift_Ok in H; destruct H as [H H2]; subst; tx_step H
  | query _ _ = Ok (_, _) =>
      let H2 := fresh "Hs" in apply query_Ok in H; destruct H as [H H2]; subst
  | modify _ _ = Ok (_, _) =>
      let H2 := fresh "Hs" in apply modify_Ok in H; destruct H as [H2 H]; subst
  | fail_if _ _ _ = Ok (_, _) =>
      let H1 := fresh "Hu" in let H2 := fresh "Hs" in
      apply fail_if_Ok in H; destruct H as (H1 & H & H2); subst
  | refuse_if _ _ = Ok _ =>
      let H1 := fresh "Hu" in apply refuse_if_Ok in H; destruct H as (H1 & H); subst
  | or_fail _ _ _ = Ok (_, _) =>
      let H2 := fresh "Hs" in apply or_fail_Ok in H; destruct H as [H H2]; subst
  | result_map_err _ _ = Ok _ => apply result_map_err_Ok in H; tx_step H
  | Ok _ = Ok _ => injection H as H; subst
  | Err _ = Ok _ => discriminate H
  | _ => idtac
  end.
Ltac tx_inv H := tx_step H.

(** ** Computations that only read *)
Class ReadOnly {S A} (m : stx S A) : Prop := read_only : forall s a s', m s = Ok (a, s') -> s' = s.

Section read_only.
Context {S A B : Type}.

#[export] Instance query_ro (f : S -> A) : ReadOnly (query f).
Proof. intros s a s' [_ <-]%query_Ok. done. Qed.
#[export] Instance ret_ro (a : A) : ReadOnly (mret a : stx S A).
Proof. intros s b s' [_ <-]%stx_ret_Ok. done. Qed.
#[export] Instance lift_ro (r : result A) : ReadOnly (lift r : stx S A).
Proof. intros s b s' [_ <-]%lift_Ok. done. Qed.
#[export] Instance or_fail_ro (o : option A) e : ReadOnly (or_fail o e : stx S A).
Proof. intros s b s' [_ <-]%or_fail_Ok. done. Qed.
#[export] Instance fail_if_ro b e : ReadOnly (fail_if b e : stx S unit).
Proof. intros s u s' (_ & _ & <-)%fail_if_Ok. done. Qed.
#[export] Instance throw_ro e : ReadOnly (throw e : stx S A).
Proof. intros s a s' []%throw_Ok. Qed.
#[export] Instance bind_ro (m : stx S A) (k : A -> stx S B) :
  ReadOnly m -> (forall a, ReadOnly (k a)) -> ReadOnly (mbind k m).
Proof. intros Hm Hk s b s' (a & s1 & H1%Hm & H2%Hk)%stx_bind_Ok. congruence. Qed.
End read_only.
#[export] Hint Extern 2 (ReadOnly (match ?x with _ => _ end)) => destruct x : typeclass_instances.

(** Boolean hypotheses as propositions. *)
Ltac bool_norm :=
  repeat match goal with
  | H : _ || _ = false |- _ => apply orb_false_iff in H; destruct H
  | H : _ && _ = true |- _ => apply andb_true_iff in H; destruct H
  | H : negb _ = true |- _ => apply negb_true_iff in H
  | H : negb _ = false |- _ => apply negb_false_iff in H
  | H : bool_decide _ = true |- _ => apply bool_decide_eq_true in H
  | H : bool_decide _ = false |- _ => apply bool_decide_eq_false in H
  | H : (_ <? _)%Z = true |- _ => apply Z.ltb_lt in H
  | H : (_ <? _)%Z = false |- _ => apply Z.ltb_ge in H
  | H : (_ <=? _)%Z = true |- _ => apply Z.leb_le in H
  | H : (_ <=? _)%Z = false |- _ => apply Z.leb_gt in H
  | H : (_ =? _)%Z = true |- _ => apply Z.eqb_eq in H
  | H : (_ =? _)%Z = false |- _ => apply Z.eqb_neq in H
  end.

(** ** Time

    A [time.Time] is its number of nanoseconds since year 1 (Go's zero time is
    [0]); a [time.Duration] is a number of nanoseconds.  A timestamp column
    holds the RFC3339Nano text of an instant.  [time.Parse] reads that text
    back exactly when the year has four digits, so the column is modelled by
    the instant its text denotes, or by a text that [time.Parse] refuses. *)
Definition nanosecond : Z := 1.
Definition second : Z := 1000000000.
Definition minute : Z := 60 * second.
Definition hour : Z := 60 * minute.

Inductive StoredTime : Type :=
  | StoredInstant (t : Z)
  | StoredGarbage.

#[export] Instance StoredTime_eq_dec : EqDecision StoredTime.
Proof. solve_decision. Defined.

(** The first instant of year 10000. *)
Definition year10000 : Z := 315537897600 * second.

Definition IsZero (t : Z) : bool := t =? 0.

(** store/sessions.go, formatStoredTime *)
Definition formatStoredTime (t : Z) : StoredTime :=
  if (0 <=? t) && (t <? year10000) then StoredInstant t else StoredGarbage.

(** store/sessions.go, parseStoredTime *)
Definition parseStoredTime (value : StoredTime) : option Z :=
  match value with
  | StoredInstant t => if IsZero t then None else Some t
  | StoredGarbage => None
  end.

(** The instants that survive a round trip through a timestamp column. *)
Definition storable (t : Z) : Prop := 0 < t < year10000.

#[export] Instance storable_dec t : Decision (storable t).
Proof. unfold storable. apply _. Defined.

Lemma format_storable t : storable t -> formatStoredTime t = StoredInstant t.
Proof.
  unfold storable, formatStoredTime. intros [??].
  rewrite (proj2 (Z.leb_le _ _)), (proj2 (Z.ltb_lt _ _)) by lia. done.
Qed.

Lemma parse_format_Some t t' : parseStoredTime (formatStoredTime t) = Some t' <-> t' = t /\ storable t.
Proof.
  unfold storable, formatStoredTime, parseStoredTime, IsZero.
  destruct (0 <=? t) eqn:E1, (t <? year10000) eqn:E2; simpl; bool_norm;
    try (split; [done|lia]).
  destruct (t =? 0) eqn:E3; bool_norm; split; try done; try lia.
  - intros [= <-]. lia.
  - intros [-> _]. done.
Qed.

Lemma parse_format t : storable t -> parseStoredTime (formatStoredTime t) = Some t.
Proof. intros. by apply parse_format_Some. Qed.

(** ** Numbered rows *)
Lemma drop_seqZ k m n : drop k (seqZ m n) = seqZ (m + Z.of_nat k) (n - Z.of_nat k).
Proof.
  revert m n. induction k as [|k IH]; intros m n; [by rewrite Z.add_0_r, Z.sub_0_r|].
  destruct (decide (0 < n)).
  - rewrite (seqZ_cons m n) by done. cbn [drop]. rewrite IH. f_equal; lia.
  - rewrite !seqZ_nil by lia. done.
Qed.

(** Sorting rows that are already numbered. *)
Section numbered.
Context {A : Type} (f : A -> Z) (R : A -> A -> Prop) `{!forall x y, Decision (R x y)}.
Context (HR : forall x y, R x y <-> f x <= f y).

Lemma numbered_distinct l k n x y :
  f <$> l = seqZ k n -> x ∈ l -> y ∈ l -> f x = f y -> x = y.
Proof.
  intros Hl Hx Hy Hxy. assert (NoDup (f <$> l)) as Hnd by (rewrite Hl; apply NoDup_seqZ).
  apply list_elem_of_lookup in Hx as [i Hi]. apply list_elem_of_lookup in Hy as [j Hj].
  assert (i = j) as ->; [|congruence].
  eapply NoDup_lookup; [exact Hnd| |]; rewrite list_lookup_fmap; [by rewrite Hi|]. rewrite Hj. simpl. by rewrite Hxy.
Qed.

Lemma numbered_sorted l k n : f <$> l = seqZ k n -> StronglySorted R l.
Proof.
  revert k n. induction l as [|x l IH]; intros k n Hxl; [constructor|].
  assert (0 < n) as Hn.
  { destruct (decide (0 < n)); [done|]. rewrite seqZ_nil in Hxl by lia. done. }
  rewrite seqZ_cons in Hxl by lia. cbn [fmap list_fmap] in Hxl. injection Hxl as Hx Hl. constructor; [by eapply IH|].
  apply Forall_forall. intros y Hy. apply HR. assert (f y ∈ f <$> l) as Hin by (apply list_elem_of_fmap; eauto).
  rewrite Hl in Hin. apply elem_of_seqZ in Hin. lia.
Qed.

Lemma merge_sort_numbered l k n : f <$> l = seqZ k n -> merge_sort R l = l.
Proof.
  intros Hl. assert (Transitive R) as Ht by (intros x y z; rewrite !HR; lia).
  assert (Total R) as Htot by (intros x y; rewrite !HR; lia).
  apply (StronglySorted_unique_strong R).
  - intros x y Hx Hy Hxy Hyx. rewrite merge_sort_Permutation in Hx. eapply numbered_distinct; [exact Hl|done..|].
    rewrite HR in Hxy, Hyx. lia.
  - apply StronglySorted_merge_sort; apply _.
  - by eapply numbered_sorted.
  - apply merge_sort_Permutation.
Qed.

Lemma filter_numbered l k a :
  f <$> l = seqZ k (Z.of_nat (length l)) ->
  filter (fun x => a < f x) l = drop (Z.to_nat (a + 1 - k)) l.
Proof.
  revert k. induction l as [|x l IH]; intros k Hl; [by rewrite drop_nil|].
  cbn [length] in Hl. rewrite Nat2Z.inj_succ, seqZ_cons, Z.pred_succ in Hl by lia.
  cbn [fmap list_fmap] in Hl. injection Hl as Hx Hl. rewrite filter_cons.
  destruct (decide (a < f x)) as [Hlt|Hge].
  - replace (Z.to_nat (a + 1 - k)) with 0%nat by lia. cbn [drop]. f_equal.
    assert (Forall (fun x => a < f x) l) as Hall.
    { apply Forall_forall. intros y Hy. assert (f y ∈ f <$> l) as Hin by (apply list_elem_of_fmap; eauto).
      rewrite Hl in Hin. apply elem_of_seqZ in Hin. lia. }
    clear -Hall. induction Hall; [done|]. rewrite filter_cons_True by done. by f_equal.
  - rewrite (IH (Z.succ k)) by done.
    replace (Z.to_nat (a + 1 - k)) with (S (Z.to_nat (a + 1 - Z.succ k))) by lia. done.
Qed.
End numbered.
