(* ===== verification/GoStrings.v ===== *)
(** * Byte strings

    Go strings and byte slices are both [string]: a sequence of bytes.  This
    file models what the program uses of the packages [strings], [bytes],
    [path/filepath], [unicode/utf8] and [sort]: lengths, NUL bytes,
    [strings.TrimSpace], [filepath.IsAbs], UTF-8 validity and the bytewise
    order of strings. *)
From Stdlib Require Import Ascii String.
From S2P Require Import Prelude.

Definition byte_of (c : ascii) : Z := Z.of_N (N_of_ascii c).
Definition ascii_of_byte (b : Z) : ascii := ascii_of_N (Z.to_N b).

Fixpoint bytes_of (s : string) : list Z :=
  match s with EmptyString => [] | String c s' => byte_of c :: bytes_of s' end.
Fixpoint string_of (l : list Z) : string :=
  match l with [] => EmptyString | b :: l' => String (ascii_of_byte b) (string_of l') end.

(** [len(s)] *)
Definition go_len (s : string) : Z := Z.of_nat (String.length s).

(** [strings.IndexByte(s, 0) >= 0] *)
Fixpoint contains_nul (s : string) : bool :=
  match s with EmptyString => false | String c s' => Ascii.eqb c zero || contains_nul s' end.

Definition is_empty (s : string) : bool := match s with EmptyString => true | _ => false end.

(** [filepath.IsAbs] on Unix *)
Definition IsAbs (path : string) : bool :=
  match path with String "/" _ => true | _ => false end.

(** SQLite's [length(x) > 0] on TEXT counts the characters before the first NUL. *)
Definition sql_length_pos (s : string) : bool :=
  match s with EmptyString => false | String c _ => negb (Ascii.eqb c zero) end.

(** SQLite's [length(x)] on TEXT: the characters before the first NUL, where the
    continuation bytes after a byte of at least 0xC0 belong to its character. *)
Fixpoint sql_length_bytes (in_character : bool) (l : list Z) : Z :=
  match l with
  | [] => 0
  | b :: l' =>
      if b =? 0 then 0
      else if in_character && (0x80 <=? b) && (b <=? 0xBF) then sql_length_bytes true l'
      else 1 + sql_length_bytes (0xC0 <=? b) l'
  end.
Definition sql_length (s : string) : Z := sql_length_bytes false (bytes_of s).

(** ** unicode/utf8: [utf8.Valid] *)
Definition in_range (lo hi b : Z) : bool := (lo <=? b) && (b <=? hi).
Definition continuation (b : Z) : bool := in_range 0x80 0xBF b.

(** The accepted second byte after each leading byte excludes overlong forms,
    surrogates and code points above U+10FFFF. *)
Definition second3 (b0 b1 : Z) : bool :=
  if b0 =? 0xE0 then in_range 0xA0 0xBF b1
  else if b0 =? 0xED then in_range 0x80 0x9F b1
  else continuation b1.
Definition second4 (b0 b1 : Z) : bool :=
  if b0 =? 0xF0 then in_range 0x90 0xBF b1
  else if b0 =? 0xF4 then in_range 0x80 0x8F b1
  else continuation b1.

Fixpoint utf8_valid_bytes (l : list Z) : bool :=
  match l with
  | [] => true
  | b0 :: l0 =>
    if b0 <? 0x80 then utf8_valid_bytes l0
    else match l0 with
    | [] => false
    | b1 :: l1 =>
      if in_range 0xC2 0xDF b0 then continuation b1 && utf8_valid_bytes l1
      else match l1 with
      | [] => false
      | b2 :: l2 =>
        if in_range 0xE0 0xEF b0 then second3 b0 b1 && continuation b2 && utf8_valid_bytes l2
        else match l2 with
        | [] => false
        | b3 :: l3 =>
          in_range 0xF0 0xF4 b0 && second4 b0 b1 && continuation b2 && continuation b3
          && utf8_valid_bytes l3
        end
      end
    end
  end.
Definition utf8_valid (s : string) : bool := utf8_valid_bytes (bytes_of s).

(** ** strings.TrimSpace

    [unicode.IsSpace] holds of the ASCII blanks, U+0085, U+00A0, U+1680,
    U+2000..U+200A, U+2028, U+2029, U+202F, U+205F and U+3000. *)
Definition ascii_space (b : Z) : bool := in_range 9 13 b || (b =? 32).

Fixpoint trim_left_bytes (l : list Z) : list Z :=
  match l with
  | [] => []
  | b0 :: l0 =>
    if ascii_space b0 then trim_left_bytes l0
    else match l0 with
    | [] => l
    | b1 :: l1 =>
      if (b0 =? 0xC2) && ((b1 =? 0x85) || (b1 =? 0xA0)) then trim_left_bytes l1
      else match l1 with
      | [] => l
      | b2 :: l2 =>
        if ((b0 =? 0xE1) && (b1 =? 0x9A) && (b2 =? 0x80))
           || ((b0 =? 0xE2) && (b1 =? 0x80) && (in_range 0x80 0x8A b2 || in_range 0xA8 0xA9 b2 || (b2 =? 0xAF)))
           || ((b0 =? 0xE2) && (b1 =? 0x81) && (b2 =? 0x9F))
           || ((b0 =? 0xE3) && (b1 =? 0x80) && (b2 =? 0x80))
        then trim_left_bytes l2 else l
      end
    end
  end.

(** The same, on the reversed bytes. *)
Fixpoint trim_right_rev (l : list Z) : list Z :=
  match l with
  | [] => []
  | b0 :: l0 =>
    if ascii_space b0 then trim_right_rev l0
    else match l0 with
    | [] => l
    | b1 :: l1 =>
      if (b1 =? 0xC2) && ((b0 =? 0x85) || (b0 =? 0xA0)) then trim_right_rev l1
      else match l1 with
      | [] => l
      | b2 :: l2 =>
        if ((b2 =? 0xE1) && (b1 =? 0x9A) && (b0 =? 0x80))
           || ((b2 =? 0xE2) && (b1 =? 0x80) && (in_range 0x80 0x8A b0 || in_range 0xA8 0xA9 b0 || (b0 =? 0xAF)))
           || ((b2 =? 0xE2) && (b1 =? 0x81) && (b0 =? 0x9F))
           || ((b2 =? 0xE3) && (b1 =? 0x80) && (b0 =? 0x80))
        then trim_right_rev l2 else l
      end
    end
  end.

Definition TrimSpace (s : string) : string :=
  string_of (rev (trim_right_rev (rev (trim_left_bytes (bytes_of s))))).

(** ** sort.Strings: the bytewise order *)
Fixpoint string_leb (s1 s2 : string) : bool :=
  match s1, s2 with
  | EmptyString, _ => true
  | String _ _, EmptyString => false
  | String c1 t1, String c2 t2 =>
      (byte_of c1 <? byte_of c2) || ((byte_of c1 =? byte_of c2) && string_leb t1 t2)
  end.
Definition string_ltb (s1 s2 : string) : bool := string_leb s1 s2 && negb (bool_decide (s1 = s2)).
Definition string_le (s1 s2 : string) : Prop := string_leb s1 s2 = true.

#[export] Instance string_le_dec s1 s2 : Decision (string_le s1 s2).
Proof. unfold string_le. apply _. Defined.

Lemma byte_of_inj c1 c2 : byte_of c1 = byte_of c2 -> c1 = c2.
Proof.
  unfold byte_of. intros H%N2Z.inj. rewrite <- (ascii_N_embedding c1), H.
  apply ascii_N_embedding.
Qed.

#[export] Instance string_le_total : Total string_le.
Proof.
  intros s1. unfold string_le. induction s1 as [|c1 t1 IH]; intros [|c2 t2]; simpl; auto.
  rewrite !orb_true_iff, !andb_true_iff, !Z.ltb_lt, !Z.eqb_eq.
  destruct (IH t2), (Z.lt_total (byte_of c1) (byte_of c2)) as [|[|]]; auto.
Qed.
#[export] Instance string_le_trans : Transitive string_le.
Proof.
  intros s1. unfold string_le. induction s1 as [|c1 t1 IH]; intros [|c2 t2] [|c3 t3]; simpl; try done.
  rewrite !orb_true_iff, !andb_true_iff, !Z.ltb_lt, !Z.eqb_eq.
  intros [?|[??]] [?|[??]]; [left; lia..|]. right. split; [lia|eauto].
Qed.
#[export] Instance string_le_antisymm : AntiSymm (=) string_le.
Proof.
  intros s1. unfold string_le. induction s1 as [|c1 t1 IH]; intros [|c2 t2]; simpl; try done.
  rewrite !orb_true_iff, !andb_true_iff, !Z.ltb_lt, !Z.eqb_eq.
  intros [?|[??]] [?|[??]]; [lia..|]. f_equal; [by apply byte_of_inj|eauto].
Qed.

Definition sort_strings (l : list string) : list string := merge_sort string_le l.

(** ** Lemmas *)
Lemma byte_of_range c : 0 <= byte_of c < 256.
Proof.
  unfold byte_of. pose proof (N_ascii_bounded c). lia.
Qed.

Lemma ascii_of_byte_of c : ascii_of_byte (byte_of c) = c.
Proof. unfold ascii_of_byte, byte_of. rewrite N2Z.id. apply ascii_N_embedding. Qed.

Lemma byte_of_ascii_of b : 0 <= b < 256 -> byte_of (ascii_of_byte b) = b.
Proof.
  intros. unfold ascii_of_byte, byte_of. rewrite N_ascii_embedding by lia. lia.
Qed.

Lemma string_of_bytes_of s : string_of (bytes_of s) = s.
Proof. induction s; simpl; [done|]. by rewrite ascii_of_byte_of, IHs. Qed.

Lemma bytes_of_string_of l : Forall (fun b => 0 <= b < 256) l -> bytes_of (string_of l) = l.
Proof. induction 1; simpl; [done|]. by rewrite byte_of_ascii_of, IHForall. Qed.

Lemma length_string_of l : String.length (string_of l) = length l.
Proof. induction l; simpl; congruence. Qed.

Lemma length_bytes_of s : length (bytes_of s) = String.length s.
Proof. induction s; simpl; congruence. Qed.

Lemma bytes_of_range s : Forall (fun b => 0 <= b < 256) (bytes_of s).
Proof. induction s; simpl; constructor; auto using byte_of_range. Qed.

Lemma is_empty_true s : is_empty s = true <-> s = "".
Proof. destruct s; simpl; naive_solver. Qed.
Lemma is_empty_false s : is_empty s = false <-> s <> "".
Proof. destruct s; simpl; naive_solver. Qed.

Lemma go_len_nonneg s : 0 <= go_len s.
Proof. unfold go_len. lia. Qed.

Example TrimSpace_example : TrimSpace "	 linux-dev  " = "linux-dev".
Proof. reflexivity. Qed.
Example utf8_overlong : utf8_valid (string_of [0xC0; 0x80]) = false.
Proof. reflexivity. Qed.
Example utf8_surrogate : utf8_valid (string_of [0xED; 0xA0; 0x80]) = false.
Proof. reflexivity. Qed.
Example utf8_euro : utf8_valid (string_of [0xE2; 0x82; 0xAC]) = true.
Proof. reflexivity. Qed.
