(* ===== verification/Sha256.v ===== *)
(** * crypto/sha256

    The SHA-256 digest of FIPS 180-4 on byte strings, as [sha256.Sum256]
    computes it: 32-bit words are [Z] reduced modulo [2^32]. *)
From S2P Require Import Prelude GoStrings.

Module Sha256.

Definition word (x : Z) : Z := Z.land x 0xFFFFFFFF.
Definition add32 (x y : Z) : Z := word (x + y).
Definition rotr (n x : Z) : Z := Z.lor (Z.shiftr x n) (word (Z.shiftl x (32 - n))).
Definition not32 (x : Z) : Z := Z.lxor x 0xFFFFFFFF.

Definition ch (x y z : Z) : Z := Z.lxor (Z.land x y) (Z.land (not32 x) z).
Definition maj (x y z : Z) : Z := Z.lxor (Z.lxor (Z.land x y) (Z.land x z)) (Z.land y z).
Definition bsig0 (x : Z) : Z := Z.lxor (Z.lxor (rotr 2 x) (rotr 13 x)) (rotr 22 x).
Definition bsig1 (x : Z) : Z := Z.lxor (Z.lxor (rotr 6 x) (rotr 11 x)) (rotr 25 x).
Definition ssig0 (x : Z) : Z := Z.lxor (Z.lxor (rotr 7 x) (rotr 18 x)) (Z.shiftr x 3).
Definition ssig1 (x : Z) : Z := Z.lxor (Z.lxor (rotr 17 x) (rotr 19 x)) (Z.shiftr x 10).

(** The constants of sections 4.2.2 and 5.3.3 are the first 32 bits of the
    fractional parts of roots of the first primes. *)
Definition is_prime (p : Z) : bool :=
  forallb (fun d => negb (p mod d =? 0)) (seqZ 2 (Z.sqrt p - 1)).

Definition primes (n : nat) : list Z :=
  take n (List.filter is_prime (seqZ 2 400)).

(** The integer cube root, one bit at a time. *)
Fixpoint cube_root (bits : nat) (root x : Z) : Z :=
  match bits with
  | O => root
  | S bits' =>
      let next := root + 2 ^ Z.of_nat bits' in
      cube_root bits' (if next ^ 3 <=? x then next else root) x
  end.

Definition cube_root_fraction (p : Z) : Z := word (cube_root 40 0 (p * 2 ^ 96)).
Definition square_root_fraction (p : Z) : Z := word (Z.sqrt (p * 2 ^ 64)).

Definition K : list Z := Eval vm_compute in cube_root_fraction <$> primes 64.

Record state : Type := mkState { a_ : Z; b_ : Z; c_ : Z; d_ : Z; e_ : Z; f_ : Z; g_ : Z; h_ : Z }.

Definition H0 : state := Eval vm_compute in
  let root i := square_root_fraction (nth i (primes 8) 0) in
  mkState (root 0%nat) (root 1%nat) (root 2%nat) (root 3%nat)
          (root 4%nat) (root 5%nat) (root 6%nat) (root 7%nat).

Definition round (st : state) (kw : Z * Z) : state :=
  let '(k, w) := kw in
  let t1 := add32 (add32 (add32 (h_ st) (bsig1 (e_ st))) (ch (e_ st) (f_ st) (g_ st))) (add32 k w) in
  let t2 := add32 (bsig0 (a_ st)) (maj (a_ st) (b_ st) (c_ st)) in
  mkState (add32 t1 t2) (a_ st) (b_ st) (c_ st) (add32 (d_ st) t1) (e_ st) (f_ st) (g_ st).

(** The message schedule, from the sixteen words of a block; [window] holds the
    last sixteen words, oldest first. *)
Fixpoint schedule (n : nat) (window : list Z) : list Z :=
  match n with
  | O => []
  | S n' =>
      match window with
      | w0 :: rest =>
          let w1 := nth 0 rest 0 in
          let w9 := nth 8 rest 0 in
          let w14 := nth 13 rest 0 in
          let next := add32 (add32 (ssig1 w14) w9) (add32 (ssig0 w1) w0) in
          w0 :: schedule n' (rest ++ [next])
      | [] => []
      end
  end.

Definition compress (st : state) (block : list Z) : state :=
  let r := foldl round st (zip K (schedule 64 block)) in
  mkState (add32 (a_ st) (a_ r)) (add32 (b_ st) (b_ r)) (add32 (c_ st) (c_ r)) (add32 (d_ st) (d_ r))
          (add32 (e_ st) (e_ r)) (add32 (f_ st) (f_ r)) (add32 (g_ st) (g_ r)) (add32 (h_ st) (h_ r)).

Fixpoint words (l : list Z) : list Z :=
  match l with
  | b0 :: b1 :: b2 :: b3 :: l' =>
      Z.lor (Z.shiftl b0 24) (Z.lor (Z.shiftl b1 16) (Z.lor (Z.shiftl b2 8) b3)) :: words l'
  | _ => []
  end.

(** The big-endian bytes of a word of [n] bytes. *)
Fixpoint be_bytes (n : nat) (x : Z) : list Z :=
  match n with
  | O => []
  | S n' => Z.land (Z.shiftr x (8 * Z.of_nat n')) 0xFF :: be_bytes n' x
  end.

Definition pad (l : list Z) : list Z :=
  let n := Z.of_nat (length l) in
  let zeros := Z.to_nat ((55 - n) mod 64) in
  l ++ [0x80] ++ replicate zeros 0 ++ be_bytes 8 (8 * n).

Fixpoint blocks (fuel : nat) (st : state) (ws : list Z) : state :=
  match fuel, ws with
  | S fuel', _ :: _ => blocks fuel' (compress st (take 16 ws)) (drop 16 ws)
  | _, _ => st
  end.

Definition digest (st : state) : list Z :=
  be_bytes 4 (a_ st) ++ be_bytes 4 (b_ st) ++ be_bytes 4 (c_ st) ++ be_bytes 4 (d_ st) ++
  be_bytes 4 (e_ st) ++ be_bytes 4 (f_ st) ++ be_bytes 4 (g_ st) ++ be_bytes 4 (h_ st).

End Sha256.

(** [sha256.Size] *)
Definition sha256_Size : Z := 32.

(** [sha256.Sum256]; every block has sixteen words, so the number of words is
    enough fuel. *)
Definition sha256 (s : string) : string :=
  let ws := Sha256.words (Sha256.pad (bytes_of s)) in
  string_of (Sha256.digest (Sha256.blocks (length ws) Sha256.H0 ws)).

Lemma be_bytes_length n x : length (Sha256.be_bytes n x) = n.
Proof. induction n; simpl; congruence. Qed.

Lemma sha256_length s : go_len (sha256 s) = sha256_Size.
Proof.
  unfold go_len, sha256. cbv zeta. rewrite length_string_of.
  generalize (Sha256.blocks (length (Sha256.words (Sha256.pad (bytes_of s)))) Sha256.H0
    (Sha256.words (Sha256.pad (bytes_of s)))). intros st.
  unfold Sha256.digest. rewrite !length_app, !be_bytes_length. reflexivity.
Qed.

Example sha256_abc : bytes_of (sha256 "abc") =
  [0xba; 0x78; 0x16; 0xbf; 0x8f; 0x01; 0xcf; 0xea; 0x41; 0x41; 0x40; 0xde; 0x5d; 0xae; 0x22; 0x23;
   0xb0; 0x03; 0x61; 0xa3; 0x96; 0x17; 0x7a; 0x9c; 0xb4; 0x10; 0xff; 0x61; 0xf2; 0x00; 0x15; 0xad].
Proof. vm_compute. reflexivity. Qed.

#[global] Opaque sha256.
#[global] Arguments sha256 : simpl never.
