(* ===== verification/Identity.v ===== *)
(** * Identifiers, controllers and targets

    Models [src/src/internal/domain/identity.go] and
    [src/src/internal/domain/limits.go]: the opaque identifiers, the controller
    namespaces, the execution targets and the byte ceilings of serialized
    requests and scripts.  A Go string type with named constants is an
    inductive type with one constructor per constant and one for every other
    string. *)
From S2P Require Import Prelude GoStrings.

(** ** limits.go *)
Definition MaxSerializedRequestBytes : Z := Z.shiftl 1 20.
Definition MaxSerializedFrameBytes : Z := MaxSerializedRequestBytes.
Definition MaxScriptUTF8Bytes : Z := Z.shiftl 128 10.

Definition validateSerializedSize (raw : string) (maximum : Z) : result unit :=
  if maximum <? go_len raw then Err ErrSerializedInputTooLarge else Ok tt.

Definition ValidateSerializedRequest (raw : string) : result unit :=
  validateSerializedSize raw MaxSerializedRequestBytes.

Definition ValidateSerializedFrame (frame : string) : result unit :=
  validateSerializedSize frame MaxSerializedFrameBytes.

Definition ValidateScriptUTF8 (script : string) : result unit :=
  if negb (utf8_valid script) then Err ErrScriptInvalidUTF8
  else if MaxScriptUTF8Bytes <? go_len script then Err ErrScriptTooLarge
  else Ok tt.

(** ** identity.go *)
Definition validateID (value : string) : result unit :=
  if is_empty value then Err ErrEmptyID else Ok tt.

Definition NewSessionID (value : string) : result string := validateID value;; Ok value.
Definition NewCommandID (value : string) : result string := validateID value;; Ok value.
Definition NewJobID (value : string) : result string := validateID value;; Ok value.
Definition NewRequestID (value : string) : result string := validateID value;; Ok value.
Definition NewIntentID (value : string) : result string := validateID value;; Ok value.
Definition NewControllerID (value : string) : result string := validateID value;; Ok value.

Inductive ControllerType : Type :=
  | ControllerTypeLocalUser
  | ControllerTypeQueuedMac
  | ControllerTypeDirectMTLS
  | ControllerTypeOther (value : string).

#[export] Instance ControllerType_eq_dec : EqDecision ControllerType.
Proof. solve_decision. Defined.

(** [string(controller.Type())], the text stored in a key column. *)
Definition ControllerType_text (t : ControllerType) : string :=
  match t with
  | ControllerTypeLocalUser => "local_user"
  | ControllerTypeQueuedMac => "queued_mac"
  | ControllerTypeDirectMTLS => "direct_mtls"
  | ControllerTypeOther value => value
  end.

Record ControllerIdentity : Type := mkControllerIdentity {
  controller_typeName : ControllerType;
  controller_id : string
}.

#[export] Instance ControllerIdentity_eq_dec : EqDecision ControllerIdentity.
Proof. solve_decision. Defined.

Definition NewControllerIdentity (typeName : ControllerType) (id : string) : result ControllerIdentity :=
  match typeName with
  | ControllerTypeLocalUser | ControllerTypeQueuedMac | ControllerTypeDirectMTLS =>
      validateID id;; Ok (mkControllerIdentity typeName id)
  | ControllerTypeOther _ => Err ErrInvalidControllerType
  end.

Inductive TargetKind : Type :=
  | TargetKindLocal
  | TargetKindRemote
  | TargetKindOther (value : string).

#[export] Instance TargetKind_eq_dec : EqDecision TargetKind.
Proof. solve_decision. Defined.

Definition TargetKind_text (k : TargetKind) : string :=
  match k with
  | TargetKindLocal => "local"
  | TargetKindRemote => "remote"
  | TargetKindOther value => value
  end.

Record ExecutionTarget : Type := mkExecutionTarget {
  target_kind : TargetKind;
  target_profile : string
}.

#[export] Instance ExecutionTarget_eq_dec : EqDecision ExecutionTarget.
Proof. solve_decision. Defined.

Definition NewExecutionTarget (kind : TargetKind) (profile : string) : result ExecutionTarget :=
  match kind with
  | TargetKindLocal | TargetKindRemote =>
      if is_empty profile then Err ErrEmptyTargetProfile
      else Ok (mkExecutionTarget kind profile)
  | TargetKindOther _ => Err ErrInvalidTargetKind
  end.

(** ** Characterizations *)
Lemma validateID_Ok value u : validateID value = Ok u <-> value <> "".
Proof. unfold validateID. destruct u, value; simpl; naive_solver. Qed.

Lemma NewSessionID_Ok value id : NewSessionID value = Ok id <-> id = value /\ value <> "".
Proof. unfold NewSessionID, validateID. destruct value; simpl; naive_solver. Qed.
Lemma NewCommandID_Ok value id : NewCommandID value = Ok id <-> id = value /\ value <> "".
Proof. apply NewSessionID_Ok. Qed.
Lemma NewJobID_Ok value id : NewJobID value = Ok id <-> id = value /\ value <> "".
Proof. apply NewSessionID_Ok. Qed.
Lemma NewControllerID_Ok value id : NewControllerID value = Ok id <-> id = value /\ value <> "".
Proof. apply NewSessionID_Ok. Qed.

Definition known_controller (t : ControllerType) : Prop :=
  match t with ControllerTypeOther _ => False | _ => True end.
Definition known_kind (k : TargetKind) : Prop :=
  match k with TargetKindOther _ => False | _ => True end.

Lemma NewControllerIdentity_Ok t id c :
  NewControllerIdentity t id = Ok c <->
  c = mkControllerIdentity t id /\ known_controller t /\ id <> "".
Proof.
  destruct t; unfold NewControllerIdentity; rewrite ?result_bind_Ok; simpl;
    [setoid_rewrite validateID_Ok; naive_solver..|naive_solver].
Qed.

Lemma NewExecutionTarget_Ok k p t :
  NewExecutionTarget k p = Ok t <-> t = mkExecutionTarget k p /\ known_kind k /\ p <> "".
Proof. destruct k, p; simpl; naive_solver. Qed.

Lemma ValidateScriptUTF8_Ok script u :
  ValidateScriptUTF8 script = Ok u <->
  utf8_valid script = true /\ go_len script <= MaxScriptUTF8Bytes.
Proof.
  unfold ValidateScriptUTF8. destruct u, (utf8_valid script); simpl; [|naive_solver].
  destruct (Z.ltb_spec MaxScriptUTF8Bytes (go_len script)); naive_solver lia.
Qed.
