(* ===== verification/Lifecycle.v ===== *)
(** * Session and command state machines

    Models [src/src/internal/domain/state.go]: the v1 state vocabularies, the
    D-01 transition tables and the immutable lifecycle values. *)
From S2P Require Import Prelude GoStrings Identity.

Inductive SessionState : Type :=
  | SessionStateRequested | SessionStateCreating | SessionStateReady | SessionStateBusy
  | SessionStateClosing | SessionStateClosed | SessionStateExpired | SessionStateFailed
  | SessionStateLost
  | SessionStateOther (value : string).

#[export] Instance SessionState_eq_dec : EqDecision SessionState.
Proof. solve_decision. Defined.

(** [sessionStateTransitions] *)
Definition sessionStateTransitions (s : SessionState) : list SessionState :=
  match s with
  | SessionStateRequested => [SessionStateCreating]
  | SessionStateCreating => [SessionStateReady; SessionStateFailed; SessionStateLost; SessionStateClosing]
  | SessionStateReady => [SessionStateBusy; SessionStateClosing; SessionStateExpired; SessionStateLost]
  | SessionStateBusy => [SessionStateReady; SessionStateClosing; SessionStateExpired; SessionStateLost]
  | SessionStateClosing => [SessionStateClosed; SessionStateLost]
  | _ => []
  end.

Definition SessionState_Valid (s : SessionState) : bool :=
  match s with SessionStateOther _ => false | _ => true end.

Definition SessionState_IsTerminal (s : SessionState) : bool :=
  match s with
  | SessionStateClosed | SessionStateExpired | SessionStateFailed | SessionStateLost => true
  | _ => false
  end.

Definition SessionState_CanTransitionTo (s next : SessionState) : bool :=
  bool_decide (next ∈ sessionStateTransitions s).

Definition ValidateSessionTransition (current next : SessionState) : result unit :=
  if negb (SessionState_Valid current) then Err ErrInvalidSessionState
  else if negb (SessionState_Valid next) then Err ErrInvalidSessionState
  else if negb (SessionState_CanTransitionTo current next) then Err ErrIllegalSessionTransition
  else Ok tt.

Record SessionLifecycle : Type := mkSessionLifecycle {
  lifecycle_sessionID : string;
  lifecycle_target : ExecutionTarget;
  lifecycle_state : SessionState
}.

Definition NewSessionLifecycle (sessionID : string) (target : ExecutionTarget) (state : SessionState)
    : result SessionLifecycle :=
  validateID sessionID;;
  validatedTarget ← NewExecutionTarget (target_kind target) (target_profile target);
  if negb (SessionState_Valid state) then Err ErrInvalidSessionState
  else Ok (mkSessionLifecycle sessionID validatedTarget state).

Definition SessionLifecycle_Transition (s : SessionLifecycle) (next : SessionState)
    : result SessionLifecycle :=
  ValidateSessionTransition (lifecycle_state s) next;;
  Ok (mkSessionLifecycle (lifecycle_sessionID s) (lifecycle_target s) next).

Inductive CommandState : Type :=
  | CommandStateQueued | CommandStateRunning | CommandStateCancelling | CommandStateSucceeded
  | CommandStateFailed | CommandStateCancelled | CommandStateTimedOut | CommandStateRejected
  | CommandStateLost
  | CommandStateOther (value : string).

#[export] Instance CommandState_eq_dec : EqDecision CommandState.
Proof. solve_decision. Defined.

(** [commandStateTransitions] *)
Definition commandStateTransitions (s : CommandState) : list CommandState :=
  match s with
  | CommandStateQueued => [CommandStateRunning; CommandStateCancelled; CommandStateRejected]
  | CommandStateRunning =>
      [CommandStateSucceeded; CommandStateFailed; CommandStateCancelling; CommandStateTimedOut;
       CommandStateLost]
  | CommandStateCancelling =>
      [CommandStateCancelled; CommandStateTimedOut; CommandStateSucceeded; CommandStateFailed;
       CommandStateLost]
  | _ => []
  end.

Definition CommandState_Valid (s : CommandState) : bool :=
  match s with CommandStateOther _ => false | _ => true end.

Definition CommandState_IsTerminal (s : CommandState) : bool :=
  match s with
  | CommandStateSucceeded | CommandStateFailed | CommandStateCancelled
  | CommandStateTimedOut | CommandStateRejected | CommandStateLost => true
  | _ => false
  end.

Definition CommandState_CanTransitionTo (s next : CommandState) : bool :=
  bool_decide (next ∈ commandStateTransitions s).

Definition ValidateCommandTransition (current next : CommandState) : result unit :=
  if negb (CommandState_Valid current) then Err ErrInvalidCommandState
  else if negb (CommandState_Valid next) then Err ErrInvalidCommandState
  else if negb (CommandState_CanTransitionTo current next) then Err ErrIllegalCommandTransition
  else Ok tt.

Record CommandLifecycle : Type := mkCommandLifecycle {
  lifecycle_commandID : string;
  lifecycle_parent : string;
  lifecycle_commandState : CommandState
}.

Definition NewCommandLifecycle (commandID sessionID : string) (state : CommandState)
    : result CommandLifecycle :=
  validateID commandID;;
  validateID sessionID;;
  if negb (CommandState_Valid state) then Err ErrInvalidCommandState
  else Ok (mkCommandLifecycle commandID sessionID state).

Definition CommandLifecycle_Transition (c : CommandLifecycle) (next : CommandState)
    : result CommandLifecycle :=
  ValidateCommandTransition (lifecycle_commandState c) next;;
  Ok (mkCommandLifecycle (lifecycle_commandID c) (lifecycle_parent c) next).

(** ** The transition relations as edges of a graph *)
Definition session_edge (s next : SessionState) : Prop := next ∈ sessionStateTransitions s.
Definition command_edge (s next : CommandState) : Prop := next ∈ commandStateTransitions s.

Lemma ValidateSessionTransition_Ok s next u :
  ValidateSessionTransition s next = Ok u <-> session_edge s next.
Proof.
  unfold ValidateSessionTransition, SessionState_CanTransitionTo, session_edge.
  destruct u, s, next; vm_compute; split; intros H; try done; set_solver.
Qed.

Lemma ValidateCommandTransition_Ok s next u :
  ValidateCommandTransition s next = Ok u <-> command_edge s next.
Proof.
  unfold ValidateCommandTransition, CommandState_CanTransitionTo, command_edge.
  destruct u, s, next; vm_compute; split; intros H; try done; set_solver.
Qed.
