(* ===== verification/Policy.v ===== *)
(** * Environment policy

    Models [src/src/internal/domain/policy.go]: workspace sources, service
    limits, environments with their validation, and the policy decision on a
    session request. *)
From S2P Require Import Prelude GoStrings Identity.

(** ** Sources *)
Inductive SourceMode : Type :=
  | SourceModeEmpty
  | SourceModeGitRevision
  | SourceModeLocalWorktree
  | SourceModeOther (value : string).

#[export] Instance SourceMode_eq_dec : EqDecision SourceMode.
Proof. solve_decision. Defined.
#[export] Instance SourceMode_countable : Countable SourceMode.
Proof.
  refine (inj_countable'
    (fun m => match m with
              | SourceModeEmpty => inl 0%nat | SourceModeGitRevision => inl 1%nat
              | SourceModeLocalWorktree => inl 2%nat | SourceModeOther v => inr v end)
    (fun c => match c with
              | inl 0%nat => SourceModeEmpty | inl 1%nat => SourceModeGitRevision
              | inl _ => SourceModeLocalWorktree | inr v => SourceModeOther v end) _).
  by intros [].
Defined.

Definition SourceMode_text (m : SourceMode) : string :=
  match m with
  | SourceModeEmpty => "empty"
  | SourceModeGitRevision => "git_revision"
  | SourceModeLocalWorktree => "local_worktree"
  | SourceModeOther value => value
  end.

Record Source : Type := mkSource {
  source_mode : SourceMode;
  source_repositoryAlias : string;
  source_requestedRevision : string;
  source_path : string
}.

#[export] Instance Source_eq_dec : EqDecision Source.
Proof. solve_decision. Defined.

Definition NewEmptySource : Source := mkSource SourceModeEmpty "" "" "".

Definition NewGitRevisionSource (repositoryAlias requestedRevision : string) : result Source :=
  if is_empty repositoryAlias || is_empty requestedRevision then Err ErrInvalidSource
  else Ok (mkSource SourceModeGitRevision repositoryAlias requestedRevision "").

Definition NewLocalWorktreeSource (path : string) : result Source :=
  if negb (IsAbs path) then Err ErrInvalidSource
  else Ok (mkSource SourceModeLocalWorktree "" "" path).

Definition Source_Portable (s : Source) : bool :=
  bool_decide (source_mode s = SourceModeEmpty) || bool_decide (source_mode s = SourceModeGitRevision).

Definition Source_valid (s : Source) : bool :=
  match source_mode s with
  | SourceModeEmpty =>
      is_empty (source_repositoryAlias s) && is_empty (source_requestedRevision s) && is_empty (source_path s)
  | SourceModeGitRevision =>
      negb (is_empty (source_repositoryAlias s)) && negb (is_empty (source_requestedRevision s))
      && is_empty (source_path s)
  | SourceModeLocalWorktree =>
      is_empty (source_repositoryAlias s) && is_empty (source_requestedRevision s) && IsAbs (source_path s)
  | SourceModeOther _ => false
  end.

(** ** Service limits *)
Record ServiceLimits : Type := mkServiceLimits {
  ActiveSessionsPerHost : Z;
  RunningCommandsPerHost : Z;
  SerializedRequestBytes : Z;
  ScriptBytesPerRequest : Z;
  CommandTimeout : Z;
  IdleTimeout : Z;
  SessionMaxLifetime : Z;
  OutputBytesPerCommand : Z;
  SubscriberBufferBytes : Z;
  PersistenceQueueBytes : Z;
  MetadataRetention : Z;
  OutputRetention : Z
}.

Definition DefaultServiceLimits : ServiceLimits := {|
  ActiveSessionsPerHost := 20;
  RunningCommandsPerHost := 4;
  SerializedRequestBytes := MaxSerializedRequestBytes;
  ScriptBytesPerRequest := MaxScriptUTF8Bytes;
  CommandTimeout := 30 * minute;
  IdleTimeout := 30 * minute;
  SessionMaxLifetime := 4 * hour;
  OutputBytesPerCommand := Z.shiftl 100 20;
  SubscriberBufferBytes := Z.shiftl 1 20;
  PersistenceQueueBytes := Z.shiftl 16 20;
  MetadataRetention := 90 * 24 * hour;
  OutputRetention := 30 * 24 * hour
|}.

Definition ServiceLimits_valid (limits : ServiceLimits) : bool :=
  (0 <? ActiveSessionsPerHost limits) && (0 <? RunningCommandsPerHost limits) &&
  (0 <? SerializedRequestBytes limits) && (0 <? ScriptBytesPerRequest limits) &&
  (0 <? CommandTimeout limits) && (0 <? IdleTimeout limits) &&
  (0 <? SessionMaxLifetime limits) && (0 <? OutputBytesPerCommand limits) &&
  (0 <? SubscriberBufferBytes limits) && (0 <? PersistenceQueueBytes limits) &&
  (0 <? MetadataRetention limits) && (0 <? OutputRetention limits).

(** ** Environments *)
Record EnvironmentSpec : Type := mkEnvironmentSpec {
  spec_Name : string;
  spec_HostClass : string;
  spec_EffectiveAccount : string;
  spec_AllowedTargets : list ExecutionTarget;
  spec_AllowedSourceModes : list SourceMode;
  spec_AllowedRepositoryAliases : list string;
  spec_AllowedControllers : list ControllerIdentity;
  spec_ServiceLimits : ServiceLimits
}.

Record Environment : Type := mkEnvironment {
  env_name : string;
  env_hostClass : string;
  env_effectiveAccount : string;
  env_allowedTargets : list ExecutionTarget;
  env_allowedSourceModes : list SourceMode;
  env_allowedRepositoryAliases : list string;
  env_allowedControllers : list ControllerIdentity;
  env_serviceLimits : ServiceLimits
}.

Definition validControllerIdentity (controller : ControllerIdentity) : bool :=
  match controller_typeName controller with
  | ControllerTypeLocalUser | ControllerTypeQueuedMac | ControllerTypeDirectMTLS =>
      negb (is_empty (controller_id controller))
  | ControllerTypeOther _ => false
  end.

Definition is_nil {A} (l : list A) : bool := match l with [] => true | _ => false end.

(** The separator of the duplicate keys, ["\x00"]. *)
Definition key_separator : string := string_of [0].
Definition target_key (target : ExecutionTarget) : string :=
  TargetKind_text (target_kind target) +:+ key_separator +:+ target_profile target.
Definition controller_key (controller : ControllerIdentity) : string :=
  ControllerType_text (controller_typeName controller) +:+ key_separator +:+ controller_id controller.

(** The four validation loops of [NewEnvironment]; [seen] is the set of keys
    met so far.  The first two return what the loop found out. *)
Fixpoint checkTargets (seen : gset string) (hasLocalTarget : bool) (targets : list ExecutionTarget)
    : result bool :=
  match targets with
  | [] => Ok hasLocalTarget
  | target :: rest =>
      if is_empty (target_profile target)
         || (negb (bool_decide (target_kind target = TargetKindLocal))
             && negb (bool_decide (target_kind target = TargetKindRemote)))
      then Err ErrInvalidEnvironment
      else
        let hasLocal' := hasLocalTarget || bool_decide (target_kind target = TargetKindLocal) in
        if bool_decide (target_key target ∈ seen) then Err ErrInvalidEnvironment
        else checkTargets ({[target_key target]} ∪ seen) hasLocal' rest
  end.

Fixpoint checkSourceModes (seen : gset SourceMode) (allowsGitRevision allowsLocalWorktree : bool)
    (modes : list SourceMode) : result (bool * bool) :=
  match modes with
  | [] => Ok (allowsGitRevision, allowsLocalWorktree)
  | mode :: rest =>
      match mode with
      | SourceModeOther _ => Err ErrInvalidEnvironment
      | _ =>
          let git' := allowsGitRevision || bool_decide (mode = SourceModeGitRevision) in
          let local' := allowsLocalWorktree || bool_decide (mode = SourceModeLocalWorktree) in
          if bool_decide (mode ∈ seen) then Err ErrInvalidEnvironment
          else checkSourceModes ({[mode]} ∪ seen) git' local' rest
      end
  end.

Fixpoint checkAliases (seen : gset string) (aliases : list string) : result unit :=
  match aliases with
  | [] => Ok tt
  | alias :: rest =>
      if is_empty alias then Err ErrInvalidEnvironment
      else if bool_decide (alias ∈ seen) then Err ErrInvalidEnvironment
      else checkAliases ({[alias]} ∪ seen) rest
  end.

Fixpoint checkControllers (seen : gset string) (controllers : list ControllerIdentity) : result unit :=
  match controllers with
  | [] => Ok tt
  | controller :: rest =>
      if negb (validControllerIdentity controller) then Err ErrInvalidEnvironment
      else if bool_decide (controller_key controller ∈ seen) then Err ErrInvalidEnvironment
      else checkControllers ({[controller_key controller]} ∪ seen) rest
  end.

Definition NewEnvironment (spec : EnvironmentSpec) : result Environment :=
  refuse_if (is_empty (spec_Name spec) || is_empty (spec_HostClass spec)
             || is_empty (spec_EffectiveAccount spec) || is_nil (spec_AllowedTargets spec)
             || is_nil (spec_AllowedSourceModes spec) || is_nil (spec_AllowedControllers spec))
    ErrInvalidEnvironment;;
  refuse_if (negb (ServiceLimits_valid (spec_ServiceLimits spec)))
    (Errs ErrInvalidEnvironment ErrInvalidServiceLimits);;
  hasLocalTarget ← checkTargets ∅ false (spec_AllowedTargets spec);
  modes ← checkSourceModes ∅ false false (spec_AllowedSourceModes spec);
  refuse_if (snd modes && negb hasLocalTarget) ErrInvalidEnvironment;;
  checkAliases ∅ (spec_AllowedRepositoryAliases spec);;
  refuse_if (fst modes && is_nil (spec_AllowedRepositoryAliases spec)) ErrInvalidEnvironment;;
  checkControllers ∅ (spec_AllowedControllers spec);;
  Ok {| env_name := spec_Name spec;
        env_hostClass := spec_HostClass spec;
        env_effectiveAccount := spec_EffectiveAccount spec;
        env_allowedTargets := spec_AllowedTargets spec;
        env_allowedSourceModes := spec_AllowedSourceModes spec;
        env_allowedRepositoryAliases := spec_AllowedRepositoryAliases spec;
        env_allowedControllers := spec_AllowedControllers spec;
        env_serviceLimits := spec_ServiceLimits spec |}.

(** ** Capabilities and isolation *)
Inductive IsolationLevel : Type := IsolationOSUser.

Record Capabilities : Type := mkCapabilities {
  cap_hostClass : string;
  cap_isolation : IsolationLevel;
  cap_effectiveAccount : string;
  cap_serviceLimits : ServiceLimits
}.

Definition Environment_Capabilities (e : Environment) : Capabilities :=
  mkCapabilities (env_hostClass e) IsolationOSUser (env_effectiveAccount e) (env_serviceLimits e).

Record IsolationRequirements : Type := mkIsolationRequirements {
  FilesystemBoundary : bool;
  CPUControl : bool;
  MemoryControl : bool;
  PIDControl : bool;
  DiskControl : bool;
  NetworkControl : bool;
  Mounts : bool;
  Volumes : bool;
  PrivilegeControl : bool
}.

Definition unsupportedNames (r : IsolationRequirements) : list string :=
  (if FilesystemBoundary r then ["filesystem"] else []) ++
  (if CPUControl r then ["cpu"] else []) ++
  (if MemoryControl r then ["memory"] else []) ++
  (if PIDControl r then ["pid"] else []) ++
  (if DiskControl r then ["disk"] else []) ++
  (if NetworkControl r then ["network"] else []) ++
  (if Mounts r then ["mounts"] else []) ++
  (if Volumes r then ["volumes"] else []) ++
  (if PrivilegeControl r then ["privilege"] else []).

(** ** Requested and effective limits *)
Record RequestedLimits : Type := mkRequestedLimits {
  req_CommandTimeout : Z;
  req_IdleTimeout : Z;
  req_SessionMaxLifetime : Z;
  req_OutputBytesPerCommand : Z
}.

Record EffectiveSessionLimits : Type := mkEffectiveSessionLimits {
  eff_CommandTimeout : Z;
  eff_IdleTimeout : Z;
  eff_SessionMaxLifetime : Z;
  eff_OutputBytesPerCommand : Z
}.

#[export] Instance EffectiveSessionLimits_eq_dec : EqDecision EffectiveSessionLimits.
Proof. solve_decision. Defined.

Record SessionPolicyRequest : Type := mkSessionPolicyRequest {
  pol_Target : ExecutionTarget;
  pol_Source : Source;
  pol_Controller : ControllerIdentity;
  pol_Limits : RequestedLimits;
  pol_Isolation : IsolationRequirements
}.

Definition containsTarget (targets : list ExecutionTarget) (want : ExecutionTarget) : bool :=
  existsb (fun target => bool_decide (target_kind target = target_kind want)
                         && bool_decide (target_profile target = target_profile want)) targets.

Definition containsSourceMode (modes : list SourceMode) (want : SourceMode) : bool :=
  existsb (fun mode => bool_decide (mode = want)) modes.

Definition containsString (values : list string) (want : string) : bool :=
  existsb (fun value => bool_decide (value = want)) values.

Definition containsController (controllers : list ControllerIdentity) (want : ControllerIdentity) : bool :=
  existsb (fun c => bool_decide (controller_typeName c = controller_typeName want)
                    && bool_decide (controller_id c = controller_id want)) controllers.

Definition AllowsTarget (e : Environment) (target : ExecutionTarget) : bool :=
  containsTarget (env_allowedTargets e) target.

Definition requestedDuration (requested ceiling : Z) : result Z :=
  if requested <? 0 then Err ErrInvalidRequestedLimits
  else if requested =? 0 then Ok ceiling
  else if ceiling <? requested then Err ErrLimitExceedsServiceCeiling
  else Ok requested.

Definition requestedBytes (requested ceiling : Z) : result Z :=
  if requested <? 0 then Err ErrInvalidRequestedLimits
  else if requested =? 0 then Ok ceiling
  else if ceiling <? requested then Err ErrLimitExceedsServiceCeiling
  else Ok requested.

Definition effectiveSessionLimits (ceilings : ServiceLimits) (requested : RequestedLimits)
    : result EffectiveSessionLimits :=
  commandTimeout ← requestedDuration (req_CommandTimeout requested) (CommandTimeout ceilings);
  idleTimeout ← requestedDuration (req_IdleTimeout requested) (IdleTimeout ceilings);
  sessionMaxLifetime ← requestedDuration (req_SessionMaxLifetime requested) (SessionMaxLifetime ceilings);
  outputBytes ← requestedBytes (req_OutputBytesPerCommand requested) (OutputBytesPerCommand ceilings);
  Ok (mkEffectiveSessionLimits commandTimeout idleTimeout sessionMaxLifetime outputBytes).

Definition ValidateSessionPolicy (e : Environment) (request : SessionPolicyRequest)
    : result EffectiveSessionLimits :=
  let target := pol_Target request in
  let source := pol_Source request in
  refuse_if (negb (bool_decide (target_kind target = TargetKindLocal))
             && negb (bool_decide (target_kind target = TargetKindRemote))) ErrInvalidTargetKind;;
  refuse_if (is_empty (target_profile target)) ErrEmptyTargetProfile;;
  refuse_if (negb (containsTarget (env_allowedTargets e) target)) ErrEnvironmentTargetMismatch;;
  refuse_if (negb (Source_valid source)) ErrInvalidSource;;
  refuse_if (negb (containsSourceMode (env_allowedSourceModes e) (source_mode source)))
    ErrEnvironmentSourceMismatch;;
  refuse_if (bool_decide (source_mode source = SourceModeLocalWorktree)
             && negb (bool_decide (target_kind target = TargetKindLocal))) ErrEnvironmentSourceMismatch;;
  refuse_if (bool_decide (source_mode source = SourceModeGitRevision)
             && negb (containsString (env_allowedRepositoryAliases e) (source_repositoryAlias source)))
    ErrRepositoryAliasNotAllowed;;
  refuse_if (negb (validControllerIdentity (pol_Controller request))
             || negb (containsController (env_allowedControllers e) (pol_Controller request)))
    ErrControllerMismatch;;
  refuse_if (negb (is_nil (unsupportedNames (pol_Isolation request)))) ErrUnsupportedIsolationRequirement;;
  effectiveSessionLimits (env_serviceLimits e) (pol_Limits request).

(** ** What a well-formed environment and an admissible request are *)
Definition target_ok (t : ExecutionTarget) : Prop := known_kind (target_kind t) /\ target_profile t <> "".
Definition controller_ok (c : ControllerIdentity) : Prop :=
  known_controller (controller_typeName c) /\ controller_id c <> "".
Definition known_mode (m : SourceMode) : Prop := match m with SourceModeOther _ => False | _ => True end.

#[export] Instance known_mode_dec m : Decision (known_mode m).
Proof. destruct m; apply _. Defined.

Record environment_wf (e : Environment) : Prop := {
  wf_name : env_name e <> "";
  wf_hostClass : env_hostClass e <> "";
  wf_account : env_effectiveAccount e <> "";
  wf_targets : env_allowedTargets e <> [] /\ Forall target_ok (env_allowedTargets e)
               /\ NoDup (env_allowedTargets e);
  wf_modes : env_allowedSourceModes e <> [] /\ Forall known_mode (env_allowedSourceModes e)
             /\ NoDup (env_allowedSourceModes e);
  wf_aliases : Forall (fun a => a <> "") (env_allowedRepositoryAliases e)
               /\ NoDup (env_allowedRepositoryAliases e);
  wf_controllers : env_allowedControllers e <> [] /\ Forall controller_ok (env_allowedControllers e)
                   /\ NoDup (env_allowedControllers e);
  wf_worktree : SourceModeLocalWorktree ∈ env_allowedSourceModes e ->
                exists t, t ∈ env_allowedTargets e /\ target_kind t = TargetKindLocal;
  wf_git : SourceModeGitRevision ∈ env_allowedSourceModes e -> env_allowedRepositoryAliases e <> [];
  wf_limits : ServiceLimits_valid (env_serviceLimits e) = true
}.

Definition environment_of (spec : EnvironmentSpec) : Environment :=
  mkEnvironment (spec_Name spec) (spec_HostClass spec) (spec_EffectiveAccount spec)
    (spec_AllowedTargets spec) (spec_AllowedSourceModes spec) (spec_AllowedRepositoryAliases spec)
    (spec_AllowedControllers spec) (spec_ServiceLimits spec).

(** The policy decision, as the conditions on the request. *)
Record policy_allows (e : Environment) (r : SessionPolicyRequest) : Prop := {
  allows_target : pol_Target r ∈ env_allowedTargets e /\ target_ok (pol_Target r);
  allows_source : Source_valid (pol_Source r) = true
                  /\ source_mode (pol_Source r) ∈ env_allowedSourceModes e;
  allows_worktree : source_mode (pol_Source r) = SourceModeLocalWorktree ->
                    target_kind (pol_Target r) = TargetKindLocal;
  allows_alias : source_mode (pol_Source r) = SourceModeGitRevision ->
                 source_repositoryAlias (pol_Source r) ∈ env_allowedRepositoryAliases e;
  allows_controller : pol_Controller r ∈ env_allowedControllers e /\ controller_ok (pol_Controller r);
  allows_isolation : pol_Isolation r = mkIsolationRequirements false false false false false false false false false
}.

(** A requested value of zero selects the ceiling; any other must lie below it. *)
Definition effective_value (requested ceiling value : Z) : Prop :=
  (requested = 0 /\ value = ceiling) \/ (0 < requested <= ceiling /\ value = requested).

Definition effective_limits (c : ServiceLimits) (r : RequestedLimits) (l : EffectiveSessionLimits) : Prop :=
  effective_value (req_CommandTimeout r) (CommandTimeout c) (eff_CommandTimeout l) /\
  effective_value (req_IdleTimeout r) (IdleTimeout c) (eff_IdleTimeout l) /\
  effective_value (req_SessionMaxLifetime r) (SessionMaxLifetime c) (eff_SessionMaxLifetime l) /\
  effective_value (req_OutputBytesPerCommand r) (OutputBytesPerCommand c) (eff_OutputBytesPerCommand l).

(** ** Lemmas *)
Lemma target_ok_bool t :
  (is_empty (target_profile t)
   || (negb (bool_decide (target_kind t = TargetKindLocal))
       && negb (bool_decide (target_kind t = TargetKindRemote)))) = false <-> target_ok t.
Proof.
  destruct t as [[] p]; unfold target_ok; simpl; destruct p; simpl; split; naive_solver.
Qed.

Lemma validControllerIdentity_true c : validControllerIdentity c = true <-> controller_ok c.
Proof. destruct c as [[] id]; unfold controller_ok; simpl; destruct id; simpl; naive_solver. Qed.

Lemma target_key_inj t1 t2 :
  target_ok t1 -> target_ok t2 -> target_key t1 = target_key t2 -> t1 = t2.
Proof.
  destruct t1 as [[] p1], t2 as [[] p2]; unfold target_ok, target_key, key_separator; cbn;
    intros [??] [??] Heq; try done; injection Heq; intros; by simplify_eq.
Qed.

Lemma controller_key_inj c1 c2 :
  controller_ok c1 -> controller_ok c2 -> controller_key c1 = controller_key c2 -> c1 = c2.
Proof.
  destruct c1 as [[] p1], c2 as [[] p2]; unfold controller_ok, controller_key, key_separator; cbn;
    intros [??] [??] Heq; try done; injection Heq; intros; by simplify_eq.
Qed.

Section duplicate_loops.
(** The four loops have one shape: every element passes a test, and no key is
    met twice. *)
Context {A K : Type} `{Countable K} (key : A -> K) (ok : A -> Prop).

Lemma seen_step (seen : gset K) x l :
  key x ∉ seen ->
  (Forall ok l /\ NoDup (key <$> l) /\ (forall y, y ∈ l -> key y ∉ ({[key x]} ∪ seen : gset K))) ->
  ok x ->
  Forall ok (x :: l) /\ NoDup (key <$> x :: l) /\ (forall y, y ∈ x :: l -> key y ∉ seen).
Proof.
  intros Hx (Hl & Hnd & Hs) Hok. split_and!; [by constructor| |].
  - csimpl. constructor; [|done]. intros (y & Hy & Hin)%list_elem_of_fmap.
    apply (Hs y Hin). set_solver.
  - intros y [->|Hin]%elem_of_cons; [done|]. specialize (Hs y Hin). set_solver.
Qed.

Lemma seen_unstep (seen : gset K) x l :
  Forall ok (x :: l) /\ NoDup (key <$> x :: l) /\ (forall y, y ∈ x :: l -> key y ∉ seen) ->
  ok x /\ key x ∉ seen /\
  Forall ok l /\ NoDup (key <$> l) /\ (forall y, y ∈ l -> key y ∉ ({[key x]} ∪ seen : gset K)).
Proof.
  intros (Hok & Hnd & Hs). csimpl in *. apply Forall_cons in Hok as [Hok Hl].
  apply NoDup_cons in Hnd as [Hx Hnd]. split_and!; [done|apply Hs; set_solver|done|done|].
  intros y Hy. rewrite not_elem_of_union, not_elem_of_singleton. split; [|apply Hs; set_solver].
  intros Heq. apply Hx. rewrite <- Heq. by apply list_elem_of_fmap_2.
Qed.

Lemma NoDup_keys l : (forall x y, ok x -> ok y -> key x = key y -> x = y) ->
  Forall ok l -> NoDup (key <$> l) <-> NoDup l.
Proof.
  intros Hinj Hl. split; [apply NoDup_fmap_1|]. intros Hnd. apply NoDup_fmap_2_strong; [|done].
  intros x y Hx Hy. rewrite Forall_forall in Hl. eauto.
Qed.
End duplicate_loops.

Lemma checkTargets_Ok targets seen b r :
  checkTargets seen b targets = Ok r <->
  (Forall target_ok targets /\ NoDup (target_key <$> targets) /\
   (forall t, t ∈ targets -> target_key t ∉ seen)) /\
  r = b || existsb (fun t => bool_decide (target_kind t = TargetKindLocal)) targets.
Proof.
  revert seen b. induction targets as [|t l IH]; intros seen b; cbn [checkTargets existsb].
  { rewrite orb_false_r. split; [|naive_solver]. intros [= <-].
    split_and!; auto using NoDup_nil_2. set_solver. }
  destruct (is_empty _ || _) eqn:E.
  { split; [done|]. intros [Hok _]. apply seen_unstep in Hok as [Hok _].
    apply target_ok_bool in Hok. congruence. }
  apply target_ok_bool in E. case_bool_decide as Hs.
  { split; [done|]. intros [Hok _]. by apply seen_unstep in Hok as (_ & ? & _). }
  rewrite IH, orb_assoc. split; intros [H1 H2]; (split; [|done]).
  - by apply seen_step.
  - by apply seen_unstep in H1 as (_ & _ & ?).
Qed.

Lemma checkSourceModes_Ok modes seen g w r :
  checkSourceModes seen g w modes = Ok r <->
  (Forall known_mode modes /\ NoDup (id <$> modes) /\ (forall m, m ∈ modes -> id m ∉ seen)) /\
  r = (g || bool_decide (SourceModeGitRevision ∈ modes),
       w || bool_decide (SourceModeLocalWorktree ∈ modes)).
Proof.
  revert seen g w. induction modes as [|m l IH]; intros seen g w; cbn [checkSourceModes].
  { rewrite !bool_decide_false, !orb_false_r by set_solver.
    split; [|naive_solver]. intros [= <-]. split_and!; auto using NoDup_nil_2. set_solver. }
  assert (forall m', bool_decide (m' ∈ m :: l) = bool_decide (m = m') || bool_decide (m' ∈ l)) as Hbd.
  { intros m'. repeat case_bool_decide; set_solver. }
  destruct (decide (m ∈ seen)) as [Hs|Hs].
  { split; [|intros [Hok _]; by apply seen_unstep in Hok as (_ & ? & _)].
    by destruct m; rewrite ?(bool_decide_true _ Hs). }
  destruct (decide (known_mode m)) as [Hm|Hm].
  2:{ split; [by destruct m|]. intros [Hok _]. by apply seen_unstep in Hok as [Hok _]. }
  transitivity (checkSourceModes ({[m]} ∪ seen) (g || bool_decide (m = SourceModeGitRevision))
    (w || bool_decide (m = SourceModeLocalWorktree)) l = Ok r).
  { destruct m; rewrite ?(bool_decide_false _ Hs); done. }
  rewrite IH, !Hbd, !orb_assoc. split; intros [H1 H2]; (split; [|done]).
  - by apply seen_step.
  - by apply seen_unstep in H1 as (_ & _ & ?).
Qed.

Lemma checkAliases_Ok aliases seen u :
  checkAliases seen aliases = Ok u <->
  Forall (fun a => a <> "") aliases /\ NoDup (id <$> aliases) /\ (forall a, a ∈ aliases -> id a ∉ seen).
Proof.
  revert seen. induction aliases as [|a l IH]; intros seen; cbn [checkAliases].
  { destruct u. split; [|done]. intros _. split_and!; auto using NoDup_nil_2. set_solver. }
  destruct (is_empty a) eqn:E.
  { split; [done|]. intros Hok. apply seen_unstep in Hok as [Hok _]. by apply is_empty_true in E. }
  apply is_empty_false in E. case_bool_decide as Hs.
  { split; [done|]. intros Hok. by apply seen_unstep in Hok as (_ & ? & _). }
  rewrite IH. split; intros H1; [by apply seen_step|by apply seen_unstep in H1 as (_ & _ & ?)].
Qed.

Lemma checkControllers_Ok controllers seen u :
  checkControllers seen controllers = Ok u <->
  Forall controller_ok controllers /\ NoDup (controller_key <$> controllers) /\
  (forall c, c ∈ controllers -> controller_key c ∉ seen).
Proof.
  revert seen. induction controllers as [|c l IH]; intros seen; cbn [checkControllers].
  { destruct u. split; [|done]. intros _. split_and!; auto using NoDup_nil_2. set_solver. }
  destruct (validControllerIdentity c) eqn:E; simpl.
  2:{ split; [done|]. intros Hok. apply seen_unstep in Hok as [Hok _].
      apply validControllerIdentity_true in Hok. congruence. }
  apply validControllerIdentity_true in E. case_bool_decide as Hs.
  { split; [done|]. intros Hok. by apply seen_unstep in Hok as (_ & ? & _). }
  rewrite IH. split; intros H1; [by apply seen_step|by apply seen_unstep in H1 as (_ & _ & ?)].
Qed.

Lemma containsTarget_true l t : containsTarget l t = true <-> t ∈ l.
Proof.
  unfold containsTarget. rewrite existsb_exists. setoid_rewrite list_elem_of_In. split.
  - intros ([] & ? & [??]%andb_true_iff). bool_norm. destruct t; simpl in *. by subst.
  - intros. exists t. by rewrite !bool_decide_true.
Qed.

Lemma containsController_true l c : containsController l c = true <-> c ∈ l.
Proof.
  unfold containsController. rewrite existsb_exists. setoid_rewrite list_elem_of_In. split.
  - intros ([] & ? & [??]%andb_true_iff). bool_norm. destruct c; simpl in *. by subst.
  - intros. exists c. by rewrite !bool_decide_true.
Qed.

Lemma contains_decide {A} `{EqDecision A} (l : list A) x :
  existsb (fun y => bool_decide (y = x)) l = true <-> x ∈ l.
Proof.
  rewrite existsb_exists. setoid_rewrite list_elem_of_In. split.
  - intros (y & ? & ?). bool_norm. by subst.
  - intros. exists x. by rewrite bool_decide_true.
Qed.

Lemma unsupportedNames_nil r :
  is_nil (unsupportedNames r) = true <->
  r = mkIsolationRequirements false false false false false false false false false.
Proof. destruct r as [[] [] [] [] [] [] [] [] []]; simpl; naive_solver. Qed.

Lemma requestedDuration_Ok requested ceiling v :
  requestedDuration requested ceiling = Ok v <-> effective_value requested ceiling v.
Proof.
  unfold requestedDuration, effective_value.
  destruct (Z.ltb_spec requested 0), (Z.eqb_spec requested 0), (Z.ltb_spec ceiling requested);
    naive_solver lia.
Qed.

Lemma effectiveSessionLimits_Ok c r l :
  effectiveSessionLimits c r = Ok l <-> effective_limits c r l.
Proof.
  unfold effectiveSessionLimits, effective_limits. change requestedBytes with requestedDuration.
  rewrite !result_bind_Ok. setoid_rewrite result_bind_Ok. setoid_rewrite result_bind_Ok.
  setoid_rewrite result_bind_Ok. setoid_rewrite requestedDuration_Ok. destruct l; simpl.
  naive_solver.
Qed.

Lemma is_nil_false {A} (l : list A) : is_nil l = false <-> l <> [].
Proof. destruct l; naive_solver. Qed.

Lemma existsb_local targets :
  existsb (fun t => bool_decide (target_kind t = TargetKindLocal)) targets = true <->
  exists t, t ∈ targets /\ target_kind t = TargetKindLocal.
Proof.
  rewrite existsb_exists. setoid_rewrite list_elem_of_In. by setoid_rewrite bool_decide_eq_true.
Qed.

Lemma implb_spec (b : bool) (P Q : Prop) `{Decision P} :
  (b = true <-> Q) -> (bool_decide P && negb b = false <-> (P -> Q)).
Proof. intros Hb. case_bool_decide; destruct b; simpl; naive_solver. Qed.

Lemma Forall_NoDup_key {A} `{Countable K} (key : A -> K) (ok : A -> Prop) l :
  (forall x y, ok x -> ok y -> key x = key y -> x = y) ->
  (Forall ok l /\ NoDup (key <$> l) /\ (forall x, x ∈ l -> key x ∉ (∅ : gset K))) <->
  Forall ok l /\ NoDup l.
Proof.
  intros Hinj. split.
  - intros (H1 & H2 & _). split; [done|]. by apply (NoDup_keys key ok l).
  - intros [H1 H2]. split_and!; [done|by apply (NoDup_keys key ok l)|set_solver].
Qed.

Lemma is_nil_implb {A} (P : Prop) `{Decision P} (l : list A) :
  bool_decide P && is_nil l = false <-> (P -> l <> []).
Proof. case_bool_decide; destruct l; simpl; naive_solver. Qed.

Lemma NewEnvironment_spec spec env :
  NewEnvironment spec = Ok env <-> env = environment_of spec /\ environment_wf env.
Proof.
  unfold NewEnvironment. rewrite !refuse_if_bind, result_bind_Ok.
  setoid_rewrite result_bind_Ok. setoid_rewrite refuse_if_bind.
  setoid_rewrite unit_bind_Ok. setoid_rewrite refuse_if_bind. setoid_rewrite unit_bind_Ok.
  setoid_rewrite checkTargets_Ok. setoid_rewrite checkSourceModes_Ok.
  setoid_rewrite checkAliases_Ok. setoid_rewrite checkControllers_Ok.
  pose proof (Forall_NoDup_key target_key target_ok (spec_AllowedTargets spec) target_key_inj) as Ht.
  pose proof (Forall_NoDup_key controller_key controller_ok (spec_AllowedControllers spec)
    controller_key_inj) as Hc.
  pose proof (Forall_NoDup_key id known_mode (spec_AllowedSourceModes spec)
    ltac:(naive_solver)) as Hm.
  pose proof (Forall_NoDup_key id (fun a => a <> "") (spec_AllowedRepositoryAliases spec)
    ltac:(naive_solver)) as Ha.
  rewrite !orb_false_iff, !is_empty_false, !is_nil_false, negb_false_iff.
  pose proof (implb_spec _ (SourceModeLocalWorktree ∈ spec_AllowedSourceModes spec) _
    (existsb_local (spec_AllowedTargets spec))) as Hw.
  assert (bool_decide (SourceModeGitRevision ∈ spec_AllowedSourceModes spec)
          && is_nil (spec_AllowedRepositoryAliases spec) = false <->
          (SourceModeGitRevision ∈ spec_AllowedSourceModes spec ->
           spec_AllowedRepositoryAliases spec <> [])) as Hg.
  { apply is_nil_implb. }
  split.
  - intros (Hn & Hl & loc & [Ht' ->] & modes & [Hm' ->] & Hw' & Ha' & Hg' & Hc' & Henv).
    destruct Hn as (((((?&?)&?)&?)&?)&?). injection Henv as <-. split; [reflexivity|].
    apply (proj1 Ht) in Ht' as []. apply (proj1 Hm) in Hm' as []. apply (proj1 Ha) in Ha' as [].
    apply (proj1 Hc) in Hc' as []. pose proof (proj1 Hw Hw'). pose proof (proj1 Hg Hg').
    constructor; cbn [env_name env_hostClass env_effectiveAccount env_allowedTargets
      env_allowedSourceModes env_allowedRepositoryAliases env_allowedControllers env_serviceLimits];
      first [assumption | repeat split; assumption].
  - intros [-> [Hn Hh He (? & Ht1 & Ht2) (? & Hm1 & Hm2) Ha' (? & Hc1 & Hc2) Hw' Hg' Hlim]].
    unfold environment_of in *. cbn [env_name env_hostClass env_effectiveAccount env_allowedTargets
      env_allowedSourceModes env_allowedRepositoryAliases env_allowedControllers env_serviceLimits] in *.
    split; [repeat split; assumption|]. split; [assumption|].
    eexists; split; [split; [exact (proj2 Ht (conj Ht1 Ht2))|reflexivity]|].
    eexists; split; [split; [exact (proj2 Hm (conj Hm1 Hm2))|reflexivity]|].
    split; [exact (proj2 Hw Hw')|]. split; [exact (proj2 Ha Ha')|].
    split; [exact (proj2 Hg Hg')|]. split; [exact (proj2 Hc (conj Hc1 Hc2))|reflexivity].
Qed.

(** The effective value lies between one and the ceiling. *)
Lemma effective_value_bounds requested ceiling v :
  0 < ceiling -> effective_value requested ceiling v -> 0 < v <= ceiling.
Proof. unfold effective_value. lia. Qed.

Lemma ValidateSessionPolicy_spec e r l :
  ValidateSessionPolicy e r = Ok l <->
  policy_allows e r /\ effective_limits (env_serviceLimits e) (pol_Limits r) l.
Proof.
  unfold ValidateSessionPolicy. cbv zeta. rewrite !refuse_if_bind, effectiveSessionLimits_Ok.
  rewrite !negb_false_iff, orb_false_iff, !negb_false_iff.
  rewrite unsupportedNames_nil, validControllerIdentity_true, containsController_true.
  unfold containsSourceMode, containsString.
  rewrite containsTarget_true, contains_decide, (implb_spec _ _ _ (contains_decide _ _)).
  rewrite (implb_spec _ _ _ (bool_decide_eq_true _)).
  assert (forall t, target_ok t <->
    (negb (bool_decide (target_kind t = TargetKindLocal))
     && negb (bool_decide (target_kind t = TargetKindRemote))) = false /\
    is_empty (target_profile t) = false) as Ht.
  { intros t. rewrite <- target_ok_bool, orb_false_iff. naive_solver. }
  pose proof (Ht (pol_Target r)). split.
  - intros ?. split; [|tauto]. split; tauto.
  - intros [[] ?]. tauto.
Qed.

(** ** Theorems *)

(** [NewEnvironment] accepts a specification exactly when the environment
    it copies is well formed: names present, limits positive, targets, source
    modes, aliases and controllers valid and without duplicates,
    [local_worktree] only with a local target and [git_revision] only with a
    repository alias. *)
Theorem NewEnvironment_Ok spec env :
  NewEnvironment spec = Ok env <-> env = environment_of spec /\ environment_wf env.
Proof. apply NewEnvironment_spec. Qed.

(** The policy decision of an environment accepts a request exactly when
    its target, source, repository alias and controller are allowed and it asks
    for no host isolation, and then returns the requested limits, with the
    ceiling wherever none was requested. *)
Theorem ValidateSessionPolicy_Ok e r l :
  ValidateSessionPolicy e r = Ok l <->
  policy_allows e r /\ effective_limits (env_serviceLimits e) (pol_Limits r) l.
Proof. apply ValidateSessionPolicy_spec. Qed.

(** Under an environment that [NewEnvironment] built, every limit a session
    gets is positive and at most the service ceiling. *)
Theorem ValidateSessionPolicy_bounds spec e r l :
  NewEnvironment spec = Ok e -> ValidateSessionPolicy e r = Ok l ->
  0 < eff_CommandTimeout l <= CommandTimeout (env_serviceLimits e) /\
  0 < eff_IdleTimeout l <= IdleTimeout (env_serviceLimits e) /\
  0 < eff_SessionMaxLifetime l <= SessionMaxLifetime (env_serviceLimits e) /\
  0 < eff_OutputBytesPerCommand l <= OutputBytesPerCommand (env_serviceLimits e).
Proof.
  intros [_ [_ _ _ _ _ _ _ _ _ Hl]]%NewEnvironment_spec (_ & H1 & H2 & H3 & H4)%ValidateSessionPolicy_spec.
  unfold ServiceLimits_valid in Hl. bool_norm.
  split_and!; (eapply effective_value_bounds; [|eassumption]; assumption).
Qed.

(** A concrete environment and request. *)
Definition example_spec : EnvironmentSpec := {|
  spec_Name := "dev"; spec_HostClass := "linux"; spec_EffectiveAccount := "runner";
  spec_AllowedTargets := [mkExecutionTarget TargetKindRemote "linux-dev"];
  spec_AllowedSourceModes := [SourceModeEmpty; SourceModeGitRevision];
  spec_AllowedRepositoryAliases := ["app"];
  spec_AllowedControllers := [mkControllerIdentity ControllerTypeLocalUser "u1"];
  spec_ServiceLimits := DefaultServiceLimits |}.
Definition example_request : SessionPolicyRequest := {|
  pol_Target := mkExecutionTarget TargetKindRemote "linux-dev";
  pol_Source := NewEmptySource;
  pol_Controller := mkControllerIdentity ControllerTypeLocalUser "u1";
  pol_Limits := mkRequestedLimits (5 * minute) 0 hour 0;
  pol_Isolation := mkIsolationRequirements false false false false false false false false false |}.

Lemma ValidateSessionPolicy_bounds_witness :
  0 < 5 * minute <= 30 * minute /\ 0 < 30 * minute <= 30 * minute /\ 0 < hour <= 4 * hour /\ 0 < Z.shiftl 100 20 <= Z.shiftl 100 20.
Proof.
  exact (ValidateSessionPolicy_bounds example_spec (environment_of example_spec) example_request
    (mkEffectiveSessionLimits (5 * minute) (30 * minute) hour (Z.shiftl 100 20)) eq_refl eq_refl).
Defined.
