(* ===== verification/JsonText.v ===== *)
(** * encoding/json

    What the program uses of [encoding/json]: the token reader
    [json.Decoder.Token] with [UseNumber], [json.Decoder.More], and the string
    encoder with [SetEscapeHTML(false)].  A JSON text is the list of its bytes;
    the strings of a value are Go strings. *)
From Stdlib Require Import Ascii String.
From S2P Require Import Prelude GoStrings.

(** [any], as the decoder fills it: a map is the list of its entries. *)
Inductive json : Type :=
  | JNull
  | JBool (b : bool)
  | JString (s : string)
  | JNumber (literal : string)
  | JArray (items : list json)
  | JObject (fields : list (string * json)).

(** ** Characters *)
Definition quote : Z := 34.
Definition backslash : Z := 92.
Definition is_json_space (b : Z) : bool := (b =? 32) || (b =? 9) || (b =? 13) || (b =? 10).
Definition is_digit (b : Z) : bool := in_range 48 57 b.

(** [dec.peek]: skip the blanks. *)
Fixpoint skip_space (l : list Z) : list Z :=
  match l with b :: l' => if is_json_space b then skip_space l' else l | [] => [] end.

Definition hex_digit (n : Z) : Z := if n <? 10 then 48 + n else 87 + n.
Definition hex_value (b : Z) : option Z :=
  if in_range 48 57 b then Some (b - 48)
  else if in_range 97 102 b then Some (b - 97 + 10)
  else if in_range 65 70 b then Some (b - 65 + 10)
  else None.

(** [getu4], on the four digits. *)
Definition hex4 (h1 h2 h3 h4 : Z) : option Z :=
  a ← hex_value h1; b ← hex_value h2; c ← hex_value h3; d ← hex_value h4;
  Some (((a * 16 + b) * 16 + c) * 16 + d).

(** ** Strings *)

(** [utf8.EncodeRune], on a code point that is not a surrogate. *)
Definition encode_rune (r : Z) : list Z :=
  if r <? 0x80 then [r]
  else if r <? 0x800 then [0xC0 + r / 64; 0x80 + r mod 64]
  else if r <? 0x10000 then [0xE0 + r / 4096; 0x80 + (r / 64) mod 64; 0x80 + r mod 64]
  else [0xF0 + r / 262144; 0x80 + (r / 4096) mod 64; 0x80 + (r / 64) mod 64; 0x80 + r mod 64].

Definition replacement_char : Z := 0xFFFD.
Definition is_surrogate (r : Z) : bool := in_range 0xD800 0xDFFF r.

(** [utf16.DecodeRune]; [None] stands for the replacement character. *)
Definition decode_surrogates (r1 r2 : Z) : option Z :=
  if in_range 0xD800 0xDBFF r1 && in_range 0xDC00 0xDFFF r2
  then Some ((r1 - 0xD800) * 1024 + (r2 - 0xDC00) + 0x10000) else None.

Definition simple_escape (c : Z) : option Z :=
  if (c =? 34) || (c =? 92) || (c =? 47) then Some c
  else if c =? 98 then Some 8
  else if c =? 102 then Some 12
  else if c =? 110 then Some 10
  else if c =? 114 then Some 13
  else if c =? 116 then Some 9
  else None.

(** The rune of the surrogate [r1] and of the escape that follows it. *)
Definition paired_escape (r1 : Z) (l : list Z) : option (list Z) :=
  match l with
  | b :: c :: h1 :: h2 :: h3 :: h4 :: _ =>
      if (b =? backslash) && (c =? 117)
      then r2 ← hex4 h1 h2 h3 h4; encode_rune <$> decode_surrogates r1 r2 else None
  | _ => None
  end.

(** A string literal after its opening quote: the decoded bytes and what follows
    the closing quote.  [unquote] replaces bytes that are not UTF-8; every text
    the program decodes was checked by [utf8.Valid] before, so the bytes of a
    rune are copied here. *)
Fixpoint scan_string (l : list Z) : option (list Z * list Z) :=
  match l with
  | [] => None
  | b :: l0 =>
      if b =? quote then Some ([], l0)
      else if b =? backslash then
        match l0 with
        | [] => None
        | c :: l1 =>
            if c =? 117 then
              match l1 with
              | h1 :: h2 :: h3 :: h4 :: l5 =>
                  r1 ← hex4 h1 h2 h3 h4;
                  if is_surrogate r1 then
                    match paired_escape r1 l5, l5 with
                    | Some bytes, _ :: _ :: _ :: _ :: _ :: _ :: l6 =>
                        '(rest, tail) ← scan_string l6; Some (bytes ++ rest, tail)
                    | _, _ => '(rest, tail) ← scan_string l5; Some (encode_rune replacement_char ++ rest, tail)
                    end
                  else '(rest, tail) ← scan_string l5; Some (encode_rune r1 ++ rest, tail)
              | _ => None
              end
            else e ← simple_escape c; '(rest, tail) ← scan_string l1; Some (e :: rest, tail)
        end
      else if b <? 32 then None
      else '(rest, tail) ← scan_string l0; Some (b :: rest, tail)
  end.

(** [appendString] with [escapeHTML] off, between the quotes. *)
Definition escape_ascii (b : Z) : list Z :=
  if (b =? quote) || (b =? backslash) then [backslash; b]
  else if 32 <=? b then [b]
  else if b =? 8 then [backslash; 98]
  else if b =? 12 then [backslash; 102]
  else if b =? 10 then [backslash; 110]
  else if b =? 13 then [backslash; 114]
  else if b =? 9 then [backslash; 116]
  else [backslash; 117; 48; 48; hex_digit (b / 16); hex_digit (b mod 16)].

(** U+2028 and U+2029 are escaped *)
Definition escape_rune3 (b0 b1 b2 : Z) : list Z :=
  if (b0 =? 0xE2) && (b1 =? 0x80) && ((b2 =? 0xA8) || (b2 =? 0xA9))
  then [backslash; 117; 50; 48; 50; hex_digit (b2 mod 16)] else [b0; b1; b2].

(** a byte that does not start a rune *)
Definition escape_invalid : list Z := [backslash; 117; 102; 102; 102; 100].

Fixpoint escape_string (l : list Z) : list Z :=
  match l with
  | [] => []
  | b0 :: l0 =>
      if b0 <? 0x80 then escape_ascii b0 ++ escape_string l0
      else
        match l0 with
        | b1 :: l1 =>
            if in_range 0xC2 0xDF b0 && continuation b1 then b0 :: b1 :: escape_string l1
            else
              match l1 with
              | b2 :: l2 =>
                  if in_range 0xE0 0xEF b0 && second3 b0 b1 && continuation b2
                  then escape_rune3 b0 b1 b2 ++ escape_string l2
                  else
                    match l2 with
                    | b3 :: l3 =>
                        if in_range 0xF0 0xF4 b0 && second4 b0 b1 && continuation b2 && continuation b3
                        then b0 :: b1 :: b2 :: b3 :: escape_string l3
                        else escape_invalid ++ escape_string l0
                    | [] => escape_invalid ++ escape_string l0
                    end
              | [] => escape_invalid ++ escape_string l0
              end
        | [] => escape_invalid ++ escape_string l0
        end
  end.

(** ** Numbers *)
Fixpoint span_digits (l : list Z) : list Z * list Z :=
  match l with
  | b :: l' => if is_digit b then let '(d, r) := span_digits l' in (b :: d, r) else ([], l)
  | [] => ([], [])
  end.

(** At least one digit. *)
Definition digits1 (l : list Z) : option (list Z * list Z) :=
  match span_digits l with ([], _) => None | dr => Some dr end.

(** The literal at the head of the text and what follows it. *)
Definition scan_sign (l : list Z) : list Z * list Z :=
  match l with b :: l' => if b =? 45 then ([45], l') else ([], l) | [] => ([], []) end.
Definition scan_int (l : list Z) : option (list Z * list Z) :=
  match l with b :: l' => if b =? 48 then Some ([48], l') else digits1 l | [] => None end.
Definition scan_fraction (l : list Z) : option (list Z * list Z) :=
  match l with
  | b :: l' => if b =? 46 then '(d, r) ← digits1 l'; Some (46 :: d, r) else Some ([], l)
  | [] => Some ([], [])
  end.
Definition scan_exp_sign (l : list Z) : list Z * list Z :=
  match l with b :: l' => if (b =? 43) || (b =? 45) then ([b], l') else ([], l) | [] => ([], []) end.
Definition scan_exponent (l : list Z) : option (list Z * list Z) :=
  match l with
  | b :: l' =>
      if (b =? 101) || (b =? 69) then
        let '(s, l1) := scan_exp_sign l' in '(d, r) ← digits1 l1; Some (b :: s ++ d, r)
      else Some ([], l)
  | [] => Some ([], [])
  end.
Definition scan_number (l : list Z) : option (list Z * list Z) :=
  let '(s, l1) := scan_sign l in
  '(i, l2) ← scan_int l1;
  '(f, l3) ← scan_fraction l2;
  '(e, l4) ← scan_exponent l3;
  Some (s ++ i ++ f ++ e, l4).

(** ** The token reader *)
Inductive tokenState : Type :=
  | tokenTopValue | tokenArrayStart | tokenArrayValue | tokenArrayComma
  | tokenObjectStart | tokenObjectKey | tokenObjectColon | tokenObjectValue | tokenObjectComma.

Record Decoder : Type := mkDecoder {
  dec_tokenState : tokenState;
  dec_tokenStack : list tokenState;
  dec_rest : list Z
}.

(** [json.Delim], or a string, number, Boolean or null *)
Inductive Token : Type := TokenDelim (delim : Z) | TokenValue (v : json).

Definition ErrEOF : error := ErrText "EOF".
Definition ErrSyntax : error := ErrText "invalid character".

Definition tokenValueAllowed (st : tokenState) : bool :=
  match st with
  | tokenTopValue | tokenArrayStart | tokenArrayValue | tokenObjectValue => true
  | _ => false
  end.

Definition tokenValueEnd (st : tokenState) : tokenState :=
  match st with
  | tokenArrayStart | tokenArrayValue => tokenArrayComma
  | tokenObjectValue => tokenObjectComma
  | _ => st
  end.

Fixpoint strip_prefix (p l : list Z) : option (list Z) :=
  match p, l with
  | [], _ => Some l
  | a :: p', b :: l' => if a =? b then strip_prefix p' l' else None
  | _ :: _, [] => None
  end.

(** [dec.Decode(&x)] on a text that starts with the byte [b], not a delimiter *)
Definition scan_value (b : Z) (rest : list Z) : option (json * list Z) :=
  if b =? quote then '(s, r) ← scan_string rest; Some (JString (string_of s), r)
  else if b =? 116 then r ← strip_prefix (bytes_of "rue") rest; Some (JBool true, r)
  else if b =? 102 then r ← strip_prefix (bytes_of "alse") rest; Some (JBool false, r)
  else if b =? 110 then r ← strip_prefix (bytes_of "ull") rest; Some (JNull, r)
  else '(n, r) ← scan_number (b :: rest); Some (JNumber (string_of n), r).

Definition open_delim (delim : Z) (start : tokenState) (d : Decoder) (rest : list Z) : result (Token * Decoder) :=
  if tokenValueAllowed (dec_tokenState d)
  then Ok (TokenDelim delim, mkDecoder start (dec_tokenState d :: dec_tokenStack d) rest) else Err ErrSyntax.

Definition close_delim (delim : Z) (allowed : bool) (d : Decoder) (rest : list Z) : result (Token * Decoder) :=
  if allowed then
    match dec_tokenStack d with
    | st :: stack => Ok (TokenDelim delim, mkDecoder (tokenValueEnd st) stack rest)
    | [] => Err ErrSyntax
    end
  else Err ErrSyntax.

(** One round of the loop of [Token], without the separators. *)
Definition token_value (d : Decoder) (b : Z) (rest : list Z) : result (Token * Decoder) :=
  let st := dec_tokenState d in
  if b =? 91 then open_delim 91 tokenArrayStart d rest
  else if b =? 93 then close_delim 93 (match st with tokenArrayStart | tokenArrayComma => true | _ => false end) d rest
  else if b =? 123 then open_delim 123 tokenObjectStart d rest
  else if b =? 125 then close_delim 125 (match st with tokenObjectStart | tokenObjectComma => true | _ => false end) d rest
  else if (b =? quote) && match st with tokenObjectStart | tokenObjectKey => true | _ => false end then
    match scan_string rest with
    | Some (key, r) => Ok (TokenValue (JString (string_of key)), mkDecoder tokenObjectColon (dec_tokenStack d) r)
    | None => Err ErrSyntax
    end
  else if tokenValueAllowed st then
    match scan_value b rest with
    | Some (v, r) => Ok (TokenValue v, mkDecoder (tokenValueEnd st) (dec_tokenStack d) r)
    | None => Err ErrSyntax
    end
  else Err ErrSyntax.

(** A separator is taken only in the state that expects it and leads to a state
    that expects none, so the loop goes round at most twice. *)
Fixpoint token_loop (rounds : nat) (d : Decoder) : result (Token * Decoder) :=
  match skip_space (dec_rest d) with
  | [] => Err ErrEOF
  | b :: rest =>
      let next st := match rounds with
                     | S rounds' => token_loop rounds' (mkDecoder st (dec_tokenStack d) rest)
                     | O => Err ErrSyntax
                     end in
      if b =? 58 then match dec_tokenState d with tokenObjectColon => next tokenObjectValue | _ => Err ErrSyntax end
      else if b =? 44 then
        match dec_tokenState d with
        | tokenArrayComma => next tokenArrayValue
        | tokenObjectComma => next tokenObjectKey
        | _ => Err ErrSyntax
        end
      else token_value d b rest
  end.

(** [decoder.Token()] *)
Definition Decoder_Token : stx Decoder Token := token_loop 1.

(** [decoder.More()] *)
Definition Decoder_More (d : Decoder) : bool :=
  match skip_space (dec_rest d) with
  | [] => false
  | b :: _ => negb (b =? 93) && negb (b =? 125)
  end.
