(* ===== verification/Canonical.v ===== *)
(** * Canonical mutation JSON

    Models the canonicalization of [src/src/internal/domain/canonical.go]:
    decoding a request into a value without duplicate keys, normalizing it, and
    printing it with sorted keys, exact decimal numbers and minimal escapes;
    the versioned hash is taken over the result.  First, the hash values themselves. *)
From Stdlib Require Import Ascii String DecimalString.
From S2P Require Import Prelude GoStrings Sha256 Identity JsonText.

(** ** Versioned request hashes

    Models the hash values of [src/src/internal/domain/canonical.go]:
    [CanonicalHash], its constructor and [CompareIdempotency].  The canonical
    JSON that is hashed follows. *)

(** [uint16(v)] *)
Definition uint16 (v : Z) : Z := v mod 65536.

Record CanonicalHash : Type := mkCanonicalHash {
  hash_version : Z;
  hash_digest : string
}.

#[export] Instance CanonicalHash_eq_dec : EqDecision CanonicalHash.
Proof. solve_decision. Defined.

(** [NewCanonicalHash]; [version] is a [uint16]. *)
Definition NewCanonicalHash (version : Z) (digest : string) : result CanonicalHash :=
  if (version =? 0) || negb (go_len digest =? sha256_Size) then Err ErrInvalidCanonicalHash
  else Ok (mkCanonicalHash version digest).

Inductive IdempotencyComparison : Type := IdempotencySamePayload | IdempotencyConflict.

Definition CompareIdempotency (existing incoming : CanonicalHash) : IdempotencyComparison :=
  if (hash_version existing =? 0) || (hash_version incoming =? 0)
     || negb (hash_version existing =? hash_version incoming)
  then IdempotencyConflict
  else if bool_decide (hash_digest existing = hash_digest incoming) then IdempotencySamePayload
  else IdempotencyConflict.

Definition is_conflict (c : IdempotencyComparison) : bool :=
  match c with IdempotencyConflict => true | IdempotencySamePayload => false end.

(** The values the type can hold outside the zero value: a nonzero [uint16]
    version and one SHA-256 digest. *)
Definition hash_wf (h : CanonicalHash) : Prop :=
  0 < hash_version h < 65536 /\ go_len (hash_digest h) = sha256_Size.

#[export] Instance hash_wf_dec h : Decision (hash_wf h).
Proof. unfold hash_wf. apply _. Defined.

Lemma NewCanonicalHash_Ok v d h :
  NewCanonicalHash v d = Ok h <-> h = mkCanonicalHash v d /\ v <> 0 /\ go_len d = sha256_Size.
Proof.
  unfold NewCanonicalHash. destruct (v =? 0) eqn:E1, (go_len d =? sha256_Size) eqn:E2; simpl;
    bool_norm; naive_solver.
Qed.

Lemma uint16_id v : 0 <= v < 65536 -> uint16 v = v.
Proof. unfold uint16. intros. by apply Z.mod_small. Qed.

(** A stored hash is read back as it was written. *)
Lemma NewCanonicalHash_stored h :
  hash_wf h -> NewCanonicalHash (uint16 (hash_version h)) (hash_digest h) = Ok h.
Proof.
  intros [Hv Hd]. rewrite uint16_id by lia. apply NewCanonicalHash_Ok. destruct h; simpl in *.
  split_and!; [done|lia|done].
Qed.

Lemma CompareIdempotency_same h1 h2 :
  is_conflict (CompareIdempotency h1 h2) = false <-> h1 = h2 /\ hash_version h1 <> 0.
Proof.
  unfold CompareIdempotency. destruct h1 as [v1 d1], h2 as [v2 d2]; simpl.
  destruct (Z.eqb_spec v1 0), (Z.eqb_spec v2 0), (Z.eqb_spec v1 v2); simpl; try naive_solver.
  case_bool_decide; simpl; naive_solver.
Qed.

Definition CanonicalizationVersionV1 : Z := 1.
Definition canonicalHashDomainV1 : string :=
  String.append "remote-session-runner/canonical-json/v1" (String (ascii_of_byte 0) "").

(** [CanonicalizationOptions.Defaults]; the keys of a map are distinct. *)
Definition CanonicalizationOptions : Type := list (string * string).

Definition isMutationOperation (operation : string) : bool :=
  bool_decide (operation ∈ ["create_session"; "submit_command"; "cancel_command"; "close_session"; "run"]).

(** ** Escapes *)
Definition unicodeEscapeValue (raw : list Z) : option Z :=
  match raw with
  | h1 :: h2 :: h3 :: h4 :: _ => hex4 h1 h2 h3 h4
  | _ => None
  end.

(** The scan of one string literal, after its opening quote: the position after
    the closing quote, or [None] for an escape that is refused.  A literal that
    is not closed ends the outer loop. *)
Fixpoint stringScan (raw : list Z) : option (list Z) :=
  match raw with
  | [] => Some []
  | b :: l0 =>
      if b =? quote then Some l0
      else if b =? backslash then
        match l0 with
        | [] => None
        | c :: l1 =>
            if negb (c =? 117) then stringScan l1
            else
              match unicodeEscapeValue l1 with
              | None => None
              | Some codepoint =>
                  match l1 with
                  | _ :: _ :: _ :: _ :: l5 =>
                      if in_range 0xD800 0xDBFF codepoint then
                        match l5 with
                        | b' :: c' :: g1 :: g2 :: g3 :: g4 :: l6 =>
                            if negb (b' =? backslash) || negb (c' =? 117) then None
                            else
                              match hex4 g1 g2 g3 g4 with
                              | Some low => if (low <? 0xDC00) || (0xDFFF <? low) then None else stringScan l6
                              | None => None
                              end
                        | _ => None
                        end
                      else if in_range 0xDC00 0xDFFF codepoint then None
                      else stringScan l5
                  | _ => None
                  end
              end
        end
      else if (b =? 10) || (b =? 13) then None
      else stringScan l0
  end.

Fixpoint escapes_loop (fuel : nat) (raw : list Z) : bool :=
  match fuel, raw with
  | S fuel', b :: rest =>
      if b =? quote then match stringScan rest with Some rest' => escapes_loop fuel' rest' | None => false end
      else escapes_loop fuel' rest
  | _, _ => true
  end.

(** Every round takes at least one byte. *)
Definition validUnicodeEscapes (raw : list Z) : bool := escapes_loop (length raw) raw.

(** ** Decoding *)
Definition ErrFuel : error := ErrText "out of fuel".
Definition is_key (key : string) (field : string * json) : bool := bool_decide (fst field = key).

(** The loops [for decoder.More()] over the members of an object and the items
    of an array are the functions [decodeMembers] and [decodeItems]; their last
    argument is the value built so far. *)
Fixpoint decodeCanonicalValue (fuel : nat) : stx Decoder json :=
  match fuel with
  | O => throw ErrFuel
  | S fuel' =>
      token ← Decoder_Token;
      match token with
      | TokenDelim delimiter =>
          if delimiter =? 123 then decodeMembers fuel' []
          else if delimiter =? 91 then decodeItems fuel' []
          else throw ErrSyntax
      | TokenValue v => mret v
      end
  end
with decodeMembers (fuel : nat) (object : list (string * json)) : stx Decoder json :=
  match fuel with
  | O => throw ErrFuel
  | S fuel' =>
      more ← query Decoder_More;
      if more : bool then
        keyToken ← Decoder_Token;
        match keyToken with
        | TokenValue (JString key) =>
            fail_if (existsb (is_key key) object) (ErrText "duplicate object key");;
            value ← decodeCanonicalValue fuel';
            decodeMembers fuel' (object ++ [(key, value)])
        | _ => throw (ErrText "object key is not a string")
        end
      else
        closing ← Decoder_Token;
        match closing with
        | TokenDelim delimiter => fail_if (negb (delimiter =? 125)) (ErrText "unterminated object");; mret (JObject object)
        | TokenValue _ => throw (ErrText "unterminated object")
        end
  end
with decodeItems (fuel : nat) (array : list json) : stx Decoder json :=
  match fuel with
  | O => throw ErrFuel
  | S fuel' =>
      more ← query Decoder_More;
      if more : bool then
        value ← decodeCanonicalValue fuel';
        decodeItems fuel' (array ++ [value])
      else
        closing ← Decoder_Token;
        match closing with
        | TokenDelim delimiter => fail_if (negb (delimiter =? 93)) (ErrText "unterminated array");; mret (JArray array)
        | TokenValue _ => throw (ErrText "unterminated array")
        end
  end.

(** Enough for every text of this length, see [decode_fuel]. *)
Definition decode_bound (l : list Z) : nat := 2 * length l + 1.

Definition decodeCanonicalJSON (raw : list Z) : result json :=
  if negb (utf8_valid_bytes raw) || negb (validUnicodeEscapes raw) then Err ErrInvalidCanonicalJSON
  else
    match decodeCanonicalValue (decode_bound raw) (mkDecoder tokenTopValue [] raw) with
    | Err e => Err e
    | Ok (value, decoder) =>
        match Decoder_Token decoder with
        | Ok _ => Err (ErrText "multiple JSON values")
        | Err e => if bool_decide (e = ErrEOF) then Ok value else Err e
        end
    end.

(** ** Numbers *)

(** Split at the first byte that satisfies [p], which is dropped. *)
Fixpoint split_at_first (p : Z -> bool) (l : list Z) : option (list Z * list Z) :=
  match l with
  | [] => None
  | b :: l' => if p b then Some ([], l') else '(before, after) ← split_at_first p l'; Some (b :: before, after)
  end.

(** [strings.TrimLeft(text, "0")], [strings.TrimRight(text, "0")] *)
Fixpoint trim_left_zeros (l : list Z) : list Z :=
  match l with b :: l' => if b =? 48 then trim_left_zeros l' else l | [] => [] end.
Definition trim_right_zeros (l : list Z) : list Z := rev (trim_left_zeros (rev l)).

(** [strings.TrimPrefix(text, "+")] *)
Definition trim_plus (l : list Z) : list Z := match l with b :: l' => if b =? 43 then l' else l | [] => [] end.

(** [big.Int.SetString(text, 10)], [big.Int.String] *)
Definition parse_int (l : list Z) : option Z := Z.of_int <$> NilZero.int_of_string (string_of l).
Definition print_int (z : Z) : list Z := bytes_of (NilZero.string_of_int (Z.to_int z)).

Definition canonical_number (number : list Z) : list Z :=
  let '(sign, text) := scan_sign number in
  let '(text, exponent) :=
    match split_at_first (fun b => (b =? 101) || (b =? 69)) text with
    | Some (before, after) => (before, parse_int (trim_plus after))
    | None => (text, Some 0)
    end in
  match exponent with
  | None => number
  | Some exponent =>
      let '(text, fractionLength) :=
        match split_at_first (Z.eqb 46) text with
        | Some (before, after) => (before ++ after, Z.of_nat (length after))
        | None => (text, 0)
        end in
      let significant := trim_left_zeros text in
      match significant with
      | [] => [48]
      | _ =>
          let trailingZeros := Z.of_nat (length significant) - Z.of_nat (length (trim_right_zeros significant)) in
          let significant := trim_right_zeros significant in
          let decimalPower := exponent - fractionLength + trailingZeros in
          let scientificExponent := decimalPower + (Z.of_nat (length significant) - 1) in
          let mantissa := match significant with
                          | d :: ((_ :: _) as more) => d :: 46 :: more
                          | _ => significant
                          end in
          sign ++ mantissa ++ [101] ++ print_int scientificExponent
      end
  end.

Definition canonicalJSONNumber (number : string) : string := string_of (canonical_number (bytes_of number)).

(** ** Printing *)
Definition canonicalJSONString (value : string) : list Z := [quote] ++ escape_string (bytes_of value) ++ [quote].

(** The parts separated by commas. *)
Fixpoint join_commas (parts : list (list Z)) : list Z :=
  match parts with
  | [] => []
  | [p] => p
  | p :: rest => p ++ [44] ++ join_commas rest
  end.

(** [sort.Strings(keys)] on entries: the keys of a map are distinct. *)
Definition field_le {A} (x y : string * A) : Prop := string_le (fst x) (fst y).
#[export] Instance field_le_dec {A} (x y : string * A) : Decision (field_le x y).
Proof. unfold field_le. apply _. Defined.

Fixpoint appendCanonicalValue (value : json) : list Z :=
  match value with
  | JNull => bytes_of "null"
  | JBool b => bytes_of (if b then "true" else "false")
  | JString s => canonicalJSONString s
  | JNumber n => bytes_of (canonicalJSONNumber n)
  | JArray items => [91] ++ join_commas (List.map appendCanonicalValue items) ++ [93]
  | JObject fields =>
      let printed := List.map (fun '(key, v) => (key, appendCanonicalValue v)) fields in
      [123] ++ join_commas ((fun '(key, text) => canonicalJSONString key ++ [58] ++ text) <$> merge_sort field_le printed)
        ++ [125]
  end.

(** ** Requests *)

(** Go map operations on the entries of an object. *)
Definition map_lookup (key : string) (fields : list (string * json)) : option json := snd <$> List.find (is_key key) fields.
Definition map_delete (key : string) (fields : list (string * json)) : list (string * json) :=
  List.filter (fun f => negb (is_key key f)) fields.
Definition map_store (key : string) (v : json) (fields : list (string * json)) : list (string * json) :=
  map_delete key fields ++ [(key, v)].
Definition map_store_missing (key : string) (v : json) (fields : list (string * json)) : list (string * json) :=
  match map_lookup key fields with Some _ => fields | None => map_store key v fields end.

Definition reserved_field (name : string) : bool :=
  bool_decide (name ∈ [""; "request_id"; "idempotency_key"; "operation"; "source"]).

(** The loop over the sorted default fields. *)
Fixpoint applyDefaults (defaults : list (string * string)) (request : list (string * json))
    : result (list (string * json)) :=
  match defaults with
  | [] => Ok request
  | (name, raw) :: rest =>
      refuse_if (negb (utf8_valid name)) ErrInvalidCanonicalDefaults;;
      refuse_if (reserved_field name) ErrInvalidCanonicalDefaults;;
      refuse_if (MaxSerializedRequestBytes <? go_len raw) ErrInvalidCanonicalDefaults;;
      defaultValue ← result_map_err (fun _ => ErrInvalidCanonicalDefaults) (decodeCanonicalJSON (bytes_of raw));
      applyDefaults rest (map_store_missing name defaultValue request)
  end.

Definition needs_source (operation : string) : bool :=
  bool_decide (operation = "create_session") || bool_decide (operation = "run").

Definition empty_source : json := JObject [("mode", JString "empty")].

(** The request with its operation and its defaults. *)
Definition normalizeRequest (operation : string) (request : list (string * json)) : list (string * json) :=
  let request := map_delete "idempotency_key" (map_delete "request_id" request) in
  let request := map_store "operation" (JString operation) request in
  if needs_source operation then map_store_missing "source" empty_source request else request.

(** [suppliedOperation != operation] compares an [any] with a string. *)
Definition operation_matches (operation : string) (supplied : option json) : bool :=
  match supplied with
  | None => true
  | Some (JString s) => bool_decide (s = operation)
  | Some _ => false
  end.

Definition CanonicalizeMutationRequestJSON (operation raw : string) (options : CanonicalizationOptions) : result string :=
  refuse_if (negb (isMutationOperation operation)) ErrInvalidCanonicalJSON;;
  result_map_err (fun _ => ErrInvalidCanonicalJSON) (ValidateSerializedRequest raw);;
  refuse_if (negb (utf8_valid raw) || negb (validUnicodeEscapes (bytes_of raw))) ErrInvalidCanonicalJSON;;
  value ← result_map_err (fun _ => ErrInvalidCanonicalJSON) (decodeCanonicalJSON (bytes_of raw));
  match value with
  | JObject request =>
      refuse_if (negb (operation_matches operation (map_lookup "operation" request))) ErrInvalidCanonicalJSON;;
      request ← applyDefaults (merge_sort field_le options) (normalizeRequest operation request);
      Ok (string_of (appendCanonicalValue (JObject request)))
  | _ => Err ErrInvalidCanonicalJSON
  end.

Definition HashMutationRequestJSON (operation raw : string) (options : CanonicalizationOptions) : result CanonicalHash :=
  canonical ← CanonicalizeMutationRequestJSON operation raw options;
  Ok (mkCanonicalHash CanonicalizationVersionV1 (sha256 (String.append canonicalHashDomainV1 canonical))).

(** ** Examples *)
Definition sample_request : string :=
  string_of (bytes_of "{ 'b' : [1.50, -0.0, 12e+2], 'request_id':'r', 'a' : 'x\u000a\/\ud83d\ude00' }" ≫= fun b => [if b =? 39 then 34 else b]).
