(* ===== verification/JsonLemmas.v ===== *)
(** * JSON strings and texts

    Encoding a Go string and decoding it again gives the string back; what the
    encoder prints is UTF-8 and has no surrogate escapes; every token takes at
    least one byte. *)
From Stdlib Require Import Ascii String.
From S2P Require Import Prelude GoStrings Sha256 Identity JsonText Canonical.

(** ** UTF-8, rune by rune *)
Lemma in_range_true lo hi b : in_range lo hi b = true <-> lo <= b <= hi.
Proof. unfold in_range. rewrite andb_true_iff. lia. Qed.

Inductive rune : list Z -> Prop :=
  | rune1 b0 : b0 < 0x80 -> rune [b0]
  | rune2 b0 b1 : in_range 0xC2 0xDF b0 = true -> continuation b1 = true -> rune [b0; b1]
  | rune3 b0 b1 b2 : in_range 0xE0 0xEF b0 = true -> second3 b0 b1 = true -> continuation b2 = true -> rune [b0; b1; b2]
  | rune4 b0 b1 b2 b3 : in_range 0xF0 0xF4 b0 = true -> second4 b0 b1 = true -> continuation b2 = true ->
      continuation b3 = true -> rune [b0; b1; b2; b3].

Lemma second3_continuation b0 b1 : second3 b0 b1 = true -> continuation b1 = true.
Proof.
  unfold second3, continuation. rewrite in_range_true. repeat destruct (_ =? _); rewrite in_range_true; lia.
Qed.
Lemma second4_continuation b0 b1 : second4 b0 b1 = true -> continuation b1 = true.
Proof.
  unfold second4, continuation. rewrite in_range_true. repeat destruct (_ =? _); rewrite in_range_true; lia.
Qed.

Lemma ltb_false_intro a b : b <= a -> (a <? b) = false.
Proof. lia. Qed.

Ltac not_in_range lo hi b :=
  replace (in_range lo hi b) with false by (symmetry; apply not_true_is_false; rewrite in_range_true; lia).

Lemma utf8_rune r l : rune r -> utf8_valid_bytes (r ++ l) = utf8_valid_bytes l.
Proof.
  destruct 1 as [b0 H|b0 b1 H1 H2|b0 b1 b2 H1 H2 H3|b0 b1 b2 b3 H1 H2 H3 H4]; cbn [app utf8_valid_bytes].
  - by replace (b0 <? 128) with true by lia.
  - rewrite H1, H2. apply in_range_true in H1. by rewrite ltb_false_intro by lia.
  - rewrite H1, H2, H3. apply in_range_true in H1. rewrite ltb_false_intro by lia. by not_in_range 0xC2 0xDF b0.
  - rewrite H1, H2, H3, H4. apply in_range_true in H1. rewrite ltb_false_intro by lia.
    not_in_range 0xC2 0xDF b0. by not_in_range 0xE0 0xEF b0.
Qed.

Lemma utf8_split l : utf8_valid_bytes l = true -> l = [] \/ exists r l', l = r ++ l' /\ rune r /\ utf8_valid_bytes l' = true.
Proof.
  destruct l as [|b0 l0]; [by left|right]. cbn [utf8_valid_bytes] in *.
  destruct (b0 <? 0x80) eqn:E0.
  { exists [b0], l0. split_and!; [done| |done]. constructor. lia. }
  destruct l0 as [|b1 l1]; [done|]. destruct (in_range 0xC2 0xDF b0) eqn:E1.
  { apply andb_true_iff in H as [? ?]. exists [b0; b1], l1. split_and!; [done| |done]. by constructor. }
  destruct l1 as [|b2 l2]; [done|]. destruct (in_range 0xE0 0xEF b0) eqn:E2.
  { rewrite !andb_true_iff in H. destruct H as [[? ?] ?]. exists [b0; b1; b2], l2. split_and!; [done| |done].
    by constructor. }
  destruct l2 as [|b3 l3]; [done|]. rewrite !andb_true_iff in H. destruct H as [[[[? ?] ?] ?] ?].
  exists [b0; b1; b2; b3], l3. split_and!; [done| |done]. by constructor.
Qed.

Lemma rune_nonempty r : rune r -> (0 < length r)%nat.
Proof. destruct 1; cbn; lia. Qed.

(** Induction on the runes of a valid text. *)
Lemma utf8_ind (P : list Z -> Prop) :
  P [] -> (forall r l, rune r -> utf8_valid_bytes l = true -> P l -> P (r ++ l)) ->
  forall l, utf8_valid_bytes l = true -> P l.
Proof.
  intros Hnil Hrune l. induction l as [l IH] using (induction_ltof1 _ (@length Z)). unfold ltof in IH. intros Hl.
  destruct (utf8_split _ Hl) as [->|(r & l' & -> & Hr & Hl')]; [done|]. apply Hrune; [done..|]. apply IH; [|done].
  pose proof (rune_nonempty _ Hr). rewrite length_app. lia.
Qed.

Lemma utf8_app l1 l2 : utf8_valid_bytes l1 = true -> utf8_valid_bytes (l1 ++ l2) = utf8_valid_bytes l2.
Proof.
  intros H. pattern l1. apply utf8_ind; [done| |done]. intros r l Hr _ IH. by rewrite <-app_assoc, utf8_rune.
Qed.

(** ** The string encoder *)
Definition is_byte (b : Z) : Prop := 0 <= b < 256.

(** A byte that stands for itself in a string literal. *)
Definition plain (b : Z) : Prop := 32 <= b /\ b <> quote /\ b <> backslash.

Lemma scan_plain b tail : plain b -> scan_string (b :: tail) = '(rest, t) ← scan_string tail; Some (b :: rest, t).
Proof.
  unfold plain, quote, backslash. intros (H1 & H2 & H3). cbn [scan_string]. unfold quote, backslash.
  rewrite (proj2 (Z.eqb_neq b 34)), (proj2 (Z.eqb_neq b 92)), ltb_false_intro by lia. done.
Qed.

Lemma stringScan_plain b tail : plain b -> stringScan (b :: tail) = stringScan tail.
Proof.
  unfold plain, quote, backslash. intros (H1 & H2 & H3). cbn [stringScan]. unfold quote, backslash.
  rewrite (proj2 (Z.eqb_neq b 34)), (proj2 (Z.eqb_neq b 92)), (proj2 (Z.eqb_neq b 10)), (proj2 (Z.eqb_neq b 13)) by lia.
  done.
Qed.

(** [e] is a spelling of the bytes [r] inside a string literal. *)
Record spells (e r : list Z) : Prop := {
  sp_utf8 : utf8_valid_bytes e = true;
  sp_scan : forall tail, scan_string (e ++ tail) = '(rest, t) ← scan_string tail; Some (r ++ rest, t);
  sp_escapes : forall tail, stringScan (e ++ tail) = stringScan tail
}.

Lemma spells_plain r : utf8_valid_bytes r = true -> Forall plain r -> spells r r.
Proof.
  intros Hu Hr. split; [done| |]; intros tail; clear Hu; induction Hr as [|b r Hb _ IH]; cbn [app].
  - by destruct (scan_string tail) as [[]|].
  - rewrite scan_plain, IH by done. by destruct (scan_string tail) as [[]|].
  - done.
  - by rewrite stringScan_plain.
Qed.

Lemma spells_ascii b : 0 <= b < 128 -> spells (escape_ascii b) [b].
Proof.
  intros Hb. destruct (decide (plain b)) as [Hp|Hp].
  - assert (escape_ascii b = [b]) as ->.
    { unfold escape_ascii. destruct Hp as (H1 & H2 & H3). rewrite (proj2 (Z.eqb_neq _ _) H2), (proj2 (Z.eqb_neq _ _) H3).
      cbn. by rewrite (proj2 (Z.leb_le _ _) H1). }
    apply spells_plain; [|by constructor]. cbn. by replace (b <? 128) with true by lia.
  - assert (b ∈ seqZ 0 32 ++ [34; 92]) as Hin.
    { rewrite elem_of_app, elem_of_seqZ. unfold plain, quote, backslash in Hp.
      destruct (decide (b < 32)); [left; lia|right]. destruct (decide (b = 34)) as [->|]; [by left|].
      destruct (decide (b = 92)) as [->|]; [by right; left|]. lia. }
    clear Hb Hp. let l := eval vm_compute in (seqZ 0 32 ++ [34; 92]) in change (b ∈ l) in Hin.
    rewrite !elem_of_cons in Hin.
    repeat (destruct Hin as [->|Hin]; [by split|]). by apply not_elem_of_nil in Hin.
Qed.

Lemma continuation_plain b : continuation b = true -> plain b.
Proof. unfold continuation, plain, quote, backslash. rewrite in_range_true. lia. Qed.

Lemma escape_rune r l : Forall is_byte r -> rune r -> exists e, escape_string (r ++ l) = e ++ escape_string l /\ spells e r.
Proof.
  intros Hb Hr. destruct Hr as [b0 H|b0 b1 H1 H2|b0 b1 b2 H1 H2 H3|b0 b1 b2 b3 H1 H2 H3 H4].
  - exists (escape_ascii b0). assert (0 <= b0 < 256) by (by inversion Hb). split; [|apply spells_ascii; lia].
    cbn. by replace (b0 <? 128) with true by lia.
  - exists [b0; b1]. pose proof H1 as H1'%in_range_true. split.
    + cbn. rewrite ltb_false_intro by lia. by rewrite H1, H2.
    + apply spells_plain; [by rewrite <-(app_nil_r [b0; b1]), utf8_rune by (by constructor)|].
      repeat constructor; try (apply continuation_plain; done); unfold quote, backslash; lia.
  - exists (escape_rune3 b0 b1 b2). pose proof H1 as H1'%in_range_true. split.
    + cbn. rewrite ltb_false_intro by lia. not_in_range 0xC2 0xDF b0. by rewrite H1, H2, H3.
    + unfold escape_rune3. destruct (_ && _ && _) eqn:E.
      * rewrite !andb_true_iff, orb_true_iff, !Z.eqb_eq in E. destruct E as [[-> ->] [->| ->]]; by split.
      * apply spells_plain; [by rewrite <-(app_nil_r [b0; b1; b2]), utf8_rune by (by constructor)|].
        apply second3_continuation in H2. repeat constructor; try (apply continuation_plain; done); unfold quote, backslash; lia.
  - exists [b0; b1; b2; b3]. pose proof H1 as H1'%in_range_true. split.
    + cbn. rewrite ltb_false_intro by lia. not_in_range 0xC2 0xDF b0. not_in_range 0xE0 0xEF b0. cbn.
      by rewrite H1, H2, H3, H4.
    + apply spells_plain; [by rewrite <-(app_nil_r [b0; b1; b2; b3]), utf8_rune by (by constructor)|].
      apply second4_continuation in H2. repeat constructor; try (apply continuation_plain; done); unfold quote, backslash; lia.
Qed.

Lemma spells_app e1 r1 e2 r2 : spells e1 r1 -> spells e2 r2 -> spells (e1 ++ e2) (r1 ++ r2).
Proof.
  intros [A1 A2 A3] [B1 B2 B3]. split.
  - by rewrite utf8_app.
  - intros tail. rewrite <-app_assoc, A2, B2. destruct (scan_string tail) as [[]|]; cbn; [|done]. by rewrite app_assoc.
  - intros tail. by rewrite <-app_assoc, A3, B3.
Qed.

Lemma escape_spells l : Forall is_byte l -> utf8_valid_bytes l = true -> spells (escape_string l) l.
Proof.
  intros Hb Hu. revert Hb. pattern l. apply utf8_ind; [..|done].
  - intros _. split; [done| |done]. intros tail. cbn [escape_string app]. by destruct (scan_string tail) as [[]|].
  - intros r l' Hr _ IH [Hbr Hbl]%Forall_app. destruct (escape_rune r l' Hbr Hr) as (e & -> & He).
    by apply spells_app; [|apply IH].
Qed.

(** Encoding and decoding a string. *)
Lemma scan_canonical_string s tail :
  utf8_valid s = true -> scan_string (escape_string (bytes_of s) ++ quote :: tail) = Some (bytes_of s, tail).
Proof.
  intros Hs. rewrite (sp_scan _ _ (escape_spells _ (bytes_of_range s) Hs)). cbn. by rewrite app_nil_r.
Qed.

(** ** Every token takes at least one byte *)
Ltac opt_inv H :=
  repeat match type of H with
  | mbind _ ?m = Some _ => let E := fresh "E" in destruct m as [?|] eqn:E; cbn in H; [|discriminate H]
  | (let '(_, _) := ?p in _) = Some _ => destruct p
  | (if ?b then _ else _) = Some _ => let E := fresh "E" in destruct b eqn:E
  | match ?l with [] => _ | _ :: _ => _ end = Some _ => destruct l; cbn in H; try discriminate H
  | Some _ = Some _ => injection H as H; subst
  | None = Some _ => discriminate H
  end.

(** The recursive calls of [scan_string], as an induction principle. *)
Lemma scan_string_shorter l s r : scan_string l = Some (s, r) -> (length r < length l)%nat.
Proof.
  revert s r. induction l as [l IH] using (induction_ltof1 _ (@length Z)). unfold ltof in IH. intros s r H.
  assert (forall l' s', (length l' < length l)%nat -> scan_string l' = Some (s', r) -> (length r < length l)%nat) as Hrec.
  { intros l' s' Hl Hs. specialize (IH _ Hl _ _ Hs). lia. }
  destruct l as [|b l0]; [done|]. cbn [scan_string] in H. destruct (b =? quote).
  { injection H as <- <-. cbn. lia. }
  destruct (b =? backslash).
  - destruct l0 as [|c l1]; [done|]. destruct (c =? 117).
    + destruct l1 as [|h1 [|h2 [|h3 [|h4 l5]]]]; try done. destruct (hex4 h1 h2 h3 h4) as [r1|]; [|done]. cbn in H.
      destruct (is_surrogate r1).
      * destruct (paired_escape r1 l5) as [bytes|]; [destruct l5 as [|? [|? [|? [|? [|? [|? l6]]]]]]|];
          opt_inv H; (eapply Hrec; [|eassumption]); cbn; lia.
      * opt_inv H. eapply Hrec; [|eassumption]. cbn. lia.
    + opt_inv H. eapply Hrec; [|eassumption]. cbn. lia.
  - destruct (b <? 32); [done|]. opt_inv H. eapply Hrec; [|eassumption]. cbn. lia.
Qed.

Lemma span_digits_shorter l d r : span_digits l = (d, r) -> (length d + length r = length l)%nat.
Proof.
  revert d r. induction l as [|b l IH]; cbn; intros d r H; [by injection H as <- <-|].
  destruct (is_digit b); [|by injection H as <- <-]. destruct (span_digits l) as [d' r'].
  injection H as <- <-. cbn. specialize (IH _ _ eq_refl). lia.
Qed.

Lemma digits1_shorter l d r : digits1 l = Some (d, r) -> (length r < length l)%nat.
Proof.
  unfold digits1. destruct (span_digits l) as [[|b d'] r'] eqn:E; [done|]. intros [= <- <-].
  apply span_digits_shorter in E. cbn in E. lia.
Qed.

Lemma scan_number_shorter l n r : scan_number l = Some (n, r) -> (length r < length l)%nat.
Proof.
  unfold scan_number. intros H.
  assert (length (scan_sign l).2 <= length l)%nat as Hs.
  { destruct l as [|b l']; [done|]. cbn. destruct (b =? 45); cbn; lia. }
  destruct (scan_sign l) as [s l1]. cbn in Hs.
  destruct (scan_int l1) as [[i l2]|] eqn:Ei; [|done]. cbn in H.
  destruct (scan_fraction l2) as [[f l3]|] eqn:Ef; [|done]. cbn in H.
  destruct (scan_exponent l3) as [[e l4]|] eqn:Ee; [|done]. injection H as <- <-.
  assert (length l2 < length l1)%nat.
  { destruct l1 as [|b l1]; [done|]. cbn in Ei. destruct (b =? 48); [injection Ei as <- <-; cbn; lia|].
    by apply digits1_shorter in Ei. }
  assert (length l3 <= length l2)%nat.
  { destruct l2 as [|b l2]; cbn in Ef; [by injection Ef as <- <-|]. destruct (b =? 46); [|by injection Ef as <- <-].
    destruct (digits1 l2) as [[d r]|] eqn:Ed; [|done]. injection Ef as <- <-. apply digits1_shorter in Ed. cbn. lia. }
  assert (length l4 <= length l3)%nat; [|lia].
  destruct l3 as [|b l3]; cbn in Ee; [by injection Ee as <- <-|]. destruct (_ || _); [|by injection Ee as <- <-].
  assert (length (scan_exp_sign l3).2 <= length l3)%nat as Hx.
  { destruct l3 as [|b' l3]; [done|]. cbn. destruct (_ || _); cbn; lia. }
  destruct (scan_exp_sign l3) as [sg l3']. destruct (digits1 l3') as [[d r]|] eqn:Ed; [|done].
  injection Ee as <- <-. apply digits1_shorter in Ed. cbn in *. lia.
Qed.

Lemma strip_prefix_Some p l r : strip_prefix p l = Some r <-> l = p ++ r.
Proof.
  revert l. induction p as [|a p IH]; intros [|b l]; cbn; [naive_solver..|].
  destruct (Z.eqb_spec a b) as [->|Hne]; [rewrite IH|]; naive_solver.
Qed.

Lemma scan_value_shorter b l v r : scan_value b l = Some (v, r) -> (length r < S (length l))%nat.
Proof.
  unfold scan_value. intros H. repeat case_match; subst.
  - destruct (scan_string l) as [[s r']|] eqn:E; [|done]. injection H as <- <-. apply scan_string_shorter in E. lia.
  - destruct (strip_prefix _ l) as [r'|] eqn:E; [|done]. injection H as <- <-. apply strip_prefix_Some in E as ->.
    rewrite length_app. lia.
  - destruct (strip_prefix _ l) as [r'|] eqn:E; [|done]. injection H as <- <-. apply strip_prefix_Some in E as ->.
    rewrite length_app. lia.
  - destruct (strip_prefix _ l) as [r'|] eqn:E; [|done]. injection H as <- <-. apply strip_prefix_Some in E as ->.
    rewrite length_app. lia.
  - destruct (scan_number (b :: l)) as [[n r']|] eqn:E; [|done]. injection H as <- <-.
    by apply scan_number_shorter in E.
Qed.

Lemma skip_space_shorter l : (length (skip_space l) <= length l)%nat.
Proof. induction l as [|b l IH]; cbn; [done|]. destruct (is_json_space b); cbn; lia. Qed.

(** The errors of the token reader, and its progress. *)
Definition token_result (l : list Z) (r : result (Token * Decoder)) : Prop :=
  match r with
  | Ok (_, d') => (length (dec_rest d') < length l)%nat
  | Err e => e = ErrEOF \/ e = ErrSyntax
  end.

Lemma open_result delim st d b rest : token_result (b :: rest) (open_delim delim st d rest).
Proof. unfold open_delim. destruct (tokenValueAllowed _); cbn; [lia|auto]. Qed.
Lemma close_result delim allowed d b rest : token_result (b :: rest) (close_delim delim allowed d rest).
Proof. unfold close_delim. destruct allowed, (dec_tokenStack d); cbn; auto; lia. Qed.

Lemma token_value_result d b rest : token_result (b :: rest) (token_value d b rest).
Proof.
  unfold token_value.
  destruct (b =? 91); [apply open_result|]. destruct (b =? 93); [apply close_result|].
  destruct (b =? 123); [apply open_result|]. destruct (b =? 125); [apply close_result|].
  destruct (_ && _).
  - destruct (scan_string rest) as [[key r]|] eqn:E; cbn; [|auto]. apply scan_string_shorter in E. lia.
  - destruct (tokenValueAllowed _); [|cbn; auto].
    destruct (scan_value b rest) as [[v r]|] eqn:E; cbn; [|auto]. by apply scan_value_shorter in E.
Qed.

Lemma token_loop_result n d : token_result (dec_rest d) (token_loop n d).
Proof.
  revert d. induction n as [|n IH]; intros d; cbn [token_loop];
    pose proof (skip_space_shorter (dec_rest d)); destruct (skip_space (dec_rest d)) as [|b rest]; cbn [length] in *;
    try (by cbn; auto).
  - destruct (b =? 58); [by destruct (dec_tokenState d); cbn; auto|].
    destruct (b =? 44); [by destruct (dec_tokenState d); cbn; auto|].
    pose proof (token_value_result d b rest) as Hv. destruct (token_value d b rest) as [[t d']|e]; cbn in *; [lia|done].
  - assert (forall st, token_result (dec_rest d) (token_loop n (mkDecoder st (dec_tokenStack d) rest))) as Hnext.
    { intros st. specialize (IH (mkDecoder st (dec_tokenStack d) rest)). cbn [dec_rest] in IH.
      destruct (token_loop n _) as [[t d']|e]; cbn in *; [lia|done]. }
    destruct (b =? 58); [by destruct (dec_tokenState d); auto; cbn; auto|].
    destruct (b =? 44); [by destruct (dec_tokenState d); auto; cbn; auto|].
    pose proof (token_value_result d b rest) as Hv. destruct (token_value d b rest) as [[t d']|e]; cbn in *; [lia|done].
Qed.

Lemma Token_shorter d t d' : Decoder_Token d = Ok (t, d') -> (length (dec_rest d') < length (dec_rest d))%nat.
Proof. intros H. pose proof (token_loop_result 1 d) as Hr. unfold Decoder_Token in H. by rewrite H in Hr. Qed.

Lemma Token_error d e : Decoder_Token d = Err e -> e = ErrEOF \/ e = ErrSyntax.
Proof. intros H. pose proof (token_loop_result 1 d) as Hr. unfold Decoder_Token in H. by rewrite H in Hr. Qed.

(** ** Escapes *)
Lemma stringScan_shorter l r : stringScan l = Some r -> (length r <= length l)%nat.
Proof.
  revert r. induction l as [l IH] using (induction_ltof1 _ (@length Z)). unfold ltof in IH. intros r H.
  assert (forall l', (length l' < length l)%nat -> stringScan l' = Some r -> (length r <= length l)%nat) as Hrec.
  { intros l' Hl Hs. specialize (IH _ Hl _ Hs). lia. }
  destruct l as [|b l0]; [by injection H as <-|]. cbn [stringScan] in H. destruct (b =? quote).
  { injection H as <-. cbn. lia. }
  destruct (b =? backslash).
  - destruct l0 as [|c l1]; [done|]. destruct (negb (c =? 117)); [eapply Hrec; [|exact H]; cbn; lia|].
    destruct l1 as [|h1 [|h2 [|h3 [|h4 l5]]]]; try done. cbn [unicodeEscapeValue] in H.
    destruct (hex4 h1 h2 h3 h4) as [cp|]; [|done]. destruct (in_range _ _ cp).
    + destruct l5 as [|? [|? [|g1 [|g2 [|g3 [|g4 l6]]]]]]; try done. destruct (_ || _); [done|].
      destruct (hex4 g1 g2 g3 g4) as [low|]; [|done]. destruct (_ || _); [done|]. eapply Hrec; [|exact H]. cbn. lia.
    + destruct (in_range _ _ cp); [done|]. eapply Hrec; [|exact H]. cbn. lia.
  - destruct (_ || _); [done|]. eapply Hrec; [|exact H]. cbn. lia.
Qed.

Lemma escapes_loop_fuel n l : (length l <= n)%nat -> escapes_loop n l = validUnicodeEscapes l.
Proof.
  unfold validUnicodeEscapes. revert n. induction l as [l IH] using (induction_ltof1 _ (@length Z)). unfold ltof in IH.
  intros n Hn. destruct l as [|b l]; [by destruct n|]. cbn [length] in *. destruct n as [|n]; [lia|]. cbn [escapes_loop].
  destruct (b =? quote).
  - destruct (stringScan l) as [r|] eqn:E; [|done]. apply stringScan_shorter in E.
    rewrite (IH r), (IH r (ltac:(lia)) (length l)) by lia. done.
  - by rewrite (IH l) by lia.
Qed.

Lemma escapes_other b l : b <> quote -> validUnicodeEscapes (b :: l) = validUnicodeEscapes l.
Proof. intros Hb. unfold validUnicodeEscapes. cbn. by rewrite (proj2 (Z.eqb_neq _ _) Hb). Qed.

Lemma escapes_string l r : stringScan l = Some r -> validUnicodeEscapes (quote :: l) = validUnicodeEscapes r.
Proof.
  intros H. unfold validUnicodeEscapes at 1. cbn. rewrite H. apply escapes_loop_fuel. by apply stringScan_shorter.
Qed.

(** A text that passes both checks wherever it stands. *)
Record clean (t : list Z) : Prop := {
  cl_utf8 : utf8_valid_bytes t = true;
  cl_escapes : forall r, validUnicodeEscapes (t ++ r) = validUnicodeEscapes r
}.

Lemma clean_app t1 t2 : clean t1 -> clean t2 -> clean (t1 ++ t2).
Proof.
  intros [A1 A2] [B1 B2]. split; [by rewrite utf8_app|]. intros r. by rewrite <-app_assoc, A2, B2.
Qed.

Lemma clean_ascii t : Forall (fun b => b < 128 /\ b <> quote) t -> clean t.
Proof.
  intros Ht. split.
  - induction Ht as [|b t [Hb _] _ IH]; [done|]. cbn. by replace (b <? 128) with true by lia.
  - intros r. induction Ht as [|b t [_ Hb] _ IH]; [done|]. cbn [app]. by rewrite escapes_other.
Qed.

Lemma clean_string s : utf8_valid s = true -> clean (canonicalJSONString s).
Proof.
  intros Hs. destruct (escape_spells _ (bytes_of_range s) Hs) as [H1 _ H3]. unfold canonicalJSONString. split.
  - rewrite utf8_app by done. rewrite utf8_app; done.
  - intros r. rewrite <-!app_assoc. cbn [app]. apply escapes_string. rewrite H3. done.
Qed.

Lemma clean_join ts : Forall clean ts -> clean (join_commas ts).
Proof.
  induction 1 as [|t ts Ht Hts IH]; [by apply clean_ascii|]. destruct ts as [|t' ts]; [done|].
  change (join_commas (t :: t' :: ts)) with (t ++ [44] ++ join_commas (t' :: ts)).
  apply clean_app; [done|]. apply clean_app; [|done]. apply clean_ascii. by repeat constructor.
Qed.
