(* ===== verification/CanonicalNumbers.v ===== *)
(** * Canonical numbers

    [canonicalJSONNumber] against the decimal value of a JSON number literal:
    two literals have the same canonical spelling exactly when they denote the
    same number, and the spelling is a literal that is its own canonical
    spelling. *)
From Stdlib Require Import Ascii String DecimalString DecimalZ DecimalFacts.
From S2P Require Import Prelude GoStrings Sha256 Identity JsonText Canonical JsonLemmas.

(** ** Specification *)

(** The number that digits denote. *)
Definition digits_value (l : list Z) : Z := fold_left (fun acc b => acc * 10 + (b - 48)) l 0.

(** The mantissa and the power of ten of a literal. *)
Definition number_value (number : list Z) : Z * Z :=
  let '(sign, text) := scan_sign number in
  let '(text, exponent) :=
    match split_at_first (fun b => (b =? 101) || (b =? 69)) text with
    | Some (before, after) => (before, default 0 (parse_int (trim_plus after)))
    | None => (text, 0)
    end in
  let '(digits, fractionLength) :=
    match split_at_first (Z.eqb 46) text with
    | Some (before, after) => (before ++ after, Z.of_nat (length after))
    | None => (text, 0)
    end in
  (match sign with [] => 1 | _ => -1 end * digits_value digits, exponent - fractionLength).

(** [m1 * 10^p1 = m2 * 10^p2] *)
Definition same_number (x y : Z * Z) : Prop :=
  let p := Z.min (snd x) (snd y) in
  fst x * 10 ^ (snd x - p) = fst y * 10 ^ (snd y - p).

(** A literal of the JSON grammar. *)
Definition number_literal (n : list Z) : Prop := scan_number n = Some (n, []).

#[export] Instance number_literal_dec n : Decision (number_literal n).
Proof. unfold number_literal. apply _. Defined.

(** ** Digits *)
Definition digits (l : list Z) : Prop := Forall (fun b => is_digit b = true) l.

Lemma is_digit_true b : is_digit b = true <-> 48 <= b <= 57.
Proof. apply in_range_true. Qed.

Lemma digits_value_acc l acc :
  fold_left (fun acc b => acc * 10 + (b - 48)) l acc = acc * 10 ^ Z.of_nat (length l) + digits_value l.
Proof.
  unfold digits_value. revert acc. induction l as [|b l IH]; intros acc; cbn [fold_left length]; [lia|].
  rewrite IH, (IH (0 * 10 + (b - 48))). rewrite Nat2Z.inj_succ, Z.pow_succ_r by lia. lia.
Qed.

Lemma digits_value_app l1 l2 : digits_value (l1 ++ l2) = digits_value l1 * 10 ^ Z.of_nat (length l2) + digits_value l2.
Proof. unfold digits_value at 1. rewrite fold_left_app. apply digits_value_acc. Qed.

Lemma digits_value_cons b l : digits_value (b :: l) = (b - 48) * 10 ^ Z.of_nat (length l) + digits_value l.
Proof. apply (digits_value_app [b] l). Qed.

Lemma digits_value_bounds l : digits l -> 0 <= digits_value l < 10 ^ Z.of_nat (length l).
Proof.
  induction 1 as [|b l Hb _ IH]; [done|]. rewrite digits_value_cons. apply is_digit_true in Hb. cbn [length].
  rewrite Nat2Z.inj_succ, Z.pow_succ_r by lia. pose proof (Z.pow_pos_nonneg 10 (Z.of_nat (length l))). nia.
Qed.

(** Digits of the same length are determined by their value. *)
Lemma digits_value_inj l1 l2 :
  digits l1 -> digits l2 -> length l1 = length l2 -> digits_value l1 = digits_value l2 -> l1 = l2.
Proof.
  intros H1. revert l2. induction H1 as [|b1 l1 Hb1 H1 IH]; intros [|b2 l2] H2 Hlen Hv; try done.
  injection Hlen as Hlen. inversion H2 as [|?? Hb2 H2']; subst. rewrite !digits_value_cons, Hlen in Hv.
  pose proof (digits_value_bounds _ H1) as B1. pose proof (digits_value_bounds _ H2') as B2. rewrite Hlen in B1.
  apply is_digit_true in Hb1, Hb2.
  assert (b1 = b2) by nia. subst b2. f_equal. apply IH; [done..|lia].
Qed.

(** Without leading zeros the value determines the length too. *)
Lemma digits_value_lead b l : 49 <= b -> digits l -> 10 ^ Z.of_nat (length l) <= digits_value (b :: l).
Proof.
  intros Hb Hl. rewrite digits_value_cons. pose proof (digits_value_bounds _ Hl). nia.
Qed.

Definition normal_digits (l : list Z) : Prop :=
  digits l /\ (exists d l', l = d :: l' /\ d <> 48) /\ (exists l' d, l = l' ++ [d] /\ d <> 48).

Lemma normal_length l1 l2 : normal_digits l1 -> normal_digits l2 -> digits_value l1 = digits_value l2 ->
  (length l1 <= length l2)%nat.
Proof.
  intros (D1 & (d1 & k1 & -> & N1) & _) (D2 & _ & _) Hv. destruct (decide (length (d1 :: k1) <= length l2)%nat); [done|].
  exfalso. inversion D1 as [|?? Hd1 Dk1]; subst. apply is_digit_true in Hd1.
  pose proof (digits_value_lead d1 k1 ltac:(lia) Dk1). pose proof (digits_value_bounds _ D2) as B2.
  assert (10 ^ Z.of_nat (length l2) <= 10 ^ Z.of_nat (length k1)) by (apply Z.pow_le_mono_r; cbn in *; lia). lia.
Qed.

Lemma normal_inj l1 l2 : normal_digits l1 -> normal_digits l2 -> digits_value l1 = digits_value l2 -> l1 = l2.
Proof.
  intros H1 H2 Hv. apply digits_value_inj; [apply H1|apply H2| |done].
  apply Nat.le_antisymm; by apply normal_length.
Qed.

(** A normal mantissa is positive and not divisible by ten. *)
Lemma normal_mod l : normal_digits l -> 0 < digits_value l /\ digits_value l mod 10 <> 0.
Proof.
  intros (D & _ & (l' & d & -> & Hd)). apply Forall_app in D as [Dl Dd]. inversion Dd as [|?? Hdd]; subst.
  apply is_digit_true in Hdd. rewrite digits_value_app. cbn. pose proof (digits_value_bounds _ Dl).
  change (digits_value [d]) with (d - 48). replace (Z.pow_pos 10 1) with 10 by done.
  rewrite Z.add_comm, Z.mul_comm, Z.mul_comm. rewrite Z_mod_plus_full, Z.mod_small by lia. lia.
Qed.

(** ** Trimming *)
Lemma trim_left_spec l : exists k, l = replicate k 48 ++ trim_left_zeros l /\
  (trim_left_zeros l = [] \/ exists d l', trim_left_zeros l = d :: l' /\ d <> 48).
Proof.
  induction l as [|b l (k & IH & Hd)]; [by exists 0%nat; auto|]. cbn [trim_left_zeros].
  destruct (Z.eqb_spec b 48) as [->|Hne].
  - exists (S k). cbn. by rewrite <-IH.
  - exists 0%nat. split; [done|]. right. eauto.
Qed.

Lemma rev_zeros k : rev (replicate k 48) = replicate k 48.
Proof. rewrite rev_alt. apply reverse_replicate. Qed.

Lemma trim_right_spec l : exists k, l = trim_right_zeros l ++ replicate k 48 /\
  (trim_right_zeros l = [] \/ exists l' d, trim_right_zeros l = l' ++ [d] /\ d <> 48).
Proof.
  unfold trim_right_zeros. destruct (trim_left_spec (rev l)) as (k & Hl & Hd). exists k. split.
  - rewrite <-(rev_zeros k), <-rev_app_distr, <-Hl. by rewrite rev_involutive.
  - destruct Hd as [->|(d & l' & -> & Hd)]; [by left|right]. exists (rev l'), d. done.
Qed.

Lemma digits_value_zeros k : digits_value (replicate k 48) = 0.
Proof. induction k as [|k IH]; [done|]. cbn [replicate]. rewrite digits_value_cons, IH. lia. Qed.

(** Digits without their leading and trailing zeros. *)
Lemma significant_spec ds :
  digits ds ->
  (trim_left_zeros ds = [] /\ digits_value ds = 0) \/
  (trim_left_zeros ds <> [] /\ normal_digits (trim_right_zeros (trim_left_zeros ds)) /\
   digits_value ds = digits_value (trim_right_zeros (trim_left_zeros ds)) *
     10 ^ (Z.of_nat (length (trim_left_zeros ds)) - Z.of_nat (length (trim_right_zeros (trim_left_zeros ds)))) /\
   (length (trim_right_zeros (trim_left_zeros ds)) <= length (trim_left_zeros ds))%nat).
Proof.
  intros Hd. destruct (trim_left_spec ds) as (k & Hl & Hlead).
  assert (digits_value ds = digits_value (trim_left_zeros ds)) as Hv.
  { rewrite Hl at 1. rewrite digits_value_app, digits_value_zeros. lia. }
  destruct Hlead as [Hnil|(d & l' & Hcons & Hne)]; [left; split; [done|by rewrite Hv, Hnil]|right].
  rewrite Hl in Hd. apply Forall_app in Hd as [_ Hd]. rewrite Hv. clear Hv Hl. rewrite Hcons in *. clear Hcons.
  destruct (trim_right_spec (d :: l')) as (j & Hr & Hlast).
  set (sig := trim_right_zeros (d :: l')) in *.
  destruct Hlast as [Hnil|(l2 & e & Hsnoc & He)].
  { rewrite Hnil in Hr. destruct j; [done|]. injection Hr as -> _. done. }
  rewrite Hr in Hd. apply Forall_app in Hd as [Hd _]. split; [done|]. split.
  - split; [done|]. split; [|by eauto]. destruct sig as [|d' sig']; [by destruct l2|].
    injection Hr as -> _. by exists d', sig'.
  - rewrite Hr, length_app, length_replicate, digits_value_app, digits_value_zeros, length_replicate.
    split; [|lia]. replace (Z.of_nat (length sig + j) - Z.of_nat (length sig)) with (Z.of_nat j) by lia. lia.
Qed.

Lemma trim_left_normal l : normal_digits l -> trim_left_zeros l = l.
Proof. intros (_ & (d & l' & -> & Hd) & _). cbn. by rewrite (proj2 (Z.eqb_neq _ _) Hd). Qed.
Lemma trim_right_normal l : normal_digits l -> trim_right_zeros l = l.
Proof.
  intros (_ & _ & (l' & d & -> & Hd)). unfold trim_right_zeros. rewrite rev_app_distr. cbn.
  rewrite (proj2 (Z.eqb_neq _ _) Hd). cbn. by rewrite rev_involutive.
Qed.

(** ** Integers in decimal *)
Lemma uint_of_digits l : digits l -> exists u, NilEmpty.uint_of_string (string_of l) = Some u.
Proof.
  induction 1 as [|b l Hb _ [u IH]]; [by exists Decimal.Nil|]. cbn [string_of NilEmpty.uint_of_string]. rewrite IH.
  apply is_digit_true in Hb. assert (b ∈ seqZ 48 10) as Hin by (apply elem_of_seqZ; lia). clear Hb.
  let l := eval vm_compute in (seqZ 48 10) in change (b ∈ l) in Hin. rewrite !elem_of_cons in Hin.
  repeat (destruct Hin as [->|Hin]; [by eexists|]). by apply not_elem_of_nil in Hin.
Qed.

Lemma parse_digits sg l :
  digits l -> l <> [] -> sg = [] \/ sg = [45] -> exists x, parse_int (sg ++ l) = Some x.
Proof.
  intros Hd Hne Hsg. destruct (uint_of_digits l Hd) as [u Hu]. destruct l as [|b l]; [done|].
  unfold parse_int. destruct Hsg as [->| ->]; cbn [app string_of NilZero.int_of_string].
  - destruct (Ascii.eqb_spec (ascii_of_byte b) "-"%char) as [He|_].
    + exfalso. inversion Hd as [|?? Hb]; subst. apply is_digit_true in Hb.
      apply (f_equal byte_of) in He. rewrite byte_of_ascii_of in He by lia. vm_compute in He. lia.
    + change (String (ascii_of_byte b) (string_of l)) with (string_of (b :: l)). unfold NilZero.uint_of_string.
      destruct (string_of (b :: l)) eqn:E; [done|]. rewrite Hu. by eexists.
  - cbn [Ascii.eqb]. change (Ascii.eqb (ascii_of_byte 45) "-"%char) with true. cbn iota.
    change (String (ascii_of_byte b) (string_of l)) with (string_of (b :: l)). unfold NilZero.uint_of_string.
    destruct (string_of (b :: l)) eqn:E; [done|]. rewrite Hu. by eexists.
Qed.

Lemma bytes_of_uint u : digits (bytes_of (NilEmpty.string_of_uint u)).
Proof. induction u; cbn; constructor; done. Qed.

Lemma print_int_spec z : exists sg ds, print_int z = sg ++ ds /\ (sg = [] \/ sg = [45]) /\ digits ds /\ ds <> [].
Proof.
  assert (forall u, digits (bytes_of (NilZero.string_of_uint u)) /\ bytes_of (NilZero.string_of_uint u) <> []) as Hu.
  { intros u. destruct u; (split; [|done]); try apply (bytes_of_uint _). by repeat constructor. }
  unfold print_int. destruct (Z.to_int z) as [u|u]; cbn [NilZero.string_of_int]; destruct (Hu u) as [H1 H2].
  - by exists [], (bytes_of (NilZero.string_of_uint u)); auto.
  - by exists [45], (bytes_of (NilZero.string_of_uint u)); auto.
Qed.

Lemma parse_print z : parse_int (print_int z) = Some z.
Proof.
  unfold parse_int, print_int. rewrite string_of_bytes_of.
  rewrite NilZero.isi; [by rewrite <-(DecimalZ.of_to z) at 2|..]; intros E; pose proof (DecimalZ.of_to z) as Hz;
    rewrite E in Hz; cbn in Hz; subst z; by vm_compute in E.
Qed.

(** ** The parts of a literal *)
Definition no_digit (r : list Z) : Prop := match r with [] => True | b :: _ => is_digit b = false end.

Lemma span_digits_spec l d r : span_digits l = (d, r) -> l = d ++ r /\ digits d /\ no_digit r.
Proof.
  revert d r. induction l as [|b l IH]; cbn; intros d r H; [injection H as <- <-; split_and!; [done|constructor|done]|].
  destruct (is_digit b) eqn:E; [|injection H as <- <-; split_and!; [done|constructor|done]].
  destruct (span_digits l) as [d' r']. injection H as <- <-. destruct (IH _ _ eq_refl) as (-> & Hd & Hr).
  split_and!; [done|by constructor|done].
Qed.

Lemma span_digits_app d r : digits d -> no_digit r -> span_digits (d ++ r) = (d, r).
Proof.
  intros Hd Hr. induction Hd as [|b d Hb _ IH]; cbn [app span_digits].
  - destruct r as [|b r]; [done|]. cbn in Hr |- *. by rewrite Hr.
  - by rewrite Hb, IH.
Qed.

Lemma digits1_spec l d r : digits1 l = Some (d, r) -> l = d ++ r /\ digits d /\ d <> [] /\ no_digit r.
Proof.
  unfold digits1. destruct (span_digits l) as [d' r'] eqn:E. apply span_digits_spec in E as (-> & Hd & Hr).
  destruct d' as [|b d']; [done|]. by intros [= <- <-].
Qed.

Lemma digits1_app d r : digits d -> d <> [] -> no_digit r -> digits1 (d ++ r) = Some (d, r).
Proof. intros Hd Hne Hr. unfold digits1. rewrite span_digits_app by done. by destruct d. Qed.

Definition int_part (i : list Z) : Prop := i = [48] \/ exists d i', i = d :: i' /\ d <> 48 /\ digits i.
Definition fraction_part (f fd : list Z) : Prop := (f = [] /\ fd = []) \/ (f = 46 :: fd /\ digits fd /\ fd <> []).
Definition exponent_part (e : list Z) (x : Z) : Prop :=
  (e = [] /\ x = 0) \/
  exists c sg ed, e = c :: sg ++ ed /\ (c = 101 \/ c = 69) /\ (sg = [] \/ sg = [43] \/ sg = [45]) /\ digits ed /\ ed <> [] /\
    parse_int (trim_plus (sg ++ ed)) = Some x.

Record parts (n s i f fd e : list Z) (x : Z) : Prop := {
  pt_text : n = s ++ i ++ f ++ e;
  pt_sign : s = [] \/ s = [45];
  pt_int : int_part i;
  pt_fraction : fraction_part f fd;
  pt_exponent : exponent_part e x
}.

Lemma int_part_digits i : int_part i -> digits i /\ i <> [].
Proof. intros [->|(d & i' & -> & _ & Hd)]; [|done]. split; [by repeat constructor|done]. Qed.

Lemma digits_no_plus l : digits l -> trim_plus l = l.
Proof. destruct 1 as [|b l Hb _]; [done|]. cbn. apply is_digit_true in Hb. by rewrite (proj2 (Z.eqb_neq b 43)) by lia. Qed.

Lemma exponent_value sg ed :
  sg = [] \/ sg = [43] \/ sg = [45] -> digits ed -> ed <> [] -> exists x, parse_int (trim_plus (sg ++ ed)) = Some x.
Proof.
  intros Hsg Hd Hne. destruct Hsg as [->|[->| ->]]; cbn [app].
  - rewrite digits_no_plus by done. apply (parse_digits [] ed); auto.
  - apply (parse_digits [] ed); auto.
  - apply (parse_digits [45] ed); auto.
Qed.

Lemma scan_number_parts l n r : scan_number l = Some (n, r) -> l = n ++ r /\ exists s i f fd e x, parts n s i f fd e x.
Proof.
  unfold scan_number. intros H.
  assert (l = (scan_sign l).1 ++ (scan_sign l).2 /\ ((scan_sign l).1 = [] \/ (scan_sign l).1 = [45])) as [Hl Hs].
  { destruct l as [|b l']; [auto|]. cbn. destruct (Z.eqb_spec b 45) as [->|]; auto. }
  destruct (scan_sign l) as [s l1]. cbn in Hl, Hs.
  destruct (scan_int l1) as [[i l2]|] eqn:Ei; [|done]. cbn in H.
  destruct (scan_fraction l2) as [[f l3]|] eqn:Ef; [|done]. cbn in H.
  destruct (scan_exponent l3) as [[e l4]|] eqn:Ee; [|done]. injection H as <- <-.
  assert (l1 = i ++ l2 /\ int_part i) as [-> Hi].
  { destruct l1 as [|b l1']; [done|]. cbn [scan_int] in Ei. destruct (Z.eqb_spec b 48) as [->|Hne].
    - injection Ei as <- <-. split; [done|by left].
    - apply digits1_spec in Ei as (Hl1 & Hd & Hnil & _). split; [done|]. right. destruct i as [|d i']; [done|].
      injection Hl1 as -> _. by exists d, i'. }
  assert (l2 = f ++ l3 /\ exists fd, fraction_part f fd) as [-> [fd Hf]].
  { destruct l2 as [|b l2']; cbn [scan_fraction] in Ef; [injection Ef as <- <-; split; [done|by exists []; left]|].
    destruct (Z.eqb_spec b 46) as [->|]; [|injection Ef as <- <-; split; [done|by exists []; left]].
    destruct (digits1 l2') as [[d r]|] eqn:Ed; [|done]. injection Ef as <- <-.
    apply digits1_spec in Ed as (-> & Hd & Hnil & _). split; [done|]. exists d. by right. }
  assert (l3 = e ++ l4 /\ exists x, exponent_part e x) as [-> [x He]].
  { destruct l3 as [|b l3']; cbn [scan_exponent] in Ee; [injection Ee as <- <-; split; [done|by exists 0; left]|].
    destruct ((b =? 101) || (b =? 69)) eqn:Eb; [|injection Ee as <- <-; split; [done|by exists 0; left]].
    assert (l3' = (scan_exp_sign l3').1 ++ (scan_exp_sign l3').2 /\
      ((scan_exp_sign l3').1 = [] \/ (scan_exp_sign l3').1 = [43] \/ (scan_exp_sign l3').1 = [45])) as [Hl3 Hsg].
    { destruct l3' as [|b' l3'']; [auto|]. cbn. destruct ((b' =? 43) || (b' =? 45)) eqn:Es; [|auto].
      apply orb_true_iff in Es as [->%Z.eqb_eq| ->%Z.eqb_eq]; auto. }
    destruct (scan_exp_sign l3') as [sg l5]. cbn in Hl3, Hsg. destruct (digits1 l5) as [[d r]|] eqn:Ed; [|done].
    injection Ee as <- <-. apply digits1_spec in Ed as (-> & Hd & Hnil & _). split; [rewrite Hl3; cbn; by rewrite <-app_assoc|].
    destruct (exponent_value sg d) as [x Hx]; [done..|]. exists x. right. exists b, sg, d.
    apply orb_true_iff in Eb. rewrite !Z.eqb_eq in Eb. by split_and!. }
  rewrite Hl. split; [by rewrite <-!app_assoc|]. exists s, i, f, fd, e, x. by split.
Qed.

(** A separator or the end of the text follows. *)
Definition delimited (r : list Z) : Prop := match r with [] => True | b :: _ => b = 44 \/ b = 93 \/ b = 125 end.

Lemma delimited_no_digit r : delimited r -> no_digit r.
Proof. destruct r as [|b r]; [done|]. by intros [->|[->| ->]]. Qed.

Lemma scan_exponent_app e x r : exponent_part e x -> delimited r -> scan_exponent (e ++ r) = Some (e, r).
Proof.
  intros He Hr. destruct He as [[-> _]|(c & sg & ed & -> & Hc & Hsg & Hd & Hne & _)].
  - destruct r as [|b r]; [done|]. cbn. by destruct Hr as [->|[->| ->]].
  - cbn [app scan_exponent]. replace (_ || _) with true by (by destruct Hc as [->| ->]). rewrite <-app_assoc.
    assert (scan_exp_sign (sg ++ ed ++ r) = (sg, ed ++ r)) as ->.
    { destruct Hsg as [->|[->| ->]]; [|done..]. destruct ed as [|b ed]; [done|]. cbn. inversion Hd as [|?? Hb]; subst.
      apply is_digit_true in Hb. by replace (_ || _) with false by (symmetry; apply orb_false_iff; lia). }
    by rewrite digits1_app by (done || by apply delimited_no_digit).
Qed.

Lemma exponent_no_digit e x r : exponent_part e x -> delimited r -> no_digit (e ++ r).
Proof.
  intros [[-> _]|(c & sg & ed & -> & Hc & _)] Hr; [by apply delimited_no_digit|]. by destruct Hc as [->| ->].
Qed.

Lemma scan_fraction_app f fd e x r :
  fraction_part f fd -> exponent_part e x -> delimited r -> scan_fraction (f ++ e ++ r) = Some (f, e ++ r).
Proof.
  intros [[-> ->]|(-> & Hd & Hne)] He Hr.
  - destruct He as [[-> _]|(c & sg & ed & -> & Hc & _)]; cbn [app].
    + destruct r as [|b r]; [done|]. cbn. by destruct Hr as [->|[->| ->]].
    + cbn. by destruct Hc as [->| ->].
  - cbn [app scan_fraction]. rewrite Z.eqb_refl, digits1_app; [done..|]. by apply (exponent_no_digit e x).
Qed.

Lemma scan_parts n s i f fd e x r : parts n s i f fd e x -> delimited r -> scan_number (n ++ r) = Some (n, r).
Proof.
  intros [-> Hs Hi Hf He] Hr. unfold scan_number. rewrite <-!app_assoc.
  assert (scan_sign (s ++ i ++ f ++ e ++ r) = (s, i ++ f ++ e ++ r)) as ->.
  { destruct Hs as [->| ->]; [|done]. destruct (int_part_digits _ Hi) as [Hd Hne]. destruct i as [|b i]; [done|].
    cbn. inversion Hd as [|?? Hb]; subst. apply is_digit_true in Hb. by rewrite (proj2 (Z.eqb_neq b 45)) by lia. }
  assert (scan_int (i ++ f ++ e ++ r) = Some (i, f ++ e ++ r)) as ->.
  { destruct Hi as [->|(d & i' & -> & Hd & Hds)]; [done|]. cbn [app scan_int]. rewrite (proj2 (Z.eqb_neq d 48)) by done.
    change (d :: i' ++ f ++ e ++ r) with ((d :: i') ++ f ++ e ++ r). apply digits1_app; [done..|].
    destruct Hf as [[-> _]|(-> & _)]; [|done]. by apply (exponent_no_digit e x). }
  cbn. rewrite (scan_fraction_app f fd e x) by done. cbn. by rewrite (scan_exponent_app e x).
Qed.

Lemma literal_parts n : number_literal n <-> exists s i f fd e x, parts n s i f fd e x.
Proof.
  split.
  - intros H. by apply scan_number_parts in H as [_ H].
  - intros (s & i & f & fd & e & x & H). unfold number_literal. rewrite <-(app_nil_r n) at 1. by eapply scan_parts.
Qed.

(** ** The canonical spelling of the parts *)
Lemma split_none p l : Forall (fun b => p b = false) l -> split_at_first p l = None.
Proof. induction 1 as [|b l Hb _ IH]; cbn; [done|]. by rewrite Hb, IH. Qed.

Lemma split_some p l b r : Forall (fun b => p b = false) l -> p b = true -> split_at_first p (l ++ b :: r) = Some (l, r).
Proof. intros Hl Hb. induction Hl as [|a l Ha _ IH]; cbn; [by rewrite Hb|]. by rewrite Ha, IH. Qed.

Definition is_e (b : Z) : bool := (b =? 101) || (b =? 69).

Lemma digits_no_e l : digits l -> Forall (fun b => is_e b = false) l.
Proof. intros H. eapply Forall_impl; [exact H|]. intros b Hb%is_digit_true. apply orb_false_iff. lia. Qed.
Lemma digits_no_point l : digits l -> Forall (fun b => Z.eqb 46 b = false) l.
Proof. intros H. eapply Forall_impl; [exact H|]. intros b Hb%is_digit_true. lia. Qed.

Definition sign_value (s : list Z) : Z := match s with [] => 1 | _ => -1 end.

(** The normalization of [sign * digits * 10^power]. *)
Definition spell (sign ds : list Z) (power : Z) : list Z :=
  let significant := trim_left_zeros ds in
  match significant with
  | [] => [48]
  | _ =>
      let trailingZeros := Z.of_nat (length significant) - Z.of_nat (length (trim_right_zeros significant)) in
      let significant := trim_right_zeros significant in
      let mantissa := match significant with d :: ((_ :: _) as more) => d :: 46 :: more | _ => significant end in
      sign ++ mantissa ++ [101] ++ print_int (power + trailingZeros + (Z.of_nat (length significant) - 1))
  end.

Lemma sign_split s i f e :
  s = [] \/ s = [45] -> int_part i -> scan_sign (s ++ i ++ f ++ e) = (s, i ++ f ++ e).
Proof.
  intros [->| ->] Hi; [|done]. destruct (int_part_digits _ Hi) as [Hd Hne]. destruct i as [|b i]; [done|].
  cbn. inversion Hd as [|?? Hb]; subst. apply is_digit_true in Hb. by rewrite (proj2 (Z.eqb_neq b 45)) by lia.
Qed.

Lemma parts_spell n s i f fd e x : parts n s i f fd e x ->
  canonical_number n = spell s (i ++ fd) (x - Z.of_nat (length fd)) /\
  number_value n = (sign_value s * digits_value (i ++ fd), x - Z.of_nat (length fd)).
Proof.
  intros [-> Hs Hi Hf He]. unfold canonical_number, number_value. rewrite sign_split by done.
  destruct (int_part_digits _ Hi) as [Hd _].
  assert (Forall (fun b => is_e b = false) (i ++ f)) as Hno.
  { apply Forall_app. split; [by apply digits_no_e|].
    destruct Hf as [[-> _]|(-> & Hfd & _)]; constructor; [done|by apply digits_no_e]. }
  assert (match split_at_first (Z.eqb 46) (i ++ f) with
          | Some (before, after) => (before ++ after, Z.of_nat (length after))
          | None => (i ++ f, 0)
          end = (i ++ fd, Z.of_nat (length fd))) as Hfrac.
  { destruct Hf as [[-> ->]|(-> & Hfd & _)].
    - rewrite app_nil_r, split_none by (by apply digits_no_point). done.
    - by rewrite split_some by (done || by apply digits_no_point). }
  rewrite app_assoc. fold is_e. change (fun b => (b =? 101) || (b =? 69)) with is_e.
  destruct He as [[-> ->]|(c & sg & ed & -> & Hc & _ & _ & _ & Hx)].
  - rewrite app_nil_r, split_none by done. rewrite Hfrac. split; [|by destruct s].
    unfold spell. destruct (trim_left_zeros _); [done|]. by do 3 f_equal.
  - rewrite split_some by (done || by destruct Hc as [->| ->]). rewrite Hx, Hfrac. cbn [default]. split; [|by destruct s].
    unfold spell. by destruct (trim_left_zeros _).
Qed.

Lemma parts_digits n s i f fd e x : parts n s i f fd e x -> digits (i ++ fd).
Proof.
  intros [_ _ Hi Hf _]. destruct (int_part_digits _ Hi) as [Hd _]. apply Forall_app. split; [done|].
  destruct Hf as [[_ ->]|(_ & Hfd & _)]; [constructor|done].
Qed.

(** The spelling of a normal mantissa has the mantissa as its digits. *)
Definition spelled (s sig : list Z) (power : Z) : list Z :=
  let mantissa := match sig with d :: ((_ :: _) as more) => d :: 46 :: more | _ => sig end in
  s ++ mantissa ++ [101] ++ print_int (power + (Z.of_nat (length sig) - 1)).

Lemma spelled_parts s sig power : s = [] \/ s = [45] -> normal_digits sig ->
  exists i f fd e, parts (spelled s sig power) s i f fd e (power + (Z.of_nat (length sig) - 1)) /\ i ++ fd = sig /\ length i = 1%nat.
Proof.
  intros Hs (Hd & (d & more & -> & Hne) & _).
  destruct (print_int_spec (power + (Z.of_nat (length (d :: more)) - 1))) as (sg & ds & Hp & Hsg & Hds & Hnil).
  assert (exponent_part (101 :: print_int (power + (Z.of_nat (length (d :: more)) - 1)))
    (power + (Z.of_nat (length (d :: more)) - 1))) as He.
  { right. exists 101, sg, ds. rewrite Hp. split_and!; try done; [by left|naive_solver|]. rewrite <-Hp.
    assert (trim_plus (print_int (power + (Z.of_nat (length (d :: more)) - 1))) = print_int (power + (Z.of_nat (length (d :: more)) - 1)))
      as ->; [|apply parse_print].
    rewrite Hp. destruct Hsg as [->| ->]; [|done]. by apply digits_no_plus. }
  assert (int_part [d]) as Hi. { right. exists d, []. split_and!; [done..|]. inversion Hd; subst. by constructor. }
  unfold spelled. destruct more as [|b more].
  - exists [d], [], [], (101 :: print_int (power + (Z.of_nat (length [d]) - 1))). split; [|done].
    split; [done|done|done|by left|done].
  - exists [d], (46 :: b :: more), (b :: more), (101 :: print_int (power + (Z.of_nat (length (d :: b :: more)) - 1))).
    split; [|done]. split; [done|done|done| |done]. right. split_and!; [done| |done]. by inversion Hd.
Qed.

Lemma literal_spelled n : number_literal n ->
  (canonical_number n = [48] /\ fst (number_value n) = 0) \/
  exists s sig power, (s = [] \/ s = [45]) /\ normal_digits sig /\ canonical_number n = spelled s sig power /\
    same_number (number_value n) (sign_value s * digits_value sig, power).
Proof.
  intros (s & i & f & fd & e & x & Hp)%literal_parts. destruct (parts_spell _ _ _ _ _ _ _ Hp) as [-> ->].
  pose proof (parts_digits _ _ _ _ _ _ _ Hp) as Hd. unfold spell.
  destruct (significant_spec _ Hd) as [[-> ->]|(Hne & Hn & Hv & Hlen)]; [left; split; [done|cbn; lia]|right].
  exists s, (trim_right_zeros (trim_left_zeros (i ++ fd))), (x - Z.of_nat (length fd) +
    (Z.of_nat (length (trim_left_zeros (i ++ fd))) - Z.of_nat (length (trim_right_zeros (trim_left_zeros (i ++ fd)))))).
  split_and!; [apply Hp|done| |].
  - unfold spelled. destruct (trim_left_zeros (i ++ fd)) eqn:E; [done|]. done.
  - unfold same_number. cbn [fst snd]. rewrite Hv. set (a := Z.of_nat (length (trim_left_zeros _))) in *.
    set (c := Z.of_nat (length (trim_right_zeros _))) in *. set (p := x - _).
    rewrite Z.min_l by lia. rewrite Z.sub_diag. replace (p + (a - c) - p) with (a - c) by lia. lia.
Qed.

(** ** Equality of numbers *)
Lemma same_number_at x y k : k <= snd x -> k <= snd y ->
  (same_number x y <-> fst x * 10 ^ (snd x - k) = fst y * 10 ^ (snd y - k)).
Proof.
  intros Hx Hy. unfold same_number. set (p := Z.min _ _).
  replace (snd x - k) with ((snd x - p) + (p - k)) by lia. replace (snd y - k) with ((snd y - p) + (p - k)) by lia.
  rewrite !Z.pow_add_r, !Z.mul_assoc by lia. pose proof (Z.pow_pos_nonneg 10 (p - k)). split; [by intros ->|].
  intros H'. apply Z.mul_reg_r in H'; [done|lia].
Qed.

#[export] Instance same_number_refl : Reflexive same_number.
Proof. by intros x. Qed.
#[export] Instance same_number_sym : Symmetric same_number.
Proof. intros x y. unfold same_number. rewrite (Z.min_comm (snd y)). done. Qed.
#[export] Instance same_number_trans : Transitive same_number.
Proof.
  intros x y z. set (k := Z.min (Z.min (snd x) (snd y)) (snd z)).
  rewrite !(same_number_at _ _ k) by lia. congruence.
Qed.

Lemma spelled_value s sig power : s = [] \/ s = [45] -> normal_digits sig ->
  number_literal (spelled s sig power) /\ number_value (spelled s sig power) = (sign_value s * digits_value sig, power).
Proof.
  intros Hs Hn. destruct (spelled_parts s sig power Hs Hn) as (i & f & fd & e & Hp & Hsig & Hi).
  split; [by apply literal_parts; eauto 10|]. destruct (parts_spell _ _ _ _ _ _ _ Hp) as [_ ->].
  rewrite <-Hsig. f_equal. rewrite length_app, Hi. lia.
Qed.

Lemma canonical_value n : number_literal n ->
  number_literal (canonical_number n) /\ same_number (number_value (canonical_number n)) (number_value n).
Proof.
  intros Hn. destruct (literal_spelled n Hn) as [[-> Hz]|(s & sig & power & Hs & Hsig & -> & Hv)].
  - split; [done|]. unfold same_number. rewrite Hz. done.
  - destruct (spelled_value s sig power Hs Hsig) as [Hl ->]. split; [done|]. by symmetry.
Qed.

(** A nonzero number has one normal mantissa and one power. *)
Lemma normal_unique a b p q :
  a mod 10 <> 0 -> b mod 10 <> 0 -> same_number (a, p) (b, q) -> a = b /\ p = q.
Proof.
  assert (forall a b p q, a mod 10 <> 0 -> same_number (a, p) (b, q) -> q <= p) as Hle.
  { clear. intros a b p q Ha H. destruct (decide (q <= p)); [done|exfalso]. apply Ha.
    unfold same_number in H. cbn in H. rewrite Z.min_l, Z.sub_diag, Z.mul_1_r in H by lia. rewrite H.
    replace (q - p) with (1 + (q - p - 1)) by lia. rewrite Z.pow_add_r, Z.pow_1_r by lia.
    rewrite (Z.mul_comm 10), Z.mul_assoc. apply Z.mod_mul. lia. }
  intros Ha Hb H. assert (p = q) as -> by (apply Z.le_antisymm; [apply (Hle b a q p); [done|by symmetry]|by apply (Hle a b p q)]).
  unfold same_number in H. cbn in H. rewrite Z.min_id, Z.sub_diag in H. lia.
Qed.

Lemma sign_mod s m : m mod 10 <> 0 -> (sign_value s * m) mod 10 <> 0.
Proof.
  intros H. destruct s; cbn [sign_value]; [by rewrite Z.mul_1_l|]. intros Hz. apply H.
  apply Z.mod_divide in Hz; [|lia]. apply Z.mod_divide; [lia|]. destruct Hz as [k Hk]. exists (- k). lia.
Qed.

Lemma spelled_unique s1 sig1 p1 s2 sig2 p2 :
  s1 = [] \/ s1 = [45] -> s2 = [] \/ s2 = [45] -> normal_digits sig1 -> normal_digits sig2 ->
  same_number (sign_value s1 * digits_value sig1, p1) (sign_value s2 * digits_value sig2, p2) ->
  spelled s1 sig1 p1 = spelled s2 sig2 p2.
Proof.
  intros Hs1 Hs2 N1 N2 H. destruct (normal_mod _ N1) as [P1 M1], (normal_mod _ N2) as [P2 M2].
  apply normal_unique in H as [Hm ->]; [|by apply sign_mod..].
  assert (s1 = s2) as -> by (destruct Hs1 as [->| ->], Hs2 as [->| ->]; cbn in Hm; done || lia).
  assert (digits_value sig1 = digits_value sig2) as Hv by (destruct s2; cbn in Hm; lia).
  by rewrite (normal_inj sig1 sig2).
Qed.

(** Equal spellings are equal numbers. *)
Lemma canonical_spelling n1 n2 :
  number_literal n1 -> number_literal n2 ->
  (canonical_number n1 = canonical_number n2 <-> same_number (number_value n1) (number_value n2)).
Proof.
  intros H1 H2. split.
  - intros Heq. destruct (canonical_value n1 H1) as [_ V1], (canonical_value n2 H2) as [_ V2].
    rewrite Heq in V1. etrans; [by symmetry|done].
  - intros Hv. destruct (literal_spelled n1 H1) as [[-> Z1]|(s1 & sig1 & p1 & S1 & N1 & -> & V1)],
      (literal_spelled n2 H2) as [[-> Z2]|(s2 & sig2 & p2 & S2 & N2 & -> & V2)]; [done|..].
    + destruct (normal_mod _ N2) as [P2 _]. exfalso. assert (same_number (number_value n1) (sign_value s2 * digits_value sig2, p2))
        as Hx by (by etrans). unfold same_number in Hx. rewrite Z1 in Hx. cbn in Hx.
      pose proof (Z.pow_pos_nonneg 10 (p2 - Z.min (snd (number_value n1)) p2)). destruct S2 as [->| ->]; cbn in Hx; nia.
    + destruct (normal_mod _ N1) as [P1 _]. exfalso. assert (same_number (number_value n2) (sign_value s1 * digits_value sig1, p1))
        as Hx by (etrans; [by symmetry|done]). unfold same_number in Hx. rewrite Z2 in Hx. cbn in Hx.
      pose proof (Z.pow_pos_nonneg 10 (p1 - Z.min (snd (number_value n2)) p1)). destruct S1 as [->| ->]; cbn in Hx; nia.
    + apply spelled_unique; [done..|]. etrans; [by symmetry|]. etrans; [exact Hv|exact V2].
Qed.

(** Two JSON number literals have the same canonical spelling exactly when they
    denote the same decimal number, however large their exponents are; no
    rounding takes place. *)
Theorem canonical_number_exact n1 n2 :
  number_literal n1 -> number_literal n2 ->
  (canonical_number n1 = canonical_number n2 <-> same_number (number_value n1) (number_value n2)).
Proof. apply canonical_spelling. Qed.

(** Canonical spellings are literals that spell themselves. *)
Lemma canonical_number_idempotent n : number_literal n -> canonical_number (canonical_number n) = canonical_number n.
Proof.
  intros H. destruct (canonical_value n H) as [Hl Hv].
  destruct (literal_spelled n H) as [[-> _]|(s & sig & p & Hs & Hn & -> & _)]; [done|].
  destruct (spelled_value s sig p Hs Hn) as [Hl' Hv'].
  destruct (literal_spelled _ Hl') as [[_ Hz]|(s' & sig' & p' & Hs' & Hn' & -> & V')].
  - rewrite Hv' in Hz. cbn in Hz. destruct (normal_mod _ Hn) as [Hpos _]. destruct Hs as [->| ->]; cbn in Hz; lia.
  - apply spelled_unique; [done..|]. rewrite Hv' in V'. by symmetry.
Qed.

(** The bytes of a literal. *)
Definition number_byte (b : Z) : Prop := 43 <= b <= 57 \/ b = 69 \/ b = 101.

Lemma digits_bytes l : digits l -> Forall number_byte l.
Proof. intros H. eapply Forall_impl; [exact H|]. intros b Hb%is_digit_true. left. lia. Qed.

Lemma literal_bytes n : number_literal n -> Forall number_byte n.
Proof.
  intros (s & i & f & fd & e & x & [-> Hs Hi Hf He])%literal_parts. destruct (int_part_digits _ Hi) as [Hd _].
  assert (Forall number_byte [45]) by (constructor; [left; lia|constructor]).
  rewrite !Forall_app. split_and!.
  - destruct Hs as [->| ->]; [constructor|done].
  - by apply digits_bytes.
  - destruct Hf as [[-> _]|(-> & Hfd & _)]; constructor; [left; lia|by apply digits_bytes].
  - destruct He as [[-> _]|(c & sg & ed & -> & Hc & Hsg & Hed & _)]; constructor.
    + unfold number_byte. lia.
    + apply Forall_app. split; [|by apply digits_bytes]. destruct Hsg as [->|[->| ->]]; [constructor| |done].
      constructor; [left; lia|constructor].
Qed.

Lemma canonical_number_bytes n : number_literal (bytes_of n) -> bytes_of (canonicalJSONNumber n) = canonical_number (bytes_of n).
Proof.
  intros H. unfold canonicalJSONNumber. apply bytes_of_string_of. destruct (canonical_value _ H) as [Hl _].
  eapply Forall_impl; [apply (literal_bytes _ Hl)|]. unfold number_byte. intros b Hb. lia.
Qed.

Lemma canonical_number_exact_witness :
  canonical_number (bytes_of "-0.0120e+4") = canonical_number (bytes_of "-12E1") /\
  canonical_number (bytes_of "1e1000000000000") <> canonical_number (bytes_of "1e1000000000001").
Proof.
  split.
  - apply (canonical_number_exact (bytes_of "-0.0120e+4") (bytes_of "-12E1")); vm_compute; reflexivity.
  - intros H. apply (canonical_number_exact (bytes_of "1e1000000000000") (bytes_of "1e1000000000001")) in H;
      [vm_compute in H; discriminate H|vm_compute; reflexivity..].
Defined.
