(* ===== verification/CanonicalTheorems.v ===== *)
(** * Correctness of the canonical JSON

    Decoding always ends; what is printed decodes to the value it was printed
    from, so canonicalization is idempotent and two requests have the same
    canonical text exactly when they are the same request. *)
From Stdlib Require Import Ascii String.
From S2P Require Import Prelude GoStrings Sha256 Identity JsonText Canonical JsonLemmas.
From S2P Require Import CanonicalNumbers.

(** ** Termination *)

(** A run that ends with a shorter text, or with an error of its own. *)
Definition decoded (l : list Z) (r : result (json * Decoder)) : Prop :=
  match r with
  | Ok (_, d') => (length (dec_rest d') < length l)%nat
  | Err e => e <> ErrFuel
  end.

Lemma Token_bind_decoded d (k : Token -> stx Decoder json) :
  (forall t d', (length (dec_rest d') < length (dec_rest d))%nat -> decoded (dec_rest d) (k t d')) ->
  decoded (dec_rest d) ((token ← Decoder_Token; k token) d).
Proof.
  intros Hk. unfold mbind, stx_bind. destruct (Decoder_Token d) as [[t d']|e] eqn:E.
  - apply Hk. by eapply Token_shorter.
  - by destruct (Token_error _ _ E) as [->| ->].
Qed.

Lemma decoded_le l l' r : (length l <= length l')%nat -> decoded l r -> decoded l' r.
Proof. intros Hl. destruct r as [[v d]|e]; cbn; [lia|done]. Qed.

Lemma decode_fuel fuel :
  (forall d, (2 * length (dec_rest d) + 1 <= fuel)%nat -> decoded (dec_rest d) (decodeCanonicalValue fuel d)) /\
  (forall d object, (2 * length (dec_rest d) + 2 <= fuel)%nat -> decoded (dec_rest d) (decodeMembers fuel object d)) /\
  (forall d array, (2 * length (dec_rest d) + 2 <= fuel)%nat -> decoded (dec_rest d) (decodeItems fuel array d)).
Proof.
  induction fuel as [|fuel (IHv & IHm & IHi)]; [split_and!; intros; lia|]. split_and!.
  - intros d Hd. cbn [decodeCanonicalValue]. apply Token_bind_decoded. intros t d' Hlt. destruct t as [delim|v].
    + destruct (delim =? 123); [apply (decoded_le (dec_rest d')); [lia|]; apply IHm; lia|].
      destruct (delim =? 91); [apply (decoded_le (dec_rest d')); [lia|]; apply IHi; lia|]. done.
    + cbn. done.
  - intros d object Hd. cbn [decodeMembers]. rewrite query_bind. destruct (Decoder_More d); apply Token_bind_decoded;
      intros t d' Hlt.
    + destruct t as [delim|[| |key| | |]]; try done. unfold fail_if. destruct (existsb _ _); [done|].
      rewrite ret_bind. unfold mbind, stx_bind at 1.
      pose proof (IHv d' ltac:(lia)) as Hv. destruct (decodeCanonicalValue fuel d') as [[v d2]|e]; cbn in Hv; [|done].
      apply (decoded_le (dec_rest d2)); [lia|]. apply IHm. lia.
    + destruct t as [delim|v]; [|done]. unfold fail_if. destruct (negb _); [done|]. cbn. done.
  - intros d array Hd. cbn [decodeItems]. rewrite query_bind. destruct (Decoder_More d).
    + unfold mbind, stx_bind at 1.
      pose proof (IHv d ltac:(lia)) as Hv. destruct (decodeCanonicalValue fuel d) as [[v d2]|e]; cbn in Hv; [|done].
      apply (decoded_le (dec_rest d2)); [lia|]. apply IHi. lia.
    + apply Token_bind_decoded. intros t d' Hlt. destruct t as [delim|v]; [|done]. unfold fail_if.
      destruct (negb _); [done|]. cbn. done.
Qed.

(** C34: Decoding a request always ends: the bound on the number of rounds is never
    reached, whatever the bytes are. *)
Theorem decode_terminates raw : decodeCanonicalJSON raw <> Err ErrFuel.
Proof.
  unfold decodeCanonicalJSON. destruct (_ || _); [done|].
  pose proof (proj1 (decode_fuel (decode_bound raw)) (mkDecoder tokenTopValue [] raw) ltac:(cbn; lia)) as H.
  destruct (decodeCanonicalValue _ _) as [[v d]|e]; cbn in H; [|congruence].
  destruct (Decoder_Token d) as [[t d']|e] eqn:E; [done|]. case_bool_decide; [done|].
  by destruct (Token_error _ _ E) as [->| ->].
Qed.

(** ** More fuel changes nothing *)

(** [m'] agrees with [m] wherever [m] does not run out of fuel. *)
Definition extends {A} (m m' : stx Decoder A) : Prop := forall d, m d <> Err ErrFuel -> m' d = m d.

Lemma extends_refl {A} (m : stx Decoder A) : extends m m.
Proof. by intros d. Qed.

Lemma extends_bind {A B} (m m' : stx Decoder A) (k k' : A -> stx Decoder B) :
  extends m m' -> (forall a, extends (k a) (k' a)) -> extends (mbind k m) (mbind k' m').
Proof.
  intros Hm Hk d. unfold mbind, stx_bind. intros H. rewrite (Hm d) by (intros E; by rewrite E in H).
  destruct (m d) as [[a d']|e]; [by apply Hk|done].
Qed.

Lemma decode_mono fuel :
  extends (decodeCanonicalValue fuel) (decodeCanonicalValue (S fuel)) /\
  (forall object, extends (decodeMembers fuel object) (decodeMembers (S fuel) object)) /\
  (forall array, extends (decodeItems fuel array) (decodeItems (S fuel) array)).
Proof.
  induction fuel as [|fuel (IHv & IHm & IHi)]; [split_and!; [|intros object|intros array]; intros d H; by destruct H|].
  split_and!; [|intros object|intros array].
  - apply extends_bind; [apply extends_refl|]. intros [delim|v]; [|apply extends_refl].
    destruct (delim =? 123); [apply IHm|]. destruct (delim =? 91); [apply IHi|apply extends_refl].
  - apply extends_bind; [apply extends_refl|]. intros [|]; apply extends_bind; try apply extends_refl; intros t;
      [|apply extends_refl]. destruct t as [delim|[| |key| | |]]; try apply extends_refl.
    apply extends_bind; [apply extends_refl|]. intros _. apply extends_bind; [done|]. intros v. apply IHm.
  - apply extends_bind; [apply extends_refl|]. intros [|]; [|apply extends_refl].
    apply extends_bind; [done|]. intros v. apply IHi.
Qed.

Lemma decode_more fuel fuel' d : (fuel <= fuel')%nat -> decodeCanonicalValue fuel d <> Err ErrFuel ->
  decodeCanonicalValue fuel' d = decodeCanonicalValue fuel d.
Proof.
  induction 1 as [|fuel' _ IH]; [done|]. intros H. rewrite <-(IH H). apply decode_mono. by rewrite IH.
Qed.

(** ** Values *)
Lemma json_induction (P : json -> Prop) :
  P JNull -> (forall b, P (JBool b)) -> (forall s, P (JString s)) -> (forall n, P (JNumber n)) ->
  (forall items, Forall P items -> P (JArray items)) ->
  (forall fields, Forall (fun f => P (snd f)) fields -> P (JObject fields)) -> forall v, P v.
Proof.
  intros Hn Hb Hs Hnum Ha Ho. fix IH 1. intros [|b|s|n|items|fields]; [done|apply Hb|apply Hs|apply Hnum| |].
  - apply Ha. induction items as [|v items IHl]; constructor; [apply IH|exact IHl].
  - apply Ho. induction fields as [|[k v] fields IHl]; constructor; [apply IH|exact IHl].
Qed.

(** What decoding yields: UTF-8 strings, literals of the grammar, distinct keys. *)
Inductive json_wf : json -> Prop :=
  | wf_null : json_wf JNull
  | wf_bool b : json_wf (JBool b)
  | wf_string s : utf8_valid s = true -> json_wf (JString s)
  | wf_number n : number_literal (bytes_of n) -> json_wf (JNumber n)
  | wf_array items : Forall json_wf items -> json_wf (JArray items)
  | wf_object fields : Forall (fun f => utf8_valid (fst f) = true /\ json_wf (snd f)) fields -> NoDup fields.*1 ->
      json_wf (JObject fields).

(** The value a canonical text stands for: sorted fields, canonical numbers. *)
Fixpoint normalize (v : json) : json :=
  match v with
  | JNumber n => JNumber (canonicalJSONNumber n)
  | JArray items => JArray (List.map normalize items)
  | JObject fields => JObject (merge_sort field_le (List.map (fun '(key, x) => (key, normalize x)) fields))
  | _ => v
  end.

(** *** Sorting fields *)
#[export] Instance field_le_total {A} : Total (@field_le A).
Proof. intros x y. apply string_le_total. Qed.
#[export] Instance field_le_trans {A} : Transitive (@field_le A).
Proof. intros x y z. apply string_le_trans. Qed.

Lemma keys_inj {A} (l : list (string * A)) x y : NoDup l.*1 -> x ∈ l -> y ∈ l -> fst x = fst y -> x = y.
Proof.
  intros Hnd [i Hi]%list_elem_of_lookup [j Hj]%list_elem_of_lookup Heq.
  assert (i = j) as ->; [|congruence].
  eapply NoDup_lookup; [exact Hnd| |]; rewrite list_lookup_fmap; [by rewrite Hi|]. rewrite Hj. cbn. by rewrite Heq.
Qed.

Lemma sorted_unique {A} (l1 l2 : list (string * A)) :
  NoDup l1.*1 -> l1 ≡ₚ l2 -> StronglySorted field_le l1 -> StronglySorted field_le l2 -> l1 = l2.
Proof.
  intros Hnd Hp H1 H2. apply (StronglySorted_unique_strong field_le); try done.
  intros x y Hx Hy Hxy Hyx. apply (keys_inj l1); [done|done|by rewrite Hp|]. by apply (anti_symm string_le).
Qed.

Lemma sorted_map {A B} (g : A -> B) (l : list (string * A)) :
  StronglySorted field_le l -> StronglySorted field_le (List.map (fun '(key, x) => (key, g x)) l).
Proof.
  induction 1 as [|[k x] l _ IH Hf]; cbn; constructor; [done|]. apply Forall_forall. intros [k' y] Hin.
  apply list_elem_of_In, in_map_iff in Hin as ([k2 x2] & [= <- <-] & Hin%list_elem_of_In).
  rewrite Forall_forall in Hf. apply (Hf _ Hin).
Qed.

Lemma map_keys {A B} (g : A -> B) (l : list (string * A)) : (List.map (fun '(key, x) => (key, g x)) l).*1 = l.*1.
Proof. induction l as [|[k x] l IH]; cbn; [done|]. by rewrite IH. Qed.

Lemma sort_map {A B} (g : A -> B) (l : list (string * A)) : NoDup l.*1 ->
  merge_sort field_le (List.map (fun '(key, x) => (key, g x)) l) = List.map (fun '(key, x) => (key, g x)) (merge_sort field_le l).
Proof.
  intros Hnd. apply sorted_unique.
  - rewrite merge_sort_Permutation, map_keys. done.
  - rewrite merge_sort_Permutation. apply Permutation_map. symmetry. apply merge_sort_Permutation.
  - apply StronglySorted_merge_sort; apply _.
  - apply sorted_map, StronglySorted_merge_sort; apply _.
Qed.

Lemma sort_sorted {A} (l : list (string * A)) : NoDup l.*1 -> merge_sort field_le (merge_sort field_le l) = merge_sort field_le l.
Proof.
  intros Hnd. apply sorted_unique.
  - by rewrite !merge_sort_Permutation.
  - apply merge_sort_Permutation.
  - apply StronglySorted_merge_sort; apply _.
  - apply StronglySorted_merge_sort; apply _.
Qed.

(** A canonical text depends on the normal form only. *)
Lemma print_normalize v : json_wf v -> appendCanonicalValue (normalize v) = appendCanonicalValue v.
Proof.
  induction v as [|b|s|n|items IH|fields IH] using json_induction; try done.
  - inversion 1; subst. cbn [normalize appendCanonicalValue]. rewrite !canonical_number_bytes; [|done|].
    + by apply canonical_number_idempotent.
    + rewrite canonical_number_bytes by done. by apply canonical_value.
  - inversion 1 as [| | | |? Hi|]; subst. cbn [normalize appendCanonicalValue]. rewrite map_map. do 3 f_equal.
    apply map_ext_in. intros v Hin%list_elem_of_In. rewrite Forall_forall in IH, Hi. by apply IH, Hi.
  - inversion 1 as [| | | | |? Hf Hnd]; subst. cbn [normalize appendCanonicalValue]. do 4 f_equal.
    rewrite (sort_map normalize), (sort_map appendCanonicalValue fields) by done.
    rewrite (sort_map appendCanonicalValue) by (rewrite map_keys; by rewrite merge_sort_Permutation).
    rewrite (sort_map normalize), sort_sorted by (done || by rewrite merge_sort_Permutation). rewrite map_map.
    apply map_ext_in. intros [k v] Hin%list_elem_of_In. rewrite merge_sort_Permutation in Hin. f_equal.
    rewrite Forall_forall in IH, Hf. apply (IH _ Hin). apply (Hf _ Hin).
Qed.

(** ** Reading a canonical text *)

(** The states in which a value is read, with the separator before it. *)
Inductive entry : tokenState -> list Z -> tokenState -> Prop :=
  | entry_top : entry tokenTopValue [] tokenTopValue
  | entry_first : entry tokenArrayStart [] tokenArrayStart
  | entry_item : entry tokenArrayComma [44] tokenArrayValue
  | entry_member : entry tokenObjectColon [58] tokenObjectValue.

(** A byte that starts a value. *)
Definition starts_value (b : Z) : Prop :=
  is_json_space b = false /\ b <> 58 /\ b <> 44 /\ b <> 93 /\ b <> 125.

Lemma skip_start b l : is_json_space b = false -> skip_space (b :: l) = b :: l.
Proof. intros H. cbn. by rewrite H. Qed.

Lemma token_loop_start n d b l :
  dec_rest d = b :: l -> is_json_space b = false -> b <> 58 -> b <> 44 -> token_loop n d = token_value d b l.
Proof.
  intros Hd Hs H1 H2. destruct n; cbn [token_loop]; rewrite Hd, skip_start by done;
    by rewrite (proj2 (Z.eqb_neq _ _) H1), (proj2 (Z.eqb_neq _ _) H2).
Qed.

Lemma Token_entry st pre st' stack b l :
  entry st pre st' -> starts_value b ->
  Decoder_Token (mkDecoder st stack (pre ++ b :: l)) = token_value (mkDecoder st' stack (b :: l)) b l.
Proof.
  intros He (Hs & H1 & H2 & _). unfold Decoder_Token. destruct He; cbn [app].
  - by apply token_loop_start.
  - by apply token_loop_start.
  - change (token_loop 0 (mkDecoder tokenArrayValue stack (b :: l)) = token_value (mkDecoder tokenArrayValue stack (b :: l)) b l).
    by apply token_loop_start.
  - change (token_loop 0 (mkDecoder tokenObjectValue stack (b :: l)) = token_value (mkDecoder tokenObjectValue stack (b :: l)) b l).
    by apply token_loop_start.
Qed.

Lemma entry_allowed st pre st' : entry st pre st' -> tokenValueAllowed st' = true.
Proof. by destruct 1. Qed.

Lemma entry_not_key st pre st' : entry st pre st' ->
  match st' with tokenObjectStart | tokenObjectKey => true | _ => false end = false.
Proof. by destruct 1. Qed.

(** A text that is read as one scalar. *)
Lemma Token_scalar st pre st' stack b l v r :
  entry st pre st' -> starts_value b -> b <> 91 -> b <> 123 -> scan_value b l = Some (v, r) ->
  Decoder_Token (mkDecoder st stack (pre ++ b :: l)) = Ok (TokenValue v, mkDecoder (tokenValueEnd st') stack r).
Proof.
  intros He Hb H1 H2 Hs. rewrite (Token_entry _ _ _ _ _ _ He Hb). destruct Hb as (_ & _ & _ & H3 & H4).
  unfold token_value. cbn [dec_tokenState dec_tokenStack].
  rewrite (proj2 (Z.eqb_neq _ _) H1), (proj2 (Z.eqb_neq _ _) H2), (proj2 (Z.eqb_neq _ _) H3), (proj2 (Z.eqb_neq _ _) H4).
  by rewrite (entry_not_key _ _ _ He), andb_false_r, (entry_allowed _ _ _ He), Hs.
Qed.

Lemma Token_open st pre st' stack delim start l :
  entry st pre st' -> (delim = 91 /\ start = tokenArrayStart) \/ (delim = 123 /\ start = tokenObjectStart) ->
  Decoder_Token (mkDecoder st stack (pre ++ delim :: l)) = Ok (TokenDelim delim, mkDecoder start (st' :: stack) l).
Proof.
  intros He Hd. rewrite (Token_entry _ _ _ _ _ _ He) by (destruct Hd as [[-> _]|[-> _]]; by split_and!).
  unfold token_value, open_delim. cbn [dec_tokenState dec_tokenStack].
  destruct Hd as [[-> ->]|[-> ->]]; cbn; by rewrite (entry_allowed _ _ _ He).
Qed.

(** The number at the head of a delimited text. *)
Lemma scan_literal_value n r : number_literal n -> delimited r ->
  exists b l, n ++ r = b :: l /\ starts_value b /\ b <> 91 /\ b <> 123 /\ scan_value b l = Some (JNumber (string_of n), r).
Proof.
  intros Hn Hr. pose proof (literal_bytes _ Hn) as Hb.
  pose proof Hn as (s & i & f & fd & e & x & Hp)%literal_parts. pose proof (scan_parts _ _ _ _ _ _ _ r Hp Hr) as Hs.
  destruct n as [|b n]; [done|]. exists b, (n ++ r). inversion Hb as [|?? Hb0 _]; subst.
  assert (45 <= b <= 57 /\ b <> 46) as Hb1.
  { destruct Hp as [Ht Hsg Hi _ _]. destruct (int_part_digits _ Hi) as [Hd Hne].
    destruct i as [|d i]; [done|]. inversion Hd as [|?? Hd0]; subst. apply is_digit_true in Hd0.
    destruct Hsg as [->| ->]; injection Ht as -> _; lia. }
  assert (b <> 44) by lia. split; [done|]. split; [|split; [lia|split; [lia|]]].
  - split_and!; try lia. unfold is_json_space. rewrite !orb_false_iff. lia.
  - unfold scan_value, quote. rewrite !(proj2 (Z.eqb_neq _ _)) by lia. cbn [app] in Hs. by rewrite Hs.
Qed.

(** *** Values, items and members

    Reading from a state, with enough fuel. *)
Definition reads (m : nat -> stx Decoder json) (d : Decoder) (v : json) (d' : Decoder) : Prop :=
  exists k, forall fuel, (k <= fuel)%nat -> m fuel d = Ok (v, d').

Definition reads_back (v : json) : Prop :=
  forall st pre st' stack r, entry st pre st' -> delimited r ->
    reads decodeCanonicalValue (mkDecoder st stack (pre ++ appendCanonicalValue v ++ r)) (normalize v)
      (mkDecoder (tokenValueEnd st') stack r).

Lemma reads_scalar v st pre st' stack r b l :
  entry st pre st' -> appendCanonicalValue v ++ r = b :: l -> starts_value b -> b <> 91 -> b <> 123 ->
  scan_value b l = Some (normalize v, r) ->
  reads decodeCanonicalValue (mkDecoder st stack (pre ++ appendCanonicalValue v ++ r)) (normalize v)
    (mkDecoder (tokenValueEnd st') stack r).
Proof.
  intros He Ht Hb H1 H2 Hs. exists 1%nat. intros [|fuel] Hf; [lia|]. cbn [decodeCanonicalValue]. rewrite Ht.
  by rewrite (stx_bind_run _ _ _ _ _ (Token_scalar _ _ _ stack _ _ _ _ He Hb H1 H2 Hs)).
Qed.

Lemma number_reads_back n : number_literal (bytes_of n) -> reads_back (JNumber n).
Proof.
  intros Hn st pre st' stack r He Hr. destruct (canonical_value _ Hn) as [Hc _].
  destruct (scan_literal_value _ r Hc Hr) as (b & l & Ht & Hb & H1 & H2 & Hs).
  eapply reads_scalar; try done. cbn [appendCanonicalValue]. by rewrite canonical_number_bytes.
Qed.

Lemma string_reads_back s : utf8_valid s = true -> reads_back (JString s).
Proof.
  intros Hs st pre st' stack r He Hr. apply (reads_scalar _ _ _ _ _ _ quote (escape_string (bytes_of s) ++ quote :: r));
    [done| |by split_and!|done|done|].
  - cbn [appendCanonicalValue]. unfold canonicalJSONString. by rewrite <-!app_assoc.
  - unfold scan_value. rewrite Z.eqb_refl, scan_canonical_string by done. cbn. by rewrite string_of_bytes_of.
Qed.

Lemma constant_reads_back v : v = JNull \/ (exists b, v = JBool b) -> reads_back v.
Proof.
  intros Hv st pre st' stack r He Hr. destruct Hv as [->|[[|] ->]];
    (eapply reads_scalar; [done|reflexivity|by split_and!|done|done|reflexivity]).
Qed.

(** The items after the first, each with its comma. *)
Definition rest_parts (ts : list (list Z)) : list Z := ts ≫= fun t => 44 :: t.

Lemma join_cons t ts : join_commas (t :: ts) = t ++ rest_parts ts.
Proof.
  revert t. induction ts as [|t' ts IH]; intros t; [cbn; by rewrite app_nil_r|].
  change (join_commas (t :: t' :: ts)) with (t ++ [44] ++ join_commas (t' :: ts)). by rewrite IH.
Qed.

Lemma rest_delimited ts b r : b = 93 \/ b = 125 -> delimited (rest_parts ts ++ b :: r).
Proof. intros Hb. destruct ts as [|t ts]; cbn; [lia|by left]. Qed.

Lemma Token_close_array st st' stack r :
  st = tokenArrayStart \/ st = tokenArrayComma ->
  Decoder_Token (mkDecoder st (st' :: stack) (93 :: r)) = Ok (TokenDelim 93, mkDecoder (tokenValueEnd st') stack r).
Proof. by intros [->| ->]. Qed.

Lemma reads_items_end st st' stack r array :
  st = tokenArrayStart \/ st = tokenArrayComma ->
  reads (fun fuel => decodeItems fuel array) (mkDecoder st (st' :: stack) (93 :: r)) (JArray array)
    (mkDecoder (tokenValueEnd st') stack r).
Proof.
  intros Hst. exists 1%nat. intros [|fuel] Hf; [lia|]. cbn [decodeItems]. rewrite query_bind.
  change (Decoder_More _) with false. cbn iota.
  by rewrite (stx_bind_run _ _ _ _ _ (Token_close_array _ _ _ _ Hst)).
Qed.

Lemma print_starts v : json_wf v -> exists b l, appendCanonicalValue v = b :: l /\ starts_value b.
Proof.
  destruct 1 as [|[|]|s Hs|n Hn|items Hi|fields Hf]; try (by do 2 eexists; split; [reflexivity|split_and!]).
  destruct (canonical_value _ Hn) as [Hc _]. destruct (scan_literal_value _ [] Hc) as (b & l & Ht & Hb & _); [done|].
  rewrite app_nil_r in Ht. exists b, l. cbn [appendCanonicalValue]. by rewrite canonical_number_bytes.
Qed.

Lemma More_start st stack b l : starts_value b -> Decoder_More (mkDecoder st stack (b :: l)) = true.
Proof.
  intros (Hs & _ & _ & H1 & H2). unfold Decoder_More. cbn [dec_rest]. rewrite skip_start by done.
  by rewrite (proj2 (Z.eqb_neq _ _) H1), (proj2 (Z.eqb_neq _ _) H2).
Qed.

Lemma reads_item v d (array : list json) d' w d'' :
  Decoder_More d = true -> reads decodeCanonicalValue d v d' ->
  reads (fun fuel => decodeItems fuel (array ++ [v])) d' w d'' -> reads (fun fuel => decodeItems fuel array) d w d''.
Proof.
  intros Hm [k1 H1] [k2 H2]. exists (S (k1 + k2)). intros [|fuel] Hf; [lia|]. cbn [decodeItems].
  rewrite query_bind, Hm. rewrite (stx_bind_run _ _ _ _ _ (H1 fuel ltac:(lia))). apply H2. lia.
Qed.

Lemma reads_rest_items items st' stack r array :
  Forall reads_back items ->
  reads (fun fuel => decodeItems fuel array)
    (mkDecoder tokenArrayComma (st' :: stack) (rest_parts (List.map appendCanonicalValue items) ++ 93 :: r))
    (JArray (array ++ List.map normalize items)) (mkDecoder (tokenValueEnd st') stack r).
Proof.
  intros Hi. revert array. induction Hi as [|v items Hv _ IH]; intros array; cbn [List.map].
  { rewrite app_nil_r. apply reads_items_end. by right. }
  cbn [rest_parts mbind list_bind]. fold (rest_parts (List.map appendCanonicalValue items)). rewrite <-app_assoc.
  eapply reads_item; [done| |].
  - apply (Hv _ _ _ _ _ entry_item). apply rest_delimited. by left.
  - specialize (IH (array ++ [normalize v])). by rewrite <-app_assoc in IH.
Qed.

Lemma array_reads_back items : json_wf (JArray items) -> Forall reads_back items -> reads_back (JArray items).
Proof.
  intros Hwf Hi st pre st' stack r He Hr.
  assert (reads (fun fuel => decodeItems fuel [])
    (mkDecoder tokenArrayStart (st' :: stack) (join_commas (List.map appendCanonicalValue items) ++ 93 :: r))
    (normalize (JArray items)) (mkDecoder (tokenValueEnd st') stack r)) as [k Hk].
  { destruct items as [|v items]; [by apply reads_items_end; left|]. inversion Hi as [|?? Hv Hitems]; subst.
    inversion Hwf as [| | | |? Hw|]; subst. inversion Hw as [|?? Hwv _]; subst.
    cbn [List.map]. rewrite join_cons, <-app_assoc. eapply reads_item.
    - destruct (print_starts v Hwv) as (b & l & -> & Hb). by apply More_start.
    - apply (Hv _ _ _ _ _ entry_first). apply rest_delimited. by left.
    - apply (reads_rest_items items st' stack r [normalize v] Hitems). }
  exists (S k). intros [|fuel] Hf; [lia|]. cbn [decodeCanonicalValue appendCanonicalValue]. rewrite <-!app_assoc. cbn [app].
  rewrite (stx_bind_run _ _ _ _ _ (Token_open _ _ _ stack _ _ _ He (or_introl (conj eq_refl eq_refl)))).
  apply Hk. lia.
Qed.

(** *** Objects *)
Definition member (f : string * json) : list Z := canonicalJSONString (fst f) ++ [58] ++ appendCanonicalValue (snd f).

Lemma Token_key st pre stack key l :
  (st = tokenObjectStart /\ pre = []) \/ (st = tokenObjectComma /\ pre = [44]) -> utf8_valid key = true ->
  Decoder_Token (mkDecoder st stack (pre ++ canonicalJSONString key ++ l))
    = Ok (TokenValue (JString key), mkDecoder tokenObjectColon stack l).
Proof.
  intros Hst Hk. unfold canonicalJSONString. rewrite <-!app_assoc. cbn [app].
  assert (forall st rest, (st = tokenObjectStart \/ st = tokenObjectKey) ->
    token_value (mkDecoder st stack rest) quote (escape_string (bytes_of key) ++ quote :: l)
      = Ok (TokenValue (JString key), mkDecoder tokenObjectColon stack l)) as Hv.
  { intros st2 rest Hst2. unfold token_value. cbn [dec_tokenState dec_tokenStack].
    destruct Hst2 as [->| ->]; cbn; rewrite scan_canonical_string by done; by rewrite string_of_bytes_of. }
  destruct Hst as [[-> ->]|[-> ->]]; cbn [app].
  - unfold Decoder_Token. erewrite token_loop_start by done. apply Hv. by left.
  - change (token_loop 0 (mkDecoder tokenObjectKey stack (quote :: escape_string (bytes_of key) ++ quote :: l))
      = Ok (TokenValue (JString key), mkDecoder tokenObjectColon stack l)).
    erewrite token_loop_start by done. apply Hv. by right.
Qed.

Lemma Token_close_object st st' stack r :
  st = tokenObjectStart \/ st = tokenObjectComma ->
  Decoder_Token (mkDecoder st (st' :: stack) (125 :: r)) = Ok (TokenDelim 125, mkDecoder (tokenValueEnd st') stack r).
Proof. by intros [->| ->]. Qed.

Lemma reads_members_end st st' stack r object :
  st = tokenObjectStart \/ st = tokenObjectComma ->
  reads (fun fuel => decodeMembers fuel object) (mkDecoder st (st' :: stack) (125 :: r)) (JObject object)
    (mkDecoder (tokenValueEnd st') stack r).
Proof.
  intros Hst. exists 1%nat. intros [|fuel] Hf; [lia|]. cbn [decodeMembers]. rewrite query_bind.
  change (Decoder_More _) with false. cbn iota.
  by rewrite (stx_bind_run _ _ _ _ _ (Token_close_object _ _ _ _ Hst)).
Qed.

Lemma key_missing key (object : list (string * json)) : key ∉ object.*1 -> existsb (is_key key) object = false.
Proof.
  intros Hk. apply not_true_is_false. intros (f & Hin & Hf)%existsb_exists. unfold is_key in Hf.
  apply bool_decide_eq_true in Hf. apply Hk. rewrite <-Hf. apply list_elem_of_fmap. exists f. split; [done|].
  by apply list_elem_of_In.
Qed.

Lemma reads_member st pre st' stack f object l w d'' r :
  (st = tokenObjectStart /\ pre = []) \/ (st = tokenObjectComma /\ pre = [44]) -> utf8_valid (fst f) = true ->
  reads_back (snd f) -> fst f ∉ object.*1 -> delimited r -> l = member f ++ r ->
  reads (fun fuel => decodeMembers fuel (object ++ [(fst f, normalize (snd f))]))
    (mkDecoder tokenObjectComma (st' :: stack) r) w d'' ->
  reads (fun fuel => decodeMembers fuel object) (mkDecoder st (st' :: stack) (pre ++ l)) w d''.
Proof.
  intros Hst Hk Hv Hnew Hr -> [k2 H2]. unfold member. rewrite <-!app_assoc.
  destruct (Hv _ _ _ (st' :: stack) r entry_member Hr) as [k1 H1].
  exists (S (k1 + k2)). intros [|fuel] Hf; [lia|]. cbn [decodeMembers]. rewrite query_bind.
  replace (Decoder_More _) with true by (by destruct Hst as [[-> ->]|[-> ->]]). cbn iota.
  rewrite (stx_bind_run _ _ _ _ _ (Token_key _ _ (st' :: stack) _ _ Hst Hk)). cbn beta iota.
  rewrite key_missing by done. rewrite fail_if_bind_false.
  rewrite (stx_bind_run _ _ _ _ _ (H1 fuel ltac:(lia))). apply H2. lia.
Qed.

Lemma reads_rest_members fields st' stack r object :
  Forall (fun f => utf8_valid (fst f) = true /\ reads_back (snd f)) fields -> NoDup (object.*1 ++ fields.*1) ->
  reads (fun fuel => decodeMembers fuel object)
    (mkDecoder tokenObjectComma (st' :: stack) (rest_parts (List.map member fields) ++ 125 :: r))
    (JObject (object ++ List.map (fun '(key, x) => (key, normalize x)) fields)) (mkDecoder (tokenValueEnd st') stack r).
Proof.
  intros Hf. revert object. induction Hf as [|f fields [Hk Hv] _ IH]; intros object Hnd; cbn [List.map].
  { rewrite app_nil_r. apply reads_members_end. by right. }
  cbn [rest_parts mbind list_bind]. fold (rest_parts (List.map member fields)).
  change ((44 :: member f) ++ rest_parts (List.map member fields)) with ([44] ++ member f ++ rest_parts (List.map member fields)).
  rewrite <-!app_assoc. eapply (reads_member _ [44] st' stack f); [by right|done|done| | |reflexivity|].
  - cbn in Hnd. apply NoDup_app in Hnd as (_ & Hd & _). intros Hin. apply (Hd _ Hin). by left.
  - apply rest_delimited. by right.
  - destruct f as [key x]. cbn [fst snd] in *. specialize (IH (object ++ [(key, normalize x)])).
    rewrite <-app_assoc in IH. apply IH. rewrite fmap_app, <-app_assoc. done.
Qed.

Lemma object_reads_back fields :
  Forall (fun f => utf8_valid (fst f) = true /\ reads_back (snd f)) fields -> NoDup fields.*1 -> reads_back (JObject fields).
Proof.
  intros Hf Hnd st pre st' stack r He Hr. set (sorted := merge_sort field_le fields).
  assert (Forall (fun f => utf8_valid (fst f) = true /\ reads_back (snd f)) sorted) as Hs
    by (unfold sorted; by rewrite merge_sort_Permutation).
  assert (NoDup sorted.*1) as Hnds by (unfold sorted; by rewrite merge_sort_Permutation).
  assert (appendCanonicalValue (JObject fields) = [123] ++ join_commas (List.map member sorted) ++ [125]) as ->.
  { cbn [appendCanonicalValue]. rewrite sort_map by done. do 3 f_equal. fold sorted. clear.
    induction sorted as [|[key x] l IH]; cbn; [done|]. by rewrite <-IH. }
  assert (normalize (JObject fields) = JObject (List.map (fun '(key, x) => (key, normalize x)) sorted)) as ->
    by (cbn [normalize]; by rewrite sort_map).
  clearbody sorted.
  assert (reads (fun fuel => decodeMembers fuel [])
    (mkDecoder tokenObjectStart (st' :: stack) (join_commas (List.map member sorted) ++ 125 :: r))
    (JObject (List.map (fun '(key, x) => (key, normalize x)) sorted)) (mkDecoder (tokenValueEnd st') stack r)) as [k Hk].
  { destruct sorted as [|f rest]; [by apply reads_members_end; left|]. inversion Hs as [|?? [Hkf Hvf] Hrest]; subst.
    cbn [List.map]. rewrite join_cons, <-app_assoc.
    apply (reads_member tokenObjectStart [] st' stack f [] _ _ _ (rest_parts (List.map member rest) ++ 125 :: r));
      [by left|done|done|by apply not_elem_of_nil|by apply rest_delimited; right|done|].
    destruct f as [key x]. cbn [fst snd] in *.
    apply (reads_rest_members rest st' stack r [(key, normalize x)] Hrest Hnds). }
  exists (S k). intros [|fuel] Hfu; [lia|]. cbn [decodeCanonicalValue]. rewrite <-!app_assoc. cbn [app].
  rewrite (stx_bind_run _ _ _ _ _ (Token_open _ _ _ stack _ _ _ He (or_intror (conj eq_refl eq_refl)))).
  apply Hk. lia.
Qed.

Lemma wf_reads_back v : json_wf v -> reads_back v.
Proof.
  induction v as [|b|s|n|items IH|fields IH] using json_induction; intros Hwf; inversion Hwf as [| | | |? Hi|? Hf Hnd]; subst.
  - apply constant_reads_back. by left.
  - apply constant_reads_back. right. by eexists.
  - by apply string_reads_back.
  - by apply number_reads_back.
  - apply array_reads_back; [done|]. apply Forall_forall. intros v Hv. rewrite Forall_forall in IH, Hi. auto.
  - apply object_reads_back; [|done]. apply Forall_forall. intros f Hin. rewrite Forall_forall in IH, Hf.
    destruct (Hf _ Hin). auto.
Qed.

(** ** The checks before decoding *)
Lemma clean_print v : json_wf v -> clean (appendCanonicalValue v).
Proof.
  assert (forall b, b < 128 -> b <> quote -> clean [b]) as Hone by (intros b ??; apply clean_ascii; by repeat constructor).
  induction v as [|b|s|n|items IH|fields IH] using json_induction; intros Hwf; inversion Hwf as [| | | |? Hi|? Hf Hnd]; subst.
  - apply clean_ascii. by repeat constructor.
  - apply clean_ascii. destruct b; by repeat constructor.
  - by apply clean_string.
  - cbn [appendCanonicalValue]. rewrite canonical_number_bytes by done. apply clean_ascii.
    eapply Forall_impl; [apply literal_bytes; by apply canonical_value|]. unfold number_byte, quote. lia.
  - cbn [appendCanonicalValue]. apply clean_app; [by apply Hone|]. apply clean_app; [|by apply Hone].
    apply clean_join. apply Forall_forall. intros t Ht. apply list_elem_of_In, in_map_iff in Ht as (v & <- & Hv%list_elem_of_In).
    rewrite Forall_forall in IH, Hi. auto.
  - cbn [appendCanonicalValue]. apply clean_app; [by apply Hone|]. apply clean_app; [|by apply Hone].
    apply clean_join. apply Forall_forall. intros t ([key text] & -> & Hin)%list_elem_of_fmap.
    rewrite merge_sort_Permutation in Hin. apply list_elem_of_In, in_map_iff in Hin as ([k v] & [= -> <-] & Hv%list_elem_of_In).
    rewrite Forall_forall in IH, Hf. destruct (Hf _ Hv) as [Hk Hv']. apply clean_app; [by apply clean_string|].
    apply clean_app; [by apply Hone|]. by apply (IH _ Hv).
Qed.

Lemma decode_print v : json_wf v -> decodeCanonicalJSON (appendCanonicalValue v) = Ok (normalize v).
Proof.
  intros Hwf. unfold decodeCanonicalJSON. destruct (clean_print v Hwf) as [Hu He].
  specialize (He []). rewrite app_nil_r in He. rewrite Hu, He. cbn [negb orb validUnicodeEscapes escapes_loop length].
  destruct (wf_reads_back v Hwf _ _ _ [] [] entry_top I) as [k Hk]. cbn [app] in Hk. rewrite app_nil_r in Hk.
  pose proof (proj1 (decode_fuel (decode_bound (appendCanonicalValue v)))
    (mkDecoder tokenTopValue [] (appendCanonicalValue v)) ltac:(cbn; lia)) as Hd.
  rewrite <-(decode_more _ (decode_bound (appendCanonicalValue v) + k)), Hk; [done|lia|lia|].
  intros E. rewrite E in Hd. by destruct Hd.
Qed.
