(* ===== verification/DecodeWf.v ===== *)
(** * What decoding yields

    The values that [decodeCanonicalJSON] returns hold UTF-8 strings, number
    literals of the grammar and objects without duplicate keys. *)
From Stdlib Require Import Ascii String.
From S2P Require Import Prelude GoStrings Sha256 Identity JsonText Canonical JsonLemmas.
From S2P Require Import CanonicalNumbers CanonicalTheorems.

(** Bytes that are valid UTF-8. *)
Definition good (l : list Z) : Prop := Forall is_byte l /\ utf8_valid_bytes l = true.

Lemma good_nil : good [].
Proof. by split. Qed.

Lemma good_app l1 l2 : good l1 -> good l2 -> good (l1 ++ l2).
Proof. intros [A1 A2] [B1 B2]. split; [by apply Forall_app|by rewrite utf8_app]. Qed.

Lemma good_ascii b l : b < 128 -> good (b :: l) -> good l.
Proof.
  intros Hb [H1 H2]. inversion H1; subst. split; [done|]. cbn in H2. by replace (b <? 128) with true in H2 by lia.
Qed.

Lemma good_ascii_app t l : Forall (fun b => b < 128) t -> good (t ++ l) -> good l.
Proof. induction 1 as [|b t Hb _ IH]; [done|]. intros H%good_ascii; auto. Qed.

Lemma good_rune r : Forall is_byte r -> rune r -> good r.
Proof. intros Hb Hr. split; [done|]. by rewrite <-(app_nil_r r), utf8_rune. Qed.

Lemma good_split l : good l -> l = [] \/ exists r l', l = r ++ l' /\ good r /\ rune r /\ good l'.
Proof.
  intros [Hb Hu]. destruct (utf8_split _ Hu) as [->|(r & l' & -> & Hr & Hl)]; [by left|right].
  apply Forall_app in Hb as [Hbr Hbl]. exists r, l'. split_and!; try done. by apply good_rune.
Qed.

Lemma good_string s : good s -> utf8_valid (string_of s) = true.
Proof. intros [Hb Hu]. unfold utf8_valid. by rewrite bytes_of_string_of. Qed.

(** ** Escapes *)
Lemma hex_value_bounds b x : hex_value b = Some x -> 0 <= x < 16 /\ b < 128.
Proof.
  unfold hex_value. destruct (in_range 48 57 b) eqn:E1; [|destruct (in_range 97 102 b) eqn:E2; [|destruct (in_range 65 70 b) eqn:E3]];
    try done; intros [= <-]; rewrite in_range_true in *; lia.
Qed.

Lemma hex4_bounds h1 h2 h3 h4 r : hex4 h1 h2 h3 h4 = Some r ->
  0 <= r < 65536 /\ Forall (fun b => b < 128) [h1; h2; h3; h4].
Proof.
  unfold hex4. destruct (hex_value h1) as [a|] eqn:E1; [|done]. destruct (hex_value h2) as [b|] eqn:E2; [|done].
  destruct (hex_value h3) as [c|] eqn:E3; [|done]. destruct (hex_value h4) as [d|] eqn:E4; [|done]. cbn. intros [= <-].
  apply hex_value_bounds in E1, E2, E3, E4. split; [lia|]. repeat constructor; lia.
Qed.

Lemma in_range_intro lo hi b : lo <= b <= hi -> in_range lo hi b = true.
Proof. apply in_range_true. Qed.

Lemma encode_rune_good r : 0 <= r < 0x110000 -> is_surrogate r = false -> good (encode_rune r).
Proof.
  unfold is_surrogate. intros Hr Hs. assert (~ (0xD800 <= r <= 0xDFFF)) as Hs'
    by (intros Hx%in_range_true; by rewrite Hx in Hs). clear Hs. unfold encode_rune, is_byte.
  destruct (r <? 0x80) eqn:E1; [|destruct (r <? 0x800) eqn:E2; [|destruct (r <? 0x10000) eqn:E3]]; apply good_rune.
  - repeat constructor; lia.
  - constructor. lia.
  - repeat constructor; Z.div_mod_to_equations; lia.
  - constructor; apply in_range_intro; Z.div_mod_to_equations; lia.
  - repeat constructor; Z.div_mod_to_equations; lia.
  - constructor; [apply in_range_intro; Z.div_mod_to_equations; lia| |apply in_range_intro; Z.div_mod_to_equations; lia].
    unfold second3. destruct (Z.eqb_spec (0xE0 + r / 4096) 0xE0); [apply in_range_intro; Z.div_mod_to_equations; lia|].
    destruct (Z.eqb_spec (0xE0 + r / 4096) 0xED); apply in_range_intro; Z.div_mod_to_equations; lia.
  - repeat constructor; Z.div_mod_to_equations; lia.
  - constructor; [apply in_range_intro; Z.div_mod_to_equations; lia| |apply in_range_intro; Z.div_mod_to_equations; lia..].
    unfold second4. destruct (Z.eqb_spec (0xF0 + r / 262144) 0xF0); [apply in_range_intro; Z.div_mod_to_equations; lia|].
    destruct (Z.eqb_spec (0xF0 + r / 262144) 0xF4); apply in_range_intro; Z.div_mod_to_equations; lia.
Qed.

Lemma paired_escape_good r1 l bytes :
  paired_escape r1 l = Some bytes -> good bytes /\ (forall b c g1 g2 g3 g4 l6, l = b :: c :: g1 :: g2 :: g3 :: g4 :: l6 -> good l -> good l6).
Proof.
  unfold paired_escape. destruct l as [|b [|c [|g1 [|g2 [|g3 [|g4 l6]]]]]]; try done.
  destruct (_ && _) eqn:E; [|done]. apply andb_true_iff in E as [->%Z.eqb_eq ->%Z.eqb_eq].
  destruct (hex4 g1 g2 g3 g4) as [r2|] eqn:Eh; [|done]. cbn. apply hex4_bounds in Eh as [_ Hh].
  unfold decode_surrogates. destruct (_ && _) eqn:Er; [|done]. cbn. intros [= <-].
  apply andb_true_iff in Er as [H1%in_range_true H2%in_range_true]. split.
  - apply encode_rune_good; [lia|]. unfold is_surrogate. apply not_true_is_false. rewrite in_range_true. lia.
  - intros b c h1 h2 h3 h4 l' [= <- <- <- <- <- <- <-] Hg. apply (good_ascii_app ([backslash; 117] ++ [g1; g2; g3; g4])); [|done].
    by apply Forall_app; split; [repeat constructor|].
Qed.

Lemma simple_escape_ascii c e : simple_escape c = Some e -> c < 128 /\ good [e].
Proof.
  unfold simple_escape. intros H.
  assert (c < 128 /\ 0 <= e < 128) as [Hc He].
  { destruct (_ || _) eqn:E; [injection H as <-; rewrite !orb_true_iff, !Z.eqb_eq in E; lia|].
    repeat match type of H with (if ?c =? ?n then _ else _) = _ =>
      destruct (Z.eqb_spec c n); [injection H as <-; lia|] end. done. }
  split; [done|]. apply good_rune; [by repeat constructor; lia|]. constructor. lia.
Qed.

(** ** Strings *)
Lemma scan_string_good l s r : good l -> scan_string l = Some (s, r) -> good s /\ good r.
Proof.
  revert s r. induction l as [l IH] using (induction_ltof1 _ (@length Z)). unfold ltof in IH. intros s r Hg H.
  destruct (good_split l Hg) as [->|(ru & l' & -> & Hgr & Hr & Hg')]; [done|].
  assert (forall l2 pre s2, (length l2 < length (ru ++ l'))%nat -> good l2 -> good pre ->
    scan_string l2 = Some (s2, r) -> s = pre ++ s2 -> good s /\ good r) as Hrec.
  { intros l2 pre s2 Hlen Hg2 Hpre Hs ->. destruct (IH _ Hlen _ _ Hg2 Hs). split; [by apply good_app|done]. }
  destruct (decide (Forall plain ru)) as [Hp|Hp].
  - rewrite (sp_scan _ _ (spells_plain ru (proj2 Hgr) Hp)) in H. destruct (scan_string l') as [[s' r']|] eqn:E; [|done].
    cbn in H. injection H as <- <-. pose proof (rune_nonempty _ Hr).
    apply (Hrec l' ru s'); try done. rewrite length_app. lia.
  - destruct Hr as [b Hb|b0 b1 H1 H2|b0 b1 b2 H1 H2 H3|b0 b1 b2 b3 H1 H2 H3 H4].
    2-4: (exfalso; apply Hp; apply in_range_true in H1; try apply second3_continuation in H2;
      try apply second4_continuation in H2; repeat constructor; try (by apply continuation_plain); unfold quote, backslash; lia).
    clear Hp. cbn [app scan_string] in H. destruct (b =? quote); [injection H as <- <-; by split; [apply good_nil|]|].
    destruct (b =? backslash); [|destruct (b <? 32); [done|]].
    + destruct l' as [|c l1]; [done|]. destruct (Z.eqb_spec c 117) as [->|Hc].
      * apply good_ascii in Hg'; [|lia]. destruct l1 as [|h1 [|h2 [|h3 [|h4 l5]]]]; try done.
        destruct (hex4 h1 h2 h3 h4) as [r1|] eqn:Eh; [|done]. cbn [mbind option_bind] in H. apply hex4_bounds in Eh as [Hr1 Hh].
        assert (good l5) as Hg5 by (by apply (good_ascii_app [h1; h2; h3; h4])).
        destruct (is_surrogate r1) eqn:Es.
        -- assert (('(rest, tail) ← scan_string l5; Some (encode_rune replacement_char ++ rest, tail)) = Some (s, r) ->
             good s /\ good r) as Hrepl.
           { destruct (scan_string l5) as [[s5 r5]|] eqn:E5; [|done]. cbn [mbind option_bind]. intros [= <- <-].
             apply (Hrec l5 (encode_rune replacement_char) s5); [cbn; lia|done|by apply encode_rune_good|done|done]. }
           destruct (paired_escape r1 l5) as [bytes|] eqn:Ep; [|by apply Hrepl].
           apply paired_escape_good in Ep as [Hby Htail].
           destruct l5 as [|x1 [|x2 [|x3 [|x4 [|x5 [|x6 l6]]]]]]; try (by apply Hrepl).
           destruct (scan_string l6) as [[s6 r6]|] eqn:E6; [|done]. cbn [mbind option_bind] in H. injection H as <- <-.
           apply (Hrec l6 bytes s6); [cbn; lia|by eapply Htail|done|done|done].
        -- destruct (scan_string l5) as [[s5 r5]|] eqn:E5; [|done]. cbn [mbind option_bind] in H. injection H as <- <-.
           apply (Hrec l5 (encode_rune r1) s5); [cbn; lia|done|apply encode_rune_good; [lia|done]|done|done].
      * destruct (simple_escape c) as [e|] eqn:Ee; [|done]. cbn in H. apply simple_escape_ascii in Ee as [Hca He].
        apply good_ascii in Hg'; [|done]. destruct (scan_string l1) as [[s1 r1]|] eqn:E1; [|done]. cbn in H.
        injection H as <- <-. apply (Hrec l1 [e] s1); [cbn; lia|done..].
    + destruct (scan_string l') as [[s1 r1]|] eqn:E1; [|done]. cbn in H. injection H as <- <-.
      apply (Hrec l' [b] s1); [cbn; lia|done..].
Qed.

(** ** Tokens *)
Lemma scan_value_good b l v r : good (b :: l) -> scan_value b l = Some (v, r) -> json_wf v /\ good r.
Proof.
  intros Hg H. unfold scan_value in H.
  assert (forall c (p : string) l' r', c < 128 -> Forall (fun b => b < 128) (bytes_of p) -> good (c :: l') ->
    strip_prefix (bytes_of p) l' = Some r' -> good r') as Hlit.
  { intros c p l' r' Hc Hp Hg' Hs. apply strip_prefix_Some in Hs. subst l'. apply good_ascii in Hg'; [|done].
    by apply good_ascii_app in Hg'. }
  destruct (Z.eqb_spec b quote) as [->|_].
  { destruct (scan_string l) as [[s r']|] eqn:E; [|done]. injection H as <- <-. apply good_ascii in Hg; [|done].
    destruct (scan_string_good _ _ _ Hg E). split; [constructor; by apply good_string|done]. }
  destruct (Z.eqb_spec b 116) as [->|_].
  { destruct (strip_prefix _ l) as [r'|] eqn:E; [|done]. injection H as <- <-. split; [constructor|].
    refine (Hlit 116 _ _ _ _ _ Hg E); [done|by repeat constructor]. }
  destruct (Z.eqb_spec b 102) as [->|_].
  { destruct (strip_prefix _ l) as [r'|] eqn:E; [|done]. injection H as <- <-. split; [constructor|].
    refine (Hlit 102 _ _ _ _ _ Hg E); [done|by repeat constructor]. }
  destruct (Z.eqb_spec b 110) as [->|_].
  { destruct (strip_prefix _ l) as [r'|] eqn:E; [|done]. injection H as <- <-. split; [constructor|].
    refine (Hlit 110 _ _ _ _ _ Hg E); [done|by repeat constructor]. }
  destruct (scan_number (b :: l)) as [[n r']|] eqn:E; [|done]. injection H as <- <-.
  apply scan_number_parts in E as [Hl Hp]. assert (number_literal n) as Hn by (by apply literal_parts).
  pose proof (literal_bytes _ Hn) as Hb. split.
  - constructor. rewrite bytes_of_string_of; [done|]. eapply Forall_impl; [exact Hb|]. unfold number_byte. lia.
  - rewrite Hl in Hg. eapply good_ascii_app; [|exact Hg]. eapply Forall_impl; [exact Hb|]. unfold number_byte. lia.
Qed.

Definition token_good (r : result (Token * Decoder)) : Prop :=
  match r with
  | Ok (t, d') => good (dec_rest d') /\ match t with TokenValue v => json_wf v | TokenDelim _ => True end
  | Err _ => True
  end.

Lemma open_delim_good delim st d rest : good rest -> token_good (open_delim delim st d rest).
Proof. unfold open_delim. by destruct (tokenValueAllowed _). Qed.

Lemma close_delim_good delim allowed d rest : good rest -> token_good (close_delim delim allowed d rest).
Proof. unfold close_delim. by destruct allowed, (dec_tokenStack d). Qed.

Lemma token_value_good d b rest : good (b :: rest) -> token_good (token_value d b rest).
Proof.
  intros Hg. unfold token_value. pose proof (good_ascii b rest) as Hrest.
  destruct (Z.eqb_spec b 91); [apply open_delim_good, Hrest; [lia|done]|].
  destruct (Z.eqb_spec b 93); [apply close_delim_good, Hrest; [lia|done]|].
  destruct (Z.eqb_spec b 123); [apply open_delim_good, Hrest; [lia|done]|].
  destruct (Z.eqb_spec b 125); [apply close_delim_good, Hrest; [lia|done]|].
  destruct (_ && _) eqn:Eq.
  - apply andb_true_iff in Eq as [Eq%Z.eqb_eq _]. destruct (scan_string rest) as [[key r]|] eqn:E; [|done].
    assert (good rest) as Hr by (apply Hrest; [unfold quote in Eq; lia|done]).
    destruct (scan_string_good _ _ _ Hr E). split; [done|]. constructor. by apply good_string.
  - destruct (tokenValueAllowed _); [|done]. destruct (scan_value b rest) as [[v r]|] eqn:E; [|done].
    by destruct (scan_value_good _ _ _ _ Hg E).
Qed.

Lemma skip_space_good l : good l -> good (skip_space l).
Proof.
  induction l as [|b l IH]; intros Hg; [done|]. cbn. destruct (is_json_space b) eqn:E; [|done]. apply IH.
  apply good_ascii in Hg; [done|]. unfold is_json_space in E. rewrite !orb_true_iff, !Z.eqb_eq in E. lia.
Qed.

Lemma token_loop_good n d : good (dec_rest d) -> token_good (token_loop n d).
Proof.
  revert d. induction n as [|n IH]; intros d Hg; cbn [token_loop]; apply skip_space_good in Hg;
    destruct (skip_space (dec_rest d)) as [|b rest]; try done.
  - destruct (b =? 58); [by destruct (dec_tokenState d)|]. destruct (b =? 44); [by destruct (dec_tokenState d)|].
    by apply token_value_good.
  - assert (forall st, b < 128 -> token_good (token_loop n (mkDecoder st (dec_tokenStack d) rest))) as Hnext.
    { intros st Hb. apply IH. by eapply good_ascii. }
    destruct (Z.eqb_spec b 58) as [->|_]; [destruct (dec_tokenState d); try done; by apply Hnext|].
    destruct (Z.eqb_spec b 44) as [->|_]; [destruct (dec_tokenState d); try done; by apply Hnext|].
    by apply token_value_good.
Qed.

Lemma Token_good d t d' : good (dec_rest d) -> Decoder_Token d = Ok (t, d') ->
  good (dec_rest d') /\ match t with TokenValue v => json_wf v | TokenDelim _ => True end.
Proof. intros Hg H. pose proof (token_loop_good 1 d Hg) as Ht. unfold Decoder_Token in H. by rewrite H in Ht. Qed.

(** ** Values *)
Definition field_wf (f : string * json) : Prop := utf8_valid (fst f) = true /\ json_wf (snd f).

Lemma decode_wf fuel :
  (forall d v d', good (dec_rest d) -> decodeCanonicalValue fuel d = Ok (v, d') -> json_wf v /\ good (dec_rest d')) /\
  (forall object d v d', good (dec_rest d) -> Forall field_wf object -> NoDup object.*1 ->
     decodeMembers fuel object d = Ok (v, d') -> json_wf v /\ good (dec_rest d')) /\
  (forall array d v d', good (dec_rest d) -> Forall json_wf array ->
     decodeItems fuel array d = Ok (v, d') -> json_wf v /\ good (dec_rest d')).
Proof.
  induction fuel as [|fuel (IHv & IHm & IHi)]; [by split_and!|]. split_and!.
  - intros d v d' Hg (t & d1 & Ht & H)%stx_bind_Ok. destruct (Token_good _ _ _ Hg Ht) as [Hg1 Hv].
    destruct t as [delim|v0].
    + destruct (delim =? 123); [eapply IHm; [| | |exact H]; [done|constructor|constructor]|].
      destruct (delim =? 91); [eapply IHi; [| |exact H]; [done|constructor]|done].
    + apply stx_ret_Ok in H as [<- <-]. done.
  - intros object d v d' Hg Ho Hnd. cbn [decodeMembers]. rewrite query_bind. destruct (Decoder_More d).
    + intros (t & d1 & Ht & H)%stx_bind_Ok. destruct (Token_good _ _ _ Hg Ht) as [Hg1 Hv].
      destruct t as [delim|[| |key| | |]]; try done. unfold fail_if in H. destruct (existsb _ _) eqn:Ex; [done|].
      rewrite ret_bind in H. apply stx_bind_Ok in H as (x & d2 & Hx & H). destruct (IHv _ _ _ Hg1 Hx) as [Hwx Hg2].
      eapply IHm; [| | |exact H]; [done| |].
      * apply Forall_app. split; [done|]. constructor; [|constructor]. split; [by inversion Hv|done].
      * rewrite fmap_app. apply NoDup_app. split_and!; [done| |apply NoDup_singleton].
        intros k Hk Hk2%list_elem_of_singleton. apply list_elem_of_fmap in Hk as (f & Hkf & Hf).
        apply not_true_iff_false in Ex. apply Ex, existsb_exists. exists f. split; [by apply list_elem_of_In|].
        unfold is_key. apply bool_decide_eq_true. by rewrite <-Hkf, Hk2.
    + intros (t & d1 & Ht & H)%stx_bind_Ok. destruct (Token_good _ _ _ Hg Ht) as [Hg1 _].
      destruct t as [delim|]; [|done]. unfold fail_if in H. destruct (negb _); [done|]. rewrite ret_bind in H.
      apply stx_ret_Ok in H as [<- <-]. split; [by constructor|done].
  - intros array d v d' Hg Ha. cbn [decodeItems]. rewrite query_bind. destruct (Decoder_More d).
    + intros (x & d1 & Hx & H)%stx_bind_Ok. destruct (IHv _ _ _ Hg Hx) as [Hwx Hg1].
      eapply IHi; [| |exact H]; [done|]. apply Forall_app. split; [done|]. by constructor.
    + intros (t & d1 & Ht & H)%stx_bind_Ok. destruct (Token_good _ _ _ Hg Ht) as [Hg1 _].
      destruct t as [delim|]; [|done]. unfold fail_if in H. destruct (negb _); [done|]. rewrite ret_bind in H.
      apply stx_ret_Ok in H as [<- <-]. split; [by constructor|done].
Qed.

Lemma decodeCanonicalJSON_wf s v : decodeCanonicalJSON (bytes_of s) = Ok v -> json_wf v.
Proof.
  unfold decodeCanonicalJSON. destruct (_ || _) eqn:E; [done|]. apply orb_false_iff in E as [Hu _].
  apply negb_false_iff in Hu. destruct (decodeCanonicalValue _ _) as [[v' d]|e] eqn:Ed; [|done].
  intros H. apply decode_wf in Ed as [Hwf _]; [|split; [apply bytes_of_range|done]].
  destruct (Decoder_Token d) as [[t d']|e]; [done|]. case_bool_decide; [|done]. by injection H as <-.
Qed.
