(* ===== verification/CanonicalRequests.v ===== *)
(** * What a canonical request says

    The canonical text of a request determines its members and is determined by
    them: two texts are equal exactly when the requests have the same members,
    an object being compared as a map and a number by its decimal value.  A
    canonical request is its own canonical form. *)
From Stdlib Require Import Ascii String.
From S2P Require Import Prelude GoStrings Sha256 Identity JsonText Canonical JsonLemmas.
From S2P Require Import CanonicalNumbers CanonicalTheorems DecodeWf.

(** ** The reference: equality of JSON values *)
Inductive json_eq : json -> json -> Prop :=
  | eq_null : json_eq JNull JNull
  | eq_bool b : json_eq (JBool b) (JBool b)
  | eq_string s : json_eq (JString s) (JString s)
  | eq_number n1 n2 : same_number (number_value (bytes_of n1)) (number_value (bytes_of n2)) -> json_eq (JNumber n1) (JNumber n2)
  | eq_array l1 l2 : Forall2 json_eq l1 l2 -> json_eq (JArray l1) (JArray l2)
  | eq_object f1 f2 : (forall key, option_Forall2 json_eq (map_lookup key f1) (map_lookup key f2)) ->
      json_eq (JObject f1) (JObject f2).

(** The members of a request after its identifiers were dropped and its defaults
    filled in, as a partial function of the key. *)
Definition default_member (options : CanonicalizationOptions) (key : string) : option json :=
  match List.find (fun '(name, _) => bool_decide (name = key)) options with
  | Some (_, raw) => match decodeCanonicalJSON (bytes_of raw) with Ok v => Some v | Err _ => None end
  | None => None
  end.

Definition request_member (operation raw : string) (options : CanonicalizationOptions) (key : string) : option json :=
  match decodeCanonicalJSON (bytes_of raw) with
  | Ok (JObject request) =>
      if bool_decide (key = "request_id") || bool_decide (key = "idempotency_key") then None
      else if bool_decide (key = "operation") then Some (JString operation)
      else
        match map_lookup key request with
        | Some v => Some v
        | None => if bool_decide (key = "source") then (if needs_source operation then Some empty_source else None)
                  else default_member options key
        end
  | _ => None
  end.

(** ** Objects as maps *)
Definition fields_wf (fields : list (string * json)) : Prop := Forall field_wf fields /\ NoDup fields.*1.

Lemma object_wf fields : json_wf (JObject fields) <-> fields_wf fields.
Proof. split; [by inversion 1|]. intros [? ?]. by constructor. Qed.

Lemma lookup_elem key v fields : NoDup fields.*1 -> map_lookup key fields = Some v <-> (key, v) ∈ fields.
Proof.
  intros Hnd. unfold map_lookup. split.
  - destruct (List.find _ fields) as [[k x]|] eqn:E; [|done]. cbn. intros [= ->].
    apply List.find_some in E as [Hin Hk]. unfold is_key in Hk. apply bool_decide_eq_true in Hk. cbn in Hk. subst.
    by apply list_elem_of_In.
  - intros Hin. destruct (List.find _ fields) as [f|] eqn:E; cbn.
    + apply List.find_some in E as [Hf Hk]. unfold is_key in Hk. apply bool_decide_eq_true in Hk.
      by rewrite (keys_inj fields f (key, v)) by (done || by apply list_elem_of_In).
    + apply list_elem_of_In in Hin. eapply List.find_none in E; [|exact Hin]. unfold is_key in E. cbn in E.
      by rewrite bool_decide_eq_true_2 in E.
Qed.

Lemma lookup_none key fields : NoDup fields.*1 -> map_lookup key fields = None <-> key ∉ fields.*1.
Proof.
  intros Hnd. split.
  - intros Hn ([k v] & -> & Hin)%list_elem_of_fmap. apply (lookup_elem _ _ _ Hnd) in Hin. cbn in Hn. congruence.
  - intros Hn. destruct (map_lookup key fields) as [v|] eqn:E; [|done]. apply lookup_elem in E; [|done].
    destruct Hn. apply list_elem_of_fmap. by exists (key, v).
Qed.

Lemma delete_elem key f fields : f ∈ map_delete key fields <-> f ∈ fields /\ fst f <> key.
Proof.
  unfold map_delete. rewrite !list_elem_of_In, filter_In, negb_true_iff. unfold is_key. by rewrite bool_decide_eq_false.
Qed.

Lemma delete_sublist key fields : (map_delete key fields).*1 `sublist_of` fields.*1.
Proof.
  induction fields as [|f fields IH]; cbn; [done|]. destruct (is_key key f); cbn; [by apply sublist_cons|by apply sublist_skip].
Qed.

Lemma delete_wf key fields : fields_wf fields -> fields_wf (map_delete key fields).
Proof.
  intros [Hf Hnd]. split; [|by eapply sublist_NoDup; [|apply delete_sublist]]. rewrite Forall_forall in *. intros f [Hin _]%delete_elem. auto.
Qed.

Lemma store_wf key v fields : utf8_valid key = true -> json_wf v -> fields_wf fields -> fields_wf (map_store key v fields).
Proof.
  intros Hk Hv Hf. destruct (delete_wf key _ Hf) as [Hd Hnd]. unfold map_store. split.
  - apply Forall_app. split; [done|]. by repeat constructor.
  - rewrite fmap_app. apply NoDup_app. split_and!; [done| |apply NoDup_singleton].
    intros k (f & -> & Hin)%list_elem_of_fmap Hk2%list_elem_of_singleton. by apply delete_elem in Hin as [_ Hne].
Qed.

Lemma store_missing_wf key v fields :
  utf8_valid key = true -> json_wf v -> fields_wf fields -> fields_wf (map_store_missing key v fields).
Proof. unfold map_store_missing. destruct (map_lookup key fields); [done|]. apply store_wf. Qed.

(** Two objects with the same entries have the same members. *)
Lemma lookup_agree key f1 f2 : NoDup f1.*1 -> NoDup f2.*1 ->
  (forall v, (key, v) ∈ f1 <-> (key, v) ∈ f2) -> map_lookup key f1 = map_lookup key f2.
Proof. intros H1 H2 H. apply option_eq. intros v. by rewrite !lookup_elem. Qed.

Lemma lookup_delete key key' fields : NoDup fields.*1 ->
  map_lookup key (map_delete key' fields) = if bool_decide (key = key') then None else map_lookup key fields.
Proof.
  intros Hnd. assert (NoDup (map_delete key' fields).*1) as Hd by (by eapply sublist_NoDup; [|apply delete_sublist]).
  case_bool_decide as Hk.
  - apply lookup_none; [done|]. intros (f & -> & Hin)%list_elem_of_fmap. by apply delete_elem in Hin as [_ ?].
  - apply lookup_agree; [done..|]. intros v. rewrite delete_elem. cbn. naive_solver.
Qed.

Lemma lookup_store key key' v fields : fields_wf fields -> utf8_valid key' = true -> json_wf v ->
  map_lookup key (map_store key' v fields) = if bool_decide (key = key') then Some v else map_lookup key fields.
Proof.
  intros Hf Hk' Hv. destruct (store_wf key' v fields Hk' Hv Hf) as [_ Hnd]. destruct Hf as [_ Hnd0].
  unfold map_store in *. case_bool_decide as Hk.
  - subst. apply lookup_elem; [done|]. apply elem_of_app. right. by apply list_elem_of_singleton.
  - apply lookup_agree; [done..|]. intros x. rewrite elem_of_app, delete_elem, list_elem_of_singleton. cbn. naive_solver.
Qed.

Lemma lookup_store_missing key key' v fields : fields_wf fields -> utf8_valid key' = true -> json_wf v ->
  map_lookup key (map_store_missing key' v fields)
    = match map_lookup key fields with Some x => Some x | None => if bool_decide (key = key') then Some v else None end.
Proof.
  intros Hf Hk' Hv. unfold map_store_missing. destruct (map_lookup key' fields) as [x|] eqn:E.
  - destruct (map_lookup key fields) eqn:E2; [done|]. case_bool_decide; [congruence|done].
  - rewrite lookup_store by done. case_bool_decide; subst; [by rewrite E|]. by destruct (map_lookup key fields).
Qed.

(** ** Equal texts *)
Definition normal_fields (fields : list (string * json)) : list (string * json) :=
  List.map (fun '(key, x) => (key, normalize x)) fields.

Lemma normal_fields_elem key y fields : (key, y) ∈ normal_fields fields <-> exists x, y = normalize x /\ (key, x) ∈ fields.
Proof.
  unfold normal_fields. rewrite list_elem_of_In, in_map_iff. setoid_rewrite list_elem_of_In. split.
  - intros ([k x] & [= -> <-] & Hin). eauto.
  - intros (x & -> & Hin). by exists (key, x).
Qed.

Lemma normal_objects f1 f2 : NoDup f1.*1 -> NoDup f2.*1 ->
  normalize (JObject f1) = normalize (JObject f2) <-> normal_fields f1 ≡ₚ normal_fields f2.
Proof.
  intros H1 H2. cbn [normalize]. split.
  - intros [= H]. fold (normal_fields f1) (normal_fields f2) in H.
    rewrite <-(merge_sort_Permutation field_le (normal_fields f1)), H. apply merge_sort_Permutation.
  - intros H. f_equal. apply sorted_unique.
    + by rewrite merge_sort_Permutation, map_keys.
    + by rewrite !merge_sort_Permutation.
    + apply StronglySorted_merge_sort; apply _.
    + apply StronglySorted_merge_sort; apply _.
Qed.

Lemma normal_fields_NoDup fields : NoDup fields.*1 -> NoDup (normal_fields fields).
Proof. intros H. apply (NoDup_fmap_1 fst). unfold normal_fields. by rewrite map_keys. Qed.

Lemma normal_number n1 n2 : number_literal (bytes_of n1) -> number_literal (bytes_of n2) ->
  normalize (JNumber n1) = normalize (JNumber n2) <-> json_eq (JNumber n1) (JNumber n2).
Proof.
  intros H1 H2. pose proof (canonical_spelling (bytes_of n1) (bytes_of n2) H1 H2) as Hs. split.
  - intros [= H]. constructor. apply Hs. by rewrite <-!canonical_number_bytes, H.
  - inversion 1 as [| | |? ? Hn| |]; subst. cbn [normalize]. apply Hs in Hn. unfold canonicalJSONNumber. by rewrite Hn.
Qed.

Lemma normal_eq v1 : forall v2, json_wf v1 -> json_wf v2 -> normalize v1 = normalize v2 <-> json_eq v1 v2.
Proof.
  induction v1 as [|b|s|n|items IH|fields IH] using json_induction; intros v2 W1 W2;
    destruct v2 as [|b2|s2|n2|items2|fields2]; try (split; [done|by inversion 1]);
    try (by split; [intros [= ->]; constructor|inversion 1]).
  - split; [constructor|done].
  - inversion W1; inversion W2; subst. by apply normal_number.
  - inversion W1 as [| | | |? H1|]; inversion W2 as [| | | |? H2|]; subst. clear W1 W2.
    assert (List.map normalize items = List.map normalize items2 <-> Forall2 json_eq items items2) as Hl.
    { revert items2 H2. induction IH as [|v items Hv _ IHl]; intros [|v2 items2] H2; try (split; [done|by inversion 1]).
      inversion H1 as [|?? W1 H1']; inversion H2 as [|?? W2 H2']; subst. cbn [List.map]. split.
      - intros [= E1 E2]. constructor; [by apply Hv|by apply IHl].
      - inversion 1; subst. f_equal; [by apply Hv|by apply IHl]. }
    split; [intros [= H]; constructor; by apply Hl|]. inversion 1; subst. cbn. f_equal. by apply Hl.
  - rename fields2 into f2. apply object_wf in W1 as [F1 N1], W2 as [F2 N2]. rewrite normal_objects by done.
    rewrite Forall_forall in IH, F1, F2.
    assert (forall k x y, (k, x) ∈ fields -> (k, y) ∈ f2 -> normalize x = normalize y <-> json_eq x y) as Hxy
      by (intros k x y Hx Hy; apply (IH _ Hx); [apply (F1 _ Hx)|apply (F2 _ Hy)]).
    split.
    + intros Hp. constructor. intros key. destruct (map_lookup key fields) as [x|] eqn:E1.
      * apply lookup_elem in E1; [|done]. assert ((key, normalize x) ∈ normal_fields f2) as Hin
          by (rewrite <-Hp; apply normal_fields_elem; by exists x).
        apply normal_fields_elem in Hin as (y & Hy & Hin). rewrite (proj2 (lookup_elem key y f2 N2) Hin).
        constructor. by apply (Hxy key).
      * destruct (map_lookup key f2) as [y|] eqn:E2; [|constructor]. apply lookup_elem in E2; [|done].
        assert ((key, normalize y) ∈ normal_fields fields) as Hin by (rewrite Hp; apply normal_fields_elem; by exists y).
        apply normal_fields_elem in Hin as (x & _ & Hin). apply lookup_elem in Hin; [|done]. congruence.
    + inversion 1 as [| | | | |? ? Hk]; subst. apply NoDup_Permutation; [by apply normal_fields_NoDup..|].
      intros [key z]. rewrite !normal_fields_elem. specialize (Hk key). split; intros (x & -> & Hin).
      * rewrite (proj2 (lookup_elem key x fields N1) Hin) in Hk. inversion Hk as [? y Hj Hx Hy|]; subst.
        symmetry in Hy. apply lookup_elem in Hy; [|done]. exists y. split; [by apply (Hxy key)|done].
      * rewrite (proj2 (lookup_elem key x f2 N2) Hin) in Hk. inversion Hk as [y ? Hj Hx Hy|]; subst.
        symmetry in Hx. apply lookup_elem in Hx; [|done]. exists y. split; [symmetry; by apply (Hxy key)|done].
Qed.

Lemma print_eq v1 v2 : json_wf v1 -> json_wf v2 -> appendCanonicalValue v1 = appendCanonicalValue v2 <-> json_eq v1 v2.
Proof.
  intros W1 W2. rewrite <-normal_eq by done. split.
  - intros H. pose proof (decode_print v1 W1) as D1. rewrite H, decode_print in D1 by done. by injection D1.
  - intros H. by rewrite <-(print_normalize v1), <-(print_normalize v2), H.
Qed.

(** ** The bytes of a text *)
Lemma escape_ascii_bytes b : is_byte b -> b < 128 -> Forall is_byte (escape_ascii b).
Proof.
  intros Hb Hlt. unfold is_byte in *. unfold escape_ascii, quote, backslash, hex_digit.
  repeat (destruct (_ || _); [repeat constructor; lia|]). repeat (destruct (_ =? _); [repeat constructor; lia|]).
  destruct (32 <=? b) eqn:E; [repeat constructor; lia|]. repeat (destruct (_ =? _); [repeat constructor; lia|]).
  assert (0 <= b / 16 < 2) by (Z.div_mod_to_equations; lia). assert (0 <= b mod 16 < 16) by (apply Z.mod_pos_bound; lia).
  repeat constructor; try lia; destruct (_ <? _); lia.
Qed.

Lemma escape_rune3_bytes b0 b1 b2 : Forall is_byte [b0; b1; b2] -> Forall is_byte (escape_rune3 b0 b1 b2).
Proof.
  intros Hb. unfold escape_rune3, backslash, hex_digit, is_byte in *. destruct (_ && _ && _); [|done].
  assert (0 <= b2 mod 16 < 16) by (apply Z.mod_pos_bound; lia). repeat constructor; try lia; destruct (_ <? _); lia.
Qed.

Lemma escape_string_bytes l : Forall is_byte l -> Forall is_byte (escape_string l).
Proof.
  induction l as [l IH] using (induction_ltof1 _ (@length Z)). unfold ltof in IH. intros Hl.
  assert (Forall is_byte escape_invalid) as Hinv by (repeat constructor; unfold is_byte, backslash; lia).
  destruct Hl as [|b0 l0 H0 Hl0]; [constructor|]. cbn [escape_string]. destruct (b0 <? 0x80) eqn:E0.
  { apply Forall_app. split; [apply escape_ascii_bytes; [done|lia]|apply IH; [cbn; lia|done]]. }
  assert (Forall is_byte (escape_invalid ++ escape_string l0)) as Hbad by (apply Forall_app; split; [done|apply IH; [cbn; lia|done]]).
  destruct Hl0 as [|b1 l1 H1 Hl1]; [done|]. destruct (_ && _); [repeat (apply Forall_cons; split; [done|]); apply IH; [cbn; lia|done]|].
  destruct Hl1 as [|b2 l2 H2 Hl2]; [done|].
  destruct (_ && _ && _); [apply Forall_app; split; [apply escape_rune3_bytes; by repeat (apply Forall_cons; split)|apply IH; [cbn; lia|done]]|].
  destruct Hl2 as [|b3 l3 H3 Hl3]; [done|].
  destruct (_ && _ && _ && _); [repeat (apply Forall_cons; split; [done|]); apply IH; [cbn; lia|done]|done].
Qed.

Lemma string_bytes s : Forall is_byte (canonicalJSONString s).
Proof.
  unfold canonicalJSONString. rewrite !Forall_app. split_and!; [|apply escape_string_bytes, bytes_of_range|];
    repeat constructor; done.
Qed.

Lemma join_bytes ts : Forall (Forall is_byte) ts -> Forall is_byte (join_commas ts).
Proof.
  induction 1 as [|t ts Ht _ IH]; [constructor|]. destruct ts as [|t' ts]; [done|].
  change (join_commas (t :: t' :: ts)) with (t ++ [44] ++ join_commas (t' :: ts)). rewrite !Forall_app.
  split_and!; [done|by repeat constructor|done].
Qed.

Lemma print_bytes v : Forall is_byte (appendCanonicalValue v).
Proof.
  induction v as [|b|s|n|items IH|fields IH] using json_induction; cbn [appendCanonicalValue];
    try apply bytes_of_range; [apply string_bytes|..]; rewrite !Forall_app; split_and!; try (by repeat constructor);
    apply join_bytes, Forall_forall; rewrite Forall_forall in IH.
  - intros t (v & <- & Hv)%list_elem_of_In%in_map_iff. apply IH. by apply list_elem_of_In.
  - intros t ([key text] & -> & Hin)%list_elem_of_fmap. rewrite merge_sort_Permutation in Hin.
    apply list_elem_of_In, in_map_iff in Hin as ([k v] & [= -> <-] & Hv%list_elem_of_In). rewrite !Forall_app.
    split_and!; [apply string_bytes|by repeat constructor|apply (IH _ Hv)].
Qed.

(** ** Requests *)
Lemma mutation_utf8 operation : isMutationOperation operation = true -> utf8_valid operation = true.
Proof.
  unfold isMutationOperation. intros H%bool_decide_eq_true. rewrite !elem_of_cons in H.
  destruct H as [->|[->|[->|[->|[->|H]]]]]; try reflexivity. by apply not_elem_of_nil in H.
Qed.

Lemma empty_source_wf : json_wf empty_source.
Proof. apply object_wf. split; [|apply NoDup_singleton]. by repeat constructor. Qed.

Lemma normalizeRequest_wf operation request :
  utf8_valid operation = true -> fields_wf request -> fields_wf (normalizeRequest operation request).
Proof.
  intros Ho Hr. unfold normalizeRequest.
  assert (fields_wf (map_store "operation" (JString operation) (map_delete "idempotency_key" (map_delete "request_id" request)))) as Hs
    by (apply store_wf; [done|by constructor|by apply delete_wf, delete_wf]).
  destruct (needs_source operation); [|done]. apply store_missing_wf; [done|apply empty_source_wf|done].
Qed.

Lemma lookup_normalizeRequest operation request key :
  utf8_valid operation = true -> fields_wf request ->
  map_lookup key (normalizeRequest operation request)
    = if bool_decide (key = "request_id") || bool_decide (key = "idempotency_key") then None
      else if bool_decide (key = "operation") then Some (JString operation)
      else match map_lookup key request with
           | Some v => Some v
           | None => if bool_decide (key = "source") then (if needs_source operation then Some empty_source else None) else None
           end.
Proof.
  intros Ho Hr. set (dropped := map_delete "idempotency_key" (map_delete "request_id" request)).
  assert (fields_wf dropped) as Hd by (by apply delete_wf, delete_wf).
  assert (map_lookup key (map_store "operation" (JString operation) dropped)
    = if bool_decide (key = "operation") then Some (JString operation) else
      if bool_decide (key = "request_id") || bool_decide (key = "idempotency_key") then None else map_lookup key request) as Hk.
  { rewrite lookup_store by (done || by constructor). case_bool_decide; [done|]. unfold dropped.
    rewrite !lookup_delete by (apply delete_wf || apply Hr; apply Hr).
    by destruct (bool_decide (key = "request_id")), (bool_decide (key = "idempotency_key")). }
  unfold normalizeRequest. fold dropped. destruct (needs_source operation).
  - rewrite lookup_store_missing; [|by apply store_wf; [|constructor|]|done|apply empty_source_wf]. rewrite Hk.
    destruct (decide (key = "operation")) as [->|H1]; [done|]. destruct (decide (key = "request_id")) as [->|H2]; [done|].
    destruct (decide (key = "idempotency_key")) as [->|H3]; [done|]. rewrite !bool_decide_eq_false_2 by done.
    cbn [orb]. by destruct (map_lookup key request).
  - rewrite Hk. destruct (decide (key = "operation")) as [->|H1]; [done|].
    rewrite (bool_decide_eq_false_2 (key = "operation")) by done.
    destruct (_ || _); [done|]. destruct (map_lookup key request); [done|]. by destruct (bool_decide (key = "source")).
Qed.

Lemma applyDefaults_members defaults request filled :
  fields_wf request -> applyDefaults defaults request = Ok filled ->
  fields_wf filled /\ (forall key, reserved_field key = true -> default_member defaults key = None) /\
  forall key, map_lookup key filled
    = match map_lookup key request with Some v => Some v | None => default_member defaults key end.
Proof.
  revert request. induction defaults as [|[name raw] defaults IH]; intros request Hr H; cbn [applyDefaults] in H.
  { injection H as <-. split_and!; [done..|]. intros key. by destruct (map_lookup key request). }
  apply refuse_if_bind in H as [Hu H]. apply refuse_if_bind in H as [Hres H]. apply refuse_if_bind in H as [_ H].
  apply result_bind_Ok in H as (v & Hv & H). apply result_map_err_Ok in Hv. apply negb_false_iff in Hu.
  assert (json_wf v) as Hw by (by eapply decodeCanonicalJSON_wf).
  destruct (IH _ (store_missing_wf name v request Hu Hw Hr) H) as (Hf & Hd & Hl). unfold default_member in *.
  cbn [List.find]. split_and!; [done| |].
  - intros key Hkey. case_bool_decide; [congruence|by apply Hd].
  - intros key. rewrite Hl, lookup_store_missing by done. destruct (map_lookup key request); [done|].
    destruct (decide (key = name)) as [->|Hne]; [by rewrite !bool_decide_eq_true_2, Hv by done|].
    by rewrite !bool_decide_eq_false_2 by done.
Qed.

(** The order of the defaults does not matter. *)
Lemma default_member_sorted options key : NoDup options.*1 ->
  default_member (merge_sort field_le options) key = default_member options key.
Proof.
  intros Hnd. unfold default_member. set (p := fun '(name, _) => bool_decide (name = key)).
  assert (forall l : list (string * string), NoDup l.*1 -> forall f, List.find p l = Some f <-> f ∈ l /\ fst f = key) as Hfind.
  { intros l Hl f. split.
    - intros [Hin Hp]%List.find_some. destruct f as [k x]. cbn in Hp. apply bool_decide_eq_true in Hp.
      split; [by apply list_elem_of_In|done].
    - intros [Hin Hk]. destruct (List.find p l) as [g|] eqn:E.
      + apply List.find_some in E as [Hg Hp]. destruct g as [k x]. cbn in Hp. apply bool_decide_eq_true in Hp. subst k.
        f_equal. apply (keys_inj l); [done|by apply list_elem_of_In|done|done].
      + apply list_elem_of_In in Hin. eapply List.find_none in E; [|exact Hin]. destruct f as [k x]. cbn in *.
        by rewrite bool_decide_eq_true_2 in E. }
  assert (List.find p (merge_sort field_le options) = List.find p options) as ->; [|done].
  apply option_eq. intros f. rewrite !Hfind by (done || by rewrite merge_sort_Permutation).
  by rewrite merge_sort_Permutation.
Qed.

(** What a successful run printed. *)
Lemma canonicalize_members operation raw options c :
  CanonicalizeMutationRequestJSON operation raw options = Ok c ->
  exists fields, fields_wf fields /\ bytes_of c = appendCanonicalValue (JObject fields) /\
    map_lookup "operation" fields = Some (JString operation) /\
    map_lookup "request_id" fields = None /\ map_lookup "idempotency_key" fields = None /\
    (needs_source operation = true -> map_lookup "source" fields <> None) /\ isMutationOperation operation = true /\
    (NoDup options.*1 -> forall key, map_lookup key fields = request_member operation raw options key).
Proof.
  unfold CanonicalizeMutationRequestJSON. intros H. apply refuse_if_bind in H as [Hop H]. apply negb_false_iff in Hop.
  apply unit_bind_Ok in H as [_ H]. apply refuse_if_bind in H as [_ H].
  apply result_bind_Ok in H as (v & Hv & H). apply result_map_err_Ok in Hv. pose proof (decodeCanonicalJSON_wf _ _ Hv) as Hw.
  destruct v as [| | | | |request]; try done. apply refuse_if_bind in H as [_ H].
  apply result_bind_Ok in H as (fields & Hd & H). apply object_wf in Hw.
  assert (c = string_of (appendCanonicalValue (JObject fields))) as -> by congruence.
  pose proof (mutation_utf8 _ Hop) as Hu.
  destruct (applyDefaults_members _ _ _ (normalizeRequest_wf operation _ Hu Hw) Hd) as (Hf & Hres & Hl).
  exists fields. split; [done|]. split; [by rewrite bytes_of_string_of by apply print_bytes|].
  split; [rewrite Hl, lookup_normalizeRequest by done; done|].
  split; [rewrite Hl, lookup_normalizeRequest by done; by apply Hres|].
  split; [rewrite Hl, lookup_normalizeRequest by done; by apply Hres|].
  split_and!; [|done|].
  - intros Hs. rewrite Hl, lookup_normalizeRequest by done. cbn. rewrite Hs. by destruct (map_lookup "source" request).
  - intros Hnd key. unfold request_member. rewrite Hv, Hl, lookup_normalizeRequest by done.
    rewrite <-(default_member_sorted _ _ Hnd). destruct (decide (reserved_field key = true)) as [Hk|Hk].
    + rewrite (Hres _ Hk). destruct (_ || _); [done|]. destruct (bool_decide (key = "operation")); [done|].
      destruct (map_lookup key request); [done|]. case_bool_decide; [by destruct (needs_source operation)|done].
    + unfold reserved_field in Hk. rewrite bool_decide_eq_true, !elem_of_cons in Hk.
      rewrite !bool_decide_eq_false_2 by naive_solver. cbn [orb]. by destruct (map_lookup key request).
Qed.

Lemma json_eq_refl v : json_wf v -> json_eq v v.
Proof. intros Hw. by apply normal_eq. Qed.

Lemma lookup_normal key fields : NoDup fields.*1 ->
  map_lookup key (merge_sort field_le (normal_fields fields)) = normalize <$> map_lookup key fields.
Proof.
  intros Hnd. assert (NoDup (merge_sort field_le (normal_fields fields)).*1) as Hs
    by (rewrite merge_sort_Permutation; unfold normal_fields; by rewrite map_keys).
  apply option_eq. intros v. rewrite lookup_elem, merge_sort_Permutation, normal_fields_elem by done. split.
  - intros (x & -> & Hx). by rewrite (proj2 (lookup_elem _ _ _ Hnd) Hx).
  - destruct (map_lookup key fields) as [x|] eqn:E; [|done]. cbn. intros [= <-]. exists x. by apply lookup_elem in E.
Qed.

(** A request that already carries what normalization adds. *)
Lemma normalize_again operation request :
  isMutationOperation operation = true -> fields_wf request ->
  map_lookup "operation" request = Some (JString operation) ->
  map_lookup "request_id" request = None -> map_lookup "idempotency_key" request = None ->
  (needs_source operation = true -> map_lookup "source" request <> None) ->
  appendCanonicalValue (JObject (normalizeRequest operation request)) = appendCanonicalValue (JObject request).
Proof.
  intros Hop Hf Ho Hr Hi Hs. pose proof (mutation_utf8 _ Hop) as Hu.
  apply print_eq; [by apply object_wf, normalizeRequest_wf|by apply object_wf|]. constructor. intros key.
  assert (map_lookup key (normalizeRequest operation request) = map_lookup key request) as ->.
  { rewrite lookup_normalizeRequest by done. destruct (decide (key = "request_id")) as [->|H1]; [done|].
    destruct (decide (key = "idempotency_key")) as [->|H2]; [done|]. destruct (decide (key = "operation")) as [->|H3]; [done|].
    rewrite !bool_decide_eq_false_2 by done. cbn [orb]. destruct (map_lookup key request) eqn:E; [done|].
    case_bool_decide; [|done]. subst. destruct (needs_source operation); [|done]. by destruct Hs. }
  destruct (map_lookup key request) as [v|] eqn:E; constructor. apply json_eq_refl. destruct Hf as [Hf Hnd].
  apply lookup_elem in E; [|done]. rewrite Forall_forall in Hf. apply (Hf _ E).
Qed.

(** C32: Two requests of one operation get the same canonical text, and so the same
    hash, exactly when they have the same members: the identifiers of the request
    do not count, the operation, the empty source and the defaults are filled in,
    objects are compared as maps and numbers by their value. *)
Theorem canonicalize_exact operation raw1 options1 raw2 options2 c1 c2 :
  NoDup options1.*1 -> NoDup options2.*1 ->
  CanonicalizeMutationRequestJSON operation raw1 options1 = Ok c1 ->
  CanonicalizeMutationRequestJSON operation raw2 options2 = Ok c2 ->
  (c1 = c2 <-> forall key, option_Forall2 json_eq (request_member operation raw1 options1 key)
                            (request_member operation raw2 options2 key)).
Proof.
  intros N1 N2 H1 H2. destruct (canonicalize_members _ _ _ _ H1) as (f1 & W1 & B1 & _ & _ & _ & _ & _ & M1).
  destruct (canonicalize_members _ _ _ _ H2) as (f2 & W2 & B2 & _ & _ & _ & _ & _ & M2).
  apply object_wf in W1, W2. pose proof (print_eq _ _ W1 W2) as Hp. split.
  - intros ->. rewrite B1 in B2. apply Hp in B2. inversion B2 as [| | | | |? ? Hk]; subst. intros key.
    rewrite <-(M1 N1), <-(M2 N2). apply Hk.
  - intros Hk. rewrite <-(string_of_bytes_of c1), <-(string_of_bytes_of c2), B1, B2. f_equal. apply Hp. constructor.
    intros key. by rewrite (M1 N1), (M2 N2).
Qed.

(** C33: A canonical text is its own canonical form: canonicalizing what a
    canonicalization printed changes nothing, whatever defaults were filled in,
    as long as the text is within the limit of a serialized request. *)
Theorem canonicalize_idempotent operation raw options c :
  CanonicalizeMutationRequestJSON operation raw options = Ok c -> go_len c <= MaxSerializedRequestBytes ->
  CanonicalizeMutationRequestJSON operation c [] = Ok c.
Proof.
  intros H Hlen. destruct (canonicalize_members _ _ _ _ H) as (fields & W & B & Lo & Lr & Li & Ls & Hop & _).
  apply object_wf in W as Wv. destruct (clean_print _ Wv) as [Hu He]. specialize (He []). rewrite app_nil_r in He.
  pose proof (decode_print _ Wv) as Hd. rewrite <-B in Hd, Hu, He.
  pose proof (decodeCanonicalJSON_wf _ _ Hd) as Wn. pose proof (print_normalize _ Wv) as Hpn.
  cbn [normalize] in Hd, Wn, Hpn. fold (normal_fields fields) in Hd, Wn, Hpn.
  unfold CanonicalizeMutationRequestJSON. rewrite Hop. unfold ValidateSerializedRequest, validateSerializedSize.
  rewrite (proj2 (Z.ltb_ge _ _) Hlen). unfold utf8_valid. rewrite Hu, He. cbn [negb orb validUnicodeEscapes escapes_loop length].
  rewrite Hd. cbn [mbind result_bind refuse_if result_map_err negb]. destruct W as [_ Hnd].
  rewrite lookup_normal, Lo by done. cbn [fmap option_fmap option_map normalize operation_matches].
  rewrite bool_decide_eq_true_2 by done. cbn [negb refuse_if mbind result_bind]. apply object_wf in Wn.
  cbn [applyDefaults]. apply (f_equal Ok).
  rewrite normalize_again, Hpn, <-B; [apply string_of_bytes_of|done|done|..]; rewrite lookup_normal by done.
  - by rewrite Lo.
  - by rewrite Lr.
  - by rewrite Li.
  - intros Hs. specialize (Ls Hs). by destruct (map_lookup "source" fields).
Qed.

(** The same request, spelled differently, and another one. *)
Definition respelled_request : string :=
  string_of (bytes_of "{'a':'x\n/😀','operation':'run','source':{'mode':'empty'},'b':[15e-1,0,1200]}" ≫= fun b => [if b =? 39 then 34 else b]).
Definition other_request : string :=
  string_of (bytes_of "{'a':'x\n/😀','operation':'run','b':[15e-1,0,1200.5]}" ≫= fun b => [if b =? 39 then 34 else b]).

Lemma canonicalize_exact_witness :
  (forall key, option_Forall2 json_eq (request_member "run" sample_request [] key) (request_member "run" respelled_request [] key)) /\
  ~ (forall key, option_Forall2 json_eq (request_member "run" sample_request [] key) (request_member "run" other_request [] key)).
Proof.
  split.
  - eapply (canonicalize_exact "run" sample_request [] respelled_request []);
      [constructor|constructor|vm_compute; reflexivity|vm_compute; reflexivity|reflexivity].
  - intros H. eapply (canonicalize_exact "run" sample_request [] other_request []) in H;
      [|constructor|constructor|vm_compute; reflexivity|vm_compute; reflexivity]. discriminate H.
Defined.

Lemma canonicalize_idempotent_witness :
  exists c, CanonicalizeMutationRequestJSON "run" sample_request [] = Ok c /\ CanonicalizeMutationRequestJSON "run" c [] = Ok c.
Proof.
  eexists. split; [vm_compute; reflexivity|].
  apply (canonicalize_idempotent "run" sample_request []); [vm_compute; reflexivity|vm_compute; discriminate].
Defined.
