(* ===== verification/LaneAdmission.v ===== *)
(** * The lane admission gate

    Models [src/src/internal/laneadmission/state.go]: the host-local V3 ingress
    gate.  A [State] remembers the highest accepted epoch and its identity, the
    active and the pending candidate context and the migration fence.  The
    methods with a pointer receiver return the new state; a state that a failing
    method has half written is dropped by every caller in the repository, so an
    error carries none. *)
From Stdlib Require Import Ascii String.
From S2P Require Import Prelude GoStrings.

Inductive Lane : Type := LaneDev | LaneQAS | LanePRD | LaneOther (value : string).
Inductive HostID : Type :=
  | HostMacControlPlane | HostLinux | HostSandbox | HostFactory | HostOther (value : string).
Inductive Role : Type :=
  | RoleActiveRuntimeClosure | RoleCandidateAdmission | RoleOther (value : string).
Inductive Phase : Type := PhaseClosed | PhaseTransportReady | PhaseOpen | PhaseOther (value : string).
Inductive FenceState : Type :=
  | FenceFencing | FenceFenced | FenceAborting | FenceAborted | FenceOther (value : string).

#[export] Instance Lane_eq_dec : EqDecision Lane. Proof. solve_decision. Defined.
#[export] Instance HostID_eq_dec : EqDecision HostID. Proof. solve_decision. Defined.
#[export] Instance Role_eq_dec : EqDecision Role. Proof. solve_decision. Defined.
#[export] Instance Phase_eq_dec : EqDecision Phase. Proof. solve_decision. Defined.
#[export] Instance FenceState_eq_dec : EqDecision FenceState. Proof. solve_decision. Defined.

Record Identity : Type := mkIdentity {
  id_Lane : Lane;
  id_HostID : HostID;
  id_TransitionID : string;
  id_CandidateManifestID : string;
  id_ConfigurationDigest : string;
  id_Role : Role;
  id_Epoch : Z
}.
#[export] Instance Identity_eq_dec : EqDecision Identity. Proof. solve_decision. Defined.

Record AdmissionContext : Type := mkContext { ctx_Identity : Identity; ctx_Phase : Phase }.
#[export] Instance AdmissionContext_eq_dec : EqDecision AdmissionContext. Proof. solve_decision. Defined.

Record MigrationFence : Type := mkFence { fence_TransitionID : string; fence_State : FenceState }.
#[export] Instance MigrationFence_eq_dec : EqDecision MigrationFence. Proof. solve_decision. Defined.

Record State : Type := mkState {
  st_Enabled : bool;
  st_Lane : Lane;
  st_HostID : HostID;
  st_HighWaterEpoch : Z;
  st_LastIdentity : option Identity;
  st_Active : option AdmissionContext;
  st_Pending : option AdmissionContext;
  st_MigrationFence : option MigrationFence
}.
#[export] Instance State_eq_dec : EqDecision State. Proof. solve_decision. Defined.

(** ** The bounded vocabularies *)
Definition validLane (value : Lane) : bool := match value with LaneOther _ => false | _ => true end.
Definition validHost (value : HostID) : bool := match value with HostOther _ => false | _ => true end.
Definition validPhase (value : Phase) : bool := match value with PhaseOther _ => false | _ => true end.
Definition validFenceState (value : FenceState) : bool :=
  match value with FenceOther _ => false | _ => true end.

Definition is_decimal_digit (b : Z) : bool := in_range 48 57 b.
Definition is_lower (b : Z) : bool := in_range 97 122 b.
Definition is_upper (b : Z) : bool := in_range 65 90 b.
(** [[A-Za-z0-9._:-]] *)
Definition id_byte (b : Z) : bool :=
  is_upper b || is_lower b || is_decimal_digit b || (b =? 46) || (b =? 95) || (b =? 58) || (b =? 45).

(** [idPattern], [^[A-Za-z0-9][A-Za-z0-9._:-]{0,127}$] *)
Definition validID (value : string) : bool :=
  match bytes_of value with
  | [] => false
  | b :: rest =>
      (is_upper b || is_lower b || is_decimal_digit b) && forallb id_byte rest
      && (Z.of_nat (length rest) <=? 127)
  end.

(** [digestPattern], [^sha256:[0-9a-f]{64}$] *)
Definition validDigest (value : string) : bool :=
  String.prefix "sha256:" value &&
  let hex := drop 7 (bytes_of value) in
  forallb (fun b => is_decimal_digit b || in_range 97 102 b) hex && (Z.of_nat (length hex) =? 64).

Definition sameIdentity (left right : Identity) : bool := bool_decide (left = right).

Definition validateIdentity (identity : Identity) : result unit :=
  if negb (validLane (id_Lane identity)) || negb (validHost (id_HostID identity))
     || negb (validID (id_TransitionID identity)) || negb (validID (id_CandidateManifestID identity))
     || negb (validDigest (id_ConfigurationDigest identity)) || (id_Epoch identity =? 0)
     || (negb (bool_decide (id_Role identity = RoleActiveRuntimeClosure))
         && negb (bool_decide (id_Role identity = RoleCandidateAdmission)))
  then Err ErrInvalidIdentity else Ok tt.

Definition State_validateContext (s : State) (value : AdmissionContext) : result unit :=
  if negb (result_is_ok (validateIdentity (ctx_Identity value)))
     || negb (bool_decide (id_Lane (ctx_Identity value) = st_Lane s))
     || negb (bool_decide (id_HostID (ctx_Identity value) = st_HostID s))
     || (st_HighWaterEpoch s <? id_Epoch (ctx_Identity value))
  then Err ErrInvalidState
  else match id_Role (ctx_Identity value) with
       | RoleActiveRuntimeClosure =>
           if negb (bool_decide (ctx_Phase value = PhaseClosed)) then Err ErrInvalidState else Ok tt
       | RoleCandidateAdmission =>
           if negb (validPhase (ctx_Phase value)) then Err ErrInvalidState else Ok tt
       | RoleOther _ => Ok tt
       end.

Definition is_Some_b {A} (o : option A) : bool := match o with Some _ => true | None => false end.
Definition is_role (r : Role) (c : AdmissionContext) : bool := bool_decide (id_Role (ctx_Identity c) = r).
Definition in_phase (p : Phase) (c : AdmissionContext) : bool := bool_decide (ctx_Phase c = p).

(** [State.Validate] *)
Definition State_Validate (s : State) : result unit :=
  if negb (st_Enabled s) then
    if negb (bool_decide (st_Lane s = LaneOther "")) || negb (bool_decide (st_HostID s = HostOther ""))
       || negb (st_HighWaterEpoch s =? 0) || is_Some_b (st_LastIdentity s) || is_Some_b (st_Active s)
       || is_Some_b (st_Pending s) || is_Some_b (st_MigrationFence s)
    then Err ErrInvalidState else Ok tt
  else
  refuse_if (negb (validLane (st_Lane s)) || negb (validHost (st_HostID s))) ErrInvalidState;;
  refuse_if (negb (Bool.eqb (st_HighWaterEpoch s =? 0) (negb (is_Some_b (st_LastIdentity s)))))
    ErrInvalidState;;
  refuse_if (match st_LastIdentity s with
             | Some last =>
                 negb (result_is_ok (validateIdentity last)) || negb (bool_decide (id_Lane last = st_Lane s))
                 || negb (bool_decide (id_HostID last = st_HostID s))
                 || negb (id_Epoch last =? st_HighWaterEpoch s)
             | None => false
             end) ErrInvalidState;;
  refuse_if (match st_Active s with
             | Some active =>
                 negb (result_is_ok (State_validateContext s active))
                 || (is_role RoleCandidateAdmission active && negb (validPhase (ctx_Phase active)))
                 || (is_role RoleActiveRuntimeClosure active && negb (in_phase PhaseClosed active))
             | None => false
             end) ErrInvalidState;;
  refuse_if (match st_Pending s with
             | Some pending =>
                 negb (result_is_ok (State_validateContext s pending))
                 || negb (is_role RoleCandidateAdmission pending) || negb (in_phase PhaseClosed pending)
             | None => false
             end) ErrInvalidState;;
  refuse_if (match st_LastIdentity s with
             | Some last =>
                 negb (match st_Active s with
                       | Some active => sameIdentity last (ctx_Identity active) | None => false end
                       || match st_Pending s with
                          | Some pending => sameIdentity last (ctx_Identity pending) | None => false end)
             | None => false
             end) ErrInvalidState;;
  refuse_if (match st_Pending s, st_Active s with
             | Some pending, Some active =>
                 id_Epoch (ctx_Identity pending) <=? id_Epoch (ctx_Identity active)
             | _, _ => false
             end) ErrInvalidState;;
  refuse_if (match st_MigrationFence s with
             | Some fence => negb (validID (fence_TransitionID fence)) || negb (validFenceState (fence_State fence))
             | None => false
             end) ErrInvalidState.

Definition State_valid (s : State) : bool := result_is_ok (State_Validate s).

(** [return s.Validate()] at the end of a method *)
Definition validated (s : State) : result State := State_Validate s;; Ok s.

Definition NewState (lane : Lane) (host : HostID) : result State :=
  validated (mkState true lane host 0 None None None None).

Definition with_Active (s : State) (c : option AdmissionContext) : State :=
  mkState (st_Enabled s) (st_Lane s) (st_HostID s) (st_HighWaterEpoch s) (st_LastIdentity s) c
    (st_Pending s) (st_MigrationFence s).
Definition with_Pending (s : State) (c : option AdmissionContext) : State :=
  mkState (st_Enabled s) (st_Lane s) (st_HostID s) (st_HighWaterEpoch s) (st_LastIdentity s)
    (st_Active s) c (st_MigrationFence s).
Definition with_Fence (s : State) (f : option MigrationFence) : State :=
  mkState (st_Enabled s) (st_Lane s) (st_HostID s) (st_HighWaterEpoch s) (st_LastIdentity s)
    (st_Active s) (st_Pending s) f.

(** The epoch is the current one, but it is bound to another identity. *)
Definition epoch_switch (s : State) (identity : Identity) : bool :=
  (id_Epoch identity =? st_HighWaterEpoch s)
  && match st_LastIdentity s with Some last => negb (sameIdentity last identity) | None => false end.

Definition State_acceptEpoch (s : State) (identity : Identity) : result State :=
  if id_Epoch identity <=? st_HighWaterEpoch s then
    if epoch_switch s identity then Err ErrEpochIdentitySwitch else Err ErrStaleEpoch
  else Ok (mkState (st_Enabled s) (st_Lane s) (st_HostID s) (id_Epoch identity) (Some identity)
             (st_Active s) (st_Pending s) (st_MigrationFence s)).

(** The guard the four directive methods share. *)
Definition admissible_identity (s : State) (role : Role) (identity : Identity) : bool :=
  State_valid s && st_Enabled s && bool_decide (id_Role identity = role)
  && result_is_ok (validateIdentity identity) && bool_decide (id_Lane identity = st_Lane s)
  && bool_decide (id_HostID identity = st_HostID s).

Definition is_identity (identity : Identity) (c : option AdmissionContext) : bool :=
  match c with Some c => sameIdentity (ctx_Identity c) identity | None => false end.

(** The incumbent is still open for anything but a closed closure. *)
Definition not_closed_closure (c : option AdmissionContext) : bool :=
  match c with
  | Some c => negb (is_role RoleActiveRuntimeClosure c) || negb (in_phase PhaseClosed c)
  | None => false
  end.

Definition PrepareCandidate (s : State) (identity : Identity) : result State :=
  if negb (admissible_identity s RoleCandidateAdmission identity) then Err ErrInvalidIdentity
  else if epoch_switch s identity then Err ErrEpochIdentitySwitch
  else if is_identity identity (st_Pending s) then Ok s
  else if negb (is_Some_b (st_Pending s)) && is_identity identity (st_Active s) then Ok s
  else if id_Epoch identity <? st_HighWaterEpoch s then Err ErrStaleEpoch
  else if is_Some_b (st_MigrationFence s) || is_Some_b (st_Pending s) || not_closed_closure (st_Active s)
  then Err ErrInvalidTransition
  else
    s' ← State_acceptEpoch s identity;
    validated (with_Pending s' (Some (mkContext identity PhaseClosed))).

Definition BeginActiveRuntimeClosure (s : State) (identity : Identity) : result State :=
  if negb (admissible_identity s RoleActiveRuntimeClosure identity) then Err ErrInvalidIdentity
  else if match st_Active s with
          | Some active => is_role RoleActiveRuntimeClosure active && sameIdentity (ctx_Identity active) identity
          | None => false
          end then Ok s
  else if is_Some_b (st_MigrationFence s) || is_Some_b (st_Pending s)
          || match st_Active s with
             | None => true
             | Some active =>
                 negb (is_role RoleCandidateAdmission active)
                 || negb (bool_decide (id_CandidateManifestID (ctx_Identity active) = id_CandidateManifestID identity))
                 || negb (bool_decide (id_ConfigurationDigest (ctx_Identity active) = id_ConfigurationDigest identity))
             end
  then Err ErrInvalidTransition
  else
    s' ← State_acceptEpoch s identity;
    validated (with_Active s' (Some (mkContext identity PhaseClosed))).

Definition SwitchPendingToActive (s : State) : result State :=
  if negb (State_valid s) || negb (st_Enabled s) || is_Some_b (st_MigrationFence s)
  then Err ErrInvalidTransition
  else match st_Pending s with
  | None => Err ErrInvalidTransition
  | Some pending =>
      if negb (in_phase PhaseClosed pending) then Err ErrInvalidTransition
      else if not_closed_closure (st_Active s) then Err ErrInvalidTransition
      else validated (with_Pending (with_Active s (Some pending)) None)
  end.

(** [AdvanceCandidate]; [target] points at [s.Pending] or at [s.Active], and
    writing its phase writes that context. *)
Definition AdvanceCandidate (s : State) (identity : Identity) (next : Phase) : result State :=
  if negb (admissible_identity s RoleCandidateAdmission identity) || negb (validPhase next)
  then Err ErrInvalidIdentity
  else if is_Some_b (st_MigrationFence s) then Err ErrAdmissionClosed
  else
    let target_is_pending := is_identity identity (st_Pending s) in
    let target := if target_is_pending then st_Pending s
                  else if is_identity identity (st_Active s) then st_Active s else None in
    match target with
    | None => if epoch_switch s identity then Err ErrEpochIdentitySwitch else Err ErrStaleEpoch
    | Some t =>
        if bool_decide (ctx_Phase t = next) then Ok s
        else if target_is_pending && negb (bool_decide (next = PhaseClosed)) then Err ErrInvalidTransition
        else if (in_phase PhaseClosed t && bool_decide (next = PhaseTransportReady))
                || (in_phase PhaseTransportReady t && bool_decide (next = PhaseOpen))
        then let t' := Some (mkContext (ctx_Identity t) next) in
             validated (if target_is_pending then with_Pending s t' else with_Active s t')
        else Err ErrInvalidTransition
    end.

Definition BeginMigrationFence (s : State) (transitionID : string) : result State :=
  if negb (State_valid s) || negb (st_Enabled s) || negb (validID transitionID)
     || is_Some_b (st_Pending s) || not_closed_closure (st_Active s)
  then Err ErrInvalidTransition
  else if match st_Active s with
          | Some active => negb (bool_decide (id_TransitionID (ctx_Identity active) = transitionID))
          | None => false
          end then Err ErrInvalidTransition
  else match st_MigrationFence s with
  | Some fence =>
      if bool_decide (fence_TransitionID fence = transitionID)
         && bool_decide (fence_State fence = FenceFencing)
      then Ok s else Err ErrInvalidTransition
  | None => validated (with_Fence s (Some (mkFence transitionID FenceFencing)))
  end.

Definition fence_allowed (current next : FenceState) : bool :=
  match current, next with
  | FenceFencing, FenceFenced | FenceFencing, FenceAborting
  | FenceFenced, FenceAborting | FenceAborting, FenceAborted => true
  | _, _ => false
  end.

Definition AdvanceMigrationFence (s : State) (transitionID : string) (next : FenceState) : result State :=
  if negb (State_valid s) || negb (st_Enabled s) then Err ErrInvalidTransition
  else match st_MigrationFence s with
  | None => Err ErrInvalidTransition
  | Some fence =>
      if negb (bool_decide (fence_TransitionID fence = transitionID)) then Err ErrInvalidTransition
      else if bool_decide (fence_State fence = next) then Ok s
      else if negb (fence_allowed (fence_State fence) next) then Err ErrInvalidTransition
      else validated (with_Fence s (Some (mkFence (fence_TransitionID fence) next)))
  end.

Definition AllowsMutation (s : State) : bool :=
  negb (st_Enabled s) ||
  (State_valid s && negb (is_Some_b (st_MigrationFence s)) &&
   match st_Active s with
   | Some active => is_role RoleCandidateAdmission active && in_phase PhaseOpen active
   | None => false
   end).

(** ** The gate as a transition system *)
Inductive lane_step : State -> State -> Prop :=
  | step_prepare s s' identity : PrepareCandidate s identity = Ok s' -> lane_step s s'
  | step_closure s s' identity : BeginActiveRuntimeClosure s identity = Ok s' -> lane_step s s'
  | step_switch s s' : SwitchPendingToActive s = Ok s' -> lane_step s s'
  | step_advance s s' identity next : AdvanceCandidate s identity next = Ok s' -> lane_step s s'
  | step_fence s s' transitionID : BeginMigrationFence s transitionID = Ok s' -> lane_step s s'
  | step_fence_advance s s' transitionID next :
      AdvanceMigrationFence s transitionID next = Ok s' -> lane_step s s'.

(** What a step can do to a valid state: nothing, stage a candidate or a
    closure under a fresh epoch, move the pointer, advance a phase, or set the
    fence. *)
Inductive lane_effect (s : State) : State -> Prop :=
  | eff_none : lane_effect s s
  | eff_stage identity :
      st_HighWaterEpoch s < id_Epoch identity -> st_MigrationFence s = None -> st_Pending s = None ->
      lane_effect s (mkState (st_Enabled s) (st_Lane s) (st_HostID s) (id_Epoch identity) (Some identity)
        (st_Active s) (Some (mkContext identity PhaseClosed)) (st_MigrationFence s))
  | eff_close identity :
      st_HighWaterEpoch s < id_Epoch identity -> st_MigrationFence s = None ->
      id_Role identity = RoleActiveRuntimeClosure ->
      lane_effect s (mkState (st_Enabled s) (st_Lane s) (st_HostID s) (id_Epoch identity) (Some identity)
        (Some (mkContext identity PhaseClosed)) (st_Pending s) (st_MigrationFence s))
  | eff_switch pending :
      st_Pending s = Some pending -> ctx_Phase pending = PhaseClosed -> st_MigrationFence s = None ->
      lane_effect s (with_Pending (with_Active s (Some pending)) None)
  | eff_pending_phase pending next :
      st_Pending s = Some pending -> st_MigrationFence s = None -> next = PhaseClosed ->
      lane_effect s (with_Pending s (Some (mkContext (ctx_Identity pending) next)))
  | eff_active_phase active next :
      st_Active s = Some active -> st_MigrationFence s = None ->
      (ctx_Phase active = PhaseClosed /\ next = PhaseTransportReady \/
       ctx_Phase active = PhaseTransportReady /\ next = PhaseOpen) ->
      lane_effect s (with_Active s (Some (mkContext (ctx_Identity active) next)))
  | eff_fence fence : lane_effect s (with_Fence s (Some fence)).

Lemma validated_Ok s s' : validated s = Ok s' <-> s' = s /\ State_valid s = true.
Proof.
  unfold validated, State_valid. destruct (State_Validate s) as [[]|]; simpl; naive_solver.
Qed.

Lemma acceptEpoch_Ok s identity s' :
  State_acceptEpoch s identity = Ok s' <->
  st_HighWaterEpoch s < id_Epoch identity /\
  s' = mkState (st_Enabled s) (st_Lane s) (st_HostID s) (id_Epoch identity) (Some identity)
         (st_Active s) (st_Pending s) (st_MigrationFence s).
Proof.
  unfold State_acceptEpoch. destruct (Z.leb_spec (id_Epoch identity) (st_HighWaterEpoch s)).
  - destruct (epoch_switch s identity); naive_solver lia.
  - naive_solver.
Qed.

Lemma is_Some_b_false {A} (o : option A) : is_Some_b o = false <-> o = None.
Proof. destruct o; naive_solver. Qed.

Lemma is_identity_true identity c :
  is_identity identity c = true -> exists x, c = Some x /\ ctx_Identity x = identity.
Proof. destruct c; simpl; [|done]. unfold sameIdentity. intros. bool_norm. eauto. Qed.

Lemma admissible_valid s role identity :
  admissible_identity s role identity = true -> State_valid s = true /\ id_Role identity = role.
Proof. unfold admissible_identity. intros. bool_norm. done. Qed.

Lemma PrepareCandidate_effect s identity s' :
  PrepareCandidate s identity = Ok s' -> State_valid s' = true /\ lane_effect s s'.
Proof.
  unfold PrepareCandidate. destruct (admissible_identity _ _ _) eqn:Hadm; [|done]. simpl.
  apply admissible_valid in Hadm as [Hv _]. destruct (epoch_switch s identity); [done|].
  destruct (is_identity identity (st_Pending s)); [intros [= <-]; eauto using lane_effect|].
  destruct (_ && is_identity _ _); [intros [= <-]; eauto using lane_effect|].
  destruct (_ <? _); [done|]. destruct (_ || _ || _) eqn:Hg; [done|].
  bool_norm. rewrite !is_Some_b_false in *.
  intros (a & [Hlt ->]%acceptEpoch_Ok & [-> Hv']%validated_Ok)%result_bind_Ok.
  split; [done|]. by refine (eff_stage s identity _ _ _).
Qed.

Lemma BeginActiveRuntimeClosure_effect s identity s' :
  BeginActiveRuntimeClosure s identity = Ok s' -> State_valid s' = true /\ lane_effect s s'.
Proof.
  unfold BeginActiveRuntimeClosure. destruct (admissible_identity _ _ _) eqn:Hadm; [|done]. simpl.
  apply admissible_valid in Hadm as [Hv Hrole].
  destruct (match st_Active s with Some _ => _ | None => _ end);
    [intros [= <-]; eauto using lane_effect|].
  destruct (_ || _ || _) eqn:Hg; [done|]. bool_norm. rewrite !is_Some_b_false in *.
  intros (a & [Hlt ->]%acceptEpoch_Ok & [-> Hv']%validated_Ok)%result_bind_Ok.
  split; [done|]. by refine (eff_close s identity _ _ _).
Qed.

Lemma SwitchPendingToActive_effect s s' :
  SwitchPendingToActive s = Ok s' -> State_valid s' = true /\ lane_effect s s'.
Proof.
  unfold SwitchPendingToActive. destruct (_ || _ || _) eqn:Hg; [done|].
  bool_norm. rewrite !is_Some_b_false in *. destruct (st_Pending s) as [p|] eqn:Hp; [|done].
  unfold in_phase. case_bool_decide; simpl; [|done]. destruct (not_closed_closure _); [done|].
  intros [-> Hv]%validated_Ok. split; [done|]. by refine (eff_switch s p _ _ _).
Qed.

Lemma AdvanceCandidate_effect s identity next s' :
  AdvanceCandidate s identity next = Ok s' -> State_valid s' = true /\ lane_effect s s'.
Proof.
  unfold AdvanceCandidate. destruct (_ || _) eqn:Hadm; [done|]. bool_norm.
  apply admissible_valid in H as [Hv _]. destruct (is_Some_b _) eqn:Hf; [done|].
  apply is_Some_b_false in Hf. cbv zeta.
  destruct (is_identity identity (st_Pending s)) eqn:Hp.
  - apply is_identity_true in Hp as (t & Ht & <-). rewrite Ht. unfold in_phase.
    case_bool_decide; [intros [= <-]; eauto using lane_effect|]. simpl.
    case_bool_decide; simpl; [|done]. subst. destruct (_ || _); [|done].
    intros [-> Hv']%validated_Ok. split; [done|]. by refine (eff_pending_phase s t _ _ _ _).
  - simpl. destruct (is_identity identity (st_Active s)) eqn:Ha; [|by destruct (epoch_switch _ _)].
    apply is_identity_true in Ha as (t & Ht & <-). rewrite Ht. unfold in_phase.
    case_bool_decide; [intros [= <-]; eauto using lane_effect|].
    destruct (_ || _) eqn:Hphase; [|done]. intros [-> Hv']%validated_Ok. split; [done|].
    refine (eff_active_phase s t _ _ _ _); [done..|]. apply orb_true_iff in Hphase as [?|?]; bool_norm; auto.
Qed.

Lemma fence_effect s s' transitionID :
  BeginMigrationFence s transitionID = Ok s' -> State_valid s' = true /\ lane_effect s s'.
Proof.
  unfold BeginMigrationFence. destruct (_ || _ || _ || _ || _) eqn:Hg; [done|]. bool_norm.
  destruct (match st_Active s with Some _ => _ | None => _ end); [done|].
  destruct (st_MigrationFence s) as [f|] eqn:Hf.
  - destruct (_ && _); [intros [= <-]|done]. eauto using lane_effect.
  - intros [-> Hv]%validated_Ok. eauto using lane_effect.
Qed.

Lemma fence_advance_effect s s' transitionID next :
  AdvanceMigrationFence s transitionID next = Ok s' -> State_valid s' = true /\ lane_effect s s'.
Proof.
  unfold AdvanceMigrationFence. destruct (_ || _) eqn:Hg; [done|]. bool_norm.
  destruct (st_MigrationFence s) as [f|] eqn:Hf; [|done].
  case_bool_decide; [|done]. simpl. case_bool_decide; [intros [= <-]; eauto using lane_effect|].
  destruct (fence_allowed _ _); [|done]. intros [-> Hv]%validated_Ok. eauto using lane_effect.
Qed.

Lemma lane_step_effect s s' : lane_step s s' -> State_valid s' = true /\ lane_effect s s'.
Proof.
  destruct 1; eauto using PrepareCandidate_effect, BeginActiveRuntimeClosure_effect,
    SwitchPendingToActive_effect, AdvanceCandidate_effect, fence_effect, fence_advance_effect.
Qed.

(** A reachable state: any number of steps from a fresh, configured gate. *)
Definition lane_reachable (s : State) : Prop :=
  exists lane host s0, NewState lane host = Ok s0 /\ rtc lane_step s0 s.

Lemma lane_valid_steps s s' : State_valid s = true -> rtc lane_step s s' -> State_valid s' = true.
Proof. intros Hv. induction 1 as [|s1 s2 s3 H]; [done|]. apply lane_step_effect in H as []. auto. Qed.

Lemma validateContext_epoch s c u :
  State_validateContext s c = Ok u -> id_Epoch (ctx_Identity c) <= st_HighWaterEpoch s.
Proof. unfold State_validateContext. destruct (_ || _) eqn:E; [done|]. intros _. bool_norm. lia. Qed.

Lemma valid_active_epoch s a :
  State_valid s = true -> st_Enabled s = true -> st_Active s = Some a ->
  id_Epoch (ctx_Identity a) <= st_HighWaterEpoch s.
Proof.
  unfold State_valid, State_Validate. intros Hv He Ha. rewrite He in Hv. simpl in Hv.
  destruct (_;; _) as [u|] eqn:E in Hv; [|done]. clear Hv. tx_inv E. rewrite Ha in *. bool_norm.
  destruct (State_validateContext s a) eqn:Hc; [|done]. by eapply validateContext_epoch.
Qed.

Lemma valid_disabled_active s a : State_valid s = true -> st_Enabled s = false -> st_Active s = Some a -> False.
Proof.
  unfold State_valid, State_Validate. intros Hv He Ha. rewrite He in Hv. simpl in Hv. rewrite Ha in Hv. simpl in Hv.
  by rewrite !orb_true_r in Hv.
Qed.

Lemma valid_active_epoch' s a :
  State_valid s = true -> st_Active s = Some a -> id_Epoch (ctx_Identity a) <= st_HighWaterEpoch s.
Proof.
  intros Hv Ha. destruct (st_Enabled s) eqn:He; [by apply valid_active_epoch|].
  by destruct (valid_disabled_active s a).
Qed.

Lemma valid_pending_newer s a p :
  State_valid s = true -> st_Active s = Some a -> st_Pending s = Some p ->
  id_Epoch (ctx_Identity a) < id_Epoch (ctx_Identity p).
Proof.
  intros Hv Ha Hp. destruct (st_Enabled s) eqn:He; [|by destruct (valid_disabled_active s a)].
  unfold State_valid, State_Validate in Hv. rewrite He in Hv. simpl in Hv. destruct (_;; _) as [u|] eqn:E in Hv; [|done]. tx_inv E. rewrite Ha, Hp in *. bool_norm. lia.
Qed.

(** The active context is kept, or replaced under a strictly larger epoch. *)
Definition active_newer (s s' : State) : Prop :=
  forall a, st_Active s = Some a -> exists a', st_Active s' = Some a' /\
    (ctx_Identity a' = ctx_Identity a \/ id_Epoch (ctx_Identity a) < id_Epoch (ctx_Identity a')).

#[export] Instance active_newer_refl : Reflexive active_newer.
Proof. intros s a Ha. eauto. Qed.
#[export] Instance active_newer_trans : Transitive active_newer.
Proof.
  intros s1 s2 s3 H1 H2 a Ha. destruct (H1 a Ha) as (a' & Ha' & Hr).
  destruct (H2 a' Ha') as (a'' & Ha'' & Hr'). exists a''. split; [done|].
  destruct Hr as [Hr|Hr], Hr' as [Hr'|Hr']; [left; congruence|right; by rewrite <- Hr|right; by rewrite Hr'|right; lia].
Qed.

Lemma lane_effect_active s s' : State_valid s = true -> lane_effect s s' -> active_newer s s'.
Proof.
  intros Hv. destruct 1 as [|i Hlt|i Hlt ? ?|p Hp|p n Hp|a n Ha|f]; intros a0 Ha0; simpl; eauto.
  - eexists. split; [done|]. right. simpl. pose proof (valid_active_epoch' s a0 Hv Ha0). lia.
  - eexists. split; [done|]. right. by apply (valid_pending_newer s).
  - rewrite Ha0 in Ha. injection Ha as <-. eauto.
Qed.

Definition epoch_bound (s s' : State) : Prop :=
  st_HighWaterEpoch s <= st_HighWaterEpoch s' /\
  (st_HighWaterEpoch s = st_HighWaterEpoch s' -> st_LastIdentity s = st_LastIdentity s').

#[export] Instance epoch_bound_trans : Transitive epoch_bound.
Proof. intros s1 s2 s3 [H1 H2] [H3 H4]. split; [lia|]. intros. rewrite H2, H4 by lia. done. Qed.

Lemma lane_effect_epoch s s' : lane_effect s s' -> epoch_bound s s'.
Proof. destruct 1; split; simpl; auto; lia. Qed.

Lemma lane_effect_fence s s' : lane_effect s s' -> is_Some (st_MigrationFence s) -> is_Some (st_MigrationFence s').
Proof. destruct 1; simpl; eauto. Qed.

Lemma AllowsMutation_valid s :
  st_Enabled s = true -> AllowsMutation s = true <->
  State_valid s = true /\ st_MigrationFence s = None /\
  exists a, st_Active s = Some a /\ id_Role (ctx_Identity a) = RoleCandidateAdmission /\ ctx_Phase a = PhaseOpen.
Proof.
  intros He. unfold AllowsMutation, is_role, in_phase. rewrite He. simpl.
  rewrite !andb_true_iff, negb_true_iff, is_Some_b_false. destruct (st_Active s) as [a|].
  - rewrite andb_true_iff, !bool_decide_eq_true. naive_solver.
  - naive_solver.
Qed.

Lemma NewState_Ok lane host s :
  NewState lane host = Ok s -> s = mkState true lane host 0 None None None None /\ State_valid s = true.
Proof. intros [-> ?]%validated_Ok. done. Qed.

Lemma lane_effect_enabled s s' : lane_effect s s' -> st_Enabled s' = st_Enabled s.
Proof. by destruct 1. Qed.

Lemma lane_enabled_steps s s' : rtc lane_step s s' -> st_Enabled s' = st_Enabled s.
Proof.
  induction 1 as [|s1 s2 s3 H _ IH]; [done|]. rewrite IH. apply lane_effect_enabled, lane_step_effect, H.
Qed.

Lemma lane_reachable_inv s : lane_reachable s -> State_valid s = true /\ st_Enabled s = true.
Proof.
  intros (l & h & s0 & [-> Hv]%NewState_Ok & Hsteps). split; [by eapply lane_valid_steps|].
  by rewrite (lane_enabled_steps _ _ Hsteps).
Qed.

(** ** Theorems *)

(** The epoch of a lane gate never goes back, and as long as it does not
    move it stays bound to one identity: no sequence of directives rebinds an
    accepted epoch to another candidate, configuration or role. *)
Theorem lane_epoch_monotone s s' :
  rtc lane_step s s' ->
  st_HighWaterEpoch s <= st_HighWaterEpoch s' /\
  (st_HighWaterEpoch s = st_HighWaterEpoch s' -> st_LastIdentity s = st_LastIdentity s').
Proof.
  induction 1 as [|s1 s2 s3 H]; [done|]. apply lane_step_effect in H as [_ H%lane_effect_epoch].
  by apply (epoch_bound_trans _ s2).
Qed.

(** Whenever a reachable gate with an active context moves on to a state
    with another active identity, that identity has a strictly larger epoch: a
    replaced candidate or closure never comes back. *)
Theorem lane_active_epoch_increases s s' a a' :
  lane_reachable s -> rtc lane_step s s' -> st_Active s = Some a -> st_Active s' = Some a' ->
  ctx_Identity a <> ctx_Identity a' -> id_Epoch (ctx_Identity a) < id_Epoch (ctx_Identity a').
Proof.
  intros [Hv _]%lane_reachable_inv Hsteps Ha Ha' Hne. assert (active_newer s s') as Hnew.
  { clear Ha Ha' Hne. induction Hsteps as [|s1 s2 s3 H1 H2 IH]; [done|].
    apply lane_step_effect in H1 as [Hv2 He]. etrans; [by apply lane_effect_active|auto]. }
  destruct (Hnew a Ha) as (a'' & Ha'' & [Heq|?]); rewrite Ha' in Ha''; injection Ha'' as <-;
    [by destruct Hne|done].
Qed.

(** The migration fence is one way: once a gate is fenced, no sequence of
    directives lets a mutation through again. *)
Theorem lane_fence_permanent s s' :
  lane_reachable s -> is_Some (st_MigrationFence s) -> rtc lane_step s s' -> AllowsMutation s' = false.
Proof.
  intros Hr Hf Hsteps. assert (is_Some (st_MigrationFence s')) as [f Hf'].
  { clear Hr. induction Hsteps as [|s1 s2 s3 H]; [done|].
    apply lane_step_effect in H as [_ He]. eauto using lane_effect_fence. }
  assert (lane_reachable s') as [_ He]%lane_reachable_inv.
  { destruct Hr as (l & h & s0 & ? & ?). exists l, h, s0. split; [done|]. by etrans. }
  unfold AllowsMutation. rewrite He, Hf'. simpl. by rewrite andb_false_r.
Qed.

(** The gate opens in one way only: a directive that turns a closed gate
    into an open one advances the unfenced active candidate from
    [transport_ready] to [open], and keeps its identity. *)
Theorem lane_opens_by_advance s s' :
  lane_reachable s -> lane_step s s' -> AllowsMutation s = false -> AllowsMutation s' = true ->
  exists a, st_Active s = Some a /\ ctx_Phase a = PhaseTransportReady /\ st_MigrationFence s = None /\
    id_Role (ctx_Identity a) = RoleCandidateAdmission /\
    st_Active s' = Some (mkContext (ctx_Identity a) PhaseOpen).
Proof.
  intros [Hv He]%lane_reachable_inv [Hv' Heff]%lane_step_effect Hclosed Hopen.
  assert (st_Enabled s' = true) as He' by (rewrite <- He; by apply lane_effect_enabled).
  apply AllowsMutation_valid in Hopen as (_ & Hf & a & Ha & Hrole & Hphase); [|done].
  assert (~ (st_MigrationFence s = None /\ st_Active s = Some a)) as Hn.
  { intros [? ?]. apply not_true_iff_false in Hclosed. apply Hclosed.
    apply AllowsMutation_valid; [done|]. split_and!; eauto. }
  destruct Heff as [|i Hlt|i Hlt ? ?|p Hp|p n Hp|a0 n Ha0 Hf0 Hn0|f]; simpl in *; simplify_eq; try (tauto || congruence).
  destruct Hn0 as [[? ->]|[? ->]]; [done|]. by exists a0.
Qed.

Definition example_identity (role : Role) (epoch : Z) : Identity :=
  mkIdentity LaneDev HostLinux "t-1" "m-1"
    "sha256:0000000000000000000000000000000000000000000000000000000000000000" role epoch.
Definition example_candidate : Identity := example_identity RoleCandidateAdmission 1.
Definition example_closure : Identity := example_identity RoleActiveRuntimeClosure 2.
Definition example_gate (phase : Phase) : State :=
  mkState true LaneDev HostLinux 1 (Some example_candidate) (Some (mkContext example_candidate phase)) None None.
Definition example_closed_gate (fence : option MigrationFence) : State :=
  mkState true LaneDev HostLinux 2 (Some example_closure) (Some (mkContext example_closure PhaseClosed)) None fence.

Lemma example_gate_reachable : lane_reachable (example_gate PhaseTransportReady).
Proof.
  exists LaneDev, HostLinux, (mkState true LaneDev HostLinux 0 None None None None). split; [reflexivity|].
  eapply rtc_l; [by apply (step_prepare _ _ example_candidate)|].
  eapply rtc_l; [by apply step_switch|].
  eapply rtc_l; [by apply (step_advance _ _ example_candidate PhaseTransportReady)|]. apply rtc_refl.
Qed.

Lemma lane_epoch_monotone_witness :
  1 <= 2 /\ (1 = 2 -> Some example_candidate = Some example_closure).
Proof.
  apply (lane_epoch_monotone (example_gate PhaseTransportReady) (example_closed_gate None)).
  apply rtc_once. by apply (step_closure _ _ example_closure).
Defined.

Lemma lane_active_epoch_increases_witness : 1 < 2.
Proof.
  apply (lane_active_epoch_increases (example_gate PhaseTransportReady) (example_closed_gate None)
    (mkContext example_candidate PhaseTransportReady) (mkContext example_closure PhaseClosed)).
  - apply example_gate_reachable.
  - apply rtc_once. by apply (step_closure _ _ example_closure).
  - reflexivity.
  - reflexivity.
  - discriminate.
Defined.

Lemma lane_fence_permanent_witness :
  AllowsMutation (example_closed_gate (Some (mkFence "t-1" FenceFenced))) = false.
Proof.
  apply (lane_fence_permanent (example_closed_gate (Some (mkFence "t-1" FenceFencing)))).
  - destruct example_gate_reachable as (l & h & s0 & H0 & Hsteps). exists l, h, s0. split; [exact H0|].
    eapply rtc_r; [eapply rtc_r; [exact Hsteps|by apply (step_closure _ (example_closed_gate None) example_closure)]|].
    by apply (step_fence _ _ "t-1").
  - eexists. reflexivity.
  - apply rtc_once. by apply (step_fence_advance _ _ "t-1" FenceFenced).
Defined.

Lemma lane_opens_by_advance_witness :
  exists a, st_Active (example_gate PhaseTransportReady) = Some a /\ ctx_Phase a = PhaseTransportReady /\
    st_MigrationFence (example_gate PhaseTransportReady) = None /\
    id_Role (ctx_Identity a) = RoleCandidateAdmission /\
    st_Active (example_gate PhaseOpen) = Some (mkContext (ctx_Identity a) PhaseOpen).
Proof.
  apply (lane_opens_by_advance (example_gate PhaseTransportReady) (example_gate PhaseOpen)).
  - apply example_gate_reachable.
  - by apply (step_advance _ _ example_candidate PhaseOpen).
  - reflexivity.
  - reflexivity.
Defined.
