(* ===== verification/AuditRecords.v ===== *)
(** * Audit records

    Models [src/src/internal/audit/audit.go]: the bounded authorization and
    action record, the mailbox selection attached to it and their validation.
    Storing a record is in AuditStore.v. *)
From S2P Require Import Prelude GoStrings Identity LaneAdmission.

Inductive Ingress : Type :=
  | IngressLocalUnix | IngressMailbox | IngressLocalWorker | IngressSSHBridge | IngressDirectMTLS
  | IngressInternal | IngressUnknown
  | IngressOther (value : string).
#[export] Instance Ingress_eq_dec : EqDecision Ingress. Proof. solve_decision. Defined.

Definition ValidIngress (ingress : Ingress) : bool :=
  match ingress with IngressOther _ => false | _ => true end.

Definition TrustedForAcceptance (ingress : Ingress) : bool :=
  negb (bool_decide (ingress = IngressUnknown)) && ValidIngress ingress.

(** The value a context carries under [ingressContextKey]. *)
Definition IngressFromContext (value : option Ingress) : Ingress :=
  match value with
  | Some (IngressOther "") | None => IngressInternal
  | Some ingress => ingress
  end.

Inductive Action : Type :=
  | ActionCreate | ActionSubmit | ActionCancel | ActionClose | ActionRun | ActionReadSession
  | ActionReadCommand | ActionReadJob | ActionRuntimeCleanup
  | ActionOther (value : string).
#[export] Instance Action_eq_dec : EqDecision Action. Proof. solve_decision. Defined.

Definition ActionForOperation (operation : string) : option Action :=
  if bool_decide (operation = "create_session") then Some ActionCreate
  else if bool_decide (operation = "submit_command") then Some ActionSubmit
  else if bool_decide (operation = "cancel_command") then Some ActionCancel
  else if bool_decide (operation = "close_session") then Some ActionClose
  else if bool_decide (operation = "run") then Some ActionRun
  else None.

Inductive Outcome : Type := OutcomeAllowed | OutcomeDenied | OutcomeFailed | OutcomeOther (value : string).
#[export] Instance Outcome_eq_dec : EqDecision Outcome. Proof. solve_decision. Defined.

Definition ReasonEnvironmentDenied : string := "environment_denied".
Definition ReasonPolicyDenied : string := "policy_denied".
Definition ReasonControllerDenied : string := "controller_denied".
Definition ReasonRuntimeCleanupUnconfirmed : string := "runtime_cleanup_unconfirmed".
Definition MailboxSelectionSourceInboxDefault : string := "inbox_default".
Definition MailboxSelectionSourceRequestOverride : string := "request_override".

Record MailboxSelection : Type := mkMailboxSelection {
  sel_InboxID : string;
  sel_ContextName : string;
  sel_Environment : string;
  sel_TargetKind : TargetKind;
  sel_TargetProfile : string;
  sel_Source : string;
  sel_RepositoryAlias : string;
  sel_RepositoryAliases : list string
}.
#[export] Instance MailboxSelection_eq_dec : EqDecision MailboxSelection. Proof. solve_decision. Defined.

(** [audit.Record] *)
Record AuditRecord : Type := mkAuditRecord {
  rec_ID : Z;
  rec_Principal : ControllerIdentity;
  rec_Ingress : Ingress;
  rec_Environment : string;
  rec_SessionID : string;
  rec_CommandID : string;
  rec_JobID : string;
  rec_Action : Action;
  rec_Outcome : Outcome;
  rec_ReasonCode : string;
  rec_MailboxSelection : option MailboxSelection;
  rec_OccurredAt : Z
}.
#[export] Instance AuditRecord_eq_dec : EqDecision AuditRecord. Proof. solve_decision. Defined.

(** The first byte is a letter; a digit or a hyphen may follow. *)
Definition validMailboxSelectionName (value : string) : bool :=
  match bytes_of value with
  | [] => false
  | b :: rest =>
      is_lower b && forallb (fun c => is_lower c || is_decimal_digit c || (c =? 45)) rest
      && (go_len value <=? 63)
  end.

Fixpoint checkSelectionAliases (aliases : gset string) (rest : list string) : result (gset string) :=
  match rest with
  | [] => Ok aliases
  | alias :: rest' =>
      if negb (validMailboxSelectionName alias) then Err ErrInvalidRecord
      else if bool_decide (alias ∈ aliases) then Err ErrInvalidRecord
      else checkSelectionAliases ({[alias]} ∪ aliases) rest'
  end.

Definition MailboxSelection_Validate (selection : MailboxSelection) : result unit :=
  refuse_if (negb (validMailboxSelectionName (sel_InboxID selection))
             || negb (validMailboxSelectionName (sel_ContextName selection))
             || negb (validMailboxSelectionName (sel_Environment selection))
             || negb (validMailboxSelectionName (sel_TargetProfile selection))) ErrInvalidRecord;;
  refuse_if (negb (result_is_ok (NewExecutionTarget (sel_TargetKind selection) (sel_TargetProfile selection))))
    ErrInvalidRecord;;
  refuse_if (negb (bool_decide (sel_Source selection = MailboxSelectionSourceInboxDefault))
             && negb (bool_decide (sel_Source selection = MailboxSelectionSourceRequestOverride)))
    ErrInvalidRecord;;
  aliases ← checkSelectionAliases ∅ (sel_RepositoryAliases selection);
  if negb (is_empty (sel_RepositoryAlias selection)) then
    refuse_if (negb (validMailboxSelectionName (sel_RepositoryAlias selection))) ErrInvalidRecord;;
    refuse_if (negb (bool_decide (sel_RepositoryAlias selection ∈ aliases))) ErrInvalidRecord
  else Ok tt.

(** The [switch record.Outcome] of [Validate]. *)
Definition checkOutcome (record : AuditRecord) : result unit :=
  let cleanup := bool_decide (rec_Action record = ActionRuntimeCleanup) in
  let reason := rec_ReasonCode record in
  match rec_Outcome record with
  | OutcomeAllowed => refuse_if (cleanup || negb (is_empty reason)) ErrInvalidRecord
  | OutcomeDenied =>
      refuse_if (cleanup || is_empty reason || bool_decide (reason = ReasonRuntimeCleanupUnconfirmed))
        ErrInvalidRecord
  | OutcomeFailed =>
      refuse_if (negb cleanup || negb (bool_decide (reason = ReasonRuntimeCleanupUnconfirmed))
                 || is_empty (rec_SessionID record)) ErrInvalidRecord
  | OutcomeOther _ => Err ErrInvalidRecord
  end.

(** [Record.Validate] *)
Definition AuditRecord_Validate (record : AuditRecord) : result unit :=
  let reason := rec_ReasonCode record in
  refuse_if (rec_ID record <? 0) ErrInvalidRecord;;
  refuse_if (negb (result_is_ok (NewControllerIdentity (controller_typeName (rec_Principal record))
                                   (controller_id (rec_Principal record))))) ErrInvalidRecord;;
  refuse_if (negb (ValidIngress (rec_Ingress record))) ErrInvalidRecord;;
  refuse_if (match rec_Action record with ActionOther _ => true | _ => false end) ErrInvalidRecord;;
  checkOutcome record;;
  refuse_if (negb (is_empty reason) && negb (bool_decide (reason = ReasonEnvironmentDenied))
             && negb (bool_decide (reason = ReasonPolicyDenied))
             && negb (bool_decide (reason = ReasonControllerDenied))
             && negb (bool_decide (reason = ReasonRuntimeCleanupUnconfirmed))) ErrInvalidRecord;;
  refuse_if ((256 <? go_len (rec_Environment record)) || contains_nul (rec_Environment record))
    ErrInvalidRecord;;
  refuse_if (negb (is_empty (rec_SessionID record)) && negb (result_is_ok (NewSessionID (rec_SessionID record))))
    ErrInvalidRecord;;
  refuse_if (negb (is_empty (rec_CommandID record)) && negb (result_is_ok (NewCommandID (rec_CommandID record))))
    ErrInvalidRecord;;
  refuse_if (negb (is_empty (rec_JobID record)) && negb (result_is_ok (NewJobID (rec_JobID record))))
    ErrInvalidRecord;;
  refuse_if (IsZero (rec_OccurredAt record)) ErrInvalidRecord;;
  match rec_MailboxSelection record with
  | None => Ok tt
  | Some selection =>
      refuse_if (negb (bool_decide (rec_Ingress record = IngressMailbox))
                 || negb (bool_decide (rec_Outcome record = OutcomeAllowed))
                 || (negb (bool_decide (rec_Action record = ActionCreate))
                     && negb (bool_decide (rec_Action record = ActionRun)))) ErrInvalidRecord;;
      MailboxSelection_Validate selection;;
      refuse_if (negb (bool_decide (rec_Environment record = sel_Environment selection))) ErrInvalidRecord
  end.

(** ** What a valid record says *)
Lemma checkSelectionAliases_Ok rest seen aliases :
  checkSelectionAliases seen rest = Ok aliases ->
  aliases = seen ∪ list_to_set rest /\ NoDup rest /\ (forall a, a ∈ rest -> a ∉ seen).
Proof.
  revert seen. induction rest as [|a rest IH]; intros seen; cbn [checkSelectionAliases].
  { intros [= <-]. split_and!; [set_solver|constructor|set_solver]. }
  destruct (validMailboxSelectionName a); [|done]. simpl. case_bool_decide as Ha; [done|].
  intros (-> & Hnd & Hs)%IH. split_and!.
  - set_solver.
  - constructor; [|done]. intros Hin. specialize (Hs a Hin). set_solver.
  - intros b [->|Hb]%elem_of_cons; [done|]. specialize (Hs b Hb). set_solver.
Qed.

Lemma MailboxSelection_alias_in_scope selection u :
  MailboxSelection_Validate selection = Ok u -> sel_RepositoryAlias selection <> "" ->
  sel_RepositoryAlias selection ∈ sel_RepositoryAliases selection.
Proof.
  unfold MailboxSelection_Validate. intros H Hne. tx_inv H.
  destruct (is_empty _) eqn:E in H; [by apply is_empty_true in E|]. simpl in H. tx_inv H.
  apply checkSelectionAliases_Ok in Hrun2 as (-> & _ & _). bool_norm. set_solver.
Qed.

Lemma AuditRecord_Validate_selection record u sel :
  AuditRecord_Validate record = Ok u -> rec_MailboxSelection record = Some sel ->
  rec_Ingress record = IngressMailbox /\ rec_Outcome record = OutcomeAllowed /\
  MailboxSelection_Validate sel = Ok tt /\ rec_Environment record = sel_Environment sel.
Proof.
  unfold AuditRecord_Validate. intros H Hsel. rewrite Hsel in H. tx_inv H. bool_norm.
  match goal with a : unit |- _ => destruct a end. by split_and!.
Qed.

Lemma AuditRecord_Validate_basic record u :
  AuditRecord_Validate record = Ok u ->
  rec_OccurredAt record <> 0 /\ known_controller (controller_typeName (rec_Principal record)) /\
  controller_id (rec_Principal record) <> "".
Proof.
  unfold AuditRecord_Validate. intros H. tx_inv H. unfold IsZero in *. bool_norm.
  destruct (NewControllerIdentity _ _) eqn:E; [|done]. apply NewControllerIdentity_Ok in E. naive_solver.
Qed.
