(* ===== verification/Db.v ===== *)
(** * The authority database

    The tables of [src/src/internal/store/migrations/*.sql] that the execution
    authority reads and writes, the INSERT statements with their PRIMARY KEY,
    UNIQUE, FOREIGN KEY and CHECK clauses, and the transaction wrapper of
    [src/src/internal/store/sessions.go].  A table is a finite map from its
    primary key to the remaining columns; the two event tables, whose key is an
    owner and a sequence number, map the owner to the list of its rows in the
    order they were inserted.  The schema is the current one (all migrations
    applied).  A statement can fail only because of a clause: I/O errors and a
    busy database are not modelled. *)
From S2P Require Import Prelude GoStrings Sha256 Identity Lifecycle Policy Canonical LaneAdmission.
From S2P Require Import AuditRecords.

(** ** Rows *)
Record SessionRow : Type := mkSessionRow {
  s_target : ExecutionTarget;
  s_environment : string;
  s_controller : ControllerIdentity;
  s_source : Source;
  s_resolved_revision : string;
  s_runtime_generation : string;
  s_state : SessionState;
  s_limits : EffectiveSessionLimits;
  s_created_at : StoredTime;
  s_updated_at : StoredTime;
  s_expires_at : StoredTime
}.

Record LifecycleRow : Type := mkLifecycleRow {
  l_sequence : Z;
  l_previous_state : option SessionState;
  l_new_state : SessionState;
  l_reason : string;
  l_occurred_at : StoredTime
}.

Record ReservationRow : Type := mkReservationRow {
  r_host_key : string;
  r_reserved_at : StoredTime;
  r_cleanup_confirmed_at : option StoredTime;
  r_released_at : option StoredTime
}.

(** [controller_type, controller_id, operation, idempotency_key] *)
Definition IdemKey : Type := string * string * string * string.

Record IdempotencyRow : Type := mkIdempotencyRow {
  i_hash_version : Z;
  i_hash : string;
  i_resource_id : string;
  i_created_at : StoredTime;
  i_expires_at : StoredTime;
  i_warning : bool
}.

Record CommandRow : Type := mkCommandRow {
  c_session_id : string;
  c_ordinal : Z;
  c_intent_ordinal : option Z;
  c_request_hash_version : Z;
  c_request_hash : string;
  c_script_bytes : string;
  c_script_sha256 : string;
  c_state : CommandState;
  c_timeout_ns : Z;
  c_exit_code : option Z;
  c_final_event_sequence : option Z;
  c_output_truncated : bool;
  c_output_complete : bool;
  c_output_unavailable_reason : string;
  c_created_at : StoredTime;
  c_updated_at : StoredTime
}.

Inductive EventType : Type :=
  | command_queued | command_started | stdout | stderr | output_truncated
  | command_succeeded | command_failed | command_cancelled | command_timed_out
  | command_rejected | command_lost
  | EventOther (value : string).
#[export] Instance EventType_eq_dec : EqDecision EventType. Proof. solve_decision. Defined.

Record EventRow : Type := mkEventRow {
  e_sequence : Z;
  e_type : EventType;
  e_payload : string;
  e_byte_count : Z;
  e_occurred_at : StoredTime
}.
#[export] Instance EventRow_eq_dec : EqDecision EventRow. Proof. solve_decision. Defined.

Record SlotRow : Type := mkSlotRow {
  sl_host_key : string;
  sl_reserved_at : StoredTime;
  sl_stop_confirmed_at : option StoredTime;
  sl_released_at : option StoredTime
}.

Inductive JobPhase : Type :=
  | JobPhaseCreatingSession | JobPhaseAcceptingCommand | JobPhaseAwaitingCommand
  | JobPhaseClosingSession | JobPhaseComplete | JobPhaseFailed | JobPhaseLost
  | JobPhaseOther (value : string).
#[export] Instance JobPhase_eq_dec : EqDecision JobPhase. Proof. solve_decision. Defined.

Inductive JobTeardownState : Type :=
  | JobTeardownPending | JobTeardownClosed | JobTeardownFailed | JobTeardownLost | JobTeardownNotCreated
  | JobTeardownOther (value : string).
#[export] Instance JobTeardownState_eq_dec : EqDecision JobTeardownState. Proof. solve_decision. Defined.

Record JobRow : Type := mkJobRow {
  j_session_id : string;
  j_command_id : string;
  j_controller : ControllerIdentity;
  j_ingress : Ingress;
  j_target : ExecutionTarget;
  j_environment : string;
  j_source : Source;
  j_request_hash_version : Z;
  j_request_hash : string;
  j_idempotency_key : string;
  j_payload_json : string;
  j_script_bytes : string;
  j_script_sha256 : string;
  j_phase : JobPhase;
  j_command_state : option CommandState;
  j_exit_code : option Z;
  j_final_event_sequence : option Z;
  j_output_truncated : bool;
  j_output_complete : bool;
  j_output_unavailable_reason : string;
  j_teardown_state : JobTeardownState;
  j_teardown_reason : string;
  j_created_at : StoredTime;
  j_updated_at : StoredTime
}.

(** The singleton of [exec_controlled_restart_plans]; [p_activated_at] is NULL
    while the plan is prepared. *)
Record PlanRow : Type := mkPlanRow {
  p_job_id : string;
  p_session_id : string;
  p_command_id : string;
  p_runtime_generation : string;
  p_prepared_at : StoredTime;
  p_activation_state : string;
  p_activated_at : option StoredTime
}.

Record LostPairRow : Type := mkLostPairRow { lp_ordinal : Z; lp_session_id : string; lp_command_id : string }.

(** [exec_lost_runtime_recovery_finalizations], keyed by the command. *)
Record FinalizationRow : Type := mkFinalizationRow { f_session_id : string; f_capacity_released_at : StoredTime }.

(** [exec_commandless_lost_runtime_recovery_finalizations], keyed by the session. *)
Record CommandlessFinalizationRow : Type := mkCommandlessFinalizationRow {
  clf_job_id : string; clf_capacity_released_at : StoredTime
}.

(** [exec_completed_teardown_recovery_finalizations], keyed by the session. *)
Record TeardownFinalizationRow : Type := mkTeardownFinalizationRow {
  tf_command_id : string; tf_job_id : string; tf_capacity_released_at : StoredTime
}.

Record AuditRow : Type := mkAuditRow {
  a_id : Z;
  a_principal : ControllerIdentity;
  a_ingress : Ingress;
  a_environment : option string;
  a_session_id : option string;
  a_command_id : option string;
  a_job_id : option string;
  a_action : Action;
  a_outcome : Outcome;
  a_reason_code : string;
  a_occurred_at : StoredTime;
  a_mailbox_id : option string;
  a_execution_context : option string;
  a_selection_source : option string;
  a_resolved_target_kind : option TargetKind;
  a_resolved_target_profile : option string;
  a_repository_alias : option string;
  a_repository_aliases : option (list string)
}.

(** The row of [lane_ingress_admission]: the state its JSON decodes to, or
    [None] when the digest or the JSON is refused. *)
Definition AdmissionRow : Type := option State.

Record DB : Type := mkDB {
  exec_sessions : gmap string SessionRow;
  exec_session_lifecycle : gmap string (list LifecycleRow);
  exec_capacity_reservations : gmap string ReservationRow;
  exec_idempotency : gmap IdemKey IdempotencyRow;
  exec_idempotency_expiry_warnings : gmap IdemKey StoredTime;
  exec_commands : gmap string CommandRow;
  exec_command_events : gmap string (list EventRow);
  exec_command_slots : gmap string SlotRow;
  exec_jobs : gmap string JobRow;
  exec_controlled_restart_plans : option PlanRow;
  exec_controlled_restart_plan_lost_pairs : list LostPairRow;
  exec_lost_runtime_recovery_finalizations : gmap string FinalizationRow;
  exec_commandless_lost_runtime_recovery_finalizations : gmap string CommandlessFinalizationRow;
  exec_completed_teardown_recovery_finalizations : gmap string TeardownFinalizationRow;
  lane_ingress_admission : option AdmissionRow;
  runner_audit_records : list AuditRow
}.

(** The database right after the migrations. *)
Definition empty_db : DB := mkDB ∅ ∅ ∅ ∅ ∅ ∅ ∅ ∅ ∅ None [] ∅ ∅ ∅ None [].

(** One setter per table. *)
Definition set_sessions t (d : DB) : DB := mkDB t (exec_session_lifecycle d) (exec_capacity_reservations d)
    (exec_idempotency d) (exec_idempotency_expiry_warnings d) (exec_commands d) (exec_command_events d)
    (exec_command_slots d) (exec_jobs d) (exec_controlled_restart_plans d) (exec_controlled_restart_plan_lost_pairs d)
    (exec_lost_runtime_recovery_finalizations d) (exec_commandless_lost_runtime_recovery_finalizations d)
    (exec_completed_teardown_recovery_finalizations d) (lane_ingress_admission d) (runner_audit_records d).
Definition set_lifecycle t (d : DB) : DB := mkDB (exec_sessions d) t (exec_capacity_reservations d)
    (exec_idempotency d) (exec_idempotency_expiry_warnings d) (exec_commands d) (exec_command_events d)
    (exec_command_slots d) (exec_jobs d) (exec_controlled_restart_plans d) (exec_controlled_restart_plan_lost_pairs d)
    (exec_lost_runtime_recovery_finalizations d) (exec_commandless_lost_runtime_recovery_finalizations d)
    (exec_completed_teardown_recovery_finalizations d) (lane_ingress_admission d) (runner_audit_records d).
Definition set_reservations t (d : DB) : DB := mkDB (exec_sessions d) (exec_session_lifecycle d) t
    (exec_idempotency d) (exec_idempotency_expiry_warnings d) (exec_commands d) (exec_command_events d)
    (exec_command_slots d) (exec_jobs d) (exec_controlled_restart_plans d) (exec_controlled_restart_plan_lost_pairs d)
    (exec_lost_runtime_recovery_finalizations d) (exec_commandless_lost_runtime_recovery_finalizations d)
    (exec_completed_teardown_recovery_finalizations d) (lane_ingress_admission d) (runner_audit_records d).
Definition set_idempotency t (d : DB) : DB := mkDB (exec_sessions d) (exec_session_lifecycle d)
    (exec_capacity_reservations d) t (exec_idempotency_expiry_warnings d) (exec_commands d) (exec_command_events d)
    (exec_command_slots d) (exec_jobs d) (exec_controlled_restart_plans d) (exec_controlled_restart_plan_lost_pairs d)
    (exec_lost_runtime_recovery_finalizations d) (exec_commandless_lost_runtime_recovery_finalizations d)
    (exec_completed_teardown_recovery_finalizations d) (lane_ingress_admission d) (runner_audit_records d).
Definition set_warnings t (d : DB) : DB := mkDB (exec_sessions d) (exec_session_lifecycle d)
    (exec_capacity_reservations d) (exec_idempotency d) t (exec_commands d) (exec_command_events d)
    (exec_command_slots d) (exec_jobs d) (exec_controlled_restart_plans d) (exec_controlled_restart_plan_lost_pairs d)
    (exec_lost_runtime_recovery_finalizations d) (exec_commandless_lost_runtime_recovery_finalizations d)
    (exec_completed_teardown_recovery_finalizations d) (lane_ingress_admission d) (runner_audit_records d).
Definition set_commands t (d : DB) : DB := mkDB (exec_sessions d) (exec_session_lifecycle d)
    (exec_capacity_reservations d) (exec_idempotency d) (exec_idempotency_expiry_warnings d) t (exec_command_events d)
    (exec_command_slots d) (exec_jobs d) (exec_controlled_restart_plans d) (exec_controlled_restart_plan_lost_pairs d)
    (exec_lost_runtime_recovery_finalizations d) (exec_commandless_lost_runtime_recovery_finalizations d)
    (exec_completed_teardown_recovery_finalizations d) (lane_ingress_admission d) (runner_audit_records d).
Definition set_events t (d : DB) : DB := mkDB (exec_sessions d) (exec_session_lifecycle d)
    (exec_capacity_reservations d) (exec_idempotency d) (exec_idempotency_expiry_warnings d) (exec_commands d) t
    (exec_command_slots d) (exec_jobs d) (exec_controlled_restart_plans d) (exec_controlled_restart_plan_lost_pairs d)
    (exec_lost_runtime_recovery_finalizations d) (exec_commandless_lost_runtime_recovery_finalizations d)
    (exec_completed_teardown_recovery_finalizations d) (lane_ingress_admission d) (runner_audit_records d).
Definition set_slots t (d : DB) : DB := mkDB (exec_sessions d) (exec_session_lifecycle d)
    (exec_capacity_reservations d) (exec_idempotency d) (exec_idempotency_expiry_warnings d) (exec_commands d)
    (exec_command_events d) t (exec_jobs d) (exec_controlled_restart_plans d)
    (exec_controlled_restart_plan_lost_pairs d) (exec_lost_runtime_recovery_finalizations d)
    (exec_commandless_lost_runtime_recovery_finalizations d) (exec_completed_teardown_recovery_finalizations d)
    (lane_ingress_admission d) (runner_audit_records d).
Definition set_jobs t (d : DB) : DB := mkDB (exec_sessions d) (exec_session_lifecycle d)
    (exec_capacity_reservations d) (exec_idempotency d) (exec_idempotency_expiry_warnings d) (exec_commands d)
    (exec_command_events d) (exec_command_slots d) t (exec_controlled_restart_plans d)
    (exec_controlled_restart_plan_lost_pairs d) (exec_lost_runtime_recovery_finalizations d)
    (exec_commandless_lost_runtime_recovery_finalizations d) (exec_completed_teardown_recovery_finalizations d)
    (lane_ingress_admission d) (runner_audit_records d).
Definition set_plan t (d : DB) : DB := mkDB (exec_sessions d) (exec_session_lifecycle d)
    (exec_capacity_reservations d) (exec_idempotency d) (exec_idempotency_expiry_warnings d) (exec_commands d)
    (exec_command_events d) (exec_command_slots d) (exec_jobs d) t (exec_controlled_restart_plan_lost_pairs d)
    (exec_lost_runtime_recovery_finalizations d) (exec_commandless_lost_runtime_recovery_finalizations d)
    (exec_completed_teardown_recovery_finalizations d) (lane_ingress_admission d) (runner_audit_records d).
Definition set_lost_pairs t (d : DB) : DB := mkDB (exec_sessions d) (exec_session_lifecycle d)
    (exec_capacity_reservations d) (exec_idempotency d) (exec_idempotency_expiry_warnings d) (exec_commands d)
    (exec_command_events d) (exec_command_slots d) (exec_jobs d) (exec_controlled_restart_plans d) t
    (exec_lost_runtime_recovery_finalizations d) (exec_commandless_lost_runtime_recovery_finalizations d)
    (exec_completed_teardown_recovery_finalizations d) (lane_ingress_admission d) (runner_audit_records d).
Definition set_finalizations t (d : DB) : DB := mkDB (exec_sessions d) (exec_session_lifecycle d)
    (exec_capacity_reservations d) (exec_idempotency d) (exec_idempotency_expiry_warnings d) (exec_commands d)
    (exec_command_events d) (exec_command_slots d) (exec_jobs d) (exec_controlled_restart_plans d)
    (exec_controlled_restart_plan_lost_pairs d) t (exec_commandless_lost_runtime_recovery_finalizations d)
    (exec_completed_teardown_recovery_finalizations d) (lane_ingress_admission d) (runner_audit_records d).
Definition set_commandless_finalizations t (d : DB) : DB := mkDB (exec_sessions d) (exec_session_lifecycle d)
    (exec_capacity_reservations d) (exec_idempotency d) (exec_idempotency_expiry_warnings d) (exec_commands d)
    (exec_command_events d) (exec_command_slots d) (exec_jobs d) (exec_controlled_restart_plans d)
    (exec_controlled_restart_plan_lost_pairs d) (exec_lost_runtime_recovery_finalizations d) t
    (exec_completed_teardown_recovery_finalizations d) (lane_ingress_admission d) (runner_audit_records d).
Definition set_teardown_finalizations t (d : DB) : DB := mkDB (exec_sessions d) (exec_session_lifecycle d)
    (exec_capacity_reservations d) (exec_idempotency d) (exec_idempotency_expiry_warnings d) (exec_commands d)
    (exec_command_events d) (exec_command_slots d) (exec_jobs d) (exec_controlled_restart_plans d)
    (exec_controlled_restart_plan_lost_pairs d) (exec_lost_runtime_recovery_finalizations d)
    (exec_commandless_lost_runtime_recovery_finalizations d) t (lane_ingress_admission d) (runner_audit_records d).
Definition set_admission t (d : DB) : DB := mkDB (exec_sessions d) (exec_session_lifecycle d)
    (exec_capacity_reservations d) (exec_idempotency d) (exec_idempotency_expiry_warnings d) (exec_commands d)
    (exec_command_events d) (exec_command_slots d) (exec_jobs d) (exec_controlled_restart_plans d)
    (exec_controlled_restart_plan_lost_pairs d) (exec_lost_runtime_recovery_finalizations d)
    (exec_commandless_lost_runtime_recovery_finalizations d) (exec_completed_teardown_recovery_finalizations d) t
    (runner_audit_records d).
Definition set_audit t (d : DB) : DB := mkDB (exec_sessions d) (exec_session_lifecycle d)
    (exec_capacity_reservations d) (exec_idempotency d) (exec_idempotency_expiry_warnings d) (exec_commands d)
    (exec_command_events d) (exec_command_slots d) (exec_jobs d) (exec_controlled_restart_plans d)
    (exec_controlled_restart_plan_lost_pairs d) (exec_lost_runtime_recovery_finalizations d)
    (exec_commandless_lost_runtime_recovery_finalizations d) (exec_completed_teardown_recovery_finalizations d)
    (lane_ingress_admission d) t.

Ltac db_simpl :=
  cbn [set_sessions set_lifecycle set_reservations set_idempotency set_warnings set_commands set_events set_slots set_jobs set_plan set_lost_pairs set_finalizations set_commandless_finalizations set_teardown_finalizations set_admission set_audit
    exec_sessions exec_session_lifecycle exec_capacity_reservations exec_idempotency exec_idempotency_expiry_warnings exec_commands exec_command_events exec_command_slots exec_jobs exec_controlled_restart_plans exec_controlled_restart_plan_lost_pairs exec_lost_runtime_recovery_finalizations exec_commandless_lost_runtime_recovery_finalizations exec_completed_teardown_recovery_finalizations lane_ingress_admission runner_audit_records] in *.

(** ** Vocabularies and CHECK clauses *)
Definition known_controller_b (t : ControllerType) : bool :=
  match t with ControllerTypeOther _ => false | _ => true end.
Definition known_kind_b (k : TargetKind) : bool := match k with TargetKindOther _ => false | _ => true end.
Definition validCommandEventType (value : EventType) : bool :=
  match value with EventOther _ => false | _ => true end.
Definition JobPhase_Valid (p : JobPhase) : bool := match p with JobPhaseOther _ => false | _ => true end.
Definition JobTeardownState_Valid (s : JobTeardownState) : bool :=
  match s with JobTeardownOther _ => false | _ => true end.

Definition limits_positive (l : EffectiveSessionLimits) : bool :=
  (0 <? eff_CommandTimeout l) && (0 <? eff_IdleTimeout l) && (0 <? eff_SessionMaxLifetime l)
  && (0 <? eff_OutputBytesPerCommand l).

(** The table constraint on the source columns. *)
Definition source_check (s : Source) : bool :=
  match source_mode s with
  | SourceModeEmpty =>
      is_empty (source_repositoryAlias s) && is_empty (source_requestedRevision s) && is_empty (source_path s)
  | SourceModeGitRevision =>
      negb (is_empty (source_repositoryAlias s)) && negb (is_empty (source_requestedRevision s))
      && is_empty (source_path s)
  | SourceModeLocalWorktree =>
      is_empty (source_repositoryAlias s) && is_empty (source_requestedRevision s)
      && negb (is_empty (source_path s))
  | SourceModeOther _ => false
  end.

Definition session_checks (id : string) (row : SessionRow) : bool :=
  sql_length_pos id && known_kind_b (target_kind (s_target row)) && sql_length_pos (target_profile (s_target row))
  && sql_length_pos (s_environment row) && known_controller_b (controller_typeName (s_controller row))
  && sql_length_pos (controller_id (s_controller row)) && SessionState_Valid (s_state row)
  && limits_positive (s_limits row) && source_check (s_source row).

Definition command_checks (id : string) (row : CommandRow) : bool :=
  sql_length_pos id && (0 <? c_ordinal row)
  && match c_intent_ordinal row with Some n => 0 <? n | None => true end
  && (0 <? c_request_hash_version row) && (go_len (c_request_hash row) =? 32)
  && (go_len (c_script_sha256 row) =? 32) && CommandState_Valid (c_state row) && (0 <? c_timeout_ns row)
  && match c_final_event_sequence row with Some n => 0 <? n | None => true end.

Definition event_checks (row : EventRow) : bool :=
  (0 <? e_sequence row) && validCommandEventType (e_type row) && (0 <=? e_byte_count row).

Definition lifecycle_checks (row : LifecycleRow) : bool :=
  (0 <? l_sequence row)
  && match l_previous_state row with Some s => SessionState_Valid s | None => true end
  && SessionState_Valid (l_new_state row) && sql_length_pos (l_reason row).

Definition idempotency_checks (key : IdemKey) (row : IdempotencyRow) : bool :=
  match key with
  | (ctype, cid, operation, ikey) =>
      bool_decide (ctype ∈ ["local_user"; "queued_mac"; "direct_mtls"]) && sql_length_pos cid
      && sql_length_pos operation && sql_length_pos ikey && (0 <? i_hash_version row)
      && (go_len (i_hash row) =? 32) && sql_length_pos (i_resource_id row)
  end.

Definition warning_checks (key : IdemKey) : bool :=
  match key with
  | (ctype, cid, operation, fingerprint) =>
      bool_decide (ctype ∈ ["local_user"; "queued_mac"; "direct_mtls"]) && sql_length_pos cid
      && sql_length_pos operation && (go_len fingerprint =? 32)
  end.

(** ** INSERT statements *)
Notation tx := (stx DB).

Definition rows_of {A} (t : gmap string (list A)) (id : string) : list A := default [] (t !! id).

(** The rows of [exec_commands] of one session. *)
Definition session_commands (sessionID : string) (db : DB) : list (string * CommandRow) :=
  filter (fun '(_, row) => c_session_id row = sessionID) (map_to_list (exec_commands db)).

Definition insert_session (id : string) (row : SessionRow) : tx unit :=
  existing ← query (fun db => exec_sessions db !! id);
  fail_if (is_Some_b existing || negb (session_checks id row)) (ErrSQL "insert session");;
  modify (fun db => set_sessions (<[id := row]> (exec_sessions db)) db).

Definition insert_lifecycle (id : string) (row : LifecycleRow) : tx unit :=
  db ← query (fun db => db);
  fail_if (negb (is_Some_b (exec_sessions db !! id))
           || existsb (fun r => l_sequence r =? l_sequence row) (rows_of (exec_session_lifecycle db) id)
           || negb (lifecycle_checks row)) (ErrSQL "insert session lifecycle");;
  modify (fun db => set_lifecycle
    (<[id := rows_of (exec_session_lifecycle db) id ++ [row]]> (exec_session_lifecycle db)) db).

Definition insert_reservation (id : string) (row : ReservationRow) : tx unit :=
  db ← query (fun db => db);
  fail_if (negb (is_Some_b (exec_sessions db !! id)) || is_Some_b (exec_capacity_reservations db !! id)
           || negb (sql_length_pos (r_host_key row))) (ErrSQL "insert session capacity reservation");;
  modify (fun db => set_reservations (<[id := row]> (exec_capacity_reservations db)) db).

Definition insert_idempotency (key : IdemKey) (row : IdempotencyRow) : tx unit :=
  existing ← query (fun db => exec_idempotency db !! key);
  fail_if (is_Some_b existing || negb (idempotency_checks key row)) (ErrSQL "record idempotency");;
  modify (fun db => set_idempotency (<[key := row]> (exec_idempotency db)) db).

Definition insert_warning (key : IdemKey) (warningUntil : StoredTime) : tx unit :=
  existing ← query (fun db => exec_idempotency_expiry_warnings db !! key);
  fail_if (is_Some_b existing || negb (warning_checks key)) (ErrSQL "record idempotency expiry warning");;
  modify (fun db => set_warnings (<[key := warningUntil]> (exec_idempotency_expiry_warnings db)) db).

Definition insert_command (id : string) (row : CommandRow) : tx unit :=
  db ← query (fun db => db);
  fail_if (is_Some_b (exec_commands db !! id)
           || existsb (fun '(_, r) => c_ordinal r =? c_ordinal row) (session_commands (c_session_id row) db)
           || negb (is_Some_b (exec_sessions db !! c_session_id row))
           || negb (command_checks id row)) (ErrSQL "insert command");;
  modify (fun db => set_commands (<[id := row]> (exec_commands db)) db).

Definition insert_event (id : string) (row : EventRow) : tx unit :=
  db ← query (fun db => db);
  fail_if (negb (is_Some_b (exec_commands db !! id))
           || existsb (fun r => e_sequence r =? e_sequence row) (rows_of (exec_command_events db) id)
           || negb (event_checks row)) (ErrSQL "insert command event");;
  modify (fun db => set_events
    (<[id := rows_of (exec_command_events db) id ++ [row]]> (exec_command_events db)) db).

Definition insert_slot (id : string) (row : SlotRow) : tx unit :=
  db ← query (fun db => db);
  fail_if (negb (is_Some_b (exec_commands db !! id)) || is_Some_b (exec_command_slots db !! id)
           || negb (sql_length_pos (sl_host_key row))) (ErrSQL "reserve command slot");;
  modify (fun db => set_slots (<[id := row]> (exec_command_slots db)) db).

(** ** Events as the Go values handed to subscribers *)
Record CommandEventRecord : Type := mkCommandEventRecord {
  ev_CommandID : string;
  ev_Sequence : Z;
  ev_Type : EventType;
  ev_Payload : string;
  ev_ByteCount : Z;
  ev_OccurredAt : Z
}.
#[export] Instance CommandEventRecord_eq_dec : EqDecision CommandEventRecord. Proof. solve_decision. Defined.

(** ** The store

    [published] lists the events handed to [publishCommandEvent], oldest first;
    [audit_log] the records handed to [audit.Log].  The clock is an argument of
    every operation. *)
Record AuthorityStore : Type := mkAuthorityStore {
  db : DB;
  laneAdmissionRuntime : bool;
  published : list CommandEventRecord;
  audit_log : list AuditRecord
}.

Definition store_db (s : AuthorityStore) (d : DB) : AuthorityStore :=
  mkAuthorityStore d (laneAdmissionRuntime s) (published s) (audit_log s).
Definition set_runtime (s : AuthorityStore) (b : bool) : AuthorityStore :=
  mkAuthorityStore (db s) b (published s) (audit_log s).
Definition publish (s : AuthorityStore) (event : option CommandEventRecord) : AuthorityStore :=
  mkAuthorityStore (db s) (laneAdmissionRuntime s) (published s ++ option_list event) (audit_log s).

(** [withImmediateTransaction]: BEGIN IMMEDIATE, then COMMIT when the function
    returns no error and ROLLBACK otherwise. *)
Definition withImmediateTransaction {A} (s : AuthorityStore) (fn : tx A) : result A * AuthorityStore :=
  match fn (db s) with
  | Ok (a, d') => (Ok a, store_db s d')
  | Err e => (Err e, s)
  end.

(** [withStoreReadTransaction] and reads on a plain connection: one snapshot,
    no writes. *)
Definition withReadTransaction {A} (s : AuthorityStore) (fn : tx A) : result A :=
  match fn (db s) with Ok (a, _) => Ok a | Err e => Err e end.

Lemma withImmediateTransaction_Ok {A} s (fn : tx A) a s' :
  withImmediateTransaction s fn = (Ok a, s') <-> exists d', fn (db s) = Ok (a, d') /\ s' = store_db s d'.
Proof. unfold withImmediateTransaction. destruct (fn (db s)) as [[]|]; naive_solver. Qed.

Lemma withImmediateTransaction_Err {A} s (fn : tx A) e s' :
  withImmediateTransaction s fn = (Err e, s') <-> fn (db s) = Err e /\ s' = s.
Proof. unfold withImmediateTransaction. destruct (fn (db s)) as [[]|]; naive_solver. Qed.

(** ** What a successful INSERT means *)
Lemma guarded_write_Ok {A} (f : DB -> A) (g : A -> bool) e (h : DB -> DB) u d d' :
  (x ← query f; fail_if (g x) e;; modify h : tx unit) d = Ok (u, d') <->
  g (f d) = false /\ u = tt /\ d' = h d.
Proof.
  rewrite stx_bind_Ok. setoid_rewrite query_Ok. setoid_rewrite stx_bind_Ok.
  setoid_rewrite fail_if_Ok. setoid_rewrite modify_Ok. naive_solver.
Qed.

Lemma insert_session_Ok id row u d d' :
  insert_session id row d = Ok (u, d') <->
  is_Some_b (exec_sessions d !! id) || negb (session_checks id row) = false /\
  u = tt /\ d' = set_sessions (<[id := row]> (exec_sessions d)) d.
Proof. exact (guarded_write_Ok _ _ _ _ u d d'). Qed.

Lemma insert_lifecycle_Ok id row u d d' :
  insert_lifecycle id row d = Ok (u, d') <->
  negb (is_Some_b (exec_sessions d !! id))
    || existsb (fun r => l_sequence r =? l_sequence row) (rows_of (exec_session_lifecycle d) id)
    || negb (lifecycle_checks row) = false /\
  u = tt /\
  d' = set_lifecycle (<[id := rows_of (exec_session_lifecycle d) id ++ [row]]> (exec_session_lifecycle d)) d.
Proof. exact (guarded_write_Ok _ _ _ _ u d d'). Qed.

Lemma insert_reservation_Ok id row u d d' :
  insert_reservation id row d = Ok (u, d') <->
  negb (is_Some_b (exec_sessions d !! id)) || is_Some_b (exec_capacity_reservations d !! id)
    || negb (sql_length_pos (r_host_key row)) = false /\
  u = tt /\ d' = set_reservations (<[id := row]> (exec_capacity_reservations d)) d.
Proof. exact (guarded_write_Ok _ _ _ _ u d d'). Qed.

Lemma insert_idempotency_Ok key row u d d' :
  insert_idempotency key row d = Ok (u, d') <->
  is_Some_b (exec_idempotency d !! key) || negb (idempotency_checks key row) = false /\
  u = tt /\ d' = set_idempotency (<[key := row]> (exec_idempotency d)) d.
Proof. exact (guarded_write_Ok _ _ _ _ u d d'). Qed.

Lemma insert_warning_Ok key t u d d' :
  insert_warning key t d = Ok (u, d') <->
  is_Some_b (exec_idempotency_expiry_warnings d !! key) || negb (warning_checks key) = false /\
  u = tt /\ d' = set_warnings (<[key := t]> (exec_idempotency_expiry_warnings d)) d.
Proof. exact (guarded_write_Ok _ _ _ _ u d d'). Qed.

Lemma insert_command_Ok id row u d d' :
  insert_command id row d = Ok (u, d') <->
  is_Some_b (exec_commands d !! id)
    || existsb (fun '(_, r) => c_ordinal r =? c_ordinal row) (session_commands (c_session_id row) d)
    || negb (is_Some_b (exec_sessions d !! c_session_id row)) || negb (command_checks id row) = false /\
  u = tt /\ d' = set_commands (<[id := row]> (exec_commands d)) d.
Proof. exact (guarded_write_Ok _ _ _ _ u d d'). Qed.

Lemma insert_event_Ok id row u d d' :
  insert_event id row d = Ok (u, d') <->
  negb (is_Some_b (exec_commands d !! id))
    || existsb (fun r => e_sequence r =? e_sequence row) (rows_of (exec_command_events d) id)
    || negb (event_checks row) = false /\
  u = tt /\
  d' = set_events (<[id := rows_of (exec_command_events d) id ++ [row]]> (exec_command_events d)) d.
Proof. exact (guarded_write_Ok _ _ _ _ u d d'). Qed.

Lemma insert_slot_Ok id row u d d' :
  insert_slot id row d = Ok (u, d') <->
  negb (is_Some_b (exec_commands d !! id)) || is_Some_b (exec_command_slots d !! id)
    || negb (sql_length_pos (sl_host_key row)) = false /\
  u = tt /\ d' = set_slots (<[id := row]> (exec_command_slots d)) d.
Proof. exact (guarded_write_Ok _ _ _ _ u d d'). Qed.
