(* ===== verification/AuditStore.v ===== *)
(** * The audit table

    Models [src/src/internal/store/audit.go]: appending one audit row inside a
    transaction, the out-of-band [RecordAudit] and the bounded newest page. *)
From S2P Require Import Prelude GoStrings Identity LaneAdmission AuditRecords Db.

Definition maxAuditReadRows : Z := 10000.

(** AUTOINCREMENT: rows are never deleted, so the largest rowid ever used is in
    the table. *)
Definition next_audit_id (rows : list AuditRow) : Z := 1 + foldr Z.max 0 (a_id <$> rows).

(** The empty string is stored as NULL. *)
Definition null_string (s : string) : option string := if is_empty s then None else Some s.

(** [auditMailboxSelectionSQLValuesFor] validates the selection again; the seven
    columns are built in [audit_row]. *)
Definition auditMailboxSelectionSQLValuesFor (selection : option MailboxSelection)
    : result (option MailboxSelection) :=
  match selection with
  | None => Ok None
  | Some sel => MailboxSelection_Validate sel;; Ok (Some sel)
  end.

Definition audit_row (id : Z) (record : AuditRecord) (sel : option MailboxSelection) : AuditRow := {|
  a_id := id;
  a_principal := rec_Principal record;
  a_ingress := rec_Ingress record;
  a_environment := null_string (rec_Environment record);
  a_session_id := null_string (rec_SessionID record);
  a_command_id := null_string (rec_CommandID record);
  a_job_id := null_string (rec_JobID record);
  a_action := rec_Action record;
  a_outcome := rec_Outcome record;
  a_reason_code := rec_ReasonCode record;
  a_occurred_at := formatStoredTime (rec_OccurredAt record);
  a_mailbox_id := sel_InboxID <$> sel;
  a_execution_context := sel_ContextName <$> sel;
  a_selection_source := sel_Source <$> sel;
  a_resolved_target_kind := sel_TargetKind <$> sel;
  a_resolved_target_profile := sel_TargetProfile <$> sel;
  a_repository_alias := sel ≫= (fun x => null_string (sel_RepositoryAlias x));
  a_repository_aliases := sel_RepositoryAliases <$> sel
|}.

(** The CHECK clauses that [Record.Validate] does not imply. *)
Definition audit_checks (row : AuditRow) : bool :=
  (1 <=? sql_length (controller_id (a_principal row))) && (sql_length (controller_id (a_principal row)) <=? 256)
  && match a_environment row with Some e => sql_length e <=? 256 | None => true end.

Definition with_ID (record : AuditRecord) (id : Z) : AuditRecord :=
  mkAuditRecord id (rec_Principal record) (rec_Ingress record) (rec_Environment record)
    (rec_SessionID record) (rec_CommandID record) (rec_JobID record) (rec_Action record)
    (rec_Outcome record) (rec_ReasonCode record) (rec_MailboxSelection record) (rec_OccurredAt record).

Definition insertAuditOnConnection (record : AuditRecord) : tx AuditRecord :=
  lift (AuditRecord_Validate record);;
  sel ← lift (auditMailboxSelectionSQLValuesFor (rec_MailboxSelection record));
  id ← query (fun d => next_audit_id (runner_audit_records d));
  fail_if (negb (audit_checks (audit_row id record sel))) (ErrSQL "insert audit record");;
  modify (fun d => set_audit (runner_audit_records d ++ [audit_row id record sel]) d);;
  mret (with_ID record id).

(** [insertOptionalAuditOnConnection] writes the row ID back through the
    caller's pointer; the saved record is returned instead. *)
Definition insertOptionalAuditOnConnection (record : option AuditRecord) : tx (option AuditRecord) :=
  match record with
  | None => mret None
  | Some r => saved ← insertAuditOnConnection r; mret (Some saved)
  end.

(** [logOptionalAudit], after the commit. *)
Definition logOptionalAudit (s : AuthorityStore) (record : option AuditRecord) : AuthorityStore :=
  match record with
  | Some r => if 0 <? rec_ID r
              then mkAuthorityStore (db s) (laneAdmissionRuntime s) (published s) (audit_log s ++ [r])
              else s
  | None => s
  end.

Definition RecordAudit (s : AuthorityStore) (record : AuditRecord) : result unit * AuthorityStore :=
  match withImmediateTransaction s (insertAuditOnConnection record) with
  | (Ok saved, s') =>
      (Ok tt, mkAuthorityStore (db s') (laneAdmissionRuntime s') (published s') (audit_log s' ++ [saved]))
  | (Err e, s') => (Err e, s')
  end.

Definition decodeAuditMailboxSelection (row : AuditRow) : result (option MailboxSelection) :=
  let present := is_Some_b (a_mailbox_id row) || is_Some_b (a_execution_context row)
    || is_Some_b (a_selection_source row) || is_Some_b (a_resolved_target_kind row)
    || is_Some_b (a_resolved_target_profile row) || is_Some_b (a_repository_alias row)
    || is_Some_b (a_repository_aliases row) in
  if negb present then Ok None
  else match a_mailbox_id row, a_execution_context row, a_selection_source row,
             a_resolved_target_kind row, a_resolved_target_profile row, a_repository_aliases row with
  | Some inbox, Some context, Some source, Some kind, Some profile, Some aliases =>
      Ok (Some (mkMailboxSelection inbox context "" kind profile source
                  (default "" (a_repository_alias row)) aliases))
  | _, _, _, _, _, _ => Err ErrInvalidRecord
  end.

(** The body of the row loop of [ListAuditRecords]. *)
Definition decodeAuditRow (row : AuditRow) : result AuditRecord :=
  NewControllerID (controller_id (a_principal row));;
  principal ← NewControllerIdentity (controller_typeName (a_principal row)) (controller_id (a_principal row));
  let optional_id (new : string -> result string) (o : option string) :=
    match o with Some v => new v | None => Ok "" end in
  sessionID ← optional_id NewSessionID (a_session_id row);
  commandID ← optional_id NewCommandID (a_command_id row);
  jobID ← optional_id NewJobID (a_job_id row);
  selection ← decodeAuditMailboxSelection row;
  let environment := default "" (a_environment row) in
  let selection' := (fun x => mkMailboxSelection (sel_InboxID x) (sel_ContextName x) environment
      (sel_TargetKind x) (sel_TargetProfile x) (sel_Source x) (sel_RepositoryAlias x)
      (sel_RepositoryAliases x)) <$> selection in
  occurredAt ← match parseStoredTime (a_occurred_at row) with
               | Some t => Ok t | None => Err (ErrText "decode audit timestamp") end;
  let record := mkAuditRecord (a_id row) principal (a_ingress row) environment sessionID commandID jobID
      (a_action row) (a_outcome row) (a_reason_code row) selection' occurredAt in
  AuditRecord_Validate record;;
  Ok record.

Fixpoint mapM_result {A B} (f : A -> result B) (l : list A) : result (list B) :=
  match l with
  | [] => Ok []
  | x :: l' => y ← f x; ys ← mapM_result f l'; Ok (y :: ys)
  end.

Definition newer_row (r1 r2 : AuditRow) : Prop := a_id r2 <= a_id r1.
#[export] Instance newer_row_dec r1 r2 : Decision (newer_row r1 r2).
Proof. unfold newer_row. apply _. Defined.

Definition ListAuditRecords (s : AuthorityStore) (limit : Z) : result (list AuditRecord) :=
  if (limit <=? 0) || (maxAuditReadRows <? limit) then Err ErrInvalidRecord
  else
    records ← mapM_result decodeAuditRow
      (take (Z.to_nat limit) (merge_sort newer_row (runner_audit_records (db s))));
    Ok (reverse records).

(** ** Lemmas *)
#[export] Instance newer_row_total : Total newer_row.
Proof. intros r1 r2. unfold newer_row. lia. Qed.
#[export] Instance newer_row_trans : Transitive newer_row.
Proof. intros r1 r2 r3. unfold newer_row. lia. Qed.

Lemma next_audit_id_fresh rows row : row ∈ rows -> a_id row < next_audit_id rows.
Proof.
  unfold next_audit_id. induction rows as [|r rows IH]; [by intros ?%not_elem_of_nil|].
  intros [->|Hin]%elem_of_cons; csimpl; [lia|]. specialize (IH Hin). lia.
Qed.

Lemma next_audit_id_pos rows : 0 < next_audit_id rows.
Proof. unfold next_audit_id. induction rows; csimpl; lia. Qed.

Lemma insertAuditOnConnection_Ok record saved d d' :
  insertAuditOnConnection record d = Ok (saved, d') <->
  AuditRecord_Validate record = Ok tt /\
  (let row := audit_row (next_audit_id (runner_audit_records d)) record (rec_MailboxSelection record) in
   audit_checks row = true /\ d' = set_audit (runner_audit_records d ++ [row]) d) /\
  saved = with_ID record (next_audit_id (runner_audit_records d)).
Proof.
  unfold insertAuditOnConnection. rewrite stx_bind_Ok. setoid_rewrite lift_Ok. split.
  - intros ([] & d1 & [Hv <-] & H). tx_inv H. bool_norm.
    assert (a = rec_MailboxSelection record) as ->; [|by split_and!].
    unfold auditMailboxSelectionSQLValuesFor in Hrun. destruct (rec_MailboxSelection record); tx_inv Hrun; done.
  - intros (Hv & (Hc & ->) & ->). exists tt, d. split; [done|].
    assert (auditMailboxSelectionSQLValuesFor (rec_MailboxSelection record)
            = Ok (rec_MailboxSelection record)) as Hsel.
    { destruct (rec_MailboxSelection record) as [sel|] eqn:E; [|done]. simpl.
      apply (AuditRecord_Validate_selection _ _ _ Hv) in E as (_ & _ & -> & _). done. }
    rewrite Hsel. erewrite stx_bind_run by done. erewrite stx_bind_run by done.
    rewrite Hc. done.
Qed.

Lemma insertOptionalAudit_other record saved d d' :
  insertOptionalAuditOnConnection record d = Ok (saved, d') ->
  d' = set_audit (runner_audit_records d') d /\ runner_audit_records d `prefix_of` runner_audit_records d'.
Proof.
  destruct record as [r|]; simpl; intros H; [|tx_inv H; by destruct d'].
  apply stx_bind_Ok in H as (a & s1 & (_ & [_ ->] & _)%insertAuditOnConnection_Ok & H). tx_inv H.
  split; [done|]. simpl. by eexists.
Qed.

Lemma merge_sort_newest rows row :
  (forall r, r ∈ rows -> a_id r < a_id row) ->
  exists rest, merge_sort newer_row (rows ++ [row]) = row :: rest.
Proof.
  intros Hnew. pose proof (Sorted_merge_sort newer_row (rows ++ [row])) as Hs.
  pose proof (merge_sort_Permutation newer_row (rows ++ [row])) as Hp.
  destruct (merge_sort newer_row (rows ++ [row])) as [|h rest].
  { apply Permutation_nil_l in Hp. by destruct rows. }
  exists rest. f_equal. assert (h ∈ rows ++ [row]) as Hh by (rewrite <- Hp; set_solver).
  assert (row ∈ h :: rest) as Hr by (rewrite Hp; set_solver).
  apply elem_of_app in Hh as [Hh|Hh%list_elem_of_singleton]; [|done].
  apply Sorted_StronglySorted in Hs; [|apply _]. apply StronglySorted_inv in Hs as [_ Hall].
  apply elem_of_cons in Hr as [->|Hr]; [done|].
  rewrite Forall_forall in Hall. specialize (Hall _ Hr). specialize (Hnew _ Hh).
  unfold newer_row in Hall. lia.
Qed.

Lemma null_string_default s : default "" (null_string s) = s.
Proof. by destruct s. Qed.

Lemma decode_selection id record sel :
  rec_MailboxSelection record = sel ->
  decodeAuditMailboxSelection (audit_row id record sel) =
  Ok ((fun x => mkMailboxSelection (sel_InboxID x) (sel_ContextName x) "" (sel_TargetKind x)
        (sel_TargetProfile x) (sel_Source x) (sel_RepositoryAlias x) (sel_RepositoryAliases x)) <$> sel).
Proof.
  intros <-. destruct (rec_MailboxSelection record) as [x|]; [|done].
  unfold decodeAuditMailboxSelection. simpl. by rewrite null_string_default.
Qed.

(** A valid record with a four-digit year is read back as it was written. *)
Lemma decode_audit_row id record :
  AuditRecord_Validate record = Ok tt -> storable (rec_OccurredAt record) -> 0 < id ->
  decodeAuditRow (audit_row id record (rec_MailboxSelection record)) = Ok (with_ID record id).
Proof.
  intros Hv Ht Hid. pose proof (AuditRecord_Validate_basic _ _ Hv) as (_ & Hk & Hne).
  unfold decodeAuditRow. rewrite (decode_selection _ _ _ eq_refl). cbn [a_principal audit_row].
  rewrite (proj2 (NewControllerID_Ok _ _)) by (split; [reflexivity|done]). cbn [mbind result_bind].
  rewrite (proj2 (NewControllerIdentity_Ok _ _ _)) by (split; [reflexivity|done]). cbn [mbind result_bind].
  assert (forall v, match null_string v with Some x => NewSessionID x | None => Ok "" end = Ok v) as Hopt.
  { intros [|c v]; done. }
  cbv zeta. cbn [a_session_id a_command_id a_job_id audit_row].
  change NewCommandID with NewSessionID. change NewJobID with NewSessionID. rewrite !Hopt.
  cbn [mbind result_bind a_environment a_occurred_at audit_row]. rewrite null_string_default.
  rewrite parse_format by done. cbn [mbind result_bind].
  assert (mkControllerIdentity (controller_typeName (rec_Principal record)) (controller_id (rec_Principal record))
          = rec_Principal record) as -> by by destruct (rec_Principal record).
  match goal with |- (AuditRecord_Validate ?r;; _) = _ => assert (r = with_ID record id) as -> end.
  { unfold with_ID. cbn. f_equal. destruct (rec_MailboxSelection record) as [sel|] eqn:Hsel; [|done].
    apply (AuditRecord_Validate_selection _ _ _ Hv) in Hsel as (_ & _ & _ & ->). by destruct sel. }
  assert (AuditRecord_Validate (with_ID record id) = Ok tt) as ->; [|done].
  unfold AuditRecord_Validate in *. cbn [rec_ID rec_Principal rec_Ingress rec_Environment rec_SessionID
    rec_CommandID rec_JobID rec_Action rec_Outcome rec_ReasonCode rec_MailboxSelection rec_OccurredAt with_ID].
  unfold refuse_if at 1. rewrite (proj2 (Z.ltb_ge id 0)) by lia. cbn [mbind result_bind].
  unfold refuse_if at 1 in Hv. destruct (rec_ID record <? 0); [done|]. exact Hv.
Qed.

(** ** Theorems *)

(** A record that [RecordAudit] accepts is logged, becomes the newest row
    under a fresh rowid, leaves every earlier row as it was, and is read back
    field by field by the newest page. *)
Theorem RecordAudit_roundtrip s record s' :
  RecordAudit s record = (Ok tt, s') -> storable (rec_OccurredAt record) ->
  let saved := with_ID record (next_audit_id (runner_audit_records (db s))) in
  ListAuditRecords s' 1 = Ok [saved] /\ audit_log s' = audit_log s ++ [saved] /\
  exists row, runner_audit_records (db s') = runner_audit_records (db s) ++ [row] /\
    forall r, r ∈ runner_audit_records (db s) -> a_id r < a_id row.
Proof.
  unfold RecordAudit. intros H Ht. cbv zeta.
  destruct (withImmediateTransaction s _) as [[saved|e] s1] eqn:E; [|done].
  apply withImmediateTransaction_Ok in E as (d' & (Hv & [Hc ->] & ->)%insertAuditOnConnection_Ok & ->).
  injection H as <-. db_simpl. cbn [db store_db audit_log set_audit runner_audit_records].
  pose proof (fun r => next_audit_id_fresh (runner_audit_records (db s)) r) as Hfresh.
  split_and!; [|done|by eexists].
  unfold ListAuditRecords. cbn [db store_db set_audit runner_audit_records].
  edestruct (merge_sort_newest (runner_audit_records (db s))
    (audit_row (next_audit_id (runner_audit_records (db s))) record (rec_MailboxSelection record)) Hfresh)
    as [rest ->].
  change ((1 <=? 0) || (maxAuditReadRows <? 1)) with false. change (Z.to_nat 1) with 1%nat.
  cbn [take mapM_result]. rewrite decode_audit_row by (done || apply next_audit_id_pos).
  done.
Qed.

Definition example_audit : AuditRecord :=
  mkAuditRecord 0 (mkControllerIdentity ControllerTypeLocalUser "u1") IngressLocalUnix "dev" "s1" "" ""
    ActionCreate OutcomeAllowed "" None 1000.

Lemma RecordAudit_roundtrip_witness :
  ListAuditRecords (snd (RecordAudit (mkAuthorityStore empty_db false [] []) example_audit)) 1
  = Ok [with_ID example_audit 1].
Proof.
  apply (RecordAudit_roundtrip (mkAuthorityStore empty_db false [] []) example_audit
    (snd (RecordAudit (mkAuthorityStore empty_db false [] []) example_audit))).
  - reflexivity.
  - by vm_compute.
Defined.
