(* ===== verification/AdmissionStore.v ===== *)
(** * The durable ingress gate

    Models [src/src/internal/store/lane_admission.go]: the lane gate of
    LaneAdmission.v as one row of the authority database, the process-local
    flag [laneAdmissionRuntime] that a restart clears, and the check that every
    accepting transaction makes. *)
From S2P Require Import Prelude GoStrings LaneAdmission Db.

Definition readLaneAdmissionOnConnection : tx (option State) :=
  row ← query lane_ingress_admission;
  match row with
  | None => mret None
  | Some None => throw ErrLaneAdmissionCorrupt
  | Some (Some state) =>
      fail_if (negb (st_Enabled state) || negb (State_valid state)) ErrLaneAdmissionCorrupt;;
      mret (Some state)
  end.

(** [insert] selects the INSERT of the singleton; otherwise the row is updated. *)
Definition writeLaneAdmissionOnConnection (state : State) (insert : bool) : tx unit :=
  fail_if (negb (st_Enabled state) || negb (State_valid state)) ErrLaneAdmissionCorrupt;;
  row ← query lane_ingress_admission;
  (if insert then fail_if (is_Some_b row) (ErrSQL "insert lane admission state")
   else fail_if (negb (is_Some_b row)) ErrLaneAdmissionNotConfigured);;
  modify (set_admission (Some (Some state))).

Definition checkIngressAdmissionOnConnection (runtime : bool) : tx unit :=
  state ← readLaneAdmissionOnConnection;
  match state with
  | Some st => fail_if (negb runtime || negb (AllowsMutation st)) ErrAdmissionClosed
  | None => mret tt
  end.

Definition ConfigureLaneAdmission (s : AuthorityStore) (lane : Lane) (host : HostID)
    : result unit * AuthorityStore :=
  match NewState lane host with
  | Err e => (Err e, s)
  | Ok initial =>
      match withImmediateTransaction s
        (current ← readLaneAdmissionOnConnection;
         match current with
         | Some st => fail_if (negb (bool_decide (st_Lane st = lane)) || negb (bool_decide (st_HostID st = host)))
                        ErrLaneAdmissionCorrupt
         | None => writeLaneAdmissionOnConnection initial true
         end) with
      | (Ok _, s') => (Ok tt, set_runtime s' false)
      | (Err e, s') => (Err e, s')
      end
  end.

Definition LaneAdmissionSnapshot (s : AuthorityStore) : result (option State) :=
  withReadTransaction s readLaneAdmissionOnConnection.

(** The transaction returns [wasOpen] and [allowsMutation]. *)
Definition updateLaneAdmission (s : AuthorityStore) (mutate : State -> result State)
    : result unit * AuthorityStore :=
  match withImmediateTransaction s
    (current ← readLaneAdmissionOnConnection;
     state ← or_fail current ErrLaneAdmissionNotConfigured;
     state' ← lift (mutate state);
     writeLaneAdmissionOnConnection state' false;;
     mret (AllowsMutation state, AllowsMutation state')) with
  | (Ok (wasOpen, allowsMutation), s') =>
      (Ok tt, if negb allowsMutation then set_runtime s' false
              else if negb wasOpen then set_runtime s' true else s')
  | (Err e, s') => (Err e, s')
  end.

Definition PrepareLaneAdmissionCandidate (s : AuthorityStore) (identity : Identity) :=
  updateLaneAdmission s (fun state => PrepareCandidate state identity).
Definition BeginLaneAdmissionClosure (s : AuthorityStore) (identity : Identity) :=
  updateLaneAdmission s (fun state => BeginActiveRuntimeClosure state identity).
Definition SwitchLaneAdmissionCandidate (s : AuthorityStore) :=
  updateLaneAdmission s SwitchPendingToActive.
Definition AdvanceLaneAdmissionCandidate (s : AuthorityStore) (identity : Identity) (phase : Phase) :=
  updateLaneAdmission s (fun state => AdvanceCandidate state identity phase).
Definition BeginLaneMigrationFence (s : AuthorityStore) (transitionID : string) :=
  updateLaneAdmission s (fun state => BeginMigrationFence state transitionID).
Definition AdvanceLaneMigrationFence (s : AuthorityStore) (transitionID : string) (next : FenceState) :=
  updateLaneAdmission s (fun state => AdvanceMigrationFence state transitionID next).

Definition RevalidateLaneAdmissionCandidate (s : AuthorityStore) (identity : Identity)
    : result unit * AuthorityStore :=
  match LaneAdmissionSnapshot s with
  | Err e => (Err e, s)
  | Ok None => (Err ErrAdmissionClosed, s)
  | Ok (Some state) =>
      if negb (AllowsMutation state) || negb (is_identity identity (st_Active state))
         || negb (bool_decide (id_Role identity = RoleCandidateAdmission))
      then (Err ErrAdmissionClosed, s)
      else (Ok tt, set_runtime s true)
  end.

(** [WithLaneIngressMutation]; [mutate] is the guarded lifecycle mutation. *)
Definition WithLaneIngressMutation {A} (s : AuthorityStore) (mutate : AuthorityStore -> result A * AuthorityStore)
    : result A * AuthorityStore :=
  match LaneAdmissionSnapshot s with
  | Err e => (Err e, s)
  | Ok (Some state) =>
      if negb (laneAdmissionRuntime s) || negb (AllowsMutation state) then (Err ErrAdmissionClosed, s)
      else mutate s
  | Ok None => mutate s
  end.

(** A process restart keeps the database and clears the process-local flag. *)
Definition restart (s : AuthorityStore) : AuthorityStore := set_runtime s false.

(** ** Lemmas *)
Lemma readLaneAdmission_Ok o d d' :
  readLaneAdmissionOnConnection d = Ok (o, d') <->
  d' = d /\ ((o = None /\ lane_ingress_admission d = None) \/
    exists st, o = Some st /\ lane_ingress_admission d = Some (Some st) /\
      st_Enabled st = true /\ State_valid st = true).
Proof.
  unfold readLaneAdmissionOnConnection. rewrite stx_bind_Ok. setoid_rewrite query_Ok. split.
  - intros (row & d1 & [<- <-] & H). destruct (lane_ingress_admission d) as [[st|]|]; tx_inv H; [|by auto].
    bool_norm. naive_solver.
  - intros [-> [[-> Hr]|(st & -> & Hr & He & Hv)]]; exists (lane_ingress_admission d), d; rewrite Hr;
      (split; [done|]); [done|]. erewrite stx_bind_run; [done|]. apply fail_if_Ok.
    by rewrite He, Hv.
Qed.

Lemma writeLaneAdmission_Ok state insert u d d' :
  writeLaneAdmissionOnConnection state insert d = Ok (u, d') ->
  st_Enabled state = true /\ State_valid state = true /\
  is_Some_b (lane_ingress_admission d) = negb insert /\ d' = set_admission (Some (Some state)) d.
Proof.
  unfold writeLaneAdmissionOnConnection. intros H. tx_inv H. bool_norm.
  destruct insert; tx_inv Hrun0; bool_norm; by split_and!.
Qed.

Lemma checkIngress_Ok runtime u d d' :
  checkIngressAdmissionOnConnection runtime d = Ok (u, d') <->
  u = tt /\ d' = d /\ (lane_ingress_admission d = None \/
    runtime = true /\ exists st, lane_ingress_admission d = Some (Some st) /\ st_Enabled st = true /\
      State_valid st = true /\ AllowsMutation st = true).
Proof.
  unfold checkIngressAdmissionOnConnection. rewrite stx_bind_Ok. setoid_rewrite readLaneAdmission_Ok. split.
  - intros (o & d1 & [-> [[-> Hr]|(st & -> & Hr & He & Hv)]] & H); tx_inv H; [auto|]. bool_norm.
    split_and!; [done..|]. right. split; [done|]. eauto.
  - intros (-> & -> & [Hr|(-> & st & Hr & He & Hv & Ha)]).
    + exists None, d. split_and!; auto.
    + exists (Some st), d. split_and!; [done|right; eauto|]. apply fail_if_Ok. by rewrite Ha.
Qed.

(** The process-local flag is set only while the durable gate is open. *)
Definition runtime_inv (s : AuthorityStore) : Prop :=
  laneAdmissionRuntime s = true ->
  exists st, lane_ingress_admission (db s) = Some (Some st) /\ st_Enabled st = true /\
    State_valid st = true /\ AllowsMutation st = true.

Inductive admission_step : AuthorityStore -> AuthorityStore -> Prop :=
  | adm_configure s lane host s' r : ConfigureLaneAdmission s lane host = (r, s') -> admission_step s s'
  | adm_update s mutate s' r :
      (forall st st', mutate st = Ok st' -> lane_step st st') ->
      updateLaneAdmission s mutate = (r, s') -> admission_step s s'
  | adm_revalidate s identity s' r : RevalidateLaneAdmissionCandidate s identity = (r, s') -> admission_step s s'
  | adm_restart s : admission_step s (restart s).

Lemma LaneAdmissionSnapshot_Ok s o :
  LaneAdmissionSnapshot s = Ok o ->
  (o = None /\ lane_ingress_admission (db s) = None) \/
  exists st, o = Some st /\ lane_ingress_admission (db s) = Some (Some st) /\ st_Enabled st = true /\
    State_valid st = true.
Proof.
  unfold LaneAdmissionSnapshot, withReadTransaction.
  destruct (readLaneAdmissionOnConnection (db s)) as [[o' d']|] eqn:E; [|done]. intros [= <-].
  by apply readLaneAdmission_Ok in E as [_ ?].
Qed.

Lemma updateLaneAdmission_Ok s mutate s' :
  updateLaneAdmission s mutate = (Ok tt, s') ->
  exists st st', lane_ingress_admission (db s) = Some (Some st) /\ State_valid st = true /\
    mutate st = Ok st' /\ st_Enabled st' = true /\ State_valid st' = true /\
    db s' = set_admission (Some (Some st')) (db s) /\
    laneAdmissionRuntime s' =
      (if negb (AllowsMutation st') then false
       else if negb (AllowsMutation st) then true else laneAdmissionRuntime s).
Proof.
  unfold updateLaneAdmission. destruct (withImmediateTransaction _ _) as [[[w a]|e] s1] eqn:E; [|done].
  intros H. injection H as H. apply withImmediateTransaction_Ok in E as (d' & E & ->).
  apply stx_bind_Ok in E as (o & d1 & [-> Hr]%readLaneAdmission_Ok & E).
  apply stx_bind_Ok in E as (st & d1 & [-> <-]%or_fail_Ok & E).
  apply stx_bind_Ok in E as (st' & d1' & [Hm <-]%lift_Ok & E).
  apply stx_bind_Ok in E as (u & d2 & (He & Hv & _ & ->)%writeLaneAdmission_Ok & E).
  apply stx_ret_Ok in E as [E <-]. injection E as <- <-.
  destruct Hr as [[? _]|(st0 & [= <-] & Hr & He0 & Hv0)]; [done|].
  exists st, st'. split_and!; try done.
  - rewrite <- H. by destruct (AllowsMutation st'), (AllowsMutation st).
  - rewrite <- H. by destruct (AllowsMutation st'), (AllowsMutation st).
Qed.

Lemma updateLaneAdmission_Err s mutate e s' : updateLaneAdmission s mutate = (Err e, s') -> s' = s.
Proof.
  unfold updateLaneAdmission. destruct (withImmediateTransaction _ _) as [[[w a]|e'] s1] eqn:E; [done|].
  intros [= _ <-]. by apply withImmediateTransaction_Err in E as [_ ->].
Qed.

Lemma ConfigureLaneAdmission_runtime s lane host r s' :
  ConfigureLaneAdmission s lane host = (r, s') -> s' = s \/ laneAdmissionRuntime s' = false.
Proof.
  unfold ConfigureLaneAdmission. destruct (NewState lane host); [|naive_solver].
  destruct (withImmediateTransaction _ _) as [[u|e] s1] eqn:E; intros [= _ <-]; [by right|].
  apply withImmediateTransaction_Err in E as [_ ->]. by left.
Qed.

Lemma admission_step_inv s s' : runtime_inv s -> admission_step s s' -> runtime_inv s'.
Proof.
  intros Hinv. destruct 1 as [s lane host s' r H|s mutate s' r Hmut H|s identity s' r H|s].
  - apply ConfigureLaneAdmission_runtime in H as [->|H]; [done|]. unfold runtime_inv. by rewrite H.
  - destruct r as [[]|e]; [|by apply updateLaneAdmission_Err in H as ->].
    apply updateLaneAdmission_Ok in H as (st & st' & Hr & _ & _ & He & Hv & Hdb & Hrt).
    unfold runtime_inv. rewrite Hrt, Hdb. simpl. destruct (AllowsMutation st') eqn:Ha; simpl; [|done]. eauto.
  - unfold RevalidateLaneAdmissionCandidate in H. destruct (LaneAdmissionSnapshot s) as [[st|]|e] eqn:Hs;
      [|naive_solver..]. destruct (_ || _) eqn:Hg; [naive_solver|]. injection H as _ <-. bool_norm.
    intros _. apply LaneAdmissionSnapshot_Ok in Hs as [[? _]|(st' & [= <-] & ? & ? & ?)]; [done|]. simpl. eauto.
  - by intros.
Qed.

(** ** Theorems *)

(** An accepting transaction passes the ingress check exactly when the
    authority has no V3 gate, or the gate row is intact, open, and this process
    has opened or revalidated it. *)
Theorem ingress_gate_spec runtime d :
  result_is_ok (checkIngressAdmissionOnConnection runtime d) = true <->
  lane_ingress_admission d = None \/
  runtime = true /\ exists st, lane_ingress_admission d = Some (Some st) /\ st_Enabled st = true /\
    State_valid st = true /\ AllowsMutation st = true.
Proof.
  destruct (checkIngressAdmissionOnConnection runtime d) as [[u d']|e] eqn:E; simpl.
  - apply checkIngress_Ok in E as (_ & _ & ?). done.
  - split; [done|]. intros H. assert (checkIngressAdmissionOnConnection runtime d = Ok (tt, d)); [|congruence].
    by apply checkIngress_Ok.
Qed.

(** Along every sequence of admission operations and restarts, this
    process accepts work under a configured gate only while the durable gate
    row is open: closing or fencing the row closes the process. *)
Theorem admission_flag_sound s s' :
  laneAdmissionRuntime s = false -> rtc admission_step s s' -> laneAdmissionRuntime s' = true ->
  exists st, lane_ingress_admission (db s') = Some (Some st) /\ AllowsMutation st = true.
Proof.
  intros H0 Hsteps Hrt. assert (runtime_inv s') as Hinv.
  { assert (runtime_inv s) as Hs by (unfold runtime_inv; congruence). clear H0 Hrt.
    induction Hsteps; eauto using admission_step_inv. }
  destruct (Hinv Hrt) as (st & ? & _ & _ & ?). eauto.
Qed.

(** Replaying the opening directive on a gate row that is already open
    does not re-enable a restarted process: every accepting transaction is
    still refused until the exact open context is revalidated. *)
Theorem replay_open_is_not_revalidation s st identity s' :
  lane_ingress_admission (db s) = Some (Some st) -> AllowsMutation st = true ->
  AdvanceLaneAdmissionCandidate (restart s) identity PhaseOpen = (Ok tt, s') ->
  checkIngressAdmissionOnConnection (laneAdmissionRuntime s') (db s') = Err ErrAdmissionClosed.
Proof.
  intros Hr Ha H. apply updateLaneAdmission_Ok in H as (st0 & st' & Hr0 & _ & _ & He & Hv & -> & ->).
  simpl in Hr0. rewrite Hr in Hr0. injection Hr0 as <-. rewrite Ha. simpl.
  destruct (AllowsMutation st'); simpl; unfold checkIngressAdmissionOnConnection;
    (erewrite stx_bind_run; [|apply readLaneAdmission_Ok; split; [reflexivity|right; eauto]]); done.
Qed.

Definition example_open_store : AuthorityStore :=
  mkAuthorityStore (set_admission (Some (Some (example_gate PhaseOpen))) empty_db) true [] [].

Lemma admission_flag_sound_witness :
  exists st, lane_ingress_admission (db example_open_store) = Some (Some st) /\ AllowsMutation st = true.
Proof.
  apply (admission_flag_sound (mkAuthorityStore (set_admission (Some (Some (example_gate PhaseTransportReady))) empty_db)
    false [] []) example_open_store); [reflexivity| |reflexivity].
  apply rtc_once. apply (adm_update _ (fun st => AdvanceCandidate st example_candidate PhaseOpen) _ (Ok tt));
    [|reflexivity]. intros st st' H. by apply (step_advance st st' example_candidate PhaseOpen).
Defined.

Lemma replay_open_is_not_revalidation_witness :
  checkIngressAdmissionOnConnection false (db example_open_store) = Err ErrAdmissionClosed.
Proof.
  apply (replay_open_is_not_revalidation example_open_store (example_gate PhaseOpen) example_candidate
    (restart example_open_store)); reflexivity.
Defined.
