(* ===== verification/Idempotency.v ===== *)
(** * Idempotency records

    Models [src/src/internal/store/idempotency.go]: the binding of a mutation
    key to a request hash and a resource, its expiry, and the warning that
    survives the expiry for one metadata-retention window.  The zero retention
    selects [DefaultSessionIdempotencyRetention]. *)
From S2P Require Import Prelude GoStrings Sha256 Identity Canonical LaneAdmission AuditRecords Db.
From S2P Require Import AuditStore.

Definition DefaultSessionIdempotencyRetention : Z := 90 * 24 * hour.
(** store/gc.go *)
Definition DefaultMetadataRetention : Z := 90 * 24 * hour.

Record IdempotencyRecord : Type := mkIdempotencyRecord {
  idem_Controller : ControllerIdentity;
  idem_Operation : string;
  idem_Key : string;
  idem_Hash : CanonicalHash;
  idem_ResourceID : string;
  idem_CreatedAt : Z;
  idem_ExpiresAt : Z;
  idem_DeduplicationWarning : bool
}.

Record validatedIdempotencyInput : Type := mkValidatedInput {
  vi_record : IdempotencyRecord;
  vi_Retention : Z
}.

(** [input.CreatedAt, input.ExpiresAt = ...] and [input.DeduplicationWarning = ...] *)
Definition stamped (input : validatedIdempotencyInput) (createdAt expiresAt : Z) (warning : bool)
    : IdempotencyRecord :=
  let r := vi_record input in
  mkIdempotencyRecord (idem_Controller r) (idem_Operation r) (idem_Key r) (idem_Hash r)
    (idem_ResourceID r) createdAt expiresAt warning.

Definition idem_key (controller : ControllerIdentity) (operation key : string) : IdemKey :=
  (ControllerType_text (controller_typeName controller), controller_id controller, operation, key).

(** [x == "" || len(x) > max || strings.IndexByte(x, 0) >= 0] *)
Definition bad_text (max : Z) (x : string) : bool :=
  is_empty x || (max <? go_len x) || contains_nul x.

Definition validateController (controller : ControllerIdentity) : result ControllerIdentity :=
  id ← result_map_err (fun _ => ErrInvalidIdempotency) (NewControllerID (controller_id controller));
  result_map_err (fun _ => ErrInvalidIdempotency)
    (NewControllerIdentity (controller_typeName controller) id).

Definition validateIdempotencyOperationKey (operation key : string) : result (string * string) :=
  if bad_text 128 operation then Err ErrInvalidIdempotency
  else if bad_text 256 key then Err ErrIdempotencyKey
  else Ok (operation, key).

Definition validateIdempotencyInput (controller : ControllerIdentity) (operation key : string)
    (hash : CanonicalHash) (resourceID : string) (retention : Z) : result validatedIdempotencyInput :=
  validatedController ← validateController controller;
  opkey ← validateIdempotencyOperationKey operation key;
  validatedHash ← result_map_err (fun _ => ErrInvalidIdempotency)
    (NewCanonicalHash (hash_version hash) (hash_digest hash));
  refuse_if (bad_text 256 resourceID) ErrInvalidIdempotency;;
  let retention' := if retention =? 0 then DefaultSessionIdempotencyRetention else retention in
  refuse_if (retention' <? 0) ErrInvalidIdempotency;;
  Ok (mkValidatedInput (mkIdempotencyRecord validatedController (fst opkey) (snd opkey) validatedHash
        resourceID 0 0 false) retention').

(** [binary.BigEndian.PutUint64] of a length, then the value, for each part. *)
Definition length_prefixed (value : string) : list Z :=
  Sha256.be_bytes 8 (go_len value mod 2 ^ 64) ++ bytes_of value.
Definition fingerprint_input (parts : list string) : list Z := concat (length_prefixed <$> parts).

Definition idempotencyKeyFingerprint (controller : ControllerIdentity) (operation key : string) : string :=
  sha256 (string_of (fingerprint_input
    [ControllerType_text (controller_typeName controller); controller_id controller; operation; key])).

Definition warning_key (controller : ControllerIdentity) (operation key : string) : IdemKey :=
  (ControllerType_text (controller_typeName controller), controller_id controller, operation,
   idempotencyKeyFingerprint controller operation key).

Definition recordIdempotencyExpiryWarningOnConnection (controller : ControllerIdentity)
    (operation key : string) (expiresAt now : Z) : tx unit :=
  let warningUntil := expiresAt + DefaultMetadataRetention in
  if negb (now <? warningUntil) then mret tt
  else
    let wkey := warning_key controller operation key in
    existing ← query (fun d => exec_idempotency_expiry_warnings d !! wkey);
    match existing with
    | None => insert_warning wkey (formatStoredTime warningUntil)
    | Some text =>
        existingUntil ← or_fail (parseStoredTime text) (ErrText "parse existing idempotency expiry warning");
        if negb (existingUntil <? warningUntil) then mret tt
        else modify (fun d => set_warnings
          (<[wkey := formatStoredTime warningUntil]> (exec_idempotency_expiry_warnings d)) d)
    end.

(** [lookupIdempotencyOnConnection]; [None] is [found = false]. *)
Definition lookupIdempotencyOnConnection (controller : ControllerIdentity) (operation key : string)
    (now : Z) : tx (option IdempotencyRecord) :=
  let ikey := idem_key controller operation key in
  row ← query (fun d => exec_idempotency d !! ikey);
  match row with
  | None => mret None
  | Some row =>
      createdAt ← or_fail (parseStoredTime (i_created_at row)) ErrInvalidIdempotency;
      expiresAt ← or_fail (parseStoredTime (i_expires_at row)) ErrInvalidIdempotency;
      if negb (now <? expiresAt) then
        recordIdempotencyExpiryWarningOnConnection controller operation key expiresAt now;;
        modify (fun d => set_idempotency (delete ikey (exec_idempotency d)) d);;
        mret None
      else
        hash ← lift (result_map_err (fun _ => ErrInvalidIdempotency)
          (NewCanonicalHash (uint16 (i_hash_version row)) (i_hash row)));
        fail_if (bad_text 256 (i_resource_id row)) ErrInvalidIdempotency;;
        mret (Some (mkIdempotencyRecord controller operation key hash (i_resource_id row)
                      createdAt expiresAt (i_warning row)))
  end.

Definition idempotency_row (r : IdempotencyRecord) : IdempotencyRow :=
  mkIdempotencyRow (hash_version (idem_Hash r)) (hash_digest (idem_Hash r)) (idem_ResourceID r)
    (formatStoredTime (idem_CreatedAt r)) (formatStoredTime (idem_ExpiresAt r))
    (idem_DeduplicationWarning r).

Definition recordIdempotencyOnConnection (r : IdempotencyRecord) : tx unit :=
  insert_idempotency (idem_key (idem_Controller r) (idem_Operation r) (idem_Key r)) (idempotency_row r).

Definition idempotencyExpiryWarningOnConnection (controller : ControllerIdentity) (operation key : string)
    (now : Z) : tx bool :=
  row ← query (fun d => exec_idempotency_expiry_warnings d !! warning_key controller operation key);
  match row with
  | None => mret false
  | Some text =>
      warningUntil ← or_fail (parseStoredTime text) (ErrText "parse idempotency expiry warning");
      mret (now <? warningUntil)
  end.

(** [EnsureIdempotencyWithAudit]; the result carries [duplicate]. *)
Definition EnsureIdempotencyWithAudit (s : AuthorityStore) (now : Z) (controller : ControllerIdentity)
    (operation key : string) (hash : CanonicalHash) (resourceID : string) (retention : Z)
    (actionAudit : option AuditRecord) : result (IdempotencyRecord * bool) * AuthorityStore :=
  match validateIdempotencyInput controller operation key hash resourceID retention with
  | Err e => (Err e, s)
  | Ok validated =>
      let r := vi_record validated in
      match withImmediateTransaction s
        (existing ← lookupIdempotencyOnConnection (idem_Controller r) (idem_Operation r) (idem_Key r) now;
         match existing with
         | Some existing =>
             fail_if (is_conflict (CompareIdempotency (idem_Hash existing) (idem_Hash r))) ErrIdempotencyConflict;;
             saved ← insertOptionalAuditOnConnection actionAudit;
             mret (existing, true, saved)
         | None =>
             warning ← idempotencyExpiryWarningOnConnection (idem_Controller r) (idem_Operation r) (idem_Key r) now;
             let record := stamped validated now (now + vi_Retention validated) warning in
             recordIdempotencyOnConnection record;;
             saved ← insertOptionalAuditOnConnection actionAudit;
             mret (record, false, saved)
         end) with
      | (Ok (record, duplicate, saved), s') => (Ok (record, duplicate), logOptionalAudit s' saved)
      | (Err e, s') => (Err e, s')
      end
  end.

Definition EnsureIdempotency (s : AuthorityStore) (now : Z) (controller : ControllerIdentity)
    (operation key : string) (hash : CanonicalHash) (resourceID : string) (retention : Z) :=
  EnsureIdempotencyWithAudit s now controller operation key hash resourceID retention None.

Definition LookupIdempotency (s : AuthorityStore) (now : Z) (controller : ControllerIdentity)
    (operation key : string) : result (option IdempotencyRecord) * AuthorityStore :=
  match validateController controller with
  | Err e => (Err e, s)
  | Ok validatedController =>
      match validateIdempotencyOperationKey operation key with
      | Err e => (Err e, s)
      | Ok (operation', key') =>
          withImmediateTransaction s (lookupIdempotencyOnConnection validatedController operation' key' now)
      end
  end.

(** ** Lemmas: validation *)
Definition text_ok (max : Z) (x : string) : Prop := x <> "" /\ go_len x <= max /\ contains_nul x = false.

Lemma bad_text_false max x : bad_text max x = false <-> text_ok max x.
Proof.
  unfold bad_text, text_ok. rewrite !orb_false_iff, is_empty_false, Z.ltb_ge. tauto.
Qed.

Lemma validateController_Ok c c' :
  validateController c = Ok c' <->
  c' = c /\ known_controller (controller_typeName c) /\ controller_id c <> "".
Proof.
  unfold validateController. rewrite result_bind_Ok. setoid_rewrite result_map_err_Ok.
  setoid_rewrite NewControllerID_Ok. setoid_rewrite NewControllerIdentity_Ok.
  destruct c as [t i]; simpl. naive_solver.
Qed.

Lemma validateIdempotencyOperationKey_Ok o k r :
  validateIdempotencyOperationKey o k = Ok r <-> r = (o, k) /\ text_ok 128 o /\ text_ok 256 k.
Proof.
  unfold validateIdempotencyOperationKey. rewrite <- !bad_text_false.
  destruct (bad_text 128 o), (bad_text 256 k); naive_solver.
Qed.

(** What a well-formed binding request is. *)
Record idem_input_ok (c : ControllerIdentity) (o k : string) (h : CanonicalHash) (rid : string) (ret : Z) : Prop := {
  io_controller : known_controller (controller_typeName c) /\ controller_id c <> "";
  io_operation : text_ok 128 o;
  io_key : text_ok 256 k;
  io_hash : hash_version h <> 0 /\ go_len (hash_digest h) = sha256_Size;
  io_resource : text_ok 256 rid;
  io_retention : 0 <= ret
}.

Definition effective_retention (ret : Z) : Z := if ret =? 0 then DefaultSessionIdempotencyRetention else ret.

Lemma effective_retention_pos ret : 0 <= ret -> 0 < effective_retention ret.
Proof.
  unfold effective_retention. destruct (Z.eqb_spec ret 0); [|lia].
  intros _. reflexivity.
Qed.

Lemma validateIdempotencyInput_Ok c o k h rid ret v :
  validateIdempotencyInput c o k h rid ret = Ok v <->
  v = mkValidatedInput (mkIdempotencyRecord c o k h rid 0 0 false) (effective_retention ret) /\
  idem_input_ok c o k h rid ret.
Proof.
  unfold validateIdempotencyInput. cbv zeta. fold (effective_retention ret). split.
  - intros H. tx_inv H. apply validateController_Ok in Hrun as (-> & Hc1 & Hc2).
    apply validateIdempotencyOperationKey_Ok in Hrun0 as (-> & Ho & Hk).
    apply NewCanonicalHash_Ok in Hrun1 as (-> & Hv & Hd). apply bad_text_false in Hrun2.
    destruct h; simpl in *. split; [done|]. constructor; try done.
    unfold effective_retention in *. destruct (Z.eqb_spec ret 0); bool_norm; lia.
  - intros [-> [Hc Ho Hk [Hv Hd] Hr Hret]].
    rewrite (proj2 (validateController_Ok c c)) by done. simpl.
    rewrite (proj2 (validateIdempotencyOperationKey_Ok o k (o, k))) by done. simpl.
    rewrite (proj2 (NewCanonicalHash_Ok _ _ h)) by (by destruct h). simpl.
    rewrite (proj2 (bad_text_false _ _)) by done. simpl.
    rewrite (proj2 (Z.ltb_ge _ _)); [done|]. pose proof (effective_retention_pos ret Hret). lia.
Qed.

(** ** Lemmas: the tables *)

(** Only the idempotency tables differ. *)
Definition idem_frame (d d' : DB) : Prop :=
  d' = set_idempotency (exec_idempotency d') (set_warnings (exec_idempotency_expiry_warnings d') d).

#[export] Instance idem_frame_refl : Reflexive idem_frame.
Proof. intros []. done. Qed.
#[export] Instance idem_frame_trans : Transitive idem_frame.
Proof. unfold idem_frame. intros [] [] [] H1 H2. db_simpl. injection H1. injection H2. intros. by subst. Qed.

(** Every row passed its CHECK clauses and can be read back. *)
Record idem_wf (d : DB) : Prop := {
  iw_rows : map_Forall (fun key row => idempotency_checks key row = true /\
      is_Some (parseStoredTime (i_created_at row)) /\
      (exists e, parseStoredTime (i_expires_at row) = Some e /\ storable (e + DefaultMetadataRetention)) /\
      i_hash_version row < 65536 /\ text_ok 256 (i_resource_id row)) (exec_idempotency d);
  iw_warnings : map_Forall (fun _ t => is_Some (parseStoredTime t)) (exec_idempotency_expiry_warnings d)
}.

Lemma recordWarning_frame c o k e now u d d' :
  recordIdempotencyExpiryWarningOnConnection c o k e now d = Ok (u, d') ->
  idem_frame d d' /\ exec_idempotency d' = exec_idempotency d /\
  (now < e + DefaultMetadataRetention -> storable (e + DefaultMetadataRetention) ->
   exists t w, exec_idempotency_expiry_warnings d' !! warning_key c o k = Some t /\
     parseStoredTime t = Some w /\ e + DefaultMetadataRetention <= w).
Proof.
  unfold recordIdempotencyExpiryWarningOnConnection. cbv zeta. set (until := e + DefaultMetadataRetention).
  destruct (now <? until) eqn:E; simpl; bool_norm.
  2:{ intros H. tx_inv H. split_and!; [done..|lia]. }
  intros H. apply stx_bind_Ok in H as (x & d1 & [<- <-]%query_Ok & H).
  destruct (exec_idempotency_expiry_warnings d !! warning_key c o k) as [t|] eqn:Ht.
  - apply stx_bind_Ok in H as (w & d1 & [Hp <-]%or_fail_Ok & H).
    destruct (w <? until) eqn:Hw; simpl in H; tx_inv H; bool_norm.
    + split_and!; [done..|]. intros _ Hst. db_simpl. rewrite lookup_insert_eq.
      eexists _, until. split_and!; [done| |lia]. by apply parse_format.
    + split_and!; [done..|]. intros. eauto.
  - apply insert_warning_Ok in H as (_ & -> & ->). split_and!; [done..|]. intros _ Hst. db_simpl.
    rewrite lookup_insert_eq. eexists _, until. split_and!; [done| |lia]. by apply parse_format.
Qed.

Lemma lookupIdempotency_frame c o k now r d d' :
  lookupIdempotencyOnConnection c o k now d = Ok (r, d') ->
  idem_frame d d' /\
  match r with
  | Some r => d' = d /\ exists row, exec_idempotency d !! idem_key c o k = Some row /\
      parseStoredTime (i_created_at row) = Some (idem_CreatedAt r) /\
      parseStoredTime (i_expires_at row) = Some (idem_ExpiresAt r) /\ now < idem_ExpiresAt r /\
      NewCanonicalHash (uint16 (i_hash_version row)) (i_hash row) = Ok (idem_Hash r) /\
      text_ok 256 (i_resource_id row) /\
      r = mkIdempotencyRecord c o k (idem_Hash r) (i_resource_id row) (idem_CreatedAt r)
            (idem_ExpiresAt r) (i_warning row)
  | None => exec_idempotency d' = delete (idem_key c o k) (exec_idempotency d)
  end.
Proof.
  unfold lookupIdempotencyOnConnection. cbv zeta. intros H.
  apply stx_bind_Ok in H as (x & d1 & [<- <-]%query_Ok & H).
  destruct (exec_idempotency d !! idem_key c o k) as [row|] eqn:Hrow.
  2:{ tx_inv H. split; [done|]. by rewrite delete_id. }
  apply stx_bind_Ok in H as (ca & d1 & [Hca <-]%or_fail_Ok & H).
  apply stx_bind_Ok in H as (ea & d1 & [Hea <-]%or_fail_Ok & H).
  destruct (now <? ea) eqn:Hnow; simpl in H; bool_norm.
  - tx_inv H. split; [done|]. split; [done|]. exists row. simpl. rewrite bad_text_false in *. split_and!; done.
  - apply stx_bind_Ok in H as (u & d1 & (Hf & Hi & _)%recordWarning_frame & H). tx_inv H. db_simpl.
    rewrite Hi. split; [|done]. rewrite Hf at 1. done.
Qed.

(** A retained row is found. *)
Lemma lookupIdempotency_hit c o k now d row ca ea h :
  exec_idempotency d !! idem_key c o k = Some row ->
  parseStoredTime (i_created_at row) = Some ca -> parseStoredTime (i_expires_at row) = Some ea ->
  now < ea -> NewCanonicalHash (uint16 (i_hash_version row)) (i_hash row) = Ok h ->
  text_ok 256 (i_resource_id row) ->
  lookupIdempotencyOnConnection c o k now d =
  Ok (Some (mkIdempotencyRecord c o k h (i_resource_id row) ca ea (i_warning row)), d).
Proof.
  intros Hrow Hca Hea Hnow Hh Hr. unfold lookupIdempotencyOnConnection. cbv zeta.
  tx_run. rewrite Hrow, Hca, Hea. tx_run. rewrite (proj2 (Z.ltb_lt _ _)) by done.
  rewrite Hh. simpl. tx_run. rewrite (proj2 (bad_text_false _ _)) by done. done.
Qed.

(** An expired row is removed, and its warning is recorded. *)
Lemma recordWarning_total c o k e now d :
  idem_wf d -> warning_checks (warning_key c o k) = true ->
  exists d', recordIdempotencyExpiryWarningOnConnection c o k e now d = Ok (tt, d').
Proof.
  intros [_ Hw] Hc. unfold recordIdempotencyExpiryWarningOnConnection. cbv zeta.
  destruct (now <? _); simpl; [|by eexists]. tx_run.
  destruct (exec_idempotency_expiry_warnings d !! warning_key c o k) as [t|] eqn:Ht.
  - destruct (Hw _ _ Ht) as [w ->]. tx_run. destruct (w <? _); by eexists.
  - eexists. apply insert_warning_Ok. rewrite Ht, Hc. by split_and!.
Qed.

Lemma warning_checks_of_row c o k row :
  idempotency_checks (idem_key c o k) row = true -> warning_checks (warning_key c o k) = true.
Proof.
  unfold idempotency_checks, warning_checks, idem_key, warning_key. intros H. bool_norm.
  rewrite !andb_true_iff, bool_decide_eq_true. unfold idempotencyKeyFingerprint. rewrite sha256_length.
  by split_and!.
Qed.

Lemma logOptionalAudit_db s saved : db (logOptionalAudit s saved) = db s.
Proof. destruct saved as [x|]; simpl; [|done]. by destruct (0 <? rec_ID x). Qed.

(** The binding [r] is stored and readable. *)
Definition retained (d : DB) (r : IdempotencyRecord) : Prop :=
  exists row, exec_idempotency d !! idem_key (idem_Controller r) (idem_Operation r) (idem_Key r) = Some row /\
    parseStoredTime (i_created_at row) = Some (idem_CreatedAt r) /\
    parseStoredTime (i_expires_at row) = Some (idem_ExpiresAt r) /\
    NewCanonicalHash (uint16 (i_hash_version row)) (i_hash row) = Ok (idem_Hash r) /\
    text_ok 256 (i_resource_id row) /\ i_resource_id row = idem_ResourceID r /\
    i_warning row = idem_DeduplicationWarning r.

Lemma lookup_retained d r now :
  retained d r -> now < idem_ExpiresAt r ->
  lookupIdempotencyOnConnection (idem_Controller r) (idem_Operation r) (idem_Key r) now d = Ok (Some r, d).
Proof.
  intros (row & Hrow & Hc & He & Hh & Hr & Hrid & Hw) Hnow.
  erewrite lookupIdempotency_hit by done. rewrite Hrid, Hw. by destruct r.
Qed.

Lemma lookup_Some_retained c o k now r d d' :
  lookupIdempotencyOnConnection c o k now d = Ok (Some r, d') ->
  d' = d /\ retained d r /\ now < idem_ExpiresAt r /\
  idem_Controller r = c /\ idem_Operation r = o /\ idem_Key r = k.
Proof.
  intros (_ & -> & row & Hrow & Hc & He & Hnow & Hh & Hr & Heq)%lookupIdempotency_frame.
  rewrite Heq. simpl. split_and!; try done. exists row. by split_and!.
Qed.

(** A fresh binding is readable when its timestamps are. *)
Lemma recorded_retained r d :
  exec_idempotency d !! idem_key (idem_Controller r) (idem_Operation r) (idem_Key r) = Some (idempotency_row r) ->
  storable (idem_CreatedAt r) -> storable (idem_ExpiresAt r) -> hash_wf (idem_Hash r) ->
  text_ok 256 (idem_ResourceID r) -> retained d r.
Proof.
  intros Hrow Hc He Hh Hr. exists (idempotency_row r). unfold idempotency_row. simpl.
  rewrite !parse_format by done. split_and!; try done. by apply NewCanonicalHash_stored.
Qed.

Lemma expiryWarning_read c o k now w d d' :
  idempotencyExpiryWarningOnConnection c o k now d = Ok (w, d') ->
  d' = d /\ (w = true <-> exists t until, exec_idempotency_expiry_warnings d !! warning_key c o k = Some t /\
    parseStoredTime t = Some until /\ now < until).
Proof.
  unfold idempotencyExpiryWarningOnConnection. intros H. apply stx_bind_Ok in H as (x & d1 & [<- <-]%query_Ok & H).
  destruct (exec_idempotency_expiry_warnings d !! warning_key c o k) as [t|].
  - apply stx_bind_Ok in H as (u & d1 & [Hp <-]%or_fail_Ok & H). apply stx_ret_Ok in H as [<- <-].
    rewrite Z.ltb_lt. naive_solver.
  - apply stx_ret_Ok in H as [<- <-]. naive_solver.
Qed.

Definition idem_binding c o k h rid created expires warning : IdempotencyRecord :=
  mkIdempotencyRecord c o k h rid created expires warning.

Lemma Ensure_Ok s now c o k h rid ret a r dup s' :
  EnsureIdempotencyWithAudit s now c o k h rid ret a = (Ok (r, dup), s') ->
  idem_input_ok c o k h rid ret /\ idem_Controller r = c /\ idem_Operation r = o /\ idem_Key r = k /\
  idem_Hash r = h /\
  if dup then retained (db s) r /\ now < idem_ExpiresAt r /\ exec_idempotency (db s') = exec_idempotency (db s)
  else (exists w, r = idem_binding c o k h rid now (now + effective_retention ret) w) /\
       exec_idempotency (db s') = <[idem_key c o k := idempotency_row r]> (delete (idem_key c o k) (exec_idempotency (db s))).
Proof.
  unfold EnsureIdempotencyWithAudit. destruct (validateIdempotencyInput _ _ _ _ _ _) eqn:Hv; [|done].
  apply validateIdempotencyInput_Ok in Hv as [-> Hin]. simpl.
  destruct (withImmediateTransaction _ _) as [[[[r0 dup0] saved]|e] s1] eqn:E; [|done].
  intros [= -> -> <-]. apply withImmediateTransaction_Ok in E as (d' & E & ->).
  rewrite logOptionalAudit_db. simpl. split; [done|].
  apply stx_bind_Ok in E as ([ex|] & d1 & Hl & E).
  - apply lookup_Some_retained in Hl as (-> & Hret & Hnow & Hc & Ho & Hk). tx_inv E.
    apply CompareIdempotency_same in Hrun as [Heq _]. apply insertOptionalAudit_other in Hrun0 as [-> _].
    split_and!; done.
  - apply lookupIdempotency_frame in Hl as [_ Hdel]. apply stx_bind_Ok in E as (w & d2 & Hw & E).
    assert (d2 = d1) as ->.
    { by apply expiryWarning_read in Hw as []. }
    apply stx_bind_Ok in E as (u & d3 & Hi & E). unfold recordIdempotencyOnConnection in Hi.
    apply insert_idempotency_Ok in Hi as (_ & _ & ->). tx_inv E.
    apply insertOptionalAudit_other in Hrun as [-> _]. simpl. rewrite Hdel.
    split_and!; try done. by eexists.
Qed.

Lemma Ensure_retained s now c o k h rid ret a r dup s' :
  EnsureIdempotencyWithAudit s now c o k h rid ret a = (Ok (r, dup), s') ->
  storable now -> storable (idem_ExpiresAt r) -> hash_wf h -> retained (db s') r.
Proof.
  intros ([_ _ _ _ Hrid _] & Hc & Ho & Hk & Hh & Hr)%Ensure_Ok Hnow He Hwf. destruct dup.
  - destruct Hr as [(row & Hrow & Hrest) [_ Heq]]. exists row. by rewrite Heq.
  - destruct Hr as [[w ->] Heq]. apply recorded_retained; simpl in *; try done.
    rewrite Heq. apply lookup_insert_eq.
Qed.

Lemma text_ok_sql max x : text_ok max x -> sql_length_pos x = true.
Proof.
  intros (Hne & _ & Hnul). destruct x as [|a x]; [done|]. simpl in *. apply orb_false_iff in Hnul as [-> _]. done.
Qed.

Lemma controller_text_known t : known_controller t ->
  bool_decide (ControllerType_text t ∈ ["local_user"; "queued_mac"; "direct_mtls"]) = true.
Proof. destruct t; intros H; [done..|by destruct H]. Qed.

Lemma binding_checks c o k h rid ret created expires w :
  idem_input_ok c o k h rid ret -> hash_wf h -> sql_length_pos (controller_id c) = true ->
  idempotency_checks (idem_key c o k) (idempotency_row (idem_binding c o k h rid created expires w)) = true.
Proof.
  intros [[Hc _] Ho Hk _ Hr _] [Hv Hd] Hcid. unfold idempotency_checks, idem_key, idempotency_row. simpl.
  rewrite controller_text_known, Hcid, !(text_ok_sql _ _ Ho), (text_ok_sql _ _ Hk), (text_ok_sql _ _ Hr) by done.
  rewrite (proj2 (Z.ltb_lt _ _)), (proj2 (Z.eqb_eq _ _)) by (done || lia). done.
Qed.

Lemma recordWarning_wf c o k e now u d d' :
  recordIdempotencyExpiryWarningOnConnection c o k e now d = Ok (u, d') ->
  storable (e + DefaultMetadataRetention) -> idem_wf d -> idem_wf d'.
Proof.
  intros H Hst [Hrows Hw]. pose proof (recordWarning_frame _ _ _ _ _ _ _ _ H) as (_ & Heq & _).
  split; [by rewrite Heq|]. unfold recordIdempotencyExpiryWarningOnConnection in H. cbv zeta in H.
  destruct (now <? _); simpl in H; [|by tx_inv H].
  apply stx_bind_Ok in H as (x & d1 & [<- <-]%query_Ok & H).
  destruct (exec_idempotency_expiry_warnings d !! warning_key c o k) as [t|] eqn:Ht.
  - apply stx_bind_Ok in H as (w & d1 & [Hp <-]%or_fail_Ok & H).
    destruct (w <? _); simpl in H; tx_inv H; [|done]. db_simpl. apply map_Forall_insert_2; [|done].
    rewrite parse_format by done. eauto.
  - apply insert_warning_Ok in H as (_ & -> & ->). db_simpl. apply map_Forall_insert_2; [|done].
    rewrite parse_format by done. eauto.
Qed.

(** Looking up an expired binding removes it and remembers that it existed. *)
Lemma lookup_expired d r now :
  idem_wf d -> retained d r -> idem_ExpiresAt r <= now ->
  exists d', lookupIdempotencyOnConnection (idem_Controller r) (idem_Operation r) (idem_Key r) now d = Ok (None, d') /\
    idem_wf d' /\
    exec_idempotency d' = delete (idem_key (idem_Controller r) (idem_Operation r) (idem_Key r)) (exec_idempotency d) /\
    (now < idem_ExpiresAt r + DefaultMetadataRetention ->
     exists t w, exec_idempotency_expiry_warnings d' !! warning_key (idem_Controller r) (idem_Operation r) (idem_Key r) = Some t /\
       parseStoredTime t = Some w /\ now < w).
Proof.
  intros Hwf (row & Hrow & Hc & He & _) Hnow.
  assert (storable (idem_ExpiresAt r + DefaultMetadataRetention)) as Hst.
  { destruct (iw_rows _ Hwf _ _ Hrow) as (_ & _ & (e & He' & ?) & _). by simplify_eq. }
  destruct (recordWarning_total (idem_Controller r) (idem_Operation r) (idem_Key r) (idem_ExpiresAt r) now d Hwf)
    as [d1 Hd1].
  { destruct Hwf as [Hrows _]. eapply warning_checks_of_row, (Hrows _ _ Hrow). }
  pose proof (recordWarning_wf _ _ _ _ _ _ _ _ Hd1 Hst Hwf) as Hwf1.
  pose proof (recordWarning_frame _ _ _ _ _ _ _ _ Hd1) as (_ & Hi & Hwarn).
  eexists. split.
  { unfold lookupIdempotencyOnConnection. cbv zeta. tx_run. rewrite Hrow, Hc, He. tx_run.
    rewrite (proj2 (Z.ltb_ge _ _)) by done. cbn [negb].
    rewrite (stx_bind_run _ _ _ _ _ Hd1). tx_run. done. }
  db_simpl. rewrite Hi. split_and!; [|done|].
  - destruct Hwf1 as [Hr1 Hw1]. split; db_simpl; [|done]. rewrite <- Hi. by apply map_Forall_delete.
  - intros Hlt. destruct (Hwarn Hlt Hst) as (t & w & ? & ? & ?). exists t, w. split_and!; [done..|lia].
Qed.

Lemma expiryWarning_total c o k now d :
  idem_wf d -> exists w, idempotencyExpiryWarningOnConnection c o k now d = Ok (w, d).
Proof.
  intros [_ Hw]. unfold idempotencyExpiryWarningOnConnection. tx_run.
  destruct (exec_idempotency_expiry_warnings d !! warning_key c o k) as [t|] eqn:Ht; [|by eexists].
  destruct (Hw _ _ Ht) as [u ->]. tx_run. by eexists.
Qed.

Lemma retained_cid d r : idem_wf d -> retained d r -> sql_length_pos (controller_id (idem_Controller r)) = true.
Proof.
  intros [Hrows _] (row & Hrow & _). destruct (Hrows _ _ Hrow) as [Hchk _].
  unfold idempotency_checks, idem_key in Hchk. bool_norm. done.
Qed.

Lemma lookup_wf c o k now r d d' :
  lookupIdempotencyOnConnection c o k now d = Ok (r, d') -> idem_wf d -> idem_wf d'.
Proof.
  unfold lookupIdempotencyOnConnection. cbv zeta. intros H Hwf.
  apply stx_bind_Ok in H as (x & d1 & [<- <-]%query_Ok & H).
  destruct (exec_idempotency d !! idem_key c o k) as [row|] eqn:Hrow; [|by tx_inv H].
  apply stx_bind_Ok in H as (ca & d1 & [Hca <-]%or_fail_Ok & H).
  apply stx_bind_Ok in H as (ea & d1 & [Hea <-]%or_fail_Ok & H).
  destruct (now <? ea) eqn:Hnow; simpl in H; [by tx_inv H|].
  destruct (iw_rows _ Hwf _ _ Hrow) as (_ & _ & (e & He & Hst) & _). rewrite Hea in He. injection He as <-.
  apply stx_bind_Ok in H as (u & d1 & Hrec & H). pose proof (recordWarning_wf _ _ _ _ _ _ _ _ Hrec Hst Hwf) as [Hr Hw].
  tx_inv H. split; db_simpl; [by apply map_Forall_delete|done].
Qed.

Lemma record_wf r u d d' :
  recordIdempotencyOnConnection r d = Ok (u, d') -> storable (idem_CreatedAt r) ->
  storable (idem_ExpiresAt r) -> storable (idem_ExpiresAt r + DefaultMetadataRetention) ->
  hash_version (idem_Hash r) < 65536 -> text_ok 256 (idem_ResourceID r) -> idem_wf d -> idem_wf d'.
Proof.
  unfold recordIdempotencyOnConnection. intros (Hg & _ & ->)%insert_idempotency_Ok Hc He Hst Hv Hr [Hrows Hw].
  bool_norm. split; db_simpl; [|done]. apply map_Forall_insert_2; [|done].
  unfold idempotency_row in *. simpl in *. rewrite !parse_format by done. split_and!; eauto.
Qed.

Lemma audit_frame_wf record saved d d' :
  insertOptionalAuditOnConnection record d = Ok (saved, d') -> idem_wf d -> idem_wf d'.
Proof. intros [-> _]%insertOptionalAudit_other [Hr Hw]. by split. Qed.

(** ** Theorems *)

(** Retrying a mutation: once a key is bound, the same controller,
    operation, key and request hash return the first binding, flagged as a
    duplicate, until the instant it expires, whatever resource and retention
    the retry proposes; and the retry changes nothing. *)
Theorem Ensure_retry s now c o k h rid ret a r dup s1 now' rid' ret' :
  EnsureIdempotencyWithAudit s now c o k h rid ret a = (Ok (r, dup), s1) ->
  storable now -> storable (idem_ExpiresAt r) -> hash_wf h -> now' < idem_ExpiresAt r ->
  text_ok 256 rid' -> 0 <= ret' ->
  EnsureIdempotency s1 now' c o k h rid' ret' = (Ok (r, true), s1).
Proof.
  intros H Hnow He Hwf Hlt Hrid Hret. pose proof (Ensure_retained _ _ _ _ _ _ _ _ _ _ _ _ H Hnow He Hwf) as Hr.
  apply Ensure_Ok in H as ([? ? ? ? _ _] & Hc & Ho & Hk & Hh & _).
  unfold EnsureIdempotency, EnsureIdempotencyWithAudit.
  rewrite (proj2 (validateIdempotencyInput_Ok c o k h rid' ret' _)) by (split; [reflexivity|by constructor]).
  cbv zeta. cbn [vi_record idem_Controller idem_Operation idem_Key idem_Hash]. unfold withImmediateTransaction.
  erewrite stx_bind_run by (rewrite <- Hc, <- Ho, <- Hk; by apply lookup_retained). cbv beta iota.
  rewrite (proj2 (CompareIdempotency_same _ _)) by (split; [done|rewrite Hh; unfold hash_wf in Hwf; lia]).
  tx_run. simpl. by destruct s1.
Qed.

(** Reusing a bound key for another request is a conflict until the binding
    expires, and leaves the store as it was. *)
Theorem Ensure_conflict s now c o k h rid ret a r dup s1 now' h' rid' ret' :
  EnsureIdempotencyWithAudit s now c o k h rid ret a = (Ok (r, dup), s1) ->
  storable now -> storable (idem_ExpiresAt r) -> hash_wf h -> now' < idem_ExpiresAt r ->
  hash_wf h' -> h' <> h -> text_ok 256 rid' -> 0 <= ret' ->
  EnsureIdempotency s1 now' c o k h' rid' ret' = (Err ErrIdempotencyConflict, s1).
Proof.
  intros H Hnow He Hwf Hlt Hwf' Hne Hrid Hret.
  pose proof (Ensure_retained _ _ _ _ _ _ _ _ _ _ _ _ H Hnow He Hwf) as Hr.
  apply Ensure_Ok in H as ([? ? ? ? _ _] & Hc & Ho & Hk & Hh & _).
  unfold EnsureIdempotency, EnsureIdempotencyWithAudit.
  rewrite (proj2 (validateIdempotencyInput_Ok c o k h' rid' ret' _))
    by (split; [reflexivity|constructor; try done; unfold hash_wf in Hwf'; split; [lia|tauto]]).
  cbv zeta. cbn [vi_record idem_Controller idem_Operation idem_Key idem_Hash]. unfold withImmediateTransaction.
  erewrite stx_bind_run by (rewrite <- Hc, <- Ho, <- Hk; by apply lookup_retained). cbv beta iota.
  destruct (is_conflict _) eqn:E; [done|]. apply CompareIdempotency_same in E as [E _]. congruence.
Qed.

(** From the instant a binding expires its key can be bound again, to any
    request; the new binding carries the deduplication warning throughout the
    metadata-retention window that follows the old one. *)
Theorem Ensure_after_expiry s now c o k h rid ret a r dup s1 now' h' rid' ret' :
  EnsureIdempotencyWithAudit s now c o k h rid ret a = (Ok (r, dup), s1) ->
  storable now -> storable (idem_ExpiresAt r) -> hash_wf h -> idem_wf (db s1) -> idem_ExpiresAt r <= now' ->
  idem_input_ok c o k h' rid' ret' -> hash_wf h' ->
  exists w s2,
    EnsureIdempotency s1 now' c o k h' rid' ret' =
      (Ok (idem_binding c o k h' rid' now' (now' + effective_retention ret') w, false), s2) /\
    (now' < idem_ExpiresAt r + DefaultMetadataRetention -> w = true).
Proof.
  intros H Hnow He Hwf Hdb Hexp Hin Hwf'.
  pose proof (Ensure_retained _ _ _ _ _ _ _ _ _ _ _ _ H Hnow He Hwf) as Hr.
  apply Ensure_Ok in H as (_ & Hc & Ho & Hk & _ & _).
  destruct (lookup_expired _ _ now' Hdb Hr Hexp) as (d1 & Hl & Hwf1 & Hdel & Hwarn).
  pose proof (retained_cid _ _ Hdb Hr) as Hcid. rewrite Hc, Ho, Hk in *.
  destruct (expiryWarning_total c o k now' d1 Hwf1) as [w Hw].
  pose proof (binding_checks c o k h' rid' ret' now' (now' + effective_retention ret') w Hin Hwf' Hcid) as Hchk.
  eexists w, _. split.
  - unfold EnsureIdempotency, EnsureIdempotencyWithAudit.
    rewrite (proj2 (validateIdempotencyInput_Ok c o k h' rid' ret' _)) by (split; [reflexivity|done]).
    cbv zeta. cbn [vi_record idem_Controller idem_Operation idem_Key idem_Hash]. unfold withImmediateTransaction.
    rewrite (stx_bind_run _ _ _ _ _ Hl). cbv beta iota. rewrite (stx_bind_run _ _ _ _ _ Hw).
    unfold recordIdempotencyOnConnection.
    erewrite stx_bind_run by (apply insert_idempotency_Ok; cbn [stamped vi_record idem_Controller idem_Operation idem_Key];
      rewrite Hdel, lookup_delete_eq; cbn [is_Some_b orb]; split_and!; [by apply negb_false_iff|reflexivity..]).
    tx_run. simpl. reflexivity.
  - intros Hlt. apply expiryWarning_read in Hw as [_ Hw]. apply Hw. destruct (Hwarn Hlt) as (t & u & ? & ? & ?). eauto.
Qed.

(** The idempotency tables stay readable: a call that succeeds keeps every
    row within its CHECK clauses, with timestamps, hash and resource that a
    later lookup accepts. *)
Theorem Ensure_wf s now c o k h rid ret a r dup s' :
  EnsureIdempotencyWithAudit s now c o k h rid ret a = (Ok (r, dup), s') ->
  storable now -> storable (now + effective_retention ret + DefaultMetadataRetention) -> hash_wf h ->
  idem_wf (db s) -> idem_wf (db s').
Proof.
  unfold EnsureIdempotencyWithAudit. destruct (validateIdempotencyInput _ _ _ _ _ _) eqn:Hv; [|done].
  apply validateIdempotencyInput_Ok in Hv as [-> Hin]. simpl.
  destruct (withImmediateTransaction _ _) as [[[[r0 dup0] saved]|e] s1] eqn:E; [|done].
  intros [= -> -> <-] Hnow Hst Hh Hwf. apply withImmediateTransaction_Ok in E as (d' & E & ->).
  rewrite logOptionalAudit_db. simpl.
  apply stx_bind_Ok in E as (ex & d1 & Hl & E). apply lookup_wf in Hl; [|done]. destruct ex as [ex|].
  - tx_inv E. eauto using audit_frame_wf.
  - apply stx_bind_Ok in E as (w & d2 & [-> _]%expiryWarning_read & E).
    apply stx_bind_Ok in E as (u & d3 & Hrec & E). tx_inv E. eapply audit_frame_wf; [done|].
    pose proof (effective_retention_pos ret (io_retention _ _ _ _ _ _ Hin)).
    assert (0 < DefaultMetadataRetention) by done. destruct Hin, Hh.
    eapply record_wf; [exact Hrec|simpl..|done]; try done; unfold storable in *; lia.
Qed.

(** ** The key fingerprint *)
Definition be_value (l : list Z) : Z := fold_left (fun acc b => acc * 256 + b) l 0.

Lemma be_bytes_value n x acc :
  fold_left (fun acc b => acc * 256 + b) (Sha256.be_bytes n x) acc
  = acc * 256 ^ Z.of_nat n + x mod 256 ^ Z.of_nat n.
Proof.
  revert acc. induction n as [|n IH]; intros acc; cbn [Sha256.be_bytes fold_left].
  { simpl Z.of_nat. rewrite !Z.pow_0_r, Z.mod_1_r. lia. }
  rewrite IH. rewrite Nat2Z.inj_succ, Z.pow_succ_r by lia. change 0xFF with (Z.ones 8).
  rewrite Z.land_ones, Z.shiftr_div_pow2 by lia. rewrite Z.pow_mul_r by lia. change (2 ^ 8) with 256.
  pose proof (Z.pow_pos_nonneg 256 (Z.of_nat n) ltac:(lia) ltac:(lia)).
  rewrite (Z.mul_comm 256 (256 ^ _)), Z.rem_mul_r by lia. ring.
Qed.

Lemma be_bytes_inj n x y :
  0 <= x < 256 ^ Z.of_nat n -> 0 <= y < 256 ^ Z.of_nat n -> Sha256.be_bytes n x = Sha256.be_bytes n y -> x = y.
Proof.
  intros Hx Hy Heq. pose proof (be_bytes_value n x 0) as Ex. pose proof (be_bytes_value n y 0) as Ey.
  rewrite Heq, Ey, !Z.mod_small in Ex by done. lia.
Qed.

Lemma bytes_of_inj s1 s2 : bytes_of s1 = bytes_of s2 -> s1 = s2.
Proof. intros H. by rewrite <- (string_of_bytes_of s1), H, string_of_bytes_of. Qed.

Lemma fingerprint_input_cons x l :
  fingerprint_input (x :: l) = Sha256.be_bytes 8 (go_len x mod 2 ^ 64) ++ bytes_of x ++ fingerprint_input l.
Proof.
  unfold fingerprint_input. rewrite fmap_cons. cbn [concat]. unfold length_prefixed at 1.
  by rewrite <- app_assoc.
Qed.

Lemma fingerprint_input_inj l1 l2 :
  Forall (fun s => go_len s < 2 ^ 64) l1 -> Forall (fun s => go_len s < 2 ^ 64) l2 ->
  fingerprint_input l1 = fingerprint_input l2 -> l1 = l2.
Proof.
  revert l2. induction l1 as [|x l1 IH]; intros [|y l2] H1 H2; rewrite ?fingerprint_input_cons; try done.
  rewrite !Forall_cons in *. destruct H1 as [Hx H1], H2 as [Hy H2].
  pose proof (go_len_nonneg x). pose proof (go_len_nonneg y). rewrite !Z.mod_small by lia. intros Heq.
  apply app_inj_1 in Heq as [Hlen Heq]; [|by rewrite !be_bytes_length].
  apply be_bytes_inj in Hlen; [|by split..].
  apply app_inj_1 in Heq as [->%bytes_of_inj Heq].
  - f_equal. by apply IH.
  - rewrite !length_bytes_of. unfold go_len in Hlen. lia.
Qed.

(** The fingerprint kept with an expiry warning is the digest of an
    unambiguous encoding: two different controller, operation and key triples
    (of strings that fit in memory) never give the same digest input. *)
Theorem fingerprint_input_unambiguous c1 o1 k1 c2 o2 k2 :
  Forall (fun s => go_len s < 2 ^ 64)
    [ControllerType_text (controller_typeName c1); controller_id c1; o1; k1;
     ControllerType_text (controller_typeName c2); controller_id c2; o2; k2] ->
  known_controller (controller_typeName c1) -> known_controller (controller_typeName c2) ->
  fingerprint_input [ControllerType_text (controller_typeName c1); controller_id c1; o1; k1]
  = fingerprint_input [ControllerType_text (controller_typeName c2); controller_id c2; o2; k2] ->
  c1 = c2 /\ o1 = o2 /\ k1 = k2.
Proof.
  intros Hf K1 K2 Heq. rewrite !Forall_cons in Hf. destruct_and!.
  apply fingerprint_input_inj in Heq; [|by rewrite !Forall_cons..].
  destruct c1 as [t1 i1], c2 as [t2 i2]; simpl in *. injection Heq as Ht -> -> ->.
  split_and!; [|done..]. f_equal. destruct t1, t2; simpl in *; done.
Qed.

(** ** Witnesses *)
Definition example_controller : ControllerIdentity := mkControllerIdentity ControllerTypeLocalUser "u1".
Definition example_hash (digit : string) : CanonicalHash :=
  mkCanonicalHash 1 (digit +:+ "0000000000000000000000000000000").
Definition example_store : AuthorityStore := mkAuthorityStore empty_db false [] [].

(** One bound key, at nanosecond 1000, for ten nanoseconds. *)
Definition example_binding : IdempotencyRecord :=
  idem_binding example_controller "submit_command" "k1" (example_hash "a") "c1" 1000 1010 false.
Definition example_bound : AuthorityStore :=
  mkAuthorityStore (set_idempotency {[idem_key example_controller "submit_command" "k1"
    := idempotency_row example_binding]} empty_db) false [] [].

Lemma example_bound_run :
  EnsureIdempotency example_store 1000 example_controller "submit_command" "k1" (example_hash "a") "c1" 10
  = (Ok (example_binding, false), example_bound).
Proof. vm_compute. reflexivity. Qed.

Lemma example_bound_wf : idem_wf (db example_bound).
Proof.
  split; [|apply map_Forall_empty]. apply map_Forall_singleton. split_and!; [reflexivity|by eexists| |done|done].
  eexists. split; [reflexivity|]. by vm_compute.
Qed.

Lemma Ensure_retry_witness :
  EnsureIdempotency example_bound 1009 example_controller "submit_command" "k1" (example_hash "a") "c2" 0
  = (Ok (example_binding, true), example_bound).
Proof.
  apply (Ensure_retry example_store 1000 example_controller "submit_command" "k1" (example_hash "a") "c1" 10
    None example_binding false example_bound 1009 "c2" 0); [exact example_bound_run|by vm_compute..].
Defined.

Lemma Ensure_conflict_witness :
  EnsureIdempotency example_bound 1009 example_controller "submit_command" "k1" (example_hash "b") "c2" 0
  = (Err ErrIdempotencyConflict, example_bound).
Proof.
  apply (Ensure_conflict example_store 1000 example_controller "submit_command" "k1" (example_hash "a") "c1" 10
    None example_binding false example_bound 1009 (example_hash "b") "c2" 0);
    [exact example_bound_run|by vm_compute..].
Defined.

Lemma Ensure_after_expiry_witness :
  exists w s2,
    EnsureIdempotency example_bound 1010 example_controller "submit_command" "k1" (example_hash "b") "c2" 10
    = (Ok (idem_binding example_controller "submit_command" "k1" (example_hash "b") "c2" 1010
             (1010 + effective_retention 10) w, false), s2) /\
    (1010 < 1010 + DefaultMetadataRetention -> w = true).
Proof.
  apply (Ensure_after_expiry example_store 1000 example_controller "submit_command" "k1" (example_hash "a") "c1" 10
    None example_binding false example_bound 1010 (example_hash "b") "c2" 10);
    [exact example_bound_run|by vm_compute..|exact example_bound_wf|by vm_compute| |by vm_compute].
  constructor; by vm_compute.
Defined.

Lemma Ensure_wf_witness : idem_wf (db example_bound).
Proof.
  apply (Ensure_wf example_store 1000 example_controller "submit_command" "k1" (example_hash "a") "c1" 10
    None example_binding false example_bound); [exact example_bound_run|by vm_compute..|].
  split; apply map_Forall_empty.
Defined.

Lemma fingerprint_input_unambiguous_witness :
  example_controller = example_controller /\ "ab" = "ab" /\ "c" = "c".
Proof.
  apply (fingerprint_input_unambiguous example_controller "ab" "c" example_controller "ab" "c");
    [|done..]. repeat constructor.
Defined.
