(* ===== verification/Sessions.v ===== *)
(** * Sessions

    Models [src/src/internal/store/sessions.go]: accepting and creating a
    session, its lifecycle transitions, the completion of its creation, the
    capacity reservation it holds and the reads.  [now] is the value of the
    store's clock; errors keep their sentinel. *)
From S2P Require Import Prelude GoStrings Sha256 Identity Lifecycle Policy Canonical LaneAdmission.
From S2P Require Import AuditRecords Db AuditStore AdmissionStore Idempotency.

Definition DefaultActiveSessionLimit : Z := 20.
Definition createSessionOperation : string := "create_session".
Definition reservationHostKey : string := "authority".

Record SessionCreate : Type := mkSessionCreate {
  sc_SessionID : string;
  sc_Target : ExecutionTarget;
  sc_Environment : string;
  sc_Controller : ControllerIdentity;
  sc_Source : Source;
  sc_ResolvedRevision : string;
  sc_RuntimeGeneration : string;
  sc_Limits : EffectiveSessionLimits;
  sc_Reason : string
}.

Record SessionRecord : Type := mkSessionRecord {
  sr_SessionID : string;
  sr_Target : ExecutionTarget;
  sr_Environment : string;
  sr_Controller : ControllerIdentity;
  sr_Source : Source;
  sr_ResolvedRevision : string;
  sr_RuntimeGeneration : string;
  sr_State : SessionState;
  sr_Limits : EffectiveSessionLimits;
  sr_CreatedAt : Z;
  sr_UpdatedAt : Z;
  sr_ExpiresAt : Z;
  sr_IdempotencyWarning : bool
}.

Record SessionLifecycleRecord : Type := mkSessionLifecycleRecord {
  slr_SessionID : string;
  slr_Sequence : Z;
  slr_PreviousState : option SessionState;
  slr_NewState : SessionState;
  slr_Reason : string;
  slr_OccurredAt : Z
}.

Record SessionCreateAcceptance : Type := mkSessionCreateAcceptance {
  sa_SessionCreate : SessionCreate;
  sa_IdempotencyKey : string;
  sa_RequestHash : CanonicalHash;
  sa_MaxActiveSessions : Z;
  sa_IdempotencyRetention : Z;
  sa_Audit : option AuditRecord
}.

Record SessionReservation : Type := mkSessionReservation {
  res_SessionID : string;
  res_HostKey : string;
  res_ReservedAt : Z;
  res_CleanupConfirmedAt : option Z;
  res_ReleasedAt : option Z
}.

Definition with_warning (r : SessionRecord) (w : bool) : SessionRecord :=
  mkSessionRecord (sr_SessionID r) (sr_Target r) (sr_Environment r) (sr_Controller r) (sr_Source r)
    (sr_ResolvedRevision r) (sr_RuntimeGeneration r) (sr_State r) (sr_Limits r) (sr_CreatedAt r)
    (sr_UpdatedAt r) (sr_ExpiresAt r) w.

(** ** Validation *)
Definition validateLifecycleReason (reason : string) : result string :=
  if is_empty reason then Err ErrInvalidSession
  else if (512 <? go_len reason) || contains_nul reason then Err ErrInvalidSession
  else Ok reason.

Definition normalizeSource (source : Source) : result Source :=
  match source_mode source with
  | SourceModeEmpty =>
      if negb (is_empty (source_repositoryAlias source)) || negb (is_empty (source_requestedRevision source))
         || negb (is_empty (source_path source))
      then Err ErrInvalidSession else Ok NewEmptySource
  | SourceModeGitRevision =>
      result_map_err (fun _ => ErrInvalidSession)
        (NewGitRevisionSource (source_repositoryAlias source) (source_requestedRevision source))
  | SourceModeLocalWorktree =>
      if negb (is_empty (source_repositoryAlias source)) || negb (is_empty (source_requestedRevision source))
         || negb (IsAbs (source_path source))
      then Err ErrInvalidSession
      else result_map_err (fun _ => ErrInvalidSession) (NewLocalWorktreeSource (source_path source))
  | SourceModeOther _ => Err ErrInvalidSession
  end.

Definition validateSessionCreate (input : SessionCreate) : result SessionCreate :=
  let invalid {A} (r : result A) := result_map_err (fun _ => ErrInvalidSession) r in
  id ← invalid (NewSessionID (sc_SessionID input));
  target ← invalid (NewExecutionTarget (target_kind (sc_Target input)) (target_profile (sc_Target input)));
  controllerID ← invalid (NewControllerID (controller_id (sc_Controller input)));
  controller ← invalid (NewControllerIdentity (controller_typeName (sc_Controller input)) controllerID);
  source ← normalizeSource (sc_Source input);
  refuse_if (is_empty (TrimSpace (sc_Environment input))) ErrInvalidSession;;
  refuse_if (negb (is_empty (sc_ResolvedRevision input))
             && negb (bool_decide (source_mode source = SourceModeGitRevision))) ErrInvalidSession;;
  refuse_if ((256 <? go_len (sc_RuntimeGeneration input)) || contains_nul (sc_RuntimeGeneration input))
    ErrInvalidSession;;
  refuse_if (negb (limits_positive (sc_Limits input))) ErrInvalidSession;;
  reason ← match validateLifecycleReason (sc_Reason input) with
           | Ok reason => Ok reason
           | Err e => if is_empty (sc_Reason input) then Ok "session_created" else Err e
           end;
  Ok (mkSessionCreate id target (TrimSpace (sc_Environment input)) controller source
        (sc_ResolvedRevision input) (sc_RuntimeGeneration input) (sc_Limits input) reason).

Definition validateSessionAcceptance (input : SessionCreateAcceptance) : result SessionCreateAcceptance :=
  session ← validateSessionCreate (sa_SessionCreate input);
  refuse_if (bad_text 256 (sa_IdempotencyKey input)) ErrIdempotencyKey;;
  hash ← result_map_err (fun _ => ErrInvalidSession)
    (NewCanonicalHash (hash_version (sa_RequestHash input)) (hash_digest (sa_RequestHash input)));
  let maxActive := if sa_MaxActiveSessions input =? 0 then DefaultActiveSessionLimit
                   else sa_MaxActiveSessions input in
  refuse_if (maxActive <? 1) ErrInvalidSession;;
  let retention := if sa_IdempotencyRetention input =? 0 then DefaultSessionIdempotencyRetention
                   else sa_IdempotencyRetention input in
  refuse_if (retention <? 0) ErrInvalidSession;;
  Ok (mkSessionCreateAcceptance session (sa_IdempotencyKey input) hash maxActive retention (sa_Audit input)).

(** ** Reads *)
Definition decodeSource (mode : SourceMode) (repositoryAlias requestedRevision path : string) : result Source :=
  match mode with
  | SourceModeEmpty => normalizeSource NewEmptySource
  | SourceModeGitRevision =>
      result_map_err (fun _ => ErrSessionLifecycle) (NewGitRevisionSource repositoryAlias requestedRevision)
  | SourceModeLocalWorktree =>
      result_map_err (fun _ => ErrSessionLifecycle) (NewLocalWorktreeSource path)
  | SourceModeOther _ => Err ErrSessionLifecycle
  end.

Definition readSessionOnConnection (id : string) : tx SessionRecord :=
  row ← query (fun d => exec_sessions d !! id);
  row ← or_fail row ErrSessionNotFound;
  let corrupt {A} (r : result A) : tx A := lift (result_map_err (fun _ => ErrSessionLifecycle) r) in
  sessionID ← corrupt (NewSessionID id);
  target ← corrupt (NewExecutionTarget (target_kind (s_target row)) (target_profile (s_target row)));
  controllerID ← corrupt (NewControllerID (controller_id (s_controller row)));
  controller ← corrupt (NewControllerIdentity (controller_typeName (s_controller row)) controllerID);
  source ← lift (decodeSource (source_mode (s_source row)) (source_repositoryAlias (s_source row))
                   (source_requestedRevision (s_source row)) (source_path (s_source row)));
  fail_if (negb (SessionState_Valid (s_state row))) ErrSessionLifecycle;;
  fail_if (negb (limits_positive (s_limits row))) ErrSessionLifecycle;;
  createdAt ← or_fail (parseStoredTime (s_created_at row)) ErrSessionLifecycle;
  updatedAt ← or_fail (parseStoredTime (s_updated_at row)) ErrSessionLifecycle;
  expiresAt ← or_fail (parseStoredTime (s_expires_at row)) ErrSessionLifecycle;
  mret (mkSessionRecord sessionID target (s_environment row) controller source (s_resolved_revision row)
          (s_runtime_generation row) (s_state row) (s_limits row) createdAt updatedAt expiresAt false).

(** An optional timestamp column. *)
Definition parseOptional (e : error) (o : option StoredTime) : tx (option Z) :=
  match o with
  | None => mret None
  | Some text => t ← or_fail (parseStoredTime text) e; mret (Some t)
  end.

Definition readReservationOnConnection (id : string) : tx SessionReservation :=
  row ← query (fun d => exec_capacity_reservations d !! id);
  row ← or_fail row ErrSessionReservationNotFound;
  sessionID ← lift (result_map_err (fun _ => ErrSessionLifecycle) (NewSessionID id));
  reservedAt ← or_fail (parseStoredTime (r_reserved_at row)) ErrSessionLifecycle;
  cleanup ← parseOptional ErrSessionLifecycle (r_cleanup_confirmed_at row);
  released ← parseOptional ErrSessionLifecycle (r_released_at row);
  mret (mkSessionReservation sessionID (r_host_key row) reservedAt cleanup released).

(** ** Statements *)

(** [SELECT COALESCE(MAX(lifecycle_sequence), 0) + 1 ...] *)
Definition next_lifecycle_sequence (id : string) (d : DB) : Z :=
  foldr Z.max 0 (l_sequence <$> rows_of (exec_session_lifecycle d) id) + 1.

(** [UPDATE ... WHERE session_id = id AND p]; returns the affected rows. *)
Definition update_session (id : string) (p : SessionRow -> bool) (f : SessionRow -> SessionRow) : tx Z :=
  row ← query (fun d => exec_sessions d !! id);
  match row with
  | Some r => if p r then modify (fun d => set_sessions (<[id := f r]> (exec_sessions d)) d);; mret 1
              else mret 0
  | None => mret 0
  end.

Definition update_reservation (id : string) (p : ReservationRow -> bool) (f : ReservationRow -> ReservationRow)
    : tx Z :=
  row ← query (fun d => exec_capacity_reservations d !! id);
  match row with
  | Some r => if p r then modify (fun d => set_reservations (<[id := f r]> (exec_capacity_reservations d)) d);; mret 1
              else mret 0
  | None => mret 0
  end.

(** [SET state = next, updated_at = now] *)
Definition session_with_state (next : SessionState) (now : Z) (r : SessionRow) : SessionRow :=
  mkSessionRow (s_target r) (s_environment r) (s_controller r) (s_source r) (s_resolved_revision r)
    (s_runtime_generation r) next (s_limits r) (s_created_at r) (formatStoredTime now) (s_expires_at r).

(** [SET state = next, runtime_generation = ..., source_resolved_revision = ..., updated_at = now] *)
Definition session_with_creation (next : SessionState) (generation revision : string) (now : Z) (r : SessionRow)
    : SessionRow :=
  mkSessionRow (s_target r) (s_environment r) (s_controller r) (s_source r) revision generation next
    (s_limits r) (s_created_at r) (formatStoredTime now) (s_expires_at r).

Definition in_session_state (s : SessionState) (r : SessionRow) : bool := bool_decide (s_state r = s).

(** [SET cleanup_confirmed_at = now, released_at = now] *)
Definition reservation_released (now : Z) (r : ReservationRow) : ReservationRow :=
  mkReservationRow (r_host_key r) (r_reserved_at r) (Some (formatStoredTime now)) (Some (formatStoredTime now)).

Definition live_reservation (r : ReservationRow) : bool := negb (is_Some_b (r_cleanup_confirmed_at r)).
Definition unreleased_reservation (r : ReservationRow) : bool :=
  negb (is_Some_b (r_cleanup_confirmed_at r)) && negb (is_Some_b (r_released_at r)).

(** [SELECT COUNT(..) ... WHERE host_key = ? AND cleanup_confirmed_at IS NULL] *)
Definition count_live_reservations (d : DB) : Z :=
  Z.of_nat (size (filter (fun '(_, r) => r_host_key r = reservationHostKey /\ r_cleanup_confirmed_at r = None)
                    (exec_capacity_reservations d))).

Definition ensureSessionCapacity (maxActive : Z) : tx unit :=
  count ← query count_live_reservations;
  fail_if (maxActive <=? count) ErrSessionCapacityExceeded.

Definition new_session_row (v : SessionCreate) (now : Z) : SessionRow :=
  mkSessionRow (sc_Target v) (sc_Environment v) (sc_Controller v) (sc_Source v) (sc_ResolvedRevision v)
    (sc_RuntimeGeneration v) SessionStateCreating (sc_Limits v) (formatStoredTime now) (formatStoredTime now)
    (formatStoredTime (now + eff_SessionMaxLifetime (sc_Limits v))).

Definition insertSessionAcceptance (v : SessionCreate) (idempotencyKey : string) (requestHash : CanonicalHash)
    (idempotencyExpiresAt now : Z) (idempotencyWarning : bool) : tx unit :=
  existing ← query (fun d => exec_sessions d !! sc_SessionID v);
  fail_if (is_Some_b existing) ErrSessionExists;;
  insert_session (sc_SessionID v) (new_session_row v now);;
  insert_lifecycle (sc_SessionID v)
    (mkLifecycleRow 1 None SessionStateCreating (sc_Reason v) (formatStoredTime now));;
  insert_reservation (sc_SessionID v) (mkReservationRow reservationHostKey (formatStoredTime now) None None);;
  if negb (is_empty idempotencyKey) then
    input ← lift (validateIdempotencyInput (sc_Controller v) createSessionOperation idempotencyKey requestHash
                    (sc_SessionID v) (idempotencyExpiresAt - now));
    recordIdempotencyOnConnection (stamped input now idempotencyExpiresAt idempotencyWarning)
  else mret tt.

(** ** Operations *)
Definition AcceptSessionCreate (s : AuthorityStore) (now : Z) (input : SessionCreateAcceptance)
    : result (SessionRecord * bool) * AuthorityStore :=
  match validateSessionAcceptance input with
  | Err e => (Err e, s)
  | Ok v =>
      let create := sa_SessionCreate v in
      let expiresAt := now + sa_IdempotencyRetention v in
      match withImmediateTransaction s
        (checkIngressAdmissionOnConnection (laneAdmissionRuntime s);;
         found ← lookupIdempotencyOnConnection (sc_Controller create) createSessionOperation (sa_IdempotencyKey v) now;
         match found with
         | Some existing =>
             fail_if (is_conflict (CompareIdempotency (idem_Hash existing) (sa_RequestHash v))) ErrIdempotencyConflict;;
             existingSessionID ← lift (NewSessionID (idem_ResourceID existing));
             readReservationOnConnection existingSessionID;;
             existingRecord ← readSessionOnConnection existingSessionID;
             saved ← insertOptionalAuditOnConnection (sa_Audit v);
             mret (with_warning existingRecord (idem_DeduplicationWarning existing), true, saved)
         | None =>
             warning ← idempotencyExpiryWarningOnConnection (sc_Controller create) createSessionOperation
                         (sa_IdempotencyKey v) now;
             ensureSessionCapacity (sa_MaxActiveSessions v);;
             insertSessionAcceptance create (sa_IdempotencyKey v) (sa_RequestHash v) expiresAt now warning;;
             created ← readSessionOnConnection (sc_SessionID create);
             saved ← insertOptionalAuditOnConnection (sa_Audit v);
             mret (with_warning created warning, false, saved)
         end) with
      | (Ok (record, duplicate, saved), s') => (Ok (record, duplicate), logOptionalAudit s' saved)
      | (Err e, s') => (Err e, s')
      end
  end.

(** The zero value of [CanonicalHash], [domain.CanonicalHash{}]. *)
Definition zero_hash : CanonicalHash := mkCanonicalHash 0 (string_of (replicate 32 0)).

Definition CreateSession (s : AuthorityStore) (now : Z) (input : SessionCreate)
    : result SessionRecord * AuthorityStore :=
  match validateSessionCreate input with
  | Err e => (Err e, s)
  | Ok v =>
      withImmediateTransaction s
        (checkIngressAdmissionOnConnection (laneAdmissionRuntime s);;
         ensureSessionCapacity DefaultActiveSessionLimit;;
         insertSessionAcceptance v "" zero_hash 0 now false;;
         readSessionOnConnection (sc_SessionID v))
  end.

Definition GetSession (s : AuthorityStore) (id : string) : result SessionRecord :=
  validatedID ← NewSessionID id;
  withReadTransaction s (readSessionOnConnection validatedID).

Definition CountLiveSessionReservations (s : AuthorityStore) : Z := count_live_reservations (db s).

Definition GetSessionReservation (s : AuthorityStore) (id : string) : result SessionReservation :=
  validatedID ← NewSessionID id;
  withReadTransaction s (readReservationOnConnection validatedID).

(** [if err != nil { return err }] before the transaction *)
Definition with_valid {A B} (s : AuthorityStore) (r : result A) (k : A -> result B * AuthorityStore)
    : result B * AuthorityStore :=
  match r with Ok a => k a | Err e => (Err e, s) end.

Definition ConfirmSessionCleanup (s : AuthorityStore) (now : Z) (id : string) : result unit * AuthorityStore :=
  with_valid s (NewSessionID id) (fun validatedID =>
  withImmediateTransaction s
    (changed ← update_reservation validatedID live_reservation (reservation_released now);
     if 0 <? changed then mret tt
     else
       row ← query (fun d => exec_capacity_reservations d !! validatedID);
       fail_if (negb (is_Some_b row)) ErrSessionReservationNotFound)).

Definition TransitionSession (s : AuthorityStore) (now : Z) (id : string) (next : SessionState) (reason : string)
    : result SessionRecord * AuthorityStore :=
  with_valid s (NewSessionID id) (fun validatedID =>
  with_valid s (refuse_if (negb (SessionState_Valid next)) ErrInvalidSessionState) (fun _ =>
  with_valid s (validateLifecycleReason reason) (fun reason =>
  withImmediateTransaction s
    (row ← query (fun d => exec_sessions d !! validatedID);
     row ← or_fail row ErrSessionNotFound;
     let current := s_state row in
     lift (ValidateSessionTransition current next);;
     sequence ← query (next_lifecycle_sequence validatedID);
     update_session validatedID (in_session_state current) (session_with_state next now);;
     insert_lifecycle validatedID (mkLifecycleRow sequence (Some current) next reason (formatStoredTime now));;
     readSessionOnConnection validatedID)))).

(** [len(x) > 256 || strings.IndexByte(x, 0) >= 0] *)
Definition overlong (x : string) : bool := (256 <? go_len x) || contains_nul x.

Definition CompleteSessionCreation (s : AuthorityStore) (now : Z) (id : string) (next : SessionState)
    (runtimeGeneration resolvedRevision reason : string) : result SessionRecord * AuthorityStore :=
  with_valid s (NewSessionID id) (fun validatedID =>
  with_valid s (refuse_if (negb (bool_decide (next = SessionStateReady)) && negb (bool_decide (next = SessionStateFailed))
                           && negb (bool_decide (next = SessionStateLost))) ErrIllegalSessionTransition) (fun _ =>
  with_valid s (refuse_if (overlong runtimeGeneration) ErrInvalidSession) (fun _ =>
  with_valid s (refuse_if (overlong resolvedRevision) ErrInvalidSession) (fun _ =>
  with_valid s (refuse_if (bool_decide (next = SessionStateReady) && is_empty runtimeGeneration) ErrInvalidSession) (fun _ =>
  with_valid s (refuse_if (is_empty reason) ErrInvalidSession) (fun _ =>
  with_valid s (validateLifecycleReason reason) (fun _ =>
  withImmediateTransaction s
    (row ← query (fun d => exec_sessions d !! validatedID);
     row ← or_fail row ErrSessionNotFound;
     let current := s_state row in
     lift (ValidateSessionTransition current next);;
     let generation := if is_empty runtimeGeneration then s_runtime_generation row else runtimeGeneration in
     let revision := if is_empty resolvedRevision then s_resolved_revision row else resolvedRevision in
     sequence ← query (next_lifecycle_sequence validatedID);
     update_session validatedID (in_session_state current) (session_with_creation next generation revision now);;
     insert_lifecycle validatedID (mkLifecycleRow sequence (Some current) next reason (formatStoredTime now));;
     readSessionOnConnection validatedID)))))))).

Definition CompleteFailedSessionCreationAfterConfirmedCleanup (s : AuthorityStore) (now : Z) (id : string)
    (runtimeGeneration resolvedRevision reason : string) : result SessionRecord * AuthorityStore :=
  with_valid s (NewSessionID id) (fun validatedID =>
  with_valid s (refuse_if (is_empty runtimeGeneration || overlong runtimeGeneration) ErrInvalidSession) (fun _ =>
  with_valid s (refuse_if (overlong resolvedRevision) ErrInvalidSession) (fun _ =>
  with_valid s (refuse_if (is_empty reason) ErrInvalidSession) (fun _ =>
  with_valid s (validateLifecycleReason reason) (fun _ =>
  withImmediateTransaction s
    (row ← query (fun d => exec_sessions d !! validatedID);
     row ← or_fail row ErrSessionNotFound;
     fail_if (negb (in_session_state SessionStateCreating row)) ErrSessionLifecycle;;
     let revision := if is_empty resolvedRevision then s_resolved_revision row else resolvedRevision in
     sequence ← query (next_lifecycle_sequence validatedID);
     update_session validatedID (in_session_state SessionStateCreating)
       (session_with_creation SessionStateFailed runtimeGeneration revision now);;
     insert_lifecycle validatedID
       (mkLifecycleRow sequence (Some (s_state row)) SessionStateFailed reason (formatStoredTime now));;
     changed ← update_reservation validatedID unreleased_reservation (reservation_released now);
     fail_if (negb (changed =? 1)) ErrSessionLifecycle;;
     readSessionOnConnection validatedID)))))).

Definition FailPreStartSessionCreation (s : AuthorityStore) (now : Z) (id : string)
    : result SessionRecord * AuthorityStore :=
  with_valid s (NewSessionID id) (fun validatedID =>
  withImmediateTransaction s
    (row ← query (fun d => exec_sessions d !! validatedID);
     row ← or_fail row ErrSessionNotFound;
     fail_if (negb (in_session_state SessionStateCreating row) || negb (is_empty (s_runtime_generation row)))
       ErrSessionLifecycle;;
     sequence ← query (next_lifecycle_sequence validatedID);
     changed ← update_session validatedID
       (fun r => in_session_state SessionStateCreating r && is_empty (s_runtime_generation r))
       (session_with_state SessionStateFailed now);
     fail_if (negb (changed =? 1)) ErrSessionLifecycle;;
     insert_lifecycle validatedID (mkLifecycleRow sequence (Some SessionStateCreating) SessionStateFailed
       "runtime_prepare_failed" (formatStoredTime now));;
     changed ← update_reservation validatedID unreleased_reservation (reservation_released now);
     fail_if (negb (changed =? 1)) ErrSessionLifecycle;;
     readSessionOnConnection validatedID)).

Definition lifecycle_le (r1 r2 : LifecycleRow) : Prop := l_sequence r1 <= l_sequence r2.
#[export] Instance lifecycle_le_dec r1 r2 : Decision (lifecycle_le r1 r2).
Proof. unfold lifecycle_le. apply _. Defined.

Definition decodeLifecycleRow (id : string) (row : LifecycleRow) : result SessionLifecycleRecord :=
  refuse_if (negb (SessionState_Valid (l_new_state row))) ErrSessionLifecycle;;
  refuse_if (match l_previous_state row with Some p => negb (SessionState_Valid p) | None => false end)
    ErrSessionLifecycle;;
  match parseStoredTime (l_occurred_at row) with
  | None => Err ErrSessionLifecycle
  | Some t => Ok (mkSessionLifecycleRecord id (l_sequence row) (l_previous_state row) (l_new_state row)
                    (l_reason row) t)
  end.

Definition ListSessionLifecycle (s : AuthorityStore) (id : string) : result (list SessionLifecycleRecord) :=
  validatedID ← NewSessionID id;
  withReadTransaction s (readSessionOnConnection validatedID);;
  records ← mapM_result (decodeLifecycleRow validatedID)
    (merge_sort lifecycle_le (rows_of (exec_session_lifecycle (db s)) validatedID));
  if is_nil records then Err ErrSessionLifecycle else Ok records.

(** ** What a successful statement or read means *)
Ltac id_norm :=
  repeat match goal with
  | H : NewSessionID _ = Ok _ |- _ => apply NewSessionID_Ok in H; destruct H; subst
  | H : NewCommandID _ = Ok _ |- _ => apply NewCommandID_Ok in H; destruct H; subst
  | H : NewJobID _ = Ok _ |- _ => apply NewJobID_Ok in H; destruct H; subst
  end.

Lemma update_session_Ok id p f n d d' :
  update_session id p f d = Ok (n, d') ->
  (exists r, exec_sessions d !! id = Some r /\ p r = true /\ n = 1 /\
     d' = set_sessions (<[id := f r]> (exec_sessions d)) d) \/
  (n = 0 /\ d' = d /\ forall r, exec_sessions d !! id = Some r -> p r = false).
Proof.
  unfold update_session. intros H. apply stx_bind_Ok in H as (x & d1 & [<- <-]%query_Ok & H).
  destruct (exec_sessions d !! id) as [r|]; [destruct (p r) eqn:Hp|]; tx_inv H; [left; eauto|right..];
    naive_solver.
Qed.

Lemma update_reservation_Ok id p f n d d' :
  update_reservation id p f d = Ok (n, d') ->
  (exists r, exec_capacity_reservations d !! id = Some r /\ p r = true /\ n = 1 /\
     d' = set_reservations (<[id := f r]> (exec_capacity_reservations d)) d) \/
  (n = 0 /\ d' = d /\ forall r, exec_capacity_reservations d !! id = Some r -> p r = false).
Proof.
  unfold update_reservation. intros H. apply stx_bind_Ok in H as (x & d1 & [<- <-]%query_Ok & H).
  destruct (exec_capacity_reservations d !! id) as [r|]; [destruct (p r) eqn:Hp|]; tx_inv H;
    [left; eauto|right..]; naive_solver.
Qed.

Lemma readSession_Ok id r d d' :
  readSessionOnConnection id d = Ok (r, d') ->
  d' = d /\ exists row, exec_sessions d !! id = Some row /\ id <> "" /\ sr_SessionID r = id /\
    sr_State r = s_state row /\ sr_Environment r = s_environment row /\ sr_Limits r = s_limits row /\
    sr_RuntimeGeneration r = s_runtime_generation row /\
    parseStoredTime (s_created_at row) = Some (sr_CreatedAt r) /\
    parseStoredTime (s_updated_at row) = Some (sr_UpdatedAt r) /\
    parseStoredTime (s_expires_at row) = Some (sr_ExpiresAt r).
Proof.
  unfold readSessionOnConnection. cbv zeta. intros H. tx_inv H. split; [done|].
  id_norm. eexists. by split_and!.
Qed.

Lemma readReservation_Ok id r d d' :
  readReservationOnConnection id d = Ok (r, d') -> d' = d /\ is_Some (exec_capacity_reservations d !! id).
Proof.
  unfold readReservationOnConnection, parseOptional. intros H. tx_inv H. split; [|eauto].
  repeat case_match; repeat match goal with H : _ = Ok _ |- _ => progress tx_inv H end; done.
Qed.

Lemma ensureSessionCapacity_Ok n u d d' :
  ensureSessionCapacity n d = Ok (u, d') -> d' = d /\ count_live_reservations d < n.
Proof. unfold ensureSessionCapacity. intros H. tx_inv H. bool_norm. done. Qed.

Lemma with_valid_Ok {A B} s (r : result A) (k : A -> result B * AuthorityStore) b s' :
  with_valid s r k = (Ok b, s') <-> exists a, r = Ok a /\ k a = (Ok b, s').
Proof. unfold with_valid. destruct r; naive_solver. Qed.

(** A refused request leaves the store as it was. *)
Lemma with_valid_Err {A B} s (r : result A) (k : A -> result B * AuthorityStore) e s' :
  (forall a, r = Ok a -> k a = (Err e, s') -> s' = s) -> with_valid s r k = (Err e, s') -> s' = s.
Proof. unfold with_valid. destruct r; naive_solver. Qed.

(** ** The reads do not write *)
#[export] Instance parseOptional_ro e o : ReadOnly (parseOptional e o).
Proof. unfold parseOptional. apply _. Qed.
#[export] Instance readReservation_ro id : ReadOnly (readReservationOnConnection id).
Proof. unfold readReservationOnConnection. apply _. Qed.
#[export] Instance readSession_ro id : ReadOnly (readSessionOnConnection id).
Proof. unfold readSessionOnConnection. cbv zeta. apply _. Qed.
