(* ===== verification/Commands.v ===== *)
(** * Commands and their event streams

    Models [src/src/internal/store/commands.go]: accepting a command under a
    session, appending output events, the state transitions that close the
    event stream, completion together with the owning session and its slot,
    and the reads and replays. *)
From S2P Require Import Prelude GoStrings Sha256 Identity Lifecycle Policy Canonical LaneAdmission.
From S2P Require Import AuditRecords Db AuditStore AdmissionStore Idempotency Sessions.

Definition submitCommandOperation : string := "submit_command".
Definition outputUnavailableCaptureBoundaryUnconfirmed : string := "capture_boundary_unconfirmed".
Definition retention_expired : string := "retention_expired".

Record CommandAcceptance : Type := mkCommandAcceptance {
  ca_CommandID : string;
  ca_SessionID : string;
  ca_RequestHash : CanonicalHash;
  ca_IdempotencyKey : string;
  ca_IdempotencyRetention : Z;
  ca_Script : string;
  ca_Timeout : Z;
  ca_IntentOrdinal : Z;
  ca_Audit : option AuditRecord
}.

Record CommandRecord : Type := mkCommandRecord {
  cr_CommandID : string;
  cr_SessionID : string;
  cr_Ordinal : Z;
  cr_IntentOrdinal : option Z;
  cr_RequestHash : CanonicalHash;
  cr_ScriptBytes : string;
  cr_ScriptSHA256 : string;
  cr_State : CommandState;
  cr_Timeout : Z;
  cr_ExitCode : option Z;
  cr_FinalEventSequence : option Z;
  cr_OutputTruncated : bool;
  cr_OutputComplete : bool;
  cr_OutputUnavailableReason : string;
  cr_CreatedAt : Z;
  cr_UpdatedAt : Z;
  cr_IdempotencyWarning : bool
}.

Record CommandEventAppend : Type := mkCommandEventAppend {
  ea_CommandID : string;
  ea_Type : EventType;
  ea_Payload : string;
  ea_ByteCount : Z
}.

Record CommandTransition : Type := mkCommandTransition {
  ct_CommandID : string;
  ct_NextState : CommandState;
  ct_ExitCode : option Z;
  ct_OutputComplete : bool;
  ct_OutputTruncated : bool
}.

Definition command_with_warning (r : CommandRecord) (w : bool) : CommandRecord :=
  mkCommandRecord (cr_CommandID r) (cr_SessionID r) (cr_Ordinal r) (cr_IntentOrdinal r) (cr_RequestHash r)
    (cr_ScriptBytes r) (cr_ScriptSHA256 r) (cr_State r) (cr_Timeout r) (cr_ExitCode r)
    (cr_FinalEventSequence r) (cr_OutputTruncated r) (cr_OutputComplete r) (cr_OutputUnavailableReason r)
    (cr_CreatedAt r) (cr_UpdatedAt r) w.

(** ** Vocabulary *)
Definition isTerminalCommandEvent (eventType : EventType) : bool :=
  match eventType with
  | command_succeeded | command_failed | command_cancelled | command_timed_out | command_rejected
  | command_lost => true
  | _ => false
  end.

Definition commandEventTypeForState (state : CommandState) : option EventType :=
  match state with
  | CommandStateRunning => Some command_started
  | CommandStateSucceeded => Some command_succeeded
  | CommandStateFailed => Some command_failed
  | CommandStateCancelled => Some command_cancelled
  | CommandStateTimedOut => Some command_timed_out
  | CommandStateRejected => Some command_rejected
  | CommandStateLost => Some command_lost
  | _ => None
  end.

Definition is_output (t : EventType) : bool := match t with stdout | stderr => true | _ => false end.

Definition validateStoredCommandEvent (eventType : EventType) (sequence : Z) (payload : string) (byteCount : Z)
    : result unit :=
  refuse_if (negb (validCommandEventType eventType) || (sequence <? 1) || (byteCount <? 0)) ErrCommandEvent;;
  refuse_if ((sequence =? 1) && negb (bool_decide (eventType = command_queued))) ErrCommandEvent;;
  refuse_if ((1 <? sequence) && bool_decide (eventType = command_queued)) ErrCommandEvent;;
  if is_output eventType then
    refuse_if ((byteCount <=? 0) || negb (go_len payload =? byteCount)) ErrCommandEvent
  else refuse_if (negb (go_len payload =? 0) || negb (byteCount =? 0)) ErrCommandEvent.

Definition terminalOutputUnavailableReason (input : CommandTransition) : string :=
  if bool_decide (ct_NextState input = CommandStateLost) && negb (ct_OutputComplete input)
  then outputUnavailableCaptureBoundaryUnconfirmed else "".

Definition validateCommandAcceptance (input : CommandAcceptance) : result CommandAcceptance :=
  let invalid {A} (r : result A) := result_map_err (fun _ => ErrInvalidCommand) r in
  commandID ← invalid (NewCommandID (ca_CommandID input));
  sessionID ← invalid (NewSessionID (ca_SessionID input));
  hash ← invalid (NewCanonicalHash (hash_version (ca_RequestHash input)) (hash_digest (ca_RequestHash input)));
  result_map_err (fun e => Errs ErrInvalidCommand e) (ValidateScriptUTF8 (ca_Script input));;
  validateIdempotencyOperationKey submitCommandOperation (ca_IdempotencyKey input);;
  let retention := if ca_IdempotencyRetention input =? 0 then DefaultSessionIdempotencyRetention
                   else ca_IdempotencyRetention input in
  refuse_if (retention <? 0) ErrInvalidCommand;;
  refuse_if (ca_Timeout input <=? 0) ErrInvalidCommand;;
  refuse_if (ca_IntentOrdinal input <? 0) ErrInvalidCommand;;
  Ok (mkCommandAcceptance commandID sessionID hash (ca_IdempotencyKey input) retention (ca_Script input)
        (ca_Timeout input) (ca_IntentOrdinal input) (ca_Audit input)).

(** ** Reads *)
Definition readCommandOnConnection (id : string) : tx CommandRecord :=
  row ← query (fun d => exec_commands d !! id);
  row ← or_fail row ErrCommandNotFound;
  let corrupt {A} (r : result A) : tx A := lift (result_map_err (fun _ => ErrCommandPayloadCorrupt) r) in
  validatedID ← corrupt (NewCommandID id);
  validatedSession ← corrupt (NewSessionID (c_session_id row));
  fail_if ((c_ordinal row <? 1) || negb (CommandState_Valid (c_state row)) || (c_timeout_ns row <=? 0)
           || (128 <? go_len (c_output_unavailable_reason row)) || contains_nul (c_output_unavailable_reason row))
    ErrCommandPayloadCorrupt;;
  hash ← corrupt (NewCanonicalHash (uint16 (c_request_hash_version row)) (c_request_hash row));
  corrupt (ValidateScriptUTF8 (c_script_bytes row));;
  fail_if (negb (bool_decide (c_script_sha256 row = sha256 (c_script_bytes row)))) ErrCommandPayloadCorrupt;;
  fail_if (match c_intent_ordinal row with Some n => n <? 1 | None => false end) ErrCommandPayloadCorrupt;;
  createdAt ← or_fail (parseStoredTime (c_created_at row)) ErrCommandPayloadCorrupt;
  updatedAt ← or_fail (parseStoredTime (c_updated_at row)) ErrCommandPayloadCorrupt;
  mret (mkCommandRecord validatedID validatedSession (c_ordinal row) (c_intent_ordinal row) hash
          (c_script_bytes row) (c_script_sha256 row) (c_state row) (c_timeout_ns row) (c_exit_code row)
          (c_final_event_sequence row) (c_output_truncated row) (c_output_complete row)
          (c_output_unavailable_reason row) createdAt updatedAt false).

Record commandOrderRow : Type := mkCommandOrderRow {
  co_CommandID : string;
  co_Ordinal : Z;
  co_State : CommandState
}.

(** [ORDER BY ordinal]; ordinals are unique within a session. *)
Definition ordinal_le (x y : string * CommandRow) : Prop := c_ordinal (snd x) <= c_ordinal (snd y).
#[export] Instance ordinal_le_dec x y : Decision (ordinal_le x y).
Proof. unfold ordinal_le. apply _. Defined.

Definition ordered_commands (sessionID : string) (d : DB) : list (string * CommandRow) :=
  merge_sort ordinal_le (session_commands sessionID d).

Fixpoint checkCommandOrder (expected : Z) (rows : list (string * CommandRow)) : result (list commandOrderRow) :=
  match rows with
  | [] => Ok []
  | (commandID, row) :: rest =>
      refuse_if (negb (result_is_ok (NewCommandID commandID)) || negb (c_ordinal row =? expected))
        ErrCommandOrderCorrupt;;
      refuse_if (negb (CommandState_Valid (c_state row))) ErrCommandOrderCorrupt;;
      others ← checkCommandOrder (expected + 1) rest;
      Ok (mkCommandOrderRow commandID (c_ordinal row) (c_state row) :: others)
  end.

Definition readCommandOrderOnConnection (sessionID : string) : tx (list commandOrderRow) :=
  rows ← query (ordered_commands sessionID);
  lift (checkCommandOrder 1 rows).

Definition nextCommandOrdinalOnConnection (sessionID : string) : tx Z :=
  commands ← readCommandOrderOnConnection sessionID;
  mret (Z.of_nat (length commands) + 1).

(** The oldest command that is not terminal decides: queued commands can start,
    running and cancelling ones block. *)
Fixpoint firstEligible (commands : list commandOrderRow) : result string :=
  match commands with
  | [] => Err ErrCommandNotEligible
  | command :: rest =>
      match co_State command with
      | CommandStateSucceeded | CommandStateFailed | CommandStateCancelled | CommandStateTimedOut
      | CommandStateRejected | CommandStateLost => firstEligible rest
      | CommandStateQueued => Ok (co_CommandID command)
      | CommandStateRunning | CommandStateCancelling => Err ErrCommandNotEligible
      | CommandStateOther _ => Err ErrCommandOrderCorrupt
      end
  end.

Definition event_le (r1 r2 : EventRow) : Prop := e_sequence r1 <= e_sequence r2.
#[export] Instance event_le_dec r1 r2 : Decision (event_le r1 r2).
Proof. unfold event_le. apply _. Defined.

(** The row loop of [readCommandEventsOnConnection]. *)
Fixpoint decodeEvents (commandID : string) (expected : Z) (rows : list EventRow) : result (list CommandEventRecord) :=
  match rows with
  | [] => Ok []
  | row :: rest =>
      refuse_if (negb (validCommandEventType (e_type row)) || negb (e_sequence row =? expected)) ErrCommandReplayGap;;
      validateStoredCommandEvent (e_type row) (e_sequence row) (e_payload row) (e_byte_count row);;
      match parseStoredTime (e_occurred_at row) with
      | None => Err ErrCommandEvent
      | Some t =>
          others ← decodeEvents commandID (expected + 1) rest;
          Ok (mkCommandEventRecord commandID (e_sequence row) (e_type row) (e_payload row) (e_byte_count row) t
                :: others)
      end
  end.

(** The rows after the cursor, [ORDER BY sequence]. *)
Definition events_after (afterSequence : Z) (commandID : string) (d : DB) : list EventRow :=
  merge_sort event_le (filter (fun r => afterSequence < e_sequence r) (rows_of (exec_command_events d) commandID)).

Definition readCommandEventsOnConnection (commandID : string) (afterSequence : Z) : tx (list CommandEventRecord) :=
  rows ← query (events_after afterSequence commandID);
  events ← lift (decodeEvents commandID (if afterSequence <? 0 then 1 else afterSequence + 1) rows);
  fail_if (is_nil events && (afterSequence <? 0)) ErrCommandEvent;;
  mret events.

(** [SELECT COALESCE(MAX(sequence), 0), COUNT(..) ...] *)
Definition tail_sequence (rows : list EventRow) : Z := foldr Z.max 0 (e_sequence <$> rows).

Definition nextEventSequenceOnConnection (commandID : string) : tx Z :=
  rows ← query (fun d => rows_of (exec_command_events d) commandID);
  fail_if (Z.of_nat (length rows) =? 0) ErrCommandEvent;;
  fail_if (negb (tail_sequence rows =? Z.of_nat (length rows))) ErrCommandReplayGap;;
  mret (tail_sequence rows + 1).

Definition insertCommandEventOnConnection (commandID : string) (sequence : Z) (eventType : EventType)
    (payload : string) (byteCount occurredAt : Z) : tx unit :=
  lift (validateStoredCommandEvent eventType sequence payload byteCount);;
  insert_event commandID (mkEventRow sequence eventType payload byteCount (formatStoredTime occurredAt)).

(** ** Statements on [exec_commands] and [exec_command_slots] *)
Definition update_command (id : string) (p : CommandRow -> bool) (f : CommandRow -> CommandRow) : tx Z :=
  row ← query (fun d => exec_commands d !! id);
  match row with
  | Some r => if p r then modify (fun d => set_commands (<[id := f r]> (exec_commands d)) d);; mret 1 else mret 0
  | None => mret 0
  end.

Definition update_slot (id : string) (p : SlotRow -> bool) (f : SlotRow -> SlotRow) : tx Z :=
  row ← query (fun d => exec_command_slots d !! id);
  match row with
  | Some r => if p r then modify (fun d => set_slots (<[id := f r]> (exec_command_slots d)) d);; mret 1 else mret 0
  | None => mret 0
  end.

(** [SET state = next, updated_at = now] *)
Definition command_with_state (next : CommandState) (now : Z) (r : CommandRow) : CommandRow :=
  mkCommandRow (c_session_id r) (c_ordinal r) (c_intent_ordinal r) (c_request_hash_version r) (c_request_hash r)
    (c_script_bytes r) (c_script_sha256 r) next (c_timeout_ns r) (c_exit_code r) (c_final_event_sequence r)
    (c_output_truncated r) (c_output_complete r) (c_output_unavailable_reason r) (c_created_at r)
    (formatStoredTime now).

(** The seven columns a terminal transition sets. *)
Definition command_terminal (input : CommandTransition) (sequence now : Z) (r : CommandRow) : CommandRow :=
  mkCommandRow (c_session_id r) (c_ordinal r) (c_intent_ordinal r) (c_request_hash_version r) (c_request_hash r)
    (c_script_bytes r) (c_script_sha256 r) (ct_NextState input) (c_timeout_ns r) (ct_ExitCode input) (Some sequence)
    (ct_OutputTruncated input) (ct_OutputComplete input) (terminalOutputUnavailableReason input) (c_created_at r)
    (formatStoredTime now).

Definition always {A} (_ : A) : bool := true.

(** [SET stop_confirmed_at = now, released_at = now] *)
Definition slot_released (now : Z) (r : SlotRow) : SlotRow :=
  mkSlotRow (sl_host_key r) (sl_reserved_at r) (Some (formatStoredTime now)) (Some (formatStoredTime now)).
Definition live_slot (r : SlotRow) : bool := negb (is_Some_b (sl_stop_confirmed_at r)).

(** [transitionSessionOnConnection] of store/scheduler.go *)
Definition transitionSessionOnConnection (sessionID : string) (next : SessionState) (reason : string) (now : Z)
    : tx unit :=
  row ← query (fun d => exec_sessions d !! sessionID);
  row ← or_fail row ErrSessionNotFound;
  let current := s_state row in
  lift (ValidateSessionTransition current next);;
  lift (validateLifecycleReason reason);;
  sequence ← query (next_lifecycle_sequence sessionID);
  update_session sessionID (in_session_state current) (session_with_state next now);;
  insert_lifecycle sessionID (mkLifecycleRow sequence (Some current) next reason (formatStoredTime now)).

(** ** Operations *)
Definition new_command_row (v : CommandAcceptance) (ordinal now : Z) : CommandRow :=
  mkCommandRow (ca_SessionID v) ordinal
    (if ca_IntentOrdinal v =? 0 then None else Some (ca_IntentOrdinal v))
    (hash_version (ca_RequestHash v)) (hash_digest (ca_RequestHash v)) (ca_Script v) (sha256 (ca_Script v))
    CommandStateQueued (ca_Timeout v) None None false false "" (formatStoredTime now) (formatStoredTime now).

Definition queued_event (now : Z) : EventRow := mkEventRow 1 command_queued "" 0 (formatStoredTime now).

Definition AcceptCommand (s : AuthorityStore) (now : Z) (input : CommandAcceptance)
    : result (CommandRecord * bool) * AuthorityStore :=
  match validateCommandAcceptance input with
  | Err e => (Err e, s)
  | Ok v =>
      match withImmediateTransaction s
        (checkIngressAdmissionOnConnection (laneAdmissionRuntime s);;
         row ← query (fun d => exec_sessions d !! ca_SessionID v);
         row ← or_fail row ErrSessionNotFound;
         controllerID ← lift (NewControllerID (controller_id (s_controller row)));
         controller ← lift (NewControllerIdentity (controller_typeName (s_controller row)) controllerID);
         found ← lookupIdempotencyOnConnection controller submitCommandOperation (ca_IdempotencyKey v) now;
         match found with
         | Some existing =>
             fail_if (is_conflict (CompareIdempotency (idem_Hash existing) (ca_RequestHash v))) ErrIdempotencyConflict;;
             existingID ← lift (NewCommandID (idem_ResourceID existing));
             record ← readCommandOnConnection existingID;
             saved ← insertOptionalAuditOnConnection (ca_Audit v);
             mret (command_with_warning record (idem_DeduplicationWarning existing), true, saved)
         | None =>
             warning ← idempotencyExpiryWarningOnConnection controller submitCommandOperation (ca_IdempotencyKey v) now;
             fail_if (negb (in_session_state SessionStateReady row) && negb (in_session_state SessionStateBusy row))
               ErrCommandSessionState;;
             ordinal ← nextCommandOrdinalOnConnection (ca_SessionID v);
             insert_command (ca_CommandID v) (new_command_row v ordinal now);;
             insert_event (ca_CommandID v) (queued_event now);;
             idempotencyInput ← lift (validateIdempotencyInput controller submitCommandOperation (ca_IdempotencyKey v)
               (ca_RequestHash v) (ca_CommandID v) (ca_IdempotencyRetention v));
             recordIdempotencyOnConnection (stamped idempotencyInput now (now + ca_IdempotencyRetention v) warning);;
             created ← readCommandOnConnection (ca_CommandID v);
             saved ← insertOptionalAuditOnConnection (ca_Audit v);
             mret (command_with_warning created warning, false, saved)
         end) with
      | (Ok (record, duplicate, saved), s') =>
          let s'' := logOptionalAudit s' saved in
          (Ok (record, duplicate),
           if duplicate then s''
           else publish s'' (Some (mkCommandEventRecord (cr_CommandID record) 1 command_queued "" 0 (cr_CreatedAt record))))
      | (Err e, s') => (Err e, s')
      end
  end.

(** The event handed to subscribers after a transition. *)
Definition transition_event (commandID : string) (sequence : Z) (eventType : EventType) (now : Z) : CommandEventRecord :=
  mkCommandEventRecord commandID sequence eventType "" 0 now.

Definition AppendCommandEvent (s : AuthorityStore) (now : Z) (input : CommandEventAppend)
    : result CommandEventRecord * AuthorityStore :=
  with_valid s (NewCommandID (ea_CommandID input)) (fun commandID =>
  with_valid s (refuse_if (negb (validCommandEventType (ea_Type input)) || bool_decide (ea_Type input = command_queued)
                           || bool_decide (ea_Type input = command_started) || isTerminalCommandEvent (ea_Type input))
                  ErrCommandEvent) (fun _ =>
  with_valid s (if is_output (ea_Type input)
                then refuse_if ((ea_ByteCount input <=? 0) || negb (go_len (ea_Payload input) =? ea_ByteCount input))
                       ErrCommandEvent
                else refuse_if (negb (go_len (ea_Payload input) =? 0) || negb (ea_ByteCount input =? 0))
                       ErrCommandEvent) (fun _ =>
  match withImmediateTransaction s
    (command ← readCommandOnConnection commandID;
     fail_if (CommandState_IsTerminal (cr_State command)) ErrCommandTerminal;;
     fail_if (negb (bool_decide (cr_State command = CommandStateRunning))
              && negb (bool_decide (cr_State command = CommandStateCancelling))) ErrCommandTransition;;
     sequence ← nextEventSequenceOnConnection commandID;
     insertCommandEventOnConnection commandID sequence (ea_Type input) (ea_Payload input) (ea_ByteCount input) now;;
     mret (mkCommandEventRecord commandID sequence (ea_Type input) (ea_Payload input) (ea_ByteCount input) now)) with
  | (Ok event, s') => (Ok event, publish s' (Some event))
  | (Err e, s') => (Err e, s')
  end))).

Definition TransitionCommand (s : AuthorityStore) (now : Z) (input : CommandTransition)
    : result CommandRecord * AuthorityStore :=
  with_valid s (NewCommandID (ct_CommandID input)) (fun commandID =>
  with_valid s (refuse_if (negb (CommandState_Valid (ct_NextState input))) ErrCommandTransition) (fun _ =>
  match withImmediateTransaction s
    (row ← query (fun d => exec_commands d !! commandID);
     row ← or_fail row ErrCommandNotFound;
     lift (result_map_err (fun _ => ErrCommandTransition) (ValidateCommandTransition (c_state row) (ct_NextState input)));;
     if bool_decide (ct_NextState input = CommandStateCancelling) then
       update_command commandID always (command_with_state (ct_NextState input) now);;
       record ← readCommandOnConnection commandID;
       mret (record, None)
     else
       eventType ← or_fail (commandEventTypeForState (ct_NextState input)) ErrCommandTransition;
       sequence ← nextEventSequenceOnConnection commandID;
       insertCommandEventOnConnection commandID sequence eventType "" 0 now;;
       (if CommandState_IsTerminal (ct_NextState input)
        then update_command commandID always (command_terminal input sequence now)
        else update_command commandID always (command_with_state (ct_NextState input) now));;
       record ← readCommandOnConnection commandID;
       mret (record, Some (transition_event commandID sequence eventType now))) with
  | (Ok (record, event), s') => (Ok record, publish s' event)
  | (Err e, s') => (Err e, s')
  end)).

Definition CompleteRunningCommand (s : AuthorityStore) (now : Z) (input : CommandTransition)
    (nextSessionState : SessionState) (sessionReason : string) (releaseSlot : bool)
    : result CommandRecord * AuthorityStore :=
  with_valid s (NewCommandID (ct_CommandID input)) (fun commandID =>
  with_valid s (refuse_if (negb (CommandState_IsTerminal (ct_NextState input))) ErrCommandTransition) (fun _ =>
  with_valid s (refuse_if (negb (bool_decide (nextSessionState = SessionStateReady))
                           && negb (bool_decide (nextSessionState = SessionStateClosing))
                           && negb (bool_decide (nextSessionState = SessionStateExpired))
                           && negb (bool_decide (nextSessionState = SessionStateLost))) ErrCommandTransition) (fun _ =>
  with_valid s (validateLifecycleReason sessionReason) (fun _ =>
  match withImmediateTransaction s
    (command ← readCommandOnConnection commandID;
     fail_if (negb (bool_decide (cr_State command = CommandStateRunning))
              && negb (bool_decide (cr_State command = CommandStateCancelling))) ErrCommandTransition;;
     lift (result_map_err (fun _ => ErrCommandTransition)
             (ValidateCommandTransition (cr_State command) (ct_NextState input)));;
     sequence ← nextEventSequenceOnConnection commandID;
     eventType ← or_fail (commandEventTypeForState (ct_NextState input)) ErrCommandTransition;
     insertCommandEventOnConnection commandID sequence eventType "" 0 now;;
     update_command commandID always (command_terminal input sequence now);;
     session ← query (fun d => exec_sessions d !! cr_SessionID command);
     session ← or_fail session (ErrText "read completed command session");
     (if negb (bool_decide (s_state session = nextSessionState))
      then transitionSessionOnConnection (cr_SessionID command) nextSessionState sessionReason now
      else mret tt);;
     (if releaseSlot then
        changed ← update_slot commandID live_slot (slot_released now);
        if changed =? 0 then
          slot ← query (fun d => exec_command_slots d !! commandID);
          fail_if (negb (is_Some_b slot)) ErrCommandSlotNotFound;;
          throw ErrCommandSlotNotReleasable
        else mret tt
      else mret tt);;
     record ← readCommandOnConnection commandID;
     mret (record, transition_event commandID sequence eventType now)) with
  | (Ok (record, event), s') => (Ok record, publish s' (Some event))
  | (Err e, s') => (Err e, s')
  end)))).

Definition ReplayCommandEvents (s : AuthorityStore) (id : string) (afterSequence : Z)
    : result (list CommandEventRecord) :=
  validatedID ← NewCommandID id;
  refuse_if (afterSequence <? 0) ErrCommandReplayGap;;
  withReadTransaction s
    (command ← readCommandOnConnection validatedID;
     fail_if (bool_decide (cr_OutputUnavailableReason command = retention_expired)) ErrCommandReplayExpired;;
     events ← readCommandEventsOnConnection validatedID afterSequence;
     fail_if (match cr_FinalEventSequence command with
              | Some final => (afterSequence <? final) && negb (Z.of_nat (length events) =? final - afterSequence)
              | None => false
              end) ErrCommandReplayGap;;
     fail_if (negb (is_Some_b (cr_FinalEventSequence command)) && (afterSequence =? 0) && is_nil events)
       ErrCommandReplayGap;;
     mret events).

Definition NextEligibleCommand (s : AuthorityStore) (id : string) : result CommandRecord :=
  validatedID ← NewSessionID id;
  withReadTransaction s
    (row ← query (fun d => exec_sessions d !! validatedID);
     row ← or_fail row ErrSessionNotFound;
     fail_if (negb (in_session_state SessionStateReady row) && negb (in_session_state SessionStateBusy row))
       ErrCommandNotEligible;;
     commands ← readCommandOrderOnConnection validatedID;
     commandID ← lift (firstEligible commands);
     readCommandOnConnection commandID).

Definition GetCommand (s : AuthorityStore) (id : string) : result CommandRecord :=
  validatedID ← NewCommandID id;
  withReadTransaction s (readCommandOnConnection validatedID).

Definition GetCommandWithEvents (s : AuthorityStore) (id : string)
    : result (CommandRecord * list CommandEventRecord) :=
  validatedID ← NewCommandID id;
  withReadTransaction s
    (command ← readCommandOnConnection validatedID;
     if bool_decide (cr_OutputUnavailableReason command = retention_expired) then mret (command, [])
     else
       events ← readCommandEventsOnConnection validatedID (-1);
       mret (command, events)).

Fixpoint readCommands (ids : list string) : tx (list CommandRecord) :=
  match ids with
  | [] => mret []
  | id :: rest => command ← readCommandOnConnection id; others ← readCommands rest; mret (command :: others)
  end.

Definition ListSessionCommands (s : AuthorityStore) (id : string) : result (list CommandRecord) :=
  validatedID ← NewSessionID id;
  withReadTransaction s
    (readSessionOnConnection validatedID;;
     rows ← query (ordered_commands validatedID);
     ids ← lift (mapM_result NewCommandID (fst <$> rows));
     readCommands ids).

Definition ListCommandEvents (s : AuthorityStore) (id : string) : result (list CommandEventRecord) :=
  validatedID ← NewCommandID id;
  withReadTransaction s
    (readCommandOnConnection validatedID;;
     row ← query (fun d => exec_commands d !! validatedID);
     row ← or_fail row (ErrText "read command retention state");
     if bool_decide (c_output_unavailable_reason row = retention_expired) then mret []
     else readCommandEventsOnConnection validatedID (-1)).

(** ** What a successful statement or read means *)
Lemma update_command_Ok id p f n d d' :
  update_command id p f d = Ok (n, d') ->
  (exists r, exec_commands d !! id = Some r /\ p r = true /\ n = 1 /\
     d' = set_commands (<[id := f r]> (exec_commands d)) d) \/
  (n = 0 /\ d' = d /\ forall r, exec_commands d !! id = Some r -> p r = false).
Proof.
  unfold update_command. intros H. apply stx_bind_Ok in H as (x & d1 & [<- <-]%query_Ok & H).
  destruct (exec_commands d !! id) as [r|]; [destruct (p r) eqn:Hp|]; tx_inv H; [left; eauto|right..];
    naive_solver.
Qed.

Lemma update_slot_Ok id p f n d d' :
  update_slot id p f d = Ok (n, d') ->
  (exists r, exec_command_slots d !! id = Some r /\ p r = true /\ n = 1 /\
     d' = set_slots (<[id := f r]> (exec_command_slots d)) d) \/
  (n = 0 /\ d' = d /\ forall r, exec_command_slots d !! id = Some r -> p r = false).
Proof.
  unfold update_slot. intros H. apply stx_bind_Ok in H as (x & d1 & [<- <-]%query_Ok & H).
  destruct (exec_command_slots d !! id) as [r|]; [destruct (p r) eqn:Hp|]; tx_inv H; [left; eauto|right..];
    naive_solver.
Qed.

Lemma readCommand_Ok id r d d' :
  readCommandOnConnection id d = Ok (r, d') ->
  d' = d /\ exists row, exec_commands d !! id = Some row /\ id <> "" /\ c_session_id row <> "" /\
    cr_CommandID r = id /\ cr_SessionID r = c_session_id row /\ cr_Ordinal r = c_ordinal row /\
    cr_State r = c_state row /\ cr_ScriptBytes r = c_script_bytes row /\
    cr_FinalEventSequence r = c_final_event_sequence row /\
    cr_OutputUnavailableReason r = c_output_unavailable_reason row /\
    parseStoredTime (c_created_at row) = Some (cr_CreatedAt r) /\
    parseStoredTime (c_updated_at row) = Some (cr_UpdatedAt r).
Proof.
  unfold readCommandOnConnection. cbv zeta. intros H. tx_inv H. split; [done|].
  id_norm. eexists. by split_and!.
Qed.

Lemma nextEventSequence_Ok id n d d' :
  nextEventSequenceOnConnection id d = Ok (n, d') ->
  d' = d /\ n = Z.of_nat (length (rows_of (exec_command_events d) id)) + 1 /\ 1 < n.
Proof.
  unfold nextEventSequenceOnConnection. intros H. tx_inv H. bool_norm. split; [done|].
  destruct (rows_of _ _); simpl in *; lia.
Qed.

Lemma insertCommandEvent_Ok id n t p b now u d d' :
  insertCommandEventOnConnection id n t p b now d = Ok (u, d') ->
  validateStoredCommandEvent t n p b = Ok tt /\ is_Some (exec_commands d !! id) /\
  d' = set_events (<[id := rows_of (exec_command_events d) id ++ [mkEventRow n t p b (formatStoredTime now)]]>
                     (exec_command_events d)) d.
Proof.
  unfold insertCommandEventOnConnection. intros H. apply stx_bind_Ok in H as ([] & d1 & [Hv <-]%lift_Ok & H).
  apply insert_event_Ok in H as (Hg & _ & ->). bool_norm. split_and!; try done.
  destruct (exec_commands d !! id); [by eexists|done].
Qed.

Lemma checkCommandOrder_Ok k rows l :
  checkCommandOrder k rows = Ok l ->
  (fun x => c_ordinal (snd x)) <$> rows = seqZ k (Z.of_nat (length rows)) /\
  l = (fun x => mkCommandOrderRow (fst x) (c_ordinal (snd x)) (c_state (snd x))) <$> rows.
Proof.
  revert k l. induction rows as [|[id row] rows IH]; intros k l H.
  { injection H as <-. done. }
  cbn [checkCommandOrder] in H. tx_inv H. apply IH in Hrun1 as [Hseq ->]. bool_norm.
  cbn [length]. rewrite seqZ_cons by lia. rewrite Nat2Z.inj_succ, Z.pred_succ.
  cbn [fmap list_fmap fst snd]. unfold Z.succ. rewrite <- Hseq. split; [|done]. by f_equal.
Qed.

Lemma ordered_commands_perm sid d : ordered_commands sid d ≡ₚ session_commands sid d.
Proof. apply merge_sort_Permutation. Qed.

Lemma nextCommandOrdinal_Ok sid n d d' :
  nextCommandOrdinalOnConnection sid d = Ok (n, d') ->
  d' = d /\ n = Z.of_nat (length (session_commands sid d)) + 1.
Proof.
  unfold nextCommandOrdinalOnConnection, readCommandOrderOnConnection. intros H. tx_inv H.
  apply checkCommandOrder_Ok in Hrun as [_ ->]. split; [done|].
  by rewrite length_fmap, ordered_commands_perm.
Qed.

Lemma transitionSession_Ok sid next reason now u d d' :
  transitionSessionOnConnection sid next reason now d = Ok (u, d') ->
  exists r, exec_sessions d !! sid = Some r /\ session_edge (s_state r) next /\
    d' = set_lifecycle (<[sid := rows_of (exec_session_lifecycle d) sid ++
           [mkLifecycleRow (next_lifecycle_sequence sid d) (Some (s_state r)) next reason (formatStoredTime now)]]>
           (exec_session_lifecycle d))
         (set_sessions (<[sid := session_with_state next now r]> (exec_sessions d)) d).
Proof.
  unfold transitionSessionOnConnection. cbv zeta. intros H. tx_inv H. exists a.
  apply ValidateSessionTransition_Ok in Hrun0. apply insert_lifecycle_Ok in H as (_ & _ & ->).
  apply update_session_Ok in Hrun2 as [(r & Hr & _ & _ & ->)|(_ & -> & Hf)].
  - rewrite Hrun in Hr. injection Hr as <-. by split_and!.
  - specialize (Hf _ Hrun). unfold in_session_state in Hf. by rewrite bool_decide_eq_false in Hf.
Qed.
