(* ===== verification/LostRecovery.v ===== *)
(** * Recovery of lost runtimes

    Models [src/src/internal/store/lost_recovery.go]: releasing the command slot
    and the session reservation that a lost command retains, alone or while
    queued one-off jobs are preserved, and the finalization work items the
    release leaves.  The two listings, whose order is that of timestamp texts,
    are in Listings.v.  An SQL join on primary keys is a sequence of lookups.  At the
    end, the metadata reads of [store/lost_recovery_metadata.go]. *)
From S2P Require Import Prelude GoStrings Sha256 Identity Lifecycle Policy Canonical LaneAdmission.
From S2P Require Import AuditRecords Db AuditStore AdmissionStore Idempotency Sessions Commands.

(** store/scheduler.go *)
Definition DefaultRunningCommandLimit : Z := 4.
Definition schedulerHostKey : string := "authority".

Record LostRuntimeRecoveryPair : Type := mkPair { pair_SessionID : string; pair_CommandID : string }.
#[export] Instance LostRuntimeRecoveryPair_eq_dec : EqDecision LostRuntimeRecoveryPair.
Proof. solve_decision. Defined.

(** [SELECT COUNT(..) FROM exec_command_slots WHERE host_key = ? AND stop_confirmed_at IS NULL] *)
Definition count_live_slots (d : DB) : Z :=
  Z.of_nat (size (filter (fun '(_, r) => sl_host_key r = schedulerHostKey /\ sl_stop_confirmed_at r = None)
                    (exec_command_slots d))).

(** ** Validation *)
Fixpoint validatePairs (seenSessions seenCommands : list string) (pairs : list LostRuntimeRecoveryPair)
    : result (list LostRuntimeRecoveryPair) :=
  match pairs with
  | [] => Ok []
  | pr :: rest =>
      sessionID ← NewSessionID (pair_SessionID pr);
      commandID ← NewCommandID (pair_CommandID pr);
      refuse_if (bool_decide (sessionID ∈ seenSessions)) ErrLostRuntimeRecoveryNotReleasable;;
      refuse_if (bool_decide (commandID ∈ seenCommands)) ErrLostRuntimeRecoveryNotReleasable;;
      validated ← validatePairs (sessionID :: seenSessions) (commandID :: seenCommands) rest;
      Ok (mkPair sessionID commandID :: validated)
  end.

Definition validateLostRuntimeRecoveryPairs (pairs : list LostRuntimeRecoveryPair)
    : result (list LostRuntimeRecoveryPair) :=
  refuse_if (is_nil pairs) ErrLostRuntimeRecoveryNotReleasable;;
  validatePairs [] [] pairs.

(** ** Checks *)

(** [ORDER BY sequence DESC LIMIT 1] *)
Definition tail_event (rows : list EventRow) : option EventRow := last (merge_sort event_le rows).

(** Whether the pair was already released. *)
Definition checkLostRuntimeRecoveryPair (pr : LostRuntimeRecoveryPair) : tx bool :=
  d ← query (fun d => d);
  command ← or_fail (exec_commands d !! pair_CommandID pr) ErrLostRuntimeRecoveryNotReleasable;
  session ← or_fail (exec_sessions d !! c_session_id command) ErrLostRuntimeRecoveryNotReleasable;
  slot ← or_fail (exec_command_slots d !! pair_CommandID pr) ErrLostRuntimeRecoveryNotReleasable;
  reservation ← or_fail (exec_capacity_reservations d !! c_session_id command) ErrLostRuntimeRecoveryNotReleasable;
  fail_if (negb (bool_decide (c_session_id command = pair_SessionID pr))
           || negb (bool_decide (c_state command = CommandStateLost))
           || negb (bool_decide (s_state session = SessionStateLost))
           || is_empty (s_runtime_generation session)
           || negb (bool_decide (sl_host_key slot = schedulerHostKey))
           || negb (bool_decide (r_host_key reservation = reservationHostKey))) ErrLostRuntimeRecoveryNotReleasable;;
  let commandStop := is_Some_b (sl_stop_confirmed_at slot) in
  let commandReleased := is_Some_b (sl_released_at slot) in
  let sessionCleanup := is_Some_b (r_cleanup_confirmed_at reservation) in
  let sessionReleased := is_Some_b (r_released_at reservation) in
  let commandAlreadyReleased := commandStop && commandReleased in
  let sessionAlreadyReleased := sessionCleanup && sessionReleased in
  if commandAlreadyReleased && sessionAlreadyReleased then mret true
  else
    fail_if (xorb commandStop commandReleased || xorb sessionCleanup sessionReleased
             || xorb commandAlreadyReleased sessionAlreadyReleased) ErrLostRuntimeRecoveryNotReleasable;;
    fail_if (c_output_complete command) ErrLostRuntimeRecoveryNotReleasable;;
    finalSequence ← or_fail (c_final_event_sequence command) ErrLostRuntimeRecoveryNotReleasable;
    tail ← or_fail (tail_event (rows_of (exec_command_events d) (pair_CommandID pr)))
             ErrLostRuntimeRecoveryNotReleasable;
    fail_if (negb (e_sequence tail =? finalSequence) || negb (bool_decide (e_type tail = command_lost)))
      ErrLostRuntimeRecoveryNotReleasable;;
    mret false.

(** The row loop of [requireLostRecoveryTerminalSessionBoundary]; returns [found]. *)
Fixpoint terminalBoundary (commandID : string) (found : bool) (rows : list (string * CommandRow)) : result bool :=
  match rows with
  | [] => Ok found
  | (id, row) :: rest =>
      result_map_err (fun _ => ErrLostRuntimeRecoveryNotReleasable) (NewCommandID id);;
      refuse_if (negb (CommandState_Valid (c_state row))) ErrLostRuntimeRecoveryNotReleasable;;
      if bool_decide (id = commandID) then terminalBoundary commandID true rest
      else
        refuse_if (negb (CommandState_IsTerminal (c_state row))) ErrLostRuntimeRecoveryNotReleasable;;
        terminalBoundary commandID found rest
  end.

Definition requireLostRecoveryTerminalSessionBoundary (pr : LostRuntimeRecoveryPair) : tx unit :=
  rows ← query (ordered_commands (pair_SessionID pr));
  found ← lift (terminalBoundary (pair_CommandID pr) false rows);
  fail_if (negb found) ErrLostRuntimeRecoveryNotReleasable.

Definition active_command (r : CommandRow) : bool :=
  match c_state r with CommandStateRunning | CommandStateCancelling => true | _ => false end.

Definition requireNoRunningOrCancellingCommands : tx unit :=
  count ← query (fun d => size (filter (fun '(_, r) => active_command r = true) (exec_commands d)));
  fail_if (negb (Nat.eqb count 0)) ErrLostRuntimeRecoveryNotReleasable.

(** The row loop over the live slots; returns their number. *)
Fixpoint selectedSlots (selected : list string) (rows : list (string * SlotRow)) : result Z :=
  match rows with
  | [] => Ok 0
  | (id, row) :: rest =>
      refuse_if (negb (result_is_ok (NewCommandID id)) || negb (bool_decide (sl_host_key row = schedulerHostKey)))
        ErrLostRuntimeRecoveryNotReleasable;;
      refuse_if (negb (bool_decide (id ∈ selected))) ErrLostRuntimeRecoveryNotReleasable;;
      count ← selectedSlots selected rest;
      Ok (count + 1)
  end.

(** [selected] has no duplicates: the pairs were validated. *)
Definition requireFullyOccupiedLiveCommandSlotsSelected (selected : list string) : tx unit :=
  rows ← query (fun d => filter (fun '(_, r) => sl_stop_confirmed_at r = None) (map_to_list (exec_command_slots d)));
  liveSlots ← lift (selectedSlots selected rows);
  let selectedCount := Z.of_nat (length selected) in
  if (liveSlots =? 0) && (selectedCount =? 0) then mret tt
  else fail_if (negb (liveSlots =? DefaultRunningCommandLimit) || negb (selectedCount =? DefaultRunningCommandLimit))
         ErrLostRuntimeRecoveryNotReleasable.

Definition requireExactlyQueuedEvent (commandID : string) : tx unit :=
  rows ← query (fun d => merge_sort event_le (rows_of (exec_command_events d) commandID));
  fail_if (match rows with
           | [row] => negb (e_sequence row =? 1) || negb (bool_decide (e_type row = command_queued))
           | _ => true
           end) ErrLostRuntimeRecoveryNotReleasable.

(** The job of a session; [exec_jobs.session_id] is unique. *)
Definition session_job (sessionID : string) (d : DB) : option (string * JobRow) :=
  head (filter (fun '(_, j) => j_session_id j = sessionID) (map_to_list (exec_jobs d))).

Definition requireSafeQueuedOneOffReservation (sessionID : string) : tx (string * string) :=
  d ← query (fun d => d);
  let missing {A} (o : option A) : tx A := or_fail o ErrLostRuntimeRecoveryNotReleasable in
  reservation ← missing (exec_capacity_reservations d !! sessionID);
  session ← missing (exec_sessions d !! sessionID);
  job ← missing (session_job sessionID d);
  let jobIDValue := fst job in
  let job := snd job in
  command ← missing (exec_commands d !! j_command_id job);
  let sessionCommandCount := length (session_commands sessionID d) in
  let commandSlotCount := if is_Some_b (exec_command_slots d !! j_command_id job) then 1%nat else 0%nat in
  jobID ← lift (result_map_err (fun _ => ErrLostRuntimeRecoveryNotReleasable) (NewJobID jobIDValue));
  fail_if (negb (bool_decide (r_host_key reservation = reservationHostKey))
           || negb (bool_decide (j_session_id job = sessionID)) || negb (bool_decide (c_session_id command = sessionID))
           || negb (bool_decide (s_state session = SessionStateReady))
           || negb (bool_decide (j_phase job = JobPhaseAwaitingCommand))
           || negb (bool_decide (j_command_state job = Some CommandStateQueued))
           || negb (bool_decide (c_state command = CommandStateQueued))
           || is_Some_b (j_exit_code job) || is_Some_b (j_final_event_sequence job)
           || j_output_truncated job || j_output_complete job || negb (is_empty (j_output_unavailable_reason job))
           || negb (bool_decide (j_teardown_state job = JobTeardownPending)) || negb (is_empty (j_teardown_reason job))
           || is_Some_b (c_exit_code command) || is_Some_b (c_final_event_sequence command)
           || c_output_truncated command || c_output_complete command
           || negb (is_empty (c_output_unavailable_reason command))
           || negb (Nat.eqb sessionCommandCount 1) || negb (Nat.eqb commandSlotCount 0))
    ErrLostRuntimeRecoveryNotReleasable;;
  commandID ← lift (result_map_err (fun _ => ErrLostRuntimeRecoveryNotReleasable) (NewCommandID (j_command_id job)));
  requireExactlyQueuedEvent commandID;;
  mret (jobID, commandID).

(** The loop over the live reservations: the jobs and commands of the preserved
    one-offs, with the session of each command. *)
Fixpoint preservedOneOffs (selected : list string) (rows : list (string * ReservationRow))
    : tx (list string * list (string * string)) :=
  match rows with
  | [] => mret ([], [])
  | (sessionID, row) :: rest =>
      fail_if (negb (bool_decide (r_host_key row = reservationHostKey))) ErrLostRuntimeRecoveryNotReleasable;;
      if bool_decide (sessionID ∈ selected) then preservedOneOffs selected rest
      else
        safe ← requireSafeQueuedOneOffReservation sessionID;
        others ← preservedOneOffs selected rest;
        mret (fst safe :: fst others, (snd safe, sessionID) :: snd others)
  end.

Definition schedulerEligible (d : DB) : list (string * CommandRow) :=
  filter (fun '(_, c) => c_state c = CommandStateQueued /\
            (s_state <$> exec_sessions d !! c_session_id c) = Some SessionStateReady)
    (map_to_list (exec_commands d)).

Definition requireOnlyPreservedSchedulerEligibleQueuedCommands (safe : list (string * string)) : tx unit :=
  rows ← query schedulerEligible;
  fail_if (negb (forallb (fun '(commandID, row) =>
             result_is_ok (NewCommandID commandID) && result_is_ok (NewSessionID (c_session_id row))
             && bool_decide ((commandID, c_session_id row) ∈ safe)) rows)) ErrLostRuntimeRecoveryNotReleasable.

Definition nonterminal_phase (p : JobPhase) : bool :=
  match p with
  | JobPhaseCreatingSession | JobPhaseAcceptingCommand | JobPhaseAwaitingCommand | JobPhaseClosingSession => true
  | _ => false
  end.

Definition requireOnlySelectedOrQueuedOneOffReservations (selected : list string) : tx unit :=
  rows ← query (fun d => filter (fun '(_, r) => r_cleanup_confirmed_at r = None)
                           (map_to_list (exec_capacity_reservations d)));
  fail_if (negb (forallb (fun '(sessionID, _) => result_is_ok (NewSessionID sessionID)) rows))
    ErrLostRuntimeRecoveryNotReleasable;;
  safe ← preservedOneOffs selected rows;
  requireOnlyPreservedSchedulerEligibleQueuedCommands (snd safe);;
  jobs ← query (fun d => filter (fun '(_, j) => nonterminal_phase (j_phase j) = true) (map_to_list (exec_jobs d)));
  fail_if (negb (forallb (fun '(jobID, j) =>
             result_is_ok (NewJobID jobID) && bool_decide (j_phase j = JobPhaseAwaitingCommand)
             && bool_decide (jobID ∈ fst safe)) jobs)) ErrLostRuntimeRecoveryNotReleasable.

(** The first loop of the two batch operations: the pairs still retained. *)
Fixpoint retainedPairs (boundary : bool) (pairs : list LostRuntimeRecoveryPair)
    : tx (list LostRuntimeRecoveryPair) :=
  match pairs with
  | [] => mret []
  | pr :: rest =>
      alreadyReleased ← checkLostRuntimeRecoveryPair pr;
      (if boundary then requireLostRecoveryTerminalSessionBoundary pr else mret tt);;
      others ← retainedPairs boundary rest;
      mret (if alreadyReleased : bool then others else pr :: others)
  end.

Definition checkLostRuntimeRecoveryBatchPreservingQueuedOneOffs_tx (pairs : list LostRuntimeRecoveryPair)
    : tx (list LostRuntimeRecoveryPair) :=
  unreleased ← retainedPairs true pairs;
  if is_nil unreleased then mret unreleased
  else
    requireNoRunningOrCancellingCommands;;
    requireFullyOccupiedLiveCommandSlotsSelected (pair_CommandID <$> unreleased);;
    requireOnlySelectedOrQueuedOneOffReservations (pair_SessionID <$> pairs);;
    mret unreleased.

(** ** Release *)
Definition releasable_slot (r : SlotRow) : bool :=
  bool_decide (sl_host_key r = schedulerHostKey)
  && negb (is_Some_b (sl_stop_confirmed_at r)) && negb (is_Some_b (sl_released_at r)).
Definition releasable_reservation (r : ReservationRow) : bool :=
  bool_decide (r_host_key r = reservationHostKey)
  && negb (is_Some_b (r_cleanup_confirmed_at r)) && negb (is_Some_b (r_released_at r)).

(** PRIMARY KEY command_id, UNIQUE session_id and the two foreign keys. *)
Definition insert_finalization (id : string) (row : FinalizationRow) : tx unit :=
  d ← query (fun d => d);
  fail_if (is_Some_b (exec_lost_runtime_recovery_finalizations d !! id)
           || existsb (fun '(_, f) => bool_decide (f_session_id f = f_session_id row))
                (map_to_list (exec_lost_runtime_recovery_finalizations d))
           || negb (is_Some_b (exec_commands d !! id)) || negb (is_Some_b (exec_sessions d !! f_session_id row)))
    (ErrSQL "record lost runtime recovery finalization");;
  modify (fun d => set_finalizations (<[id := row]> (exec_lost_runtime_recovery_finalizations d)) d).

Definition releaseLostRuntimeRecoveryPair (pr : LostRuntimeRecoveryPair) (now : Z) : tx unit :=
  changed ← update_slot (pair_CommandID pr) releasable_slot (slot_released now);
  fail_if (negb (changed =? 1)) ErrLostRuntimeRecoveryNotReleasable;;
  slot ← query (fun d => exec_command_slots d !! pair_CommandID pr);
  slot ← or_fail slot (ErrText "read confirmed lost-recovery command slot");
  fail_if (negb (is_Some_b (sl_stop_confirmed_at slot)) || negb (is_Some_b (sl_released_at slot)))
    ErrLostRuntimeRecoveryNotReleasable;;
  changed ← update_reservation (pair_SessionID pr) releasable_reservation (reservation_released now);
  fail_if (negb (changed =? 1)) ErrLostRuntimeRecoveryNotReleasable;;
  reservation ← query (fun d => exec_capacity_reservations d !! pair_SessionID pr);
  reservation ← or_fail reservation (ErrText "read confirmed lost-recovery session reservation");
  fail_if (negb (is_Some_b (r_cleanup_confirmed_at reservation)) || negb (is_Some_b (r_released_at reservation)))
    ErrLostRuntimeRecoveryNotReleasable;;
  insert_finalization (pair_CommandID pr) (mkFinalizationRow (pair_SessionID pr) (formatStoredTime now)).

Fixpoint releasePairs (now : Z) (pairs : list LostRuntimeRecoveryPair) : tx unit :=
  match pairs with
  | [] => mret tt
  | pr :: rest => releaseLostRuntimeRecoveryPair pr now;; releasePairs now rest
  end.

(** ** Operations *)
Definition ConfirmLostRuntimeRecoveryBatch (s : AuthorityStore) (now : Z) (pairs : list LostRuntimeRecoveryPair)
    : result unit * AuthorityStore :=
  with_valid s (validateLostRuntimeRecoveryPairs pairs) (fun validated =>
  withImmediateTransaction s
    (unreleased ← retainedPairs false validated;
     if is_nil unreleased then mret tt
     else
       liveSlots ← query count_live_slots;
       liveReservations ← query count_live_reservations;
       fail_if (negb (liveSlots =? Z.of_nat (length unreleased))
                || negb (liveReservations =? Z.of_nat (length unreleased))) ErrLostRuntimeRecoveryNotReleasable;;
       releasePairs now unreleased)).

Definition ConfirmLostRuntimeRecovery (s : AuthorityStore) (now : Z) (sessionID commandID : string)
    : result unit * AuthorityStore :=
  ConfirmLostRuntimeRecoveryBatch s now [mkPair sessionID commandID].

Definition CheckLostRuntimeRecoveryBatchPreservingQueuedOneOffs (s : AuthorityStore)
    (pairs : list LostRuntimeRecoveryPair) : result unit :=
  validated ← validateLostRuntimeRecoveryPairs pairs;
  withReadTransaction s (checkLostRuntimeRecoveryBatchPreservingQueuedOneOffs_tx validated);;
  Ok tt.

Definition ConfirmLostRuntimeRecoveryBatchPreservingQueuedOneOffs (s : AuthorityStore) (now : Z)
    (pairs : list LostRuntimeRecoveryPair) : result unit * AuthorityStore :=
  with_valid s (validateLostRuntimeRecoveryPairs pairs) (fun validated =>
  withImmediateTransaction s
    (unreleased ← checkLostRuntimeRecoveryBatchPreservingQueuedOneOffs_tx validated;
     releasePairs now unreleased)).

(** [alreadyReleased, err := check(...); if err != nil || !alreadyReleased] *)
Definition requireAlreadyReleased (pr : LostRuntimeRecoveryPair) : tx unit := fun d =>
  match checkLostRuntimeRecoveryPair pr d with
  | Ok (true, d') => Ok (tt, d')
  | _ => Err ErrLostRuntimeRecoveryNotReleasable
  end.

Definition CompleteLostRuntimeRecoveryFinalization (s : AuthorityStore) (pr : LostRuntimeRecoveryPair)
    : result unit * AuthorityStore :=
  with_valid s (validateLostRuntimeRecoveryPairs [pr]) (fun _ =>
  withImmediateTransaction s
    (row ← query (fun d => exec_lost_runtime_recovery_finalizations d !! pair_CommandID pr);
     match row with
     | None => requireAlreadyReleased pr
     | Some row =>
         fail_if (negb (bool_decide (f_session_id row = pair_SessionID pr))) ErrLostRuntimeRecoveryNotReleasable;;
         requireAlreadyReleased pr;;
         modify (fun d => set_finalizations
           (delete (pair_CommandID pr) (exec_lost_runtime_recovery_finalizations d)) d)
     end)).

(** ** The checks only read *)
#[export] Instance checkLostRuntimeRecoveryPair_ro p : ReadOnly (checkLostRuntimeRecoveryPair p).
Proof. unfold checkLostRuntimeRecoveryPair. cbv zeta. apply _. Qed.
#[export] Instance requireLostRecoveryTerminalSessionBoundary_ro p :
  ReadOnly (requireLostRecoveryTerminalSessionBoundary p).
Proof. unfold requireLostRecoveryTerminalSessionBoundary. apply _. Qed.
#[export] Instance retainedPairs_ro b pairs : ReadOnly (retainedPairs b pairs).
Proof. induction pairs; cbn [retainedPairs]; apply _. Qed.
#[export] Instance requireSafeQueuedOneOffReservation_ro sid : ReadOnly (requireSafeQueuedOneOffReservation sid).
Proof. unfold requireSafeQueuedOneOffReservation, requireExactlyQueuedEvent. cbv zeta. apply _. Qed.
#[export] Instance preservedOneOffs_ro selected rows : ReadOnly (preservedOneOffs selected rows).
Proof. induction rows as [|[]]; cbn [preservedOneOffs]; apply _. Qed.
#[export] Instance checkBatch_ro pairs : ReadOnly (checkLostRuntimeRecoveryBatchPreservingQueuedOneOffs_tx pairs).
Proof.
  unfold checkLostRuntimeRecoveryBatchPreservingQueuedOneOffs_tx, requireNoRunningOrCancellingCommands,
    requireFullyOccupiedLiveCommandSlotsSelected, requireOnlySelectedOrQueuedOneOffReservations,
    requireOnlyPreservedSchedulerEligibleQueuedCommands. cbv zeta. apply _.
Qed.
#[export] Instance requireAlreadyReleased_ro p : ReadOnly (requireAlreadyReleased p).
Proof.
  intros d u d'. unfold requireAlreadyReleased. destruct (checkLostRuntimeRecoveryPair p d) as [[[] d1]|] eqn:E; try done.
  intros [= _ <-]. by apply read_only in E.
Qed.

(** ** Metadata reads of the offline recoveries

    Models [src/src/internal/store/lost_recovery_metadata.go]: the reads that
    give an operator recovery the identity, state and event boundary of a
    command without its script or its output. *)

Record LostRuntimeRecoveryCommand : Type := mkLostRuntimeRecoveryCommand {
  lrc_CommandID : string;
  lrc_SessionID : string;
  lrc_State : CommandState;
  lrc_OutputComplete : bool;
  lrc_FinalEventSequence : option Z
}.

Record CommandStateMetadata : Type := mkCommandStateMetadata {
  csm_CommandID : string;
  csm_State : CommandState
}.

Record CommandEventBoundary : Type := mkCommandEventBoundary {
  ceb_Sequence : Z;
  ceb_Type : EventType
}.

Definition readLostRuntimeRecoveryCommandOnConnection (id : string) : tx LostRuntimeRecoveryCommand :=
  row ← query (fun d => exec_commands d !! id);
  row ← or_fail row ErrCommandNotFound;
  let corrupt {A} (r : result A) : tx A := lift (result_map_err (fun _ => ErrCommandEvent) r) in
  validatedCommandID ← corrupt (NewCommandID id);
  validatedSessionID ← corrupt (NewSessionID (c_session_id row));
  fail_if (negb (CommandState_Valid (c_state row))) ErrCommandEvent;;
  fail_if (match c_final_event_sequence row with Some n => n <? 1 | None => false end) ErrCommandEvent;;
  mret (mkLostRuntimeRecoveryCommand validatedCommandID validatedSessionID (c_state row) (c_output_complete row)
          (c_final_event_sequence row)).

Definition GetLostRuntimeRecoveryCommand (s : AuthorityStore) (id : string) : result LostRuntimeRecoveryCommand :=
  validatedID ← NewCommandID id;
  withReadTransaction s (readLostRuntimeRecoveryCommandOnConnection validatedID).

(** One row of [ListSessionCommandStates]. *)
Definition command_state_metadata (row : string * CommandRow) : result CommandStateMetadata :=
  validatedCommandID ← result_map_err (fun _ => ErrCommandEvent) (NewCommandID (fst row));
  refuse_if (negb (CommandState_Valid (c_state (snd row)))) ErrCommandEvent;;
  Ok (mkCommandStateMetadata validatedCommandID (c_state (snd row))).

Definition ListSessionCommandStates (s : AuthorityStore) (id : string) : result (list CommandStateMetadata) :=
  validatedID ← NewSessionID id;
  withReadTransaction s
    (present ← query (fun d => is_Some_b (exec_sessions d !! validatedID));
     fail_if (negb present) ErrSessionNotFound;;
     rows ← query (ordered_commands validatedID);
     lift (mapM_result command_state_metadata rows)).

Definition GetCommandEventTail (s : AuthorityStore) (id : string) : result CommandEventBoundary :=
  validatedID ← NewCommandID id;
  withReadTransaction s
    (tail ← query (fun d => tail_event (rows_of (exec_command_events d) validatedID));
     tail ← or_fail tail ErrCommandEvent;
     fail_if ((e_sequence tail <? 1) || negb (validCommandEventType (e_type tail))) ErrCommandEvent;;
     mret (mkCommandEventBoundary (e_sequence tail) (e_type tail))).

#[export] Instance readLostRuntimeRecoveryCommand_ro id : ReadOnly (readLostRuntimeRecoveryCommandOnConnection id).
Proof. unfold readLostRuntimeRecoveryCommandOnConnection. cbv zeta. apply _. Qed.
