(* ===== verification/Listings.v ===== *)
(** * Listings ordered by a timestamp column

    Models [ListSessions] of [src/src/internal/store/sessions.go] and the two
    listings of [src/src/internal/store/lost_recovery.go].  SQLite orders a
    timestamp column by its text: [time.RFC3339Nano] drops the trailing zeros of
    the fraction, so within one second the order of the texts is not the order
    of the instants. *)
From Stdlib Require Import String.
From S2P Require Import Prelude GoStrings Sha256 Identity Lifecycle Policy Canonical LaneAdmission.
From S2P Require Import AuditRecords Db AuditStore AdmissionStore Idempotency Sessions Commands LostRecovery.

(** ** The text of a timestamp *)

(** The [n] decimal digits of [x]. *)
Fixpoint decimal_digits (n : nat) (x : Z) : list Z :=
  match n with O => [] | S n' => decimal_digits n' (x / 10) ++ [48 + x mod 10] end.

Fixpoint drop_zeros (rdigits : list Z) : list Z :=
  match rdigits with b :: l => if b =? 48 then drop_zeros l else rdigits | [] => [] end.

(** The fraction and the zone: [.5Z], [.000000001Z], [Z]. *)
Definition fraction_text (nanos : Z) : string :=
  let digits := rev (drop_zeros (rev (decimal_digits 9 nanos))) in
  string_of ((if is_nil digits then [] else 46 :: digits) ++ [90]).

(** The texts have four-digit years, so their order up to the second is that of
    the seconds.  A text that is not a timestamp is put last. *)
Definition stored_le (x y : StoredTime) : Prop :=
  match x, y with
  | StoredInstant t, StoredInstant u =>
      if negb (t / second =? u / second) then t / second < u / second
      else string_le (fraction_text (t mod second)) (fraction_text (u mod second))
  | StoredInstant _, StoredGarbage => True
  | StoredGarbage, StoredInstant _ => False
  | StoredGarbage, StoredGarbage => True
  end.
#[export] Instance stored_le_dec x y : Decision (stored_le x y).
Proof. unfold stored_le. destruct x, y; try apply _. destruct (negb _); apply _. Defined.

(** [ORDER BY <timestamp>, <id>] *)
Definition listed_le {A} (at_ : A -> StoredTime) (x y : string * A) : Prop :=
  if bool_decide (at_ (snd x) = at_ (snd y)) then string_le (fst x) (fst y) else stored_le (at_ (snd x)) (at_ (snd y)).
#[export] Instance listed_le_dec {A} (at_ : A -> StoredTime) x y : Decision (listed_le at_ x y).
Proof. unfold listed_le. destruct (bool_decide _); apply _. Defined.

(** The loop that reads one record per listed identifier. *)
Fixpoint read_each {A B} (read : A -> tx B) (ids : list A) : tx (list B) :=
  match ids with
  | [] => mret []
  | id :: rest => record ← read id; records ← read_each read rest; mret (record :: records)
  end.

#[export] Instance read_each_ro {A B} (read : A -> tx B) ids : (forall id, ReadOnly (read id)) -> ReadOnly (read_each read ids).
Proof. intros. induction ids; cbn [read_each]; apply _. Qed.

(** ** Sessions *)
Definition ListSessions (s : AuthorityStore) : result (list SessionRecord) :=
  withReadTransaction s
    (rows ← query (fun d => merge_sort (listed_le s_created_at) (map_to_list (exec_sessions d)));
     ids ← lift (mapM_result (fun '(rawID, _) => NewSessionID rawID) rows);
     read_each readSessionOnConnection ids).

(** ** Lost runtimes *)

(** The join of [listRetainedLostRuntimeRecoveryPairsOnConnection]. *)
Definition retained_lost_slot (d : DB) (commandID : string) (command : CommandRow) : option SlotRow :=
  session ← exec_sessions d !! c_session_id command;
  slot ← exec_command_slots d !! commandID;
  reservation ← exec_capacity_reservations d !! c_session_id command;
  finalSequence ← c_final_event_sequence command;
  event ← List.find (fun e => e_sequence e =? finalSequence) (rows_of (exec_command_events d) commandID);
  if bool_decide (c_state command = CommandStateLost) && bool_decide (s_state session = SessionStateLost)
     && negb (c_output_complete command) && bool_decide (e_type event = command_lost)
     && bool_decide (sl_host_key slot = schedulerHostKey)
     && negb (is_Some_b (sl_stop_confirmed_at slot)) && negb (is_Some_b (sl_released_at slot))
     && bool_decide (r_host_key reservation = reservationHostKey)
     && negb (is_Some_b (r_cleanup_confirmed_at reservation)) && negb (is_Some_b (r_released_at reservation))
  then Some slot else None.

Definition retained_lost_rows (d : DB) : list (string * (SlotRow * string)) :=
  omap (fun '(commandID, command) =>
          slot ← retained_lost_slot d commandID command; Some (commandID, (slot, c_session_id command)))
    (map_to_list (exec_commands d)).

Definition lost_pair_of (sessionID commandID : string) : result LostRuntimeRecoveryPair :=
  sessionID ← result_map_err (fun _ => ErrLostRuntimeRecoveryNotReleasable) (NewSessionID sessionID);
  commandID ← result_map_err (fun _ => ErrLostRuntimeRecoveryNotReleasable) (NewCommandID commandID);
  Ok (mkPair sessionID commandID).

Definition listRetainedLostRuntimeRecoveryPairsOnConnection : tx (list LostRuntimeRecoveryPair) :=
  rows ← query (fun d => merge_sort (listed_le (fun x => sl_reserved_at (fst x))) (retained_lost_rows d));
  lift (mapM_result (fun '(commandID, (_, sessionID)) => lost_pair_of sessionID commandID) rows).

Definition ListRetainedLostRuntimeRecoveryPairs (s : AuthorityStore) : result (list LostRuntimeRecoveryPair) :=
  withReadTransaction s listRetainedLostRuntimeRecoveryPairsOnConnection.

(** The row of [ListPendingLostRuntimeRecoveryFinalizations]: the inner joins drop
    a work item whose command, session, slot or reservation is gone. *)
Record FinalizationJoin : Type := mkFinalizationJoin {
  fj_finalization : FinalizationRow;
  fj_command : CommandRow;
  fj_session : SessionRow;
  fj_slot : SlotRow;
  fj_reservation : ReservationRow
}.

Definition finalization_rows (d : DB) : list (string * FinalizationJoin) :=
  omap (fun '(commandID, f) =>
          command ← exec_commands d !! commandID;
          session ← exec_sessions d !! f_session_id f;
          slot ← exec_command_slots d !! commandID;
          reservation ← exec_capacity_reservations d !! f_session_id f;
          Some (commandID, mkFinalizationJoin f command session slot reservation))
    (map_to_list (exec_lost_runtime_recovery_finalizations d)).

Definition pending_finalization (row : string * FinalizationJoin) : result LostRuntimeRecoveryPair :=
  let '(commandID, j) := row in
  identity ← lost_pair_of (f_session_id (fj_finalization j)) commandID;
  refuse_if (negb (bool_decide (c_session_id (fj_command j) = pair_SessionID identity))
             || negb (bool_decide (c_state (fj_command j) = CommandStateLost))
             || negb (bool_decide (s_state (fj_session j) = SessionStateLost))
             || negb (bool_decide (sl_host_key (fj_slot j) = schedulerHostKey))
             || negb (bool_decide (r_host_key (fj_reservation j) = reservationHostKey))
             || negb (is_Some_b (sl_stop_confirmed_at (fj_slot j))) || negb (is_Some_b (sl_released_at (fj_slot j)))
             || negb (is_Some_b (r_cleanup_confirmed_at (fj_reservation j)))
             || negb (is_Some_b (r_released_at (fj_reservation j)))) ErrLostRuntimeRecoveryNotReleasable;;
  Ok identity.

Definition ListPendingLostRuntimeRecoveryFinalizations (s : AuthorityStore) : result (list LostRuntimeRecoveryPair) :=
  withReadTransaction s
    (rows ← query (fun d => merge_sort (listed_le (fun j => f_capacity_released_at (fj_finalization j))) (finalization_rows d));
     lift (mapM_result pending_finalization rows)).
