(* ===== verification/CommandlessRecovery.v ===== *)
(** * Recovery of sessions lost before their command

    Models [src/src/internal/store/commandless_lost_recovery.go]: a one-off job
    whose session was lost before a command row existed retains only its session
    reservation.  The reservation is released together with that of ordinary
    lost pairs, and a finalization work item is left for the runtime owner. *)
From S2P Require Import Prelude GoStrings Sha256 Identity Lifecycle Policy Canonical LaneAdmission.
From S2P Require Import AuditRecords Db AuditStore AdmissionStore Idempotency Sessions Commands LostRecovery.
From S2P Require Import Listings.

Record CommandlessLostRuntimeRecovery : Type := mkCommandlessLostRuntimeRecovery {
  clr_JobID : string;
  clr_SessionID : string;
  clr_CommandID : string;
  clr_Session : SessionRecord;
  clr_SessionReservation : SessionReservation;
  clr_AlreadyRecovered : bool;
  clr_FinalizationPending : bool
}.

(** ** Validation *)
Fixpoint validateSessionIDs (seen : list string) (sessions : list string) : result (list string) :=
  match sessions with
  | [] => Ok []
  | raw :: rest =>
      id ← NewSessionID raw;
      refuse_if (bool_decide (id ∈ seen)) ErrCommandlessLostRuntimeRecoveryNotReleasable;;
      validated ← validateSessionIDs (id :: seen) rest;
      Ok (id :: validated)
  end.

Definition validateCommandlessLostRuntimeRecoverySessionsAllowEmpty (sessions : list string) : result (list string) :=
  validateSessionIDs [] sessions.

Definition validateCommandlessLostRuntimeRecoverySessions (sessions : list string) : result (list string) :=
  validated ← validateCommandlessLostRuntimeRecoverySessionsAllowEmpty sessions;
  refuse_if (is_nil validated) ErrCommandlessLostRuntimeRecoveryNotReleasable;;
  Ok validated.

Definition validateLostRuntimeRecoveryPairsAllowEmpty (pairs : list LostRuntimeRecoveryPair)
    : result (list LostRuntimeRecoveryPair) :=
  if is_nil pairs then Ok [] else validateLostRuntimeRecoveryPairs pairs.

(** ** Reads *)
Definition session_jobs (sessionID : string) (d : DB) : list (string * JobRow) :=
  filter (fun '(_, j) => j_session_id j = sessionID) (map_to_list (exec_jobs d)).

(** The work item of a session and its job. *)
Definition commandless_pending (sessionID jobID : string) (d : DB) : bool :=
  match exec_commandless_lost_runtime_recovery_finalizations d !! sessionID with
  | Some f => bool_decide (clf_job_id f = jobID)
  | None => false
  end.

Definition readCommandlessLostRuntimeRecovery (sessionID : string) : tx CommandlessLostRuntimeRecovery :=
  d ← query (fun d => d);
  let missing {A} (o : option A) : tx A := or_fail o ErrCommandlessLostRuntimeRecoveryNotReleasable in
  missing (exec_sessions d !! sessionID);;
  reservationRow ← missing (exec_capacity_reservations d !! sessionID);
  job ← missing (session_job sessionID d);
  let rawJobID := fst job in
  let job := snd job in
  let jobsForSession := length (session_jobs sessionID d) in
  let commandsForSession := length (session_commands sessionID d) in
  let slotsForJob := if is_Some_b (exec_command_slots d !! j_command_id job) then 1%nat else 0%nat in
  let pending := commandless_pending sessionID rawJobID d in
  let identity {A} (r : result A) : tx A :=
    lift (result_map_err (fun _ => ErrCommandlessLostRuntimeRecoveryNotReleasable) r) in
  jobID ← identity (NewJobID rawJobID);
  identity (NewSessionID (j_session_id job));;
  commandID ← identity (NewCommandID (j_command_id job));
  session ← readSessionOnConnection sessionID;
  fail_if (negb (bool_decide (j_phase job = JobPhaseLost)) || is_Some_b (j_command_state job)
           || is_Some_b (j_exit_code job) || is_Some_b (j_final_event_sequence job)
           || j_output_truncated job || j_output_complete job || negb (is_empty (j_output_unavailable_reason job))
           || negb (bool_decide (j_teardown_state job = JobTeardownPending)) || negb (is_empty (j_teardown_reason job))
           || negb (bool_decide (sr_State session = SessionStateLost))
           || negb (bool_decide (r_host_key reservationRow = reservationHostKey))
           || negb (Nat.eqb jobsForSession 1) || negb (Nat.eqb commandsForSession 0) || negb (Nat.eqb slotsForJob 0))
    ErrCommandlessLostRuntimeRecoveryNotReleasable;;
  reservation ← readReservationOnConnection sessionID;
  let cleanupConfirmed := is_Some_b (r_cleanup_confirmed_at reservationRow) in
  let released := is_Some_b (r_released_at reservationRow) in
  let alreadyReleased := cleanupConfirmed && released in
  fail_if (xorb cleanupConfirmed released) ErrCommandlessLostRuntimeRecoveryNotReleasable;;
  fail_if (negb alreadyReleased && pending) ErrCommandlessLostRuntimeRecoveryNotReleasable;;
  mret (mkCommandlessLostRuntimeRecovery jobID sessionID commandID session reservation alreadyReleased pending).

Definition readCommandlessLostRuntimeRecoveryBatch (sessions : list string) : tx (list CommandlessLostRuntimeRecovery) :=
  read_each readCommandlessLostRuntimeRecovery sessions.

Definition CheckCommandlessLostRuntimeRecoveryBatch (s : AuthorityStore) (sessions : list string)
    : result (list CommandlessLostRuntimeRecovery) :=
  validated ← validateCommandlessLostRuntimeRecoverySessions sessions;
  withReadTransaction s (readCommandlessLostRuntimeRecoveryBatch validated).

(** ** Release *)

(** PRIMARY KEY session_id, UNIQUE job_id and the two foreign keys. *)
Definition insert_commandless_finalization (sessionID : string) (row : CommandlessFinalizationRow) : tx unit :=
  d ← query (fun d => d);
  fail_if (is_Some_b (exec_commandless_lost_runtime_recovery_finalizations d !! sessionID)
           || existsb (fun '(_, f) => bool_decide (clf_job_id f = clf_job_id row))
                (map_to_list (exec_commandless_lost_runtime_recovery_finalizations d))
           || negb (is_Some_b (exec_sessions d !! sessionID)) || negb (is_Some_b (exec_jobs d !! clf_job_id row)))
    (ErrSQL "record commandless lost runtime recovery finalization");;
  modify (fun d => set_commandless_finalizations
    (<[sessionID := row]> (exec_commandless_lost_runtime_recovery_finalizations d)) d).

Definition releaseCommandlessLostRuntimeRecovery (recovery : CommandlessLostRuntimeRecovery) (now : Z) : tx unit :=
  changed ← update_reservation (clr_SessionID recovery) releasable_reservation (reservation_released now);
  fail_if (negb (changed =? 1)) ErrCommandlessLostRuntimeRecoveryNotReleasable;;
  insert_commandless_finalization (clr_SessionID recovery)
    (mkCommandlessFinalizationRow (clr_JobID recovery) (formatStoredTime now)).

Fixpoint releaseCommandless (now : Z) (recoveries : list CommandlessLostRuntimeRecovery) : tx unit :=
  match recoveries with
  | [] => mret tt
  | recovery :: rest => releaseCommandlessLostRuntimeRecovery recovery now;; releaseCommandless now rest
  end.

(** [... AND stop_confirmed_at IS NULL AND released_at IS NULL] *)
Definition count_unreleased_slots (d : DB) : Z :=
  Z.of_nat (size (filter (fun '(_, r) => releasable_slot r = true) (exec_command_slots d))).
Definition count_unreleased_reservations (d : DB) : Z :=
  Z.of_nat (size (filter (fun '(_, r) => releasable_reservation r = true) (exec_capacity_reservations d))).

(** ** Operations *)
Definition ConfirmLostRuntimeRecoverySet (s : AuthorityStore) (now : Z) (pairs : list LostRuntimeRecoveryPair)
    (sessions : list string) : result unit * AuthorityStore :=
  with_valid s (validateLostRuntimeRecoveryPairsAllowEmpty pairs) (fun validatedPairs =>
  with_valid s (validateCommandlessLostRuntimeRecoverySessionsAllowEmpty sessions) (fun validatedSessions =>
  with_valid s (refuse_if (is_nil validatedPairs && is_nil validatedSessions) ErrLostRuntimeRecoveryNotReleasable) (fun _ =>
  with_valid s (refuse_if (existsb (fun sessionID => bool_decide (sessionID ∈ pair_SessionID <$> validatedPairs))
                             validatedSessions) ErrCommandlessLostRuntimeRecoveryNotReleasable) (fun _ =>
  withImmediateTransaction s
    (unreleasedPairs ← retainedPairs false validatedPairs;
     commandless ← readCommandlessLostRuntimeRecoveryBatch validatedSessions;
     let unreleasedSessions := List.filter (fun recovery => negb (clr_AlreadyRecovered recovery)) commandless in
     if is_nil unreleasedPairs && is_nil unreleasedSessions then mret tt
     else
       liveSlots ← query count_unreleased_slots;
       liveReservations ← query count_unreleased_reservations;
       fail_if (negb (liveSlots =? Z.of_nat (length unreleasedPairs))
                || negb (liveReservations =? Z.of_nat (length unreleasedPairs) + Z.of_nat (length unreleasedSessions)))
         ErrLostRuntimeRecoveryNotReleasable;;
       releasePairs now unreleasedPairs;;
       releaseCommandless now unreleasedSessions))))).

Definition ConfirmCommandlessLostRuntimeRecoveryBatch (s : AuthorityStore) (now : Z) (sessions : list string)
    : result unit * AuthorityStore :=
  ConfirmLostRuntimeRecoverySet s now [] sessions.

Definition ListPendingCommandlessLostRuntimeRecoveryFinalizations (s : AuthorityStore)
    : result (list CommandlessLostRuntimeRecovery) :=
  withReadTransaction s
    (rows ← query (fun d => merge_sort (listed_le clf_capacity_released_at)
                              (map_to_list (exec_commandless_lost_runtime_recovery_finalizations d)));
     ids ← lift (mapM_result (fun '(raw, _) =>
                   result_map_err (fun _ => ErrCommandlessLostRuntimeRecoveryNotReleasable) (NewSessionID raw)) rows);
     recoveries ← readCommandlessLostRuntimeRecoveryBatch ids;
     fail_if (existsb (fun recovery => negb (clr_AlreadyRecovered recovery) || negb (clr_FinalizationPending recovery))
                recoveries) ErrCommandlessLostRuntimeRecoveryNotReleasable;;
     mret recoveries).

Definition CompleteCommandlessLostRuntimeRecoveryFinalization (s : AuthorityStore) (sessionID : string)
    : result unit * AuthorityStore :=
  with_valid s (NewSessionID sessionID) (fun validated =>
  withImmediateTransaction s
    (recovery ← readCommandlessLostRuntimeRecovery validated;
     fail_if (negb (clr_AlreadyRecovered recovery)) ErrCommandlessLostRuntimeRecoveryNotReleasable;;
     if negb (clr_FinalizationPending recovery) then mret tt
     else
       present ← query (commandless_pending validated (clr_JobID recovery));
       fail_if (negb present) ErrCommandlessLostRuntimeRecoveryNotReleasable;;
       modify (fun d => set_commandless_finalizations
         (delete validated (exec_commandless_lost_runtime_recovery_finalizations d)) d))).

(** ** The reads do not write *)
#[export] Instance readCommandless_ro id : ReadOnly (readCommandlessLostRuntimeRecovery id).
Proof. unfold readCommandlessLostRuntimeRecovery. cbv zeta. apply _. Qed.
#[export] Instance readCommandlessBatch_ro ids : ReadOnly (readCommandlessLostRuntimeRecoveryBatch ids).
Proof. unfold readCommandlessLostRuntimeRecoveryBatch. apply _. Qed.
