(* ===== verification/RunPayload.v ===== *)
(** * The payload of a one-off job

    Models [validateRunPayload] of [src/src/internal/store/jobs.go]: the payload
    is canonical JSON, its hash is the request hash, and its script,
    environment, target and source members are the ones of the job.  The members
    are read with [json.Unmarshal]; what the function uses of it is modelled
    here. *)
From Stdlib Require Import String.
From S2P Require Import Prelude GoStrings Sha256 Identity Policy JsonText Canonical.

Definition runJobOperation : string := "run".

(** ** encoding/json: decoding into Go values *)

(** Unmarshalling refuses a text whose objects and arrays nest deeper. *)
Definition maxNestingDepth : Z := 10000.

Fixpoint json_depth (v : json) : Z :=
  match v with
  | JArray items => 1 + foldr Z.max 0 (List.map json_depth items)
  | JObject fields => 1 + foldr Z.max 0 (List.map (fun '(_, x) => json_depth x) fields)
  | _ => 0
  end.

(** Into a [map[string]json.RawMessage]: the members of the object.  The raw
    message of a member is the value its text decodes to. *)
Definition Unmarshal_object (raw : string) : result (list (string * json)) :=
  value ← decodeCanonicalJSON (bytes_of raw);
  refuse_if (maxNestingDepth <? json_depth value) (ErrText "exceeded max depth");;
  match value with JObject fields => Ok fields | _ => Err (ErrText "cannot unmarshal into a map") end.

(** Into a string that field_is [current]: null leaves it as it is. *)
Definition Unmarshal_string (current : string) (value : json) : option string :=
  match value with JString s => Some s | JNull => Some current | _ => None end.

(** [foldName]: the case folding of a key, as far as it can meet an ASCII name;
    U+212A folds to k and U+017F to s. *)
Fixpoint fold_name (l : list Z) : list Z :=
  match l with
  | [] => []
  | b0 :: l0 =>
      match l0 with
      | b1 :: l1 =>
          if (b0 =? 0xC5) && (b1 =? 0xBF) then 115 :: fold_name l1
          else
            match l1 with
            | b2 :: l2 =>
                if (b0 =? 0xE2) && (b1 =? 0x84) && (b2 =? 0xAA) then 107 :: fold_name l2
                else (if in_range 65 90 b0 then b0 + 32 else b0) :: fold_name l0
            | [] => (if in_range 65 90 b0 then b0 + 32 else b0) :: fold_name l0
            end
      | [] => [if in_range 65 90 b0 then b0 + 32 else b0]
      end
  end.

(** The struct field a key is stored in: the one with this name, else the one
    with this name up to case. *)
Definition struct_field (names : list string) (key : string) : option string :=
  match List.find (fun name => bool_decide (name = key)) names with
  | Some name => Some name
  | None => List.find (fun name => bool_decide (fold_name (bytes_of name) = fold_name (bytes_of key))) names
  end.

(** Into a struct of strings, its values by field name; other members are ignored. *)
Fixpoint Unmarshal_members (names : list string) (members : list (string * json)) (fields : gmap string string)
    : option (gmap string string) :=
  match members with
  | [] => Some fields
  | (key, value) :: rest =>
      match struct_field names key with
      | None => Unmarshal_members names rest fields
      | Some name =>
          text ← Unmarshal_string (default "" (fields !! name)) value;
          Unmarshal_members names rest (<[name := text]> fields)
      end
  end.

Definition Unmarshal_struct (names : list string) (value : json) : option (gmap string string) :=
  match value with
  | JObject members => Unmarshal_members names members ∅
  | JNull => Some ∅
  | _ => None
  end.

(** The field [name] field_is [want]. *)
Definition field_is (fields : gmap string string) (name want : string) : bool :=
  bool_decide (default "" (fields !! name) = want).

(** ** validateRunPayload *)
Definition string_member (object : list (string * json)) (key want : string) : bool :=
  match map_lookup key object with
  | Some value => match Unmarshal_string "" value with Some got => bool_decide (got = want) | None => false end
  | None => false
  end.

Definition target_member (object : list (string * json)) (target : ExecutionTarget) : bool :=
  match map_lookup "execution_target" object with
  | Some value =>
      match Unmarshal_struct ["kind"; "profile"] value with
      | Some fields =>
          field_is fields "kind" (TargetKind_text (target_kind target)) && field_is fields "profile" (target_profile target)
      | None => false
      end
  | None => false
  end.

Definition source_member (object : list (string * json)) (source : Source) : bool :=
  match map_lookup "source" object with
  | Some value =>
      match Unmarshal_struct ["mode"; "repository_alias"; "requested_revision"; "path"] value with
      | Some fields =>
          field_is fields "mode" (SourceMode_text (source_mode source))
          && field_is fields "repository_alias" (source_repositoryAlias source)
          && field_is fields "requested_revision" (source_requestedRevision source)
          && field_is fields "path" (source_path source)
      | None => false
      end
  | None => true
  end.

Definition validateRunPayload (raw script environment : string) (target : ExecutionTarget) (source : Source)
    (requestHash : CanonicalHash) : result (string * CanonicalHash) :=
  let invalid {A} (r : result A) := result_map_err (fun _ => ErrInvalidJob) r in
  refuse_if (negb (result_is_ok (ValidateSerializedRequest raw)) || is_empty raw) ErrInvalidJob;;
  canonical ← invalid (CanonicalizeMutationRequestJSON runJobOperation raw []);
  refuse_if (negb (bool_decide (canonical = raw))) ErrInvalidJob;;
  hash ← invalid (HashMutationRequestJSON runJobOperation raw []);
  refuse_if (is_conflict (CompareIdempotency hash requestHash)) ErrInvalidJob;;
  object ← invalid (Unmarshal_object raw);
  refuse_if (negb (string_member object "script" script)) ErrInvalidJob;;
  refuse_if (negb (string_member object "environment" environment)) ErrInvalidJob;;
  refuse_if (negb (target_member object target)) ErrInvalidJob;;
  refuse_if (negb (source_member object source)) ErrInvalidJob;;
  Ok (canonical, hash).
