(* ===== verification/RestartPlan.v ===== *)
(** * The controlled-restart plan

    Models [src/src/internal/store/controlled_restart_plan.go]: the single
    durable plan that closes scheduler admission while a restart preserves one
    queued one-off job, its preparation, activation, removal and consumption. *)
From S2P Require Import Prelude GoStrings Sha256 Identity Lifecycle Policy Canonical LaneAdmission.
From S2P Require Import AuditRecords Db AuditStore AdmissionStore Idempotency Sessions Commands LostRecovery.

Record ControlledRestartPlan : Type := mkControlledRestartPlan {
  plan_JobID : string;
  plan_SessionID : string;
  plan_CommandID : string;
  plan_RuntimeGeneration : string;
  plan_LostPairs : list LostRuntimeRecoveryPair;
  plan_PreparedAt : Z;
  plan_Activated : bool;
  plan_ActivatedAt : option Z
}.

(** A read whose error the caller inspects. *)
Definition attempt {A} (m : tx A) : tx (result A) := fun d =>
  match m d with Ok (a, d') => Ok (Ok a, d') | Err e => Ok (Err e, d) end.

(** ** Validation *)
Definition pair_le (p q : LostRuntimeRecoveryPair) : Prop :=
  if bool_decide (pair_SessionID p = pair_SessionID q)
  then string_le (pair_CommandID p) (pair_CommandID q)
  else string_le (pair_SessionID p) (pair_SessionID q).
#[export] Instance pair_le_dec p q : Decision (pair_le p q).
Proof. unfold pair_le. destruct (bool_decide _); apply _. Defined.

Definition validateControlledRestartPlanPairs (pairs : list LostRuntimeRecoveryPair)
    : result (list LostRuntimeRecoveryPair) :=
  validated ← validateLostRuntimeRecoveryPairs pairs;
  refuse_if (negb (Z.of_nat (length validated) =? DefaultRunningCommandLimit)) ErrLostRuntimeRecoveryNotReleasable;;
  Ok (merge_sort pair_le validated).

(** [x == "" || len(x) > 256 || strings.IndexByte(x, 0) >= 0] *)
Definition bad_generation (x : string) : bool := is_empty x || overlong x.

Definition validateControlledRestartPlan (plan : ControlledRestartPlan) : result ControlledRestartPlan :=
  let corrupt {A} (r : result A) := result_map_err (fun _ => ErrControlledRestartPlanCorrupt) r in
  jobID ← corrupt (NewJobID (plan_JobID plan));
  sessionID ← corrupt (NewSessionID (plan_SessionID plan));
  commandID ← corrupt (NewCommandID (plan_CommandID plan));
  pairs ← corrupt (validateControlledRestartPlanPairs (plan_LostPairs plan));
  refuse_if (IsZero (plan_PreparedAt plan)) ErrControlledRestartPlanCorrupt;;
  refuse_if (bad_generation (plan_RuntimeGeneration plan)) ErrControlledRestartPlanCorrupt;;
  refuse_if (plan_Activated plan && negb (is_Some_b (plan_ActivatedAt plan))) ErrControlledRestartPlanCorrupt;;
  refuse_if (negb (plan_Activated plan) && is_Some_b (plan_ActivatedAt plan)) ErrControlledRestartPlanCorrupt;;
  refuse_if (existsb (fun p => bool_decide (pair_SessionID p = sessionID) || bool_decide (pair_CommandID p = commandID))
               pairs) ErrControlledRestartPlanCorrupt;;
  Ok (mkControlledRestartPlan jobID sessionID commandID (plan_RuntimeGeneration plan) pairs (plan_PreparedAt plan)
        (plan_Activated plan) (plan_ActivatedAt plan)).

Definition sameControlledRestartLostPairs (left right : list LostRuntimeRecoveryPair) : bool :=
  bool_decide (left = right).

Definition sameControlledRestartPlanIdentity (left right : ControlledRestartPlan) : bool :=
  bool_decide (plan_JobID left = plan_JobID right) && bool_decide (plan_SessionID left = plan_SessionID right)
  && bool_decide (plan_CommandID left = plan_CommandID right)
  && bool_decide (plan_RuntimeGeneration left = plan_RuntimeGeneration right)
  && (plan_PreparedAt left =? plan_PreparedAt right)
  && sameControlledRestartLostPairs (plan_LostPairs left) (plan_LostPairs right).

Definition sameOptionalTime (left right : option Z) : bool := bool_decide (left = right).

Definition sameControlledRestartPlan (left right : ControlledRestartPlan) : bool :=
  bool_decide (plan_JobID left = plan_JobID right) && bool_decide (plan_SessionID left = plan_SessionID right)
  && bool_decide (plan_CommandID left = plan_CommandID right)
  && bool_decide (plan_RuntimeGeneration left = plan_RuntimeGeneration right)
  && (plan_PreparedAt left =? plan_PreparedAt right)
  && Bool.eqb (plan_Activated left) (plan_Activated right)
  && sameOptionalTime (plan_ActivatedAt left) (plan_ActivatedAt right)
  && sameControlledRestartLostPairs (plan_LostPairs left) (plan_LostPairs right).

(** ** Reads *)
Definition empty_source_b (s : Source) : bool :=
  bool_decide (source_mode s = SourceModeEmpty) && is_empty (source_repositoryAlias s)
  && is_empty (source_requestedRevision s) && is_empty (source_path s).

Definition readControlledRestartQueuedOneOffRuntimeGeneration (jobID sessionID commandID : string) : tx string :=
  d ← query (fun d => d);
  job ← or_fail (exec_jobs d !! jobID) ErrControlledRestartPlanCorrupt;
  session ← or_fail (exec_sessions d !! j_session_id job) ErrControlledRestartPlanCorrupt;
  fail_if (negb (bool_decide (j_session_id job = sessionID)) || negb (bool_decide (j_command_id job = commandID))
           || bad_generation (s_runtime_generation session)
           || negb (empty_source_b (s_source session)) || negb (empty_source_b (j_source job)))
    ErrControlledRestartPlanCorrupt;;
  command ← or_fail (exec_commands d !! commandID) ErrControlledRestartPlanCorrupt;
  fail_if (negb (bool_decide (c_session_id command = sessionID))) ErrControlledRestartPlanCorrupt;;
  mret (s_runtime_generation session).

Definition requireControlledRestartLostPairIdentity (sessionID commandID : string) : tx unit :=
  command ← query (fun d => exec_commands d !! commandID);
  command ← or_fail command ErrControlledRestartPlanCorrupt;
  fail_if (negb (bool_decide (c_session_id command = sessionID))) ErrControlledRestartPlanCorrupt.

Fixpoint requireLostPairIdentities (pairs : list LostRuntimeRecoveryPair) : tx unit :=
  match pairs with
  | [] => mret tt
  | p :: rest =>
      requireControlledRestartLostPairIdentity (pair_SessionID p) (pair_CommandID p);;
      requireLostPairIdentities rest
  end.

Definition lost_pair_le (p q : LostPairRow) : Prop := lp_ordinal p <= lp_ordinal q.
#[export] Instance lost_pair_le_dec p q : Decision (lost_pair_le p q).
Proof. unfold lost_pair_le. apply _. Defined.

(** The row loop over the lost pairs, [ORDER BY ordinal]. *)
Fixpoint decodeLostPairs (sessionID commandID : string) (wantOrdinal : Z) (rows : list LostPairRow)
    : result (list LostRuntimeRecoveryPair) :=
  match rows with
  | [] => Ok []
  | row :: rest =>
      let corrupt {A} (r : result A) := result_map_err (fun _ => ErrControlledRestartPlanCorrupt) r in
      refuse_if (negb (lp_ordinal row =? wantOrdinal)) ErrControlledRestartPlanCorrupt;;
      lostSessionID ← corrupt (NewSessionID (lp_session_id row));
      lostCommandID ← corrupt (NewCommandID (lp_command_id row));
      refuse_if (bool_decide (lostSessionID = sessionID) || bool_decide (lostCommandID = commandID))
        ErrControlledRestartPlanCorrupt;;
      others ← decodeLostPairs sessionID commandID (wantOrdinal + 1) rest;
      Ok (mkPair lostSessionID lostCommandID :: others)
  end.

Definition readControlledRestartPlanOnConnection : tx ControlledRestartPlan :=
  row ← query exec_controlled_restart_plans;
  row ← or_fail row ErrControlledRestartPlanNotFound;
  let corrupt {A} (r : result A) : tx A := lift (result_map_err (fun _ => ErrControlledRestartPlanCorrupt) r) in
  jobID ← corrupt (NewJobID (p_job_id row));
  sessionID ← corrupt (NewSessionID (p_session_id row));
  commandID ← corrupt (NewCommandID (p_command_id row));
  fail_if (bad_generation (p_runtime_generation row)) ErrControlledRestartPlanCorrupt;;
  preparedAt ← or_fail (parseStoredTime (p_prepared_at row)) ErrControlledRestartPlanCorrupt;
  activatedAt ←
    (if bool_decide (p_activation_state row = "prepared") then
       fail_if (is_Some_b (p_activated_at row)) ErrControlledRestartPlanCorrupt;; mret None
     else if bool_decide (p_activation_state row = "active") then
       text ← or_fail (p_activated_at row) ErrControlledRestartPlanCorrupt;
       value ← or_fail (parseStoredTime text) ErrControlledRestartPlanCorrupt;
       mret (Some value)
     else throw ErrControlledRestartPlanCorrupt);
  actualRuntimeGeneration ← readControlledRestartQueuedOneOffRuntimeGeneration jobID sessionID commandID;
  fail_if (negb (bool_decide (actualRuntimeGeneration = p_runtime_generation row))) ErrControlledRestartPlanCorrupt;;
  rows ← query (fun d => merge_sort lost_pair_le (exec_controlled_restart_plan_lost_pairs d));
  pairs ← lift (decodeLostPairs sessionID commandID 1 rows);
  validatedPairs ← corrupt (validateControlledRestartPlanPairs pairs);
  requireLostPairIdentities validatedPairs;;
  mret (mkControlledRestartPlan jobID sessionID commandID (p_runtime_generation row) validatedPairs preparedAt
          (is_Some_b activatedAt) activatedAt).

(** The live reservations that are not selected, [ORDER BY session_id]. *)
Definition unselectedReservations (selected : list string) (d : DB) : result (list string) :=
  let rows := filter (fun '(_, r) => r_cleanup_confirmed_at r = None)
                (map_to_list (exec_capacity_reservations d)) in
  refuse_if (negb (forallb (fun '(id, r) => result_is_ok (NewSessionID id)
                              && bool_decide (r_host_key r = reservationHostKey)) rows))
    ErrLostRuntimeRecoveryNotReleasable;;
  Ok (filter (fun id => id ∉ selected) (sort_strings (fst <$> rows))).

Definition findExactEmptySourceQueuedOneOffForControlledRestartPlan (pairs : list LostRuntimeRecoveryPair)
    : tx (string * string * string * string) :=
  queued ← query (unselectedReservations (pair_SessionID <$> pairs));
  queued ← lift queued;
  match queued with
  | [queuedSessionID] =>
      found ← requireSafeQueuedOneOffReservation queuedSessionID;
      generation ← attempt (readControlledRestartQueuedOneOffRuntimeGeneration (fst found) queuedSessionID (snd found));
      match generation with
      | Ok runtimeGeneration => mret (fst found, queuedSessionID, snd found, runtimeGeneration)
      | Err e => throw (if errors_is e ErrControlledRestartPlanCorrupt then ErrLostRuntimeRecoveryNotReleasable else e)
      end
  | _ => throw ErrLostRuntimeRecoveryNotReleasable
  end.

(** ** Statements *)
Definition plan_row_of (plan : ControlledRestartPlan) : PlanRow :=
  mkPlanRow (plan_JobID plan) (plan_SessionID plan) (plan_CommandID plan) (plan_RuntimeGeneration plan)
    (formatStoredTime (plan_PreparedAt plan)) "prepared" None.

Definition insert_plan (row : PlanRow) : tx unit :=
  d ← query (fun d => d);
  fail_if (is_Some_b (exec_controlled_restart_plans d)
           || negb (sql_length_pos (p_job_id row)) || negb (sql_length_pos (p_session_id row))
           || negb (sql_length_pos (p_command_id row)) || negb (sql_length_pos (p_runtime_generation row))
           || negb (is_Some_b (exec_jobs d !! p_job_id row)) || negb (is_Some_b (exec_sessions d !! p_session_id row))
           || negb (is_Some_b (exec_commands d !! p_command_id row))) (ErrSQL "record controlled restart plan");;
  modify (set_plan (Some row)).

Definition insert_lost_pair (row : LostPairRow) : tx unit :=
  d ← query (fun d => d);
  fail_if (negb ((1 <=? lp_ordinal row) && (lp_ordinal row <=? 4))
           || negb (sql_length_pos (lp_session_id row)) || negb (sql_length_pos (lp_command_id row))
           || existsb (fun r => (lp_ordinal r =? lp_ordinal row) || bool_decide (lp_session_id r = lp_session_id row)
                                || bool_decide (lp_command_id r = lp_command_id row))
                (exec_controlled_restart_plan_lost_pairs d)
           || negb (is_Some_b (exec_controlled_restart_plans d))
           || negb (is_Some_b (exec_sessions d !! lp_session_id row))
           || negb (is_Some_b (exec_commands d !! lp_command_id row))) (ErrSQL "record controlled restart lost pair");;
  modify (fun d => set_lost_pairs (exec_controlled_restart_plan_lost_pairs d ++ [row]) d).

Fixpoint insertLostPairs (ordinal : Z) (pairs : list LostRuntimeRecoveryPair) : tx unit :=
  match pairs with
  | [] => mret tt
  | p :: rest =>
      insert_lost_pair (mkLostPairRow ordinal (pair_SessionID p) (pair_CommandID p));;
      insertLostPairs (ordinal + 1) rest
  end.

Definition insertControlledRestartPlanOnConnection (plan : ControlledRestartPlan) : tx unit :=
  insert_plan (plan_row_of plan);;
  insertLostPairs 1 (plan_LostPairs plan).

(** The WHERE clause shared by the plan updates and deletes. *)
Definition plan_row_matches (plan : ControlledRestartPlan) (state : string) (activated : option StoredTime)
    (row : PlanRow) : bool :=
  bool_decide (p_job_id row = plan_JobID plan) && bool_decide (p_session_id row = plan_SessionID plan)
  && bool_decide (p_command_id row = plan_CommandID plan)
  && bool_decide (p_runtime_generation row = plan_RuntimeGeneration plan)
  && bool_decide (p_prepared_at row = formatStoredTime (plan_PreparedAt plan))
  && bool_decide (p_activation_state row = state) && bool_decide (p_activated_at row = activated).

(** [DELETE FROM exec_controlled_restart_plans ...]; the lost pairs follow (ON DELETE CASCADE). *)
Definition delete_plan (p : PlanRow -> bool) : tx Z :=
  row ← query exec_controlled_restart_plans;
  match row with
  | Some r => if p r then modify (fun d => set_lost_pairs [] (set_plan None d));; mret 1 else mret 0
  | None => mret 0
  end.

Definition deleteControlledRestartPlanOnConnection (plan : ControlledRestartPlan) : tx unit :=
  changed ←
    (if plan_Activated plan then
       activatedAt ← or_fail (plan_ActivatedAt plan) ErrControlledRestartPlanCorrupt;
       delete_plan (plan_row_matches plan "active" (Some (formatStoredTime activatedAt)))
     else delete_plan (plan_row_matches plan "prepared" None));
  fail_if (negb (changed =? 1)) ErrControlledRestartPlanNotFound.

Definition consumeControlledRestartPlanOnClaim (plan : ControlledRestartPlan) : tx unit :=
  fail_if (negb (plan_Activated plan) || negb (is_Some_b (plan_ActivatedAt plan))) ErrControlledRestartPlanNotActive;;
  deleteControlledRestartPlanOnConnection plan.

(** [SET activation_state = 'active', activated_at = ?] *)
Definition activate_plan (p : PlanRow -> bool) (now : Z) : tx Z :=
  row ← query exec_controlled_restart_plans;
  match row with
  | Some r =>
      if p r then
        modify (set_plan (Some (mkPlanRow (p_job_id r) (p_session_id r) (p_command_id r) (p_runtime_generation r)
                                  (p_prepared_at r) "active" (Some (formatStoredTime now)))));; mret 1
      else mret 0
  | None => mret 0
  end.

(** ** Operations *)
Definition PrepareControlledRestartPlan (s : AuthorityStore) (now : Z) (pairs : list LostRuntimeRecoveryPair)
    : result ControlledRestartPlan * AuthorityStore :=
  with_valid s (validateControlledRestartPlanPairs pairs) (fun validatedPairs =>
  withImmediateTransaction s
    (existing ← attempt readControlledRestartPlanOnConnection;
     match existing with
     | Ok existing =>
         fail_if (plan_Activated existing) ErrControlledRestartPlanConflict;;
         fail_if (negb (sameControlledRestartLostPairs (plan_LostPairs existing) validatedPairs))
           ErrControlledRestartPlanConflict;;
         unreleased ← attempt (checkLostRuntimeRecoveryBatchPreservingQueuedOneOffs_tx validatedPairs);
         fail_if (match unreleased with
                  | Ok l => negb (Z.of_nat (length l) =? DefaultRunningCommandLimit)
                  | Err _ => true
                  end) ErrControlledRestartPlanConflict;;
         found ← attempt (findExactEmptySourceQueuedOneOffForControlledRestartPlan validatedPairs);
         fail_if (match found with
                  | Ok found => negb (bool_decide (found = (plan_JobID existing, plan_SessionID existing,
                                                            plan_CommandID existing, plan_RuntimeGeneration existing)))
                  | Err _ => true
                  end) ErrControlledRestartPlanConflict;;
         mret existing
     | Err e =>
         fail_if (negb (errors_is e ErrControlledRestartPlanNotFound)) e;;
         unreleased ← checkLostRuntimeRecoveryBatchPreservingQueuedOneOffs_tx validatedPairs;
         fail_if (negb (Z.of_nat (length unreleased) =? DefaultRunningCommandLimit)) ErrLostRuntimeRecoveryNotReleasable;;
         found ← findExactEmptySourceQueuedOneOffForControlledRestartPlan validatedPairs;
         let '(jobID, sessionID, commandID, runtimeGeneration) := found in
         let plan := mkControlledRestartPlan jobID sessionID commandID runtimeGeneration validatedPairs now false None in
         insertControlledRestartPlanOnConnection plan;;
         mret plan
     end)).

Definition ActivateControlledRestartPlan (s : AuthorityStore) (now : Z) (plan : ControlledRestartPlan)
    : result ControlledRestartPlan * AuthorityStore :=
  with_valid s (validateControlledRestartPlan plan) (fun expected =>
  withImmediateTransaction s
    (current ← readControlledRestartPlanOnConnection;
     fail_if (negb (sameControlledRestartPlanIdentity current expected)) ErrControlledRestartPlanConflict;;
     if plan_Activated current then mret current
     else
       fail_if (plan_Activated expected || is_Some_b (plan_ActivatedAt expected)) ErrControlledRestartPlanConflict;;
       found ← attempt (requireSafeQueuedOneOffReservation (plan_SessionID current));
       fail_if (match found with
                | Ok (jobID, commandID) => negb (bool_decide (jobID = plan_JobID current))
                                           || negb (bool_decide (commandID = plan_CommandID current))
                | Err _ => true
                end) ErrControlledRestartPlanCorrupt;;
       generation ← attempt (readControlledRestartQueuedOneOffRuntimeGeneration (plan_JobID current)
                               (plan_SessionID current) (plan_CommandID current));
       fail_if (match generation with
                | Ok g => negb (bool_decide (g = plan_RuntimeGeneration current))
                | Err _ => true
                end) ErrControlledRestartPlanCorrupt;;
       changed ← activate_plan (plan_row_matches current "prepared" None) now;
       fail_if (negb (changed =? 1)) ErrControlledRestartPlanConflict;;
       readControlledRestartPlanOnConnection)).

Definition ReadControlledRestartPlan (s : AuthorityStore) : result ControlledRestartPlan :=
  withReadTransaction s readControlledRestartPlanOnConnection.

Definition ClearControlledRestartPlan (s : AuthorityStore) (plan : ControlledRestartPlan)
    : result unit * AuthorityStore :=
  with_valid s (validateControlledRestartPlan plan) (fun expected =>
  withImmediateTransaction s
    (current ← readControlledRestartPlanOnConnection;
     fail_if (negb (sameControlledRestartPlan current expected)) ErrControlledRestartPlanConflict;;
     deleteControlledRestartPlanOnConnection current)).

(** ** The reads only read *)
#[export] Instance attempt_ro {A} (m : tx A) : ReadOnly m -> ReadOnly (attempt m).
Proof.
  intros Hm d a d'. unfold attempt. destruct (m d) as [[x d1]|] eqn:E; intros [= _ <-]; [|done]. by apply Hm in E.
Qed.
#[export] Instance readGeneration_ro j s c : ReadOnly (readControlledRestartQueuedOneOffRuntimeGeneration j s c).
Proof. unfold readControlledRestartQueuedOneOffRuntimeGeneration. apply _. Qed.
#[export] Instance requireLostPairIdentities_ro pairs : ReadOnly (requireLostPairIdentities pairs).
Proof. induction pairs; cbn [requireLostPairIdentities]; unfold requireControlledRestartLostPairIdentity; apply _. Qed.
#[export] Instance readControlledRestartPlan_ro : ReadOnly readControlledRestartPlanOnConnection.
Proof. unfold readControlledRestartPlanOnConnection. cbv zeta. apply _. Qed.
#[export] Instance findExact_ro pairs : ReadOnly (findExactEmptySourceQueuedOneOffForControlledRestartPlan pairs).
Proof. unfold findExactEmptySourceQueuedOneOffForControlledRestartPlan. apply _. Qed.
