(* ===== verification/Jobs.v ===== *)
(** * One-off jobs

    Models [src/src/internal/store/jobs.go]: accepting a job, checkpointing its
    coordinator, the disposition of an abandoned maintenance probe and the
    reads. *)
From Stdlib Require Import String.
From S2P Require Import Prelude GoStrings Sha256 Identity Lifecycle Policy LaneAdmission.
From S2P Require Import AuditRecords Db AuditStore AdmissionStore Idempotency Sessions Commands LostRecovery.
From S2P Require Import Listings RestartPlan JsonText Canonical RunPayload.

Definition CatalogProbeOwnerAbandonedReason : string := "catalog_probe_owner_abandoned_outcome_unknown".
Definition catalogMaintenanceProbeScript : string := "printf 'catalog release maintenance probe\n'".
Definition QueueBlockedReasonLostCapacityRecoveryPending : string := "lost_capacity_recovery_pending".

Record JobAcceptance : Type := mkJobAcceptance {
  ja_JobID : string;
  ja_SessionID : string;
  ja_CommandID : string;
  ja_Controller : ControllerIdentity;
  ja_IdempotencyKey : string;
  ja_RequestHash : CanonicalHash;
  ja_Environment : string;
  ja_Target : ExecutionTarget;
  ja_Source : Source;
  ja_Script : string;
  ja_CanonicalPayload : string;
  ja_IdempotencyRetention : Z
}.

Record JobRecord : Type := mkJobRecord {
  jr_JobID : string;
  jr_SessionID : string;
  jr_CommandID : string;
  jr_Controller : ControllerIdentity;
  jr_Ingress : Ingress;
  jr_Environment : string;
  jr_Target : ExecutionTarget;
  jr_Source : Source;
  jr_RequestHash : CanonicalHash;
  jr_IdempotencyKey : string;
  jr_CanonicalPayload : string;
  jr_ScriptBytes : string;
  jr_ScriptSHA256 : string;
  jr_Phase : JobPhase;
  jr_CommandState : option CommandState;
  jr_ExitCode : option Z;
  jr_FinalEventSequence : option Z;
  jr_OutputTruncated : bool;
  jr_OutputComplete : bool;
  jr_OutputUnavailableReason : string;
  jr_QueueBlockedReason : string;
  jr_TeardownState : JobTeardownState;
  jr_TeardownReason : string;
  jr_CreatedAt : Z;
  jr_UpdatedAt : Z;
  jr_IdempotencyWarning : bool
}.

(** [record.IdempotencyWarning = warning], [job.QueueBlockedReason = reason] *)
Definition job_with_warning (r : JobRecord) (warning : bool) : JobRecord :=
  mkJobRecord (jr_JobID r) (jr_SessionID r) (jr_CommandID r) (jr_Controller r) (jr_Ingress r) (jr_Environment r)
    (jr_Target r) (jr_Source r) (jr_RequestHash r) (jr_IdempotencyKey r) (jr_CanonicalPayload r) (jr_ScriptBytes r)
    (jr_ScriptSHA256 r) (jr_Phase r) (jr_CommandState r) (jr_ExitCode r) (jr_FinalEventSequence r)
    (jr_OutputTruncated r) (jr_OutputComplete r) (jr_OutputUnavailableReason r) (jr_QueueBlockedReason r)
    (jr_TeardownState r) (jr_TeardownReason r) (jr_CreatedAt r) (jr_UpdatedAt r) warning.
Definition job_with_block (r : JobRecord) (reason : string) : JobRecord :=
  mkJobRecord (jr_JobID r) (jr_SessionID r) (jr_CommandID r) (jr_Controller r) (jr_Ingress r) (jr_Environment r)
    (jr_Target r) (jr_Source r) (jr_RequestHash r) (jr_IdempotencyKey r) (jr_CanonicalPayload r) (jr_ScriptBytes r)
    (jr_ScriptSHA256 r) (jr_Phase r) (jr_CommandState r) (jr_ExitCode r) (jr_FinalEventSequence r)
    (jr_OutputTruncated r) (jr_OutputComplete r) (jr_OutputUnavailableReason r) reason
    (jr_TeardownState r) (jr_TeardownReason r) (jr_CreatedAt r) (jr_UpdatedAt r) (jr_IdempotencyWarning r).

(** An [ExpectedPhase] of [JobPhaseOther ""] is the empty one. *)
Record JobCheckpoint : Type := mkJobCheckpoint {
  cp_ExpectedPhase : JobPhase;
  cp_NextPhase : JobPhase;
  cp_Command : option CommandRecord;
  cp_TeardownState : option JobTeardownState;
  cp_TeardownReason : string
}.
Definition no_phase : JobPhase := JobPhaseOther "".

(** ** Statements *)
Definition job_checks (id : string) (j : JobRow) : bool :=
  sql_length_pos id && sql_length_pos (j_session_id j) && sql_length_pos (j_command_id j)
  && known_controller_b (controller_typeName (j_controller j)) && sql_length_pos (controller_id (j_controller j))
  && known_kind_b (target_kind (j_target j)) && sql_length_pos (target_profile (j_target j))
  && sql_length_pos (j_environment j)
  && negb (match source_mode (j_source j) with SourceModeOther _ => true | _ => false end)
  && (0 <? j_request_hash_version j) && (go_len (j_request_hash j) =? 32) && sql_length_pos (j_idempotency_key j)
  && (0 <? go_len (j_payload_json j)) && (go_len (j_script_sha256 j) =? 32) && JobPhase_Valid (j_phase j)
  && match j_command_state j with Some st => CommandState_Valid st | None => true end
  && match j_final_event_sequence j with Some n => 0 <? n | None => true end
  && JobTeardownState_Valid (j_teardown_state j) && ValidIngress (j_ingress j).

(** [ux_exec_jobs_session] and [ux_exec_jobs_command] *)
Definition job_conflicts (j : JobRow) (d : DB) : bool :=
  existsb (fun '(_, r) => bool_decide (j_session_id r = j_session_id j) || bool_decide (j_command_id r = j_command_id j))
    (map_to_list (exec_jobs d)).

(** A violated UNIQUE clause is reported as [ErrJobExists]; the CHECK clauses are
    tested first. *)
Definition insert_job (id : string) (j : JobRow) : tx unit :=
  fail_if (negb (job_checks id j)) (ErrSQL "insert job");;
  d ← query (fun d => d);
  fail_if (is_Some_b (exec_jobs d !! id) || job_conflicts j d) ErrJobExists;;
  modify (fun d => set_jobs (<[id := j]> (exec_jobs d)) d).

(** [UPDATE exec_jobs SET ... WHERE job_id = id AND p]; returns the affected rows. *)
Definition update_job (id : string) (p : JobRow -> bool) (f : JobRow -> JobRow) (e : error) : tx Z :=
  row ← query (fun d => exec_jobs d !! id);
  match row with
  | Some r =>
      if p r then
        fail_if (negb (job_checks id (f r))) e;;
        modify (fun d => set_jobs (<[id := f r]> (exec_jobs d)) d);; mret 1
      else mret 0
  | None => mret 0
  end.

(** [SET phase = ?, updated_at = ?] *)
Definition job_with_phase (next : JobPhase) (now : Z) (j : JobRow) : JobRow :=
  mkJobRow (j_session_id j) (j_command_id j) (j_controller j) (j_ingress j) (j_target j) (j_environment j) (j_source j)
    (j_request_hash_version j) (j_request_hash j) (j_idempotency_key j) (j_payload_json j) (j_script_bytes j)
    (j_script_sha256 j) next (j_command_state j) (j_exit_code j) (j_final_event_sequence j) (j_output_truncated j)
    (j_output_complete j) (j_output_unavailable_reason j) (j_teardown_state j) (j_teardown_reason j) (j_created_at j)
    (formatStoredTime now).

(** [SET command_state = ?, exit_code = ?, ...] *)
Definition job_with_command (c : CommandRecord) (j : JobRow) : JobRow :=
  mkJobRow (j_session_id j) (j_command_id j) (j_controller j) (j_ingress j) (j_target j) (j_environment j) (j_source j)
    (j_request_hash_version j) (j_request_hash j) (j_idempotency_key j) (j_payload_json j) (j_script_bytes j)
    (j_script_sha256 j) (j_phase j) (Some (cr_State c)) (cr_ExitCode c) (cr_FinalEventSequence c) (cr_OutputTruncated c)
    (cr_OutputComplete c) (cr_OutputUnavailableReason c) (j_teardown_state j) (j_teardown_reason j) (j_created_at j)
    (j_updated_at j).

(** [SET teardown_state = ?, teardown_reason = ?] *)
Definition job_with_teardown (st : JobTeardownState) (reason : string) (j : JobRow) : JobRow :=
  mkJobRow (j_session_id j) (j_command_id j) (j_controller j) (j_ingress j) (j_target j) (j_environment j) (j_source j)
    (j_request_hash_version j) (j_request_hash j) (j_idempotency_key j) (j_payload_json j) (j_script_bytes j)
    (j_script_sha256 j) (j_phase j) (j_command_state j) (j_exit_code j) (j_final_event_sequence j) (j_output_truncated j)
    (j_output_complete j) (j_output_unavailable_reason j) st reason (j_created_at j) (j_updated_at j).

(** ** Reads *)
(** The checks on the scanned columns. *)
Definition decodeJobRow (id : string) (j : JobRow) : result JobRecord :=
  let corrupt {A} (r : result A) : result A := result_map_err (fun _ => ErrJobPayloadCorrupt) r in
  validatedID ← corrupt (NewJobID id);
  sessionID ← corrupt (NewSessionID (j_session_id j));
  commandID ← corrupt (NewCommandID (j_command_id j));
  controller ← corrupt (NewControllerIdentity (controller_typeName (j_controller j)) (controller_id (j_controller j)));
  refuse_if (negb (ValidIngress (j_ingress j))) ErrJobPayloadCorrupt;;
  target ← corrupt (NewExecutionTarget (target_kind (j_target j)) (target_profile (j_target j)));
  source ← corrupt (decodeSource (source_mode (j_source j)) (source_repositoryAlias (j_source j))
                      (source_requestedRevision (j_source j)) (source_path (j_source j)));
  requestHash ← corrupt (NewCanonicalHash (uint16 (j_request_hash_version j)) (j_request_hash j));
  corrupt (ValidateScriptUTF8 (j_script_bytes j));;
  refuse_if (negb (bool_decide (j_script_sha256 j = sha256 (j_script_bytes j)))) ErrJobPayloadCorrupt;;
  corrupt (validateIdempotencyOperationKey runJobOperation (j_idempotency_key j));;
  corrupt (validateRunPayload (j_payload_json j) (j_script_bytes j) (j_environment j) target source requestHash);;
  refuse_if (negb (JobPhase_Valid (j_phase j)) || negb (JobTeardownState_Valid (j_teardown_state j))) ErrJobPayloadCorrupt;;
  refuse_if (match j_command_state j with Some st => negb (CommandState_Valid st) | None => false end) ErrJobPayloadCorrupt;;
  match parseStoredTime (j_created_at j), parseStoredTime (j_updated_at j) with
  | Some createdAt, Some updatedAt =>
      Ok (mkJobRecord validatedID sessionID commandID controller (j_ingress j) (j_environment j) target source requestHash
            (j_idempotency_key j) (j_payload_json j) (j_script_bytes j) (j_script_sha256 j) (j_phase j) (j_command_state j)
            (j_exit_code j) (j_final_event_sequence j) (j_output_truncated j) (j_output_complete j)
            (j_output_unavailable_reason j) "" (j_teardown_state j) (j_teardown_reason j) createdAt updatedAt false)
  | _, _ => Err ErrJobPayloadCorrupt
  end.

Definition readJobOnConnection (id : string) : tx JobRecord :=
  row ← query (fun d => exec_jobs d !! id);
  j ← or_fail row ErrJobNotFound;
  lift (decodeJobRow id j).

(** ** Acceptance *)
Definition validateJobAcceptance (input : JobAcceptance) : result JobAcceptance :=
  let invalid {A} (r : result A) := result_map_err (fun _ => ErrInvalidJob) r in
  jobID ← invalid (NewJobID (ja_JobID input));
  sessionID ← invalid (NewSessionID (ja_SessionID input));
  commandID ← invalid (NewCommandID (ja_CommandID input));
  controller ← invalid (validateController (ja_Controller input));
  target ← invalid (NewExecutionTarget (target_kind (ja_Target input)) (target_profile (ja_Target input)));
  source ← invalid (normalizeSource (ja_Source input));
  refuse_if (is_empty (TrimSpace (ja_Environment input))) ErrInvalidJob;;
  invalid (ValidateScriptUTF8 (ja_Script input));;
  validateIdempotencyOperationKey runJobOperation (ja_IdempotencyKey input);;
  let retention := if ja_IdempotencyRetention input =? 0 then DefaultSessionIdempotencyRetention
                   else ja_IdempotencyRetention input in
  refuse_if (retention <? 0) ErrInvalidJob;;
  payload ← validateRunPayload (ja_CanonicalPayload input) (ja_Script input) (ja_Environment input) target source
              (ja_RequestHash input);
  Ok (mkJobAcceptance jobID sessionID commandID controller (ja_IdempotencyKey input) (snd payload)
        (TrimSpace (ja_Environment input)) target source (ja_Script input) (fst payload) retention).

Definition new_job_row (v : JobAcceptance) (ingress : Ingress) (now : Z) : JobRow :=
  mkJobRow (ja_SessionID v) (ja_CommandID v) (ja_Controller v) ingress (ja_Target v) (ja_Environment v) (ja_Source v)
    (hash_version (ja_RequestHash v)) (hash_digest (ja_RequestHash v)) (ja_IdempotencyKey v) (ja_CanonicalPayload v)
    (ja_Script v) (sha256 (ja_Script v)) JobPhaseCreatingSession None None None false false "" JobTeardownPending ""
    (formatStoredTime now) (formatStoredTime now).

Definition insertJobOnConnection (v : JobAcceptance) (ingress : Ingress) (now : Z) (idempotencyWarning : bool) : tx unit :=
  insert_job (ja_JobID v) (new_job_row v ingress now);;
  idempotency ← lift (validateIdempotencyInput (ja_Controller v) runJobOperation (ja_IdempotencyKey v)
                        (ja_RequestHash v) (ja_JobID v) (ja_IdempotencyRetention v));
  recordIdempotencyOnConnection (stamped idempotency now (now + ja_IdempotencyRetention v) idempotencyWarning).

(** [ingress] is the value the context carries. *)
Definition AcceptJob (s : AuthorityStore) (now : Z) (ingress : option Ingress) (input : JobAcceptance)
    : result (JobRecord * bool) * AuthorityStore :=
  let ingress := IngressFromContext ingress in
  with_valid s (refuse_if (negb (TrustedForAcceptance ingress)) ErrInvalidJob) (fun _ =>
  with_valid s (validateJobAcceptance input) (fun v =>
  withImmediateTransaction s
    (checkIngressAdmissionOnConnection (laneAdmissionRuntime s);;
     found ← lookupIdempotencyOnConnection (ja_Controller v) runJobOperation (ja_IdempotencyKey v) now;
     match found with
     | Some existing =>
         fail_if (is_conflict (CompareIdempotency (idem_Hash existing) (ja_RequestHash v))) ErrIdempotencyConflict;;
         existingID ← lift (NewJobID (idem_ResourceID existing));
         record ← readJobOnConnection existingID;
         mret (job_with_warning record (idem_DeduplicationWarning existing), true)
     | None =>
         warning ← idempotencyExpiryWarningOnConnection (ja_Controller v) runJobOperation (ja_IdempotencyKey v) now;
         existing ← query (fun d => exec_jobs d !! ja_JobID v);
         fail_if (is_Some_b existing) ErrJobExists;;
         insertJobOnConnection v ingress now warning;;
         created ← readJobOnConnection (ja_JobID v);
         mret (job_with_warning created warning, false)
     end))).

(** ** Lookups *)
Definition GetJob (s : AuthorityStore) (id : string) : result JobRecord :=
  validatedID ← NewJobID id;
  withReadTransaction s (readJobOnConnection validatedID).

(** The job of a command; [exec_jobs.command_id] is unique. *)
Definition command_job (commandID : string) (d : DB) : option string :=
  fst <$> head (filter (fun '(_, j) => j_command_id j = commandID) (map_to_list (exec_jobs d))).

Definition GetJobByCommandID (s : AuthorityStore) (commandID : string) : result JobRecord :=
  validatedID ← NewCommandID commandID;
  withReadTransaction s
    (jobID ← query (command_job validatedID);
     jobID ← or_fail jobID ErrJobNotFound;
     validatedJobID ← lift (result_map_err (fun _ => ErrJobPayloadCorrupt) (NewJobID jobID));
     readJobOnConnection validatedJobID).

Definition ListNonterminalJobs (s : AuthorityStore) : result (list JobRecord) :=
  withReadTransaction s
    (rows ← query (fun d => merge_sort (listed_le j_created_at)
                      (filter (fun '(_, j) => nonterminal_phase (j_phase j) = true) (map_to_list (exec_jobs d))));
     ids ← lift (mapM_result (fun '(jobID, _) => result_map_err (fun _ => ErrJobPayloadCorrupt) (NewJobID jobID)) rows);
     read_each readJobOnConnection ids).

(** [errors.Is(err, ErrLostRuntimeRecoveryNotReleasable)] answers false, any other
    error is returned. *)
Definition unless_not_releasable {A} (m : tx A) (k : A -> tx bool) : tx bool :=
  r ← attempt m;
  match r with
  | Ok a => k a
  | Err e => if errors_is e ErrLostRuntimeRecoveryNotReleasable then mret false else throw e
  end.

Definition queuedLostCapacityRecoveryBlocksJob (job : JobRecord) : tx bool :=
  if negb (bool_decide (jr_Phase job = JobPhaseAwaitingCommand))
     || negb (bool_decide (jr_CommandState job = Some CommandStateQueued)) then mret false
  else
    pairs ← listRetainedLostRuntimeRecoveryPairsOnConnection;
    if negb (Z.of_nat (length pairs) =? DefaultRunningCommandLimit) then mret false
    else
      unless_not_releasable (checkLostRuntimeRecoveryBatchPreservingQueuedOneOffs_tx pairs) (fun unreleased =>
      if negb (Z.of_nat (length unreleased) =? DefaultRunningCommandLimit) then mret false
      else
        unless_not_releasable (requireSafeQueuedOneOffReservation (jr_SessionID job)) (fun queued =>
        mret (bool_decide (fst queued = jr_JobID job) && bool_decide (snd queued = jr_CommandID job)))).

Definition GetJobStatus (s : AuthorityStore) (id : string) : result JobRecord :=
  validatedID ← NewJobID id;
  withReadTransaction s
    (job ← readJobOnConnection validatedID;
     blocked ← queuedLostCapacityRecoveryBlocksJob job;
     mret (if blocked : bool then job_with_block job QueueBlockedReasonLostCapacityRecoveryPending else job)).

(** ** Checkpoints *)
Definition checkpoint_row (checkpoint : JobCheckpoint) (now : Z) (j : JobRow) : JobRow :=
  let j := job_with_phase (cp_NextPhase checkpoint) now j in
  let j := match cp_Command checkpoint with Some c => job_with_command c j | None => j end in
  match cp_TeardownState checkpoint with
  | Some st => job_with_teardown st (cp_TeardownReason checkpoint) j
  | None => j
  end.

(** [checkpoint.ExpectedPhase != "" && current != checkpoint.ExpectedPhase] *)
Definition unexpected_phase (checkpoint : JobCheckpoint) (current : JobPhase) : bool :=
  negb (bool_decide (cp_ExpectedPhase checkpoint = no_phase))
  && negb (bool_decide (current = cp_ExpectedPhase checkpoint)).

Definition validateCheckpoint (checkpoint : JobCheckpoint) : result unit :=
  refuse_if (negb (JobPhase_Valid (cp_NextPhase checkpoint))) ErrInvalidJob;;
  refuse_if (negb (bool_decide (cp_ExpectedPhase checkpoint = no_phase))
             && negb (JobPhase_Valid (cp_ExpectedPhase checkpoint))) ErrInvalidJob;;
  refuse_if (match cp_Command checkpoint with
             | Some c => is_empty (cr_SessionID c) || is_empty (cr_CommandID c) || negb (CommandState_Valid (cr_State c))
             | None => false
             end) ErrInvalidJob;;
  refuse_if (match cp_TeardownState checkpoint with
             | Some st => negb (JobTeardownState_Valid st)
             | None => false
             end) ErrInvalidJob.

Definition CheckpointJob (s : AuthorityStore) (now : Z) (id : string) (checkpoint : JobCheckpoint)
    : result JobRecord * AuthorityStore :=
  with_valid s (NewJobID id) (fun validatedID =>
  with_valid s (validateCheckpoint checkpoint) (fun _ =>
  withImmediateTransaction s
    (row ← query (fun d => exec_jobs d !! validatedID);
     j ← or_fail row ErrJobNotFound;
     let current := j_phase j in
     fail_if (negb (JobPhase_Valid current)) ErrJobPayloadCorrupt;;
     fail_if (bool_decide (current = cp_NextPhase checkpoint) && unexpected_phase checkpoint current) ErrJobPhaseConflict;;
     if bool_decide (current = cp_NextPhase checkpoint) && negb (is_Some_b (cp_Command checkpoint))
     then readJobOnConnection validatedID
     else
       fail_if (unexpected_phase checkpoint current) ErrJobPhaseConflict;;
       fail_if (match cp_Command checkpoint with
                | Some c => negb (bool_decide (cr_SessionID c = j_session_id j))
                            || negb (bool_decide (cr_CommandID c = j_command_id j))
                | None => false
                end) ErrInvalidJob;;
       update_job validatedID (fun _ => true) (checkpoint_row checkpoint now) (ErrSQL "checkpoint job");;
       readJobOnConnection validatedID))).

(** ** The abandoned maintenance probe *)

(** The two newest lifecycle rows, newest first. *)
Definition newest_lifecycle (sessionID : string) (d : DB) : list LifecycleRow :=
  rev (merge_sort lifecycle_le (rows_of (exec_session_lifecycle d) sessionID)).

Definition directProbeStoppedLossHistory (sessionID : string) (d : DB) : bool :=
  match take 2 (newest_lifecycle sessionID d) with
  | [lost; closing] =>
      (l_sequence lost =? l_sequence closing + 1)
      && bool_decide (l_previous_state lost = Some SessionStateClosing)
      && bool_decide (l_new_state lost = SessionStateLost)
      && bool_decide (l_reason lost = ReasonRuntimeCleanupUnconfirmed)
      && bool_decide (l_new_state closing = SessionStateClosing)
      && bool_decide (l_previous_state closing = Some SessionStateCreating)
      && bool_decide (l_reason closing = "close_requested")
  | _ => false
  end.

(** The record is the expected, untouched probe. *)
Definition probe_matches (sessionID commandID expectedIdempotencyKey expectedEnvironment expectedControllerID : string)
    (job : JobRecord) (session : SessionRecord) : bool :=
  bool_decide (jr_SessionID job = sessionID) && bool_decide (jr_CommandID job = commandID)
  && bool_decide (jr_IdempotencyKey job = expectedIdempotencyKey) && bool_decide (jr_Ingress job = IngressDirectMTLS)
  && bool_decide (controller_typeName (jr_Controller job) = ControllerTypeDirectMTLS)
  && bool_decide (controller_id (jr_Controller job) = expectedControllerID)
  && bool_decide (jr_Environment job = expectedEnvironment)
  && bool_decide (target_kind (jr_Target job) = TargetKindRemote)
  && bool_decide (target_profile (jr_Target job) = "linux-host")
  && bool_decide (source_mode (jr_Source job) = SourceModeEmpty)
  && bool_decide (jr_ScriptBytes job = catalogMaintenanceProbeScript)
  && negb (is_Some_b (jr_CommandState job)) && negb (is_Some_b (jr_ExitCode job))
  && negb (is_Some_b (jr_FinalEventSequence job)) && negb (jr_OutputComplete job) && negb (jr_OutputTruncated job)
  && is_empty (jr_OutputUnavailableReason job) && bool_decide (jr_TeardownState job = JobTeardownPending)
  && is_empty (jr_TeardownReason job)
  && bool_decide (sr_Target session = jr_Target job) && bool_decide (sr_Controller session = jr_Controller job)
  && bool_decide (sr_Environment session = jr_Environment job)
  && bool_decide (source_mode (sr_Source session) = SourceModeEmpty) && is_empty (sr_RuntimeGeneration session).

(** The reservation is readable and neither confirmed nor released. *)
Definition requireRetainedReservation (sessionID : string) : tx unit :=
  reservation ← attempt (readReservationOnConnection sessionID);
  fail_if (match reservation with
           | Ok r => is_Some_b (res_CleanupConfirmedAt r) || is_Some_b (res_ReleasedAt r)
           | Err _ => true
           end) ErrProbeDispositionNotEligible.

(** Neither events nor a slot. *)
Definition untouched_command (commandID : string) (d : DB) : bool :=
  is_nil (rows_of (exec_command_events d) commandID) && negb (is_Some_b (exec_command_slots d !! commandID)).

Definition requireNoCommand (commandID : string) : tx unit :=
  d ← query (fun d => d);
  fail_if (is_Some_b (exec_commands d !! commandID) || negb (untouched_command commandID d)) ErrProbeDispositionNotEligible.

(** [WHERE session_id = ? AND command_id = ? AND phase = ?] *)
Definition creating_job (sessionID commandID : string) (j : JobRow) : bool :=
  bool_decide (j_session_id j = sessionID) && bool_decide (j_command_id j = commandID)
  && bool_decide (j_phase j = JobPhaseCreatingSession).

(** The job and the session were both recorded lost before. *)
Definition confirmLostProbe (sessionID commandID reason : string) : tx unit :=
  requireRetainedReservation sessionID;;
  requireNoCommand commandID;;
  d ← query (fun d => d);
  fail_if (match newest_lifecycle sessionID d with
           | newest :: _ =>
               (negb (bool_decide (l_reason newest = reason))
                && negb (bool_decide (l_reason newest = ReasonRuntimeCleanupUnconfirmed)
                         && directProbeStoppedLossHistory sessionID d))
               || negb (bool_decide (l_new_state newest = SessionStateLost))
           | [] => true
           end) ErrProbeDispositionNotEligible.

(** The session was lost at shutdown, the job is still creating it. *)
Definition reconcileStoppedProbe (jobID sessionID commandID : string) (now : Z) : tx JobRecord :=
  requireRetainedReservation sessionID;;
  d ← query (fun d => d);
  fail_if (negb (Nat.eqb (length (filter (fun '(_, j) => j_session_id j = sessionID) (map_to_list (exec_jobs d)))) 1)
           || negb (is_nil (session_commands sessionID d)) || negb (untouched_command commandID d))
    ErrProbeDispositionNotEligible;;
  changed ← update_job jobID (creating_job sessionID commandID) (job_with_phase JobPhaseLost now)
              (ErrSQL "reconcile exact probe job after stopped-session loss");
  fail_if (negb (changed =? 1)) ErrProbeDispositionNotEligible;;
  readJobOnConnection jobID.

(** Both are still creating. *)
Definition recordLostProbe (jobID sessionID commandID reason : string) (now : Z) : tx (JobRecord * SessionRecord) :=
  requireRetainedReservation sessionID;;
  requireNoCommand commandID;;
  newest ← query (newest_lifecycle sessionID);
  newest ← or_fail (head newest) ErrProbeDispositionNotEligible;
  fail_if (negb (bool_decide (l_new_state newest = SessionStateCreating))) ErrProbeDispositionNotEligible;;
  update_session sessionID (fun r => in_session_state SessionStateCreating r && is_empty (s_runtime_generation r))
    (session_with_state SessionStateLost now);;
  insert_lifecycle sessionID
    (mkLifecycleRow (l_sequence newest + 1) (Some SessionStateCreating) SessionStateLost reason (formatStoredTime now));;
  update_job jobID (creating_job sessionID commandID) (job_with_phase JobPhaseLost now)
    (ErrSQL "record indeterminate probe job disposition");;
  job ← readJobOnConnection jobID;
  session ← readSessionOnConnection sessionID;
  mret (job, session).

Definition MarkCreatingDirectProbeLost (s : AuthorityStore) (now : Z) (jobID sessionID commandID expectedIdempotencyKey
    expectedEnvironment expectedControllerID reason : string) : result (JobRecord * SessionRecord) * AuthorityStore :=
  let ineligible {A} (r : result A) := result_map_err (fun _ => ErrProbeDispositionNotEligible) r in
  with_valid s (ineligible (NewJobID jobID)) (fun jobID =>
  with_valid s (ineligible (NewSessionID sessionID)) (fun sessionID =>
  with_valid s (ineligible (NewCommandID commandID)) (fun commandID =>
  with_valid s (refuse_if (is_empty expectedIdempotencyKey || is_empty expectedEnvironment || is_empty expectedControllerID
                           || negb (bool_decide (reason = CatalogProbeOwnerAbandonedReason)))
                  ErrProbeDispositionNotEligible) (fun _ =>
  withImmediateTransaction s
    (job ← readJobOnConnection jobID;
     session ← readSessionOnConnection sessionID;
     fail_if (negb (probe_matches sessionID commandID expectedIdempotencyKey expectedEnvironment expectedControllerID
                      job session)) ErrProbeDispositionNotEligible;;
     stopped ← query (directProbeStoppedLossHistory sessionID);
     if bool_decide (jr_Phase job = JobPhaseLost) && bool_decide (sr_State session = SessionStateLost) then
       confirmLostProbe sessionID commandID reason;; mret (job, session)
     else if bool_decide (jr_Phase job = JobPhaseCreatingSession) && bool_decide (sr_State session = SessionStateLost)
             && stopped then
       job ← reconcileStoppedProbe jobID sessionID commandID now; mret (job, session)
     else
       fail_if (negb (bool_decide (jr_Phase job = JobPhaseCreatingSession))
                || negb (bool_decide (sr_State session = SessionStateCreating))) ErrProbeDispositionNotEligible;;
       recordLostProbe jobID sessionID commandID reason now))))).
