(* ===== verification/Scheduler.v ===== *)
(** * The scheduler

    Models [src/src/internal/store/scheduler.go]: choosing the oldest eligible
    queued command under the slot limit and the controlled-restart gate,
    starting it together with its session and its slot, and releasing slots. *)
From S2P Require Import Prelude GoStrings Sha256 Identity Lifecycle Policy Canonical LaneAdmission.
From S2P Require Import AuditRecords Db AuditStore AdmissionStore Idempotency Sessions Commands LostRecovery.
From S2P Require Import RestartPlan.

Record CommandSlotRecord : Type := mkCommandSlotRecord {
  slot_CommandID : string;
  slot_HostKey : string;
  slot_ReservedAt : Z;
  slot_StopConfirmedAt : option Z;
  slot_ReleasedAt : option Z
}.

Record schedulerCandidate : Type := mkSchedulerCandidate {
  cand_commandID : string;
  cand_sessionID : string;
  cand_createdAt : Z;
  cand_ordinal : Z
}.

(** ** Candidates *)

(** [NOT EXISTS (SELECT 1 FROM exec_jobs j WHERE j.command_id = c.command_id AND j.phase <> ?)] *)
Definition handed_off (d : DB) (commandID : string) : bool :=
  forallb (fun '(_, j) => negb (bool_decide (j_command_id j = commandID))
                          || bool_decide (j_phase j = JobPhaseAwaitingCommand)) (map_to_list (exec_jobs d)).

Definition candidateRows (requireOneOffHandoff : bool) (d : DB) : list (string * CommandRow) :=
  filter (fun '(id, _) => negb requireOneOffHandoff || handed_off d id = true) (schedulerEligible d).

Fixpoint scanCandidates (rows : list (string * CommandRow)) : result (list schedulerCandidate) :=
  match rows with
  | [] => Ok []
  | (id, row) :: rest =>
      match parseStoredTime (c_created_at row) with
      | None => Err ErrCommandOrderCorrupt
      | Some createdAt =>
          others ← scanCandidates rest;
          Ok (mkSchedulerCandidate id (c_session_id row) createdAt (c_ordinal row) :: others)
      end
  end.

(** The reflexive closure of the comparison given to [sort.Slice]. *)
Definition candidate_le (left right : schedulerCandidate) : Prop :=
  if negb (cand_createdAt left =? cand_createdAt right) then cand_createdAt left < cand_createdAt right
  else if negb (bool_decide (cand_sessionID left = cand_sessionID right))
       then string_le (cand_sessionID left) (cand_sessionID right)
  else if negb (cand_ordinal left =? cand_ordinal right) then cand_ordinal left < cand_ordinal right
  else string_le (cand_commandID left) (cand_commandID right).
#[export] Instance candidate_le_dec left right : Decision (candidate_le left right).
Proof. unfold candidate_le. repeat destruct (negb _); apply _. Defined.

Definition nextEligibleCommandOnConnection (sessionID : string) : tx CommandRecord :=
  row ← query (fun d => exec_sessions d !! sessionID);
  row ← or_fail row ErrSessionNotFound;
  fail_if (negb (in_session_state SessionStateReady row)) ErrCommandNotEligible;;
  commands ← readCommandOrderOnConnection sessionID;
  commandID ← lift (firstEligible commands);
  readCommandOnConnection commandID.

(** ** The claim *)
Definition in_command_state (st : CommandState) (r : CommandRow) : bool := bool_decide (c_state r = st).

(** From the slot reservation to the end of the transaction. *)
Definition claimCommand (plan : option ControlledRestartPlan) (candidate : CommandRecord) (commandID sessionID : string)
    (now : Z) : tx (CommandRecord * CommandEventRecord) :=
  insert_slot commandID (mkSlotRow schedulerHostKey (formatStoredTime now) None None);;
  sequence ← nextEventSequenceOnConnection commandID;
  insertCommandEventOnConnection commandID sequence command_started "" 0 now;;
  update_command commandID (in_command_state CommandStateQueued) (command_with_state CommandStateRunning now);;
  transitionSessionOnConnection sessionID SessionStateBusy "command_started" now;;
  match plan with
  | Some plan =>
      fail_if (negb (bool_decide (cr_CommandID candidate = plan_CommandID plan))
               || negb (bool_decide (cr_SessionID candidate = plan_SessionID plan))) ErrControlledRestartPlanCorrupt;;
      consumeControlledRestartPlanOnClaim plan
  | None => mret tt
  end;;
  record ← readCommandOnConnection commandID;
  mret (record, mkCommandEventRecord commandID sequence command_started "" 0 now).

(** The loop over the sorted candidates. *)
Fixpoint claimFirst (plan : option ControlledRestartPlan) (now : Z) (candidates : list schedulerCandidate)
    : tx (CommandRecord * CommandEventRecord) :=
  match candidates with
  | [] => throw ErrCommandNotEligible
  | row :: rest =>
      if match plan with
         | Some plan => negb (bool_decide (cand_commandID row = plan_CommandID plan))
                        || negb (bool_decide (cand_sessionID row = plan_SessionID plan))
         | None => false
         end
      then claimFirst plan now rest
      else
        commandID ← lift (result_map_err (fun _ => ErrCommandOrderCorrupt) (NewCommandID (cand_commandID row)));
        sessionID ← lift (result_map_err (fun _ => ErrCommandOrderCorrupt) (NewSessionID (cand_sessionID row)));
        candidate ← attempt (nextEligibleCommandOnConnection sessionID);
        match candidate with
        | Err e => if errors_is e ErrCommandNotEligible then claimFirst plan now rest else throw e
        | Ok candidate =>
            if negb (bool_decide (cr_CommandID candidate = commandID)) then claimFirst plan now rest
            else claimCommand plan candidate commandID sessionID now
        end
  end.

(** A plan that is absent leaves the gate open; any other read error closes it. *)
Definition readGate : tx (option ControlledRestartPlan) :=
  plan ← attempt readControlledRestartPlanOnConnection;
  match plan with
  | Ok plan => mret (Some plan)
  | Err e => fail_if (negb (errors_is e ErrControlledRestartPlanNotFound)) e;; mret None
  end.

Definition startNextEligibleCommand (s : AuthorityStore) (now : Z) (maxSlots : Z) (requireOneOffHandoff : bool)
    : result CommandRecord * AuthorityStore :=
  let maxSlots := if maxSlots =? 0 then DefaultRunningCommandLimit else maxSlots in
  if maxSlots <? 1 then (Err ErrCommandSlotsFull, s)
  else
    match withImmediateTransaction s
      (plan ← readGate;
       fail_if (match plan with Some plan => negb (plan_Activated plan) | None => false end)
         ErrControlledRestartPlanNotActive;;
       liveSlots ← query count_live_slots;
       fail_if (maxSlots <=? liveSlots) ErrCommandSlotsFull;;
       rows ← query (candidateRows requireOneOffHandoff);
       candidates ← lift (scanCandidates rows);
       claimFirst plan now (merge_sort candidate_le candidates)) with
    | (Ok (record, event), s') => (Ok record, publish s' (Some event))
    | (Err e, s') => (Err e, s')
    end.

Definition StartNextEligibleCommand (s : AuthorityStore) (now maxSlots : Z) := startNextEligibleCommand s now maxSlots false.
(** The diagnostics that wrap the error are dropped. *)
Definition StartNextDispatchableCommand (s : AuthorityStore) (now maxSlots : Z) :=
  startNextEligibleCommand s now maxSlots true.

(** ** Slots *)
Definition CountLiveCommandSlots (s : AuthorityStore) : Z := count_live_slots (db s).

Definition readCommandSlotOnConnection (id : string) : tx CommandSlotRecord :=
  row ← query (fun d => exec_command_slots d !! id);
  row ← or_fail row ErrCommandSlotNotFound;
  fail_if (negb (result_is_ok (NewCommandID id)) || is_empty (sl_host_key row)) ErrCommandSlotCorrupt;;
  reservedAt ← or_fail (parseStoredTime (sl_reserved_at row)) ErrCommandSlotCorrupt;
  stop ← parseOptional ErrCommandSlotCorrupt (sl_stop_confirmed_at row);
  released ← parseOptional ErrCommandSlotCorrupt (sl_released_at row);
  fail_if (xorb (is_Some_b stop) (is_Some_b released)) ErrCommandSlotCorrupt;;
  mret (mkCommandSlotRecord id (sl_host_key row) reservedAt stop released).

Definition GetCommandSlot (s : AuthorityStore) (id : string) : result CommandSlotRecord :=
  validatedID ← NewCommandID id;
  withReadTransaction s (readCommandSlotOnConnection validatedID).

Definition ConfirmCommandSlotRelease (s : AuthorityStore) (now : Z) (id : string) : result unit * AuthorityStore :=
  with_valid s (NewCommandID id) (fun validatedID =>
  withImmediateTransaction s
    (row ← query (fun d => exec_commands d !! validatedID);
     row ← or_fail row ErrCommandNotFound;
     fail_if (negb (CommandState_IsTerminal (c_state row))) ErrCommandSlotNotReleasable;;
     changed ← update_slot validatedID live_slot (slot_released now);
     if 0 <? changed then mret tt
     else
       slot ← query (fun d => exec_command_slots d !! validatedID);
       fail_if (negb (is_Some_b slot)) ErrCommandSlotNotFound)).
