(* ===== verification/TeardownRecovery.v ===== *)
(** * Recovery of a lost teardown

    Models [src/src/internal/store/completed_teardown_recovery.go]: a command
    that ended normally has released its slot, but the teardown of its one-off
    session was lost, so the session reservation is retained.  The recovery
    releases the reservations of an explicit complete set of such sessions when
    nothing else is active. *)
From S2P Require Import Prelude GoStrings Sha256 Identity Lifecycle Policy Canonical LaneAdmission.
From S2P Require Import AuditRecords Db AuditStore AdmissionStore Idempotency Sessions Commands LostRecovery.
From S2P Require Import Listings RestartPlan Scheduler CommandlessRecovery.

Record CompletedTeardownRecoveryPair : Type := mkTeardownPair { tp_SessionID : string; tp_CommandID : string }.
#[export] Instance CompletedTeardownRecoveryPair_eq_dec : EqDecision CompletedTeardownRecoveryPair.
Proof. solve_decision. Defined.

Record CompletedTeardownRecovery : Type := mkCompletedTeardownRecovery {
  tr_Pair : CompletedTeardownRecoveryPair;
  tr_JobID : string;
  tr_Session : SessionRecord;
  tr_Command : LostRuntimeRecoveryCommand;
  tr_CommandSlot : CommandSlotRecord;
  tr_SessionReservation : SessionReservation;
  tr_AlreadyRecovered : bool;
  tr_FinalizationPending : bool
}.

(** ** Validation *)
Fixpoint validateTeardownPairs (sessions commands : list string) (pairs : list CompletedTeardownRecoveryPair)
    : result unit :=
  match pairs with
  | [] => Ok tt
  | pr :: rest =>
      refuse_if (negb (result_is_ok (NewSessionID (tp_SessionID pr))) || negb (result_is_ok (NewCommandID (tp_CommandID pr)))
                 || bool_decide (tp_SessionID pr ∈ sessions) || bool_decide (tp_CommandID pr ∈ commands))
        ErrCompletedTeardownRecoveryNotReleasable;;
      validateTeardownPairs (tp_SessionID pr :: sessions) (tp_CommandID pr :: commands) rest
  end.

Definition validateCompletedTeardownRecoveryPairs (pairs : list CompletedTeardownRecoveryPair)
    : result (list CompletedTeardownRecoveryPair) :=
  refuse_if (is_nil pairs) ErrCompletedTeardownRecoveryNotReleasable;;
  validateTeardownPairs [] [] pairs;;
  Ok pairs.

(** ** Reads *)

(** The WHERE clauses on the session, the command and the job; a comparison with
    NULL is not true. *)
Definition controller_owns_target (s : SessionRow) : bool :=
  match target_kind (s_target s), controller_typeName (s_controller s) with
  | TargetKindLocal, ControllerTypeLocalUser => true
  | TargetKindRemote, (ControllerTypeQueuedMac | ControllerTypeDirectMTLS) => true
  | _, _ => false
  end.

Definition ordinary_result (c : CommandRow) : bool :=
  match c_state c, c_exit_code c with
  | CommandStateSucceeded, Some code => code =? 0
  | CommandStateFailed, Some code => negb (code =? 0)
  | _, _ => false
  end.

Definition sql_equal {A} `{EqDecision A} (x y : option A) : bool :=
  match x, y with Some a, Some b => bool_decide (a = b) | _, _ => false end.

Definition job_repeats_session (j : JobRow) (s : SessionRow) : bool :=
  bool_decide (j_controller j = s_controller s) && bool_decide (j_target j = s_target s)
  && bool_decide (j_environment j = s_environment s) && bool_decide (j_source j = s_source s).

Definition job_repeats_command (j : JobRow) (c : CommandRow) : bool :=
  sql_equal (j_command_state j) (Some (c_state c)) && sql_equal (j_exit_code j) (c_exit_code c)
  && sql_equal (j_final_event_sequence j) (c_final_event_sequence c)
  && eqb (j_output_complete j) (c_output_complete c) && eqb (j_output_truncated j) (c_output_truncated c)
  && bool_decide (j_output_unavailable_reason j = c_output_unavailable_reason c).

(** The stream has exactly the events up to the final one, which records the state. *)
Definition stream_complete (rows : list EventRow) (c : CommandRow) : bool :=
  match c_final_event_sequence c with
  | None => false
  | Some final =>
      (0 <? final) && negb (is_nil rows) && (tail_sequence rows =? final) && (Z.of_nat (length rows) =? final)
      && match List.find (fun e => e_sequence e =? final) rows with
         | Some e => match c_state c with
                     | CommandStateSucceeded => bool_decide (e_type e = command_succeeded)
                     | CommandStateFailed => bool_decide (e_type e = command_failed)
                     | _ => false
                     end
         | None => false
         end
  end.

Definition teardown_lost (d : DB) (commandID sessionID : string) (s : SessionRow) (c : CommandRow) (j : JobRow) : bool :=
  bool_decide (c_session_id c = sessionID) && bool_decide (j_command_id j = commandID)
  && bool_decide (s_state s = SessionStateLost) && sql_length_pos (s_runtime_generation s)
  && controller_owns_target s && job_repeats_session j s
  && bool_decide (j_phase j = JobPhaseLost) && bool_decide (j_teardown_state j = JobTeardownLost)
  && bool_decide (j_teardown_reason j = "runtime_cleanup_unconfirmed")
  && ordinary_result c && c_output_complete c && negb (c_output_truncated c)
  && is_empty (c_output_unavailable_reason c) && job_repeats_command j c
  && Nat.eqb (length (session_commands sessionID d)) 1 && Nat.eqb (length (session_jobs sessionID d)) 1
  && stream_complete (rows_of (exec_command_events d) commandID) c.

(** [COUNT] of the work items that name one of the three, and that name all three. *)
Definition touching_finalizations (sessionID commandID jobID : string) (d : DB) : nat :=
  length (filter (fun '(id, f) => id = sessionID \/ tf_command_id f = commandID \/ tf_job_id f = jobID)
            (map_to_list (exec_completed_teardown_recovery_finalizations d))).
Definition matching_finalizations (sessionID commandID jobID : string) (d : DB) : nat :=
  length (filter (fun '(id, f) => id = sessionID /\ tf_command_id f = commandID /\ tf_job_id f = jobID)
            (map_to_list (exec_completed_teardown_recovery_finalizations d))).

(** [value, err := m; if err != nil { return e }] *)
Definition tx_or {A} (m : tx A) (e : error) : tx A := fun d =>
  match m d with Ok r => Ok r | Err _ => Err e end.

Definition readCompletedTeardownRecovery (pair : CompletedTeardownRecoveryPair) : tx CompletedTeardownRecovery :=
  let notReleasable := ErrCompletedTeardownRecoveryNotReleasable in
  d ← query (fun d => d);
  session ← or_fail (exec_sessions d !! tp_SessionID pair) notReleasable;
  command ← or_fail (exec_commands d !! tp_CommandID pair) notReleasable;
  job ← or_fail (session_job (tp_SessionID pair) d) notReleasable;
  fail_if (negb (teardown_lost d (tp_CommandID pair) (tp_SessionID pair) session command (snd job))) notReleasable;;
  let jobID := fst job in
  let finalizations := touching_finalizations (tp_SessionID pair) (tp_CommandID pair) jobID d in
  let matching := matching_finalizations (tp_SessionID pair) (tp_CommandID pair) jobID d in
  fail_if (negb (result_is_ok (NewJobID jobID)) || negb (Nat.eqb finalizations matching) || negb (Nat.leb matching 1))
    notReleasable;;
  sessionRecord ← readSessionOnConnection (tp_SessionID pair);
  commandRecord ← readLostRuntimeRecoveryCommandOnConnection (tp_CommandID pair);
  slot ← tx_or (readCommandSlotOnConnection (tp_CommandID pair)) notReleasable;
  fail_if (negb (bool_decide (slot_HostKey slot = schedulerHostKey)) || negb (is_Some_b (slot_StopConfirmedAt slot))
           || negb (is_Some_b (slot_ReleasedAt slot))) notReleasable;;
  reservation ← tx_or (readReservationOnConnection (tp_SessionID pair)) notReleasable;
  fail_if (negb (bool_decide (res_HostKey reservation = reservationHostKey))
           || xorb (is_Some_b (res_CleanupConfirmedAt reservation)) (is_Some_b (res_ReleasedAt reservation))) notReleasable;;
  let alreadyRecovered := is_Some_b (res_CleanupConfirmedAt reservation) in
  let pending := Nat.eqb matching 1 in
  fail_if (pending && negb alreadyRecovered) notReleasable;;
  mret (mkCompletedTeardownRecovery pair jobID sessionRecord commandRecord slot reservation alreadyRecovered pending).

Definition pendingCompletedTeardownPairs : tx (list CompletedTeardownRecoveryPair) :=
  rows ← query (fun d => merge_sort (listed_le tf_capacity_released_at)
                           (map_to_list (exec_completed_teardown_recovery_finalizations d)));
  lift (mapM_result (fun '(sessionID, f) =>
          let pair := mkTeardownPair sessionID (tf_command_id f) in
          validateCompletedTeardownRecoveryPairs [pair];; Ok pair) rows).

(** Rows that are still active. *)
Definition count_if {A} (p : A -> bool) (t : gmap string A) : nat := size (filter (fun '(_, r) => p r = true) t).
Definition terminal_phase (p : JobPhase) : bool :=
  match p with JobPhaseComplete | JobPhaseFailed | JobPhaseLost => true | _ => false end.
Definition active_rows (d : DB) : nat :=
  (count_if (fun r => negb (SessionState_IsTerminal (s_state r))) (exec_sessions d)
   + count_if (fun r => negb (CommandState_IsTerminal (c_state r))) (exec_commands d)
   + count_if (fun r => negb (terminal_phase (j_phase r))) (exec_jobs d))%nat.
Definition open_slot (r : SlotRow) : bool :=
  negb (is_Some_b (sl_stop_confirmed_at r)) || negb (is_Some_b (sl_released_at r)).
Definition open_reservation (r : ReservationRow) : bool :=
  negb (is_Some_b (r_cleanup_confirmed_at r)) || negb (is_Some_b (r_released_at r)).

Definition unsafe_rows (d : DB) : nat :=
  (active_rows d + count_if open_slot (exec_command_slots d)
   + size (exec_lost_runtime_recovery_finalizations d)
   + size (exec_commandless_lost_runtime_recovery_finalizations d))%nat.

Definition checkCompletedTeardownRecoveryBatch (pairs : list CompletedTeardownRecoveryPair)
    : tx (list CompletedTeardownRecovery) :=
  results ← read_each readCompletedTeardownRecovery pairs;
  let selected := tp_SessionID <$> pairs in
  unsafe ← query unsafe_rows;
  fail_if (negb (Nat.eqb unsafe 0)) ErrCompletedTeardownRecoveryNotReleasable;;
  rows ← query (fun d => filter (fun '(_, r) => open_reservation r = true) (map_to_list (exec_capacity_reservations d)));
  fail_if (existsb (fun '(id, _) => negb (bool_decide (id ∈ selected))) rows) ErrCompletedTeardownRecoveryNotReleasable;;
  pending ← pendingCompletedTeardownPairs;
  fail_if (existsb (fun pair => negb (bool_decide (tp_SessionID pair ∈ selected))) pending)
    ErrCompletedTeardownRecoveryNotReleasable;;
  mret results.

(** ** Release *)

(** PRIMARY KEY session_id, UNIQUE command_id, UNIQUE job_id and the three foreign keys. *)
Definition insert_teardown_finalization (sessionID : string) (row : TeardownFinalizationRow) : tx unit :=
  d ← query (fun d => d);
  fail_if (is_Some_b (exec_completed_teardown_recovery_finalizations d !! sessionID)
           || existsb (fun '(_, f) => bool_decide (tf_command_id f = tf_command_id row)
                                      || bool_decide (tf_job_id f = tf_job_id row))
                (map_to_list (exec_completed_teardown_recovery_finalizations d))
           || negb (is_Some_b (exec_sessions d !! sessionID)) || negb (is_Some_b (exec_commands d !! tf_command_id row))
           || negb (is_Some_b (exec_jobs d !! tf_job_id row)))
    (ErrSQL "record completed-teardown finalization");;
  modify (fun d => set_teardown_finalizations
    (<[sessionID := row]> (exec_completed_teardown_recovery_finalizations d)) d).

(** The body of the release loop. *)
Definition releaseTeardown (now : Z) (recovery : CompletedTeardownRecovery) : tx unit :=
  if tr_AlreadyRecovered recovery then mret tt
  else
    changed ← update_reservation (tp_SessionID (tr_Pair recovery)) releasable_reservation (reservation_released now);
    fail_if (negb (changed =? 1)) ErrCompletedTeardownRecoveryNotReleasable;;
    insert_teardown_finalization (tp_SessionID (tr_Pair recovery))
      (mkTeardownFinalizationRow (tp_CommandID (tr_Pair recovery)) (tr_JobID recovery) (formatStoredTime now)).

Fixpoint releaseTeardowns (now : Z) (recoveries : list CompletedTeardownRecovery) : tx unit :=
  match recoveries with
  | [] => mret tt
  | recovery :: rest => releaseTeardown now recovery;; releaseTeardowns now rest
  end.

(** ** Operations *)
Definition CheckCompletedTeardownRecoveryBatch (s : AuthorityStore) (pairs : list CompletedTeardownRecoveryPair)
    : result (list CompletedTeardownRecovery) :=
  validated ← validateCompletedTeardownRecoveryPairs pairs;
  withReadTransaction s (checkCompletedTeardownRecoveryBatch validated).

Definition ConfirmCompletedTeardownRecoveryBatch (s : AuthorityStore) (now : Z)
    (pairs : list CompletedTeardownRecoveryPair) : result unit * AuthorityStore :=
  with_valid s (validateCompletedTeardownRecoveryPairs pairs) (fun validated =>
  withImmediateTransaction s
    (recoveries ← checkCompletedTeardownRecoveryBatch validated;
     releaseTeardowns now recoveries)).

Definition ListPendingCompletedTeardownRecoveryFinalizations (s : AuthorityStore)
    : result (list CompletedTeardownRecovery) :=
  withReadTransaction s
    (pairs ← pendingCompletedTeardownPairs;
     read_each (fun pair =>
       recovery ← readCompletedTeardownRecovery pair;
       fail_if (negb (tr_AlreadyRecovered recovery) || negb (tr_FinalizationPending recovery))
         ErrCompletedTeardownRecoveryNotReleasable;;
       mret recovery) pairs).

Definition CompleteCompletedTeardownRecoveryFinalization (s : AuthorityStore) (pair : CompletedTeardownRecoveryPair)
    : result unit * AuthorityStore :=
  with_valid s (validateCompletedTeardownRecoveryPairs [pair]) (fun _ =>
  withImmediateTransaction s
    (recovery ← readCompletedTeardownRecovery pair;
     fail_if (negb (tr_AlreadyRecovered recovery)) ErrCompletedTeardownRecoveryNotReleasable;;
     if negb (tr_FinalizationPending recovery) then mret tt
     else
       matching ← query (matching_finalizations (tp_SessionID pair) (tp_CommandID pair) (tr_JobID recovery));
       fail_if (negb (Nat.eqb matching 1)) ErrCompletedTeardownRecoveryNotReleasable;;
       modify (fun d => set_teardown_finalizations
         (delete (tp_SessionID pair) (exec_completed_teardown_recovery_finalizations d)) d))).

(** ** The reads do not write *)
#[export] Instance tx_or_ro {A} (m : tx A) e : ReadOnly m -> ReadOnly (tx_or m e).
Proof. intros Hm d a d'. unfold tx_or. destruct (m d) as [[x d1]|] eqn:E; [|done]. intros [= <- <-]. by apply Hm in E. Qed.
#[export] Instance readCommandSlot_ro id : ReadOnly (readCommandSlotOnConnection id).
Proof. unfold readCommandSlotOnConnection. apply _. Qed.
#[export] Instance readCompletedTeardown_ro pair : ReadOnly (readCompletedTeardownRecovery pair).
Proof. unfold readCompletedTeardownRecovery. cbv zeta. apply _. Qed.
#[export] Instance checkCompletedTeardownBatch_ro pairs : ReadOnly (checkCompletedTeardownRecoveryBatch pairs).
Proof. unfold checkCompletedTeardownRecoveryBatch, pendingCompletedTeardownPairs. cbv zeta. apply _. Qed.
