(* ===== verification/RemoteDb.v ===== *)
(** * The tables of the controller

    The tables of [src/src/internal/store/migrations/*.sql] beside those of the
    execution authority: what a controller knows of remote execution (projections
    of sessions, commands and jobs, the mirrored events with their cursors and
    gaps), its own durable requests (local intents with their lifecycle,
    idempotency bindings and status failures), and the mailbox (exchanges, event
    file references and their cleanup, ingress diagnostics, configuration).

    A column of JSON text is modelled by the value its text denotes:
    [source_json] by the struct [projectionSourceJSON] and [capabilities_json] by
    [RemoteCapabilities].  The program writes these columns with [json.Marshal]
    and compares them as texts, which for valid UTF-8 is equality of the values.
    At the end, the statements that several components run on these tables. *)
From S2P Require Import Listings.
From S2P Require Import Prelude GoStrings Identity Lifecycle Policy JsonText Db.

(** ** Projections of remote execution *)

(** store/remote_projections.go; a nil map of limits is [None]. *)
Record RemoteCapabilities : Type := mkRemoteCapabilities {
  cap_HostClass : string;
  cap_Isolation : string;
  cap_EffectiveAccount : string;
  cap_ServiceLimits : option (gmap string json)
}.

(** The members [Mode], [RepositoryAlias], [RequestedRevision],
    [ResolvedCommit] and [Path]; [Portable] is never set. *)
Record projectionSourceJSON : Type := mkProjectionSourceJSON {
  psj_Mode : SourceMode;
  psj_RepositoryAlias : string;
  psj_RequestedRevision : string;
  psj_ResolvedCommit : string;
  psj_Path : string
}.
#[export] Instance projectionSourceJSON_eq_dec : EqDecision projectionSourceJSON.
Proof. solve_decision. Defined.

Record RemoteSessionRow : Type := mkRemoteSessionRow {
  rs_target : ExecutionTarget;
  rs_controller : ControllerIdentity;
  rs_session_state : SessionState;
  rs_environment : string;
  rs_source_json : projectionSourceJSON;
  rs_capabilities_json : RemoteCapabilities;
  rs_runtime_generation : string;
  rs_resolved_revision : string;
  rs_observed_at : StoredTime;
  rs_is_stale : bool
}.

Record RemoteCommandRow : Type := mkRemoteCommandRow {
  rc_session_id : string;
  rc_ordinal : Z;
  rc_command_state : CommandState;
  rc_exit_code : option Z;
  rc_final_event_sequence : option Z;
  rc_output_complete : bool;
  rc_output_truncated : bool;
  rc_output_unavailable_reason : string;
  rc_target : ExecutionTarget;
  rc_controller : ControllerIdentity;
  rc_environment : string;
  rc_source_json : projectionSourceJSON;
  rc_capabilities_json : RemoteCapabilities;
  rc_observed_at : StoredTime;
  rc_is_stale : bool
}.

Record RemoteJobRow : Type := mkRemoteJobRow {
  rj_session_id : string;
  rj_command_id : string;
  rj_job_phase : JobPhase;
  rj_command_state : option CommandState;
  rj_exit_code : option Z;
  rj_final_event_sequence : option Z;
  rj_output_complete : bool;
  rj_output_truncated : bool;
  rj_output_unavailable_reason : string;
  rj_queue_blocked_reason : string;
  rj_teardown_state : JobTeardownState;
  rj_teardown_reason : string;
  rj_target : ExecutionTarget;
  rj_controller : ControllerIdentity;
  rj_environment : string;
  rj_source_json : projectionSourceJSON;
  rj_capabilities_json : RemoteCapabilities;
  rj_observed_at : StoredTime;
  rj_is_stale : bool
}.

(** ** Mirrored events: the rows of an event are those of the authority. *)
Record CursorRow : Type := mkCursorRow { cu_last_sequence : Z; cu_updated_at : StoredTime }.

Record GapRow : Type := mkGapRow {
  g_missing_from : Z;
  g_missing_to : Z;
  g_available_sequence : Z;
  g_final_sequence : Z;
  g_terminal_state : CommandState;
  g_output_complete : bool;
  g_output_unavailable_reason : string;
  g_confirmed_at : StoredTime
}.

(** ** Local intents *)
Inductive LocalIntentDeliveryState : Type :=
  | LocalIntentRecorded | LocalIntentDispatching | LocalIntentUncertain | LocalIntentAccepted
  | LocalIntentReconciled | LocalIntentNotDelivered
  | LocalIntentOther (value : string).
#[export] Instance LocalIntentDeliveryState_eq_dec : EqDecision LocalIntentDeliveryState.
Proof. solve_decision. Defined.

Record IntentRow : Type := mkIntentRow {
  li_operation : string;
  li_resource_id : string;
  li_session_id : string;
  li_command_id : string;
  li_job_id : string;
  li_target : ExecutionTarget;
  li_environment : string;
  li_controller : ControllerIdentity;
  li_source : Source;
  li_request_hash_version : Z;
  li_request_hash : string;
  li_idempotency_key : string;
  li_payload_json : string;
  li_script_bytes : string;
  li_script_sha256 : string;
  li_intent_ordinal : option Z;
  li_delivery_state : LocalIntentDeliveryState;
  li_reason : string;
  li_remote_terminal_proof_version : Z;
  li_lease_owner : string;
  li_lease_expires_at : option StoredTime;
  li_attempt_count : Z;
  li_created_at : StoredTime;
  li_updated_at : StoredTime
}.

Record IntentLifecycleRow : Type := mkIntentLifecycleRow {
  il_sequence : Z;
  il_previous_state : option LocalIntentDeliveryState;
  il_new_state : LocalIntentDeliveryState;
  il_reason : string;
  il_occurred_at : StoredTime
}.

Record LocalIdempotencyRow : Type := mkLocalIdempotencyRow {
  lk_hash_version : Z;
  lk_hash : string;
  lk_intent_id : string;
  lk_resource_id : string;
  lk_created_at : StoredTime;
  lk_expires_at : StoredTime
}.

Record StatusFailureRow : Type := mkStatusFailureRow {
  sf_first_observed_at : StoredTime;
  sf_reason : string;
  sf_reconciliation_attempts : Z
}.

(** ** The mailbox *)
Inductive MailboxExchangeState : Type :=
  | MailboxExchangeAccepted | MailboxExchangeComplete | MailboxExchangeRejected | MailboxExchangeIndeterminate
  | MailboxExchangeOther (value : string).
#[export] Instance MailboxExchangeState_eq_dec : EqDecision MailboxExchangeState.
Proof. solve_decision. Defined.

Inductive MailboxExecutionSelectionState : Type :=
  | MailboxExecutionSelectionLegacy | MailboxExecutionSelectionResolved | MailboxExecutionSelectionRejected
  | MailboxExecutionSelectionOther (value : string).
#[export] Instance MailboxExecutionSelectionState_eq_dec : EqDecision MailboxExecutionSelectionState.
Proof. solve_decision. Defined.

(** The columns of an execution selection; [repository_aliases_json] is the
    list it denotes. *)
Record SelectionColumns : Type := mkSelectionColumns {
  sel_execution_context : string;
  sel_environment : string;
  sel_target_kind : string;
  sel_target_profile : string;
  sel_source : string;
  sel_repository_alias : string;
  sel_repository_aliases : list string
}.

(** An exchange: the columns of the receipt, which no statement updates, those
    of the response, and those of acknowledgement and cleanup. *)
Record ReceiptColumns : Type := mkReceiptColumns {
  x_mailbox_id : string;
  x_client_request_id : string;
  x_operation : string;
  x_controller : ControllerIdentity;
  x_client_idempotency_key : string;
  x_execution_idempotency_key : string;
  x_canonical_hash_version : Z;
  x_canonical_hash : string;
  x_canonical_payload : string;
  x_resource_id : string;
  x_selection : SelectionColumns;
  x_selection_state : MailboxExecutionSelectionState;
  x_idempotency_key_expires_at : option StoredTime;
  x_idempotency_binding_active : bool;
  x_deduplication_warning : bool;
  x_created_at : StoredTime
}.

Record ResponseColumns : Type := mkResponseColumns {
  x_request_state : MailboxExchangeState;
  x_response_revision : Z;
  x_response_bytes : option string;
  x_response_sha256 : option string;
  x_terminal_response_bytes : option string;
  x_terminal_response_sha256 : option string;
  x_available_event_sequence : option Z
}.

Record ExchangeRow : Type := mkExchangeRow {
  x_receipt : ReceiptColumns;
  x_response : ResponseColumns;
  x_updated_at : StoredTime;
  x_acknowledged_at : option StoredTime;
  x_response_cleanup_at : option StoredTime;
  x_response_cleanup_started_at : option StoredTime;
  x_response_file_removed_at : option StoredTime
}.

Record EventFileCleanupRow : Type := mkEventFileCleanupRow {
  ec_cleanup_started_at : StoredTime;
  ec_file_removed_at : option StoredTime
}.

Record CleanupWorkRow : Type := mkCleanupWorkRow {
  cw_last_exchange_id : string;
  cw_scanned_refs : Z;
  cw_scan_complete : bool;
  cw_all_terminal : bool;
  cw_latest_cleanup_at : option StoredTime
}.

Inductive MailboxIngressDiagnosticCode : Type :=
  | MailboxIngressDiagnosticMalformedJSON | MailboxIngressDiagnosticInvalidRequestSchema
  | MailboxIngressDiagnosticRequestIdentityMismatch | MailboxIngressDiagnosticInvalidScript
  | MailboxIngressDiagnosticRequestTooLarge | MailboxIngressDiagnosticRequestIDReusedAfterReject
  | MailboxIngressDiagnosticOther (value : string).
#[export] Instance MailboxIngressDiagnosticCode_eq_dec : EqDecision MailboxIngressDiagnosticCode.
Proof. solve_decision. Defined.

(** A diagnostic: its frozen core and the timestamps of its stages. *)
Record DiagnosticCore : Type := mkDiagnosticCore {
  dg_request_sha256 : string;
  dg_diagnostic_code : MailboxIngressDiagnosticCode;
  dg_diagnostic_revision : Z;
  dg_diagnostic_bytes : string;
  dg_diagnostic_sha256 : string;
  dg_observed_at : StoredTime;
  dg_diagnostic_cleanup_at : StoredTime
}.

Record DiagnosticRow : Type := mkDiagnosticRow {
  dg_core : DiagnosticCore;
  dg_projected_at : option StoredTime;
  dg_input_cleanup_started_at : option StoredTime;
  dg_input_pair_removed_at : option StoredTime;
  dg_diagnostic_cleanup_started_at : option StoredTime;
  dg_diagnostic_file_removed_at : option StoredTime
}.

(** The tables of the mailbox.  The two reference tables map an exchange to its
    command; the cleanups of event files are keyed by mailbox and command, the
    work items also by [is_remote], the diagnostics by mailbox and request.  The
    registry and the retirements map a mailbox to its root. *)
Record MailboxTables : Type := mkMailboxTables {
  mb_exchanges : gmap string ExchangeRow;
  mb_event_file_references : gmap string string;
  mb_remote_event_file_references : gmap string string;
  mb_event_file_cleanup : gmap (string * string) EventFileCleanupRow;
  mb_remote_event_file_cleanup : gmap (string * string) EventFileCleanupRow;
  mb_event_cleanup_work : gmap (string * string * bool) CleanupWorkRow;
  mb_event_cleanup_work_cursor : gmap string (string * Z);
  mb_ingress_diagnostics : gmap (string * string) DiagnosticRow;
  mb_configuration_registry : gmap string (string * StoredTime);
  mb_configuration_retirements : gmap string (string * StoredTime)
}.
Definition empty_mailbox : MailboxTables := mkMailboxTables ∅ ∅ ∅ ∅ ∅ ∅ ∅ ∅ ∅ ∅.

(** ** The tables *)
Record Mirror : Type := mkMirror {
  local_remote_session_projections : gmap string RemoteSessionRow;
  local_remote_command_projections : gmap string RemoteCommandRow;
  local_remote_job_projections : gmap string RemoteJobRow;
  local_remote_events : gmap string (list EventRow);
  local_remote_event_cursors : gmap string CursorRow;
  local_remote_event_gaps : gmap string GapRow;
  local_intents : gmap string IntentRow;
  local_intent_lifecycle : gmap string (list IntentLifecycleRow);
  local_idempotency : gmap IdemKey LocalIdempotencyRow;
  local_remote_status_failures : gmap string StatusFailureRow;
  mailbox : MailboxTables
}.

Definition mailbox_exchanges (m : Mirror) := mb_exchanges (mailbox m).
Definition mailbox_event_file_references (m : Mirror) := mb_event_file_references (mailbox m).
Definition mailbox_remote_event_file_references (m : Mirror) := mb_remote_event_file_references (mailbox m).
Definition mailbox_event_file_cleanup (m : Mirror) := mb_event_file_cleanup (mailbox m).
Definition mailbox_ingress_diagnostics (m : Mirror) := mb_ingress_diagnostics (mailbox m).

Definition empty_mirror : Mirror := mkMirror ∅ ∅ ∅ ∅ ∅ ∅ ∅ ∅ ∅ ∅ empty_mailbox.

(** One setter per table. *)
Definition set_remote_sessions t (m : Mirror) : Mirror := mkMirror t (local_remote_command_projections m)
    (local_remote_job_projections m) (local_remote_events m) (local_remote_event_cursors m) (local_remote_event_gaps
    m) (local_intents m) (local_intent_lifecycle m) (local_idempotency m) (local_remote_status_failures m) (mailbox
    m).
Definition set_remote_commands t (m : Mirror) : Mirror := mkMirror (local_remote_session_projections m) t
    (local_remote_job_projections m) (local_remote_events m) (local_remote_event_cursors m) (local_remote_event_gaps
    m) (local_intents m) (local_intent_lifecycle m) (local_idempotency m) (local_remote_status_failures m) (mailbox
    m).
Definition set_remote_jobs t (m : Mirror) : Mirror := mkMirror (local_remote_session_projections m)
    (local_remote_command_projections m) t (local_remote_events m) (local_remote_event_cursors m)
    (local_remote_event_gaps m) (local_intents m) (local_intent_lifecycle m) (local_idempotency m)
    (local_remote_status_failures m) (mailbox m).
Definition set_remote_events t (m : Mirror) : Mirror := mkMirror (local_remote_session_projections m)
    (local_remote_command_projections m) (local_remote_job_projections m) t (local_remote_event_cursors m)
    (local_remote_event_gaps m) (local_intents m) (local_intent_lifecycle m) (local_idempotency m)
    (local_remote_status_failures m) (mailbox m).
Definition set_cursors t (m : Mirror) : Mirror := mkMirror (local_remote_session_projections m)
    (local_remote_command_projections m) (local_remote_job_projections m) (local_remote_events m) t
    (local_remote_event_gaps m) (local_intents m) (local_intent_lifecycle m) (local_idempotency m)
    (local_remote_status_failures m) (mailbox m).
Definition set_gaps t (m : Mirror) : Mirror := mkMirror (local_remote_session_projections m)
    (local_remote_command_projections m) (local_remote_job_projections m) (local_remote_events m)
    (local_remote_event_cursors m) t (local_intents m) (local_intent_lifecycle m) (local_idempotency m)
    (local_remote_status_failures m) (mailbox m).
Definition set_intents t (m : Mirror) : Mirror := mkMirror (local_remote_session_projections m)
    (local_remote_command_projections m) (local_remote_job_projections m) (local_remote_events m)
    (local_remote_event_cursors m) (local_remote_event_gaps m) t (local_intent_lifecycle m) (local_idempotency m)
    (local_remote_status_failures m) (mailbox m).
Definition set_intent_lifecycle t (m : Mirror) : Mirror := mkMirror (local_remote_session_projections m)
    (local_remote_command_projections m) (local_remote_job_projections m) (local_remote_events m)
    (local_remote_event_cursors m) (local_remote_event_gaps m) (local_intents m) t (local_idempotency m)
    (local_remote_status_failures m) (mailbox m).
Definition set_local_idempotency t (m : Mirror) : Mirror := mkMirror (local_remote_session_projections m)
    (local_remote_command_projections m) (local_remote_job_projections m) (local_remote_events m)
    (local_remote_event_cursors m) (local_remote_event_gaps m) (local_intents m) (local_intent_lifecycle m) t
    (local_remote_status_failures m) (mailbox m).
Definition set_status_failures t (m : Mirror) : Mirror := mkMirror (local_remote_session_projections m)
    (local_remote_command_projections m) (local_remote_job_projections m) (local_remote_events m)
    (local_remote_event_cursors m) (local_remote_event_gaps m) (local_intents m) (local_intent_lifecycle m)
    (local_idempotency m) t (mailbox m).
Definition set_mailbox t (m : Mirror) : Mirror := mkMirror (local_remote_session_projections m)
    (local_remote_command_projections m) (local_remote_job_projections m) (local_remote_events m)
    (local_remote_event_cursors m) (local_remote_event_gaps m) (local_intents m) (local_intent_lifecycle m)
    (local_idempotency m) (local_remote_status_failures m) t.

Definition set_exchanges t (b : MailboxTables) : MailboxTables := mkMailboxTables t (mb_event_file_references b)
    (mb_remote_event_file_references b) (mb_event_file_cleanup b) (mb_remote_event_file_cleanup b)
    (mb_event_cleanup_work b) (mb_event_cleanup_work_cursor b) (mb_ingress_diagnostics b) (mb_configuration_registry
    b) (mb_configuration_retirements b).
Definition set_references t (b : MailboxTables) : MailboxTables := mkMailboxTables (mb_exchanges b) t
    (mb_remote_event_file_references b) (mb_event_file_cleanup b) (mb_remote_event_file_cleanup b)
    (mb_event_cleanup_work b) (mb_event_cleanup_work_cursor b) (mb_ingress_diagnostics b) (mb_configuration_registry
    b) (mb_configuration_retirements b).
Definition set_remote_references t (b : MailboxTables) : MailboxTables := mkMailboxTables (mb_exchanges b)
    (mb_event_file_references b) t (mb_event_file_cleanup b) (mb_remote_event_file_cleanup b) (mb_event_cleanup_work
    b) (mb_event_cleanup_work_cursor b) (mb_ingress_diagnostics b) (mb_configuration_registry b)
    (mb_configuration_retirements b).
Definition set_file_cleanup t (b : MailboxTables) : MailboxTables := mkMailboxTables (mb_exchanges b)
    (mb_event_file_references b) (mb_remote_event_file_references b) t (mb_remote_event_file_cleanup b)
    (mb_event_cleanup_work b) (mb_event_cleanup_work_cursor b) (mb_ingress_diagnostics b) (mb_configuration_registry
    b) (mb_configuration_retirements b).
Definition set_remote_file_cleanup t (b : MailboxTables) : MailboxTables := mkMailboxTables (mb_exchanges b)
    (mb_event_file_references b) (mb_remote_event_file_references b) (mb_event_file_cleanup b) t
    (mb_event_cleanup_work b) (mb_event_cleanup_work_cursor b) (mb_ingress_diagnostics b) (mb_configuration_registry
    b) (mb_configuration_retirements b).
Definition set_cleanup_work t (b : MailboxTables) : MailboxTables := mkMailboxTables (mb_exchanges b)
    (mb_event_file_references b) (mb_remote_event_file_references b) (mb_event_file_cleanup b)
    (mb_remote_event_file_cleanup b) t (mb_event_cleanup_work_cursor b) (mb_ingress_diagnostics b)
    (mb_configuration_registry b) (mb_configuration_retirements b).
Definition set_work_cursor t (b : MailboxTables) : MailboxTables := mkMailboxTables (mb_exchanges b)
    (mb_event_file_references b) (mb_remote_event_file_references b) (mb_event_file_cleanup b)
    (mb_remote_event_file_cleanup b) (mb_event_cleanup_work b) t (mb_ingress_diagnostics b) (mb_configuration_registry
    b) (mb_configuration_retirements b).
Definition set_ingress_diagnostics t (b : MailboxTables) : MailboxTables := mkMailboxTables (mb_exchanges b)
    (mb_event_file_references b) (mb_remote_event_file_references b) (mb_event_file_cleanup b)
    (mb_remote_event_file_cleanup b) (mb_event_cleanup_work b) (mb_event_cleanup_work_cursor b) t
    (mb_configuration_registry b) (mb_configuration_retirements b).
Definition set_registry t (b : MailboxTables) : MailboxTables := mkMailboxTables (mb_exchanges b)
    (mb_event_file_references b) (mb_remote_event_file_references b) (mb_event_file_cleanup b)
    (mb_remote_event_file_cleanup b) (mb_event_cleanup_work b) (mb_event_cleanup_work_cursor b)
    (mb_ingress_diagnostics b) t (mb_configuration_retirements b).
Definition set_retirements t (b : MailboxTables) : MailboxTables := mkMailboxTables (mb_exchanges b)
    (mb_event_file_references b) (mb_remote_event_file_references b) (mb_event_file_cleanup b)
    (mb_remote_event_file_cleanup b) (mb_event_cleanup_work b) (mb_event_cleanup_work_cursor b)
    (mb_ingress_diagnostics b) (mb_configuration_registry b) t.

Definition on_mailbox_tables (f : MailboxTables -> MailboxTables) (m : Mirror) : Mirror := set_mailbox (f (mailbox m)) m.
Definition set_diagnostics t : Mirror -> Mirror := on_mailbox_tables (set_ingress_diagnostics t).

(** A transaction on these tables. *)
Notation mtx := (stx Mirror).
Definition withMirrorTransaction {A} (m : Mirror) (body : mtx A) : result A * Mirror :=
  match body m with Ok (a, m') => (Ok a, m') | Err e => (Err e, m) end.
Definition withMirrorRead {A} (m : Mirror) (body : mtx A) : result A :=
  match body m with Ok (a, _) => Ok a | Err e => Err e end.

(** ** SQL statements

    The statements that several components run on a table: updates, deletions and
    existence tests with a condition, comparison of timestamp columns by their
    texts, and the transactions that span the tables of the authority and those
    of the controller. *)

(** [column <= ?] on texts *)
Definition stored_le_b (x y : StoredTime) : bool := bool_decide (stored_le x y).

(** [UPDATE t SET f WHERE p] and the affected rows. *)
Definition update_where {K A} `{Countable K} (p : K -> A -> bool) (f : A -> A) (t : gmap K A) : gmap K A :=
  map_imap (fun k r => Some (if p k r then f r else r)) t.
Definition rows_where {K A} `{Countable K} (p : K -> A -> bool) (t : gmap K A) : gmap K A :=
  filter (fun '(k, r) => p k r = true) t.
(** [DELETE FROM t WHERE p] *)
Definition delete_where {K A} `{Countable K} (p : K -> A -> bool) (t : gmap K A) : gmap K A :=
  filter (fun '(k, r) => p k r = false) t.
(** [EXISTS (SELECT 1 FROM t WHERE p)] *)
Definition exists_row {K A} `{Countable K} (p : K -> A -> bool) (t : gmap K A) : bool :=
  existsb (fun '(k, r) => p k r) (map_to_list t).

(** A transaction on the authority tables and the mirror. *)
Notation gtx := (stx (DB * Mirror)).
Definition on_db {A} (m : tx A) : gtx A := fun s =>
  match m (fst s) with Ok (a, d) => Ok (a, (d, snd s)) | Err e => Err e end.
Definition on_mirror (f : Mirror -> Mirror) : gtx unit := modify (fun s => (fst s, f (snd s))).
Definition on_tables {A} (m : mtx A) : gtx A := fun s =>
  match m (snd s) with Ok (a, t) => Ok (a, (fst s, t)) | Err e => Err e end.
