(* ===== verification/RemoteProjections.v ===== *)
(** * Projections of remote sessions, commands and jobs

    Models [src/src/internal/store/remote_projections.go] and the first half of
    [src/src/internal/store/remote_jobs.go]: the values of a projection, their
    validation, the identity a projection keeps for ever, and the reads.  The
    operations that write projections are in RemoteUpserts.v, after the event
    gaps that they consult. *)
From S2P Require Import Prelude GoStrings Identity Lifecycle Policy JsonText LaneAdmission Db.
From S2P Require Import RemoteDb.

Record RemoteSessionProjection : Type := mkRemoteSessionProjection {
  sp_SessionID : string;
  sp_Target : ExecutionTarget;
  sp_Controller : ControllerIdentity;
  sp_State : SessionState;
  sp_Environment : string;
  sp_Source : Source;
  sp_ResolvedRevision : string;
  sp_RuntimeGeneration : string;
  sp_Capabilities : RemoteCapabilities;
  sp_ObservedAt : Z;
  sp_IsStale : bool
}.

Record RemoteCommandProjection : Type := mkRemoteCommandProjection {
  cp_CommandID : string;
  cp_SessionID : string;
  cp_Ordinal : Z;
  cp_State : CommandState;
  cp_ExitCode : option Z;
  cp_FinalEventSequence : option Z;
  cp_OutputComplete : bool;
  cp_OutputTruncated : bool;
  cp_OutputUnavailableReason : string;
  cp_Target : ExecutionTarget;
  cp_Controller : ControllerIdentity;
  cp_Environment : string;
  cp_Source : Source;
  cp_Capabilities : RemoteCapabilities;
  cp_ObservedAt : Z;
  cp_IsStale : bool
}.

Record RemoteJobProjection : Type := mkRemoteJobProjection {
  jp_JobID : string;
  jp_SessionID : string;
  jp_CommandID : string;
  jp_Phase : JobPhase;
  jp_CommandState : option CommandState;
  jp_ExitCode : option Z;
  jp_FinalEventSequence : option Z;
  jp_OutputComplete : bool;
  jp_OutputTruncated : bool;
  jp_OutputUnavailableReason : string;
  jp_QueueBlockedReason : string;
  jp_TeardownState : JobTeardownState;
  jp_TeardownReason : string;
  jp_Target : ExecutionTarget;
  jp_Controller : ControllerIdentity;
  jp_Environment : string;
  jp_Source : Source;
  jp_Capabilities : RemoteCapabilities;
  jp_ObservedAt : Z;
  jp_IsStale : bool
}.

(** store/jobs.go *)
Definition queueBlockedReason : string := "lost_capacity_recovery_pending".

(** ** JSON columns *)
Definition marshalProjectionSource (source : Source) (resolvedRevision : string) : result projectionSourceJSON :=
  let source := if bool_decide (source_mode source = SourceModeOther "") then NewEmptySource else source in
  if bool_decide (source_mode source = SourceModeLocalWorktree) then Err ErrRemoteProjectionInvalid
  else Ok (mkProjectionSourceJSON (source_mode source) (source_repositoryAlias source) (source_requestedRevision source)
             resolvedRevision (source_path source)).

Definition unmarshalProjectionSource (input : projectionSourceJSON) : result Source :=
  match psj_Mode input with
  | SourceModeOther value => if is_empty value then Ok NewEmptySource else Err ErrRemoteProjectionInvalid
  | SourceModeEmpty => Ok NewEmptySource
  | SourceModeGitRevision => NewGitRevisionSource (psj_RepositoryAlias input) (psj_RequestedRevision input)
  | SourceModeLocalWorktree => Err ErrRemoteProjectionInvalid
  end.

Definition marshalRemoteCapabilities (capabilities : RemoteCapabilities) : result RemoteCapabilities :=
  if is_empty (TrimSpace (cap_HostClass capabilities)) || negb (bool_decide (cap_Isolation capabilities = "os_user"))
     || is_empty (TrimSpace (cap_EffectiveAccount capabilities)) || negb (is_Some_b (cap_ServiceLimits capabilities))
  then Err ErrRemoteProjectionInvalid
  else Ok capabilities.

(** Both texts are empty when the sources cannot be marshalled. *)
Definition source_text (source : Source) : option projectionSourceJSON :=
  match marshalProjectionSource source "" with Ok text => Some text | Err _ => None end.
Definition sourcesEqual (left right : Source) : bool := bool_decide (source_text left = source_text right).

(** ** Validation *)
Definition invalid_projection {A} (r : result A) : result A := result_map_err (fun _ => ErrRemoteProjectionInvalid) r.

Definition remote_target (target : ExecutionTarget) : result ExecutionTarget :=
  validated ← invalid_projection (NewExecutionTarget (target_kind target) (target_profile target));
  refuse_if (negb (bool_decide (target_kind validated = TargetKindRemote))) ErrRemoteProjectionInvalid;;
  Ok validated.

Definition validateRemoteSessionProjection (input : RemoteSessionProjection)
    : result (RemoteSessionProjection * projectionSourceJSON * RemoteCapabilities) :=
  id ← invalid_projection (NewSessionID (sp_SessionID input));
  target ← remote_target (sp_Target input);
  controller ← invalid_projection (NewControllerIdentity (controller_typeName (sp_Controller input)) (controller_id (sp_Controller input)));
  refuse_if (negb (SessionState_Valid (sp_State input)) || is_empty (TrimSpace (sp_Environment input))
             || IsZero (sp_ObservedAt input)) ErrRemoteProjectionInvalid;;
  sourceJSON ← marshalProjectionSource (sp_Source input) (sp_ResolvedRevision input);
  capabilitiesJSON ← marshalRemoteCapabilities (sp_Capabilities input);
  Ok (mkRemoteSessionProjection id target controller (sp_State input) (sp_Environment input) (sp_Source input)
        (sp_ResolvedRevision input) (sp_RuntimeGeneration input) capabilitiesJSON (sp_ObservedAt input) (sp_IsStale input),
      sourceJSON, capabilitiesJSON).

Definition final_missing (final : option Z) : bool := match final with Some n => n <=? 0 | None => true end.

Definition validateRemoteCommandProjection (input : RemoteCommandProjection)
    : result (RemoteCommandProjection * projectionSourceJSON * RemoteCapabilities) :=
  id ← invalid_projection (NewCommandID (cp_CommandID input));
  sessionID ← invalid_projection (NewSessionID (cp_SessionID input));
  target ← remote_target (cp_Target input);
  controller ← invalid_projection (NewControllerIdentity (controller_typeName (cp_Controller input)) (controller_id (cp_Controller input)));
  refuse_if ((cp_Ordinal input <=? 0) || negb (CommandState_Valid (cp_State input))
             || is_empty (TrimSpace (cp_Environment input)) || IsZero (cp_ObservedAt input)) ErrRemoteProjectionInvalid;;
  refuse_if (CommandState_IsTerminal (cp_State input) && final_missing (cp_FinalEventSequence input))
    ErrRemoteProjectionInvalid;;
  refuse_if (negb (cp_OutputComplete input) && CommandState_IsTerminal (cp_State input)
             && is_empty (TrimSpace (cp_OutputUnavailableReason input))) ErrRemoteProjectionInvalid;;
  sourceJSON ← marshalProjectionSource (cp_Source input) "";
  capabilitiesJSON ← marshalRemoteCapabilities (cp_Capabilities input);
  Ok (mkRemoteCommandProjection id sessionID (cp_Ordinal input) (cp_State input) (cp_ExitCode input)
        (cp_FinalEventSequence input) (cp_OutputComplete input) (cp_OutputTruncated input)
        (cp_OutputUnavailableReason input) target controller (cp_Environment input) (cp_Source input) capabilitiesJSON
        (cp_ObservedAt input) (cp_IsStale input), sourceJSON, capabilitiesJSON).

(** The only blocked shape: a queued one-off whose capacity recovery is pending. *)
Definition blocked_shape (input : RemoteJobProjection) : bool :=
  bool_decide (jp_QueueBlockedReason input = queueBlockedReason)
  && bool_decide (jp_Phase input = JobPhaseAwaitingCommand)
  && bool_decide (jp_CommandState input = Some CommandStateQueued)
  && negb (is_Some_b (jp_ExitCode input)) && negb (is_Some_b (jp_FinalEventSequence input))
  && negb (jp_OutputComplete input) && negb (jp_OutputTruncated input) && is_empty (jp_OutputUnavailableReason input)
  && bool_decide (jp_TeardownState input = JobTeardownPending) && is_empty (jp_TeardownReason input).

Definition validateRemoteJobProjection (input : RemoteJobProjection)
    : result (RemoteJobProjection * projectionSourceJSON * RemoteCapabilities) :=
  jobID ← invalid_projection (NewJobID (jp_JobID input));
  sessionID ← invalid_projection (NewSessionID (jp_SessionID input));
  commandID ← invalid_projection (NewCommandID (jp_CommandID input));
  target ← remote_target (jp_Target input);
  controller ← invalid_projection (NewControllerIdentity (controller_typeName (jp_Controller input)) (controller_id (jp_Controller input)));
  refuse_if (negb (JobPhase_Valid (jp_Phase input)) || negb (JobTeardownState_Valid (jp_TeardownState input))
             || is_empty (TrimSpace (jp_Environment input)) || IsZero (jp_ObservedAt input)) ErrRemoteProjectionInvalid;;
  refuse_if (match jp_CommandState input with Some state => negb (CommandState_Valid state) | None => false end)
    ErrRemoteProjectionInvalid;;
  refuse_if (negb (is_empty (jp_QueueBlockedReason input)) && negb (blocked_shape input)) ErrRemoteProjectionInvalid;;
  sourceJSON ← marshalProjectionSource (jp_Source input) "";
  capabilitiesJSON ← marshalRemoteCapabilities (jp_Capabilities input);
  Ok (mkRemoteJobProjection jobID sessionID commandID (jp_Phase input) (jp_CommandState input) (jp_ExitCode input)
        (jp_FinalEventSequence input) (jp_OutputComplete input) (jp_OutputTruncated input)
        (jp_OutputUnavailableReason input) (jp_QueueBlockedReason input) (jp_TeardownState input)
        (jp_TeardownReason input) target controller (jp_Environment input) (jp_Source input) capabilitiesJSON
        (jp_ObservedAt input) (jp_IsStale input), sourceJSON, capabilitiesJSON).

(** ** Identity *)
Definition validateRemoteSessionProjectionIdentity (stored incoming : RemoteSessionProjection) : result unit :=
  refuse_if (negb (bool_decide (sp_SessionID stored = sp_SessionID incoming) && bool_decide (sp_Target stored = sp_Target incoming)
                   && bool_decide (sp_Controller stored = sp_Controller incoming)
                   && bool_decide (sp_Environment stored = sp_Environment incoming)
                   && sourcesEqual (sp_Source stored) (sp_Source incoming))) ErrRemoteProjectionConflict.

Definition validateRemoteCommandProjectionIdentity (stored incoming : RemoteCommandProjection) : result unit :=
  refuse_if (negb (bool_decide (cp_CommandID stored = cp_CommandID incoming)
                   && bool_decide (cp_SessionID stored = cp_SessionID incoming)
                   && (cp_Ordinal stored =? cp_Ordinal incoming) && bool_decide (cp_Target stored = cp_Target incoming)
                   && bool_decide (cp_Controller stored = cp_Controller incoming)
                   && bool_decide (cp_Environment stored = cp_Environment incoming)
                   && sourcesEqual (cp_Source stored) (cp_Source incoming))) ErrRemoteProjectionConflict.

Definition validateRemoteJobProjectionIdentity (stored incoming : RemoteJobProjection) : result unit :=
  refuse_if (negb (bool_decide (jp_JobID stored = jp_JobID incoming) && bool_decide (jp_SessionID stored = jp_SessionID incoming)
                   && bool_decide (jp_CommandID stored = jp_CommandID incoming)
                   && bool_decide (jp_Target stored = jp_Target incoming)
                   && bool_decide (jp_Controller stored = jp_Controller incoming)
                   && bool_decide (jp_Environment stored = jp_Environment incoming)
                   && sourcesEqual (jp_Source stored) (jp_Source incoming))) ErrRemoteProjectionConflict.

(** ** Reads *)
Definition stored_controller (controller : ControllerIdentity) : result ControllerIdentity :=
  id ← invalid_projection (NewControllerID (controller_id controller));
  invalid_projection (NewControllerIdentity (controller_typeName controller) id).

Definition decodeRemoteSession (id : string) (row : RemoteSessionRow) : result RemoteSessionProjection :=
  target ← invalid_projection (NewExecutionTarget (target_kind (rs_target row)) (target_profile (rs_target row)));
  controller ← stored_controller (rs_controller row);
  source ← unmarshalProjectionSource (rs_source_json row);
  observedAt ← from_option Ok (Err ErrRemoteProjectionInvalid) (parseStoredTime (rs_observed_at row));
  let projection := mkRemoteSessionProjection id target controller (rs_session_state row) (rs_environment row) source
    (rs_resolved_revision row) (rs_runtime_generation row) (rs_capabilities_json row) observedAt (rs_is_stale row) in
  validateRemoteSessionProjection projection;;
  Ok projection.

Definition readRemoteSessionProjectionOnConnection (id : string) : mtx RemoteSessionProjection :=
  row ← query (fun m => local_remote_session_projections m !! id);
  row ← or_fail row ErrRemoteProjectionNotFound;
  lift (decodeRemoteSession id row).

Definition decodeRemoteCommand (id : string) (row : RemoteCommandRow) : result RemoteCommandProjection :=
  command ← invalid_projection (NewCommandID id);
  target ← invalid_projection (NewExecutionTarget (target_kind (rc_target row)) (target_profile (rc_target row)));
  session ← invalid_projection (NewSessionID (rc_session_id row));
  controller ← stored_controller (rc_controller row);
  source ← unmarshalProjectionSource (rc_source_json row);
  observedAt ← from_option Ok (Err ErrRemoteProjectionInvalid) (parseStoredTime (rc_observed_at row));
  let projection := mkRemoteCommandProjection command session (rc_ordinal row) (rc_command_state row) (rc_exit_code row)
    (rc_final_event_sequence row) (rc_output_complete row) (rc_output_truncated row) (rc_output_unavailable_reason row)
    target controller (rc_environment row) source (rc_capabilities_json row) observedAt (rc_is_stale row) in
  validateRemoteCommandProjection projection;;
  Ok projection.

Definition readRemoteCommandProjectionOnConnection (id : string) : mtx RemoteCommandProjection :=
  row ← query (fun m => local_remote_command_projections m !! id);
  row ← or_fail row ErrRemoteProjectionNotFound;
  lift (decodeRemoteCommand id row).

Definition decodeRemoteJob (id : string) (row : RemoteJobRow) : result RemoteJobProjection :=
  target ← invalid_projection (NewExecutionTarget (target_kind (rj_target row)) (target_profile (rj_target row)));
  session ← invalid_projection (NewSessionID (rj_session_id row));
  command ← invalid_projection (NewCommandID (rj_command_id row));
  controller ← stored_controller (rj_controller row);
  source ← unmarshalProjectionSource (rj_source_json row);
  observedAt ← from_option Ok (Err ErrRemoteProjectionInvalid) (parseStoredTime (rj_observed_at row));
  let projection := mkRemoteJobProjection id session command (rj_job_phase row) (rj_command_state row) (rj_exit_code row)
    (rj_final_event_sequence row) (rj_output_complete row) (rj_output_truncated row) (rj_output_unavailable_reason row)
    (rj_queue_blocked_reason row) (rj_teardown_state row) (rj_teardown_reason row) target controller
    (rj_environment row) source (rj_capabilities_json row) observedAt (rj_is_stale row) in
  validateRemoteJobProjection projection;;
  Ok projection.

Definition readRemoteJobProjectionOnConnection (id : string) : mtx RemoteJobProjection :=
  row ← query (fun m => local_remote_job_projections m !! id);
  row ← or_fail row ErrRemoteProjectionNotFound;
  lift (decodeRemoteJob id row).

Definition GetRemoteSessionProjection (m : Mirror) (id : string) : result RemoteSessionProjection :=
  validated ← NewSessionID id; withMirrorRead m (readRemoteSessionProjectionOnConnection validated).
Definition GetRemoteCommandProjection (m : Mirror) (id : string) : result RemoteCommandProjection :=
  validated ← NewCommandID id; withMirrorRead m (readRemoteCommandProjectionOnConnection validated).
Definition GetRemoteJobProjection (m : Mirror) (id : string) : result RemoteJobProjection :=
  validated ← NewJobID id; withMirrorRead m (readRemoteJobProjectionOnConnection validated).
