(* ===== verification/RemoteEvents.v ===== *)
(** * The mirror of remote events

    Models [src/src/internal/store/remote_events.go]: the durable copy a
    controller keeps of the event stream of a remote command, its cursor, and the
    record of a range of events that can no longer be fetched.  The fields of
    [RemoteEventRecord] are those of [CommandEventRecord]. *)
From S2P Require Import Prelude GoStrings Identity Lifecycle Policy JsonText LaneAdmission Db.
From S2P Require Import Sha256 Canonical AuditRecords AuditStore AdmissionStore Idempotency Sessions Commands.
From S2P Require Import RemoteDb RemoteProjections.

Notation RemoteEventRecord := CommandEventRecord.

Record RemoteEventLifecycle : Type := mkRemoteEventLifecycle {
  lc_Started : bool;
  lc_OutputTruncated : bool;
  lc_TerminalState : option CommandState
}.

Record RemoteEventPrefixSnapshot : Type := mkRemoteEventPrefixSnapshot {
  px_Cursor : Z;
  px_Lifecycle : RemoteEventLifecycle
}.

Record RemoteEventGapRecord : Type := mkRemoteEventGapRecord {
  gap_CommandID : string;
  gap_MissingFrom : Z;
  gap_MissingTo : Z;
  gap_AvailableSequence : Z;
  gap_FinalSequence : Z;
  gap_TerminalState : CommandState;
  gap_OutputComplete : bool;
  gap_OutputUnavailableReason : string;
  gap_ConfirmedAt : Z
}.

(** [Gap] is never set. *)
Record RemoteEventMirrorResult : Type := mkRemoteEventMirrorResult {
  mr_CommandID : string;
  mr_LastSequence : Z;
  mr_Mirrored : Z;
  mr_Duplicates : Z
}.

Definition remote_event_gap : string := "remote_event_gap".

(** ** The grammar of a stream *)
Definition validRemoteEventType (value : EventType) : bool :=
  match value with EventOther _ => false | _ => true end.

Definition remoteTerminalStateForEventType (value : EventType) : option CommandState :=
  match value with
  | command_succeeded => Some CommandStateSucceeded
  | command_failed => Some CommandStateFailed
  | command_cancelled => Some CommandStateCancelled
  | command_timed_out => Some CommandStateTimedOut
  | command_rejected => Some CommandStateRejected
  | command_lost => Some CommandStateLost
  | _ => None
  end.

Definition terminalStateRequiresStart (state : CommandState) : bool :=
  match state with
  | CommandStateSucceeded | CommandStateFailed | CommandStateTimedOut | CommandStateLost => true
  | CommandStateCancelled | CommandStateRejected => false
  | _ => true
  end.

(** [16<<10] *)
Definition maxRemoteEventPayload : Z := 16384.

Definition validateRemoteEventRecord (input : RemoteEventRecord) : result RemoteEventRecord :=
  commandID ← result_map_err (fun _ => ErrRemoteEventBatch) (NewCommandID (ev_CommandID input));
  refuse_if ((ev_Sequence input <=? 0) || negb (validRemoteEventType (ev_Type input)) || IsZero (ev_OccurredAt input))
    ErrRemoteEventBatch;;
  refuse_if (ev_ByteCount input <? 0) ErrRemoteEventBatch;;
  refuse_if (if is_output (ev_Type input)
             then (ev_ByteCount input <=? 0) || negb (go_len (ev_Payload input) =? ev_ByteCount input)
                  || (maxRemoteEventPayload <? go_len (ev_Payload input))
             else negb (go_len (ev_Payload input) =? 0) || negb (ev_ByteCount input =? 0)) ErrRemoteEventBatch;;
  Ok (mkCommandEventRecord commandID (ev_Sequence input) (ev_Type input) (ev_Payload input) (ev_ByteCount input)
        (ev_OccurredAt input)).

Fixpoint validateRemoteEventBatch (events : list RemoteEventRecord) : result (list RemoteEventRecord) :=
  match events with
  | [] => Ok []
  | input :: rest =>
      validated ← validateRemoteEventRecord input;
      others ← validateRemoteEventBatch rest;
      Ok (validated :: others)
  end.

(** The switch on the type of an event. *)
Definition inspectType (result : RemoteEventLifecycle) (type : EventType) : Prelude.result RemoteEventLifecycle :=
  match type with
  | command_queued => Ok result
  | command_started =>
      refuse_if (lc_Started result) ErrRemoteEventBatch;;
      Ok (mkRemoteEventLifecycle true (lc_OutputTruncated result) (lc_TerminalState result))
  | stdout | stderr => refuse_if (negb (lc_Started result)) ErrRemoteEventBatch;; Ok result
  | output_truncated =>
      refuse_if (negb (lc_Started result)) ErrRemoteEventBatch;;
      refuse_if (lc_OutputTruncated result) ErrRemoteEventBatch;;
      Ok (mkRemoteEventLifecycle (lc_Started result) true (lc_TerminalState result))
  | _ =>
      match remoteTerminalStateForEventType type with
      | None => Err ErrRemoteEventBatch
      | Some state =>
          refuse_if (bool_decide (state = CommandStateRejected) && lc_Started result) ErrRemoteEventBatch;;
          refuse_if (terminalStateRequiresStart state && negb (lc_Started result)) ErrRemoteEventBatch;;
          Ok (mkRemoteEventLifecycle (lc_Started result) (lc_OutputTruncated result) (Some state))
      end
  end.

(** The loop of [InspectRemoteEventLifecycle]; [first] is the command of the
    first event. *)
Fixpoint inspectEvents (index : Z) (first : string) (result : RemoteEventLifecycle) (events : list RemoteEventRecord)
    : Prelude.result RemoteEventLifecycle :=
  match events with
  | [] => Ok result
  | input :: rest =>
      event ← validateRemoteEventRecord input;
      let wantSequence := index + 1 in
      refuse_if (negb (ev_Sequence event =? wantSequence)) ErrRemoteEventGap;;
      let commandID := if index =? 0 then ev_CommandID event else first in
      refuse_if (if index =? 0 then negb (bool_decide (ev_Type event = command_queued))
                 else negb (bool_decide (ev_CommandID event = first)) || bool_decide (ev_Type event = command_queued))
        ErrRemoteEventBatch;;
      refuse_if (is_Some_b (lc_TerminalState result)) ErrRemoteEventTerminal;;
      next ← inspectType result (ev_Type event);
      inspectEvents wantSequence commandID next rest
  end.

Definition empty_lifecycle : RemoteEventLifecycle := mkRemoteEventLifecycle false false None.

Definition InspectRemoteEventLifecycle (events : list RemoteEventRecord) : result RemoteEventLifecycle :=
  inspectEvents 0 "" empty_lifecycle events.

(** ** Reads *)
Definition remoteEventCursorOnConnection (commandID : string) : mtx Z :=
  query (fun m => match local_remote_event_cursors m !! commandID with Some row => cu_last_sequence row | None => 0 end).

(** [scanRemoteEvent] *)
Definition scanRemoteEvent (commandID : string) (row : EventRow) : result RemoteEventRecord :=
  match parseStoredTime (e_occurred_at row) with
  | None => Err (ErrText "parse stored time")
  | Some t => Ok (mkCommandEventRecord commandID (e_sequence row) (e_type row) (e_payload row) (e_byte_count row) t)
  end.

Fixpoint scanRemoteEvents (commandID : string) (want : Z) (rows : list EventRow) : result (list RemoteEventRecord) :=
  match rows with
  | [] => Ok []
  | row :: rest =>
      event ← scanRemoteEvent commandID row;
      refuse_if (negb (ev_Sequence event =? want)) ErrRemoteEventGap;;
      others ← scanRemoteEvents commandID (want + 1) rest;
      Ok (event :: others)
  end.

Definition remote_events_after (afterSequence : Z) (commandID : string) (m : Mirror) : list EventRow :=
  merge_sort event_le (filter (fun r => afterSequence < e_sequence r) (rows_of (local_remote_events m) commandID)).

Definition readRemoteEventsOnConnection (commandID : string) (afterSequence : Z) : mtx (list RemoteEventRecord) :=
  rows ← query (remote_events_after afterSequence commandID);
  lift (scanRemoteEvents commandID (afterSequence + 1) rows).

(** A timestamp that cannot be read is the zero time. *)
Definition readRemoteEventOnConnection (commandID : string) (sequence : Z) : mtx RemoteEventRecord :=
  row ← query (fun m => List.find (fun r => e_sequence r =? sequence) (rows_of (local_remote_events m) commandID));
  row ← or_fail row ErrRemoteEventNotFound;
  mret (mkCommandEventRecord commandID sequence (e_type row) (e_payload row) (e_byte_count row)
          (default 0 (parseStoredTime (e_occurred_at row)))).

Definition last_sequence (events : list RemoteEventRecord) : option Z := ev_Sequence <$> last events.

Definition remoteEventPrefixOnConnection (commandID : string) (cursor : Z)
    : mtx (list RemoteEventRecord * RemoteEventLifecycle) :=
  events ← readRemoteEventsOnConnection commandID 0;
  fail_if (negb (Z.of_nat (length events) =? cursor)
           || ((0 <? cursor) && negb (bool_decide (last_sequence events = Some cursor)))) ErrRemoteEventGap;;
  lifecycle ← lift (InspectRemoteEventLifecycle events);
  mret (events, lifecycle).

Definition remoteEventPrefixHasTerminalOnConnection (commandID : string) (cursor : Z) : mtx bool :=
  prefix ← remoteEventPrefixOnConnection commandID cursor;
  mret (is_Some_b (lc_TerminalState (snd prefix))).

Definition GetRemoteEventCursor (m : Mirror) (commandID : string) : result Z :=
  validated ← NewCommandID commandID; withMirrorRead m (remoteEventCursorOnConnection validated).

Definition InspectRemoteEventPrefix (m : Mirror) (commandID : string) : result RemoteEventPrefixSnapshot :=
  validated ← NewCommandID commandID;
  withMirrorRead m
    (cursor ← remoteEventCursorOnConnection validated;
     prefix ← remoteEventPrefixOnConnection validated cursor;
     mret (mkRemoteEventPrefixSnapshot cursor (snd prefix))).

Definition ListRemoteEvents (m : Mirror) (commandID : string) (afterSequence : Z) : result (list RemoteEventRecord) :=
  validated ← NewCommandID commandID;
  refuse_if (afterSequence <? 0) ErrRemoteEventBatch;;
  withMirrorRead m
    (projection ← query (fun m => local_remote_command_projections m !! validated);
     fail_if (match projection with
              | Some row => bool_decide (rc_output_unavailable_reason row = "retention_expired")
              | None => false
              end) ErrRemoteEventRetentionExpired;;
     readRemoteEventsOnConnection validated afterSequence).

(** ** Gaps *)
Definition validateRemoteEventGap (input : RemoteEventGapRecord) : result RemoteEventGapRecord :=
  commandID ← result_map_err (fun _ => ErrRemoteGapRecord) (NewCommandID (gap_CommandID input));
  refuse_if ((gap_MissingFrom input <=? 0) || (gap_MissingTo input <? gap_MissingFrom input)
             || (gap_AvailableSequence input <? 0) || negb (gap_AvailableSequence input =? gap_MissingFrom input - 1)
             || (gap_FinalSequence input <? gap_MissingTo input)) ErrRemoteGapRecord;;
  refuse_if (negb (CommandState_Valid (gap_TerminalState input)) || negb (CommandState_IsTerminal (gap_TerminalState input)))
    ErrRemoteGapRecord;;
  refuse_if (gap_OutputComplete input || negb (bool_decide (gap_OutputUnavailableReason input = remote_event_gap)))
    ErrRemoteGapRecord;;
  refuse_if (IsZero (gap_ConfirmedAt input)) ErrRemoteGapRecord;;
  Ok (mkRemoteEventGapRecord commandID (gap_MissingFrom input) (gap_MissingTo input) (gap_AvailableSequence input)
        (gap_FinalSequence input) (gap_TerminalState input) (gap_OutputComplete input)
        (gap_OutputUnavailableReason input) (gap_ConfirmedAt input)).

Definition decodeGap (commandID : string) (row : GapRow) : result RemoteEventGapRecord :=
  confirmedAt ← from_option Ok (Err ErrRemoteGapRecord) (parseStoredTime (g_confirmed_at row));
  validateRemoteEventGap (mkRemoteEventGapRecord commandID (g_missing_from row) (g_missing_to row)
    (g_available_sequence row) (g_final_sequence row) (g_terminal_state row) (g_output_complete row)
    (g_output_unavailable_reason row) confirmedAt).

Definition readRemoteEventGapOnConnection (commandID : string) : mtx RemoteEventGapRecord :=
  row ← query (fun m => local_remote_event_gaps m !! commandID);
  row ← or_fail row ErrRemoteGapNotFound;
  lift (decodeGap commandID row).

(** [readRemoteEventGapOnConnection] where the caller tests for ErrRemoteGapNotFound. *)
Definition lookupRemoteEventGap (commandID : string) : mtx (option RemoteEventGapRecord) := fun m =>
  match readRemoteEventGapOnConnection commandID m with
  | Ok (gap, m') => Ok (Some gap, m')
  | Err e => if errors_is e ErrRemoteGapNotFound then Ok (None, m) else Err e
  end.

Definition sameRemoteEventGap (left right : RemoteEventGapRecord) : bool :=
  bool_decide (gap_CommandID left = gap_CommandID right) && (gap_MissingFrom left =? gap_MissingFrom right)
  && (gap_MissingTo left =? gap_MissingTo right) && (gap_AvailableSequence left =? gap_AvailableSequence right)
  && (gap_FinalSequence left =? gap_FinalSequence right)
  && bool_decide (gap_TerminalState left = gap_TerminalState right)
  && negb (gap_OutputComplete left) && negb (gap_OutputComplete right)
  && bool_decide (gap_OutputUnavailableReason left = gap_OutputUnavailableReason right).

Definition validateProjectionAgainstRemoteEventGap (state : CommandState) (final : option Z) (gap : RemoteEventGapRecord)
    : result unit :=
  refuse_if (negb (CommandState_IsTerminal state) || negb (bool_decide (state = gap_TerminalState gap))
             || negb (bool_decide (final = Some (gap_FinalSequence gap)))) ErrRemoteGapConflict.

Definition command_gap_output (r : RemoteCommandRow) : RemoteCommandRow :=
  mkRemoteCommandRow (rc_session_id r) (rc_ordinal r) (rc_command_state r) (rc_exit_code r) (rc_final_event_sequence r)
    false (rc_output_truncated r) remote_event_gap (rc_target r) (rc_controller r) (rc_environment r)
    (rc_source_json r) (rc_capabilities_json r) (rc_observed_at r) (rc_is_stale r).
Definition job_gap_output (r : RemoteJobRow) : RemoteJobRow :=
  mkRemoteJobRow (rj_session_id r) (rj_command_id r) (rj_job_phase r) (rj_command_state r) (rj_exit_code r)
    (rj_final_event_sequence r) false (rj_output_truncated r) remote_event_gap (rj_queue_blocked_reason r)
    (rj_teardown_state r) (rj_teardown_reason r) (rj_target r) (rj_controller r) (rj_environment r)
    (rj_source_json r) (rj_capabilities_json r) (rj_observed_at r) (rj_is_stale r).

Definition update_remote_command (id : string) (f : RemoteCommandRow -> RemoteCommandRow) : mtx unit :=
  modify (fun m => set_remote_commands (alter f id (local_remote_command_projections m)) m).
Definition update_remote_job (id : string) (f : RemoteJobRow -> RemoteJobRow) : mtx unit :=
  modify (fun m => set_remote_jobs (alter f id (local_remote_job_projections m)) m).

Definition normalizeCommandForGap (gap : RemoteEventGapRecord) : mtx unit := fun m =>
  match readRemoteCommandProjectionOnConnection (gap_CommandID gap) m with
  | Err e => if errors_is e ErrRemoteProjectionNotFound then Ok (tt, m) else Err e
  | Ok (command, m') =>
      (lift (validateProjectionAgainstRemoteEventGap (cp_State command) (cp_FinalEventSequence command) gap);;
       update_remote_command (gap_CommandID gap) command_gap_output) m'
  end.

Fixpoint normalizeJobsForGap (gap : RemoteEventGapRecord) (jobIDs : list string) : mtx unit :=
  match jobIDs with
  | [] => mret tt
  | jobID :: rest =>
      job ← readRemoteJobProjectionOnConnection jobID;
      state ← or_fail (jp_CommandState job) ErrRemoteGapConflict;
      lift (validateProjectionAgainstRemoteEventGap state (jp_FinalEventSequence job) gap);;
      update_remote_job jobID job_gap_output;;
      normalizeJobsForGap gap rest
  end.

Definition jobs_of_remote_command (commandID : string) (m : Mirror) : list string :=
  (filter (fun '(_, r) => rj_command_id r = commandID) (map_to_list (local_remote_job_projections m))).*1.

Fixpoint newJobIDs (ids : list string) : result (list string) :=
  match ids with
  | [] => Ok []
  | id :: rest => jobID ← NewJobID id; others ← newJobIDs rest; Ok (jobID :: others)
  end.

Definition normalizeStoredRemoteProjectionsForEventGap (gap : RemoteEventGapRecord) : mtx unit :=
  normalizeCommandForGap gap;;
  ids ← query (jobs_of_remote_command (gap_CommandID gap));
  jobIDs ← lift (newJobIDs ids);
  normalizeJobsForGap gap jobIDs.

Definition gap_row (gap : RemoteEventGapRecord) : GapRow :=
  mkGapRow (gap_MissingFrom gap) (gap_MissingTo gap) (gap_AvailableSequence gap) (gap_FinalSequence gap)
    (gap_TerminalState gap) false remote_event_gap (formatStoredTime (gap_ConfirmedAt gap)).

Definition gap_checks (commandID : string) (row : GapRow) : bool :=
  sql_length_pos commandID && (0 <? g_missing_from row) && (g_missing_from row <=? g_missing_to row)
  && (0 <=? g_available_sequence row) && (g_missing_to row <=? g_final_sequence row)
  && CommandState_IsTerminal (g_terminal_state row) && negb (g_output_complete row)
  && bool_decide (g_output_unavailable_reason row = remote_event_gap).

Definition insert_gap (commandID : string) (row : GapRow) : mtx unit :=
  refused ← query (fun m => is_Some_b (local_remote_event_gaps m !! commandID) || negb (gap_checks commandID row));
  fail_if refused (ErrSQL "insert remote event gap");;
  modify (fun m => set_gaps (<[commandID := row]> (local_remote_event_gaps m)) m).

Definition RecordRemoteEventGap (m : Mirror) (input : RemoteEventGapRecord) : result RemoteEventGapRecord * Mirror :=
  match validateRemoteEventGap input with
  | Err e => (Err e, m)
  | Ok validated =>
      withMirrorTransaction m
        (cursor ← remoteEventCursorOnConnection (gap_CommandID validated);
         fail_if (negb (cursor =? gap_AvailableSequence validated)) ErrRemoteGapConflict;;
         terminal ← remoteEventPrefixHasTerminalOnConnection (gap_CommandID validated) cursor;
         fail_if terminal ErrRemoteGapConflict;;
         stored ← lookupRemoteEventGap (gap_CommandID validated);
         match stored with
         | Some gap => fail_if (negb (sameRemoteEventGap gap validated)) ErrRemoteGapConflict;; mret gap
         | None =>
             normalizeStoredRemoteProjectionsForEventGap validated;;
             insert_gap (gap_CommandID validated) (gap_row validated);;
             mret validated
         end)
  end.

Definition GetRemoteEventGap (m : Mirror) (commandID : string) : result RemoteEventGapRecord :=
  validated ← NewCommandID commandID; withMirrorRead m (readRemoteEventGapOnConnection validated).

(** ** Mirroring *)
Definition sameRemoteEvent (left right : RemoteEventRecord) : bool :=
  bool_decide (ev_CommandID left = ev_CommandID right) && (ev_Sequence left =? ev_Sequence right)
  && bool_decide (ev_Type left = ev_Type right) && (ev_ByteCount left =? ev_ByteCount right)
  && (ev_OccurredAt left =? ev_OccurredAt right) && bool_decide (ev_Payload left = ev_Payload right).

Definition remote_event_row (event : RemoteEventRecord) : EventRow :=
  mkEventRow (ev_Sequence event) (ev_Type event) (ev_Payload event) (ev_ByteCount event)
    (formatStoredTime (ev_OccurredAt event)).

Definition remote_event_checks (commandID : string) (row : EventRow) : bool :=
  sql_length_pos commandID && (0 <? e_sequence row) && (0 <=? e_byte_count row)
  && match e_type row with EventOther value => sql_length_pos value | _ => true end.

Definition insert_remote_event (commandID : string) (row : EventRow) : mtx unit :=
  refused ← query (fun m =>
    existsb (fun r => e_sequence r =? e_sequence row) (rows_of (local_remote_events m) commandID)
    || negb (remote_event_checks commandID row));
  fail_if refused (ErrSQL "insert remote event");;
  modify (fun m => set_remote_events
    (<[commandID := rows_of (local_remote_events m) commandID ++ [row]]> (local_remote_events m)) m).

(** The loop over the batch: the prefix mirrored so far, its lifecycle, and the
    counts of the result. *)
Fixpoint mirrorEvents (commandID : string) (last : Z) (prefix : list RemoteEventRecord) (lifecycle : RemoteEventLifecycle)
    (mirrored duplicates : Z) (events : list RemoteEventRecord) : mtx (Z * Z * Z) :=
  match events with
  | [] => mret (last, mirrored, duplicates)
  | event :: rest =>
      fail_if (negb (bool_decide (ev_CommandID event = commandID))) ErrRemoteEventBatch;;
      if ev_Sequence event <=? last then
        stored ← (fun m => match readRemoteEventOnConnection (ev_CommandID event) (ev_Sequence event) m with
                           | Err e => Err (if errors_is e ErrRemoteEventNotFound then ErrRemoteEventGap else e)
                           | ok => ok
                           end);
        fail_if (negb (sameRemoteEvent stored event)) ErrRemoteEventConflict;;
        mirrorEvents commandID last prefix lifecycle mirrored (duplicates + 1) rest
      else
        fail_if (negb (ev_Sequence event =? last + 1)) ErrRemoteEventGap;;
        fail_if (is_Some_b (lc_TerminalState lifecycle)) ErrRemoteEventTerminal;;
        let candidate := prefix ++ [event] in
        candidateLifecycle ← lift (InspectRemoteEventLifecycle candidate);
        insert_remote_event (ev_CommandID event) (remote_event_row event);;
        mirrorEvents commandID (ev_Sequence event) candidate candidateLifecycle (mirrored + 1) duplicates rest
  end.

Definition upsert_cursor (commandID : string) (last now : Z) : mtx unit :=
  fail_if (negb (sql_length_pos commandID) || (last <? 0)) (ErrSQL "advance remote event cursor");;
  modify (fun m => set_cursors (<[commandID := mkCursorRow last (formatStoredTime now)]> (local_remote_event_cursors m)) m).

Definition MirrorRemoteEvents (m : Mirror) (now : Z) (events : list RemoteEventRecord) : result RemoteEventMirrorResult * Mirror :=
  if is_nil events then (Err ErrRemoteEventBatch, m)
  else
  match validateRemoteEventBatch events with
  | Err e => (Err e, m)
  | Ok [] => (Err ErrRemoteEventBatch, m)
  | Ok ((first :: _) as validated) =>
      let commandID := ev_CommandID first in
      withMirrorTransaction m
        (gap ← lookupRemoteEventGap commandID;
         fail_if (is_Some_b gap) ErrRemoteGapConflict;;
         last ← remoteEventCursorOnConnection commandID;
         prefix ← remoteEventPrefixOnConnection commandID last;
         done ← mirrorEvents commandID last (fst prefix) (snd prefix) 0 0 validated;
         let '(last, mirrored, duplicates) := done in
         (if 0 <? mirrored then upsert_cursor commandID last now else mret tt);;
         mret (mkRemoteEventMirrorResult commandID last mirrored duplicates))
  end.
