(* ===== verification/RemoteUpserts.v ===== *)
(** * Writing projections of remote execution

    Models the operations of [src/src/internal/store/remote_projections.go] and
    [src/src/internal/store/remote_jobs.go] that write a projection or read it
    together with its events.  A projection keeps its identity, an older
    observation never replaces a newer one, and a confirmed event gap decides
    what is said about the output. *)
From S2P Require Import Prelude GoStrings Identity Lifecycle Policy JsonText LaneAdmission Db.
From S2P Require Import Sha256 Canonical AuditRecords AuditStore AdmissionStore Idempotency Sessions Commands.
From S2P Require Import RemoteDb RemoteProjections RemoteEvents.

(** ** Statements *)
Definition common_checks (id : string) (target : ExecutionTarget) (controller : ControllerIdentity) (environment : string) : bool :=
  sql_length_pos id && bool_decide (target_kind target = TargetKindRemote) && sql_length_pos (target_profile target)
  && sql_length_pos (ControllerType_text (controller_typeName controller)) && sql_length_pos (controller_id controller)
  && sql_length_pos environment.

Definition positive_or_null (n : option Z) : bool := match n with Some n => 0 <? n | None => true end.

Definition remote_session_checks (id : string) (r : RemoteSessionRow) : bool :=
  common_checks id (rs_target r) (rs_controller r) (rs_environment r) && SessionState_Valid (rs_session_state r).

Definition remote_command_checks (id : string) (r : RemoteCommandRow) : bool :=
  common_checks id (rc_target r) (rc_controller r) (rc_environment r) && sql_length_pos (rc_session_id r)
  && (0 <? rc_ordinal r) && CommandState_Valid (rc_command_state r) && positive_or_null (rc_final_event_sequence r).

Definition remote_job_checks (id : string) (r : RemoteJobRow) : bool :=
  common_checks id (rj_target r) (rj_controller r) (rj_environment r) && sql_length_pos (rj_session_id r)
  && sql_length_pos (rj_command_id r) && JobPhase_Valid (rj_job_phase r)
  && positive_or_null (rj_final_event_sequence r) && JobTeardownState_Valid (rj_teardown_state r)
  && (is_empty (rj_queue_blocked_reason r) || bool_decide (rj_queue_blocked_reason r = queueBlockedReason)).

(** An INSERT of a fresh row or an UPDATE of all its columns. *)
Definition write_remote_session (id : string) (r : RemoteSessionRow) : mtx unit :=
  fail_if (negb (remote_session_checks id r)) (ErrSQL "write remote session projection");;
  modify (fun m => set_remote_sessions (<[id := r]> (local_remote_session_projections m)) m).
Definition write_remote_command (id : string) (r : RemoteCommandRow) : mtx unit :=
  fail_if (negb (remote_command_checks id r)) (ErrSQL "write remote command projection");;
  modify (fun m => set_remote_commands (<[id := r]> (local_remote_command_projections m)) m).
Definition write_remote_job (id : string) (r : RemoteJobRow) : mtx unit :=
  fail_if (negb (remote_job_checks id r)) (ErrSQL "write remote job projection");;
  modify (fun m => set_remote_jobs (<[id := r]> (local_remote_job_projections m)) m).

(** A read where the caller tests for ErrRemoteProjectionNotFound. *)
Definition lookup_projection {A} (read : mtx A) : mtx (option A) := fun m =>
  match read m with
  | Ok (a, m') => Ok (Some a, m')
  | Err e => if errors_is e ErrRemoteProjectionNotFound then Ok (None, m) else Err e
  end.

(** ** Sessions *)
Definition new_session_projection (p : RemoteSessionProjection) (source : projectionSourceJSON) (capabilities : RemoteCapabilities)
    : RemoteSessionRow :=
  mkRemoteSessionRow (sp_Target p) (sp_Controller p) (sp_State p) (sp_Environment p) source capabilities
    (sp_RuntimeGeneration p) (sp_ResolvedRevision p) (formatStoredTime (sp_ObservedAt p)) (sp_IsStale p).

Definition updated_session_projection (p : RemoteSessionProjection) (capabilities : RemoteCapabilities) (r : RemoteSessionRow)
    : RemoteSessionRow :=
  mkRemoteSessionRow (rs_target r) (rs_controller r) (sp_State p) (rs_environment r) (rs_source_json r) capabilities
    (sp_RuntimeGeneration p) (sp_ResolvedRevision p) (formatStoredTime (sp_ObservedAt p)) (sp_IsStale p).

Definition UpsertRemoteSessionProjection (m : Mirror) (input : RemoteSessionProjection)
    : result RemoteSessionProjection * Mirror :=
  match validateRemoteSessionProjection input with
  | Err e => (Err e, m)
  | Ok (validated, sourceJSON, capabilitiesJSON) =>
      let id := sp_SessionID validated in
      withMirrorTransaction m
        (stored ← lookup_projection (readRemoteSessionProjectionOnConnection id);
         match stored with
         | None => write_remote_session id (new_session_projection validated sourceJSON capabilitiesJSON);; mret validated
         | Some stored =>
             lift (validateRemoteSessionProjectionIdentity stored validated);;
             if sp_ObservedAt validated <? sp_ObservedAt stored then mret stored
             else
               row ← query (fun m => local_remote_session_projections m !! id);
               row ← or_fail row ErrRemoteProjectionNotFound;
               write_remote_session id (updated_session_projection validated capabilitiesJSON row);;
               mret validated
         end)
  end.

Definition session_stale (r : RemoteSessionRow) : RemoteSessionRow :=
  mkRemoteSessionRow (rs_target r) (rs_controller r) (rs_session_state r) (rs_environment r) (rs_source_json r)
    (rs_capabilities_json r) (rs_runtime_generation r) (rs_resolved_revision r) (rs_observed_at r) true.

Definition MarkRemoteSessionProjectionStale (m : Mirror) (id : string) : result unit * Mirror :=
  match NewSessionID id with
  | Err e => (Err e, m)
  | Ok validated =>
      withMirrorTransaction m
        (row ← query (fun m => local_remote_session_projections m !! validated);
         row ← or_fail row ErrRemoteProjectionNotFound;
         modify (fun m => set_remote_sessions (<[validated := session_stale row]> (local_remote_session_projections m)) m))
  end.

(** ** Commands *)
Definition with_command_output (complete : bool) (reason : string) (p : RemoteCommandProjection) : RemoteCommandProjection :=
  mkRemoteCommandProjection (cp_CommandID p) (cp_SessionID p) (cp_Ordinal p) (cp_State p) (cp_ExitCode p)
    (cp_FinalEventSequence p) complete (cp_OutputTruncated p) reason (cp_Target p) (cp_Controller p) (cp_Environment p)
    (cp_Source p) (cp_Capabilities p) (cp_ObservedAt p) (cp_IsStale p).

(** store/remote_events.go *)
Definition normalizeIncomingRemoteCommandProjectionForEventGap (input : RemoteCommandProjection)
    : mtx RemoteCommandProjection :=
  gap ← lookupRemoteEventGap (cp_CommandID input);
  match gap with
  | None => mret input
  | Some gap =>
      lift (validateProjectionAgainstRemoteEventGap (cp_State input) (cp_FinalEventSequence input) gap);;
      mret (with_command_output false remote_event_gap input)
  end.

Definition new_command_projection (p : RemoteCommandProjection) (source : projectionSourceJSON) (capabilities : RemoteCapabilities)
    : RemoteCommandRow :=
  mkRemoteCommandRow (cp_SessionID p) (cp_Ordinal p) (cp_State p) (cp_ExitCode p) (cp_FinalEventSequence p)
    (cp_OutputComplete p) (cp_OutputTruncated p) (cp_OutputUnavailableReason p) (cp_Target p) (cp_Controller p)
    (cp_Environment p) source capabilities (formatStoredTime (cp_ObservedAt p)) (cp_IsStale p).

Definition updated_command_projection (p : RemoteCommandProjection) (capabilities : RemoteCapabilities) (r : RemoteCommandRow)
    : RemoteCommandRow :=
  mkRemoteCommandRow (rc_session_id r) (rc_ordinal r) (cp_State p) (cp_ExitCode p) (cp_FinalEventSequence p)
    (cp_OutputComplete p) (cp_OutputTruncated p) (cp_OutputUnavailableReason p) (rc_target r) (rc_controller r)
    (rc_environment r) (rc_source_json r) capabilities (formatStoredTime (cp_ObservedAt p)) (cp_IsStale p).

Definition UpsertRemoteCommandProjection (m : Mirror) (input : RemoteCommandProjection)
    : result RemoteCommandProjection * Mirror :=
  match validateRemoteCommandProjection input with
  | Err e => (Err e, m)
  | Ok (validated, sourceJSON, capabilitiesJSON) =>
      withMirrorTransaction m
        (validated ← normalizeIncomingRemoteCommandProjectionForEventGap validated;
         let id := cp_CommandID validated in
         stored ← lookup_projection (readRemoteCommandProjectionOnConnection id);
         match stored with
         | None => write_remote_command id (new_command_projection validated sourceJSON capabilitiesJSON);; mret validated
         | Some stored =>
             lift (validateRemoteCommandProjectionIdentity stored validated);;
             if cp_ObservedAt validated <? cp_ObservedAt stored then mret stored
             else
               let validated := if bool_decide (cp_OutputUnavailableReason stored = "retention_expired")
                                then with_command_output false "retention_expired" validated else validated in
               row ← query (fun m => local_remote_command_projections m !! id);
               row ← or_fail row ErrRemoteProjectionNotFound;
               write_remote_command id (updated_command_projection validated capabilitiesJSON row);;
               mret validated
         end)
  end.

Definition command_stale (r : RemoteCommandRow) : RemoteCommandRow :=
  mkRemoteCommandRow (rc_session_id r) (rc_ordinal r) (rc_command_state r) (rc_exit_code r) (rc_final_event_sequence r)
    (rc_output_complete r) (rc_output_truncated r) (rc_output_unavailable_reason r) (rc_target r) (rc_controller r)
    (rc_environment r) (rc_source_json r) (rc_capabilities_json r) (rc_observed_at r) true.

Definition MarkRemoteCommandProjectionStale (m : Mirror) (id : string) : result unit * Mirror :=
  match NewCommandID id with
  | Err e => (Err e, m)
  | Ok validated =>
      withMirrorTransaction m
        (row ← query (fun m => local_remote_command_projections m !! validated);
         row ← or_fail row ErrRemoteProjectionNotFound;
         update_remote_command validated command_stale)
  end.

Definition GetRemoteCommandWithEvents (m : Mirror) (id : string)
    : result (RemoteCommandProjection * list RemoteEventRecord) :=
  validated ← NewCommandID id;
  withMirrorRead m
    (projection ← readRemoteCommandProjectionOnConnection validated;
     if bool_decide (cp_OutputUnavailableReason projection = "retention_expired") then mret (projection, [])
     else
       events ← readRemoteEventsOnConnection validated 0;
       cursor ← remoteEventCursorOnConnection validated;
       fail_if (negb (cursor =? Z.of_nat (length events))) ErrRemoteEventGap;;
       lift (invalid_projection (InspectRemoteEventLifecycle events));;
       mret (projection, events)).

(** ** Jobs *)
Definition with_job_output (complete : bool) (reason : string) (p : RemoteJobProjection) : RemoteJobProjection :=
  mkRemoteJobProjection (jp_JobID p) (jp_SessionID p) (jp_CommandID p) (jp_Phase p) (jp_CommandState p) (jp_ExitCode p)
    (jp_FinalEventSequence p) complete (jp_OutputTruncated p) reason (jp_QueueBlockedReason p) (jp_TeardownState p)
    (jp_TeardownReason p) (jp_Target p) (jp_Controller p) (jp_Environment p) (jp_Source p) (jp_Capabilities p)
    (jp_ObservedAt p) (jp_IsStale p).

(** store/remote_events.go *)
Definition normalizeIncomingRemoteJobProjectionForEventGap (input : RemoteJobProjection) : mtx RemoteJobProjection :=
  gap ← lookupRemoteEventGap (jp_CommandID input);
  match gap with
  | None => mret input
  | Some gap =>
      state ← or_fail (jp_CommandState input) ErrRemoteGapConflict;
      lift (validateProjectionAgainstRemoteEventGap state (jp_FinalEventSequence input) gap);;
      mret (with_job_output false remote_event_gap input)
  end.

Definition new_job_projection (p : RemoteJobProjection) (source : projectionSourceJSON) (capabilities : RemoteCapabilities)
    : RemoteJobRow :=
  mkRemoteJobRow (jp_SessionID p) (jp_CommandID p) (jp_Phase p) (jp_CommandState p) (jp_ExitCode p)
    (jp_FinalEventSequence p) (jp_OutputComplete p) (jp_OutputTruncated p) (jp_OutputUnavailableReason p)
    (jp_QueueBlockedReason p) (jp_TeardownState p) (jp_TeardownReason p) (jp_Target p) (jp_Controller p)
    (jp_Environment p) source capabilities (formatStoredTime (jp_ObservedAt p)) (jp_IsStale p).

Definition updated_job_projection (p : RemoteJobProjection) (capabilities : RemoteCapabilities) (r : RemoteJobRow) : RemoteJobRow :=
  mkRemoteJobRow (rj_session_id r) (rj_command_id r) (jp_Phase p) (jp_CommandState p) (jp_ExitCode p)
    (jp_FinalEventSequence p) (jp_OutputComplete p) (jp_OutputTruncated p) (jp_OutputUnavailableReason p)
    (jp_QueueBlockedReason p) (jp_TeardownState p) (jp_TeardownReason p) (rj_target r) (rj_controller r)
    (rj_environment r) (rj_source_json r) capabilities (formatStoredTime (jp_ObservedAt p)) (jp_IsStale p).

Definition UpsertRemoteJobProjection (m : Mirror) (input : RemoteJobProjection) : result RemoteJobProjection * Mirror :=
  match validateRemoteJobProjection input with
  | Err e => (Err e, m)
  | Ok (validated, sourceJSON, capabilitiesJSON) =>
      withMirrorTransaction m
        (validated ← normalizeIncomingRemoteJobProjectionForEventGap validated;
         let id := jp_JobID validated in
         stored ← lookup_projection (readRemoteJobProjectionOnConnection id);
         match stored with
         | None => write_remote_job id (new_job_projection validated sourceJSON capabilitiesJSON);; mret validated
         | Some stored =>
             lift (validateRemoteJobProjectionIdentity stored validated);;
             if jp_ObservedAt validated <? jp_ObservedAt stored then mret stored
             else
               row ← query (fun m => local_remote_job_projections m !! id);
               row ← or_fail row ErrRemoteProjectionNotFound;
               write_remote_job id (updated_job_projection validated capabilitiesJSON row);;
               mret validated
         end)
  end.

Definition job_stale (r : RemoteJobRow) : RemoteJobRow :=
  mkRemoteJobRow (rj_session_id r) (rj_command_id r) (rj_job_phase r) (rj_command_state r) (rj_exit_code r)
    (rj_final_event_sequence r) (rj_output_complete r) (rj_output_truncated r) (rj_output_unavailable_reason r)
    (rj_queue_blocked_reason r) (rj_teardown_state r) (rj_teardown_reason r) (rj_target r) (rj_controller r)
    (rj_environment r) (rj_source_json r) (rj_capabilities_json r) (rj_observed_at r) true.

Definition MarkRemoteJobProjectionStale (m : Mirror) (id : string) : result unit * Mirror :=
  match NewJobID id with
  | Err e => (Err e, m)
  | Ok validated =>
      withMirrorTransaction m
        (row ← query (fun m => local_remote_job_projections m !! validated);
         row ← or_fail row ErrRemoteProjectionNotFound;
         update_remote_job validated job_stale)
  end.
