(* ===== verification/Retention.v ===== *)
(** * Retention and garbage collection

    Models [src/src/internal/store/gc.go]: one cleanup pass expires the output of
    old terminal commands, drops expired idempotency bindings, and deletes the
    metadata of terminal jobs, commands and sessions whose capacity is released.

    The pass also reads and writes the mirror of remote commands and the mailbox
    tables ([RemoteDb]).  A DELETE
    fails when a row of another table refers to the deleted one: the foreign keys
    of the schema are all [ON DELETE RESTRICT].  Timestamps are compared as
    texts. *)
From S2P Require Import Prelude GoStrings Sha256 Identity Lifecycle Policy Canonical LaneAdmission.
From S2P Require Import AuditRecords Db AuditStore AdmissionStore Idempotency Sessions Commands LostRecovery.
From S2P Require Import Listings RestartPlan Scheduler CommandlessRecovery TeardownRecovery RemoteDb.

Definition DefaultOutputRetention : Z := 30 * 24 * hour.

Record GarbageCollectionOptions : Type := mkGarbageCollectionOptions {
  gco_OutputRetention : Z;
  gco_MetadataRetention : Z
}.

Record GarbageCollectionReport : Type := mkGarbageCollectionReport {
  gcr_IdempotencyRecordsDeleted : nat;
  gcr_CommandsOutputExpired : nat;
  gcr_CommandEventsDeleted : nat;
  gcr_RemoteCommandsOutputExpired : nat;
  gcr_RemoteCommandEventsDeleted : nat;
  gcr_JobsDeleted : nat;
  gcr_CommandsDeleted : nat;
  gcr_SessionsDeleted : nat;
  gcr_MailboxIngressDiagnosticsDeleted : nat
}.

Definition ControllerType_of_text (text : string) : ControllerType :=
  if bool_decide (text = "local_user") then ControllerTypeLocalUser
  else if bool_decide (text = "queued_mac") then ControllerTypeQueuedMac
  else if bool_decide (text = "direct_mtls") then ControllerTypeDirectMTLS
  else ControllerTypeOther text.

(** ** Idempotency bindings *)
Definition expired_binding (now : Z) (_ : IdemKey) (row : IdempotencyRow) : bool :=
  stored_le_b (i_expires_at row) (formatStoredTime now).

Fixpoint recordExpiredKeys (now : Z) (rows : list (IdemKey * IdempotencyRow)) : tx unit :=
  match rows with
  | [] => mret tt
  | ((controllerType, controllerID, operation, key), row) :: rest =>
      controllerID ← lift (NewControllerID controllerID);
      controller ← lift (NewControllerIdentity (ControllerType_of_text controllerType) controllerID);
      expiresAt ← or_fail (parseStoredTime (i_expires_at row)) (ErrText "parse expired idempotency expiry");
      recordIdempotencyExpiryWarningOnConnection controller operation key expiresAt now;;
      recordExpiredKeys now rest
  end.

Fixpoint dropExpiredWarnings (now : Z) (rows : list (IdemKey * StoredTime)) : tx unit :=
  match rows with
  | [] => mret tt
  | (key, text) :: rest =>
      warningUntil ← or_fail (parseStoredTime text) (ErrText "parse idempotency expiry warning");
      (if now <? warningUntil then mret tt
       else modify (fun d => set_warnings (delete key (exec_idempotency_expiry_warnings d)) d));;
      dropExpiredWarnings now rest
  end.

Definition collectIdempotency (now : Z) : tx nat :=
  expiredKeys ← query (fun d => map_to_list (rows_where (expired_binding now) (exec_idempotency d)));
  recordExpiredKeys now expiredKeys;;
  deleted ← query (fun d => size (rows_where (expired_binding now) (exec_idempotency d)));
  modify (fun d => set_idempotency (delete_where (expired_binding now) (exec_idempotency d)) d);;
  warnings ← query (fun d => map_to_list (exec_idempotency_expiry_warnings d));
  dropExpiredWarnings now warnings;;
  mret deleted.

(** ** Output *)
Definition teardown_command (d : DB) (commandID : string) : bool :=
  exists_row (fun _ f => bool_decide (tf_command_id f = commandID)) (exec_completed_teardown_recovery_finalizations d).
Definition teardown_job (d : DB) (jobID : string) : bool :=
  exists_row (fun _ f => bool_decide (tf_job_id f = jobID)) (exec_completed_teardown_recovery_finalizations d).

Definition output_expires (d : DB) (outputCutoff : StoredTime) (id : string) (c : CommandRow) : bool :=
  CommandState_IsTerminal (c_state c) && stored_le_b (c_updated_at c) outputCutoff
  && is_empty (c_output_unavailable_reason c) && negb (teardown_command d id).

(** [SET output_complete = 0, output_unavailable_reason = 'retention_expired'] *)
Definition command_output_expired (c : CommandRow) : CommandRow :=
  mkCommandRow (c_session_id c) (c_ordinal c) (c_intent_ordinal c) (c_request_hash_version c) (c_request_hash c)
    (c_script_bytes c) (c_script_sha256 c) (c_state c) (c_timeout_ns c) (c_exit_code c) (c_final_event_sequence c)
    (c_output_truncated c) false retention_expired (c_created_at c) (c_updated_at c).
Definition job_output_expired (j : JobRow) : JobRow :=
  mkJobRow (j_session_id j) (j_command_id j) (j_controller j) (j_ingress j) (j_target j) (j_environment j) (j_source j)
    (j_request_hash_version j) (j_request_hash j) (j_idempotency_key j) (j_payload_json j) (j_script_bytes j)
    (j_script_sha256 j) (j_phase j) (j_command_state j) (j_exit_code j) (j_final_event_sequence j) (j_output_truncated j)
    false retention_expired (j_teardown_state j) (j_teardown_reason j) (j_created_at j) (j_updated_at j).

(** [command_id IN (SELECT command_id FROM exec_commands WHERE output_unavailable_reason = 'retention_expired')] *)
Definition expired_command (d : DB) (commandID : string) : bool :=
  match exec_commands d !! commandID with
  | Some c => bool_decide (c_output_unavailable_reason c = retention_expired)
  | None => false
  end.

Definition job_output_expires (d : DB) (id : string) (j : JobRow) : bool :=
  expired_command d (j_command_id j) && is_empty (j_output_unavailable_reason j) && negb (teardown_job d id).

Definition terminal_event (t : EventType) : bool :=
  match t with
  | command_succeeded | command_failed | command_cancelled | command_timed_out | command_rejected | command_lost => true
  | _ => false
  end.

Definition remote_output_expires (m : Mirror) (outputCutoff : StoredTime) (id : string) (r : RemoteCommandRow) : bool :=
  CommandState_IsTerminal (rc_command_state r)
  && negb (bool_decide (rc_output_unavailable_reason r = retention_expired))
  && (existsb (fun e => match rc_final_event_sequence r with Some n => e_sequence e =? n | None => false end
                        && terminal_event (e_type e) && stored_le_b (e_occurred_at e) outputCutoff)
        (rows_of (local_remote_events m) id)
      || match local_remote_event_gaps m !! id with
         | Some gap => stored_le_b (g_confirmed_at gap) outputCutoff
         | None => false
         end).

Definition remote_output_expired (r : RemoteCommandRow) : RemoteCommandRow :=
  mkRemoteCommandRow (rc_session_id r) (rc_ordinal r) (rc_command_state r) (rc_exit_code r) (rc_final_event_sequence r)
    false (rc_output_truncated r) retention_expired (rc_target r) (rc_controller r) (rc_environment r)
    (rc_source_json r) (rc_capabilities_json r) (rc_observed_at r) (rc_is_stale r).
Definition remote_job_output_expired (j : RemoteJobRow) : RemoteJobRow :=
  mkRemoteJobRow (rj_session_id j) (rj_command_id j) (rj_job_phase j) (rj_command_state j) (rj_exit_code j)
    (rj_final_event_sequence j) false (rj_output_truncated j) retention_expired (rj_queue_blocked_reason j)
    (rj_teardown_state j) (rj_teardown_reason j) (rj_target j) (rj_controller j) (rj_environment j)
    (rj_source_json j) (rj_capabilities_json j) (rj_observed_at j) (rj_is_stale j).

Definition expired_remote_command (m : Mirror) (commandID : string) : bool :=
  match local_remote_command_projections m !! commandID with
  | Some r => bool_decide (rc_output_unavailable_reason r = retention_expired)
  | None => false
  end.
Definition remote_job_output_expires (m : Mirror) (_ : string) (j : RemoteJobRow) : bool :=
  expired_remote_command m (rj_command_id j) && is_empty (rj_output_unavailable_reason j).

(** A response file that is not removed and not due for cleanup pins the events. *)
Definition live_response (m : Mirror) (now : StoredTime) (exchangeID : string) : bool :=
  match mailbox_exchanges m !! exchangeID with
  | Some x => negb (is_Some_b (x_response_file_removed_at x))
              && match x_response_cleanup_at x with None => true | Some t => negb (stored_le_b t now) end
  | None => false
  end.
Definition pinned_events (m : Mirror) (now : StoredTime) (commandID : string) : bool :=
  exists_row (fun x c => bool_decide (c = commandID) && live_response m now x) (mailbox_event_file_references m)
  || exists_row (fun x c => bool_decide (c = commandID) && live_response m now x) (mailbox_remote_event_file_references m).

Definition events_expire (d : DB) (m : Mirror) (now : StoredTime) {A} (id : string) (_ : A) : bool :=
  expired_command d id && negb (teardown_command d id) && negb (pinned_events m now id).
Definition remote_events_expire (m : Mirror) (now : StoredTime) {A} (id : string) (_ : A) : bool :=
  expired_remote_command m id && negb (pinned_events m now id).

(** The number of rows of an event table. *)
Definition row_count {A} (t : gmap string (list A)) : nat := sum_list (length ∘ snd <$> map_to_list t).

Definition expireCommandOutput (outputCutoff : StoredTime) : tx nat :=
  d ← query (fun d => d);
  modify (fun d => set_commands (update_where (output_expires d outputCutoff) command_output_expired (exec_commands d)) d);;
  modify (fun d => set_jobs (update_where (job_output_expires d) job_output_expired (exec_jobs d)) d);;
  mret (size (rows_where (output_expires d outputCutoff) (exec_commands d))).

Definition expireRemoteOutput (outputCutoff : StoredTime) : gtx nat :=
  m ← query snd;
  on_mirror (fun m => set_remote_commands
    (update_where (remote_output_expires m outputCutoff) remote_output_expired (local_remote_command_projections m)) m);;
  on_mirror (fun m => set_remote_jobs
    (update_where (remote_job_output_expires m) remote_job_output_expired (local_remote_job_projections m)) m);;
  mret (size (rows_where (remote_output_expires m outputCutoff) (local_remote_command_projections m))).

Definition deleteExpiredEvents (now : StoredTime) : gtx nat :=
  s ← query (fun s => s);
  on_db (modify (fun d => set_events (delete_where (events_expire d (snd s) now) (exec_command_events d)) d));;
  mret (row_count (rows_where (events_expire (fst s) (snd s) now) (exec_command_events (fst s)))).

Definition deleteExpiredRemoteEvents (now : StoredTime) : gtx nat :=
  m ← query snd;
  on_mirror (fun m => set_remote_events (delete_where (remote_events_expire m now) (local_remote_events m)) m);;
  mret (row_count (rows_where (remote_events_expire m now) (local_remote_events m))).

(** ** Metadata *)
Definition live_reservation_of (d : DB) (sessionID : string) : bool :=
  match exec_capacity_reservations d !! sessionID with
  | Some r => negb (is_Some_b (r_cleanup_confirmed_at r))
  | None => false
  end.
Definition live_slot_of (d : DB) (commandID : string) : bool :=
  match exec_command_slots d !! commandID with Some r => live_slot r | None => false end.
Definition job_of_command (d : DB) (commandID : string) : bool :=
  exists_row (fun _ j => bool_decide (j_command_id j = commandID)) (exec_jobs d).
Definition job_of_session (d : DB) (sessionID : string) : bool :=
  exists_row (fun _ j => bool_decide (j_session_id j = sessionID)) (exec_jobs d).
Definition command_of_session (d : DB) (sessionID : string) : bool :=
  exists_row (fun _ c => bool_decide (c_session_id c = sessionID)) (exec_commands d).

Definition gc_job (d : DB) (cutoff : StoredTime) (id : string) (j : JobRow) : bool :=
  terminal_phase (j_phase j) && stored_le_b (j_updated_at j) cutoff
  && negb (live_reservation_of d (j_session_id j)) && negb (live_slot_of d (j_command_id j))
  && negb (exists_row (fun _ f => bool_decide (clf_job_id f = id)) (exec_commandless_lost_runtime_recovery_finalizations d))
  && negb (teardown_job d id).

Definition gc_command (d : DB) (cutoff : StoredTime) (id : string) (c : CommandRow) : bool :=
  match exec_sessions d !! c_session_id c with
  | None => false
  | Some s =>
      CommandState_IsTerminal (c_state c) && stored_le_b (c_updated_at c) cutoff
      && SessionState_IsTerminal (s_state s) && stored_le_b (s_updated_at s) cutoff
      && negb (live_slot_of d id) && negb (job_of_command d id)
      && negb (is_Some_b (exec_lost_runtime_recovery_finalizations d !! id)) && negb (teardown_command d id)
  end.

Definition gc_session (d : DB) (cutoff : StoredTime) (id : string) (s : SessionRow) : bool :=
  match exec_capacity_reservations d !! id with
  | None => false
  | Some r =>
      SessionState_IsTerminal (s_state s) && stored_le_b (s_updated_at s) cutoff
      && is_Some_b (r_cleanup_confirmed_at r)
      && negb (command_of_session d id) && negb (job_of_session d id)
      && negb (exists_row (fun _ f => bool_decide (f_session_id f = id)) (exec_lost_runtime_recovery_finalizations d))
      && negb (is_Some_b (exec_commandless_lost_runtime_recovery_finalizations d !! id))
      && negb (is_Some_b (exec_completed_teardown_recovery_finalizations d !! id))
  end.

Definition gcJobIDs (cutoff : StoredTime) (d : DB) : list string :=
  (map_to_list (rows_where (gc_job d cutoff) (exec_jobs d))).*1.
Definition gcCommandIDs (cutoff : StoredTime) (d : DB) : list string :=
  (map_to_list (rows_where (gc_command d cutoff) (exec_commands d))).*1.
Definition gcSessionIDs (cutoff : StoredTime) (d : DB) : list string :=
  (map_to_list (rows_where (gc_session d cutoff) (exec_sessions d))).*1.

(** The foreign keys that refer to a job, a command or a session. *)
Definition job_referenced (d : DB) (id : string) : bool :=
  match exec_controlled_restart_plans d with Some p => bool_decide (p_job_id p = id) | None => false end
  || exists_row (fun _ f => bool_decide (clf_job_id f = id)) (exec_commandless_lost_runtime_recovery_finalizations d)
  || teardown_job d id.

Definition command_referenced (d : DB) (m : Mirror) (id : string) : bool :=
  negb (is_nil (rows_of (exec_command_events d) id)) || is_Some_b (exec_command_slots d !! id)
  || is_Some_b (exec_lost_runtime_recovery_finalizations d !! id) || teardown_command d id
  || match exec_controlled_restart_plans d with Some p => bool_decide (p_command_id p = id) | None => false end
  || existsb (fun p => bool_decide (lp_command_id p = id)) (exec_controlled_restart_plan_lost_pairs d)
  || exists_row (fun _ c => bool_decide (c = id)) (mailbox_event_file_references m)
  || exists_row (fun k _ => bool_decide (snd k = id)) (mailbox_event_file_cleanup m).

Definition session_referenced (d : DB) (id : string) : bool :=
  negb (is_nil (rows_of (exec_session_lifecycle d) id)) || is_Some_b (exec_capacity_reservations d !! id)
  || command_of_session d id
  || exists_row (fun _ f => bool_decide (f_session_id f = id)) (exec_lost_runtime_recovery_finalizations d)
  || is_Some_b (exec_commandless_lost_runtime_recovery_finalizations d !! id)
  || is_Some_b (exec_completed_teardown_recovery_finalizations d !! id)
  || match exec_controlled_restart_plans d with Some p => bool_decide (p_session_id p = id) | None => false end
  || existsb (fun p => bool_decide (lp_session_id p = id)) (exec_controlled_restart_plan_lost_pairs d).

Definition deleteJob (id : string) : gtx nat :=
  s ← query (fun s => s);
  fail_if (job_referenced (fst s) id) (ErrSQL "delete job metadata");;
  on_db (modify (fun d => set_jobs (delete id (exec_jobs d)) d));;
  mret (if is_Some_b (exec_jobs (fst s) !! id) then 1%nat else 0%nat).

Definition deleteCommand (id : string) : gtx nat :=
  on_db (modify (fun d => set_slots (delete id (exec_command_slots d)) d));;
  on_db (modify (fun d => set_events (delete id (exec_command_events d)) d));;
  s ← query (fun s => s);
  fail_if (command_referenced (fst s) (snd s) id) (ErrSQL "delete command metadata");;
  on_db (modify (fun d => set_commands (delete id (exec_commands d)) d));;
  mret (if is_Some_b (exec_commands (fst s) !! id) then 1%nat else 0%nat).

Definition deleteSession (id : string) : gtx nat :=
  on_db (modify (fun d => set_reservations (delete id (exec_capacity_reservations d)) d));;
  on_db (modify (fun d => set_lifecycle (delete id (exec_session_lifecycle d)) d));;
  s ← query (fun s => s);
  fail_if (session_referenced (fst s) id) (ErrSQL "delete session metadata");;
  on_db (modify (fun d => set_sessions (delete id (exec_sessions d)) d));;
  mret (if is_Some_b (exec_sessions (fst s) !! id) then 1%nat else 0%nat).

Fixpoint deleteEach (del : string -> gtx nat) (ids : list string) : gtx nat :=
  match ids with
  | [] => mret 0%nat
  | id :: rest => changed ← del id; others ← deleteEach del rest; mret (changed + others)%nat
  end.

Definition collectMetadata (del : string -> gtx nat) (ids : DB -> list string) : gtx nat :=
  selected ← query (fun s => ids (fst s));
  deleteEach del selected.

Definition collectable_diagnostic (cutoff : StoredTime) (_ : string * string) (r : DiagnosticRow) : bool :=
  stored_le_b (dg_observed_at (dg_core r)) cutoff && is_Some_b (dg_input_pair_removed_at r)
  && is_Some_b (dg_diagnostic_file_removed_at r).

Definition collectDiagnostics (cutoff : StoredTime) : gtx nat :=
  m ← query snd;
  on_mirror (fun m => set_diagnostics (delete_where (collectable_diagnostic cutoff) (mailbox_ingress_diagnostics m)) m);;
  mret (size (rows_where (collectable_diagnostic cutoff) (mailbox_ingress_diagnostics m))).

(** ** The pass *)
Definition collect (outputCutoff metadataCutoff now : Z) : gtx GarbageCollectionReport :=
  let output := formatStoredTime outputCutoff in
  let metadata := formatStoredTime metadataCutoff in
  idempotency ← on_db (collectIdempotency now);
  commandsExpired ← on_db (expireCommandOutput output);
  remoteExpired ← expireRemoteOutput output;
  events ← deleteExpiredEvents (formatStoredTime now);
  remoteEvents ← deleteExpiredRemoteEvents (formatStoredTime now);
  jobs ← collectMetadata deleteJob (gcJobIDs metadata);
  commands ← collectMetadata deleteCommand (gcCommandIDs metadata);
  sessions ← collectMetadata deleteSession (gcSessionIDs metadata);
  diagnostics ← collectDiagnostics metadata;
  mret (mkGarbageCollectionReport idempotency commandsExpired events remoteExpired remoteEvents jobs commands sessions
          diagnostics).

Definition effective_options (options : GarbageCollectionOptions) : result (Z * Z) :=
  let outputRetention := if gco_OutputRetention options =? 0 then DefaultOutputRetention else gco_OutputRetention options in
  let metadataRetention :=
    if gco_MetadataRetention options =? 0 then DefaultMetadataRetention else gco_MetadataRetention options in
  refuse_if ((outputRetention <? 0) || (metadataRetention <? 0)) ErrInvalidGarbageCollection;;
  Ok (outputRetention, metadataRetention).

Definition CollectGarbage (s : AuthorityStore) (m : Mirror) (now : Z) (options : GarbageCollectionOptions)
    : result GarbageCollectionReport * (AuthorityStore * Mirror) :=
  match effective_options options with
  | Err e => (Err e, (s, m))
  | Ok (outputRetention, metadataRetention) =>
      match collect (now - outputRetention) (now - metadataRetention) now (db s, m) with
      | Ok (report, (d, m')) => (Ok report, (store_db s d, m'))
      | Err e => (Err e, (s, m))
      end
  end.

Definition GarbageCollect := CollectGarbage.
