(* ===== verification/LocalIntents.v ===== *)
(** * Local intents: data, validation and reads

    Models the first part of [src/src/internal/store/local_intents.go]: the
    durable record of a request that a controller accepted and still has to
    deliver.  A request is its canonical payload, its hash and its script bytes;
    every read validates them again. *)
From S2P Require Import Prelude GoStrings Sha256 Identity Lifecycle Policy JsonText Canonical.
From S2P Require Import RunPayload LaneAdmission AuditRecords Db AuditStore Idempotency Sessions Listings.
From S2P Require Import RemoteDb.

(** ** Data *)

(** [DeliveryState] is the empty string in the zero value. *)
Record LocalIntentCreate : Type := mkLocalIntentCreate {
  lic_IntentID : string;
  lic_Operation : string;
  lic_ResourceID : string;
  lic_SessionID : string;
  lic_CommandID : string;
  lic_JobID : string;
  lic_Target : ExecutionTarget;
  lic_Environment : string;
  lic_Controller : ControllerIdentity;
  lic_Source : Source;
  lic_RequestHash : CanonicalHash;
  lic_IdempotencyKey : string;
  lic_IdempotencyRetention : Z;
  lic_PayloadJSON : string;
  lic_ScriptBytes : string;
  lic_IntentOrdinal : option Z;
  lic_DeliveryState : LocalIntentDeliveryState;
  lic_Reason : string;
  lic_LeaseOwner : string;
  lic_LeaseExpiresAt : option Z;
  lic_AttemptCount : Z;
  lic_MailboxSelection : option MailboxSelection
}.

Record LocalIntentRecord : Type := mkLocalIntentRecord {
  lir_create : LocalIntentCreate;
  lir_RemoteTerminalProofVersion : Z;
  lir_RemoteStatusFailureAt : option Z;
  lir_RemoteStatusFailureCode : string;
  lir_RemoteStatusFailureAttempts : Z;
  lir_CreatedAt : Z;
  lir_UpdatedAt : Z
}.

Record RemoteIntentCursor : Type := mkRemoteIntentCursor { ric_CreatedAt : Z; ric_IntentID : string }.

Record LocalIntentLifecycleRecord : Type := mkLocalIntentLifecycleRecord {
  lil_IntentID : string;
  lil_Sequence : Z;
  lil_PreviousState : option LocalIntentDeliveryState;
  lil_NewState : LocalIntentDeliveryState;
  lil_Reason : string;
  lil_OccurredAt : Z
}.

Record localIdempotencyBinding : Type := mkLocalIdempotencyBinding {
  lib_Controller : ControllerIdentity;
  lib_Operation : string;
  lib_Key : string;
  lib_Hash : CanonicalHash;
  lib_IntentID : string;
  lib_ResourceID : string;
  lib_CreatedAt : Z;
  lib_ExpiresAt : Z
}.

Definition RemoteTerminalProofP149 : Z := 1.
Definition RemoteStatusFailureCodeUnavailable : string := "remote_status_unavailable".

Definition localIntentCreateSessionOperation : string := "create_session".
Definition localIntentSubmitCommandOperation : string := "submit_command".
Definition localIntentCancelCommandOperation : string := "cancel_command".
Definition localIntentCloseSessionOperation : string := "close_session".
Definition localIntentRunOperation : string := "run".

(** [operation == constant] *)
Notation is_op o c := (bool_decide (o = c)).

Definition validLocalIntentOperation (operation : string) : bool :=
  is_op operation localIntentCreateSessionOperation || is_op operation localIntentSubmitCommandOperation
  || is_op operation localIntentCancelCommandOperation || is_op operation localIntentCloseSessionOperation
  || is_op operation localIntentRunOperation.

Definition validLocalIntentDeliveryState (state : LocalIntentDeliveryState) : bool :=
  match state with LocalIntentOther _ => false | _ => true end.

Definition LocalIntentRequested : LocalIntentDeliveryState := LocalIntentOther "requested".
Definition validLocalIntentLifecycleState (state : LocalIntentDeliveryState) : bool :=
  bool_decide (state = LocalIntentRequested) || validLocalIntentDeliveryState state.

Definition localIntentStateTransitionAllowed (current next : LocalIntentDeliveryState) : bool :=
  match current with
  | LocalIntentRecorded => bool_decide (next = LocalIntentDispatching) || bool_decide (next = LocalIntentNotDelivered)
  | LocalIntentDispatching =>
      bool_decide (next = LocalIntentUncertain) || bool_decide (next = LocalIntentAccepted)
      || bool_decide (next = LocalIntentNotDelivered)
  | LocalIntentUncertain =>
      bool_decide (next = LocalIntentDispatching) || bool_decide (next = LocalIntentAccepted)
      || bool_decide (next = LocalIntentReconciled) || bool_decide (next = LocalIntentNotDelivered)
  | LocalIntentAccepted => bool_decide (next = LocalIntentReconciled)
  | LocalIntentReconciled | LocalIntentNotDelivered => false
  | LocalIntentOther _ => false
  end.

(** ** Validation *)
Definition validateLeaseRequest (owner : string) (leaseDuration : Z) : result unit :=
  refuse_if (bad_text 256 owner) ErrInvalidLocalIntentLease;;
  refuse_if (leaseDuration <=? 0) ErrInvalidLocalIntentLease.

(** An optional member of the payload: when it is there, it says what the intent says. *)
Definition optional_member (object : list (string * json)) (key : string) (says : bool) : bool :=
  match map_lookup key object with Some _ => says | None => true end.

Definition script_agrees (object : list (string * json)) (script : string) : bool :=
  match map_lookup "script" object with
  | Some _ => string_member object "script" script
  | None => go_len script =? 0
  end.

Definition validateLocalIntentPayload (operation payload script environment : string) (target : ExecutionTarget)
    (source : Source) (requestHash : CanonicalHash) : result (string * CanonicalHash) :=
  let invalid {A} (r : result A) := result_map_err (fun _ => ErrInvalidLocalIntent) r in
  refuse_if (is_empty payload) ErrInvalidLocalIntent;;
  invalid (ValidateSerializedRequest payload);;
  canonical ← invalid (CanonicalizeMutationRequestJSON operation payload []);
  refuse_if (negb (bool_decide (canonical = payload))) ErrInvalidLocalIntent;;
  hash ← invalid (HashMutationRequestJSON operation payload []);
  refuse_if (is_conflict (CompareIdempotency hash requestHash)) ErrInvalidLocalIntent;;
  object ← invalid (Unmarshal_object payload);
  refuse_if (negb (script_agrees object script)) ErrInvalidLocalIntent;;
  refuse_if (negb (optional_member object "environment" (string_member object "environment" environment))) ErrInvalidLocalIntent;;
  refuse_if (negb (optional_member object "execution_target" (target_member object target))) ErrInvalidLocalIntent;;
  refuse_if (negb (optional_member object "source" (source_member object source))) ErrInvalidLocalIntent;;
  Ok (payload, hash).

Definition validateLocalIntentIdentityFields (input : LocalIntentCreate) : result unit :=
  let op c := is_op (lic_Operation input) c in
  let sessionRequired := op localIntentCreateSessionOperation || op localIntentSubmitCommandOperation
    || op localIntentCloseSessionOperation in
  let commandRequired := op localIntentSubmitCommandOperation || op localIntentCancelCommandOperation in
  let jobRequired := op localIntentRunOperation in
  refuse_if (is_empty (lic_SessionID input) && sessionRequired) ErrInvalidLocalIntent;;
  refuse_if (is_empty (lic_CommandID input) && commandRequired) ErrInvalidLocalIntent;;
  refuse_if (is_empty (lic_JobID input) && jobRequired) ErrInvalidLocalIntent;;
  let differs id := negb (bool_decide (lic_ResourceID input = id)) in
  refuse_if (op localIntentCreateSessionOperation && differs (lic_SessionID input)) ErrInvalidLocalIntent;;
  refuse_if (op localIntentSubmitCommandOperation && differs (lic_CommandID input)) ErrInvalidLocalIntent;;
  refuse_if (op localIntentCancelCommandOperation && differs (lic_CommandID input)) ErrInvalidLocalIntent;;
  refuse_if (op localIntentCloseSessionOperation && differs (lic_SessionID input)) ErrInvalidLocalIntent;;
  refuse_if (op localIntentRunOperation && differs (lic_JobID input)) ErrInvalidLocalIntent.

Definition validateSelection (input : LocalIntentCreate) (environment : string) (target : ExecutionTarget) : result unit :=
  match lic_MailboxSelection input with
  | None => Ok tt
  | Some selection =>
      refuse_if (negb (is_op (lic_Operation input) localIntentCreateSessionOperation)
                 && negb (is_op (lic_Operation input) localIntentRunOperation)) ErrInvalidLocalIntent;;
      result_map_err (fun _ => ErrInvalidLocalIntent) (MailboxSelection_Validate selection);;
      refuse_if (negb (bool_decide (sel_Environment selection = environment))
                 || negb (bool_decide (sel_TargetKind selection = target_kind target))
                 || negb (bool_decide (sel_TargetProfile selection = target_profile target))) ErrInvalidLocalIntent
  end.

Definition validateLocalIntentCreate (input : LocalIntentCreate) : result LocalIntentCreate :=
  let invalid {A} (r : result A) := result_map_err (fun _ => ErrInvalidLocalIntent) r in
  intentID ← invalid (NewIntentID (lic_IntentID input));
  refuse_if (negb (validLocalIntentOperation (lic_Operation input))) ErrInvalidLocalIntent;;
  refuse_if (bad_text 256 (lic_ResourceID input)) ErrInvalidLocalIntent;;
  let environment := TrimSpace (lic_Environment input) in
  refuse_if (is_empty environment) ErrInvalidLocalIntent;;
  target ← invalid (NewExecutionTarget (target_kind (lic_Target input)) (target_profile (lic_Target input)));
  validateSelection input environment target;;
  controller ← invalid (validateController (lic_Controller input));
  source ← invalid (normalizeSource (lic_Source input));
  invalid (validateIdempotencyOperationKey (lic_Operation input) (lic_IdempotencyKey input));;
  let retention := if lic_IdempotencyRetention input =? 0 then DefaultSessionIdempotencyRetention
                   else lic_IdempotencyRetention input in
  refuse_if (retention <? 0) ErrInvalidLocalIntent;;
  refuse_if (lic_AttemptCount input <? 0) ErrInvalidLocalIntent;;
  refuse_if (match lic_IntentOrdinal input with Some n => n <=? 0 | None => false end) ErrInvalidLocalIntent;;
  refuse_if (negb (is_op (lic_Operation input) localIntentSubmitCommandOperation) && is_Some_b (lic_IntentOrdinal input))
    ErrInvalidLocalIntent;;
  validateLocalIntentIdentityFields input;;
  invalid (ValidateScriptUTF8 (lic_ScriptBytes input));;
  payload ← validateLocalIntentPayload (lic_Operation input) (lic_PayloadJSON input) (lic_ScriptBytes input) environment
    target source (lic_RequestHash input);
  let '(canonical, hash) := payload in
  let deliveryState := if bool_decide (lic_DeliveryState input = LocalIntentOther "") then LocalIntentRecorded
                       else lic_DeliveryState input in
  refuse_if (negb (validLocalIntentDeliveryState deliveryState)) ErrInvalidLocalIntent;;
  refuse_if (contains_nul (lic_LeaseOwner input) || (256 <? go_len (lic_LeaseOwner input))) ErrInvalidLocalIntent;;
  Ok (mkLocalIntentCreate intentID (lic_Operation input) (lic_ResourceID input) (lic_SessionID input) (lic_CommandID input)
        (lic_JobID input) target environment controller source hash (lic_IdempotencyKey input) retention canonical
        (lic_ScriptBytes input) (lic_IntentOrdinal input) deliveryState (lic_Reason input) (lic_LeaseOwner input)
        (lic_LeaseExpiresAt input) (lic_AttemptCount input) (lic_MailboxSelection input)).

(** ** Reads *)
Definition corrupt {A} (r : result A) : result A := result_map_err (fun _ => ErrLocalIntentPayloadCorrupt) r.
Definition stored_instant (t : StoredTime) : result Z := from_option Ok (Err ErrLocalIntentPayloadCorrupt) (parseStoredTime t).

(** The joined row of [local_remote_status_failures]. *)
Definition decodeStatusFailure (row : IntentRow) (failure : option StatusFailureRow) : result (option Z) :=
  match failure with
  | None => Ok None
  | Some f =>
      at_ ← stored_instant (sf_first_observed_at f);
      refuse_if (negb (bool_decide (sf_reason f = RemoteStatusFailureCodeUnavailable)) || (sf_reconciliation_attempts f <? 1)
                 || negb (is_op (li_operation row) localIntentRunOperation)
                 || negb (bool_decide (target_kind (li_target row) = TargetKindRemote))
                 || negb (bool_decide (li_delivery_state row = LocalIntentAccepted))) ErrLocalIntentPayloadCorrupt;;
      Ok (Some at_)
  end.

Definition decodeLocalIntent (id : string) (row : IntentRow) (failure : option StatusFailureRow) : result LocalIntentRecord :=
  validatedID ← corrupt (NewIntentID id);
  target ← corrupt (NewExecutionTarget (target_kind (li_target row)) (target_profile (li_target row)));
  controller ← corrupt (NewControllerIdentity (controller_typeName (li_controller row)) (controller_id (li_controller row)));
  source ← corrupt (decodeSource (source_mode (li_source row)) (source_repositoryAlias (li_source row))
                      (source_requestedRevision (li_source row)) (source_path (li_source row)));
  hash ← corrupt (NewCanonicalHash (uint16 (li_request_hash_version row)) (li_request_hash row));
  refuse_if (negb (validLocalIntentOperation (li_operation row)) || negb (validLocalIntentDeliveryState (li_delivery_state row))
             || (li_remote_terminal_proof_version row <? 0) || (li_attempt_count row <? 0)) ErrLocalIntentPayloadCorrupt;;
  refuse_if (match li_intent_ordinal row with Some n => n <=? 0 | None => false end) ErrLocalIntentPayloadCorrupt;;
  created ← stored_instant (li_created_at row);
  updated ← stored_instant (li_updated_at row);
  leaseTime ← match li_lease_expires_at row with None => Ok None | Some t => at_ ← stored_instant t; Ok (Some at_) end;
  statusFailureTime ← decodeStatusFailure row failure;
  payload ← corrupt (validateLocalIntentPayload (li_operation row) (li_payload_json row) (li_script_bytes row)
                       (li_environment row) target source hash);
  let '(canonical, computedHash) := payload in
  refuse_if (negb (bool_decide (canonical = li_payload_json row)) || is_conflict (CompareIdempotency computedHash hash))
    ErrLocalIntentPayloadCorrupt;;
  refuse_if (negb (bool_decide (sha256 (li_script_bytes row) = li_script_sha256 row))) ErrLocalIntentPayloadCorrupt;;
  Ok (mkLocalIntentRecord
        (mkLocalIntentCreate validatedID (li_operation row) (li_resource_id row) (li_session_id row) (li_command_id row)
           (li_job_id row) target (li_environment row) controller source hash (li_idempotency_key row) 0 (li_payload_json row)
           (li_script_bytes row) (li_intent_ordinal row) (li_delivery_state row) (li_reason row) (li_lease_owner row)
           leaseTime (li_attempt_count row) None)
        (li_remote_terminal_proof_version row) statusFailureTime
        (from_option sf_reason "" failure) (from_option sf_reconciliation_attempts 0 failure) created updated).

Definition readLocalIntentOnConnection (id : string) : mtx LocalIntentRecord :=
  row ← query (fun m => local_intents m !! id);
  row ← or_fail row ErrLocalIntentNotFound;
  failure ← query (fun m => local_remote_status_failures m !! id);
  lift (decodeLocalIntent id row failure).

Definition GetLocalIntent (m : Mirror) (id : string) : result LocalIntentRecord :=
  validatedID ← result_map_err (fun _ => ErrInvalidLocalIntent) (NewIntentID id);
  withMirrorRead m (readLocalIntentOnConnection validatedID).

Definition ValidateLocalIntentPayload (m : Mirror) (id : string) : result unit := GetLocalIntent m id;; Ok tt.

(** The loops of [readLocalIntentRows]. *)
Fixpoint newIntentIDs (ids : list string) : result (list string) :=
  match ids with
  | [] => Ok []
  | id :: rest => id ← corrupt (NewIntentID id); others ← newIntentIDs rest; Ok (id :: others)
  end.
Fixpoint readLocalIntents (ids : list string) : mtx (list LocalIntentRecord) :=
  match ids with
  | [] => mret []
  | id :: rest => record ← readLocalIntentOnConnection id; records ← readLocalIntents rest; mret (record :: records)
  end.
Definition readLocalIntentRows (values : list string) : mtx (list LocalIntentRecord) :=
  ids ← lift (newIntentIDs values); readLocalIntents ids.

(** The rows of a controller, compared by the texts of the columns. *)
Definition of_controller (controller : ControllerIdentity) (r : IntentRow) : bool :=
  bool_decide (ControllerType_text (controller_typeName (li_controller r)) = ControllerType_text (controller_typeName controller))
  && bool_decide (controller_id (li_controller r) = controller_id controller).

(** [ORDER BY created_at DESC, intent_id DESC] *)
Definition newest_first (rows : list (string * IntentRow)) : list (string * IntentRow) :=
  rev (merge_sort (listed_le li_created_at) rows).

Definition select_intents (p : string -> IntentRow -> bool) (m : Mirror) : list (string * IntentRow) :=
  map_to_list (rows_where p (local_intents m)).

Definition GetLocalIntentByResource (m : Mirror) (operation resourceID : string) (controller : ControllerIdentity)
    : result LocalIntentRecord :=
  refuse_if (is_empty operation || is_empty resourceID) ErrInvalidLocalIntent;;
  result_map_err (fun _ => ErrInvalidLocalIntent)
    (NewControllerIdentity (controller_typeName controller) (controller_id controller));;
  withMirrorRead m
    (rows ← query (fun m => newest_first (select_intents (fun _ r =>
       is_op (li_operation r) operation && bool_decide (li_resource_id r = resourceID) && of_controller controller r) m));
     row ← or_fail (head rows) ErrLocalIntentNotFound;
     id ← lift (corrupt (NewIntentID (fst row)));
     readLocalIntentOnConnection id).

Definition same_controller (left right : ControllerIdentity) : bool :=
  bool_decide (ControllerType_text (controller_typeName left) = ControllerType_text (controller_typeName right))
  && bool_decide (controller_id left = controller_id right).

Definition GetLocalIntentByCommand (m : Mirror) (commandID : string) (controller : ControllerIdentity)
    : result LocalIntentRecord :=
  validatedCommand ← result_map_err (fun _ => ErrInvalidLocalIntent) (NewCommandID commandID);
  result_map_err (fun _ => ErrInvalidLocalIntent)
    (NewControllerIdentity (controller_typeName controller) (controller_id controller));;
  withMirrorRead m
    (rows ← query (fun m => take 2 (newest_first (select_intents (fun _ r =>
       bool_decide (li_command_id r = validatedCommand) && of_controller controller r
       && (is_op (li_operation r) localIntentSubmitCommandOperation || is_op (li_operation r) localIntentRunOperation)) m)));
     intentIDs ← lift (newIntentIDs rows.*1);
     match intentIDs with
     | [] => throw ErrLocalIntentNotFound
     | [id] =>
         record ← readLocalIntentOnConnection id;
         fail_if (negb (bool_decide (lic_CommandID (lir_create record) = validatedCommand))
                  || negb (is_op (lic_Operation (lir_create record)) localIntentSubmitCommandOperation)
                     && negb (is_op (lic_Operation (lir_create record)) localIntentRunOperation)
                  || negb (same_controller (lic_Controller (lir_create record)) controller)) ErrLocalIntentPayloadCorrupt;;
         mret record
     | _ => throw ErrLocalIntentPayloadCorrupt
     end).

Definition GetLocalIntentByIdempotency (m : Mirror) (operation key : string) (controller : ControllerIdentity)
    : result LocalIntentRecord :=
  refuse_if (negb (validLocalIntentOperation operation) || is_empty (TrimSpace key) || (256 <? go_len key) || contains_nul key)
    ErrInvalidLocalIntent;;
  result_map_err (fun _ => ErrInvalidLocalIntent)
    (NewControllerIdentity (controller_typeName controller) (controller_id controller));;
  withMirrorRead m
    (row ← query (fun m => local_idempotency m !! idem_key controller operation key);
     row ← or_fail row ErrLocalIntentNotFound;
     id ← lift (corrupt (NewIntentID (lk_intent_id row)));
     record ← readLocalIntentOnConnection id;
     fail_if (negb (is_op (lic_Operation (lir_create record)) operation) || negb (bool_decide (lic_IdempotencyKey (lir_create record) = key))
              || negb (same_controller (lic_Controller (lir_create record)) controller)) ErrLocalIdempotencyCorrupt;;
     mret record).

(** The result carries [found]. *)
Definition LocalIntentIdempotencyExpiry (m : Mirror) (id : string) : result (option Z) :=
  validatedID ← result_map_err (fun _ => ErrInvalidLocalIntent) (NewIntentID id);
  withMirrorRead m
    (binding ← query (fun m => List.find (fun '(_, row) => bool_decide (lk_intent_id row = validatedID))
                                 (map_to_list (local_idempotency m)));
     match binding with
     | None => mret None
     | Some (key, row) =>
         intent ← readLocalIntentOnConnection validatedID;
         fail_if (negb (bool_decide (key = idem_key (lic_Controller (lir_create intent)) (lic_Operation (lir_create intent)) (lic_IdempotencyKey (lir_create intent))))
                  || negb (bool_decide (lk_resource_id row = lic_ResourceID (lir_create intent)))) ErrLocalIdempotencyCorrupt;;
         deadline ← or_fail (parseStoredTime (lk_expires_at row)) ErrLocalIdempotencyCorrupt;
         mret (Some deadline)
     end).

Fixpoint decodeLifecycle (id : string) (want : Z) (rows : list IntentLifecycleRow) : result (list LocalIntentLifecycleRecord) :=
  match rows with
  | [] => Ok []
  | row :: rest =>
      refuse_if (negb (il_sequence row =? want) || negb (validLocalIntentLifecycleState (il_new_state row)))
        ErrLocalIntentPayloadCorrupt;;
      occurredAt ← stored_instant (il_occurred_at row);
      refuse_if (match il_previous_state row with Some st => negb (validLocalIntentLifecycleState st) | None => false end)
        ErrLocalIntentPayloadCorrupt;;
      others ← decodeLifecycle id (want + 1) rest;
      Ok (mkLocalIntentLifecycleRecord id (il_sequence row) (il_previous_state row) (il_new_state row) (il_reason row) occurredAt
            :: others)
  end.

Definition lifecycle_le (x y : IntentLifecycleRow) : Prop := il_sequence x <= il_sequence y.
#[export] Instance lifecycle_le_dec x y : Decision (lifecycle_le x y).
Proof. unfold lifecycle_le. apply _. Defined.

Definition lifecycle_of (id : string) (m : Mirror) : list IntentLifecycleRow :=
  default [] (local_intent_lifecycle m !! id).

Definition ListLocalIntentLifecycle (m : Mirror) (id : string) : result (list LocalIntentLifecycleRecord) :=
  validatedID ← result_map_err (fun _ => ErrInvalidLocalIntent) (NewIntentID id);
  withMirrorRead m
    (readLocalIntentOnConnection validatedID;;
     rows ← query (fun m => merge_sort lifecycle_le (lifecycle_of validatedID m));
     result ← lift (decodeLifecycle validatedID 1 rows);
     fail_if (is_nil result) ErrLocalIntentPayloadCorrupt;;
     mret result).
