(* ===== verification/LocalIntentOps.v ===== *)
(** * Local intents: acceptance, delivery and leases

    Models the operations of [src/src/internal/store/local_intents.go] and
    [src/src/internal/store/remote_status_failures.go], and
    [MarkAcceptedRemoteRunProjectionsStale] of [src/src/internal/store/remote_jobs.go]:
    an intent is accepted once per idempotency key, is claimed under a lease in
    the order of its session, and moves through its delivery states, each change
    with a row of its lifecycle. *)
From S2P Require Import Prelude GoStrings Sha256 Identity Lifecycle Policy JsonText Canonical.
From S2P Require Import RunPayload LaneAdmission AuditRecords Db AuditStore AdmissionStore Idempotency Sessions.
From S2P Require Import Listings RemoteDb RemoteProjections RemoteEvents RemoteUpserts LocalIntents Commands.

(** ** Statements *)
Definition intent_checks (id : string) (r : IntentRow) : bool :=
  sql_length_pos id && validLocalIntentOperation (li_operation r) && sql_length_pos (li_resource_id r)
  && known_kind_b (target_kind (li_target r)) && sql_length_pos (target_profile (li_target r))
  && sql_length_pos (li_environment r) && known_controller_b (controller_typeName (li_controller r))
  && sql_length_pos (controller_id (li_controller r)) && bool_decide (known_mode (source_mode (li_source r)))
  && (0 <? li_request_hash_version r) && (go_len (li_request_hash r) =? 32) && sql_length_pos (li_idempotency_key r)
  && (0 <? go_len (li_payload_json r)) && (go_len (li_script_sha256 r) =? 32)
  && match li_intent_ordinal r with Some n => 0 <? n | None => true end
  && validLocalIntentDeliveryState (li_delivery_state r) && (0 <=? li_attempt_count r)
  && (0 <=? li_remote_terminal_proof_version r).

(** The index ux_local_command_intent_order. *)
Definition ordinal_taken (r : IntentRow) (m : Mirror) : bool :=
  is_op (li_operation r) localIntentSubmitCommandOperation && is_Some_b (li_intent_ordinal r)
  && exists_row (fun _ r' => is_op (li_operation r') localIntentSubmitCommandOperation
                             && bool_decide (li_session_id r' = li_session_id r)
                             && bool_decide (li_intent_ordinal r' = li_intent_ordinal r)) (local_intents m).

(** A violated UNIQUE constraint is ErrLocalIntentExists. *)
Definition insert_intent (id : string) (r : IntentRow) : mtx unit :=
  fail_if (negb (intent_checks id r)) (ErrSQL "insert local intent");;
  taken ← query (fun m => is_Some_b (local_intents m !! id) || ordinal_taken r m);
  fail_if taken ErrLocalIntentExists;;
  modify (fun m => set_intents (<[id := r]> (local_intents m)) m).

(** An UPDATE by key; its CHECK clauses hold by the values it is given. *)
Definition update_intent (id : string) (f : IntentRow -> IntentRow) : mtx unit :=
  modify (fun m => set_intents (alter f id (local_intents m)) m).

Definition intent_lifecycle_checks (row : IntentLifecycleRow) : bool :=
  (0 <? il_sequence row) && validLocalIntentLifecycleState (il_new_state row)
  && match il_previous_state row with Some st => validLocalIntentLifecycleState st | None => true end.

Definition insert_intent_lifecycle (id : string) (row : IntentLifecycleRow) : mtx unit :=
  refused ← query (fun m => negb (is_Some_b (local_intents m !! id))
    || existsb (fun r => il_sequence r =? il_sequence row) (lifecycle_of id m) || negb (intent_lifecycle_checks row));
  fail_if refused (ErrSQL "insert local intent lifecycle");;
  modify (fun m => set_intent_lifecycle (<[id := lifecycle_of id m ++ [row]]> (local_intent_lifecycle m)) m).

Definition local_idempotency_checks (controller : ControllerIdentity) (operation key : string) (r : LocalIdempotencyRow) : bool :=
  known_controller_b (controller_typeName controller) && sql_length_pos (controller_id controller)
  && validLocalIntentOperation operation && sql_length_pos key && (0 <? lk_hash_version r) && (go_len (lk_hash r) =? 32)
  && sql_length_pos (lk_intent_id r) && sql_length_pos (lk_resource_id r).

(** ** Acceptance *)
Definition intent_row (input : LocalIntentCreate) (now : Z) : IntentRow :=
  mkIntentRow (lic_Operation input) (lic_ResourceID input) (lic_SessionID input) (lic_CommandID input) (lic_JobID input)
    (lic_Target input) (lic_Environment input) (lic_Controller input) (lic_Source input)
    (hash_version (lic_RequestHash input)) (hash_digest (lic_RequestHash input)) (lic_IdempotencyKey input)
    (lic_PayloadJSON input) (lic_ScriptBytes input) (sha256 (lic_ScriptBytes input)) (lic_IntentOrdinal input)
    (lic_DeliveryState input) (lic_Reason input) 0 (lic_LeaseOwner input) (formatStoredTime <$> lic_LeaseExpiresAt input)
    (lic_AttemptCount input) (formatStoredTime now) (formatStoredTime now).

Definition insertLocalIntentOnConnection (input : LocalIntentCreate) (now : Z) : mtx unit :=
  insert_intent (lic_IntentID input) (intent_row input now).

Definition insertLocalIdempotencyOnConnection (input : LocalIntentCreate) (now : Z) : mtx unit :=
  fail_if (lic_IdempotencyRetention input <=? 0) ErrInvalidLocalIntent;;
  let key := idem_key (lic_Controller input) (lic_Operation input) (lic_IdempotencyKey input) in
  let row := mkLocalIdempotencyRow (hash_version (lic_RequestHash input)) (hash_digest (lic_RequestHash input))
    (lic_IntentID input) (lic_ResourceID input) (formatStoredTime now)
    (formatStoredTime (now + lic_IdempotencyRetention input)) in
  fail_if (negb (local_idempotency_checks (lic_Controller input) (lic_Operation input) (lic_IdempotencyKey input) row))
    (ErrSQL "insert local idempotency");;
  taken ← query (fun m => is_Some_b (local_idempotency m !! key));
  fail_if taken ErrIdempotencyConflict;;
  missing ← query (fun m => negb (is_Some_b (local_intents m !! lic_IntentID input)));
  fail_if missing (ErrSQL "insert local idempotency");;
  modify (fun m => set_local_idempotency (<[key := row]> (local_idempotency m)) m).

Definition lookupLocalIdempotencyOnConnection (controller : ControllerIdentity) (operation key : string) (now : Z)
    : mtx (option localIdempotencyBinding) :=
  let ikey := idem_key controller operation key in
  row ← query (fun m => local_idempotency m !! ikey);
  match row with
  | None => mret None
  | Some row =>
      hash ← lift (result_map_err (fun _ => ErrLocalIdempotencyCorrupt)
        (NewCanonicalHash (uint16 (lk_hash_version row)) (lk_hash row)));
      createdAt ← or_fail (parseStoredTime (lk_created_at row)) ErrLocalIdempotencyCorrupt;
      expiresAt ← or_fail (parseStoredTime (lk_expires_at row)) ErrLocalIdempotencyCorrupt;
      fail_if (is_empty (lk_intent_id row) || is_empty (lk_resource_id row) || negb (validLocalIntentOperation operation)
               || negb (result_is_ok (NewControllerIdentity (controller_typeName controller) (controller_id controller))))
        ErrLocalIdempotencyCorrupt;;
      if negb (now <? expiresAt) then
        modify (fun m => set_local_idempotency (delete ikey (local_idempotency m)) m);;
        mret None
      else
        mret (Some (mkLocalIdempotencyBinding controller operation key hash (lk_intent_id row) (lk_resource_id row)
                      createdAt expiresAt))
  end.

(** The largest [int64]. *)
Definition max_int64 : Z := 2 ^ 63 - 1.

Definition session_ordinals (sessionID : string) (m : Mirror) : list Z :=
  omap (fun '(_, r) => if is_op (li_operation r) localIntentSubmitCommandOperation && bool_decide (li_session_id r = sessionID)
                       then li_intent_ordinal r else None) (map_to_list (local_intents m)).

Definition nextLocalIntentOrdinalOnConnection (sessionID : string) : mtx Z :=
  ordinals ← query (session_ordinals sessionID);
  match ordinals with
  | [] => mret 1
  | n :: rest =>
      let maximum := foldr Z.max n rest in
      fail_if (maximum =? max_int64) ErrInvalidLocalIntent;;
      mret (maximum + 1)
  end.

Definition with_ordinal (ordinal : option Z) (i : LocalIntentCreate) : LocalIntentCreate :=
  mkLocalIntentCreate (lic_IntentID i) (lic_Operation i) (lic_ResourceID i) (lic_SessionID i) (lic_CommandID i) (lic_JobID i)
    (lic_Target i) (lic_Environment i) (lic_Controller i) (lic_Source i) (lic_RequestHash i) (lic_IdempotencyKey i)
    (lic_IdempotencyRetention i) (lic_PayloadJSON i) (lic_ScriptBytes i) ordinal (lic_DeliveryState i) (lic_Reason i)
    (lic_LeaseOwner i) (lic_LeaseExpiresAt i) (lic_AttemptCount i) (lic_MailboxSelection i).

Definition allocate_ordinal (validated : LocalIntentCreate) : mtx LocalIntentCreate :=
  if is_op (lic_Operation validated) localIntentSubmitCommandOperation && negb (is_Some_b (lic_IntentOrdinal validated)) then
    ordinal ← nextLocalIntentOrdinalOnConnection (lic_SessionID validated);
    mret (with_ordinal (Some ordinal) validated)
  else mret validated.

(** The rows of a fresh intent: the intent, its first lifecycle row, its binding. *)
Definition record_intent (validated : LocalIntentCreate) (now : Z) : mtx string :=
  validated ← allocate_ordinal validated;
  insertLocalIntentOnConnection validated now;;
  let initialState := if is_op (lic_Operation validated) localIntentCreateSessionOperation then LocalIntentRequested
                      else lic_DeliveryState validated in
  insert_intent_lifecycle (lic_IntentID validated)
    (mkIntentLifecycleRow 1 None initialState (lic_Reason validated) (formatStoredTime now));;
  insertLocalIdempotencyOnConnection validated now;;
  mret (lic_IntentID validated).

(** [ingress] is the value of the context, [wall] the clock [audit.NewRecord] reads. *)
Definition intent_audit (validated : LocalIntentCreate) (ingress : option Ingress) (wall : Z) : option AuditRecord :=
  match ActionForOperation (lic_Operation validated) with
  | None => None
  | Some action =>
      Some (mkAuditRecord 0 (lic_Controller validated) (IngressFromContext ingress) (lic_Environment validated)
              (lic_SessionID validated) (lic_CommandID validated) (lic_JobID validated) action OutcomeAllowed ""
              (lic_MailboxSelection validated) wall)
  end.

(** The body of the transaction; its result carries [duplicate] and the audit record as saved. *)
Definition accept_intent (runtime : bool) (validated : LocalIntentCreate) (actionAudit : option AuditRecord) (now : Z)
    : gtx (LocalIntentRecord * bool * option AuditRecord) :=
  on_db (checkIngressAdmissionOnConnection runtime);;
  existing ← on_tables (lookupLocalIdempotencyOnConnection (lic_Controller validated) (lic_Operation validated)
                          (lic_IdempotencyKey validated) now);
  match existing with
  | Some existing =>
      fail_if (is_conflict (CompareIdempotency (lib_Hash existing) (lic_RequestHash validated))) ErrIdempotencyConflict;;
      existingID ← lift (result_map_err (fun _ => ErrLocalIdempotencyCorrupt) (NewIntentID (lib_IntentID existing)));
      record ← on_tables (readLocalIntentOnConnection existingID);
      saved ← on_db (insertOptionalAuditOnConnection actionAudit);
      mret (record, true, saved)
  | None =>
      id ← on_tables (record_intent validated now);
      saved ← on_db (insertOptionalAuditOnConnection actionAudit);
      record ← on_tables (readLocalIntentOnConnection id);
      mret (record, false, saved)
  end.

Definition with_db (s : AuthorityStore) (d : DB) : AuthorityStore :=
  mkAuthorityStore d (laneAdmissionRuntime s) (published s) (audit_log s).

Definition AcceptLocalIntent (s : AuthorityStore) (m : Mirror) (now : Z) (ingress : option Ingress) (wall : Z)
    (input : LocalIntentCreate) : result (LocalIntentRecord * bool) * (AuthorityStore * Mirror) :=
  match validateLocalIntentCreate input with
  | Err e => (Err e, (s, m))
  | Ok validated =>
      match accept_intent (laneAdmissionRuntime s) validated (intent_audit validated ingress wall) now (db s, m) with
      | Err e => (Err e, (s, m))
      | Ok ((record, duplicate, saved), (d, m')) => (Ok (record, duplicate), (logOptionalAudit (with_db s d) saved, m'))
      end
  end.

Definition CreateLocalIntent (s : AuthorityStore) (m : Mirror) (now : Z) (ingress : option Ingress) (wall : Z)
    (input : LocalIntentCreate) : result LocalIntentRecord * (AuthorityStore * Mirror) :=
  let '(r, st) := AcceptLocalIntent s m now ingress wall input in
  (match r with Ok (record, _) => Ok record | Err e => Err e end, st).

(** ** Delivery states *)
Definition last_lifecycle (rows : list IntentLifecycleRow) : option IntentLifecycleRow := last (merge_sort lifecycle_le rows).
Definition next_lifecycle_sequence (rows : list IntentLifecycleRow) : Z := foldr Z.max 0 (il_sequence <$> rows) + 1.

Definition appendLocalIntentLifecycleOnConnection (id : string) (next : LocalIntentDeliveryState) (reason : string) (now : Z)
    : mtx unit :=
  sequence ← query (fun m => next_lifecycle_sequence (lifecycle_of id m));
  previous ← query (fun m => last_lifecycle (lifecycle_of id m));
  previous ← or_fail previous (ErrText "read local intent lifecycle predecessor");
  insert_intent_lifecycle id (mkIntentLifecycleRow sequence (Some (il_new_state previous)) next reason (formatStoredTime now)).

Definition with_delivery (state : LocalIntentDeliveryState) (proof : Z) (reason : string) (owner : string)
    (lease : option StoredTime) (attempts now : Z) (r : IntentRow) : IntentRow :=
  mkIntentRow (li_operation r) (li_resource_id r) (li_session_id r) (li_command_id r) (li_job_id r) (li_target r)
    (li_environment r) (li_controller r) (li_source r) (li_request_hash_version r) (li_request_hash r) (li_idempotency_key r)
    (li_payload_json r) (li_script_bytes r) (li_script_sha256 r) (li_intent_ordinal r) state reason proof owner lease attempts
    (li_created_at r) (formatStoredTime now).

(** [SET delivery_state = ?, reason = ?, updated_at = ?] *)
Definition with_state (state : LocalIntentDeliveryState) (reason : string) (now : Z) (r : IntentRow) : IntentRow :=
  with_delivery state (li_remote_terminal_proof_version r) reason (li_lease_owner r) (li_lease_expires_at r)
    (li_attempt_count r) now r.

Definition TransitionLocalIntent (m : Mirror) (now : Z) (id : string) (next : LocalIntentDeliveryState) (reason : string)
    : result LocalIntentRecord * Mirror :=
  match NewIntentID id with
  | Err _ => (Err ErrInvalidLocalIntent, m)
  | Ok validatedID =>
      if negb (validLocalIntentDeliveryState next) then (Err ErrLocalIntentTransition, m)
      else withMirrorTransaction m
        (current ← readLocalIntentOnConnection validatedID;
         let state := lic_DeliveryState (lir_create current) in
         if bool_decide (state = next) then mret current
         else
           fail_if (negb (localIntentStateTransitionAllowed state next)) ErrLocalIntentTransition;;
           update_intent validatedID (with_state next reason now);;
           appendLocalIntentLifecycleOnConnection validatedID next reason now;;
           readLocalIntentOnConnection validatedID)
  end.

(** ** Terminal proof *)
Definition remote_submit_or_run (i : LocalIntentCreate) : bool :=
  bool_decide (target_kind (lic_Target i) = TargetKindRemote)
  && (is_op (lic_Operation i) localIntentSubmitCommandOperation || is_op (lic_Operation i) localIntentRunOperation).

Definition HasRemoteTerminalProof (record : LocalIntentRecord) : bool :=
  remote_submit_or_run (lir_create record) && bool_decide (lic_DeliveryState (lir_create record) = LocalIntentReconciled)
  && (RemoteTerminalProofP149 <=? lir_RemoteTerminalProofVersion record).

(** [SET delivery_state = ?, remote_terminal_proof_version = ?, reason = ?, updated_at = ?] *)
Definition with_proof (reason : string) (now : Z) (r : IntentRow) : IntentRow :=
  with_delivery LocalIntentReconciled RemoteTerminalProofP149 reason (li_lease_owner r) (li_lease_expires_at r)
    (li_attempt_count r) now r.

Definition delete_status_failure (id : string) : mtx unit :=
  modify (fun m => set_status_failures (delete id (local_remote_status_failures m)) m).

Definition MarkRemoteIntentTerminalProof (m : Mirror) (now : Z) (id reason : string) : result LocalIntentRecord * Mirror :=
  match NewIntentID id with
  | Err _ => (Err ErrInvalidLocalIntent, m)
  | Ok validatedID =>
      if is_empty (TrimSpace reason) || (256 <? go_len reason) || contains_nul reason then (Err ErrLocalIntentTransition, m)
      else withMirrorTransaction m
        (current ← readLocalIntentOnConnection validatedID;
         let state := lic_DeliveryState (lir_create current) in
         fail_if (negb (remote_submit_or_run (lir_create current))) ErrLocalIntentTransition;;
         fail_if (negb (bool_decide (state = LocalIntentAccepted)) && negb (bool_decide (state = LocalIntentReconciled)))
           ErrLocalIntentTransition;;
         if HasRemoteTerminalProof current then mret current
         else
           update_intent validatedID (with_proof reason now);;
           sequence ← query (fun m => next_lifecycle_sequence (lifecycle_of validatedID m));
           insert_intent_lifecycle validatedID
             (mkIntentLifecycleRow sequence (Some state) LocalIntentReconciled reason (formatStoredTime now));;
           delete_status_failure validatedID;;
           readLocalIntentOnConnection validatedID)
  end.

(** ** Leases *)

(** The condition eligibleLocalIntentWhere. *)
Definition blocks (li prior : IntentRow) : bool :=
  bool_decide (li_session_id prior = li_session_id li) && is_op (li_operation prior) localIntentSubmitCommandOperation
  && match li_intent_ordinal prior, li_intent_ordinal li with Some p, Some n => p <? n | _, _ => false end
  && negb (bool_decide (li_delivery_state prior = LocalIntentReconciled))
  && negb (bool_decide (li_delivery_state prior = LocalIntentNotDelivered))
  && negb (bool_decide (target_kind (li_target prior) = TargetKindLocal)
           && bool_decide (li_delivery_state prior = LocalIntentAccepted)).

Definition eligibleLocalIntent (now : Z) (m : Mirror) (_ : string) (li : IntentRow) : bool :=
  bool_decide (li_delivery_state li = LocalIntentRecorded)
  && match li_lease_expires_at li with None => true | Some t => stored_le_b t (formatStoredTime now) end
  && (negb (is_op (li_operation li) localIntentSubmitCommandOperation) || negb (is_Some_b (li_intent_ordinal li))
      || negb (exists_row (fun _ prior => blocks li prior) (local_intents m))).

(** [ORDER BY (intent_ordinal IS NULL), intent_ordinal, created_at, intent_id] *)
Definition eligible_le (x y : string * IntentRow) : Prop :=
  match li_intent_ordinal (snd x), li_intent_ordinal (snd y) with
  | Some n, Some k => if n =? k then listed_le li_created_at x y else n < k
  | Some _, None => True
  | None, Some _ => False
  | None, None => listed_le li_created_at x y
  end.
#[export] Instance eligible_le_dec x y : Decision (eligible_le x y).
Proof. unfold eligible_le. destruct (li_intent_ordinal (snd x)), (li_intent_ordinal (snd y)); try apply _. destruct (_ =? _); apply _. Defined.

Definition eligibleLocalIntentQuery (now : Z) (m : Mirror) : list string :=
  (merge_sort eligible_le (select_intents (eligibleLocalIntent now m) m)).*1.

Definition findNextEligibleLocalIntentOnConnection (now : Z) : mtx string :=
  ids ← query (eligibleLocalIntentQuery now);
  value ← or_fail (head ids) ErrNoEligibleLocalIntent;
  lift (corrupt (NewIntentID value)).

Definition localIntentIsEligibleOnConnection (id : string) (now : Z) (m : Mirror) : bool :=
  match local_intents m !! id with Some li => eligibleLocalIntent now m id li | None => false end.

(** [SET delivery_state = 'dispatching', lease_owner = ?, lease_expires_at = ?,
    attempt_count = attempt_count + 1, reason = 'lease_claimed', updated_at = ?
    WHERE delivery_state = 'recorded'] *)
Definition with_claim (owner : string) (leaseDuration now : Z) (r : IntentRow) : IntentRow :=
  if bool_decide (li_delivery_state r = LocalIntentRecorded) then
    with_delivery LocalIntentDispatching (li_remote_terminal_proof_version r) "lease_claimed" owner
      (Some (formatStoredTime (now + leaseDuration))) (li_attempt_count r + 1) now r
  else r.

Definition claimLocalIntentOnConnection (id owner : string) (leaseDuration now : Z) : mtx LocalIntentRecord :=
  current ← readLocalIntentOnConnection id;
  fail_if (negb (bool_decide (lic_DeliveryState (lir_create current) = LocalIntentRecorded))) ErrNoEligibleLocalIntent;;
  fail_if (match lic_LeaseExpiresAt (lir_create current) with Some t => now <? t | None => false end) ErrLocalIntentLeaseHeld;;
  eligible ← query (localIntentIsEligibleOnConnection id now);
  fail_if (negb eligible) ErrNoEligibleLocalIntent;;
  update_intent id (with_claim owner leaseDuration now);;
  appendLocalIntentLifecycleOnConnection id LocalIntentDispatching "lease_claimed" now;;
  readLocalIntentOnConnection id.

Definition ClaimLocalIntent (m : Mirror) (now : Z) (id owner : string) (leaseDuration : Z) : result LocalIntentRecord * Mirror :=
  match NewIntentID id with
  | Err _ => (Err ErrInvalidLocalIntent, m)
  | Ok validatedID =>
      match validateLeaseRequest owner leaseDuration with
      | Err e => (Err e, m)
      | Ok _ => withMirrorTransaction m (claimLocalIntentOnConnection validatedID owner leaseDuration now)
      end
  end.

Definition ClaimNextLocalIntent (m : Mirror) (now : Z) (owner : string) (leaseDuration : Z) : result LocalIntentRecord * Mirror :=
  match validateLeaseRequest owner leaseDuration with
  | Err e => (Err e, m)
  | Ok _ => withMirrorTransaction m
      (id ← findNextEligibleLocalIntentOnConnection now;
       claimLocalIntentOnConnection id owner leaseDuration now)
  end.

(** [SET lease_expires_at = ?, updated_at = ? WHERE lease_owner = ?] *)
Definition with_lease (owner : string) (leaseDuration now : Z) (r : IntentRow) : IntentRow :=
  if bool_decide (li_lease_owner r = owner) then
    with_delivery (li_delivery_state r) (li_remote_terminal_proof_version r) (li_reason r) (li_lease_owner r)
      (Some (formatStoredTime (now + leaseDuration))) (li_attempt_count r) now r
  else r.

Definition RenewLocalIntentLease (m : Mirror) (now : Z) (id owner : string) (leaseDuration : Z)
    : result LocalIntentRecord * Mirror :=
  match NewIntentID id with
  | Err _ => (Err ErrInvalidLocalIntent, m)
  | Ok validatedID =>
      match validateLeaseRequest owner leaseDuration with
      | Err e => (Err e, m)
      | Ok _ => withMirrorTransaction m
          (current ← readLocalIntentOnConnection validatedID;
           let c := lir_create current in
           fail_if (negb (bool_decide (lic_DeliveryState c = LocalIntentDispatching))
                    && negb (bool_decide (lic_DeliveryState c = LocalIntentUncertain))) ErrLocalIntentLeaseLost;;
           fail_if (negb (bool_decide (lic_LeaseOwner c = owner))
                    || match lic_LeaseExpiresAt c with None => true | Some t => negb (now <? t) end) ErrLocalIntentLeaseLost;;
           update_intent validatedID (with_lease owner leaseDuration now);;
           readLocalIntentOnConnection validatedID)
      end
  end.

(** ** Listings *)
Definition effective_limit (limit : Z) : result Z :=
  let limit := if limit <=? 0 then 100 else limit in
  refuse_if (1000 <? limit) ErrInvalidLocalIntent;; Ok limit.

Definition ListEligibleLocalIntents (m : Mirror) (now limit : Z) : result (list LocalIntentRecord) :=
  limit ← effective_limit limit;
  withMirrorRead m
    (ids ← query (fun m => take (Z.to_nat limit) (eligibleLocalIntentQuery now m));
     readLocalIntentRows ids).

Definition accepted_remote (operation : string) (r : IntentRow) : bool :=
  is_op (li_operation r) operation && bool_decide (target_kind (li_target r) = TargetKindRemote)
  && (bool_decide (li_delivery_state r = LocalIntentAccepted)
      || bool_decide (li_delivery_state r = LocalIntentReconciled)
         && (li_remote_terminal_proof_version r <? RemoteTerminalProofP149)).

(** [created_at > ? OR (created_at = ? AND intent_id > ?)] *)
Definition after_cursor (cursor : option RemoteIntentCursor) (id : string) (r : IntentRow) : bool :=
  match cursor with
  | None => true
  | Some c =>
      let createdAt := formatStoredTime (ric_CreatedAt c) in
      if bool_decide (li_created_at r = createdAt) then negb (bool_decide (string_le id (ric_IntentID c)))
      else negb (stored_le_b (li_created_at r) createdAt)
  end.

Definition listAcceptedRemoteIntentsAfter (m : Mirror) (operation : string) (limit : Z) (after : option RemoteIntentCursor)
    : result (list LocalIntentRecord) :=
  limit ← effective_limit limit;
  refuse_if (negb (is_op operation localIntentRunOperation) && negb (is_op operation localIntentSubmitCommandOperation))
    ErrInvalidLocalIntent;;
  cursor ← match after with
           | None => Ok None
           | Some c =>
               refuse_if (IsZero (ric_CreatedAt c)) ErrInvalidLocalIntent;;
               intentID ← result_map_err (fun _ => ErrInvalidLocalIntent) (NewIntentID (ric_IntentID c));
               Ok (Some (mkRemoteIntentCursor (ric_CreatedAt c) intentID))
           end;
  withMirrorRead m
    (rows ← query (select_intents (fun id r => accepted_remote operation r && after_cursor cursor id r));
     readLocalIntentRows (take (Z.to_nat limit) (merge_sort (listed_le li_created_at) rows)).*1).

Definition ListAcceptedRemoteRunIntentsAfter (m : Mirror) (limit : Z) (after : option RemoteIntentCursor) :=
  listAcceptedRemoteIntentsAfter m localIntentRunOperation limit after.
Definition ListAcceptedRemoteRunIntents (m : Mirror) (limit : Z) := ListAcceptedRemoteRunIntentsAfter m limit None.
Definition ListAcceptedRemoteSubmitIntentsAfter (m : Mirror) (limit : Z) (after : option RemoteIntentCursor) :=
  listAcceptedRemoteIntentsAfter m localIntentSubmitCommandOperation limit after.
Definition ListAcceptedRemoteSubmitIntents (m : Mirror) (limit : Z) := ListAcceptedRemoteSubmitIntentsAfter m limit None.

Definition recoverable (now : Z) (_ : string) (r : IntentRow) : bool :=
  (bool_decide (li_delivery_state r = LocalIntentDispatching) || bool_decide (li_delivery_state r = LocalIntentUncertain))
  && match li_lease_expires_at r with Some t => stored_le_b t (formatStoredTime now) | None => false end.

(** [ORDER BY lease_expires_at, created_at, intent_id] *)
Definition recovery_le (x y : string * IntentRow) : Prop :=
  match li_lease_expires_at (snd x), li_lease_expires_at (snd y) with
  | Some t, Some u => if bool_decide (t = u) then listed_le li_created_at x y else stored_le t u
  | None, _ => True
  | Some _, None => False
  end.
#[export] Instance recovery_le_dec x y : Decision (recovery_le x y).
Proof. unfold recovery_le. destruct (li_lease_expires_at (snd x)), (li_lease_expires_at (snd y)); try apply _. destruct (bool_decide _); apply _. Defined.

Definition ListRecoverableLocalIntents (m : Mirror) (now limit : Z) : result (list LocalIntentRecord) :=
  limit ← effective_limit limit;
  withMirrorRead m
    (rows ← query (select_intents (recoverable now));
     readLocalIntentRows (take (Z.to_nat limit) (merge_sort recovery_le rows)).*1).

(** ** Status failures of accepted runs *)
Definition accepted_remote_run (i : LocalIntentCreate) : bool :=
  is_op (lic_Operation i) localIntentRunOperation && bool_decide (target_kind (lic_Target i) = TargetKindRemote)
  && bool_decide (lic_DeliveryState i = LocalIntentAccepted).

Definition count_failure (now : Z) (code : string) (f : option StatusFailureRow) : StatusFailureRow :=
  match f with
  | None => mkStatusFailureRow (formatStoredTime now) code 1
  | Some f => mkStatusFailureRow (sf_first_observed_at f) (sf_reason f) (sf_reconciliation_attempts f + 1)
  end.

Definition MarkAcceptedRemoteRunStatusFailure (m : Mirror) (now : Z) (id code : string) : result LocalIntentRecord * Mirror :=
  match NewIntentID id with
  | Err _ => (Err ErrInvalidLocalIntent, m)
  | Ok validatedID =>
      if negb (bool_decide (code = RemoteStatusFailureCodeUnavailable)) then (Err ErrInvalidLocalIntent, m)
      else withMirrorTransaction m
        (intent ← readLocalIntentOnConnection validatedID;
         fail_if (negb (accepted_remote_run (lir_create intent))) ErrInvalidLocalIntent;;
         modify (fun m => set_status_failures
           (<[validatedID := count_failure now code (local_remote_status_failures m !! validatedID)]>
              (local_remote_status_failures m)) m);;
         readLocalIntentOnConnection validatedID)
  end.

Definition ClearAcceptedRemoteRunStatusFailure (m : Mirror) (id : string) : result LocalIntentRecord * Mirror :=
  match NewIntentID id with
  | Err _ => (Err ErrInvalidLocalIntent, m)
  | Ok validatedID =>
      withMirrorTransaction m
        (intent ← readLocalIntentOnConnection validatedID;
         fail_if (negb (accepted_remote_run (lir_create intent))) ErrInvalidLocalIntent;;
         delete_status_failure validatedID;;
         readLocalIntentOnConnection validatedID)
  end.

(** ** Projections of accepted runs (store/remote_jobs.go) *)
Definition acceptedRemoteRunProjectionMatchesIntent (intent : LocalIntentRecord) (p : RemoteJobProjection) : bool :=
  let i := lir_create intent in
  accepted_remote_run i && bool_decide (lic_JobID i = jp_JobID p) && bool_decide (lic_SessionID i = jp_SessionID p)
  && bool_decide (lic_CommandID i = jp_CommandID p) && bool_decide (lic_Target i = jp_Target p)
  && bool_decide (lic_Controller i = jp_Controller p) && bool_decide (lic_Environment i = jp_Environment p)
  && sourcesEqual (lic_Source i) (jp_Source p).

Fixpoint markRunsStale (marked : Z) (intentIDs : list string) : mtx Z :=
  match intentIDs with
  | [] => mret marked
  | intentID :: rest =>
      intent ← readLocalIntentOnConnection intentID;
      projection ← lookup_projection (readRemoteJobProjectionOnConnection (lic_JobID (lir_create intent)));
      match projection with
      | None => markRunsStale marked rest
      | Some p =>
          if jp_IsStale p || negb (acceptedRemoteRunProjectionMatchesIntent intent p) then markRunsStale marked rest
          else update_remote_job (jp_JobID p) job_stale;; markRunsStale (marked + 1) rest
      end
  end.

Definition MarkAcceptedRemoteRunProjectionsStale (m : Mirror) : result Z * Mirror :=
  withMirrorTransaction m
    (rows ← query (select_intents (fun _ r => is_op (li_operation r) localIntentRunOperation
       && bool_decide (target_kind (li_target r) = TargetKindRemote) && bool_decide (li_delivery_state r = LocalIntentAccepted)));
     intentIDs ← lift (mapM_result NewIntentID rows.*1);
     markRunsStale 0 intentIDs).
