(* ===== verification/BridgeJson.v ===== *)
(** * JSON values of the bridge as Go values

    What the dispatcher uses of [encoding/json], [time] and [encoding/base64]
    when it reads a reply of a remote host: decoding into strings, numbers,
    booleans, times and structs.  A raw message is the value its text denotes. *)
From Stdlib Require Import String.
From S2P Require Import Prelude GoStrings Policy JsonText Canonical RunPayload.

(** ** Objects *)

(** A Go map keeps the last of the members with one key. *)
Definition member (object : list (string * json)) (key : string) : option json :=
  snd <$> List.find (fun field => bool_decide (fst field = key)) (rev object).

(** [json.Marshal] writes the entries of a map in the order of their keys. *)
Definition marshal_map (fields : list (string * json)) : json := JObject (merge_sort field_le fields).

(** ** Numbers and booleans; null leaves the variable as it is. *)
Definition int64_range (n : Z) : bool := (- 2 ^ 63 <=? n) && (n <? 2 ^ 63).

Definition Unmarshal_int64 (current : Z) (value : json) : option Z :=
  match value with
  | JNumber literal => n ← parse_int (bytes_of literal); if int64_range n then Some n else None
  | JNull => Some current
  | _ => None
  end.

Definition Unmarshal_bool (current : bool) (value : json) : option bool :=
  match value with JBool b => Some b | JNull => Some current | _ => None end.

(** *** A number as a [float64] *)

(** The literal is [coefficient * 10 ^ exponent]. *)
Definition number_value (literal : string) : option (Z * Z) :=
  let '(mantissa, exponent) :=
    match split_at_first (fun b => (b =? 101) || (b =? 69)) (bytes_of literal) with
    | Some (m, e) => (m, parse_int (trim_plus e))
    | None => (bytes_of literal, Some 0)
    end in
  let '(digits, fraction) :=
    match split_at_first (fun b => b =? 46) mantissa with Some (d, f) => (d, f) | None => (mantissa, []) end in
  coefficient ← parse_int (digits ++ fraction);
  exponent ← exponent;
  Some (coefficient, exponent - Z.of_nat (length fraction)).

(** Division rounded to the nearest integer, halves to the even one. *)
Definition div_half_even (p q : Z) : Z :=
  let d := p / q in
  let r := 2 * (p mod q) in
  if (r <? q) || ((r =? q) && Z.even d) then d else d + 1.

(** The nearest [float64] of a literal as [n * 2 ^ e]: 53 bits of
    precision, no bit below [2 ^ -1074]; an overflow is an error. *)
Definition float64_of (literal : string) : option (Z * Z) :=
  '(c, e) ← number_value literal;
  let a := Z.abs c in
  if a =? 0 then Some (0, 0)
  else if 400 <? e + 3 * Z.log2 a / 10 then None
  else if e + 31 * (Z.log2 a + 1) / 100 <? - 400 then Some (0, 0)
  else
    let p := a * 10 ^ Z.max 0 e in
    let q := 10 ^ Z.max 0 (- e) in
    let top := Z.log2 p - Z.log2 q - (if p * 2 ^ Z.max 0 (Z.log2 q - Z.log2 p) <? q * 2 ^ Z.max 0 (Z.log2 p - Z.log2 q) then 1 else 0) in
    let shift := Z.max (-1074) (top - 52) in
    let n := div_half_even (p * 2 ^ Z.max 0 (- shift)) (q * 2 ^ Z.max 0 shift) in
    if (0 <=? shift) && (2 ^ 1024 <=? n * 2 ^ shift) then None else Some (Z.sgn c * n, shift).

(** The float as an [int64], when it is one and not negative. *)
Definition float_int64 (literal : string) : option Z :=
  '(n, e) ← float64_of literal;
  if n <? 0 then None
  else if 0 <=? e then (let v := n * 2 ^ e in if v <? 2 ^ 63 then Some v else None)
  else if n mod 2 ^ (- e) =? 0 then Some (n / 2 ^ (- e)) else None.

(** Decoding into [any] refuses a number that no float reaches. *)
Fixpoint any_decodes (value : json) : bool :=
  match value with
  | JNumber literal => bool_decide (is_Some (float64_of literal))
  | JArray items => forallb any_decodes items
  | JObject fields => forallb (fun '(_, x) => any_decodes x) fields
  | _ => true
  end.

(** ** time.Time: the strict RFC 3339 form *)
Definition digit (b : Z) : option Z := if is_digit b then Some (b - 48) else None.

Fixpoint digits_value (acc : Z) (l : list Z) : option Z :=
  match l with [] => Some acc | b :: l => d ← digit b; digits_value (10 * acc + d) l end.

(** The next [n] bytes are a number between [lo] and [hi]. *)
Definition read_uint (n : nat) (lo hi : Z) (l : list Z) : option (Z * list Z) :=
  if (length l <? n)%nat then None
  else v ← digits_value 0 (take n l); if in_range lo hi v then Some (v, drop n l) else None.

Definition read_byte (b : Z) (l : list Z) : option (list Z) :=
  match l with x :: l => if x =? b then Some l else None | [] => None end.

Definition leap (year : Z) : bool := (year mod 4 =? 0) && (negb (year mod 100 =? 0) || (year mod 400 =? 0)).

Definition days_in (year month : Z) : Z :=
  if month =? 2 then (if leap year then 29 else 28)
  else if (month =? 4) || (month =? 6) || (month =? 9) || (month =? 11) then 30 else 31.

Definition days_before_year (year : Z) : Z :=
  let y := year - 1 in 365 * y + y / 4 - y / 100 + y / 400.

Definition days_before_month (year month : Z) : Z :=
  foldr Z.add 0 (days_in year <$> seqZ 1 (month - 1)).

(** Nine digits of a fraction; further ones are dropped. *)
Definition read_nanoseconds (l : list Z) : option (Z * list Z) :=
  match l with
  | 46 :: rest =>
      let '(ds, rest) := span_digits rest in
      if is_nil ds then None
      else v ← digits_value 0 (take 9 ds); Some (v * 10 ^ (9 - Z.of_nat (length (take 9 ds))), rest)
  | _ => Some (0, l)
  end.

(** The offset of the zone in seconds. *)
Definition read_zone (l : list Z) : option Z :=
  match l with
  | [90] => Some 0
  | sign :: rest =>
      negative ← (if sign =? 45 then Some true else if sign =? 43 then Some false else None);
      '(h, rest) ← read_uint 2 0 23 rest;
      rest ← read_byte 58 rest;
      '(m, rest) ← read_uint 2 0 59 rest;
      if is_nil rest then Some ((if negative : bool then -1 else 1) * (3600 * h + 60 * m)) else None
  | [] => None
  end.

Definition parse_RFC3339 (text : string) : option Z :=
  '(year, l) ← read_uint 4 0 9999 (bytes_of text);
  l ← read_byte 45 l;
  '(month, l) ← read_uint 2 1 12 l;
  l ← read_byte 45 l;
  '(day, l) ← read_uint 2 1 (days_in year month) l;
  l ← read_byte 84 l;
  '(hh, l) ← read_uint 2 0 23 l;
  l ← read_byte 58 l;
  '(mm, l) ← read_uint 2 0 59 l;
  l ← read_byte 58 l;
  '(ss, l) ← read_uint 2 0 59 l;
  '(nanos, l) ← read_nanoseconds l;
  zone ← read_zone l;
  let days := days_before_year year + days_before_month year month + (day - 1) in
  Some ((86400 * days + 3600 * hh + 60 * mm + ss - zone) * second + nanos).

Definition Unmarshal_time (current : Z) (value : json) : option Z :=
  match value with JString text => parse_RFC3339 text | JNull => Some current | _ => None end.

(** ** base64.StdEncoding *)
Definition base64_value (b : Z) : option Z :=
  if in_range 65 90 b then Some (b - 65)
  else if in_range 97 122 b then Some (b - 71)
  else if in_range 48 57 b then Some (b + 4)
  else if b =? 43 then Some 62
  else if b =? 47 then Some 63
  else None.

Fixpoint base64_quads (l : list Z) : option (list Z) :=
  match l with
  | [] => Some []
  | b0 :: b1 :: b2 :: b3 :: rest =>
      v0 ← base64_value b0;
      v1 ← base64_value b1;
      if b3 =? 61 then
        if negb (is_nil rest) then None
        else if b2 =? 61 then Some [4 * v0 + v1 / 16]
        else v2 ← base64_value b2; Some [4 * v0 + v1 / 16; (v1 mod 16) * 16 + v2 / 4]
      else
        v2 ← base64_value b2;
        v3 ← base64_value b3;
        out ← base64_quads rest;
        Some (4 * v0 + v1 / 16 :: (v1 mod 16) * 16 + v2 / 4 :: (v2 mod 4) * 64 + v3 :: out)
  | _ => None
  end.

(** Line breaks are skipped. *)
Definition base64_decode (text : string) : option string :=
  string_of <$> base64_quads (List.filter (fun b => negb ((b =? 10) || (b =? 13))) (bytes_of text)).

(** ** Structs *)

(** The members of an object that fall into fields of a struct, under the name
    of the field; with [DisallowUnknownFields] every member must. *)
Fixpoint field_members (strict : bool) (names : list string) (members : list (string * json)) : option (list (string * json)) :=
  match members with
  | [] => Some []
  | (key, value) :: rest =>
      others ← field_members strict names rest;
      match struct_field names key with
      | Some name => Some ((name, value) :: others)
      | None => if strict then None else Some others
      end
  end.

Definition struct_members (strict : bool) (names : list string) (value : json) : option (list (string * json)) :=
  match value with
  | JObject members => field_members strict names members
  | JNull => Some []
  | _ => None
  end.

(** The field [name], filled by every one of its members in turn. *)
Definition struct_value {A} (decode : A -> json -> option A) (zero : A) (name : string) (members : list (string * json))
    : option A :=
  fold_left (fun acc '(key, value) => if bool_decide (key = name) then a ← acc; decode a value else acc) members (Some zero).

(** Into a [map[string]any]: an object adds its members, null empties the map. *)
Definition Unmarshal_any_map (current : option (list (string * json))) (value : json) : option (option (list (string * json))) :=
  match value with
  | JObject members => if forallb (fun '(_, x) => any_decodes x) members then Some (Some (default [] current ++ members)) else None
  | JNull => Some None
  | _ => None
  end.

(** ** Examples *)
Example time_utc : parse_RFC3339 "2026-03-01T12:30:45.25Z" = Some (63907965045 * second + 250000000).
Proof. vm_compute. reflexivity. Qed.
Example time_zone : parse_RFC3339 "2026-03-01T14:30:45.25+02:00" = parse_RFC3339 "2026-03-01T12:30:45.25Z".
Proof. vm_compute. reflexivity. Qed.
Example time_refused : parse_RFC3339 "2026-02-29T00:00:00Z" = None /\ parse_RFC3339 "2026-03-01T1:30:45Z" = None.
Proof. split; vm_compute; reflexivity. Qed.
Example base64_text : base64_decode "aGVsbG8sIHdvcmxkCg==" = Some (string_of (bytes_of "hello, world" ++ [10])).
Proof. vm_compute. reflexivity. Qed.
Example float_exact : float_int64 "12" = Some 12 /\ float_int64 "1.2e1" = Some 12 /\ float_int64 "12.5" = None
  /\ float_int64 "9007199254740993" = Some 9007199254740992 /\ float_int64 "1e400" = None /\ float_int64 "-1" = None.
Proof. repeat split; vm_compute; reflexivity. Qed.
