(* ===== verification/WireJson.v ===== *)
(** * JSON texts of the mailbox

    What the mailbox files of the store use of [encoding/json] on texts:
    [json.Unmarshal] of any JSON text, [json.Marshal] of structs and of maps of
    raw messages (compacted, with [escapeHTML] on), and the RFC 3339 text of an
    instant.  Values are those of [JsonText]; [BridgeJson] decodes them. *)
From Stdlib Require Import String.
From S2P Require Import JsonLemmas.
From S2P Require Import Prelude GoStrings Policy JsonText Canonical RunPayload LaneAdmission Db Listings BridgeJson.

(** ** json.Unmarshal *)

(** [unquote]: every byte that is not part of a rune becomes U+FFFD. *)
Fixpoint coerce_utf8 (l : list Z) : list Z :=
  match l with
  | [] => []
  | b0 :: l0 =>
      if b0 <? 0x80 then b0 :: coerce_utf8 l0
      else
        match l0 with
        | b1 :: l1 =>
            if in_range 0xC2 0xDF b0 && continuation b1 then b0 :: b1 :: coerce_utf8 l1
            else
              match l1 with
              | b2 :: l2 =>
                  if in_range 0xE0 0xEF b0 && second3 b0 b1 && continuation b2 then b0 :: b1 :: b2 :: coerce_utf8 l2
                  else
                    match l2 with
                    | b3 :: l3 =>
                        if in_range 0xF0 0xF4 b0 && second4 b0 b1 && continuation b2 && continuation b3
                        then b0 :: b1 :: b2 :: b3 :: coerce_utf8 l3
                        else encode_rune replacement_char ++ coerce_utf8 l0
                    | [] => encode_rune replacement_char ++ coerce_utf8 l0
                    end
              | [] => encode_rune replacement_char ++ coerce_utf8 l0
              end
        | [] => encode_rune replacement_char
        end
  end.

Definition scan_key (l : list Z) : option (string * list Z) :=
  match skip_space l with
  | b :: l =>
      if b =? quote then
        '(key, l) ← scan_string l;
        l ← read_byte 58 (skip_space l);
        Some (string_of (coerce_utf8 key), l)
      else None
  | [] => None
  end.

Definition scan_scalar (b : Z) (rest : list Z) : option (json * list Z) :=
  '(v, r) ← scan_value b rest;
  Some (match v with JString s => JString (string_of (coerce_utf8 (bytes_of s))) | _ => v end, r).

(** One value and what follows it; [fuel] bounds the values on the way. *)
Fixpoint scan_json (fuel : nat) (l : list Z) : option (json * list Z) :=
  match fuel, skip_space l with
  | O, _ | _, [] => None
  | S fuel, b :: rest =>
      if b =? 91 then
        match read_byte 93 (skip_space rest) with
        | Some r => Some (JArray [], r)
        | None => '(items, r) ← scan_items fuel rest; Some (JArray items, r)
        end
      else if b =? 123 then
        match read_byte 125 (skip_space rest) with
        | Some r => Some (JObject [], r)
        | None => '(members, r) ← scan_members fuel rest; Some (JObject ((fun '(k, _, v) => (k, v)) <$> members), r)
        end
      else scan_scalar b rest
  end
with scan_items (fuel : nat) (l : list Z) : option (list json * list Z) :=
  match fuel with
  | O => None
  | S fuel =>
      '(item, l) ← scan_json fuel l;
      match read_byte 44 (skip_space l) with
      | Some l => '(items, r) ← scan_items fuel l; Some (item :: items, r)
      | None => r ← read_byte 93 (skip_space l); Some ([item], r)
      end
  end
(** The members with the raw text of their values. *)
with scan_members (fuel : nat) (l : list Z) : option (list (string * list Z * json) * list Z) :=
  match fuel with
  | O => None
  | S fuel =>
      '(key, l) ← scan_key l;
      '(value, r) ← scan_json fuel l;
      let raw := take (length l - length r) l in
      match read_byte 44 (skip_space r) with
      | Some l => '(members, r) ← scan_members fuel l; Some ((key, raw, value) :: members, r)
      | None => r ← read_byte 125 (skip_space r); Some ([(key, raw, value)], r)
      end
  end.

Definition scan_bound (l : list Z) : nat := 2 * length l + 1.

(** The value of a text that is one JSON value. *)
Definition parse_json (raw : string) : option json :=
  let l := bytes_of raw in
  '(v, rest) ← scan_json (scan_bound l) l;
  if is_nil (skip_space rest) && (json_depth v <=? maxNestingDepth) then Some v else None.

(** Into a [map[string]json.RawMessage] that must not be nil: the raw texts of
    the members, the last one of a key counts. *)
Definition Unmarshal_raw_map (raw : string) : option (list (string * list Z)) :=
  match parse_json raw with
  | Some (JObject _) =>
      match skip_space (bytes_of raw) with
      | _ :: l =>
          match read_byte 125 (skip_space l) with
          | Some _ => Some []
          | None => option_map (fun found => fst <$> fst found) (scan_members (scan_bound l) l)
          end
      | [] => None
      end
  | _ => None
  end.

(** ** json.Marshal *)

(** [escapeHTML] *)
Definition escape_html (l : list Z) : list Z :=
  flat_map (fun b => if (b =? 60) || (b =? 62) || (b =? 38)
                     then [backslash; 117; 48; 48; hex_digit (b / 16); hex_digit (b mod 16)] else [b]) l.

Definition marshal_string (s : string) : list Z := [quote] ++ escape_html (escape_string (bytes_of s)) ++ [quote].
Definition marshal_bool (b : bool) : list Z := bytes_of (if b then "true" else "false").
Definition marshal_int (n : Z) : list Z := print_int n.

(** [appendCompact] of a raw message: no blanks outside strings; the bytes that
    HTML or JavaScript would read are escaped. *)
Fixpoint compact (in_string : bool) (l : list Z) : list Z :=
  match l with
  | [] => []
  | b :: rest =>
      if in_string then
        if b =? backslash then
          match rest with c :: rest => b :: c :: compact true rest | [] => [b] end
        else
          match rest with
          | b1 :: c :: rest' =>
              if (b =? 0xE2) && (b1 =? 0x80) && ((c =? 0xA8) || (c =? 0xA9)) then [backslash; 117; 50; 48; 50; hex_digit (c mod 16)] ++ compact true rest'
              else escape_html [b] ++ compact (negb (b =? quote)) rest
          | _ => escape_html [b] ++ compact (negb (b =? quote)) rest
          end
      else if is_json_space b then compact false rest
      else b :: compact (b =? quote) rest
  end.

(** The fields of a struct that are present. *)
Definition marshal_fields (fields : list (option (string * list Z))) : list Z :=
  [123] ++ join_commas ((fun '(name, text) => marshal_string name ++ [58] ++ text) <$> omap id fields) ++ [125].

Definition field (name : string) (text : list Z) : option (string * list Z) := Some (name, text).
(** [omitempty] *)
Definition field_nonempty (name value : string) : option (string * list Z) :=
  if is_empty value then None else Some (name, marshal_string value).
Definition field_optional {A} (marshal : A -> list Z) (name : string) (value : option A) : option (string * list Z) :=
  v ← value; Some (name, marshal v).

(** A map: one entry per key, in the order of the keys. *)
Definition last_entries (entries : list (string * list Z)) : list (string * list Z) :=
  map_to_list (fold_left (fun (acc : gmap string (list Z)) '(k, v) => <[k := v]> acc) entries ∅).
Definition marshal_raw_map (entries : list (string * list Z)) : list Z :=
  [123] ++ join_commas ((fun '(key, raw) => marshal_string key ++ [58] ++ compact false raw) <$> merge_sort field_le (last_entries entries))
    ++ [125].

(** ** Pointers and nested structs *)
Definition Unmarshal_pointer {A} (decode : A -> json -> option A) (zero : A) (current : option A) (value : json) : option (option A) :=
  match value with JNull => Some None | _ => Some <$> decode (default zero current) value end.

(** ** The text of an instant, as [formatStoredTime] writes it *)
Definition year_of_days (days : Z) : Z :=
  let y := days * 400 / 146097 + 1 in
  if days_before_year (y + 1) <=? days then y + 1 else if days <? days_before_year y then y - 1 else y.
Definition month_of_day (year day : Z) : Z :=
  Z.of_nat (length (List.filter (fun m => days_before_month year m <=? day) (seqZ 1 12))).

Definition format_RFC3339Nano (t : Z) : string :=
  let seconds := t / second in
  let days := seconds / 86400 in
  let clock := seconds mod 86400 in
  let year := year_of_days days in
  let day := days - days_before_year year in
  let month := month_of_day year day in
  (string_of (decimal_digits 4 year ++ [45] ++ decimal_digits 2 month ++ [45] ++ decimal_digits 2 (day - days_before_month year month + 1)
      ++ [84] ++ decimal_digits 2 (clock / 3600) ++ [58] ++ decimal_digits 2 (clock / 60 mod 60) ++ [58] ++ decimal_digits 2 (clock mod 60))
    ++ fraction_text (t mod second))%string.

(** ** Examples *)

(** A JSON text written with single quotes. *)
Definition in_quotes (text : string) : string := string_of ((fun b => if b =? 39 then quote else b) <$> bytes_of text).

Example parse_nested : parse_json (in_quotes " { 'a' : [1, null, {} ] , 'b':'x\u0041' }") =
  Some (JObject [("a", JArray [JNumber "1"; JNull; JObject []]); ("b", JString "xA")]).
Proof. vm_compute. reflexivity. Qed.
Example parse_refused : parse_json (in_quotes "{'a':1,}") = None /\ parse_json "[1 2]" = None /\ parse_json "1 1" = None /\ parse_json "" = None.
Proof. repeat split; vm_compute; reflexivity. Qed.
Example raw_map_sorted : string_of <$> (marshal_raw_map <$> Unmarshal_raw_map (in_quotes "{'b': [1 , '<'], 'a':{ } ,'b':[ 2.50, '<' ]}")) =
  Some (in_quotes "{'a':{},'b':[2.50,'\u003c']}").
Proof. vm_compute. reflexivity. Qed.
Example format_time : format_RFC3339Nano (63907965045 * second + 250000000) = "2026-03-01T12:30:45.25Z".
Proof. vm_compute. reflexivity. Qed.
Example format_new_year : format_RFC3339Nano 1 = "0001-01-01T00:00:00.000000001Z"
  /\ format_RFC3339Nano (days_before_year 2025 * 86400 * second - 1) = "2024-12-31T23:59:59.999999999Z".
Proof. split; vm_compute; reflexivity. Qed.

(** ** The reader of JSON texts needs no more fuel

    [WireJson.scan_json] reads a text with fuel; what it reads is shorter than the
    text, so the bound that [WireJson.parse_json] uses is never the reason for a
    failure. *)

Lemma read_byte_shorter b l r : read_byte b l = Some r -> (length r < length l)%nat.
Proof. unfold read_byte. destruct l as [|x l]; [done|]. case_match; [|done]. intros [= <-]. cbn. lia. Qed.

Lemma scan_key_shorter l k r : scan_key l = Some (k, r) -> (length r < length l)%nat.
Proof.
  unfold scan_key. pose proof (skip_space_shorter l). destruct (skip_space l) as [|b l1]; [done|]. cbn in *. case_match; [|done].
  destruct (scan_string l1) as [[key l2]|] eqn:Hs; [|done]. apply scan_string_shorter in Hs. cbn.
  pose proof (skip_space_shorter l2). destruct (read_byte 58 (skip_space l2)) as [l3|] eqn:Hb; [|done]. apply read_byte_shorter in Hb.
  intros [= <- <-]. lia.
Qed.

Lemma scan_scalar_shorter b l v r : scan_scalar b l = Some (v, r) -> (length r < S (length l))%nat.
Proof.
  unfold scan_scalar. destruct (scan_value b l) as [[v' r']|] eqn:Hv; [|done]. apply scan_value_shorter in Hv. cbn. intros [= <- <-]. lia.
Qed.

(** What is read is shorter than the text. *)
Definition shorter {A} (l : list Z) (o : option (A * list Z)) : Prop := forall a r, o = Some (a, r) -> (length r < length l)%nat.

Lemma scan_enough f1 : forall f2,
  (forall l, (2 * length l + 1 <= f1)%nat -> (2 * length l + 1 <= f2)%nat -> scan_json f1 l = scan_json f2 l /\ shorter l (scan_json f1 l)) /\
  (forall l, (2 * length l + 2 <= f1)%nat -> (2 * length l + 2 <= f2)%nat -> scan_items f1 l = scan_items f2 l /\ shorter l (scan_items f1 l)) /\
  (forall l, (2 * length l + 1 <= f1)%nat -> (2 * length l + 1 <= f2)%nat -> scan_members f1 l = scan_members f2 l /\ shorter l (scan_members f1 l)).
Proof.
  induction f1 as [|f1 IH]; intros f2; [split_and!; intros; lia|]. destruct f2 as [|f2]; [split_and!; intros; lia|].
  destruct (IH f2) as (IHj & IHi & IHm). split_and!; intros l H1 H2; cbn [scan_json scan_items scan_members].
  - pose proof (skip_space_shorter l). destruct (skip_space l) as [|b rest]; [by split|]. cbn [length] in *.
    destruct (IHi rest) as [<- Hi]; [lia..|]. destruct (IHm rest) as [<- Hm]; [lia..|]. split; [done|]. intros v r.
    repeat case_match; try (intros Hv; apply scan_scalar_shorter in Hv; lia).
    + intros [= <- <-]. match goal with E : read_byte _ _ = Some _ |- _ => apply read_byte_shorter in E end. pose proof (skip_space_shorter rest). lia.
    + destruct (scan_items f1 rest) as [[items r']|]; [|done]. cbn. intros [= <- <-]. specialize (Hi _ _ eq_refl). lia.
    + intros [= <- <-]. match goal with E : read_byte _ _ = Some _ |- _ => apply read_byte_shorter in E end. pose proof (skip_space_shorter rest). lia.
    + destruct (scan_members f1 rest) as [[ms r']|]; [|done]. cbn. intros [= <- <-]. specialize (Hm _ _ eq_refl). lia.
  - destruct (IHj l) as [<- Hj]; [lia..|]. destruct (scan_json f1 l) as [[v r]|]; [|by split]. specialize (Hj _ _ eq_refl). cbn.
    pose proof (skip_space_shorter r). destruct (read_byte 44 (skip_space r)) as [l'|] eqn:Hc.
    + apply read_byte_shorter in Hc. destruct (IHi l') as [<- Hi]; [lia..|]. split; [done|]. intros vs r'.
      destruct (scan_items f1 l') as [[items r2]|]; [|done]. cbn. intros [= <- <-]. specialize (Hi _ _ eq_refl). lia.
    + split; [done|]. intros vs r'. destruct (read_byte 93 _) as [r2|] eqn:Hb; [|done]. apply read_byte_shorter in Hb. cbn. intros [= <- <-]. lia.
  - destruct (scan_key l) as [[k lk]|] eqn:Hk; [|by split]. apply scan_key_shorter in Hk. cbn.
    destruct (IHj lk) as [<- Hj]; [lia..|]. destruct (scan_json f1 lk) as [[v r]|]; [|by split]. specialize (Hj _ _ eq_refl). cbn.
    pose proof (skip_space_shorter r). destruct (read_byte 44 (skip_space r)) as [l'|] eqn:Hc.
    + apply read_byte_shorter in Hc. destruct (IHm l') as [<- Hm]; [lia..|]. split; [done|]. intros vs r'.
      destruct (scan_members f1 l') as [[ms r2]|]; [|done]. cbn. intros [= <- <-]. specialize (Hm _ _ eq_refl). lia.
    + split; [done|]. intros vs r'. destruct (read_byte 125 _) as [r2|] eqn:Hb; [|done]. apply read_byte_shorter in Hb. cbn. intros [= <- <-]. lia.
Qed.

(** More fuel than [scan_bound] never changes what is read. *)
Lemma scan_bound_suffices fuel l : (scan_bound l <= fuel)%nat -> scan_json fuel l = scan_json (scan_bound l) l.
Proof. unfold scan_bound. intros H. apply (scan_enough fuel (2 * length l + 1)); lia. Qed.
Lemma scan_members_suffices fuel l : (scan_bound l <= fuel)%nat -> scan_members fuel l = scan_members (scan_bound l) l.
Proof. unfold scan_bound. intros H. apply (scan_enough fuel (2 * length l + 1)); lia. Qed.
