(* ===== verification/RemoteReplies.v ===== *)
(** * Frames of the bridge and what a reply says

    Models [src/src/internal/dispatcher/projections.go], the pure half of
    [src/src/internal/dispatcher/remote.go] and the frames of
    [src/src/internal/sshbridge/protocol.go]: which frame an intent is sent as,
    when a reply accepts it, and which projections a reply proves. *)
From Stdlib Require Import String.
From S2P Require Import Prelude GoStrings Sha256 Identity Lifecycle Policy JsonText Canonical.
From S2P Require Import RunPayload LaneAdmission Db RemoteDb RemoteProjections LocalIntents BridgeJson.

(** ** sshbridge/protocol.go *)
Definition ProtocolVersion : Z := 1.

Inductive Operation : Type :=
  | OperationHello | OperationCreateOrResumeSession | OperationGetSession | OperationSubmitOrResumeCommand
  | OperationGetCommand | OperationStreamCommandEvents | OperationCancelCommand | OperationCloseSession
  | OperationRunOrResumeJob | OperationGetJob | OperationPing.
#[export] Instance Operation_eq_dec : EqDecision Operation. Proof. solve_decision. Defined.

Record RequestFrame : Type := mkRequestFrame {
  rq_ProtocolVersion : Z;
  rq_RequestID : string;
  rq_Operation : Operation;
  rq_ResourceID : string;
  rq_IdempotencyKey : string;
  rq_MaintenanceProbeToken : string;
  rq_Payload : json
}.

(** A reply; the payload of a frame without one is [None]. *)
Record ReplyFrame : Type := mkReplyFrame {
  rp_ProtocolVersion : Z;
  rp_RequestID : string;
  rp_ResponseType : string;
  rp_Payload : option json
}.

(** A frame that only asks. *)
Definition read_frame (requestID : string) (operation : Operation) (payload : json) : RequestFrame :=
  mkRequestFrame ProtocolVersion requestID operation "" "" "" payload.

Record ErrorPayload : Type := mkErrorPayload {
  ep_Code : string;
  ep_Message : string;
  ep_Retryable : bool;
  ep_ResourceID : string;
  ep_Details : option (list (string * json))
}.

Definition decodeErrorPayload (strict : bool) (payload : option json) : option ErrorPayload :=
  value ← payload;
  members ← struct_members strict ["code"; "message"; "retryable"; "resource_id"; "details"] value;
  code ← struct_value Unmarshal_string "" "code" members;
  message ← struct_value Unmarshal_string "" "message" members;
  retryable ← struct_value Unmarshal_bool false "retryable" members;
  resourceID ← struct_value Unmarshal_string "" "resource_id" members;
  details ← struct_value Unmarshal_any_map None "details" members;
  Some (mkErrorPayload code message retryable resourceID details).

(** The payload as a [map[string]json.RawMessage] that is not nil. *)
Definition payload_object (payload : option json) : option (list (string * json)) :=
  match payload with Some (JObject fields) => Some fields | _ => None end.

(** ** Texts of named constants *)
Definition SessionState_of_text (text : string) : SessionState :=
  if bool_decide (text = "requested") then SessionStateRequested
  else if bool_decide (text = "creating") then SessionStateCreating
  else if bool_decide (text = "ready") then SessionStateReady
  else if bool_decide (text = "busy") then SessionStateBusy
  else if bool_decide (text = "closing") then SessionStateClosing
  else if bool_decide (text = "closed") then SessionStateClosed
  else if bool_decide (text = "expired") then SessionStateExpired
  else if bool_decide (text = "failed") then SessionStateFailed
  else if bool_decide (text = "lost") then SessionStateLost
  else SessionStateOther text.

Definition CommandState_of_text (text : string) : CommandState :=
  if bool_decide (text = "queued") then CommandStateQueued
  else if bool_decide (text = "running") then CommandStateRunning
  else if bool_decide (text = "cancelling") then CommandStateCancelling
  else if bool_decide (text = "succeeded") then CommandStateSucceeded
  else if bool_decide (text = "failed") then CommandStateFailed
  else if bool_decide (text = "cancelled") then CommandStateCancelled
  else if bool_decide (text = "timed_out") then CommandStateTimedOut
  else if bool_decide (text = "rejected") then CommandStateRejected
  else if bool_decide (text = "lost") then CommandStateLost
  else CommandStateOther text.

Definition JobPhase_of_text (text : string) : JobPhase :=
  if bool_decide (text = "creating_session") then JobPhaseCreatingSession
  else if bool_decide (text = "accepting_command") then JobPhaseAcceptingCommand
  else if bool_decide (text = "awaiting_command") then JobPhaseAwaitingCommand
  else if bool_decide (text = "closing_session") then JobPhaseClosingSession
  else if bool_decide (text = "complete") then JobPhaseComplete
  else if bool_decide (text = "failed") then JobPhaseFailed
  else if bool_decide (text = "lost") then JobPhaseLost
  else JobPhaseOther text.

Definition JobTeardownState_of_text (text : string) : JobTeardownState :=
  if bool_decide (text = "pending") then JobTeardownPending
  else if bool_decide (text = "closed") then JobTeardownClosed
  else if bool_decide (text = "failed") then JobTeardownFailed
  else if bool_decide (text = "lost") then JobTeardownLost
  else if bool_decide (text = "not_created") then JobTeardownNotCreated
  else JobTeardownOther text.

Definition TargetKind_of_text (text : string) : TargetKind :=
  if bool_decide (text = "local") then TargetKindLocal
  else if bool_decide (text = "remote") then TargetKindRemote
  else TargetKindOther text.

Definition SourceMode_of_text (text : string) : SourceMode :=
  if bool_decide (text = "empty") then SourceModeEmpty
  else if bool_decide (text = "git_revision") then SourceModeGitRevision
  else if bool_decide (text = "local_worktree") then SourceModeLocalWorktree
  else SourceModeOther text.

Definition RemoteControllerType_of_text (text : string) : ControllerType :=
  if bool_decide (text = "local_user") then ControllerTypeLocalUser
  else if bool_decide (text = "queued_mac") then ControllerTypeQueuedMac
  else if bool_decide (text = "direct_mtls") then ControllerTypeDirectMTLS
  else ControllerTypeOther text.

(** [hex.EncodeToString] *)
Definition hex_encode (s : string) : string :=
  string_of (flat_map (fun b => [hex_digit (b / 16); hex_digit (b mod 16)]) (bytes_of s)).

(** ** The frames of an intent *)

(** dispatcher/local.go *)
Definition operationCreateSession : string := "create_session".
Definition operationSubmitCommand : string := "submit_command".
Definition operationCancelCommand : string := "cancel_command".
Definition operationCloseSession : string := "close_session".
Definition operationRun : string := "run".

Definition supportedRemoteOperation (operation : string) : bool :=
  is_op operation operationCreateSession || is_op operation operationSubmitCommand || is_op operation operationCancelCommand
  || is_op operation operationCloseSession || is_op operation operationRun.

Definition copy_fields (names : list string) (source : list (string * json)) : list (string * json) :=
  omap (fun name => value ← member source name; Some (name, value)) names.

Definition require_fields (names : list string) (source : list (string * json)) : result unit :=
  refuse_if (negb (forallb (fun name => is_Some_b (member source name)) names)) ErrRemotePayload.

Definition ordinal_missing (ordinal : option Z) : bool := match ordinal with Some n => n <=? 0 | None => true end.

Definition bridgePayloadForIntent (intent : LocalIntentRecord) : result json :=
  let c := lir_create intent in
  source ← result_map_err (fun _ => ErrRemotePayload) (Unmarshal_object (lic_PayloadJSON c));
  if is_op (lic_Operation c) operationCreateSession then
    require_fields ["environment"; "execution_target"] source;;
    Ok (marshal_map (copy_fields ["environment"; "execution_target"; "source"; "limits"; "isolation"] source))
  else if is_op (lic_Operation c) operationSubmitCommand then
    refuse_if (ordinal_missing (lic_IntentOrdinal c)) ErrRemotePayload;;
    Ok (marshal_map ([("session_id", JString (lic_SessionID c));
                      ("intent_ordinal", JNumber (string_of (print_int (default 0 (lic_IntentOrdinal c)))));
                      ("script", JString (lic_ScriptBytes c))] ++ copy_fields ["timeout_seconds"] source))
  else if is_op (lic_Operation c) operationCancelCommand then
    Ok (marshal_map [("command_id", JString (lic_CommandID c))])
  else if is_op (lic_Operation c) operationCloseSession then
    Ok (marshal_map (("session_id", JString (lic_SessionID c)) :: copy_fields ["policy"] source))
  else if is_op (lic_Operation c) operationRun then
    require_fields ["environment"; "execution_target"] source;;
    Ok (marshal_map (copy_fields ["environment"; "execution_target"; "source"; "limits"; "isolation"; "policy"] source
                     ++ [("session_id", JString (lic_SessionID c)); ("command_id", JString (lic_CommandID c));
                         ("script", JString (lic_ScriptBytes c))]))
  else Err ErrRemotePayload.

Definition mutation_operation (operation : string) : result Operation :=
  if is_op operation operationCreateSession then Ok OperationCreateOrResumeSession
  else if is_op operation operationSubmitCommand then Ok OperationSubmitOrResumeCommand
  else if is_op operation operationCancelCommand then Ok OperationCancelCommand
  else if is_op operation operationCloseSession then Ok OperationCloseSession
  else if is_op operation operationRun then Ok OperationRunOrResumeJob
  else Err ErrRemotePayload.

Definition frameForRemoteIntent (intent : LocalIntentRecord) : result RequestFrame :=
  let c := lir_create intent in
  payload ← bridgePayloadForIntent intent;
  operation ← mutation_operation (lic_Operation c);
  Ok (mkRequestFrame ProtocolVersion (lic_IntentID c) operation (lic_ResourceID c) (lic_IdempotencyKey c) "" payload).

Definition readFrameForRemoteIntent (intent : LocalIntentRecord) : result RequestFrame :=
  let c := lir_create intent in
  let requestID := (lic_IntentID c ++ "/reconcile")%string in
  if is_op (lic_Operation c) operationCreateSession || is_op (lic_Operation c) operationCloseSession then
    Ok (read_frame requestID OperationGetSession (marshal_map [("session_id", JString (lic_SessionID c))]))
  else if is_op (lic_Operation c) operationSubmitCommand || is_op (lic_Operation c) operationCancelCommand then
    Ok (read_frame requestID OperationGetCommand (marshal_map [("command_id", JString (lic_CommandID c))]))
  else if is_op (lic_Operation c) operationRun then
    Ok (read_frame requestID OperationGetJob (marshal_map [("job_id", JString (lic_JobID c))]))
  else Err ErrRemotePayload.

Definition with_request_id (requestID : string) (frame : RequestFrame) : RequestFrame :=
  mkRequestFrame (rq_ProtocolVersion frame) requestID (rq_Operation frame) (rq_ResourceID frame) (rq_IdempotencyKey frame)
    (rq_MaintenanceProbeToken frame) (rq_Payload frame).

Definition readinessFrameForCreateIntent (intent : LocalIntentRecord) : result RequestFrame :=
  frame ← readFrameForRemoteIntent intent;
  Ok (with_request_id (lic_IntentID (lir_create intent) ++ "/readiness") frame).

(** ** Replies to a mutation *)

(** The member [name] is the string [want]. *)
Definition string_is (object : list (string * json)) (name want : string) : bool :=
  match member object name with
  | Some value => bool_decide (Unmarshal_string "" value = Some want)
  | None => false
  end.

Definition positiveRemoteAuthorityOrdinal (object : list (string * json)) : option Z :=
  value ← member object "ordinal";
  ordinal ← Unmarshal_int64 0 value;
  if ordinal <=? 0 then None else Some ordinal.

Definition target_is (expected : ExecutionTarget) (object : list (string * json)) : bool :=
  match member object "execution_target" with
  | Some value =>
      bool_decide (target_kind expected = TargetKindRemote)
      && match Unmarshal_struct ["kind"; "profile"] value with
         | Some fields => field_is fields "kind" (TargetKind_text (target_kind expected))
                          && field_is fields "profile" (target_profile expected)
         | None => false
         end
  | None => false
  end.

Definition validateRemoteTarget (expected : ExecutionTarget) (object : list (string * json)) : result unit :=
  refuse_if (negb (target_is expected object)) ErrRemoteNotReconciled.

Definition other_reply (frame : RequestFrame) (reply : ReplyFrame) : bool :=
  negb (rp_ProtocolVersion reply =? ProtocolVersion) || negb (bool_decide (rp_RequestID reply = rq_RequestID frame)).

Definition resource_field (operation : string) : string :=
  if is_op operation operationCreateSession || is_op operation operationCloseSession then "session_id"
  else if is_op operation operationSubmitCommand || is_op operation operationCancelCommand then "command_id"
  else if is_op operation operationRun then "job_id" else "".

Definition validateRemoteReply (intent : LocalIntentRecord) (frame : RequestFrame) (reply : ReplyFrame) : result unit :=
  let c := lir_create intent in
  refuse_if (other_reply frame reply) ErrRemoteResponse;;
  if bool_decide (rp_ResponseType reply = "error") then
    payload ← from_option Ok (Err ErrRemoteResponse) (decodeErrorPayload true (rp_Payload reply));
    Err (if bool_decide (ep_Code payload = "transport_uncertain") then ErrRemoteUncertain else ErrRemoteRejected)
  else
    refuse_if (negb (bool_decide (rp_ResponseType reply = "result"))) ErrRemoteResponse;;
    object ← from_option Ok (Err ErrRemoteResponse) (payload_object (rp_Payload reply));
    refuse_if (negb (string_is object (resource_field (lic_Operation c)) (lic_ResourceID c))) ErrRemoteResponse;;
    if is_op (lic_Operation c) operationSubmitCommand then
      refuse_if (ordinal_missing (lic_IntentOrdinal c)) ErrRemoteResponse;;
      refuse_if (negb (is_Some_b (positiveRemoteAuthorityOrdinal object))) ErrRemoteResponse
    else Ok tt.

(** ** Replies to a reconciling read *)
Inductive reconcileResult : Type := reconcileAccepted | reconcileNotDelivered.

Definition require_string (e : error) (object : list (string * json)) (name want : string) : result unit :=
  refuse_if (negb (string_is object name want)) e.

Definition validateReconciledResource (intent : LocalIntentRecord) (object : list (string * json)) : result unit :=
  let c := lir_create intent in
  let readString := require_string ErrRemoteNotReconciled object in
  if is_op (lic_Operation c) operationCreateSession then
    readString "session_id" (lic_SessionID c);;
    readString "environment" (lic_Environment c);;
    validateRemoteTarget (lic_Target c) object
  else if is_op (lic_Operation c) operationSubmitCommand then
    readString "command_id" (lic_CommandID c);;
    readString "session_id" (lic_SessionID c);;
    refuse_if (ordinal_missing (lic_IntentOrdinal c)) ErrRemoteNotReconciled;;
    refuse_if (negb (is_Some_b (positiveRemoteAuthorityOrdinal object))) ErrRemoteNotReconciled;;
    readString "script_sha256" (hex_encode (sha256 (lic_ScriptBytes c)))
  else if is_op (lic_Operation c) operationCancelCommand then readString "command_id" (lic_CommandID c)
  else if is_op (lic_Operation c) operationCloseSession then readString "session_id" (lic_SessionID c)
  else if is_op (lic_Operation c) operationRun then
    readString "job_id" (lic_JobID c);;
    readString "session_id" (lic_SessionID c);;
    readString "command_id" (lic_CommandID c);;
    validateRemoteTarget (lic_Target c) object
  else Err ErrRemoteNotReconciled.

Definition reconcileRemoteReply (intent : LocalIntentRecord) (frame : RequestFrame) (reply : ReplyFrame) : result reconcileResult :=
  refuse_if (other_reply frame reply) ErrRemoteNotReconciled;;
  if bool_decide (rp_ResponseType reply = "error") then
    payload ← from_option Ok (Err ErrRemoteNotReconciled) (decodeErrorPayload true (rp_Payload reply));
    if bool_decide (ep_Code payload = "resource_not_found") then Ok reconcileNotDelivered else Err ErrRemoteNotReconciled
  else
    refuse_if (negb (bool_decide (rp_ResponseType reply = "result"))) ErrRemoteNotReconciled;;
    object ← from_option Ok (Err ErrRemoteNotReconciled) (payload_object (rp_Payload reply));
    validateReconciledResource intent object;;
    Ok reconcileAccepted.

(** The state, when the reply has one. *)
Definition remoteSessionStateFromResult (payload : option json) : result (option SessionState) :=
  object ← from_option Ok (Err ErrRemoteResponse) (payload_object payload);
  match member object "session_state" with
  | None => Ok None
  | Some value =>
      text ← from_option Ok (Err ErrRemoteResponse) (Unmarshal_string "" value);
      refuse_if (negb (SessionState_Valid (SessionState_of_text text))) ErrRemoteResponse;;
      Ok (Some (SessionState_of_text text))
  end.

Definition validateRemoteSessionReadReply (create : LocalIntentRecord) (frame : RequestFrame) (reply : ReplyFrame)
    : result SessionState :=
  let c := lir_create create in
  refuse_if (other_reply frame reply) ErrRemoteSessionNotReady;;
  if bool_decide (rp_ResponseType reply = "error") then
    payload ← from_option Ok (Err ErrRemoteSessionNotReady) (decodeErrorPayload true (rp_Payload reply));
    Err (if bool_decide (ep_Code payload = "resource_not_found") then ErrRemoteSessionCreateFailed else ErrRemoteSessionNotReady)
  else
    refuse_if (negb (bool_decide (rp_ResponseType reply = "result"))) ErrRemoteSessionNotReady;;
    object ← from_option Ok (Err ErrRemoteSessionNotReady) (payload_object (rp_Payload reply));
    require_string ErrRemoteSessionNotReady object "session_id" (lic_SessionID c);;
    require_string ErrRemoteSessionNotReady object "environment" (lic_Environment c);;
    result_map_err (fun _ => ErrRemoteSessionNotReady) (validateRemoteTarget (lic_Target c) object);;
    state ← result_map_err (fun _ => ErrRemoteSessionNotReady) (remoteSessionStateFromResult (rp_Payload reply));
    from_option Ok (Err ErrRemoteSessionNotReady) state.

(** ** Members of a projection *)
Definition readProjectionString (object : list (string * json)) (name : string) : result (option string) :=
  match member object name with
  | None => Ok None
  | Some value =>
      match Unmarshal_string "" value with
      | Some text => if is_empty (TrimSpace text) then Err ErrRemoteResponse else Ok (Some text)
      | None => Err ErrRemoteResponse
      end
  end.

Definition projectionTarget (object : list (string * json)) (fallback : ExecutionTarget) : result ExecutionTarget :=
  match member object "execution_target" with
  | None => Ok fallback
  | Some value =>
      fields ← from_option Ok (Err ErrRemoteResponse) (Unmarshal_struct ["kind"; "profile"] value);
      parsed ← result_map_err (fun _ => ErrRemoteResponse)
        (NewExecutionTarget (TargetKind_of_text (default "" (fields !! "kind"))) (default "" (fields !! "profile")));
      refuse_if (negb (bool_decide (parsed = fallback))) ErrRemoteResponse;;
      Ok parsed
  end.

Definition projectionController (object : list (string * json)) (fallback : ControllerIdentity) : result ControllerIdentity :=
  match member object "controller" with
  | None => Ok fallback
  | Some value =>
      fields ← from_option Ok (Err ErrRemoteResponse) (Unmarshal_struct ["controller_type"; "controller_id"] value);
      id ← NewControllerID (default "" (fields !! "controller_id"));
      parsed ← result_map_err (fun _ => ErrRemoteResponse)
        (NewControllerIdentity (RemoteControllerType_of_text (default "" (fields !! "controller_type"))) id);
      refuse_if (negb (bool_decide (parsed = fallback))) ErrRemoteResponse;;
      Ok fallback
  end.

Definition queuedRemoteController (controller : ControllerIdentity) : result ControllerIdentity :=
  match controller_typeName controller with
  | ControllerTypeQueuedMac => Ok controller
  | ControllerTypeLocalUser =>
      result_map_err (fun _ => ErrRemoteResponse) (NewControllerIdentity ControllerTypeQueuedMac (controller_id controller))
  | _ => Err ErrRemoteResponse
  end.

(** The source with its resolved revision, when the object has one. *)
Definition projectionSource (object : list (string * json)) (fallback : Source) : result (option (Source * string)) :=
  match member object "source" with
  | None => Ok None
  | Some value =>
      fields ← from_option Ok (Err ErrRemoteResponse)
        (Unmarshal_struct ["mode"; "repository_alias"; "requested_revision"; "resolved_commit"; "path"] value);
      let field name := default "" (fields !! name) in
      source ← (match SourceMode_of_text (field "mode") with
                | SourceModeEmpty => Ok NewEmptySource
                | SourceModeGitRevision => NewGitRevisionSource (field "repository_alias") (field "requested_revision")
                | SourceModeOther text => if is_empty text then Ok NewEmptySource else Err ErrRemoteResponse
                | SourceModeLocalWorktree => Err ErrRemoteResponse
                end);
      refuse_if (negb (bool_decide (source_mode source = source_mode fallback))
                 || negb (bool_decide (source_repositoryAlias source = source_repositoryAlias fallback))
                 || negb (bool_decide (source_requestedRevision source = source_requestedRevision fallback))) ErrRemoteResponse;;
      Ok (Some (source, field "resolved_commit"))
  end.

Definition decodeRemoteCapabilities (value : json) : option RemoteCapabilities :=
  members ← struct_members false ["host_class"; "isolation"; "effective_account"; "service_limits"] value;
  hostClass ← struct_value Unmarshal_string "" "host_class" members;
  isolation ← struct_value Unmarshal_string "" "isolation" members;
  account ← struct_value Unmarshal_string "" "effective_account" members;
  limits ← struct_value Unmarshal_any_map None "service_limits" members;
  Some (mkRemoteCapabilities hostClass isolation account ((fun members => list_to_map (rev members)) <$> limits)).

Definition projectionCapabilities (object : list (string * json)) : result (option RemoteCapabilities) :=
  match member object "capabilities" with
  | None => Ok None
  | Some value => c ← from_option Ok (Err ErrRemoteResponse) (decodeRemoteCapabilities value); Ok (Some c)
  end.

Definition projectionObservedAt (object : list (string * json)) : result (option Z) :=
  match member object "observed_at" with
  | None => Ok None
  | Some value =>
      match Unmarshal_time 0 value with
      | Some t => if IsZero t then Err ErrRemoteResponse else Ok (Some t)
      | None => Err ErrRemoteResponse
      end
  end.

(** A member that is present and not null. *)
Definition present_member (object : list (string * json)) (name : string) : option json :=
  match member object name with Some JNull => None | value => value end.

Definition optional_int64 (object : list (string * json)) (name : string) : result (option Z) :=
  match present_member object name with
  | None => Ok None
  | Some value => n ← from_option Ok (Err ErrRemoteResponse) (Unmarshal_int64 0 value); Ok (Some n)
  end.

Definition optional_bool (object : list (string * json)) (name : string) : result bool :=
  match member object name with
  | None => Ok false
  | Some value => from_option Ok (Err ErrRemoteResponse) (Unmarshal_bool false value)
  end.

Definition optional_text (object : list (string * json)) (name fallback : string) : result string :=
  value ← readProjectionString object name;
  Ok (default fallback value).
