(* ===== verification/Mailbox.v ===== *)
(** * Mailbox exchanges: identity, validation and reads

    Models [src/src/internal/store/mailbox_scope.go] and the data, validation,
    statements and reads of [src/src/internal/store/mailbox_exchanges.go]: an
    exchange is the durable receipt of one request of a mailbox with its current
    response and its cleanup deadlines.  A client request ID is unique only in
    its mailbox; the key of the table is derived from both. *)
From Stdlib Require Import String.
From S2P Require Import Prelude GoStrings Sha256 Identity Lifecycle Policy Canonical JsonText LaneAdmission.
From S2P Require Import Db AuditStore Idempotency Sessions Listings RemoteDb LocalIntents RemoteReplies.

(** ** Identity *)
Definition DefaultMailboxID : string := "default".

Record MailboxExchangeRef : Type := mkMailboxExchangeRef { ref_MailboxID : string; ref_ClientRequestID : string }.
#[export] Instance MailboxExchangeRef_eq_dec : EqDecision MailboxExchangeRef.
Proof. solve_decision. Defined.

Record MailboxEventRef : Type := mkMailboxEventRef { eref_MailboxID : string; eref_CommandID : string }.

Definition letter_or_digit (b : Z) : bool := in_range 97 122 b || in_range 65 90 b || in_range 48 57 b.

Definition validMailboxID (value : string) : bool :=
  match bytes_of value with
  | [] => false
  | b :: rest =>
      (go_len value <=? 128) && letter_or_digit b
      && forallb (fun b => letter_or_digit b || (b =? 46) || (b =? 95) || (b =? 45)) rest
  end.

Definition validateMailboxID (mailboxID : string) : result unit :=
  refuse_if (negb (validMailboxID mailboxID)) ErrMailboxExchangeInvalid.

Definition validateMailboxRequestID (requestID : string) : result unit :=
  refuse_if (is_empty requestID || (256 <? go_len requestID) || contains_nul requestID) ErrMailboxExchangeInvalid.

Definition NewMailboxExchangeRef (mailboxID clientRequestID : string) : result MailboxExchangeRef :=
  refuse_if (negb (validMailboxID mailboxID) || negb (result_is_ok (validateMailboxRequestID clientRequestID)))
    ErrMailboxExchangeInvalid;;
  Ok (mkMailboxExchangeRef mailboxID clientRequestID).

Definition validateMailboxExchangeRef (ref : MailboxExchangeRef) : result MailboxExchangeRef :=
  NewMailboxExchangeRef (ref_MailboxID ref) (ref_ClientRequestID ref).

Definition defaultMailboxExchangeRef (requestID : string) : result MailboxExchangeRef :=
  NewMailboxExchangeRef DefaultMailboxID requestID.

Definition mailboxExchangeID (ref : MailboxExchangeRef) : string :=
  ("mbx-exchange-v1-" ++ hex_encode (ref_MailboxID ref ++ string_of [0] ++ ref_ClientRequestID ref))%string.

Definition mailboxExecutionIdempotencyKey (mailboxID clientKey : string) : string :=
  if is_empty clientKey then ""
  else ("mbx-idempotency-v1-" ++ hex_encode (sha256
          ("remote-session-runner/mailbox-idempotency/v1" ++ string_of [0] ++ mailboxID ++ string_of [0] ++ clientKey)))%string.

Definition validateExecutionIdempotencyKey (value : string) : result unit :=
  refuse_if ((256 <? go_len value) || contains_nul value) ErrMailboxExchangeInvalid.

(** ** Data *)
Definition MailboxAckedResponseLifetime : Z := 24 * hour.
Definition MailboxUnackedResponseLifetime : Z := 7 * 24 * hour.
Definition MailboxOwnerAbandonedReason : string := "owner_abandoned_indeterminate".
Definition MailboxOwnerAbandonedCode : string := "transport_uncertain".
Definition MailboxOwnerAbandonedMessage : string := "owner administrative closeout; execution outcome unknown".
Definition MailboxExecutionSelectionInboxDefault : string := "inbox_default".
Definition MailboxExecutionSelectionRequestOverride : string := "request_override".

Definition MailboxExchangeState_text (state : MailboxExchangeState) : string :=
  match state with
  | MailboxExchangeAccepted => "accepted"
  | MailboxExchangeComplete => "complete"
  | MailboxExchangeRejected => "rejected"
  | MailboxExchangeIndeterminate => "indeterminate"
  | MailboxExchangeOther value => value
  end.

(** [state == A || state == C || state == R || state == I], and the last three *)
Definition known_exchange_state (state : MailboxExchangeState) : bool :=
  match state with MailboxExchangeOther _ => false | _ => true end.
Definition mailboxExchangeStateTerminal (state : MailboxExchangeState) : bool :=
  match state with
  | MailboxExchangeComplete | MailboxExchangeRejected | MailboxExchangeIndeterminate => true
  | _ => false
  end.

Record MailboxExecutionSelection : Type := mkMailboxExecutionSelection {
  mes_ContextName : string;
  mes_Environment : string;
  mes_Target : ExecutionTarget;
  mes_Source : string;
  mes_RepositoryAlias : string;
  mes_RepositoryAliases : list string
}.

(** [SelectionState] is the empty string in the zero value. *)
Record MailboxExchangeCreate : Type := mkMailboxExchangeCreate {
  mc_MailboxID : string;
  mc_RequestID : string;
  mc_Operation : string;
  mc_Controller : ControllerIdentity;
  mc_IdempotencyKey : string;
  mc_ExecutionIdempotencyKey : string;
  mc_RequestHash : CanonicalHash;
  mc_CanonicalPayload : string;
  mc_ResourceID : string;
  mc_Selection : option MailboxExecutionSelection;
  mc_SelectionState : MailboxExecutionSelectionState
}.

(** [validatedMailboxExchangeCreate]; a nil byte slice is the empty string. *)
Record validatedMailboxExchangeCreate : Type := mkValidatedExchange {
  vx_create : MailboxExchangeCreate;
  vx_State : MailboxExchangeState;
  vx_ResponseRevision : Z;
  vx_ResponseBytes : string;
  vx_ResponseSHA256 : string;
  vx_TerminalResponseBytes : string;
  vx_TerminalResponseSHA256 : string;
  vx_AvailableEventSequence : option Z;
  vx_IdempotencyKeyExpiresAt : option Z;
  vx_IdempotencyBindingActive : bool;
  vx_DeduplicationWarning : bool;
  vx_CreatedAt : Z;
  vx_UpdatedAt : Z
}.

(** [MailboxExchangeRecord]: the fields it shares with the request are those of
    [mx_create]. *)
Record MailboxExchangeRecord : Type := mkMailboxExchangeRecord {
  mx_ExchangeID : string;
  mx_create : MailboxExchangeCreate;
  mx_State : MailboxExchangeState;
  mx_ResponseRevision : Z;
  mx_ResponseBytes : string;
  mx_ResponseSHA256 : string;
  mx_TerminalResponseBytes : string;
  mx_TerminalResponseSHA256 : string;
  mx_AvailableEventSequence : option Z;
  mx_AcknowledgedAt : option Z;
  mx_ResponseCleanupAt : option Z;
  mx_ResponseCleanupStartedAt : option Z;
  mx_ResponseFileRemovedAt : option Z;
  mx_EventFileCommandID : string;
  mx_IdempotencyKeyExpiresAt : option Z;
  mx_IdempotencyBindingActive : bool;
  mx_DeduplicationWarning : bool;
  mx_CreatedAt : Z;
  mx_UpdatedAt : Z
}.

Record MailboxTerminalArtifactCursor : Type := mkMailboxTerminalArtifactCursor { mtc_CreatedAt : Z; mtc_ExchangeID : string }.

Record MailboxResponsePublication : Type := mkMailboxResponsePublication {
  mp_State : MailboxExchangeState;
  mp_Bytes : string;
  mp_AvailableEventSequence : option Z
}.

(** ** Validation *)
Definition with_identity (ref : MailboxExchangeRef) (i : MailboxExchangeCreate) : MailboxExchangeCreate :=
  mkMailboxExchangeCreate (ref_MailboxID ref) (ref_ClientRequestID ref) (mc_Operation i) (mc_Controller i) (mc_IdempotencyKey i)
    (mc_ExecutionIdempotencyKey i) (mc_RequestHash i) (mc_CanonicalPayload i) (mc_ResourceID i) (mc_Selection i)
    (mc_SelectionState i).

Definition mailboxRefFromInput (input : MailboxExchangeCreate) (requireExplicitMailbox : bool)
    : result (MailboxExchangeRef * MailboxExchangeCreate) :=
  let mailboxID := if is_empty (mc_MailboxID input) && negb requireExplicitMailbox then DefaultMailboxID
                   else mc_MailboxID input in
  ref ← NewMailboxExchangeRef mailboxID (mc_RequestID input);
  Ok (ref, with_identity ref input).

Definition mailboxRefWithInput (ref : MailboxExchangeRef) (input : MailboxExchangeCreate) : result MailboxExchangeCreate :=
  validated ← validateMailboxExchangeRef ref;
  let differs given := negb (is_empty (given input)) in
  refuse_if ((differs mc_MailboxID && negb (bool_decide (mc_MailboxID input = ref_MailboxID validated)))
             || (differs mc_RequestID && negb (bool_decide (mc_RequestID input = ref_ClientRequestID validated))))
    ErrMailboxExchangeInvalid;;
  Ok (with_identity validated input).

Definition validMailboxSelectionName (value : string) : bool :=
  match bytes_of value with
  | [] => false
  | b :: rest => (go_len value <=? 63) && in_range 97 122 b
                 && forallb (fun b => in_range 97 122 b || in_range 48 57 b || (b =? 45)) rest
  end.

(** The loop over the aliases. *)
Fixpoint distinct_names (seen : gset string) (aliases : list string) : bool :=
  match aliases with
  | [] => true
  | alias :: rest =>
      validMailboxSelectionName alias && negb (bool_decide (alias ∈ seen)) && distinct_names ({[alias]} ∪ seen) rest
  end.

Definition new_work (operation : string) : bool := bool_decide (operation = "create_session") || bool_decide (operation = "run").

Definition validateMailboxExecutionSelection (operation : string) (input : option MailboxExecutionSelection)
    : result (option MailboxExecutionSelection) :=
  match input with
  | None => Ok None
  | Some i =>
      refuse_if (negb (new_work operation)) ErrMailboxExchangeInvalid;;
      refuse_if (negb (validMailboxSelectionName (mes_ContextName i)) || negb (validMailboxSelectionName (mes_Environment i))
                 || negb (validMailboxSelectionName (target_profile (mes_Target i)))) ErrMailboxExchangeInvalid;;
      target ← result_map_err (fun _ => ErrMailboxExchangeInvalid)
                 (NewExecutionTarget (target_kind (mes_Target i)) (target_profile (mes_Target i)));
      refuse_if (negb (bool_decide (mes_Source i = MailboxExecutionSelectionInboxDefault))
                 && negb (bool_decide (mes_Source i = MailboxExecutionSelectionRequestOverride))) ErrMailboxExchangeInvalid;;
      refuse_if (negb (distinct_names ∅ (mes_RepositoryAliases i))) ErrMailboxExchangeInvalid;;
      refuse_if (negb (is_empty (mes_RepositoryAlias i))
                 && (negb (validMailboxSelectionName (mes_RepositoryAlias i))
                     || negb (bool_decide (mes_RepositoryAlias i ∈ mes_RepositoryAliases i)))) ErrMailboxExchangeInvalid;;
      Ok (Some (mkMailboxExecutionSelection (mes_ContextName i) (mes_Environment i) target (mes_Source i)
                  (mes_RepositoryAlias i) (mes_RepositoryAliases i)))
  end.

Definition validateMailboxExecutionSelectionState (operation : string) (selection : option MailboxExecutionSelection)
    (state : MailboxExecutionSelectionState) : result MailboxExecutionSelectionState :=
  let state := if bool_decide (state = MailboxExecutionSelectionOther "")
               then (if is_Some_b selection then MailboxExecutionSelectionResolved else MailboxExecutionSelectionLegacy)
               else state in
  match state with
  | MailboxExecutionSelectionLegacy => refuse_if (is_Some_b selection) ErrMailboxExchangeInvalid
  | MailboxExecutionSelectionResolved => refuse_if (negb (new_work operation) || negb (is_Some_b selection)) ErrMailboxExchangeInvalid
  | MailboxExecutionSelectionRejected => refuse_if (negb (new_work operation) || is_Some_b selection) ErrMailboxExchangeInvalid
  | MailboxExecutionSelectionOther _ => Err ErrMailboxExchangeInvalid
  end;;
  Ok state.

(** The zero value around a validated request. *)
Definition validated_zero (create : MailboxExchangeCreate) : validatedMailboxExchangeCreate :=
  mkValidatedExchange create (MailboxExchangeOther "") 0 "" "" "" "" None None false false 0 0.

Definition validateMailboxExchangeCreate (input : MailboxExchangeCreate) : result validatedMailboxExchangeCreate :=
  let invalid {A} (r : result A) := result_map_err (fun _ => ErrMailboxExchangeInvalid) r in
  ref ← NewMailboxExchangeRef (mc_MailboxID input) (mc_RequestID input);
  refuse_if (is_empty (mc_Operation input) || (128 <? go_len (mc_Operation input)) || contains_nul (mc_Operation input))
    ErrMailboxExchangeInvalid;;
  controller ← invalid (validateController (mc_Controller input));
  refuse_if ((256 <? go_len (mc_IdempotencyKey input)) || contains_nul (mc_IdempotencyKey input)) ErrMailboxExchangeInvalid;;
  let executionKey := mailboxExecutionIdempotencyKey (ref_MailboxID ref) (mc_IdempotencyKey input) in
  refuse_if (negb (is_empty (mc_ExecutionIdempotencyKey input))
             && negb (bool_decide (mc_ExecutionIdempotencyKey input = executionKey))) ErrMailboxExchangeInvalid;;
  invalid (validateExecutionIdempotencyKey executionKey);;
  hash ← invalid (NewCanonicalHash (hash_version (mc_RequestHash input)) (hash_digest (mc_RequestHash input)));
  refuse_if (is_empty (mc_CanonicalPayload input) || (MaxSerializedRequestBytes <? go_len (mc_CanonicalPayload input)))
    ErrMailboxExchangeInvalid;;
  refuse_if (negb (is_empty (mc_ResourceID input))
             && ((256 <? go_len (mc_ResourceID input)) || contains_nul (mc_ResourceID input))) ErrMailboxExchangeInvalid;;
  selection ← validateMailboxExecutionSelection (mc_Operation input) (mc_Selection input);
  selectionState ← validateMailboxExecutionSelectionState (mc_Operation input) selection (mc_SelectionState input);
  Ok (validated_zero
        (mkMailboxExchangeCreate (ref_MailboxID ref) (ref_ClientRequestID ref) (mc_Operation input) controller
           (mc_IdempotencyKey input) executionKey hash (mc_CanonicalPayload input) (mc_ResourceID input) selection selectionState)).

Definition create_ref (c : MailboxExchangeCreate) : MailboxExchangeRef := mkMailboxExchangeRef (mc_MailboxID c) (mc_RequestID c).

Definition mailboxOperationRequiresLaneAdmission (operation : string) : bool := validLocalIntentOperation operation.

Definition sameMailboxBinding (existing : MailboxExchangeRecord) (input : validatedMailboxExchangeCreate) : bool :=
  let e := mx_create existing in
  let i := vx_create input in
  bool_decide (mc_MailboxID e = mc_MailboxID i) && bool_decide (mc_Operation e = mc_Operation i)
  && bool_decide (mc_Controller e = mc_Controller i) && bool_decide (mc_IdempotencyKey e = mc_IdempotencyKey i)
  && negb (is_conflict (CompareIdempotency (mc_RequestHash e) (mc_RequestHash i)))
  && bool_decide (mc_CanonicalPayload e = mc_CanonicalPayload i).

(** ** Statements *)
Definition mailboxExecutionSelectionValues (operation : string) (selection : option MailboxExecutionSelection)
    : result SelectionColumns :=
  validated ← validateMailboxExecutionSelection operation selection;
  Ok match validated with
     | None => mkSelectionColumns "" "" "" "" "" "" []
     | Some v => mkSelectionColumns (mes_ContextName v) (mes_Environment v) (TargetKind_text (target_kind (mes_Target v)))
                   (target_profile (mes_Target v)) (mes_Source v) (mes_RepositoryAlias v) (mes_RepositoryAliases v)
     end.

Definition exchange_checks (id : string) (r : ExchangeRow) : bool :=
  let c := x_receipt r in
  sql_length_pos id && sql_length_pos (x_mailbox_id c) && sql_length_pos (x_client_request_id c)
  && sql_length_pos (x_operation c) && known_controller_b (controller_typeName (x_controller c))
  && sql_length_pos (controller_id (x_controller c)) && (0 <? x_canonical_hash_version c)
  && (go_len (x_canonical_hash c) =? 32) && (0 <? go_len (x_canonical_payload c))
  && known_exchange_state (x_request_state (x_response r)) && (0 <=? x_response_revision (x_response r))
  && match x_available_event_sequence (x_response r) with Some n => 0 <=? n | None => true end
  && match x_selection_state c with MailboxExecutionSelectionOther _ => false | _ => true end.

(** The identity of a row: UNIQUE (mailbox_id, client_request_id). *)
Definition has_identity (mailboxID requestID : string) (_ : string) (r : ExchangeRow) : bool :=
  bool_decide (x_mailbox_id (x_receipt r) = mailboxID) && bool_decide (x_client_request_id (x_receipt r) = requestID).

(** [nullableBytes] *)
Definition nullableBytes (value : string) : option string := null_string value.

Definition exchange_row (v : validatedMailboxExchangeCreate) (values : SelectionColumns) : ExchangeRow :=
  let c := vx_create v in
  mkExchangeRow
    (mkReceiptColumns (mc_MailboxID c) (mc_RequestID c) (mc_Operation c) (mc_Controller c) (mc_IdempotencyKey c)
       (mc_ExecutionIdempotencyKey c) (hash_version (mc_RequestHash c)) (hash_digest (mc_RequestHash c)) (mc_CanonicalPayload c)
       (mc_ResourceID c) values (mc_SelectionState c) (formatStoredTime <$> vx_IdempotencyKeyExpiresAt v)
       (vx_IdempotencyBindingActive v) (vx_DeduplicationWarning v) (formatStoredTime (vx_CreatedAt v)))
    (mkResponseColumns (vx_State v) (vx_ResponseRevision v) (nullableBytes (vx_ResponseBytes v)) (nullableBytes (vx_ResponseSHA256 v))
       (nullableBytes (vx_TerminalResponseBytes v)) (nullableBytes (vx_TerminalResponseSHA256 v)) (vx_AvailableEventSequence v))
    (formatStoredTime (vx_UpdatedAt v)) None None None None.

(** With the trigger mailbox_exchanges_reject_ingress_diagnostic_identity. *)
Definition insertMailboxExchangeOnConnection (input : validatedMailboxExchangeCreate) : mtx unit :=
  let c := vx_create input in
  let id := mailboxExchangeID (create_ref c) in
  values ← lift (mailboxExecutionSelectionValues (mc_Operation c) (mc_Selection c));
  let row := exchange_row input values in
  refused ← query (fun m => negb (exchange_checks id row) || is_Some_b (mailbox_exchanges m !! id)
    || exists_row (has_identity (mc_MailboxID c) (mc_RequestID c)) (mailbox_exchanges m)
    || is_Some_b (mailbox_ingress_diagnostics m !! (mc_MailboxID c, mc_RequestID c)));
  fail_if refused (ErrSQL "insert mailbox exchange");;
  modify (on_mailbox_tables (fun b => set_exchanges (<[id := row]> (mb_exchanges b)) b)).

(** The trigger mailbox_event_cleanup_work_exchange_update: an update that changes
    the state or the deadline of an exchange restarts the walk over the event
    files that it references. *)
Definition fresh_work : CleanupWorkRow := mkCleanupWorkRow "" 0 false true None.

Definition cleanup_changed (old new : ExchangeRow) : bool :=
  negb (bool_decide (x_request_state (x_response new) = x_request_state (x_response old)))
  || negb (bool_decide (x_response_cleanup_at new = x_response_cleanup_at old)).

Definition references (b : MailboxTables) (remote : bool) : gmap string string :=
  if remote then mb_remote_event_file_references b else mb_event_file_references b.

Definition restarted (p : string -> ExchangeRow -> bool) (f : ExchangeRow -> ExchangeRow) (b : MailboxTables)
    (key : string * string * bool) (_ : CleanupWorkRow) : bool :=
  let '(mailboxID, commandID, remote) := key in
  exists_row (fun id r => p id r && cleanup_changed r (f r) && bool_decide (x_mailbox_id (x_receipt (f r)) = mailboxID)
                          && bool_decide (references b remote !! id = Some commandID)) (mb_exchanges b).

(** [UPDATE mailbox_exchanges SET f WHERE p] *)
Definition update_exchanges (p : string -> ExchangeRow -> bool) (f : ExchangeRow -> ExchangeRow) (b : MailboxTables) : MailboxTables :=
  set_exchanges (update_where p f (mb_exchanges b))
    (set_cleanup_work (update_where (restarted p f b) (fun _ => fresh_work) (mb_event_cleanup_work b)) b).

Definition exec_update_exchanges (p : string -> ExchangeRow -> bool) (f : ExchangeRow -> ExchangeRow) : mtx unit :=
  modify (on_mailbox_tables (update_exchanges p f)).

(** [WHERE exchange_id = ? AND p] *)
Definition row_of (id : string) (p : ExchangeRow -> bool) (key : string) (r : ExchangeRow) : bool := bool_decide (key = id) && p r.

Definition in_exchange_state (state : MailboxExchangeState) (r : ExchangeRow) : bool :=
  bool_decide (x_request_state (x_response r) = state).

(** ** Reads *)
Definition mailboxExecutionSelectionFromStorage (operation : string) (c : SelectionColumns) : result (option MailboxExecutionSelection) :=
  let hasSelection := negb (is_empty (sel_execution_context c)) || negb (is_empty (sel_environment c))
    || negb (is_empty (sel_target_kind c)) || negb (is_empty (sel_target_profile c)) || negb (is_empty (sel_source c)) in
  if negb hasSelection then
    refuse_if (negb (is_empty (sel_repository_alias c)) || negb (is_nil (sel_repository_aliases c))) ErrMailboxExchangeInvalid;;
    Ok None
  else
    target ← result_map_err (fun _ => ErrMailboxExchangeInvalid)
               (NewExecutionTarget (TargetKind_of_text (sel_target_kind c)) (sel_target_profile c));
    validateMailboxExecutionSelection operation
      (Some (mkMailboxExecutionSelection (sel_execution_context c) (sel_environment c) target (sel_source c)
               (sel_repository_alias c) (sel_repository_aliases c))).

Definition mailboxResponseCleanupDeadline (publishedAt : Z) (acknowledgedAt : option Z) : Z :=
  let deadline := publishedAt + MailboxUnackedResponseLifetime in
  match acknowledgedAt with
  | Some at_ => if at_ + MailboxAckedResponseLifetime <? deadline then at_ + MailboxAckedResponseLifetime else deadline
  | None => deadline
  end.

Definition sameCursor (x y : option Z) : bool := bool_decide (x = y).

Definition exchange_instant (t : StoredTime) : result Z := from_option Ok (Err ErrMailboxExchangeInvalid) (parseStoredTime t).
Definition optional_instant (t : option StoredTime) : result (option Z) :=
  match t with None => Ok None | Some t => at_ ← exchange_instant t; Ok (Some at_) end.

(** A stored response with its digest; no bytes, no digest. *)
Definition checked_response (bytes digest : option string) : result (string * string) :=
  let b := default "" bytes in
  let h := default "" digest in
  if 0 <? go_len b then
    refuse_if (negb (go_len h =? sha256_Size) || negb (bool_decide (h = sha256 b))) ErrMailboxResponseInvalid;; Ok (b, h)
  else Ok ("", "").

Definition decodeMailboxExchange (validated : MailboxExchangeRef) (id : string) (r : ExchangeRow) (eventFile : option string)
    : result MailboxExchangeRecord :=
  let c := x_receipt r in
  let p := x_response r in
  let operation := x_operation c in
  let state := x_request_state p in
  let revision := x_response_revision p in
  refuse_if (negb (bool_decide (x_mailbox_id c = ref_MailboxID validated))
             || negb (bool_decide (x_client_request_id c = ref_ClientRequestID validated)) || negb (validMailboxID (x_mailbox_id c)))
    ErrMailboxExchangeInvalid;;
  controller ← result_map_err (fun _ => ErrMailboxExchangeInvalid)
                 (NewControllerIdentity (controller_typeName (x_controller c)) (controller_id (x_controller c)));
  hash ← result_map_err (fun _ => ErrMailboxExchangeInvalid)
           (NewCanonicalHash (uint16 (x_canonical_hash_version c)) (x_canonical_hash c));
  refuse_if (is_empty (x_canonical_payload c)) ErrMailboxExchangeInvalid;;
  refuse_if (negb (known_exchange_state state)) ErrMailboxExchangeInvalid;;
  refuse_if (revision <? 0) ErrMailboxExchangeInvalid;;
  selection ← mailboxExecutionSelectionFromStorage operation (x_selection c);
  selectionState ← validateMailboxExecutionSelectionState operation selection (x_selection_state c);
  response ← checked_response (x_response_bytes p) (x_response_sha256 p);
  terminal ← checked_response (x_terminal_response_bytes p) (x_terminal_response_sha256 p);
  refuse_if (match x_available_event_sequence p with Some n => n <? 0 | None => false end) ErrMailboxResponseInvalid;;
  acknowledgedAt ← optional_instant (x_acknowledged_at r);
  responseCleanupAt ← optional_instant (x_response_cleanup_at r);
  responseCleanupStartedAt ← optional_instant (x_response_cleanup_started_at r);
  responseFileRemovedAt ← optional_instant (x_response_file_removed_at r);
  createdAt ← exchange_instant (x_created_at c);
  updatedAt ← exchange_instant (x_updated_at r);
  validateExecutionIdempotencyKey (x_execution_idempotency_key c);;
  keyExpiresAt ← optional_instant (x_idempotency_key_expires_at c);
  let keyExpiresAt :=
    match keyExpiresAt with
    | Some at_ => Some at_
    | None => if negb (is_empty (x_client_idempotency_key c)) && x_idempotency_binding_active c
              then Some (createdAt + DefaultSessionIdempotencyRetention) else None
    end in
  let responseCleanupAt :=
    match responseCleanupAt with
    | Some at_ => Some at_
    | None => if (0 <? revision) && mailboxExchangeStateTerminal state
              then Some (mailboxResponseCleanupDeadline updatedAt acknowledgedAt) else None
    end in
  Ok (mkMailboxExchangeRecord id
        (mkMailboxExchangeCreate (x_mailbox_id c) (x_client_request_id c) operation controller (x_client_idempotency_key c)
           (x_execution_idempotency_key c) hash (x_canonical_payload c) (x_resource_id c) selection selectionState)
        state revision (fst response) (snd response) (fst terminal) (snd terminal) (x_available_event_sequence p)
        acknowledgedAt responseCleanupAt responseCleanupStartedAt responseFileRemovedAt (default "" eventFile)
        keyExpiresAt (x_idempotency_binding_active c) (x_deduplication_warning c) createdAt updatedAt).

(** [COALESCE] of the two references of an exchange. *)
Definition event_file_command (id : string) (m : Mirror) : option string :=
  match mailbox_event_file_references m !! id with
  | Some commandID => Some commandID
  | None => mailbox_remote_event_file_references m !! id
  end.

Definition readMailboxExchangeOnConnection (ref : MailboxExchangeRef) : mtx MailboxExchangeRecord :=
  validated ← lift (validateMailboxExchangeRef ref);
  let id := mailboxExchangeID validated in
  row ← query (fun m => mailbox_exchanges m !! id);
  row ← or_fail row ErrMailboxExchangeNotFound;
  eventFile ← query (event_file_command id);
  lift (decodeMailboxExchange validated id row eventFile).

Definition readMailboxExchangeByIDOnConnection (ref : MailboxExchangeRef) : mtx (option MailboxExchangeRecord) :=
  validated ← lift (validateMailboxExchangeRef ref);
  row ← query (fun m => mailbox_exchanges m !! mailboxExchangeID validated);
  if is_Some_b row then record ← readMailboxExchangeOnConnection validated; mret (Some record) else mret None.

(** [ORDER BY created_at, exchange_id] *)
Definition exchange_list (p : string -> ExchangeRow -> bool) (m : Mirror) : list (string * ExchangeRow) :=
  merge_sort (listed_le (fun r => x_created_at (x_receipt r))) (map_to_list (rows_where p (mailbox_exchanges m))).

Definition owned_by (mailboxID : string) (controller : ControllerIdentity) (operation : string) (r : ExchangeRow) : bool :=
  bool_decide (x_mailbox_id (x_receipt r) = mailboxID) && bool_decide (x_controller (x_receipt r) = controller)
  && bool_decide (x_operation (x_receipt r) = operation).

Definition bound_to_key (mailboxID : string) (controller : ControllerIdentity) (operation key : string) (_ : string) (r : ExchangeRow)
    : bool :=
  owned_by mailboxID controller operation r && bool_decide (x_client_idempotency_key (x_receipt r) = key)
  && x_idempotency_binding_active (x_receipt r).

Definition readLatestMailboxExchangeByKeyOnConnection (mailboxID : string) (controller : ControllerIdentity) (operation key : string)
    : mtx (option MailboxExchangeRecord) :=
  lift (validateMailboxID mailboxID);;
  row ← query (fun m => last (exchange_list (bound_to_key mailboxID controller operation key) m));
  match row with
  | None => mret None
  | Some (_, r) =>
      record ← readMailboxExchangeOnConnection (mkMailboxExchangeRef mailboxID (x_client_request_id (x_receipt r)));
      mret (Some record)
  end.

(** The loops that read one exchange per listed request. *)
Fixpoint read_exchanges (refs : list MailboxExchangeRef) : mtx (list MailboxExchangeRecord) :=
  match refs with
  | [] => mret []
  | ref :: rest => record ← readMailboxExchangeOnConnection ref; records ← read_exchanges rest; mret (record :: records)
  end.
