(* ===== verification/MailboxOps.v ===== *)
(** * Mailbox exchanges: acceptance and responses

    Models the operations of [src/src/internal/store/mailbox_exchanges.go],
    [src/src/internal/store/mailbox_ack.go] and
    [src/src/internal/store/mailbox_lifecycle.go], and the binding of an event
    file of [src/src/internal/store/mailbox_cleanup.go], which the publication of
    a response calls.

    These transactions write tables of the mailbox and of the local intents only;
    the authority store [s] is what they read of the execution authority (its lane
    admission and its commands). *)
From Stdlib Require Import String.
From S2P Require Import Prelude GoStrings Sha256 Identity Lifecycle Policy JsonText Canonical RunPayload.
From S2P Require Import LaneAdmission Db AuditStore AdmissionStore Idempotency Sessions Listings Commands RemoteDb.
From S2P Require Import LocalIntents LocalIntentOps BridgeJson WireJson RemoteReplies Mailbox.

Definition check_admission (s : AuthorityStore) : mtx unit :=
  lift (withReadTransaction s (checkIngressAdmissionOnConnection (laneAdmissionRuntime s))).

(** ** Acceptance *)
Definition rejectMailboxExchangeIngressDiagnosticCollision (ref : MailboxExchangeRef) : mtx unit :=
  row ← query (fun m => mailbox_ingress_diagnostics m !! (ref_MailboxID ref, ref_ClientRequestID ref));
  fail_if (is_Some_b row) ErrMailboxIngressDiagnosticConflict.

Definition rebindMailboxResponseRequestID (raw requestID : string) : result string :=
  match Unmarshal_raw_map raw with
  | None => Err ErrMailboxResponseInvalid
  | Some response => Ok (string_of (marshal_raw_map (response ++ [("request_id", marshal_string requestID)])))
  end.

(** [CreatedAt, UpdatedAt = now, now] *)
Definition stamped_at (now : Z) (v : validatedMailboxExchangeCreate) : validatedMailboxExchangeCreate :=
  mkValidatedExchange (vx_create v) (vx_State v) (vx_ResponseRevision v) (vx_ResponseBytes v) (vx_ResponseSHA256 v)
    (vx_TerminalResponseBytes v) (vx_TerminalResponseSHA256 v) (vx_AvailableEventSequence v) (vx_IdempotencyKeyExpiresAt v)
    (vx_IdempotencyBindingActive v) (vx_DeduplicationWarning v) now now.

(** [State = MailboxExchangeAccepted] *)
Definition accepted_state (v : validatedMailboxExchangeCreate) : validatedMailboxExchangeCreate :=
  mkValidatedExchange (vx_create v) MailboxExchangeAccepted (vx_ResponseRevision v) (vx_ResponseBytes v) (vx_ResponseSHA256 v)
    (vx_TerminalResponseBytes v) (vx_TerminalResponseSHA256 v) (vx_AvailableEventSequence v) (vx_IdempotencyKeyExpiresAt v)
    (vx_IdempotencyBindingActive v) (vx_DeduplicationWarning v) (vx_CreatedAt v) (vx_UpdatedAt v).

Definition with_binding (expires : option Z) (active warning : bool) (v : validatedMailboxExchangeCreate)
    : validatedMailboxExchangeCreate :=
  mkValidatedExchange (vx_create v) (vx_State v) (vx_ResponseRevision v) (vx_ResponseBytes v) (vx_ResponseSHA256 v)
    (vx_TerminalResponseBytes v) (vx_TerminalResponseSHA256 v) (vx_AvailableEventSequence v) expires active warning
    (vx_CreatedAt v) (vx_UpdatedAt v).

(** The resource and the selection of the original acceptance. *)
Definition with_original (e : MailboxExchangeRecord) (v : validatedMailboxExchangeCreate) : validatedMailboxExchangeCreate :=
  let c := vx_create v in
  mkValidatedExchange
    (mkMailboxExchangeCreate (mc_MailboxID c) (mc_RequestID c) (mc_Operation c) (mc_Controller c) (mc_IdempotencyKey c)
       (mc_ExecutionIdempotencyKey c) (mc_RequestHash c) (mc_CanonicalPayload c) (mc_ResourceID (mx_create e))
       (mc_Selection (mx_create e)) (mc_SelectionState (mx_create e)))
    (vx_State v) (vx_ResponseRevision v) (vx_ResponseBytes v) (vx_ResponseSHA256 v) (vx_TerminalResponseBytes v)
    (vx_TerminalResponseSHA256 v) (vx_AvailableEventSequence v) (vx_IdempotencyKeyExpiresAt v) (vx_IdempotencyBindingActive v)
    (vx_DeduplicationWarning v) (vx_CreatedAt v) (vx_UpdatedAt v).

Definition rebound (raw requestID : string) : result (string * string) :=
  if 0 <? go_len raw then bytes ← rebindMailboxResponseRequestID raw requestID; Ok (bytes, sha256 bytes) else Ok ("", "").

(** The response of the original acceptance under the new request ID. *)
Definition with_replay (e : MailboxExchangeRecord) (v : validatedMailboxExchangeCreate) : result validatedMailboxExchangeCreate :=
  response ← rebound (mx_ResponseBytes e) (mc_RequestID (vx_create v));
  terminal ← rebound (mx_TerminalResponseBytes e) (mc_RequestID (vx_create v));
  Ok (mkValidatedExchange (vx_create v) (mx_State e) (mx_ResponseRevision e) (fst response) (snd response) (fst terminal)
        (snd terminal) (mx_AvailableEventSequence e) (vx_IdempotencyKeyExpiresAt v) (vx_IdempotencyBindingActive v)
        (vx_DeduplicationWarning v) (vx_CreatedAt v) (vx_UpdatedAt v)).

Definition insert_and_read (v : validatedMailboxExchangeCreate) : mtx MailboxExchangeRecord :=
  insertMailboxExchangeOnConnection v;; readMailboxExchangeOnConnection (create_ref (vx_create v)).

(** The end of the transaction: a new accepted receipt, which owns its key. *)
Definition accept_new (now : Z) (v : validatedMailboxExchangeCreate) : mtx MailboxExchangeRecord :=
  let v := if negb (is_empty (mc_IdempotencyKey (vx_create v))) && negb (vx_IdempotencyBindingActive v)
           then with_binding (Some (now + DefaultSessionIdempotencyRetention)) true (vx_DeduplicationWarning v) v else v in
  insert_and_read (stamped_at now (accepted_state v)).

Definition key_active (now : Z) (e : MailboxExchangeRecord) : bool :=
  match mx_IdempotencyKeyExpiresAt e with Some expires => now <? expires | None => false end.

Definition changed_request (e : MailboxExchangeRecord) (v : validatedMailboxExchangeCreate) : bool :=
  is_conflict (CompareIdempotency (mc_RequestHash (mx_create e)) (mc_RequestHash (vx_create v)))
  || negb (bool_decide (mc_CanonicalPayload (mx_create e) = mc_CanonicalPayload (vx_create v))).

(** The record with [duplicate] and [idempotencyConflict]. *)
Definition accept_exchange (s : AuthorityStore) (validated : validatedMailboxExchangeCreate) (recordConflict refreshDuplicate : bool)
    (now : Z) : mtx (MailboxExchangeRecord * bool * bool) :=
  let c := vx_create validated in
  rejectMailboxExchangeIngressDiagnosticCollision (create_ref c);;
  byID ← readMailboxExchangeByIDOnConnection (create_ref c);
  match byID with
  | Some byID => fail_if (negb (sameMailboxBinding byID validated)) ErrMailboxExchangeConflict;; mret (byID, true, false)
  | None =>
      (if mailboxOperationRequiresLaneAdmission (mc_Operation c) then check_admission s else mret tt);;
      existing ← (if is_empty (mc_IdempotencyKey c) then mret None
                  else readLatestMailboxExchangeByKeyOnConnection (mc_MailboxID c) (mc_Controller c) (mc_Operation c) (mc_IdempotencyKey c));
      match existing with
      | None => record ← accept_new now validated; mret (record, false, false)
      | Some existing =>
          if negb (key_active now existing) then
            record ← accept_new now (with_binding (vx_IdempotencyKeyExpiresAt validated) (vx_IdempotencyBindingActive validated) true validated);
            mret (record, false, false)
          else if changed_request existing validated then
            fail_if (negb recordConflict) ErrIdempotencyConflict;;
            record ← insert_and_read (stamped_at now (accepted_state
                       (with_binding (vx_IdempotencyKeyExpiresAt validated) false (vx_DeduplicationWarning validated) validated)));
            mret (record, false, true)
          else
            let bound := with_binding (mx_IdempotencyKeyExpiresAt existing) true (mx_DeduplicationWarning existing)
                           (with_original existing validated) in
            if refreshDuplicate then record ← accept_new now bound; mret (record, true, false)
            else
              replay ← lift (with_replay existing bound);
              record ← insert_and_read (stamped_at now replay);
              mret (record, true, false)
      end
  end.

Definition acceptMailboxExchange (s : AuthorityStore) (m : Mirror) (now : Z) (input : MailboxExchangeCreate)
    (recordConflict refreshDuplicate requireExplicitMailbox : bool) : result (MailboxExchangeRecord * bool * bool) * Mirror :=
  match mailboxRefFromInput input requireExplicitMailbox with
  | Err e => (Err e, m)
  | Ok (_, input) =>
      match validateMailboxExchangeCreate input with
      | Err e => (Err e, m)
      | Ok validated => withMirrorTransaction m (accept_exchange s validated recordConflict refreshDuplicate now)
      end
  end.

(** The first two results. *)
Definition record_and_duplicate (r : result (MailboxExchangeRecord * bool * bool) * Mirror) : result (MailboxExchangeRecord * bool) * Mirror :=
  (match fst r with Ok (record, duplicate, _) => Ok (record, duplicate) | Err e => Err e end, snd r).

Definition AcceptMailboxExchange (s : AuthorityStore) (m : Mirror) (now : Z) (input : MailboxExchangeCreate) :=
  record_and_duplicate (acceptMailboxExchange s m now input false false false).

Definition AcceptMailboxExchangeInMailbox (s : AuthorityStore) (m : Mirror) (now : Z) (ref : MailboxExchangeRef)
    (input : MailboxExchangeCreate) : result (MailboxExchangeRecord * bool) * Mirror :=
  match mailboxRefWithInput ref input with
  | Err e => (Err e, m)
  | Ok input => record_and_duplicate (acceptMailboxExchange s m now input false false true)
  end.

Definition AcceptMailboxExchangeWithConflictReceipt (s : AuthorityStore) (m : Mirror) (now : Z) (input : MailboxExchangeCreate) :=
  acceptMailboxExchange s m now input true true false.

Definition AcceptMailboxExchangeWithConflictReceiptInMailbox (s : AuthorityStore) (m : Mirror) (now : Z) (ref : MailboxExchangeRef)
    (input : MailboxExchangeCreate) : result (MailboxExchangeRecord * bool * bool) * Mirror :=
  match mailboxRefWithInput ref input with
  | Err e => (Err e, m)
  | Ok input => acceptMailboxExchange s m now input true true true
  end.

(** ** Reads *)
Definition GetMailboxExchangeInMailbox (m : Mirror) (ref : MailboxExchangeRef) : result MailboxExchangeRecord :=
  validated ← validateMailboxExchangeRef ref;
  withMirrorRead m (readMailboxExchangeOnConnection validated).

Definition GetMailboxExchange (m : Mirror) (requestID : string) : result MailboxExchangeRecord :=
  ref ← defaultMailboxExchangeRef requestID;
  GetMailboxExchangeInMailbox m ref.

Definition FindActiveMailboxExchangeByKeyInMailbox (m : Mirror) (now : Z) (mailboxID : string) (controller : ControllerIdentity)
    (operation key : string) : result (option MailboxExchangeRecord) :=
  validateMailboxID mailboxID;;
  controller ← result_map_err (fun _ => ErrMailboxExchangeInvalid) (validateController controller);
  refuse_if (is_empty operation || (128 <? go_len operation) || contains_nul operation) ErrMailboxExchangeInvalid;;
  refuse_if (is_empty key || (256 <? go_len key) || contains_nul key) ErrMailboxExchangeInvalid;;
  record ← withMirrorRead m (readLatestMailboxExchangeByKeyOnConnection mailboxID controller operation key);
  Ok (match record with
      | Some record => if mx_IdempotencyBindingActive record && key_active now record then Some record else None
      | None => None
      end).

(** [strings.TrimSpace(operation) == "" || ...] *)
Definition bad_operation (operation : string) : bool :=
  is_empty (TrimSpace operation) || (128 <? go_len operation) || contains_nul operation.

Definition refs_in (mailboxID : string) (rows : list (string * ExchangeRow)) : list MailboxExchangeRef :=
  (fun '(_, r) => mkMailboxExchangeRef mailboxID (x_client_request_id (x_receipt r))) <$> rows.

Definition ListMailboxExchangesInMailbox (m : Mirror) (mailboxID : string) (controller : ControllerIdentity) (operation : string)
    (state : MailboxExchangeState) : result (list MailboxExchangeRecord) :=
  validateMailboxID mailboxID;;
  controller ← result_map_err (fun _ => ErrMailboxExchangeInvalid) (validateController controller);
  refuse_if (bad_operation operation) ErrMailboxExchangeInvalid;;
  refuse_if (negb (known_exchange_state state)) ErrMailboxExchangeInvalid;;
  withMirrorRead m
    (rows ← query (exchange_list (fun _ r => owned_by mailboxID controller operation r && in_exchange_state state r));
     read_exchanges (refs_in mailboxID rows)).

Definition ListMailboxExchanges (m : Mirror) (controller : ControllerIdentity) (operation : string) (state : MailboxExchangeState) :=
  ListMailboxExchangesInMailbox m DefaultMailboxID controller operation state.

(** [ORDER BY mailbox_id, created_at, exchange_id] *)
Definition mailbox_list_le (x y : string * ExchangeRow) : Prop :=
  if bool_decide (x_mailbox_id (x_receipt (snd x)) = x_mailbox_id (x_receipt (snd y)))
  then listed_le (fun r => x_created_at (x_receipt r)) x y
  else string_le (x_mailbox_id (x_receipt (snd x))) (x_mailbox_id (x_receipt (snd y))).
#[export] Instance mailbox_list_le_dec x y : Decision (mailbox_list_le x y).
Proof. unfold mailbox_list_le. destruct (bool_decide _); apply _. Defined.

(** The join with the local intent of this identifier. *)
Definition of_intent (m : Mirror) (intentID : string) (controller : ControllerIdentity) (operation : string) (_ : string) (r : ExchangeRow)
    : bool :=
  match local_intents m !! intentID with
  | Some li => bool_decide (li_idempotency_key li = x_execution_idempotency_key (x_receipt r))
               && bool_decide (x_controller (x_receipt r) = controller) && bool_decide (x_operation (x_receipt r) = operation)
               && bool_decide (li_controller li = controller) && bool_decide (li_operation li = operation)
  | None => false
  end.

Definition ListMailboxExchangesForIntent (m : Mirror) (controller : ControllerIdentity) (operation intentID : string)
    : result (list MailboxExchangeRecord) :=
  controller ← result_map_err (fun _ => ErrMailboxExchangeInvalid) (validateController controller);
  refuse_if (bad_operation operation) ErrMailboxExchangeInvalid;;
  intentID ← result_map_err (fun _ => ErrMailboxExchangeInvalid) (NewIntentID intentID);
  withMirrorRead m
    (rows ← query (fun m => merge_sort mailbox_list_le
                              (map_to_list (rows_where (of_intent m intentID controller operation) (mailbox_exchanges m))));
     read_exchanges ((fun '(_, r) => mkMailboxExchangeRef (x_mailbox_id (x_receipt r)) (x_client_request_id (x_receipt r))) <$> rows)).

(** The query of [listPublishableTerminalMailboxExchangesInMailbox] without a limit. *)
Definition publishable_row (mailboxID : string) (controller : ControllerIdentity) (now : Z) (_ : string) (r : ExchangeRow) : bool :=
  bool_decide (x_mailbox_id (x_receipt r) = mailboxID) && bool_decide (x_controller (x_receipt r) = controller)
  && mailboxExchangeStateTerminal (x_request_state (x_response r)) && (0 <? x_response_revision (x_response r))
  && (0 <? go_len (default "" (x_response_bytes (x_response r))))
  && negb (is_Some_b (x_response_cleanup_started_at r)) && negb (is_Some_b (x_response_file_removed_at r))
  && match x_response_cleanup_at r with None => true | Some at_ => negb (stored_le_b at_ (formatStoredTime now)) end.

Definition ListPublishableTerminalMailboxExchangesInMailbox (m : Mirror) (now : Z) (mailboxID : string) (controller : ControllerIdentity)
    : result (list MailboxExchangeRecord) :=
  validateMailboxID mailboxID;;
  controller ← result_map_err (fun _ => ErrMailboxExchangeInvalid) (validateController controller);
  withMirrorRead m
    (rows ← query (exchange_list (publishable_row mailboxID controller now));
     records ← read_exchanges (refs_in mailboxID rows);
     mret (List.filter (fun r => match mx_ResponseCleanupAt r with Some at_ => now <? at_ | None => false end) records)).

Definition ListPublishableTerminalMailboxExchanges (m : Mirror) (now : Z) (controller : ControllerIdentity) :=
  ListPublishableTerminalMailboxExchangesInMailbox m now DefaultMailboxID controller.

(** ** Completion *)

(** [SET request_state = ?, updated_at = ?] *)
Definition with_request_state (next : MailboxExchangeState) (now : Z) (r : ExchangeRow) : ExchangeRow :=
  let p := x_response r in
  mkExchangeRow (x_receipt r)
    (mkResponseColumns next (x_response_revision p) (x_response_bytes p) (x_response_sha256 p) (x_terminal_response_bytes p)
       (x_terminal_response_sha256 p) (x_available_event_sequence p))
    (formatStoredTime now) (x_acknowledged_at r) (x_response_cleanup_at r) (x_response_cleanup_started_at r)
    (x_response_file_removed_at r).

Definition same_binding_row (e : MailboxExchangeRecord) (_ : string) (r : ExchangeRow) : bool :=
  let c := mx_create e in
  owned_by (mc_MailboxID c) (mc_Controller c) (mc_Operation c) r
  && bool_decide (x_client_idempotency_key (x_receipt r) = mc_IdempotencyKey c)
  && (x_canonical_hash_version (x_receipt r) =? hash_version (mc_RequestHash c))
  && bool_decide (x_canonical_hash (x_receipt r) = hash_digest (mc_RequestHash c)).

Definition CompleteMailboxExchangeInMailbox (m : Mirror) (now : Z) (ref : MailboxExchangeRef) (next : MailboxExchangeState)
    : result MailboxExchangeRecord * Mirror :=
  match validateMailboxExchangeRef ref with
  | Err e => (Err e, m)
  | Ok validated =>
      if negb (mailboxExchangeStateTerminal next) then (Err ErrMailboxExchangeInvalid, m)
      else withMirrorTransaction m
        (current ← readMailboxExchangeOnConnection validated;
         if negb (bool_decide (mx_State current = MailboxExchangeAccepted)) then
           fail_if (negb (bool_decide (mx_State current = next))) ErrMailboxExchangeConflict;; mret current
         else
           exec_update_exchanges (same_binding_row current) (with_request_state next now);;
           readMailboxExchangeOnConnection validated)
  end.

(** The wrappers for the default mailbox. *)
Definition in_default_mailbox {A} (m : Mirror) (requestID : string) (op : MailboxExchangeRef -> result A * Mirror) : result A * Mirror :=
  match defaultMailboxExchangeRef requestID with Err e => (Err e, m) | Ok ref => op ref end.

Definition CompleteMailboxExchange (m : Mirror) (now : Z) (requestID : string) (next : MailboxExchangeState) :=
  in_default_mailbox m requestID (fun ref => CompleteMailboxExchangeInMailbox m now ref next).

(** ** The event file of a response *)

(** A command is of the authority or mirrored, not both. *)
Definition command_ownership (s : AuthorityStore) (m : Mirror) (commandID : string) : bool * bool :=
  (is_Some_b (exec_commands (db s) !! commandID), is_Some_b (local_remote_command_projections m !! commandID)).

Definition file_cleanup (b : MailboxTables) (remote : bool) : gmap (string * string) EventFileCleanupRow :=
  if remote then mb_remote_event_file_cleanup b else mb_event_file_cleanup b.
Definition on_file_cleanup (remote : bool) (f : gmap (string * string) EventFileCleanupRow -> gmap (string * string) EventFileCleanupRow)
    (b : MailboxTables) : MailboxTables :=
  if remote then set_remote_file_cleanup (f (mb_remote_event_file_cleanup b)) b else set_file_cleanup (f (mb_event_file_cleanup b)) b.
Definition insert_reference (remote : bool) (exchangeID commandID : string) (b : MailboxTables) : MailboxTables :=
  if remote then set_remote_references (<[exchangeID := commandID]> (mb_remote_event_file_references b)) b
  else set_references (<[exchangeID := commandID]> (mb_event_file_references b)) b.

Definition resetMailboxEventCleanupWork (mailboxID commandID : string) (remote : bool) : mtx unit :=
  modify (on_mailbox_tables (fun b => set_cleanup_work (<[(mailboxID, commandID, remote) := fresh_work]> (mb_event_cleanup_work b)) b)).

(** The cleanup row of the file: an unfinished removal refuses the reference, a
    finished one is forgotten. *)
Definition reactivate_file (mailboxID commandID : string) (remote : bool) : mtx unit :=
  row ← query (fun m => file_cleanup (mailbox m) remote !! (mailboxID, commandID));
  match row with
  | None => mret tt
  | Some row =>
      fail_if (negb (is_Some_b (ec_file_removed_at row))) ErrMailboxEventReferenceExpired;;
      modify (on_mailbox_tables (on_file_cleanup remote (delete (mailboxID, commandID))))
  end.

(** The insert of a reference: its exchange and its command exist. *)
Definition insertReference (s : AuthorityStore) (remote : bool) (exchangeID commandID : string) : mtx unit :=
  refused ← query (fun m => negb (is_Some_b (mailbox_exchanges m !! exchangeID))
    || is_Some_b (references (mailbox m) remote !! exchangeID)
    || negb (if remote then snd (command_ownership s m commandID) else fst (command_ownership s m commandID)));
  fail_if refused (ErrSQL "record event-file reference");;
  modify (on_mailbox_tables (insert_reference remote exchangeID commandID)).

Definition bindMailboxEventFileReferenceOnConnection (s : AuthorityStore) (ref : MailboxExchangeRef) (commandID : string) (now : Z)
    : mtx unit :=
  record ← readMailboxExchangeOnConnection ref;
  let mailboxID := mc_MailboxID (mx_create record) in
  cleanupAt ← or_fail (mx_ResponseCleanupAt record) ErrMailboxResponseInvalid;
  fail_if (bool_decide (mx_State record = MailboxExchangeAccepted)
           || match mx_AvailableEventSequence record with Some n => n <? 1 | None => true end) ErrMailboxResponseInvalid;;
  fail_if (is_Some_b (mx_ResponseCleanupStartedAt record) || is_Some_b (mx_ResponseFileRemovedAt record) || (cleanupAt <=? now))
    ErrMailboxResponseExpired;;
  owners ← query (fun m => command_ownership s m commandID);
  fail_if (fst owners && snd owners) ErrMailboxExchangeConflict;;
  fail_if (negb (fst owners) && negb (snd owners)) ErrCommandNotFound;;
  let remote := snd owners in
  fail_if (negb (is_empty (mx_EventFileCommandID record)) && negb (bool_decide (mx_EventFileCommandID record = commandID)))
    ErrMailboxExchangeConflict;;
  reactivate_file mailboxID commandID remote;;
  localReference ← query (fun m => mailbox_event_file_references m !! mx_ExchangeID record);
  remoteReference ← query (fun m => mailbox_remote_event_file_references m !! mx_ExchangeID record);
  match localReference, remoteReference with
  | Some _, Some _ => throw ErrMailboxExchangeConflict
  | Some existing, None =>
      fail_if (negb (bool_decide (existing = commandID)) || remote) ErrMailboxExchangeConflict;;
      resetMailboxEventCleanupWork mailboxID commandID remote
  | None, Some existing =>
      fail_if (negb (bool_decide (existing = commandID)) || negb remote) ErrMailboxExchangeConflict;;
      resetMailboxEventCleanupWork mailboxID commandID remote
  | None, None =>
      insertReference s remote (mx_ExchangeID record) commandID;;
      resetMailboxEventCleanupWork mailboxID commandID remote
  end.

Definition BindMailboxEventFileReferenceInMailbox (s : AuthorityStore) (m : Mirror) (now : Z) (ref : MailboxExchangeRef)
    (commandID : string) : result unit * Mirror :=
  match validateMailboxExchangeRef ref, NewCommandID commandID with
  | Err e, _ => (Err e, m)
  | _, Err _ => (Err ErrMailboxResponseInvalid, m)
  | Ok validatedRef, Ok validatedCommandID =>
      withMirrorTransaction m (bindMailboxEventFileReferenceOnConnection s validatedRef validatedCommandID now)
  end.

Definition BindMailboxEventFileReference (s : AuthorityStore) (m : Mirror) (now : Z) (requestID commandID : string) :=
  in_default_mailbox m requestID (fun ref => BindMailboxEventFileReferenceInMailbox s m now ref commandID).

(** ** Publication *)
Definition event_file_name (commandID : string) : string := ("events/" ++ commandID ++ ".ndjson")%string.

Definition responseEventFileCommand (response : string) : result (option string) :=
  match v ← parse_json response; Unmarshal_struct ["command_id"; "events_file"] v with
  | None => Ok None
  | Some fields =>
      let commandID := default "" (fields !! "command_id") in
      let eventsFile := default "" (fields !! "events_file") in
      if is_empty commandID && is_empty eventsFile then Ok None
      else
        refuse_if (negb (result_is_ok (NewCommandID commandID)) || negb (bool_decide (eventsFile = event_file_name commandID)))
          ErrMailboxResponseInvalid;;
        Ok (Some commandID)
  end.

(** [current.ResponseRevision + 1] of an [int64] *)
Definition next_revision (revision : Z) : result Z :=
  let next := if revision =? max_int64 then - 2 ^ 63 else revision + 1 in
  refuse_if (next <=? 0) ErrMailboxResponseInvalid;; Ok next.

(** The columns of a response, with [updated_at] and [response_cleanup_at]. *)
Definition with_response (p : ResponseColumns) (cleanupAt : option StoredTime) (now : Z) (r : ExchangeRow) : ExchangeRow :=
  mkExchangeRow (x_receipt r) p (formatStoredTime now) (x_acknowledged_at r) cleanupAt (x_response_cleanup_started_at r)
    (x_response_file_removed_at r).

Definition snapshot (publication : MailboxResponsePublication) (revision : Z) : ResponseColumns :=
  let bytes := Some (mp_Bytes publication) in
  let digest := Some (sha256 (mp_Bytes publication)) in
  let terminal := mailboxExchangeStateTerminal (mp_State publication) in
  mkResponseColumns (mp_State publication) revision bytes digest (if terminal then bytes else None) (if terminal then digest else None)
    (mp_AvailableEventSequence publication).

Definition publication_deadline (publication : MailboxResponsePublication) (now : Z) : option StoredTime :=
  if mailboxExchangeStateTerminal (mp_State publication) then Some (formatStoredTime (now + MailboxUnackedResponseLifetime)) else None.

Definition same_publication (current : MailboxExchangeRecord) (publication : MailboxResponsePublication) : bool :=
  (0 <? mx_ResponseRevision current) && bool_decide (mx_ResponseBytes current = mp_Bytes publication)
  && bool_decide (mx_State current = mp_State publication)
  && sameCursor (mx_AvailableEventSequence current) (mp_AvailableEventSequence publication).

Definition publish_response (s : AuthorityStore) (validated : MailboxExchangeRef) (publication : MailboxResponsePublication)
    (eventFile : option string) (now : Z) : mtx MailboxExchangeRecord :=
  current ← readMailboxExchangeOnConnection validated;
  if negb (bool_decide (mx_State current = MailboxExchangeAccepted)) then
    fail_if (negb (same_publication current publication)) ErrMailboxTerminalImmutable;; mret current
  else
    nextRevision ← lift (next_revision (mx_ResponseRevision current));
    exec_update_exchanges (row_of (mx_ExchangeID current) (in_exchange_state MailboxExchangeAccepted))
      (with_response (snapshot publication nextRevision) (publication_deadline publication now) now);;
    match eventFile with
    | Some commandID => bindMailboxEventFileReferenceOnConnection s validated commandID now
    | None => mret tt
    end;;
    readMailboxExchangeOnConnection validated.

Definition valid_publication (publication : MailboxResponsePublication) : result unit :=
  refuse_if (negb (known_exchange_state (mp_State publication))) ErrMailboxResponseInvalid;;
  refuse_if (is_empty (mp_Bytes publication) || (MaxSerializedRequestBytes <? go_len (mp_Bytes publication))) ErrMailboxResponseInvalid;;
  refuse_if (match mp_AvailableEventSequence publication with Some n => n <? 0 | None => false end) ErrMailboxResponseInvalid.

Definition publication_event_file (publication : MailboxResponsePublication) : result (option string) :=
  if negb (bool_decide (mp_State publication = MailboxExchangeAccepted))
     && match mp_AvailableEventSequence publication with Some n => 0 <? n | None => false end
  then responseEventFileCommand (mp_Bytes publication) else Ok None.

Definition PublishMailboxResponseInMailbox (s : AuthorityStore) (m : Mirror) (now : Z) (ref : MailboxExchangeRef)
    (publication : MailboxResponsePublication) : result MailboxExchangeRecord * Mirror :=
  match (validated ← validateMailboxExchangeRef ref;
         valid_publication publication;;
         eventFile ← publication_event_file publication;
         Ok (validated, eventFile)) : result (MailboxExchangeRef * option string) with
  | Err e => (Err e, m)
  | Ok (validated, eventFile) => withMirrorTransaction m (publish_response s validated publication eventFile now)
  end.

Definition PublishMailboxResponse (s : AuthorityStore) (m : Mirror) (now : Z) (requestID : string) (publication : MailboxResponsePublication) :=
  in_default_mailbox m requestID (fun ref => PublishMailboxResponseInMailbox s m now ref publication).

(** ** Acknowledgement *)
Record MailboxAcknowledgement : Type := mkMailboxAcknowledgement {
  ack_MailboxID : string;
  ack_RequestID : string;
  ack_ResponseRevision : Z;
  ack_AvailableEventSequence : option Z
}.

(** [SET acknowledged_at = ?, response_cleanup_at = ?] *)
Definition with_acknowledgement (now cleanupAt : Z) (r : ExchangeRow) : ExchangeRow :=
  mkExchangeRow (x_receipt r) (x_response r) (x_updated_at r) (Some (formatStoredTime now)) (Some (formatStoredTime cleanupAt))
    (x_response_cleanup_started_at r) (x_response_file_removed_at r).

Definition acknowledged_deadline (record : MailboxExchangeRecord) (now : Z) : Z :=
  let cleanupAt := default (mx_UpdatedAt record + MailboxUnackedResponseLifetime) (mx_ResponseCleanupAt record) in
  let ackedDeadline := now + MailboxAckedResponseLifetime in
  if negb (is_Some_b (mx_ResponseCleanupStartedAt record)) && (now <? cleanupAt) && (ackedDeadline <? cleanupAt)
  then ackedDeadline else cleanupAt.

Definition acknowledge (s : AuthorityStore) (validated : MailboxExchangeRef) (ack : MailboxAcknowledgement) (now : Z)
    : mtx MailboxExchangeRecord :=
  check_admission s;;
  record ← readMailboxExchangeOnConnection validated;
  fail_if (negb (mailboxExchangeStateTerminal (mx_State record)) || (mx_ResponseRevision record <? 1)
           || (go_len (mx_TerminalResponseBytes record) =? 0)) ErrMailboxAckConflict;;
  fail_if (negb (mx_ResponseRevision record =? ack_ResponseRevision ack)
           || negb (sameCursor (mx_AvailableEventSequence record) (ack_AvailableEventSequence ack))) ErrMailboxAckConflict;;
  if is_Some_b (mx_AcknowledgedAt record) then mret record
  else
    exec_update_exchanges (row_of (mx_ExchangeID record) (fun r => negb (is_Some_b (x_acknowledged_at r))))
      (with_acknowledgement now (acknowledged_deadline record now));;
    readMailboxExchangeOnConnection validated.

Definition AcknowledgeMailboxExchangeInMailbox (s : AuthorityStore) (m : Mirror) (now : Z) (ref : MailboxExchangeRef)
    (ack : MailboxAcknowledgement) : result MailboxExchangeRecord * Mirror :=
  match validateMailboxExchangeRef ref with
  | Err _ => (Err ErrMailboxAckInvalid, m)
  | Ok validated =>
      if (negb (is_empty (ack_MailboxID ack)) && negb (bool_decide (ack_MailboxID ack = ref_MailboxID validated)))
         || (negb (is_empty (ack_RequestID ack)) && negb (bool_decide (ack_RequestID ack = ref_ClientRequestID validated)))
         || (ack_ResponseRevision ack <? 1)
         || match ack_AvailableEventSequence ack with Some n => n <? 0 | None => false end
      then (Err ErrMailboxAckInvalid, m)
      else withMirrorTransaction m (acknowledge s validated ack now)
  end.

Definition AcknowledgeMailboxExchange (s : AuthorityStore) (m : Mirror) (now : Z) (ack : MailboxAcknowledgement)
    : result MailboxExchangeRecord * Mirror :=
  let mailboxID := if is_empty (ack_MailboxID ack) then DefaultMailboxID else ack_MailboxID ack in
  match NewMailboxExchangeRef mailboxID (ack_RequestID ack) with
  | Err _ => (Err ErrMailboxAckInvalid, m)
  | Ok ref => AcknowledgeMailboxExchangeInMailbox s m now ref ack
  end.

(** ** Lifecycle evidence *)
Record MailboxLifecycleEvidence : Type := mkMailboxLifecycleEvidence {
  le_ExchangeExists : bool;
  le_ExchangeState : MailboxExchangeState;
  le_ExchangeAcknowledged : bool;
  le_DiagnosticExists : bool;
  le_DiagnosticInputPairRemoved : bool
}.

Definition validMailboxLifecycleExchangeState (state : MailboxExchangeState) : bool := known_exchange_state state.

(** What the two queries of a chunk find for one request ID: the row of an
    exchange is found by its columns, not by its key. *)
Definition request_evidence (m : Mirror) (mailboxID requestID : string) : MailboxLifecycleEvidence :=
  let diagnostic := mailbox_ingress_diagnostics m !! (mailboxID, requestID) in
  let removed := match diagnostic with Some d => is_Some_b (dg_input_pair_removed_at d) | None => false end in
  match map_to_list (rows_where (has_identity mailboxID requestID) (mailbox_exchanges m)) with
  | (_, r) :: _ => mkMailboxLifecycleEvidence true (x_request_state (x_response r)) (is_Some_b (x_acknowledged_at r))
                     (is_Some_b diagnostic) removed
  | [] => mkMailboxLifecycleEvidence false (MailboxExchangeOther "") false (is_Some_b diagnostic) removed
  end.

Fixpoint read_evidence (m : Mirror) (mailboxID : string) (requestIDs : list string) : result (gmap string MailboxLifecycleEvidence) :=
  match requestIDs with
  | [] => Ok ∅
  | requestID :: rest =>
      let item := request_evidence m mailboxID requestID in
      refuse_if (le_ExchangeExists item
                 && (le_DiagnosticExists item || negb (validMailboxLifecycleExchangeState (le_ExchangeState item))))
        ErrMailboxLifecycleEvidenceInvalid;;
      others ← read_evidence m mailboxID rest;
      Ok (<[requestID := item]> others)
  end.

Definition LookupMailboxLifecycleEvidenceForRequestIDsInMailbox (m : Mirror) (mailboxID : string) (requestIDs : list string)
    : result (gmap string MailboxLifecycleEvidence) :=
  refuse_if (negb (validMailboxID mailboxID)
             || existsb (fun id => negb (result_is_ok (NewMailboxExchangeRef mailboxID id))) requestIDs)
    ErrMailboxLifecycleEvidenceInvalid;;
  read_evidence m mailboxID requestIDs.
