(* ===== verification/MailboxClosure.v ===== *)
(** * Mailbox exchanges: closing uncertain remote runs

    Models [CloseUncertainRemoteRunAsIndeterminateInMailbox] and
    [PublishAcceptedRemoteStatusUnavailableInMailbox] of
    [src/src/internal/store/mailbox_exchanges.go]: the two operations that end an
    accepted exchange without an outcome of the remote run. *)
From Stdlib Require Import String.
From S2P Require Import Prelude GoStrings Sha256 Identity Lifecycle Policy JsonText Canonical RunPayload.
From S2P Require Import LaneAdmission Db AuditStore Idempotency Listings RemoteDb.
From S2P Require Import LocalIntents LocalIntentOps BridgeJson WireJson RemoteReplies Mailbox MailboxOps.

(** ** The response of a run *)
Record ownerAbandonedRunTarget : Type := mkRunTarget { rt_Kind : string; rt_Profile : string }.
Record ownerAbandonedRunError : Type := mkRunError { re_Code : string; re_Message : string; re_Retryable : bool }.

Record ownerAbandonedRunResponse : Type := mkRunResponse {
  or_InboxID : string;
  or_RequestID : string;
  or_Operation : string;
  or_RequestState : string;
  or_ResponseRevision : Z;
  or_IdempotencyWarning : string;
  or_JobID : string;
  or_JobPhase : string;
  or_SessionID : string;
  or_CommandID : string;
  or_DeliveryState : string;
  or_CommandState : string;
  or_QueueBlockedReason : string;
  or_ExitCode : option Z;
  or_Stdout : string;
  or_Stderr : string;
  or_FinalEventSequence : option Z;
  or_AvailableEventSequence : option Z;
  or_OutputComplete : option bool;
  or_OutputTruncated : option bool;
  or_OutputUnavailableReason : string;
  or_EventsFile : string;
  or_TeardownOutcome : string;
  or_ExecutionSelectionSource : string;
  or_ResolvedEnvironment : string;
  or_ResolvedExecutionTarget : option ownerAbandonedRunTarget;
  or_ObservedAt : option Z;
  or_Error : option ownerAbandonedRunError
}.

Definition run_response_names : list string :=
  ["inbox_id"; "request_id"; "operation"; "request_state"; "response_revision"; "idempotency_warning"; "job_id"; "job_phase";
   "session_id"; "command_id"; "delivery_state"; "command_state"; "queue_blocked_reason"; "exit_code"; "stdout"; "stderr";
   "final_event_sequence"; "available_event_sequence"; "output_complete"; "output_truncated"; "output_unavailable_reason";
   "events_file"; "teardown_outcome"; "execution_selection_source"; "resolved_environment"; "resolved_execution_target";
   "observed_at"; "error"].

Definition Unmarshal_run_target (current : ownerAbandonedRunTarget) (value : json) : option ownerAbandonedRunTarget :=
  members ← struct_members false ["kind"; "profile"] value;
  kind ← struct_value Unmarshal_string (rt_Kind current) "kind" members;
  profile ← struct_value Unmarshal_string (rt_Profile current) "profile" members;
  Some (mkRunTarget kind profile).

Definition Unmarshal_run_error (current : ownerAbandonedRunError) (value : json) : option ownerAbandonedRunError :=
  members ← struct_members false ["code"; "message"; "retryable"] value;
  code ← struct_value Unmarshal_string (re_Code current) "code" members;
  message ← struct_value Unmarshal_string (re_Message current) "message" members;
  retryable ← struct_value Unmarshal_bool (re_Retryable current) "retryable" members;
  Some (mkRunError code message retryable).

Definition Unmarshal_run_response (value : json) : option ownerAbandonedRunResponse :=
  members ← struct_members false run_response_names value;
  let text name := struct_value Unmarshal_string "" name members in
  let int_ptr name := struct_value (Unmarshal_pointer Unmarshal_int64 0) None name members in
  let bool_ptr name := struct_value (Unmarshal_pointer Unmarshal_bool false) None name members in
  inbox ← text "inbox_id"; request ← text "request_id"; operation ← text "operation"; state ← text "request_state";
  revision ← struct_value Unmarshal_int64 0 "response_revision" members;
  warning ← text "idempotency_warning"; job ← text "job_id"; phase ← text "job_phase"; session ← text "session_id";
  command ← text "command_id"; delivery ← text "delivery_state"; commandState ← text "command_state";
  blocked ← text "queue_blocked_reason"; exitCode ← int_ptr "exit_code"; stdout ← text "stdout"; stderr ← text "stderr";
  finalSequence ← int_ptr "final_event_sequence"; available ← int_ptr "available_event_sequence";
  complete ← bool_ptr "output_complete"; truncated ← bool_ptr "output_truncated";
  unavailable ← text "output_unavailable_reason"; events ← text "events_file"; teardown ← text "teardown_outcome";
  source ← text "execution_selection_source"; environment ← text "resolved_environment";
  target ← struct_value (Unmarshal_pointer Unmarshal_run_target (mkRunTarget "" "")) None "resolved_execution_target" members;
  observed ← struct_value (Unmarshal_pointer Unmarshal_time 0) None "observed_at" members;
  error_ ← struct_value (Unmarshal_pointer Unmarshal_run_error (mkRunError "" "" false)) None "error" members;
  Some (mkRunResponse inbox request operation state revision warning job phase session command delivery commandState blocked
          exitCode stdout stderr finalSequence available complete truncated unavailable events teardown source environment
          target observed error_).

Definition Marshal_run_response (r : ownerAbandonedRunResponse) : string :=
  string_of (marshal_fields
    [field_nonempty "inbox_id" (or_InboxID r); field "request_id" (marshal_string (or_RequestID r));
     field "operation" (marshal_string (or_Operation r)); field "request_state" (marshal_string (or_RequestState r));
     field "response_revision" (marshal_int (or_ResponseRevision r)); field_nonempty "idempotency_warning" (or_IdempotencyWarning r);
     field_nonempty "job_id" (or_JobID r); field_nonempty "job_phase" (or_JobPhase r); field_nonempty "session_id" (or_SessionID r);
     field_nonempty "command_id" (or_CommandID r); field_nonempty "delivery_state" (or_DeliveryState r);
     field_nonempty "command_state" (or_CommandState r); field_nonempty "queue_blocked_reason" (or_QueueBlockedReason r);
     field_optional marshal_int "exit_code" (or_ExitCode r); field_nonempty "stdout" (or_Stdout r);
     field_nonempty "stderr" (or_Stderr r); field_optional marshal_int "final_event_sequence" (or_FinalEventSequence r);
     field_optional marshal_int "available_event_sequence" (or_AvailableEventSequence r);
     field_optional marshal_bool "output_complete" (or_OutputComplete r);
     field_optional marshal_bool "output_truncated" (or_OutputTruncated r);
     field_nonempty "output_unavailable_reason" (or_OutputUnavailableReason r); field_nonempty "events_file" (or_EventsFile r);
     field_nonempty "teardown_outcome" (or_TeardownOutcome r);
     field_nonempty "execution_selection_source" (or_ExecutionSelectionSource r);
     field_nonempty "resolved_environment" (or_ResolvedEnvironment r);
     field_optional (fun t => marshal_fields [field "kind" (marshal_string (rt_Kind t)); field "profile" (marshal_string (rt_Profile t))])
       "resolved_execution_target" (or_ResolvedExecutionTarget r);
     field_optional (fun t => marshal_string (format_RFC3339Nano t)) "observed_at" (or_ObservedAt r);
     field_optional (fun e => marshal_fields [field "code" (marshal_string (re_Code e)); field "message" (marshal_string (re_Message e));
                                              field "retryable" (marshal_bool (re_Retryable e))]) "error" (or_Error r)]).

(** ** Owner abandonment *)
Definition readLocalIntentByMailboxExchangeOnConnection (exchange : MailboxExchangeRecord) : mtx LocalIntentRecord :=
  let c := mx_create exchange in
  row ← query (fun m => local_idempotency m !! idem_key (mc_Controller c) (mc_Operation c) (mc_ExecutionIdempotencyKey c));
  row ← or_fail row (ErrText "read mailbox exchange's local intent binding");
  intentID ← lift (result_map_err (fun _ => ErrLocalIdempotencyCorrupt) (NewIntentID (lk_intent_id row)));
  readLocalIntentOnConnection intentID.

(** The identifiers the owner names. *)
Record ExpectedRun : Type := mkExpectedRun { xr_IntentID : string; xr_JobID : string; xr_SessionID : string; xr_CommandID : string }.

Definition other_run (current : MailboxExchangeRecord) (intent : LocalIntentCreate) (want : ExpectedRun) : bool :=
  let differs x y := negb (bool_decide (x = y :> string)) in
  differs (lic_IntentID intent) (xr_IntentID want) || differs (lic_Operation intent) "run"
  || differs (lic_ResourceID intent) (xr_JobID want)
  || (negb (is_empty (mc_ResourceID (mx_create current))) && differs (mc_ResourceID (mx_create current)) (xr_JobID want))
  || differs (lic_JobID intent) (xr_JobID want) || differs (lic_SessionID intent) (xr_SessionID want)
  || differs (lic_CommandID intent) (xr_CommandID want)
  || negb (bool_decide (lic_Controller intent = mc_Controller (mx_create current))).

Definition remote_transport_uncertain : string := "remote_transport_uncertain".

Definition not_abandonable (current : MailboxExchangeRecord) (intent : LocalIntentRecord) (checked : Z) : bool :=
  let i := lir_create intent in
  (mx_ResponseRevision current <? 1) || negb (is_empty (mx_TerminalResponseBytes current)) || is_Some_b (mx_AcknowledgedAt current)
  || is_Some_b (mx_ResponseCleanupStartedAt current) || is_Some_b (mx_ResponseFileRemovedAt current)
  || is_Some_b (mx_AvailableEventSequence current) || negb (bool_decide (target_kind (lic_Target i) = TargetKindRemote))
  || negb (bool_decide (lic_DeliveryState i = LocalIntentUncertain)) || negb (lir_RemoteTerminalProofVersion intent =? 0)
  || negb (bool_decide (lic_Reason i = remote_transport_uncertain)) || (lic_AttemptCount i <? 1) || is_empty (lic_LeaseOwner i)
  || match lic_LeaseExpiresAt i with Some expires => checked <? expires | None => true end.

Definition other_response (previous : ownerAbandonedRunResponse) (current : MailboxExchangeRecord) (want : ExpectedRun) : bool :=
  let differs x y := negb (bool_decide (x = y :> string)) in
  differs (or_RequestID previous) (mc_RequestID (mx_create current)) || differs (or_Operation previous) "run"
  || differs (or_RequestState previous) "accepted" || negb (or_ResponseRevision previous =? mx_ResponseRevision current)
  || differs (or_JobID previous) (xr_JobID want) || differs (or_SessionID previous) (xr_SessionID want)
  || differs (or_CommandID previous) (xr_CommandID want) || differs (or_DeliveryState previous) "uncertain"
  || is_Some_b (or_Error previous) || differs (or_JobPhase previous) "" || differs (or_CommandState previous) ""
  || is_Some_b (or_ExitCode previous) || differs (or_Stdout previous) "" || differs (or_Stderr previous) ""
  || is_Some_b (or_FinalEventSequence previous) || is_Some_b (or_AvailableEventSequence previous)
  || is_Some_b (or_OutputComplete previous) || is_Some_b (or_OutputTruncated previous)
  || differs (or_OutputUnavailableReason previous) "" || differs (or_EventsFile previous) "" || differs (or_TeardownOutcome previous) "".

Definition abandoned_response (current : MailboxExchangeRecord) (previous : ownerAbandonedRunResponse) (want : ExpectedRun)
    (revision : Z) : ownerAbandonedRunResponse :=
  mkRunResponse (mc_MailboxID (mx_create current)) (mc_RequestID (mx_create current)) "run" "indeterminate" revision
    (or_IdempotencyWarning previous) (xr_JobID want) "" (xr_SessionID want) (xr_CommandID want) "uncertain" "" "" None "" "" None None
    None None "" "" "" (or_ExecutionSelectionSource previous) (or_ResolvedEnvironment previous) (or_ResolvedExecutionTarget previous)
    None (Some (mkRunError MailboxOwnerAbandonedCode MailboxOwnerAbandonedMessage false)).

(** [SET delivery_state, reason, lease_owner = '', lease_expires_at = NULL, updated_at] *)
Definition with_abandonment (now : Z) (r : IntentRow) : IntentRow :=
  with_delivery LocalIntentReconciled (li_remote_terminal_proof_version r) MailboxOwnerAbandonedReason "" None
    (li_attempt_count r) now r.

Definition indeterminate_snapshot (bytes : string) (revision : Z) : ResponseColumns :=
  let digest := sha256 bytes in
  mkResponseColumns MailboxExchangeIndeterminate revision (Some bytes) (Some digest) (Some bytes) (Some digest) None.

Definition with_indeterminate (bytes : string) (revision now : Z) : ExchangeRow -> ExchangeRow :=
  with_response (indeterminate_snapshot bytes revision) (Some (formatStoredTime (now + MailboxUnackedResponseLifetime))) now.

(** The uncertain intent and its exchange are closed together. *)
Definition abandon_run (validated : MailboxExchangeRef) (current : MailboxExchangeRecord) (want : ExpectedRun) (now : Z)
    : mtx MailboxExchangeRecord :=
  lifecycle ← query (fun m => last_lifecycle (lifecycle_of (xr_IntentID want) m));
  lifecycle ← or_fail lifecycle (ErrText "read owner-abandonment lifecycle guard");
  fail_if (negb (bool_decide (il_new_state lifecycle = LocalIntentUncertain))
           || negb (bool_decide (il_reason lifecycle = remote_transport_uncertain))) ErrMailboxOwnerAbandonmentNotEligible;;
  previous ← or_fail (v ← parse_json (mx_ResponseBytes current); Unmarshal_run_response v) ErrMailboxOwnerAbandonmentNotEligible;
  fail_if (other_response previous current want) ErrMailboxOwnerAbandonmentNotEligible;;
  nextRevision ← lift (next_revision (mx_ResponseRevision current));
  let responseBytes := Marshal_run_response (abandoned_response current previous want nextRevision) in
  closable ← query (fun m => match local_intents m !! xr_IntentID want with
                             | Some r => bool_decide (li_delivery_state r = LocalIntentUncertain)
                             | None => false
                             end);
  fail_if (negb closable) (ErrText "close owner-abandoned local intent affected 0 rows");;
  update_intent (xr_IntentID want) (with_abandonment now);;
  appendLocalIntentLifecycleOnConnection (xr_IntentID want) LocalIntentReconciled MailboxOwnerAbandonedReason now;;
  let p := row_of (mx_ExchangeID current) (fun r => in_exchange_state MailboxExchangeAccepted r
                     && (x_response_revision (x_response r) =? mx_ResponseRevision current)) in
  updates ← query (fun m => exists_row p (mailbox_exchanges m));
  fail_if (negb updates) (ErrText "publish owner-abandoned mailbox response affected 0 rows");;
  exec_update_exchanges p (with_indeterminate responseBytes nextRevision now);;
  readMailboxExchangeOnConnection validated.

(** The transaction; its result carries [closed].  The clock is read twice: [checked]
    against the lease, [now] for the changes. *)
Definition close_uncertain (validated : MailboxExchangeRef) (want : ExpectedRun) (checked now : Z) : mtx (MailboxExchangeRecord * bool) :=
  current ← readMailboxExchangeOnConnection validated;
  fail_if (negb (bool_decide (mc_Operation (mx_create current) = "run"))
           || negb (bool_decide (mc_RequestID (mx_create current) = ref_ClientRequestID validated))) ErrMailboxOwnerAbandonmentNotEligible;;
  intent ← readLocalIntentByMailboxExchangeOnConnection current;
  fail_if (other_run current (lir_create intent) want) ErrMailboxOwnerAbandonmentNotEligible;;
  if negb (bool_decide (mx_State current = MailboxExchangeAccepted)) then
    fail_if (negb (mailboxExchangeStateTerminal (mx_State current))) ErrMailboxOwnerAbandonmentNotEligible;; mret (current, false)
  else
    fail_if (not_abandonable current intent checked) ErrMailboxOwnerAbandonmentNotEligible;;
    record ← abandon_run validated current want now;
    mret (record, true).

Definition CloseUncertainRemoteRunAsIndeterminateInMailbox (m : Mirror) (checked now : Z) (ref : MailboxExchangeRef) (expected : ExpectedRun)
    : result (MailboxExchangeRecord * bool) * Mirror :=
  let named {A} (r : result A) := result_map_err (fun _ => ErrMailboxOwnerAbandonmentNotEligible) r in
  match (validated ← validateMailboxExchangeRef ref;
         intentID ← named (NewIntentID (xr_IntentID expected));
         jobID ← named (NewJobID (xr_JobID expected));
         sessionID ← named (NewSessionID (xr_SessionID expected));
         commandID ← named (NewCommandID (xr_CommandID expected));
         Ok (validated, mkExpectedRun intentID jobID sessionID commandID)) : result (MailboxExchangeRef * ExpectedRun) with
  | Err e => (Err e, m)
  | Ok (validated, want) => withMirrorTransaction m (close_uncertain validated want checked now)
  end.

(** ** An accepted run whose status is not available *)
Definition accepted_response_names : list string :=
  ["operation"; "request_state"; "job_id"; "session_id"; "command_id"; "delivery_state"].

(** The identifiers of the job, the session and the command of the accepted response. *)
Definition accepted_run (current : MailboxExchangeRecord) : result (string * string * string) :=
  match v ← parse_json (mx_ResponseBytes current); Unmarshal_struct accepted_response_names v with
  | Some fields =>
      refuse_if (negb (bool_decide (mc_Operation (mx_create current) = "run")) || negb (field_is fields "operation" "run")
                 || negb (field_is fields "request_state" "accepted") || negb (field_is fields "delivery_state" "accepted"))
        ErrMailboxRemoteStatusFailureNotEligible;;
      result_map_err (fun _ => ErrMailboxRemoteStatusFailureNotEligible)
        (jobID ← NewJobID (default "" (fields !! "job_id"));
         sessionID ← NewSessionID (default "" (fields !! "session_id"));
         commandID ← NewCommandID (default "" (fields !! "command_id"));
         Ok (jobID, sessionID, commandID))
  | None => Err ErrMailboxRemoteStatusFailureNotEligible
  end.

(** [ORDER BY created_at DESC, intent_id DESC LIMIT 1] *)
Definition latest_run_intent (current : MailboxExchangeRecord) (jobID : string) (m : Mirror) : option (string * IntentRow) :=
  head (newest_first (select_intents (fun _ r =>
    is_op (li_operation r) localIntentRunOperation && bool_decide (li_resource_id r = jobID)
    && bool_decide (li_idempotency_key r = mc_ExecutionIdempotencyKey (mx_create current))
    && bool_decide (li_controller r = mc_Controller (mx_create current))) m)).

Definition publish_status_unavailable (validated : MailboxExchangeRef) (publication : MailboxResponsePublication) (now : Z)
    : mtx MailboxExchangeRecord :=
  current ← readMailboxExchangeOnConnection validated;
  fail_if (negb (bool_decide (mx_State current = MailboxExchangeAccepted))) ErrMailboxTerminalImmutable;;
  run ← lift (accepted_run current);
  let '(jobID, sessionID, commandID) := run in
  found ← query (latest_run_intent current jobID);
  found ← or_fail found ErrMailboxRemoteStatusFailureNotEligible;
  let '(intentID, intent) := found in
  fail_if (negb (bool_decide (target_kind (li_target intent) = TargetKindRemote))
           || negb (bool_decide (li_delivery_state intent = LocalIntentAccepted))
           || (RemoteTerminalProofP149 <=? li_remote_terminal_proof_version intent)
           || negb (bool_decide (li_session_id intent = sessionID)) || negb (bool_decide (li_command_id intent = commandID)))
    ErrMailboxRemoteStatusFailureNotEligible;;
  failure ← query (fun m => local_remote_status_failures m !! intentID);
  fail_if (match failure with Some f => negb (bool_decide (sf_reason f = RemoteStatusFailureCodeUnavailable)) | None => true end)
    ErrMailboxRemoteStatusFailureNotEligible;;
  nextRevision ← lift (next_revision (mx_ResponseRevision current));
  exec_update_exchanges (row_of (mx_ExchangeID current) (in_exchange_state MailboxExchangeAccepted))
    (with_indeterminate (mp_Bytes publication) nextRevision now);;
  readMailboxExchangeOnConnection validated.

Definition PublishAcceptedRemoteStatusUnavailableInMailbox (m : Mirror) (now : Z) (ref : MailboxExchangeRef)
    (publication : MailboxResponsePublication) : result MailboxExchangeRecord * Mirror :=
  match validateMailboxExchangeRef ref with
  | Err e => (Err e, m)
  | Ok validated =>
      if negb (bool_decide (mp_State publication = MailboxExchangeIndeterminate)) || is_empty (mp_Bytes publication)
         || (MaxSerializedRequestBytes <? go_len (mp_Bytes publication)) || is_Some_b (mp_AvailableEventSequence publication)
      then (Err ErrMailboxResponseInvalid, m)
      else withMirrorTransaction m (publish_status_unavailable validated publication now)
  end.
