(* ===== verification/MailboxCleanup.v ===== *)
(** * Cleanup of mailbox files

    Models [src/src/internal/store/mailbox_cleanup.go]: the claims of expired
    response files and event files and the record of their removal.  An event
    file is shared by the responses that reference its command; the references
    are walked in bounded pages, and the progress of the walk is a row of
    [mailbox_event_cleanup_work]. *)
From Stdlib Require Import String.
From S2P Require Import Prelude GoStrings Sha256 Identity Lifecycle Policy Canonical LaneAdmission.
From S2P Require Import Db Idempotency Sessions Listings Commands RemoteDb RemoteProjections RemoteEvents Mailbox MailboxOps.

Definition maxEventCleanupWorkItemsPerBatch : nat := 4.
Definition maxEventCleanupRefsPerWorkItem : nat := 32.

(** ** Responses *)
Definition EnsureMailboxResponsePublishableInMailbox (m : Mirror) (now : Z) (ref : MailboxExchangeRef) : result unit :=
  record ← GetMailboxExchangeInMailbox m ref;
  refuse_if (is_Some_b (mx_ResponseCleanupStartedAt record) || is_Some_b (mx_ResponseFileRemovedAt record)
             || match mx_ResponseCleanupAt record with Some at_ => at_ <=? now | None => false end) ErrMailboxResponseExpired.

Definition EnsureMailboxResponsePublishable (m : Mirror) (now : Z) (requestID : string) : result unit :=
  ref ← defaultMailboxExchangeRef requestID;
  EnsureMailboxResponsePublishableInMailbox m now ref.

(** [SET response_cleanup_started_at = COALESCE(response_cleanup_started_at, ?)] *)
Definition with_cleanup_started (now : Z) (r : ExchangeRow) : ExchangeRow :=
  mkExchangeRow (x_receipt r) (x_response r) (x_updated_at r) (x_acknowledged_at r) (x_response_cleanup_at r)
    (Some (default (formatStoredTime now) (x_response_cleanup_started_at r))) (x_response_file_removed_at r).
(** [SET response_file_removed_at = COALESCE(response_file_removed_at, ?)] *)
Definition with_file_removed (now : Z) (r : ExchangeRow) : ExchangeRow :=
  mkExchangeRow (x_receipt r) (x_response r) (x_updated_at r) (x_acknowledged_at r) (x_response_cleanup_at r)
    (x_response_cleanup_started_at r) (Some (default (formatStoredTime now) (x_response_file_removed_at r))).

Definition claimable_response (mailboxID : string) (_ : string) (r : ExchangeRow) : bool :=
  bool_decide (x_mailbox_id (x_receipt r) = mailboxID) && mailboxExchangeStateTerminal (x_request_state (x_response r))
  && (0 <? x_response_revision (x_response r)) && negb (is_Some_b (x_response_file_removed_at r)).

(** [ORDER BY exchange_id] *)
Definition key_le {A} (x y : string * A) : Prop := string_le (fst x) (fst y).
#[export] Instance key_le_dec {A} (x y : string * A) : Decision (key_le x y).
Proof. unfold key_le. apply _. Defined.

Definition listed_for_cleanup (mailboxID : string) (m : Mirror) : list MailboxExchangeRef :=
  refs_in mailboxID (merge_sort key_le (map_to_list (rows_where (claimable_response mailboxID) (mailbox_exchanges m)))).

Fixpoint claim_responses (now : Z) (refs : list MailboxExchangeRef) : mtx (list MailboxExchangeRef) :=
  match refs with
  | [] => mret []
  | ref :: rest =>
      record ← readMailboxExchangeOnConnection ref;
      if match mx_ResponseCleanupAt record with Some at_ => now <? at_ | None => true end then claim_responses now rest
      else
        exec_update_exchanges (row_of (mx_ExchangeID record) (fun r => negb (is_Some_b (x_response_file_removed_at r))))
          (with_cleanup_started now);;
        claimed ← claim_responses now rest;
        mret (ref :: claimed)
  end.

Definition ClaimMailboxResponsesForCleanupInMailbox (m : Mirror) (now : Z) (mailboxID : string)
    : result (list MailboxExchangeRef) * Mirror :=
  match validateMailboxID mailboxID with
  | Err e => (Err e, m)
  | Ok _ => withMirrorTransaction m (refs ← query (listed_for_cleanup mailboxID); claim_responses now refs)
  end.

Definition ClaimMailboxResponsesForCleanup (m : Mirror) (now : Z) : result (list string) * Mirror :=
  let '(r, m') := ClaimMailboxResponsesForCleanupInMailbox m now DefaultMailboxID in
  (match r with Ok refs => Ok (ref_ClientRequestID <$> refs) | Err e => Err e end, m').

Definition MarkMailboxResponseFileRemovedInMailbox (m : Mirror) (now : Z) (ref : MailboxExchangeRef) : result unit * Mirror :=
  match validateMailboxExchangeRef ref with
  | Err e => (Err e, m)
  | Ok validated =>
      withMirrorTransaction m
        (record ← readMailboxExchangeOnConnection validated;
         let p := row_of (mx_ExchangeID record) (fun r => is_Some_b (x_response_cleanup_started_at r)) in
         affected ← query (fun m => exists_row p (mailbox_exchanges m));
         exec_update_exchanges p (with_file_removed now);;
         removed ← query (fun m => exists_row (row_of (mx_ExchangeID record) (fun r => is_Some_b (x_response_file_removed_at r))) (mailbox_exchanges m));
         fail_if (negb affected && negb removed) ErrMailboxCleanupState)
  end.

Definition MarkMailboxResponseFileRemoved (m : Mirror) (now : Z) (requestID : string) :=
  in_default_mailbox m requestID (MarkMailboxResponseFileRemovedInMailbox m now).

(** ** The events of a response *)
Definition pinned_mirror_events (commandID : string) (through : Z) (m : Mirror) : list EventRow :=
  take (Z.to_nat through) (merge_sort event_le (rows_of (local_remote_events m) commandID)).

Definition readMirroredCommandEventsOnConnection (commandID : string) (through : Z) : mtx (list CommandEventRecord) :=
  rows ← query (pinned_mirror_events commandID through);
  lift (scanRemoteEvents commandID 1 rows).

(** The [CommandRecord] with the fields of a mirrored command, the others zero. *)
Definition mirrored_command (p : RemoteCommandProjection) : CommandRecord :=
  mkCommandRecord (cp_CommandID p) (cp_SessionID p) (cp_Ordinal p) None zero_hash "" "" (cp_State p) 0 (cp_ExitCode p)
    (cp_FinalEventSequence p) (cp_OutputTruncated p) (cp_OutputComplete p) (cp_OutputUnavailableReason p) 0 0 false.

(** The command and its events, read where the reference says. *)
Definition read_pinned (s : AuthorityStore) (commandID : string) (remote : bool) (through : Z)
    : mtx (CommandRecord * list CommandEventRecord) :=
  if remote then
    projection ← readRemoteCommandProjectionOnConnection commandID;
    events ← readMirroredCommandEventsOnConnection commandID through;
    mret (mirrored_command projection, events)
  else
    lift (withReadTransaction s
      (command ← readCommandOnConnection commandID;
       events ← readCommandEventsOnConnection commandID (-1);
       mret (command, events))).

Definition MailboxResponseCommandEventsInMailbox (s : AuthorityStore) (m : Mirror) (now : Z) (ref : MailboxExchangeRef) (commandID : string)
    : result (CommandRecord * list CommandEventRecord) :=
  validatedRef ← validateMailboxExchangeRef ref;
  commandID ← result_map_err (fun _ => ErrMailboxResponseInvalid) (NewCommandID commandID);
  withMirrorRead m
    (exchange ← readMailboxExchangeOnConnection validatedRef;
     through ← or_fail (mx_AvailableEventSequence exchange) ErrMailboxResponseInvalid;
     fail_if (bool_decide (mx_State exchange = MailboxExchangeAccepted) || (through <? 1)
              || negb (bool_decide (mx_EventFileCommandID exchange = commandID))) ErrMailboxResponseInvalid;;
     fail_if (is_Some_b (mx_ResponseCleanupStartedAt exchange) || is_Some_b (mx_ResponseFileRemovedAt exchange)
              || match mx_ResponseCleanupAt exchange with Some at_ => at_ <=? now | None => true end) ErrMailboxResponseExpired;;
     localReference ← query (fun m => mailbox_event_file_references m !! mx_ExchangeID exchange);
     remoteReference ← query (fun m => mailbox_remote_event_file_references m !! mx_ExchangeID exchange);
     fail_if (Bool.eqb (is_Some_b localReference) (is_Some_b remoteReference)) ErrMailboxResponseInvalid;;
     let remote := is_Some_b remoteReference in
     fail_if (negb (bool_decide ((if remote then remoteReference else localReference) = Some commandID))) ErrMailboxResponseInvalid;;
     found ← read_pinned s commandID remote through;
     fail_if (Z.of_nat (length (snd found)) <? through) ErrCommandReplayGap;;
     mret (fst found, take (Z.to_nat through) (snd found))).

Definition MailboxResponseCommandEvents (s : AuthorityStore) (m : Mirror) (now : Z) (requestID commandID : string)
    : result (CommandRecord * list CommandEventRecord) :=
  ref ← defaultMailboxExchangeRef requestID;
  MailboxResponseCommandEventsInMailbox s m now ref commandID.

(** ** The walk over the event files *)
Record mailboxEventCleanupWork : Type := mkWork { wk_commandID : string; wk_remote : bool }.

(** The work items of a mailbox, [ORDER BY command_id, is_remote]. *)
Definition remote_value (remote : bool) : Z := if remote then 1 else 0.
Definition work_le (x y : mailboxEventCleanupWork) : Prop :=
  if bool_decide (wk_commandID x = wk_commandID y) then remote_value (wk_remote x) <= remote_value (wk_remote y)
  else string_le (wk_commandID x) (wk_commandID y).
#[export] Instance work_le_dec x y : Decision (work_le x y).
Proof. unfold work_le. destruct (bool_decide _); apply _. Defined.

Definition work_items (mailboxID : string) (m : Mirror) : list mailboxEventCleanupWork :=
  merge_sort work_le
    (omap (fun '((owner, commandID, remote), _) => if bool_decide (owner = mailboxID) then Some (mkWork commandID remote) else None)
       (map_to_list (mb_event_cleanup_work (mailbox m)))).

Definition after_item (command : string) (remote : Z) (w : mailboxEventCleanupWork) : bool :=
  string_ltb command (wk_commandID w) || (bool_decide (wk_commandID w = command) && (remote <? remote_value (wk_remote w))).
Definition before_item (command : string) (remote : Z) (w : mailboxEventCleanupWork) : bool :=
  string_ltb (wk_commandID w) command || (bool_decide (wk_commandID w = command) && (remote_value (wk_remote w) <? remote)).

(** At most a batch, from the item after the cursor on and around. *)
Definition nextMailboxEventCleanupWork (mailboxID : string) (m : Mirror) : list mailboxEventCleanupWork :=
  let '(lastCommand, lastRemote) := default ("", -1) (mb_event_cleanup_work_cursor (mailbox m) !! mailboxID) in
  let items := work_items mailboxID m in
  let work := take maxEventCleanupWorkItemsPerBatch (List.filter (after_item lastCommand lastRemote) items) in
  if (length work =? maxEventCleanupWorkItemsPerBatch)%nat || (is_empty lastCommand && (lastRemote =? -1)) then work
  else if is_nil work then take maxEventCleanupWorkItemsPerBatch items
  else work ++ take (maxEventCleanupWorkItemsPerBatch - length work) (List.filter (before_item lastCommand lastRemote) items).

Definition saveMailboxEventCleanupCursor (mailboxID : string) (item : mailboxEventCleanupWork) : mtx unit :=
  modify (on_mailbox_tables (fun b =>
    set_work_cursor (<[mailboxID := (wk_commandID item, remote_value (wk_remote item))]> (mb_event_cleanup_work_cursor b)) b)).

Definition mailboxCommandStateTerminal (state : CommandState) : bool :=
  match state with
  | CommandStateSucceeded | CommandStateFailed | CommandStateCancelled | CommandStateTimedOut | CommandStateRejected | CommandStateLost => true
  | _ => false
  end.

Definition mailboxEventCommandTerminal (s : AuthorityStore) (item : mailboxEventCleanupWork) : mtx bool :=
  let commandID := wk_commandID item in
  remoteState ← query (fun m => rc_command_state <$> local_remote_command_projections m !! commandID);
  match c_state <$> exec_commands (db s) !! commandID, remoteState with
  | None, Some state => fail_if (negb (wk_remote item)) ErrMailboxCleanupState;; mret (mailboxCommandStateTerminal state)
  | Some state, None => fail_if (wk_remote item) ErrMailboxCleanupState;; mret (mailboxCommandStateTerminal state)
  | _, _ => throw ErrMailboxCleanupState
  end.

Definition cleanup_instant (t : StoredTime) : result Z := from_option Ok (Err ErrMailboxCleanupState) (parseStoredTime t).
Definition cleanup_optional (t : option StoredTime) : result (option Z) :=
  match t with None => Ok None | Some t => at_ ← cleanup_instant t; Ok (Some at_) end.

(** [readMailboxEventCleanupMetadata]: the deadline of a terminal exchange. *)
Definition decodeCleanupMetadata (mailboxID commandID : string) (remote : bool) (r : ExchangeRow) (localFile remoteFile : option string)
    : result (option Z) :=
  let p := x_response r in
  refuse_if (negb (bool_decide (x_mailbox_id (x_receipt r) = mailboxID)) || Bool.eqb (is_Some_b localFile) (is_Some_b remoteFile)
             || negb (Bool.eqb (is_Some_b remoteFile) remote) || (x_response_revision p <? 0)) ErrMailboxCleanupState;;
  let other file := match file with Some c => negb (bool_decide (c = commandID)) | None => false end in
  refuse_if (other localFile || other remoteFile) ErrMailboxCleanupState;;
  updated ← cleanup_instant (x_updated_at r);
  acknowledged ← cleanup_optional (x_acknowledged_at r);
  refuse_if (match x_available_event_sequence p with Some n => n <? 1 | None => true end) ErrMailboxCleanupState;;
  if negb (mailboxExchangeStateTerminal (x_request_state p)) then Ok None
  else
    match x_response_cleanup_at r with
    | Some at_ => deadline ← cleanup_instant at_; Ok (Some deadline)
    | None =>
        refuse_if (x_response_revision p <=? 0) ErrMailboxCleanupState;;
        Ok (Some (mailboxResponseCleanupDeadline updated acknowledged))
    end.

Definition readMailboxEventCleanupMetadata (mailboxID : string) (item : mailboxEventCleanupWork) (exchangeID : string) : mtx (option Z) :=
  row ← query (fun m => mailbox_exchanges m !! exchangeID);
  row ← or_fail row (ErrText "read mailbox event cleanup metadata");
  localFile ← query (fun m => mailbox_event_file_references m !! exchangeID);
  remoteFile ← query (fun m => mailbox_remote_event_file_references m !! exchangeID);
  lift (decodeCleanupMetadata mailboxID (wk_commandID item) (wk_remote item) row localFile remoteFile).

(** What the loop over a page carries: [allTerminal] and [latest], zero for none. *)
Fixpoint scan_references (mailboxID : string) (item : mailboxEventCleanupWork) (ids : list string) (allTerminal : bool) (latest : Z)
    : mtx (bool * Z) :=
  match ids with
  | [] => mret (allTerminal, latest)
  | id :: rest =>
      deadline ← readMailboxEventCleanupMetadata mailboxID item id;
      match deadline with
      | None => scan_references mailboxID item rest false latest
      | Some at_ => scan_references mailboxID item rest allTerminal (if IsZero latest || (latest <? at_) then at_ else latest)
      end
  end.

(** [nullableStoredTime] *)
Definition nullableStoredTime (value : Z) : option StoredTime := if IsZero value then None else Some (formatStoredTime value).

(** The references of a command after an exchange, [ORDER BY exchange_id]. *)
Definition file_references (mailboxID : string) (item : mailboxEventCleanupWork) (m : Mirror) : list string :=
  sort_strings (omap (fun '(exchangeID, commandID) =>
    exchange ← mailbox_exchanges m !! exchangeID;
    if bool_decide (commandID = wk_commandID item) && bool_decide (x_mailbox_id (x_receipt exchange) = mailboxID)
    then Some exchangeID else None) (map_to_list (references (mailbox m) (wk_remote item)))).

Definition reference_page (mailboxID : string) (item : mailboxEventCleanupWork) (lastExchange : string) (m : Mirror) : list string :=
  take maxEventCleanupRefsPerWorkItem (List.filter (string_ltb lastExchange) (file_references mailboxID item m)).

Definition work_ready (scanned : Z) (allTerminal : bool) (latest now : Z) : bool :=
  negb (scanned =? 0) && allTerminal && negb (IsZero latest) && (latest <=? now).

Definition advanceMailboxEventCleanupWork (s : AuthorityStore) (mailboxID : string) (item : mailboxEventCleanupWork) (now : Z) : mtx bool :=
  commandTerminal ← mailboxEventCommandTerminal s item;
  if negb commandTerminal then mret false
  else
    let key := (mailboxID, wk_commandID item, wk_remote item) in
    row ← query (fun m => mb_event_cleanup_work (mailbox m) !! key);
    row ← or_fail row (ErrText "read mailbox event cleanup progress");
    latest ← lift (cleanup_optional (cw_latest_cleanup_at row));
    let latest := default 0 latest in
    if cw_scan_complete row then
      fail_if (cw_scanned_refs row =? 0) ErrMailboxCleanupState;;
      mret (work_ready (cw_scanned_refs row) (cw_all_terminal row) latest now)
    else
      page ← query (reference_page mailboxID item (cw_last_exchange_id row));
      let complete := (length page <? maxEventCleanupRefsPerWorkItem)%nat in
      found ← scan_references mailboxID item page (cw_all_terminal row) latest;
      let '(allTerminal, latest) := found in
      let scanned := cw_scanned_refs row + Z.of_nat (length page) in
      modify (on_mailbox_tables (fun b => set_cleanup_work (alter (fun _ =>
        mkCleanupWorkRow (default (cw_last_exchange_id row) (last page)) scanned complete allTerminal (nullableStoredTime latest))
        key (mb_event_cleanup_work b)) b));;
      mret (complete && work_ready scanned allTerminal latest now).

(** The INSERT OR IGNORE of a claim and the read that follows. *)
Definition claim_file (mailboxID : string) (item : mailboxEventCleanupWork) (now : Z) : mtx (option MailboxEventRef) :=
  let key := (mailboxID, wk_commandID item) in
  modify (on_mailbox_tables (on_file_cleanup (wk_remote item) (fun t =>
    if is_Some_b (t !! key) then t else <[key := mkEventFileCleanupRow (formatStoredTime now) None]> t)));;
  row ← query (fun m => file_cleanup (mailbox m) (wk_remote item) !! key);
  row ← or_fail row (ErrText "read mailbox event-file cleanup claim");
  mret (if is_Some_b (ec_file_removed_at row) then None else Some (mkMailboxEventRef mailboxID (wk_commandID item))).

Fixpoint claim_event_files (s : AuthorityStore) (mailboxID : string) (now : Z) (work : list mailboxEventCleanupWork)
    : mtx (list MailboxEventRef) :=
  match work with
  | [] => mret []
  | item :: rest =>
      saveMailboxEventCleanupCursor mailboxID item;;
      ready ← advanceMailboxEventCleanupWork s mailboxID item now;
      claim ← match ready with true => claim_file mailboxID item now | false => mret None end;
      claimed ← claim_event_files s mailboxID now rest;
      mret (option_list claim ++ claimed)
  end.

Definition ClaimMailboxEventFilesForCleanupInMailbox (s : AuthorityStore) (m : Mirror) (now : Z) (mailboxID : string)
    : result (list MailboxEventRef) * Mirror :=
  match validateMailboxID mailboxID with
  | Err e => (Err e, m)
  | Ok _ => withMirrorTransaction m (work ← query (nextMailboxEventCleanupWork mailboxID); claim_event_files s mailboxID now work)
  end.

Definition ClaimMailboxEventFilesForCleanup (s : AuthorityStore) (m : Mirror) (now : Z) : result (list string) * Mirror :=
  let '(r, m') := ClaimMailboxEventFilesForCleanupInMailbox s m now DefaultMailboxID in
  (match r with Ok refs => Ok (eref_CommandID <$> refs) | Err e => Err e end, m').

Definition deleteMailboxEventCleanupWork (mailboxID commandID : string) (remote : bool) : mtx unit :=
  modify (on_mailbox_tables (fun b => set_cleanup_work (delete (mailboxID, commandID, remote) (mb_event_cleanup_work b)) b)).

(** The tables in turn: the first that has the file keeps its removal. *)
Definition mark_removed (mailboxID commandID : string) (remote : bool) (now : Z) (otherwise : mtx unit) : mtx unit :=
  row ← query (fun m => file_cleanup (mailbox m) remote !! (mailboxID, commandID));
  if is_Some_b row then
    modify (on_mailbox_tables (on_file_cleanup remote (alter (fun r =>
      mkEventFileCleanupRow (ec_cleanup_started_at r) (Some (default (formatStoredTime now) (ec_file_removed_at r)))) (mailboxID, commandID))));;
    deleteMailboxEventCleanupWork mailboxID commandID remote
  else otherwise.

Definition MarkMailboxEventFileRemovedInMailbox (m : Mirror) (now : Z) (ref : MailboxEventRef) : result unit * Mirror :=
  match validateMailboxID (eref_MailboxID ref), NewCommandID (eref_CommandID ref) with
  | Err e, _ => (Err e, m)
  | _, Err _ => (Err ErrMailboxCleanupState, m)
  | Ok _, Ok _ =>
      let mailboxID := eref_MailboxID ref in
      let commandID := eref_CommandID ref in
      withMirrorTransaction m
        (mark_removed mailboxID commandID false now (mark_removed mailboxID commandID true now (throw ErrMailboxCleanupState)))
  end.

Definition MarkMailboxEventFileRemoved (m : Mirror) (now : Z) (commandID : string) :=
  MarkMailboxEventFileRemovedInMailbox m now (mkMailboxEventRef DefaultMailboxID commandID).
