(* ===== verification/MailboxConfig.v ===== *)
(** * Mailbox configuration

    Models [src/src/internal/store/mailbox_configuration.go]: the append-only
    registry of the mailbox roots that were activated, and the append-only ledger
    of those that were retired.  A new configuration keeps every active mailbox
    at its root and leaves out only mailboxes without pending work.  The database
    has the tables of its last migration; the clock reads of one transaction are
    one instant. *)
From Stdlib Require Import String.
From S2P Require Import Prelude GoStrings Policy LaneAdmission Db Sessions Listings RemoteDb Mailbox.

Record MailboxConfiguration : Type := mkMailboxConfiguration { cfg_ID : string; cfg_Root : string }.

(** ** Roots *)

(** The components of a path. *)
Fixpoint split_path (current : list Z) (l : list Z) : list (list Z) :=
  match l with
  | [] => [rev current]
  | b :: rest => if b =? 47 then rev current :: split_path [] rest else split_path (b :: current) rest
  end.

(** One component on a path that is clean so far, the last component first. *)
Definition clean_component (acc : list (list Z)) (component : list Z) : list (list Z) :=
  if is_nil component || bool_decide (component = [46]) then acc
  else if bool_decide (component = [46; 46]) then match acc with _ :: acc => acc | [] => [] end
  else component :: acc.

(** [filepath.Clean] of an absolute path *)
Definition Clean (path : string) : string :=
  let components := rev (fold_left clean_component (split_path [] (bytes_of path)) []) in
  string_of (if is_nil components then [47] else flat_map (fun c => 47 :: c) components).

Definition validMailboxConfigurationRoot (root : string) : bool :=
  negb (is_empty root) && (go_len root <=? 4096) && IsAbs root && bool_decide (Clean root = root)
  && negb (bool_decide (root = "/")) && negb (contains_nul root).

(** ** Configurations *)
Definition root_in_set (configurations : gmap string string) (root : string) : bool :=
  exists_row (fun _ configuredRoot => bool_decide (configuredRoot = root)) configurations.
Definition mailboxConfigurationRootInSet := root_in_set.

(** The loops that build a map whose identifiers and roots are distinct. *)
Fixpoint distinct_configurations (configurations : list (string * string)) (acc : gmap string string) : result (gmap string string) :=
  match configurations with
  | [] => Ok acc
  | (id, root) :: rest =>
      refuse_if (negb (validMailboxID id) || negb (validMailboxConfigurationRoot root)) ErrMailboxExchangeInvalid;;
      refuse_if (is_Some_b (acc !! id) || root_in_set acc root) ErrMailboxExchangeInvalid;;
      distinct_configurations rest (<[id := root]> acc)
  end.

Definition normalizeMailboxConfigurations (configurations : list MailboxConfiguration) : result (gmap string string) :=
  refuse_if (is_nil configurations) ErrMailboxExchangeInvalid;;
  distinct_configurations ((fun c => (cfg_ID c, cfg_Root c)) <$> configurations) ∅.

Definition normalizeOptionalMailboxConfigurations (configurations : list MailboxConfiguration) : result (gmap string string) :=
  if is_nil configurations then Ok ∅ else normalizeMailboxConfigurations configurations.

Definition validateMailboxRetirement (id : string) : result unit :=
  refuse_if (negb (validMailboxID id)) ErrMailboxExchangeInvalid.

(** ** The registry *)
Definition registry_rows (t : gmap string (string * StoredTime)) : list (string * string) :=
  (fun '(id, row) => (id, fst row)) <$> map_to_list t.

Definition readRegisteredMailboxConfigurations (b : MailboxTables) : result (gmap string string) :=
  distinct_configurations (registry_rows (mb_configuration_registry b)) ∅.
Definition readMailboxConfigurationRetirements (b : MailboxTables) : result (gmap string string) :=
  distinct_configurations (registry_rows (mb_configuration_retirements b)) ∅.

(** Two retirements have different roots, as they were read. *)
Definition effectiveRegisteredMailboxConfigurations (registered retirements : gmap string string) : result (gmap string string) :=
  refuse_if (exists_row (fun id root => negb (bool_decide (registered !! id = Some root))
                                        || exists_row (fun id' root' => negb (bool_decide (id' = id)) && bool_decide (root' = root)) retirements)
               retirements) ErrMailboxConfigurationPending;;
  Ok (delete_where (fun id _ => is_Some_b (retirements !! id)) registered).

Definition rejectRetiredMailboxReuse (configurations retirements : gmap string string) : result unit :=
  refuse_if (exists_row (fun id root => is_Some_b (configurations !! id) || mailboxConfigurationRootInSet configurations root) retirements)
    ErrMailboxConfigurationPending.

Definition validateMailboxConfigurationsAgainstRegistry (configurations registered : gmap string string) : result unit :=
  refuse_if (exists_row (fun id root => negb (bool_decide (configurations !! id = Some root))) registered) ErrMailboxConfigurationPending.

Definition validateRegisteredMailboxRoots (b : MailboxTables) (configurations legacyBaseline : gmap string string) : result unit :=
  registered ← readRegisteredMailboxConfigurations b;
  retirements ← readMailboxConfigurationRetirements b;
  rejectRetiredMailboxReuse configurations retirements;;
  if bool_decide (registered = ∅) then
    refuse_if (negb (bool_decide (retirements = ∅))) ErrMailboxConfigurationPending;;
    validateMailboxConfigurationsAgainstRegistry configurations legacyBaseline
  else
    active ← effectiveRegisteredMailboxConfigurations registered retirements;
    validateMailboxConfigurationsAgainstRegistry configurations active.

(** The exchanges that a mailbox outside the configuration would abandon. *)
Definition pending_work (configurations : gmap string string) (now : Z) (_ : string) (r : ExchangeRow) : bool :=
  negb (is_Some_b (configurations !! x_mailbox_id (x_receipt r)))
  && (bool_decide (x_request_state (x_response r) = MailboxExchangeAccepted)
      || (mailboxExchangeStateTerminal (x_request_state (x_response r)) && negb (is_Some_b (x_acknowledged_at r))
          && negb (is_Some_b (x_response_cleanup_started_at r)) && negb (is_Some_b (x_response_file_removed_at r))
          && match x_response_cleanup_at r with None => true | Some at_ => negb (stored_le_b at_ (formatStoredTime now)) end)).

Definition validateMailboxWorkForConfiguredSet (b : MailboxTables) (configurations : gmap string string) (now : Z) : result unit :=
  refuse_if (exists_row (pending_work configurations now) (mb_exchanges b)) ErrMailboxConfigurationPending.

Definition validateConfiguredMailboxSet (b : MailboxTables) (configurations legacyBaseline : gmap string string) (now : Z) : result unit :=
  validateRegisteredMailboxRoots b configurations legacyBaseline;;
  validateMailboxWorkForConfiguredSet b configurations now.

Definition validateConfiguredMailboxRetirement (b : MailboxTables) (configurations : gmap string string) (id : string) (now : Z)
    : result MailboxConfiguration :=
  registered ← readRegisteredMailboxConfigurations b;
  refuse_if (bool_decide (registered = ∅)) ErrMailboxConfigurationPending;;
  retirements ← readMailboxConfigurationRetirements b;
  active ← effectiveRegisteredMailboxConfigurations registered retirements;
  root ← from_option Ok (Err ErrMailboxConfigurationPending) (registered !! id);
  rejectRetiredMailboxReuse configurations retirements;;
  refuse_if (is_Some_b (configurations !! id) || mailboxConfigurationRootInSet configurations root) ErrMailboxConfigurationPending;;
  refuse_if (match retirements !! id with Some retiredRoot => negb (bool_decide (retiredRoot = root)) | None => false end)
    ErrMailboxConfigurationPending;;
  validateMailboxConfigurationsAgainstRegistry configurations (delete id active);;
  validateMailboxWorkForConfiguredSet b configurations now;;
  Ok (mkMailboxConfiguration id root).

(** ** Statements *)
Definition configuration_checks (id root : string) : bool :=
  (1 <=? sql_length id) && (sql_length id <=? 128) && (1 <=? sql_length root) && (sql_length root <=? 4096).

Definition root_taken (t : gmap string (string * StoredTime)) (root : string) : bool :=
  exists_row (fun _ row => bool_decide (fst row = root)) t.

(** [ON CONFLICT(mailbox_id) DO NOTHING]; the root is UNIQUE. *)
Definition insert_configuration (t : gmap string (string * StoredTime)) (id root : string) (at_ : StoredTime)
    : result (gmap string (string * StoredTime)) :=
  refuse_if (negb (configuration_checks id root)) (ErrSQL "register configured mailbox set");;
  if is_Some_b (t !! id) then Ok t
  else refuse_if (root_taken t root) (ErrSQL "register configured mailbox set");; Ok (<[id := (root, at_)]> t).

Fixpoint registerMailboxConfigurations (configurations : list MailboxConfiguration) (now : Z) : stx MailboxTables unit :=
  match configurations with
  | [] => mret tt
  | c :: rest =>
      registry ← query mb_configuration_registry;
      registry ← lift (insert_configuration registry (cfg_ID c) (cfg_Root c) (formatStoredTime now));
      modify (set_registry registry);;
      registerMailboxConfigurations rest now
  end.

(** The foreign key: the registry has the pair. *)
Definition recordMailboxConfigurationRetirement (retirement : MailboxConfiguration) (now : Z) : stx MailboxTables unit :=
  let id := cfg_ID retirement in
  ledger ← query mb_configuration_retirements;
  ledger ← lift (insert_configuration ledger id (cfg_Root retirement) (formatStoredTime now));
  registered ← query (fun b => fst <$> mb_configuration_registry b !! id);
  recorded ← or_fail (fst <$> ledger !! id) (ErrText "read mailbox configuration retirement");
  fail_if (negb (bool_decide (registered = Some recorded))) (ErrSQL "record mailbox configuration retirement");;
  modify (set_retirements ledger);;
  fail_if (negb (bool_decide (recorded = cfg_Root retirement))) ErrMailboxConfigurationPending.

(** ** Operations *)
Definition on_mailbox {A} (body : stx MailboxTables A) (m : Mirror) : result A * Mirror :=
  match body (mailbox m) with Ok (a, b) => (Ok a, set_mailbox b m) | Err e => (Err e, m) end.

(** The two normalized arguments. *)
Definition normalized_pair (configurations legacyBaseline : list MailboxConfiguration) : result (gmap string string * gmap string string) :=
  normalized ← normalizeMailboxConfigurations configurations;
  baseline ← normalizeOptionalMailboxConfigurations legacyBaseline;
  Ok (normalized, baseline).

Definition ValidateConfiguredMailboxSet (m : Mirror) (now : Z) (configurations legacyBaseline : list MailboxConfiguration) : result unit :=
  arguments ← normalized_pair configurations legacyBaseline;
  validateConfiguredMailboxSet (mailbox m) (fst arguments) (snd arguments) now.

Definition ValidateConfiguredMailboxRetirement (m : Mirror) (now : Z) (configurations legacyBaseline : list MailboxConfiguration) (id : string)
    : result MailboxConfiguration :=
  arguments ← normalized_pair configurations legacyBaseline;
  validateMailboxRetirement id;;
  validateConfiguredMailboxRetirement (mailbox m) (fst arguments) id now.

Definition RegisterConfiguredMailboxSet (m : Mirror) (now : Z) (configurations legacyBaseline : list MailboxConfiguration)
    : result unit * Mirror :=
  match normalized_pair configurations legacyBaseline with
  | Err e => (Err e, m)
  | Ok (normalized, baseline) =>
      on_mailbox (b ← query id; lift (validateConfiguredMailboxSet b normalized baseline now);;
                  registerMailboxConfigurations configurations now) m
  end.

Definition RetireConfiguredMailboxSet (m : Mirror) (now : Z) (configurations legacyBaseline : list MailboxConfiguration) (id : string)
    : result MailboxConfiguration * Mirror :=
  match (arguments ← normalized_pair configurations legacyBaseline; validateMailboxRetirement id;; Ok arguments)
        : result (gmap string string * gmap string string) with
  | Err e => (Err e, m)
  | Ok (normalized, baseline) =>
      on_mailbox (before ← query Datatypes.id;
                  resolved ← lift (validateConfiguredMailboxRetirement before normalized id now);
                  recordMailboxConfigurationRetirement resolved now;;
                  after ← query Datatypes.id;
                  lift (validateConfiguredMailboxSet after normalized baseline now);;
                  registerMailboxConfigurations configurations now;;
                  mret resolved) m
  end.
