(* ===== verification/MailboxDiagnostics.v ===== *)
(** * Ingress diagnostics

    Models [src/src/internal/store/mailbox_ingress_diagnostics.go] with the
    triggers of its migration: the frozen diagnostic of a request that was not a
    valid mailbox request, and the stages of its lifecycle: projected, removal of
    the input pair started, input pair removed, removal of the diagnostic file
    started, diagnostic file removed. *)
From Stdlib Require Import String.
From S2P Require Import Prelude GoStrings Sha256 Identity Policy JsonText Canonical RunPayload LaneAdmission.
From S2P Require Import Db Sessions Listings RemoteDb BridgeJson WireJson Mailbox MailboxOps.

Definition MailboxIngressDiagnosticArtifactLifetime : Z := MailboxUnackedResponseLifetime.
Definition defaultMailboxIngressDiagnosticRecoveryLimit : Z := 64.

(** ** Data *)
Definition MailboxIngressDiagnosticCode_text (code : MailboxIngressDiagnosticCode) : string :=
  match code with
  | MailboxIngressDiagnosticMalformedJSON => "malformed_json"
  | MailboxIngressDiagnosticInvalidRequestSchema => "invalid_request_schema"
  | MailboxIngressDiagnosticRequestIdentityMismatch => "request_identity_mismatch"
  | MailboxIngressDiagnosticInvalidScript => "invalid_script"
  | MailboxIngressDiagnosticRequestTooLarge => "request_too_large"
  | MailboxIngressDiagnosticRequestIDReusedAfterReject => "request_id_reused_after_rejection"
  | MailboxIngressDiagnosticOther value => value
  end.

(** [MailboxIngressDiagnosticRef] has the fields of an exchange reference. *)
Definition MailboxIngressDiagnosticRef : Type := MailboxExchangeRef.

Definition NewMailboxIngressDiagnosticRef (mailboxID clientRequestID : string) : result MailboxIngressDiagnosticRef :=
  result_map_err (fun _ => ErrMailboxIngressDiagnosticInvalid) (NewMailboxExchangeRef mailboxID clientRequestID).
Definition validateMailboxIngressDiagnosticRef (ref : MailboxIngressDiagnosticRef) : result MailboxIngressDiagnosticRef :=
  NewMailboxIngressDiagnosticRef (ref_MailboxID ref) (ref_ClientRequestID ref).

Inductive MailboxIngressDiagnosticDisposition : Type :=
  | MailboxIngressDiagnosticCreated | MailboxIngressDiagnosticSameFingerprint | MailboxIngressDiagnosticRequestIDReused.

Record MailboxIngressDiagnosticRecord : Type := mkDiagnosticRecord {
  md_MailboxID : string;
  md_RequestID : string;
  md_RequestSHA256 : string;
  md_Code : MailboxIngressDiagnosticCode;
  md_DiagnosticRevision : Z;
  md_DiagnosticBytes : string;
  md_DiagnosticSHA256 : string;
  md_ObservedAt : Z;
  md_ProjectedAt : option Z;
  md_InputCleanupStartedAt : option Z;
  md_InputPairRemovedAt : option Z;
  md_DiagnosticCleanupAt : Z;
  md_DiagnosticCleanupStartedAt : option Z;
  md_DiagnosticFileRemovedAt : option Z
}.

Record MailboxIngressSchemaDetail : Type := mkSchemaDetail {
  sd_SchemaVersion : string;
  sd_JSONPointer : string;
  sd_Expected : string;
  sd_ReceivedType : string;
  sd_CanonicalRunField : string;
  sd_CanonicalRunType : string;
  sd_MinimalRunRequestID : string;
  sd_MinimalRunKey : string;
  sd_MinimalRunOperation : string;
  sd_MinimalRunScript : string
}.

(** ** The frozen text *)
Record mailboxIngressDiagnosticWire : Type := mkDiagnosticWire {
  wi_InboxID : string;
  wi_RequestID : string;
  wi_DiagnosticRevision : Z;
  wi_LifecyclePhase : string;
  wi_Accepted : bool;
  wi_Executed : bool;
  wi_Code : string;
  wi_Message : string;
  wi_SchemaDetail : option MailboxIngressSchemaDetail;
  wi_ObservedAt : string
}.

(** [mailboxIngressSchemaDetailWire] has the same strings as [MailboxIngressSchemaDetail]. *)
Definition Marshal_schema_detail (d : MailboxIngressSchemaDetail) : list Z :=
  let text name value := field name (marshal_string value) in
  marshal_fields
    [text "schema_version" (sd_SchemaVersion d); text "json_pointer" (sd_JSONPointer d); text "expected" (sd_Expected d);
     text "received_type" (sd_ReceivedType d); text "canonical_run_field" (sd_CanonicalRunField d);
     text "canonical_run_type" (sd_CanonicalRunType d);
     field "minimal_valid_run" (marshal_fields
       [text "request_id" (sd_MinimalRunRequestID d); text "idempotency_key" (sd_MinimalRunKey d);
        text "operation" (sd_MinimalRunOperation d); text "script" (sd_MinimalRunScript d)])].

Definition Marshal_diagnostic (w : mailboxIngressDiagnosticWire) : string :=
  let text name value := field name (marshal_string value) in
  string_of (marshal_fields
    [text "inbox_id" (wi_InboxID w); text "request_id" (wi_RequestID w);
     field "diagnostic_revision" (marshal_int (wi_DiagnosticRevision w)); text "lifecycle_phase" (wi_LifecyclePhase w);
     field "accepted" (marshal_bool (wi_Accepted w)); field "executed" (marshal_bool (wi_Executed w)); text "code" (wi_Code w);
     text "message" (wi_Message w); field_optional Marshal_schema_detail "schema_detail" (wi_SchemaDetail w);
     text "observed_at" (wi_ObservedAt w)]).

Definition minimal_names : list string := ["request_id"; "idempotency_key"; "operation"; "script"].
Definition Unmarshal_minimal (current : string * string * string * string) (value : json)
    : option (string * string * string * string) :=
  let '(request, key, operation, script) := current in
  members ← struct_members true minimal_names value;
  request ← struct_value Unmarshal_string request "request_id" members;
  key ← struct_value Unmarshal_string key "idempotency_key" members;
  operation ← struct_value Unmarshal_string operation "operation" members;
  script ← struct_value Unmarshal_string script "script" members;
  Some (request, key, operation, script).

Definition detail_names : list string :=
  ["schema_version"; "json_pointer"; "expected"; "received_type"; "canonical_run_field"; "canonical_run_type"; "minimal_valid_run"].
Definition Unmarshal_schema_detail (d : MailboxIngressSchemaDetail) (value : json) : option MailboxIngressSchemaDetail :=
  members ← struct_members true detail_names value;
  let text current name := struct_value Unmarshal_string current name members in
  version ← text (sd_SchemaVersion d) "schema_version"; pointer ← text (sd_JSONPointer d) "json_pointer";
  expected ← text (sd_Expected d) "expected"; received ← text (sd_ReceivedType d) "received_type";
  runField ← text (sd_CanonicalRunField d) "canonical_run_field"; runType ← text (sd_CanonicalRunType d) "canonical_run_type";
  minimal ← struct_value Unmarshal_minimal (sd_MinimalRunRequestID d, sd_MinimalRunKey d, sd_MinimalRunOperation d, sd_MinimalRunScript d)
              "minimal_valid_run" members;
  let '(request, key, operation, script) := minimal in
  Some (mkSchemaDetail version pointer expected received runField runType request key operation script).

Definition diagnostic_names : list string :=
  ["inbox_id"; "request_id"; "diagnostic_revision"; "lifecycle_phase"; "accepted"; "executed"; "code"; "message"; "schema_detail"; "observed_at"].
(** With [DisallowUnknownFields]; nothing follows the value. *)
Definition Unmarshal_diagnostic (bytes : string) : option mailboxIngressDiagnosticWire :=
  value ← parse_json bytes;
  members ← struct_members true diagnostic_names value;
  let text name := struct_value Unmarshal_string "" name members in
  inbox ← text "inbox_id"; request ← text "request_id";
  revision ← struct_value Unmarshal_int64 0 "diagnostic_revision" members;
  phase ← text "lifecycle_phase";
  accepted ← struct_value Unmarshal_bool false "accepted" members;
  executed ← struct_value Unmarshal_bool false "executed" members;
  code ← text "code"; message ← text "message";
  detail ← struct_value (Unmarshal_pointer Unmarshal_schema_detail (mkSchemaDetail "" "" "" "" "" "" "" "" "" "")) None "schema_detail" members;
  observed ← text "observed_at";
  Some (mkDiagnosticWire inbox request revision phase accepted executed code message detail observed).

Definition mailboxIngressDiagnosticMessage (code : MailboxIngressDiagnosticCode) : option string :=
  match code with
  | MailboxIngressDiagnosticMalformedJSON => Some "request is not valid JSON"
  | MailboxIngressDiagnosticInvalidRequestSchema => Some "request does not satisfy the mailbox request format"
  | MailboxIngressDiagnosticRequestIdentityMismatch => Some "request ID does not match the marker filename"
  | MailboxIngressDiagnosticInvalidScript => Some "request script is invalid"
  | MailboxIngressDiagnosticRequestTooLarge => Some "request exceeds the mailbox size limit"
  | MailboxIngressDiagnosticRequestIDReusedAfterReject => Some "request ID is retained for a previous rejected request"
  | MailboxIngressDiagnosticOther _ => None
  end.

Definition isMailboxIngressDiagnosticCode (code : MailboxIngressDiagnosticCode) : bool := is_Some_b (mailboxIngressDiagnosticMessage code).
Definition isInitialMailboxIngressDiagnosticCode (code : MailboxIngressDiagnosticCode) : bool :=
  negb (bool_decide (code = MailboxIngressDiagnosticRequestIDReusedAfterReject)) && isMailboxIngressDiagnosticCode code.

Definition validMailboxIngressSchemaDetail (code : MailboxIngressDiagnosticCode) (detail : option MailboxIngressSchemaDetail) : bool :=
  match detail with
  | None => true
  | Some d =>
      let same x y := bool_decide (x = y :> string) in
      bool_decide (code = MailboxIngressDiagnosticInvalidRequestSchema) && same (sd_SchemaVersion d) "v1"
      && same (sd_CanonicalRunField d) "script" && same (sd_CanonicalRunType d) "string"
      && same (sd_MinimalRunRequestID d) "<new-request-id>" && same (sd_MinimalRunKey d) "<new-idempotency-key>"
      && same (sd_MinimalRunOperation d) "run" && same (sd_MinimalRunScript d) "<shell script>"
      && (if same (sd_JSONPointer d) "/script" then same (sd_Expected d) "required string" || same (sd_Expected d) "string"
          else if same (sd_JSONPointer d) "/command" || same (sd_JSONPointer d) "/argv" || same (sd_JSONPointer d) "/cwd"
          then same (sd_Expected d) "unsupported field; use script"
          else is_empty (sd_JSONPointer d) && same (sd_Expected d) "documented v1 run fields")
      && bool_decide (sd_ReceivedType d ∈ ["missing"; "null"; "boolean"; "number"; "string"; "array"; "object"])
  end.

Definition frozen_wire (mailboxID requestID : string) (code : MailboxIngressDiagnosticCode) (message : string)
    (detail : option MailboxIngressSchemaDetail) (observedAt : Z) : mailboxIngressDiagnosticWire :=
  mkDiagnosticWire mailboxID requestID 1 "ingress_validation" false false (MailboxIngressDiagnosticCode_text code) message detail
    (format_RFC3339Nano observedAt).

Definition newMailboxIngressDiagnosticRecord (ref : MailboxIngressDiagnosticRef) (requestSHA256 : string) (code : MailboxIngressDiagnosticCode)
    (detail : option MailboxIngressSchemaDetail) (observedAt : Z) : result MailboxIngressDiagnosticRecord :=
  message ← from_option Ok (Err ErrMailboxIngressDiagnosticInvalid) (mailboxIngressDiagnosticMessage code);
  refuse_if (negb (isInitialMailboxIngressDiagnosticCode code) || negb (validMailboxIngressSchemaDetail code detail))
    ErrMailboxIngressDiagnosticInvalid;;
  let encoded := Marshal_diagnostic (frozen_wire (ref_MailboxID ref) (ref_ClientRequestID ref) code message detail observedAt) in
  refuse_if (MaxSerializedRequestBytes <? go_len encoded) ErrMailboxIngressDiagnosticInvalid;;
  Ok (mkDiagnosticRecord (ref_MailboxID ref) (ref_ClientRequestID ref) requestSHA256 code 1 encoded (sha256 encoded) observedAt
        None None None (observedAt + MailboxIngressDiagnosticArtifactLifetime) None None).

(** ** Validation *)

(** A stage that is reached: not before the earlier stage, which is reached, and
    before a deadline or not. *)
Definition stage_ok (earlier reached : option Z) (in_time : Z -> bool) : bool :=
  match reached with
  | None => true
  | Some at_ => negb (IsZero at_) && match earlier with Some e => e <=? at_ | None => false end && in_time at_
  end.

Definition validateMailboxIngressDiagnosticLifecycle (r : MailboxIngressDiagnosticRecord) : result unit :=
  let before_cleanup at_ := at_ <? md_DiagnosticCleanupAt r in
  refuse_if (negb (stage_ok (Some (md_ObservedAt r)) (md_ProjectedAt r) before_cleanup
                   && stage_ok (md_ProjectedAt r) (md_InputCleanupStartedAt r) before_cleanup
                   && stage_ok (md_InputCleanupStartedAt r) (md_InputPairRemovedAt r) before_cleanup
                   && stage_ok (md_InputPairRemovedAt r) (md_DiagnosticCleanupStartedAt r) (fun at_ => md_DiagnosticCleanupAt r <=? at_)
                   && stage_ok (md_DiagnosticCleanupStartedAt r) (md_DiagnosticFileRemovedAt r) (fun _ => true)))
    ErrMailboxIngressDiagnosticInvalid.

Definition validateMailboxIngressDiagnosticRecord (r : MailboxIngressDiagnosticRecord) : result unit :=
  let invalid {A} (o : option A) := from_option Ok (Err ErrMailboxIngressDiagnosticInvalid) o in
  refuse_if (negb (result_is_ok (NewMailboxIngressDiagnosticRef (md_MailboxID r) (md_RequestID r)))
             || negb (isInitialMailboxIngressDiagnosticCode (md_Code r)) || negb (md_DiagnosticRevision r =? 1)
             || (go_len (md_DiagnosticBytes r) <? 2) || (MaxSerializedRequestBytes <? go_len (md_DiagnosticBytes r))
             || IsZero (md_ObservedAt r) || IsZero (md_DiagnosticCleanupAt r)
             || negb (md_DiagnosticCleanupAt r =? md_ObservedAt r + MailboxIngressDiagnosticArtifactLifetime))
    ErrMailboxIngressDiagnosticInvalid;;
  validateMailboxIngressDiagnosticLifecycle r;;
  refuse_if (negb (bool_decide (sha256 (md_DiagnosticBytes r) = md_DiagnosticSHA256 r))) ErrMailboxIngressDiagnosticInvalid;;
  message ← invalid (mailboxIngressDiagnosticMessage (md_Code r));
  frozen ← invalid (Unmarshal_diagnostic (md_DiagnosticBytes r));
  let expected := frozen_wire (md_MailboxID r) (md_RequestID r) (md_Code r) message (wi_SchemaDetail frozen) (md_ObservedAt r) in
  refuse_if (negb (bool_decide (wi_InboxID frozen = wi_InboxID expected)) || negb (bool_decide (wi_RequestID frozen = wi_RequestID expected))
             || negb (wi_DiagnosticRevision frozen =? md_DiagnosticRevision r)
             || negb (bool_decide (wi_LifecyclePhase frozen = wi_LifecyclePhase expected)) || wi_Accepted frozen || wi_Executed frozen
             || negb (bool_decide (wi_Code frozen = wi_Code expected)) || negb (bool_decide (wi_Message frozen = message))
             || negb (bool_decide (wi_ObservedAt frozen = wi_ObservedAt expected))
             || negb (validMailboxIngressSchemaDetail (md_Code r) (wi_SchemaDetail frozen)))
    ErrMailboxIngressDiagnosticInvalid;;
  refuse_if (negb (bool_decide (Marshal_diagnostic expected = md_DiagnosticBytes r))) ErrMailboxIngressDiagnosticInvalid.

(** ** Statements *)
#[export] Instance DiagnosticCore_eq_dec : EqDecision DiagnosticCore.
Proof. solve_decision. Defined.

Definition diagnostic_checks (key : string * string) (c : DiagnosticCore) : bool :=
  let '(mailboxID, requestID) := key in
  (1 <=? sql_length mailboxID) && (sql_length mailboxID <=? 128) && (1 <=? sql_length requestID) && (sql_length requestID <=? 256)
  && (go_len (dg_request_sha256 c) =? 32) && isMailboxIngressDiagnosticCode (dg_diagnostic_code c)
  && (dg_diagnostic_revision c =? 1) && in_range 2 1048576 (go_len (dg_diagnostic_bytes c)) && (go_len (dg_diagnostic_sha256 c) =? 32).

Definition diagnostic_core (r : MailboxIngressDiagnosticRecord) : DiagnosticCore :=
  mkDiagnosticCore (md_RequestSHA256 r) (md_Code r) (md_DiagnosticRevision r) (md_DiagnosticBytes r) (md_DiagnosticSHA256 r)
    (formatStoredTime (md_ObservedAt r)) (formatStoredTime (md_DiagnosticCleanupAt r)).

Definition put_diagnostic (key : string * string) (row : DiagnosticRow) : mtx unit :=
  modify (on_mailbox_tables (fun b => set_ingress_diagnostics (<[key := row]> (mb_ingress_diagnostics b)) b)).

(** With the trigger mailbox_ingress_diagnostics_reject_exchange_identity. *)
Definition insertMailboxIngressDiagnosticOnConnection (r : MailboxIngressDiagnosticRecord) : mtx unit :=
  lift (validateMailboxIngressDiagnosticRecord r);;
  let key := (md_MailboxID r, md_RequestID r) in
  refused ← query (fun m => negb (diagnostic_checks key (diagnostic_core r)) || is_Some_b (mailbox_ingress_diagnostics m !! key)
                            || exists_row (has_identity (md_MailboxID r) (md_RequestID r)) (mailbox_exchanges m));
  fail_if refused (ErrSQL "insert mailbox ingress diagnostic");;
  put_diagnostic key (mkDiagnosticRow (diagnostic_core r) None None None None None).

(** The trigger mailbox_ingress_diagnostics_monotonic_lifecycle: a stage is set
    once, and only after the stage before it was set by an earlier update.  The
    core is frozen by mailbox_ingress_diagnostics_frozen_core: no update of the
    store changes it. *)
Definition stage_kept (old new : option StoredTime) : bool := negb (is_Some_b old) || bool_decide (new = old).
Definition stage_after (old_earlier new_earlier new : option StoredTime) : bool :=
  negb (is_Some_b new) || (is_Some_b old_earlier && is_Some_b new_earlier).
Definition monotonic (old new : DiagnosticRow) : bool :=
  stage_kept (dg_projected_at old) (dg_projected_at new)
  && stage_kept (dg_input_cleanup_started_at old) (dg_input_cleanup_started_at new)
  && stage_kept (dg_input_pair_removed_at old) (dg_input_pair_removed_at new)
  && stage_kept (dg_diagnostic_cleanup_started_at old) (dg_diagnostic_cleanup_started_at new)
  && stage_kept (dg_diagnostic_file_removed_at old) (dg_diagnostic_file_removed_at new)
  && stage_after (dg_projected_at old) (dg_projected_at new) (dg_input_cleanup_started_at new)
  && stage_after (dg_input_cleanup_started_at old) (dg_input_cleanup_started_at new) (dg_input_pair_removed_at new)
  && stage_after (dg_input_pair_removed_at old) (dg_input_pair_removed_at new) (dg_diagnostic_cleanup_started_at new)
  && stage_after (dg_diagnostic_cleanup_started_at old) (dg_diagnostic_cleanup_started_at new) (dg_diagnostic_file_removed_at new).

(** [UPDATE mailbox_ingress_diagnostics SET f WHERE mailbox_id = ? AND client_request_id = ? AND p] *)
Definition update_diagnostic (ref : MailboxIngressDiagnosticRef) (p : DiagnosticRow -> bool) (f : DiagnosticRow -> DiagnosticRow) : mtx unit :=
  let key := (ref_MailboxID ref, ref_ClientRequestID ref) in
  row ← query (fun m => mailbox_ingress_diagnostics m !! key);
  match row with
  | None => mret tt
  | Some row =>
      match p row with
      | false => mret tt
      | true =>
          fail_if (negb (bool_decide (dg_core (f row) = dg_core row)) || negb (monotonic row (f row)))
            (ErrSQL "mailbox ingress diagnostic lifecycle is monotonic");;
          put_diagnostic key (f row)
      end
  end.

Definition with_projected (now : Z) (r : DiagnosticRow) : DiagnosticRow :=
  mkDiagnosticRow (dg_core r) (Some (formatStoredTime now)) (dg_input_cleanup_started_at r) (dg_input_pair_removed_at r)
    (dg_diagnostic_cleanup_started_at r) (dg_diagnostic_file_removed_at r).
Definition with_input_cleanup_started (now : Z) (r : DiagnosticRow) : DiagnosticRow :=
  mkDiagnosticRow (dg_core r) (dg_projected_at r) (Some (formatStoredTime now)) (dg_input_pair_removed_at r)
    (dg_diagnostic_cleanup_started_at r) (dg_diagnostic_file_removed_at r).
Definition with_input_pair_removed (now : Z) (r : DiagnosticRow) : DiagnosticRow :=
  mkDiagnosticRow (dg_core r) (dg_projected_at r) (dg_input_cleanup_started_at r) (Some (formatStoredTime now))
    (dg_diagnostic_cleanup_started_at r) (dg_diagnostic_file_removed_at r).
(** [SET diagnostic_cleanup_started_at = COALESCE(diagnostic_cleanup_started_at, ?)] *)
Definition with_diagnostic_cleanup_started (now : Z) (r : DiagnosticRow) : DiagnosticRow :=
  mkDiagnosticRow (dg_core r) (dg_projected_at r) (dg_input_cleanup_started_at r) (dg_input_pair_removed_at r)
    (Some (default (formatStoredTime now) (dg_diagnostic_cleanup_started_at r))) (dg_diagnostic_file_removed_at r).
Definition with_diagnostic_file_removed (now : Z) (r : DiagnosticRow) : DiagnosticRow :=
  mkDiagnosticRow (dg_core r) (dg_projected_at r) (dg_input_cleanup_started_at r) (dg_input_pair_removed_at r)
    (dg_diagnostic_cleanup_started_at r) (Some (formatStoredTime now)).

(** ** Reads *)
Definition diagnostic_instant (t : StoredTime) : result Z := from_option Ok (Err ErrMailboxIngressDiagnosticInvalid) (parseStoredTime t).
Definition diagnostic_stage (t : option StoredTime) : result (option Z) :=
  match t with None => Ok None | Some t => at_ ← diagnostic_instant t; Ok (Some at_) end.

Definition decodeDiagnostic (ref : MailboxIngressDiagnosticRef) (row : DiagnosticRow) : result MailboxIngressDiagnosticRecord :=
  let c := dg_core row in
  refuse_if (negb (go_len (dg_request_sha256 c) =? sha256_Size) || negb (go_len (dg_diagnostic_sha256 c) =? sha256_Size))
    ErrMailboxIngressDiagnosticInvalid;;
  observedAt ← diagnostic_instant (dg_observed_at c);
  cleanupAt ← diagnostic_instant (dg_diagnostic_cleanup_at c);
  projectedAt ← diagnostic_stage (dg_projected_at row);
  cleanupStartedAt ← diagnostic_stage (dg_input_cleanup_started_at row);
  pairRemovedAt ← diagnostic_stage (dg_input_pair_removed_at row);
  diagnosticCleanupStartedAt ← diagnostic_stage (dg_diagnostic_cleanup_started_at row);
  fileRemovedAt ← diagnostic_stage (dg_diagnostic_file_removed_at row);
  let record := mkDiagnosticRecord (ref_MailboxID ref) (ref_ClientRequestID ref) (dg_request_sha256 c) (dg_diagnostic_code c)
    (dg_diagnostic_revision c) (dg_diagnostic_bytes c) (dg_diagnostic_sha256 c) observedAt projectedAt cleanupStartedAt pairRemovedAt
    cleanupAt diagnosticCleanupStartedAt fileRemovedAt in
  validateMailboxIngressDiagnosticRecord record;;
  Ok record.

Definition readMailboxIngressDiagnosticOnConnection (ref : MailboxIngressDiagnosticRef) : mtx (option MailboxIngressDiagnosticRecord) :=
  validated ← lift (validateMailboxIngressDiagnosticRef ref);
  row ← query (fun m => mailbox_ingress_diagnostics m !! (ref_MailboxID validated, ref_ClientRequestID validated));
  match row with
  | None => mret None
  | Some row => record ← lift (decodeDiagnostic validated row); mret (Some record)
  end.

(** The reads that follow an update ignore [found]. *)
Definition found_diagnostic (ref : MailboxIngressDiagnosticRef) : mtx MailboxIngressDiagnosticRecord :=
  record ← readMailboxIngressDiagnosticOnConnection ref;
  or_fail record ErrMailboxIngressDiagnosticNotFound.

(** ** Operations *)
Definition rejectMailboxIngressDiagnosticExchangeCollision (ref : MailboxIngressDiagnosticRef) : mtx unit :=
  exists_ ← query (fun m => exists_row (has_identity (ref_MailboxID ref) (ref_ClientRequestID ref)) (mailbox_exchanges m));
  fail_if exists_ ErrMailboxIngressDiagnosticConflict.

Definition recordMailboxIngressDiagnosticInMailbox (m : Mirror) (now : Z) (ref : MailboxIngressDiagnosticRef) (requestSHA256 : string)
    (code : MailboxIngressDiagnosticCode) (detail : option MailboxIngressSchemaDetail)
    : result (MailboxIngressDiagnosticRecord * MailboxIngressDiagnosticDisposition) * Mirror :=
  match validateMailboxIngressDiagnosticRef ref with
  | Err e => (Err e, m)
  | Ok validated =>
      if negb (isInitialMailboxIngressDiagnosticCode code) || negb (validMailboxIngressSchemaDetail code detail)
      then (Err ErrMailboxIngressDiagnosticInvalid, m)
      else withMirrorTransaction m
        (rejectMailboxIngressDiagnosticExchangeCollision validated;;
         existing ← readMailboxIngressDiagnosticOnConnection validated;
         match existing with
         | Some existing =>
             mret (existing,
                   if negb (bool_decide (md_RequestSHA256 existing = requestSHA256)) || is_Some_b (md_InputPairRemovedAt existing)
                   then MailboxIngressDiagnosticRequestIDReused else MailboxIngressDiagnosticSameFingerprint)
         | None =>
             record ← lift (newMailboxIngressDiagnosticRecord validated requestSHA256 code detail now);
             insertMailboxIngressDiagnosticOnConnection record;;
             mret (record, MailboxIngressDiagnosticCreated)
         end)
  end.

Definition RecordMailboxIngressDiagnosticInMailbox (m : Mirror) (now : Z) ref requestSHA256 code :=
  recordMailboxIngressDiagnosticInMailbox m now ref requestSHA256 code None.
Definition RecordMailboxIngressDiagnosticWithSchemaDetailInMailbox (m : Mirror) (now : Z) ref requestSHA256 code detail :=
  recordMailboxIngressDiagnosticInMailbox m now ref requestSHA256 code detail.

Definition GetMailboxIngressDiagnosticInMailbox (m : Mirror) (ref : MailboxIngressDiagnosticRef) : result MailboxIngressDiagnosticRecord :=
  validated ← validateMailboxIngressDiagnosticRef ref;
  withMirrorRead m (found_diagnostic validated).

Definition with_diagnostic {A} (m : Mirror) (ref : MailboxIngressDiagnosticRef) (body : MailboxIngressDiagnosticRef -> mtx A) : result A * Mirror :=
  match validateMailboxIngressDiagnosticRef ref with
  | Err e => (Err e, m)
  | Ok validated => withMirrorTransaction m (body validated)
  end.

Definition MarkMailboxIngressDiagnosticProjectedInMailbox (m : Mirror) (now : Z) (ref : MailboxIngressDiagnosticRef)
    : result MailboxIngressDiagnosticRecord * Mirror :=
  with_diagnostic m ref (fun validated =>
    record ← found_diagnostic validated;
    fail_if (is_Some_b (md_DiagnosticCleanupStartedAt record) || is_Some_b (md_DiagnosticFileRemovedAt record)
             || (md_DiagnosticCleanupAt record <=? now)) ErrMailboxIngressDiagnosticExpired;;
    if is_Some_b (md_ProjectedAt record) then mret record
    else
      update_diagnostic validated (fun r => negb (is_Some_b (dg_projected_at r))) (with_projected now);;
      found_diagnostic validated).

Definition advanceMailboxIngressDiagnosticInputCleanup (m : Mirror) (now : Z) (ref : MailboxIngressDiagnosticRef) (requestSHA256 : string)
    (complete : bool) : result MailboxIngressDiagnosticRecord * Mirror :=
  with_diagnostic m ref (fun validated =>
    record ← found_diagnostic validated;
    fail_if (negb (bool_decide (md_RequestSHA256 record = requestSHA256))) ErrMailboxIngressDiagnosticConflict;;
    fail_if (md_DiagnosticCleanupAt record <=? now) ErrMailboxIngressDiagnosticExpired;;
    fail_if (is_Some_b (md_DiagnosticCleanupStartedAt record) || is_Some_b (md_DiagnosticFileRemovedAt record))
      ErrMailboxIngressDiagnosticCleanupState;;
    if is_Some_b (md_InputPairRemovedAt record) then mret record
    else
      fail_if (negb (is_Some_b (md_ProjectedAt record)) || (complete && negb (is_Some_b (md_InputCleanupStartedAt record))))
        ErrMailboxIngressDiagnosticCleanupState;;
      (if complete then
         update_diagnostic validated (fun r => negb (is_Some_b (dg_input_pair_removed_at r))) (with_input_pair_removed now)
       else if negb (is_Some_b (md_InputCleanupStartedAt record)) then
         update_diagnostic validated (fun r => negb (is_Some_b (dg_input_cleanup_started_at r))) (with_input_cleanup_started now)
       else mret tt);;
      found_diagnostic validated).

Definition BeginMailboxIngressDiagnosticInputCleanupInMailbox (m : Mirror) (now : Z) ref requestSHA256 :=
  advanceMailboxIngressDiagnosticInputCleanup m now ref requestSHA256 false.
Definition MarkMailboxIngressDiagnosticInputPairRemovedInMailbox (m : Mirror) (now : Z) ref requestSHA256 :=
  advanceMailboxIngressDiagnosticInputCleanup m now ref requestSHA256 true.

(** A listing of the diagnostics of a mailbox, the keys of the rows in order. *)
Definition diagnostic_rows (mailboxID : string) (p : DiagnosticRow -> bool) (m : Mirror) : list (string * DiagnosticRow) :=
  omap (fun '((owner, requestID), r) => if bool_decide (owner = mailboxID) && p r then Some (requestID, r) else None)
    (map_to_list (mailbox_ingress_diagnostics m)).

Definition unfinished (r : DiagnosticRow) : bool := negb (is_Some_b (dg_projected_at r)) || negb (is_Some_b (dg_input_pair_removed_at r)).

(** [ORDER BY CASE .. THEN 0 ELSE 1 END, observed_at, client_request_id] *)
Definition recovery_order (x y : string * DiagnosticRow) : Prop :=
  if Bool.eqb (unfinished (snd x)) (unfinished (snd y)) then listed_le (fun r => dg_observed_at (dg_core r)) x y
  else unfinished (snd x) = true.
#[export] Instance recovery_order_dec x y : Decision (recovery_order x y).
Proof. unfold recovery_order. destruct (Bool.eqb _ _); apply _. Defined.

Definition recoverable_diagnostic (now : Z) (r : DiagnosticRow) : bool :=
  negb (is_Some_b (dg_diagnostic_cleanup_started_at r)) && negb (is_Some_b (dg_diagnostic_file_removed_at r))
  && negb (stored_le_b (dg_diagnostic_cleanup_at (dg_core r)) (formatStoredTime now)).

Fixpoint read_diagnostics (mailboxID : string) (requestIDs : list string) : mtx (list MailboxIngressDiagnosticRecord) :=
  match requestIDs with
  | [] => mret []
  | requestID :: rest =>
      record ← readMailboxIngressDiagnosticOnConnection (mkMailboxExchangeRef mailboxID requestID);
      records ← read_diagnostics mailboxID rest;
      mret (option_list record ++ records)
  end.

Definition diagnostic_limit (mailboxID : string) (limit : Z) : result Z :=
  refuse_if (negb (validMailboxID mailboxID)) ErrMailboxIngressDiagnosticInvalid;;
  let limit := if limit =? 0 then defaultMailboxIngressDiagnosticRecoveryLimit else limit in
  refuse_if ((limit <? 1) || (1024 <? limit)) ErrMailboxIngressDiagnosticInvalid;;
  Ok limit.

Definition ListRecoverableMailboxIngressDiagnosticsInMailbox (m : Mirror) (now : Z) (mailboxID : string) (limit : Z)
    : result (list MailboxIngressDiagnosticRecord) :=
  limit ← diagnostic_limit mailboxID limit;
  withMirrorRead m
    (rows ← query (fun m => take (Z.to_nat limit) (merge_sort recovery_order (diagnostic_rows mailboxID (recoverable_diagnostic now) m)));
     read_diagnostics mailboxID rows.*1).

Definition claimable_diagnostic (now : Z) (r : DiagnosticRow) : bool :=
  is_Some_b (dg_input_pair_removed_at r) && stored_le_b (dg_diagnostic_cleanup_at (dg_core r)) (formatStoredTime now)
  && negb (is_Some_b (dg_diagnostic_file_removed_at r)).

Fixpoint claim_diagnostics (mailboxID : string) (now : Z) (requestIDs : list string) : mtx (list MailboxIngressDiagnosticRecord) :=
  match requestIDs with
  | [] => mret []
  | requestID :: rest =>
      let ref := mkMailboxExchangeRef mailboxID requestID in
      update_diagnostic ref (fun r => negb (is_Some_b (dg_diagnostic_file_removed_at r))) (with_diagnostic_cleanup_started now);;
      record ← readMailboxIngressDiagnosticOnConnection ref;
      records ← claim_diagnostics mailboxID now rest;
      mret (option_list record ++ records)
  end.

Definition ClaimMailboxIngressDiagnosticsForCleanupInMailbox (m : Mirror) (now : Z) (mailboxID : string) (limit : Z)
    : result (list MailboxIngressDiagnosticRecord) * Mirror :=
  match diagnostic_limit mailboxID limit with
  | Err e => (Err e, m)
  | Ok limit =>
      withMirrorTransaction m
        (rows ← query (fun m => take (Z.to_nat limit) (merge_sort (listed_le (fun r => dg_diagnostic_cleanup_at (dg_core r)))
                                                        (diagnostic_rows mailboxID (claimable_diagnostic now) m)));
         claim_diagnostics mailboxID now rows.*1)
  end.

Definition MarkMailboxIngressDiagnosticFileRemovedInMailbox (m : Mirror) (now : Z) (ref : MailboxIngressDiagnosticRef)
    : result MailboxIngressDiagnosticRecord * Mirror :=
  with_diagnostic m ref (fun validated =>
    record ← found_diagnostic validated;
    fail_if (negb (is_Some_b (md_DiagnosticCleanupStartedAt record))) ErrMailboxIngressDiagnosticCleanupState;;
    (if is_Some_b (md_DiagnosticFileRemovedAt record) then mret tt
     else update_diagnostic validated (fun r => negb (is_Some_b (dg_diagnostic_file_removed_at r))) (with_diagnostic_file_removed now));;
    found_diagnostic validated).
