(* ===== verification/RemoteReads.v ===== *)
(** * Projections from the replies of a remote host

    Models the projections of [src/src/internal/dispatcher/projections.go] and
    the events of [src/src/internal/dispatcher/events.go]: what a reply to a
    mutation may add to a projection, what a strict read must contain to be
    taken as proof, and how event frames are decoded.  [None] is a reply that
    does not carry the projection. *)
From Stdlib Require Import String.
From S2P Require Import Prelude GoStrings Sha256 Identity Lifecycle Policy JsonText Canonical.
From S2P Require Import RunPayload LaneAdmission Db Commands RemoteDb RemoteProjections RemoteEvents LocalIntents.
From S2P Require Import BridgeJson RemoteReplies.

(** The rest of a reply that does not carry the member. *)
Definition or_absent {A B} (m : result (option A)) (k : A -> result (option B)) : result (option B) :=
  value ← m;
  match value with Some a => k a | None => Ok None end.
Notation "x ←? m ; k" := (or_absent m (fun x => k)) (at level 20, m at level 100, k at level 200, only parsing).

Definition remoteSessionProjectionFromReply (intent : LocalIntentRecord) (object : list (string * json))
    : result (option RemoteSessionProjection) :=
  let c := lir_create intent in
  state ←? readProjectionString object "session_state";
  NewSessionID (lic_SessionID c);;
  target ← projectionTarget object (lic_Target c);
  expected ← queuedRemoteController (lic_Controller c);
  projectionController object expected;;
  environment ← optional_text object "environment" (lic_Environment c);
  source ← projectionSource object (lic_Source c);
  capabilities ←? projectionCapabilities object;
  observedAt ←? projectionObservedAt object;
  runtimeGeneration ← optional_text object "runtime_generation" "";
  Ok (Some (mkRemoteSessionProjection (lic_SessionID c) target (lic_Controller c) (SessionState_of_text state) environment
              (default (lic_Source c) (fst <$> source)) (default "" (snd <$> source)) runtimeGeneration capabilities
              observedAt false)).

Definition remoteCommandProjectionFromReply (intent : LocalIntentRecord) (object : list (string * json))
    : result (option RemoteCommandProjection) :=
  let c := lir_create intent in
  stateText ←? readProjectionString object "command_state";
  let state := CommandState_of_text stateText in
  refuse_if (negb (CommandState_Valid state)) ErrRemoteResponse;;
  target ← projectionTarget object (lic_Target c);
  expected ← queuedRemoteController (lic_Controller c);
  projectionController object expected;;
  sessionID ← readProjectionString object "session_id";
  sessionID ← (match sessionID with
               | None => Ok (lic_SessionID c)
               | Some value =>
                   parsed ← result_map_err (fun _ => ErrRemoteResponse) (NewSessionID value);
                   refuse_if (negb (bool_decide (parsed = lic_SessionID c))) ErrRemoteResponse;;
                   Ok parsed
               end);
  commandID ← optional_text object "command_id" (lic_CommandID c);
  refuse_if (negb (bool_decide (commandID = lic_CommandID c))) ErrRemoteResponse;;
  ordinal ← from_option Ok (Err ErrRemoteResponse) (positiveRemoteAuthorityOrdinal object);
  environment ← optional_text object "environment" (lic_Environment c);
  source ← projectionSource object (lic_Source c);
  capabilities ←? projectionCapabilities object;
  observedAt ←? projectionObservedAt object;
  exitCode ← optional_int64 object "exit_code";
  final ← optional_int64 object "final_event_sequence";
  complete ← optional_bool object "output_complete";
  truncated ← optional_bool object "output_truncated";
  reason ← optional_text object "output_unavailable_reason" "";
  Ok (Some (mkRemoteCommandProjection (lic_CommandID c) sessionID ordinal state exitCode final complete truncated reason target
              (lic_Controller c) environment (default (lic_Source c) (fst <$> source)) capabilities observedAt false)).

(** ** Strict reads *)
Definition require_present {A} (r : result (option A)) : result A :=
  value ← r;
  from_option Ok (Err ErrRemoteResponse) value.

Definition requireProjectionSource (object : list (string * json)) (expected : Source) : result unit :=
  value ← from_option Ok (Err ErrRemoteResponse) (present_member object "source");
  fields ← from_option Ok (Err ErrRemoteResponse) (payload_object (Some value));
  modeRaw ← from_option Ok (Err ErrRemoteResponse) (present_member fields "mode");
  mode ← from_option Ok (Err ErrRemoteResponse) (Unmarshal_string "" modeRaw);
  refuse_if (is_empty mode || negb (bool_decide (mode = SourceMode_text (source_mode expected)))) ErrRemoteResponse;;
  require_present (projectionSource object expected);;
  Ok tt.

Definition requireProjectionScriptHash (object : list (string * json)) (script : string) : result unit :=
  actual ← require_present (readProjectionString object "script_sha256");
  refuse_if (negb (bool_decide (actual = hex_encode (sha256 script)))) ErrRemoteResponse.

Definition requireProjectionScriptByteCount (object : list (string * json)) (expected : Z) : result unit :=
  value ← from_option Ok (Err ErrRemoteResponse) (present_member object "script_byte_count");
  refuse_if (negb (bool_decide (Unmarshal_int64 0 value = Some expected))) ErrRemoteResponse.

Definition requireProjectionBools (object : list (string * json)) : result unit :=
  refuse_if (negb (forallb (fun name => match present_member object name with
                                        | Some value => is_Some_b (Unmarshal_bool false value)
                                        | None => false
                                        end) ["output_complete"; "output_truncated"])) ErrRemoteResponse.

Definition requireProjectionIdentity (object : list (string * json)) (field expected : string) : result unit :=
  actual ← require_present (readProjectionString object field);
  refuse_if (negb (bool_decide (actual = expected))) ErrRemoteResponse.

Definition minimumTerminalEventSequence (state : CommandState) : Z :=
  match state with CommandStateCancelled | CommandStateRejected => 2 | _ => 3 end.

Definition validateStrictProjectionOutput (state : CommandState) (exitCode final : option Z) (complete : bool) (reason : string)
    : result unit :=
  if negb (CommandState_IsTerminal state) then
    refuse_if (negb (is_empty reason) || complete || is_Some_b final) ErrRemoteResponse
  else
    refuse_if (final_missing final) ErrRemoteResponse;;
    refuse_if (default 0 final <? minimumTerminalEventSequence state) ErrRemoteResponse;;
    refuse_if (bool_decide (state = CommandStateLost) && complete) ErrRemoteResponse;;
    (if complete then refuse_if (negb (is_empty reason)) ErrRemoteResponse
     else if bool_decide (reason = "capture_boundary_unconfirmed") then
       refuse_if (negb (bool_decide (state = CommandStateLost))) ErrRemoteResponse
     else refuse_if (negb (bool_decide (reason = "remote_event_gap") || bool_decide (reason = "retention_expired"))) ErrRemoteResponse);;
    match state with
    | CommandStateSucceeded => refuse_if (negb (bool_decide (exitCode = Some 0))) ErrRemoteResponse
    | CommandStateFailed => refuse_if (match exitCode with None => true | Some code => code =? 0 end) ErrRemoteResponse
    | _ => Ok tt
    end.

Definition requireRemoteProjectionReadContext (intent : LocalIntentRecord) (object : list (string * json)) : result unit :=
  let c := lir_create intent in
  refuse_if (negb (is_Some_b (member object "execution_target"))) ErrRemoteResponse;;
  projectionTarget object (lic_Target c);;
  expected ← queuedRemoteController (lic_Controller c);
  refuse_if (negb (is_Some_b (member object "controller"))) ErrRemoteResponse;;
  projectionController object expected;;
  requireProjectionIdentity object "authority" "remote";;
  requireProjectionIdentity object "environment" (lic_Environment c);;
  requireProjectionSource object (lic_Source c);;
  capabilities ← require_present (projectionCapabilities object);
  refuse_if (is_empty (cap_HostClass capabilities) || negb (bool_decide (cap_Isolation capabilities = "os_user"))
             || negb (bool_decide (cap_EffectiveAccount capabilities = "ubuntu"))
             || negb (is_Some_b (cap_ServiceLimits capabilities))) ErrRemoteResponse;;
  require_present (projectionObservedAt object);;
  Ok tt.

Definition strictRemoteCommandProjectionFromReadReply (intent : LocalIntentRecord) (object : list (string * json))
    : result RemoteCommandProjection :=
  let c := lir_create intent in
  requireRemoteProjectionReadContext intent object;;
  requireProjectionIdentity object "command_id" (lic_CommandID c);;
  requireProjectionIdentity object "session_id" (lic_SessionID c);;
  requireProjectionScriptHash object (lic_ScriptBytes c);;
  requireProjectionScriptByteCount object (go_len (lic_ScriptBytes c));;
  requireProjectionBools object;;
  projection ← require_present (remoteCommandProjectionFromReply intent object);
  validateStrictProjectionOutput (cp_State projection) (cp_ExitCode projection) (cp_FinalEventSequence projection)
    (cp_OutputComplete projection) (cp_OutputUnavailableReason projection);;
  Ok projection.

(** ** Jobs *)
Definition optional_state (object : list (string * json)) : result (option CommandState) :=
  match present_member object "command_state" with
  | None => Ok None
  | Some value =>
      text ← from_option Ok (Err ErrRemoteResponse) (Unmarshal_string "" value);
      refuse_if (negb (CommandState_Valid (CommandState_of_text text))) ErrRemoteResponse;;
      Ok (Some (CommandState_of_text text))
  end.

(** A member that is absent or the string [want]. *)
Definition absent_or (object : list (string * json)) (name want : string) : result unit :=
  refuse_if (is_Some_b (member object name) && negb (string_is object name want)) ErrRemoteResponse.

Definition with_blocked_reason (reason : string) (p : RemoteJobProjection) : RemoteJobProjection :=
  mkRemoteJobProjection (jp_JobID p) (jp_SessionID p) (jp_CommandID p) (jp_Phase p) (jp_CommandState p) (jp_ExitCode p)
    (jp_FinalEventSequence p) (jp_OutputComplete p) (jp_OutputTruncated p) (jp_OutputUnavailableReason p) reason
    (jp_TeardownState p) (jp_TeardownReason p) (jp_Target p) (jp_Controller p) (jp_Environment p) (jp_Source p)
    (jp_Capabilities p) (jp_ObservedAt p) (jp_IsStale p).

Definition remoteJobProjectionFromReply (intent : LocalIntentRecord) (object : list (string * json))
    : result (option RemoteJobProjection) :=
  let c := lir_create intent in
  jobID ←? readProjectionString object "job_id";
  refuse_if (negb (bool_decide (jobID = lic_JobID c))) ErrRemoteResponse;;
  phaseText ←? readProjectionString object "job_phase";
  let phase := JobPhase_of_text phaseText in
  refuse_if (negb (JobPhase_Valid phase)) ErrRemoteResponse;;
  target ← projectionTarget object (lic_Target c);
  expected ← queuedRemoteController (lic_Controller c);
  projectionController object expected;;
  absent_or object "session_id" (lic_SessionID c);;
  absent_or object "command_id" (lic_CommandID c);;
  environment ← optional_text object "environment" (lic_Environment c);
  source ← projectionSource object (lic_Source c);
  capabilities ←? projectionCapabilities object;
  observedAt ←? projectionObservedAt object;
  teardownText ←? readProjectionString object "teardown_state";
  let teardownState := JobTeardownState_of_text teardownText in
  refuse_if (negb (JobTeardownState_Valid teardownState)) ErrRemoteResponse;;
  commandState ← optional_state object;
  exitCode ← optional_int64 object "exit_code";
  final ← optional_int64 object "final_event_sequence";
  complete ← optional_bool object "output_complete";
  truncated ← optional_bool object "output_truncated";
  reason ← optional_text object "output_unavailable_reason" "";
  teardownReason ← optional_text object "teardown_reason" "";
  blocked ← readProjectionString object "queue_blocked_reason";
  let result := mkRemoteJobProjection (lic_JobID c) (lic_SessionID c) (lic_CommandID c) phase commandState exitCode final
    complete truncated reason "" teardownState teardownReason target (lic_Controller c) environment
    (default (lic_Source c) (fst <$> source)) capabilities observedAt false in
  match blocked with
  | None => Ok (Some result)
  | Some value =>
      refuse_if (negb (blocked_shape (with_blocked_reason value result))) ErrRemoteResponse;;
      Ok (Some (with_blocked_reason value result))
  end.

Definition strictRemoteJobProjectionFromReadReply (intent : LocalIntentRecord) (object : list (string * json))
    : result RemoteJobProjection :=
  let c := lir_create intent in
  requireRemoteProjectionReadContext intent object;;
  requireProjectionIdentity object "job_id" (lic_JobID c);;
  requireProjectionIdentity object "session_id" (lic_SessionID c);;
  requireProjectionIdentity object "command_id" (lic_CommandID c);;
  requireProjectionBools object;;
  projection ← require_present (remoteJobProjectionFromReply intent object);
  (match jp_CommandState projection with
   | Some state => validateStrictProjectionOutput state (jp_ExitCode projection) (jp_FinalEventSequence projection)
                     (jp_OutputComplete projection) (jp_OutputUnavailableReason projection)
   | None => refuse_if (is_Some_b (jp_ExitCode projection) || is_Some_b (jp_FinalEventSequence projection)
                        || jp_OutputComplete projection || jp_OutputTruncated projection
                        || negb (is_empty (jp_OutputUnavailableReason projection))) ErrRemoteResponse
   end);;
  Ok projection.

(** A failure before any session existed. *)
Definition provenPreSessionTerminalRemoteJob (job : RemoteJobProjection) : bool :=
  bool_decide (jp_Phase job = JobPhaseFailed) && negb (is_Some_b (jp_CommandState job))
  && bool_decide (jp_TeardownState job = JobTeardownNotCreated) && negb (is_Some_b (jp_ExitCode job))
  && negb (is_Some_b (jp_FinalEventSequence job)) && negb (jp_OutputComplete job) && negb (jp_OutputTruncated job)
  && is_empty (jp_OutputUnavailableReason job).

(** ** Event frames *)
Definition EventType_of_text (text : string) : EventType :=
  if bool_decide (text = "command_queued") then command_queued
  else if bool_decide (text = "command_started") then command_started
  else if bool_decide (text = "stdout") then stdout
  else if bool_decide (text = "stderr") then stderr
  else if bool_decide (text = "output_truncated") then output_truncated
  else if bool_decide (text = "command_succeeded") then command_succeeded
  else if bool_decide (text = "command_failed") then command_failed
  else if bool_decide (text = "command_cancelled") then command_cancelled
  else if bool_decide (text = "command_timed_out") then command_timed_out
  else if bool_decide (text = "command_rejected") then command_rejected
  else if bool_decide (text = "command_lost") then command_lost
  else EventOther text.

Definition validRemoteEventReplyType (value : EventType) : bool := match value with EventOther _ => false | _ => true end.

Definition isRemoteTerminalEvent (value : EventType) : bool :=
  match value with
  | command_succeeded | command_failed | command_cancelled | command_timed_out | command_rejected | command_lost => true
  | _ => false
  end.

Definition decodeRemoteEventReply (commandID : string) (payload : option json) : result RemoteEventRecord :=
  let stream {A} (o : option A) : result A := from_option Ok (Err ErrRemoteEventStream) o in
  value ← stream payload;
  members ← stream (struct_members true ["command_id"; "sequence"; "type"; "timestamp"; "encoding"; "data_base64"; "byte_count"] value);
  command ← stream (struct_value Unmarshal_string "" "command_id" members);
  sequence ← stream (struct_value Unmarshal_int64 0 "sequence" members);
  typeText ← stream (struct_value Unmarshal_string "" "type" members);
  timestamp ← stream (struct_value Unmarshal_time 0 "timestamp" members);
  stream (struct_value Unmarshal_string "" "encoding" members);;
  data ← stream (struct_value Unmarshal_string "" "data_base64" members);
  byteCount ← stream (struct_value Unmarshal_int64 0 "byte_count" members);
  let type := EventType_of_text typeText in
  refuse_if (negb (bool_decide (command = commandID)) || (sequence <=? 0) || negb (validRemoteEventReplyType type) || IsZero timestamp)
    ErrRemoteEventStream;;
  refuse_if ((sequence =? 1) && negb (bool_decide (type = command_queued))) ErrRemoteEventStream;;
  refuse_if ((1 <? sequence) && bool_decide (type = command_queued)) ErrRemoteEventStream;;
  refuse_if (byteCount <? 0) ErrRemoteEventStream;;
  bytes ← (if is_empty data then Ok "" else stream (base64_decode data));
  refuse_if (16384 <? go_len bytes) ErrRemoteEventStream;;
  (if bool_decide (type = stdout) || bool_decide (type = stderr) then
     refuse_if (is_empty bytes || negb (go_len bytes =? byteCount)) ErrRemoteEventStream
   else refuse_if (negb (is_empty bytes) || negb (byteCount =? 0)) ErrRemoteEventStream);;
  Ok (mkCommandEventRecord commandID sequence type bytes byteCount timestamp).

Definition decodeRemoteStreamEnd (payload : option json) : option Z :=
  value ← payload;
  members ← struct_members true ["last_sequence"] value;
  last ← struct_value Unmarshal_int64 0 "last_sequence" members;
  if last <? 0 then None else Some last.

Definition remoteGapAvailableSequence (details : option (list (string * json))) : option Z :=
  members ← details;
  value ← member members "last_sequence";
  match value with JNumber literal => float_int64 literal | _ => None end.
