(* ===== verification/Dispatcher.v ===== *)
(** * The remote dispatcher: delivery

    Models [src/src/internal/dispatcher/remote.go]: an intent is checked,
    claimed, sent to its host as one frame, and its delivery state is what the
    answer proves.  An intent whose delivery is in doubt is looked up at its host
    and is sent again only while the host still guarantees the key.  First, the world
    a dispatcher works in. *)
From Stdlib Require Import String.
From S2P Require Import AuditRecords.
From S2P Require Import Prelude GoStrings Identity Lifecycle LaneAdmission Db RemoteDb RemoteProjections RemoteUpserts.
From S2P Require Import LocalIntents LocalIntentOps JsonText Policy RunPayload Canonical BridgeJson RemoteReplies RemoteReads.

(** ** The world of a dispatcher

    A dispatcher works between the store of its controller and the callers of
    its remote hosts ([RemoteCaller] and [RemoteEventStreamer] of
    [src/src/internal/dispatcher]).  The hosts are not under the control of the
    program: a [World] answers every call by any function of what was said
    before.  It also has the clock, and the requests that front ends record in
    the store between any two steps of the dispatcher. *)

(** ** Calls *)

(** A call is answered, or fails; a failure can be known to have happened before
    anything was sent ([PhaseBeforeSend]). *)
Inductive CallOutcome : Type :=
  | Replied (reply : ReplyFrame)
  | CallFailed (before_send : bool).

(** The frames a stream delivers, and whether it fails after them. *)
Record StreamOutcome : Type := mkStreamOutcome { so_frames : list ReplyFrame; so_failed : bool }.

Inductive Interaction : Type :=
  | Called (profile : string) (frame : RequestFrame) (outcome : CallOutcome)
  | Streamed (profile : string) (frame : RequestFrame) (outcome : StreamOutcome).

(** A request that a front end hands to [AcceptLocalIntent]. *)
Record Ingested : Type := mkIngested { ig_now : Z; ig_ingress : option Ingress; ig_wall : Z; ig_input : LocalIntentCreate }.

Record World : Type := mkWorld {
  (** the configured profiles, and whether their caller can stream events *)
  w_routes : gmap string bool;
  w_call : list Interaction -> string -> RequestFrame -> CallOutcome;
  w_stream : list Interaction -> string -> RequestFrame -> StreamOutcome;
  w_now : nat -> Z;
  w_others : nat -> list Ingested
}.

(** ** The dispatcher *)

(** [d_reads] is the process-wide counter of reads, [d_ticks] counts the points
    at which the clock was read or the store was entered, [d_trace] is what was
    said so far. *)
Record RemoteDriver : Type := mkRemoteDriver {
  d_authority : AuthorityStore;
  d_mirror : Mirror;
  d_owner : string;
  d_leaseDuration : Z;
  d_sessionStates : gmap (string * string) SessionState;
  d_runCursor : option RemoteIntentCursor;
  d_submitCursor : option RemoteIntentCursor;
  d_reads : Z;
  d_ticks : nat;
  d_trace : list Interaction
}.

Definition with_store (s : AuthorityStore) (m : Mirror) (ticks : nat) (d : RemoteDriver) : RemoteDriver :=
  mkRemoteDriver s m (d_owner d) (d_leaseDuration d) (d_sessionStates d) (d_runCursor d) (d_submitCursor d) (d_reads d)
    ticks (d_trace d).
Definition with_mirror (m : Mirror) (d : RemoteDriver) : RemoteDriver := with_store (d_authority d) m (d_ticks d) d.
Definition with_sessions (states : gmap (string * string) SessionState) (d : RemoteDriver) : RemoteDriver :=
  mkRemoteDriver (d_authority d) (d_mirror d) (d_owner d) (d_leaseDuration d) states (d_runCursor d) (d_submitCursor d)
    (d_reads d) (d_ticks d) (d_trace d).
Definition with_cursors (run submit : option RemoteIntentCursor) (d : RemoteDriver) : RemoteDriver :=
  mkRemoteDriver (d_authority d) (d_mirror d) (d_owner d) (d_leaseDuration d) (d_sessionStates d) run submit (d_reads d)
    (d_ticks d) (d_trace d).
Definition with_reads (reads : Z) (d : RemoteDriver) : RemoteDriver :=
  mkRemoteDriver (d_authority d) (d_mirror d) (d_owner d) (d_leaseDuration d) (d_sessionStates d) (d_runCursor d)
    (d_submitCursor d) reads (d_ticks d) (d_trace d).
Definition with_said (i : Interaction) (d : RemoteDriver) : RemoteDriver :=
  mkRemoteDriver (d_authority d) (d_mirror d) (d_owner d) (d_leaseDuration d) (d_sessionStates d) (d_runCursor d)
    (d_submitCursor d) (d_reads d) (d_ticks d) (d_trace d ++ [i]).

(** ** Computations of a dispatcher: an error takes back nothing. *)
Definition drv (A : Type) : Type := RemoteDriver -> result A * RemoteDriver.

#[export] Instance drv_ret : MRet drv := fun A a d => (Ok a, d).
#[export] Instance drv_bind : MBind drv := fun A B k m d =>
  match m d with (Ok a, d') => k a d' | (Err e, d') => (Err e, d') end.

Definition dthrow {A} (e : error) : drv A := fun d => (Err e, d).
Definition dlift {A} (r : result A) : drv A := fun d => (r, d).
Definition dfail_if (cond : bool) (e : error) : drv unit := if cond then dthrow e else mret tt.
Definition dget {A} (f : RemoteDriver -> A) : drv A := fun d => (Ok (f d), d).
Definition dmodify (f : RemoteDriver -> RemoteDriver) : drv unit := fun d => (Ok tt, f d).
(** [value, err := m()] *)
Definition attempt {A} (m : drv A) : drv (result A) := fun d => let '(r, d') := m d in (Ok r, d').
Definition map_err {A} (f : error -> error) (m : drv A) : drv A := fun d => let '(r, d') := m d in (result_map_err f r, d').

(** Between two transactions other requests may be recorded. *)
Definition ingest (st : AuthorityStore * Mirror) (i : Ingested) : AuthorityStore * Mirror :=
  snd (AcceptLocalIntent (fst st) (snd st) (ig_now i) (ig_ingress i) (ig_wall i) (ig_input i)).
Definition interfere (w : World) (d : RemoteDriver) : RemoteDriver :=
  let '(s, m) := fold_left ingest (w_others w (d_ticks d)) (d_authority d, d_mirror d) in with_store s m (S (d_ticks d)) d.

Section steps.
Context (w : World).

(** [d.now()] *)
Definition clock : drv Z := fun d => (Ok (w_now w (d_ticks d)), interfere w d).

(** A read of the store, and a transaction that writes; both get the clock of the
    store. *)
Definition store_read {A} (f : Mirror -> Z -> result A) : drv A := fun d =>
  let d' := interfere w d in (f (d_mirror d') (w_now w (d_ticks d)), d').
Definition store_write {A} (f : Mirror -> Z -> result A * Mirror) : drv A := fun d =>
  let d' := interfere w d in
  let '(r, m) := f (d_mirror d') (w_now w (d_ticks d)) in (r, with_mirror m d').

Definition call (profile : string) (frame : RequestFrame) : drv CallOutcome := fun d =>
  let outcome := w_call w (d_trace d) profile frame in (Ok outcome, with_said (Called profile frame outcome) d).
Definition stream (profile : string) (frame : RequestFrame) : drv StreamOutcome := fun d =>
  let outcome := w_stream w (d_trace d) profile frame in (Ok outcome, with_said (Streamed profile frame outcome) d).

(** *** dispatcher/routing.go *)

(** The caller of a profile: whether it can stream. *)
Definition ResolveRemoteCaller (profile : string) : result bool :=
  refuse_if (is_empty (TrimSpace profile)) ErrRemoteRouteUnavailable;;
  from_option Ok (Err ErrRemoteRouteUnavailable) (w_routes w !! profile).

Definition remoteCallerForTarget (target : ExecutionTarget) : result bool :=
  refuse_if (negb (bool_decide (target_kind target = TargetKindRemote)) || is_empty (target_profile target)) ErrRemoteRouteUnavailable;;
  ResolveRemoteCaller (target_profile target).
End steps.

Definition sameRemoteTarget (left right : ExecutionTarget) : bool :=
  bool_decide (target_kind left = TargetKindRemote) && bool_decide (target_kind right = TargetKindRemote)
  && bool_decide (target_profile left = target_profile right).

Definition RemoteUncertaintyWindow : Z := 24 * hour.

(** The routes of a new driver are those of its world; the trace goes on. *)
Definition NewRemoteDriverWithResolverAndClock (authority : AuthorityStore) (mirror : Mirror) (owner : string) (leaseDuration : Z)
    (reads : Z) (ticks : nat) (trace : list Interaction) : result RemoteDriver :=
  refuse_if (is_empty owner || (256 <? go_len owner) || contains_nul owner || (leaseDuration <=? 0)) ErrRemoteDriverConfiguration;;
  Ok (mkRemoteDriver authority mirror owner leaseDuration ∅ None None reads ticks trace).

Definition is_state (intent : LocalIntentRecord) (state : LocalIntentDeliveryState) : bool :=
  bool_decide (lic_DeliveryState (lir_create intent) = state).

(** ** The cache of session states *)
Definition cachedRemoteSessionState (target : ExecutionTarget) (sessionID : string) : drv (option SessionState) :=
  dget (fun d => d_sessionStates d !! (target_profile target, sessionID)).

Definition rememberRemoteSessionState (target : ExecutionTarget) (sessionID : string) (state : SessionState) : drv unit :=
  dmodify (fun d => with_sessions (<[(target_profile target, sessionID) := state]> (d_sessionStates d)) d).

Definition observeRemoteSessionState (intent : LocalIntentRecord) (reply : ReplyFrame) : drv unit :=
  state ← dlift (remoteSessionStateFromResult (rp_Payload reply));
  match state with
  | Some state => rememberRemoteSessionState (lic_Target (lir_create intent)) (lic_SessionID (lir_create intent)) state
  | None => mret tt
  end.

Section remote.
Context (w : World).

Definition transition (id : string) (next : LocalIntentDeliveryState) (reason : string) : drv LocalIntentRecord :=
  store_write w (fun m now => TransitionLocalIntent m now id next reason).
Definition getLocalIntent (id : string) : drv LocalIntentRecord := store_read w (fun m _ => GetLocalIntent m id).
Definition getByResource (operation resourceID : string) (controller : ControllerIdentity) : drv LocalIntentRecord :=
  store_read w (fun m _ => GetLocalIntentByResource m operation resourceID controller).

(** [caller.Call] as a step that fails. *)
Definition callOrFail (e : error) (profile : string) (frame : RequestFrame) : drv ReplyFrame :=
  outcome ← call w profile frame;
  match outcome with Replied reply => mret reply | CallFailed _ => dthrow e end.

(** ** Projections *)
Definition upsertRemoteProjectionFromReply (intent : LocalIntentRecord) (reply : ReplyFrame) : drv unit :=
  let operation := lic_Operation (lir_create intent) in
  if is_op operation operationSubmitCommand || is_op operation operationRun then mret tt
  else if negb (bool_decide (rp_ResponseType reply = "result")) then mret tt
  else
    object ← dlift (from_option Ok (Err ErrRemoteResponse) (payload_object (rp_Payload reply)));
    if is_op operation operationCreateSession || is_op operation operationCloseSession then
      clock w;;
      projection ← dlift (remoteSessionProjectionFromReply intent object);
      match projection with
      | None => mret tt
      | Some p => store_write w (fun m _ => UpsertRemoteSessionProjection m p);; mret tt
      end
    else mret tt.

(** ** Deadlines *)
Definition ensureRemoteRetryWindow (intent : LocalIntentRecord) : drv Z :=
  deadline ← store_read w (fun m _ => LocalIntentIdempotencyExpiry m (lic_IntentID (lir_create intent)));
  deadline ← dlift (from_option Ok (Err ErrRemoteIdempotencyDeadline) deadline);
  now ← clock w;
  dfail_if (negb (now <? deadline)) ErrRemoteIdempotencyDeadline;;
  mret deadline.

(** When the intent last became uncertain. *)
Definition uncertainty_start (lifecycle : list LocalIntentLifecycleRecord) (fallback : Z) : Z :=
  match List.find (fun r => bool_decide (lil_NewState r = LocalIntentUncertain)) (rev lifecycle) with
  | Some r => lil_OccurredAt r
  | None => fallback
  end.

Definition uncertaintyDeadline (intent : LocalIntentRecord) : drv Z :=
  start ← (if is_state intent LocalIntentUncertain then
             lifecycle ← store_read w (fun m _ => ListLocalIntentLifecycle m (lic_IntentID (lir_create intent)));
             mret (uncertainty_start lifecycle (lir_UpdatedAt intent))
           else mret (lir_UpdatedAt intent));
  dfail_if (IsZero start) ErrRemoteNotReconciled;;
  mret (start + RemoteUncertaintyWindow).

(** ** Readiness of a session *)
Definition refreshRemoteSessionState (create : LocalIntentRecord) : drv SessionState :=
  frame ← dlift (readinessFrameForCreateIntent create);
  dlift (remoteCallerForTarget w (lic_Target (lir_create create)));;
  reply ← callOrFail ErrTransport (target_profile (lic_Target (lir_create create))) frame;
  state ← dlift (validateRemoteSessionReadReply create frame reply);
  rememberRemoteSessionState (lic_Target (lir_create create)) (lic_SessionID (lir_create create)) state;;
  mret state.

(** A read that cannot prove readiness is a wait. *)
Definition wait_or_failed (e : error) : error :=
  if errors_is e ErrRemoteSessionCreateFailed then e else ErrRemoteSessionNotReady.

Definition session_ready (state : SessionState) : result unit :=
  if bool_decide (state = SessionStateReady) then Ok tt
  else Err (if SessionState_IsTerminal state then ErrRemoteSessionCreateFailed else ErrRemoteSessionNotReady).

Definition ensureCreatedSessionReady (create intent : LocalIntentRecord) : drv unit :=
  let c := lir_create create in
  dfail_if (is_state create LocalIntentNotDelivered) ErrRemoteSessionCreateFailed;;
  dfail_if (negb (is_state create LocalIntentAccepted || is_state create LocalIntentReconciled)) ErrRemoteSessionNotReady;;
  dfail_if (negb (sameRemoteTarget (lic_Target c) (lic_Target (lir_create intent)))) ErrRemoteSessionCreateFailed;;
  known ← cachedRemoteSessionState (lic_Target c) (lic_SessionID c);
  match known with
  | Some state =>
      dfail_if (SessionState_IsTerminal state) ErrRemoteSessionCreateFailed;;
      if bool_decide (state = SessionStateReady) then mret tt
      else state ← map_err wait_or_failed (refreshRemoteSessionState create); dlift (session_ready state)
  | None => state ← map_err wait_or_failed (refreshRemoteSessionState create); dlift (session_ready state)
  end.

Definition ensureRemoteSubmitReady (intent : LocalIntentRecord) : drv unit :=
  let c := lir_create intent in
  create ← attempt (getByResource operationCreateSession (lic_SessionID c) (lic_Controller c));
  match create with
  | Err e => if errors_is e ErrLocalIntentNotFound then mret tt else dthrow e
  | Ok create => ensureCreatedSessionReady create intent
  end.

Definition markRemoteSubmitNotDelivered {A} (intent : LocalIntentRecord) (reason : string) (cause : error) : drv A :=
  if is_state intent LocalIntentRecorded then
    transition (lic_IntentID (lir_create intent)) LocalIntentNotDelivered reason;; dthrow cause
  else dthrow cause.

(** ** Controls recorded before delivery *)

(** The intent is superseded: it is marked and not sent. *)
Definition supersede (id reason : string) : drv unit :=
  transition id LocalIntentNotDelivered reason;; dthrow ErrRemoteCancelledBeforeDelivery.

(** The intent of a resource, when there is one. *)
Definition findByResource (operation resourceID : string) (controller : ControllerIdentity) : drv (option LocalIntentRecord) :=
  found ← attempt (getByResource operation resourceID controller);
  match found with
  | Ok intent => mret (Some intent)
  | Err e => if errors_is e ErrLocalIntentNotFound then mret None else dthrow e
  end.

Definition activeControl (control : LocalIntentRecord) : bool := negb (is_state control LocalIntentNotDelivered).

(** A control whose predecessor was never sent takes the predecessor with it. *)
Definition guardControl (id : string) (predecessor : option LocalIntentRecord) (predecessorReason reason : string) : drv unit :=
  match predecessor with
  | None => supersede id reason
  | Some p =>
      if is_state p LocalIntentRecorded then
        transition (lic_IntentID (lir_create p)) LocalIntentNotDelivered predecessorReason;; supersede id reason
      else if is_state p LocalIntentNotDelivered then supersede id reason
      else mret tt
  end.

Definition guardRemoteIntentBeforeDelivery (intent : LocalIntentRecord) : drv unit :=
  let c := lir_create intent in
  let id := lic_IntentID c in
  if negb (is_state intent LocalIntentRecorded) then mret tt
  else if is_op (lic_Operation c) operationCreateSession then
    close ← findByResource operationCloseSession (lic_SessionID c) (lic_Controller c);
    if from_option activeControl false close then supersede id "closed_before_dispatch" else mret tt
  else if is_op (lic_Operation c) operationSubmitCommand then
    cancel ← findByResource operationCancelCommand (lic_CommandID c) (lic_Controller c);
    if from_option activeControl false cancel then supersede id "cancelled_before_dispatch"
    else
      close ← findByResource operationCloseSession (lic_SessionID c) (lic_Controller c);
      if from_option activeControl false close then supersede id "closed_before_dispatch" else mret tt
  else if is_op (lic_Operation c) operationCancelCommand then
    submit ← findByResource operationSubmitCommand (lic_CommandID c) (lic_Controller c);
    guardControl id submit "cancelled_before_dispatch" "command_not_delivered"
  else if is_op (lic_Operation c) operationCloseSession then
    create ← findByResource operationCreateSession (lic_SessionID c) (lic_Controller c);
    guardControl id create "closed_before_dispatch" "session_not_delivered"
  else mret tt.

(** ** Delivery *)

(** The checks before a claim. *)
Definition checkDeadlineBeforeDispatch (intent : LocalIntentRecord) : drv unit :=
  if is_state intent LocalIntentRecorded then
    window ← attempt (ensureRemoteRetryWindow intent);
    match window with
    | Ok _ => mret tt
    | Err e =>
        if errors_is e ErrRemoteIdempotencyDeadline then
          transition (lic_IntentID (lir_create intent)) LocalIntentNotDelivered "remote_idempotency_expired_before_dispatch";;
          dthrow e
        else dthrow e
    end
  else mret tt.

Definition checkSubmitReady (intent : LocalIntentRecord) : drv unit :=
  if is_op (lic_Operation (lir_create intent)) operationSubmitCommand then
    ready ← attempt (ensureRemoteSubmitReady intent);
    match ready with
    | Ok _ => mret tt
    | Err e =>
        if errors_is e ErrRemoteSessionCreateFailed
        then markRemoteSubmitNotDelivered intent "remote_session_create_failed" e
        else dthrow e
    end
  else mret tt.

(** The delivery failed with [e]; a transition that fails is only named in its
    text. *)
Definition settle {A} (id : string) (next : LocalIntentDeliveryState) (reason : string) (e : error) : drv A :=
  attempt (transition id next reason);; dthrow e.

(** [if err := m(); err != nil] with the delivery left in doubt. *)
Definition or_uncertain (id : string) (m : drv unit) : drv unit :=
  outcome ← attempt m;
  match outcome with
  | Ok _ => mret tt
  | Err e => settle id LocalIntentUncertain "remote_response_uncertain" e
  end.

(** What the answer to a mutation proves. *)
Definition recordOutcome (intent : LocalIntentRecord) (id : string) (frame : RequestFrame) (outcome : CallOutcome)
    : drv (LocalIntentRecord * ReplyFrame) :=
  match outcome with
  | CallFailed before_send =>
      if before_send then settle id LocalIntentNotDelivered "remote_transport_before_send" ErrTransport
      else settle id LocalIntentUncertain "remote_transport_uncertain" ErrTransport
  | Replied reply =>
      match validateRemoteReply intent frame reply with
      | Err e =>
          if errors_is e ErrRemoteRejected then settle id LocalIntentNotDelivered "remote_rejected" e
          else settle id LocalIntentUncertain "remote_response_uncertain" e
      | Ok _ =>
          (if is_op (lic_Operation (lir_create intent)) operationCreateSession
           then or_uncertain id (observeRemoteSessionState intent reply) else mret tt);;
          or_uncertain id (upsertRemoteProjectionFromReply intent reply);;
          accepted ← transition id LocalIntentAccepted "remote_target_accepted";
          mret (accepted, reply)
      end
  end.

Definition dispatchIntent (id : string) : drv (LocalIntentRecord * ReplyFrame) :=
  intent ← getLocalIntent id;
  let c := lir_create intent in
  dlift (remoteCallerForTarget w (lic_Target c));;
  guardRemoteIntentBeforeDelivery intent;;
  checkDeadlineBeforeDispatch intent;;
  checkSubmitReady intent;;
  frame ← dlift (frameForRemoteIntent intent);
  owner ← dget d_owner;
  leaseDuration ← dget d_leaseDuration;
  claimed ← store_write w (fun m now => ClaimLocalIntent m now (lic_IntentID c) owner leaseDuration);
  outcome ← call w (target_profile (lic_Target c)) frame;
  recordOutcome intent (lic_IntentID (lir_create claimed)) frame outcome.

Definition DispatchIntent (id : string) : drv (LocalIntentRecord * ReplyFrame) :=
  intent ← getLocalIntent id;
  dfail_if (negb (bool_decide (target_kind (lic_Target (lir_create intent)) = TargetKindRemote))) ErrRemotePayload;;
  dfail_if (negb (supportedRemoteOperation (lic_Operation (lir_create intent)))) ErrRemotePayload;;
  dispatchIntent (lic_IntentID (lir_create intent)).

(** Errors after which the next candidate is tried. *)
Definition skips (e : error) : bool :=
  errors_is e ErrRemoteSessionNotReady || errors_is e ErrRemoteSessionCreateFailed || errors_is e ErrRemoteCancelledBeforeDelivery
  || errors_is e ErrRemoteIdempotencyDeadline || errors_is e ErrRemoteRouteUnavailable.

Fixpoint dispatchFirst (candidates : list LocalIntentRecord) : drv (LocalIntentRecord * ReplyFrame) :=
  match candidates with
  | [] => dthrow ErrNoRemoteDispatchWork
  | candidate :: rest =>
      let c := lir_create candidate in
      if negb (bool_decide (target_kind (lic_Target c) = TargetKindRemote)) || negb (supportedRemoteOperation (lic_Operation c))
      then dispatchFirst rest
      else
        outcome ← attempt (dispatchIntent (lic_IntentID c));
        match outcome with
        | Err e => if skips e then dispatchFirst rest else dthrow e
        | Ok delivered => mret delivered
        end
  end.

Definition DispatchNext : drv (LocalIntentRecord * ReplyFrame) :=
  candidates ← store_read w (fun m now => ListEligibleLocalIntents m now 1000);
  dispatchFirst candidates.

(** ** Reconciliation of a delivery in doubt *)
Definition retryRemoteIntent (intent : LocalIntentRecord) : drv (LocalIntentRecord * ReplyFrame) :=
  let c := lir_create intent in
  frame ← dlift (frameForRemoteIntent intent);
  dlift (remoteCallerForTarget w (lic_Target c));;
  reply ← callOrFail ErrRemoteNotReconciled (target_profile (lic_Target c)) frame;
  match validateRemoteReply intent frame reply with
  | Err e =>
      if errors_is e ErrRemoteRejected then
        transition (lic_IntentID c) LocalIntentNotDelivered "remote_retry_rejected";; dthrow e
      else dthrow e
  | Ok _ =>
      (if is_op (lic_Operation c) operationCreateSession then observeRemoteSessionState intent reply else mret tt);;
      upsertRemoteProjectionFromReply intent reply;;
      accepted ← transition (lic_IntentID c) LocalIntentAccepted "remote_target_accepted_after_retry";
      mret (accepted, reply)
  end.

(** The reply is [None] when no host was asked. *)
Definition ReconcileIntent (id : string) : drv (LocalIntentRecord * option ReplyFrame) :=
  intent ← getLocalIntent id;
  let c := lir_create intent in
  if negb (bool_decide (target_kind (lic_Target c) = TargetKindRemote))
     || (negb (is_state intent LocalIntentDispatching) && negb (is_state intent LocalIntentUncertain))
  then mret (intent, None)
  else
    deadline ← uncertaintyDeadline intent;
    now ← clock w;
    dfail_if (negb (now <? deadline)) ErrRemoteUncertaintyDeadline;;
    frame ← dlift (readFrameForRemoteIntent intent);
    dlift (remoteCallerForTarget w (lic_Target c));;
    reply ← callOrFail ErrRemoteNotReconciled (target_profile (lic_Target c)) frame;
    outcome ← dlift (reconcileRemoteReply intent frame reply);
    match outcome with
    | reconcileAccepted =>
        upsertRemoteProjectionFromReply intent reply;;
        (if is_op (lic_Operation c) operationCreateSession then observeRemoteSessionState intent reply else mret tt);;
        accepted ← transition (lic_IntentID c) LocalIntentAccepted "remote_reconciled_target_found";
        mret (accepted, Some reply)
    | reconcileNotDelivered =>
        ensureRemoteRetryWindow intent;;
        delivered ← retryRemoteIntent intent;
        mret (fst delivered, Some (snd delivered))
    end.

(** ** Health probes *)
Definition probe_request_id (profile : string) (sequence : Z) : string :=
  ("router-health-" ++ profile ++ "-" ++ string_of (print_int sequence))%string.

(** [probes] is the process-wide counter of probes. *)
Definition ProbeProfile (probes : Z) (profile : string) : drv unit :=
  dlift (ResolveRemoteCaller w profile);;
  let requestID := probe_request_id profile (probes + 1) in
  reply ← callOrFail ErrRemoteResponse profile (read_frame requestID OperationPing (JObject []));
  dfail_if (negb (rp_ProtocolVersion reply =? ProtocolVersion) || negb (bool_decide (rp_RequestID reply = requestID))
            || negb (bool_decide (rp_ResponseType reply = "result"))) ErrRemoteResponse;;
  payload ← dlift (from_option Ok (Err ErrRemoteResponse) (payload_object (rp_Payload reply)));
  dfail_if (negb (is_nil payload)) ErrRemoteResponse.
End remote.
