(* ===== verification/Reconciliation.v ===== *)
(** * The remote dispatcher: events and results

    Models [src/src/internal/dispatcher/events.go], [jobs.go], [sessions.go] and
    [reconciliation.go]: events of a command are mirrored behind the durable
    cursor, projections are written from strict reads only, and an accepted
    intent is settled when the strict projection of its command and the retained
    events agree on how it ended. *)
From Stdlib Require Import String.
From S2P Require Import Prelude GoStrings Identity Lifecycle Policy JsonText Canonical RunPayload LaneAdmission Db Commands.
From S2P Require Import RemoteDb RemoteProjections RemoteEvents RemoteUpserts LocalIntents LocalIntentOps.
From S2P Require Import BridgeJson RemoteReplies RemoteReads Dispatcher.

Definition int_text (n : Z) : string := string_of (print_int n).

Definition remote_command_intent (intent : LocalIntentRecord) : bool :=
  bool_decide (target_kind (lic_Target (lir_create intent)) = TargetKindRemote)
  && (is_op (lic_Operation (lir_create intent)) operationSubmitCommand || is_op (lic_Operation (lir_create intent)) operationRun).

Definition accepted_or_reconciled (intent : LocalIntentRecord) : bool :=
  is_state intent LocalIntentAccepted || is_state intent LocalIntentReconciled.

(** ** jobs.go: what a job or a command says *)
Definition remoteRunTerminalTeardownUnconfirmed (job : RemoteJobProjection) : bool :=
  match jp_CommandState job, jp_Phase job with
  | None, (JobPhaseFailed | JobPhaseLost) => true
  | None, _ => false
  | Some _, JobPhaseComplete => negb (bool_decide (jp_TeardownState job = JobTeardownClosed))
  | Some _, JobPhaseLost => negb (bool_decide (jp_TeardownState job = JobTeardownLost))
  | Some _, _ => false
  end.

Definition terminalRemoteJob (job : RemoteJobProjection) : bool :=
  match jp_CommandState job, jp_Phase job with
  | Some _, JobPhaseComplete => bool_decide (jp_TeardownState job = JobTeardownClosed)
  | Some _, JobPhaseLost => bool_decide (jp_TeardownState job = JobTeardownLost)
  | _, _ => false
  end.

Definition validateTerminalRunSnapshot (job : RemoteJobProjection) (command : RemoteCommandProjection) : result unit :=
  refuse_if (jp_IsStale job || cp_IsStale command || negb (CommandState_IsTerminal (cp_State command))
             || negb (bool_decide (jp_CommandState job = Some (cp_State command)))
             || negb (bool_decide (jp_SessionID job = cp_SessionID command)) || negb (bool_decide (jp_Target job = cp_Target command))
             || negb (bool_decide (jp_Controller job = cp_Controller command))
             || negb (bool_decide (jp_Environment job = cp_Environment command))
             || negb (bool_decide (jp_Source job = cp_Source command)) || negb (bool_decide (jp_ExitCode job = cp_ExitCode command))
             || negb (bool_decide (jp_FinalEventSequence job = cp_FinalEventSequence command))
             || negb (Bool.eqb (jp_OutputComplete job) (cp_OutputComplete command))
             || negb (Bool.eqb (jp_OutputTruncated job) (cp_OutputTruncated command))
             || negb (bool_decide (jp_OutputUnavailableReason job = cp_OutputUnavailableReason command))) ErrRemoteResponse.

Definition remoteRunStatusFailure (e : error) : bool :=
  existsb (errors_is e) [ErrRemoteResponse; ErrRemoteEventCallerUnavailable; ErrRemoteEventStream; ErrRemoteEventHistoryUnavailable;
    ErrRemoteEventCursor; ErrRemoteTerminalUnconfirmed; ErrRemoteEventBatch; ErrRemoteProjectionInvalid; ErrRemoteProjectionConflict].

(** The terminal boundary, on one view of the mirror; [final] is positive. *)
Definition terminal_prefix (cursor final : Z) (lifecycle : RemoteEventLifecycle) (command : RemoteCommandProjection) : bool :=
  (cursor =? final) && bool_decide (lc_TerminalState lifecycle = Some (cp_State command))
  && Bool.eqb (lc_OutputTruncated lifecycle) (cp_OutputTruncated command).

Definition keeps_truncation (lifecycle : RemoteEventLifecycle) (command : RemoteCommandProjection) : bool :=
  negb (lc_OutputTruncated lifecycle) || cp_OutputTruncated command.

Definition retention_boundary (cursor final : Z) (lifecycle : RemoteEventLifecycle) (command : RemoteCommandProjection) : bool :=
  negb (cp_OutputComplete command)
  && match lc_TerminalState lifecycle with
     | None => (cursor <? final) && keeps_truncation lifecycle command
     | Some _ => terminal_prefix cursor final lifecycle command
     end.

Definition gap_boundary (cursor final : Z) (command : RemoteCommandProjection) (gap : RemoteEventGapRecord) : bool :=
  (gap_FinalSequence gap =? final) && (gap_AvailableSequence gap =? cursor)
  && bool_decide (gap_TerminalState gap = cp_State command) && (gap_MissingFrom gap =? cursor + 1)
  && (gap_MissingTo gap =? final) && (cursor <? final).

(** ** reconciliation.go *)
Record RemoteReconciliationIssue : Type := mkRemoteReconciliationIssue {
  ri_Operation : string;
  ri_IntentID : string;
  ri_JobID : string;
  ri_SessionID : string;
  ri_CommandID : string;
  ri_TargetProfile : string;
  ri_ControllerType : ControllerType;
  ri_ControllerID : string;
  ri_FailureClass : string;
  ri_RetryCount : Z;
  ri_cause : error
}.

Definition remoteReconciliationIssue (intent : LocalIntentRecord) (operation failureClass : string) (retryCount : Z) (cause : error)
    : RemoteReconciliationIssue :=
  let c := lir_create intent in
  mkRemoteReconciliationIssue operation (lic_IntentID c) (lic_JobID c) (lic_SessionID c) (lic_CommandID c)
    (target_profile (lic_Target c)) (controller_typeName (lic_Controller c)) (controller_id (lic_Controller c)) failureClass
    (Z.max 0 retryCount) cause.

Definition remoteReconciliationFailureClass (e : error) : string :=
  if errors_is e ErrRemoteRouteUnavailable then "remote_route_unavailable"
  else if errors_is e ErrRemoteEventCallerUnavailable then "remote_event_unavailable"
  else if errors_is e ErrRemoteEventHistoryUnavailable then "remote_event_history_unavailable"
  else if errors_is e ErrRemoteEventCursor then "remote_event_cursor_invalid"
  else if errors_is e ErrRemoteTerminalUnconfirmed then "remote_terminal_unconfirmed"
  else if errors_is e ErrRemoteResponse || errors_is e ErrRemoteEventStream then "remote_status_unavailable"
  else if errors_is e ErrRemoteProjectionInvalid || errors_is e ErrRemoteProjectionConflict then "remote_projection_invalid"
  else "remote_reconciliation_failed".

(** How the reconciliation of one intent failed: with an error, or with an issue
    that was made of one. *)
Inductive ReconcileFailure : Type :=
  | FailedWith (e : error)
  | FailedIssue (issue : RemoteReconciliationIssue).

Definition remoteReconciliationIssueFor (intent : LocalIntentRecord) (operation : string) (failure : ReconcileFailure)
    : RemoteReconciliationIssue :=
  match failure with
  | FailedIssue issue => issue
  | FailedWith e => remoteReconciliationIssue intent operation (remoteReconciliationFailureClass e) 0 e
  end.

(** ** The frames of an event stream *)
Record Streaming : Type := mkStreaming {
  sm_last : Z;
  sm_mirrored : Z;
  sm_duplicates : Z;
  sm_sawEnd : bool;
  sm_sawTerminal : bool
}.

(** A stream stops with the history reported as unavailable behind [available],
    or with another error. *)
Inductive StreamFailure : Type :=
  | GapReported (available : Z)
  | StreamError (e : error).

Section reconcile.
Context (w : World).

(** The callback that receives one frame. *)
Definition receiveFrame (commandID requestID : string) (s : Streaming) (reply : ReplyFrame) : drv (StreamFailure + Streaming) :=
  let stop e : drv (StreamFailure + Streaming) := mret (inl (StreamError e)) in
  if negb (rp_ProtocolVersion reply =? ProtocolVersion) || negb (bool_decide (rp_RequestID reply = requestID)) then stop ErrRemoteEventStream
  else if sm_sawEnd s then stop ErrRemoteEventStream
  else if bool_decide (rp_ResponseType reply = "event") then
    if sm_sawTerminal s then stop ErrRemoteEventStream
    else match decodeRemoteEventReply commandID (rp_Payload reply) with
         | Err e => stop e
         | Ok event =>
             mirrored ← attempt (store_write w (fun m now => MirrorRemoteEvents m now [event]));
             match mirrored with
             | Err e => stop e
             | Ok r => mret (inr (mkStreaming (mr_LastSequence r) (sm_mirrored s + mr_Mirrored r) (sm_duplicates s + mr_Duplicates r)
                                    false (isRemoteTerminalEvent (ev_Type event))))
             end
         end
  else if bool_decide (rp_ResponseType reply = "stream_end") then
    if bool_decide (decodeRemoteStreamEnd (rp_Payload reply) = Some (sm_last s))
    then mret (inr (mkStreaming (sm_last s) (sm_mirrored s) (sm_duplicates s) true (sm_sawTerminal s)))
    else stop ErrRemoteEventCursor
  else if bool_decide (rp_ResponseType reply = "error") then
    if sm_sawTerminal s then stop ErrRemoteEventStream
    else match decodeErrorPayload false (rp_Payload reply) with
         | None => stop ErrRemoteEventStream
         | Some payload =>
             if bool_decide (ep_Code payload = "event_history_unavailable") then
               match remoteGapAvailableSequence (ep_Details payload) with
               | Some available => mret (inl (GapReported available))
               | None => stop ErrRemoteEventHistoryUnavailable
               end
             else stop ErrRemoteEventStream
         end
  else stop ErrRemoteEventStream.

Fixpoint receiveFrames (commandID requestID : string) (s : Streaming) (frames : list ReplyFrame)
    : drv (Streaming * option StreamFailure) :=
  match frames with
  | [] => mret (s, None)
  | reply :: rest =>
      step ← receiveFrame commandID requestID s reply;
      match step with
      | inl failure => mret (s, Some failure)
      | inr s' => receiveFrames commandID requestID s' rest
      end
  end.

(** ** Strict reads *)
Definition next_read : drv Z :=
  sequence ← dget d_reads;
  dmodify (with_reads (sequence + 1));;
  mret (sequence + 1).

Definition readRemoteProjectionObject (intent : LocalIntentRecord) (request : RequestFrame) : drv (list (string * json)) :=
  let target := lic_Target (lir_create intent) in
  dlift (remoteCallerForTarget w target);;
  reply ← callOrFail w ErrRemoteResponse (target_profile target) request;
  dfail_if (other_reply request reply) ErrRemoteResponse;;
  dfail_if (negb (bool_decide (rp_ResponseType reply = "result"))) ErrRemoteResponse;;
  dlift (from_option Ok (Err ErrRemoteResponse) (payload_object (rp_Payload reply))).

Definition command_read (requestID commandID : string) : RequestFrame :=
  read_frame requestID OperationGetCommand (JObject [("command_id", JString commandID)]).

Definition refreshCommandProjectionForIntent (intent : LocalIntentRecord) : drv RemoteCommandProjection :=
  let c := lir_create intent in
  dfail_if (negb (remote_command_intent intent) || negb (accepted_or_reconciled intent) || is_empty (lic_CommandID c)
            || is_empty (lic_SessionID c)) ErrRemoteResponse;;
  commandID ← dlift (NewCommandID (lic_CommandID c));
  sequence ← next_read;
  object ← readRemoteProjectionObject intent (command_read ("command-state/" ++ commandID ++ "/" ++ int_text sequence) commandID);
  clock w;;
  projection ← dlift (strictRemoteCommandProjectionFromReadReply intent object);
  stored ← store_write w (fun m _ => UpsertRemoteCommandProjection m projection);
  dfail_if (cp_IsStale stored || (cp_ObservedAt projection <? cp_ObservedAt stored)) ErrRemoteResponse;;
  mret stored.

Definition RefreshCommandProjection (commandID : string) (controller : ControllerIdentity) : drv RemoteCommandProjection :=
  validated ← dlift (NewCommandID commandID);
  intent ← getByResource w operationSubmitCommand validated controller;
  refreshCommandProjectionForIntent intent.

Definition refreshJobProjectionForIntent (intent : LocalIntentRecord) : drv RemoteJobProjection :=
  let c := lir_create intent in
  dfail_if (negb (is_op (lic_Operation c) operationRun) || negb (bool_decide (target_kind (lic_Target c) = TargetKindRemote))
            || is_empty (lic_JobID c) || is_empty (lic_SessionID c) || is_empty (lic_CommandID c)
            || negb (accepted_or_reconciled intent)) ErrRemoteResponse;;
  sequence ← next_read;
  object ← readRemoteProjectionObject intent
    (read_frame ("job-state/" ++ lic_JobID c ++ "/" ++ int_text sequence) OperationGetJob (JObject [("job_id", JString (lic_JobID c))]));
  clock w;;
  projection ← dlift (strictRemoteJobProjectionFromReadReply intent object);
  stored ← store_write w (fun m _ => UpsertRemoteJobProjection m projection);
  dfail_if (jp_IsStale stored || (jp_ObservedAt projection <? jp_ObservedAt stored)) ErrRemoteResponse;;
  mret stored.

Definition RefreshJobProjection (jobID : string) (controller : ControllerIdentity) : drv RemoteJobProjection :=
  validated ← dlift (NewJobID jobID);
  intent ← getByResource w operationRun validated controller;
  refreshJobProjectionForIntent intent.

(** *** sessions.go *)
Definition refreshed_session (state : SessionState) (source : Source * string) (observedAt : Z) (runtimeGeneration : option string)
    (p : RemoteSessionProjection) : RemoteSessionProjection :=
  mkRemoteSessionProjection (sp_SessionID p) (sp_Target p) (sp_Controller p) state (sp_Environment p) (fst source)
    (if is_empty (snd source) then sp_ResolvedRevision p else snd source) (default (sp_RuntimeGeneration p) runtimeGeneration)
    (sp_Capabilities p) observedAt false.

Definition RefreshSessionProjection (sessionID : string) (controller : ControllerIdentity) : drv RemoteSessionProjection :=
  validated ← dlift (NewSessionID sessionID);
  intent ← getByResource w operationCreateSession validated controller;
  let c := lir_create intent in
  dfail_if (negb (bool_decide (target_kind (lic_Target c) = TargetKindRemote)) || negb (accepted_or_reconciled intent)) ErrRemoteResponse;;
  projection ← store_read w (fun m _ => GetRemoteSessionProjection m validated);
  request ← dlift (readinessFrameForCreateIntent intent);
  dlift (remoteCallerForTarget w (lic_Target c));;
  reply ← callOrFail w ErrRemoteResponse (target_profile (lic_Target c)) request;
  state ← dlift (validateRemoteSessionReadReply intent request reply);
  object ← dlift (from_option Ok (Err ErrRemoteResponse) (payload_object (rp_Payload reply)));
  expected ← dlift (queuedRemoteController (lic_Controller c));
  dlift (projectionController object expected);;
  dfail_if (negb (is_Some_b (member object "controller"))) ErrRemoteResponse;;
  source ← dlift (require_present (projectionSource object (sp_Source projection)));
  clock w;;
  observedAt ← dlift (require_present (projectionObservedAt object));
  runtimeGeneration ← dlift (readProjectionString object "runtime_generation");
  store_write w (fun m _ => UpsertRemoteSessionProjection m (refreshed_session state source observedAt runtimeGeneration projection));;
  store_read w (fun m _ => GetRemoteSessionProjection m validated).

(** ** Gaps *)
Definition validateRemoteEventGapPrefix (commandID : string) (available : Z) (projection : RemoteCommandProjection) : drv unit :=
  cursor ← store_read w (fun m _ => GetRemoteEventCursor m commandID);
  dfail_if (negb (cursor =? available)) ErrRemoteEventCursor;;
  events ← store_read w (fun m _ => ListRemoteEvents m commandID 0);
  dfail_if (negb (Z.of_nat (length events) =? cursor)
            || ((0 <? cursor) && negb (bool_decide (last_sequence events = Some cursor)))) ErrRemoteEventCursor;;
  lifecycle ← dlift (InspectRemoteEventLifecycle events);
  dfail_if (is_Some_b (lc_TerminalState lifecycle)) ErrRemoteEventCursor;;
  dfail_if (lc_OutputTruncated lifecycle && negb (cp_OutputTruncated projection)) ErrRemoteTerminalUnconfirmed.

Definition confirmRemoteTerminal (commandID : string) (controller : ControllerIdentity) (available : Z) (intent : LocalIntentRecord)
    : drv RemoteEventGapRecord :=
  let c := lir_create intent in
  let unconfirmed {A} (m : drv A) : drv A := map_err (fun _ => ErrRemoteTerminalUnconfirmed) m in
  dfail_if (negb (remote_command_intent intent) || negb (bool_decide (lic_CommandID c = commandID)) || is_empty (lic_SessionID c)
            || negb (bool_decide (lic_Controller c = controller))) ErrRemoteTerminalUnconfirmed;;
  object ← unconfirmed (readRemoteProjectionObject intent (command_read ("terminal/" ++ commandID ++ "/" ++ int_text available) commandID));
  clock w;;
  projection ← dlift (result_map_err (fun _ => ErrRemoteTerminalUnconfirmed) (strictRemoteCommandProjectionFromReadReply intent object));
  dfail_if (negb (CommandState_IsTerminal (cp_State projection)) || (default 0 (cp_FinalEventSequence projection) <=? available)
            || negb (is_Some_b (cp_FinalEventSequence projection))) ErrRemoteTerminalUnconfirmed;;
  unconfirmed (validateRemoteEventGapPrefix commandID available projection);;
  stored ← unconfirmed (store_write w (fun m _ => UpsertRemoteCommandProjection m projection));
  dfail_if (cp_IsStale stored || (cp_ObservedAt projection <? cp_ObservedAt stored)) ErrRemoteTerminalUnconfirmed;;
  now ← clock w;
  let final := default 0 (cp_FinalEventSequence stored) in
  mret (mkRemoteEventGapRecord commandID (available + 1) final available final (cp_State stored) false remote_event_gap now).

Definition markTerminalProof (id reason : string) : drv LocalIntentRecord :=
  store_write w (fun m now => MarkRemoteIntentTerminalProof m now id reason).

Definition reconcileIntentAfterRemoteGap (commandID : string) (controller : ControllerIdentity) : drv unit :=
  found ← findByResource w operationSubmitCommand commandID controller;
  match found with
  | None => mret tt
  | Some intent =>
      let id := lic_IntentID (lir_create intent) in
      let proof := "remote_terminal_confirmed_event_gap" in
      match lic_DeliveryState (lir_create intent) with
      | LocalIntentAccepted => markTerminalProof id proof;; mret tt
      | LocalIntentUncertain =>
          accepted ← transition w id LocalIntentAccepted "remote_terminal_confirmed";
          markTerminalProof (lic_IntentID (lir_create accepted)) proof;; mret tt
      | LocalIntentReconciled => if HasRemoteTerminalProof intent then mret tt else markTerminalProof id proof;; mret tt
      | LocalIntentNotDelivered => mret tt
      | _ => dthrow ErrRemoteTerminalUnconfirmed
      end
  end.

(** ** Mirroring the events of a command *)
Definition settleRemoteGap (commandID : string) (controller : ControllerIdentity) (last available : Z) (intent : LocalIntentRecord)
    : drv RemoteEventGapRecord :=
  dfail_if (negb (available =? last)) ErrRemoteEventCursor;;
  gap ← map_err (Errs ErrRemoteEventHistoryUnavailable) (confirmRemoteTerminal commandID controller last intent);
  confirmed ← store_write w (fun m _ => RecordRemoteEventGap m gap);
  reconcileIntentAfterRemoteGap commandID controller;;
  mret confirmed.

(** A failed mirror leaves the last projection, marked stale. *)
Definition mark_command_stale (commandID : string) : drv unit :=
  marked ← attempt (store_write w (fun m _ => MarkRemoteCommandProjectionStale m commandID));
  match marked with
  | Err e => if errors_is e ErrRemoteProjectionNotFound then mret tt else dthrow e
  | Ok _ => mret tt
  end.

Definition events_frame (commandID : string) (after : Z) : RequestFrame :=
  read_frame ("events/" ++ commandID ++ "/" ++ int_text after) OperationStreamCommandEvents
    (JObject [("after_sequence", JNumber (int_text after)); ("command_id", JString commandID)]).

Definition mirrorCommandEvents (commandID : string) (controller : ControllerIdentity) (intent : LocalIntentRecord)
    : drv (RemoteEventMirrorResult * option RemoteEventGapRecord) :=
  let target := lic_Target (lir_create intent) in
  streams ← dlift (remoteCallerForTarget w target);
  dfail_if (negb streams) ErrRemoteEventCallerUnavailable;;
  after ← store_read w (fun m _ => GetRemoteEventCursor m commandID);
  let request := events_frame commandID after in
  outcome ← stream w (target_profile target) request;
  received ← receiveFrames commandID (rq_RequestID request) (mkStreaming after 0 0 false false) (so_frames outcome);
  let '(s, failure) := received in
  let failure := match failure with
                 | Some failure => Some failure
                 | None => if so_failed outcome then Some (StreamError ErrTransport)
                           else if negb (sm_sawEnd s) then Some (StreamError ErrRemoteEventStream) else None
                 end in
  let result := mkRemoteEventMirrorResult commandID (sm_last s) (sm_mirrored s) (sm_duplicates s) in
  match failure with
  | None => mret (result, None)
  | Some failure =>
      mark_command_stale commandID;;
      match failure with
      | StreamError e => dthrow e
      | GapReported available =>
          gap ← settleRemoteGap commandID controller (sm_last s) available intent;
          mret (result, Some gap)
      end
  end.

Definition mirrorCommandEventsForIntent (intent : LocalIntentRecord) : drv (RemoteEventMirrorResult * option RemoteEventGapRecord) :=
  let c := lir_create intent in
  dfail_if (negb (remote_command_intent intent) || is_empty (lic_CommandID c)) ErrRemoteEventStream;;
  commandID ← dlift (NewCommandID (lic_CommandID c));
  mirrorCommandEvents commandID (lic_Controller c) intent.

Definition MirrorCommandEvents (commandID : string) (controller : ControllerIdentity)
    : drv (RemoteEventMirrorResult * option RemoteEventGapRecord) :=
  validated ← dlift (NewCommandID commandID);
  dfail_if (bool_decide (controller_typeName controller = ControllerTypeOther "") || is_empty (controller_id controller)) ErrRemoteEventStream;;
  found ← attempt (store_read w (fun m _ => GetLocalIntentByCommand m validated controller));
  match found with
  | Err e => dthrow (if errors_is e ErrLocalIntentNotFound then ErrRemoteEventStream else e)
  | Ok intent => mirrorCommandEventsForIntent intent
  end.

(** ** Settling accepted intents *)
Definition requireTerminalCommandEventBoundary (command : RemoteCommandProjection) : drv unit :=
  dfail_if (final_missing (cp_FinalEventSequence command)) ErrRemoteResponse;;
  let final := default 0 (cp_FinalEventSequence command) in
  prefix ← store_read w (fun m _ => InspectRemoteEventPrefix m (cp_CommandID command));
  let cursor := px_Cursor prefix in
  let lifecycle := px_Lifecycle prefix in
  if bool_decide (cp_OutputUnavailableReason command = "retention_expired") then
    dfail_if (negb (retention_boundary cursor final lifecycle command)) ErrRemoteResponse
  else if bool_decide (cp_OutputUnavailableReason command = remote_event_gap) then
    dfail_if (cp_OutputComplete command || is_Some_b (lc_TerminalState lifecycle) || negb (keeps_truncation lifecycle command))
      ErrRemoteResponse;;
    gap ← store_read w (fun m _ => GetRemoteEventGap m (cp_CommandID command));
    dfail_if (negb (gap_boundary cursor final command gap)) ErrRemoteResponse
  else dfail_if (negb (terminal_prefix cursor final lifecycle command)) ErrRemoteResponse.

Definition transitionAcceptedIntentReconciled (intent : LocalIntentRecord) (reason : string) : drv unit :=
  let id := lic_IntentID (lir_create intent) in
  marked ← attempt (markTerminalProof id reason);
  match marked with
  | Ok _ => mret tt
  | Err e =>
      current ← attempt (getLocalIntent w id);
      match current with
      | Ok current => if HasRemoteTerminalProof current then mret tt else dthrow e
      | Err _ => dthrow e
      end
  end.

(** Whether a gap is on record; [None] is [ErrRemoteGapNotFound]. *)
Definition recordedGap (commandID : string) : drv (option RemoteEventGapRecord) :=
  found ← attempt (store_read w (fun m _ => GetRemoteEventGap m commandID));
  match found with
  | Ok gap => mret (Some gap)
  | Err e => if errors_is e ErrRemoteGapNotFound then mret None else dthrow e
  end.

Definition must_mirror (gap : option RemoteEventGapRecord) (command : RemoteCommandProjection) : bool :=
  negb (is_Some_b gap) && negb (bool_decide (cp_OutputUnavailableReason command = "retention_expired")).

Definition reconcileAcceptedRemoteSubmit (intent : LocalIntentRecord) : drv unit :=
  command ← refreshCommandProjectionForIntent intent;
  gap ← recordedGap (cp_CommandID command);
  (if must_mirror gap command then mirrorCommandEventsForIntent intent;; mret tt else mret tt);;
  command ← refreshCommandProjectionForIntent intent;
  if negb (CommandState_IsTerminal (cp_State command)) then mret tt
  else
    requireTerminalCommandEventBoundary command;;
    transitionAcceptedIntentReconciled intent "remote_terminal_command_reconciled".

Definition reconcileAcceptedRun (intent : LocalIntentRecord) : drv unit :=
  job ← refreshJobProjectionForIntent intent;
  if provenPreSessionTerminalRemoteJob job then transitionAcceptedIntentReconciled intent "remote_pre_session_failure_reconciled"
  else
    dfail_if (remoteRunTerminalTeardownUnconfirmed job) ErrRemoteResponse;;
    if negb (terminalRemoteJob job) then mret tt
    else
      command ← refreshCommandProjectionForIntent intent;
      gap ← recordedGap (cp_CommandID command);
      command ← (if must_mirror gap command then
                   mirror ← mirrorCommandEventsForIntent intent;
                   match snd mirror with
                   | Some _ => refreshCommandProjectionForIntent intent
                   | None => mret command
                   end
                 else mret command);
      job ← refreshJobProjectionForIntent intent;
      dfail_if (remoteRunTerminalTeardownUnconfirmed job) ErrRemoteResponse;;
      if negb (terminalRemoteJob job) then mret tt
      else
        dlift (validateTerminalRunSnapshot job command);;
        requireTerminalCommandEventBoundary command;;
        transitionAcceptedIntentReconciled intent "remote_terminal_run_reconciled".

(** An accepted intent, or one reconciled before terminal proofs were kept. *)
Definition awaits_proof (intent : LocalIntentRecord) : bool :=
  is_state intent LocalIntentAccepted || (is_state intent LocalIntentReconciled && negb (HasRemoteTerminalProof intent)).

Definition ReconcileAcceptedRemoteSubmit (id : string) : drv unit :=
  intent ← getLocalIntent w id;
  dfail_if (negb (is_op (lic_Operation (lir_create intent)) operationSubmitCommand)
            || negb (bool_decide (target_kind (lic_Target (lir_create intent)) = TargetKindRemote))) ErrRemoteResponse;;
  if negb (awaits_proof intent) then mret tt else reconcileAcceptedRemoteSubmit intent.

(** The diagnostic window after the first failed status read. *)
Definition status_window_elapsed (intent : LocalIntentRecord) : drv bool :=
  match lir_RemoteStatusFailureAt intent with
  | Some at_ => if is_state intent LocalIntentAccepted then now ← clock w; mret (negb (now <? at_ + RemoteUncertaintyWindow)) else mret false
  | None => mret false
  end.

Definition ReconcileAcceptedRun (id : string) : drv (option ReconcileFailure) :=
  read ← attempt (getLocalIntent w id);
  match read with
  | Err e => mret (Some (FailedWith e))
  | Ok intent =>
      let c := lir_create intent in
      if negb (is_op (lic_Operation c) operationRun) || negb (bool_decide (target_kind (lic_Target c) = TargetKindRemote))
      then mret (Some (FailedWith ErrRemoteResponse))
      else if negb (awaits_proof intent) then mret None
      else
        elapsed ← status_window_elapsed intent;
        if (elapsed : bool) then mret None
        else
          outcome ← attempt (reconcileAcceptedRun intent);
          match outcome with
          | Err e =>
              if remoteRunStatusFailure e then
                marked ← attempt (store_write w (fun m now =>
                  MarkAcceptedRemoteRunStatusFailure m now (lic_IntentID c) RemoteStatusFailureCodeUnavailable));
                match marked with
                | Err e' => mret (Some (FailedWith (Errs e e')))
                | Ok marked => mret (Some (FailedIssue (remoteReconciliationIssue intent operationRun
                                 RemoteStatusFailureCodeUnavailable (lir_RemoteStatusFailureAttempts marked) e)))
                end
              else mret (Some (FailedWith e))
          | Ok _ =>
              current ← attempt (getLocalIntent w (lic_IntentID c));
              match current with
              | Err e => mret (Some (FailedWith e))
              | Ok current =>
                  if is_state current LocalIntentAccepted && is_Some_b (lir_RemoteStatusFailureAt current) then
                    cleared ← attempt (store_write w (fun m _ => ClearAcceptedRemoteRunStatusFailure m (lic_IntentID (lir_create current))));
                    match cleared with Err e => mret (Some (FailedWith e)) | Ok _ => mret None end
                  else mret None
              end
          end
  end.

(** ** Sweeps *)
Definition cursor_after (intents : list LocalIntentRecord) : option RemoteIntentCursor :=
  (fun intent => mkRemoteIntentCursor (lir_CreatedAt intent) (lic_IntentID (lir_create intent))) <$> last intents.

(** One page behind [cursor]; at the end a new sweep starts. *)
Definition next_page (list_after : Mirror -> Z -> option RemoteIntentCursor -> result (list LocalIntentRecord))
    (cursor : drv (option RemoteIntentCursor)) (set_cursor : option RemoteIntentCursor -> drv unit) (limit : Z)
    : drv (list LocalIntentRecord) :=
  at_ ← cursor;
  intents ← store_read w (fun m _ => list_after m limit at_);
  intents ← (if is_nil intents && is_Some_b at_ then
               set_cursor None;; store_read w (fun m _ => list_after m limit None)
             else mret intents);
  (if is_nil intents then mret tt else set_cursor (cursor_after intents));;
  mret intents.

Definition nextAcceptedRemoteRunPage (limit : Z) : drv (list LocalIntentRecord) :=
  next_page ListAcceptedRemoteRunIntentsAfter (dget d_runCursor) (fun c => dmodify (fun d => with_cursors c (d_submitCursor d) d)) limit.
Definition nextAcceptedRemoteSubmitPage (limit : Z) : drv (list LocalIntentRecord) :=
  next_page ListAcceptedRemoteSubmitIntentsAfter (dget d_submitCursor) (fun c => dmodify (fun d => with_cursors (d_runCursor d) c d)) limit.

Fixpoint reconcileRuns (intents : list LocalIntentRecord) : drv (list RemoteReconciliationIssue) :=
  match intents with
  | [] => mret []
  | intent :: rest =>
      failure ← ReconcileAcceptedRun (lic_IntentID (lir_create intent));
      issues ← reconcileRuns rest;
      mret (from_option (fun i => [i]) [] (remoteReconciliationIssueFor intent operationRun <$> failure) ++ issues)
  end.

Fixpoint reconcileSubmits (intents : list LocalIntentRecord) : drv (list RemoteReconciliationIssue) :=
  match intents with
  | [] => mret []
  | intent :: rest =>
      outcome ← attempt (ReconcileAcceptedRemoteSubmit (lic_IntentID (lir_create intent)));
      issues ← reconcileSubmits rest;
      mret (match outcome with
            | Ok _ => issues
            | Err e => remoteReconciliationIssueFor intent operationSubmitCommand (FailedWith e) :: issues
            end)
  end.

(** The issues are those [errors.Join] would join. *)
Definition ReconcileAcceptedRemoteRuns (limit : Z) : drv (list RemoteReconciliationIssue) :=
  intents ← nextAcceptedRemoteRunPage limit;
  reconcileRuns intents.
Definition ReconcileAcceptedRemoteSubmits (limit : Z) : drv (list RemoteReconciliationIssue) :=
  intents ← nextAcceptedRemoteSubmitPage limit;
  reconcileSubmits intents.
End reconcile.
