(* ===== verification/IntentSteps.v ===== *)
(** * The life of a local intent

    The operations of [LocalIntentOps] as steps of an abstract system: an
    idempotency binding expires, an intent is recorded with its binding, an
    intent moves to its next delivery state with a row of its lifecycle, a lease
    is renewed, a status failure is noted or cleared. *)
From stdpp Require Import relations.
From S2P Require Import Prelude GoStrings Sha256 Identity Lifecycle Policy JsonText Canonical.
From S2P Require Import RunPayload LaneAdmission AuditRecords Db AuditStore AdmissionStore Idempotency Sessions.
From S2P Require Import Listings RemoteDb RemoteProjections RemoteEvents RemoteUpserts LocalIntents Commands.
From S2P Require Import LocalIntentOps.

(** ** What never changes of an intent *)
Definition request_of (r : IntentRow) :=
  (li_operation r, li_resource_id r, li_session_id r, li_command_id r, li_job_id r, li_target r, li_environment r,
   li_controller r, li_source r, (li_request_hash_version r, li_request_hash r), li_idempotency_key r, li_payload_json r,
   (li_script_bytes r, li_script_sha256 r), li_intent_ordinal r, li_created_at r).

Lemma with_delivery_request st proof reason owner lease attempts now r :
  request_of (with_delivery st proof reason owner lease attempts now r) = request_of r.
Proof. done. Qed.

(** ** Delivery moves *)

(** The moves of [localIntentStateTransitionAllowed] and of the terminal proof. *)
Definition delivery_move (st next : LocalIntentDeliveryState) : Prop :=
  localIntentStateTransitionAllowed st next = true \/ st = LocalIntentReconciled /\ next = LocalIntentReconciled.

Definition settled (st : LocalIntentDeliveryState) : Prop := st = LocalIntentReconciled \/ st = LocalIntentNotDelivered.

Lemma move_settled st next : delivery_move st next -> settled st -> next = st.
Proof. intros [H|[-> ->]] Hs; [|done]. destruct Hs as [->| ->]; done. Qed.
Lemma move_claimed st next : delivery_move st next -> next <> LocalIntentRecorded.
Proof. intros [H|[-> ->]]; [|done]. intros ->. destruct st; done. Qed.
Lemma move_valid st next : delivery_move st next -> validLocalIntentDeliveryState next = true.
Proof. intros [H|[-> ->]]; [|done]. destruct next; try done. destruct st; done. Qed.

(** The lifecycle of an intent in state [st]: numbered rows, the first one the
    state it was recorded in (or [requested]), then one row per move, each with the
    state it left. *)
Inductive intent_run : list IntentLifecycleRow -> LocalIntentDeliveryState -> Prop :=
  | run_recorded st init reason t : init = st \/ init = LocalIntentRequested -> validLocalIntentDeliveryState st = true ->
      intent_run [mkIntentLifecycleRow 1 None init reason t] st
  | run_moved rows st prev next reason t :
      intent_run rows st -> delivery_move st next -> prev = st \/ length rows = 1%nat /\ prev = LocalIntentRequested ->
      intent_run (rows ++ [mkIntentLifecycleRow (Z.of_nat (length rows) + 1) (Some prev) next reason t]) next.

Lemma intent_run_sequences rows st : intent_run rows st -> il_sequence <$> rows = seqZ 1 (Z.of_nat (length rows)).
Proof.
  induction 1 as [|rows st prev next reason t H IH]; [done|].
  rewrite fmap_app, IH, length_app, Nat2Z.inj_add, seqZ_app by lia. f_equal. cbn [fmap list_fmap il_sequence length].
  rewrite seqZ_cons, seqZ_nil by lia. f_equal. lia.
Qed.

Lemma intent_run_last rows st : intent_run rows st ->
  exists row, last rows = Some row /\ (il_new_state row = st \/ length rows = 1%nat /\ il_new_state row = LocalIntentRequested).
Proof.
  induction 1 as [st init reason t [->| ->]|rows st prev next reason t H IH]; [eexists; split; [done|by left]|eexists; split; [done|by right]|].
  eexists. rewrite last_snoc. split; [done|by left].
Qed.

Lemma intent_run_valid rows st : intent_run rows st -> validLocalIntentDeliveryState st = true.
Proof. induction 1; [done|]. by eapply move_valid. Qed.

Lemma intent_run_nonempty rows st : intent_run rows st -> (0 < length rows)%nat.
Proof. induction 1; rewrite ?length_app; simpl; lia. Qed.

(** What appending to the lifecycle of a run reads. *)
Lemma max_seqZ k n : foldr Z.max 0 (seqZ k (Z.of_nat n)) = if decide (n = 0%nat) then 0 else Z.max 0 (k + Z.of_nat n - 1).
Proof.
  revert k. induction n as [|n IH]; intros k; [done|]. rewrite Nat2Z.inj_succ, seqZ_cons by lia. rewrite Z.pred_succ. cbn [foldr].
  rewrite IH. destruct (decide (n = 0%nat)) as [->|]; cbn [decide]; rewrite decide_False by lia; lia.
Qed.

Lemma run_next_sequence rows st : intent_run rows st -> next_lifecycle_sequence rows = Z.of_nat (length rows) + 1.
Proof.
  intros H. unfold next_lifecycle_sequence. rewrite (intent_run_sequences _ _ H), max_seqZ.
  apply intent_run_nonempty in H. rewrite decide_False by lia. lia.
Qed.

Lemma run_sorted rows st : intent_run rows st -> merge_sort lifecycle_le rows = rows.
Proof. intros H. eapply (merge_sort_numbered il_sequence); [done|]. by eapply intent_run_sequences. Qed.

Lemma run_last_lifecycle rows st : intent_run rows st ->
  exists row, last_lifecycle rows = Some row /\ (il_new_state row = st \/ length rows = 1%nat /\ il_new_state row = LocalIntentRequested).
Proof. intros H. unfold last_lifecycle. rewrite (run_sorted _ _ H). by apply intent_run_last. Qed.

(** ** The abstract system *)
Definition decodes (id : string) (r : IntentRow) (m : Mirror) : Prop :=
  exists rec, decodeLocalIntent id r (local_remote_status_failures m !! id) = Ok rec.

(** A binding says which intent it was made for. *)
Definition binding_of (id : string) (r : IntentRow) (key : IdemKey) (b : LocalIdempotencyRow) : Prop :=
  key = idem_key (li_controller r) (li_operation r) (li_idempotency_key r) /\ lk_intent_id b = id /\
  lk_resource_id b = li_resource_id r /\ lk_hash_version b = li_request_hash_version r /\ lk_hash b = li_request_hash r.

Definition put_intent (id : string) (r : IntentRow) (rows : list IntentLifecycleRow) (m : Mirror) : Mirror :=
  set_intent_lifecycle (<[id := rows]> (local_intent_lifecycle m)) (set_intents (<[id := r]> (local_intents m)) m).

Inductive istep (now : Z) (m : Mirror) : Mirror -> Prop :=
  | is_expire key b t :
      local_idempotency m !! key = Some b -> parseStoredTime (lk_expires_at b) = Some t -> t <= now ->
      istep now m (set_local_idempotency (delete key (local_idempotency m)) m)
  | is_record id r init reason at_ key b :
      local_intents m !! id = None -> local_idempotency m !! key = None -> binding_of id r key b ->
      ordinal_taken r m = false -> init = li_delivery_state r \/ init = LocalIntentRequested -> decodes id r m ->
      istep now m (set_local_idempotency (<[key := b]> (local_idempotency m))
                     (put_intent id r [mkIntentLifecycleRow 1 None init reason at_] m))
  | is_move id r st proof reason owner lease attempts prev row_reason at_ (cleared : bool) :
      local_intents m !! id = Some r -> delivery_move (li_delivery_state r) st ->
      prev = li_delivery_state r \/ length (lifecycle_of id m) = 1%nat /\ prev = LocalIntentRequested ->
      (let r' := with_delivery st proof reason owner lease attempts at_ r in
       let rows := lifecycle_of id m ++ [mkIntentLifecycleRow (Z.of_nat (length (lifecycle_of id m)) + 1) (Some prev) st row_reason
                                           (formatStoredTime at_)] in
       let m' := (if cleared then fun m => set_status_failures (delete id (local_remote_status_failures m)) m else fun m => m)
                   (put_intent id r' rows m) in
       decodes id r' m' -> istep now m m')
  | is_lease id r lease :
      local_intents m !! id = Some r -> li_delivery_state r = LocalIntentDispatching \/ li_delivery_state r = LocalIntentUncertain ->
      (let r' := with_delivery (li_delivery_state r) (li_remote_terminal_proof_version r) (li_reason r) (li_lease_owner r)
                   lease (li_attempt_count r) now r in
       let m' := set_intents (<[id := r']> (local_intents m)) m in
       decodes id r' m' -> istep now m m')
  | is_failure id r (f : option StatusFailureRow) :
      local_intents m !! id = Some r ->
      (let m' := set_status_failures (match f with Some f => <[id := f]> (local_remote_status_failures m)
                                      | None => delete id (local_remote_status_failures m) end) m in
       decodes id r m' -> istep now m m').

(** ** The invariant *)
Record intents_inv (m : Mirror) : Prop := {
  ii_run : forall id r, local_intents m !! id = Some r -> intent_run (lifecycle_of id m) (li_delivery_state r);
  ii_decodes : forall id r, local_intents m !! id = Some r -> decodes id r m;
  ii_none : forall id, local_intents m !! id = None -> local_intent_lifecycle m !! id = None;
  ii_bound : forall key b, local_idempotency m !! key = Some b ->
    exists r, local_intents m !! lk_intent_id b = Some r /\ binding_of (lk_intent_id b) r key b;
  ii_ordinals : forall id1 r1 id2 r2 n, local_intents m !! id1 = Some r1 -> local_intents m !! id2 = Some r2 ->
    li_operation r1 = localIntentSubmitCommandOperation -> li_operation r2 = localIntentSubmitCommandOperation ->
    li_session_id r1 = li_session_id r2 -> li_intent_ordinal r1 = Some n -> li_intent_ordinal r2 = Some n -> id1 = id2
}.

(** Nothing is taken back: an intent stays with its request, its delivery only
    moves on, and its lifecycle only grows. *)
Record intent_le (m m' : Mirror) : Prop := {
  il_kept : forall id r, local_intents m !! id = Some r -> exists r', local_intents m' !! id = Some r' /\
    request_of r' = request_of r /\ rtc delivery_move (li_delivery_state r) (li_delivery_state r') /\
    lifecycle_of id m `prefix_of` lifecycle_of id m'
}.

#[export] Instance intent_le_preorder : PreOrder intent_le.
Proof.
  split.
  - intros m. constructor. intros id r H. exists r. by split_and!.
  - intros m1 m2 m3 [H1] [H2]. constructor. intros id r (r2 & Hr2 & E2 & S2 & P2)%H1. apply H2 in Hr2 as (r3 & Hr3 & E3 & S3 & P3).
    exists r3. split_and!; [done|congruence|by etrans|by etrans].
Qed.

Ltac intents_cbn := cbn [local_intents local_intent_lifecycle local_idempotency local_remote_status_failures set_intents
  set_intent_lifecycle set_local_idempotency set_status_failures put_intent] in *.

Lemma lifecycle_put id r rows m id' :
  lifecycle_of id' (put_intent id r rows m) = if bool_decide (id' = id) then rows else lifecycle_of id' m.
Proof.
  unfold lifecycle_of, put_intent. intents_cbn. case_bool_decide as E; [subst; by rewrite lookup_insert_eq|by rewrite lookup_insert_ne].
Qed.

Lemma insert_kept (t : gmap string IntentRow) id r r' :
  t !! id = Some r -> forall id' x, <[id := r']> t !! id' = Some x -> id' = id /\ x = r' \/ id' <> id /\ t !! id' = Some x.
Proof. intros Hr id' x [[-> ->]|[? ?]]%lookup_insert_Some; auto. Qed.

Lemma decode_state_valid id r f rec : decodeLocalIntent id r f = Ok rec -> validLocalIntentDeliveryState (li_delivery_state r) = true.
Proof. unfold decodeLocalIntent. intros H. do 5 apply result_bind_Ok in H as (? & _ & H). apply refuse_if_bind in H as [H _]. by bool_norm. Qed.

(** Replacing one row, its lifecycle and its failure. *)
Section replace.
Context (m m' : Mirror) (id : string) (r r' : IntentRow).
Context (Hr : local_intents m !! id = Some r) (Ht : local_intents m' = <[id := r']> (local_intents m)).
Context (Hreq : request_of r' = request_of r) (Hidem : local_idempotency m' = local_idempotency m).
Context (Hother : forall id', id' <> id -> local_intent_lifecycle m' !! id' = local_intent_lifecycle m !! id' /\
  local_remote_status_failures m' !! id' = local_remote_status_failures m !! id').
Context (Hrun : intent_run (lifecycle_of id m') (li_delivery_state r')) (Hdec : decodes id r' m').

Lemma replaced id' x : local_intents m' !! id' = Some x ->
  id' = id /\ x = r' \/ id' <> id /\ local_intents m !! id' = Some x.
Proof. rewrite Ht. intros [[-> ->]|[? ?]]%lookup_insert_Some; auto. Qed.

(** The row that was there before has the same request. *)
Lemma replaced_before id' x : local_intents m' !! id' = Some x ->
  exists y, local_intents m !! id' = Some y /\ request_of x = request_of y.
Proof. intros [[-> ->]|[_ H]]%replaced; eauto. Qed.

Lemma replace_inv : intents_inv m -> intents_inv m'.
Proof.
  intros [I1 I2 I3 I4 I5]. constructor.
  - intros id' x [[-> ->]|[Hne Hx]]%replaced; [done|]. unfold lifecycle_of. rewrite (proj1 (Hother _ Hne)). by apply I1.
  - intros id' x [[-> ->]|[Hne Hx]]%replaced; [done|]. unfold decodes. rewrite (proj2 (Hother _ Hne)). by apply I2.
  - intros id' Hn. rewrite Ht, lookup_insert_None in Hn. destruct Hn as [Hn Hne]. rewrite (proj1 (Hother id' ltac:(done))). by apply I3.
  - intros key b Hb. rewrite Hidem in Hb. destruct (I4 _ _ Hb) as (x & Hx & Hbind). rewrite Ht.
    destruct (decide (lk_intent_id b = id)) as [Heq|Hne].
    + rewrite Heq, lookup_insert_eq. rewrite Heq, Hr in Hx. injection Hx as <-. exists r'. split; [done|].
      destruct Hbind as (H1 & H2 & H3 & H4 & H5). injection Hreq as E1 E2 _ _ _ _ _ E8 _ E10 E11 E12 _ _ _ _ _.
      split_and!; congruence.
    + rewrite lookup_insert_ne by done. by exists x.
  - intros id1 x1 id2 x2 n (y1 & Y1 & E1)%replaced_before (y2 & Y2 & E2)%replaced_before O1 O2 S12 N1 N2.
    injection E1 as F1 _ F3 _ _ _ _ _ _ _ _ _ _ _ _ F16 _. injection E2 as G1 _ G3 _ _ _ _ _ _ _ _ _ _ _ _ G16 _.
    eapply (I5 id1 y1 id2 y2 n); congruence.
Qed.

Lemma replace_le : rtc delivery_move (li_delivery_state r) (li_delivery_state r') ->
  lifecycle_of id m `prefix_of` lifecycle_of id m' -> intent_le m m'.
Proof.
  intros Hmv Hpre. constructor. intros id' x Hx. rewrite Ht. destruct (decide (id' = id)) as [->|Hne].
  - rewrite Hr in Hx. injection Hx as <-. exists r'. by rewrite lookup_insert_eq.
  - exists x. rewrite lookup_insert_ne by done. split_and!; try done. unfold lifecycle_of. by rewrite (proj1 (Hother _ Hne)).
Qed.
End replace.

Lemma ordinal_taken_none r m : ordinal_taken r m = false -> li_operation r = localIntentSubmitCommandOperation ->
  forall n, li_intent_ordinal r = Some n -> forall id r', local_intents m !! id = Some r' ->
  li_operation r' = localIntentSubmitCommandOperation -> li_session_id r' = li_session_id r -> li_intent_ordinal r' <> Some n.
Proof.
  unfold ordinal_taken. intros Ht Ho n Hn id r' Hr' Ho' Hs Hn'. rewrite (bool_decide_eq_true_2 _ Ho), Hn in Ht. cbn [is_Some_b andb] in Ht.
  unfold exists_row in Ht. apply not_true_iff_false in Ht. apply Ht, existsb_exists. exists (id, r').
  split; [by apply list_elem_of_In, elem_of_map_to_list|]. by rewrite !bool_decide_eq_true_2.
Qed.

Lemma istep_inv now m m' : istep now m m' -> intents_inv m -> intents_inv m'.
Proof.
  intros Hs Hinv. destruct Hs as [key b t Hb Ht Hle|id r init reason at_ key b Hnone Hk Hbind Hord Hinit Hdec
    |id r st proof reason owner lease attempts prev row_reason at_ cleared Hr Hmv Hprev r' rows m' Hdec
    |id r lease Hr Hst r' m' Hdec|id r f Hr m' Hdec].
  - destruct Hinv as [I1 I2 I3 I4 I5]. constructor; try done. intros k x Hx. intents_cbn.
    apply lookup_delete_Some in Hx as [_ Hx]. by apply I4.
  - destruct Hinv as [I1 I2 I3 I4 I5]. constructor.
    + intros id' x Hx. intents_cbn. change (lifecycle_of id' _) with (lifecycle_of id' (put_intent id r [mkIntentLifecycleRow 1 None init reason at_] m)).
      rewrite lifecycle_put. apply lookup_insert_Some in Hx as [[-> ->]|[Hne Hx]].
      * rewrite bool_decide_eq_true_2 by done. constructor; [done|]. destruct Hdec as [rec Hdec]. by eapply decode_state_valid.
      * rewrite bool_decide_eq_false_2 by done. by apply I1.
    + intros id' x Hx. intents_cbn. apply lookup_insert_Some in Hx as [[-> ->]|[Hne Hx]]; [done|by apply I2].
    + intros id' Hn. intents_cbn. apply lookup_insert_None in Hn as [Hn Hne]. rewrite lookup_insert_ne by done. by apply I3.
    + intros k x Hx. intents_cbn. apply lookup_insert_Some in Hx as [[-> ->]|[Hne Hx]].
      * exists r. rewrite (proj1 (proj2 Hbind)), lookup_insert_eq. by split.
      * destruct (I4 _ _ Hx) as (y & Hy & Hy'). exists y. rewrite lookup_insert_ne by congruence. done.
    + intros id1 x1 id2 x2 n H1 H2 O1 O2 S12 N1 N2. intents_cbn.
      apply lookup_insert_Some in H1 as [[-> ->]|[Hne1 H1]]; apply lookup_insert_Some in H2 as [[-> ->]|[Hne2 H2]]; [done|..].
      * by destruct (ordinal_taken_none _ _ Hord O1 n N1 _ _ H2 O2 (eq_sym S12)).
      * by destruct (ordinal_taken_none _ _ Hord O2 n N2 _ _ H1 O1 S12).
      * by eapply I5.
  - eapply (replace_inv m m' id r r'); try done; [by destruct cleared|by destruct cleared| |].
    + intros id' Hne. subst m'. destruct cleared; intents_cbn; rewrite ?lookup_insert_ne, ?lookup_delete_ne by done; done.
    + assert (lifecycle_of id m' = rows) as ->.
      { subst m'. assert (lifecycle_of id (put_intent id r' rows m) = rows) as E by (rewrite lifecycle_put; by rewrite bool_decide_eq_true_2).
        by destruct cleared. }
      cbn [li_delivery_state with_delivery]. apply run_moved with (st := li_delivery_state r); [by apply (ii_run _ Hinv)|done|done].
  - eapply (replace_inv m m' id r r'); try done. exact (ii_run _ Hinv id r Hr).
  - eapply (replace_inv m m' id r r); try done; [by rewrite insert_id| |exact (ii_run _ Hinv id r Hr)].
    intros id' Hne. subst m'. destruct f; intents_cbn; rewrite ?lookup_insert_ne, ?lookup_delete_ne by done; done.
Qed.

Lemma put_lifecycle id r rows m : lifecycle_of id (put_intent id r rows m) = rows.
Proof. rewrite lifecycle_put. by rewrite bool_decide_eq_true_2. Qed.

Lemma istep_le now m m' : istep now m m' -> intents_inv m -> intent_le m m'.
Proof.
  intros Hs Hinv. destruct Hs as [key b t Hb Ht Hle|id r init reason at_ key b Hnone Hk Hbind Hord Hinit Hdec
    |id r st proof reason owner lease attempts prev row_reason at_ cleared Hr Hmv Hprev r' rows m' Hdec
    |id r lease Hr Hst r' m' Hdec|id r f Hr m' Hdec].
  - constructor. intros id r Hr. exists r. by split_and!.
  - constructor. intros id' x Hx. exists x. intents_cbn. rewrite lookup_insert_ne by congruence. split_and!; try done.
    unfold lifecycle_of. intents_cbn. by rewrite lookup_insert_ne by congruence.
  - eapply (replace_le m m' id r r'); try done; [by destruct cleared| |by apply rtc_once|].
    + intros id' Hne. subst m'. destruct cleared; intents_cbn; rewrite ?lookup_insert_ne, ?lookup_delete_ne by done; done.
    + assert (lifecycle_of id m' = rows) as ->; [|by apply prefix_app_r].
      pose proof (put_lifecycle id r' rows m). subst m'. by destruct cleared.
  - by eapply (replace_le m m' id r r').
  - eapply (replace_le m m' id r r); try done; [by rewrite insert_id|].
    intros id' Hne. subst m'. destruct f; intents_cbn; rewrite ?lookup_insert_ne, ?lookup_delete_ne by done; done.
Qed.

Lemma isteps_inv now m m' : rtc (istep now) m m' -> intents_inv m -> intents_inv m'.
Proof. induction 1; intros; [done|]. eauto using istep_inv. Qed.

Lemma isteps_le now m m' : rtc (istep now) m m' -> intents_inv m -> intent_le m m'.
Proof. induction 1 as [|m1 m2 m3 H Hs IH]; intros Hinv; [done|]. transitivity m2; [by eapply istep_le|]. apply IH. by eapply istep_inv. Qed.
