(* ===== verification/IntentRefinement.v ===== *)
(** * The operations on local intents are runs of the abstract system

    Every successful operation of [LocalIntentOps] is a run of [istep], and a
    failed one changes nothing. *)
From stdpp Require Import relations.
From S2P Require Import Prelude GoStrings Sha256 Identity Lifecycle Policy JsonText Canonical.
From S2P Require Import RunPayload LaneAdmission AuditRecords Db AuditStore AdmissionStore Idempotency Sessions.
From S2P Require Import Listings RemoteDb RemoteProjections RemoteEvents RemoteUpserts LocalIntents Commands.
From S2P Require Import LocalIntentOps IntentSteps.

(** ** Reads *)
Lemma readIntent_Ok id m rec m' : readLocalIntentOnConnection id m = Ok (rec, m') <->
  m' = m /\ exists r, local_intents m !! id = Some r /\ decodeLocalIntent id r (local_remote_status_failures m !! id) = Ok rec.
Proof.
  unfold readLocalIntentOnConnection. rewrite query_bind. destruct (local_intents m !! id) as [r|].
  - rewrite or_fail_bind_some, query_bind, lift_Ok. naive_solver.
  - rewrite or_fail_bind_none. naive_solver.
Qed.

Record decoded_as (id : string) (r : IntentRow) (rec : LocalIntentRecord) : Prop := {
  da_id : lic_IntentID (lir_create rec) = id;
  da_nonempty : id <> "";
  da_operation : lic_Operation (lir_create rec) = li_operation r;
  da_resource : lic_ResourceID (lir_create rec) = li_resource_id r;
  da_session : lic_SessionID (lir_create rec) = li_session_id r;
  da_command : lic_CommandID (lir_create rec) = li_command_id r;
  da_job : lic_JobID (lir_create rec) = li_job_id r;
  da_target : lic_Target (lir_create rec) = li_target r;
  da_controller : lic_Controller (lir_create rec) = li_controller r;
  da_key : lic_IdempotencyKey (lir_create rec) = li_idempotency_key r;
  da_payload : lic_PayloadJSON (lir_create rec) = li_payload_json r;
  da_script : lic_ScriptBytes (lir_create rec) = li_script_bytes r;
  da_ordinal : lic_IntentOrdinal (lir_create rec) = li_intent_ordinal r;
  da_state : lic_DeliveryState (lir_create rec) = li_delivery_state r;
  da_owner : lic_LeaseOwner (lir_create rec) = li_lease_owner r;
  da_lease : lic_LeaseExpiresAt (lir_create rec) = li_lease_expires_at r ≫= parseStoredTime;
  da_proof : lir_RemoteTerminalProofVersion rec = li_remote_terminal_proof_version r
}.

Lemma NewIntentID_Ok value id : NewIntentID value = Ok id <-> id = value /\ value <> "".
Proof. apply NewSessionID_Ok. Qed.

Lemma decode_Ok id r f rec : decodeLocalIntent id r f = Ok rec -> decoded_as id r rec.
Proof.
  unfold decodeLocalIntent, corrupt, stored_instant. intros H.
  apply result_bind_Ok in H as (i & [-> Hne]%result_map_err_Ok%NewIntentID_Ok & H).
  apply result_bind_Ok in H as (target & (-> & _)%result_map_err_Ok%NewExecutionTarget_Ok & H).
  apply result_bind_Ok in H as (controller & (-> & _)%result_map_err_Ok%NewControllerIdentity_Ok & H).
  do 2 apply result_bind_Ok in H as (? & _ & H). do 2 apply refuse_if_bind in H as [_ H].
  do 2 apply result_bind_Ok in H as (? & _ & H). apply result_bind_Ok in H as (lease & Hlease & H).
  apply result_bind_Ok in H as (? & _ & H). apply result_bind_Ok in H as ([? ?] & _ & H). do 2 apply refuse_if_bind in H as [_ H].
  injection H as <-. constructor; try done; cbn [lir_create lic_LeaseExpiresAt lic_Target lic_Controller].
  - by destruct (li_target r).
  - by destruct (li_controller r).
  - destruct (li_lease_expires_at r) as [t|]; [|by injection Hlease as <-]. cbn [mbind option_bind].
    destruct (parseStoredTime t); cbn in Hlease; [by injection Hlease as <-|done].
Qed.

(** ** Appending to a lifecycle *)
Lemma insert_intent_lifecycle_Ok id row u m m' :
  insert_intent_lifecycle id row m = Ok (u, m') ->
  m' = set_intent_lifecycle (<[id := lifecycle_of id m ++ [row]]> (local_intent_lifecycle m)) m.
Proof. unfold insert_intent_lifecycle. intros H. tx_inv H. done. Qed.

(** The lifecycle is read after the row was rewritten. *)
Lemma append_Ok id st next reason now u m m' :
  intent_run (lifecycle_of id m) st -> appendLocalIntentLifecycleOnConnection id next reason now m = Ok (u, m') ->
  exists prev, (prev = st \/ length (lifecycle_of id m) = 1%nat /\ prev = LocalIntentRequested) /\
    m' = set_intent_lifecycle (<[id := lifecycle_of id m ++
      [mkIntentLifecycleRow (Z.of_nat (length (lifecycle_of id m)) + 1) (Some prev) next reason (formatStoredTime now)]]>
      (local_intent_lifecycle m)) m.
Proof.
  intros Hrun. unfold appendLocalIntentLifecycleOnConnection. rewrite !query_bind.
  destruct (run_last_lifecycle _ _ Hrun) as (row & Hlast & Hprev). rewrite Hlast, (run_next_sequence _ _ Hrun), or_fail_bind_some.
  intros ->%insert_intent_lifecycle_Ok. by exists (il_new_state row).
Qed.

Lemma update_put id r f rows m :
  local_intents m !! id = Some r ->
  set_intent_lifecycle (<[id := rows]> (local_intent_lifecycle (set_intents (alter f id (local_intents m)) m)))
    (set_intents (alter f id (local_intents m)) m) = put_intent id (f r) rows m.
Proof.
  intros Hr. unfold put_intent. replace (alter f id (local_intents m)) with (<[id := f r]> (local_intents m)); [done|].
  apply map_eq. intros j. destruct (decide (j = id)) as [->|Hne].
  - by rewrite lookup_alter_eq, Hr, lookup_insert_eq.
  - by rewrite lookup_alter_ne, lookup_insert_ne by done.
Qed.

(** A row rewritten to its next state, its lifecycle row and the final read. *)
Lemma move_steps id r st proof reason owner lease attempts row_reason now m f rec m' :
  intents_inv m -> local_intents m !! id = Some r -> delivery_move (li_delivery_state r) st ->
  f r = with_delivery st proof reason owner lease attempts now r ->
  (update_intent id f;; appendLocalIntentLifecycleOnConnection id st row_reason now;; readLocalIntentOnConnection id) m
    = Ok (rec, m') -> istep now m m' /\ lic_IntentID (lir_create rec) = id.
Proof.
  intros Hinv Hr Hmv Hf H. unfold update_intent in H. rewrite modify_bind in H. apply stx_bind_Ok in H as (u & m2 & Happ & H).
  apply (append_Ok _ (li_delivery_state r)) in Happ as (prev & Hprev & ->); [|by apply (ii_run _ Hinv)].
  change (lifecycle_of id (set_intents _ m)) with (lifecycle_of id m) in *. rewrite (update_put _ r) in H by done. rewrite Hf in H.
  apply readIntent_Ok in H as (-> & r' & Hr' & Hdec). unfold put_intent in Hr'. cbn [local_intents set_intent_lifecycle set_intents] in Hr'.
  rewrite lookup_insert_eq in Hr'. injection Hr' as <-. split; [|by apply decode_Ok in Hdec as []].
  apply (is_move now m id r st proof reason owner lease attempts prev row_reason now false Hr Hmv Hprev). by exists rec.
Qed.

(** ** The operations *)
Lemma mirror_tx {A} m (body : mtx A) r m' :
  withMirrorTransaction m body = (r, m') -> m' = m /\ (exists e, r = Err e) \/ exists a, r = Ok a /\ body m = Ok (a, m').
Proof. unfold withMirrorTransaction. destruct (body m) as [[a m1]|e]; intros [= <- <-]; eauto. Qed.

Lemma transition_steps m now id next reason r m' :
  intents_inv m -> TransitionLocalIntent m now id next reason = (r, m') -> rtc (istep now) m m'.
Proof.
  intros Hinv. unfold TransitionLocalIntent. destruct (NewIntentID id) as [i|]; [|by intros [= _ <-]].
  destruct (negb _); [by intros [= _ <-]|]. intros [[-> _]|(rec & -> & H)]%mirror_tx; [constructor|].
  apply stx_bind_Ok in H as (cur & m1 & (-> & row & Hrow & Hd%decode_Ok)%readIntent_Ok & H). cbv zeta in H.
  destruct (bool_decide _); [apply stx_ret_Ok in H as [_ <-]; constructor|].
  apply stx_bind_Ok in H as (u & m2 & (_ & Hok & <-)%fail_if_Ok & H). bool_norm. rewrite (da_state _ _ _ Hd) in Hok.
  apply rtc_once. eapply (move_steps i row) in H as [H _]; [done|done|done|by left|]. done.
Qed.

Lemma claim_steps m now id owner d rec m' :
  intents_inv m -> claimLocalIntentOnConnection id owner d now m = Ok (rec, m') ->
  exists row, istep now m m' /\ local_intents m !! id = Some row /\ eligibleLocalIntent now m id row = true /\
    lic_IntentID (lir_create rec) = id /\ local_intents m' !! id = Some (with_claim owner d now row).
Proof.
  intros Hinv H. apply stx_bind_Ok in H as (cur & m1 & (-> & row & Hrow & Hd%decode_Ok)%readIntent_Ok & H).
  apply stx_bind_Ok in H as (u & m2 & (_ & Hst & <-)%fail_if_Ok & H). apply stx_bind_Ok in H as (u2 & m2 & (_ & _ & <-)%fail_if_Ok & H).
  apply stx_bind_Ok in H as (el & m2 & [<- <-]%query_Ok & H). apply stx_bind_Ok in H as (u3 & m2 & (_ & Hel & <-)%fail_if_Ok & H).
  bool_norm. rewrite (da_state _ _ _ Hd) in Hst. unfold localIntentIsEligibleOnConnection in Hel. rewrite Hrow in Hel.
  exists row. assert (with_claim owner d now row = with_delivery LocalIntentDispatching (li_remote_terminal_proof_version row)
    "lease_claimed" owner (Some (formatStoredTime (now + d))) (li_attempt_count row + 1) now row) as Hf
    by (unfold with_claim; by rewrite bool_decide_eq_true_2).
  assert (local_intents m' !! id = Some (with_claim owner d now row)) as Hnew.
  { apply stx_bind_Ok in H as (? & m3 & [_ ->]%modify_Ok & H). apply stx_bind_Ok in H as (? & m4 & Ha & H).
    apply (append_Ok _ (li_delivery_state row)) in Ha as (? & _ & ->); [|by apply (ii_run _ Hinv)].
    apply readIntent_Ok in H as (-> & _). cbn. by rewrite lookup_alter_eq, Hrow. }
  eapply (move_steps id row) in H as [H Hid]; [|done|done| |exact Hf]; [done|]. left. by rewrite Hst.
Qed.

Lemma claim_one_steps m now id owner d r m' :
  intents_inv m -> ClaimLocalIntent m now id owner d = (r, m') -> rtc (istep now) m m'.
Proof.
  intros Hinv. unfold ClaimLocalIntent. destruct (NewIntentID id) as [i|]; [|by intros [= _ <-]].
  destruct (validateLeaseRequest owner d); [|by intros [= _ <-]]. intros [[-> _]|(rec & -> & H)]%mirror_tx; [constructor|].
  apply claim_steps in H as (row & H & _); [|done]. by apply rtc_once.
Qed.

Lemma claim_next_steps m now owner d r m' :
  intents_inv m -> ClaimNextLocalIntent m now owner d = (r, m') -> rtc (istep now) m m'.
Proof.
  intros Hinv. unfold ClaimNextLocalIntent. destruct (validateLeaseRequest owner d); [|by intros [= _ <-]].
  intros [[-> _]|(rec & -> & H)]%mirror_tx; [constructor|]. apply stx_bind_Ok in H as (id & m1 & Hf & H).
  unfold findNextEligibleLocalIntentOnConnection in Hf. tx_inv Hf. apply claim_steps in H as (row & H & _); [|done]. by apply rtc_once.
Qed.

Lemma alter_put {A} (f : A -> A) (t : gmap string A) i x : t !! i = Some x -> alter f i t = <[i := f x]> t.
Proof.
  intros H. apply map_eq. intros j. destruct (decide (j = i)) as [->|Hne].
  - by rewrite lookup_alter_eq, H, lookup_insert_eq.
  - by rewrite lookup_alter_ne, lookup_insert_ne by done.
Qed.

Lemma renew_steps m now id owner d r m' :
  intents_inv m -> RenewLocalIntentLease m now id owner d = (r, m') -> rtc (istep now) m m'.
Proof.
  intros Hinv. unfold RenewLocalIntentLease. destruct (NewIntentID id) as [i|]; [|by intros [= _ <-]].
  destruct (validateLeaseRequest owner d); [|by intros [= _ <-]]. intros [[-> _]|(rec & -> & H)]%mirror_tx; [constructor|].
  apply stx_bind_Ok in H as (cur & m1 & (-> & row & Hrow & Hd%decode_Ok)%readIntent_Ok & H). cbv zeta in H.
  rewrite (da_state _ _ _ Hd), (da_owner _ _ _ Hd) in H.
  apply stx_bind_Ok in H as (u & m2 & (_ & Hst & <-)%fail_if_Ok & H). apply stx_bind_Ok in H as (u2 & m2 & (_ & Hown & <-)%fail_if_Ok & H).
  bool_norm. unfold update_intent in H. rewrite modify_bind, (alter_put _ _ _ _ Hrow) in H.
  assert (with_lease owner d now row = with_delivery (li_delivery_state row) (li_remote_terminal_proof_version row) (li_reason row)
    (li_lease_owner row) (Some (formatStoredTime (now + d))) (li_attempt_count row) now row) as Hf.
  { unfold with_lease. by rewrite bool_decide_eq_true_2. }
  rewrite Hf in H. apply readIntent_Ok in H as (-> & r' & Hr' & Hdec). cbn [local_intents set_intents] in Hr'.
  rewrite lookup_insert_eq in Hr'. injection Hr' as <-. apply rtc_once. apply (is_lease now m i row _ Hrow); [|by exists rec].
  apply andb_false_iff in Hst as [Hst|Hst]; bool_norm; auto.
Qed.

Lemma proof_steps m now id reason r m' :
  intents_inv m -> MarkRemoteIntentTerminalProof m now id reason = (r, m') -> rtc (istep now) m m'.
Proof.
  intros Hinv. unfold MarkRemoteIntentTerminalProof. destruct (NewIntentID id) as [i|]; [|by intros [= _ <-]].
  destruct (_ || _); [by intros [= _ <-]|]. intros [[-> _]|(rec & -> & H)]%mirror_tx; [constructor|].
  apply stx_bind_Ok in H as (cur & m1 & (-> & row & Hrow & Hd%decode_Ok)%readIntent_Ok & H). cbv zeta in H.
  rewrite (da_state _ _ _ Hd) in H. apply stx_bind_Ok in H as (u & m2 & (_ & _ & <-)%fail_if_Ok & H).
  apply stx_bind_Ok in H as (u2 & m2 & (_ & Hst & <-)%fail_if_Ok & H).
  destruct (HasRemoteTerminalProof cur); [apply stx_ret_Ok in H as [_ <-]; constructor|].
  unfold update_intent in H. rewrite modify_bind, query_bind in H. apply stx_bind_Ok in H as (u3 & m3 & ->%insert_intent_lifecycle_Ok & H).
  change (lifecycle_of i (set_intents _ m)) with (lifecycle_of i m) in H.
  rewrite (run_next_sequence _ (li_delivery_state row)) in H by (by apply (ii_run _ Hinv)). rewrite (update_put _ row) in H by done.
  unfold delete_status_failure in H. rewrite modify_bind in H. apply readIntent_Ok in H as (-> & r' & Hr' & Hdec).
  unfold put_intent in Hr'. cbn [local_intents set_status_failures set_intent_lifecycle set_intents] in Hr'. rewrite lookup_insert_eq in Hr'.
  injection Hr' as <-. assert (delivery_move (li_delivery_state row) LocalIntentReconciled) as Hmv.
  { apply andb_false_iff in Hst as [Hst|Hst]; bool_norm; rewrite Hst; [by left|by right]. }
  apply rtc_once. apply (is_move now m i row LocalIntentReconciled RemoteTerminalProofP149 reason (li_lease_owner row)
    (li_lease_expires_at row) (li_attempt_count row) (li_delivery_state row) reason now true Hrow Hmv); [by left|by exists rec].
Qed.

Lemma failure_steps m now id code r m' :
  intents_inv m -> MarkAcceptedRemoteRunStatusFailure m now id code = (r, m') -> rtc (istep now) m m'.
Proof.
  intros Hinv. unfold MarkAcceptedRemoteRunStatusFailure. destruct (NewIntentID id) as [i|]; [|by intros [= _ <-]].
  destruct (negb _); [by intros [= _ <-]|]. intros [[-> _]|(rec & -> & H)]%mirror_tx; [constructor|].
  apply stx_bind_Ok in H as (cur & m1 & (-> & row & Hrow & _)%readIntent_Ok & H).
  apply stx_bind_Ok in H as (u & m2 & (_ & _ & <-)%fail_if_Ok & H). rewrite modify_bind in H.
  apply readIntent_Ok in H as (-> & r' & Hr' & Hdec). cbn [local_intents set_status_failures] in Hr'. rewrite Hrow in Hr'. injection Hr' as <-.
  apply rtc_once. apply (is_failure now m i row (Some (count_failure now code (local_remote_status_failures m !! i))) Hrow). by exists rec.
Qed.

Lemma clear_steps m now id r m' :
  intents_inv m -> ClearAcceptedRemoteRunStatusFailure m id = (r, m') -> rtc (istep now) m m'.
Proof.
  intros Hinv. unfold ClearAcceptedRemoteRunStatusFailure. destruct (NewIntentID id) as [i|]; [|by intros [= _ <-]].
  intros [[-> _]|(rec & -> & H)]%mirror_tx; [constructor|].
  apply stx_bind_Ok in H as (cur & m1 & (-> & row & Hrow & _)%readIntent_Ok & H).
  apply stx_bind_Ok in H as (u & m2 & (_ & _ & <-)%fail_if_Ok & H). unfold delete_status_failure in H. rewrite modify_bind in H.
  apply readIntent_Ok in H as (-> & r' & Hr' & Hdec). cbn [local_intents set_status_failures] in Hr'. rewrite Hrow in Hr'. injection Hr' as <-.
  apply rtc_once. apply (is_failure now m i row None Hrow). by exists rec.
Qed.

(** ** Acceptance *)
Lemma on_db_Ok' {A} (b : tx A) a st st' : on_db b st = Ok (a, st') -> exists d, b (fst st) = Ok (a, d) /\ st' = (d, snd st).
Proof. unfold on_db. destruct (b (fst st)) as [[x d]|]; [|done]. intros [= <- <-]. eauto. Qed.
Lemma on_tables_Ok {A} (b : mtx A) a st st' : on_tables b st = Ok (a, st') -> exists t, b (snd st) = Ok (a, t) /\ st' = (fst st, t).
Proof. unfold on_tables. destruct (b (snd st)) as [[x d]|]; [|done]. intros [= <- <-]. eauto. Qed.

Definition idem_key_of (v : LocalIntentCreate) : IdemKey := idem_key (lic_Controller v) (lic_Operation v) (lic_IdempotencyKey v).

Lemma lookup_binding_Ok c op key now o m m' :
  lookupLocalIdempotencyOnConnection c op key now m = Ok (o, m') ->
  match o with
  | Some b => m' = m /\ exists row t, local_idempotency m !! idem_key c op key = Some row /\ parseStoredTime (lk_expires_at row) = Some t /\
      now < t /\ lib_IntentID b = lk_intent_id row /\
      NewCanonicalHash (uint16 (lk_hash_version row)) (lk_hash row) = Ok (lib_Hash b)
  | None => rtc (istep now) m m' /\ local_idempotency m' !! idem_key c op key = None /\
      local_intents m' = local_intents m /\ local_intent_lifecycle m' = local_intent_lifecycle m /\
      (m' = m \/ exists row t, local_idempotency m !! idem_key c op key = Some row /\ parseStoredTime (lk_expires_at row) = Some t /\ t <= now)
  end.
Proof.
  unfold lookupLocalIdempotencyOnConnection. cbv zeta. rewrite query_bind. destruct (local_idempotency m !! idem_key c op key) as [row|] eqn:E.
  - intros H. apply stx_bind_Ok in H as (hash & m1 & [Hh%result_map_err_Ok <-]%lift_Ok & H).
    apply stx_bind_Ok in H as (cr & m1 & [_ <-]%or_fail_Ok & H). apply stx_bind_Ok in H as (ex & m1 & [Hex <-]%or_fail_Ok & H).
    apply stx_bind_Ok in H as (u & m1 & (_ & _ & <-)%fail_if_Ok & H). destruct (now <? ex) eqn:Elt; cbn [negb] in H; bool_norm; tx_inv H.
    + split; [done|]. by exists row, ex.
    + split_and!; [|by apply lookup_delete_eq|done|done|right; by exists row, ex].
      apply rtc_once. by apply (is_expire now m _ row ex).
  - intros H. tx_inv H. split_and!; try done. by left.
Qed.

Lemma allocate_Ok v v' m m' : allocate_ordinal v m = Ok (v', m') -> m' = m /\ exists o, v' = with_ordinal o v.
Proof.
  unfold allocate_ordinal. destruct (_ && _).
  - intros H. apply stx_bind_Ok in H as (o & m1 & Ho & [<- <-]%stx_ret_Ok). split; [|eauto].
    unfold nextLocalIntentOrdinalOnConnection in Ho. rewrite query_bind in Ho.
    destruct (session_ordinals (lic_SessionID v) m); tx_inv Ho; done.
  - intros [<- <-]%stx_ret_Ok. split; [done|]. exists (lic_IntentOrdinal v). by destruct v.
Qed.

Lemma insert_intent_Ok v now u m m' : insertLocalIntentOnConnection v now m = Ok (u, m') ->
  local_intents m !! lic_IntentID v = None /\ ordinal_taken (intent_row v now) m = false /\
  m' = set_intents (<[lic_IntentID v := intent_row v now]> (local_intents m)) m.
Proof.
  unfold insertLocalIntentOnConnection, insert_intent. intros H. tx_inv H. bool_norm.
  match goal with H : is_Some_b ?o = false |- _ => destruct o eqn:?; [done|] end. done.
Qed.

Definition binding_row (v : LocalIntentCreate) (now : Z) : LocalIdempotencyRow :=
  mkLocalIdempotencyRow (hash_version (lic_RequestHash v)) (hash_digest (lic_RequestHash v)) (lic_IntentID v) (lic_ResourceID v)
    (formatStoredTime now) (formatStoredTime (now + lic_IdempotencyRetention v)).

Lemma insert_binding_Ok v now u m m' : insertLocalIdempotencyOnConnection v now m = Ok (u, m') ->
  m' = set_local_idempotency (<[idem_key_of v := binding_row v now]> (local_idempotency m)) m.
Proof. unfold insertLocalIdempotencyOnConnection. cbv zeta. intros H. tx_inv H. done. Qed.

Lemma record_steps v now id m m' rec m2 :
  intents_inv m -> record_intent v now m = Ok (id, m') -> local_idempotency m !! idem_key_of v = None ->
  readLocalIntentOnConnection id m' = Ok (rec, m2) ->
  id = lic_IntentID v /\ local_intents m !! id = None /\ istep now m m' /\ m2 = m' /\
  exists o, local_intents m' !! id = Some (intent_row (with_ordinal o v) now) /\
    local_idempotency m' !! idem_key_of v = Some (binding_row v now).
Proof.
  intros Hinv H Hk Hread. unfold record_intent in H. apply stx_bind_Ok in H as (v' & m1 & (-> & o & ->)%allocate_Ok & H).
  apply stx_bind_Ok in H as (u & m1 & Hins & H). apply insert_intent_Ok in Hins as (Hnone & Hord & ->).
  apply stx_bind_Ok in H as (u2 & m1 & ->%insert_intent_lifecycle_Ok & H). cbv zeta in H.
  apply stx_bind_Ok in H as (u' & m1 & Hidem & [<- <-]%stx_ret_Ok).
  apply insert_binding_Ok in Hidem as ->.
  set (r := intent_row (with_ordinal o v) now) in *. cbn [lic_IntentID with_ordinal] in *.
  assert (lifecycle_of (lic_IntentID v) m = []) as Hlc by (unfold lifecycle_of; by rewrite (ii_none _ Hinv _ Hnone)).
  change (lifecycle_of (lic_IntentID v) (set_intents _ m)) with (lifecycle_of (lic_IntentID v) m) in *. rewrite Hlc in *.
  cbn [app] in *. change (set_intent_lifecycle (<[lic_IntentID v := ?rows]> (local_intent_lifecycle (set_intents ?t m))) (set_intents ?t m))
    with (put_intent (lic_IntentID v) r rows m) in *.
  apply readIntent_Ok in Hread as (-> & r' & Hr' & Hdec). cbn in Hr'. rewrite lookup_insert_eq in Hr'. injection Hr' as <-.
  split_and!; try done.
  - eapply (is_record now m (lic_IntentID v) r); try done; [by destruct (is_op _ _); auto|by exists rec].
  - exists o. split; [cbn; by rewrite lookup_insert_eq|]. cbn. unfold idem_key_of. by rewrite lookup_insert_eq.
Qed.
