(* ===== verification/MixedRecovery.v ===== *)
(** * Recovery of a mixed inventory

    Models [src/src/internal/store/mixed_runtime_recovery.go]: one idle inventory
    that contains lost commands and lost teardowns is released as a whole. *)
From S2P Require Import Prelude GoStrings Sha256 Identity Lifecycle Policy Canonical LaneAdmission.
From S2P Require Import AuditRecords Db AuditStore AdmissionStore Idempotency Sessions Commands LostRecovery.
From S2P Require Import Listings RestartPlan Scheduler CommandlessRecovery TeardownRecovery.

Record MixedLostRuntimeRecovery : Type := mkMixedLostRuntimeRecovery {
  ml_Pair : LostRuntimeRecoveryPair;
  ml_Session : SessionRecord;
  ml_Command : LostRuntimeRecoveryCommand;
  ml_CommandSlot : CommandSlotRecord;
  ml_SessionReservation : SessionReservation;
  ml_AlreadyRecovered : bool;
  ml_FinalizationPending : bool
}.

Record MixedRuntimeRecoverySet : Type := mkMixedRuntimeRecoverySet {
  mx_Lost : list MixedLostRuntimeRecovery;
  mx_Teardown : list CompletedTeardownRecovery
}.

(** ** Validation *)
Definition validateMixedRuntimeRecoverySelection (lost : list LostRuntimeRecoveryPair)
    (teardown : list CompletedTeardownRecoveryPair)
    : result (list LostRuntimeRecoveryPair * list CompletedTeardownRecoveryPair) :=
  refuse_if (is_nil lost && is_nil teardown) ErrLostRuntimeRecoveryNotReleasable;;
  validatedLost ← (if is_nil lost then Ok [] else validateLostRuntimeRecoveryPairs lost);
  validatedTeardown ← (if is_nil teardown then Ok [] else validateCompletedTeardownRecoveryPairs teardown);
  refuse_if (existsb (fun pair => bool_decide (tp_SessionID pair ∈ map pair_SessionID validatedLost)
                                  || bool_decide (tp_CommandID pair ∈ map pair_CommandID validatedLost))
               validatedTeardown) ErrLostRuntimeRecoveryNotReleasable;;
  Ok (validatedLost, validatedTeardown).

(** ** The inventory *)
Definition lost_pending (pair : LostRuntimeRecoveryPair) (d : DB) : bool :=
  match exec_lost_runtime_recovery_finalizations d !! pair_CommandID pair with
  | Some f => bool_decide (f_session_id f = pair_SessionID pair)
  | None => false
  end.

(** The body of the loop over the lost pairs. *)
Definition readMixedLost (pair : LostRuntimeRecoveryPair) : tx MixedLostRuntimeRecovery :=
  alreadyReleased ← checkLostRuntimeRecoveryPair pair;
  session ← readSessionOnConnection (pair_SessionID pair);
  command ← readLostRuntimeRecoveryCommandOnConnection (pair_CommandID pair);
  slot ← readCommandSlotOnConnection (pair_CommandID pair);
  reservation ← readReservationOnConnection (pair_SessionID pair);
  pending ← query (lost_pending pair);
  fail_if (pending && negb alreadyReleased) ErrLostRuntimeRecoveryNotReleasable;;
  mret (mkMixedLostRuntimeRecovery pair session command slot reservation alreadyReleased pending).

Definition requireSelectedMixedFinalizations (lost : list LostRuntimeRecoveryPair)
    (teardown : list CompletedTeardownRecoveryPair) : tx unit :=
  d ← query (fun d => d);
  fail_if (existsb (fun '(commandID, f) => negb (bool_decide (mkPair (f_session_id f) commandID ∈ lost)))
             (map_to_list (exec_lost_runtime_recovery_finalizations d))) ErrLostRuntimeRecoveryNotReleasable;;
  fail_if (existsb (fun '(sessionID, f) => negb (bool_decide (mkTeardownPair sessionID (tf_command_id f) ∈ teardown)))
             (map_to_list (exec_completed_teardown_recovery_finalizations d))) ErrLostRuntimeRecoveryNotReleasable;;
  fail_if (negb (Nat.eqb (size (exec_commandless_lost_runtime_recovery_finalizations d)) 0))
    (Errs ErrLostRuntimeRecoveryNotReleasable ErrCommandlessLostRuntimeRecoveryNotReleasable).

(** The rows still open must be selected, on the expected host, and not half
    released; returns whether a row is refused. *)
Definition refused_slot (selected : list string) (row : string * SlotRow) : bool :=
  let '(id, r) := row in
  negb (result_is_ok (NewCommandID id)) || negb (bool_decide (id ∈ selected))
  || negb (bool_decide (sl_host_key r = schedulerHostKey))
  || is_Some_b (sl_stop_confirmed_at r) || is_Some_b (sl_released_at r).
Definition refused_reservation (selected : list string) (row : string * ReservationRow) : bool :=
  let '(id, r) := row in
  negb (result_is_ok (NewSessionID id)) || negb (bool_decide (id ∈ selected))
  || negb (bool_decide (r_host_key r = reservationHostKey))
  || is_Some_b (r_cleanup_confirmed_at r) || is_Some_b (r_released_at r).

Definition readMixedRuntimeRecoverySet (lost : list LostRuntimeRecoveryPair)
    (teardown : list CompletedTeardownRecoveryPair) : tx MixedRuntimeRecoverySet :=
  lostRecoveries ← read_each readMixedLost lost;
  teardownRecoveries ← read_each readCompletedTeardownRecovery teardown;
  unsafe ← query active_rows;
  fail_if (negb (Nat.eqb unsafe 0)) ErrLostRuntimeRecoveryNotReleasable;;
  let wantLost := length (List.filter (fun r => negb (ml_AlreadyRecovered r)) lostRecoveries) in
  let wantTeardown := length (List.filter (fun r => negb (tr_AlreadyRecovered r)) teardownRecoveries) in
  slots ← query (fun d => filter (fun '(_, r) => open_slot r = true) (map_to_list (exec_command_slots d)));
  fail_if (existsb (refused_slot (pair_CommandID <$> lost)) slots) ErrLostRuntimeRecoveryNotReleasable;;
  fail_if (negb (Nat.eqb (length slots) wantLost)) ErrLostRuntimeRecoveryNotReleasable;;
  reservations ← query (fun d => filter (fun '(_, r) => open_reservation r = true)
                                   (map_to_list (exec_capacity_reservations d)));
  fail_if (existsb (refused_reservation ((pair_SessionID <$> lost) ++ (tp_SessionID <$> teardown))) reservations)
    ErrLostRuntimeRecoveryNotReleasable;;
  fail_if (negb (Nat.eqb (length reservations) (wantLost + wantTeardown))) ErrLostRuntimeRecoveryNotReleasable;;
  requireSelectedMixedFinalizations lost teardown;;
  mret (mkMixedRuntimeRecoverySet lostRecoveries teardownRecoveries).

(** ** Operations *)
Definition CheckMixedRuntimeRecoverySet (s : AuthorityStore) (lost : list LostRuntimeRecoveryPair)
    (teardown : list CompletedTeardownRecoveryPair) : result MixedRuntimeRecoverySet :=
  validated ← validateMixedRuntimeRecoverySelection lost teardown;
  withReadTransaction s (readMixedRuntimeRecoverySet (fst validated) (snd validated)).

Definition ConfirmMixedRuntimeRecoverySet (s : AuthorityStore) (now : Z) (lost : list LostRuntimeRecoveryPair)
    (teardown : list CompletedTeardownRecoveryPair) : result unit * AuthorityStore :=
  with_valid s (validateMixedRuntimeRecoverySelection lost teardown) (fun validated =>
  withImmediateTransaction s
    (set_ ← readMixedRuntimeRecoverySet (fst validated) (snd validated);
     releasePairs now (ml_Pair <$> List.filter (fun r => negb (ml_AlreadyRecovered r)) (mx_Lost set_));;
     releaseTeardowns now (mx_Teardown set_))).

(** ** The reads do not write *)
#[export] Instance readMixedLost_ro pair : ReadOnly (readMixedLost pair).
Proof. unfold readMixedLost. apply _. Qed.
#[export] Instance readMixedSet_ro lost teardown : ReadOnly (readMixedRuntimeRecoverySet lost teardown).
Proof. unfold readMixedRuntimeRecoverySet, requireSelectedMixedFinalizations. cbv zeta. apply _. Qed.
