(* ===== verification/Settlement.v ===== *)
(** * Settlement of cancelled one-off jobs

    Models [src/src/internal/store/stalled_job_recovery.go]: a job whose command
    was cancelled before it started and whose session is closed is settled as
    complete without running anything; and the metadata reads of the offline
    recovery. *)
From S2P Require Import Prelude GoStrings Sha256 Identity Lifecycle Policy Canonical LaneAdmission.
From S2P Require Import AuditRecords Db AuditStore AdmissionStore Idempotency Sessions Commands LostRecovery.
From S2P Require Import Listings Jobs.

Record ClosedCancelledJobSettlement : Type := mkClosedCancelledJobSettlement {
  cj_JobID : string;
  cj_SessionID : string;
  cj_CommandID : string;
  cj_AlreadySettled : bool
}.

Record closedCancelledJobSettlementCandidate : Type := mkSettlementCandidate {
  cand_job : string;
  cand_session : string;
  cand_command : string;
  cand_finalEventSequence : Z;
  cand_alreadySettled : bool
}.

(** ** Counting and listing *)
Definition active_session (r : SessionRow) : bool :=
  match s_state r with
  | SessionStateRequested | SessionStateCreating | SessionStateReady | SessionStateBusy | SessionStateClosing => true
  | _ => false
  end.

Definition CountActiveSessions (s : AuthorityStore) : nat :=
  size (filter (fun '(_, r) => active_session r = true) (exec_sessions (db s))).

Definition CountRunningCommands (s : AuthorityStore) : nat :=
  size (filter (fun '(_, r) => active_command r = true) (exec_commands (db s))).

Definition ListNonterminalJobIDs (s : AuthorityStore) : result (list string) :=
  withReadTransaction s
    (rows ← query (fun d => merge_sort (listed_le j_created_at)
                     (filter (fun '(_, j) => nonterminal_phase (j_phase j) = true) (map_to_list (exec_jobs d))));
     lift (mapM_result (fun '(rawID, _) => result_map_err (fun _ => ErrJobPayloadCorrupt) (NewJobID rawID)) rows)).

(** ** Validation *)
Fixpoint validateJobIDs (seen jobIDs : list string) : result (list string) :=
  match jobIDs with
  | [] => Ok []
  | jobID :: rest =>
      value ← NewJobID jobID;
      refuse_if (bool_decide (value ∈ seen)) ErrClosedCancelledJobSettlementNotEligible;;
      validated ← validateJobIDs (value :: seen) rest;
      Ok (value :: validated)
  end.

Definition validateClosedCancelledJobSettlementIDs (jobIDs : list string) : result (list string) :=
  refuse_if (is_nil jobIDs) ErrClosedCancelledJobSettlementNotEligible;;
  validateJobIDs [] jobIDs.

(** ** Candidates *)
Definition requireExactlyQueuedThenCancelledEvents (commandID : string) : tx unit :=
  rows ← query (fun d => merge_sort event_le (rows_of (exec_command_events d) commandID));
  fail_if (match rows with
           | [first; second] =>
               negb (e_sequence first =? 1) || negb (bool_decide (e_type first = command_queued))
               || negb (e_sequence second =? 2) || negb (bool_decide (e_type second = command_cancelled))
           | _ => true
           end) ErrClosedCancelledJobSettlementNotEligible.

Definition nonterminal_command (r : CommandRow) : bool :=
  match c_state r with CommandStateQueued | CommandStateRunning | CommandStateCancelling => true | _ => false end.

(** The result a settled job carries. *)
Definition settled_job (final : Z) (job : JobRow) : bool :=
  bool_decide (j_command_state job = Some CommandStateCancelled) && negb (is_Some_b (j_exit_code job))
  && bool_decide (j_final_event_sequence job = Some final)
  && negb (j_output_truncated job) && j_output_complete job && is_empty (j_output_unavailable_reason job)
  && bool_decide (j_teardown_state job = JobTeardownClosed) && bool_decide (j_teardown_reason job = "runtime_closed").

Definition readClosedCancelledJobSettlementCandidate (jobID : string) : tx closedCancelledJobSettlementCandidate :=
  let notEligible := ErrClosedCancelledJobSettlementNotEligible in
  d ← query (fun d => d);
  job ← or_fail (exec_jobs d !! jobID) ErrJobNotFound;
  session ← or_fail (exec_sessions d !! j_session_id job) ErrJobNotFound;
  command ← or_fail (exec_commands d !! j_command_id job) ErrJobNotFound;
  reservation ← or_fail (exec_capacity_reservations d !! j_session_id job) ErrJobNotFound;
  let slot := exec_command_slots d !! j_command_id job in
  lift (result_map_err (fun _ => notEligible) (NewJobID jobID));;
  sessionID ← lift (result_map_err (fun _ => notEligible) (NewSessionID (j_session_id job)));
  commandID ← lift (result_map_err (fun _ => notEligible) (NewCommandID (j_command_id job)));
  fail_if (negb (bool_decide (c_session_id command = j_session_id job))
           || negb (bool_decide (s_state session = SessionStateClosed))
           || negb (bool_decide (c_state command = CommandStateCancelled))) notEligible;;
  fail_if (is_Some_b (c_exit_code command) || negb (bool_decide (c_final_event_sequence command = Some 2))
           || c_output_truncated command || negb (c_output_complete command)) notEligible;;
  fail_if (negb (bool_decide (r_host_key reservation = reservationHostKey))
           || negb (is_Some_b (r_cleanup_confirmed_at reservation)) || negb (is_Some_b (r_released_at reservation)))
    notEligible;;
  fail_if (match slot with
           | Some sl => negb (bool_decide (sl_host_key sl = schedulerHostKey))
                        || xorb (is_Some_b (sl_stop_confirmed_at sl)) (is_Some_b (sl_released_at sl))
                        || negb (is_Some_b (sl_stop_confirmed_at sl))
           | None => false
           end) notEligible;;
  fail_if (existsb (fun '(id, r) => negb (bool_decide (id = j_command_id job)) && nonterminal_command r)
             (session_commands (j_session_id job) d)) notEligible;;
  requireExactlyQueuedThenCancelledEvents commandID;;
  let alreadySettled := bool_decide (j_phase job = JobPhaseComplete) in
  fail_if (negb alreadySettled && (negb (bool_decide (j_phase job = JobPhaseAwaitingCommand))
                                   || negb (bool_decide (j_teardown_state job = JobTeardownPending)))) notEligible;;
  fail_if (alreadySettled && negb (settled_job 2 job)) notEligible;;
  mret (mkSettlementCandidate jobID sessionID commandID 2 alreadySettled).

Definition closedCancelledJobSettlementResults (candidates : list closedCancelledJobSettlementCandidate)
    : list ClosedCancelledJobSettlement :=
  (fun c => mkClosedCancelledJobSettlement (cand_job c) (cand_session c) (cand_command c) (cand_alreadySettled c))
  <$> candidates.

Definition CheckClosedCancelledOneOffJobs (s : AuthorityStore) (jobIDs : list string)
    : result (list ClosedCancelledJobSettlement) :=
  validated ← validateClosedCancelledJobSettlementIDs jobIDs;
  withReadTransaction s
    (candidates ← read_each readClosedCancelledJobSettlementCandidate validated;
     mret (closedCancelledJobSettlementResults candidates)).

(** ** Settlement *)

(** [SET phase = ?, command_state = ?, exit_code = NULL, ...] *)
Definition job_settled (final now : Z) (j : JobRow) : JobRow :=
  mkJobRow (j_session_id j) (j_command_id j) (j_controller j) (j_ingress j) (j_target j) (j_environment j) (j_source j)
    (j_request_hash_version j) (j_request_hash j) (j_idempotency_key j) (j_payload_json j) (j_script_bytes j)
    (j_script_sha256 j) JobPhaseComplete (Some CommandStateCancelled) None (Some final) false true ""
    JobTeardownClosed "runtime_closed" (j_created_at j) (formatStoredTime now).

Definition awaiting_job (j : JobRow) : bool := bool_decide (j_phase j = JobPhaseAwaitingCommand).

Fixpoint settleCandidates (now : Z) (candidates : list closedCancelledJobSettlementCandidate) : tx unit :=
  match candidates with
  | [] => mret tt
  | c :: rest =>
      (if cand_alreadySettled c then mret tt
       else
         changed ← update_job (cand_job c) awaiting_job (job_settled (cand_finalEventSequence c) now)
                     (ErrSQL "settle closed cancelled job");
         fail_if (negb (changed =? 1)) ErrClosedCancelledJobSettlementNotEligible);;
      settleCandidates now rest
  end.

Definition SettleClosedCancelledOneOffJobs (s : AuthorityStore) (now : Z) (jobIDs : list string)
    : result (list ClosedCancelledJobSettlement) * AuthorityStore :=
  with_valid s (validateClosedCancelledJobSettlementIDs jobIDs) (fun validated =>
  withImmediateTransaction s
    (candidates ← read_each readClosedCancelledJobSettlementCandidate validated;
     settleCandidates now candidates;;
     mret (closedCancelledJobSettlementResults candidates))).

(** ** The reads do not write *)
#[export] Instance readSettlementCandidate_ro id : ReadOnly (readClosedCancelledJobSettlementCandidate id).
Proof. unfold readClosedCancelledJobSettlementCandidate, requireExactlyQueuedThenCancelledEvents. cbv zeta. apply _. Qed.
