(* ===== verification/Authority.v ===== *)
(** * The authority as a transition system

    The abstract steps of the execution authority on the seven tables it owns
    (sessions, lifecycle, reservations, commands, events, slots, jobs), each labelled
    with the event handed to the subscribers, and the invariants every sequence
    of steps keeps.  [AuthorityOps] shows that every operation of the store is a
    sequence of these steps. *)
From S2P Require Import Prelude GoStrings Sha256 Identity Lifecycle Policy Canonical LaneAdmission.
From S2P Require Import AuditRecords Db AuditStore AdmissionStore Idempotency Sessions Commands LostRecovery.
From S2P Require Import RestartPlan Jobs Scheduler.

(** ** Specifications of the histories *)

(** The rows of a session's lifecycle are a walk along the D-01 edges. *)
Inductive session_history : list LifecycleRow -> SessionState -> Prop :=
  | history_created reason t :
      session_history [mkLifecycleRow 1 None SessionStateCreating reason t] SessionStateCreating
  | history_moved rows current next reason t :
      session_history rows current -> session_edge current next ->
      session_history (rows ++ [mkLifecycleRow (Z.of_nat (length rows) + 1) (Some current) next reason t]) next.

(** The events that record a change of state and the output events. *)
Definition output_event (t : EventType) : bool :=
  match t with stdout | stderr | output_truncated => true | _ => false end.

(** The rows of a command's event stream record a run of its state machine. *)
Inductive command_stream : list EventRow -> CommandState -> Prop :=
  | stream_queued t : command_stream [mkEventRow 1 command_queued "" 0 t] CommandStateQueued
  | stream_started rows t :
      command_stream rows CommandStateQueued ->
      command_stream (rows ++ [mkEventRow (Z.of_nat (length rows) + 1) command_started "" 0 t]) CommandStateRunning
  | stream_output rows st type payload n t :
      command_stream rows st -> st = CommandStateRunning \/ st = CommandStateCancelling ->
      output_event type = true -> validateStoredCommandEvent type (Z.of_nat (length rows) + 1) payload n = Ok tt ->
      command_stream (rows ++ [mkEventRow (Z.of_nat (length rows) + 1) type payload n t]) st
  | stream_cancelling rows :
      command_stream rows CommandStateRunning -> command_stream rows CommandStateCancelling
  | stream_finished rows st next type t :
      command_stream rows st -> command_edge st next -> CommandState_IsTerminal next = true ->
      commandEventTypeForState next = Some type ->
      command_stream (rows ++ [mkEventRow (Z.of_nat (length rows) + 1) type "" 0 t]) next.

(** ** Steps *)
Definition event_row_of (ev : CommandEventRecord) : EventRow :=
  mkEventRow (ev_Sequence ev) (ev_Type ev) (ev_Payload ev) (ev_ByteCount ev) (formatStoredTime (ev_OccurredAt ev)).

Definition append_event (ev : CommandEventRecord) (d : DB) : DB :=
  set_events (<[ev_CommandID ev := rows_of (exec_command_events d) (ev_CommandID ev) ++ [event_row_of ev]]>
                (exec_command_events d)) d.
Definition put_command (id : string) (row : CommandRow) (d : DB) : DB :=
  set_commands (<[id := row]> (exec_commands d)) d.
Definition put_slot (id : string) (row : SlotRow) (d : DB) : DB :=
  set_slots (<[id := row]> (exec_command_slots d)) d.
Definition put_reservation (id : string) (row : ReservationRow) (d : DB) : DB :=
  set_reservations (<[id := row]> (exec_capacity_reservations d)) d.
Definition append_lifecycle (id : string) (row : LifecycleRow) (d : DB) : DB :=
  set_lifecycle (<[id := rows_of (exec_session_lifecycle d) id ++ [row]]> (exec_session_lifecycle d)) d.
Definition put_session (id : string) (row : SessionRow) (d : DB) : DB :=
  set_sessions (<[id := row]> (exec_sessions d)) d.
Definition put_job (id : string) (row : JobRow) (d : DB) : DB := set_jobs (<[id := row]> (exec_jobs d)) d.

(** The next event of a command. *)
Definition stream_event (id : string) (type : EventType) (payload : string) (n now : Z) (d : DB) : CommandEventRecord :=
  mkCommandEventRecord id (Z.of_nat (length (rows_of (exec_command_events d) id)) + 1) type payload n now.

Record same_core (d d' : DB) : Prop := {
  core_sessions : exec_sessions d' = exec_sessions d;
  core_lifecycle : exec_session_lifecycle d' = exec_session_lifecycle d;
  core_reservations : exec_capacity_reservations d' = exec_capacity_reservations d;
  core_commands : exec_commands d' = exec_commands d;
  core_events : exec_command_events d' = exec_command_events d;
  core_slots : exec_command_slots d' = exec_command_slots d;
  core_jobs : exec_jobs d' = exec_jobs d
}.

(** The columns of a session that never change. *)
Definition same_session (r r' : SessionRow) : Prop :=
  s_target r' = s_target r /\ s_environment r' = s_environment r /\ s_controller r' = s_controller r /\
  s_source r' = s_source r /\ s_limits r' = s_limits r /\ s_created_at r' = s_created_at r /\
  s_expires_at r' = s_expires_at r.

(** The columns of a job that never change. *)
Definition same_job (j j' : JobRow) : Prop :=
  j_session_id j' = j_session_id j /\ j_command_id j' = j_command_id j /\ j_controller j' = j_controller j /\
  j_ingress j' = j_ingress j /\ j_target j' = j_target j /\ j_environment j' = j_environment j /\
  j_source j' = j_source j /\ j_request_hash_version j' = j_request_hash_version j /\
  j_request_hash j' = j_request_hash j /\ j_idempotency_key j' = j_idempotency_key j /\
  j_payload_json j' = j_payload_json j /\ j_script_bytes j' = j_script_bytes j /\
  j_script_sha256 j' = j_script_sha256 j /\ j_created_at j' = j_created_at j.

(** The row can be read back. *)
Definition job_readable (id : string) (j : JobRow) : Prop := exists record, decodeJobRow id j = Ok record.

Definition older_terminal (d : DB) (c : CommandRow) : Prop :=
  forall id' c', exec_commands d !! id' = Some c' -> c_session_id c' = c_session_id c ->
    c_ordinal c' < c_ordinal c -> CommandState_IsTerminal (c_state c') = true.

Section steps.
Context (maxSlots maxSessions : Z).

Inductive step : DB -> option CommandEventRecord -> DB -> Prop :=
  | step_frame d d' : same_core d d' -> step d None d'
  | step_create d id row reason now :
      exec_sessions d !! id = None -> exec_capacity_reservations d !! id = None ->
      s_state row = SessionStateCreating -> count_live_reservations d < maxSessions ->
      step d None
        (put_reservation id (mkReservationRow reservationHostKey (formatStoredTime now) None None)
          (append_lifecycle id (mkLifecycleRow 1 None SessionStateCreating reason (formatStoredTime now))
            (put_session id row d)))
  | step_session d id r row reason now :
      exec_sessions d !! id = Some r -> session_edge (s_state r) (s_state row) -> same_session r row ->
      step d None
        (append_lifecycle id (mkLifecycleRow (next_lifecycle_sequence id d) (Some (s_state r)) (s_state row) reason
                                (formatStoredTime now)) (put_session id row d))
  | step_reservation d id r now :
      exec_capacity_reservations d !! id = Some r -> r_cleanup_confirmed_at r = None ->
      step d None (put_reservation id (reservation_released now r) d)
  | step_accept d id row now :
      exec_commands d !! id = None -> rows_of (exec_command_events d) id = [] ->
      is_Some (exec_sessions d !! c_session_id row) ->
      c_state row = CommandStateQueued -> c_final_event_sequence row = None ->
      c_ordinal row = Z.of_nat (length (session_commands (c_session_id row) d)) + 1 ->
      step d (Some (mkCommandEventRecord id 1 command_queued "" 0 now))
        (append_event (mkCommandEventRecord id 1 command_queued "" 0 now) (put_command id row d))
  | step_output d id c type payload n now :
      exec_commands d !! id = Some c -> active_command c = true -> output_event type = true ->
      validateStoredCommandEvent type (ev_Sequence (stream_event id type payload n now d)) payload n = Ok tt ->
      step d (Some (stream_event id type payload n now d)) (append_event (stream_event id type payload n now d) d)
  | step_cancel d id c now :
      exec_commands d !! id = Some c -> c_state c = CommandStateRunning ->
      step d None (put_command id (command_with_state CommandStateCancelling now c) d)
  | step_finish d id c input type now :
      exec_commands d !! id = Some c -> command_edge (c_state c) (ct_NextState input) ->
      CommandState_IsTerminal (ct_NextState input) = true ->
      commandEventTypeForState (ct_NextState input) = Some type ->
      step d (Some (stream_event id type "" 0 now d))
        (put_command id (command_terminal input (ev_Sequence (stream_event id type "" 0 now d)) now c)
           (append_event (stream_event id type "" 0 now d) d))
  | step_claim d id c now :
      exec_commands d !! id = Some c -> c_state c = CommandStateQueued -> exec_command_slots d !! id = None ->
      older_terminal d c -> count_live_slots d < maxSlots ->
      step d (Some (stream_event id command_started "" 0 now d))
        (put_command id (command_with_state CommandStateRunning now c)
           (append_event (stream_event id command_started "" 0 now d)
              (put_slot id (mkSlotRow schedulerHostKey (formatStoredTime now) None None) d)))
  | step_slot d id c r now :
      exec_commands d !! id = Some c -> CommandState_IsTerminal (c_state c) = true ->
      exec_command_slots d !! id = Some r -> sl_stop_confirmed_at r = None ->
      step d None (put_slot id (slot_released now r) d)
  | step_job_accept d id j :
      exec_jobs d !! id = None -> job_conflicts j d = false -> job_readable id j -> j_phase j = JobPhaseCreatingSession ->
      step d None (put_job id j d)
  | step_job_update d id j j' :
      exec_jobs d !! id = Some j -> same_job j j' -> job_readable id j' -> step d None (put_job id j' d).

(** A sequence of steps and the events it hands to the subscribers. *)
Inductive steps : DB -> list CommandEventRecord -> DB -> Prop :=
  | steps_nil d : steps d [] d
  | steps_cons d label d1 events d2 :
      step d label d1 -> steps d1 events d2 -> steps d (option_list label ++ events) d2.
End steps.

Ltac step_db := unfold append_event, put_command, put_slot, put_reservation, append_lifecycle, put_session, put_job in *; db_simpl.

(** ** Rows of a keyed table *)
Lemma rows_of_insert {A} (t : gmap string (list A)) id l id' :
  rows_of (<[id := l]> t) id' = if decide (id = id') then l else rows_of t id'.
Proof. unfold rows_of. rewrite lookup_insert. by case_decide. Qed.

(** ** Lifecycle histories *)
Definition lifecycles_ok (d : DB) : Prop :=
  (forall id r, exec_sessions d !! id = Some r -> session_history (rows_of (exec_session_lifecycle d) id) (s_state r)) /\
  (forall id, exec_sessions d !! id = None -> rows_of (exec_session_lifecycle d) id = []).

Lemma history_sequences rows st :
  session_history rows st -> l_sequence <$> rows = seqZ 1 (Z.of_nat (length rows)).
Proof.
  induction 1 as [|rows st next reason t _ IH]; [done|].
  rewrite fmap_app, IH, length_app. simpl. rewrite Nat2Z.inj_add, seqZ_app by lia. simpl.
  by rewrite (Z.add_comm 1).
Qed.

Lemma foldr_max_seqZ n : foldr Z.max 0 (seqZ 1 (Z.of_nat n)) = Z.of_nat n.
Proof.
  enough (forall m k, 0 <= m -> foldr Z.max m (seqZ (m + 1) (Z.of_nat k)) = m + Z.of_nat k) as H.
  { specialize (H 0 n). rewrite Z.add_0_l in H. apply H. lia. }
  intros m k. revert m. induction k as [|k IH]; intros m Hm; [simpl; lia|].
  rewrite seqZ_S, foldr_snoc.
  assert (forall l a b, foldr Z.max (Z.max a b) l = Z.max a (foldr Z.max b l)) as Hmax.
  { induction l; intros; simpl; [done|]. rewrite IHl. lia. }
  rewrite Hmax, IH by lia. lia.
Qed.

Lemma history_next rows st :
  session_history rows st -> foldr Z.max 0 (l_sequence <$> rows) + 1 = Z.of_nat (length rows) + 1.
Proof. intros H. by rewrite (history_sequences _ _ H), foldr_max_seqZ. Qed.

Lemma step_lifecycles N M d l d' : step N M d l d' -> lifecycles_ok d -> lifecycles_ok d'.
Proof.
  intros Hstep [H1 H2]. destruct Hstep as [d d' [Hs Hl _ _ _ _ _]| | |d id r now|d id row now|d id c type payload n now
    |d id c now|d id c input type now|d id c now|d id c r now| |]; try exact (conj H1 H2).
  - unfold lifecycles_ok. by rewrite Hs, Hl.
  - split; intros id' *; step_db; rewrite rows_of_insert, lookup_insert; case_decide as Hid; subst.
    + intros [= <-]. rewrite H2, H3 by done. constructor.
    + apply H1.
    + done.
    + apply H2.
  - split; intros id' *; step_db; rewrite rows_of_insert, lookup_insert; case_decide as Hid; subst.
    + intros [= <-]. unfold next_lifecycle_sequence. pose proof (H1 _ _ H) as Hh.
      rewrite (history_next _ _ Hh). by constructor.
    + apply H1.
    + done.
    + apply H2.
Qed.

(** ** Event streams *)
Definition final_sequence (st : CommandState) (rows : list EventRow) : option Z :=
  if CommandState_IsTerminal st then Some (Z.of_nat (length rows)) else None.

Definition streams_ok (d : DB) : Prop :=
  (forall id c, exec_commands d !! id = Some c ->
     command_stream (rows_of (exec_command_events d) id) (c_state c) /\
     c_final_event_sequence c = final_sequence (c_state c) (rows_of (exec_command_events d) id)) /\
  (forall id, exec_commands d !! id = None -> rows_of (exec_command_events d) id = []).

Lemma stream_sequences rows st :
  command_stream rows st -> e_sequence <$> rows = seqZ 1 (Z.of_nat (length rows)).
Proof.
  induction 1 as [|rows t _ IH|rows st type payload n t _ IH _ _ _| |rows st next type t _ IH _ _ _];
    [done| | |done|]; rewrite fmap_app, IH, length_app; simpl; rewrite Nat2Z.inj_add, seqZ_app by lia; simpl;
    by rewrite (Z.add_comm 1).
Qed.

Lemma stream_valid rows st : command_stream rows st -> st <> CommandStateOther "" /\ CommandState_Valid st = true.
Proof.
  induction 1 as [| |rows st type payload n t _ IH _ _ _| |rows st next type t _ IH _ Ht _]; [done|done|done|done|].
  by destruct next.
Qed.

(** No step leaves a terminal state. *)
Lemma terminal_no_edge st next : CommandState_IsTerminal st = true -> ~ command_edge st next.
Proof. unfold command_edge. destruct st; simpl; try done; intros _; by apply not_elem_of_nil. Qed.

Lemma active_state c : active_command c = true <-> c_state c = CommandStateRunning \/ c_state c = CommandStateCancelling.
Proof. unfold active_command. destruct (c_state c); naive_solver. Qed.

Lemma active_not_terminal c : active_command c = true -> CommandState_IsTerminal (c_state c) = false.
Proof. rewrite active_state. by intros [-> | ->]. Qed.

Lemma step_streams N M d l d' : step N M d l d' -> streams_ok d -> streams_ok d'.
Proof.
  intros Hstep [H1 H2]. destruct Hstep as [d d' [_ _ _ Hc He _ _]| | | |d id row now Hno Hev _ Hst Hf _
    |d id c type payload n now Hc Ha Ho Hv|d id c now Hc Hst|d id c input type now Hc Hedge Ht Hty
    |d id c now Hc Hst _ _ _| | |]; try exact (conj H1 H2).
  - unfold streams_ok. by rewrite Hc, He.
  - split; intros id' *; step_db; cbn [ev_CommandID]; rewrite rows_of_insert, lookup_insert; case_decide as Hid;
      subst; try done.
    + intros [= <-]. rewrite Hev, Hst. split; [constructor|]. by rewrite Hf.
    + apply H1.
    + apply H2.
  - unfold stream_event in *. cbn [ev_Sequence] in Hv.
    split; intros id' *; step_db; cbn [ev_CommandID]; rewrite rows_of_insert; case_decide as Hid; subst.
    + rewrite Hc. intros [= <-]. destruct (H1 _ _ Hc) as [Hs Hf]. rewrite active_state in Ha. split.
      * by constructor.
      * rewrite Hf. unfold final_sequence. destruct Ha as [-> | ->]; done.
    + apply H1.
    + by rewrite Hc.
    + apply H2.
  - split; intros id' *; step_db; rewrite lookup_insert; case_decide as Hid; subst; try done.
    + intros [= <-]. destruct (H1 _ _ Hc) as [Hs Hf]. rewrite Hst in Hs, Hf. split; [by constructor|]. done.
    + apply H1.
    + apply H2.
  - unfold stream_event in *. split; intros id' *; step_db; cbn [ev_CommandID]; rewrite rows_of_insert, lookup_insert;
      case_decide as Hid; subst; try done.
    + intros [= <-]. destruct (H1 _ _ Hc) as [Hs Hf]. split; [by econstructor|].
      unfold final_sequence. cbn [command_terminal c_final_event_sequence c_state ev_Sequence].
      rewrite Ht, length_app. simpl. f_equal. lia.
    + apply H1.
    + apply H2.
  - unfold stream_event in *. split; intros id' *; step_db; cbn [ev_CommandID]; rewrite rows_of_insert, lookup_insert;
      case_decide as Hid; subst; try done.
    + intros [= <-]. destruct (H1 _ _ Hc) as [Hs Hf]. rewrite Hst in Hs, Hf. split; [by constructor|]. done.
    + apply H1.
    + apply H2.
Qed.

(** ** The published log *)
Definition published_ok (d : DB) (log : list CommandEventRecord) : Prop :=
  forall id, rows_of (exec_command_events d) id = event_row_of <$> filter (fun ev => ev_CommandID ev = id) log.

Lemma append_event_published d log ev :
  published_ok d log -> published_ok (append_event ev d) (log ++ [ev]).
Proof.
  intros H id. step_db. rewrite rows_of_insert, filter_app, fmap_app, <- H. case_decide as Hid; subst.
  - by rewrite filter_cons_True.
  - rewrite filter_cons_False by done. by rewrite app_nil_r.
Qed.

Lemma published_events_eq d d' log :
  exec_command_events d' = exec_command_events d -> published_ok d log -> published_ok d' log.
Proof. unfold published_ok. by intros ->. Qed.

Lemma step_published N M d l d' log :
  step N M d l d' -> published_ok d log -> published_ok d' (log ++ option_list l).
Proof.
  intros Hstep Hp. destruct Hstep as [d d' [_ _ _ _ He _ _]| | | |d id row now| | | |d id c now| | |];
    simpl; rewrite ?app_nil_r; try exact Hp.
  - by eapply published_events_eq.
  - by apply append_event_published.
  - by apply append_event_published.
  - by apply (append_event_published d).
  - by apply (append_event_published (put_slot id _ d)).
Qed.

(** ** Command order *)
Definition row_ordinal (x : string * CommandRow) : Z := c_ordinal (snd x).

Record orders_ok (d : DB) : Prop := {
  oo_contiguous : forall sid, row_ordinal <$> session_commands sid d ≡ₚ seqZ 1 (Z.of_nat (length (session_commands sid d)));
  oo_active : forall id c, exec_commands d !! id = Some c -> active_command c = true -> older_terminal d c;
  oo_session : forall id c, exec_commands d !! id = Some c -> is_Some (exec_sessions d !! c_session_id c)
}.

Lemma session_commands_eq sid d d' :
  exec_commands d' = exec_commands d -> session_commands sid d' = session_commands sid d.
Proof. unfold session_commands. by intros ->. Qed.

Lemma elem_of_session_commands sid d id c :
  (id, c) ∈ session_commands sid d <-> exec_commands d !! id = Some c /\ c_session_id c = sid.
Proof.
  unfold session_commands. rewrite list_elem_of_filter, elem_of_map_to_list. tauto.
Qed.

Lemma session_commands_fresh sid d id row :
  exec_commands d !! id = None ->
  session_commands sid (put_command id row d) ≡ₚ
  (if decide (c_session_id row = sid) then [(id, row)] else []) ++ session_commands sid d.
Proof.
  intros H. unfold session_commands. step_db. rewrite map_to_list_insert by done. rewrite filter_cons.
  case_decide; case_decide; done.
Qed.

Lemma session_commands_replace sid d id c c' :
  exec_commands d !! id = Some c -> c_session_id c' = c_session_id c -> c_ordinal c' = c_ordinal c ->
  row_ordinal <$> session_commands sid (put_command id c' d) ≡ₚ row_ordinal <$> session_commands sid d.
Proof.
  intros H Hs Ho. set (d0 := set_commands (delete id (exec_commands d)) d).
  assert (forall x, exec_commands (put_command id x d0) = <[id := x]> (exec_commands d)) as Hput.
  { intros x. unfold d0. step_db. by rewrite insert_delete_eq. }
  assert (exec_commands d0 !! id = None) as Hno by apply lookup_delete_eq.
  rewrite <- (session_commands_eq sid (put_command id c' d) (put_command id c' d0)) by (by rewrite Hput).
  rewrite <- (session_commands_eq sid d (put_command id c d0)) by (rewrite Hput; by apply insert_id).
  rewrite !session_commands_fresh, Hs by done. case_decide; [|done]. simpl. unfold row_ordinal. cbn [snd]. by rewrite Ho.
Qed.

Lemma ordinals_bounded d sid id c :
  orders_ok d -> exec_commands d !! id = Some c -> c_session_id c = sid ->
  1 <= c_ordinal c <= Z.of_nat (length (session_commands sid d)).
Proof.
  intros [Hp _ _] Hc Hs. assert (c_ordinal c ∈ row_ordinal <$> session_commands sid d) as Hin.
  { apply list_elem_of_fmap. exists (id, c). split; [done|]. by apply elem_of_session_commands. }
  rewrite Hp in Hin. apply elem_of_seqZ in Hin. lia.
Qed.

Lemma older_terminal_eq d d' c : exec_commands d' = exec_commands d -> older_terminal d c -> older_terminal d' c.
Proof. unfold older_terminal. by intros ->. Qed.

Lemma older_terminal_put d id c c' x :
  exec_commands d !! id = Some c -> c_session_id c' = c_session_id c -> c_ordinal c' = c_ordinal c ->
  (CommandState_IsTerminal (c_state c) = true -> CommandState_IsTerminal (c_state c') = true) ->
  older_terminal d x -> older_terminal (put_command id c' d) x.
Proof.
  intros Hc Hs Ho Ht Hx id' y. step_db. rewrite lookup_insert. case_decide as Hid; [|apply Hx].
  intros [= <-]. subst. rewrite Hs, Ho. intros. apply Ht. by eapply Hx.
Qed.

Lemma orders_put d id c c' :
  orders_ok d -> exec_commands d !! id = Some c -> c_session_id c' = c_session_id c -> c_ordinal c' = c_ordinal c ->
  (CommandState_IsTerminal (c_state c) = true -> CommandState_IsTerminal (c_state c') = true) ->
  (active_command c' = true -> older_terminal d c) -> orders_ok (put_command id c' d).
Proof.
  intros Hok Hc Hs Ho Ht Hact. destruct (Hok) as [H1 H2 H3].
  assert (Heq := fun sid => session_commands_replace sid d id c c' Hc Hs Ho). split.
  - intros sid. assert (Hlen := Permutation_length (Heq sid)). rewrite !length_fmap in Hlen.
    rewrite Heq, Hlen. apply H1.
  - intros id' x Hx Ha. eapply (older_terminal_put d id c c'); try done.
    step_db. rewrite lookup_insert in Hx. case_decide as Hid; [|by eapply H2].
    injection Hx as <-. specialize (Hact Ha). intros i y Hy. rewrite Hs, Ho. by eapply Hact.
  - intros id' x. step_db. rewrite lookup_insert. case_decide; [|apply H3]. intros [= <-]. rewrite Hs. by eapply H3.
Qed.

Lemma orders_eq d d' :
  exec_commands d' = exec_commands d ->
  (forall sid, is_Some (exec_sessions d !! sid) -> is_Some (exec_sessions d' !! sid)) ->
  orders_ok d -> orders_ok d'.
Proof.
  intros Hc Hs [H1 H2 H3]. split; [intros sid; rewrite (session_commands_eq _ _ _ Hc); apply H1|..];
    rewrite Hc; [|naive_solver].
  intros id c Hid Ha. eapply older_terminal_eq, H2; done.
Qed.

Lemma is_Some_insert {A} (m : gmap string A) id x sid : is_Some (m !! sid) -> is_Some (<[id := x]> m !! sid).
Proof. rewrite lookup_insert. case_decide; [done|auto]. Qed.

Lemma orders_accept d id row :
  exec_commands d !! id = None -> is_Some (exec_sessions d !! c_session_id row) ->
  c_state row = CommandStateQueued ->
  c_ordinal row = Z.of_nat (length (session_commands (c_session_id row) d)) + 1 ->
  orders_ok d -> orders_ok (put_command id row d).
Proof.
  intros Hno Hses Hst Hord Hok. destruct (Hok) as [H1 H2 H3]. split.
  - intros sid. rewrite session_commands_fresh by done. case_decide as Hsid; [|apply H1]. subst.
    rewrite fmap_app, length_app. simpl. rewrite H1. unfold row_ordinal at 1. cbn [snd]. rewrite Hord.
    rewrite (seqZ_S 1 (length _)). rewrite (Z.add_comm 1). by rewrite Permutation_app_comm.
  - intros id' x Hx Ha id2 y Hy Hsy Hlt. step_db. rewrite lookup_insert_Some in Hx, Hy.
    destruct Hx as [[_ <-]|[_ Hx]]; [rewrite active_state, Hst in Ha; by destruct Ha|].
    destruct Hy as [[_ <-]|[_ Hy]]; [|by eapply (H2 _ x)].
    pose proof (ordinals_bounded _ _ _ _ Hok Hx eq_refl). rewrite Hord, Hsy in Hlt. lia.
  - intros id' x. step_db. rewrite lookup_insert. case_decide; [|apply H3]. by intros [= <-].
Qed.

Lemma step_orders N M d l d' : step N M d l d' -> orders_ok d -> orders_ok d'.
Proof.
  intros Hstep H. destruct Hstep as [d d' [Hs _ _ Hc _ _ _]|d id row reason now|d id r row reason now|
    |d id row now Hno Hev Hses Hst Hf Hord| |d id c now Hc Hst|d id c input type now Hc Hedge Ht Hty
    |d id c now Hc Hst _ Hold _| | |]; try (revert H; apply orders_eq; done).
  - revert H. apply orders_eq; [done|]. by rewrite Hs.
  - revert H. apply orders_eq; [done|]. intros sid. step_db. apply is_Some_insert.
  - revert H. apply orders_eq; [done|]. intros sid. step_db. apply is_Some_insert.
  - apply (orders_accept d id row) in H; try done. revert H. by apply orders_eq.
  - eapply orders_put; try done; [by rewrite Hst|]. intros _. eapply oo_active; try done. by rewrite active_state, Hst; left.
  - eapply (orders_put (append_event _ d)); try done; [revert H; by apply orders_eq|].
    rewrite active_state. cbn [command_terminal c_state]. intros [E|E]; by rewrite E in Ht.
  - eapply (orders_put (append_event _ (put_slot id _ d))); try done; [revert H; by apply orders_eq|by rewrite Hst].
Qed.

(** ** Counting rows *)
Section counting.
Context {A : Type} (P : string * A -> Prop) `{!forall x, Decision (P x)}.
Implicit Types m : gmap string A.

Lemma size_filter_delete_le m k : (size (filter P (delete k m)) <= size (filter P m))%nat.
Proof. rewrite map_filter_delete, map_size_delete. destruct (_ !! _); simpl; lia. Qed.

Lemma size_filter_insert_le m k v : (size (filter P (<[k := v]> m)) <= S (size (filter P m)))%nat.
Proof.
  destruct (decide (P (k, v))).
  - rewrite map_filter_insert_True, map_size_insert by done. destruct (_ !! _); simpl; lia.
  - rewrite map_filter_insert_False by done. pose proof (size_filter_delete_le m k). lia.
Qed.

Lemma size_filter_insert_False_le m k v :
  ~ P (k, v) -> (size (filter P (<[k := v]> m)) <= size (filter P m))%nat.
Proof. intros. rewrite map_filter_insert_False by done. apply size_filter_delete_le. Qed.
End counting.

(** ** Command slots *)
Record slots_ok (N : Z) (d : DB) : Prop := {
  so_slot : forall id sl, exec_command_slots d !! id = Some sl -> exists c, exec_commands d !! id = Some c /\
    sl_host_key sl = schedulerHostKey /\ (sl_stop_confirmed_at sl = None <-> sl_released_at sl = None) /\
    (sl_stop_confirmed_at sl <> None -> CommandState_IsTerminal (c_state c) = true);
  so_active : forall id c, exec_commands d !! id = Some c -> active_command c = true ->
    exists sl, exec_command_slots d !! id = Some sl /\ sl_stop_confirmed_at sl = None;
  so_count : count_live_slots d <= N
}.

Lemma count_live_slots_eq d d' :
  exec_command_slots d' = exec_command_slots d -> count_live_slots d' = count_live_slots d.
Proof. unfold count_live_slots. by intros ->. Qed.

Lemma slots_eq N d d' :
  exec_commands d' = exec_commands d -> exec_command_slots d' = exec_command_slots d ->
  slots_ok N d -> slots_ok N d'.
Proof.
  intros Hc Hs [H1 H2 H3]. split; rewrite ?Hc, ?Hs; try done. by rewrite (count_live_slots_eq _ _ Hs).
Qed.

(** Updating a command whose slot stays as it is. *)
Lemma slots_put_command N d id c c' :
  exec_commands d !! id = Some c ->
  (CommandState_IsTerminal (c_state c) = true -> CommandState_IsTerminal (c_state c') = true) ->
  (active_command c' = true -> active_command c = true) -> slots_ok N d -> slots_ok N (put_command id c' d).
Proof.
  intros Hc Ht Ha [H1 H2 H3]. split; [| |done]; step_db.
  - intros id' sl Hsl. destruct (H1 _ _ Hsl) as (x & Hx & Hh & Hp & Hr). rewrite lookup_insert.
    case_decide; [|by eauto 10]. subst. rewrite Hc in Hx. injection Hx as <-. eexists. split_and!; [done..|]. auto.
  - intros id' x. rewrite lookup_insert. case_decide; [|apply H2]. intros [= <-]. subst. intros. eapply H2; eauto.
Qed.

Lemma step_slots N M d l d' : step N M d l d' -> slots_ok N d -> slots_ok N d'.
Proof.
  intros Hstep H. destruct Hstep as [d d' [_ _ _ Hc _ Hs _]|d id row reason now|d id r row reason now|
    |d id row now Hno Hev Hses Hst Hf Hord| |d id c now Hc Hst|d id c input type now Hc Hedge Ht Hty
    |d id c now Hc Hst Hno _ Hlt|d id c r now Hc Ht Hr Hnone| |]; try (revert H; by apply slots_eq).
  - apply (slots_eq N (put_command id row d)); [done..|]. destruct H as [H1 H2 H3]. split; [| |done]; step_db.
    + intros id' sl Hsl. destruct (H1 _ _ Hsl) as (x & Hx & ?). exists x. split; [|done].
      rewrite lookup_insert_ne; [done|]. congruence.
    + intros id' x. rewrite lookup_insert. case_decide; [|apply H2]. intros [= <-].
      rewrite active_state, Hst. by intros [|].
  - eapply slots_put_command; try done; [by rewrite Hst|]. rewrite !active_state, Hst. auto.
  - eapply (slots_put_command _ (append_event _ d)); try done; [|revert H; by apply slots_eq].
    rewrite active_state. cbn [command_terminal c_state]. intros [E|E]; by rewrite E in Ht.
  - destruct H as [H1 H2 H3]. split; step_db.
    + intros id' sl. rewrite !lookup_insert. case_decide; [|apply H1]. intros [= <-].
      eexists. split_and!; done.
    + intros id' x. rewrite !lookup_insert. case_decide; [|apply H2]. intros _ _. by eexists.
    + unfold count_live_slots in *. db_simpl.
      pose proof (size_filter_insert_le (fun '(_, r) => sl_host_key r = schedulerHostKey /\ sl_stop_confirmed_at r = None)
        (exec_command_slots d) id (mkSlotRow schedulerHostKey (formatStoredTime now) None None)). lia.
  - destruct H as [H1 H2 H3]. destruct (H1 _ _ Hr) as (x & Hx & Hh & _). rewrite Hc in Hx. injection Hx as <-.
    split; step_db.
    + intros id' sl. rewrite lookup_insert. case_decide; [|apply H1]. subst. intros [= <-]. by exists c.
    + intros id' x Hx Ha. destruct (H2 _ _ Hx Ha) as (sl & Hsl & Hstop). exists sl. split; [|done].
      rewrite lookup_insert_ne; [done|]. intros <-. rewrite Hc in Hx. injection Hx as <-.
      by rewrite active_not_terminal in Ht.
    + unfold count_live_slots in *. db_simpl.
      pose proof (size_filter_insert_False_le (fun '(_, r) => sl_host_key r = schedulerHostKey /\ sl_stop_confirmed_at r = None)
        (exec_command_slots d) id (slot_released now r)) as Hle. apply inj_le in Hle; [lia|]. by intros [].
Qed.

(** ** Capacity reservations *)
Record reservations_ok (M : Z) (d : DB) : Prop := {
  ro_session : forall id, is_Some (exec_capacity_reservations d !! id) <-> is_Some (exec_sessions d !! id);
  ro_row : forall id r, exec_capacity_reservations d !! id = Some r ->
    r_host_key r = reservationHostKey /\ (r_cleanup_confirmed_at r = None <-> r_released_at r = None);
  ro_count : count_live_reservations d <= M
}.

Lemma reservations_eq M d d' :
  exec_capacity_reservations d' = exec_capacity_reservations d ->
  (forall id, is_Some (exec_sessions d' !! id) <-> is_Some (exec_sessions d !! id)) ->
  reservations_ok M d -> reservations_ok M d'.
Proof.
  intros Hr Hs [H1 H2 H3]. split; rewrite ?Hr; try done.
  - intros id. by rewrite Hs.
  - unfold count_live_reservations. by rewrite Hr.
Qed.

Lemma is_Some_insert_iff {A} (m : gmap string A) id x i :
  is_Some (m !! id) -> is_Some (<[id := x]> m !! i) <-> is_Some (m !! i).
Proof. intros. rewrite lookup_insert. case_decide; subst; [|done]. split; [done|by eexists]. Qed.

Lemma step_reservations N M d l d' : step N M d l d' -> reservations_ok M d -> reservations_ok M d'.
Proof.
  intros Hstep H. destruct Hstep as [d d' [Hs _ Hr _ _ _ _]|d id row reason now Hno Hres Hst Hlt
    |d id r row reason now Hid Hedge Hsame|d id r now Hr Hnone| | | | | | | |]; try (revert H; by apply reservations_eq).
  - revert H. apply reservations_eq; [done|]. by rewrite Hs.
  - destruct H as [H1 H2 H3]. split; step_db.
    + intros id'. rewrite !lookup_insert. case_decide; [|apply H1]. split; by eexists.
    + intros id' r. rewrite lookup_insert. case_decide; [|apply H2]. by intros [= <-].
    + unfold count_live_reservations in *. db_simpl.
      pose proof (size_filter_insert_le (fun '(_, r) => r_host_key r = reservationHostKey /\ r_cleanup_confirmed_at r = None)
        (exec_capacity_reservations d) id (mkReservationRow reservationHostKey (formatStoredTime now) None None)). lia.
  - revert H. apply reservations_eq; [done|]. intros id'. step_db. apply is_Some_insert_iff. by eexists.
  - destruct H as [H1 H2 H3]. split; step_db.
    + intros id'. rewrite is_Some_insert_iff by (by eexists). apply H1.
    + intros id' r'. rewrite lookup_insert. case_decide; [|apply H2]. intros [= <-]. subst. simpl.
      by destruct (H2 _ _ Hr).
    + unfold count_live_reservations in *. db_simpl.
      pose proof (size_filter_insert_False_le (fun '(_, r) => r_host_key r = reservationHostKey /\ r_cleanup_confirmed_at r = None)
        (exec_capacity_reservations d) id (reservation_released now r)) as Hle.
      apply inj_le in Hle; [lia|]. by intros [].
Qed.

(** ** Jobs *)
Record jobs_ok (d : DB) : Prop := {
  jo_readable : forall id j, exec_jobs d !! id = Some j -> job_readable id j;
  jo_unique : forall id1 j1 id2 j2, exec_jobs d !! id1 = Some j1 -> exec_jobs d !! id2 = Some j2 ->
    j_session_id j1 = j_session_id j2 \/ j_command_id j1 = j_command_id j2 -> id1 = id2
}.

Lemma jobs_eq d d' : exec_jobs d' = exec_jobs d -> jobs_ok d -> jobs_ok d'.
Proof. intros Hj [H1 H2]. split; rewrite Hj; done. Qed.

Lemma conflicts_false j d : job_conflicts j d = false ->
  forall id r, exec_jobs d !! id = Some r -> j_session_id r <> j_session_id j /\ j_command_id r <> j_command_id j.
Proof.
  intros Hf id r Hr. apply not_true_iff_false in Hf. unfold job_conflicts in Hf. rewrite existsb_exists in Hf.
  split; intros E; apply Hf; exists (id, r); (split; [by apply list_elem_of_In, elem_of_map_to_list|]);
    apply orb_true_iff; rewrite !bool_decide_eq_true; auto.
Qed.

Lemma step_jobs N M d l d' : step N M d l d' -> jobs_ok d -> jobs_ok d'.
Proof.
  intros Hstep H. destruct Hstep as [d d' [_ _ _ _ _ _ Hj]| | | | | | | | | |d id j Hno Hcf Hr _|d id j j' Hid Hs Hr];
    try (revert H; by apply jobs_eq); destruct H as [H1 H2].
  - split; step_db.
    + intros id' x. rewrite lookup_insert. case_decide; [|apply H1]. subst. by intros [= <-].
    + intros id1 j1 id2 j2. rewrite !lookup_insert. pose proof (conflicts_false _ _ Hcf) as Hc.
      repeat case_decide; subst; try done; [| |apply H2].
      * intros [= <-] E2 [E|E]; destruct (Hc _ _ E2); congruence.
      * intros E1 [= <-] [E|E]; destruct (Hc _ _ E1); congruence.
  - destruct Hs as (Hs & Hc & _). split; step_db.
    + intros id' x. rewrite lookup_insert. case_decide; [|apply H1]. subst. by intros [= <-].
    + intros id1 j1 id2 j2. rewrite !lookup_insert.
      repeat case_decide; subst; try done; [| |apply H2].
      * intros [= <-] E2. rewrite Hs, Hc. by apply H2.
      * intros E1 [= <-]. rewrite Hs, Hc. by apply H2.
Qed.

(** ** Sequences of steps *)
Record authority_inv (N M : Z) (d : DB) (log : list CommandEventRecord) : Prop := {
  ai_lifecycles : lifecycles_ok d;
  ai_streams : streams_ok d;
  ai_orders : orders_ok d;
  ai_slots : slots_ok N d;
  ai_reservations : reservations_ok M d;
  ai_jobs : jobs_ok d;
  ai_published : published_ok d log
}.

Lemma steps_inv N M d events d' log :
  steps N M d events d' -> authority_inv N M d log -> authority_inv N M d' (log ++ events).
Proof.
  intros Hs. revert log. induction Hs as [d|d l d1 events d2 Hstep _ IH]; intros log H.
  { by rewrite app_nil_r. }
  rewrite app_assoc. apply IH. destruct H. split.
  - by eapply step_lifecycles.
  - by eapply step_streams.
  - by eapply step_orders.
  - by eapply step_slots.
  - by eapply step_reservations.
  - by eapply step_jobs.
  - by eapply step_published.
Qed.

Lemma empty_inv N M : 0 <= N -> 0 <= M -> authority_inv N M empty_db [].
Proof. intros. repeat split; try done; by intros []. Qed.

Lemma steps_app N M d l1 d1 l2 d2 : steps N M d l1 d1 -> steps N M d1 l2 d2 -> steps N M d (l1 ++ l2) d2.
Proof. induction 1; intros; [done|]. rewrite <- app_assoc. econstructor; eauto. Qed.

Lemma steps_one N M d l d' : step N M d l d' -> steps N M d (option_list l) d'.
Proof. intros. rewrite <- (app_nil_r (option_list l)). econstructor; [done|constructor]. Qed.

#[export] Instance same_core_refl : Reflexive same_core.
Proof. by intros []. Qed.
#[export] Instance same_core_trans : Transitive same_core.
Proof. intros d1 d2 d3 [] []. split; congruence. Qed.

Lemma steps_same N M d d' : same_core d d' -> steps N M d [] d'.
Proof. intros. by apply (steps_one N M d None), step_frame. Qed.

Lemma steps_snoc N M d l d1 l' d2 : steps N M d l d1 -> step N M d1 l' d2 -> steps N M d (l ++ option_list l') d2.
Proof. intros. eapply steps_app; [done|by apply steps_one]. Qed.
