(* ===== verification/AuthorityOps.v ===== *)
(** * Refinement: the operations of the store are steps of the authority

    Every operation of [Sessions], [Commands], [LostRecovery], [RestartPlan]
    and [Scheduler] either fails and leaves the store as it was, or is a
    sequence of steps of [Authority], and publishes exactly the events of those
    steps.  The invariants of [Authority] then hold of every reachable store. *)
From S2P Require Import Prelude GoStrings Sha256 Identity Lifecycle Policy Canonical LaneAdmission.
From S2P Require Import AuditRecords Db AuditStore AdmissionStore Idempotency Sessions Commands LostRecovery.
From S2P Require Import RestartPlan Scheduler Authority.

Definition refines (N M : Z) (s s' : AuthorityStore) : Prop :=
  exists events, steps N M (db s) events (db s') /\ published s' = published s ++ events.

Lemma refines_refl N M s : refines N M s s.
Proof. exists []. rewrite app_nil_r. split; [constructor|done]. Qed.

(** A committed transaction that publishes nothing. *)
Lemma refines_tx N M s d' : steps N M (db s) [] d' -> refines N M s (store_db s d').
Proof. exists []. by rewrite app_nil_r. Qed.

Lemma published_logOptionalAudit s saved : published (logOptionalAudit s saved) = published s.
Proof. destruct saved as [x|]; simpl; [|done]. by destruct (0 <? rec_ID x). Qed.

(** ** Frames *)
Lemma idem_frame_core d d' : idem_frame d d' -> same_core d d'.
Proof. intros ->. by split. Qed.

Lemma lookup_core c o k now r d d' : lookupIdempotencyOnConnection c o k now d = Ok (r, d') -> same_core d d'.
Proof. intros [H _]%lookupIdempotency_frame. by apply idem_frame_core. Qed.

Lemma optionalAudit_core record saved d d' :
  insertOptionalAuditOnConnection record d = Ok (saved, d') -> same_core d d'.
Proof. intros [-> _]%insertOptionalAudit_other. by split. Qed.

Lemma recordIdempotency_core r u d d' : recordIdempotencyOnConnection r d = Ok (u, d') -> same_core d d'.
Proof. unfold recordIdempotencyOnConnection. intros (_ & _ & ->)%insert_idempotency_Ok. by split. Qed.

(** ** Sessions *)
Lemma insertSessionAcceptance_steps N M v key hash expires now w u d d' :
  insertSessionAcceptance v key hash expires now w d = Ok (u, d') -> count_live_reservations d < M ->
  steps N M d [] d'.
Proof.
  unfold insertSessionAcceptance. intros H Hlt.
  apply stx_bind_Ok in H as (x & d1 & [<- <-]%query_Ok & H).
  apply stx_bind_Ok in H as ([] & d1 & (_ & Hno & <-)%fail_if_Ok & H).
  apply stx_bind_Ok in H as ([] & d1 & (_ & _ & ->)%insert_session_Ok & H).
  apply stx_bind_Ok in H as ([] & d1 & (_ & _ & ->)%insert_lifecycle_Ok & H).
  apply stx_bind_Ok in H as ([] & d1 & (Hr & _ & ->)%insert_reservation_Ok & H). db_simpl. bool_norm.
  apply (steps_app _ _ _ [] (put_reservation (sc_SessionID v) (mkReservationRow reservationHostKey (formatStoredTime now) None None)
     (append_lifecycle (sc_SessionID v) (mkLifecycleRow 1 None SessionStateCreating (sc_Reason v) (formatStoredTime now))
       (put_session (sc_SessionID v) (new_session_row v now) d))) []).
  - apply (steps_one _ _ _ None), step_create; try done; by apply eq_None_not_Some; intros [? E]; rewrite E in *.
  - apply steps_same. destruct (is_empty key); simpl in H; [by tx_inv H; step_db|].
    apply stx_bind_Ok in H as (i & d1 & [_ <-]%lift_Ok & H). by apply recordIdempotency_core in H.
Qed.

Lemma AcceptSessionCreate_refines N M s now input r s' :
  AcceptSessionCreate s now input = (r, s') ->
  (forall v, validateSessionAcceptance input = Ok v -> sa_MaxActiveSessions v <= M) -> refines N M s s'.
Proof.
  unfold AcceptSessionCreate. destruct (validateSessionAcceptance input) as [v|] eqn:Hv.
  2:{ intros [= _ <-] _. apply refines_refl. }
  cbv zeta. destruct (withImmediateTransaction _ _) as [[[[rec dup] saved]|e] s1] eqn:E; intros [= _ <-] HM.
  2:{ apply withImmediateTransaction_Err in E as [_ ->]. apply refines_refl. }
  specialize (HM _ eq_refl). apply withImmediateTransaction_Ok in E as (d' & E & ->).
  exists []. rewrite logOptionalAudit_db, published_logOptionalAudit, app_nil_r. split; [|done].
  apply stx_bind_Ok in E as ([] & d1 & (_ & -> & _)%checkIngress_Ok & E).
  apply stx_bind_Ok in E as ([ex|] & d2 & Hl%lookup_core & E).
  - tx_inv E. apply readReservation_Ok in Hrun1 as [-> _]. apply readSession_Ok in Hrun2 as [-> _].
    apply optionalAudit_core in Hrun3. apply steps_same. by etrans.
  - tx_inv E. apply expiryWarning_read in Hrun as [-> _].
    apply ensureSessionCapacity_Ok in Hrun0 as [-> Hcap]. apply readSession_Ok in Hrun2 as [-> _].
    apply optionalAudit_core in Hrun3. apply (insertSessionAcceptance_steps N M) in Hrun1; [|lia].
    eapply (steps_app _ _ _ [] _ []); [by apply steps_same|].
    eapply (steps_app _ _ _ [] _ []); [done|by apply steps_same].
Qed.

(** The UPDATE of a session followed by the INSERT of its lifecycle row. *)
Lemma session_move N M id p f reason now n u r d d1 d2 :
  update_session id p f d = Ok (n, d1) ->
  insert_lifecycle id (mkLifecycleRow (next_lifecycle_sequence id d) (Some (s_state r)) (s_state (f r)) reason
                         (formatStoredTime now)) d1 = Ok (u, d2) ->
  exec_sessions d !! id = Some r -> p r = true -> session_edge (s_state r) (s_state (f r)) ->
  same_session r (f r) -> step N M d None d2.
Proof.
  intros Hu (_ & _ & ->)%insert_lifecycle_Ok Hr Hp He Hsame.
  apply update_session_Ok in Hu as [(r' & Hr' & _ & _ & ->)|(_ & _ & Hf)].
  - rewrite Hr in Hr'. injection Hr' as <-. by eapply step_session.
  - by rewrite (Hf _ Hr) in Hp.
Qed.

Lemma with_state_same next now r : same_session r (session_with_state next now r).
Proof. by repeat split. Qed.
Lemma with_creation_same next g rev now r : same_session r (session_with_creation next g rev now r).
Proof. by repeat split. Qed.

(** The UPDATE of a reservation that must change one row. *)
Lemma reservation_move N M id p now n d d' :
  (forall r, p r = true -> r_cleanup_confirmed_at r = None) ->
  update_reservation id p (reservation_released now) d = Ok (n, d') -> steps N M d [] d'.
Proof.
  intros Hp [(r & Hr & Hpr & _ & ->)|(_ & -> & _)]%update_reservation_Ok; [|constructor].
  apply (steps_one _ _ _ None). apply (step_reservation _ _ _ _ r); auto.
Qed.

Lemma unreleased_live r : unreleased_reservation r = true -> r_cleanup_confirmed_at r = None.
Proof. unfold unreleased_reservation. by destruct (r_cleanup_confirmed_at r). Qed.
Lemma live_live r : live_reservation r = true -> r_cleanup_confirmed_at r = None.
Proof. unfold live_reservation. by destruct (r_cleanup_confirmed_at r). Qed.
Lemma in_session_state_true st r : in_session_state st r = true <-> s_state r = st.
Proof. apply bool_decide_eq_true. Qed.
Lemma in_session_state_refl r : in_session_state (s_state r) r = true.
Proof. by apply bool_decide_eq_true. Qed.

(** Operations that open one transaction after their validation. *)
Lemma refines_valid {A B} N M s (v : result A) (k : A -> result B * AuthorityStore) r s' :
  with_valid s v k = (r, s') -> (forall a, v = Ok a -> k a = (r, s') -> refines N M s s') -> refines N M s s'.
Proof. unfold with_valid. destruct v; [naive_solver|]. intros [= _ <-] _. apply refines_refl. Qed.

Lemma refines_immediate {A} N M s (fn : tx A) r s' :
  withImmediateTransaction s fn = (r, s') ->
  (forall a d', fn (db s) = Ok (a, d') -> steps N M (db s) [] d') -> refines N M s s'.
Proof.
  intros H Hk. destruct r as [a|e].
  - apply withImmediateTransaction_Ok in H as (d' & H & ->). eapply refines_tx, Hk, H.
  - apply withImmediateTransaction_Err in H as [_ ->]. apply refines_refl.
Qed.

(** Peel the validations off an operation. *)
Ltac peel H :=
  cbv beta in H;
  lazymatch type of H with
  | with_valid _ _ _ = _ => eapply refines_valid; [exact H|clear H; intros ? ? H; peel H]
  | _ => idtac
  end.

Lemma CreateSession_refines N M s now input r s' :
  DefaultActiveSessionLimit <= M -> CreateSession s now input = (r, s') -> refines N M s s'.
Proof.
  unfold CreateSession. intros HM. destruct (validateSessionCreate input) as [v|]; intros H.
  2:{ injection H as _ <-. apply refines_refl. }
  apply (refines_immediate _ _ _ _ _ _ H). intros a d' E. tx_inv E.
  apply checkIngress_Ok in Hrun as (_ & -> & _). apply ensureSessionCapacity_Ok in Hrun0 as [-> Hcap].
  apply readSession_Ok in E as [-> _]. by apply (insertSessionAcceptance_steps N M) in Hrun1; [|lia].
Qed.

Lemma ConfirmSessionCleanup_refines N M s now id r s' :
  ConfirmSessionCleanup s now id = (r, s') -> refines N M s s'.
Proof.
  unfold ConfirmSessionCleanup. intros H. peel H. apply (refines_immediate _ _ _ _ _ _ H). intros x d' E.
  apply stx_bind_Ok in E as (n & d1 & Hu & E). assert (d' = d1) as ->.
  { by destruct (0 <? n); tx_inv E. }
  eapply reservation_move; [|exact Hu]. apply live_live.
Qed.

Lemma TransitionSession_refines N M s now id next reason r s' :
  TransitionSession s now id next reason = (r, s') -> refines N M s s'.
Proof.
  unfold TransitionSession. intros H. peel H. apply (refines_immediate _ _ _ _ _ _ H). intros x d' E.
  cbv zeta in E. tx_inv E. apply readSession_Ok in E as [-> _]. apply ValidateSessionTransition_Ok in Hrun0.
  apply (steps_one _ _ _ None). eapply session_move; [exact Hrun1|exact Hrun2|done|apply in_session_state_refl|done|apply with_state_same].
Qed.

Lemma CompleteSessionCreation_refines N M s now id next g rev reason r s' :
  CompleteSessionCreation s now id next g rev reason = (r, s') -> refines N M s s'.
Proof.
  unfold CompleteSessionCreation. intros H. peel H. apply (refines_immediate _ _ _ _ _ _ H). intros x d' E.
  cbv zeta in E. tx_inv E. apply readSession_Ok in E as [-> _]. apply ValidateSessionTransition_Ok in Hrun0.
  apply (steps_one _ _ _ None). eapply session_move; [exact Hrun1|exact Hrun2|done|apply in_session_state_refl|done|apply with_creation_same].
Qed.

Lemma creating_failed : session_edge SessionStateCreating SessionStateFailed.
Proof. unfold session_edge. simpl. set_solver. Qed.

Lemma CompleteFailedSessionCreation_refines N M s now id g rev reason r s' :
  CompleteFailedSessionCreationAfterConfirmedCleanup s now id g rev reason = (r, s') -> refines N M s s'.
Proof.
  unfold CompleteFailedSessionCreationAfterConfirmedCleanup. intros H. peel H.
  apply (refines_immediate _ _ _ _ _ _ H). intros x d' E.
  cbv zeta in E. tx_inv E. apply readSession_Ok in E as [-> _]. bool_norm.
  assert (s_state a4 = SessionStateCreating) as Hst by (by apply in_session_state_true).
  apply (reservation_move N M) in Hrun3; [|apply unreleased_live].
  apply (steps_app _ _ _ [] s1 []); [|done]. apply (steps_one _ _ _ None).
  eapply session_move; [exact Hrun1|exact Hrun2|done|done| |apply with_creation_same].
  rewrite Hst. apply creating_failed.
Qed.

Lemma FailPreStart_refines N M s now id r s' :
  FailPreStartSessionCreation s now id = (r, s') -> refines N M s s'.
Proof.
  unfold FailPreStartSessionCreation. intros H. peel H.
  apply (refines_immediate _ _ _ _ _ _ H). intros x d' E.
  tx_inv E. apply readSession_Ok in E as [-> _]. bool_norm.
  assert (s_state a0 = SessionStateCreating) as Hst by (by apply in_session_state_true).
  apply (reservation_move N M) in Hrun4; [|apply unreleased_live].
  apply (steps_app _ _ _ [] s0 []); [|done]. apply (steps_one _ _ _ None).
  rewrite <- Hst in Hrun3 at 1. eapply session_move; [exact Hrun1|exact Hrun3|done| | |apply with_state_same].
  - by rewrite andb_true_iff.
  - rewrite Hst. apply creating_failed.
Qed.

(** ** Commands *)
Lemma same_core_streams d d' : same_core d d' -> streams_ok d -> streams_ok d'.
Proof. intros [_ _ _ Hc He _]. unfold streams_ok. by rewrite Hc, He. Qed.

Lemma session_commands_core sid d d' : same_core d d' -> session_commands sid d' = session_commands sid d.
Proof. intros [_ _ _ Hc _ _]. by apply session_commands_eq. Qed.

(** The statements that insert a command and its first event. *)
Lemma accept_step N M v ordinal now u1 u2 d d1 d2 :
  insert_command (ca_CommandID v) (new_command_row v ordinal now) d = Ok (u1, d1) ->
  insert_event (ca_CommandID v) (queued_event now) d1 = Ok (u2, d2) ->
  ordinal = Z.of_nat (length (session_commands (ca_SessionID v) d)) + 1 -> streams_ok d ->
  step N M d (Some (mkCommandEventRecord (ca_CommandID v) 1 command_queued "" 0 now)) d2 /\
  exec_commands d2 !! ca_CommandID v = Some (new_command_row v ordinal now).
Proof.
  intros (Hg & _ & ->)%insert_command_Ok (_ & _ & ->)%insert_event_Ok -> [_ Hnone]. bool_norm. db_simpl.
  assert (exec_commands d !! ca_CommandID v = None) as Hno.
  { apply eq_None_not_Some. intros [x Hx]. by rewrite Hx in *. }
  split; [|apply lookup_insert_eq]. eapply step_accept; try done; [by apply Hnone|].
  cbn [new_command_row c_session_id] in *. destruct (exec_sessions d !! ca_SessionID v); [by eexists|done].
Qed.

Lemma AcceptCommand_refines N M s now input r s' :
  streams_ok (db s) -> AcceptCommand s now input = (r, s') -> refines N M s s'.
Proof.
  intros Hok. unfold AcceptCommand. destruct (validateCommandAcceptance input) as [v|] eqn:Hv.
  2:{ intros [= _ <-]. apply refines_refl. }
  destruct (withImmediateTransaction _ _) as [[[[rec dup] saved]|e] s1] eqn:E; cbv zeta; intros [= _ <-].
  2:{ apply withImmediateTransaction_Err in E as [_ ->]. apply refines_refl. }
  apply withImmediateTransaction_Ok in E as (d' & E & ->).
  apply stx_bind_Ok in E as ([] & d1 & (_ & -> & _)%checkIngress_Ok & E).
  apply stx_bind_Ok in E as (row & d1 & [<- <-]%query_Ok & E).
  apply stx_bind_Ok in E as (row & d1 & [Hrow <-]%or_fail_Ok & E).
  apply stx_bind_Ok in E as (cid & d1 & [_ <-]%lift_Ok & E).
  apply stx_bind_Ok in E as (controller & d1 & [_ <-]%lift_Ok & E).
  apply stx_bind_Ok in E as ([ex|] & d1 & Hl%lookup_core & E).
  - tx_inv E. apply readCommand_Ok in Hrun1 as [-> _]. apply optionalAudit_core in Hrun2.
    exists []. rewrite logOptionalAudit_db, published_logOptionalAudit, app_nil_r. split; [|done].
    apply steps_same. by etrans.
  - tx_inv E. apply expiryWarning_read in Hrun as [-> _]. apply nextCommandOrdinal_Ok in Hrun1 as [-> ->].
    apply recordIdempotency_core in Hrun5. apply readCommand_Ok in Hrun6 as (-> & row' & Hrow' & _ & _ & Hid & _ & _ & _ & _ & _ & _ & Hca & _).
    apply optionalAudit_core in Hrun7.
    destruct (accept_step N M _ _ _ _ _ _ _ _ Hrun2 Hrun3 eq_refl (same_core_streams _ _ Hl Hok)) as [Hstep Hnew].
    rewrite <- (core_commands _ _ Hrun5), Hrow' in Hnew. injection Hnew as ->.
    cbn [new_command_row c_created_at] in Hca. apply parse_format_Some in Hca as [Hca _].
    cbn [command_with_warning cr_CommandID cr_CreatedAt]. rewrite Hid, Hca.
    exists [mkCommandEventRecord (ca_CommandID v) 1 command_queued "" 0 now].
    unfold publish. cbn [db published]. rewrite logOptionalAudit_db, published_logOptionalAudit. split; [|done].
    eapply (steps_cons _ _ _ None); [by apply step_frame|]. eapply (steps_cons _ _ _ (Some _)); [done|].
    apply steps_same. by etrans.
Qed.

(** Operations that publish the event of their transaction. *)
Lemma refines_publish N M s d' event :
  steps N M (db s) (option_list event) d' -> refines N M s (publish (store_db s d') event).
Proof. intros. by exists (option_list event). Qed.

Lemma AppendCommandEvent_refines N M s now input r s' :
  AppendCommandEvent s now input = (r, s') -> refines N M s s'.
Proof.
  unfold AppendCommandEvent. intros H. peel H.
  destruct (withImmediateTransaction _ _) as [[ev|e] s1] eqn:E; injection H as _ <-.
  2:{ apply withImmediateTransaction_Err in E as [_ ->]. apply refines_refl. }
  apply withImmediateTransaction_Ok in E as (d' & E & ->). apply refines_publish. tx_inv E.
  apply readCommand_Ok in Hrun as (-> & row & Hrow & _ & _ & _ & _ & _ & Hst & _).
  apply nextEventSequence_Ok in Hrun2 as (-> & -> & _). apply insertCommandEvent_Ok in Hrun3 as (Hv & _ & ->).
  apply (steps_one _ _ _ (Some _)). eapply (step_output _ _ _ _ row); try done.
  - apply active_state. rewrite <- Hst. destruct (cr_State a2); try done; auto.
  - apply refuse_if_Ok in H1 as [_ H1]. destruct (ea_Type input); done.
Qed.

(** The statements of a terminal transition. *)
Lemma finish_step N M id c input type now u n d d1 d2 :
  insertCommandEventOnConnection id (Z.of_nat (length (rows_of (exec_command_events d) id)) + 1) type "" 0 now d
    = Ok (u, d1) ->
  update_command id always
    (command_terminal input (Z.of_nat (length (rows_of (exec_command_events d) id)) + 1) now) d1 = Ok (n, d2) ->
  exec_commands d !! id = Some c -> command_edge (c_state c) (ct_NextState input) ->
  CommandState_IsTerminal (ct_NextState input) = true -> commandEventTypeForState (ct_NextState input) = Some type ->
  step N M d (Some (stream_event id type "" 0 now d)) d2 /\
  exec_commands d2 !! id = Some (command_terminal input (Z.of_nat (length (rows_of (exec_command_events d) id)) + 1) now c).
Proof.
  intros (_ & _ & ->)%insertCommandEvent_Ok [(c' & Hc' & _ & _ & ->)|(_ & _ & Hf)]%update_command_Ok Hc He Ht Hty.
  - db_simpl. rewrite Hc in Hc'. injection Hc' as <-. split; [|apply lookup_insert_eq]. by eapply step_finish.
  - by specialize (Hf _ Hc).
Qed.

Lemma cancel_edge st : command_edge st CommandStateCancelling -> st = CommandStateRunning.
Proof. unfold command_edge. destruct st; simpl; rewrite ?elem_of_cons, ?elem_of_nil; naive_solver. Qed.

Lemma TransitionCommand_refines N M s now input r s' :
  ct_NextState input <> CommandStateRunning -> TransitionCommand s now input = (r, s') -> refines N M s s'.
Proof.
  intros Hnr. unfold TransitionCommand. intros H. peel H.
  destruct (withImmediateTransaction _ _) as [[[rec ev]|e] s1] eqn:E; injection H as _ <-.
  2:{ apply withImmediateTransaction_Err in E as [_ ->]. apply refines_refl. }
  apply withImmediateTransaction_Ok in E as (d' & E & ->). apply refines_publish.
  apply stx_bind_Ok in E as (c & d1 & [<- <-]%query_Ok & E).
  apply stx_bind_Ok in E as (c & d1 & [Hc <-]%or_fail_Ok & E).
  apply stx_bind_Ok in E as ([] & d1 & [Hedge <-]%lift_Ok & E).
  apply result_map_err_Ok, ValidateCommandTransition_Ok in Hedge.
  destruct (decide (ct_NextState input = CommandStateCancelling)) as [Hcan|Hcan].
  - rewrite bool_decide_eq_true_2 in E by done. tx_inv E. apply readCommand_Ok in Hrun0 as [-> _].
    apply update_command_Ok in Hrun as [(c' & Hc' & _ & _ & ->)|(_ & _ & Hf)]; [|by specialize (Hf _ Hc)].
    rewrite Hc in Hc'. injection Hc' as <-. apply (steps_one _ _ _ None). rewrite Hcan in *.
    apply step_cancel; [done|]. by apply cancel_edge.
  - rewrite bool_decide_eq_false_2 in E by done. tx_inv E. apply readCommand_Ok in Hrun3 as [-> _].
    apply nextEventSequence_Ok in Hrun0 as (-> & -> & _).
    assert (CommandState_IsTerminal (ct_NextState input) = true) as Ht.
    { destruct (ct_NextState input); try done. }
    rewrite Ht in Hrun2. destruct (finish_step N M _ _ _ _ _ _ _ _ _ _ Hrun1 Hrun2 Hc Hedge Ht Hrun) as [Hstep _].
    by apply (steps_one _ _ _ (Some _)).
Qed.

Lemma live_slot_true r : live_slot r = true <-> sl_stop_confirmed_at r = None.
Proof. unfold live_slot. by destruct (sl_stop_confirmed_at r). Qed.

(** Releasing the slot of a terminal command. *)
Lemma slot_move N M id p now n c d d' :
  (forall r, p r = true -> sl_stop_confirmed_at r = None) ->
  exec_commands d !! id = Some c -> CommandState_IsTerminal (c_state c) = true ->
  update_slot id p (slot_released now) d = Ok (n, d') -> steps N M d [] d'.
Proof.
  intros Hp Hc Ht [(r & Hr & Hpr & _ & ->)|(_ & -> & _)]%update_slot_Ok; [|constructor].
  apply (steps_one _ _ _ None). apply (step_slot _ _ _ _ c r); auto.
Qed.

Lemma transitionSession_steps N M sid next reason now u d d' :
  transitionSessionOnConnection sid next reason now d = Ok (u, d') ->
  steps N M d [] d' /\ exec_commands d' = exec_commands d.
Proof.
  intros (r & Hr & He & ->)%transitionSession_Ok. split; [|done]. apply (steps_one _ _ _ None).
  by apply (step_session _ _ _ _ _ (session_with_state next now r)).
Qed.

Lemma CompleteRunningCommand_refines N M s now input next reason release r s' :
  CompleteRunningCommand s now input next reason release = (r, s') -> refines N M s s'.
Proof.
  unfold CompleteRunningCommand. intros H. peel H.
  destruct (withImmediateTransaction _ _) as [[[rec ev]|e] s1] eqn:E; injection H as _ <-.
  2:{ apply withImmediateTransaction_Err in E as [_ ->]. apply refines_refl. }
  apply withImmediateTransaction_Ok in E as (d' & E & ->). apply refines_publish. tx_inv E.
  apply readCommand_Ok in Hrun as (-> & c & Hc & _ & _ & _ & Hses & _ & Hst & _).
  apply nextEventSequence_Ok in Hrun2 as (-> & -> & _). apply ValidateCommandTransition_Ok in Hrun1.
  apply refuse_if_Ok in H1 as [_ Ht]. apply negb_false_iff in Ht. rewrite Hst in Hrun1.
  destruct (finish_step N M _ _ _ _ _ _ _ _ _ _ Hrun4 Hrun5 Hc Hrun1 Ht Hrun3) as [Hstep Hnew].
  apply readCommand_Ok in Hrun9 as [-> _].
  eapply (steps_cons _ _ _ (Some _)); [done|].
  assert (steps N M s3 [] s4 /\ exec_commands s4 = exec_commands s3) as [Hs1 Hc1].
  { destruct (negb (bool_decide (s_state a9 = next))); [by eapply transitionSession_steps|]. tx_inv Hrun7. split; [constructor|done]. }
  eapply (steps_app _ _ _ [] _ []); [exact Hs1|].
  destruct release; [|tx_inv Hrun8; constructor].
  apply stx_bind_Ok in Hrun8 as (n & d3 & Hu & E). assert (s5 = d3) as ->.
  { destruct (n =? 0); tx_inv E. done. }
  eapply slot_move; [|by rewrite Hc1|done|exact Hu]. intros. by apply live_slot_true.
Qed.

(** ** The scheduler *)
Lemma delete_plan_core p n d d' : delete_plan p d = Ok (n, d') -> same_core d d'.
Proof.
  unfold delete_plan. intros H. apply stx_bind_Ok in H as (x & d1 & [<- <-]%query_Ok & H).
  destruct (exec_controlled_restart_plans d) as [row|]; [destruct (p row)|]; tx_inv H; done.
Qed.

Lemma deletePlan_core plan u d d' : deleteControlledRestartPlanOnConnection plan d = Ok (u, d') -> same_core d d'.
Proof.
  unfold deleteControlledRestartPlanOnConnection. intros H. apply stx_bind_Ok in H as (n & d1 & H1 & H).
  tx_inv H. destruct (plan_Activated plan); [|by apply delete_plan_core in H1].
  apply stx_bind_Ok in H1 as (t & d1 & [_ <-]%or_fail_Ok & H1). by apply delete_plan_core in H1.
Qed.

Lemma consumePlan_core plan u d d' : consumeControlledRestartPlanOnClaim plan d = Ok (u, d') -> same_core d d'.
Proof.
  unfold consumeControlledRestartPlanOnClaim. intros H. apply stx_bind_Ok in H as ([] & d1 & (_ & _ & <-)%fail_if_Ok & H).
  by apply deletePlan_core in H.
Qed.

(** The first command that is not terminal is queued. *)
Lemma firstEligible_Ok l id :
  firstEligible l = Ok id ->
  exists l1 x l2, l = l1 ++ x :: l2 /\ Forall (fun y => CommandState_IsTerminal (co_State y) = true) l1 /\
    co_State x = CommandStateQueued /\ co_CommandID x = id.
Proof.
  induction l as [|y l IH]; [done|]. intros H. cbn [firstEligible] in H.
  destruct (co_State y) eqn:Hy; try done.
  1: injection H as <-; by exists [], y, l.
  all: destruct (IH H) as (l1 & x & l2 & -> & Hf & Hx & Hid); exists (y :: l1), x, l2;
    split_and!; try done; constructor; [by rewrite Hy|done].
Qed.

Lemma ordinal_position rows i x :
  row_ordinal <$> rows = seqZ 1 (Z.of_nat (length rows)) -> rows !! i = Some x -> row_ordinal x = 1 + Z.of_nat i.
Proof.
  intros H Hx. assert ((row_ordinal <$> rows) !! i = Some (row_ordinal x)) as Hl.
  { by rewrite list_lookup_fmap, Hx. }
  rewrite H in Hl. apply lookup_lt_Some in Hx. rewrite lookup_seqZ_lt in Hl by lia. congruence.
Qed.

(** What the scheduler knows of the command it claims. *)
Lemma nextEligible_Ok sid r d d' :
  nextEligibleCommandOnConnection sid d = Ok (r, d') ->
  d' = d /\ exists c, exec_commands d !! cr_CommandID r = Some c /\ c_session_id c = sid /\
    c_state c = CommandStateQueued /\ older_terminal d c.
Proof.
  unfold nextEligibleCommandOnConnection, readCommandOrderOnConnection. intros H. tx_inv H.
  apply readCommand_Ok in H as (-> & c & Hc & _ & _ & Hid & _). split; [done|].
  apply checkCommandOrder_Ok in Hrun1 as [Hord ->]. apply firstEligible_Ok in Hrun2 as (l1 & x & l2 & Hl & Hf & Hx & Hxid).
  apply fmap_app_inv in Hl as (r1 & r2 & -> & Hr2 & Hrows).
  symmetry in Hr2. apply fmap_cons_inv in Hr2 as ([id c0] & r3 & -> & -> & ->). cbn [fst snd co_State co_CommandID] in *. subst id.
  rename a1 into cid.
  assert (forall i y, (r1 ++ (cid, c0) :: r3) !! i = Some y -> row_ordinal y = 1 + Z.of_nat i) as Hpos.
  { intros i y Hy. apply (ordinal_position (r1 ++ (cid, c0) :: r3)); [by rewrite <- Hrows|done]. }
  assert (forall i y, (i, y) ∈ r1 ++ (cid, c0) :: r3 <-> exec_commands s !! i = Some y /\ c_session_id y = sid) as Hin.
  { intros i y. rewrite <- Hrows, ordered_commands_perm. apply elem_of_session_commands. }
  destruct (proj1 (Hin cid c0)) as [Hc0 Hs0]; [set_solver|]. rewrite Hc in Hc0. injection Hc0 as <-.
  exists c. rewrite Hid. split_and!; try done.
  intros id' c' Hc' Hs' Hlt. assert ((id', c') ∈ r1 ++ (cid, c) :: r3) as [i Hi]%list_elem_of_lookup by (apply Hin; by rewrite Hs', Hs0).
  pose proof (Hpos _ _ Hi) as Hoi. pose proof (Hpos (length r1) (cid, c) (list_lookup_middle _ _ _ _ eq_refl)) as Hoc.
  unfold row_ordinal in Hoi, Hoc. cbn [snd] in Hoi, Hoc. rewrite lookup_app_l in Hi by lia.
  rewrite Forall_fmap in Hf. apply (Forall_lookup_1 _ _ _ _ Hf) in Hi. done.
Qed.

Lemma claimCommand_steps N M plan cand id sid now rec ev c d d' :
  claimCommand plan cand id sid now d = Ok ((rec, ev), d') ->
  exec_commands d !! id = Some c -> c_state c = CommandStateQueued -> older_terminal d c -> count_live_slots d < N ->
  steps N M d [ev] d'.
Proof.
  unfold claimCommand. intros H Hc Hst Hold Hlt. tx_inv H.
  apply insert_slot_Ok in Hrun as (Hg & _ & ->). bool_norm. apply nextEventSequence_Ok in Hrun0 as (-> & -> & _).
  apply insertCommandEvent_Ok in Hrun1 as (_ & _ & ->). db_simpl.
  apply update_command_Ok in Hrun2 as [(c' & Hc' & _ & _ & ->)|(_ & _ & Hf)]; db_simpl.
  2:{ specialize (Hf _ Hc). unfold in_command_state in Hf. by rewrite bool_decide_eq_false in Hf. }
  rewrite Hc in Hc'. injection Hc' as <-. apply (transitionSession_steps N M) in Hrun3 as [Hs3 _].
  apply readCommand_Ok in Hrun5 as [-> _].
  eapply (steps_cons _ _ _ (Some _)).
  { eapply (step_claim N M d id c now); try done. by destruct (exec_command_slots d !! id). }
  eapply (steps_app _ _ _ [] _ []); [exact Hs3|]. apply steps_same.
  destruct plan as [plan|]; [|by tx_inv Hrun4]. apply stx_bind_Ok in Hrun4 as ([] & d4 & (_ & _ & <-)%fail_if_Ok & Hrun4).
  by apply consumePlan_core in Hrun4.
Qed.

#[export] Instance nextEligible_ro sid : ReadOnly (nextEligibleCommandOnConnection sid).
Proof. intros d r d' H. by apply nextEligible_Ok in H as []. Qed.

Lemma claimFirst_steps N M plan now cands rec ev d d' :
  claimFirst plan now cands d = Ok ((rec, ev), d') -> count_live_slots d < N -> steps N M d [ev] d'.
Proof.
  intros H Hlt. revert H. induction cands as [|row rest IH]; intros H; [done|]. cbn [claimFirst] in H.
  destruct (match plan with Some _ => _ | None => _ end); [by apply IH|].
  apply stx_bind_Ok in H as (cid & d1 & [Hcid <-]%lift_Ok & H).
  apply stx_bind_Ok in H as (sid & d1 & [Hsid <-]%lift_Ok & H).
  apply stx_bind_Ok in H as (cand & d1 & Hcand & H). unfold attempt in Hcand.
  destruct (nextEligibleCommandOnConnection sid d) as [[r d2]|e] eqn:E; injection Hcand as <- <-.
  - apply nextEligible_Ok in E as (-> & c & Hc & Hs & Hst & Hold).
    destruct (decide (cr_CommandID r = cid)) as [<-|]; [|rewrite bool_decide_eq_false_2 in H by done; by apply IH].
    rewrite bool_decide_eq_true_2 in H by done. cbn [negb] in H. by eapply claimCommand_steps.
  - destruct (errors_is e ErrCommandNotEligible); [by apply IH|done].
Qed.

#[export] Instance readGate_ro : ReadOnly readGate.
Proof. unfold readGate. apply _. Qed.

(** The limit a claim runs under: zero selects the default. *)
Definition slot_limit (maxSlots : Z) : Z := if maxSlots =? 0 then DefaultRunningCommandLimit else maxSlots.

Lemma startNext_refines N M s now maxSlots handoff r s' :
  slot_limit maxSlots <= N -> startNextEligibleCommand s now maxSlots handoff = (r, s') -> refines N M s s'.
Proof.
  unfold startNextEligibleCommand. cbv zeta. fold (slot_limit maxSlots). intros HN.
  destruct (slot_limit maxSlots <? 1); intros H.
  { injection H as _ <-. apply refines_refl. }
  destruct (withImmediateTransaction _ _) as [[[rec ev]|e] s1] eqn:E; injection H as _ <-.
  2:{ apply withImmediateTransaction_Err in E as [_ ->]. apply refines_refl. }
  apply withImmediateTransaction_Ok in E as (d' & E & ->). apply refines_publish.
  apply stx_bind_Ok in E as (plan & d1 & ->%read_only & E). tx_inv E. bool_norm.
  eapply claimFirst_steps; [done|]. lia.
Qed.

Lemma ConfirmCommandSlotRelease_refines N M s now id r s' :
  ConfirmCommandSlotRelease s now id = (r, s') -> refines N M s s'.
Proof.
  unfold ConfirmCommandSlotRelease. intros H. peel H. apply (refines_immediate _ _ _ _ _ _ H). intros x d' E.
  apply stx_bind_Ok in E as (c & d1 & [<- <-]%query_Ok & E). apply stx_bind_Ok in E as (c & d1 & [Hc <-]%or_fail_Ok & E).
  apply stx_bind_Ok in E as ([] & d1 & (_ & Ht & <-)%fail_if_Ok & E). apply negb_false_iff in Ht.
  apply stx_bind_Ok in E as (n & d1 & Hu & E). assert (d' = d1) as -> by (by destruct (0 <? n); tx_inv E).
  eapply slot_move; [|done..|exact Hu]. intros. by apply live_slot_true.
Qed.

(** ** Lost recovery *)

(** A checked pair: the command and its session are lost. *)
Lemma checkPair_Ok p b d d' :
  checkLostRuntimeRecoveryPair p d = Ok (b, d') ->
  d' = d /\ exists c r sl res, exec_commands d !! pair_CommandID p = Some c /\ c_session_id c = pair_SessionID p /\
    c_state c = CommandStateLost /\ exec_sessions d !! pair_SessionID p = Some r /\ s_state r = SessionStateLost /\
    exec_command_slots d !! pair_CommandID p = Some sl /\ exec_capacity_reservations d !! pair_SessionID p = Some res /\
    (b = true -> sl_stop_confirmed_at sl <> None /\ sl_released_at sl <> None /\
       r_cleanup_confirmed_at res <> None /\ r_released_at res <> None) /\
    (b = false -> releasable_slot sl = true /\ releasable_reservation res = true).
Proof.
  intros H. split; [by apply read_only in H|]. unfold checkLostRuntimeRecoveryPair in H. cbv zeta in H.
  apply stx_bind_Ok in H as (x & d1 & [<- <-]%query_Ok & H).
  apply stx_bind_Ok in H as (c & d1 & [Hc <-]%or_fail_Ok & H).
  apply stx_bind_Ok in H as (r & d1 & [Hr <-]%or_fail_Ok & H).
  apply stx_bind_Ok in H as (sl & d1 & [Hsl <-]%or_fail_Ok & H).
  apply stx_bind_Ok in H as (res & d1 & [Hres <-]%or_fail_Ok & H).
  apply stx_bind_Ok in H as ([] & d1 & (_ & Hg & <-)%fail_if_Ok & H). bool_norm.
  match goal with Hp : c_session_id c = pair_SessionID p |- _ => rewrite Hp in Hr, Hres end.
  exists c, r, sl, res. split_and!; try done.
  - intros ->. destruct (sl_stop_confirmed_at sl), (sl_released_at sl), (r_cleanup_confirmed_at res),
      (r_released_at res); simpl in H; tx_inv H; done.
  - intros ->. unfold releasable_slot, releasable_reservation. rewrite !bool_decide_eq_true_2 by done.
    destruct (sl_stop_confirmed_at sl), (sl_released_at sl), (r_cleanup_confirmed_at res),
      (r_released_at res); simpl in H; tx_inv H; done.
Qed.

Lemma retainedPairs_Ok b pairs l d d' :
  retainedPairs b pairs d = Ok (l, d') ->
  Forall (fun p => exists c, exec_commands d !! pair_CommandID p = Some c /\ c_state c = CommandStateLost) l.
Proof.
  revert l d'. induction pairs as [|p pairs IH]; intros l d' H; cbn [retainedPairs] in H.
  { tx_inv H. constructor. }
  apply stx_bind_Ok in H as (rel & d1 & Hp & H). apply checkPair_Ok in Hp as (-> & c & r & sl & res & Hc & _ & Hst & _).
  apply stx_bind_Ok in H as (u & d2 & Hb & H). assert (d2 = d) as -> by (destruct b; by apply read_only in Hb).
  apply stx_bind_Ok in H as (others & d3 & Ho & H). apply IH in Ho. tx_inv H. destruct rel; [done|].
  constructor; [by exists c|done].
Qed.

Lemma releasePair_steps N M p now u d d' :
  releaseLostRuntimeRecoveryPair p now d = Ok (u, d') ->
  (exists c, exec_commands d !! pair_CommandID p = Some c /\ c_state c = CommandStateLost) ->
  steps N M d [] d' /\ exec_commands d' = exec_commands d.
Proof.
  unfold releaseLostRuntimeRecoveryPair. intros H (c & Hc & Hst). tx_inv H.
  unfold insert_finalization in H. apply guarded_write_Ok in H as (_ & _ & ->).
  assert (exec_commands s0 = exec_commands s /\ exec_commands s = exec_commands d) as [E1 E2].
  { apply update_slot_Ok in Hrun as [(? & _ & _ & _ & ->)|(_ & -> & _)];
    apply update_reservation_Ok in Hrun3 as [(? & _ & _ & _ & ->)|(_ & -> & _)]; done. }
  apply (slot_move N M _ _ _ _ c) in Hrun; [|unfold releasable_slot; intros r ?; bool_norm; by destruct (sl_stop_confirmed_at r)|done|by rewrite Hst].
  apply (reservation_move N M) in Hrun3; [|unfold releasable_reservation; intros r ?; bool_norm; by destruct (r_cleanup_confirmed_at r)].
  split; [|db_simpl; congruence]. eapply (steps_app _ _ _ [] _ []); [exact Hrun|].
  eapply (steps_app _ _ _ [] _ []); [exact Hrun3|]. by apply steps_same.
Qed.

Lemma releasePairs_steps N M now pairs u d d' :
  releasePairs now pairs d = Ok (u, d') ->
  Forall (fun p => exists c, exec_commands d !! pair_CommandID p = Some c /\ c_state c = CommandStateLost) pairs ->
  steps N M d [] d'.
Proof.
  revert u d. induction pairs as [|p pairs IH]; intros u d H Hf; cbn [releasePairs] in H.
  { tx_inv H. constructor. }
  apply Forall_cons in Hf as [Hp Hf]. apply stx_bind_Ok in H as ([] & d1 & H1 & H).
  apply (releasePair_steps N M) in H1 as [Hs Hc]; [|done]. eapply (steps_app _ _ _ [] _ []); [exact Hs|].
  eapply IH; [exact H|]. by rewrite Hc.
Qed.

Lemma ConfirmLostBatch_refines N M s now pairs r s' :
  ConfirmLostRuntimeRecoveryBatch s now pairs = (r, s') -> refines N M s s'.
Proof.
  unfold ConfirmLostRuntimeRecoveryBatch. intros H. peel H. apply (refines_immediate _ _ _ _ _ _ H). intros x d' E.
  apply stx_bind_Ok in E as (l & d1 & Hl & E). assert (d1 = db s) as -> by (by apply read_only in Hl).
  apply retainedPairs_Ok in Hl. destruct (is_nil l); [tx_inv E; constructor|]. tx_inv E. by eapply releasePairs_steps.
Qed.

Lemma ConfirmLostPreserving_refines N M s now pairs r s' :
  ConfirmLostRuntimeRecoveryBatchPreservingQueuedOneOffs s now pairs = (r, s') -> refines N M s s'.
Proof.
  unfold ConfirmLostRuntimeRecoveryBatchPreservingQueuedOneOffs. intros H. peel H.
  apply (refines_immediate _ _ _ _ _ _ H). intros x d' E.
  apply stx_bind_Ok in E as (l & d1 & Hl & E). assert (d1 = db s) as -> by (by apply read_only in Hl).
  eapply releasePairs_steps; [exact E|]. unfold checkLostRuntimeRecoveryBatchPreservingQueuedOneOffs_tx in Hl.
  apply stx_bind_Ok in Hl as (l' & d1 & Hl' & Hl). assert (l = l') as ->; [|by eapply retainedPairs_Ok].
  destruct (is_nil l'); tx_inv Hl; done.
Qed.

Lemma CompleteFinalization_refines N M s p r s' :
  CompleteLostRuntimeRecoveryFinalization s p = (r, s') -> refines N M s s'.
Proof.
  unfold CompleteLostRuntimeRecoveryFinalization. intros H. peel H. apply (refines_immediate _ _ _ _ _ _ H). intros x d' E.
  apply stx_bind_Ok in E as (row & d1 & [<- <-]%query_Ok & E). apply steps_same.
  destruct (_ !! pair_CommandID p); [|by apply read_only in E as ->].
  apply stx_bind_Ok in E as ([] & d1 & (_ & _ & <-)%fail_if_Ok & E).
  apply stx_bind_Ok in E as ([] & d1 & ->%read_only & E). by tx_inv E.
Qed.

(** ** Operations that leave the six tables alone *)
Lemma insertLostPairs_core n pairs u d d' : insertLostPairs n pairs d = Ok (u, d') -> same_core d d'.
Proof.
  revert n d. induction pairs as [|p pairs IH]; intros n d H; cbn [insertLostPairs] in H; [by tx_inv H|].
  apply stx_bind_Ok in H as ([] & d1 & H1 & H%IH). unfold insert_lost_pair in H1.
  apply guarded_write_Ok in H1 as (_ & _ & ->). etrans; [|exact H]. by split.
Qed.

Lemma insertPlan_core plan u d d' : insertControlledRestartPlanOnConnection plan d = Ok (u, d') -> same_core d d'.
Proof.
  unfold insertControlledRestartPlanOnConnection, insert_plan. intros H.
  apply stx_bind_Ok in H as ([] & d1 & H1 & H%insertLostPairs_core). apply guarded_write_Ok in H1 as (_ & _ & ->).
  etrans; [|exact H]. by split.
Qed.

Lemma PrepareControlledRestartPlan_refines N M s now pairs r s' :
  PrepareControlledRestartPlan s now pairs = (r, s') -> refines N M s s'.
Proof.
  unfold PrepareControlledRestartPlan. intros H. peel H. apply (refines_immediate _ _ _ _ _ _ H). intros x d' E.
  apply steps_same. apply stx_bind_Ok in E as (ex & d1 & ->%read_only & E). destruct ex as [ex|e].
  - apply read_only in E. by subst.
  - apply stx_bind_Ok in E as ([] & d1 & (_ & _ & <-)%fail_if_Ok & E).
    apply stx_bind_Ok in E as (l & d1 & ->%read_only & E).
    apply stx_bind_Ok in E as ([] & d1 & (_ & _ & <-)%fail_if_Ok & E).
    apply stx_bind_Ok in E as ([[[j sid] cid] g] & d1 & ->%read_only & E).
    apply stx_bind_Ok in E as ([] & d1 & Hi%insertPlan_core & E). by tx_inv E.
Qed.

Lemma activate_plan_core p now n d d' : activate_plan p now d = Ok (n, d') -> same_core d d'.
Proof.
  unfold activate_plan. intros H. apply stx_bind_Ok in H as (x & d1 & [<- <-]%query_Ok & H).
  destruct (exec_controlled_restart_plans d) as [row|]; [destruct (p row)|]; tx_inv H; done.
Qed.

Lemma ActivateControlledRestartPlan_refines N M s now plan r s' :
  ActivateControlledRestartPlan s now plan = (r, s') -> refines N M s s'.
Proof.
  unfold ActivateControlledRestartPlan. intros H. peel H. apply (refines_immediate _ _ _ _ _ _ H). intros x d' E.
  apply steps_same. apply stx_bind_Ok in E as (ex & d1 & ->%read_only & E).
  apply stx_bind_Ok in E as ([] & d1 & (_ & _ & <-)%fail_if_Ok & E). destruct (plan_Activated ex); [by tx_inv E|].
  apply stx_bind_Ok in E as ([] & d1 & (_ & _ & <-)%fail_if_Ok & E).
  apply stx_bind_Ok in E as (found & d1 & ->%read_only & E).
  apply stx_bind_Ok in E as ([] & d1 & (_ & _ & <-)%fail_if_Ok & E).
  apply stx_bind_Ok in E as (generation & d1 & ->%read_only & E).
  apply stx_bind_Ok in E as ([] & d1 & (_ & _ & <-)%fail_if_Ok & E).
  apply stx_bind_Ok in E as (n & d1 & Ha%activate_plan_core & E).
  apply stx_bind_Ok in E as ([] & d2 & (_ & _ & <-)%fail_if_Ok & E). by apply read_only in E as ->.
Qed.

Lemma ClearControlledRestartPlan_refines N M s plan r s' :
  ClearControlledRestartPlan s plan = (r, s') -> refines N M s s'.
Proof.
  unfold ClearControlledRestartPlan. intros H. peel H. apply (refines_immediate _ _ _ _ _ _ H). intros x d' E.
  apply steps_same. apply stx_bind_Ok in E as (ex & d1 & ->%read_only & E).
  apply stx_bind_Ok in E as ([] & d1 & (_ & _ & <-)%fail_if_Ok & E). by apply deletePlan_core in E.
Qed.

(** A store whose core and log did not change. *)
Lemma refines_core N M s s' : same_core (db s) (db s') -> published s' = published s -> refines N M s s'.
Proof. intros Hc Hp. exists []. rewrite app_nil_r. split; [by apply steps_same|done]. Qed.

Lemma EnsureIdempotency_refines N M s now c o k h rid ret a r s' :
  EnsureIdempotencyWithAudit s now c o k h rid ret a = (r, s') -> refines N M s s'.
Proof.
  unfold EnsureIdempotencyWithAudit. destruct (validateIdempotencyInput _ _ _ _ _ _) as [v|].
  2:{ intros [= _ <-]. apply refines_refl. }
  cbv zeta. destruct (withImmediateTransaction _ _) as [[[[rec dup] saved]|e] s1] eqn:E; intros [= _ <-].
  2:{ apply withImmediateTransaction_Err in E as [_ ->]. apply refines_refl. }
  apply withImmediateTransaction_Ok in E as (d' & E & ->).
  apply refines_core; [|by rewrite published_logOptionalAudit]. rewrite logOptionalAudit_db.
  apply stx_bind_Ok in E as ([ex|] & d1 & Hl%lookup_core & E); tx_inv E.
  - apply optionalAudit_core in Hrun0. by etrans.
  - apply expiryWarning_read in Hrun as [-> _]. apply recordIdempotency_core in Hrun0.
    apply optionalAudit_core in Hrun1. etrans; [done|]. by etrans.
Qed.

Lemma RecordAudit_refines N M s record r s' : RecordAudit s record = (r, s') -> refines N M s s'.
Proof.
  unfold RecordAudit. destruct (withImmediateTransaction _ _) as [[saved|e] s1] eqn:E; intros [= _ <-].
  - apply withImmediateTransaction_Ok in E as (d' & E & ->).
    apply insertAuditOnConnection_Ok in E as (_ & [_ ->] & _). by apply refines_core.
  - apply withImmediateTransaction_Err in E as [_ ->]. apply refines_refl.
Qed.

Lemma updateLaneAdmission_refines N M s mutate r s' : updateLaneAdmission s mutate = (r, s') -> refines N M s s'.
Proof.
  unfold updateLaneAdmission. destruct (withImmediateTransaction _ _) as [[[wasOpen allows]|e] s1] eqn:E; intros [= _ <-].
  - apply withImmediateTransaction_Ok in E as (d' & E & ->). tx_inv E.
    apply readLaneAdmission_Ok in Hrun as [-> _]. apply writeLaneAdmission_Ok in Hrun1 as (_ & _ & _ & ->).
    apply refines_core; repeat case_match; done.
  - apply withImmediateTransaction_Err in E as [_ ->]. apply refines_refl.
Qed.

Lemma ConfigureLaneAdmission_refines N M s lane host r s' :
  ConfigureLaneAdmission s lane host = (r, s') -> refines N M s s'.
Proof.
  unfold ConfigureLaneAdmission. destruct (NewState lane host) as [st|]; [|intros [= _ <-]; apply refines_refl].
  destruct (withImmediateTransaction _ _) as [[u|e] s1] eqn:E; intros [= _ <-].
  - apply withImmediateTransaction_Ok in E as (d' & E & ->).
    apply stx_bind_Ok in E as (o & d1 & [-> _]%readLaneAdmission_Ok & E).
    apply refines_core; [|done]. destruct o; [by tx_inv E|]. by apply writeLaneAdmission_Ok in E as (_ & _ & _ & ->).
  - apply withImmediateTransaction_Err in E as [_ ->]. apply refines_refl.
Qed.
