(* ===== verification/JobOps.v ===== *)
(** * Refinement: the job operations

    What the statements and reads of [Jobs] do, and that accepting a job,
    checkpointing it and disposing of an abandoned probe are sequences of steps
    of [Authority]: a job row is committed only when it can be read back. *)
From Stdlib Require Import String.
From S2P Require Import Prelude GoStrings Sha256 Identity Lifecycle Policy LaneAdmission.
From S2P Require Import AuditRecords Db AuditStore AdmissionStore Idempotency Sessions Commands LostRecovery.
From S2P Require Import Listings RestartPlan JsonText Canonical RunPayload Jobs Scheduler.
From S2P Require Import Authority AuthorityOps.

(** ** Statements and reads *)
Lemma readJob_Ok id r d d' :
  readJobOnConnection id d = Ok (r, d') <->
  d' = d /\ exists j, exec_jobs d !! id = Some j /\ decodeJobRow id j = Ok r.
Proof.
  unfold readJobOnConnection. rewrite stx_bind_Ok. setoid_rewrite query_Ok. setoid_rewrite stx_bind_Ok.
  setoid_rewrite or_fail_Ok. setoid_rewrite lift_Ok. naive_solver.
Qed.

Lemma insert_job_Ok id j u d d' :
  insert_job id j d = Ok (u, d') ->
  job_checks id j = true /\ exec_jobs d !! id = None /\ job_conflicts j d = false /\ d' = put_job id j d.
Proof.
  unfold insert_job. intros H. apply stx_bind_Ok in H as ([] & d1 & (_ & Hc & <-)%fail_if_Ok & H).
  apply stx_bind_Ok in H as (x & d1 & [<- <-]%query_Ok & H).
  apply stx_bind_Ok in H as ([] & d1 & (_ & Hx & <-)%fail_if_Ok & H). apply modify_Ok in H as [_ ->].
  apply orb_false_iff in Hx as [Hn Hf]. apply negb_false_iff in Hc. split_and!; [done| |done|done].
  by destruct (exec_jobs d !! id).
Qed.

Lemma update_job_Ok id p f e n d d' :
  update_job id p f e d = Ok (n, d') ->
  (exists j, exec_jobs d !! id = Some j /\ p j = true /\ job_checks id (f j) = true /\ n = 1 /\ d' = put_job id (f j) d) \/
  (n = 0 /\ d' = d /\ forall j, exec_jobs d !! id = Some j -> p j = false).
Proof.
  unfold update_job. intros H. apply stx_bind_Ok in H as (x & d1 & [<- <-]%query_Ok & H).
  destruct (exec_jobs d !! id) as [j|] eqn:Hj; [destruct (p j) eqn:Hp|].
  - apply stx_bind_Ok in H as ([] & d1 & (_ & Hc & <-)%fail_if_Ok & H). apply negb_false_iff in Hc. tx_inv H.
    left. by exists j.
  - apply stx_ret_Ok in H as [<- <-]. right. split_and!; [done..|]. by intros ? [= <-].
  - apply stx_ret_Ok in H as [<- <-]. by right.
Qed.

(** What a record says about its row. *)
Record job_decoded (id : string) (j : JobRow) (r : JobRecord) : Prop := {
  jd_id : id <> "" /\ jr_JobID r = id;
  jd_session : jr_SessionID r = j_session_id j;
  jd_command : jr_CommandID r = j_command_id j;
  jd_controller : jr_Controller r = j_controller j;
  jd_ingress : jr_Ingress r = j_ingress j;
  jd_environment : jr_Environment r = j_environment j;
  jd_key : jr_IdempotencyKey r = j_idempotency_key j;
  jd_payload : jr_CanonicalPayload r = j_payload_json j;
  jd_script : jr_ScriptBytes r = j_script_bytes j;
  jd_digest : j_script_sha256 j = sha256 (j_script_bytes j);
  jd_bound : validateRunPayload (jr_CanonicalPayload r) (jr_ScriptBytes r) (jr_Environment r) (jr_Target r) (jr_Source r)
    (jr_RequestHash r) = Ok (jr_CanonicalPayload r, jr_RequestHash r);
  jd_phase : jr_Phase r = j_phase j /\ JobPhase_Valid (j_phase j) = true;
  jd_state : jr_CommandState r = j_command_state j;
  jd_exit : jr_ExitCode r = j_exit_code j;
  jd_final : jr_FinalEventSequence r = j_final_event_sequence j;
  jd_truncated : jr_OutputTruncated r = j_output_truncated j;
  jd_complete : jr_OutputComplete r = j_output_complete j;
  jd_teardown : jr_TeardownState r = j_teardown_state j;
  jd_created : parseStoredTime (j_created_at j) = Some (jr_CreatedAt r)
}.

Lemma validateRunPayload_Ok raw script environment target source h p :
  validateRunPayload raw script environment target source h = Ok p -> p = (raw, h).
Proof.
  unfold validateRunPayload. cbv zeta. intros H. apply refuse_if_bind in H as [_ H].
  apply result_bind_Ok in H as (c & _ & H). apply refuse_if_bind in H as [Hc H].
  apply negb_false_iff, bool_decide_eq_true in Hc. apply result_bind_Ok in H as (h' & _ & H).
  apply refuse_if_bind in H as [[Hh _]%CompareIdempotency_same H]. apply result_bind_Ok in H as (object & _ & H).
  do 4 apply refuse_if_bind in H as [_ H]. congruence.
Qed.

Lemma NewControllerIdentity_same c c' :
  NewControllerIdentity (controller_typeName c) (controller_id c) = Ok c' -> c' = c.
Proof. intros H%NewControllerIdentity_Ok. destruct c. naive_solver. Qed.

Lemma decodeJobRow_Ok id j r : decodeJobRow id j = Ok r -> job_decoded id j r.
Proof.
  unfold decodeJobRow. cbv zeta. intros H. tx_inv H. id_norm. apply NewControllerIdentity_same in Hrun2 as ->.
  pose proof (validateRunPayload_Ok _ _ _ _ _ _ _ Hrun10) as ->.
  destruct (parseStoredTime (j_created_at j)) as [created|] eqn:Ec; [|done].
  destruct (parseStoredTime (j_updated_at j)) as [updated|]; [|done].
  injection H as <-. apply orb_false_iff in Hrun11 as [Hp%negb_false_iff _].
  apply negb_false_iff, bool_decide_eq_true in Hrun8. by split.
Qed.

(** ** Refinement *)
Lemma job_step_accept N M d id v ingress now u d1 d2 w r d3 :
  insertJobOnConnection v ingress now w d = Ok (u, d1) -> readJobOnConnection (ja_JobID v) d1 = Ok (r, d2) ->
  id = ja_JobID v -> d3 = d2 ->
  steps N M d [] d3 /\ exec_jobs d3 !! id = Some (new_job_row v ingress now) /\ decodeJobRow id (new_job_row v ingress now) = Ok r.
Proof.
  unfold insertJobOnConnection. intros H Hr -> ->. apply readJob_Ok in Hr as (-> & j & Hj & Hd).
  apply stx_bind_Ok in H as ([] & da & (_ & Hno & Hcf & ->)%insert_job_Ok & H).
  apply stx_bind_Ok in H as (i & db & [_ <-]%lift_Ok & H). apply recordIdempotency_core in H as Hcore.
  rewrite (core_jobs _ _ Hcore) in *. step_db. rewrite lookup_insert_eq in Hj. injection Hj as <-.
  split_and!; [|by rewrite lookup_insert_eq|done].
  apply (steps_app _ _ _ [] (put_job (ja_JobID v) (new_job_row v ingress now) d) []); [|by apply steps_same].
  apply (steps_one _ _ _ None), step_job_accept; [done..| |done]. by exists r.
Qed.

Lemma AcceptJob_refines N M s now ingress input r s' : AcceptJob s now ingress input = (r, s') -> refines N M s s'.
Proof.
  unfold AcceptJob. cbv zeta. intros H. peel H. apply (refines_immediate _ _ _ _ _ _ H). intros x d' E.
  apply stx_bind_Ok in E as ([] & d0 & (_ & -> & _)%checkIngress_Ok & E).
  apply stx_bind_Ok in E as (found & d1 & Hl%lookup_core & E). destruct found as [existing|]; tx_inv E.
  - apply readJob_Ok in Hrun1 as [-> _]. by apply steps_same.
  - apply expiryWarning_read in Hrun as [-> _].
    destruct (job_step_accept N M _ _ _ _ _ _ _ _ _ _ _ Hrun1 Hrun2 eq_refl eq_refl) as [Hs _].
    apply (steps_app _ _ _ [] d1 []); [by apply steps_same|done].
Qed.

Lemma same_job_refl j : same_job j j.
Proof. by repeat split. Qed.
Lemma with_phase_same next now j : same_job j (job_with_phase next now j).
Proof. by repeat split. Qed.
Lemma checkpoint_same cp now j : same_job j (checkpoint_row cp now j).
Proof. unfold checkpoint_row. destruct (cp_Command cp), (cp_TeardownState cp); by repeat split. Qed.

(** An UPDATE whose row is read back before the commit. *)
Lemma job_step_update N M id p f e n d d1 r d2 :
  update_job id p f e d = Ok (n, d1) -> (forall j, same_job j (f j)) ->
  exec_jobs d2 = exec_jobs d1 -> readJobOnConnection id d2 = Ok (r, d2) -> steps N M d [] d1.
Proof.
  intros Hu Hsame Hj (_ & j & Hlook & Hd)%readJob_Ok. rewrite Hj in Hlook.
  apply update_job_Ok in Hu as [(j0 & Hj0 & _ & _ & _ & ->)|(_ & -> & _)]; [|constructor].
  apply (steps_one _ _ _ None). step_db. rewrite lookup_insert_eq in Hlook. injection Hlook as <-.
  eapply (step_job_update _ _ _ id j0); [done|apply Hsame|by exists r].
Qed.

Lemma readJob_same id r d d' : readJobOnConnection id d = Ok (r, d') -> d' = d.
Proof. by intros [-> _]%readJob_Ok. Qed.

Lemma CheckpointJob_refines N M s now id cp r s' : CheckpointJob s now id cp = (r, s') -> refines N M s s'.
Proof.
  unfold CheckpointJob. cbv zeta. intros H. peel H. apply (refines_immediate _ _ _ _ _ _ H). intros x d' E.
  tx_inv E. match type of E with (if ?b then _ else _) _ = _ => destruct b end.
  - apply readJob_same in E as ->. constructor.
  - tx_inv E. pose proof (readJob_same _ _ _ _ E) as ->.
    eapply job_step_update; [exact Hrun4|intros j; apply checkpoint_same|reflexivity|exact E].
Qed.

(** ** The probe *)
Lemma attempt_readonly {A} (m : tx A) r d d' : ReadOnly m -> attempt m d = Ok (r, d') ->
  d' = d /\ match r with Ok a => m d = Ok (a, d) | Err e => m d = Err e end.
Proof.
  unfold attempt. intros Hm. destruct (m d) as [[a d1]|e] eqn:E; intros [= <- <-]; [|done].
  pose proof (Hm _ _ _ E) as ->. done.
Qed.

Lemma parseOptional_None e o t d d' : parseOptional e o d = Ok (t, d') -> is_Some_b t = false -> o = None.
Proof. destruct o as [x|]; [|done]. cbn [parseOptional]. intros H. by tx_inv H. Qed.

Definition reservation_retained (id : string) (d : DB) : Prop :=
  exists row, exec_capacity_reservations d !! id = Some row /\ r_cleanup_confirmed_at row = None /\ r_released_at row = None.

Lemma requireRetained_Ok id u d d' : requireRetainedReservation id d = Ok (u, d') -> d' = d /\ reservation_retained id d.
Proof.
  unfold requireRetainedReservation. intros H.
  apply stx_bind_Ok in H as (r & d1 & Hr & H). apply attempt_readonly in Hr as [-> Hr]; [|apply _].
  apply fail_if_Ok in H as (_ & Hf & <-). split; [done|]. destruct r as [r|]; [|done].
  unfold readReservationOnConnection in Hr. tx_inv Hr. cbn in Hf. apply orb_false_iff in Hf as [H1 H2].
  apply parseOptional_None in Hrun2, Hrun3; [|done..]. by eexists.
Qed.

Definition no_command (id : string) (d : DB) : Prop :=
  exec_commands d !! id = None /\ rows_of (exec_command_events d) id = [] /\ exec_command_slots d !! id = None.

Lemma untouched_Ok id d : untouched_command id d = true ->
  rows_of (exec_command_events d) id = [] /\ exec_command_slots d !! id = None.
Proof.
  unfold untouched_command. intros [H1 H2]%andb_true_iff. destruct (rows_of _ _); [|done].
  by destruct (exec_command_slots d !! id).
Qed.

Lemma requireNoCommand_Ok id u d d' : requireNoCommand id d = Ok (u, d') -> d' = d /\ no_command id d.
Proof.
  unfold requireNoCommand. intros H. apply stx_bind_Ok in H as (x & d1 & [<- <-]%query_Ok & H).
  apply fail_if_Ok in H as (_ & [H1 H2%negb_false_iff]%orb_false_iff & <-). split; [done|].
  split; [by destruct (exec_commands d !! id)|by apply untouched_Ok].
Qed.

Lemma newest_sequence id r x d : lifecycles_ok d -> exec_sessions d !! id = Some r -> head (newest_lifecycle id d) = Some x ->
  l_sequence x + 1 = next_lifecycle_sequence id d.
Proof.
  intros [Hh _] Hr. specialize (Hh _ _ Hr). unfold newest_lifecycle, next_lifecycle_sequence.
  pose proof (history_sequences _ _ Hh) as Hs. rewrite (merge_sort_numbered l_sequence lifecycle_le ltac:(done) _ _ _ Hs).
  rewrite (history_next _ _ Hh). destruct Hh as [|rows cur next reason t Hh Hedge].
  - cbn. by intros [= <-].
  - rewrite rev_app_distr. cbn. intros [= <-]. cbn. rewrite length_app. cbn. lia.
Qed.

Lemma creating_lost : session_edge SessionStateCreating SessionStateLost.
Proof. unfold session_edge. simpl. set_solver. Qed.

Lemma creating_session_state r :
  (in_session_state SessionStateCreating r && is_empty (s_runtime_generation r)) = true -> s_state r = SessionStateCreating.
Proof. intros [H _]%andb_true_iff. by apply in_session_state_true. Qed.

Lemma lifecycle_frame d d' : exec_sessions d' = exec_sessions d -> exec_session_lifecycle d' = exec_session_lifecycle d ->
  lifecycles_ok d -> lifecycles_ok d'.
Proof. unfold lifecycles_ok. by intros -> ->. Qed.

Lemma newest_head id d x : head (newest_lifecycle id d) = Some x -> exists rest, newest_lifecycle id d = x :: rest.
Proof. destruct (newest_lifecycle id d); [done|]. intros [= ->]. by eexists. Qed.

(** What the three branches of the disposition leave. *)
Record disposed (jobID sessionID commandID : string) (job : JobRecord) (session : SessionRecord) (d d' : DB) : Prop := {
  di_job : readJobOnConnection jobID d' = Ok (job, d') /\ jr_Phase job = JobPhaseLost;
  di_session : readSessionOnConnection sessionID d' = Ok (session, d') /\ sr_State session = SessionStateLost;
  di_reservations : exec_capacity_reservations d' = exec_capacity_reservations d /\ reservation_retained sessionID d';
  di_commands : exec_commands d' = exec_commands d /\ exec_command_events d' = exec_command_events d /\
    exec_command_slots d' = exec_command_slots d /\ no_command commandID d'
}.

Lemma confirmLostProbe_Ok sid cid reason u d d' :
  confirmLostProbe sid cid reason d = Ok (u, d') -> d' = d /\ reservation_retained sid d /\ no_command cid d.
Proof.
  unfold confirmLostProbe. intros H. apply stx_bind_Ok in H as ([] & d1 & [-> Hr]%requireRetained_Ok & H).
  apply stx_bind_Ok in H as ([] & d1 & [-> Hc]%requireNoCommand_Ok & H).
  apply stx_bind_Ok in H as (x & d1 & [<- <-]%query_Ok & H). by apply fail_if_Ok in H as (_ & _ & <-).
Qed.

Lemma stream_not_nil rows st : command_stream rows st -> rows <> [].
Proof. induction 1; try done; by destruct rows. Qed.

Lemma untouched_no_command id d : streams_ok d -> untouched_command id d = true -> no_command id d.
Proof.
  intros [Hs _] [He Hsl]%untouched_Ok. split_and!; [|done..]. destruct (exec_commands d !! id) as [c|] eqn:Hc; [|done].
  destruct (Hs _ _ Hc) as [Hst _]. by destruct (stream_not_nil _ _ Hst).
Qed.

(** A session read depends on the session table only. *)
Lemma readSession_frame id d d' r :
  exec_sessions d' = exec_sessions d -> readSessionOnConnection id d = Ok (r, d) -> readSessionOnConnection id d' = Ok (r, d').
Proof.
  unfold readSessionOnConnection. cbv zeta. intros Hs H. tx_inv H. rewrite query_bind, Hs.
  repeat (first [match goal with H : _ = Some _ |- _ => rewrite H end | match goal with H : _ = Ok _ |- _ => rewrite H end
    | match goal with H : _ = false |- _ => rewrite H end]; cbn [result_map_err]; tx_run).
  done.
Qed.

(** The job was read as creating its session, for these identifiers. *)
Lemma creating_job_true jid sid cid job j : decodeJobRow jid j = Ok job -> jr_SessionID job = sid -> jr_CommandID job = cid ->
  jr_Phase job = JobPhaseCreatingSession -> creating_job sid cid j = true.
Proof.
  intros Hd%decodeJobRow_Ok Hs Hc Hp. destruct Hd. destruct jd_phase0. unfold creating_job.
  by rewrite !bool_decide_eq_true_2 by congruence.
Qed.

Lemma lost_phase jid job j now : decodeJobRow jid (job_with_phase JobPhaseLost now j) = Ok job -> jr_Phase job = JobPhaseLost.
Proof. intros Hd%decodeJobRow_Ok. by destruct Hd, jd_phase0. Qed.

Lemma reconcile_Ok N M jid sid cid now job0 job session d d' :
  streams_ok d -> reconcileStoppedProbe jid sid cid now d = Ok (job, d') ->
  readJobOnConnection jid d = Ok (job0, d) -> jr_SessionID job0 = sid -> jr_CommandID job0 = cid ->
  jr_Phase job0 = JobPhaseCreatingSession -> readSessionOnConnection sid d = Ok (session, d) -> sr_State session = SessionStateLost ->
  steps N M d [] d' /\ disposed jid sid cid job session d d'.
Proof.
  unfold reconcileStoppedProbe. intros Hst H (_ & j & Hj & Hd)%readJob_Ok Hs Hc Hp Hses Hlost.
  apply stx_bind_Ok in H as ([] & d1 & [-> Hr]%requireRetained_Ok & H).
  apply stx_bind_Ok in H as (x & d1 & [<- <-]%query_Ok & H).
  apply stx_bind_Ok in H as ([] & d1 & (_ & Hg & <-)%fail_if_Ok & H).
  apply orb_false_iff in Hg as [_ Hu%negb_false_iff]. apply (untouched_no_command _ _ Hst) in Hu.
  apply stx_bind_Ok in H as (n & d1 & Hup & H). apply stx_bind_Ok in H as ([] & d2 & (_ & _ & <-)%fail_if_Ok & H).
  pose proof (readJob_same _ _ _ _ H) as ->.
  split; [by eapply job_step_update; [exact Hup|intros; apply with_phase_same|reflexivity|exact H]|].
  apply update_job_Ok in Hup as [(j0 & Hj0 & _ & _ & _ & ->)|(_ & -> & Hf)].
  2:{ specialize (Hf _ Hj). by rewrite (creating_job_true _ _ _ _ _ Hd Hs Hc Hp) in Hf. }
  split; [split; [done|]| |done|done].
  - apply readJob_Ok in H as (_ & j1 & Hj1 & Hd1). step_db. rewrite lookup_insert_eq in Hj1. injection Hj1 as <-.
    by eapply lost_phase.
  - split; [|done]. apply (readSession_frame sid d); [done|exact Hses].
Qed.

Lemma recordLost_Ok N M jid sid cid reason now job0 session0 job session d d' :
  lifecycles_ok d -> recordLostProbe jid sid cid reason now d = Ok ((job, session), d') ->
  readJobOnConnection jid d = Ok (job0, d) -> jr_SessionID job0 = sid -> jr_CommandID job0 = cid ->
  jr_Phase job0 = JobPhaseCreatingSession -> readSessionOnConnection sid d = Ok (session0, d) ->
  sr_State session0 = SessionStateCreating -> sr_RuntimeGeneration session0 = "" ->
  steps N M d [] d' /\ disposed jid sid cid job session d d'.
Proof.
  unfold recordLostProbe. intros Hlc H (_ & j & Hj & Hd)%readJob_Ok Hs Hc Hp Hses Hcr Hgen.
  apply readSession_Ok in Hses as (_ & row & Hrow & _ & _ & Hst & _ & _ & Hg & _). rewrite Hcr in Hst. rewrite Hgen in Hg.
  apply stx_bind_Ok in H as ([] & d1 & [-> Hr]%requireRetained_Ok & H).
  apply stx_bind_Ok in H as ([] & d1 & [-> Hno]%requireNoCommand_Ok & H).
  apply stx_bind_Ok in H as (x & d1 & [<- <-]%query_Ok & H).
  apply stx_bind_Ok in H as (newest & d1 & [Hn <-]%or_fail_Ok & H).
  apply stx_bind_Ok in H as ([] & d1 & (_ & _ & <-)%fail_if_Ok & H).
  rewrite (newest_sequence _ _ _ _ Hlc Hrow Hn) in H.
  apply stx_bind_Ok in H as (n & d1 & Hus & H). apply stx_bind_Ok in H as (u & d2 & Hil & H).
  apply stx_bind_Ok in H as (n' & d3 & Huj & H). apply stx_bind_Ok in H as (job' & d4 & Hrj & H).
  pose proof (readJob_same _ _ _ _ Hrj) as ->. apply stx_bind_Ok in H as (session' & d5 & Hrs & H).
  apply readSession_Ok in Hrs as Hrs'. destruct Hrs' as (-> & row' & Hrow' & _ & _ & Hst' & _).
  apply stx_ret_Ok in H as [[= -> ->] <-].
  assert ((in_session_state SessionStateCreating row && is_empty (s_runtime_generation row)) = true) as Hpre.
  { apply andb_true_iff. split; [by apply in_session_state_true|by rewrite <-Hg]. }
  assert (step N M d None d2) as Hstep.
  { eapply (session_move _ _ sid _ (session_with_state SessionStateLost now) reason now n u row); [exact Hus| |done|exact Hpre| |].
    - cbn [session_with_state s_state]. by rewrite <-Hst.
    - rewrite <-Hst. apply creating_lost.
    - apply with_state_same. }
  apply insert_lifecycle_Ok in Hil as (_ & _ & ->). apply update_session_Ok in Hus as [(r0 & Hr0 & _ & _ & ->)|(_ & _ & Hf)].
  2:{ specialize (Hf _ Hrow). cbv beta in Hf. by rewrite Hpre in Hf. }
  split.
  { apply (steps_app _ _ _ [] _ [] d3 (steps_one _ _ _ None _ Hstep)).
    eapply job_step_update; [exact Huj|intros; apply with_phase_same|reflexivity|exact Hrj]. }
  apply update_job_Ok in Huj as [(j0 & Hj0 & _ & _ & _ & ->)|(_ & -> & Hf)].
  2:{ specialize (Hf j Hj). by rewrite (creating_job_true _ _ _ _ _ Hd Hs Hc Hp) in Hf. }
  split; [split; [done|]|split; [done|]|done|done].
  - apply readJob_Ok in Hrj as (_ & j1 & Hj1 & Hd1). step_db. rewrite lookup_insert_eq in Hj1. injection Hj1 as <-.
    by eapply lost_phase.
  - rewrite Hst'. step_db. rewrite lookup_insert_eq in Hrow'. injection Hrow' as <-. done.
Qed.

Lemma probe_matches_ids sid cid key env ctl job session : probe_matches sid cid key env ctl job session = true ->
  jr_SessionID job = sid /\ jr_CommandID job = cid /\ sr_RuntimeGeneration session = "".
Proof.
  unfold probe_matches. rewrite !andb_true_iff, !bool_decide_eq_true. intros H. destruct_and! H. split_and!; [done..|].
  by destruct (sr_RuntimeGeneration session).
Qed.

Lemma MarkProbe_Ok N M s now jid sid cid key env ctl reason r s' :
  lifecycles_ok (db s) -> streams_ok (db s) ->
  MarkCreatingDirectProbeLost s now jid sid cid key env ctl reason = (r, s') ->
  match r with
  | Ok (job, session) => s' = store_db s (db s') /\ steps N M (db s) [] (db s') /\ disposed jid sid cid job session (db s) (db s')
  | Err _ => s' = s
  end.
Proof.
  unfold MarkCreatingDirectProbeLost, with_valid. cbv zeta. intros Hlc Hst H.
  destruct (NewJobID jid) as [jid'|] eqn:Ej; cbn [result_map_err] in H; [|by injection H as <- <-].
  destruct (NewSessionID sid) as [sid'|] eqn:Es; cbn [result_map_err] in H; [|by injection H as <- <-].
  destruct (NewCommandID cid) as [cid'|] eqn:Ec; cbn [result_map_err] in H; [|by injection H as <- <-]. id_norm.
  destruct (refuse_if _ _); [|by injection H as <- <-]. destruct r as [[job session]|e].
  2:{ by apply withImmediateTransaction_Err in H as [_ ->]. }
  apply withImmediateTransaction_Ok in H as (d' & E & ->). split; [done|]. cbn [store_db db].
  apply stx_bind_Ok in E as (job0 & d1 & Hj & E). pose proof (readJob_same _ _ _ _ Hj) as ->.
  apply stx_bind_Ok in E as (session0 & d1 & Hs & E). apply readSession_Ok in Hs as Hs'. destruct Hs' as [-> _].
  apply stx_bind_Ok in E as ([] & d1 & (_ & Hm%negb_false_iff & <-)%fail_if_Ok & E).
  apply probe_matches_ids in Hm as (Hms & Hmc & Hmg).
  apply stx_bind_Ok in E as (stopped & d1 & [<- <-]%query_Ok & E).
  destruct (bool_decide (jr_Phase job0 = JobPhaseLost) && bool_decide (sr_State session0 = SessionStateLost)) eqn:E1.
  - apply andb_true_iff in E1 as [P1%bool_decide_eq_true P2%bool_decide_eq_true].
    apply stx_bind_Ok in E as ([] & d1 & (-> & Hr & Hn)%confirmLostProbe_Ok & E). apply stx_ret_Ok in E as [[= <- <-] <-].
    split; [constructor|]. by split.
  - destruct (bool_decide (jr_Phase job0 = JobPhaseCreatingSession) && bool_decide (sr_State session0 = SessionStateLost)
      && _) eqn:E2.
    + apply andb_true_iff in E2 as [[P1%bool_decide_eq_true P2%bool_decide_eq_true]%andb_true_iff _].
      apply stx_bind_Ok in E as (job' & d1 & Hrc & E). apply stx_ret_Ok in E as [[= <- <-] <-].
      by eapply reconcile_Ok.
    + apply stx_bind_Ok in E as ([] & d1 & (_ & [P1%negb_false_iff%bool_decide_eq_true
        P2%negb_false_iff%bool_decide_eq_true]%orb_false_iff & <-)%fail_if_Ok & E). by eapply recordLost_Ok.
Qed.

Lemma MarkProbe_refines N M s now jid sid cid key env ctl reason r s' :
  lifecycles_ok (db s) -> streams_ok (db s) ->
  MarkCreatingDirectProbeLost s now jid sid cid key env ctl reason = (r, s') -> refines N M s s'.
Proof.
  intros Hlc Hst H. apply (MarkProbe_Ok N M) in H; [|done..]. destruct r as [[job session]|e].
  - destruct H as (-> & Hs & _). by apply refines_tx.
  - subst. apply refines_refl.
Qed.

(** ** The operations of the other components that were left *)
Lemma Revalidate_refines N M s identity r s' : RevalidateLaneAdmissionCandidate s identity = (r, s') -> refines N M s s'.
Proof.
  unfold RevalidateLaneAdmissionCandidate. destruct (LaneAdmissionSnapshot s) as [[st|]|]; [|intros [= _ <-]; apply refines_refl..].
  destruct (_ || _ || _); intros [= _ <-]; [apply refines_refl|by apply refines_core].
Qed.

Lemma LookupIdempotency_refines N M s now c o k r s' : LookupIdempotency s now c o k = (r, s') -> refines N M s s'.
Proof.
  unfold LookupIdempotency. destruct (validateController c) as [c'|]; [|intros [= _ <-]; apply refines_refl].
  destruct (validateIdempotencyOperationKey o k) as [[o' k']|]; [|intros [= _ <-]; apply refines_refl]. intros H.
  apply (refines_immediate _ _ _ _ _ _ H). intros x d' E%lookup_core. by apply steps_same.
Qed.
