(* ===== verification/Histories.v ===== *)
(** * Histories of operations

    Every operation of the store that writes, as one type of operations; the
    stores a history of them leads to keep the invariants of [Authority].  First, the offline recoveries as
    sequences of its steps. *)
From S2P Require Import Listings.
From S2P Require Import Prelude GoStrings Sha256 Identity Lifecycle Policy Canonical LaneAdmission.
From S2P Require Import AuditRecords Db AuditStore AdmissionStore Idempotency Sessions Commands LostRecovery.
From S2P Require Import RestartPlan Jobs Scheduler CommandlessRecovery TeardownRecovery MixedRecovery Settlement.
From S2P Require Import Authority AuthorityOps JobOps.

(** ** Refinement: the offline recoveries

    The releases of the commandless, completed-teardown and mixed recoveries and
    the settlement of cancelled jobs are sequences of steps of [Authority]. *)

(** ** Reading a list of records *)
Lemma read_each_records {A B} (read : A -> tx B) ids records d d' :
  (forall id, ReadOnly (read id)) -> read_each read ids d = Ok (records, d') ->
  d' = d /\ Forall2 (fun id record => read id d = Ok (record, d)) ids records.
Proof.
  intros Hro. revert records d'. induction ids as [|id ids IH]; intros records d' H; cbn [read_each] in H.
  { tx_inv H. by split. }
  apply stx_bind_Ok in H as (r & d1 & Hr & H). pose proof (Hro id _ _ _ Hr) as ->.
  apply stx_bind_Ok in H as (rs & d1 & [-> Hrs]%IH & H). tx_inv H. split; [done|]. by constructor.
Qed.

Lemma releasable_reservation_live r : releasable_reservation r = true -> r_cleanup_confirmed_at r = None.
Proof. unfold releasable_reservation. intros ?. bool_norm. by destruct (r_cleanup_confirmed_at r). Qed.

(** ** Commandless recovery *)
Lemma releaseCommandless_steps N M now recoveries u d d' :
  releaseCommandless now recoveries d = Ok (u, d') -> steps N M d [] d'.
Proof.
  revert u d. induction recoveries as [|r recoveries IH]; intros u d H; cbn [releaseCommandless] in H.
  { tx_inv H. constructor. }
  apply stx_bind_Ok in H as ([] & d1 & H1 & H%IH). eapply (steps_app _ _ _ [] _ []); [|exact H]. clear H.
  unfold releaseCommandlessLostRuntimeRecovery in H1. apply stx_bind_Ok in H1 as (n & d2 & Hn & H1).
  apply (reservation_move N M) in Hn; [|apply releasable_reservation_live].
  apply stx_bind_Ok in H1 as ([] & d3 & (_ & _ & <-)%fail_if_Ok & H1).
  unfold insert_commandless_finalization in H1. apply guarded_write_Ok in H1 as (_ & _ & ->).
  eapply (steps_app _ _ _ [] _ []); [exact Hn|]. by apply steps_same.
Qed.

Lemma ConfirmLostSet_refines N M s now pairs sessions r s' :
  ConfirmLostRuntimeRecoverySet s now pairs sessions = (r, s') -> refines N M s s'.
Proof.
  unfold ConfirmLostRuntimeRecoverySet. intros H. peel H. apply (refines_immediate _ _ _ _ _ _ H). clear H. intros x d' E.
  apply stx_bind_Ok in E as (l & d1 & Hl & E). assert (d1 = db s) as -> by (by apply read_only in Hl).
  apply retainedPairs_Ok in Hl. apply stx_bind_Ok in E as (cs & d1 & ->%read_only & E). cbv zeta in E.
  destruct (is_nil l && _); [tx_inv E; constructor|].
  apply stx_bind_Ok in E as (n1 & d1 & [_ <-]%query_Ok & E). apply stx_bind_Ok in E as (n2 & d1 & [_ <-]%query_Ok & E).
  apply stx_bind_Ok in E as ([] & d1 & (_ & _ & <-)%fail_if_Ok & E).
  apply stx_bind_Ok in E as ([] & d1 & Hp & E%(releaseCommandless_steps N M)).
  apply (releasePairs_steps N M) in Hp; [|done]. by apply (steps_app _ _ _ [] _ [] _ Hp).
Qed.

Lemma CompleteCommandless_refines N M s id r s' :
  CompleteCommandlessLostRuntimeRecoveryFinalization s id = (r, s') -> refines N M s s'.
Proof.
  unfold CompleteCommandlessLostRuntimeRecoveryFinalization. intros H. peel H.
  apply (refines_immediate _ _ _ _ _ _ H). clear H. intros x d' E. apply steps_same.
  apply stx_bind_Ok in E as (rec & d1 & ->%read_only & E).
  apply stx_bind_Ok in E as ([] & d1 & (_ & _ & <-)%fail_if_Ok & E).
  destruct (negb _); tx_inv E; done.
Qed.

(** ** Completed teardown *)
Lemma releaseTeardowns_steps N M now recoveries u d d' :
  releaseTeardowns now recoveries d = Ok (u, d') -> steps N M d [] d'.
Proof.
  revert u d. induction recoveries as [|r recoveries IH]; intros u d H; cbn [releaseTeardowns] in H.
  { tx_inv H. constructor. }
  apply stx_bind_Ok in H as ([] & d1 & H1 & H%IH). eapply (steps_app _ _ _ [] _ []); [|exact H]. clear H.
  unfold releaseTeardown in H1. destruct (tr_AlreadyRecovered r); [tx_inv H1; constructor|].
  apply stx_bind_Ok in H1 as (n & d2 & Hn & H1).
  apply (reservation_move N M) in Hn; [|apply releasable_reservation_live].
  apply stx_bind_Ok in H1 as ([] & d3 & (_ & _ & <-)%fail_if_Ok & H1).
  unfold insert_teardown_finalization in H1. apply guarded_write_Ok in H1 as (_ & _ & ->).
  eapply (steps_app _ _ _ [] _ []); [exact Hn|]. by apply steps_same.
Qed.

Lemma ConfirmTeardown_refines N M s now pairs r s' :
  ConfirmCompletedTeardownRecoveryBatch s now pairs = (r, s') -> refines N M s s'.
Proof.
  unfold ConfirmCompletedTeardownRecoveryBatch. intros H. peel H. apply (refines_immediate _ _ _ _ _ _ H). clear H.
  intros x d' E. apply stx_bind_Ok in E as (l & d1 & ->%read_only & E). by eapply releaseTeardowns_steps.
Qed.

Lemma CompleteTeardown_refines N M s pair r s' :
  CompleteCompletedTeardownRecoveryFinalization s pair = (r, s') -> refines N M s s'.
Proof.
  unfold CompleteCompletedTeardownRecoveryFinalization. intros H. peel H.
  apply (refines_immediate _ _ _ _ _ _ H). clear H. intros x d' E. apply steps_same.
  apply stx_bind_Ok in E as (rec & d1 & ->%read_only & E).
  apply stx_bind_Ok in E as ([] & d1 & (_ & _ & <-)%fail_if_Ok & E).
  destruct (negb _); tx_inv E; done.
Qed.

(** ** Mixed recovery *)
Definition lost_command (d : DB) (p : LostRuntimeRecoveryPair) : Prop :=
  exists c, exec_commands d !! pair_CommandID p = Some c /\ c_state c = CommandStateLost.

Lemma readMixedLost_Ok p r d : readMixedLost p d = Ok (r, d) -> ml_Pair r = p /\ lost_command d p.
Proof.
  unfold readMixedLost. intros H. apply stx_bind_Ok in H as (b & d1 & Hb & H).
  apply checkPair_Ok in Hb as (-> & c & _ & _ & _ & Hc & _ & Hst & _). tx_inv H. split; [done|]. by exists c.
Qed.

Lemma mixedLost_lost pairs recoveries d :
  Forall2 (fun p r => readMixedLost p d = Ok (r, d)) pairs recoveries -> Forall (lost_command d ∘ ml_Pair) recoveries.
Proof. induction 1 as [|p r pairs recoveries [<- Hr]%readMixedLost_Ok _ IH]; constructor; done. Qed.

Lemma readMixedSet_Ok lost teardown set_ d d' :
  readMixedRuntimeRecoverySet lost teardown d = Ok (set_, d') ->
  d' = d /\ Forall2 (fun p r => readMixedLost p d = Ok (r, d)) lost (mx_Lost set_) /\
  Forall2 (fun p r => readCompletedTeardownRecovery p d = Ok (r, d)) teardown (mx_Teardown set_).
Proof.
  intros H. split; [by apply read_only in H|]. unfold readMixedRuntimeRecoverySet in H. cbv zeta in H.
  apply stx_bind_Ok in H as (l & d1 & [-> Hl]%read_each_records & H); [|apply _].
  apply stx_bind_Ok in H as (t & d1 & [-> Ht]%read_each_records & H); [|apply _]. tx_inv H. done.
Qed.

Lemma ConfirmMixed_refines N M s now lost teardown r s' :
  ConfirmMixedRuntimeRecoverySet s now lost teardown = (r, s') -> refines N M s s'.
Proof.
  unfold ConfirmMixedRuntimeRecoverySet. intros H. peel H. apply (refines_immediate _ _ _ _ _ _ H). clear H.
  intros x d' E. apply stx_bind_Ok in E as (set_ & d1 & (-> & Hl%mixedLost_lost & _)%readMixedSet_Ok & E).
  apply stx_bind_Ok in E as ([] & d1 & H1 & E%(releaseTeardowns_steps N M)).
  apply (releasePairs_steps N M) in H1.
  - by apply (steps_app _ _ _ [] _ [] _ H1).
  - apply Forall_fmap. apply Forall_forall. intros p Hp%list_elem_of_In%filter_In. destruct Hp as [Hp%list_elem_of_In _].
    rewrite Forall_forall in Hl. by apply Hl.
Qed.

(** ** Settlement *)
Lemma settled_same final now j : same_job j (job_settled final now j).
Proof. by repeat split. Qed.

Lemma settled_readable id j final now :
  job_readable id j -> storable now -> job_readable id (job_settled final now j).
Proof.
  intros [r H] Hnow. revert H. unfold job_readable, decodeJobRow. cbv zeta.
  cbn [job_settled j_session_id j_command_id j_controller j_ingress j_target j_environment j_source j_request_hash_version
    j_request_hash j_idempotency_key j_payload_json j_script_bytes j_script_sha256 j_phase j_command_state j_exit_code
    j_final_event_sequence j_output_truncated j_output_complete j_output_unavailable_reason j_teardown_state
    j_teardown_reason j_created_at j_updated_at].
  rewrite (parse_format _ Hnow).
  repeat match goal with |- mbind _ ?m = Ok _ -> _ => destruct m; cbn [mbind result_bind]; [|done] end.
  destruct (parseStoredTime (j_created_at j)); [|done]. intros _. by eexists.
Qed.

Lemma settle_steps N M now candidates u d d' :
  jobs_ok d -> storable now -> settleCandidates now candidates d = Ok (u, d') -> steps N M d [] d'.
Proof.
  intros Hj Hnow. revert u d Hj. induction candidates as [|c candidates IH]; intros u d Hj H; cbn [settleCandidates] in H.
  { tx_inv H. constructor. }
  apply stx_bind_Ok in H as ([] & d1 & H1 & H).
  assert (steps N M d [] d1 /\ jobs_ok d1) as [Hs Hok].
  { destruct (cand_alreadySettled c); [tx_inv H1; by split; [constructor|]|].
    apply stx_bind_Ok in H1 as (n & d2 & Hu & (_ & _ & <-)%fail_if_Ok).
    apply update_job_Ok in Hu as [(j & Hlook & _ & _ & _ & ->)|(_ & -> & _)]; [|by split; [constructor|]].
    assert (step N M d None (put_job (cand_job c) (job_settled (cand_finalEventSequence c) now j) d)) as Hstep.
    { eapply step_job_update; [exact Hlook|apply settled_same|]. apply settled_readable; [|done].
      by eapply jo_readable. }
    split; [by apply (steps_one _ _ _ None)|by eapply step_jobs]. }
  eapply (steps_app _ _ _ [] _ []); [exact Hs|]. by eapply IH.
Qed.

Lemma Settle_refines N M s now ids r s' :
  jobs_ok (db s) -> storable now -> SettleClosedCancelledOneOffJobs s now ids = (r, s') -> refines N M s s'.
Proof.
  unfold SettleClosedCancelledOneOffJobs. intros Hj Hnow H. peel H. apply (refines_immediate _ _ _ _ _ _ H). clear H.
  intros x d' E. apply stx_bind_Ok in E as (cs & d1 & ->%read_only & E).
  apply stx_bind_Ok in E as ([] & d1 & H1 & E). tx_inv E. by eapply settle_steps.
Qed.

(** One constructor per operation of the store that writes, with its arguments;
    [run] executes it at a clock reading and drops the result. *)
Inductive Op : Type :=
  | OpConfigureLaneAdmission (lane : Lane) (host : HostID)
  | OpUpdateLaneAdmission (mutate : State -> result State)
  | OpRestart
  | OpRecordAudit (record : AuditRecord)
  | OpEnsureIdempotency (c : ControllerIdentity) (operation key : string) (h : CanonicalHash) (resource : string)
      (retention : Z) (audit : option AuditRecord)
  | OpAcceptSessionCreate (input : SessionCreateAcceptance)
  | OpCreateSession (input : SessionCreate)
  | OpConfirmSessionCleanup (id : string)
  | OpTransitionSession (id : string) (next : SessionState) (reason : string)
  | OpCompleteSessionCreation (id : string) (next : SessionState) (generation revision reason : string)
  | OpCompleteFailedSessionCreation (id generation revision reason : string)
  | OpFailPreStart (id : string)
  | OpAcceptCommand (input : CommandAcceptance)
  | OpAppendCommandEvent (input : CommandEventAppend)
  | OpTransitionCommand (input : CommandTransition)
  | OpCompleteRunningCommand (input : CommandTransition) (next : SessionState) (reason : string) (release : bool)
  | OpStartNext (maxSlots : Z) (handoff : bool)
  | OpConfirmCommandSlotRelease (id : string)
  | OpConfirmLostRecovery (pairs : list LostRuntimeRecoveryPair)
  | OpConfirmLostRecoveryPreserving (pairs : list LostRuntimeRecoveryPair)
  | OpCompleteFinalization (p : LostRuntimeRecoveryPair)
  | OpPreparePlan (pairs : list LostRuntimeRecoveryPair)
  | OpActivatePlan (plan : ControlledRestartPlan)
  | OpClearPlan (plan : ControlledRestartPlan)
  | OpRevalidateLaneAdmission (identity : Identity)
  | OpLookupIdempotency (c : ControllerIdentity) (operation key : string)
  | OpAcceptJob (ingress : option Ingress) (input : JobAcceptance)
  | OpCheckpointJob (id : string) (checkpoint : JobCheckpoint)
  | OpMarkCreatingDirectProbeLost (jobID sessionID commandID key environment controllerID reason : string)
  | OpConfirmLostRecoverySet (pairs : list LostRuntimeRecoveryPair) (sessions : list string)
  | OpCompleteCommandlessFinalization (sessionID : string)
  | OpConfirmCompletedTeardown (pairs : list CompletedTeardownRecoveryPair)
  | OpCompleteTeardownFinalization (pair : CompletedTeardownRecoveryPair)
  | OpConfirmMixedRecovery (lost : list LostRuntimeRecoveryPair) (teardown : list CompletedTeardownRecoveryPair)
  | OpSettleCancelledJobs (jobIDs : list string).

Definition run (s : AuthorityStore) (now : Z) (op : Op) : AuthorityStore :=
  match op with
  | OpConfigureLaneAdmission lane host => (ConfigureLaneAdmission s lane host).2
  | OpUpdateLaneAdmission mutate => (updateLaneAdmission s mutate).2
  | OpRestart => restart s
  | OpRecordAudit record => (RecordAudit s record).2
  | OpEnsureIdempotency c o k h rid ret a => (EnsureIdempotencyWithAudit s now c o k h rid ret a).2
  | OpAcceptSessionCreate input => (AcceptSessionCreate s now input).2
  | OpCreateSession input => (CreateSession s now input).2
  | OpConfirmSessionCleanup id => (ConfirmSessionCleanup s now id).2
  | OpTransitionSession id next reason => (TransitionSession s now id next reason).2
  | OpCompleteSessionCreation id next g rev reason => (CompleteSessionCreation s now id next g rev reason).2
  | OpCompleteFailedSessionCreation id g rev reason =>
      (CompleteFailedSessionCreationAfterConfirmedCleanup s now id g rev reason).2
  | OpFailPreStart id => (FailPreStartSessionCreation s now id).2
  | OpAcceptCommand input => (AcceptCommand s now input).2
  | OpAppendCommandEvent input => (AppendCommandEvent s now input).2
  | OpTransitionCommand input => (TransitionCommand s now input).2
  | OpCompleteRunningCommand input next reason release => (CompleteRunningCommand s now input next reason release).2
  | OpStartNext maxSlots handoff => (startNextEligibleCommand s now maxSlots handoff).2
  | OpConfirmCommandSlotRelease id => (ConfirmCommandSlotRelease s now id).2
  | OpConfirmLostRecovery pairs => (ConfirmLostRuntimeRecoveryBatch s now pairs).2
  | OpConfirmLostRecoveryPreserving pairs => (ConfirmLostRuntimeRecoveryBatchPreservingQueuedOneOffs s now pairs).2
  | OpCompleteFinalization p => (CompleteLostRuntimeRecoveryFinalization s p).2
  | OpPreparePlan pairs => (PrepareControlledRestartPlan s now pairs).2
  | OpActivatePlan plan => (ActivateControlledRestartPlan s now plan).2
  | OpClearPlan plan => (ClearControlledRestartPlan s plan).2
  | OpRevalidateLaneAdmission identity => (RevalidateLaneAdmissionCandidate s identity).2
  | OpLookupIdempotency c o k => (LookupIdempotency s now c o k).2
  | OpAcceptJob ingress input => (AcceptJob s now ingress input).2
  | OpCheckpointJob id checkpoint => (CheckpointJob s now id checkpoint).2
  | OpMarkCreatingDirectProbeLost jobID sessionID commandID key environment controllerID reason =>
      (MarkCreatingDirectProbeLost s now jobID sessionID commandID key environment controllerID reason).2
  | OpConfirmLostRecoverySet pairs sessions => (ConfirmLostRuntimeRecoverySet s now pairs sessions).2
  | OpCompleteCommandlessFinalization id => (CompleteCommandlessLostRuntimeRecoveryFinalization s id).2
  | OpConfirmCompletedTeardown pairs => (ConfirmCompletedTeardownRecoveryBatch s now pairs).2
  | OpCompleteTeardownFinalization p => (CompleteCompletedTeardownRecoveryFinalization s p).2
  | OpConfirmMixedRecovery lost teardown => (ConfirmMixedRuntimeRecoverySet s now lost teardown).2
  | OpSettleCancelledJobs ids => (SettleClosedCancelledOneOffJobs s now ids).2
  end.

(** The configuration of the process: claims run under at most [N] slots and
    sessions are accepted under at most [M] reservations, and a command starts
    by a claim, never by a bare [TransitionCommand] to running (no caller of the
    store does that).  The settlement, which does not read its row back, runs
    under a clock whose reading can be stored. *)
Definition configured (N M now : Z) (op : Op) : Prop :=
  match op with
  | OpAcceptSessionCreate input =>
      forall v, validateSessionAcceptance input = Ok v -> sa_MaxActiveSessions v <= M
  | OpCreateSession _ => DefaultActiveSessionLimit <= M
  | OpTransitionCommand input => ct_NextState input <> CommandStateRunning
  | OpStartNext maxSlots _ => slot_limit maxSlots <= N
  | OpSettleCancelledJobs _ => storable now
  | _ => True
  end.

Lemma run_refines N M s now op :
  lifecycles_ok (db s) -> streams_ok (db s) -> jobs_ok (db s) -> configured N M now op -> refines N M s (run s now op).
Proof.
  intros Hlc Hok Hjobs Hconf. destruct op; cbn [run configured] in *;
    match goal with |- refines _ _ _ (snd ?x) => destruct x as [r s'] eqn:E | _ => idtac end; cbn [snd];
    eauto using ConfigureLaneAdmission_refines, updateLaneAdmission_refines, RecordAudit_refines,
      EnsureIdempotency_refines, AcceptSessionCreate_refines, CreateSession_refines, ConfirmSessionCleanup_refines,
      TransitionSession_refines, CompleteSessionCreation_refines, CompleteFailedSessionCreation_refines,
      FailPreStart_refines, AcceptCommand_refines, AppendCommandEvent_refines, TransitionCommand_refines,
      CompleteRunningCommand_refines, startNext_refines, ConfirmCommandSlotRelease_refines, ConfirmLostBatch_refines,
      ConfirmLostPreserving_refines, CompleteFinalization_refines, PrepareControlledRestartPlan_refines,
      ActivateControlledRestartPlan_refines, ClearControlledRestartPlan_refines, Revalidate_refines, LookupIdempotency_refines, AcceptJob_refines,
      CheckpointJob_refines, MarkProbe_refines, ConfirmLostSet_refines, CompleteCommandless_refines, ConfirmTeardown_refines,
      CompleteTeardown_refines, ConfirmMixed_refines, Settle_refines, refines_core.
  by apply refines_core.
Qed.

(** The stores a history of operations leads to. *)
Definition runs (history : list (Z * Op)) (s : AuthorityStore) : AuthorityStore :=
  fold_left (fun s '(now, op) => run s now op) history s.

Definition new_store : AuthorityStore := mkAuthorityStore empty_db false [] [].

Definition store_inv (N M : Z) (s : AuthorityStore) : Prop := authority_inv N M (db s) (published s).

Lemma refines_inv N M s s' : refines N M s s' -> store_inv N M s -> store_inv N M s'.
Proof. unfold store_inv. intros (events & Hs & ->) H. by eapply steps_inv. Qed.

Lemma runs_inv N M history s :
  Forall (fun '(now, op) => configured N M now op) history -> store_inv N M s -> store_inv N M (runs history s).
Proof.
  unfold runs. intros Hf. revert s. induction Hf as [|[now op] history Hop _ IH]; intros s H; [done|].
  cbn [fold_left]. apply IH. eapply refines_inv; [|exact H]. apply run_refines; [by destruct H..|done].
Qed.

Lemma history_inv N M history :
  0 <= N -> 0 <= M -> Forall (fun '(now, op) => configured N M now op) history -> store_inv N M (runs history new_store).
Proof. intros. apply runs_inv; [done|]. by apply empty_inv. Qed.
