(* ===== verification/AuthorityTheorems.v ===== *)
(** * Correctness of the execution authority

    What holds of every store that a history of operations reaches: the event
    streams, the published log, command order, slots, reservations and session
    histories, and what never changes once it is recorded.  First, that a replay is a suffix of the
    published stream. *)
From S2P Require Import Prelude GoStrings Sha256 Identity Lifecycle Policy Canonical LaneAdmission.
From S2P Require Import AuditRecords Db AuditStore AdmissionStore Idempotency Sessions Commands LostRecovery.
From S2P Require Import RestartPlan Jobs Scheduler Authority AuthorityOps JobOps Histories.

(** ** Replay of command events

    A replay after a cursor returns exactly the events published after it: the
    reads of [src/src/internal/store/commands.go] against the event streams of
    [Authority]. *)

(** ** The rows of a stream are valid *)
Definition row_valid (r : EventRow) : Prop :=
  validCommandEventType (e_type r) = true /\
  validateStoredCommandEvent (e_type r) (e_sequence r) (e_payload r) (e_byte_count r) = Ok tt.

Lemma stream_nonempty rows st : command_stream rows st -> (0 < length rows)%nat.
Proof. induction 1; rewrite ?length_app; simpl; lia. Qed.

(** A marker event without payload is valid after the first position. *)
Lemma marker_valid type n t :
  validCommandEventType type = true -> type <> command_queued -> is_output type = false -> 1 < n ->
  row_valid (mkEventRow n type "" 0 t).
Proof.
  intros Hv Hq Ho Hn. split; [done|]. unfold validateStoredCommandEvent. cbn [e_type e_sequence e_payload e_byte_count].
  rewrite Hv, Ho, (bool_decide_eq_false_2 (type = command_queued)) by done.
  rewrite (proj2 (Z.ltb_ge n 1)), (proj2 (Z.eqb_neq n 1)), andb_false_r by lia. done.
Qed.

Lemma state_event_marker st type :
  commandEventTypeForState st = Some type ->
  validCommandEventType type = true /\ type <> command_queued /\ is_output type = false.
Proof. destruct st; intros [= <-]; done. Qed.

Lemma stream_rows_valid rows st : command_stream rows st -> Forall row_valid rows.
Proof.
  induction 1 as [|rows t H IH|rows st type payload n t H IH _ Ho Hv|rows H IH|rows st next type t H IH _ _ Hty]; try done.
  - by repeat constructor.
  - apply stream_nonempty in H. apply Forall_app. split; [done|]. constructor; [|constructor]. by apply marker_valid; [..|lia].
  - apply Forall_app. split; [done|]. constructor; [|constructor]. split; [by destruct type|done].
  - apply stream_nonempty in H. apply Forall_app. split; [done|]. constructor; [|constructor].
    apply state_event_marker in Hty as (? & ? & ?). by apply marker_valid; [..|lia].
Qed.

(** ** Decoding *)
Lemma decodeEvents_events id k evs :
  ev_Sequence <$> evs = seqZ k (Z.of_nat (length evs)) ->
  Forall (fun ev => ev_CommandID ev = id /\ row_valid (event_row_of ev) /\ storable (ev_OccurredAt ev)) evs ->
  decodeEvents id k (event_row_of <$> evs) = Ok evs.
Proof.
  revert k. induction evs as [|ev evs IH]; intros k Hseq Hf; [done|].
  cbn [length] in Hseq. rewrite Nat2Z.inj_succ, seqZ_cons, Z.pred_succ in Hseq by lia.
  cbn [fmap list_fmap] in Hseq. injection Hseq as Hk Hseq. apply Forall_cons in Hf as [(Hid & [Hv Hval] & Hst) Hf].
  cbn [fmap list_fmap decodeEvents]. rewrite Hv. cbn [event_row_of e_sequence e_type e_payload e_byte_count e_occurred_at] in *.
  rewrite Hk, Z.eqb_refl. cbn [negb orb refuse_if]. rewrite Hk in Hval. cbv [mbind result_bind]. rewrite Hval, parse_format by done.
  change (list_fmap _ _ event_row_of evs) with (event_row_of <$> evs). rewrite (IH (k + 1)) by done.
  by destruct ev; simpl in *; subst.
Qed.

(** The events a store published for a command. *)
Definition published_events (id : string) (s : AuthorityStore) : list CommandEventRecord :=
  filter (fun ev => ev_CommandID ev = id) (published s).

Lemma published_sequences N M s id c :
  store_inv N M s -> exec_commands (db s) !! id = Some c ->
  rows_of (exec_command_events (db s)) id = event_row_of <$> published_events id s /\
  ev_Sequence <$> published_events id s = seqZ 1 (Z.of_nat (length (published_events id s))) /\
  Forall row_valid (event_row_of <$> published_events id s) /\
  (0 < length (published_events id s))%nat /\
  c_final_event_sequence c = final_sequence (c_state c) (event_row_of <$> published_events id s).
Proof.
  intros [_ [Hs _] _ _ _ _ Hp] Hc. destruct (Hs _ _ Hc) as [Hstream Hfin].
  specialize (Hp id). change (filter _ _) with (published_events id s) in Hp. rewrite Hp in *.
  pose proof (stream_sequences _ _ Hstream) as Hseq. pose proof (stream_nonempty _ _ Hstream) as Hlen.
  rewrite length_fmap in Hseq, Hlen. rewrite <- list_fmap_compose in Hseq. split_and!; try done.
  by eapply stream_rows_valid.
Qed.

Lemma readEvents_published N M s id c after :
  store_inv N M s -> exec_commands (db s) !! id = Some c -> -1 <= after ->
  Forall (fun ev => storable (ev_OccurredAt ev)) (published s) ->
  readCommandEventsOnConnection id after (db s) = Ok (drop (Z.to_nat after) (published_events id s), db s).
Proof.
  intros Hinv Hc Ha Hclock. destruct (published_sequences _ _ _ _ _ Hinv Hc) as (Hrows & Hseq & Hvalid & Hlen & _).
  assert (e_sequence <$> (event_row_of <$> published_events id s) =
          seqZ 1 (Z.of_nat (length (event_row_of <$> published_events id s)))) as Hrowseq.
  { rewrite <- list_fmap_compose, length_fmap. exact Hseq. }
  set (evs := published_events id s) in *. set (k := Z.to_nat after).
  assert (ev_Sequence <$> drop k evs = seqZ (Z.of_nat k + 1) (Z.of_nat (length (drop k evs)))) as Hdrop.
  { rewrite fmap_drop, Hseq, length_drop, drop_seqZ. destruct (decide (k <= length evs)%nat).
    - f_equal; lia.
    - by rewrite !seqZ_nil by lia. }
  assert (events_after after id (db s) = event_row_of <$> drop k evs) as Hafter.
  { unfold events_after. rewrite Hrows, (filter_numbered e_sequence _ 1) by done.
    replace (Z.to_nat (after + 1 - 1)) with k by (unfold k; f_equal; lia). rewrite <- fmap_drop.
    eapply (merge_sort_numbered e_sequence); [done|]. rewrite <- list_fmap_compose. exact Hdrop. }
  unfold readCommandEventsOnConnection. tx_run. rewrite Hafter.
  rewrite (decodeEvents_events id _ (drop k evs)).
  - tx_run. destruct (is_nil (drop k evs) && (after <? 0)) eqn:E; [|done].
    apply andb_true_iff in E as [E1 E2]. bool_norm. replace k with 0%nat in E1 by lia.
    clearbody evs. destruct evs; [simpl in Hlen; lia|done].
  - rewrite Hdrop. f_equal. destruct (after <? 0) eqn:E; bool_norm; lia.
  - apply Forall_drop. apply Forall_forall. intros ev Hev. rewrite Forall_fmap in Hvalid.
    rewrite Forall_forall in Hvalid, Hclock. unfold evs, published_events in Hev. split_and!.
    + by apply list_elem_of_filter in Hev as [? _].
    + by apply Hvalid.
    + apply Hclock. by apply list_elem_of_filter in Hev as [_ ?].
Qed.

Lemma Replay_published N M s id rec after :
  store_inv N M s -> Forall (fun ev => storable (ev_OccurredAt ev)) (published s) ->
  GetCommand s id = Ok rec -> cr_OutputUnavailableReason rec <> retention_expired -> 0 <= after ->
  ReplayCommandEvents s id after = Ok (drop (Z.to_nat after) (published_events id s)).
Proof.
  intros Hinv Hclock Hget Hreason Ha. unfold GetCommand in Hget. tx_inv Hget. id_norm.
  unfold withReadTransaction in Hget. destruct (readCommandOnConnection id (db s)) as [[r d1]|] eqn:E; [|done].
  injection Hget as ->. destruct (readCommand_Ok _ _ _ _ E) as (-> & row & Hrow & Hne & _ & _ & _ & _ & Hst & _ & Hfin & _).
  destruct (published_sequences _ _ _ _ _ Hinv Hrow) as (_ & _ & _ & Hlen & Hfs).
  unfold ReplayCommandEvents. rewrite (proj2 (NewCommandID_Ok id id)) by done. cbn [mbind result_bind].
  rewrite (proj2 (Z.ltb_ge after 0)) by done. cbn [refuse_if]. unfold withReadTransaction.
  rewrite (stx_bind_run _ _ _ _ _ E), bool_decide_eq_false_2 by done. tx_run.
  rewrite (stx_bind_run _ _ _ _ _ (readEvents_published _ _ _ _ _ after Hinv Hrow ltac:(lia) Hclock)).
  rewrite Hfin, Hfs. unfold final_sequence. rewrite length_fmap, length_drop.
  destruct (CommandState_IsTerminal (c_state row)); cbn [is_Some_b negb andb]; tx_run.
  - replace (_ && _) with false; [by tx_run|]. symmetry. apply andb_false_iff.
    destruct (Z.ltb_spec after (Z.of_nat (length (published_events id s)))); [right|by left].
    apply negb_false_iff, Z.eqb_eq. lia.
  - destruct (after =? 0) eqn:E0; cbn [andb]; tx_run; [|done]. bool_norm. subst after. cbn [Z.to_nat drop].
    destruct (published_events id s); [simpl in Hlen; lia|done].
Qed.

(** ** What is never rewritten *)

(** The columns of a command that never change. *)
Definition same_command (c c' : CommandRow) : Prop :=
  c_session_id c' = c_session_id c /\ c_ordinal c' = c_ordinal c /\ c_intent_ordinal c' = c_intent_ordinal c /\
  c_request_hash_version c' = c_request_hash_version c /\ c_request_hash c' = c_request_hash c /\
  c_script_bytes c' = c_script_bytes c /\ c_script_sha256 c' = c_script_sha256 c /\
  c_timeout_ns c' = c_timeout_ns c /\ c_created_at c' = c_created_at c.

Record append_only (d d' : DB) : Prop := {
  ao_commands : forall id c, exec_commands d !! id = Some c -> exists c', exec_commands d' !! id = Some c' /\
    same_command c c' /\ (CommandState_IsTerminal (c_state c) = true -> c' = c);
  ao_events : forall id, is_Some (exec_commands d !! id) ->
    rows_of (exec_command_events d) id `prefix_of` rows_of (exec_command_events d') id;
  ao_closed : forall id c, exec_commands d !! id = Some c -> CommandState_IsTerminal (c_state c) = true ->
    rows_of (exec_command_events d') id = rows_of (exec_command_events d) id;
  ao_sessions : forall id r, exec_sessions d !! id = Some r ->
    exists r', exec_sessions d' !! id = Some r' /\ same_session r r';
  ao_lifecycle : forall id, is_Some (exec_sessions d !! id) ->
    rows_of (exec_session_lifecycle d) id `prefix_of` rows_of (exec_session_lifecycle d') id;
  ao_jobs : forall id j, exec_jobs d !! id = Some j -> exists j', exec_jobs d' !! id = Some j' /\ same_job j j'
}.

Lemma same_command_refl c : same_command c c.
Proof. by repeat split. Qed.
Lemma same_session_refl r : same_session r r.
Proof. by repeat split. Qed.

#[export] Instance append_only_refl : Reflexive append_only.
Proof. intros d. split; eauto using same_command_refl, same_session_refl, same_job_refl. Qed.

#[export] Instance append_only_trans : Transitive append_only.
Proof.
  intros d1 d2 d3 [A1 A2 A3 A4 A5 A6] [B1 B2 B3 B4 B5 B6]. split.
  - intros id c Hc. destruct (A1 _ _ Hc) as (c' & Hc' & S1 & T1). destruct (B1 _ _ Hc') as (c2 & Hc2 & S2 & T2).
    exists c2. split_and!; [done| |].
    + unfold same_command in *. intuition congruence.
    + intros Ht. specialize (T1 Ht). subst c'. auto.
  - intros id [c Hc]. destruct (A1 _ _ Hc) as (c' & Hc' & _). etrans; [apply A2|apply B2]; by eexists.
  - intros id c Hc Ht. destruct (A1 _ _ Hc) as (c' & Hc' & _ & T1). specialize (T1 Ht). subst c'.
    etrans; [by eapply B3|by eapply A3].
  - intros id r Hr. destruct (A4 _ _ Hr) as (r' & Hr' & S1). destruct (B4 _ _ Hr') as (r2 & Hr2 & S2).
    exists r2. split; [done|]. unfold same_session in *. intuition congruence.
  - intros id [r Hr]. destruct (A4 _ _ Hr) as (r' & Hr' & _). etrans; [apply A5|apply B5]; by eexists.
  - intros id j Hj. destruct (A6 _ _ Hj) as (j' & Hj' & S1). destruct (B6 _ _ Hj') as (j2 & Hj2 & S2).
    exists j2. split; [done|]. unfold same_job in *. intuition congruence.
Qed.

Lemma append_only_frame d d' :
  exec_sessions d' = exec_sessions d -> exec_session_lifecycle d' = exec_session_lifecycle d ->
  exec_commands d' = exec_commands d -> exec_command_events d' = exec_command_events d ->
  exec_jobs d' = exec_jobs d -> append_only d d'.
Proof.
  intros Hs Hl Hc He Hj. split; rewrite ?Hs, ?Hl, ?Hc, ?He, ?Hj; eauto using same_command_refl, same_session_refl, same_job_refl.
Qed.

(** Appending the event of a command that is not closed. *)
Lemma append_only_event d ev :
  (forall c, exec_commands d !! ev_CommandID ev = Some c -> CommandState_IsTerminal (c_state c) = false) ->
  append_only d (append_event ev d).
Proof.
  intros Hopen. split; step_db; eauto using same_command_refl, same_session_refl, same_job_refl.
  - intros id _. rewrite rows_of_insert. case_decide; subst; [by eexists|done].
  - intros id c Hc Ht. rewrite rows_of_insert. case_decide; subst; [|done]. by rewrite (Hopen _ Hc) in Ht.
Qed.

(** Updating a command that is not closed. *)
Lemma append_only_command d id c c' :
  exec_commands d !! id = Some c -> CommandState_IsTerminal (c_state c) = false -> same_command c c' ->
  append_only d (put_command id c' d).
Proof.
  intros Hc Ht Hs. split; step_db; eauto using same_session_refl, same_job_refl.
  intros id' x Hx. rewrite lookup_insert. case_decide; subst; [|by eauto using same_command_refl].
  rewrite Hc in Hx. injection Hx as <-. exists c'. split_and!; [done..|]. by rewrite Ht.
Qed.

Lemma edge_open st next : command_edge st next -> CommandState_IsTerminal st = false.
Proof.
  intros H. destruct (CommandState_IsTerminal st) eqn:E; [|done]. by destruct (terminal_no_edge _ _ E H).
Qed.

Lemma step_append_only N M d l d' : step N M d l d' -> streams_ok d -> append_only d d'.
Proof.
  intros Hstep [_ Hnone]. destruct Hstep as [d d' Hcore|d id row reason now Hno Hres Hst Hlt
    |d id r row reason now Hid Hedge Hsame|d id r now Hr Hn|d id row now Hno Hev Hses Hst Hf Hord
    |d id c type payload n now Hc Ha Ho Hv|d id c now Hc Hst|d id c input type now Hc Hedge Ht Hty
    |d id c now Hc Hst Hno _ Hlt|d id c r now Hc Ht Hr Hn|d id j Hno Hcf Hrd Hph|d id j j' Hj Hsame Hrd].
  - destruct Hcore. by apply append_only_frame.
  - split; step_db; eauto using same_command_refl, same_job_refl.
    + intros id' r Hr. rewrite lookup_insert_ne by congruence. eauto using same_session_refl, same_job_refl.
    + intros id' [r Hr]. rewrite rows_of_insert. case_decide; [congruence|done].
  - split; step_db; eauto using same_command_refl, same_job_refl.
    + intros id' x Hx. rewrite lookup_insert. case_decide; subst; [|by eauto using same_session_refl].
      rewrite Hid in Hx. injection Hx as <-. by eexists.
    + intros id' _. rewrite rows_of_insert. case_decide; subst; [by eexists|done].
  - by apply append_only_frame.
  - split; step_db; cbn [ev_CommandID]; eauto using same_session_refl, same_job_refl.
    + intros id' c Hc. rewrite lookup_insert_ne by congruence. eauto using same_command_refl, same_job_refl.
    + intros id' [c Hc]. rewrite rows_of_insert. case_decide; [congruence|done].
    + intros id' c Hc _. rewrite rows_of_insert. case_decide; [congruence|done].
  - apply append_only_event. cbn [stream_event ev_CommandID]. rewrite Hc. intros ? [= <-]. by apply active_not_terminal.
  - eapply append_only_command; [done|by rewrite Hst|by repeat split].
  - transitivity (append_event (stream_event id type "" 0 now d) d).
    + apply append_only_event. cbn [stream_event ev_CommandID]. rewrite Hc. intros ? [= <-]. by eapply edge_open.
    + eapply append_only_command; [done|by eapply edge_open|by repeat split].
  - transitivity (append_event (stream_event id command_started "" 0 now d) d).
    + apply append_only_event. cbn [stream_event ev_CommandID]. rewrite Hc. intros ? [= <-]. by rewrite Hst.
    + transitivity (put_slot id (mkSlotRow schedulerHostKey (formatStoredTime now) None None)
        (append_event (stream_event id command_started "" 0 now d) d)); [by apply append_only_frame|].
      eapply append_only_command; [done|by rewrite Hst|by repeat split].
  - by apply append_only_frame.
  - split; step_db; eauto using same_command_refl, same_session_refl.
    intros id' x Hx. rewrite lookup_insert_ne by congruence. eauto using same_job_refl.
  - split; step_db; eauto using same_command_refl, same_session_refl.
    intros id' x Hx. rewrite lookup_insert. case_decide; subst; [|by eauto using same_job_refl].
    rewrite Hj in Hx. injection Hx as <-. by eexists.
Qed.

Lemma steps_append_only N M d l d' : steps N M d l d' -> streams_ok d -> append_only d d'.
Proof.
  induction 1 as [d|d l d1 events d2 Hstep _ IH]; intros Hok; [done|].
  transitivity d1; [by eapply step_append_only|]. apply IH. by eapply step_streams.
Qed.

Lemma runs_append_only N M history s :
  Forall (fun '(now, op) => configured N M now op) history -> store_inv N M s -> append_only (db s) (db (runs history s)).
Proof.
  unfold runs. intros Hf. revert s. induction Hf as [|[now op] history Hop _ IH]; intros s H; [done|].
  cbn [fold_left]. assert (refines N M s (run s now op)) as Hr by (apply run_refines; [by destruct H..|done]).
  transitivity (db (run s now op)); [|by apply IH; eapply refines_inv].
  destruct Hr as (events & Hs & _). eapply steps_append_only; [done|]. by destruct H.
Qed.

(** ** Reachable stores *)
Definition reachable (N M : Z) (s : AuthorityStore) : Prop :=
  0 <= N /\ 0 <= M /\ exists history, Forall (fun '(now, op) => configured N M now op) history /\ s = runs history new_store.

Lemma reachable_inv N M s : reachable N M s -> store_inv N M s.
Proof. intros (HN & HM & history & Hf & ->). by apply history_inv. Qed.

(** C1: In every reachable store the event rows of a command record a run of its
    state machine (queued first, started once, output only while it runs, one
    terminal event last), their sequence numbers are exactly 1..n, and the
    recorded final sequence is n exactly when the command is terminal. *)
Theorem event_stream_is_run N M s id c :
  reachable N M s -> exec_commands (db s) !! id = Some c ->
  command_stream (rows_of (exec_command_events (db s)) id) (c_state c) /\
  e_sequence <$> rows_of (exec_command_events (db s)) id
    = seqZ 1 (Z.of_nat (length (rows_of (exec_command_events (db s)) id))) /\
  c_final_event_sequence c = final_sequence (c_state c) (rows_of (exec_command_events (db s)) id).
Proof.
  intros [_ [Hs _] _ _ _ _ _]%reachable_inv Hc. destruct (Hs _ _ Hc) as [H1 H2]. split_and!; [done| |done].
  by eapply stream_sequences.
Qed.

(** C2: The events handed to subscribers for a command are, in order, exactly the
    event rows committed for it: nothing is published that was rolled back, and
    nothing committed is left unpublished. *)
Theorem published_is_committed N M s id :
  reachable N M s ->
  rows_of (exec_command_events (db s)) id = event_row_of <$> published_events id s.
Proof. intros H%reachable_inv. apply H. Qed.

(** C3: A replay after any cursor returns exactly the events published after it,
    with no gap and no duplicate, as long as the output was not removed by
    retention. *)
Theorem replay_is_suffix N M s id rec after :
  reachable N M s -> Forall (fun ev => storable (ev_OccurredAt ev)) (published s) ->
  GetCommand s id = Ok rec -> cr_OutputUnavailableReason rec <> retention_expired -> 0 <= after ->
  ReplayCommandEvents s id after = Ok (drop (Z.to_nat after) (published_events id s)).
Proof. intros H%reachable_inv. by apply (Replay_published N M). Qed.


(** The commands that are running or cancelling. *)
Definition active_commands (d : DB) : gmap string CommandRow :=
  filter (fun '(_, c) => active_command c = true) (exec_commands d).
Definition live_slots (d : DB) : gmap string SlotRow :=
  filter (fun '(_, r) => sl_host_key r = schedulerHostKey /\ sl_stop_confirmed_at r = None) (exec_command_slots d).

Lemma active_within_live N d : slots_ok N d -> dom (active_commands d) ⊆ dom (live_slots d).
Proof.
  intros [H1 H2 _] id (c & [Hc Ha]%map_lookup_filter_Some)%elem_of_dom. apply elem_of_dom.
  destruct (H2 _ _ Hc Ha) as (sl & Hsl & Hstop). exists sl. apply map_lookup_filter_Some. split; [done|].
  destruct (H1 _ _ Hsl) as (_ & _ & Hh & _). done.
Qed.


(** A slot is released only after its command is terminal, and its two
    release timestamps are set together. *)
Theorem released_slot_is_terminal N M s id sl :
  reachable N M s -> exec_command_slots (db s) !! id = Some sl ->
  exists c, exec_commands (db s) !! id = Some c /\
    (sl_stop_confirmed_at sl = None <-> sl_released_at sl = None) /\
    (sl_released_at sl <> None -> CommandState_IsTerminal (c_state c) = true).
Proof.
  intros H%reachable_inv Hsl. destruct (so_slot _ _ (ai_slots _ _ _ _ H) _ _ Hsl) as (c & Hc & _ & Hp & Ht).
  exists c. split_and!; [done..|]. intros Hr. apply Ht. by rewrite Hp.
Qed.

(** The lifecycle rows of a session are a walk along the D-01 edges that
    starts by creating and ends in its current state, numbered 1..n. *)
Theorem session_history_is_legal N M s id r :
  reachable N M s -> exec_sessions (db s) !! id = Some r ->
  session_history (rows_of (exec_session_lifecycle (db s)) id) (s_state r) /\
  l_sequence <$> rows_of (exec_session_lifecycle (db s)) id
    = seqZ 1 (Z.of_nat (length (rows_of (exec_session_lifecycle (db s)) id))).
Proof.
  intros H%reachable_inv Hr. destruct (ai_lifecycles _ _ _ _ H) as [Hl _]. split; [by apply Hl|].
  by eapply history_sequences, Hl.
Qed.

(** Every session holds one capacity reservation, and the reservations whose
    cleanup is not confirmed never exceed the session limit. *)
Theorem reservations_bounded N M s :
  reachable N M s ->
  (forall id, is_Some (exec_capacity_reservations (db s) !! id) <-> is_Some (exec_sessions (db s) !! id)) /\
  CountLiveSessionReservations s <= M.
Proof. intros H%reachable_inv. destruct (ai_reservations _ _ _ _ H) as [H1 _ H3]. done. Qed.


(** ** A concrete history *)
Definition t0 : Z := 63900000000 * second.
Definition example_target : ExecutionTarget := mkExecutionTarget TargetKindLocal "default".
Definition example_limits : EffectiveSessionLimits :=
  mkEffectiveSessionLimits (10 * minute) (30 * minute) (4 * hour) 1048576.
Definition example_create : SessionCreate :=
  mkSessionCreate "s1" example_target "linux-dev" example_controller NewEmptySource "" "" example_limits "requested".
Definition example_acceptance : SessionCreateAcceptance :=
  mkSessionCreateAcceptance example_create "key-s1" (example_hash "a") 0 0 None.
Definition example_command (id key script : string) : CommandAcceptance :=
  mkCommandAcceptance id "s1" (example_hash "b") key 0 script minute 0 None.
Definition example_success : CommandTransition :=
  mkCommandTransition "c1" CommandStateSucceeded (Some 0) true false.

(** Two commands of one session; the first ran and printed, the second runs. *)
Definition example_history : list (Z * Op) :=
  [ (t0, OpAcceptSessionCreate example_acceptance);
    (t0 + second, OpCompleteSessionCreation "s1" SessionStateReady "gen-1" "" "runtime_ready");
    (t0 + 2 * second, OpAcceptCommand (example_command "c1" "key-c1" "echo hi"));
    (t0 + 3 * second, OpAcceptCommand (example_command "c2" "key-c2" "echo ho"));
    (t0 + 4 * second, OpStartNext 0 true);
    (t0 + 5 * second, OpAppendCommandEvent (mkCommandEventAppend "c1" stdout "hi" 2));
    (t0 + 6 * second, OpCompleteRunningCommand example_success SessionStateReady "command_completed" true);
    (t0 + 7 * second, OpStartNext 0 true) ].

Definition example_state : AuthorityStore := runs example_history new_store.

Example example_state_commands :
  c_state <$> exec_commands (db example_state) !! "c1" = Some CommandStateSucceeded /\
  c_state <$> exec_commands (db example_state) !! "c2" = Some CommandStateRunning.
Proof. vm_compute. split; reflexivity. Qed.

Example example_state_events :
  (fun ev => (ev_Sequence ev, ev_Type ev)) <$> published_events "c1" example_state =
  [(1, command_queued); (2, command_started); (3, stdout); (4, command_succeeded)].
Proof. vm_compute. reflexivity. Qed.

Lemma example_configured : Forall (fun '(now, op) => configured 4 20 now op) example_history.
Proof.
  unfold example_history. repeat (constructor; [first [exact I | vm_compute; congruence | idtac]|]); [|constructor].
  intros v Hv. vm_compute in Hv. injection Hv as <-. vm_compute. congruence.
Qed.

Lemma example_reachable : reachable 4 20 example_state.
Proof.
  split; [lia|]. split; [lia|]. exists example_history. split; [exact example_configured|reflexivity].
Qed.

Lemma example_c1 : exists c, exec_commands (db example_state) !! "c1" = Some c /\ c_state c = CommandStateSucceeded /\
  c_session_id c = "s1" /\ c_ordinal c = 1.
Proof. eexists. split; [vm_compute; reflexivity|]. vm_compute. split_and!; reflexivity. Qed.
Lemma example_c2 : exists c, exec_commands (db example_state) !! "c2" = Some c /\ c_state c = CommandStateRunning /\
  c_session_id c = "s1" /\ c_ordinal c = 2.
Proof. eexists. split; [vm_compute; reflexivity|]. vm_compute. split_and!; reflexivity. Qed.

Lemma event_stream_is_run_witness : exists c, exec_commands (db example_state) !! "c1" = Some c /\
  c_final_event_sequence c = final_sequence (c_state c) (rows_of (exec_command_events (db example_state)) "c1").
Proof.
  destruct example_c1 as (c & Hc & _). exists c. split; [exact Hc|].
  apply (event_stream_is_run 4 20 example_state "c1" c example_reachable Hc).
Defined.

Lemma published_is_committed_witness :
  rows_of (exec_command_events (db example_state)) "c1" = event_row_of <$> published_events "c1" example_state.
Proof. apply (published_is_committed 4 20 example_state "c1" example_reachable). Defined.

Lemma replay_is_suffix_witness :
  ReplayCommandEvents example_state "c1" 2 = Ok (drop 2 (published_events "c1" example_state)).
Proof.
  destruct (GetCommand example_state "c1") as [rec|e] eqn:Hget; [|vm_compute in Hget; discriminate].
  apply (replay_is_suffix 4 20 example_state "c1" rec 2 example_reachable).
  - refine (bool_decide_eq_true_1 _ _). vm_compute. reflexivity.
  - exact Hget.
  - vm_compute in Hget. injection Hget as <-. vm_compute. discriminate.
  - lia.
Defined.



Lemma released_slot_is_terminal_witness :
  exists sl c, exec_command_slots (db example_state) !! "c1" = Some sl /\ sl_released_at sl <> None /\
    exec_commands (db example_state) !! "c1" = Some c /\ CommandState_IsTerminal (c_state c) = true.
Proof.
  destruct (exec_command_slots (db example_state) !! "c1") as [sl|] eqn:Hsl; [|vm_compute in Hsl; discriminate].
  assert (sl_released_at sl <> None) as Hr.
  { vm_compute in Hsl. injection Hsl as <-. discriminate. }
  destruct (released_slot_is_terminal 4 20 example_state "c1" sl example_reachable Hsl) as (c & Hc & _ & Ht).
  exists sl, c. split_and!; auto.
Defined.

Lemma session_history_is_legal_witness : exists r, exec_sessions (db example_state) !! "s1" = Some r /\
  session_history (rows_of (exec_session_lifecycle (db example_state)) "s1") (s_state r).
Proof.
  destruct (exec_sessions (db example_state) !! "s1") as [r|] eqn:Hr; [|vm_compute in Hr; discriminate].
  exists r. split; [reflexivity|]. apply (session_history_is_legal 4 20 example_state "s1" r example_reachable Hr).
Defined.

Lemma reservations_bounded_witness : CountLiveSessionReservations example_state <= 20.
Proof. apply (reservations_bounded 4 20 example_state example_reachable). Defined.

