(* ===== verification/AcceptRetry.v ===== *)
(** * Exactly-once acceptance

    A retried acceptance, of a session or of a command, returns what the first
    one created and changes nothing; reusing its key for another request is a
    conflict.  [src/src/internal/store/sessions.go] and
    [src/src/internal/store/commands.go]. *)
From S2P Require Import Prelude GoStrings Sha256 Identity Lifecycle Policy Canonical LaneAdmission.
From S2P Require Import AuditRecords Db AuditStore AdmissionStore Idempotency Sessions Commands LostRecovery.
From S2P Require Import RestartPlan Jobs Scheduler Authority AuthorityOps JobOps Histories AuthorityTheorems.

Lemma validateCommandAcceptance_Ok input v :
  validateCommandAcceptance input = Ok v ->
  ca_SessionID v = ca_SessionID input /\ ca_CommandID v = ca_CommandID input /\ ca_CommandID v <> "" /\
  ca_SessionID v <> "" /\ ca_RequestHash v = ca_RequestHash input /\ hash_version (ca_RequestHash v) <> 0 /\
  go_len (hash_digest (ca_RequestHash v)) = sha256_Size /\
  ca_IdempotencyKey v = ca_IdempotencyKey input /\ text_ok 256 (ca_IdempotencyKey v) /\
  ca_IdempotencyRetention v = effective_retention (ca_IdempotencyRetention input) /\
  0 <= ca_IdempotencyRetention v /\ ca_Audit v = ca_Audit input.
Proof.
  unfold validateCommandAcceptance. cbv zeta. fold (effective_retention (ca_IdempotencyRetention input)).
  intros H. tx_inv H. id_norm. bool_norm.
  match goal with Hh : NewCanonicalHash _ _ = Ok _ |- _ => apply NewCanonicalHash_Ok in Hh as (-> & Hv & Hd) end.
  match goal with Hk : validateIdempotencyOperationKey _ _ = Ok _ |- _ =>
    apply validateIdempotencyOperationKey_Ok in Hk as (_ & _ & Hk') end.
  cbn [ca_SessionID ca_CommandID ca_RequestHash ca_IdempotencyKey ca_IdempotencyRetention ca_Audit hash_version hash_digest].
  destruct (ca_RequestHash input). split_and!; done.
Qed.

(** A looked-up key leaves the other tables alone. *)
Lemma lookup_admission c o k now r d d' :
  lookupIdempotencyOnConnection c o k now d = Ok (r, d') -> lane_ingress_admission d' = lane_ingress_admission d.
Proof. intros [-> _]%lookupIdempotency_frame. done. Qed.

Lemma record_admission r u d d' :
  recordIdempotencyOnConnection r d = Ok (u, d') ->
  lane_ingress_admission d' = lane_ingress_admission d /\
  exec_idempotency d' !! idem_key (idem_Controller r) (idem_Operation r) (idem_Key r) = Some (idempotency_row r).
Proof.
  unfold recordIdempotencyOnConnection. intros (_ & _ & ->)%insert_idempotency_Ok. db_simpl.
  by rewrite lookup_insert_eq.
Qed.

(** What a fresh acceptance leaves behind. *)
Record accepted_command (s : AuthorityStore) (now : Z) (v : CommandAcceptance) (rec : CommandRecord)
    (s1 : AuthorityStore) : Prop := {
  ac_gate : checkIngressAdmissionOnConnection (laneAdmissionRuntime s1) (db s1) = Ok (tt, db s1);
  ac_session : exists row controllerID controller warning created,
    exec_sessions (db s1) !! ca_SessionID v = Some row /\
    NewControllerID (controller_id (s_controller row)) = Ok controllerID /\
    NewControllerIdentity (controller_typeName (s_controller row)) controllerID = Ok controller /\
    exec_idempotency (db s1) !! idem_key controller submitCommandOperation (ca_IdempotencyKey v)
      = Some (idempotency_row (mkIdempotencyRecord controller submitCommandOperation (ca_IdempotencyKey v)
          (ca_RequestHash v) (ca_CommandID v) now (now + ca_IdempotencyRetention v) warning)) /\
    readCommandOnConnection (ca_CommandID v) (db s1) = Ok (created, db s1) /\
    rec = command_with_warning created warning /\ text_ok 256 (ca_CommandID v) /\ storable now
}.

Lemma AcceptCommand_fresh s now input v rec s1 :
  validateCommandAcceptance input = Ok v -> ca_Audit input = None ->
  AcceptCommand s now input = (Ok (rec, false), s1) -> accepted_command s now v rec s1.
Proof.
  intros Hv Ha. unfold AcceptCommand. rewrite Hv.
  destruct (validateCommandAcceptance_Ok _ _ Hv) as (_ & _ & _ & _ & _ & _ & _ & _ & _ & _ & _ & Hva). rewrite Ha in Hva.
  destruct (withImmediateTransaction _ _) as [[[[rec0 dup] saved]|e] s2] eqn:E; [|done]. cbv zeta.
  destruct dup; intros [= -> <-]. apply withImmediateTransaction_Ok in E as (d' & E & ->).
  apply stx_bind_Ok in E as ([] & d1 & (_ & -> & Hgate)%checkIngress_Ok & E).
  apply stx_bind_Ok in E as (row & d1 & [<- <-]%query_Ok & E).
  apply stx_bind_Ok in E as (row & d1 & [Hrow <-]%or_fail_Ok & E).
  apply stx_bind_Ok in E as (cid & d1 & [Hcid <-]%lift_Ok & E).
  apply stx_bind_Ok in E as (controller & d1 & [Hctl <-]%lift_Ok & E).
  apply stx_bind_Ok in E as ([ex|] & d1 & Hl & E).
  { do 4 apply stx_bind_Ok in E as (? & ? & _ & E). by apply stx_ret_Ok in E as [[=] _]. }
  tx_inv E.
  apply expiryWarning_read in Hrun as [-> _]. apply nextCommandOrdinal_Ok in Hrun1 as [-> _].
  apply insert_command_Ok in Hrun2 as (_ & _ & ->). apply insert_event_Ok in Hrun3 as (_ & _ & ->).
  apply validateIdempotencyInput_Ok in Hrun4 as [-> Hin].
  pose proof (recordIdempotency_core _ _ _ _ Hrun5) as Hcore. apply record_admission in Hrun5 as [Hadm Hidem].
  rewrite Hva in Hrun7. cbn [insertOptionalAuditOnConnection] in Hrun7. tx_inv Hrun7. pose proof (readCommand_Ok _ _ _ _ Hrun6) as (-> & crow & Hcrow & _ & _ & _ & _ & _ & _ & _ & _ & _ & Hca & _).
  pose proof (lookup_admission _ _ _ _ _ _ _ Hl) as Hadm1. pose proof (lookup_core _ _ _ _ _ _ _ Hl) as Hcore1.
  db_simpl. split; cbn [logOptionalAudit publish db laneAdmissionRuntime store_db].
  - apply checkIngress_Ok. rewrite Hadm, Hadm1. done.
  - eexists row, cid, controller, _, _. split_and!; try done.
    + rewrite (core_sessions _ _ Hcore). db_simpl. by rewrite (core_sessions _ _ Hcore1).
    + apply Hin.
    + rewrite (core_commands _ _ Hcore) in Hcrow. db_simpl. rewrite lookup_insert_eq in Hcrow. injection Hcrow as <-.
      by apply parse_format_Some in Hca as [_ ?].
Qed.

(** Submitting a command is exactly-once.  After an acceptance that created
    a command, any valid retry with the same session and key before the binding
    expires returns the very same record, flagged as a duplicate, when its
    request hash is the same, and [ErrIdempotencyConflict] when it is not; in
    both cases the store is unchanged, whatever command ID or script the retry
    carries. *)
Theorem AcceptCommand_retry s now input rec s1 now' input' v' :
  AcceptCommand s now input = (Ok (rec, false), s1) -> ca_Audit input = None ->
  hash_wf (ca_RequestHash input) -> storable (now + effective_retention (ca_IdempotencyRetention input)) ->
  now' < now + effective_retention (ca_IdempotencyRetention input) ->
  validateCommandAcceptance input' = Ok v' -> ca_Audit input' = None ->
  ca_SessionID input' = ca_SessionID input -> ca_IdempotencyKey input' = ca_IdempotencyKey input ->
  AcceptCommand s1 now' input' =
    if decide (ca_RequestHash input' = ca_RequestHash input) then (Ok (rec, true), s1)
    else (Err ErrIdempotencyConflict, s1).
Proof.
  intros H Ha Hwf Hst Hlt Hv' Ha' Hsid Hkey.
  destruct (validateCommandAcceptance input) as [v|] eqn:Hv; [|by unfold AcceptCommand in H; rewrite Hv in H].
  destruct (validateCommandAcceptance_Ok _ _ Hv) as (Vs & _ & Vne & _ & Vh & _ & _ & Vk & _ & Vret & _ & _).
  destruct (validateCommandAcceptance_Ok _ _ Hv') as (Vs' & _ & _ & _ & Vh' & _ & _ & Vk' & _ & _ & _ & Va').
  destruct (AcceptCommand_fresh _ _ _ _ _ _ Hv Ha H) as [Hgate (row & cid & ctl & w & created & Hrow & Hcid & Hctl & Hidem & Hread & -> & Htext & Hnow)].
  assert (retained (db s1) (mkIdempotencyRecord ctl submitCommandOperation (ca_IdempotencyKey v) (ca_RequestHash v)
            (ca_CommandID v) now (now + ca_IdempotencyRetention v) w)) as Hret.
  { apply recorded_retained; [exact Hidem|done|by rewrite Vret|by rewrite Vh|done]. }
  unfold AcceptCommand. rewrite Hv'. unfold withImmediateTransaction.
  rewrite (stx_bind_run _ _ _ _ _ Hgate). tx_run. rewrite Vs', Hsid, <- Vs, Hrow. tx_run. rewrite Hcid. tx_run.
  rewrite Hctl. tx_run. rewrite Vk', Hkey, <- Vk.
  erewrite stx_bind_run by (apply (lookup_retained _ _ now' Hret); simpl; rewrite Vret; exact Hlt).
  cbv beta iota. cbn [idem_Hash idem_ResourceID idem_DeduplicationWarning]. rewrite Vh, Vh'.
  destruct (decide (ca_RequestHash input' = ca_RequestHash input)) as [->|Hne].
  - rewrite (proj2 (CompareIdempotency_same _ _)) by (split; [done|unfold hash_wf in Hwf; lia]). tx_run.
    rewrite (proj2 (NewCommandID_Ok _ (ca_CommandID v))) by done. tx_run. rewrite (stx_bind_run _ _ _ _ _ Hread).
    rewrite Va', Ha'. cbn [insertOptionalAuditOnConnection]. tx_run. unfold mret, stx_ret. cbv beta iota.
    cbn [logOptionalAudit]. by destruct s1.
  - destruct (is_conflict _) eqn:E; [done|]. apply CompareIdempotency_same in E as [E _]. congruence.
Qed.

(** The same for sessions. *)
Lemma validateSessionAcceptance_Ok input v :
  validateSessionAcceptance input = Ok v ->
  validateSessionCreate (sa_SessionCreate input) = Ok (sa_SessionCreate v) /\
  sa_RequestHash v = sa_RequestHash input /\ sa_IdempotencyKey v = sa_IdempotencyKey input /\
  text_ok 256 (sa_IdempotencyKey v) /\
  sa_IdempotencyRetention v = effective_retention (sa_IdempotencyRetention input) /\ sa_Audit v = sa_Audit input.
Proof.
  unfold validateSessionAcceptance. cbv zeta. fold (effective_retention (sa_IdempotencyRetention input)).
  intros H. tx_inv H. match goal with Hh : NewCanonicalHash _ _ = Ok _ |- _ => apply NewCanonicalHash_Ok in Hh as (-> & _) end.
  rewrite bad_text_false in *. cbn [sa_SessionCreate sa_RequestHash sa_IdempotencyKey sa_IdempotencyRetention sa_Audit].
  destruct (sa_RequestHash input). split_and!; done.
Qed.

Lemma validateSessionCreate_Ok input v :
  validateSessionCreate input = Ok v ->
  sc_SessionID v = sc_SessionID input /\ sc_SessionID v <> "" /\ sc_Controller v = sc_Controller input.
Proof.
  unfold validateSessionCreate. cbv zeta. intros H. tx_inv H. id_norm. cbn [sc_SessionID sc_Controller]. split_and!; try done.
  match goal with Hc : NewControllerID _ = Ok _ |- _ => apply NewControllerID_Ok in Hc as [-> _] end.
  match goal with Hc : NewControllerIdentity _ _ = Ok _ |- _ => apply NewControllerIdentity_Ok in Hc as [-> _] end.
  by destruct (sc_Controller input).
Qed.

Record accepted_session (now : Z) (v : SessionCreateAcceptance) (rec : SessionRecord) (s1 : AuthorityStore) : Prop := {
  as_gate : checkIngressAdmissionOnConnection (laneAdmissionRuntime s1) (db s1) = Ok (tt, db s1);
  as_binding : exists warning created reservation,
    exec_idempotency (db s1) !! idem_key (sc_Controller (sa_SessionCreate v)) createSessionOperation (sa_IdempotencyKey v)
      = Some (idempotency_row (mkIdempotencyRecord (sc_Controller (sa_SessionCreate v)) createSessionOperation
          (sa_IdempotencyKey v) (sa_RequestHash v) (sc_SessionID (sa_SessionCreate v)) now
          (now + sa_IdempotencyRetention v) warning)) /\
    readSessionOnConnection (sc_SessionID (sa_SessionCreate v)) (db s1) = Ok (created, db s1) /\
    readReservationOnConnection (sc_SessionID (sa_SessionCreate v)) (db s1) = Ok (reservation, db s1) /\
    rec = with_warning created warning /\ text_ok 256 (sc_SessionID (sa_SessionCreate v)) /\ storable now
}.

(** The statements of a fresh session acceptance with a key. *)
Lemma insertSessionAcceptance_Ok v key hash expires now w u d d' :
  insertSessionAcceptance v key hash expires now w d = Ok (u, d') -> key <> "" ->
  lane_ingress_admission d' = lane_ingress_admission d /\
  exec_sessions d' !! sc_SessionID v = Some (new_session_row v now) /\
  exec_capacity_reservations d' !! sc_SessionID v
    = Some (mkReservationRow reservationHostKey (formatStoredTime now) None None) /\
  exec_idempotency d' !! idem_key (sc_Controller v) createSessionOperation key
    = Some (idempotency_row (mkIdempotencyRecord (sc_Controller v) createSessionOperation key hash (sc_SessionID v)
        now expires w)) /\ text_ok 256 (sc_SessionID v).
Proof.
  unfold insertSessionAcceptance. intros H Hkey.
  apply stx_bind_Ok in H as (x & d1 & [<- <-]%query_Ok & H).
  apply stx_bind_Ok in H as ([] & d1 & (_ & _ & <-)%fail_if_Ok & H).
  apply stx_bind_Ok in H as ([] & d1 & (_ & _ & ->)%insert_session_Ok & H).
  apply stx_bind_Ok in H as ([] & d1 & (_ & _ & ->)%insert_lifecycle_Ok & H).
  apply stx_bind_Ok in H as ([] & d1 & (_ & _ & ->)%insert_reservation_Ok & H).
  apply is_empty_false in Hkey. rewrite Hkey in H. cbn [negb] in H.
  apply stx_bind_Ok in H as (i & d1 & [Hi <-]%lift_Ok & H). apply validateIdempotencyInput_Ok in Hi as [-> Hin].
  pose proof (recordIdempotency_core _ _ _ _ H) as Hcore. apply record_admission in H as [Hadm Hidem].
  rewrite (core_sessions _ _ Hcore), (core_reservations _ _ Hcore), Hadm. db_simpl. rewrite !lookup_insert_eq.
  split_and!; try done. apply Hin.
Qed.

Lemma AcceptSessionCreate_fresh s now input v rec s1 :
  validateSessionAcceptance input = Ok v -> sa_Audit input = None ->
  AcceptSessionCreate s now input = (Ok (rec, false), s1) -> accepted_session now v rec s1.
Proof.
  intros Hv Ha. unfold AcceptSessionCreate. rewrite Hv. cbv zeta.
  destruct (validateSessionAcceptance_Ok _ _ Hv) as (Hc & _ & _ & [Hkey _] & _ & Hva). rewrite Ha in Hva.
  destruct (withImmediateTransaction _ _) as [[[[rec0 dup] saved]|e] s2] eqn:E; [|done].
  destruct dup; intros [= -> <-]. apply withImmediateTransaction_Ok in E as (d' & E & ->).
  apply stx_bind_Ok in E as ([] & d1 & (_ & -> & Hgate)%checkIngress_Ok & E).
  apply stx_bind_Ok in E as ([ex|] & d1 & Hl & E).
  { do 5 apply stx_bind_Ok in E as (? & ? & _ & E). by apply stx_ret_Ok in E as [[=] _]. }
  rewrite Hva in E. tx_inv E. cbn [insertOptionalAuditOnConnection] in *.
  apply expiryWarning_read in Hrun as [-> _]. apply ensureSessionCapacity_Ok in Hrun0 as [-> _].
  apply insertSessionAcceptance_Ok in Hrun1 as (Hadm & Hses & Hres & Hidem & Htext); [|done].
  pose proof (readSession_Ok _ _ _ _ Hrun2) as (-> & row & Hrow & Hne & _ & _ & _ & _ & _ & Hca & _).
  tx_inv Hrun3. rewrite Hses in Hrow. injection Hrow as <-. cbn [new_session_row s_created_at] in Hca.
  apply parse_format_Some in Hca as [_ Hnow].
  pose proof (lookup_admission _ _ _ _ _ _ _ Hl) as Hadm1.
  split; cbn [logOptionalAudit db laneAdmissionRuntime store_db].
  - apply checkIngress_Ok. rewrite Hadm, Hadm1. done.
  - eexists _, _, _. split_and!; try done. unfold readReservationOnConnection, parseOptional. tx_run. rewrite Hres. tx_run.
    rewrite (proj2 (NewSessionID_Ok _ (sc_SessionID (sa_SessionCreate v)))) by done. cbn [result_map_err]. tx_run.
    cbn [r_reserved_at r_cleanup_confirmed_at r_released_at]. rewrite parse_format by done. tx_run. reflexivity.
Qed.

(** Creating a session is exactly-once: until the binding of its key
    expires a valid retry with the same controller and key returns the session
    that the first acceptance created, or a conflict when the request differs,
    and takes no second reservation. *)
Theorem AcceptSessionCreate_retry s now input rec s1 now' input' v' :
  AcceptSessionCreate s now input = (Ok (rec, false), s1) -> sa_Audit input = None ->
  hash_wf (sa_RequestHash input) -> storable (now + effective_retention (sa_IdempotencyRetention input)) ->
  now' < now + effective_retention (sa_IdempotencyRetention input) ->
  validateSessionAcceptance input' = Ok v' -> sa_Audit input' = None ->
  sc_Controller (sa_SessionCreate input') = sc_Controller (sa_SessionCreate input) ->
  sa_IdempotencyKey input' = sa_IdempotencyKey input ->
  AcceptSessionCreate s1 now' input' =
    if decide (sa_RequestHash input' = sa_RequestHash input) then (Ok (rec, true), s1)
    else (Err ErrIdempotencyConflict, s1).
Proof.
  intros H Ha Hwf Hst Hlt Hv' Ha' Hctl Hkey.
  destruct (validateSessionAcceptance input) as [v|] eqn:Hv; [|by unfold AcceptSessionCreate in H; rewrite Hv in H].
  destruct (validateSessionAcceptance_Ok _ _ Hv) as (Vc & Vh & Vk & _ & Vret & _).
  destruct (validateSessionAcceptance_Ok _ _ Hv') as (Vc' & Vh' & Vk' & _ & _ & Va').
  apply validateSessionCreate_Ok in Vc as (_ & Hne & Vctl). apply validateSessionCreate_Ok in Vc' as (_ & _ & Vctl').
  destruct (AcceptSessionCreate_fresh _ _ _ _ _ _ Hv Ha H) as [Hgate (w & created & res & Hidem & Hread & Hres & -> & Htext & Hnow)].
  assert (retained (db s1) (mkIdempotencyRecord (sc_Controller (sa_SessionCreate v)) createSessionOperation
            (sa_IdempotencyKey v) (sa_RequestHash v) (sc_SessionID (sa_SessionCreate v)) now
            (now + sa_IdempotencyRetention v) w)) as Hret.
  { apply recorded_retained; [exact Hidem|done|by rewrite Vret|by rewrite Vh|done]. }
  unfold AcceptSessionCreate. rewrite Hv'. cbv zeta. unfold withImmediateTransaction.
  rewrite (stx_bind_run _ _ _ _ _ Hgate). rewrite Vk', Hkey, <- Vk, Vctl', Hctl, <- Vctl.
  erewrite stx_bind_run by (apply (lookup_retained _ _ now' Hret); simpl; rewrite Vret; exact Hlt).
  cbv beta iota. cbn [idem_Hash idem_ResourceID idem_DeduplicationWarning]. rewrite Vh, Vh'.
  destruct (decide (sa_RequestHash input' = sa_RequestHash input)) as [->|Hdiff].
  - rewrite (proj2 (CompareIdempotency_same _ _)) by (split; [done|unfold hash_wf in Hwf; lia]). tx_run.
    rewrite (proj2 (NewSessionID_Ok _ (sc_SessionID (sa_SessionCreate v)))) by done. tx_run.
    rewrite (stx_bind_run _ _ _ _ _ Hres), (stx_bind_run _ _ _ _ _ Hread).
    rewrite Va', Ha'. cbn [insertOptionalAuditOnConnection]. tx_run. unfold mret, stx_ret. cbv beta iota.
    cbn [logOptionalAudit]. by destruct s1.
  - destruct (is_conflict _) eqn:E; [done|]. apply CompareIdempotency_same in E as [E _]. congruence.
Qed.

(** ** Witnesses *)
Definition example_ready : AuthorityStore := runs (take 2 example_history) new_store.

Lemma AcceptCommand_retry_witness :
  exists rec s1,
    AcceptCommand example_ready (t0 + 2 * second) (example_command "c1" "key-c1" "echo hi") = (Ok (rec, false), s1) /\
    AcceptCommand s1 (t0 + 3 * second) (example_command "c9" "key-c1" "echo other") = (Ok (rec, true), s1).
Proof.
  destruct (AcceptCommand example_ready (t0 + 2 * second) (example_command "c1" "key-c1" "echo hi")) as [r s1] eqn:E.
  assert (exists rec, r = Ok (rec, false)) as [rec ->].
  { change r with (fst (r, s1)). rewrite <- E. eexists. vm_compute. reflexivity. }
  exists rec, s1. split; [reflexivity|].
  rewrite (AcceptCommand_retry _ _ _ _ _ (t0 + 3 * second) (example_command "c9" "key-c1" "echo other")
    (mkCommandAcceptance "c9" "s1" (example_hash "b") "key-c1" DefaultSessionIdempotencyRetention "echo other" minute 0 None) E);
    first [reflexivity | refine (bool_decide_eq_true_1 _ _); vm_compute; reflexivity | vm_compute; congruence].
Defined.

Lemma AcceptSessionCreate_retry_witness :
  exists rec s1,
    AcceptSessionCreate new_store t0 example_acceptance = (Ok (rec, false), s1) /\
    AcceptSessionCreate s1 (t0 + second) example_acceptance = (Ok (rec, true), s1).
Proof.
  destruct (AcceptSessionCreate new_store t0 example_acceptance) as [r s1] eqn:E.
  assert (exists rec, r = Ok (rec, false)) as [rec ->].
  { change r with (fst (r, s1)). rewrite <- E. eexists. vm_compute. reflexivity. }
  exists rec, s1. split; [reflexivity|].
  rewrite (AcceptSessionCreate_retry _ _ _ _ _ (t0 + second) example_acceptance
    (mkSessionCreateAcceptance example_create "key-s1" (example_hash "a") DefaultActiveSessionLimit
       DefaultSessionIdempotencyRetention None) E);
    first [reflexivity | refine (bool_decide_eq_true_1 _ _); vm_compute; reflexivity | vm_compute; congruence].
Defined.
