(* ===== verification/JobTheorems.v ===== *)
(** * Correctness of one-off jobs

    Job rows stay readable and bound to their payload, acceptance is
    exactly-once, checkpoints move a job from the phase the worker expects, and
    the disposition of an abandoned probe keeps its capacity. *)
From Stdlib Require Import String.
From S2P Require Import Prelude GoStrings Sha256 Identity Lifecycle Policy LaneAdmission.
From S2P Require Import AuditRecords Db AuditStore AdmissionStore Idempotency Sessions Commands LostRecovery.
From S2P Require Import Listings RestartPlan JsonText Canonical RunPayload Jobs Scheduler.
From S2P Require Import Authority AuthorityOps JobOps Histories AuthorityTheorems AcceptRetry.

(** ** The rows *)
Lemma GetJob_row s id j r : id <> "" -> exec_jobs (db s) !! id = Some j -> decodeJobRow id j = Ok r -> GetJob s id = Ok r.
Proof.
  intros Hid Hj Hd. unfold GetJob. rewrite (proj2 (NewJobID_Ok id id)) by done. cbn [mbind result_bind].
  unfold withReadTransaction. by rewrite (proj2 (readJob_Ok id r (db s) (db s))) by eauto.
Qed.

(** C31: In every reachable store every job row can be read back: its payload is
    canonical JSON whose hash is the request hash of the job and whose script,
    environment, target and source are those of the row, its script digest is
    right, and no other job has its session or its command. *)
Theorem jobs_are_sound N M s id j :
  reachable N M s -> exec_jobs (db s) !! id = Some j ->
  exists r, GetJob s id = Ok r /\ job_decoded id j r /\
    (forall id' j', exec_jobs (db s) !! id' = Some j' ->
       j_session_id j' = j_session_id j \/ j_command_id j' = j_command_id j -> id' = id).
Proof.
  intros H%reachable_inv Hj. destruct (ai_jobs _ _ _ _ H) as [Hr Hu]. destruct (Hr _ _ Hj) as [r Hd].
  pose proof (decodeJobRow_Ok _ _ _ Hd) as Hdec. exists r. split_and!; [|done|].
  - eapply GetJob_row; [|done|done]. apply Hdec.
  - intros id' j' Hj' Hs. by eapply Hu.
Qed.

(** ** Acceptance *)
Record run_payload (raw script environment : string) (target : ExecutionTarget) (source : Source) (h : CanonicalHash)
    (object : list (string * json)) : Prop := {
  rp_canonical : CanonicalizeMutationRequestJSON runJobOperation raw [] = Ok raw;
  rp_hash : HashMutationRequestJSON runJobOperation raw [] = Ok h;
  rp_object : Unmarshal_object raw = Ok object;
  rp_script : string_member object "script" script = true;
  rp_environment : string_member object "environment" environment = true;
  rp_target : target_member object target = true;
  rp_source : source_member object source = true
}.

Lemma validateRunPayload_members raw script environment target source h p :
  validateRunPayload raw script environment target source h = Ok p ->
  exists object, run_payload raw script environment target source h object.
Proof.
  unfold validateRunPayload. cbv zeta. intros H. apply refuse_if_bind in H as [_ H].
  apply result_bind_Ok in H as (c & Hcan & H). apply refuse_if_bind in H as [Hc H].
  apply negb_false_iff, bool_decide_eq_true in Hc. apply result_bind_Ok in H as (h' & Hhash & H).
  apply refuse_if_bind in H as [[Hh _]%CompareIdempotency_same H]. apply result_bind_Ok in H as (object & Ho & H).
  apply result_map_err_Ok in Hcan, Hhash, Ho. apply refuse_if_bind in H as [H1%negb_false_iff H].
  apply refuse_if_bind in H as [H2%negb_false_iff H]. apply refuse_if_bind in H as [H3%negb_false_iff H].
  apply refuse_if_bind in H as [H4%negb_false_iff _]. exists object. subst. by split.
Qed.

Lemma string_member_inj object key x y : string_member object key x = true -> string_member object key y = true -> x = y.
Proof.
  unfold string_member. destruct (map_lookup key object) as [v|]; [|done]. destruct (Unmarshal_string "" v); [|done].
  intros H1%bool_decide_eq_true H2%bool_decide_eq_true. congruence.
Qed.

(** A payload names one environment and one script. *)
Lemma run_payload_determines raw s1 e1 t1 src1 h1 p1 s2 e2 t2 src2 h2 p2 :
  validateRunPayload raw s1 e1 t1 src1 h1 = Ok p1 -> validateRunPayload raw s2 e2 t2 src2 h2 = Ok p2 ->
  s1 = s2 /\ e1 = e2 /\ h1 = h2.
Proof.
  intros (o1 & [_ A1 A2 A3 A4 _ _])%validateRunPayload_members (o2 & [_ B1 B2 B3 B4 _ _])%validateRunPayload_members.
  rewrite A2 in B2. injection B2 as <-. split_and!; [by eapply string_member_inj..|congruence].
Qed.

Lemma HashMutation_wf operation raw options h : HashMutationRequestJSON operation raw options = Ok h -> hash_wf h.
Proof.
  unfold HashMutationRequestJSON. intros (c & _ & H)%result_bind_Ok.
  assert (h = mkCanonicalHash CanonicalizationVersionV1 (sha256 (String.append canonicalHashDomainV1 c))) as -> by congruence.
  split; [unfold CanonicalizationVersionV1; cbn [hash_version]; lia|apply sha256_length].
Qed.

Record acceptance_ok (input v : JobAcceptance) : Prop := {
  jao_id : ja_JobID v = ja_JobID input /\ ja_JobID v <> "";
  jao_controller : ja_Controller v = ja_Controller input;
  jao_key : ja_IdempotencyKey v = ja_IdempotencyKey input;
  jao_hash : ja_RequestHash v = ja_RequestHash input /\ hash_wf (ja_RequestHash input);
  jao_environment : ja_Environment v = TrimSpace (ja_Environment input);
  jao_script : ja_Script v = ja_Script input;
  jao_payload : exists p, validateRunPayload (ja_CanonicalPayload v) (ja_Script v) (ja_Environment input) (ja_Target v)
    (ja_Source v) (ja_RequestHash v) = Ok p;
  jao_retention : ja_IdempotencyRetention v = effective_retention (ja_IdempotencyRetention input)
}.

Lemma validateJobAcceptance_Ok input v : validateJobAcceptance input = Ok v -> acceptance_ok input v.
Proof.
  unfold validateJobAcceptance. cbv zeta. fold (effective_retention (ja_IdempotencyRetention input)). intros H. tx_inv H.
  id_norm. match goal with Hp : validateRunPayload _ _ _ _ _ _ = Ok _ |- _ =>
    pose proof (validateRunPayload_Ok _ _ _ _ _ _ _ Hp) as ->; pose proof (validateRunPayload_members _ _ _ _ _ _ _ Hp)
      as (object & [_ Hh _ _ _ _ _]) end.
  match goal with Hc : validateController _ = Ok _ |- _ => apply validateController_Ok in Hc as (-> & _) end.
  split; cbn; try done; [|by eexists]. split; [done|]. by eapply HashMutation_wf.
Qed.

(** What a fresh acceptance leaves behind. *)
Record accepted_job (now : Z) (ingress : Ingress) (v : JobAcceptance) (rec : JobRecord) (s1 : AuthorityStore) : Prop := {
  aj_gate : checkIngressAdmissionOnConnection (laneAdmissionRuntime s1) (db s1) = Ok (tt, db s1);
  aj_row : exec_jobs (db s1) !! ja_JobID v = Some (new_job_row v ingress now);
  aj_binding : exists warning created,
    exec_idempotency (db s1) !! idem_key (ja_Controller v) runJobOperation (ja_IdempotencyKey v)
      = Some (idempotency_row (mkIdempotencyRecord (ja_Controller v) runJobOperation (ja_IdempotencyKey v)
          (ja_RequestHash v) (ja_JobID v) now (now + ja_IdempotencyRetention v) warning)) /\
    decodeJobRow (ja_JobID v) (new_job_row v ingress now) = Ok created /\ rec = job_with_warning created warning /\
    text_ok 256 (ja_JobID v) /\ storable now
}.

Lemma insertJob_Ok v ingress now w u d d' :
  insertJobOnConnection v ingress now w d = Ok (u, d') ->
  lane_ingress_admission d' = lane_ingress_admission d /\
  exec_jobs d' = <[ja_JobID v := new_job_row v ingress now]> (exec_jobs d) /\
  exec_idempotency d' !! idem_key (ja_Controller v) runJobOperation (ja_IdempotencyKey v)
    = Some (idempotency_row (mkIdempotencyRecord (ja_Controller v) runJobOperation (ja_IdempotencyKey v) (ja_RequestHash v)
        (ja_JobID v) now (now + ja_IdempotencyRetention v) w)) /\ text_ok 256 (ja_JobID v).
Proof.
  unfold insertJobOnConnection. intros H. apply stx_bind_Ok in H as ([] & d1 & (_ & _ & _ & ->)%insert_job_Ok & H).
  apply stx_bind_Ok in H as (i & d1 & [Hi <-]%lift_Ok & H). apply validateIdempotencyInput_Ok in Hi as [-> Hin].
  pose proof (recordIdempotency_core _ _ _ _ H) as Hcore. apply record_admission in H as [Hadm Hidem].
  rewrite (core_jobs _ _ Hcore), Hadm. step_db. split_and!; try done. apply Hin.
Qed.

Lemma AcceptJob_fresh s now ingress input v rec s1 :
  validateJobAcceptance input = Ok v -> AcceptJob s now ingress input = (Ok (rec, false), s1) ->
  accepted_job now (IngressFromContext ingress) v rec s1.
Proof.
  intros Hv. unfold AcceptJob, with_valid. cbv zeta. rewrite Hv. destruct (refuse_if _ _); [|done]. intros E.
  apply withImmediateTransaction_Ok in E as (d' & E & ->).
  apply stx_bind_Ok in E as ([] & d1 & (_ & -> & Hgate)%checkIngress_Ok & E).
  apply stx_bind_Ok in E as ([ex|] & d1 & Hl & E).
  { do 3 apply stx_bind_Ok in E as (? & ? & _ & E). by apply stx_ret_Ok in E as [[=] _]. }
  tx_inv E. apply expiryWarning_read in Hrun as [-> _]. apply insertJob_Ok in Hrun1 as (Hadm & Hjobs & Hidem & Htext).
  apply readJob_Ok in Hrun2 as (-> & j & Hj & Hd). rewrite Hjobs, lookup_insert_eq in Hj. injection Hj as <-.
  pose proof (lookup_admission _ _ _ _ _ _ _ Hl) as Hadm1. split; cbn [db laneAdmissionRuntime store_db].
  - apply checkIngress_Ok. rewrite Hadm, Hadm1. done.
  - by rewrite Hjobs, lookup_insert_eq.
  - eexists _, _. split_and!; try done. apply decodeJobRow_Ok, jd_created in Hd. cbn [new_job_row j_created_at] in Hd.
    by apply parse_format_Some in Hd as [_ ?].
Qed.

(** Accepting a one-off job is exactly-once: until the binding of its key
    expires, a valid retry with the same controller and key returns the very job
    that the first acceptance created when its request hash is the same, and
    [ErrIdempotencyConflict] when it is not; no second job, session or command
    is bound and the store is unchanged. *)
Theorem AcceptJob_retry s now ingress input rec s1 now' ingress' input' v' :
  AcceptJob s now ingress input = (Ok (rec, false), s1) ->
  storable (now + effective_retention (ja_IdempotencyRetention input)) ->
  now' < now + effective_retention (ja_IdempotencyRetention input) ->
  TrustedForAcceptance (IngressFromContext ingress') = true -> validateJobAcceptance input' = Ok v' ->
  ja_Controller input' = ja_Controller input -> ja_IdempotencyKey input' = ja_IdempotencyKey input ->
  AcceptJob s1 now' ingress' input' =
    if decide (ja_RequestHash input' = ja_RequestHash input) then (Ok (rec, true), s1)
    else (Err ErrIdempotencyConflict, s1).
Proof.
  intros H Hst Hlt Htrust Hv' Hctl Hkey.
  destruct (validateJobAcceptance input) as [v|] eqn:Hv.
  2:{ unfold AcceptJob, with_valid in H. rewrite Hv in H. by destruct (refuse_if _ _). }
  destruct (validateJobAcceptance_Ok _ _ Hv) as [[_ Hne] Vc Vk [Vh Hwf] _ _ _ Vret].
  destruct (validateJobAcceptance_Ok _ _ Hv') as [_ Vc' Vk' [Vh' _] _ _ _ _].
  destruct (AcceptJob_fresh _ _ _ _ _ _ _ Hv H) as [Hgate Hrow (w & created & Hidem & Hd & -> & Htext & Hnow)].
  assert (retained (db s1) (mkIdempotencyRecord (ja_Controller v) runJobOperation (ja_IdempotencyKey v) (ja_RequestHash v)
            (ja_JobID v) now (now + ja_IdempotencyRetention v) w)) as Hret.
  { apply recorded_retained; [exact Hidem|done|by rewrite Vret|by rewrite Vh|done]. }
  unfold AcceptJob, with_valid. cbv zeta. rewrite Htrust, Hv'. cbn [negb refuse_if]. unfold withImmediateTransaction.
  rewrite (stx_bind_run _ _ _ _ _ Hgate). rewrite Vk', Hkey, <-Vk, Vc', Hctl, <-Vc.
  erewrite stx_bind_run by (apply (lookup_retained _ _ now' Hret); simpl; rewrite Vret; exact Hlt).
  cbv beta iota. cbn [idem_Hash idem_ResourceID idem_DeduplicationWarning]. rewrite Vh, Vh'.
  destruct (decide (ja_RequestHash input' = ja_RequestHash input)) as [->|Hdiff].
  - rewrite (proj2 (CompareIdempotency_same _ _)) by (split; [done|unfold hash_wf in Hwf; lia]). tx_run.
    rewrite (proj2 (NewJobID_Ok _ (ja_JobID v))) by done. tx_run.
    rewrite (stx_bind_run _ _ _ _ _ (proj2 (readJob_Ok (ja_JobID v) created (db s1) (db s1))
      (conj eq_refl (ex_intro _ _ (conj Hrow Hd))))). by destruct s1.
  - destruct (is_conflict _) eqn:E; [done|]. apply CompareIdempotency_same in E as [E _]. congruence.
Qed.

(** A job whose environment has surrounding white space is never recorded,
    although it can pass validation: the payload is checked against the
    environment as it was given and the trimmed one is stored, so the row that
    was just written cannot be read back and the transaction is rolled back. *)
Theorem padded_environment_is_refused s now ingress input r s' :
  TrimSpace (ja_Environment input) <> ja_Environment input ->
  AcceptJob s now ingress input = (r, s') -> (forall rec, r <> Ok (rec, false)) /\ exec_jobs (db s') = exec_jobs (db s).
Proof.
  intros Hpad H. assert (forall rec, r <> Ok (rec, false)) as Hr.
  { intros rec ->. destruct (validateJobAcceptance input) as [v|] eqn:Hv.
    2:{ unfold AcceptJob, with_valid in H. rewrite Hv in H. by destruct (refuse_if _ _). }
    destruct (AcceptJob_fresh _ _ _ _ _ _ _ Hv H) as [_ _ (w & created & _ & Hd & _)].
    apply decodeJobRow_Ok in Hd as Hdec. pose proof (jd_bound _ _ _ Hdec) as Hb.
    destruct (validateJobAcceptance_Ok _ _ Hv) as [_ _ _ _ Ve _ [p Hp] _].
    rewrite (jd_payload _ _ _ Hdec), (jd_environment _ _ _ Hdec) in Hb. cbn [new_job_row j_payload_json j_environment] in Hb.
    destruct (run_payload_determines _ _ _ _ _ _ _ _ _ _ _ _ _ Hb Hp) as (_ & He & _). congruence. }
  split; [done|]. revert H. unfold AcceptJob, with_valid. cbv zeta. destruct (refuse_if _ _); [|by intros [= _ <-]].
  destruct (validateJobAcceptance input) as [v|]; [|by intros [= _ <-]]. intros H. destruct r as [[rec dup]|e].
  2:{ by apply withImmediateTransaction_Err in H as [_ ->]. }
  apply withImmediateTransaction_Ok in H as (d' & E & ->). cbn [store_db db].
  apply stx_bind_Ok in E as ([] & d1 & (_ & -> & _)%checkIngress_Ok & E).
  apply stx_bind_Ok in E as ([ex|] & d1 & Hl%lookup_core & E); tx_inv E.
  - apply readJob_Ok in Hrun1 as [-> _]. apply (core_jobs _ _ Hl).
  - by destruct (Hr _ eq_refl).
Qed.

(** ** Checkpoints *)
Definition expects (cp : JobCheckpoint) (phase : JobPhase) : Prop := cp_ExpectedPhase cp = no_phase \/ cp_ExpectedPhase cp = phase.

Lemma unexpected_false cp phase : unexpected_phase cp phase = false <-> expects cp phase.
Proof.
  unfold unexpected_phase, expects. rewrite andb_false_iff, !negb_false_iff, !bool_decide_eq_true. naive_solver.
Qed.

(** What a checkpoint did to the row. *)
Lemma CheckpointJob_Ok s now id cp r s' :
  CheckpointJob s now id cp = (Ok r, s') ->
  exists j j', exec_jobs (db s) !! id = Some j /\ expects cp (j_phase j) /\ validateCheckpoint cp = Ok tt /\
    s' = store_db s (put_job id j' (db s)) /\ decodeJobRow id j' = Ok r /\
    (j' = checkpoint_row cp now j \/ j' = j /\ j_phase j = cp_NextPhase cp /\ cp_Command cp = None).
Proof.
  unfold CheckpointJob, with_valid. cbv zeta. destruct (NewJobID id) as [id'|] eqn:Eid; [|done]. id_norm.
  destruct (validateCheckpoint cp) as [[]|]; [|done]. intros H. apply withImmediateTransaction_Ok in H as (d' & E & ->).
  apply stx_bind_Ok in E as (x & d1 & [<- <-]%query_Ok & E). apply stx_bind_Ok in E as (j & d1 & [Hj <-]%or_fail_Ok & E).
  apply stx_bind_Ok in E as ([] & d1 & (_ & _ & <-)%fail_if_Ok & E).
  apply stx_bind_Ok in E as ([] & d1 & (_ & Hx & <-)%fail_if_Ok & E).
  destruct (bool_decide (j_phase j = cp_NextPhase cp)) eqn:Eq; cbn [andb] in Hx, E.
  - apply unexpected_false in Hx. apply bool_decide_eq_true in Eq. destruct (cp_Command cp) as [c|] eqn:Ec; cbn [is_Some_b negb] in E.
    + tx_inv E. apply update_job_Ok in Hrun1 as [(j0 & Hj0 & _ & _ & _ & ->)|(_ & _ & Hf)]; [|by specialize (Hf _ Hj)].
      rewrite Hj in Hj0. injection Hj0 as <-. apply readJob_Ok in E as (-> & j1 & Hj1 & Hd). step_db.
      rewrite lookup_insert_eq in Hj1. injection Hj1 as <-. exists j, (checkpoint_row cp now j). split_and!; auto.
    + apply readJob_Ok in E as (-> & j1 & Hj1 & Hd). rewrite Hj in Hj1. injection Hj1 as <-.
      exists j, j. split_and!; auto. unfold put_job. rewrite insert_id by done. by destruct s, db.
  - tx_inv E. apply unexpected_false in Hrun. apply update_job_Ok in Hrun1 as [(j0 & Hj0 & _ & _ & _ & ->)|(_ & _ & Hf)]; [|by specialize (Hf _ Hj)].
    rewrite Hj in Hj0. injection Hj0 as <-. apply readJob_Ok in E as (-> & j1 & Hj1 & Hd). step_db.
    rewrite lookup_insert_eq in Hj1. injection Hj1 as <-. exists j, (checkpoint_row cp now j). split_and!; auto.
Qed.

Lemma checkpoint_row_phase cp now j : j_phase (checkpoint_row cp now j) = cp_NextPhase cp.
Proof. unfold checkpoint_row. by destruct (cp_Command cp), (cp_TeardownState cp). Qed.

(** A checkpoint moves exactly one job, from the phase the worker expects (when
    it names one) to the next phase; the identity, the payload and the script of
    the job stay as they were accepted and nothing else changes.  A refused
    checkpoint changes nothing. *)
Theorem checkpoint_moves_expected s now id cp r s' :
  CheckpointJob s now id cp = (r, s') ->
  match r with
  | Ok rec => exists j j', exec_jobs (db s) !! id = Some j /\ expects cp (j_phase j) /\ j_phase j' = cp_NextPhase cp /\
      same_job j j' /\ job_decoded id j' rec /\ s' = store_db s (put_job id j' (db s))
  | Err _ => s' = s
  end.
Proof.
  intros H. destruct r as [rec|e].
  - apply CheckpointJob_Ok in H as (j & j' & Hj & He & _ & -> & Hd & Hrow). exists j, j'.
    split_and!; [done|done| | |by apply decodeJobRow_Ok|done]; destruct Hrow as [->|(-> & Hp & _)];
      [apply checkpoint_row_phase|done|apply checkpoint_same|apply same_job_refl].
  - revert H. unfold CheckpointJob, with_valid. destruct (NewJobID id); [|by intros [= _ <-]].
    destruct (validateCheckpoint cp); [|by intros [= _ <-]]. by intros [_ ->]%withImmediateTransaction_Err.
Qed.

(** The second run of a checkpoint reads the row the first one wrote. *)
Lemma CheckpointJob_again s now id cp r s1 now' :
  CheckpointJob s now id cp = (Ok r, s1) ->
  CheckpointJob s1 now' id cp =
    if unexpected_phase cp (cp_NextPhase cp) then (Err ErrJobPhaseConflict, s1)
    else if is_Some_b (cp_Command cp) then CheckpointJob s1 now' id cp else (Ok r, s1).
Proof.
  intros H. apply CheckpointJob_Ok in H as (j & j' & Hj & He & Hv & -> & Hd & Hrow).
  assert (j_phase j' = cp_NextPhase cp) as Hp by (destruct Hrow as [->|(-> & Hp & _)]; [apply checkpoint_row_phase|done]).
  pose proof (decodeJobRow_Ok _ _ _ Hd) as Hdec. destruct (jd_id _ _ _ Hdec) as [Hid _]. destruct (jd_phase _ _ _ Hdec) as [_ Hval].
  assert (exec_jobs (put_job id j' (db s)) !! id = Some j') as Hlook by (step_db; apply lookup_insert_eq).
  destruct (unexpected_phase cp (cp_NextPhase cp)) eqn:Eu; [|destruct (is_Some_b (cp_Command cp)) eqn:Ec; [done|]];
    unfold CheckpointJob, with_valid; cbv zeta; rewrite (proj2 (NewJobID_Ok id id)) by done; rewrite Hv;
    unfold withImmediateTransaction; cbn [store_db db laneAdmissionRuntime published audit_log]; tx_run;
    rewrite Hlook; tx_run; rewrite Hval; cbn [negb]; tx_run; rewrite Hp, bool_decide_eq_true_2 by done; cbn [andb];
    rewrite Eu; tx_run; [done|]. rewrite Ec. cbn [negb].
  rewrite (proj2 (readJob_Ok id r _ _) (conj eq_refl (ex_intro _ _ (conj Hlook Hd)))). by destruct s.
Qed.

(** Repeating a checkpoint that was applied is harmless only when it names no
    phase it expects, or the one it moves to: then, without a command, it
    returns the same record and writes nothing.  A checkpoint that names another
    expected phase answers [ErrJobPhaseConflict] when it is repeated. *)
Theorem repeated_checkpoint s now id cp r s1 now' :
  CheckpointJob s now id cp = (Ok r, s1) ->
  (cp_ExpectedPhase cp <> no_phase -> cp_ExpectedPhase cp <> cp_NextPhase cp ->
     CheckpointJob s1 now' id cp = (Err ErrJobPhaseConflict, s1)) /\
  (expects cp (cp_NextPhase cp) -> cp_Command cp = None -> CheckpointJob s1 now' id cp = (Ok r, s1)).
Proof.
  intros H. pose proof (CheckpointJob_again _ _ _ _ _ _ now' H) as Hagain. split.
  - intros H1 H2. destruct (unexpected_phase cp (cp_NextPhase cp)) eqn:Eu; [done|].
    apply unexpected_false in Eu as [?|?]; done.
  - intros He%unexpected_false Hc. by rewrite He, Hc in Hagain.
Qed.

(** ** The probe *)

(** Disposing of an abandoned maintenance probe records the job and the session
    as lost, in the row and in what is returned, and releases nothing: the
    capacity reservation of the session is still held, and no command, event or
    slot exists or was touched.  A refused disposition changes nothing. *)
Theorem probe_disposition N M s now jobID sessionID commandID key environment controllerID reason r s' :
  reachable N M s ->
  MarkCreatingDirectProbeLost s now jobID sessionID commandID key environment controllerID reason = (r, s') ->
  match r with
  | Ok (job, session) => disposed jobID sessionID commandID job session (db s) (db s')
  | Err _ => s' = s
  end.
Proof.
  intros Hi%reachable_inv H. apply (MarkProbe_Ok N M) in H; [|by destruct Hi..]. destruct r as [[job session]|e]; [|done].
  by destruct H as (_ & _ & ?).
Qed.

(** ** A concrete job: the maintenance probe *)
Definition probe_controller : ControllerIdentity := mkControllerIdentity ControllerTypeDirectMTLS "release-controller".
Definition probe_target : ExecutionTarget := mkExecutionTarget TargetKindRemote "linux-host".

Definition probe_payload (environment : string) : string :=
  string_of (appendCanonicalValue (JObject
    [("operation", JString "run"); ("script", JString catalogMaintenanceProbeScript); ("environment", JString environment);
     ("execution_target", JObject [("kind", JString "remote"); ("profile", JString "linux-host")]);
     ("source", JObject [("mode", JString "empty")])])).

Definition payload_hash (raw : string) : CanonicalHash :=
  match HashMutationRequestJSON runJobOperation raw [] with Ok h => h | Err _ => zero_hash end.

Definition probe_job (id environment : string) : JobAcceptance :=
  mkJobAcceptance id "s1" "c1" probe_controller "key-j" (payload_hash (probe_payload environment)) environment
    probe_target NewEmptySource catalogMaintenanceProbeScript (probe_payload environment) 0.

Definition probe_session : SessionCreate :=
  mkSessionCreate "s1" probe_target "catalog" probe_controller NewEmptySource "" "" example_limits "session_created".

Definition probe_history : list (Z * Op) :=
  [ (t0, OpAcceptJob (Some IngressDirectMTLS) (probe_job "j1" "catalog")); (t0 + second, OpCreateSession probe_session) ].
Definition probe_state : AuthorityStore := Eval vm_compute in runs probe_history new_store.

Lemma probe_reachable : reachable 4 20 probe_state.
Proof.
  split; [lia|]. split; [lia|]. exists probe_history. split; [|vm_compute; reflexivity].
  repeat constructor. vm_compute. congruence.
Qed.

Lemma jobs_are_sound_witness :
  exists j r, exec_jobs (db probe_state) !! "j1" = Some j /\ GetJob probe_state "j1" = Ok r /\ job_decoded "j1" j r.
Proof.
  destruct (exec_jobs (db probe_state) !! "j1") as [j|] eqn:E; [|vm_compute in E; discriminate E].
  destruct (jobs_are_sound 4 20 probe_state "j1" j probe_reachable E) as (r & H1 & H2 & _).
  exists j, r. exact (conj eq_refl (conj H1 H2)).
Defined.

Lemma AcceptJob_retry_witness :
  exists rec s1,
    AcceptJob new_store t0 (Some IngressDirectMTLS) (probe_job "j1" "catalog") = (Ok (rec, false), s1) /\
    AcceptJob s1 (t0 + second) None (probe_job "j2" "catalog") = (Ok (rec, true), s1).
Proof.
  destruct (AcceptJob new_store t0 (Some IngressDirectMTLS) (probe_job "j1" "catalog")) as [r s1] eqn:E.
  assert (exists rec, r = Ok (rec, false)) as [rec ->].
  { change r with (fst (r, s1)). rewrite <- E. eexists. vm_compute. reflexivity. }
  exists rec, s1. split; [reflexivity|].
  rewrite (AcceptJob_retry _ _ _ _ _ _ (t0 + second) None (probe_job "j2" "catalog")
    (mkJobAcceptance "j2" "s1" "c1" probe_controller "key-j" (payload_hash (probe_payload "catalog")) "catalog"
       probe_target NewEmptySource catalogMaintenanceProbeScript (probe_payload "catalog") DefaultSessionIdempotencyRetention) E).
  - by rewrite decide_True.
  - refine (bool_decide_eq_true_1 _ _). vm_compute. reflexivity.
  - vm_compute. reflexivity.
  - reflexivity.
  - vm_compute. reflexivity.
  - reflexivity.
  - reflexivity.
Defined.

(** The padded environment passes validation and ends as a corrupt payload. *)
Lemma padded_environment_is_refused_witness :
  result_is_ok (validateJobAcceptance (probe_job "j1" " catalog")) = true /\
  exists s', AcceptJob new_store t0 None (probe_job "j1" " catalog") = (Err ErrJobPayloadCorrupt, s') /\
    exec_jobs (db s') = exec_jobs (db new_store).
Proof.
  split; [vm_compute; reflexivity|].
  destruct (AcceptJob new_store t0 None (probe_job "j1" " catalog")) as [r s'] eqn:E.
  assert (r = Err ErrJobPayloadCorrupt) as -> by (change r with (fst (r, s')); rewrite <- E; vm_compute; reflexivity).
  exists s'. split; [reflexivity|].
  eapply (padded_environment_is_refused new_store t0 None (probe_job "j1" " catalog")); [|exact E].
  vm_compute. discriminate.
Defined.

Definition example_checkpoint (expected : JobPhase) : JobCheckpoint :=
  mkJobCheckpoint expected JobPhaseAcceptingCommand None None "".

Lemma checkpoint_moves_expected_witness :
  exists r s', CheckpointJob probe_state (t0 + minute) "j1" (example_checkpoint JobPhaseCreatingSession) = (Ok r, s') /\
    exists j j', exec_jobs (db probe_state) !! "j1" = Some j /\ j_phase j' = JobPhaseAcceptingCommand /\
      s' = store_db probe_state (put_job "j1" j' (db probe_state)).
Proof.
  destruct (CheckpointJob probe_state (t0 + minute) "j1" (example_checkpoint JobPhaseCreatingSession)) as [r s'] eqn:E.
  assert (exists rec, r = Ok rec) as [rec ->].
  { change r with (fst (r, s')). rewrite <- E. eexists. vm_compute. reflexivity. }
  exists rec, s'. split; [reflexivity|].
  destruct (checkpoint_moves_expected _ _ _ _ _ _ E) as (j & j' & Hj & _ & Hp & _ & _ & Hs').
  exists j, j'. exact (conj Hj (conj Hp Hs')).
Defined.

Lemma repeated_checkpoint_witness :
  exists r s1, CheckpointJob probe_state (t0 + minute) "j1" (example_checkpoint JobPhaseCreatingSession) = (Ok r, s1) /\
    CheckpointJob s1 (t0 + minute) "j1" (example_checkpoint JobPhaseCreatingSession) = (Err ErrJobPhaseConflict, s1).
Proof.
  destruct (CheckpointJob probe_state (t0 + minute) "j1" (example_checkpoint JobPhaseCreatingSession)) as [r s1] eqn:E.
  assert (exists rec, r = Ok rec) as [rec ->].
  { change r with (fst (r, s1)). rewrite <- E. eexists. vm_compute. reflexivity. }
  exists rec, s1. split; [reflexivity|].
  apply (repeated_checkpoint _ _ _ _ _ _ (t0 + minute) E); discriminate.
Defined.

Lemma probe_disposition_witness :
  exists job session s', MarkCreatingDirectProbeLost probe_state (t0 + minute) "j1" "s1" "c1" "key-j" "catalog"
      "release-controller" CatalogProbeOwnerAbandonedReason = (Ok (job, session), s') /\
    jr_Phase job = JobPhaseLost /\ reservation_retained "s1" (db s').
Proof.
  destruct (MarkCreatingDirectProbeLost probe_state (t0 + minute) "j1" "s1" "c1" "key-j" "catalog"
      "release-controller" CatalogProbeOwnerAbandonedReason) as [r s'] eqn:E.
  assert (exists job session, r = Ok (job, session)) as (job & session & ->).
  { change r with (fst (r, s')). rewrite <- E. do 2 eexists. vm_compute. reflexivity. }
  exists job, session, s'. split; [reflexivity|].
  destruct (probe_disposition 4 20 _ _ _ _ _ _ _ _ _ _ _ probe_reachable E) as [[_ H1] _ [_ H2] _].
  exact (conj H1 H2).
Defined.
