(* ===== verification/ListingTheorems.v ===== *)
(** * Correctness of the listings

    A listing returns every row exactly once, and orders the rows by the second
    they were created in; within a second the order is that of the texts. *)
From Stdlib Require Import String.
From S2P Require Import Prelude GoStrings Sha256 Identity Lifecycle Policy LaneAdmission.
From S2P Require Import AuditRecords Db AuditStore AdmissionStore Idempotency Sessions Commands LostRecovery.
From S2P Require Import Listings RestartPlan JsonText Canonical RunPayload Jobs Scheduler.
From S2P Require Import Authority AuthorityOps JobOps Histories AuthorityTheorems AcceptRetry JobTheorems.

(** ** The order *)
#[export] Instance stored_le_total : Total stored_le.
Proof.
  intros [t|] [u|]; cbn; auto. destruct (Z.eqb_spec (t / second) (u / second)) as [E|E]; cbn [negb].
  - rewrite (proj2 (Z.eqb_eq _ _) (eq_sym E)). cbn [negb]. apply string_le_total.
  - rewrite (proj2 (Z.eqb_neq _ _) (not_eq_sym E)). cbn [negb]. lia.
Qed.

#[export] Instance listed_le_total {A} (at_ : A -> StoredTime) : Total (listed_le at_).
Proof.
  intros x y. unfold listed_le. destruct (decide (at_ (snd x) = at_ (snd y))) as [E|E].
  - rewrite !bool_decide_eq_true_2 by done. apply string_le_total.
  - rewrite !bool_decide_eq_false_2 by done. apply stored_le_total.
Qed.

(** Not later, up to the second. *)
Definition second_le (x y : StoredTime) : Prop :=
  match x, y with
  | StoredInstant t, StoredInstant u => t / second <= u / second
  | StoredGarbage, StoredInstant _ => False
  | _, _ => True
  end.

Lemma listed_second {A} (at_ : A -> StoredTime) x y : listed_le at_ x y -> second_le (at_ (snd x)) (at_ (snd y)).
Proof.
  unfold listed_le. case_bool_decide as E; [intros _; rewrite E; by destruct (at_ (snd y)); cbn|].
  destruct (at_ (snd x)) as [t|], (at_ (snd y)) as [u|]; cbn; try done.
  destruct (Z.eqb_spec (t / second) (u / second)); cbn [negb]; lia.
Qed.

#[export] Instance second_le_trans : Transitive second_le.
Proof. intros [t|] [u|] [v|]; cbn; try done; lia. Qed.

Lemma listed_sorted {A} (at_ : A -> StoredTime) rows :
  StronglySorted (fun x y => second_le (at_ (snd x)) (at_ (snd y))) (merge_sort (listed_le at_) rows).
Proof.
  apply Sorted_StronglySorted; [intros x y z; apply second_le_trans|].
  pose proof (Sorted_merge_sort (listed_le at_) rows) as Hs.
  induction Hs as [|x l _ IH Hd]; constructor; [done|]. destruct Hd; constructor. by apply listed_second.
Qed.

(** ** The loop *)
Lemma read_each_Ok {A B} (read : A -> tx B) ids records d d' :
  (forall id r d d', read id d = Ok (r, d') -> d' = d) -> read_each read ids d = Ok (records, d') ->
  d' = d /\ Forall2 (fun id r => read id d = Ok (r, d)) ids records.
Proof.
  intros Hro. revert records. induction ids as [|id ids IH]; intros records H; cbn [read_each] in H.
  { by apply stx_ret_Ok in H as [<- <-]. }
  apply stx_bind_Ok in H as (r & d1 & Hr & H). pose proof (Hro _ _ _ _ Hr) as ->.
  apply stx_bind_Ok in H as (rs & d1 & Hrs & H). apply stx_ret_Ok in H as [<- <-].
  destruct (IH _ Hrs) as [-> Hf]. split; [done|by constructor].
Qed.

Lemma read_each_total {A B} (read : A -> tx B) ids d :
  (forall id, id ∈ ids -> exists r, read id d = Ok (r, d)) -> exists records, read_each read ids d = Ok (records, d).
Proof.
  induction ids as [|id ids IH]; intros H; cbn [read_each]; [by eexists|].
  destruct (H id) as [r Hr]; [by left|]. destruct IH as [rs Hrs]; [intros; apply H; by right|].
  exists (r :: rs). rewrite (stx_bind_run _ _ _ _ _ Hr), (stx_bind_run _ _ _ _ _ Hrs). done.
Qed.

Lemma mapM_result_keys {A} (f : string * A -> result string) rows ids :
  (forall x id, f x = Ok id -> id = fst x) -> mapM_result f rows = Ok ids -> ids = rows.*1.
Proof.
  intros Hf. revert ids. induction rows as [|x rows IH]; intros ids H; cbn in H; [by injection H as <-|].
  apply result_bind_Ok in H as (id & Hid & H). apply result_bind_Ok in H as (ids' & Hids & H). injection H as <-.
  apply Hf in Hid as ->. cbn. f_equal. by apply IH.
Qed.

(** ** Sessions *)
Lemma ListSessions_rows s rs :
  ListSessions s = Ok rs ->
  Forall2 (fun row r => exec_sessions (db s) !! fst row = Some (snd row) /\ readSessionOnConnection (fst row) (db s) = Ok (r, db s))
    (merge_sort (listed_le s_created_at) (map_to_list (exec_sessions (db s)))) rs.
Proof.
  unfold ListSessions, withReadTransaction. intros H. match type of H with match ?m with _ => _ end = _ => destruct m as [[rs0 d']|] eqn:E end; [|done].
  injection H as <-. apply stx_bind_Ok in E as (rows & d1 & [<- <-]%query_Ok & E).
  apply stx_bind_Ok in E as (ids & d1 & [Hids <-]%lift_Ok & E).
  apply mapM_result_keys in Hids as ->; [|intros [x row] id Hx; by apply NewSessionID_Ok in Hx as [-> _]].
  apply read_each_Ok in E as [-> Hf]; [|intros id r dx dy Hr; by apply readSession_Ok in Hr as [-> _]].
  apply Forall2_fmap_l in Hf. apply Forall2_same_length_lookup_2.
  - by apply Forall2_length in Hf.
  - intros i row r Hi Hri. split.
    + apply list_elem_of_lookup_2 in Hi. rewrite merge_sort_Permutation in Hi. destruct row. by apply elem_of_map_to_list.
    + by eapply (Forall2_lookup_lr _ _ _ _ _ _ Hf).
Qed.

(** The session listing returns every session exactly once, each as a read of
    that session gives it, and a session created in an earlier second never
    comes after one created in a later second. *)
Theorem ListSessions_exact s rs :
  ListSessions s = Ok rs ->
  sr_SessionID <$> rs ≡ₚ (map_to_list (exec_sessions (db s))).*1 /\
  Forall (fun r => GetSession s (sr_SessionID r) = Ok r) rs /\
  StronglySorted (fun r1 r2 => sr_CreatedAt r1 / second <= sr_CreatedAt r2 / second) rs.
Proof.
  intros H%ListSessions_rows. pose proof (listed_sorted s_created_at (map_to_list (exec_sessions (db s)))) as Hs.
  split_and!.
  - rewrite <-(merge_sort_Permutation (listed_le s_created_at) (map_to_list (exec_sessions (db s)))). clear Hs.
    induction H as [|row r rows rs [_ Hr] _ IH]; [done|]. cbn. apply readSession_Ok in Hr as (_ & _ & _ & _ & -> & _).
    by constructor.
  - clear Hs. induction H as [|row r rows rs [_ Hr] _ IH]; constructor; [|done].
    apply readSession_Ok in Hr as Hr'. destruct Hr' as (_ & _ & _ & Hne & Hid & _). unfold GetSession.
    rewrite Hid, (proj2 (NewSessionID_Ok (fst row) (fst row))) by done. cbn [mbind result_bind]. unfold withReadTransaction.
    by rewrite Hr.
  - assert (forall row r, exec_sessions (db s) !! fst row = Some (snd row) /\ readSessionOnConnection (fst row) (db s) = Ok (r, db s) ->
      s_created_at (snd row) = StoredInstant (sr_CreatedAt r)) as Hc.
    { intros row r [Hrow Hr]. apply readSession_Ok in Hr as (_ & row' & Hrow' & _ & _ & _ & _ & _ & _ & Hca & _).
      rewrite Hrow in Hrow'. injection Hrow' as <-. unfold parseStoredTime in Hca. destruct (s_created_at (snd row)) as [t|]; [|done].
      destruct (IsZero t); [done|]. by injection Hca as ->. }
    induction H as [|row r rows rs Hr Hrs IH]; [constructor|]. inversion Hs as [|?? Hs' Hall]; subst. constructor; [by apply IH|].
    apply Forall_forall. intros r2 Hr2. apply list_elem_of_lookup in Hr2 as [i Hi].
    destruct (Forall2_lookup_r _ _ _ _ _ Hrs Hi) as (row2 & Hi2 & Hr2).
    rewrite Forall_forall in Hall. specialize (Hall row2 (list_elem_of_lookup_2 _ _ _ Hi2)).
    by rewrite (Hc _ _ Hr), (Hc _ _ Hr2) in Hall.
Qed.

(** ** Within a second *)
Definition listed_session (id : string) : SessionCreate :=
  mkSessionCreate id probe_target "catalog" probe_controller NewEmptySource "" "" example_limits "session_created".

Definition listing_history : list (Z * Op) :=
  [ (t0, OpCreateSession (listed_session "first")); (t0 + second / 2, OpCreateSession (listed_session "second")) ].
Definition listing_state : AuthorityStore := runs listing_history new_store.

Lemma listing_reachable : reachable 4 20 listing_state.
Proof.
  split; [lia|]. split; [lia|]. exists listing_history. split; [|reflexivity]. repeat constructor; vm_compute; congruence.
Qed.

(** The listing is not always in creation order: a store is reachable in which
    a session created half a second after another one is listed before it,
    because the text of a whole second sorts after the texts that follow it. *)
Theorem ListSessions_not_in_creation_order :
  exists s earlier later, reachable 4 20 s /\ ListSessions s = Ok [later; earlier] /\
    sr_CreatedAt earlier < sr_CreatedAt later.
Proof.
  destruct (ListSessions listing_state) as [[|later [|earlier [|]]]|] eqn:E; try (vm_compute in E; discriminate E).
  exists listing_state, earlier, later. split; [exact listing_reachable|]. split; [exact E|].
  assert (ListSessions listing_state = Ok [later; earlier]) as E2 by exact E. vm_compute in E2.
  injection E2 as <- <-. vm_compute. reflexivity.
Qed.

Lemma ListSessions_exact_witness :
  exists rs, ListSessions listing_state = Ok rs /\ sr_SessionID <$> rs ≡ₚ ["first"; "second"].
Proof.
  destruct (ListSessions listing_state) as [rs|] eqn:E; [|vm_compute in E; discriminate E]. exists rs. split; [reflexivity|].
  destruct (ListSessions_exact _ _ E) as (Hp & _ & _).
  assert ((map_to_list (exec_sessions (db listing_state))).*1 ≡ₚ ["first"; "second"]) as Hq.
  { refine (bool_decide_eq_true_1 _ _). vm_compute. reflexivity. }
  exact (transitivity Hp Hq).
Defined.

(** ** Jobs *)
Definition nonterminal_jobs (d : DB) : list (string * JobRow) :=
  filter (fun '(_, j) => nonterminal_phase (j_phase j) = true) (map_to_list (exec_jobs d)).

Lemma mapM_result_valid {A} (f : string * A -> result string) rows :
  (forall x, x ∈ rows -> f x = Ok (fst x)) -> mapM_result f rows = Ok rows.*1.
Proof.
  induction rows as [|x rows IH]; intros H; cbn; [done|]. rewrite H by (by left). cbn. rewrite IH; [done|].
  intros y Hy. apply H. by right.
Qed.

(** In every reachable store the coordinator finds all its unfinished work: the
    listing of nonterminal jobs succeeds and returns every job whose phase is
    not complete, failed or lost, exactly once, as [GetJob] returns it. *)
Theorem ListNonterminalJobs_total N M s :
  reachable N M s ->
  exists rs, ListNonterminalJobs s = Ok rs /\ jr_JobID <$> rs ≡ₚ (nonterminal_jobs (db s)).*1 /\
    Forall (fun r => GetJob s (jr_JobID r) = Ok r) rs.
Proof.
  intros Hi%reachable_inv. destruct (ai_jobs _ _ _ _ Hi) as [Hr _].
  set (rows := merge_sort (listed_le j_created_at) (nonterminal_jobs (db s))).
  assert (rows ≡ₚ nonterminal_jobs (db s)) as Hperm by apply merge_sort_Permutation.
  assert (forall x, x ∈ rows -> exists r, exec_jobs (db s) !! fst x = Some (snd x) /\ decodeJobRow (fst x) (snd x) = Ok r) as Hrow.
  { intros [id j] Hin. rewrite Hperm in Hin. unfold nonterminal_jobs in Hin.
    apply list_elem_of_filter in Hin as [_ Hin%elem_of_map_to_list]. destruct (Hr _ _ Hin) as [r Hd]. by exists r. }
  destruct (read_each_total readJobOnConnection rows.*1 (db s)) as [rs Hrs].
  { intros id (x & -> & Hin)%list_elem_of_fmap. destruct (Hrow _ Hin) as (r & Hj & Hd). exists r. apply readJob_Ok. eauto. }
  exists rs. split_and!.
  - unfold ListNonterminalJobs, withReadTransaction. rewrite query_bind. fold (nonterminal_jobs (db s)). fold rows.
    rewrite mapM_result_valid.
    + rewrite lift_bind_ok. by rewrite Hrs.
    + intros [id j] Hin. destruct (Hrow _ Hin) as (r & _ & Hd%decodeJobRow_Ok). cbn [fst].
      rewrite (proj2 (NewJobID_Ok id id)); [done|]. split; [done|apply Hd].
  - apply read_each_Ok in Hrs as [_ Hf]; [|intros; by eapply readJob_same]. rewrite <-Hperm. clear Hperm Hrow.
    induction Hf as [|id r ids rs Hread _ IH]; cbn; [done|].
    apply readJob_Ok in Hread as (_ & j & _ & Hd%decodeJobRow_Ok). destruct (jd_id _ _ _ Hd) as [_ ->]. by constructor.
  - apply read_each_Ok in Hrs as [_ Hf]; [|intros; by eapply readJob_same]. clear Hperm Hrow.
    induction Hf as [|id r ids rs Hread _ IH]; constructor; [|done]. apply readJob_Ok in Hread as (_ & j & Hj & Hd).
    pose proof (decodeJobRow_Ok _ _ _ Hd) as Hdec. destruct (jd_id _ _ _ Hdec) as [Hne ->]. by eapply GetJob_row.
Qed.

Lemma ListNonterminalJobs_total_witness :
  exists rs, ListNonterminalJobs probe_state = Ok rs /\ jr_JobID <$> rs ≡ₚ ["j1"].
Proof.
  destruct (ListNonterminalJobs_total 4 20 probe_state probe_reachable) as (rs & H1 & H2 & _). exists rs. split; [exact H1|].
  assert ((nonterminal_jobs (db probe_state)).*1 ≡ₚ ["j1"]) as Hq by (refine (bool_decide_eq_true_1 _ _); vm_compute; reflexivity).
  exact (transitivity H2 Hq).
Defined.
