(* ===== verification/SchedulerTheorems.v ===== *)
(** * Correctness of scheduling and recovery

    Which command the scheduler claims and what the claim does, what the
    controlled-restart plan lets through, and what the recovery of lost
    runtimes releases. *)
From S2P Require Import Prelude GoStrings Sha256 Identity Lifecycle Policy Canonical LaneAdmission.
From S2P Require Import AuditRecords Db AuditStore AdmissionStore Idempotency Sessions Commands LostRecovery.
From S2P Require Import RestartPlan Jobs Scheduler Authority AuthorityOps JobOps Histories AuthorityTheorems.

(** ** The candidate order *)
Lemma string_le_refl x : string_le x x.
Proof. by destruct (total string_le x x). Qed.

Lemma candidate_le_spec a b :
  candidate_le a b <->
  cand_createdAt a < cand_createdAt b \/
  cand_createdAt a = cand_createdAt b /\
    (cand_sessionID a <> cand_sessionID b /\ string_le (cand_sessionID a) (cand_sessionID b) \/
     cand_sessionID a = cand_sessionID b /\
       (cand_ordinal a < cand_ordinal b \/
        cand_ordinal a = cand_ordinal b /\ string_le (cand_commandID a) (cand_commandID b))).
Proof.
  unfold candidate_le. destruct (Z.eqb_spec (cand_createdAt a) (cand_createdAt b)); cbn [negb]; [|lia].
  destruct (decide (cand_sessionID a = cand_sessionID b)).
  - rewrite bool_decide_eq_true_2 by done. cbn [negb].
    destruct (Z.eqb_spec (cand_ordinal a) (cand_ordinal b)); cbn [negb]; intuition (try lia; try done).
  - rewrite bool_decide_eq_false_2 by done. cbn [negb]. intuition (try lia; try done).
Qed.

#[export] Instance candidate_le_total : Total candidate_le.
Proof.
  intros a b. rewrite !candidate_le_spec.
  destruct (Z.lt_total (cand_createdAt a) (cand_createdAt b)) as [|[|]]; [tauto| |tauto].
  destruct (decide (cand_sessionID a = cand_sessionID b)) as [|Hs].
  - destruct (Z.lt_total (cand_ordinal a) (cand_ordinal b)) as [|[|]]; [tauto| |].
    + destruct (total string_le (cand_commandID a) (cand_commandID b)); [tauto|]. right. right.
      split; [done|]. right. split; [done|]. right. done.
    + right. right. split; [done|]. right. split; [done|]. by left.
  - destruct (total string_le (cand_sessionID a) (cand_sessionID b)); [tauto|]. right. right. split; [done|]. left. done.
Qed.

#[export] Instance candidate_le_trans : Transitive candidate_le.
Proof.
  intros a b c. rewrite !candidate_le_spec.
  intros [?|[E1 H1]] [?|[E2 H2]]; [left; lia..|]. right. split; [lia|].
  destruct H1 as [[N1 S1]|[S1 H1]], H2 as [[N2 S2]|[S2 H2]].
  - left. split; [|by etrans]. intros E. rewrite <- E in S2. by apply N1, (anti_symm string_le).
  - left. by rewrite <- S2.
  - left. by rewrite S1.
  - right. split; [congruence|]. destruct H1 as [?|[O1 C1]], H2 as [?|[O2 C2]]; [left; lia..|].
    right. split; [lia|by etrans].
Qed.

(** ** The choice *)

(** The scheduler may start this candidate: it is the oldest command of its
    session that is not terminal, and the session is ready. *)
Definition startable (d : DB) (x : schedulerCandidate) : Prop :=
  exists r, nextEligibleCommandOnConnection (cand_sessionID x) d = Ok (r, d) /\ cr_CommandID r = cand_commandID x.

Definition planned (plan : option ControlledRestartPlan) (x : schedulerCandidate) : Prop :=
  match plan with
  | Some p => cand_commandID x = plan_CommandID p /\ cand_sessionID x = plan_SessionID p
  | None => True
  end.

(** The loop claims the first candidate that the plan lets through and that can start. *)
Lemma claimFirst_first plan now cands d r d' :
  claimFirst plan now cands d = Ok (r, d') ->
  exists pre x post cand, cands = pre ++ x :: post /\ startable d x /\ planned plan x /\
    Forall (fun y => ~ (startable d y /\ planned plan y)) pre /\
    claimCommand plan cand (cand_commandID x) (cand_sessionID x) now d = Ok (r, d').
Proof.
  induction cands as [|x rest IH]; intros H; [done|]. cbn [claimFirst] in H.
  assert (forall y, ~ (startable d y /\ planned plan y) -> (exists pre x post cand, rest = pre ++ x :: post /\
    startable d x /\ planned plan x /\ Forall (fun y => ~ (startable d y /\ planned plan y)) pre /\
    claimCommand plan cand (cand_commandID x) (cand_sessionID x) now d = Ok (r, d')) ->
    exists pre x0 post cand, y :: rest = pre ++ x0 :: post /\ startable d x0 /\ planned plan x0 /\
    Forall (fun y => ~ (startable d y /\ planned plan y)) pre /\
    claimCommand plan cand (cand_commandID x0) (cand_sessionID x0) now d = Ok (r, d')) as Hskip.
  { intros y Hy (pre & x0 & post & cand & -> & ? & ? & ? & ?). exists (y :: pre), x0, post, cand.
    split_and!; try done. by constructor. }
  assert (planned plan x \/ ~ planned plan x) as Hdec.
  { destruct plan; simpl; [|by left]. destruct (decide (cand_commandID x = plan_CommandID c)),
      (decide (cand_sessionID x = plan_SessionID c)); tauto. }
  destruct Hdec as [Hpl|Hpl].
  2:{ apply Hskip; [tauto|]. apply IH. destruct plan as [p|]; simpl in Hpl; [|done].
      destruct (decide (cand_commandID x = plan_CommandID p)) as [Ec|Ec].
      - rewrite (bool_decide_eq_true_2 _ Ec), (bool_decide_eq_false_2 (cand_sessionID x = plan_SessionID p)) in H by tauto. done.
      - rewrite (bool_decide_eq_false_2 _ Ec) in H. done. }
  replace (match plan with Some _ => _ | None => _ end) with false in H.
  2:{ destruct plan as [p|]; [|done]. destruct Hpl as [-> ->]. by rewrite !bool_decide_eq_true_2. }
  apply stx_bind_Ok in H as (cid & d1 & [Hcid <-]%lift_Ok & H). apply stx_bind_Ok in H as (sid & d1 & [Hsid <-]%lift_Ok & H).
  apply result_map_err_Ok in Hcid, Hsid. id_norm.
  apply stx_bind_Ok in H as (cand & d1 & Hcand & H). unfold attempt in Hcand.
  destruct (nextEligibleCommandOnConnection (cand_sessionID x) d) as [[c d2]|e] eqn:E; injection Hcand as <- <-.
  - assert (d2 = d) as -> by (by apply read_only in E).
    destruct (decide (cr_CommandID c = cand_commandID x)) as [Hid|Hid].
    + rewrite bool_decide_eq_true_2 in H by done. cbn [negb] in H. exists [], x, rest, c. split_and!; try done. by exists c.
    + rewrite bool_decide_eq_false_2 in H by done. cbn [negb] in H. apply Hskip; [|by apply IH].
      intros [(r0 & E0 & Hr0) _]. rewrite E0 in E. injection E as ->. done.
  - destruct (errors_is e ErrCommandNotEligible); [|done]. apply Hskip; [|by apply IH].
    intros [(r0 & E0 & _) _]. by rewrite E0 in E.
Qed.

Lemma scanCandidates_Ok rows l :
  scanCandidates rows = Ok l ->
  Forall2 (fun '(id, row) x => exists t, parseStoredTime (c_created_at row) = Some t /\
    x = mkSchedulerCandidate id (c_session_id row) t (c_ordinal row)) rows l.
Proof.
  revert l. induction rows as [|[id row] rows IH]; intros l H; cbn [scanCandidates] in H.
  { injection H as <-. constructor. }
  destruct (parseStoredTime (c_created_at row)) as [t|] eqn:Ht; [|done]. tx_inv H. constructor; [by exists t|by apply IH].
Qed.

(** What a successful claim knows. *)
Lemma startNext_Ok s now maxSlots handoff rec s' :
  startNextEligibleCommand s now maxSlots handoff = (Ok rec, s') ->
  exists plan ev d' cands, readGate (db s) = Ok (plan, db s) /\
    (forall p, plan = Some p -> plan_Activated p = true) /\ count_live_slots (db s) < slot_limit maxSlots /\
    scanCandidates (candidateRows handoff (db s)) = Ok cands /\
    claimFirst plan now (merge_sort candidate_le cands) (db s) = Ok ((rec, ev), d') /\
    s' = publish (store_db s d') (Some ev).
Proof.
  unfold startNextEligibleCommand. cbv zeta. fold (slot_limit maxSlots). destruct (slot_limit maxSlots <? 1); [done|].
  destruct (withImmediateTransaction _ _) as [[[rec0 ev]|e] s1] eqn:E; [|done]. intros [= -> <-].
  apply withImmediateTransaction_Ok in E as (d' & E & ->).
  apply stx_bind_Ok in E as (plan & d1 & Hg & E). assert (d1 = db s) as -> by (by apply read_only in Hg).
  tx_inv E. bool_norm. eexists plan, ev, d', _. split_and!; try done. intros p ->. by apply negb_false_iff.
Qed.

(** ** The effect of a claim *)
Record claimed (d : DB) (now : Z) (id sid : string) (rec : CommandRecord) (ev : CommandEventRecord) (d' : DB) : Prop := {
  cl_command : exists c t, exec_commands d !! id = Some c /\ c_state c = CommandStateQueued /\
    exec_commands d' = <[id := command_with_state CommandStateRunning now c]> (exec_commands d) /\
    cr_CommandID rec = id /\ cr_SessionID rec = c_session_id c /\ cr_Ordinal rec = c_ordinal c /\
    cr_State rec = CommandStateRunning /\ parseStoredTime (c_created_at c) = Some t /\ cr_CreatedAt rec = t;
  cl_slot : exec_command_slots d !! id = None /\
    exec_command_slots d' = <[id := mkSlotRow schedulerHostKey (formatStoredTime now) None None]> (exec_command_slots d);
  cl_session : exists r, exec_sessions d !! sid = Some r /\ session_edge (s_state r) SessionStateBusy /\
    exec_sessions d' = <[sid := session_with_state SessionStateBusy now r]> (exec_sessions d);
  cl_event : ev = stream_event id command_started "" 0 now d /\
    rows_of (exec_command_events d') id = rows_of (exec_command_events d) id ++ [event_row_of ev]
}.

Lemma deletePlan_none plan u d d' :
  deleteControlledRestartPlanOnConnection plan d = Ok (u, d') -> exec_controlled_restart_plans d' = None.
Proof.
  assert (forall p n d d', delete_plan p d = Ok (n, d') -> n = 1 -> exec_controlled_restart_plans d' = None) as Hdel.
  { clear. unfold delete_plan. intros p n d d' H Hn. apply stx_bind_Ok in H as (x & d1 & [<- <-]%query_Ok & H).
    destruct (exec_controlled_restart_plans d) as [row|]; [destruct (p row)|]; tx_inv H; done. }
  unfold deleteControlledRestartPlanOnConnection. intros H. apply stx_bind_Ok in H as (n & d1 & H1 & H).
  tx_inv H. bool_norm. destruct (plan_Activated plan); [|by eapply Hdel].
  apply stx_bind_Ok in H1 as (t & d1 & [_ <-]%or_fail_Ok & H1). by eapply Hdel.
Qed.

Lemma claimCommand_Ok plan cand id sid now rec ev c d d' :
  claimCommand plan cand id sid now d = Ok ((rec, ev), d') ->
  exec_commands d !! id = Some c -> c_state c = CommandStateQueued ->
  claimed d now id sid rec ev d' /\
  (forall p, plan = Some p -> cr_CommandID cand = plan_CommandID p /\ exec_controlled_restart_plans d' = None).
Proof.
  unfold claimCommand. intros H Hc Hst. tx_inv H.
  apply insert_slot_Ok in Hrun as (Hg & _ & ->). bool_norm. apply nextEventSequence_Ok in Hrun0 as (-> & -> & _).
  apply insertCommandEvent_Ok in Hrun1 as (_ & _ & ->). db_simpl.
  apply update_command_Ok in Hrun2 as [(c' & Hc' & _ & _ & ->)|(_ & _ & Hf)]; db_simpl.
  2:{ specialize (Hf _ Hc). unfold in_command_state in Hf. by rewrite bool_decide_eq_false in Hf. }
  rewrite Hc in Hc'. injection Hc' as <-. apply transitionSession_Ok in Hrun3 as (r & Hr & He & ->). db_simpl.
  match type of Hrun4 with _ ?d0 = Ok (_, ?d1) => assert (same_core d0 d1 /\
    (forall p, plan = Some p -> cr_CommandID cand = plan_CommandID p /\ exec_controlled_restart_plans d1 = None)) as [Hcore Hplan] end.
  { destruct plan as [p|]; [|by tx_inv Hrun4].
    apply stx_bind_Ok in Hrun4 as ([] & d4 & (_ & Hids & <-)%fail_if_Ok & Hrun4). bool_norm.
    split; [by apply consumePlan_core in Hrun4|]. intros ? [= <-]. split; [done|].
    unfold consumeControlledRestartPlanOnClaim in Hrun4. apply stx_bind_Ok in Hrun4 as ([] & d5 & (_ & _ & <-)%fail_if_Ok & Hrun4).
    by apply deletePlan_none in Hrun4. }
  destruct (readCommand_Ok _ _ _ _ Hrun5) as (-> & row & Hrow & _ & _ & Hid & Hsid & Hord & Hstate & _ & _ & _ & Hca & _).
  split; [|exact Hplan]. destruct Hcore as [C1 C2 C3 C4 C5 C6 _]. db_simpl.
  rewrite C4, lookup_insert_eq in Hrow. injection Hrow as <-. split.
  - exists c, (cr_CreatedAt rec). rewrite C4. split_and!; done.
  - rewrite C6. by destruct (exec_command_slots d !! id).
  - exists r. by rewrite C1.
  - rewrite C5, rows_of_insert. by rewrite decide_True.
Qed.

(** A claimed candidate is a queued command of its session. *)
Lemma startable_command d x :
  startable d x -> exists c, exec_commands d !! cand_commandID x = Some c /\ c_state c = CommandStateQueued /\
    c_session_id c = cand_sessionID x.
Proof.
  intros (r & E & <-). apply nextEligible_Ok in E as (_ & c & Hc & Hs & Hst & _). by exists c.
Qed.

(** C29: Starting a command is one atomic step: the command goes from queued to
    running, its [command_started] event is appended and published, its session
    goes to busy and a live slot is taken, under the slot limit; when the claim
    fails the store is unchanged. *)
Theorem claim_is_atomic s now maxSlots handoff r s' :
  startNextEligibleCommand s now maxSlots handoff = (r, s') ->
  match r with
  | Ok rec => exists ev, claimed (db s) now (cr_CommandID rec) (cr_SessionID rec) rec ev (db s') /\
      published s' = published s ++ [ev] /\ CountLiveCommandSlots s < slot_limit maxSlots
  | Err _ => s' = s
  end.
Proof.
  intros H. destruct r as [rec|e].
  - apply startNext_Ok in H as (plan & ev & d' & cands & _ & _ & Hlt & _ & Hclaim & ->).
    apply claimFirst_first in Hclaim as (pre & x & post & cand & _ & Hx & _ & _ & Hclaim).
    destruct (startable_command _ _ Hx) as (c & Hc & Hst & Hs).
    destruct (claimCommand_Ok _ _ _ _ _ _ _ _ _ _ Hclaim Hc Hst) as [Hcl _]. exists ev.
    assert (cr_CommandID rec = cand_commandID x /\ cr_SessionID rec = cand_sessionID x) as [-> ->].
    { destruct (cl_command _ _ _ _ _ _ _ Hcl) as (c' & t & Hc' & _ & _ & Hid & Hsid & _).
      rewrite Hc in Hc'. injection Hc' as <-. by rewrite Hsid. }
    done.
  - unfold startNextEligibleCommand in H. cbv zeta in H. destruct (_ <? 1); [by injection H|].
    destruct (withImmediateTransaction _ _) as [[[rec0 ev]|e'] s1] eqn:E; injection H; [done|].
    intros -> _. by apply withImmediateTransaction_Err in E as [_ ->].
Qed.

(** ** The candidates *)
Lemma candidates_elem handoff d cands z :
  scanCandidates (candidateRows handoff d) = Ok cands ->
  z ∈ cands <-> exists id c t, (id, c) ∈ candidateRows handoff d /\ parseStoredTime (c_created_at c) = Some t /\
    z = mkSchedulerCandidate id (c_session_id c) t (c_ordinal c).
Proof.
  intros Hscan%scanCandidates_Ok. split.
  - intros [k Hk]%list_elem_of_lookup. destruct (Forall2_lookup_r _ _ _ _ _ Hscan Hk) as ([id c] & Hi & t & Ht & ->).
    exists id, c, t. split_and!; try done. by eapply list_elem_of_lookup_2.
  - intros (id & c & t & [k Hk]%list_elem_of_lookup & Ht & ->).
    destruct (Forall2_lookup_l _ _ _ _ _ Hscan Hk) as (z & Hz & t' & Ht' & ->).
    rewrite Ht in Ht'. injection Ht' as <-. by eapply list_elem_of_lookup_2.
Qed.

Lemma candidateRows_command handoff d id c : (id, c) ∈ candidateRows handoff d -> exec_commands d !! id = Some c.
Proof. unfold candidateRows, schedulerEligible. rewrite !list_elem_of_filter, elem_of_map_to_list. tauto. Qed.

Lemma nextEligible_ready sid r d d' :
  nextEligibleCommandOnConnection sid d = Ok (r, d') -> s_state <$> exec_sessions d !! sid = Some SessionStateReady.
Proof.
  unfold nextEligibleCommandOnConnection. intros E.
  apply stx_bind_Ok in E as (row & d1 & [<- <-]%query_Ok & E). apply stx_bind_Ok in E as (row & d1 & [Hrow <-]%or_fail_Ok & E).
  apply stx_bind_Ok in E as ([] & d1 & (_ & Hready & _)%fail_if_Ok & _).
  apply negb_false_iff, in_session_state_true in Hready. by rewrite Hrow, <- Hready.
Qed.

Lemma startable_candidate handoff d id c t :
  exec_commands d !! id = Some c -> (handoff = true -> handed_off d id = true) ->
  startable d (mkSchedulerCandidate id (c_session_id c) t (c_ordinal c)) -> (id, c) ∈ candidateRows handoff d.
Proof.
  intros Hc Hhand Hs. destruct (startable_command _ _ Hs) as (c0 & Hc0 & Hst0 & _). cbn [cand_commandID] in Hc0.
  rewrite Hc in Hc0. injection Hc0 as <-. destruct Hs as (r & E & _). apply nextEligible_ready in E.
  unfold candidateRows, schedulerEligible. rewrite !list_elem_of_filter, elem_of_map_to_list. split_and!; try done.
  destruct handoff; [by rewrite Hhand|done].
Qed.

Lemma sorted_first cands pre x post y :
  merge_sort candidate_le cands = pre ++ x :: post -> y ∈ cands -> y ∉ pre -> candidate_le x y.
Proof.
  intros Hsort Hy Hpre. rewrite <- (merge_sort_Permutation candidate_le cands), Hsort in Hy.
  apply elem_of_app in Hy as [Hy|Hy]; [done|]. apply elem_of_cons in Hy as [->|Hy].
  { by destruct (total candidate_le x x). }
  pose proof (StronglySorted_merge_sort candidate_le cands) as Hss. rewrite Hsort in Hss.
  apply StronglySorted_app_1_r in Hss. apply StronglySorted_inv in Hss as [_ Hall]. rewrite Forall_forall in Hall. auto.
Qed.

Lemma readGate_none d plan d' :
  exec_controlled_restart_plans d = None -> readGate d = Ok (plan, d') -> plan = None.
Proof.
  intros Hno H. unfold readGate, attempt, readControlledRestartPlanOnConnection in H.
  apply stx_bind_Ok in H as (p & d1 & Hp & H). rewrite query_bind, Hno, or_fail_bind_none in Hp.
  injection Hp as <- <-. by tx_inv H.
Qed.


(** C37: A controlled-restart plan closes the scheduler.  While the plan is only
    prepared no command at all is started; once it is activated the one command
    that can be started is the planned one, and starting it removes the plan. *)
Theorem restart_plan_gates_scheduler s plan now maxSlots handoff :
  ReadControlledRestartPlan s = Ok plan -> 1 <= slot_limit maxSlots ->
  (plan_Activated plan = false ->
     startNextEligibleCommand s now maxSlots handoff = (Err ErrControlledRestartPlanNotActive, s)) /\
  (forall rec s', startNextEligibleCommand s now maxSlots handoff = (Ok rec, s') ->
     plan_Activated plan = true /\ cr_CommandID rec = plan_CommandID plan /\ cr_SessionID rec = plan_SessionID plan /\
     exec_controlled_restart_plans (db s') = None).
Proof.
  unfold ReadControlledRestartPlan, withReadTransaction.
  destruct (readControlledRestartPlanOnConnection (db s)) as [[p d1]|] eqn:E; [|done]. intros [= ->] Hlim.
  assert (d1 = db s) as -> by (by apply read_only in E).
  assert (readGate (db s) = Ok (Some plan, db s)) as Hgate.
  { unfold readGate, attempt. erewrite stx_bind_run by (by rewrite E). done. }
  split.
  - intros Hact. unfold startNextEligibleCommand. cbv zeta. fold (slot_limit maxSlots).
    rewrite (proj2 (Z.ltb_ge _ _)) by done. unfold withImmediateTransaction.
    rewrite (stx_bind_run _ _ _ _ _ Hgate), Hact. done.
  - intros rec s' H. apply startNext_Ok in H as (plan' & ev & d' & cands & Hgate' & Hact & _ & _ & Hclaim & ->).
    rewrite Hgate in Hgate'. injection Hgate' as <-.
    apply claimFirst_first in Hclaim as (pre & x & post & cand & _ & Hx & [Hpc Hps] & _ & Hclaim).
    destruct (startable_command _ _ Hx) as (cx & Hcx & Hstx & Hsx).
    destruct (claimCommand_Ok _ _ _ _ _ _ _ _ _ _ Hclaim Hcx Hstx) as [Hcl Hplan].
    destruct (cl_command _ _ _ _ _ _ _ Hcl) as (c' & t' & Hc' & _ & _ & Hid & Hsid & _).
    rewrite Hcx in Hc'. injection Hc' as <-. split_and!; [by apply Hact|congruence..|]. by apply (Hplan plan).
Qed.

(** ** Lost recovery *)
Definition pair_released (d : DB) (p : LostRuntimeRecoveryPair) : Prop :=
  (exists sl, exec_command_slots d !! pair_CommandID p = Some sl /\ sl_stop_confirmed_at sl <> None /\ sl_released_at sl <> None) /\
  (exists r, exec_capacity_reservations d !! pair_SessionID p = Some r /\ r_cleanup_confirmed_at r <> None /\
     r_released_at r <> None).

(** Sessions, commands, events, jobs and bindings are left alone. *)
Record recovery_frame (d d' : DB) : Prop := {
  rf_sessions : exec_sessions d' = exec_sessions d;
  rf_lifecycle : exec_session_lifecycle d' = exec_session_lifecycle d;
  rf_commands : exec_commands d' = exec_commands d;
  rf_events : exec_command_events d' = exec_command_events d;
  rf_jobs : exec_jobs d' = exec_jobs d;
  rf_idempotency : exec_idempotency d' = exec_idempotency d;
  rf_plan : exec_controlled_restart_plans d' = exec_controlled_restart_plans d
}.

#[export] Instance recovery_frame_refl : Reflexive recovery_frame.
Proof. by intros d. Qed.
#[export] Instance recovery_frame_trans : Transitive recovery_frame.
Proof. intros d1 d2 d3 [] []. split; congruence. Qed.

(** The capacity released by [d -> d'] belongs to [pairs]. *)
Record releases (pairs : list LostRuntimeRecoveryPair) (d d' : DB) : Prop := {
  rl_frame : recovery_frame d d';
  rl_slots : forall id, id ∉ pair_CommandID <$> pairs -> exec_command_slots d' !! id = exec_command_slots d !! id;
  rl_reservations : forall id, id ∉ pair_SessionID <$> pairs ->
    exec_capacity_reservations d' !! id = exec_capacity_reservations d !! id;
  rl_kept : forall p, pair_released d p -> pair_released d' p;
  rl_released : Forall (pair_released d') pairs
}.

Lemma releasePair_releases p now u d d' :
  releaseLostRuntimeRecoveryPair p now d = Ok (u, d') -> releases [p] d d'.
Proof.
  unfold releaseLostRuntimeRecoveryPair. intros H. tx_inv H.
  unfold insert_finalization in H. apply guarded_write_Ok in H as (_ & _ & ->). bool_norm.
  apply update_slot_Ok in Hrun as [(sl & Hsl & _ & _ & ->)|(? & _)]; [|lia].
  apply update_reservation_Ok in Hrun3 as [(r & Hr & _ & _ & ->)|(? & _)]; [|lia]. db_simpl.
  split; db_simpl; [done|intros id Hid..| |].
  - apply lookup_insert_ne. set_solver.
  - apply lookup_insert_ne. set_solver.
  - intros q [(sl' & Hsl' & ?) (r' & Hr' & ?)]. split; db_simpl; rewrite lookup_insert; case_decide; eauto.
  - constructor; [|constructor]. split; db_simpl; rewrite lookup_insert_eq; by eexists.
Qed.

Lemma releasePairs_releases now pairs u d d' : releasePairs now pairs d = Ok (u, d') -> releases pairs d d'.
Proof.
  revert u d. induction pairs as [|p pairs IH]; intros u d H; cbn [releasePairs] in H.
  { tx_inv H. by split. }
  apply stx_bind_Ok in H as ([] & d1 & [F1 S1 R1 K1 L1]%releasePair_releases & [F2 S2 R2 K2 L2]%IH).
  apply Forall_cons in L1 as [L1 _]. split.
  - by etrans.
  - intros id Hid. rewrite fmap_cons, not_elem_of_cons in Hid. destruct Hid as [Hne Hid].
    rewrite S2 by done. apply S1. set_solver.
  - intros id Hid. rewrite fmap_cons, not_elem_of_cons in Hid. destruct Hid as [Hne Hid].
    rewrite R2 by done. apply R1. set_solver.
  - auto.
  - constructor; auto.
Qed.

Lemma retainedPairs_sound b pairs l d d' :
  retainedPairs b pairs d = Ok (l, d') ->
  l `sublist_of` pairs /\ Forall (fun p => p ∈ l \/ pair_released d p) pairs /\
  Forall (fun p => exists c r, exec_commands d !! pair_CommandID p = Some c /\ c_state c = CommandStateLost /\
    c_session_id c = pair_SessionID p /\ exec_sessions d !! pair_SessionID p = Some r /\ s_state r = SessionStateLost) pairs.
Proof.
  revert l d'. induction pairs as [|p pairs IH]; intros l d' H; cbn [retainedPairs] in H.
  { tx_inv H. done. }
  apply stx_bind_Ok in H as (rel & d1 & Hp & H).
  apply checkPair_Ok in Hp as (-> & c & r & sl & res & Hc & Hs & Hst & Hr & Hrs & Hsl & Hres & Htrue & _).
  apply stx_bind_Ok in H as (u & d2 & Hb & H). assert (d2 = d) as -> by (destruct b; by apply read_only in Hb).
  apply stx_bind_Ok in H as (others & d3 & Ho & H). apply IH in Ho as (Hsub & Hall & Hlost). tx_inv H. split_and!.
  - destruct rel; by constructor.
  - constructor.
    + destruct rel; [right|left; set_solver]. destruct (Htrue eq_refl) as (? & ? & ? & ?). split; eauto.
    + eapply Forall_impl; [exact Hall|]. intros q [Hq|Hq]; [|by right]. left. destruct rel; set_solver.
  - constructor; [|done]. by exists c, r.
Qed.

(** Confirming the recovery of lost runtimes is all or nothing.  On success
    every selected pair was a lost command of its lost session, and both its
    command slot and its session reservation are released; no other slot or
    reservation changes, and no session, command, event, job or binding is
    touched.  On failure the store is unchanged. *)
Theorem lost_recovery_all_or_nothing s now pairs r s' :
  ConfirmLostRuntimeRecoveryBatch s now pairs = (r, s') ->
  match r with
  | Ok _ => Forall (fun p => pair_released (db s') p /\ exists c row,
        exec_commands (db s) !! pair_CommandID p = Some c /\ c_state c = CommandStateLost /\
        c_session_id c = pair_SessionID p /\ exec_sessions (db s) !! pair_SessionID p = Some row /\
        s_state row = SessionStateLost) pairs /\
      recovery_frame (db s) (db s') /\
      (forall id, id ∉ pair_CommandID <$> pairs -> exec_command_slots (db s') !! id = exec_command_slots (db s) !! id) /\
      (forall id, id ∉ pair_SessionID <$> pairs ->
         exec_capacity_reservations (db s') !! id = exec_capacity_reservations (db s) !! id)
  | Err _ => s' = s
  end.
Proof.
  unfold ConfirmLostRuntimeRecoveryBatch. destruct (validateLostRuntimeRecoveryPairs pairs) as [v|] eqn:Hv; cbn [with_valid].
  2:{ by intros [= <- <-]. }
  assert (v = pairs) as ->.
  { unfold validateLostRuntimeRecoveryPairs in Hv. tx_inv Hv. clear Hrun. revert v Hv. generalize (@nil string) at 1 as l1.
    generalize (@nil string) as l2. induction pairs as [|p pairs IH]; intros l2 l1 v Hv; [by injection Hv|].
    cbn [validatePairs] in Hv. tx_inv Hv. id_norm. apply IH in Hrun3 as ->. by destruct p. }
  intros H. destruct r as [u|e]; [|by apply withImmediateTransaction_Err in H as [_ ->]].
  apply withImmediateTransaction_Ok in H as (d' & E & ->). cbn [db store_db].
  apply stx_bind_Ok in E as (l & d1 & Hl & E). assert (d1 = db s) as -> by (by apply read_only in Hl).
  destruct (retainedPairs_sound _ _ _ _ _ Hl) as (Hsub & Hall & Hlost).
  assert (releases l (db s) d') as [F S R K L].
  { destruct l as [|p l]; cbn [is_nil] in E; tx_inv E; [by split|]. by eapply releasePairs_releases. }
  split_and!; [|done|..].
  - apply Forall_forall. intros p Hp. rewrite Forall_forall in Hall, Hlost, L. split; [|by apply Hlost].
    destruct (Hall _ Hp); auto.
  - intros id Hid. apply S. contradict Hid. apply list_elem_of_fmap in Hid as (p & -> & Hp).
    apply list_elem_of_fmap_2. by eapply elem_of_sublist.
  - intros id Hid. apply R. contradict Hid. apply list_elem_of_fmap in Hid as (p & -> & Hp).
    apply list_elem_of_fmap_2. by eapply elem_of_sublist.
Qed.

(** ** Witnesses *)

(** The second command of the example is queued. *)
Definition example_queued : AuthorityStore := runs (take 7 example_history) new_store.

Lemma claim_is_atomic_witness : exists rec s' ev,
  startNextEligibleCommand example_queued (t0 + 7 * second) 0 true = (Ok rec, s') /\
  claimed (db example_queued) (t0 + 7 * second) (cr_CommandID rec) (cr_SessionID rec) rec ev (db s').
Proof.
  destruct (startNextEligibleCommand example_queued (t0 + 7 * second) 0 true) as [r s'] eqn:E.
  assert (result_is_ok r = true) as Hok.
  { change r with (fst (r, s')). rewrite <- E. vm_compute. reflexivity. }
  pose proof (claim_is_atomic _ _ _ _ _ _ E) as H. destruct r as [rec|e]; [|discriminate Hok].
  destruct H as (ev & Hcl & _). exists rec, s', ev. split; [reflexivity|exact Hcl].
Defined.

(** Two sessions with one queued command each. *)
Definition example_second_session : SessionCreateAcceptance :=
  mkSessionCreateAcceptance
    (mkSessionCreate "s2" example_target "linux-dev" example_controller NewEmptySource "" "" example_limits "requested")
    "key-s2" (example_hash "c") 0 0 None.
Definition example_two_sessions : AuthorityStore :=
  runs [ (t0, OpAcceptSessionCreate example_acceptance);
         (t0, OpAcceptSessionCreate example_second_session);
         (t0, OpCompleteSessionCreation "s1" SessionStateReady "gen-1" "" "runtime_ready");
         (t0, OpCompleteSessionCreation "s2" SessionStateReady "gen-2" "" "runtime_ready");
         (t0 + second, OpAcceptCommand (mkCommandAcceptance "c2" "s2" (example_hash "d") "k2" 0 "echo 2" minute 0 None));
         (t0 + 2 * second, OpAcceptCommand (mkCommandAcceptance "c1" "s1" (example_hash "e") "k1" 0 "echo 1" minute 0 None)) ]
    new_store.


(** A prepared plan for the queued command [c2], holding four lost pairs. *)
Definition example_job : JobRow :=
  mkJobRow "s1" "c2" example_controller IngressLocalUnix example_target "linux-dev" NewEmptySource 1 "" "key-j1" "{}"
    "echo ho" "" JobPhaseAwaitingCommand (Some CommandStateQueued) None None false false "" JobTeardownPending ""
    (formatStoredTime t0) (formatStoredTime t0).
Definition example_lost_command (sid : string) : CommandRow :=
  command_terminal (mkCommandTransition "" CommandStateLost None false false) 3 t0
    (mkCommandRow sid 1 None 1 "" "" "" CommandStateRunning minute None None false false "" (formatStoredTime t0)
       (formatStoredTime t0)).
Definition example_lost_pairs : list (string * string) := [("x1", "l1"); ("x2", "l2"); ("x3", "l3"); ("x4", "l4")].
Definition example_planned (state : string) (activatedAt : option StoredTime) : AuthorityStore :=
  let d := db example_queued in
  store_db example_queued
    (set_plan (Some (mkPlanRow "j1" "s1" "c2" "gen-1" (formatStoredTime t0) state activatedAt))
    (set_lost_pairs [mkLostPairRow 1 "x1" "l1"; mkLostPairRow 2 "x2" "l2"; mkLostPairRow 3 "x3" "l3"; mkLostPairRow 4 "x4" "l4"]
    (set_jobs {["j1" := example_job]}
    (set_commands (foldr (fun '(sid, cid) m => <[cid := example_lost_command sid]> m) (exec_commands d) example_lost_pairs) d)))).

Lemma restart_plan_gates_scheduler_witness :
  startNextEligibleCommand (example_planned "prepared" None) (t0 + 7 * second) 0 true
    = (Err ErrControlledRestartPlanNotActive, example_planned "prepared" None) /\
  exists rec s', startNextEligibleCommand (example_planned "active" (Some (formatStoredTime t0))) (t0 + 7 * second) 0 true
    = (Ok rec, s') /\ cr_CommandID rec = "c2" /\ exec_controlled_restart_plans (db s') = None.
Proof.
  assert (exists plan, ReadControlledRestartPlan (example_planned "prepared" None) = Ok plan /\ plan_Activated plan = false)
    as (plan & Hplan & Hact).
  { eexists. split; [vm_compute; reflexivity|reflexivity]. }
  assert (exists plan, ReadControlledRestartPlan (example_planned "active" (Some (formatStoredTime t0))) = Ok plan /\
    plan_CommandID plan = "c2") as (plan' & Hplan' & Hcmd).
  { eexists. split; [vm_compute; reflexivity|reflexivity]. }
  split.
  - apply (restart_plan_gates_scheduler _ plan _ 0 true Hplan); [vm_compute; discriminate|exact Hact].
  - destruct (startNextEligibleCommand (example_planned "active" (Some (formatStoredTime t0))) (t0 + 7 * second) 0 true)
      as [r s'] eqn:E.
    assert (result_is_ok r = true) as Hok.
    { change r with (fst (r, s')). rewrite <- E. vm_compute. reflexivity. }
    destruct r as [rec|e]; [|discriminate Hok].
    destruct (restart_plan_gates_scheduler _ plan' (t0 + 7 * second) 0 true Hplan') as [_ H]; [vm_compute; discriminate|].
    destruct (H _ _ E) as (_ & Hid & _ & Hnone). exists rec, s'. split; [reflexivity|]. split; [congruence|exact Hnone].
Defined.

(** A command lost together with its session, its capacity retained. *)
Definition example_lost : AuthorityStore :=
  runs (take 5 example_history ++
    [ (t0 + 6 * second, OpCompleteRunningCommand (mkCommandTransition "c1" CommandStateLost None false false)
        SessionStateLost "runtime_lost" false) ]) new_store.

Lemma lost_recovery_all_or_nothing_witness :
  exists s', ConfirmLostRuntimeRecoveryBatch example_lost (t0 + 9 * second) [mkPair "s1" "c1"] = (Ok tt, s') /\
    pair_released (db s') (mkPair "s1" "c1").
Proof.
  destruct (ConfirmLostRuntimeRecoveryBatch example_lost (t0 + 9 * second) [mkPair "s1" "c1"]) as [r s'] eqn:E.
  assert (result_is_ok r = true) as Hok.
  { change r with (fst (r, s')). rewrite <- E. vm_compute. reflexivity. }
  pose proof (lost_recovery_all_or_nothing _ _ _ _ _ E) as H. destruct r as [[]|e]; [|discriminate Hok].
  destruct H as (Hf & _). apply Forall_cons in Hf as [[Hp _] _]. exists s'. split; [reflexivity|exact Hp].
Defined.
