(* ===== verification/RecoveryTheorems.v ===== *)
(** * Correctness of the offline recoveries

    Confirming a recovery releases the whole selected set or nothing, leaves no
    capacity retained, and touches no result; the settlement of a cancelled job
    completes exactly the selected jobs and can be repeated. *)
From S2P Require Import Prelude GoStrings Sha256 Identity Lifecycle Policy Canonical LaneAdmission.
From S2P Require Import AuditRecords Db AuditStore AdmissionStore Idempotency Sessions Commands LostRecovery.
From S2P Require Import Listings CommandlessRecovery RestartPlan RunPayload Jobs Scheduler TeardownRecovery.
From S2P Require Import MixedRecovery Settlement Authority AuthorityOps JobOps Histories AuthorityTheorems.
From S2P Require Import JobTheorems SchedulerTheorems.

(** ** A selection that covers a count *)
Lemma count_covered {A} (p : A -> bool) (t : gmap string A) (ids : list string) :
  NoDup ids -> Forall (fun id => exists r, t !! id = Some r /\ p r = true) ids ->
  size (filter (fun '(_, r) => p r = true) t) = length ids ->
  forall id r, t !! id = Some r -> p r = true -> id ∈ ids.
Proof.
  intros Hnd Hall Hsize id r Hr Hp. set (rows := filter _ t) in Hsize.
  assert (list_to_set ids =@{gset string} dom rows) as E.
  { apply set_subseteq_size_eq.
    - intros x Hx%elem_of_list_to_set. rewrite Forall_forall in Hall. destruct (Hall x Hx) as (row & Hrow & Hprow).
      apply elem_of_dom. exists row. by apply map_lookup_filter_Some.
    - rewrite size_dom, Hsize, size_list_to_set by done. done. }
  apply (elem_of_list_to_set (C := gset string)). rewrite E. apply elem_of_dom. exists r. by apply map_lookup_filter_Some.
Qed.

(** ** Reservations freed by a release *)
Definition session_released (d : DB) (id : string) : Prop :=
  exists r, exec_capacity_reservations d !! id = Some r /\ r_cleanup_confirmed_at r <> None /\ r_released_at r <> None.

Record frees (ids : list string) (d d' : DB) : Prop := {
  fr_frame : recovery_frame d d';
  fr_slots : exec_command_slots d' = exec_command_slots d;
  fr_other : forall id, id ∉ ids -> exec_capacity_reservations d' !! id = exec_capacity_reservations d !! id;
  fr_kept : forall id, session_released d id -> session_released d' id;
  fr_freed : Forall (session_released d') ids
}.

Lemma frees_nil d : frees [] d d.
Proof. by split. Qed.

Lemma frees_app l1 l2 d1 d2 d3 : frees l1 d1 d2 -> frees l2 d2 d3 -> frees (l1 ++ l2) d1 d3.
Proof.
  intros [F1 S1 O1 K1 L1] [F2 S2 O2 K2 L2]. split.
  - by etrans.
  - congruence.
  - intros id [Hn1 Hn2]%not_elem_of_app. rewrite O2 by done. by apply O1.
  - auto.
  - apply Forall_app. split; [|done]. eapply Forall_impl; [exact L1|]. auto.
Qed.

(** One released reservation; the rest of the database may change outside the
    tables of the authority. *)
Lemma frees_one id now n d d1 d2 :
  update_reservation id releasable_reservation (reservation_released now) d = Ok (n, d1) -> negb (n =? 1) = false ->
  recovery_frame d1 d2 -> exec_command_slots d2 = exec_command_slots d1 ->
  exec_capacity_reservations d2 = exec_capacity_reservations d1 -> frees [id] d d2.
Proof.
  intros Hu Hn Hframe Hs Hr. apply update_reservation_Ok in Hu as [(r & Hrow & _ & _ & ->)|(-> & _)]; [|done].
  split; unfold session_released; rewrite ?Hs, ?Hr; db_simpl.
  - etrans; [|exact Hframe]. by split.
  - done.
  - intros x Hx. apply lookup_insert_ne. set_solver.
  - intros x (row & Hx & ?). rewrite lookup_insert. case_decide; [|by eauto]. by eexists.
  - constructor; [|constructor]. rewrite lookup_insert_eq. by eexists.
Qed.

Lemma releaseCommandless_frees now recoveries u d d' :
  releaseCommandless now recoveries d = Ok (u, d') -> frees (clr_SessionID <$> recoveries) d d'.
Proof.
  revert u d. induction recoveries as [|r recoveries IH]; intros u d H; cbn [releaseCommandless] in H.
  { tx_inv H. apply frees_nil. }
  apply stx_bind_Ok in H as ([] & d1 & H1 & H%IH). rewrite fmap_cons. eapply (frees_app [_]); [|exact H]. clear H.
  unfold releaseCommandlessLostRuntimeRecovery in H1. apply stx_bind_Ok in H1 as (n & d2 & Hn & H1).
  apply stx_bind_Ok in H1 as ([] & d3 & (_ & Hc & <-)%fail_if_Ok & H1).
  unfold insert_commandless_finalization in H1. apply guarded_write_Ok in H1 as (_ & _ & ->).
  by eapply frees_one.
Qed.

Definition teardown_session (r : CompletedTeardownRecovery) : string := tp_SessionID (tr_Pair r).

Lemma releaseTeardowns_frees now recoveries u d d' :
  releaseTeardowns now recoveries d = Ok (u, d') ->
  frees (teardown_session <$> List.filter (fun r => negb (tr_AlreadyRecovered r)) recoveries) d d'.
Proof.
  revert u d. induction recoveries as [|r recoveries IH]; intros u d H; cbn [releaseTeardowns] in H.
  { tx_inv H. apply frees_nil. }
  apply stx_bind_Ok in H as ([] & d1 & H1 & H%IH). cbn [List.filter]. unfold releaseTeardown in H1.
  destruct (tr_AlreadyRecovered r); cbn [negb]; [by tx_inv H1|].
  rewrite fmap_cons. eapply (frees_app [_]); [|exact H]. clear H. apply stx_bind_Ok in H1 as (n & d2 & Hn & H1).
  apply stx_bind_Ok in H1 as ([] & d3 & (_ & Hc & <-)%fail_if_Ok & H1).
  unfold insert_teardown_finalization in H1. apply guarded_write_Ok in H1 as (_ & _ & ->).
  by eapply frees_one.
Qed.

(** ** Selected rows *)
Definition pair_retained (d : DB) (p : LostRuntimeRecoveryPair) : Prop :=
  (exists sl, exec_command_slots d !! pair_CommandID p = Some sl /\ releasable_slot sl = true) /\
  (exists r, exec_capacity_reservations d !! pair_SessionID p = Some r /\ releasable_reservation r = true).

Lemma retainedPairs_retained b pairs l d d' :
  retainedPairs b pairs d = Ok (l, d') -> Forall (pair_retained d) l.
Proof.
  revert l d'. induction pairs as [|p pairs IH]; intros l d' H; cbn [retainedPairs] in H.
  { tx_inv H. constructor. }
  apply stx_bind_Ok in H as (rel & d1 & Hp & H).
  apply checkPair_Ok in Hp as (-> & c & r & sl & res & _ & _ & _ & _ & _ & Hsl & Hres & _ & Hfalse).
  apply stx_bind_Ok in H as (u & d2 & Hb & H). assert (d2 = d) as -> by (destruct b; by apply read_only in Hb).
  apply stx_bind_Ok in H as (others & d3 & Ho%IH & H). tx_inv H. destruct rel; [done|].
  constructor; [|done]. destruct (Hfalse eq_refl). split; eauto.
Qed.

(** A session lost before its one-off job had a command. *)
Definition commandless (d : DB) (id : string) : Prop :=
  (exists s, exec_sessions d !! id = Some s /\ s_state s = SessionStateLost) /\
  (exists jid j, exec_jobs d !! jid = Some j /\ j_session_id j = id /\ j_phase j = JobPhaseLost /\
     exec_command_slots d !! j_command_id j = None) /\
  (forall cid c, exec_commands d !! cid = Some c -> c_session_id c <> id).

Lemma session_job_Some id jid j d :
  session_job id d = Some (jid, j) -> exec_jobs d !! jid = Some j /\ j_session_id j = id.
Proof.
  unfold session_job. intros H%head_Some_elem_of. apply list_elem_of_filter in H as [Hs Hj]. by rewrite elem_of_map_to_list in Hj.
Qed.

Lemma session_commands_nil id d : session_commands id d = [] ->
  forall cid c, exec_commands d !! cid = Some c -> c_session_id c <> id.
Proof.
  intros H cid c Hc E. assert ((cid, c) ∈ session_commands id d) as Hin; [|rewrite H in Hin; by apply not_elem_of_nil in Hin].
  apply list_elem_of_filter. split; [done|]. by apply elem_of_map_to_list.
Qed.

Lemma readCommandless_Ok id rec d d' :
  readCommandlessLostRuntimeRecovery id d = Ok (rec, d') ->
  clr_SessionID rec = id /\ commandless d id /\
  (clr_AlreadyRecovered rec = true -> session_released d id) /\
  (clr_AlreadyRecovered rec = false ->
     exists r, exec_capacity_reservations d !! id = Some r /\ releasable_reservation r = true).
Proof.
  unfold readCommandlessLostRuntimeRecovery. cbv zeta. intros H.
  apply stx_bind_Ok in H as (x & d1 & [<- <-]%query_Ok & H).
  apply stx_bind_Ok in H as (s & d1 & [Hs <-]%or_fail_Ok & H).
  apply stx_bind_Ok in H as (row & d1 & [Hrow <-]%or_fail_Ok & H).
  apply stx_bind_Ok in H as ([jid j] & d1 & [Hj <-]%or_fail_Ok & H). apply session_job_Some in Hj as [Hj Hsid].
  cbn [fst snd] in H. tx_inv H. apply readSession_Ok in Hrun2 as (-> & row' & Hrow' & Hrec).
  rewrite Hs in Hrow'. injection Hrow' as <-. destruct Hrec as (_ & _ & Hst & _). bool_norm.
  apply Nat.eqb_eq in H1. apply nil_length_inv in H1. cbn [clr_SessionID clr_AlreadyRecovered]. split_and!; [done|split_and!|..].
  - exists s. split; [done|congruence].
  - exists jid, j. split_and!; [done..|]. by destruct (exec_command_slots s0 !! j_command_id j).
  - by apply session_commands_nil.
  - intros [Hc Hr]%andb_true_iff. exists row. split; [done|].
    by destruct (r_cleanup_confirmed_at row), (r_released_at row).
  - intros Hno. exists row. split; [done|]. unfold releasable_reservation. rewrite bool_decide_eq_true_2 by done.
    by destruct (r_cleanup_confirmed_at row), (r_released_at row).
Qed.

(** What the reads of a batch say about its sessions. *)
Lemma commandlessBatch_Ok ids recs d :
  Forall2 (fun id rec => readCommandlessLostRuntimeRecovery id d = Ok (rec, d)) ids recs ->
  clr_SessionID <$> recs = ids /\ Forall (commandless d) ids /\
  Forall (fun rec => clr_AlreadyRecovered rec = true -> session_released d (clr_SessionID rec)) recs /\
  Forall (fun rec => clr_AlreadyRecovered rec = false ->
    exists r, exec_capacity_reservations d !! clr_SessionID rec = Some r /\ releasable_reservation r = true) recs.
Proof.
  induction 1 as [|id rec ids recs (Hid & Hc & Ht & Hf)%readCommandless_Ok _ (IH1 & IH2 & IH3 & IH4)]; [done|].
  rewrite fmap_cons, Hid, IH1. split_and!; [done|constructor..]; rewrite ?Hid; done.
Qed.

Lemma validateSessionIDs_Ok seen ids v :
  validateSessionIDs seen ids = Ok v -> v = ids /\ NoDup ids /\ Forall (fun id => id ∉ seen) ids.
Proof.
  revert seen v. induction ids as [|id ids IH]; intros seen v H; cbn [validateSessionIDs] in H.
  { injection H as <-. split_and!; constructor. }
  tx_inv H. id_norm. apply IH in Hrun1 as (-> & Hnd & Hseen). apply bool_decide_eq_false in Hrun0.
  split_and!; [done|constructor; [|done]|constructor; [done|]].
  - intros Hin. rewrite Forall_forall in Hseen. apply (Hseen _ Hin). set_solver.
  - eapply Forall_impl; [exact Hseen|]. set_solver.
Qed.

Lemma validatePairs_Ok seenS seenC pairs v :
  validatePairs seenS seenC pairs = Ok v -> v = pairs /\ NoDup (pair_SessionID <$> pairs) /\
  NoDup (pair_CommandID <$> pairs) /\ Forall (fun p => pair_SessionID p ∉ seenS /\ pair_CommandID p ∉ seenC) pairs.
Proof.
  revert seenS seenC v. induction pairs as [|p pairs IH]; intros seenS seenC v H; cbn [validatePairs] in H.
  { injection H as <-. split_and!; constructor. }
  tx_inv H. id_norm. apply IH in Hrun3 as (-> & Hs & Hc & Hseen). apply bool_decide_eq_false in Hrun1, Hrun2.
  rewrite Forall_forall in Hseen. rewrite !fmap_cons. split_and!.
  - by destruct p.
  - constructor; [|done]. intros (q & Eq & Hq)%list_elem_of_fmap. destruct (Hseen _ Hq) as [Hn _]. rewrite <- Eq in Hn. set_solver.
  - constructor; [|done]. intros (q & Eq & Hq)%list_elem_of_fmap. destruct (Hseen _ Hq) as [_ Hn]. rewrite <- Eq in Hn. set_solver.
  - constructor; [done|]. apply Forall_forall. intros q [??]%Hseen. set_solver.
Qed.

Lemma validateAllowEmpty_Ok pairs v :
  validateLostRuntimeRecoveryPairsAllowEmpty pairs = Ok v ->
  v = pairs /\ NoDup (pair_SessionID <$> pairs) /\ NoDup (pair_CommandID <$> pairs).
Proof.
  unfold validateLostRuntimeRecoveryPairsAllowEmpty, validateLostRuntimeRecoveryPairs. destruct pairs as [|p pairs]; cbn [is_nil].
  { intros [= <-]. split_and!; constructor. }
  intros H. tx_inv H. apply validatePairs_Ok in H as (? & ? & ? & _). done.
Qed.

Lemma filter_sublist {A} (p : A -> bool) (l : list A) : List.filter p l `sublist_of` l.
Proof. induction l as [|x l IH]; cbn [List.filter]; [done|]. by destruct (p x); constructor. Qed.

(** ** Releasing the selected set *)
Record released_set (pairs : list LostRuntimeRecoveryPair) (sessions : list string) (d d' : DB) : Prop := {
  rs_frame : recovery_frame d d';
  rs_slots : forall id, id ∉ pair_CommandID <$> pairs -> exec_command_slots d' !! id = exec_command_slots d !! id;
  rs_reservations : forall id, id ∉ (pair_SessionID <$> pairs) ++ sessions ->
    exec_capacity_reservations d' !! id = exec_capacity_reservations d !! id;
  rs_pairs : Forall (pair_released d') pairs;
  rs_sessions : Forall (session_released d') sessions;
  rs_kept_pairs : forall p, pair_released d p -> pair_released d' p;
  rs_kept_sessions : forall id, session_released d id -> session_released d' id
}.

Lemma pair_released_frees ids d d' p : frees ids d d' -> pair_released d p -> pair_released d' p.
Proof. intros [_ Hs _ Hk _] [Hsl Hr]. split; [by rewrite Hs|]. by apply Hk. Qed.

Lemma session_released_releases pairs d d' id : releases pairs d d' -> session_released d id -> session_released d' id.
Proof.
  intros [_ _ Hr _ Hl] H. destruct (decide (id ∈ pair_SessionID <$> pairs)) as [Hin|Hin].
  - apply list_elem_of_fmap in Hin as (p & -> & Hp). rewrite Forall_forall in Hl. by destruct (Hl _ Hp).
  - destruct H as (r & Hrow & ?). exists r. by rewrite Hr.
Qed.

Lemma release_set pairs ids d d1 d' : releases pairs d d1 -> frees ids d1 d' -> released_set pairs ids d d'.
Proof.
  intros Hrel Hfr. destruct (Hrel) as [F1 S1 R1 K1 L1], (Hfr) as [F2 S2 O2 K2 L2]. split.
  - by etrans.
  - intros id Hid. rewrite S2. by apply S1.
  - intros id [Hp Hs]%not_elem_of_app. rewrite O2 by done. by apply R1.
  - eapply Forall_impl; [exact L1|]. intros p. by eapply pair_released_frees.
  - done.
  - intros p Hp. eapply pair_released_frees; [done|]. by apply K1.
  - intros id Hid. apply K2. by eapply session_released_releases.
Qed.

Definition nothing_retained (d : DB) : Prop :=
  (forall id sl, exec_command_slots d !! id = Some sl -> releasable_slot sl = false) /\
  (forall id r, exec_capacity_reservations d !! id = Some r -> releasable_reservation r = false).

Lemma released_not_releasable_slot d p sl :
  pair_released d p -> exec_command_slots d !! pair_CommandID p = Some sl -> releasable_slot sl = false.
Proof.
  intros [(sl' & Hsl' & Hstop & _) _] Hsl. rewrite Hsl in Hsl'. injection Hsl' as <-. unfold releasable_slot.
  destruct (sl_stop_confirmed_at sl); [|done]. by rewrite andb_false_r.
Qed.
Lemma released_not_releasable_reservation d id r :
  session_released d id -> exec_capacity_reservations d !! id = Some r -> releasable_reservation r = false.
Proof.
  intros (r' & Hr' & Hstop & _) Hr. rewrite Hr in Hr'. injection Hr' as <-. unfold releasable_reservation.
  destruct (r_cleanup_confirmed_at r); [|done]. by rewrite andb_false_r.
Qed.

(** When the counts match the selection, nothing is retained afterwards. *)
Lemma release_set_complete pairs ids d d' :
  released_set pairs ids d d' -> NoDup (pair_CommandID <$> pairs) -> NoDup ((pair_SessionID <$> pairs) ++ ids) ->
  Forall (pair_retained d) pairs ->
  Forall (fun id => exists r, exec_capacity_reservations d !! id = Some r /\ releasable_reservation r = true) ids ->
  count_unreleased_slots d = Z.of_nat (length pairs) ->
  count_unreleased_reservations d = Z.of_nat (length pairs) + Z.of_nat (length ids) ->
  nothing_retained d'.
Proof.
  intros [_ Hs Hr Hp Hids _ _] Hc Hn Hret Hfree Hcs Hcr. rewrite Forall_forall in Hp. rewrite Forall_forall in Hids. split.
  - intros id sl Hsl. destruct (decide (id ∈ pair_CommandID <$> pairs)) as [Hin|Hin].
    + apply list_elem_of_fmap in Hin as (p & -> & Hin). by eapply released_not_releasable_slot; [apply Hp|].
    + apply not_true_iff_false. intros Ht. apply Hin. rewrite Hs in Hsl by done.
      eapply (count_covered releasable_slot (exec_command_slots d)); try done.
      * apply Forall_fmap. eapply Forall_impl; [exact Hret|]. by intros p [? _].
      * unfold count_unreleased_slots in Hcs. rewrite length_fmap. lia.
  - intros id r Hrow. destruct (decide (id ∈ (pair_SessionID <$> pairs) ++ ids)) as [Hin|Hin].
    + apply elem_of_app in Hin as [(p & -> & Hin)%list_elem_of_fmap|Hin].
      * eapply released_not_releasable_reservation; [|done]. destruct (Hp _ Hin) as [_ ?]. done.
      * eapply released_not_releasable_reservation; [by apply Hids|done].
    + apply not_true_iff_false. intros Ht. apply Hin. rewrite Hr in Hrow by done.
      eapply (count_covered releasable_reservation (exec_capacity_reservations d)); try done.
      * apply Forall_app. split; [|done]. apply Forall_fmap. eapply Forall_impl; [exact Hret|]. by intros p [_ ?].
      * unfold count_unreleased_reservations in Hcr. rewrite length_app, length_fmap. lia.
Qed.

(** What a successful confirmation of a set does. *)
Record confirmed_set (pairs : list LostRuntimeRecoveryPair) (sessions : list string) (d d' : DB) : Prop := {
  cs_set : released_set pairs sessions d d';
  cs_commandless : Forall (commandless d) sessions;
  cs_lost : Forall (lost_command d) pairs;
  cs_complete : d' = d \/ nothing_retained d'
}.

Lemma released_set_subset pairs l ids k d d' :
  released_set l k d d' -> l `sublist_of` pairs -> k `sublist_of` ids ->
  Forall (fun p => p ∈ l \/ pair_released d p) pairs -> Forall (fun id => id ∈ k \/ session_released d id) ids ->
  released_set pairs ids d d'.
Proof.
  intros [F S R P I KP KI] Hl Hk Hp Hi. rewrite Forall_forall in P, Hp. rewrite Forall_forall in I, Hi. split; try done.
  - intros id Hid. apply S. contradict Hid. by eapply elem_of_sublist, fmap_sublist.
  - intros id [Hn1 Hn2]%not_elem_of_app. apply R. apply not_elem_of_app. split.
    + contradict Hn1. by eapply elem_of_sublist, fmap_sublist.
    + contradict Hn2. by eapply elem_of_sublist.
  - apply Forall_forall. intros p Hin. destruct (Hp _ Hin); auto.
  - apply Forall_forall. intros id Hin. destruct (Hi _ Hin); auto.
Qed.

Lemma filter_negb_In (recs : list CommandlessLostRuntimeRecovery) d :
  Forall (fun rec => clr_AlreadyRecovered rec = true -> session_released d (clr_SessionID rec)) recs ->
  Forall (fun id => id ∈ clr_SessionID <$> List.filter (fun rec => negb (clr_AlreadyRecovered rec)) recs \/
    session_released d id) (clr_SessionID <$> recs).
Proof.
  intros H. apply Forall_fmap, Forall_forall. intros rec Hin. rewrite Forall_forall in H. cbn [compose].
  destruct (clr_AlreadyRecovered rec) eqn:E; [right; auto|left].
  apply list_elem_of_fmap_2, list_elem_of_In, filter_In. rewrite E. split; [by apply list_elem_of_In|done].
Qed.

Lemma confirmSet_tx pairs sessions now u d d' :
  NoDup (pair_CommandID <$> pairs) -> NoDup ((pair_SessionID <$> pairs) ++ sessions) ->
  (unreleasedPairs ← retainedPairs false pairs;
   commandless ← readCommandlessLostRuntimeRecoveryBatch sessions;
   let unreleasedSessions := List.filter (fun recovery => negb (clr_AlreadyRecovered recovery)) commandless in
   if is_nil unreleasedPairs && is_nil unreleasedSessions then mret tt
   else
     liveSlots ← query count_unreleased_slots;
     liveReservations ← query count_unreleased_reservations;
     fail_if (negb (liveSlots =? Z.of_nat (length unreleasedPairs))
              || negb (liveReservations =? Z.of_nat (length unreleasedPairs) + Z.of_nat (length unreleasedSessions)))
       ErrLostRuntimeRecoveryNotReleasable;;
     releasePairs now unreleasedPairs;;
     releaseCommandless now unreleasedSessions : tx unit) d = Ok (u, d') ->
  confirmed_set pairs sessions d d'.
Proof.
  intros Hnc Hns H. apply stx_bind_Ok in H as (l & d1 & Hl & H).
  destruct (retainedPairs_sound _ _ _ _ _ Hl) as (Hsub & Hall & Hlost). pose proof (retainedPairs_retained _ _ _ _ _ Hl) as Hret.
  apply read_only in Hl as ->. apply stx_bind_Ok in H as (recs & d1 & [-> Hrecs]%read_each_records & H); [|apply _].
  apply commandlessBatch_Ok in Hrecs as (<- & Hcl & Hdone & Hfree). cbv zeta in H.
  set (un := List.filter _ recs) in H. set (k := clr_SessionID <$> un).
  assert (k `sublist_of` clr_SessionID <$> recs) as Hk by apply fmap_sublist, filter_sublist.
  assert (Forall (lost_command d) pairs) as Hlc.
  { eapply Forall_impl; [exact Hlost|]. intros p (c & _ & Hc & Hst & _). by exists c. }
  assert (Forall (fun id => id ∈ k \/ session_released d id) (clr_SessionID <$> recs)) as Hor by by apply filter_negb_In.
  destruct (is_nil l && is_nil un) eqn:En.
  { apply andb_true_iff in En as [El Eu]. destruct l; [|done]. tx_inv H. split; [|done|done|by left].
    apply (released_set_subset _ [] _ k); [|done..]. unfold k. destruct un; [|done].
    by apply (release_set [] [] _ d'); [split|apply frees_nil]. }
  apply stx_bind_Ok in H as (n1 & d1 & [<- <-]%query_Ok & H). apply stx_bind_Ok in H as (n2 & d1 & [<- <-]%query_Ok & H).
  apply stx_bind_Ok in H as ([] & d1 & (_ & Hcount & <-)%fail_if_Ok & H). bool_norm.
  apply stx_bind_Ok in H as ([] & d1 & Hrel%releasePairs_releases & Hfr%releaseCommandless_frees).
  pose proof (release_set _ _ _ _ _ Hrel Hfr) as Hset. split; [|done|done|right].
  - by eapply released_set_subset.
  - eapply release_set_complete; [exact Hset|..]; try done.
    + eapply sublist_NoDup; [exact Hnc|by apply fmap_sublist].
    + eapply sublist_NoDup; [exact Hns|]. by apply sublist_app; [apply fmap_sublist|].
    + apply Forall_fmap, Forall_forall. intros rec [Hin Hn]%list_elem_of_In%filter_In. rewrite Forall_forall in Hfree.
      apply Hfree; [by apply list_elem_of_In|by apply negb_true_iff].
    + rewrite length_fmap. done.
Qed.

(** Confirming the recovery of a set of lost command pairs and commandless
    lost sessions is all or nothing.  On success the slot and the reservation of
    every selected pair and the reservation of every selected session are
    released, each selected session was lost before any command of it existed,
    no other slot or reservation changes and no session, command, event, job or
    binding is touched; and unless everything was released before, no capacity
    at all is retained afterwards.  On failure the store is unchanged. *)
Theorem recovery_set_all_or_nothing s now pairs sessions r s' :
  ConfirmLostRuntimeRecoverySet s now pairs sessions = (r, s') ->
  match r with
  | Ok _ => confirmed_set pairs sessions (db s) (db s')
  | Err _ => s' = s
  end.
Proof.
  unfold ConfirmLostRuntimeRecoverySet.
  destruct (validateLostRuntimeRecoveryPairsAllowEmpty pairs) as [vp|] eqn:Hvp; cbn [with_valid]; [|by intros [= <- <-]].
  unfold validateCommandlessLostRuntimeRecoverySessionsAllowEmpty.
  destruct (validateSessionIDs [] sessions) as [vs|] eqn:Hvs; cbn [with_valid]; [|by intros [= <- <-]].
  apply validateAllowEmpty_Ok in Hvp as (-> & Hs & Hc). apply validateSessionIDs_Ok in Hvs as (-> & Hn & _).
  destruct (refuse_if (is_nil pairs && is_nil sessions) _) as [[]|]; cbn [with_valid]; [|by intros [= <- <-]].
  destruct (existsb _ sessions) eqn:Hex; cbn [refuse_if with_valid]; [by intros [= <- <-]|].
  intros H. destruct r as [u|e]; [|by apply withImmediateTransaction_Err in H as [_ ->]].
  apply withImmediateTransaction_Ok in H as (d' & E & ->). cbn [db store_db].
  eapply confirmSet_tx; [exact Hc| |exact E]. apply NoDup_app. split_and!; [done| |done].
  intros x Hx Hin. apply not_true_iff_false in Hex. apply Hex. apply existsb_exists. exists x.
  split; [by apply list_elem_of_In|by apply bool_decide_eq_true].
Qed.

(** ** The mixed inventory *)
Lemma parseOptional_same e o t d d' : parseOptional e o d = Ok (t, d') -> is_Some_b t = is_Some_b o.
Proof. destruct o as [x|]; cbn [parseOptional]; intros H; by tx_inv H. Qed.

Lemma tx_or_Ok {A} (m : tx A) e a d d' : tx_or m e d = Ok (a, d') <-> m d = Ok (a, d').
Proof. unfold tx_or. destruct (m d) as [[]|]; naive_solver. Qed.

Lemma readReservation_row id r d d' :
  readReservationOnConnection id d = Ok (r, d') -> exists row, exec_capacity_reservations d !! id = Some row /\
    is_Some_b (res_CleanupConfirmedAt r) = is_Some_b (r_cleanup_confirmed_at row) /\
    is_Some_b (res_ReleasedAt r) = is_Some_b (r_released_at row).
Proof.
  unfold readReservationOnConnection. intros H. tx_inv H. apply parseOptional_same in Hrun2, Hrun3. by eexists.
Qed.

Lemma is_Some_b_true {A} (o : option A) : is_Some_b o = true <-> o <> None.
Proof. by destruct o. Qed.

Lemma readTeardown_Ok p rec d d' :
  readCompletedTeardownRecovery p d = Ok (rec, d') ->
  tr_Pair rec = p /\ (tr_AlreadyRecovered rec = true -> session_released d (tp_SessionID p)) /\
  exists s c jid j, exec_sessions d !! tp_SessionID p = Some s /\ exec_commands d !! tp_CommandID p = Some c /\
    exec_jobs d !! jid = Some j /\ teardown_lost d (tp_CommandID p) (tp_SessionID p) s c j = true.
Proof.
  unfold readCompletedTeardownRecovery. cbv zeta. intros H.
  apply stx_bind_Ok in H as (x & d1 & [<- <-]%query_Ok & H).
  apply stx_bind_Ok in H as (s & d1 & [Hs <-]%or_fail_Ok & H).
  apply stx_bind_Ok in H as (c & d1 & [Hc <-]%or_fail_Ok & H).
  apply stx_bind_Ok in H as ([jid j] & d1 & [Hj <-]%or_fail_Ok & H). apply session_job_Some in Hj as [Hj _].
  apply stx_bind_Ok in H as ([] & d1 & (_ & Hl & <-)%fail_if_Ok & H). apply negb_false_iff in Hl. cbn [fst snd] in H, Hl.
  apply stx_bind_Ok in H as ([] & d1 & (_ & _ & <-)%fail_if_Ok & H).
  apply stx_bind_Ok in H as (sr & d1 & ->%read_only & H). apply stx_bind_Ok in H as (cr & d1 & ->%read_only & H).
  apply stx_bind_Ok in H as (sl & d1 & ->%read_only & H).
  apply stx_bind_Ok in H as ([] & d1 & (_ & _ & <-)%fail_if_Ok & H).
  apply stx_bind_Ok in H as (res & d1 & Hres & H). apply tx_or_Ok, readReservation_row in Hres as (row & Hrow & E1 & E2).
  apply stx_bind_Ok in H as ([] & d2 & (_ & Hx & <-)%fail_if_Ok & H). apply orb_false_iff in Hx as [_ Hx].
  apply stx_bind_Ok in H as ([] & d2 & (_ & _ & <-)%fail_if_Ok & H). tx_inv H. cbn [tr_Pair tr_AlreadyRecovered].
  split; [done|]. split; [|by exists s, c, jid, j]. intros Ht. exists row. rewrite <- !is_Some_b_true, <- E1, <- E2.
  rewrite Ht in Hx |- *. by destruct (is_Some_b (res_ReleasedAt res)).
Qed.

Definition lost_teardown (d : DB) (p : CompletedTeardownRecoveryPair) : Prop :=
  exists s c jid j, exec_sessions d !! tp_SessionID p = Some s /\ exec_commands d !! tp_CommandID p = Some c /\
    exec_jobs d !! jid = Some j /\ teardown_lost d (tp_CommandID p) (tp_SessionID p) s c j = true.

Lemma teardownBatch_Ok pairs recs d :
  Forall2 (fun p rec => readCompletedTeardownRecovery p d = Ok (rec, d)) pairs recs ->
  teardown_session <$> recs = tp_SessionID <$> pairs /\ Forall (lost_teardown d) pairs /\
  Forall (fun id => id ∈ teardown_session <$> List.filter (fun r => negb (tr_AlreadyRecovered r)) recs \/
    session_released d id) (tp_SessionID <$> pairs).
Proof.
  induction 1 as [|p rec pairs recs (Hp & Ht & Hl)%readTeardown_Ok _ (IH1 & IH2 & IH3)]; [done|].
  rewrite !fmap_cons, IH1. cbn [List.filter]. split_and!; [|by constructor|].
  - f_equal. unfold teardown_session. by rewrite Hp.
  - constructor.
    + destruct (tr_AlreadyRecovered rec); [right; auto|left]. cbn [negb]. rewrite fmap_cons.
      unfold teardown_session at 1. rewrite Hp. set_solver.
    + eapply Forall_impl; [exact IH3|]. intros id [Hid|Hid]; [left|by right].
      destruct (tr_AlreadyRecovered rec); cbn [negb]; [done|]. rewrite fmap_cons. set_solver.
Qed.

Lemma mixedBatch_Ok pairs recs d :
  Forall2 (fun p rec => readMixedLost p d = Ok (rec, d)) pairs recs ->
  ml_Pair <$> recs = pairs /\
  Forall (fun p => p ∈ ml_Pair <$> List.filter (fun r => negb (ml_AlreadyRecovered r)) recs \/ pair_released d p) pairs.
Proof.
  induction 1 as [|p rec pairs recs H _ [IH1 IH2]]; [done|]. unfold readMixedLost in H.
  apply stx_bind_Ok in H as (b & d1 & Hb & H).
  apply checkPair_Ok in Hb as (-> & c & r & sl & res & _ & _ & _ & _ & _ & Hsl & Hres & Htrue & _).
  tx_inv H. rewrite !fmap_cons. cbn [List.filter ml_Pair ml_AlreadyRecovered]. split; [done|]. constructor.
  - destruct b; [right|left; set_solver]. destruct (Htrue eq_refl) as (? & ? & ? & ?). split; eauto.
  - eapply Forall_impl; [exact IH2|]. intros q [Hq|Hq]; [left|by right]. destruct b; set_solver.
Qed.

(** No slot or reservation is open. *)
Definition nothing_open (d : DB) : Prop :=
  (forall id sl, exec_command_slots d !! id = Some sl -> open_slot sl = false) /\
  (forall id r, exec_capacity_reservations d !! id = Some r -> open_reservation r = false).

Lemma selected_rows {A} (open : A -> bool) (refused : string * A -> bool) (t : gmap string A) (selected : list string) :
  (forall id r, refused (id, r) = false -> id ∈ selected) ->
  existsb refused (filter (fun '(_, r) => open r = true) (map_to_list t)) = false ->
  forall id r, t !! id = Some r -> open r = true -> id ∈ selected.
Proof.
  intros Hsel Hex id r Hr Ho. apply (Hsel id r). apply not_true_iff_false. intros Ht.
  apply not_true_iff_false in Hex. apply Hex, existsb_exists. exists (id, r). split; [|done].
  apply list_elem_of_In, list_elem_of_filter. split; [done|]. by apply elem_of_map_to_list.
Qed.

Lemma release_set_open pairs ids d d' :
  released_set pairs ids d d' ->
  (forall id sl, exec_command_slots d !! id = Some sl -> open_slot sl = true -> id ∈ pair_CommandID <$> pairs) ->
  (forall id r, exec_capacity_reservations d !! id = Some r -> open_reservation r = true ->
     id ∈ (pair_SessionID <$> pairs) ++ ids) -> nothing_open d'.
Proof.
  intros [_ Hs Hr Hp Hids _ _] Hslots Hres. rewrite Forall_forall in Hp. rewrite Forall_forall in Hids. split.
  - intros id sl Hsl. destruct (decide (id ∈ pair_CommandID <$> pairs)) as [Hin|Hin].
    + apply list_elem_of_fmap in Hin as (p & -> & [(sl' & Hsl' & H1 & H2) _]%Hp). rewrite Hsl in Hsl'. injection Hsl' as <-.
      unfold open_slot. by destruct (sl_stop_confirmed_at sl), (sl_released_at sl).
    + rewrite Hs in Hsl by done. apply not_true_iff_false. contradict Hin. by eapply Hslots.
  - intros id r Hrow. destruct (decide (id ∈ (pair_SessionID <$> pairs) ++ ids)) as [Hin|Hin].
    + assert (session_released d' id) as (r' & Hr' & H1 & H2).
      { apply elem_of_app in Hin as [(p & -> & Hin)%list_elem_of_fmap|Hin]; [|by apply Hids]. by destruct (Hp _ Hin). }
      rewrite Hrow in Hr'. injection Hr' as <-. unfold open_reservation.
      by destruct (r_cleanup_confirmed_at r), (r_released_at r).
    + rewrite Hr in Hrow by done. apply not_true_iff_false. contradict Hin. by eapply Hres.
Qed.

Lemma validateTeardown_Ok pairs v : validateCompletedTeardownRecoveryPairs pairs = Ok v -> v = pairs.
Proof. unfold validateCompletedTeardownRecoveryPairs. intros H. by tx_inv H. Qed.

Lemma validateMixed_Ok lost teardown v : validateMixedRuntimeRecoverySelection lost teardown = Ok v -> v = (lost, teardown).
Proof.
  unfold validateMixedRuntimeRecoverySelection. intros H. apply result_bind_Ok in H as ([] & _ & H).
  apply result_bind_Ok in H as (vl & Hl & H). apply result_bind_Ok in H as (vt & Ht & H).
  apply result_bind_Ok in H as ([] & _ & [= <-]). f_equal.
  - apply validateAllowEmpty_Ok in Hl. by destruct Hl.
  - destruct teardown; cbn [is_nil] in Ht; [by injection Ht|by apply validateTeardown_Ok].
Qed.

Lemma mixedSet_selected lost teardown set_ d d' :
  readMixedRuntimeRecoverySet lost teardown d = Ok (set_, d') ->
  active_rows d = 0%nat /\
  (forall id sl, exec_command_slots d !! id = Some sl -> open_slot sl = true -> id ∈ pair_CommandID <$> lost) /\
  (forall id r, exec_capacity_reservations d !! id = Some r -> open_reservation r = true ->
     id ∈ (pair_SessionID <$> lost) ++ (tp_SessionID <$> teardown)).
Proof.
  unfold readMixedRuntimeRecoverySet. cbv zeta. intros H.
  apply stx_bind_Ok in H as (l & d1 & ->%read_only & H). apply stx_bind_Ok in H as (t & d1 & ->%read_only & H).
  apply stx_bind_Ok in H as (n & d1 & [<- <-]%query_Ok & H).
  apply stx_bind_Ok in H as ([] & d1 & (_ & Hn & <-)%fail_if_Ok & H). apply negb_false_iff, Nat.eqb_eq in Hn.
  apply stx_bind_Ok in H as (slots & d1 & [<- <-]%query_Ok & H).
  apply stx_bind_Ok in H as ([] & d1 & (_ & Hslots & <-)%fail_if_Ok & H).
  apply stx_bind_Ok in H as ([] & d1 & (_ & _ & <-)%fail_if_Ok & H).
  apply stx_bind_Ok in H as (rows & d1 & [<- <-]%query_Ok & H).
  apply stx_bind_Ok in H as ([] & d1 & (_ & Hres & <-)%fail_if_Ok & H). split_and!; [done|..].
  - eapply selected_rows; [|exact Hslots]. unfold refused_slot. intros id r ?. by bool_norm.
  - eapply selected_rows; [|exact Hres]. unfold refused_reservation. intros id r ?. by bool_norm.
Qed.


(** ** Settlement *)

(** The command of the job was cancelled before it started, its session is closed
    and its capacity is released. *)
Record cancelled_before_start (d : DB) (id : string) (j : JobRow) (s : SessionRow) (c : CommandRow) (r : ReservationRow)
    : Prop := {
  cb_ids : id <> "" /\ j_session_id j <> "" /\ j_command_id j <> "";
  cb_rows : exec_sessions d !! j_session_id j = Some s /\ exec_commands d !! j_command_id j = Some c /\
    exec_capacity_reservations d !! j_session_id j = Some r;
  cb_states : c_session_id c = j_session_id j /\ s_state s = SessionStateClosed /\ c_state c = CommandStateCancelled;
  cb_result : c_exit_code c = None /\ c_final_event_sequence c = Some 2 /\ c_output_truncated c = false /\
    c_output_complete c = true;
  cb_reservation : r_host_key r = reservationHostKey /\ r_cleanup_confirmed_at r <> None /\ r_released_at r <> None;
  cb_slot : forall sl, exec_command_slots d !! j_command_id j = Some sl ->
    sl_host_key sl = schedulerHostKey /\ sl_stop_confirmed_at sl <> None /\ sl_released_at sl <> None;
  cb_siblings : existsb (fun '(cid, row) => negb (bool_decide (cid = j_command_id j)) && nonterminal_command row)
    (session_commands (j_session_id j) d) = false;
  cb_events : exists e1 e2, merge_sort event_le (rows_of (exec_command_events d) (j_command_id j)) = [e1; e2] /\
    e_sequence e1 = 1 /\ e_type e1 = command_queued /\ e_sequence e2 = 2 /\ e_type e2 = command_cancelled
}.

Definition settleable (j : JobRow) : Prop :=
  if bool_decide (j_phase j = JobPhaseComplete) then settled_job 2 j = true
  else j_phase j = JobPhaseAwaitingCommand /\ j_teardown_state j = JobTeardownPending.

Lemma queuedThenCancelled_Ok id u d d' :
  requireExactlyQueuedThenCancelledEvents id d = Ok (u, d') <->
  d' = d /\ exists e1 e2, merge_sort event_le (rows_of (exec_command_events d) id) = [e1; e2] /\
    e_sequence e1 = 1 /\ e_type e1 = command_queued /\ e_sequence e2 = 2 /\ e_type e2 = command_cancelled.
Proof.
  unfold requireExactlyQueuedThenCancelledEvents. rewrite stx_bind_Ok. split.
  - intros (rows & d1 & [<- <-]%query_Ok & (_ & Hf & <-)%fail_if_Ok). split; [done|].
    destruct (merge_sort _ _) as [|e1 [|e2 [|]]]; try done. exists e1, e2. by bool_norm.
  - intros (-> & e1 & e2 & E & H1 & H2 & H3 & H4). exists [e1; e2], d. split; [by apply query_Ok|].
    rewrite H1, H2, H3, H4. by destruct u.
Qed.

Lemma candidate_Ok id cand d d' :
  readClosedCancelledJobSettlementCandidate id d = Ok (cand, d') ->
  d' = d /\ exists j s c r, exec_jobs d !! id = Some j /\ cancelled_before_start d id j s c r /\ settleable j /\
    cand = mkSettlementCandidate id (j_session_id j) (j_command_id j) 2 (bool_decide (j_phase j = JobPhaseComplete)).
Proof.
  unfold readClosedCancelledJobSettlementCandidate. cbv zeta. intros H. tx_inv H. id_norm.
  apply queuedThenCancelled_Ok in Hrun11 as [-> Hev]. split; [done|]. exists a, a0, a1, a2. split; [done|].
  split; [|split; [|done]].
  - bool_norm. split; try done.
    + split_and!; try done. by destruct (c_exit_code a1).
    + by rewrite <- !is_Some_b_true.
    + intros sl Hsl. rewrite Hsl in Hrun9. bool_norm.
      by destruct (sl_stop_confirmed_at sl), (sl_released_at sl).
  - unfold settleable. destruct (bool_decide (j_phase a = JobPhaseComplete)); cbn in Hrun12, Hrun13; by bool_norm.
Qed.

Lemma candidate_run id d j s c r :
  exec_jobs d !! id = Some j -> cancelled_before_start d id j s c r -> settleable j ->
  readClosedCancelledJobSettlementCandidate id d =
    Ok (mkSettlementCandidate id (j_session_id j) (j_command_id j) 2 (bool_decide (j_phase j = JobPhaseComplete)), d).
Proof.
  intros Hj [(I1 & I2 & I3) (R1 & R2 & R3) (S1 & S2 & S3) (Q1 & Q2 & Q3 & Q4) (V1 & V2%is_Some_b_true & V3%is_Some_b_true) Hsl Hsib Hev] Hse.
  unfold readClosedCancelledJobSettlementCandidate. cbv zeta. tx_run. rewrite Hj. tx_run. rewrite R1. tx_run. rewrite R2. tx_run.
  rewrite R3. tx_run. rewrite (proj2 (NewJobID_Ok _ _) (conj eq_refl I1)), (proj2 (NewSessionID_Ok _ _) (conj eq_refl I2)),
    (proj2 (NewCommandID_Ok _ _) (conj eq_refl I3)). cbn [result_map_err]. tx_run.
  rewrite (bool_decide_eq_true_2 _ S1), (bool_decide_eq_true_2 _ S2), (bool_decide_eq_true_2 _ S3). cbn [negb orb]. tx_run.
  rewrite Q1, (bool_decide_eq_true_2 _ Q2), Q3, Q4. cbn [negb orb is_Some_b]. tx_run.
  rewrite (bool_decide_eq_true_2 _ V1), V2, V3. cbn [negb orb]. tx_run.
  assert (match exec_command_slots d !! j_command_id j with
    | Some sl => negb (bool_decide (sl_host_key sl = schedulerHostKey))
                 || xorb (is_Some_b (sl_stop_confirmed_at sl)) (is_Some_b (sl_released_at sl))
                 || negb (is_Some_b (sl_stop_confirmed_at sl))
    | None => false end = false) as ->.
  { destruct (exec_command_slots d !! j_command_id j) as [sl|]; [|done].
    destruct (Hsl _ eq_refl) as (-> & Hs1 & Hs2). rewrite bool_decide_eq_true_2 by done.
    by destruct (sl_stop_confirmed_at sl), (sl_released_at sl). }
  tx_run. rewrite Hsib. tx_run.
  rewrite (stx_bind_run _ _ _ tt d (proj2 (queuedThenCancelled_Ok _ _ _ _) (conj eq_refl Hev))).
  unfold settleable in Hse. destruct (bool_decide (j_phase j = JobPhaseComplete)); cbn [negb andb].
  - rewrite Hse. done.
  - destruct Hse as [-> ->]. by rewrite !bool_decide_eq_true_2 by done.
Qed.

(** The row a candidate leaves behind. *)
Definition settled_row (now : Z) (c : closedCancelledJobSettlementCandidate) (j : JobRow) : JobRow :=
  if cand_alreadySettled c then j else job_settled (cand_finalEventSequence c) now j.

Lemma settleCandidates_Ok now cs u d d' :
  settleCandidates now cs d = Ok (u, d') -> NoDup (cand_job <$> cs) ->
  d' = set_jobs (exec_jobs d') d /\
  (forall id, id ∉ cand_job <$> cs -> exec_jobs d' !! id = exec_jobs d !! id) /\
  Forall (fun c => exec_jobs d' !! cand_job c = settled_row now c <$> exec_jobs d !! cand_job c) cs.
Proof.
  revert u d. induction cs as [|c cs IH]; intros u d H Hnd; cbn [settleCandidates] in H.
  { tx_inv H. split_and!; [by destruct d'|done|constructor]. }
  rewrite fmap_cons in Hnd |- *. apply NoDup_cons in Hnd as [Hc Hnd].
  apply stx_bind_Ok in H as ([] & d1 & H1 & H). apply IH in H as (E & Hother & Hall); [|done].
  assert (d1 = set_jobs (exec_jobs d1) d /\ exec_jobs d1 !! cand_job c = settled_row now c <$> exec_jobs d !! cand_job c /\
    forall id, id <> cand_job c -> exec_jobs d1 !! id = exec_jobs d !! id) as (E1 & Hrow & Hne).
  { unfold settled_row. destruct (cand_alreadySettled c).
    { tx_inv H1. split_and!; [by destruct d1|by destruct (_ !! _)|done]. }
    apply stx_bind_Ok in H1 as (n & d2 & Hu & (_ & Hn & <-)%fail_if_Ok).
    apply update_job_Ok in Hu as [(j & Hj & _ & _ & _ & ->)|(-> & _)]; [|done]. unfold put_job in *. db_simpl. split_and!; [done|..].
    - by rewrite lookup_insert_eq, Hj.
    - intros id Hne. by apply lookup_insert_ne. }
  split_and!.
  - by rewrite E, E1.
  - intros id [Hid1 Hid2]%not_elem_of_cons. rewrite Hother by done. by apply Hne.
  - constructor; [by rewrite Hother|]. apply Forall_forall. intros x Hx. rewrite Forall_forall in Hall.
    rewrite (Hall _ Hx). f_equal. apply Hne. intros Eq. apply Hc. rewrite <- Eq. by apply list_elem_of_fmap_2.
Qed.

Lemma validateJobIDs_Ok seen ids v :
  validateJobIDs seen ids = Ok v -> v = ids /\ NoDup ids /\ Forall (fun id => id ∉ seen) ids.
Proof.
  revert seen v. induction ids as [|id ids IH]; intros seen v H; cbn [validateJobIDs] in H.
  { injection H as <-. split_and!; constructor. }
  tx_inv H. id_norm. apply IH in Hrun1 as (-> & Hnd & Hseen). apply bool_decide_eq_false in Hrun0.
  split_and!; [done|constructor; [|done]|constructor; [done|]].
  - intros Hin. rewrite Forall_forall in Hseen. apply (Hseen _ Hin). set_solver.
  - eapply Forall_impl; [exact Hseen|]. set_solver.
Qed.

Definition candidate_of (id : string) (j : JobRow) : closedCancelledJobSettlementCandidate :=
  mkSettlementCandidate id (j_session_id j) (j_command_id j) 2 (bool_decide (j_phase j = JobPhaseComplete)).

(** The selected jobs and their candidates. *)
Definition candidates_of (d : DB) (ids : list string) (cs : list closedCancelledJobSettlementCandidate) : Prop :=
  Forall2 (fun id c => exists j s cmd r, exec_jobs d !! id = Some j /\ cancelled_before_start d id j s cmd r /\
    settleable j /\ c = candidate_of id j) ids cs.

Lemma candidates_Ok ids cs d d' :
  read_each readClosedCancelledJobSettlementCandidate ids d = Ok (cs, d') <-> d' = d /\ candidates_of d ids cs.
Proof.
  split.
  - intros [-> H]%read_each_records; [|apply _]. split; [done|]. eapply Forall2_impl; [exact H|].
    intros id c (_ & j & s & cmd & r & ?)%candidate_Ok. by exists j, s, cmd, r.
  - intros [-> H]. induction H as [|id c ids cs (j & s & cmd & r & Hj & Hcb & Hse & ->) _ IH]; [done|].
    cbn [read_each]. rewrite (stx_bind_run _ _ _ _ _ (candidate_run _ _ _ _ _ _ Hj Hcb Hse)).
    by rewrite (stx_bind_run _ _ _ _ _ IH).
Qed.

Lemma candidates_ids d ids cs : candidates_of d ids cs -> cand_job <$> cs = ids.
Proof. induction 1 as [|id c ids cs (j & _ & _ & _ & _ & _ & _ & ->) _ IH]; [done|]. by rewrite fmap_cons, IH. Qed.

Definition already_settled (result : ClosedCancelledJobSettlement) : ClosedCancelledJobSettlement :=
  mkClosedCancelledJobSettlement (cj_JobID result) (cj_SessionID result) (cj_CommandID result) true.

Lemma settled_again d ids cs now d' :
  candidates_of d ids cs -> d' = set_jobs (exec_jobs d') d ->
  Forall (fun c => exec_jobs d' !! cand_job c = settled_row now c <$> exec_jobs d !! cand_job c) cs ->
  exists cs', candidates_of d' ids cs' /\ Forall (fun c => cand_alreadySettled c = true) cs' /\
    closedCancelledJobSettlementResults cs' = already_settled <$> closedCancelledJobSettlementResults cs.
Proof.
  intros H E. induction H as [|id c ids cs (j & s & cmd & r & Hj & Hcb & Hse & ->) _ IH]; intros Hall.
  { exists []. split_and!; [constructor..|done]. }
  apply Forall_cons in Hall as [Hrow Hall]. destruct (IH Hall) as (cs' & H1 & H2 & H3). cbn [candidate_of cand_job] in Hrow.
  rewrite Hj in Hrow. cbn [fmap option_fmap option_map] in Hrow. set (j' := settled_row now _ j) in Hrow.
  assert (j_session_id j' = j_session_id j /\ j_command_id j' = j_command_id j /\ j_phase j' = JobPhaseComplete /\
    settled_job 2 j' = true) as (Es & Ec & Ep & Est).
  { unfold j', settled_row, settleable in *. cbn [candidate_of cand_alreadySettled]. case_bool_decide; done. }
  exists (candidate_of id j' :: cs'). split_and!.
  - constructor; [|done]. exists j', s, cmd, r. split_and!; [done| |by unfold settleable; rewrite bool_decide_eq_true_2|done].
    rewrite E. destruct Hcb. split; rewrite ?Es, ?Ec; done.
  - constructor; [|done]. cbn [candidate_of cand_alreadySettled]. by apply bool_decide_eq_true.
  - unfold closedCancelledJobSettlementResults in *. rewrite !fmap_cons, H3. unfold candidate_of, already_settled.
    cbn. rewrite Es, Ec, bool_decide_eq_true_2 by done. done.
Qed.

Lemma settle_nothing now cs d : Forall (fun c => cand_alreadySettled c = true) cs -> settleCandidates now cs d = Ok (tt, d).
Proof. induction 1 as [|c cs Hc _ IH]; [done|]. cbn [settleCandidates]. rewrite Hc. tx_run. done. Qed.

(** A successful settlement, in terms of the candidates. *)
Lemma Settle_Ok s now ids results s' :
  SettleClosedCancelledOneOffJobs s now ids = (Ok results, s') ->
  validateClosedCancelledJobSettlementIDs ids = Ok ids /\ exists cs, candidates_of (db s) ids cs /\
    results = closedCancelledJobSettlementResults cs /\ s' = store_db s (db s') /\
    db s' = set_jobs (exec_jobs (db s')) (db s) /\
    (forall id, id ∉ ids -> exec_jobs (db s') !! id = exec_jobs (db s) !! id) /\
    Forall (fun c => exec_jobs (db s') !! cand_job c = settled_row now c <$> exec_jobs (db s) !! cand_job c) cs.
Proof.
  unfold SettleClosedCancelledOneOffJobs. destruct (validateClosedCancelledJobSettlementIDs ids) as [v|] eqn:Hv; [|done].
  cbn [with_valid]. intros H. unfold validateClosedCancelledJobSettlementIDs in Hv. apply result_bind_Ok in Hv as ([] & _ & Hv).
  apply validateJobIDs_Ok in Hv as (-> & Hnd & _). split; [done|].
  apply withImmediateTransaction_Ok in H as (d' & E & ->). cbn [db store_db].
  apply stx_bind_Ok in E as (cs & d1 & [-> Hcs]%candidates_Ok & E). apply stx_bind_Ok in E as ([] & d2 & H2 & E). tx_inv E.
  rewrite <- (candidates_ids _ _ _ Hcs) in Hnd. apply settleCandidates_Ok in H2 as (E1 & E2 & E3); [|done].
  rewrite (candidates_ids _ _ _ Hcs) in E2. by exists cs.
Qed.

(** Settling cancelled one-off jobs completes exactly the selected jobs: each
    was either settled before or awaited a command that was cancelled before it
    started, in a closed session whose capacity is released, and is complete with
    the cancelled result afterwards; nothing else of the database changes.
    Repeating the settlement at any time reports the same jobs as already settled
    and changes nothing. *)
Theorem settlement_is_exact_and_repeatable s now ids results s' :
  SettleClosedCancelledOneOffJobs s now ids = (Ok results, s') ->
  (forall id, id ∈ ids -> exists j j' ses c r, exec_jobs (db s) !! id = Some j /\ exec_jobs (db s') !! id = Some j' /\
     cancelled_before_start (db s) id j ses c r /\ settleable j /\ same_job j j' /\
     j_phase j' = JobPhaseComplete /\ settled_job 2 j' = true) /\
  (forall id, id ∉ ids -> exec_jobs (db s') !! id = exec_jobs (db s) !! id) /\
  s' = store_db s (set_jobs (exec_jobs (db s')) (db s)) /\
  forall later, SettleClosedCancelledOneOffJobs s' later ids = (Ok (already_settled <$> results), s').
Proof.
  intros H. apply Settle_Ok in H as (Hv & cs & Hcs & -> & Es & Ed & Hother & Hall). split_and!; [|done|by rewrite <- Ed|].
  - intros id Hin. apply list_elem_of_lookup in Hin as [i Hi]. destruct (Forall2_lookup_l _ _ _ _ _ Hcs Hi)
      as (c & Hc & j & ses & cmd & r & Hj & Hcb & Hse & ->). rewrite Forall_lookup in Hall. specialize (Hall _ _ Hc).
    cbn [candidate_of cand_job] in Hall. rewrite Hj in Hall. cbn [fmap option_fmap option_map] in Hall.
    eexists j, _, ses, cmd, r. split_and!; [done|exact Hall|done|done|..];
      unfold settled_row, settleable, candidate_of in *; cbn [cand_alreadySettled cand_finalEventSequence] in *;
      case_bool_decide; try done; by apply settled_same.
  - intros later. destruct (settled_again _ _ _ _ _ Hcs Ed Hall) as (cs' & H1 & H2 & H3).
    unfold SettleClosedCancelledOneOffJobs. rewrite Hv. cbn [with_valid]. unfold withImmediateTransaction.
    rewrite (stx_bind_run _ _ _ cs' (db s') (proj2 (candidates_Ok _ _ _ _) (conj eq_refl H1))).
    rewrite (stx_bind_run _ _ _ _ _ (settle_nothing later cs' _ H2)). cbn. rewrite H3. by destruct s'.
Qed.

(** ** Witnesses *)

(** A one-off job up to its queued command. *)
Definition probe_checkpoint (expected next : JobPhase) (command : option CommandRecord) : JobCheckpoint :=
  mkJobCheckpoint expected next command None "".
Definition stored_command (s : AuthorityStore) (id : string) : option CommandRecord :=
  match GetCommand s id with Ok r => Some r | Err _ => None end.

Definition oneoff_submitted : AuthorityStore := Eval vm_compute in
  runs [ (t0 + 2 * second, OpCompleteSessionCreation "s1" SessionStateReady "gen-1" "" "runtime_ready");
         (t0 + 3 * second, OpCheckpointJob "j1" (probe_checkpoint JobPhaseCreatingSession JobPhaseAcceptingCommand None));
         (t0 + 4 * second, OpAcceptCommand (mkCommandAcceptance "c1" "s1" (example_hash "e") "k1" 0
            catalogMaintenanceProbeScript minute 0 None)) ] probe_state.
Definition oneoff_awaiting : AuthorityStore := Eval vm_compute in
  run oneoff_submitted (t0 + 5 * second)
    (OpCheckpointJob "j1" (probe_checkpoint JobPhaseAcceptingCommand JobPhaseAwaitingCommand (stored_command oneoff_submitted "c1"))).

(** The command is cancelled while it is queued and the session is closed. *)
Definition oneoff_cancelled : AuthorityStore := Eval vm_compute in
  runs [ (t0 + 6 * second, OpTransitionCommand (mkCommandTransition "c1" CommandStateCancelled None true false));
         (t0 + 7 * second, OpTransitionSession "s1" SessionStateClosing "session_closing");
         (t0 + 8 * second, OpTransitionSession "s1" SessionStateClosed "session_closed");
         (t0 + 9 * second, OpConfirmSessionCleanup "s1") ] oneoff_awaiting.


(** The command succeeds and the teardown of its session is lost. *)
Definition oneoff_finished : AuthorityStore := Eval vm_compute in
  runs [ (t0 + 6 * second, OpStartNext 0 true);
         (t0 + 7 * second, OpCompleteRunningCommand example_success SessionStateLost "runtime_lost" true) ] oneoff_awaiting.
Definition oneoff_teardown_lost : AuthorityStore := Eval vm_compute in
  run oneoff_finished (t0 + 8 * second)
    (OpCheckpointJob "j1" (mkJobCheckpoint JobPhaseAwaitingCommand JobPhaseLost (stored_command oneoff_finished "c1")
       (Some JobTeardownLost) "runtime_cleanup_unconfirmed")).

(** The probe was disposed of before it had a command. *)
Definition probe_lost : AuthorityStore := Eval vm_compute in
  run probe_state (t0 + minute) (OpMarkCreatingDirectProbeLost "j1" "s1" "c1" "key-j" "catalog" "release-controller"
    CatalogProbeOwnerAbandonedReason).

Lemma settlement_is_exact_and_repeatable_witness :
  exists results s', SettleClosedCancelledOneOffJobs oneoff_cancelled (t0 + minute) ["j1"] = (Ok results, s') /\
    j_phase <$> exec_jobs (db oneoff_cancelled) !! "j1" = Some JobPhaseAwaitingCommand /\
    j_phase <$> exec_jobs (db s') !! "j1" = Some JobPhaseComplete /\
    SettleClosedCancelledOneOffJobs s' (t0 + hour) ["j1"] = (Ok (already_settled <$> results), s').
Proof.
  destruct (SettleClosedCancelledOneOffJobs oneoff_cancelled (t0 + minute) ["j1"]) as [r s'] eqn:E.
  assert (exists results, r = Ok results) as [results ->].
  { change r with (fst (r, s')). rewrite <- E. eexists. vm_compute. reflexivity. }
  destruct (settlement_is_exact_and_repeatable _ _ _ _ _ E) as (Hjobs & _ & _ & Hagain).
  exists results, s'. split; [reflexivity|]. split; [vm_compute; reflexivity|]. split; [|exact (Hagain (t0 + hour))].
  destruct (Hjobs "j1") as (j & j' & ses & c & r & _ & Hj' & _ & _ & _ & Hphase & _).
  - refine (bool_decide_eq_true_1 _ _). vm_compute. reflexivity.
  - rewrite Hj'. cbn [fmap option_fmap option_map]. rewrite Hphase. reflexivity.
Defined.


Lemma recovery_set_all_or_nothing_witness :
  exists s', ConfirmLostRuntimeRecoverySet probe_lost (t0 + 2 * minute) [] ["s1"] = (Ok tt, s') /\
    commandless (db probe_lost) "s1" /\ session_released (db s') "s1".
Proof.
  destruct (ConfirmLostRuntimeRecoverySet probe_lost (t0 + 2 * minute) [] ["s1"]) as [r s'] eqn:E.
  assert (r = Ok tt) as -> by (change r with (fst (r, s')); rewrite <- E; vm_compute; reflexivity).
  destruct (recovery_set_all_or_nothing _ _ _ _ _ _ E) as [[_ _ _ _ Hs _ _] Hc _ _].
  apply Forall_cons in Hc as [Hc _]. apply Forall_cons in Hs as [Hs _].
  exists s'. split; [reflexivity|]. exact (conj Hc Hs).
Defined.
