(* ===== verification/RetentionTheorems.v ===== *)
(** * Correctness of garbage collection

    What a pass does to every table, what it keeps, that a second pass does
    nothing, and two ways in which a pass does not do what it means to. *)
From S2P Require Import Prelude GoStrings Sha256 Identity Lifecycle Policy Canonical LaneAdmission.
From S2P Require Import AuditRecords Db AuditStore AdmissionStore Idempotency Sessions Commands LostRecovery.
From S2P Require Import Listings CommandlessRecovery RestartPlan RunPayload Jobs Scheduler TeardownRecovery.
From S2P Require Import RemoteDb Retention Authority AuthorityOps Histories AuthorityTheorems.

(** ** Statements on tables *)
Section tables.
Context {K A : Type} `{Countable K}.
Implicit Types (t : gmap K A) (p : K -> A -> bool).

Lemma lookup_update_where p f t k : update_where p f t !! k = (fun r => if p k r then f r else r) <$> t !! k.
Proof. unfold update_where. rewrite map_lookup_imap. by destruct (t !! k). Qed.

Lemma lookup_delete_where p t k r : delete_where p t !! k = Some r <-> t !! k = Some r /\ p k r = false.
Proof. apply map_lookup_filter_Some. Qed.

Lemma exists_row_true p t : exists_row p t = true <-> exists k r, t !! k = Some r /\ p k r = true.
Proof.
  unfold exists_row. rewrite existsb_exists. split.
  - intros ([k r] & Hin & Hp). exists k, r. split; [|done]. by apply elem_of_map_to_list, list_elem_of_In.
  - intros (k & r & Hr & Hp). exists (k, r). split; [|done]. by apply list_elem_of_In, elem_of_map_to_list.
Qed.

Lemma exists_row_false p t : exists_row p t = false <-> forall k r, t !! k = Some r -> p k r = false.
Proof.
  rewrite <- not_true_iff_false, exists_row_true. split.
  - intros Hn k r Hr. apply not_true_iff_false. intros Hp. apply Hn. by exists k, r.
  - intros Hall (k & r & Hr & Hp). by rewrite (Hall _ _ Hr) in Hp.
Qed.

(** A condition no row meets. *)
Lemma rows_where_none p t : (forall k r, t !! k = Some r -> p k r = false) -> rows_where p t = ∅.
Proof. intros Hn. apply map_empty_filter_2. intros k r Hr Hp. by rewrite (Hn _ _ Hr) in Hp. Qed.
Lemma update_where_none p f t : (forall k r, t !! k = Some r -> p k r = false) -> update_where p f t = t.
Proof.
  intros Hn. apply map_eq. intros k. rewrite lookup_update_where. destruct (t !! k) as [r|] eqn:E; [|done].
  cbn. by rewrite (Hn _ _ E).
Qed.
Lemma delete_where_none p t : (forall k r, t !! k = Some r -> p k r = false) -> delete_where p t = t.
Proof. intros Hn. apply map_filter_id. done. Qed.

(** The rows whose key is not listed. *)
Definition drop_keys (ids : list K) t : gmap K A := filter (fun '(k, _) => k ∉ ids) t.

Lemma lookup_drop_keys ids t k r : drop_keys ids t !! k = Some r <-> t !! k = Some r /\ k ∉ ids.
Proof. apply map_lookup_filter_Some. Qed.
Lemma lookup_drop_keys_ne ids t k : k ∉ ids -> drop_keys ids t !! k = t !! k.
Proof.
  intros Hk. destruct (t !! k) as [r|] eqn:E; [by apply lookup_drop_keys|].
  apply eq_None_not_Some. intros [r [Hr _]%lookup_drop_keys]. congruence.
Qed.
Lemma lookup_drop_keys_in ids t k : k ∈ ids -> drop_keys ids t !! k = None.
Proof. intros Hk. apply eq_None_not_Some. by intros [r [_ Hr]%lookup_drop_keys]. Qed.
Lemma drop_keys_nil t : drop_keys [] t = t.
Proof. apply map_filter_id. intros k r _. apply not_elem_of_nil. Qed.
Lemma drop_keys_cons k ids t : drop_keys ids (delete k t) = drop_keys (k :: ids) t.
Proof.
  apply map_eq. intros i. apply option_eq. intros r. rewrite !lookup_drop_keys, lookup_delete_Some, not_elem_of_cons.
  naive_solver.
Qed.

Lemma selected_keys p t k : k ∈ (map_to_list (rows_where p t)).*1 <-> exists r, t !! k = Some r /\ p k r = true.
Proof.
  rewrite list_elem_of_fmap. split.
  - intros ([k' r] & -> & Hin%elem_of_map_to_list). apply map_lookup_filter_Some in Hin. by exists r.
  - intros (r & Hr & Hp). exists (k, r). split; [done|]. by apply elem_of_map_to_list, map_lookup_filter_Some.
Qed.
End tables.

(** ** What a pass does *)
Definition drop_jobs (ids : list string) (d : DB) : DB := set_jobs (drop_keys ids (exec_jobs d)) d.
Definition drop_commands (ids : list string) (d : DB) : DB :=
  set_commands (drop_keys ids (exec_commands d))
    (set_events (drop_keys ids (exec_command_events d)) (set_slots (drop_keys ids (exec_command_slots d)) d)).
Definition drop_sessions (ids : list string) (d : DB) : DB :=
  set_sessions (drop_keys ids (exec_sessions d))
    (set_lifecycle (drop_keys ids (exec_session_lifecycle d))
      (set_reservations (drop_keys ids (exec_capacity_reservations d)) d)).

Definition expire_output (cutoff : StoredTime) (d : DB) : DB :=
  let d1 := set_commands (update_where (output_expires d cutoff) command_output_expired (exec_commands d)) d in
  set_jobs (update_where (job_output_expires d1) job_output_expired (exec_jobs d1)) d1.

Definition expire_remote_output (cutoff : StoredTime) (m : Mirror) : Mirror :=
  let m1 := set_remote_commands (update_where (remote_output_expires m cutoff) remote_output_expired
                                   (local_remote_command_projections m)) m in
  set_remote_jobs (update_where (remote_job_output_expires m1) remote_job_output_expired (local_remote_job_projections m1)) m1.

Lemma on_db_Ok {A} (m : tx A) a d mir s : on_db m (d, mir) = Ok (a, s) <-> exists d', m d = Ok (a, d') /\ s = (d', mir).
Proof. unfold on_db. cbn [fst snd]. destruct (m d) as [[]|]; naive_solver. Qed.

(** Only the bindings and the warnings differ. *)
Definition bindings_only (d d' : DB) : Prop :=
  d' = set_idempotency (exec_idempotency d') (set_warnings (exec_idempotency_expiry_warnings d') d).

#[export] Instance bindings_only_refl : Reflexive bindings_only.
Proof. by intros []. Qed.
#[export] Instance bindings_only_trans : Transitive bindings_only.
Proof. unfold bindings_only. intros d1 d2 d3 E1 E2. by rewrite E2, E1. Qed.

Lemma recordWarning_bindings c o k e now u d d' :
  recordIdempotencyExpiryWarningOnConnection c o k e now d = Ok (u, d') ->
  d' = set_warnings (exec_idempotency_expiry_warnings d') d.
Proof.
  unfold recordIdempotencyExpiryWarningOnConnection. cbv zeta. destruct (negb _); intros H; [tx_inv H; by destruct d'|].
  apply stx_bind_Ok in H as (x & d1 & [<- <-]%query_Ok & H). destruct (exec_idempotency_expiry_warnings d !! _).
  - apply stx_bind_Ok in H as (t & d1 & [_ <-]%or_fail_Ok & H). destruct (negb _); tx_inv H; [by destruct d'|done].
  - apply insert_warning_Ok in H as (_ & _ & ->). done.
Qed.

Lemma recordExpiredKeys_bindings now rows u d d' :
  recordExpiredKeys now rows d = Ok (u, d') -> d' = set_warnings (exec_idempotency_expiry_warnings d') d.
Proof.
  revert u d. induction rows as [|[[[[ct cid] op] key] row] rows IH]; intros u d H; cbn [recordExpiredKeys] in H.
  { tx_inv H. by destruct d'. }
  apply stx_bind_Ok in H as (x & d1 & [_ <-]%lift_Ok & H). apply stx_bind_Ok in H as (c & d1 & [_ <-]%lift_Ok & H).
  apply stx_bind_Ok in H as (e & d1 & [_ <-]%or_fail_Ok & H).
  apply stx_bind_Ok in H as ([] & d1 & E1%recordWarning_bindings & E2%IH). by rewrite E2, E1.
Qed.

Lemma dropExpiredWarnings_bindings now rows u d d' :
  dropExpiredWarnings now rows d = Ok (u, d') -> d' = set_warnings (exec_idempotency_expiry_warnings d') d.
Proof.
  revert u d. induction rows as [|[key text] rows IH]; intros u d H; cbn [dropExpiredWarnings] in H.
  { tx_inv H. by destruct d'. }
  apply stx_bind_Ok in H as (w & d1 & [_ <-]%or_fail_Ok & H). apply stx_bind_Ok in H as ([] & d1 & H1 & E%IH).
  rewrite E. destruct (now <? w); tx_inv H1; [by destruct d1|done].
Qed.

Lemma collectIdempotency_Ok now n d d' :
  collectIdempotency now d = Ok (n, d') ->
  bindings_only d d' /\ exec_idempotency d' = delete_where (expired_binding now) (exec_idempotency d).
Proof.
  unfold collectIdempotency. intros H. apply stx_bind_Ok in H as (keys & d1 & [_ <-]%query_Ok & H).
  apply stx_bind_Ok in H as ([] & d1 & E1%recordExpiredKeys_bindings & H).
  apply stx_bind_Ok in H as (k & d2 & [_ <-]%query_Ok & H). apply stx_bind_Ok in H as ([] & d2 & [_ ->]%modify_Ok & H).
  apply stx_bind_Ok in H as (ws & d2 & [_ <-]%query_Ok & H).
  apply stx_bind_Ok in H as ([] & d2 & E2%dropExpiredWarnings_bindings & H). tx_inv H. unfold bindings_only.
  rewrite E2, E1. done.
Qed.

(** Deleting the expired events. *)
Definition drop_events (m : Mirror) (now : StoredTime) (d : DB) : DB :=
  set_events (delete_where (events_expire d m now) (exec_command_events d)) d.
Definition drop_remote_events (now : StoredTime) (m : Mirror) : Mirror :=
  set_remote_events (delete_where (remote_events_expire m now) (local_remote_events m)) m.
Definition drop_diagnostics (cutoff : StoredTime) (m : Mirror) : Mirror :=
  set_diagnostics (delete_where (collectable_diagnostic cutoff) (mailbox_ingress_diagnostics m)) m.

(** Deleting the metadata of jobs, then commands, then sessions. *)
Definition drop_metadata (cutoff : StoredTime) (d : DB) : DB :=
  let d1 := drop_jobs (gcJobIDs cutoff d) d in
  let d2 := drop_commands (gcCommandIDs cutoff d1) d1 in
  drop_sessions (gcSessionIDs cutoff d2) d2.

Lemma delete_drop_keys {A} (t : gmap string A) k : delete k t = drop_keys [k] t.
Proof. by rewrite <- drop_keys_cons, drop_keys_nil. Qed.

Section delete_each.
Context (del : string -> gtx nat) (dropf : list string -> DB -> DB) (m : Mirror).
Context (del_one : forall id d n s, del id (d, m) = Ok (n, s) -> s = (dropf [id] d, m)).
Context (drop_none : forall d, dropf [] d = d).
Context (drop_more : forall id ids d, dropf ids (dropf [id] d) = dropf (id :: ids) d).

Lemma deleteEach_Ok ids d n s : deleteEach del ids (d, m) = Ok (n, s) -> s = (dropf ids d, m).
Proof.
  revert d n s. induction ids as [|id ids IH]; intros d n s H; cbn [deleteEach] in H.
  { tx_inv H. by rewrite drop_none. }
  apply stx_bind_Ok in H as (n1 & s1 & ->%del_one & H). apply stx_bind_Ok in H as (n2 & s2 & ->%IH & H). tx_inv H.
  by rewrite drop_more.
Qed.
End delete_each.

Lemma drop_keys_more {A} (t : gmap string A) k ids : drop_keys ids (drop_keys [k] t) = drop_keys (k :: ids) t.
Proof. by rewrite <- delete_drop_keys, drop_keys_cons. Qed.

Lemma deleteJob_Ok m id d n s : deleteJob id (d, m) = Ok (n, s) -> s = (drop_jobs [id] d, m).
Proof.
  unfold deleteJob. intros H. apply stx_bind_Ok in H as (s0 & s1 & [<- <-]%query_Ok & H).
  apply stx_bind_Ok in H as ([] & s1 & (_ & _ & <-)%fail_if_Ok & H).
  apply stx_bind_Ok in H as ([] & s1 & Hs & H). apply on_db_Ok in Hs as (d' & [_ ->]%modify_Ok & ->). tx_inv H.
  unfold drop_jobs. by rewrite delete_drop_keys.
Qed.

Lemma deleteCommand_Ok m id d n s :
  deleteCommand id (d, m) = Ok (n, s) -> s = (drop_commands [id] d, m) /\
  command_referenced (set_events (delete id (exec_command_events d)) (set_slots (delete id (exec_command_slots d)) d)) m id = false.
Proof.
  unfold deleteCommand. intros H.
  apply stx_bind_Ok in H as ([] & s1 & Hs & H). apply on_db_Ok in Hs as (d1 & [_ ->]%modify_Ok & ->).
  apply stx_bind_Ok in H as ([] & s1 & Hs & H). apply on_db_Ok in Hs as (d1 & [_ ->]%modify_Ok & ->).
  apply stx_bind_Ok in H as (s0 & s1 & [<- <-]%query_Ok & H).
  apply stx_bind_Ok in H as ([] & s1 & (_ & Hr & <-)%fail_if_Ok & H).
  apply stx_bind_Ok in H as ([] & s1 & Hs & H). apply on_db_Ok in Hs as (d1 & [_ ->]%modify_Ok & ->). tx_inv H.
  split; [|exact Hr]. unfold drop_commands. db_simpl. by rewrite !delete_drop_keys.
Qed.

Lemma deleteSession_Ok m id d n s : deleteSession id (d, m) = Ok (n, s) -> s = (drop_sessions [id] d, m).
Proof.
  unfold deleteSession. intros H.
  apply stx_bind_Ok in H as ([] & s1 & Hs & H). apply on_db_Ok in Hs as (d1 & [_ ->]%modify_Ok & ->).
  apply stx_bind_Ok in H as ([] & s1 & Hs & H). apply on_db_Ok in Hs as (d1 & [_ ->]%modify_Ok & ->).
  apply stx_bind_Ok in H as (s0 & s1 & [<- <-]%query_Ok & H).
  apply stx_bind_Ok in H as ([] & s1 & (_ & Hr & <-)%fail_if_Ok & H).
  apply stx_bind_Ok in H as ([] & s1 & Hs & H). apply on_db_Ok in Hs as (d1 & [_ ->]%modify_Ok & ->). tx_inv H.
  unfold drop_sessions. db_simpl. by rewrite !delete_drop_keys.
Qed.

Lemma drop_jobs_nil d : drop_jobs [] d = d.
Proof. unfold drop_jobs. rewrite drop_keys_nil. by destruct d. Qed.
Lemma drop_jobs_more id ids d : drop_jobs ids (drop_jobs [id] d) = drop_jobs (id :: ids) d.
Proof. unfold drop_jobs. db_simpl. by rewrite drop_keys_more. Qed.
Lemma drop_commands_nil d : drop_commands [] d = d.
Proof. unfold drop_commands. rewrite !drop_keys_nil. by destruct d. Qed.
Lemma drop_commands_more id ids d : drop_commands ids (drop_commands [id] d) = drop_commands (id :: ids) d.
Proof. unfold drop_commands. db_simpl. by rewrite !drop_keys_more. Qed.
Lemma drop_sessions_nil d : drop_sessions [] d = d.
Proof. unfold drop_sessions. rewrite !drop_keys_nil. by destruct d. Qed.
Lemma drop_sessions_more id ids d : drop_sessions ids (drop_sessions [id] d) = drop_sessions (id :: ids) d.
Proof. unfold drop_sessions. db_simpl. by rewrite !drop_keys_more. Qed.

Lemma deleteJobs_Ok m ids d n s : deleteEach deleteJob ids (d, m) = Ok (n, s) -> s = (drop_jobs ids d, m).
Proof. apply deleteEach_Ok; [apply deleteJob_Ok|apply drop_jobs_nil|apply drop_jobs_more]. Qed.
Lemma deleteCommands_Ok m ids d n s : deleteEach deleteCommand ids (d, m) = Ok (n, s) -> s = (drop_commands ids d, m).
Proof. apply deleteEach_Ok; [intros * H; by apply deleteCommand_Ok in H as [-> _]|apply drop_commands_nil|apply drop_commands_more]. Qed.
Lemma deleteSessions_Ok m ids d n s : deleteEach deleteSession ids (d, m) = Ok (n, s) -> s = (drop_sessions ids d, m).
Proof. apply deleteEach_Ok; [apply deleteSession_Ok|apply drop_sessions_nil|apply drop_sessions_more]. Qed.

(** A command without a mailbox event-file reference. *)
Definition unreferenced (m : Mirror) (id : string) : Prop :=
  forall x, mailbox_event_file_references m !! x <> Some id.

Lemma deleteCommands_unreferenced m ids d n s :
  deleteEach deleteCommand ids (d, m) = Ok (n, s) -> Forall (unreferenced m) ids.
Proof.
  revert d n s. induction ids as [|id ids IH]; intros d n s H; cbn [deleteEach] in H; [constructor|].
  apply stx_bind_Ok in H as (n1 & s1 & [-> Hr]%deleteCommand_Ok & H). apply stx_bind_Ok in H as (n2 & s2 & Hs%IH & _).
  constructor; [|done]. unfold command_referenced in Hr. bool_norm. intros x Hx.
  match goal with H : exists_row _ (mailbox_event_file_references m) = false |- _ => rewrite exists_row_false in H; specialize (H _ _ Hx) end.
  by bool_norm.
Qed.

(** The commands whose metadata the pass deletes. *)
Definition pass_commands_deleted (output metadata now : StoredTime) (m : Mirror) (d : DB) : list string :=
  let d3 := drop_events (expire_remote_output output m) now (expire_output output d) in
  gcCommandIDs metadata (drop_jobs (gcJobIDs metadata d3) d3).

(** The pass as a function of the database after the bindings were collected. *)
Definition pass_db (output metadata now : StoredTime) (m : Mirror) (d : DB) : DB :=
  drop_metadata metadata (drop_events (expire_remote_output output m) now (expire_output output d)).
Definition pass_mirror (output metadata now : StoredTime) (m : Mirror) : Mirror :=
  drop_diagnostics metadata (drop_remote_events now (expire_remote_output output m)).

Lemma collect_Ok oc mc now d m rep s' :
  collect oc mc now (d, m) = Ok (rep, s') -> exists n d1, collectIdempotency now d = Ok (n, d1) /\
    Forall (unreferenced m) (pass_commands_deleted (formatStoredTime oc) (formatStoredTime mc) (formatStoredTime now) m d1) /\
    s' = (pass_db (formatStoredTime oc) (formatStoredTime mc) (formatStoredTime now) m d1,
          pass_mirror (formatStoredTime oc) (formatStoredTime mc) (formatStoredTime now) m).
Proof.
  unfold collect. cbv zeta. intros H. apply stx_bind_Ok in H as (n & s & Hs & H). apply on_db_Ok in Hs as (d1 & Hd1 & ->).
  exists n, d1. split; [done|].
  apply stx_bind_Ok in H as (n1 & q1 & Hs & H). apply on_db_Ok in Hs as (d2 & Hd2 & ->).
  unfold expireCommandOutput in Hd2. tx_inv Hd2.
  apply stx_bind_Ok in H as (n2 & q2 & Hs & H). unfold expireRemoteOutput, on_mirror in Hs. tx_inv Hs. cbn [fst snd] in H.
  apply stx_bind_Ok in H as (n3 & q3 & Hs & H). unfold deleteExpiredEvents in Hs.
  apply stx_bind_Ok in Hs as (x & s1 & [<- <-]%query_Ok & Hs). apply stx_bind_Ok in Hs as ([] & s1 & Hs1 & Hs).
  apply on_db_Ok in Hs1 as (d3 & [_ ->]%modify_Ok & ->). tx_inv Hs. cbn [snd] in H.
  apply stx_bind_Ok in H as (n4 & q4 & Hs & H). unfold deleteExpiredRemoteEvents, on_mirror in Hs. tx_inv Hs. cbn [fst snd] in H.
  apply stx_bind_Ok in H as (n5 & q5 & Hs & H). unfold collectMetadata in Hs.
  apply stx_bind_Ok in Hs as (ids & s1 & [<- <-]%query_Ok & ->%deleteJobs_Ok).
  apply stx_bind_Ok in H as (n6 & q6 & Hs & H). unfold collectMetadata in Hs.
  apply stx_bind_Ok in Hs as (ids & s1 & [<- <-]%query_Ok & Hs). split; [by apply deleteCommands_unreferenced in Hs|].
  apply deleteCommands_Ok in Hs as ->.
  apply stx_bind_Ok in H as (n7 & q7 & Hs & H). unfold collectMetadata in Hs.
  apply stx_bind_Ok in Hs as (ids & s1 & [<- <-]%query_Ok & ->%deleteSessions_Ok).
  apply stx_bind_Ok in H as (n8 & q8 & Hs & H). unfold collectDiagnostics, on_mirror in Hs. tx_inv Hs. tx_inv H. done.
Qed.

(** ** What a pass keeps *)
Lemma filter_drop_keys {A} (P : string * A -> Prop) `{!forall x, Decision (P x)} (t : gmap string A) ids :
  (forall k r, k ∈ ids -> t !! k = Some r -> ~ P (k, r)) -> filter P (drop_keys ids t) = filter P t.
Proof.
  intros Hn. apply map_eq. intros k. apply option_eq. intros r. rewrite !map_lookup_filter_Some, lookup_drop_keys.
  split; [naive_solver|]. intros [Hr HP]. split_and!; [done| |done]. intros Hin. by eapply Hn.
Qed.

(** The rows a selection deletes. *)
Lemma gc_job_true d cutoff id j : gc_job d cutoff id j = true ->
  terminal_phase (j_phase j) = true /\ stored_le (j_updated_at j) cutoff.
Proof. unfold gc_job, stored_le_b. intros H. bool_norm. done. Qed.

Lemma gc_command_true d cutoff id c : gc_command d cutoff id c = true ->
  CommandState_IsTerminal (c_state c) = true /\ stored_le (c_updated_at c) cutoff /\ live_slot_of d id = false /\
  job_of_command d id = false /\ exists s, exec_sessions d !! c_session_id c = Some s /\ SessionState_IsTerminal (s_state s) = true.
Proof.
  unfold gc_command, stored_le_b. destruct (exec_sessions d !! c_session_id c) as [s|]; [|done]. intros H. bool_norm.
  split_and!; [done..|]. by exists s.
Qed.

Lemma gc_session_true d cutoff id s : gc_session d cutoff id s = true ->
  SessionState_IsTerminal (s_state s) = true /\ stored_le (s_updated_at s) cutoff /\ command_of_session d id = false /\
  job_of_session d id = false /\ exists r, exec_capacity_reservations d !! id = Some r /\ r_cleanup_confirmed_at r <> None.
Proof.
  unfold gc_session, stored_le_b. destruct (exec_capacity_reservations d !! id) as [r|]; [|done]. intros H. bool_norm.
  split_and!; [done..|]. exists r. split; [done|]. by destruct (r_cleanup_confirmed_at r).
Qed.

Record gc_keeps (output metadata : StoredTime) (d d' : DB) : Prop := {
  gk_slots : forall id sl, exec_command_slots d !! id = Some sl ->
    exec_command_slots d' !! id = Some sl \/ exec_command_slots d' !! id = None /\ sl_stop_confirmed_at sl <> None;
  gk_reservations : forall id r, exec_capacity_reservations d !! id = Some r ->
    exec_capacity_reservations d' !! id = Some r \/
    exec_capacity_reservations d' !! id = None /\ r_cleanup_confirmed_at r <> None;
  gk_sessions : forall id s, exec_sessions d !! id = Some s ->
    exec_sessions d' !! id = Some s \/
    exec_sessions d' !! id = None /\ SessionState_IsTerminal (s_state s) = true /\ stored_le (s_updated_at s) metadata;
  gk_commands : forall id c, exec_commands d !! id = Some c ->
    exec_commands d' !! id = Some c \/
    (exec_commands d' !! id = Some (command_output_expired c) /\ CommandState_IsTerminal (c_state c) = true /\
     stored_le (c_updated_at c) output) \/
    (exec_commands d' !! id = None /\ CommandState_IsTerminal (c_state c) = true /\ stored_le (c_updated_at c) metadata);
  gk_jobs : forall id j, exec_jobs d !! id = Some j ->
    exec_jobs d' !! id = Some j \/
    (exec_jobs d' !! id = Some (job_output_expired j) /\ expired_command d' (j_command_id j) = true) \/
    (exec_jobs d' !! id = None /\ terminal_phase (j_phase j) = true /\ stored_le (j_updated_at j) metadata);
  gk_events : forall id, rows_of (exec_command_events d') id = rows_of (exec_command_events d) id \/
    rows_of (exec_command_events d') id = [] /\ (expired_command d' id = true \/ exec_commands d' !! id = None);
  gk_parents : forall id c, exec_commands d' !! id = Some c -> exec_sessions d' !! c_session_id c = exec_sessions d !! c_session_id c;
  gk_live_slots : count_live_slots d' = count_live_slots d;
  gk_live_reservations : count_live_reservations d' = count_live_reservations d
}.

Section pass.
Context (output metadata now : StoredTime) (m : Mirror) (d : DB).
Let d2 := expire_output output d.
Let d3 := drop_events (expire_remote_output output m) now d2.
Let jobs := gcJobIDs metadata d3.
Let d4 := drop_jobs jobs d3.
Let commands := gcCommandIDs metadata d4.
Let d5 := drop_commands commands d4.
Let sessions := gcSessionIDs metadata d5.
Let d6 := drop_sessions sessions d5.

Lemma pass_db_eq : pass_db output metadata now m d = d6.
Proof. done. Qed.

Lemma jobs_selected id : id ∈ jobs <-> exists j, exec_jobs d3 !! id = Some j /\ gc_job d3 metadata id j = true.
Proof. apply selected_keys. Qed.
Lemma commands_selected id : id ∈ commands <-> exists c, exec_commands d4 !! id = Some c /\ gc_command d4 metadata id c = true.
Proof. apply selected_keys. Qed.
Lemma sessions_selected id : id ∈ sessions <-> exists s, exec_sessions d5 !! id = Some s /\ gc_session d5 metadata id s = true.
Proof. apply selected_keys. Qed.

(** The tables after the pass. *)
Lemma pass_slots : exec_command_slots d6 = drop_keys commands (exec_command_slots d).
Proof. done. Qed.
Lemma pass_reservations : exec_capacity_reservations d6 = drop_keys sessions (exec_capacity_reservations d).
Proof. done. Qed.
Lemma pass_sessions : exec_sessions d6 = drop_keys sessions (exec_sessions d).
Proof. done. Qed.
Lemma pass_commands : exec_commands d6 = drop_keys commands (exec_commands d2).
Proof. done. Qed.
Lemma pass_jobs : exec_jobs d6 = drop_keys jobs (exec_jobs d2).
Proof. done. Qed.
Lemma pass_events : exec_command_events d6 = drop_keys commands
  (delete_where (events_expire d2 (expire_remote_output output m) now) (exec_command_events d)).
Proof. done. Qed.

Lemma dead_slot id sl : id ∈ commands -> exec_command_slots d !! id = Some sl -> sl_stop_confirmed_at sl <> None.
Proof.
  intros (c & _ & (_ & _ & Hl & _)%gc_command_true)%commands_selected Hsl. unfold live_slot_of in Hl.
  replace (exec_command_slots d4) with (exec_command_slots d) in Hl by done. rewrite Hsl in Hl. unfold live_slot in Hl.
  by destruct (sl_stop_confirmed_at sl).
Qed.

Lemma dead_reservation id r : id ∈ sessions -> exec_capacity_reservations d !! id = Some r -> r_cleanup_confirmed_at r <> None.
Proof.
  intros (s & _ & (_ & _ & _ & _ & r' & Hr' & Hc)%gc_session_true)%sessions_selected Hr.
  replace (exec_capacity_reservations d5) with (exec_capacity_reservations d) in Hr' by done. congruence.
Qed.

(** The command rows before the metadata is deleted. *)
Lemma expired_rows id : exec_commands d2 !! id =
  (fun c => if output_expires d output id c then command_output_expired c else c) <$> exec_commands d !! id.
Proof. unfold d2, expire_output. cbv zeta. db_simpl. apply lookup_update_where. Qed.

Lemma expired_jobs id : exec_jobs d2 !! id =
  (fun j => if job_output_expires d2 id j then job_output_expired j else j) <$> exec_jobs d !! id.
Proof. unfold d2, expire_output. cbv zeta. db_simpl. apply lookup_update_where. Qed.

(** A remaining job keeps its command. *)
Lemma job_keeps_command jid j : jid ∉ jobs -> exec_jobs d2 !! jid = Some j -> j_command_id j ∉ commands.
Proof.
  intros Hn Hj (c & _ & (_ & _ & _ & Hno & _)%gc_command_true)%commands_selected. unfold job_of_command in Hno.
  rewrite exists_row_false in Hno. specialize (Hno jid j). rewrite bool_decide_eq_false in Hno. apply Hno; [|done].
  unfold d4. unfold drop_jobs. db_simpl. by apply lookup_drop_keys.
Qed.

Lemma expired_command_kept id : id ∉ commands -> expired_command d2 id = expired_command d6 id.
Proof. intros Hn. unfold expired_command. by rewrite pass_commands, lookup_drop_keys_ne. Qed.

(** A remaining command keeps its session. *)
Lemma command_keeps_session id c : exec_commands d6 !! id = Some c -> c_session_id c ∉ sessions.
Proof.
  intros Hc (s & _ & (_ & _ & Hno & _)%gc_session_true)%sessions_selected. unfold command_of_session in Hno.
  rewrite exists_row_false in Hno. specialize (Hno id c). rewrite bool_decide_eq_false in Hno. by apply Hno.
Qed.

Lemma pass_keeps : gc_keeps output metadata d d6.
Proof.
  split.
  - intros id sl Hsl. rewrite pass_slots. destruct (decide (id ∈ commands)) as [Hin|Hin].
    + right. split; [by apply lookup_drop_keys_in|by eapply dead_slot].
    + left. by apply lookup_drop_keys.
  - intros id r Hr. rewrite pass_reservations. destruct (decide (id ∈ sessions)) as [Hin|Hin].
    + right. split; [by apply lookup_drop_keys_in|by eapply dead_reservation].
    + left. by apply lookup_drop_keys.
  - intros id s Hs. rewrite pass_sessions. destruct (decide (id ∈ sessions)) as [Hin|Hin].
    + right. split; [by apply lookup_drop_keys_in|]. apply sessions_selected in Hin as (s' & Hs' & H%gc_session_true).
      replace (exec_sessions d5) with (exec_sessions d) in Hs' by done. rewrite Hs in Hs'. injection Hs' as <-. by destruct H as (? & ? & _).
    + left. by apply lookup_drop_keys.
  - intros id c Hc. rewrite pass_commands. pose proof (expired_rows id) as E. rewrite Hc in E. cbn [fmap option_fmap option_map] in E.
    destruct (decide (id ∈ commands)) as [Hin|Hin].
    + right; right. split; [by apply lookup_drop_keys_in|]. apply commands_selected in Hin as (c' & Hc' & H%gc_command_true).
      replace (exec_commands d4) with (exec_commands d2) in Hc' by done. rewrite E in Hc'. injection Hc' as <-.
      destruct H as (? & ? & _). by destruct (output_expires d output id c).
    + rewrite lookup_drop_keys_ne by done. rewrite E. destruct (output_expires d output id c) eqn:Eo; [right; left|by left].
      unfold output_expires, stored_le_b in Eo. by bool_norm.
  - intros id j Hj. rewrite pass_jobs. pose proof (expired_jobs id) as E. rewrite Hj in E. cbn [fmap option_fmap option_map] in E.
    destruct (decide (id ∈ jobs)) as [Hin|Hin].
    + right; right. split; [by apply lookup_drop_keys_in|]. apply jobs_selected in Hin as (j' & Hj' & H%gc_job_true).
      replace (exec_jobs d3) with (exec_jobs d2) in Hj' by done. rewrite E in Hj'. injection Hj' as <-.
      by destruct (job_output_expires d2 id j).
    + rewrite lookup_drop_keys_ne by done. rewrite E.
      destruct (job_output_expires d2 id j) eqn:Eo; [right; left|by left]. split; [done|].
      apply (job_keeps_command _ _ Hin) in E. cbn [job_output_expired j_command_id] in E.
      rewrite <- expired_command_kept by done. unfold job_output_expires in Eo. by bool_norm.
  - intros id. rewrite pass_events. unfold rows_of. destruct (decide (id ∈ commands)) as [Hin|Hin].
    + right. rewrite lookup_drop_keys_in by done. split; [done|]. right. rewrite pass_commands. by apply lookup_drop_keys_in.
    + rewrite lookup_drop_keys_ne by done. destruct (exec_command_events d !! id) as [rows|] eqn:Er.
      * destruct (events_expire d2 (expire_remote_output output m) now id rows) eqn:Ee.
        -- right. unfold delete_where. rewrite map_lookup_filter, Er. cbn. rewrite option_guard_False by congruence.
           split; [done|]. left. rewrite <- expired_command_kept by done. unfold events_expire in Ee. by bool_norm.
        -- left. by rewrite (proj2 (lookup_delete_where _ _ _ _) (conj Er Ee)).
      * left. unfold delete_where. by rewrite map_lookup_filter, Er.
  - intros id c Hc. rewrite pass_sessions. apply lookup_drop_keys_ne. by eapply command_keeps_session.
  - unfold count_live_slots. do 2 f_equal. rewrite pass_slots. apply filter_drop_keys.
    intros k r Hin Hr [_ Hl]. by apply (dead_slot _ _ Hin Hr).
  - unfold count_live_reservations. do 2 f_equal. rewrite pass_reservations. apply filter_drop_keys.
    intros k r Hin Hr [_ Hl]. by apply (dead_reservation _ _ Hin Hr).
Qed.

(** *** Nothing is left for a second pass *)
Lemma no_output_left id c : exec_commands d6 !! id = Some c -> output_expires d6 output id c = false.
Proof.
  rewrite pass_commands, lookup_drop_keys. intros [Hc _]. rewrite expired_rows in Hc.
  destruct (exec_commands d !! id) as [c0|]; [|done]. cbn [fmap option_fmap option_map] in Hc. injection Hc as <-.
  destruct (output_expires d output id c0) eqn:E; [|exact E].
  unfold output_expires. cbn [command_output_expired c_output_unavailable_reason]. by rewrite andb_false_r.
Qed.

Lemma no_job_output_left id j : exec_jobs d6 !! id = Some j -> job_output_expires d6 id j = false.
Proof.
  rewrite pass_jobs, lookup_drop_keys. intros [Hj Hn]. pose proof (job_keeps_command _ _ Hn Hj) as Hk.
  rewrite expired_jobs in Hj. destruct (exec_jobs d !! id) as [j0|]; [|done]. cbn [fmap option_fmap option_map] in Hj.
  injection Hj as <-. destruct (job_output_expires d2 id j0) eqn:E.
  - unfold job_output_expires. cbn [job_output_expired j_output_unavailable_reason]. by rewrite andb_false_r.
  - unfold job_output_expires in *. by rewrite <- expired_command_kept.
Qed.

Lemma no_events_left m' id rows :
  (forall cid, pinned_events m' now cid = pinned_events (expire_remote_output output m) now cid) ->
  exec_command_events d6 !! id = Some rows -> events_expire d6 m' now id rows = false.
Proof.
  intros Hpin. rewrite pass_events, lookup_drop_keys, lookup_delete_where. intros [[_ He] Hn].
  unfold events_expire in *. rewrite <- expired_command_kept, Hpin by done. exact He.
Qed.

Lemma live_slot_kept id : live_slot_of d6 id = live_slot_of d3 id.
Proof.
  unfold live_slot_of. rewrite pass_slots. change (exec_command_slots d3) with (exec_command_slots d).
  destruct (decide (id ∈ commands)) as [Hin|Hin]; [|by rewrite lookup_drop_keys_ne].
  rewrite lookup_drop_keys_in by done. destruct (exec_command_slots d !! id) as [sl|] eqn:E; [|done].
  pose proof (dead_slot _ _ Hin E). unfold live_slot. by destruct (sl_stop_confirmed_at sl).
Qed.

Lemma live_reservation_kept id : live_reservation_of d6 id = live_reservation_of d3 id.
Proof.
  unfold live_reservation_of. rewrite pass_reservations. change (exec_capacity_reservations d3) with (exec_capacity_reservations d).
  destruct (decide (id ∈ sessions)) as [Hin|Hin]; [|by rewrite lookup_drop_keys_ne].
  rewrite lookup_drop_keys_in by done. destruct (exec_capacity_reservations d !! id) as [r|] eqn:E; [|done].
  pose proof (dead_reservation _ _ Hin E). by destruct (r_cleanup_confirmed_at r).
Qed.

Lemma no_jobs_left id j : exec_jobs d6 !! id = Some j -> gc_job d6 metadata id j = false.
Proof.
  rewrite pass_jobs, lookup_drop_keys. intros [Hj Hn]. unfold gc_job. rewrite live_reservation_kept, live_slot_kept.
  apply not_true_iff_false. intros Ht. apply Hn, jobs_selected. by exists j.
Qed.

Lemma no_commands_left id c : exec_commands d6 !! id = Some c -> gc_command d6 metadata id c = false.
Proof.
  intros Hc. pose proof (command_keeps_session _ _ Hc) as Hs. rewrite pass_commands, lookup_drop_keys in Hc.
  destruct Hc as [Hc Hn]. unfold gc_command. rewrite pass_sessions, live_slot_kept. rewrite lookup_drop_keys_ne by done.
  apply not_true_iff_false. intros Ht. apply Hn, commands_selected. by exists c.
Qed.

Lemma no_sessions_left id s : exec_sessions d6 !! id = Some s -> gc_session d6 metadata id s = false.
Proof.
  rewrite pass_sessions, lookup_drop_keys. intros [Hs Hn]. unfold gc_session. rewrite pass_reservations.
  rewrite lookup_drop_keys_ne by done. apply not_true_iff_false. intros Ht. apply Hn, sessions_selected. by exists s.
Qed.
End pass.

Lemma pass_db_keeps output metadata now m d : gc_keeps output metadata d (pass_db output metadata now m d).
Proof. apply pass_keeps. Qed.

(** The bindings do not matter to what is kept. *)
Lemma keeps_bindings output metadata d d1 d' : bindings_only d d1 -> gc_keeps output metadata d1 d' -> gc_keeps output metadata d d'.
Proof.
  intros E [K1 K2 K3 K4 K5 K6 K7 K8 K9]. unfold bindings_only in E.
  assert (exec_sessions d1 = exec_sessions d /\ exec_capacity_reservations d1 = exec_capacity_reservations d /\
    exec_commands d1 = exec_commands d /\ exec_command_events d1 = exec_command_events d /\
    exec_command_slots d1 = exec_command_slots d /\ exec_jobs d1 = exec_jobs d) as (E1 & E2 & E3 & E4 & E5 & E6)
    by (by rewrite E).
  unfold count_live_slots, count_live_reservations in *. rewrite E1, E2, E3, E4, E5, E6 in *. by split.
Qed.

Lemma CollectGarbage_Ok s m now options rep s' m' :
  CollectGarbage s m now options = (Ok rep, (s', m')) -> exists o t n d1, effective_options options = Ok (o, t) /\
    collectIdempotency now (db s) = Ok (n, d1) /\
    s' = store_db s (pass_db (formatStoredTime (now - o)) (formatStoredTime (now - t)) (formatStoredTime now) m d1) /\
    m' = pass_mirror (formatStoredTime (now - o)) (formatStoredTime (now - t)) (formatStoredTime now) m.
Proof.
  unfold CollectGarbage. destruct (effective_options options) as [[o t]|]; [|done].
  destruct (collect _ _ _ _) as [[rep' [d' m'']]|] eqn:E; [|done]. intros [= -> <- <-].
  apply collect_Ok in E as (n & d1 & Hn & _ & [= -> ->]). by exists o, t, n, d1.
Qed.

(** C39: Garbage collection never frees capacity and never touches unfinished
    work.  A successful pass keeps every live command slot and session
    reservation, so the live counts are unchanged; a session, command or job row
    that vanishes is terminal and at least as old as the metadata cutoff, a
    command row that changes loses only its output, is terminal and at least as
    old as the output cutoff; the event rows of a command are all kept, or all
    removed with its output marked as expired or its row gone; a remaining
    command keeps its session.  A failed pass changes nothing. *)
Theorem gc_keeps_live_work s m now options o t r s' m' :
  effective_options options = Ok (o, t) -> CollectGarbage s m now options = (r, (s', m')) ->
  match r with
  | Ok _ => gc_keeps (formatStoredTime (now - o)) (formatStoredTime (now - t)) (db s) (db s')
  | Err _ => s' = s /\ m' = m
  end.
Proof.
  intros Ho H. destruct r as [rep|e].
  - apply CollectGarbage_Ok in H as (o' & t' & n & d1 & Ho' & [Hb _]%collectIdempotency_Ok & -> & ->).
    rewrite Ho in Ho'. injection Ho' as <- <-. eapply keeps_bindings; [exact Hb|]. apply pass_db_keeps.
  - unfold CollectGarbage in H. rewrite Ho in H. destruct (collect _ _ _ _) as [[rep' [d' m'']]|]; [done|].
    by injection H as _ <- <-.
Qed.

(** ** A second pass *)
Lemma selected_nil {K A} `{Countable K} (p : K -> A -> bool) (t : gmap K A) :
  (forall k r, t !! k = Some r -> p k r = false) -> (map_to_list (rows_where p t)).*1 = [].
Proof. intros Hn. rewrite rows_where_none by done. by rewrite map_to_list_empty. Qed.

Lemma pass_selects_nothing output metadata now m d (d' := pass_db output metadata now m d) :
  gcJobIDs metadata d' = [] /\ gcCommandIDs metadata d' = [] /\ gcSessionIDs metadata d' = [].
Proof.
  split_and!; apply selected_nil; [apply no_jobs_left|apply no_commands_left|apply no_sessions_left].
Qed.

Lemma rows_count_none {A} (p : string -> list A -> bool) (t : gmap string (list A)) :
  (forall k r, t !! k = Some r -> p k r = false) -> row_count (rows_where p t) = 0%nat.
Proof. intros Hn. rewrite rows_where_none by done. unfold row_count. by rewrite map_to_list_empty. Qed.

Lemma size_none {K A} `{Countable K} (p : K -> A -> bool) (t : gmap K A) :
  (forall k r, t !! k = Some r -> p k r = false) -> size (rows_where p t) = 0%nat.
Proof. intros Hn. by rewrite rows_where_none. Qed.

(** *** The mirror *)
Section mirror.
Context (output metadata now : StoredTime) (m : Mirror).
Let m2 := expire_remote_output output m.
Let m' := pass_mirror output metadata now m.

Lemma mirror_rows id : local_remote_command_projections m' !! id =
  (fun r => if remote_output_expires m output id r then remote_output_expired r else r) <$> local_remote_command_projections m !! id.
Proof. apply lookup_update_where. Qed.

Lemma mirror_events id rows : local_remote_events m' !! id = Some rows -> local_remote_events m !! id = Some rows.
Proof. intros H. by apply lookup_delete_where in H as [H _]. Qed.

Lemma no_remote_output_left id r : local_remote_command_projections m' !! id = Some r -> remote_output_expires m' output id r = false.
Proof.
  rewrite mirror_rows. destruct (local_remote_command_projections m !! id) as [r0|]; [|done].
  cbn [fmap option_fmap option_map]. intros [= <-]. destruct (remote_output_expires m output id r0) eqn:E.
  { unfold remote_output_expires. cbn [remote_output_expired rc_output_unavailable_reason]. by rewrite bool_decide_eq_true_2, andb_false_r. }
  unfold remote_output_expires in *. destruct (CommandState_IsTerminal _), (bool_decide (rc_output_unavailable_reason r0 = _));
    cbn [negb andb] in *; try done. apply orb_false_iff in E as [Ee Eg]. apply orb_false_iff. split; [|exact Eg].
  unfold rows_of in *. destruct (local_remote_events m' !! id) as [rows|] eqn:Er; [|done].
  apply mirror_events in Er. by rewrite Er in Ee.
Qed.

Lemma no_remote_jobs_left id j : local_remote_job_projections m' !! id = Some j -> remote_job_output_expires m' id j = false.
Proof.
  assert (local_remote_job_projections m' !! id = (fun j => if remote_job_output_expires m2 id j
    then remote_job_output_expired j else j) <$> local_remote_job_projections m !! id) as E by apply lookup_update_where.
  rewrite E. destruct (local_remote_job_projections m !! id) as [j0|]; [|done]. cbn [fmap option_fmap option_map].
  intros [= <-]. destruct (remote_job_output_expires m2 id j0) eqn:Ej; [|exact Ej].
  unfold remote_job_output_expires. cbn [remote_job_output_expired rj_output_unavailable_reason]. by rewrite andb_false_r.
Qed.

Lemma no_remote_events_left id rows : local_remote_events m' !! id = Some rows -> remote_events_expire m' now id rows = false.
Proof. intros H. by apply lookup_delete_where in H as [_ H]. Qed.

Lemma no_diagnostics_left k r : mailbox_ingress_diagnostics m' !! k = Some r -> collectable_diagnostic metadata k r = false.
Proof. intros H. by apply lookup_delete_where in H as [_ H]. Qed.
End mirror.

(** *** The bindings *)
Lemma dropExpiredWarnings_Ok now rows u d d' :
  dropExpiredWarnings now rows d = Ok (u, d') ->
  forall k text, exec_idempotency_expiry_warnings d' !! k = Some text ->
    exec_idempotency_expiry_warnings d !! k = Some text /\
    ((k, text) ∈ rows -> exists w, parseStoredTime text = Some w /\ now < w).
Proof.
  revert u d. induction rows as [|[key t0] rows IH]; intros u d H k text Hk; cbn [dropExpiredWarnings] in H.
  { tx_inv H. split; [done|]. by intros ?%not_elem_of_nil. }
  apply stx_bind_Ok in H as (w & d1 & [Hw <-]%or_fail_Ok & H). apply stx_bind_Ok in H as ([] & d1 & H1 & H).
  destruct (IH _ _ H k text Hk) as [Hd1 Hrows]. destruct (now <? w) eqn:E; tx_inv H1.
  - split; [done|]. intros [Heq|Hin]%elem_of_cons; [|auto]. injection Heq as -> ->. exists w. split; [done|lia].
  - db_simpl. apply lookup_delete_Some in Hd1 as [Hne Hd]. split; [done|].
    intros [Heq|Hin]%elem_of_cons; [congruence|auto].
Qed.

Lemma dropExpiredWarnings_none now rows d :
  Forall (fun '(_, text) => exists w, parseStoredTime text = Some w /\ now < w) rows ->
  dropExpiredWarnings now rows d = Ok (tt, d).
Proof.
  induction 1 as [|[k text] rows (w & Hw & Hlt) _ IH]; [done|]. cbn [dropExpiredWarnings]. rewrite Hw. tx_run.
  rewrite (proj2 (Z.ltb_lt _ _) Hlt). tx_run. exact IH.
Qed.

Lemma collectIdempotency_again now n d d1 d2 :
  collectIdempotency now d = Ok (n, d1) -> exec_idempotency d2 = exec_idempotency d1 ->
  exec_idempotency_expiry_warnings d2 = exec_idempotency_expiry_warnings d1 -> collectIdempotency now d2 = Ok (0%nat, d2).
Proof.
  intros H Ei Ew. pose proof (collectIdempotency_Ok _ _ _ _ H) as [_ Ed].
  assert (forall k r, exec_idempotency d2 !! k = Some r -> expired_binding now k r = false) as Hno.
  { intros k r. rewrite Ei, Ed. by intros [_ ?]%lookup_delete_where. }
  assert (Forall (fun '(_, text) => exists w, parseStoredTime text = Some w /\ now < w)
    (map_to_list (exec_idempotency_expiry_warnings d2))) as Hw.
  { unfold collectIdempotency in H. apply stx_bind_Ok in H as (keys & x1 & [_ <-]%query_Ok & H).
    apply stx_bind_Ok in H as ([] & x1 & _ & H). apply stx_bind_Ok in H as (k & x2 & [_ <-]%query_Ok & H).
    apply stx_bind_Ok in H as ([] & x2 & [_ ->]%modify_Ok & H). apply stx_bind_Ok in H as (ws & x2 & [<- <-]%query_Ok & H).
    apply stx_bind_Ok in H as ([] & x2 & Hdrop & H). tx_inv H. apply Forall_forall. intros [k0 text] Hin%elem_of_map_to_list.
    rewrite Ew in Hin. destruct (dropExpiredWarnings_Ok _ _ _ _ _ Hdrop _ _ Hin) as [Hd Hp]. apply Hp.
    by apply elem_of_map_to_list. }
  unfold collectIdempotency. tx_run. rewrite rows_where_none by done. rewrite map_to_list_empty. cbn [recordExpiredKeys].
  tx_run. rewrite rows_where_none, delete_where_none by done.
  replace (set_idempotency (exec_idempotency d2) d2) with d2 by (by destruct d2).
  rewrite (stx_bind_run _ _ _ _ _ (dropExpiredWarnings_none now _ d2 Hw)). done.
Qed.

Definition empty_report : GarbageCollectionReport := mkGarbageCollectionReport 0 0 0 0 0 0 0 0 0.

(** A database and a mirror in which nothing meets a condition of the pass. *)
Record clean (output metadata now : Z) (d : DB) (m : Mirror) : Prop := {
  cl_bindings : collectIdempotency now d = Ok (0%nat, d);
  cl_output : forall id c, exec_commands d !! id = Some c -> output_expires d (formatStoredTime output) id c = false;
  cl_job_output : forall id j, exec_jobs d !! id = Some j -> job_output_expires d id j = false;
  cl_remote : forall id r, local_remote_command_projections m !! id = Some r ->
    remote_output_expires m (formatStoredTime output) id r = false;
  cl_remote_jobs : forall id j, local_remote_job_projections m !! id = Some j -> remote_job_output_expires m id j = false;
  cl_events : forall id rows, exec_command_events d !! id = Some rows -> events_expire d m (formatStoredTime now) id rows = false;
  cl_remote_events : forall id rows, local_remote_events m !! id = Some rows ->
    remote_events_expire m (formatStoredTime now) id rows = false;
  cl_jobs : gcJobIDs (formatStoredTime metadata) d = [];
  cl_commands : gcCommandIDs (formatStoredTime metadata) d = [];
  cl_sessions : gcSessionIDs (formatStoredTime metadata) d = [];
  cl_diagnostics : forall k r, mailbox_ingress_diagnostics m !! k = Some r ->
    collectable_diagnostic (formatStoredTime metadata) k r = false
}.

Lemma on_db_run {A} (m : tx A) a d d' mir : m d = Ok (a, d') -> on_db m (d, mir) = Ok (a, (d', mir)).
Proof. intros H. apply on_db_Ok. by exists d'. Qed.

Lemma expireCommandOutput_none output d :
  (forall id c, exec_commands d !! id = Some c -> output_expires d output id c = false) ->
  (forall id j, exec_jobs d !! id = Some j -> job_output_expires d id j = false) ->
  expireCommandOutput output d = Ok (0%nat, d).
Proof.
  intros Hc Hj. unfold expireCommandOutput. tx_run. rewrite (update_where_none _ _ _ Hc), (size_none _ _ Hc).
  replace (set_commands (exec_commands d) d) with d by (by destruct d). rewrite (update_where_none _ _ _ Hj). by destruct d.
Qed.

Lemma expireRemoteOutput_none output d m :
  (forall id r, local_remote_command_projections m !! id = Some r -> remote_output_expires m output id r = false) ->
  (forall id j, local_remote_job_projections m !! id = Some j -> remote_job_output_expires m id j = false) ->
  expireRemoteOutput output (d, m) = Ok (0%nat, (d, m)).
Proof.
  intros Hc Hj. unfold expireRemoteOutput, on_mirror. tx_run. cbn [fst snd]. rewrite (update_where_none _ _ _ Hc), (size_none _ _ Hc).
  replace (set_remote_commands (local_remote_command_projections m) m) with m by (by destruct m).
  rewrite (update_where_none _ _ _ Hj). by destruct m.
Qed.

Lemma collect_clean output metadata now d m :
  clean output metadata now d m -> collect output metadata now (d, m) = Ok (empty_report, (d, m)).
Proof.
  intros [Hb Ho Hj Hr Hrj He Hre H1 H2 H3 Hd]. unfold collect. cbv zeta.
  rewrite (stx_bind_run _ _ _ _ _ (on_db_run _ _ _ _ m Hb)).
  rewrite (stx_bind_run _ _ _ _ _ (on_db_run _ _ _ _ m (expireCommandOutput_none _ _ Ho Hj))).
  rewrite (stx_bind_run _ _ _ _ _ (expireRemoteOutput_none _ d _ Hr Hrj)).
  assert (deleteExpiredEvents (formatStoredTime now) (d, m) = Ok (0%nat, (d, m))) as Hev.
  { unfold deleteExpiredEvents. tx_run. cbn [fst snd]. rewrite rows_count_none by done.
    rewrite (stx_bind_run _ _ _ tt (d, m)); [done|]. apply on_db_Ok. exists d. split; [|done]. apply modify_Ok. split; [done|].
    rewrite delete_where_none by done. by destruct d. }
  rewrite (stx_bind_run _ _ _ _ _ Hev).
  assert (deleteExpiredRemoteEvents (formatStoredTime now) (d, m) = Ok (0%nat, (d, m))) as Hrev.
  { unfold deleteExpiredRemoteEvents, on_mirror. tx_run. cbn [fst snd]. rewrite rows_count_none, delete_where_none by done.
    by destruct m. }
  rewrite (stx_bind_run _ _ _ _ _ Hrev). unfold collectMetadata. tx_run. cbn [fst snd].
  rewrite (stx_bind_run _ _ _ 0%nat (d, m)) by (unfold stx_bind; tx_run; cbn [fst snd]; by rewrite H1).
  rewrite (stx_bind_run _ _ _ 0%nat (d, m)) by (tx_run; cbn [fst snd]; by rewrite H2).
  rewrite (stx_bind_run _ _ _ 0%nat (d, m)) by (tx_run; cbn [fst snd]; by rewrite H3).
  unfold collectDiagnostics, on_mirror. tx_run. cbn [fst snd].
  rewrite (stx_bind_run _ _ _ 0%nat (d, m)); [done|]. tx_run. cbn [fst snd]. rewrite size_none, delete_where_none by done.
  by destruct m as [? ? ? ? ? ? ? ? ? ? []].
Qed.

(** Garbage collection is complete in one pass: repeating a successful pass at
    the same time with the same options removes nothing, reports nothing and
    changes nothing.  In particular the deletion of jobs, commands and sessions
    is ordered so that what one deletion releases the next one takes. *)
Theorem gc_idempotent s m now options rep s' m' :
  CollectGarbage s m now options = (Ok rep, (s', m')) ->
  CollectGarbage s' m' now options = (Ok empty_report, (s', m')).
Proof.
  intros H. apply CollectGarbage_Ok in H as (o & t & n & d1 & Ho & Hn & -> & ->). unfold CollectGarbage. rewrite Ho.
  cbn [db store_db]. rewrite collect_clean; [by destruct s|].
  pose proof (pass_selects_nothing (formatStoredTime (now - o)) (formatStoredTime (now - t)) (formatStoredTime now) m d1) as (?&?&?).
  split; try done.
  - by eapply collectIdempotency_again.
  - apply no_output_left.
  - apply no_job_output_left.
  - apply no_remote_output_left.
  - apply no_remote_jobs_left.
  - intros id rows. by apply no_events_left.
  - apply no_remote_events_left.
  - apply no_diagnostics_left.
Qed.

(** ** A reference blocks every pass *)
Lemma eligible_command_deleted output metadata now m d id c :
  exec_commands d !! id = Some c -> gc_command d metadata id c = true -> id ∈ pass_commands_deleted output metadata now m d.
Proof.
  intros Hc Hgc. apply selected_keys. exists (if output_expires d output id c then command_output_expired c else c). split.
  { change (exec_commands (expire_output output d) !! id = Some (if output_expires d output id c then command_output_expired c else c)).
    rewrite expired_rows, Hc. done. }
  unfold gc_command in Hgc |- *. db_simpl.
  replace (c_session_id (if output_expires d output id c then command_output_expired c else c)) with (c_session_id c)
    by (by destruct (output_expires d output id c)).
  change (exec_sessions (drop_jobs _ _)) with (exec_sessions d). destruct (exec_sessions d !! c_session_id c) as [s|]; [|done].
  replace (c_state (if output_expires d output id c then command_output_expired c else c)) with (c_state c)
    by (by destruct (output_expires d output id c)).
  replace (c_updated_at (if output_expires d output id c then command_output_expired c else c)) with (c_updated_at c)
    by (by destruct (output_expires d output id c)).
  bool_norm. repeat (apply andb_true_iff; split); try done; try (apply negb_true_iff; done).
  apply negb_true_iff, exists_row_false. intros jid j [Hj _]%lookup_drop_keys.
  match goal with H : job_of_command d id = false |- _ => unfold job_of_command in H; rewrite exists_row_false in H; rename H into Hno end.
  change (exec_jobs (expire_output output d) !! jid = Some j) in Hj. rewrite expired_jobs in Hj.
  destruct (exec_jobs d !! jid) as [j0|] eqn:E0; [|done]. cbn [fmap option_fmap option_map] in Hj. injection Hj as <-.
  specialize (Hno _ _ E0). by destruct (job_output_expires _ _ _).
Qed.

Lemma gc_command_bindings d d1 cutoff id c : bindings_only d d1 -> gc_command d1 cutoff id c = gc_command d cutoff id c.
Proof. unfold bindings_only. intros ->. done. Qed.

(** C40: A mailbox event-file reference blocks garbage collection.  The reference
    rows are never deleted and refer to the command with ON DELETE RESTRICT, but
    the selection of commands does not look at them: once a referenced command is
    old enough to be selected, the deletion of its row is refused and every pass
    fails and is rolled back, so that nothing at all is collected any more. *)
Theorem gc_blocked_by_event_reference s m now options o t id c x :
  effective_options options = Ok (o, t) -> exec_commands (db s) !! id = Some c ->
  gc_command (db s) (formatStoredTime (now - t)) id c = true -> mailbox_event_file_references m !! x = Some id ->
  exists e, CollectGarbage s m now options = (Err e, (s, m)).
Proof.
  intros Ho Hc Hgc Hx. unfold CollectGarbage. rewrite Ho. destruct (collect _ _ _ _) as [[rep [d' m']]|e] eqn:E; [|by exists e].
  exfalso. apply collect_Ok in E as (n & d1 & [Hb _]%collectIdempotency_Ok & Hun & _). rewrite Forall_forall in Hun.
  apply (Hun id) in Hx; [done|]. apply eligible_command_deleted with c.
  - by rewrite Hb.
  - by rewrite (gc_command_bindings _ _ _ _ _ Hb).
Qed.

(** ** Bindings and the text of a timestamp *)
Lemma drop_zeros_nil l : drop_zeros l = [] -> Forall (fun b => b = 48) l.
Proof.
  induction l as [|b l IH]; cbn [drop_zeros]; [done|]. destruct (b =? 48) eqn:E; [|done]. intros Hl.
  constructor; [lia|auto].
Qed.

Lemma zero_digits n x : Forall (fun b => b = 48) (decimal_digits n x) -> 0 <= x < 10 ^ Z.of_nat n -> x = 0.
Proof.
  revert x. induction n as [|n IH]; intros x H Hx; [change (10 ^ Z.of_nat 0) with 1 in Hx; lia|].
  cbn [decimal_digits] in H. apply Forall_app in H as [H1 H2]. apply Forall_cons in H2 as [H2 _].
  rewrite Nat2Z.inj_succ, Z.pow_succ_r in Hx by lia.
  assert (x / 10 = 0) as E by (apply (IH _ H1); Z.div_mod_to_equations; lia). Z.div_mod_to_equations. lia.
Qed.

(** A fraction sorts before the whole second. *)
Lemma fraction_before f : 0 < f < second -> string_le (fraction_text f) (fraction_text 0).
Proof.
  intros Hf. unfold fraction_text at 1. cbv zeta. destruct (rev (drop_zeros (rev (decimal_digits 9 f)))) as [|b l] eqn:E.
  { exfalso. apply (f_equal (@rev Z)) in E. rewrite rev_involutive in E. cbn [rev] in E. apply drop_zeros_nil in E.
    assert (f = 0); [|lia]. apply (zero_digits 9); [|change (10 ^ Z.of_nat 9) with second; lia].
    apply Forall_forall. intros x Hx. rewrite Forall_forall in E. apply E. apply list_elem_of_In, in_rev. rewrite rev_involutive.
    by apply list_elem_of_In. }
  cbn [is_nil]. reflexivity.
Qed.

(** A binding can be collected while it is in force.  Timestamps are compared
    as texts, in which a fraction of a second sorts before the whole second: a
    pass at a whole second deletes every binding that expires later within that
    second, although a lookup at that time still returns it.  A binding that
    expires in a later second is kept. *)
Theorem gc_deletes_live_binding s m now options rep s' m' k row e :
  storable now -> exec_idempotency (db s) !! k = Some row -> i_expires_at row = StoredInstant e ->
  CollectGarbage s m now options = (Ok rep, (s', m')) ->
  (now mod second = 0 -> now < e -> e / second = now / second -> exec_idempotency (db s') !! k = None) /\
  (now / second < e / second -> exec_idempotency (db s') !! k = Some row).
Proof.
  intros Hnow Hk He H. apply CollectGarbage_Ok in H as (o & t & n & d1 & _ & [_ Hi]%collectIdempotency_Ok & -> & _).
  change (exec_idempotency (db (store_db s (pass_db (formatStoredTime (now - o)) (formatStoredTime (now - t))
    (formatStoredTime now) m d1)))) with (exec_idempotency d1). rewrite Hi.
  assert (expired_binding now k row = bool_decide (stored_le (StoredInstant e) (StoredInstant now))) as Eb.
  { unfold expired_binding, stored_le_b. by rewrite He, format_storable. }
  split.
  - intros H0 Hlt Hsec. apply eq_None_not_Some. intros [r [Hr Hf]%lookup_delete_where]. rewrite Hk in Hr. injection Hr as <-.
    rewrite Eb, bool_decide_eq_false in Hf. apply Hf. cbn [stored_le]. rewrite Hsec, Z.eqb_refl. cbn [negb].
    rewrite H0. apply fraction_before. pose proof (Z.mod_pos_bound e second ltac:(done)). Z.div_mod_to_equations. lia.
  - intros Hlt. apply lookup_delete_where. split; [done|]. rewrite Eb. apply bool_decide_eq_false. cbn [stored_le].
    rewrite (proj2 (Z.eqb_neq _ _)) by lia. cbn [negb]. lia.
Qed.

(** ** Witnesses *)
Definition days (n : Z) : Z := n * 24 * hour.
Definition default_options : GarbageCollectionOptions := mkGarbageCollectionOptions 0 0.

(** The state of the example history: one command ended, the other one runs. *)
Definition gc_running : AuthorityStore := Eval vm_compute in example_state.

Lemma gc_keeps_live_work_witness :
  exists rep s' m', CollectGarbage gc_running empty_mirror (t0 + days 40) default_options = (Ok rep, (s', m')) /\
    gcr_CommandsOutputExpired rep = 1%nat /\ gcr_CommandEventsDeleted rep = 4%nat /\
    count_live_slots (db s') = 1 /\ count_live_reservations (db s') = 1.
Proof.
  destruct (CollectGarbage gc_running empty_mirror (t0 + days 40) default_options) as [r [s' m']] eqn:E.
  assert (exists rep, r = Ok rep /\ gcr_CommandsOutputExpired rep = 1%nat /\ gcr_CommandEventsDeleted rep = 4%nat) as (rep & -> & H1 & H2).
  { change r with (fst (r, (s', m'))). rewrite <- E. eexists. vm_compute. split_and!; reflexivity. }
  destruct (gc_keeps_live_work gc_running empty_mirror (t0 + days 40) default_options DefaultOutputRetention
    DefaultMetadataRetention _ _ _ eq_refl E) as [_ _ _ _ _ _ _ Hs Hr].
  exists rep, s', m'. split; [reflexivity|]. split; [exact H1|]. split; [exact H2|]. rewrite Hs, Hr.
  vm_compute. split; reflexivity.
Defined.

Lemma gc_idempotent_witness :
  exists rep s' m', CollectGarbage gc_running empty_mirror (t0 + days 40) default_options = (Ok rep, (s', m')) /\
    rep <> empty_report /\ CollectGarbage s' m' (t0 + days 40) default_options = (Ok empty_report, (s', m')).
Proof.
  destruct (CollectGarbage gc_running empty_mirror (t0 + days 40) default_options) as [r [s' m']] eqn:E.
  assert (exists rep, r = Ok rep /\ rep <> empty_report) as (rep & -> & Hne).
  { change r with (fst (r, (s', m'))). rewrite <- E. eexists. split; [vm_compute; reflexivity|discriminate]. }
  exists rep, s', m'. split; [reflexivity|]. split; [exact Hne|]. exact (gc_idempotent _ _ _ _ _ _ _ E).
Defined.

(** A session that ran one command and is closed. *)
Definition gc_closed : AuthorityStore := Eval vm_compute in
  runs [ (t0, OpAcceptSessionCreate example_acceptance);
         (t0 + second, OpCompleteSessionCreation "s1" SessionStateReady "gen-1" "" "runtime_ready");
         (t0 + 2 * second, OpAcceptCommand (example_command "c1" "key-c1" "echo hi"));
         (t0 + 3 * second, OpStartNext 0 true);
         (t0 + 4 * second, OpCompleteRunningCommand example_success SessionStateReady "command_completed" true);
         (t0 + 5 * second, OpTransitionSession "s1" SessionStateClosing "session_closing");
         (t0 + 6 * second, OpTransitionSession "s1" SessionStateClosed "session_closed");
         (t0 + 7 * second, OpConfirmSessionCleanup "s1") ] new_store.

(** The response that referred to the events of the command is long removed. *)
Definition gc_mirror : Mirror :=
  let receipt := mkReceiptColumns "default" "r1" "submit_command" (mkControllerIdentity ControllerTypeLocalUser "user-1") "" "" 1
    (sha256 "{}") "{}" "" (mkSelectionColumns "" "" "" "" "" "" []) MailboxExecutionSelectionLegacy None true false (formatStoredTime t0) in
  let response := mkResponseColumns MailboxExchangeComplete 1 (Some "{}") (Some (sha256 "{}")) (Some "{}") (Some (sha256 "{}")) (Some 1) in
  on_mailbox_tables (fun b =>
    set_references {["x1" := "c1"]} (set_exchanges {["x1" := mkExchangeRow receipt response (formatStoredTime t0) None
      (Some (formatStoredTime (t0 + days 2))) (Some (formatStoredTime (t0 + days 2))) (Some (formatStoredTime (t0 + days 3)))]} b)) empty_mirror.

(** Without the reference the pass deletes the command and the session. *)
Example gc_unreferenced :
  (fun rep => (gcr_CommandsDeleted rep, gcr_SessionsDeleted rep)) <$>
    match fst (CollectGarbage gc_closed empty_mirror (t0 + days 100) default_options) with Ok rep => Some rep | Err _ => None end
  = Some (1%nat, 1%nat).
Proof. vm_compute. reflexivity. Qed.

Lemma gc_blocked_by_event_reference_witness :
  exists e, CollectGarbage gc_closed gc_mirror (t0 + days 100) default_options = (Err e, (gc_closed, gc_mirror)).
Proof.
  assert (exists c, exec_commands (db gc_closed) !! "c1" = Some c /\
    gc_command (db gc_closed) (formatStoredTime (t0 + days 100 - DefaultMetadataRetention)) "c1" c = true) as (c & E & Hc).
  { eexists. split; [vm_compute; reflexivity|vm_compute; reflexivity]. }
  exact (gc_blocked_by_event_reference gc_closed gc_mirror (t0 + days 100) default_options DefaultOutputRetention
    DefaultMetadataRetention "c1" c "x1" eq_refl E Hc ltac:(vm_compute; reflexivity)).
Defined.

(** A binding of one and a half seconds. *)
Definition gc_bound : AuthorityStore := Eval vm_compute in
  snd (EnsureIdempotency new_store t0 example_controller "submit_command" "k1" (example_hash "a") "c1" (second + second / 2)).

Lemma gc_deletes_live_binding_witness :
  fst (EnsureIdempotency gc_bound (t0 + second) example_controller "submit_command" "k1" (example_hash "b") "c2" 0)
    = Err ErrIdempotencyConflict /\
  exists rep s' m', CollectGarbage gc_bound empty_mirror (t0 + second) default_options = (Ok rep, (s', m')) /\
    exec_idempotency (db s') !! idem_key example_controller "submit_command" "k1" = None /\
    result_is_ok (fst (EnsureIdempotency s' (t0 + second) example_controller "submit_command" "k1" (example_hash "b") "c2" 0)) = true.
Proof.
  split; [vm_compute; reflexivity|].
  assert (exists row, exec_idempotency (db gc_bound) !! idem_key example_controller "submit_command" "k1" = Some row /\
    i_expires_at row = StoredInstant (t0 + second + second / 2)) as (row & Erow & He).
  { eexists. split; [vm_compute; reflexivity|vm_compute; reflexivity]. }
  assert (exists rep s' m', CollectGarbage gc_bound empty_mirror (t0 + second) default_options = (Ok rep, (s', m')) /\
    result_is_ok (fst (EnsureIdempotency s' (t0 + second) example_controller "submit_command" "k1" (example_hash "b") "c2" 0)) = true)
    as (rep & s' & m' & E & Hok).
  { do 3 eexists. split; [vm_compute; reflexivity|vm_compute; reflexivity]. }
  assert (storable (t0 + second)) as Hs by (refine (bool_decide_eq_true_1 _ _); vm_compute; reflexivity).
  pose proof (gc_deletes_live_binding gc_bound empty_mirror (t0 + second) default_options rep s' m' _ row _ Hs Erow He E) as [Hdel _].
  exists rep, s', m'. exact (conj E (conj (Hdel ltac:(vm_compute; reflexivity) ltac:(vm_compute; reflexivity)
    ltac:(vm_compute; reflexivity)) Hok)).
Defined.
