(* ===== verification/MirrorStreams.v ===== *)
(** * Correctness of the event mirror

    The mirrored rows of a command are always a lawful prefix of an event stream
    that ends at the cursor; mirroring a batch is exact and can be repeated; a
    controller that mirrors what the authority replays holds a prefix of the
    authority's stream; a confirmed gap decides what every projection says about
    the output; and garbage collection breaks the check of an expired prefix. *)
From S2P Require Import Prelude GoStrings Sha256 Identity Lifecycle Policy Canonical LaneAdmission.
From S2P Require Import AuditRecords JsonText Db AuditStore AdmissionStore Idempotency Sessions Commands.
From S2P Require Import LostRecovery RestartPlan Jobs Scheduler RemoteDb RemoteProjections RemoteEvents RemoteUpserts.
From S2P Require Import Authority AuthorityOps JobOps Histories AuthorityTheorems.

(** ** The grammar of a stream *)
Definition valid_event (ev : RemoteEventRecord) : Prop := validateRemoteEventRecord ev = Ok ev.

Lemma validateRemoteEventRecord_Ok ev ev' : validateRemoteEventRecord ev = Ok ev' <-> ev' = ev /\ valid_event ev.
Proof.
  unfold valid_event. assert (validateRemoteEventRecord ev = Ok ev' -> ev' = ev) as H.
  { unfold validateRemoteEventRecord. intros H. tx_inv H. apply NewCommandID_Ok in Hrun as [-> _]. by destruct ev. }
  split; [intros E; specialize (H E); subst; auto|by intros [-> ->]].
Qed.

Lemma validateBatch_Ok evs evs' : validateRemoteEventBatch evs = Ok evs' <-> evs' = evs /\ Forall valid_event evs.
Proof.
  revert evs'. induction evs as [|ev evs IH]; intros evs'; cbn [validateRemoteEventBatch].
  { split; [intros [= <-]; auto|by intros [-> _]]. }
  split.
  - intros H. tx_inv H. apply validateRemoteEventRecord_Ok in Hrun as [-> ?]. apply IH in Hrun0 as [-> ?]. auto.
  - intros [-> [Hv Hf]%Forall_cons]. rewrite Hv. cbn [mbind result_bind]. by rewrite (proj2 (IH evs)) by done.
Qed.

(** One round of the loop of [InspectRemoteEventLifecycle], for events of one command. *)
Definition inspectOne (index : Z) (result : RemoteEventLifecycle) (ev : RemoteEventRecord) : Prelude.result RemoteEventLifecycle :=
  refuse_if (negb (ev_Sequence ev =? index + 1)) ErrRemoteEventGap;;
  refuse_if (xorb (index =? 0) (bool_decide (ev_Type ev = command_queued))) ErrRemoteEventBatch;;
  refuse_if (is_Some_b (lc_TerminalState result)) ErrRemoteEventTerminal;;
  inspectType result (ev_Type ev).

Section grammar.
Context (id : string).
Notation of_command := (fun ev : RemoteEventRecord => valid_event ev /\ ev_CommandID ev = id).

Lemma inspectEvents_cons k first r ev evs :
  of_command ev -> (k = 0 \/ first = id) ->
  inspectEvents k first r (ev :: evs) = (r' ← inspectOne k r ev; inspectEvents (k + 1) id r' evs).
Proof.
  intros [Hv Hid] Hk. cbn [inspectEvents]. unfold valid_event in Hv. rewrite Hv. cbn [mbind result_bind]. unfold inspectOne.
  destruct (ev_Sequence ev =? k + 1); cbn [negb refuse_if mbind result_bind]; [|done].
  destruct (k =? 0) eqn:E; cbn [xorb].
  - rewrite Hid. destruct (bool_decide (ev_Type ev = command_queued)); cbn [negb refuse_if mbind result_bind]; [|done].
    by destruct (is_Some_b (lc_TerminalState r)).
  - destruct Hk as [->| ->]; [done|]. rewrite (bool_decide_eq_true_2 (ev_CommandID ev = id)) by done. cbn [negb orb].
    destruct (bool_decide (ev_Type ev = command_queued)); cbn [refuse_if mbind result_bind]; [done|].
    by destruct (is_Some_b (lc_TerminalState r)).
Qed.

Fixpoint inspectList (k : Z) (r : RemoteEventLifecycle) (evs : list RemoteEventRecord) : result RemoteEventLifecycle :=
  match evs with
  | [] => Ok r
  | ev :: evs => r' ← inspectOne k r ev; inspectList (k + 1) r' evs
  end.

Lemma inspectEvents_list k first r evs :
  Forall of_command evs -> (k = 0 \/ first = id) -> inspectEvents k first r evs = inspectList k r evs.
Proof.
  intros H. revert k first r. induction H as [|ev evs Hev H IH]; intros k first r Hk; [done|].
  rewrite inspectEvents_cons by done. cbn [inspectList]. destruct (inspectOne k r ev); cbn [mbind result_bind]; [|done].
  apply IH. by right.
Qed.

Lemma Inspect_list evs : Forall of_command evs -> InspectRemoteEventLifecycle evs = inspectList 0 empty_lifecycle evs.
Proof. intros H. apply inspectEvents_list; [done|by left]. Qed.

Lemma inspectList_app k r l1 l2 :
  inspectList k r (l1 ++ l2) = (r' ← inspectList k r l1; inspectList (k + Z.of_nat (length l1)) r' l2).
Proof.
  revert k r. induction l1 as [|ev l1 IH]; intros k r; cbn [app inspectList].
  { cbn [length mbind result_bind]. f_equal. simpl. lia. }
  destruct (inspectOne k r ev) as [r'|]; cbn [mbind result_bind]; [|done]. rewrite IH. cbn [length].
  destruct (inspectList (k + 1) r' l1); cbn [mbind result_bind]; [|done]. f_equal. lia.
Qed.

Lemma inspect_snoc evs ev l :
  Forall of_command (evs ++ [ev]) ->
  InspectRemoteEventLifecycle (evs ++ [ev]) = Ok l <->
  exists l0, InspectRemoteEventLifecycle evs = Ok l0 /\ inspectOne (Z.of_nat (length evs)) l0 ev = Ok l.
Proof.
  intros H. pose proof H as [H0 _]%Forall_app. rewrite (Inspect_list _ H), (Inspect_list _ H0), inspectList_app.
  cbn [inspectList]. rewrite result_bind_Ok. split; intros (l0 & H1 & H2); exists l0; (split; [done|]).
  - rewrite Z.add_0_l in H2. destruct (inspectOne _ _ _); [|done]. done.
  - by rewrite Z.add_0_l, H2.
Qed.

Lemma inspect_prefix l1 l2 l :
  Forall of_command (l1 ++ l2) -> InspectRemoteEventLifecycle (l1 ++ l2) = Ok l -> exists l', InspectRemoteEventLifecycle l1 = Ok l'.
Proof.
  intros Hf. pose proof Hf as [Hf1 _]%Forall_app. rewrite (Inspect_list _ Hf), (Inspect_list _ Hf1), inspectList_app, result_bind_Ok.
  intros (l' & H & _). by exists l'.
Qed.

Lemma inspectOne_Ok k r ev r' :
  inspectOne k r ev = Ok r' <->
  ev_Sequence ev = k + 1 /\ (k = 0 <-> ev_Type ev = command_queued) /\ lc_TerminalState r = None /\
  inspectType r (ev_Type ev) = Ok r'.
Proof.
  unfold inspectOne. rewrite !refuse_if_bind, negb_false_iff, Z.eqb_eq. apply and_iff_compat_l.
  assert (xorb (k =? 0) (bool_decide (ev_Type ev = command_queued)) = false <-> (k = 0 <-> ev_Type ev = command_queued)) as ->.
  { destruct (k =? 0) eqn:E, (bool_decide_reflect (ev_Type ev = command_queued)); bool_norm; simpl; naive_solver. }
  apply and_iff_compat_l. assert (is_Some_b (lc_TerminalState r) = false <-> lc_TerminalState r = None) as ->; [|done].
  by destruct (lc_TerminalState r).
Qed.

Lemma inspect_sequences evs l :
  Forall of_command evs -> InspectRemoteEventLifecycle evs = Ok l ->
  ev_Sequence <$> evs = seqZ 1 (Z.of_nat (length evs)).
Proof.
  revert l. induction evs as [|ev evs IH] using rev_ind; intros l Hf H; [done|].
  apply inspect_snoc in H as (l0 & H0 & (Hs & _)%inspectOne_Ok); [|done]. apply Forall_app in Hf as [Hf _].
  rewrite fmap_app, (IH _ Hf H0), length_app, Nat2Z.inj_add, seqZ_app by lia. f_equal. cbn [fmap list_fmap length].
  rewrite Hs. rewrite seqZ_cons, seqZ_nil by lia. f_equal. lia.
Qed.
End grammar.

(** ** The streams of the authority obey the grammar *)
Definition is_truncation (ev : RemoteEventRecord) : bool := bool_decide (ev_Type ev = output_truncated).

(** What the mirror asks of an event beyond what the authority checks. *)
Definition mirrorable (id : string) (ev : RemoteEventRecord) : Prop :=
  ev_CommandID ev = id /\ go_len (ev_Payload ev) <= maxRemoteEventPayload /\ storable (ev_OccurredAt ev).

Lemma row_valid_event id ev : id <> "" -> mirrorable id ev -> row_valid (event_row_of ev) -> valid_event ev.
Proof.
  intros Hne (Hid & Hlen & Ht) [Hv Hval]. unfold valid_event, validateRemoteEventRecord.
  rewrite (proj2 (NewCommandID_Ok _ (ev_CommandID ev))) by (by rewrite Hid). cbn [result_map_err mbind result_bind].
  unfold validateStoredCommandEvent in Hval. cbn [event_row_of e_type e_sequence e_payload e_byte_count] in Hv, Hval.
  rewrite !refuse_if_bind in Hval. destruct Hval as (H1 & _ & _ & H2). bool_norm.
  rewrite (proj2 (Z.leb_gt (ev_Sequence ev) 0)) by lia.
  assert (validRemoteEventType (ev_Type ev) = true) as -> by done.
  assert (IsZero (ev_OccurredAt ev) = false) as -> by (unfold IsZero; unfold storable in Ht; lia).
  cbn [negb orb refuse_if mbind result_bind]. rewrite (proj2 (Z.ltb_ge (ev_ByteCount ev) 0)) by lia.
  cbn [refuse_if mbind result_bind]. destruct (is_output (ev_Type ev)).
  - apply refuse_if_Ok in H2 as [_ H2]. rewrite H2, (proj2 (Z.ltb_ge _ _)) by lia. cbn [orb refuse_if mbind result_bind]. by destruct ev.
  - apply refuse_if_Ok in H2 as [_ H2]. rewrite H2. cbn [refuse_if mbind result_bind]. by destruct ev.
Qed.

(** What the lifecycle of a stream says of the state of its command. *)
Record describes (st : CommandState) (evs : list RemoteEventRecord) (l : RemoteEventLifecycle) : Prop := {
  ds_terminal : lc_TerminalState l = (if CommandState_IsTerminal st then Some st else None);
  ds_queued : st = CommandStateQueued -> lc_Started l = false;
  ds_active : st = CommandStateRunning \/ st = CommandStateCancelling -> lc_Started l = true;
  ds_truncated : lc_OutputTruncated l = existsb is_truncation evs
}.

Lemma existsb_snoc {A} (p : A -> bool) l x : existsb p (l ++ [x]) = existsb p l || p x.
Proof. rewrite existsb_app. cbn [existsb]. by rewrite orb_false_r. Qed.

(** At most one truncation marker. *)
Definition truncated_once (evs : list RemoteEventRecord) : Prop :=
  (length (List.filter is_truncation evs) <= 1)%nat.

Lemma truncated_once_snoc evs ev :
  truncated_once (evs ++ [ev]) -> truncated_once evs /\ (is_truncation ev = true -> existsb is_truncation evs = false).
Proof.
  unfold truncated_once. rewrite List.filter_app, length_app. cbn [List.filter].
  intros H. split; [lia|]. intros Ht. rewrite Ht in H. cbn [length] in H.
  destruct (List.filter is_truncation evs) eqn:E; [|simpl in H; lia].
  clear -E. induction evs as [|x evs IH]; [done|]. cbn [List.filter existsb] in *. destruct (is_truncation x); [done|]. by apply IH.
Qed.

Lemma finished_type st next type :
  command_edge st next -> CommandState_IsTerminal next = true -> commandEventTypeForState next = Some type ->
  remoteTerminalStateForEventType type = Some next /\ output_event type = false /\ type <> command_queued /\ type <> command_started /\
  (st = CommandStateQueued /\ terminalStateRequiresStart next = false \/
   (st = CommandStateRunning \/ st = CommandStateCancelling) /\ next <> CommandStateRejected).
Proof.
  unfold command_edge. intros He Ht Hty. destruct st; simpl in He; rewrite ?elem_of_cons, ?elem_of_nil in He;
    repeat match goal with H : _ \/ _ |- _ => destruct H as [H|H] end; subst; try done; simpl in Hty; injection Hty as <-;
    split_and!; try done; naive_solver.
Qed.

Lemma inspectType_finished r type next :
  remoteTerminalStateForEventType type = Some next ->
  (next = CommandStateRejected -> lc_Started r = false) -> (terminalStateRequiresStart next = true -> lc_Started r = true) ->
  inspectType r type = Ok (mkRemoteEventLifecycle (lc_Started r) (lc_OutputTruncated r) (Some next)).
Proof.
  intros Hty Hr Hs. destruct type; simpl in Hty; try done; injection Hty as <-; simpl; simpl in Hs, Hr;
    rewrite ?(Hs eq_refl), ?(Hr eq_refl); done.
Qed.

Lemma inspectType_output r type :
  output_event type = true -> lc_Started r = true -> (type = output_truncated -> lc_OutputTruncated r = false) ->
  inspectType r type = Ok (mkRemoteEventLifecycle true (lc_OutputTruncated r || bool_decide (type = output_truncated))
                             (lc_TerminalState r)).
Proof.
  intros Ho Hs Ht. destruct r as [started truncated terminal]. cbn [lc_Started lc_OutputTruncated lc_TerminalState] in *. subst started.
  destruct type; try done; cbn [inspectType lc_Started lc_OutputTruncated lc_TerminalState negb refuse_if mbind result_bind].
  - by rewrite bool_decide_eq_false_2, orb_false_r by done.
  - by rewrite bool_decide_eq_false_2, orb_false_r by done.
  - by rewrite (Ht eq_refl), bool_decide_eq_true_2 by done.
Qed.

Lemma fmap_snoc_inv {A B} (f : A -> B) (l : list A) (k : list B) y :
  k ++ [y] = f <$> l -> exists l' x, l = l' ++ [x] /\ k = f <$> l' /\ y = f x.
Proof.
  intros H. destruct l as [|z l _] using rev_ind; [by destruct k|]. rewrite fmap_app in H.
  apply app_inj_tail in H as [-> ->]. eauto.
Qed.

Section lawful.
Context (id : string) (Hid : id <> "").

Lemma lawful_snoc evs ev st l :
  Forall valid_event (evs ++ [ev]) -> Forall (mirrorable id) (evs ++ [ev]) ->
  InspectRemoteEventLifecycle evs = Ok l -> lc_TerminalState l = None ->
  ev_Sequence ev = Z.of_nat (length evs) + 1 -> evs <> [] -> ev_Type ev <> command_queued ->
  forall l', inspectType l (ev_Type ev) = Ok l' -> describes st (evs ++ [ev]) l' ->
  exists l', InspectRemoteEventLifecycle (evs ++ [ev]) = Ok l' /\ describes st (evs ++ [ev]) l'.
Proof.
  intros Hv Hm Hl Ht Hs Hne Hq l' Hty Hd. exists l'. split; [|done]. apply (inspect_snoc id).
  { rewrite Forall_forall in Hv. rewrite Forall_forall in Hm. apply Forall_forall. intros x Hx. split; [auto|]. by apply Hm. }
  exists l. split; [done|]. apply inspectOne_Ok. split_and!; [done| |done|done].
  destruct evs; [done|]. cbn [length]. split; [lia|done].
Qed.

Lemma stream_lawful rows st evs :
  command_stream rows st -> rows = event_row_of <$> evs -> Forall (mirrorable id) evs -> truncated_once evs ->
  exists l, InspectRemoteEventLifecycle evs = Ok l /\ describes st evs l.
Proof.
  intros Hst. revert evs. pose proof Hst as Hst'. induction Hst as [t|rows t H IH|rows st type payload n t H IH Hact Ho Hval|rows H IH|rows st next type t H IH He Hn Hty];
    intros evs Hrows Hm Ht; (assert (Forall valid_event evs) as Hv;
      [apply stream_rows_valid in Hst'; rewrite Hrows, Forall_fmap in Hst'; eapply Forall_impl;
       [exact (proj2 (Forall_and _ _) (conj Hm Hst'))|intros ev [??]; by eapply row_valid_event]|]).
  - destruct evs as [|ev [|]]; try done. injection Hrows as E1 E2 E3 E4 _. exists empty_lifecycle. split.
    + apply (inspect_snoc id [] ev); [repeat constructor; [by inversion Hv|by inversion Hm as [|? ? []]]|]. exists empty_lifecycle.
      split; [done|]. apply inspectOne_Ok. by rewrite <- E1, <- E2.
    + constructor; try done; try naive_solver. cbn [existsb]. unfold is_truncation. by rewrite <- E2.
  - apply fmap_snoc_inv in Hrows as (evs' & ev & -> & -> & E). injection E as E1 E2 E3 E4 _.
    pose proof Hm as [Hm' _]%Forall_app. apply truncated_once_snoc in Ht as [Ht _].
    destruct (IH H _ eq_refl Hm' Ht) as (l & Hl & [D1 D2 D3 D4]). apply stream_nonempty in H. rewrite length_fmap in H, E1.
    eapply (lawful_snoc evs' ev _ l); try done; [by destruct evs'; simpl in H; [lia|]|by rewrite <- E2| |].
    + rewrite <- E2. simpl. by rewrite D2.
    + constructor; try done. rewrite existsb_snoc, <- D4. unfold is_truncation. rewrite <- E2. by rewrite orb_false_r.
  - apply fmap_snoc_inv in Hrows as (evs' & ev & -> & -> & E). injection E as E1 E2 E3 E4 _.
    pose proof Hm as [Hm' _]%Forall_app. apply truncated_once_snoc in Ht as [Ht Hone].
    destruct (IH H _ eq_refl Hm' Ht) as (l & Hl & [D1 D2 D3 D4]). apply stream_nonempty in H. rewrite length_fmap in H, E1.
    assert (CommandState_IsTerminal st = false) as Hnt by (destruct Hact as [->| ->]; done). rewrite Hnt in D1.
    eapply (lawful_snoc evs' ev _ l); try done; [by destruct evs'; simpl in H; [lia|]|by destruct type; rewrite <- E2| |].
    + rewrite <- E2. apply inspectType_output; [done|by apply D3|]. intros ->. rewrite D4. apply Hone. unfold is_truncation. by rewrite <- E2.
    + constructor; [by rewrite Hnt|intros ->; naive_solver|done|].
      rewrite existsb_snoc, <- D4. unfold is_truncation. by rewrite <- E2.
  - destruct (IH H _ Hrows Hm Ht) as (l & Hl & [D1 D2 D3 D4]). exists l. split; [done|]. constructor; try done. intros _. apply D3. by left.
  - apply fmap_snoc_inv in Hrows as (evs' & ev & -> & -> & E). injection E as E1 E2 E3 E4 _.
    pose proof Hm as [Hm' _]%Forall_app. apply truncated_once_snoc in Ht as [Ht _].
    destruct (IH H _ eq_refl Hm' Ht) as (l & Hl & [D1 D2 D3 D4]). apply stream_nonempty in H. rewrite length_fmap in H, E1.
    destruct (finished_type _ _ _ He Hn Hty) as (F1 & F2 & F3 & F4 & F5).
    assert (CommandState_IsTerminal st = false) as Hnt by (destruct F5 as [[-> _]|[[->| ->] _]]; done). rewrite Hnt in D1.
    eapply (lawful_snoc evs' ev _ l); try done; [by destruct evs'; simpl in H; [lia|]|by rewrite <- E2| |].
    + rewrite <- E2. apply inspectType_finished; [done| |].
      * intros ->. destruct F5 as [[-> _]|[_ ?]]; [auto|done].
      * intros Hr. destruct F5 as [[_ Hf]|[? _]]; [by rewrite Hf in Hr|auto].
    + constructor; cbn [lc_TerminalState lc_Started lc_OutputTruncated]; [by rewrite Hn|by intros ->|by intros [->| ->]|].
      rewrite existsb_snoc, <- D4. unfold is_truncation. rewrite <- E2. destruct type; try done; by rewrite orb_false_r.
Qed.
End lawful.

(** ** What is mirrored of a command *)
Definition cursor_of (m : Mirror) (id : string) : Z :=
  match local_remote_event_cursors m !! id with Some row => cu_last_sequence row | None => 0 end.

Definition own_event (id : string) (ev : RemoteEventRecord) : Prop :=
  (valid_event ev /\ ev_CommandID ev = id) /\ storable (ev_OccurredAt ev).

(** The rows of [id] hold the events [evs], a lawful prefix with lifecycle [l]. *)
Record mirrored (m : Mirror) (id : string) (evs : list RemoteEventRecord) (l : RemoteEventLifecycle) : Prop := {
  mi_rows : rows_of (local_remote_events m) id = remote_event_row <$> evs;
  mi_own : Forall (own_event id) evs;
  mi_lawful : InspectRemoteEventLifecycle evs = Ok l
}.

Lemma own_of_command id evs : Forall (own_event id) evs -> Forall (fun ev => valid_event ev /\ ev_CommandID ev = id) evs.
Proof. intros H. eapply Forall_impl; [exact H|]. by intros ev []. Qed.

Lemma mirrored_sequences m id evs l : mirrored m id evs l -> ev_Sequence <$> evs = seqZ 1 (Z.of_nat (length evs)).
Proof. intros [_ Ho Hl]. eapply inspect_sequences; [by apply own_of_command|exact Hl]. Qed.

Lemma scan_events id k evs :
  ev_Sequence <$> evs = seqZ k (Z.of_nat (length evs)) -> Forall (own_event id) evs ->
  scanRemoteEvents id k (remote_event_row <$> evs) = Ok evs.
Proof.
  revert k. induction evs as [|ev evs IH]; intros k Hs Hf; [done|].
  cbn [length] in Hs. rewrite Nat2Z.inj_succ, seqZ_cons, Z.pred_succ in Hs by lia.
  cbn [fmap list_fmap] in Hs. injection Hs as Hk Hs. apply Forall_cons in Hf as [[[Hv Hid] Ht] Hf].
  cbn [fmap list_fmap scanRemoteEvents]. unfold scanRemoteEvent. cbn [remote_event_row e_occurred_at e_sequence e_type e_payload e_byte_count].
  rewrite parse_format by done. cbn [mbind result_bind ev_Sequence]. rewrite Hk, Z.eqb_refl. cbn [negb refuse_if].
  change (list_fmap _ _ remote_event_row evs) with (remote_event_row <$> evs). cbn [mbind result_bind].
  rewrite (IH (k + 1)) by done. cbn [mbind result_bind]. destruct ev; simpl in *; by subst.
Qed.

Lemma event_le_spec r1 r2 : event_le r1 r2 <-> e_sequence r1 <= e_sequence r2.
Proof. done. Qed.

Lemma row_sequences (evs : list RemoteEventRecord) : e_sequence <$> (remote_event_row <$> evs) = ev_Sequence <$> evs.
Proof. rewrite <- list_fmap_compose. by apply list_fmap_ext. Qed.

Lemma events_after_numbered (evs : list RemoteEventRecord) after :
  ev_Sequence <$> evs = seqZ 1 (Z.of_nat (length evs)) -> 0 <= after ->
  merge_sort event_le (filter (fun r => after < e_sequence r) (remote_event_row <$> evs))
  = remote_event_row <$> drop (Z.to_nat after) evs.
Proof.
  intros Hs Ha. rewrite (filter_numbered e_sequence _ 1) by (by rewrite length_fmap, row_sequences).
  replace (Z.to_nat (after + 1 - 1)) with (Z.to_nat after) by lia. rewrite <- fmap_drop.
  eapply (merge_sort_numbered e_sequence event_le event_le_spec _ (1 + Z.of_nat (Z.to_nat after))).
  by rewrite row_sequences, fmap_drop, Hs, drop_seqZ.
Qed.

Lemma readRemoteEvents_run m id evs l after :
  mirrored m id evs l -> 0 <= after ->
  readRemoteEventsOnConnection id after m = Ok (drop (Z.to_nat after) evs, m).
Proof.
  intros Hm Ha. pose proof (mirrored_sequences _ _ _ _ Hm) as Hs. destruct Hm as [Hr Ho _].
  unfold readRemoteEventsOnConnection, remote_events_after. tx_run. rewrite Hr, events_after_numbered by done.
  destruct (decide (length evs <= Z.to_nat after)%nat); [by rewrite drop_ge by done|].
  rewrite scan_events; [done| |by apply Forall_drop].
  rewrite fmap_drop, Hs, drop_seqZ, length_drop. f_equal; lia.
Qed.

Lemma last_numbered (evs : list RemoteEventRecord) : evs <> [] -> ev_Sequence <$> evs = seqZ 1 (Z.of_nat (length evs)) ->
  last_sequence evs = Some (Z.of_nat (length evs)).
Proof.
  destruct evs as [|ev evs _] using rev_ind; [done|]. intros _ Hs. unfold last_sequence. rewrite last_snoc.
  rewrite fmap_app, length_app, Nat2Z.inj_add, seqZ_app in Hs by lia. apply app_inj_2 in Hs as [_ Hs]; [|done].
  cbn [fmap list_fmap length] in Hs. change (Z.of_nat 1) with 1 in Hs. rewrite seqZ_cons, seqZ_nil in Hs by lia. injection Hs as Hs.
  cbn [fmap option_fmap option_map]. rewrite Hs, length_app. f_equal. cbn [length]. lia.
Qed.

Lemma prefix_run m id evs l :
  mirrored m id evs l -> remoteEventPrefixOnConnection id (Z.of_nat (length evs)) m = Ok ((evs, l), m).
Proof.
  intros Hm. unfold remoteEventPrefixOnConnection. erewrite stx_bind_run; [|by apply (readRemoteEvents_run _ _ _ _ 0 Hm)].
  change (Z.to_nat 0) with 0%nat. rewrite drop_0, Z.eqb_refl. cbn [negb orb].
  assert ((0 <? Z.of_nat (length evs)) && negb (bool_decide (last_sequence evs = Some (Z.of_nat (length evs)))) = false) as ->.
  { destruct evs as [|ev evs]; [done|]. rewrite bool_decide_eq_true_2, andb_false_r; [done|].
    apply last_numbered; [done|]. by eapply mirrored_sequences. }
  tx_run. destruct Hm as [_ _ Hl]. rewrite Hl. done.
Qed.

(** The rows a mirrored event adds. *)
Definition add_rows (id : string) (evs : list RemoteEventRecord) (m : Mirror) : Mirror :=
  if is_nil evs then m
  else set_remote_events (<[id := rows_of (local_remote_events m) id ++ (remote_event_row <$> evs)]> (local_remote_events m)) m.

Lemma add_rows_rows id evs m : rows_of (local_remote_events (add_rows id evs m)) id
  = rows_of (local_remote_events m) id ++ (remote_event_row <$> evs).
Proof.
  destruct evs as [|ev evs]; [by rewrite app_nil_r|]. cbn [add_rows is_nil local_remote_events set_remote_events].
  unfold rows_of at 1. by rewrite lookup_insert_eq.
Qed.

Lemma add_rows_app id l1 l2 m : add_rows id l2 (add_rows id l1 m) = add_rows id (l1 ++ l2) m.
Proof.
  destruct l1 as [|e1 l1]; [done|]. destruct l2 as [|e2 l2]; [by rewrite app_nil_r|].
  unfold add_rows at 1 3. cbn [is_nil app]. rewrite add_rows_rows. unfold add_rows. cbn [is_nil].
  cbn [local_remote_events set_remote_events local_remote_session_projections local_remote_command_projections local_remote_job_projections
    local_remote_event_cursors local_remote_event_gaps local_intents local_intent_lifecycle local_idempotency local_remote_status_failures
    mailbox_exchanges mailbox_event_file_references mailbox_remote_event_file_references mailbox_event_file_cleanup mailbox_ingress_diagnostics].
  rewrite insert_insert_eq, <- app_assoc, <- fmap_app. done.
Qed.

Lemma mirrored_add m id evs l ev l' :
  mirrored m id evs l -> own_event id ev -> InspectRemoteEventLifecycle (evs ++ [ev]) = Ok l' ->
  mirrored (add_rows id [ev] m) id (evs ++ [ev]) l'.
Proof.
  intros [Hr Ho Hl] Hev Hl'. constructor; [|by apply Forall_app; auto|done]. by rewrite add_rows_rows, Hr, fmap_app.
Qed.

(** ** The loop over a batch *)
Lemma find_numbered {A} (f : A -> Z) l k x :
  f <$> l = seqZ k (Z.of_nat (length l)) -> x ∈ l -> List.find (fun y => f y =? f x) l = Some x.
Proof.
  intros Hs Hx. destruct (List.find (fun y => f y =? f x) l) as [y|] eqn:E.
  - apply find_some in E as [Hy Hf]. bool_norm. f_equal. eapply (numbered_distinct f); [exact Hs|by apply list_elem_of_In|done|done].
  - apply list_elem_of_In in Hx. pose proof (find_none _ _ E _ Hx) as Hn. cbn in Hn. by rewrite Z.eqb_refl in Hn.
Qed.

Lemma readRemoteEvent_run m id evs l ev :
  mirrored m id evs l -> ev ∈ evs -> readRemoteEventOnConnection id (ev_Sequence ev) m = Ok (ev, m).
Proof.
  intros Hm Hev. pose proof (mirrored_sequences _ _ _ _ Hm) as Hs. destruct Hm as [Hr Ho _].
  rewrite Forall_forall in Ho. destruct (Ho _ Hev) as [[_ Hid] Ht].
  unfold readRemoteEventOnConnection. tx_run. rewrite Hr.
  rewrite (find_numbered e_sequence _ 1 (remote_event_row ev)).
  - tx_run. cbn [remote_event_row e_type e_payload e_byte_count e_occurred_at]. rewrite parse_format by done.
    cbn [default]. unfold mret, stx_ret. rewrite <- Hid. by destruct ev.
  - by rewrite length_fmap, row_sequences.
  - by apply list_elem_of_fmap_2.
Qed.

Lemma readRemoteEvent_Ok m id evs l n ev m' :
  mirrored m id evs l -> readRemoteEventOnConnection id n m = Ok (ev, m') -> ev ∈ evs /\ m' = m /\ ev_Sequence ev = n.
Proof.
  intros Hm H. pose proof H as Hrun. unfold readRemoteEventOnConnection in H. apply stx_bind_Ok in H as (row & m1 & [Hq <-]%query_Ok & H).
  apply stx_bind_Ok in H as (row' & m2 & [Hrow <-]%or_fail_Ok & _). rewrite Hrow in Hq.
  apply find_some in Hq as [Hin%list_elem_of_In Hn]. bool_norm.
  rewrite (mi_rows _ _ _ _ Hm) in Hin. apply list_elem_of_fmap in Hin as (ev' & -> & Hin).
  cbn [remote_event_row e_sequence] in Hn. subst n. rewrite (readRemoteEvent_run _ _ _ _ _ Hm Hin) in Hrun.
  injection Hrun as -> ->. done.
Qed.

Lemma sameRemoteEvent_true ev ev' : sameRemoteEvent ev ev' = true <-> ev = ev'.
Proof.
  unfold sameRemoteEvent. split.
  - intros H. bool_norm. destruct ev, ev'; simpl in *; congruence.
  - intros ->. rewrite !bool_decide_eq_true_2, !Z.eqb_refl by done. done.
Qed.

Lemma elem_sequence m id evs l ev : mirrored m id evs l -> ev ∈ evs -> 1 <= ev_Sequence ev <= Z.of_nat (length evs).
Proof.
  intros Hs%mirrored_sequences Hev. apply (list_elem_of_fmap_2 ev_Sequence) in Hev. rewrite Hs, elem_of_seqZ in Hev. lia.
Qed.

Section loop.
Context (id : string).
Notation loop evs l mir dup batch := (mirrorEvents id (Z.of_nat (length evs)) evs l mir dup batch).

(** An event that is already mirrored is counted and skipped. *)
Lemma loop_duplicate m evs l mir dup ev rest :
  mirrored m id evs l -> ev ∈ evs -> loop evs l mir dup (ev :: rest) m = loop evs l mir (dup + 1) rest m.
Proof.
  intros Hm Hev. pose proof (elem_sequence _ _ _ _ _ Hm Hev) as Hn. cbn [mirrorEvents].
  pose proof (mi_own _ _ _ _ Hm) as Ho. rewrite Forall_forall in Ho. destruct (Ho _ Hev) as [[_ Hid] _].
  rewrite bool_decide_eq_true_2 by done. cbn [negb]. tx_run. rewrite (proj2 (Z.leb_le _ _)) by lia.
  erewrite stx_bind_run; [|rewrite Hid, (readRemoteEvent_run _ _ _ _ _ Hm Hev); done].
  rewrite (proj2 (sameRemoteEvent_true ev ev)) by done. cbn [negb]. by tx_run.
Qed.

Lemma loop_duplicates m evs l mir dup batch :
  mirrored m id evs l -> Forall (fun ev => ev ∈ evs) batch ->
  loop evs l mir dup batch m = Ok ((Z.of_nat (length evs), mir, dup + Z.of_nat (length batch)), m).
Proof.
  intros Hm Hf. revert dup. induction Hf as [|ev batch Hev Hf IH]; intros dup.
  { cbn [mirrorEvents length]. rewrite Z.add_0_r. done. }
  rewrite loop_duplicate, IH by done. cbn [length]. by rewrite Nat2Z.inj_succ, <- Z.add_1_l, Z.add_assoc.
Qed.

Lemma insert_remote_event_Ok row u m m' :
  insert_remote_event id row m = Ok (u, m') <->
  existsb (fun r => e_sequence r =? e_sequence row) (rows_of (local_remote_events m) id)
    || negb (remote_event_checks id row) = false /\ u = tt /\
  m' = set_remote_events (<[id := rows_of (local_remote_events m) id ++ [row]]> (local_remote_events m)) m.
Proof.
  unfold insert_remote_event. rewrite stx_bind_Ok. setoid_rewrite query_Ok. setoid_rewrite stx_bind_Ok.
  setoid_rewrite fail_if_Ok. setoid_rewrite modify_Ok. naive_solver.
Qed.

Lemma insert_remote_event_sql c row r m : insert_remote_event c row m = Ok r -> sql_length_pos c = true.
Proof. destruct r. unfold insert_remote_event. intros H. tx_inv H. unfold remote_event_checks in *. by bool_norm. Qed.

Lemma fresh_sequence m evs l n :
  mirrored m id evs l -> Z.of_nat (length evs) < n ->
  existsb (fun r => e_sequence r =? n) (rows_of (local_remote_events m) id) = false.
Proof.
  intros Hm Hn. apply not_true_is_false. intros (r & Hr & He)%existsb_exists. apply list_elem_of_In in Hr.
  rewrite (mi_rows _ _ _ _ Hm) in Hr. apply list_elem_of_fmap in Hr as (ev & -> & Hev). bool_norm.
  pose proof (elem_sequence _ _ _ _ _ Hm Hev). cbn [remote_event_row e_sequence] in He. lia.
Qed.

(** The next event of the stream is inspected and inserted. *)
Lemma loop_next m evs l mir dup ev rest l' :
  mirrored m id evs l -> own_event id ev -> sql_length_pos id = true ->
  InspectRemoteEventLifecycle (evs ++ [ev]) = Ok l' ->
  loop evs l mir dup (ev :: rest) m = loop (evs ++ [ev]) l' (mir + 1) dup rest (add_rows id [ev] m).
Proof.
  intros Hm Hev Hsql Hl'. pose proof Hl' as Hone. apply (inspect_snoc id) in Hone as (l0 & Hl0 & (Hs & _ & Hnt & _)%inspectOne_Ok).
  2: { apply own_of_command, Forall_app. split; [apply Hm|by constructor]. }
  rewrite (mi_lawful _ _ _ _ Hm) in Hl0. injection Hl0 as <-. destruct Hev as [[Hv Hid] Ht]. cbn [mirrorEvents].
  rewrite bool_decide_eq_true_2 by done. cbn [negb]. tx_run. rewrite (proj2 (Z.leb_gt _ _)) by lia.
  rewrite Hs, Z.eqb_refl. cbn [negb]. tx_run. rewrite Hnt. cbn [is_Some_b]. tx_run. rewrite Hl'. tx_run.
  erewrite stx_bind_run.
  - rewrite length_app, Nat2Z.inj_add. cbn [length]. change (Z.of_nat 1) with 1. done.
  - rewrite Hid. apply insert_remote_event_Ok. split_and!; [|done|done]. rewrite (fresh_sequence _ _ _ _ Hm).
    + unfold remote_event_checks. cbn [remote_event_row e_sequence e_byte_count e_type orb]. rewrite Hsql, Hs. cbn [andb].
      rewrite (proj2 (Z.ltb_lt _ _)) by lia. cbn [andb]. unfold valid_event, validateRemoteEventRecord in Hv. tx_inv Hv. bool_norm.
      rewrite (proj2 (Z.leb_le _ _)) by lia. by destruct (ev_Type ev).
    + cbn [remote_event_row e_sequence]. lia.
Qed.

(** What a successful round did. *)
Lemma loop_cons_Ok m evs l mir dup ev rest r m' :
  mirrored m id evs l -> valid_event ev -> storable (ev_OccurredAt ev) ->
  loop evs l mir dup (ev :: rest) m = Ok (r, m') ->
  ev ∈ evs /\ loop evs l mir (dup + 1) rest m = Ok (r, m') \/
  exists l', own_event id ev /\ sql_length_pos id = true /\ InspectRemoteEventLifecycle (evs ++ [ev]) = Ok l' /\
    loop (evs ++ [ev]) l' (mir + 1) dup rest (add_rows id [ev] m) = Ok (r, m').
Proof.
  intros Hm Hv Ht H. pose proof H as Hrun. cbn [mirrorEvents] in H.
  apply stx_bind_Ok in H as (u & m1 & (_ & Hid & <-)%fail_if_Ok & H). bool_norm.
  destruct (ev_Sequence ev <=? Z.of_nat (length evs)) eqn:E.
  - left. apply stx_bind_Ok in H as (stored & m2 & Hst & H). apply stx_bind_Ok in H as (u' & m3 & (_ & Hsame & <-)%fail_if_Ok & _). bool_norm.
    apply sameRemoteEvent_true in Hsame as ->. rewrite Hid in Hst.
    destruct (readRemoteEventOnConnection id (ev_Sequence ev) m) as [[st m4]|] eqn:Er; [|done]. injection Hst as -> ->.
    apply (readRemoteEvent_Ok _ _ _ _ _ _ _ Hm) in Er as (Hin & -> & _). split; [done|]. by rewrite loop_duplicate in Hrun.
  - right. apply stx_bind_Ok in H as (? & ? & (_ & _ & <-)%fail_if_Ok & H). apply stx_bind_Ok in H as (? & ? & (_ & _ & <-)%fail_if_Ok & H).
    apply stx_bind_Ok in H as (l' & ? & [Hl' <-]%lift_Ok & H). apply stx_bind_Ok in H as (? & m2 & Hc & _). apply insert_remote_event_sql in Hc. rewrite Hid in Hc.
    exists l'. assert (own_event id ev) as Hev by done. split_and!; [done|done|done|].
    by rewrite (loop_next _ _ _ _ _ _ _ l') in Hrun.
Qed.

(** What a batch adds to a prefix: an event of it is already mirrored, or is the
    next event of a lawful stream. *)
Inductive extends : list RemoteEventRecord -> list RemoteEventRecord -> list RemoteEventRecord -> Prop :=
  | extends_nil evs : extends evs [] []
  | extends_duplicate evs ev batch new : ev ∈ evs -> extends evs batch new -> extends evs (ev :: batch) new
  | extends_next evs ev batch new l :
      InspectRemoteEventLifecycle (evs ++ [ev]) = Ok l -> ev_CommandID ev = id ->
      extends (evs ++ [ev]) batch new -> extends evs (ev :: batch) (ev :: new).

Lemma add_rows_nil m : add_rows id [] m = m.
Proof. done. Qed.

Lemma loop_extends m evs l mir dup batch r m' :
  mirrored m id evs l -> sql_length_pos id = true ->
  Forall (fun ev => valid_event ev /\ storable (ev_OccurredAt ev)) batch ->
  loop evs l mir dup batch m = Ok (r, m') <->
  exists new, extends evs batch new /\ m' = add_rows id new m /\
    r = (Z.of_nat (length (evs ++ new)), mir + Z.of_nat (length new), dup + (Z.of_nat (length batch) - Z.of_nat (length new))).
Proof.
  intros Hm Hsql Hf. revert evs l mir dup m Hm. induction Hf as [|ev batch [Hv Ht] Hf IH]; intros evs l mir dup m Hm.
  { cbn [mirrorEvents length]. rewrite stx_ret_Ok. split.
    - intros [<- <-]. exists []. rewrite app_nil_r. cbn [length]. split_and!; [constructor|done|]. f_equal; [f_equal|]; lia.
    - intros (new & He & -> & ->). inversion He; subst. rewrite app_nil_r. cbn [length]. split; [|done]. f_equal; [f_equal|]; lia. }
  split.
  - intros [[Hin H]|(l' & Hev & _ & Hl' & H)]%(loop_cons_Ok _ evs l); try done.
    + apply (IH _ _ _ _ _ Hm) in H as (new & He & -> & ->). exists new. split_and!; [by constructor|done|]. cbn [length]. f_equal. lia.
    + apply (IH _ _ _ _ _ (mirrored_add _ _ _ _ _ _ Hm Hev Hl')) in H as (new & He & -> & ->). exists (ev :: new).
      rewrite add_rows_app. split_and!; [eapply extends_next; [done|apply Hev|done]|done|]. rewrite <- app_assoc. cbn [app length].
      f_equal; [f_equal|]; lia.
  - intros (new & He & -> & ->). inversion He as [|? ? ? ? Hin He'|? ? ? new' l' Hl' Hid He']; subst.
    + rewrite loop_duplicate by done. apply (IH _ _ _ _ _ Hm). exists new. split_and!; [done|done|]. cbn [length]. f_equal. lia.
    + assert (own_event id ev) as Hev by done. rewrite (loop_next _ _ _ _ _ _ _ l') by done.
      apply (IH _ _ _ _ _ (mirrored_add _ _ _ _ _ _ Hm Hev Hl')). exists new'. rewrite add_rows_app, <- app_assoc.
      split_and!; [done|done|]. cbn [app length]. f_equal; [f_equal|]; lia.
Qed.

Lemma extends_mirrored m evs l batch new :
  mirrored m id evs l -> Forall (fun ev => valid_event ev /\ storable (ev_OccurredAt ev)) batch -> extends evs batch new ->
  exists l', mirrored (add_rows id new m) id (evs ++ new) l'.
Proof.
  intros Hm Hf He. revert m l Hm. induction He as [evs|evs ev batch new Hin He IH|evs ev batch new l' Hl' Hid He IH]; intros m l Hm.
  - exists l. by rewrite app_nil_r.
  - apply Forall_cons in Hf as [_ Hf]. by eapply IH.
  - apply Forall_cons in Hf as [[Hv Ht] Hf]. destruct (IH Hf (add_rows id [ev] m) l') as (l'' & H).
    { by apply (mirrored_add _ _ _ l). }
    exists l''. by rewrite add_rows_app, <- app_assoc in H.
Qed.

(** Everything of the batch is in the longer prefix, and only the batch is. *)
Lemma extends_all evs batch new : extends evs batch new -> Forall (fun ev => ev ∈ evs ++ new) batch /\ sublist new batch.
Proof.
  induction 1 as [evs|evs ev batch new Hin He [IH1 IH2]|evs ev batch new l' Hl' Hid He [IH1 IH2]]; [by repeat constructor| |].
  - split; [|by constructor]. constructor; [|done]. apply elem_of_app. by left.
  - rewrite <- app_assoc in IH1. split; [|by constructor]. constructor; [|done]. apply elem_of_app. right. by left.
Qed.
End loop.
