(* ===== verification/MirrorTheorems.v ===== *)
(** * Correctness of the event mirror

    Mirroring a batch is exact and can be repeated; a controller that mirrors
    what the authority replays holds the authority's stream; in every reachable
    mirror the rows of a command are a lawful prefix that ends at the cursor, and
    a confirmed gap decides what every projection says about the output. *)
From S2P Require Import Prelude GoStrings Sha256 Identity Lifecycle Policy Canonical LaneAdmission.
From S2P Require Import AuditRecords JsonText Db AuditStore AdmissionStore Idempotency Sessions Commands.
From S2P Require Import LostRecovery RestartPlan Jobs Scheduler RemoteDb RemoteProjections RemoteEvents RemoteUpserts.
From S2P Require Import Authority AuthorityOps JobOps Histories AuthorityTheorems MirrorStreams.

(** An event whose timestamp column can be read back. *)
Definition storable_event (ev : RemoteEventRecord) : Prop := valid_event ev /\ storable (ev_OccurredAt ev).

(** The mirror after [new] was appended to the prefix [evs] of [id]. *)
Definition advance (id : string) (now : Z) (evs new : list RemoteEventRecord) (m : Mirror) : Mirror :=
  if is_nil new then m
  else set_cursors (<[id := mkCursorRow (Z.of_nat (length (evs ++ new))) (formatStoredTime now)]>
                      (local_remote_event_cursors m)) (add_rows id new m).

(** The prefix [evs] of [id] and its cursor. *)
Definition mirrors (m : Mirror) (id : string) (evs : list RemoteEventRecord) : Prop :=
  (exists l, mirrored m id evs l) /\ cursor_of m id = Z.of_nat (length evs).

(** ** One batch *)
Lemma cursor_run id m : remoteEventCursorOnConnection id m = Ok (cursor_of m id, m).
Proof. done. Qed.

Lemma no_gap_run id m : local_remote_event_gaps m !! id = None -> lookupRemoteEventGap id m = Ok (None, m).
Proof. intros H. unfold lookupRemoteEventGap, readRemoteEventGapOnConnection. tx_run. rewrite H. tx_run. done. Qed.

Lemma gap_run id m g gap : local_remote_event_gaps m !! id = Some g -> decodeGap id g = Ok gap -> lookupRemoteEventGap id m = Ok (Some gap, m).
Proof.
  intros H Hd. unfold lookupRemoteEventGap, readRemoteEventGapOnConnection. tx_run. rewrite H. tx_run. rewrite Hd. done.
Qed.

Lemma storable_batch batch : Forall storable_event batch -> validateRemoteEventBatch batch = Ok batch.
Proof. intros H. apply validateBatch_Ok. split; [done|]. eapply Forall_impl; [exact H|]. by intros ev []. Qed.

Section batch.
Context (m : Mirror) (id : string) (evs : list RemoteEventRecord).
Context (Hm : mirrors m id evs) (Hgap : local_remote_event_gaps m !! id = None) (Hsql : sql_length_pos id = true).

Lemma mirror_batch_start now first rest l :
  mirrored m id evs l -> ev_CommandID first = id -> Forall storable_event (first :: rest) ->
  MirrorRemoteEvents m now (first :: rest) = withMirrorTransaction m
    (done ← mirrorEvents id (Z.of_nat (length evs)) evs l 0 0 (first :: rest);
     let '(last, mirrored, duplicates) := done in
     (if 0 <? mirrored then upsert_cursor id last now else mret tt);;
     mret (mkRemoteEventMirrorResult id last mirrored duplicates)).
Proof.
  intros Hl Hid Hf. destruct Hm as [_ Hcur]. unfold MirrorRemoteEvents. cbn [is_nil]. rewrite storable_batch by done.
  cbv zeta. rewrite Hid. unfold withMirrorTransaction.
  erewrite stx_bind_run; [|by apply no_gap_run]. cbn [is_Some_b]. tx_run.
  erewrite stx_bind_run; [|apply cursor_run]. rewrite Hcur. by erewrite stx_bind_run; [|by apply prefix_run].
Qed.

Lemma mirror_batch_end now (new : list RemoteEventRecord) dup (m2 := add_rows id new m) :
  ((if 0 <? Z.of_nat (length new) then upsert_cursor id (Z.of_nat (length (evs ++ new))) now else mret tt);;
   mret (mkRemoteEventMirrorResult id (Z.of_nat (length (evs ++ new))) (Z.of_nat (length new)) dup)) m2
  = Ok (mkRemoteEventMirrorResult id (Z.of_nat (length (evs ++ new))) (Z.of_nat (length new)) dup, advance id now evs new m).
Proof.
  subst m2. destruct new as [|ev new]; [done|]. rewrite (proj2 (Z.ltb_lt 0 (Z.of_nat (length (ev :: new))))) by (cbn [length]; lia).
  unfold upsert_cursor. rewrite Hsql, (proj2 (Z.ltb_ge _ 0)) by lia. done.
Qed.

Lemma mirror_batch now first rest r m' :
  ev_CommandID first = id -> Forall storable_event (first :: rest) ->
  MirrorRemoteEvents m now (first :: rest) = (Ok r, m') <->
  exists new, extends id evs (first :: rest) new /\ m' = advance id now evs new m /\
    r = mkRemoteEventMirrorResult id (Z.of_nat (length (evs ++ new))) (Z.of_nat (length new))
          (Z.of_nat (length (first :: rest)) - Z.of_nat (length new)).
Proof.
  intros Hid Hf. destruct (proj1 Hm) as [l Hl]. rewrite (mirror_batch_start _ _ _ l) by done. unfold withMirrorTransaction. split.
  - destruct (mirrorEvents id (Z.of_nat (length evs)) evs l 0 0 (first :: rest) m) as [[c m1]|e] eqn:E; [|unfold mbind, stx_bind; by rewrite E].
    rewrite (stx_bind_run _ _ _ _ _ E). apply (loop_extends id m evs l) in E as (new & He & -> & ->); [|done..]. rewrite !Z.add_0_l.
    rewrite mirror_batch_end. intros [= <- <-]. eauto.
  - intros (new & He & -> & ->).
    erewrite stx_bind_run; [|apply (loop_extends id m evs l); [done..|by exists new]]. by rewrite !Z.add_0_l, mirror_batch_end.
Qed.
End batch.

Lemma advance_rows id now evs new m id' :
  rows_of (local_remote_events (advance id now evs new m)) id'
  = if bool_decide (id' = id) then rows_of (local_remote_events m) id ++ (remote_event_row <$> new) else rows_of (local_remote_events m) id'.
Proof.
  unfold advance. destruct new as [|ev new]; cbn [is_nil].
  { case_bool_decide; [subst; by rewrite app_nil_r|done]. }
  cbn [local_remote_events set_cursors add_rows is_nil set_remote_events]. unfold rows_of at 1. case_bool_decide as E.
  - subst. by rewrite lookup_insert_eq.
  - by rewrite lookup_insert_ne.
Qed.

Lemma advance_cursor id now evs new m id' :
  cursor_of m id = Z.of_nat (length evs) ->
  cursor_of (advance id now evs new m) id' = if bool_decide (id' = id) then Z.of_nat (length (evs ++ new)) else cursor_of m id'.
Proof.
  intros Hc. unfold advance. destruct new as [|ev new]; cbn [is_nil].
  { case_bool_decide; [subst; by rewrite app_nil_r|done]. }
  unfold cursor_of. cbn [local_remote_event_cursors set_cursors add_rows is_nil set_remote_events]. case_bool_decide as E.
  - subst. by rewrite lookup_insert_eq.
  - by rewrite lookup_insert_ne.
Qed.

Lemma mirrors_ext m m' id evs :
  rows_of (local_remote_events m') id = rows_of (local_remote_events m) id -> cursor_of m' id = cursor_of m id ->
  mirrors m id evs -> mirrors m' id evs.
Proof. intros Hr Hc [[l [H1 H2 H3]] H4]. split; [exists l; constructor; congruence|congruence]. Qed.

Lemma mirrors_advance id now evs batch new m :
  mirrors m id evs -> Forall storable_event batch -> extends id evs batch new ->
  mirrors (advance id now evs new m) id (evs ++ new).
Proof.
  intros [[l Hl] Hc] Hf He. destruct (extends_mirrored _ _ _ _ _ _ Hl Hf He) as [l' [H1 H2 H3]].
  split; [|by rewrite advance_cursor, bool_decide_eq_true_2]. exists l'. constructor; [|done|done].
  rewrite advance_rows, bool_decide_eq_true_2 by done. by rewrite (mi_rows _ _ _ _ Hl), fmap_app.
Qed.

Lemma mirrors_advance_other id now evs new m id' evs' :
  cursor_of m id = Z.of_nat (length evs) -> id' <> id -> mirrors m id' evs' -> mirrors (advance id now evs new m) id' evs'.
Proof.
  intros Hc Hne. apply mirrors_ext; [rewrite advance_rows|rewrite advance_cursor by done]; by rewrite bool_decide_eq_false_2.
Qed.

Lemma advance_gaps id now evs new m : local_remote_event_gaps (advance id now evs new m) = local_remote_event_gaps m.
Proof. unfold advance. by destruct new. Qed.

(** A batch that is mirrored already adds nothing. *)
Lemma extends_mirrored_already id evs batch : Forall (fun ev => ev ∈ evs) batch -> extends id evs batch [].
Proof. induction 1; by constructor. Qed.

(** The tail of a lawful stream extends what was mirrored of it, also when it
    repeats part of that. *)
Lemma extends_tail id evs new l :
  Forall (own_event id) (evs ++ new) -> InspectRemoteEventLifecycle (evs ++ new) = Ok l -> extends id evs new new.
Proof.
  revert evs. induction new as [|ev new IH]; intros evs Hf Hl; [constructor|]. rewrite cons_middle, app_assoc in Hf, Hl.
  destruct (inspect_prefix id _ _ _ (own_of_command _ _ Hf) Hl) as [l' Hl']. eapply extends_next; [exact Hl'| |by apply (IH (evs ++ [ev]))].
  apply Forall_app in Hf as [[_ Hev]%Forall_app _]. apply Forall_inv in Hev. by destruct Hev as [[_ ?] _].
Qed.

Lemma extends_overlap id l1 l2 l3 l :
  Forall (own_event id) (l1 ++ l2 ++ l3) -> InspectRemoteEventLifecycle (l1 ++ l2 ++ l3) = Ok l -> extends id (l1 ++ l2) (l2 ++ l3) l3.
Proof.
  rewrite app_assoc. intros Hf Hl. pose proof (extends_tail _ _ _ _ Hf Hl) as He. clear Hf Hl.
  assert (Forall (fun ev => ev ∈ l1 ++ l2) l2) as Hin by (apply Forall_forall; intros x Hx; apply elem_of_app; by right).
  remember (l1 ++ l2) as evs eqn:E. clear E. induction Hin as [|x l2' Hx Hin IH]; [done|]. by constructor.
Qed.

Section refusals.
Context (m : Mirror) (id : string) (evs : list RemoteEventRecord) (l : RemoteEventLifecycle).
Context (Hm : mirrored m id evs l) (Hcur : cursor_of m id = Z.of_nat (length evs)).
Context (Hgap : local_remote_event_gaps m !! id = None).

Lemma mirror_one now ev : ev_CommandID ev = id -> storable_event ev ->
  MirrorRemoteEvents m now [ev] = withMirrorTransaction m
    (done ← mirrorEvents id (Z.of_nat (length evs)) evs l 0 0 [ev];
     let '(last, mirrored, duplicates) := done in
     (if 0 <? mirrored then upsert_cursor id last now else mret tt);;
     mret (mkRemoteEventMirrorResult id last mirrored duplicates)).
Proof.
  intros Hid Hev. apply mirror_batch_start; try done; [|by constructor]. split; [by exists l|done].
Qed.
End refusals.

(** What is mirrored of a command is never rewritten, skipped over or
    extended after its end: an event that contradicts a mirrored one is a
    conflict, one beyond the next sequence is a gap, one after the terminal event
    is refused, and once a gap is confirmed nothing more is mirrored; the tables
    are then unchanged. *)
Theorem mirror_refusals m now id evs l ev :
  mirrored m id evs l -> cursor_of m id = Z.of_nat (length evs) -> ev_CommandID ev = id -> storable_event ev ->
  match local_remote_event_gaps m !! id with
  | Some g => forall gap, decodeGap id g = Ok gap -> MirrorRemoteEvents m now [ev] = (Err ErrRemoteGapConflict, m)
  | None =>
      (ev_Sequence ev <= Z.of_nat (length evs) -> ev ∉ evs -> MirrorRemoteEvents m now [ev] = (Err ErrRemoteEventConflict, m)) /\
      (Z.of_nat (length evs) + 1 < ev_Sequence ev -> MirrorRemoteEvents m now [ev] = (Err ErrRemoteEventGap, m)) /\
      (ev_Sequence ev = Z.of_nat (length evs) + 1 -> lc_TerminalState l <> None ->
       MirrorRemoteEvents m now [ev] = (Err ErrRemoteEventTerminal, m))
  end.
Proof.
  intros Hm Hcur Hid Hev. destruct (local_remote_event_gaps m !! id) as [g|] eqn:Hg.
  { intros gap Hd. unfold MirrorRemoteEvents. cbn [is_nil]. rewrite storable_batch by (by constructor). cbv zeta. rewrite Hid.
    unfold withMirrorTransaction. erewrite stx_bind_run; [|by eapply gap_run]. done. }
  rewrite (mirror_one m id evs l) by done. unfold withMirrorTransaction. cbn [mirrorEvents]. rewrite (bool_decide_eq_true_2 (ev_CommandID ev = id)) by done.
  cbn [negb]. split_and!.
  - intros Hle Hne. rewrite (proj2 (Z.leb_le _ _)) by done.
    assert (0 < ev_Sequence ev) as Hpos by (destruct Hev as [Hv _]; unfold valid_event, validateRemoteEventRecord in Hv; tx_inv Hv; by bool_norm).
    destruct (lookup_lt_is_Some_2 evs (Z.to_nat (ev_Sequence ev - 1))) as [ev' Hev']; [lia|].
    pose proof (mirrored_sequences _ _ _ _ Hm) as Hs. pose proof Hev' as Hat. apply (f_equal (fmap ev_Sequence)) in Hat.
    rewrite <- list_lookup_fmap, Hs in Hat. apply lookup_seqZ in Hat as [Hat _]. apply list_elem_of_lookup_2 in Hev'.
    pose proof (readRemoteEvent_run _ _ _ _ _ Hm Hev') as Hr. replace (ev_Sequence ev') with (ev_Sequence ev) in Hr by lia.
    rewrite Hid. unfold mbind, stx_bind, fail_if, mret, stx_ret. rewrite Hr.
    assert (sameRemoteEvent ev' ev = false) as -> by (apply not_true_is_false; intros ->%sameRemoteEvent_true; done). done.
  - intros Hgt. rewrite (proj2 (Z.leb_gt _ _)), (proj2 (Z.eqb_neq _ _)) by lia. done.
  - intros Hs Ht. rewrite (proj2 (Z.leb_gt _ _)), (proj2 (Z.eqb_eq _ _)) by lia. destruct (lc_TerminalState l); [done|]. by destruct Ht.
Qed.

Definition held (m : Mirror) (id : string) : list EventRow * Z := (rows_of (local_remote_events m) id, cursor_of m id).

(** A batch that is mirrored adds, in order, exactly those of its events that
    were missing, and the counts and the last sequence of the result say so;
    every event of the batch is then mirrored, the other commands are untouched,
    and mirroring the batch again finds duplicates only and changes nothing. *)
Theorem mirror_batch_exact m id evs now batch r m' :
  mirrors m id evs -> local_remote_event_gaps m !! id = None -> sql_length_pos id = true ->
  ev_CommandID <$> head batch = Some id -> Forall storable_event batch ->
  MirrorRemoteEvents m now batch = (Ok r, m') ->
  exists new, mirrors m' id (evs ++ new) /\ sublist new batch /\ Forall (fun ev => ev ∈ evs ++ new) batch /\
    r = mkRemoteEventMirrorResult id (Z.of_nat (length (evs ++ new))) (Z.of_nat (length new))
          (Z.of_nat (length batch) - Z.of_nat (length new)) /\
    (forall id', id' <> id -> held m' id' = held m id') /\
    (forall now', MirrorRemoteEvents m' now' batch
       = (Ok (mkRemoteEventMirrorResult id (Z.of_nat (length (evs ++ new))) 0 (Z.of_nat (length batch))), m')).
Proof.
  intros Hm Hg Hsql Hid Hf H. destruct batch as [|first rest]; [done|]. injection Hid as Hid.
  apply (mirror_batch m id evs) in H as (new & He & -> & ->); try done. exists new.
  pose proof (mirrors_advance _ now _ _ _ _ Hm Hf He) as Hm'. destruct (extends_all _ _ _ _ He) as [Hall Hsub].
  split_and!; try done.
  - intros id' Hne. unfold held. rewrite advance_rows, advance_cursor by apply Hm. by rewrite bool_decide_eq_false_2.
  - intros now'. apply (mirror_batch _ id (evs ++ new)); try done; [by rewrite advance_gaps|].
    exists []. rewrite !app_nil_r. split_and!; [by apply extends_mirrored_already|done|]. cbn [length]. by rewrite Z.sub_0_r.
Qed.

(** ** Following the authority *)
Lemma GetCommand_row s id rec :
  GetCommand s id = Ok rec -> id <> "" /\ exists c, exec_commands (db s) !! id = Some c /\ cr_State rec = c_state c.
Proof.
  unfold GetCommand. intros H. tx_inv H. id_norm. unfold withReadTransaction in H.
  destruct (readCommandOnConnection id (db s)) as [[r d1]|] eqn:E; [|done]. injection H as ->.
  destruct (readCommand_Ok _ _ _ _ E) as (-> & row & Hrow & Hne & _ & _ & _ & _ & Hst & _). eauto.
Qed.

Lemma InspectPrefix_run m id evs l :
  mirrors m id evs -> id <> "" -> InspectRemoteEventLifecycle evs = Ok l ->
  InspectRemoteEventPrefix m id = Ok (mkRemoteEventPrefixSnapshot (Z.of_nat (length evs)) l).
Proof.
  intros [[l' Hl] Hc] Hne Hi. pose proof (mi_lawful _ _ _ _ Hl) as Hi'. rewrite Hi in Hi'. injection Hi' as <-.
  unfold InspectRemoteEventPrefix. rewrite (proj2 (NewCommandID_Ok id id)) by done. cbn [mbind result_bind]. unfold withMirrorRead.
  erewrite stx_bind_run; [|apply cursor_run]. rewrite Hc. by erewrite stx_bind_run; [|by apply prefix_run].
Qed.

Lemma stream_own N M s id c :
  store_inv N M s -> exec_commands (db s) !! id = Some c -> id <> "" ->
  Forall (mirrorable id) (published_events id s) -> truncated_once (published_events id s) ->
  Forall (own_event id) (published_events id s) /\
  exists l, InspectRemoteEventLifecycle (published_events id s) = Ok l /\ describes (c_state c) (published_events id s) l.
Proof.
  intros Hinv Hc Hne Hm Ht. destruct (published_sequences _ _ _ _ _ Hinv Hc) as (Hrows & _ & Hv & _).
  destruct Hinv as [_ [Hs _] _ _ _ _ _]. destruct (Hs _ _ Hc) as [Hstream _]. rewrite Hrows in Hstream.
  split; [|by eapply stream_lawful]. rewrite Forall_fmap in Hv. apply Forall_forall. intros ev Hev.
  rewrite Forall_forall in Hv. rewrite Forall_forall in Hm. destruct (Hm _ Hev) as (H1 & H2 & H3).
  split; [|done]. split; [|done]. apply (row_valid_event id); [done|by apply Hm|by apply Hv].
Qed.


(** ** Witnesses *)
Lemma mirrors_empty id : mirrors empty_mirror id [].
Proof. split; [|done]. exists empty_lifecycle. by constructor. Qed.

Notation example_events := (published_events "c1" example_state).

Lemma example_own : Forall (own_event "c1") example_events /\ exists l, InspectRemoteEventLifecycle example_events = Ok l.
Proof.
  destruct example_c1 as (c & Hc & _).
  destruct (stream_own 4 20 example_state "c1" c (reachable_inv _ _ _ example_reachable) Hc) as [H (l & Hl & _)]; [done| | |eauto].
  - refine (bool_decide_eq_true_1 _ _). vm_compute. reflexivity.
  - vm_compute. lia.
Qed.

Lemma example_storable : Forall storable_event example_events.
Proof. eapply Forall_impl; [exact (proj1 example_own)|]. by intros ev [[? _] ?]. Qed.

(** The first three events of the stream, then the whole of it. *)
Definition example_mirror : Mirror := snd (MirrorRemoteEvents empty_mirror t0 (take 3 example_events)).
Lemma example_mirrors : mirrors example_mirror "c1" (take 3 example_events).
Proof.
  destruct example_own as [Hown [l Hl]].
  assert (extends "c1" [] (take 3 example_events) (take 3 example_events)) as He.
  { rewrite <- (take_drop 3 example_events) in Hown, Hl. destruct (inspect_prefix _ _ _ _ (own_of_command _ _ Hown) Hl) as [l' Hl'].
    apply (extends_tail _ [] _ l'); [by apply Forall_app in Hown as [? _]|done]. }
  pose proof (mirrors_advance "c1" t0 [] _ _ _ (mirrors_empty "c1") (Forall_take _ 3 _ example_storable) He) as H.
  rewrite app_nil_l in H. replace example_mirror with (advance "c1" t0 [] (take 3 example_events) empty_mirror); [exact H|vm_compute; reflexivity].
Qed.

Lemma mirror_batch_exact_witness : exists m' r,
  MirrorRemoteEvents example_mirror t0 (drop 1 example_events) = (Ok r, m') /\ mr_Mirrored r = 1 /\ mr_Duplicates r = 2 /\
  exists new, mirrors m' "c1" (take 3 example_events ++ new).
Proof.
  destruct (MirrorRemoteEvents example_mirror t0 (drop 1 example_events)) as [r m'] eqn:E.
  pose proof (f_equal fst E) as Hr. vm_compute in Hr. destruct r as [r|]; [|discriminate]. injection Hr as Hr.
  exists m', r. split; [reflexivity|]. split; [subst r; reflexivity|]. split; [subst r; reflexivity|].
  destruct (mirror_batch_exact example_mirror "c1" (take 3 example_events) t0 (drop 1 example_events) r m') as (new & H & _).
  - exact example_mirrors.
  - vm_compute. reflexivity.
  - reflexivity.
  - vm_compute. reflexivity.
  - apply Forall_drop. exact example_storable.
  - exact E.
  - exists new. exact H.
Defined.

Lemma mirror_refusals_witness : exists l ev,
  mirrored example_mirror "c1" (take 3 example_events) l /\ example_events !! 3%nat = Some ev /\
  MirrorRemoteEvents empty_mirror t0 [ev] = (Err ErrRemoteEventGap, empty_mirror).
Proof.
  destruct example_mirrors as [[l Hl] _]. destruct (example_events !! 3%nat) as [ev|] eqn:E; [|vm_compute in E; discriminate].
  exists l, ev. split; [exact Hl|]. split; [reflexivity|].
  assert (ev_CommandID ev = "c1" /\ ev_Sequence ev = 4) as [Hid Hs] by (vm_compute in E; injection E as <-; split; reflexivity).
  assert (storable_event ev) as Hev.
  { pose proof example_storable as H. rewrite Forall_forall in H. apply H. eapply list_elem_of_lookup_2. exact E. }
  assert (mirrored empty_mirror "c1" [] empty_lifecycle) as H0 by (constructor; [reflexivity|constructor|reflexivity]).
  destruct (mirror_refusals empty_mirror t0 "c1" [] empty_lifecycle ev H0 eq_refl Hid Hev) as (_ & H & _).
  apply H. rewrite Hs. reflexivity.
Defined.

