(* ===== verification/MirrorInvariant.v ===== *)
(** * Every reachable mirror

    The operations of [store/remote_events.go], [store/remote_projections.go] and
    [store/remote_jobs.go] on the controller's tables, as runs of an abstract
    system whose steps write one projection, extend one event stream or confirm
    one gap.  Each step only adds knowledge ([mirror_le]) and keeps the streams,
    the gaps and the projections consistent with one another ([mirror_inv]).
    At the end, what garbage collection does to a mirrored prefix. *)
From stdpp Require Import relations.
From S2P Require Import Retention RetentionTheorems Histories.
From S2P Require Import Prelude GoStrings Sha256 Identity Lifecycle Policy Canonical LaneAdmission.
From S2P Require Import AuditRecords JsonText Db AuditStore AdmissionStore Idempotency Sessions Commands.
From S2P Require Import RemoteDb RemoteProjections RemoteEvents RemoteUpserts Authority MirrorStreams MirrorTheorems.
From S2P Require Import AuthorityTheorems.

(** ** What the tables say together *)

(** A later observation. *)
Definition observed_le (a b : StoredTime) : Prop :=
  forall t, parseStoredTime a = Some t -> exists t', parseStoredTime b = Some t' /\ t <= t'.

#[export] Instance observed_le_preorder : PreOrder observed_le.
Proof.
  split; [intros a t H; exists t; split; [done|lia]|]. intros a b c Hab Hbc t (t1 & H1 & L1)%Hab.
  apply Hbc in H1 as (t2 & H2 & L2). exists t2. split; [done|lia].
Qed.

(** The columns of a projection that say what it is a projection of. *)
Definition session_identity (r : RemoteSessionRow) :=
  (rs_target r, rs_controller r, rs_environment r, rs_source_json r).
Definition command_identity (r : RemoteCommandRow) :=
  (rc_session_id r, rc_ordinal r, rc_target r, rc_controller r, rc_environment r, rc_source_json r).
Definition job_identity (r : RemoteJobRow) :=
  (rj_session_id r, rj_command_id r, rj_target r, rj_controller r, rj_environment r, rj_source_json r).

(** What a confirmed gap says of the projections of its command. *)
Definition command_agrees (g : GapRow) (r : RemoteCommandRow) : Prop :=
  rc_command_state r = g_terminal_state g /\ rc_final_event_sequence r = Some (g_final_sequence g) /\ rc_output_complete r = false.
Definition job_agrees (g : GapRow) (r : RemoteJobRow) : Prop :=
  rj_command_state r = Some (g_terminal_state g) /\ rj_final_event_sequence r = Some (g_final_sequence g) /\ rj_output_complete r = false.

(** A gap follows a lawful, unfinished prefix. *)
Definition gap_follows (m : Mirror) (id : string) (g : GapRow) : Prop :=
  (exists gap, decodeGap id g = Ok gap) /\
  exists evs l, mirrored m id evs l /\ g_available_sequence g = Z.of_nat (length evs) /\ lc_TerminalState l = None.

Record mirror_inv (m : Mirror) : Prop := {
  mv_prefix : forall id, exists evs, mirrors m id evs;
  mv_gap : forall id g, local_remote_event_gaps m !! id = Some g -> gap_follows m id g;
  mv_command : forall id g r, local_remote_event_gaps m !! id = Some g ->
    local_remote_command_projections m !! id = Some r -> command_agrees g r;
  mv_job : forall j g r, local_remote_job_projections m !! j = Some r ->
    local_remote_event_gaps m !! rj_command_id r = Some g -> job_agrees g r
}.

(** Nothing that was mirrored or recorded is forgotten. *)
Record mirror_le (m m' : Mirror) : Prop := {
  ml_rows : forall id, rows_of (local_remote_events m) id `prefix_of` rows_of (local_remote_events m') id;
  ml_gaps : local_remote_event_gaps m ⊆ local_remote_event_gaps m';
  ml_sessions : forall id r, local_remote_session_projections m !! id = Some r ->
    exists r', local_remote_session_projections m' !! id = Some r' /\ session_identity r' = session_identity r /\
      observed_le (rs_observed_at r) (rs_observed_at r');
  ml_commands : forall id r, local_remote_command_projections m !! id = Some r ->
    exists r', local_remote_command_projections m' !! id = Some r' /\ command_identity r' = command_identity r /\
      observed_le (rc_observed_at r) (rc_observed_at r');
  ml_jobs : forall id r, local_remote_job_projections m !! id = Some r ->
    exists r', local_remote_job_projections m' !! id = Some r' /\ job_identity r' = job_identity r /\
      observed_le (rj_observed_at r) (rj_observed_at r')
}.

#[export] Instance mirror_le_preorder : PreOrder mirror_le.
Proof.
  split.
  - intros m. constructor; try done; intros id r H; exists r; by split_and!.
  - intros m1 m2 m3 [A1 A2 A3 A4 A5] [B1 B2 B3 B4 B5]. constructor; [intros id; by transitivity (rows_of (local_remote_events m2) id)
      |by transitivity (local_remote_event_gaps m2)|..]; intros id r H.
    + destruct (A3 _ _ H) as (r2 & H2 & I2 & O2). destruct (B3 _ _ H2) as (r3 & H3 & I3 & O3). exists r3.
      split_and!; [done|congruence|by transitivity (rs_observed_at r2)].
    + destruct (A4 _ _ H) as (r2 & H2 & I2 & O2). destruct (B4 _ _ H2) as (r3 & H3 & I3 & O3). exists r3.
      split_and!; [done|congruence|by transitivity (rc_observed_at r2)].
    + destruct (A5 _ _ H) as (r2 & H2 & I2 & O2). destruct (B5 _ _ H2) as (r3 & H3 & I3 & O3). exists r3.
      split_and!; [done|congruence|by transitivity (rj_observed_at r2)].
Qed.

(** ** The abstract system *)
Inductive mstep (m : Mirror) : Mirror -> Prop :=
  | ms_session id r :
      (forall r0, local_remote_session_projections m !! id = Some r0 ->
         session_identity r = session_identity r0 /\ observed_le (rs_observed_at r0) (rs_observed_at r)) ->
      mstep m (set_remote_sessions (<[id := r]> (local_remote_session_projections m)) m)
  | ms_command id r :
      (forall r0, local_remote_command_projections m !! id = Some r0 ->
         command_identity r = command_identity r0 /\ observed_le (rc_observed_at r0) (rc_observed_at r)) ->
      (forall g, local_remote_event_gaps m !! id = Some g -> command_agrees g r) ->
      mstep m (set_remote_commands (<[id := r]> (local_remote_command_projections m)) m)
  | ms_job id r :
      (forall r0, local_remote_job_projections m !! id = Some r0 ->
         job_identity r = job_identity r0 /\ observed_le (rj_observed_at r0) (rj_observed_at r)) ->
      (forall g, local_remote_event_gaps m !! rj_command_id r = Some g -> job_agrees g r) ->
      mstep m (set_remote_jobs (<[id := r]> (local_remote_job_projections m)) m)
  | ms_events id now evs batch new :
      mirrors m id evs -> local_remote_event_gaps m !! id = None -> Forall storable_event batch -> extends id evs batch new ->
      mstep m (advance id now evs new m)
  | ms_gap id g :
      local_remote_event_gaps m !! id = None -> gap_follows m id g ->
      (forall r, local_remote_command_projections m !! id = Some r -> command_agrees g r) ->
      (forall j r, local_remote_job_projections m !! j = Some r -> rj_command_id r = id -> job_agrees g r) ->
      mstep m (set_gaps (<[id := g]> (local_remote_event_gaps m)) m).

Lemma gap_follows_ext m m' id g :
  rows_of (local_remote_events m') id = rows_of (local_remote_events m) id -> gap_follows m id g -> gap_follows m' id g.
Proof. intros Hr [H (evs & l & [H1 H2 H3] & Ha)]. split; [done|]. exists evs, l. split; [|done]. constructor; congruence. Qed.

Lemma same_streams m m' :
  local_remote_events m' = local_remote_events m -> local_remote_event_cursors m' = local_remote_event_cursors m ->
  (forall id, exists evs, mirrors m id evs) -> (forall id g, local_remote_event_gaps m !! id = Some g -> gap_follows m id g) ->
  (forall id, exists evs, mirrors m' id evs) /\ (forall id g, local_remote_event_gaps m !! id = Some g -> gap_follows m' id g).
Proof.
  intros He Hc H1 H2. split.
  - intros id. destruct (H1 id) as [evs H]. exists evs. eapply mirrors_ext; [by rewrite He| |done]. unfold cursor_of. by rewrite Hc.
  - intros id g Hg. eapply gap_follows_ext; [by rewrite He|by apply H2].
Qed.

Lemma lookup_insert_cases {A} (t : gmap string A) i j x y : <[i := x]> t !! j = Some y -> j = i /\ y = x \/ j <> i /\ t !! j = Some y.
Proof. intros [[-> ->]|[? ?]]%lookup_insert_Some; auto. Qed.

Ltac mirror_cbn := cbn [local_remote_session_projections local_remote_command_projections local_remote_job_projections
  local_remote_events local_remote_event_cursors local_remote_event_gaps local_intents local_intent_lifecycle local_idempotency
  local_remote_status_failures set_remote_sessions set_remote_commands set_remote_jobs set_remote_events set_cursors set_gaps
  set_intents set_intent_lifecycle set_local_idempotency set_status_failures] in *.

Lemma advance_tables id now evs new m :
  local_remote_session_projections (advance id now evs new m) = local_remote_session_projections m /\
  local_remote_command_projections (advance id now evs new m) = local_remote_command_projections m /\
  local_remote_job_projections (advance id now evs new m) = local_remote_job_projections m.
Proof. unfold advance. by destruct new. Qed.

Lemma mstep_inv m m' : mstep m m' -> mirror_inv m -> mirror_inv m'.
Proof.
  intros Hs [I1 I2 I3 I4]. destruct Hs as [id r Hr|id r Hr Hg|id r Hr Hg|id now evs batch new Hm Hg Hf He|id g Hg Hgf Hc Hj].
  - destruct (same_streams m (set_remote_sessions (<[id := r]> (local_remote_session_projections m)) m)) as [J1 J2]; try done.
  - destruct (same_streams m (set_remote_commands (<[id := r]> (local_remote_command_projections m)) m)) as [J1 J2]; try done.
    constructor; try done. intros i g r' Hi Hr'. mirror_cbn. apply lookup_insert_cases in Hr' as [[-> ->]|[? ?]]; [auto|by eapply I3].
  - destruct (same_streams m (set_remote_jobs (<[id := r]> (local_remote_job_projections m)) m)) as [J1 J2]; try done.
    constructor; try done. intros j g r' Hr' Hi. mirror_cbn. apply lookup_insert_cases in Hr' as [[-> ->]|[? ?]]; [auto|by eapply I4].
  - destruct (advance_tables id now evs new m) as (_ & E2 & E3). constructor; rewrite ?advance_gaps, ?E2, ?E3; try done.
    + intros i. destruct (decide (i = id)) as [->|Hne].
      * exists (evs ++ new). by eapply mirrors_advance.
      * destruct (I1 i) as [evs' H]. exists evs'. apply mirrors_advance_other; [apply Hm|done|done].
    + intros i g Hi. destruct (decide (i = id)) as [->|Hne]; [congruence|]. eapply gap_follows_ext; [|by apply I2].
      by rewrite advance_rows, bool_decide_eq_false_2.
  - destruct (same_streams m (set_gaps (<[id := g]> (local_remote_event_gaps m)) m)) as [J1 J2]; try done. constructor; [done|..].
    + intros i g' Hi. mirror_cbn. apply lookup_insert_cases in Hi as [[-> ->]|[? ?]]; [by apply (gap_follows_ext m)|by apply J2].
    + intros i g' r Hi Hr. mirror_cbn. apply lookup_insert_cases in Hi as [[-> ->]|[? ?]]; [by apply Hc|by eapply I3].
    + intros j g' r Hr Hi. mirror_cbn. apply lookup_insert_cases in Hi as [[Hid ->]|[? ?]]; [by eapply Hj|by eapply I4].
Qed.

Lemma insert_later {A} (le : A -> A -> Prop) (t : gmap string A) i x :
  (forall y, le y y) -> (forall y, t !! i = Some y -> le y x) -> forall j y, t !! j = Some y -> exists y', <[i := x]> t !! j = Some y' /\ le y y'.
Proof.
  intros Hrefl H j y Hj. destruct (decide (j = i)) as [->|Hne].
  - exists x. rewrite lookup_insert_eq. auto.
  - exists y. rewrite lookup_insert_ne by done. auto.
Qed.

Lemma mstep_le m m' : mstep m m' -> mirror_le m m'.
Proof.
  intros Hs. destruct Hs as [id r Hr|id r Hr Hg|id r Hr Hg|id now evs batch new Hm Hg Hf He|id g Hg Hgf Hc Hj].
  1-3: constructor; try done; try (intros i r0 Hi; exists r0; by split_and!).
  - apply (insert_later (fun r0 r => session_identity r = session_identity r0 /\ observed_le (rs_observed_at r0) (rs_observed_at r))); [by intros ?|done].
  - apply (insert_later (fun r0 r => command_identity r = command_identity r0 /\ observed_le (rc_observed_at r0) (rc_observed_at r))); [by intros ?|done].
  - apply (insert_later (fun r0 r => job_identity r = job_identity r0 /\ observed_le (rj_observed_at r0) (rj_observed_at r))); [by intros ?|done].
  - destruct (advance_tables id now evs new m) as (E1 & E2 & E3). constructor; rewrite ?advance_gaps, ?E1, ?E2, ?E3; try done;
      try (intros i r0 Hi; exists r0; by split_and!).
    intros i. rewrite advance_rows. case_bool_decide as E; [subst; by apply prefix_app_r|done].
  - constructor; try done; try (intros i r0 Hi; exists r0; by split_and!). mirror_cbn. by apply insert_subseteq.
Qed.

Lemma msteps_inv m m' : rtc mstep m m' -> mirror_inv m -> mirror_inv m'.
Proof. induction 1; intros; [done|]. eauto using mstep_inv. Qed.
Lemma msteps_le m m' : rtc mstep m m' -> mirror_le m m'.
Proof. induction 1 as [|m1 m2 m3 H _ IH]; [done|]. transitivity m2; [by apply mstep_le|done]. Qed.

(** ** Reads *)

(** A computation whose errors are not [t]. *)
Class Avoids {A} (t : error) (r : result A) : Prop := avoids : forall e, r = Err e -> errors_is e t = false.

Section avoids.
Context {A B : Type} (t : error).
#[export] Instance avoids_ok (a : A) : Avoids t (Ok a).
Proof. by intros e. Qed.
#[export] Instance avoids_bind (r : result A) (k : A -> result B) : Avoids t r -> (forall a, Avoids t (k a)) -> Avoids t (mbind k r).
Proof. intros Hr Hk e. destruct r as [a|e']; cbn [mbind result_bind]; [apply Hk|]. intros [= ->]. by apply Hr. Qed.
Lemma avoids_err e : errors_is e t = false -> Avoids t (Err e : result A).
Proof. intros H e' [= <-]. done. Qed.
Lemma avoids_map e (r : result A) : errors_is e t = false -> Avoids t (result_map_err (fun _ => e) r).
Proof. intros H e'. destruct r; cbn [result_map_err]; intros [= <-]. done. Qed.
Lemma avoids_refuse b e : errors_is e t = false -> Avoids t (refuse_if b e).
Proof. intros H e'. destruct b; cbn [refuse_if]; intros [= <-]. done. Qed.
End avoids.
#[export] Hint Extern 1 (Avoids _ (Err _)) => apply avoids_err; reflexivity : typeclass_instances.
#[export] Hint Extern 1 (Avoids _ (result_map_err _ _)) => apply avoids_map; reflexivity : typeclass_instances.
#[export] Hint Extern 1 (Avoids _ (invalid_projection _)) => apply avoids_map; reflexivity : typeclass_instances.
#[export] Hint Extern 1 (Avoids _ (refuse_if _ _)) => apply avoids_refuse; reflexivity : typeclass_instances.
#[export] Hint Extern 2 (Avoids _ (match ?x with _ => _ end)) => destruct x : typeclass_instances.
#[export] Hint Extern 2 (Avoids _ (from_option _ _ ?x)) => destruct x; cbn [from_option] : typeclass_instances.

Section not_found.
Notation t := ErrRemoteProjectionNotFound.
#[local] Instance av_target x : Avoids t (remote_target x).
Proof. unfold remote_target. apply _. Qed.
#[local] Instance av_controller x : Avoids t (stored_controller x).
Proof. unfold stored_controller. apply _. Qed.
#[local] Instance av_unmarshal x : Avoids t (unmarshalProjectionSource x).
Proof. unfold unmarshalProjectionSource, NewGitRevisionSource. apply _. Qed.
#[local] Instance av_marshal x y : Avoids t (marshalProjectionSource x y).
Proof. unfold marshalProjectionSource. cbv zeta. apply _. Qed.
#[local] Instance av_capabilities x : Avoids t (marshalRemoteCapabilities x).
Proof. unfold marshalRemoteCapabilities. apply _. Qed.
#[local] Instance av_vsession x : Avoids t (validateRemoteSessionProjection x).
Proof. unfold validateRemoteSessionProjection. apply _. Qed.
#[local] Instance av_vcommand x : Avoids t (validateRemoteCommandProjection x).
Proof. unfold validateRemoteCommandProjection. apply _. Qed.
#[local] Instance av_vjob x : Avoids t (validateRemoteJobProjection x).
Proof. unfold validateRemoteJobProjection. apply _. Qed.
#[export] Instance av_session id r : Avoids t (decodeRemoteSession id r).
Proof. unfold decodeRemoteSession. cbv zeta. apply _. Qed.
#[export] Instance av_command id r : Avoids t (decodeRemoteCommand id r).
Proof. unfold decodeRemoteCommand. cbv zeta. apply _. Qed.
#[export] Instance av_job id r : Avoids t (decodeRemoteJob id r).
Proof. unfold decodeRemoteJob. cbv zeta. apply _. Qed.
End not_found.

#[export] Instance av_gap id g : Avoids ErrRemoteGapNotFound (decodeGap id g).
Proof. unfold decodeGap, validateRemoteEventGap. apply _. Qed.

Lemma lookup_projection_Ok {R A} (table : Mirror -> gmap string R) (decode : string -> R -> result A) id m o m' :
  (forall r, Avoids ErrRemoteProjectionNotFound (decode id r)) ->
  lookup_projection (row ← query (fun m => table m !! id); row ← or_fail row ErrRemoteProjectionNotFound; lift (decode id row)) m = Ok (o, m') ->
  m' = m /\ match o with Some p => exists r, table m !! id = Some r /\ decode id r = Ok p | None => table m !! id = None end.
Proof.
  intros Hav. unfold lookup_projection. rewrite query_bind. destruct (table m !! id) as [r|].
  - rewrite or_fail_bind_some. unfold lift. destruct (decode id r) as [p|e] eqn:E.
    + intros [= <- <-]. eauto.
    + by rewrite (Hav r e E).
  - rewrite or_fail_bind_none. cbn. by intros [= <- <-].
Qed.

Lemma lookup_gap_Ok id m o m' :
  lookupRemoteEventGap id m = Ok (o, m') ->
  m' = m /\ match o with
            | Some gap => exists g, local_remote_event_gaps m !! id = Some g /\ decodeGap id g = Ok gap
            | None => local_remote_event_gaps m !! id = None
            end.
Proof.
  unfold lookupRemoteEventGap, readRemoteEventGapOnConnection. rewrite query_bind. destruct (local_remote_event_gaps m !! id) as [g|].
  - rewrite or_fail_bind_some. unfold lift. destruct (decodeGap id g) as [p|e] eqn:E.
    + intros [= <- <-]. eauto.
    + by rewrite (av_gap id g e E).
  - rewrite or_fail_bind_none. cbn. by intros [= <- <-].
Qed.

Lemma decodeGap_Ok id g gap : decodeGap id g = Ok gap ->
  gap_CommandID gap = id /\ gap_TerminalState gap = g_terminal_state g /\ gap_FinalSequence gap = g_final_sequence g /\
  gap_AvailableSequence gap = g_available_sequence g.
Proof.
  unfold decodeGap, validateRemoteEventGap. intros H. apply result_bind_Ok in H as (t & _ & H). tx_inv H.
  apply NewCommandID_Ok in Hrun as [-> _]. done.
Qed.

Lemma decodeCommand_Ok id r p : decodeRemoteCommand id r = Ok p ->
  cp_CommandID p = id /\ cp_State p = rc_command_state r /\ cp_FinalEventSequence p = rc_final_event_sequence r /\
  parseStoredTime (rc_observed_at r) = Some (cp_ObservedAt p).
Proof.
  unfold decodeRemoteCommand. cbv zeta. intros H. apply result_bind_Ok in H as (c & [-> _]%result_map_err_Ok%NewCommandID_Ok & H).
  do 4 apply result_bind_Ok in H as (? & _ & H). apply result_bind_Ok in H as (t & Ht & H).
  apply result_bind_Ok in H as (? & _ & H). injection H as <-. destruct (parseStoredTime _); [|done]. injection Ht as ->. done.
Qed.

Lemma decodeJob_Ok id r p : decodeRemoteJob id r = Ok p ->
  jp_JobID p = id /\ jp_CommandID p = rj_command_id r /\ jp_CommandState p = rj_command_state r /\
  jp_FinalEventSequence p = rj_final_event_sequence r /\ parseStoredTime (rj_observed_at r) = Some (jp_ObservedAt p).
Proof.
  unfold decodeRemoteJob. cbv zeta. intros H. do 2 apply result_bind_Ok in H as (? & _ & H).
  apply result_bind_Ok in H as (c & [-> _]%result_map_err_Ok%NewCommandID_Ok & H).
  do 2 apply result_bind_Ok in H as (? & _ & H). apply result_bind_Ok in H as (t & Ht & H).
  apply result_bind_Ok in H as (? & _ & H). injection H as <-. destruct (parseStoredTime _); [|done]. injection Ht as ->. done.
Qed.

Lemma decodeSession_Ok id r p : decodeRemoteSession id r = Ok p -> parseStoredTime (rs_observed_at r) = Some (sp_ObservedAt p).
Proof.
  unfold decodeRemoteSession. cbv zeta. intros H. do 3 apply result_bind_Ok in H as (? & _ & H).
  apply result_bind_Ok in H as (t & Ht & H).
  apply result_bind_Ok in H as (? & _ & H). injection H as <-. destruct (parseStoredTime _); [|done]. injection Ht as ->. done.
Qed.

(** ** Writes *)
Lemma mirror_transaction {A} m (body : mtx A) r m' :
  withMirrorTransaction m body = (r, m') -> m' = m \/ exists a, body m = Ok (a, m').
Proof. unfold withMirrorTransaction. destruct (body m) as [[a m1]|]; intros [= _ <-]; eauto. Qed.

Lemma observed_newer a t t' : parseStoredTime a = Some t -> t <= t' -> storable t' -> observed_le a (formatStoredTime t').
Proof. intros Ha Hle Hs u Hu. rewrite Ha in Hu. injection Hu as <-. exists t'. split; [by apply parse_format|done]. Qed.

Lemma upsert_session m p r m' :
  storable (sp_ObservedAt p) -> UpsertRemoteSessionProjection m p = (r, m') -> rtc mstep m m'.
Proof.
  intros Ht. unfold UpsertRemoteSessionProjection. destruct (validateRemoteSessionProjection p) as [[[v src] cap]|] eqn:Ev; [|by intros [= _ <-]].
  assert (sp_ObservedAt v = sp_ObservedAt p) as Hv by (unfold validateRemoteSessionProjection in Ev; by tx_inv Ev).
  rewrite <- Hv in Ht. cbv zeta. intros [->|[v' E]]%mirror_transaction; [constructor|]. apply stx_bind_Ok in E as (o & m2 & Hl & E). apply (lookup_projection_Ok local_remote_session_projections) in Hl as [-> Hl]; [|apply _].
  destruct o as [stored|].
  - destruct Hl as (row & Hrow & Hd). apply stx_bind_Ok in E as (? & ? & [_ <-]%lift_Ok & E).
    destruct (_ <? _) eqn:Elt; [apply stx_ret_Ok in E as [_ <-]; constructor|]. bool_norm.
    unfold write_remote_session in E. tx_inv E. rewrite Hrow in Hrun. simplify_eq/=. apply rtc_once, ms_session.
    rewrite Hrow. intros r0 [= <-]. split; [done|]. eapply observed_newer; [by eapply decodeSession_Ok|done|done].
  - unfold write_remote_session in E. tx_inv E. apply rtc_once, ms_session. by rewrite Hl.
Qed.

Lemma incoming_command m v v' m' :
  normalizeIncomingRemoteCommandProjectionForEventGap v m = Ok (v', m') -> m' = m /\
  cp_ObservedAt v' = cp_ObservedAt v /\ cp_CommandID v' = cp_CommandID v /\
  forall g, local_remote_event_gaps m !! cp_CommandID v = Some g ->
    cp_State v' = g_terminal_state g /\ cp_FinalEventSequence v' = Some (g_final_sequence g) /\ cp_OutputComplete v' = false.
Proof.
  unfold normalizeIncomingRemoteCommandProjectionForEventGap. intros H. apply stx_bind_Ok in H as (o & m1 & [-> Ho]%lookup_gap_Ok & H).
  destruct o as [gap|].
  - destruct Ho as (g & Hg & (_ & Hst & Hfin & _)%decodeGap_Ok). unfold validateProjectionAgainstRemoteEventGap in H. tx_inv H. bool_norm.
    split_and!; try done. intros g' Hg'. rewrite Hg in Hg'. injection Hg' as <-. cbn. rewrite <- Hst, <- Hfin. done.
  - tx_inv H. split_and!; try done. congruence.
Qed.

Lemma upsert_command m p r m' :
  storable (cp_ObservedAt p) -> UpsertRemoteCommandProjection m p = (r, m') -> rtc mstep m m'.
Proof.
  intros Ht. unfold UpsertRemoteCommandProjection. destruct (validateRemoteCommandProjection p) as [[[v src] cap]|] eqn:Ev; [|by intros [= _ <-]].
  assert (cp_ObservedAt v = cp_ObservedAt p) as Hv by (unfold validateRemoteCommandProjection in Ev; by tx_inv Ev).
  rewrite <- Hv in Ht. intros [->|[v'' E]]%mirror_transaction; [constructor|]. apply stx_bind_Ok in E as (v' & m2 & (-> & Ho & Hid & Hg)%incoming_command & E). cbv zeta in E. rewrite <- Ho in Ht.
  rewrite <- Hid in Hg. clear Hid Hv Ev. apply stx_bind_Ok in E as (o & m3 & Hl & E).
  apply (lookup_projection_Ok local_remote_command_projections) in Hl as [-> Hl]; [|apply _]. destruct o as [stored|].
  - destruct Hl as (row & Hrow & Hd). apply stx_bind_Ok in E as (? & ? & [_ <-]%lift_Ok & E).
    destruct (_ <? _) eqn:Elt; [apply stx_ret_Ok in E as [_ <-]; constructor|]. bool_norm.
    unfold write_remote_command in E. tx_inv E. rewrite Hrow in Hrun. simplify_eq/=. apply rtc_once, ms_command.
    + rewrite Hrow. intros r0 [= <-]. split; [done|]. apply decodeCommand_Ok in Hd as (_ & _ & _ & Hd).
      eapply observed_newer; [exact Hd| |]; by case_bool_decide.
    + intros g (H1 & H2 & H3)%Hg. by case_bool_decide.
  - unfold write_remote_command in E. tx_inv E. apply rtc_once, ms_command; [by rewrite Hl|]. intros g (H1 & H2 & H3)%Hg. done.
Qed.

Lemma incoming_job m v v' m' :
  normalizeIncomingRemoteJobProjectionForEventGap v m = Ok (v', m') -> m' = m /\
  jp_ObservedAt v' = jp_ObservedAt v /\ jp_CommandID v' = jp_CommandID v /\
  forall g, local_remote_event_gaps m !! jp_CommandID v = Some g ->
    jp_CommandState v' = Some (g_terminal_state g) /\ jp_FinalEventSequence v' = Some (g_final_sequence g) /\ jp_OutputComplete v' = false.
Proof.
  unfold normalizeIncomingRemoteJobProjectionForEventGap. intros H. apply stx_bind_Ok in H as (o & m1 & [-> Ho]%lookup_gap_Ok & H).
  destruct o as [gap|].
  - destruct Ho as (g & Hg & (_ & Hst & Hfin & _)%decodeGap_Ok). unfold validateProjectionAgainstRemoteEventGap in H. tx_inv H. bool_norm.
    split_and!; try done. intros g' Hg'. rewrite Hg in Hg'. injection Hg' as <-. cbn. rewrite <- Hst, <- Hfin. subst. done.
  - tx_inv H. split_and!; try done. congruence.
Qed.

Lemma upsert_job m p r m' :
  storable (jp_ObservedAt p) -> UpsertRemoteJobProjection m p = (r, m') -> rtc mstep m m'.
Proof.
  intros Ht. unfold UpsertRemoteJobProjection. destruct (validateRemoteJobProjection p) as [[[v src] cap]|] eqn:Ev; [|by intros [= _ <-]].
  assert (jp_ObservedAt v = jp_ObservedAt p) as Hv by (unfold validateRemoteJobProjection in Ev; by tx_inv Ev).
  rewrite <- Hv in Ht. intros [->|[v'' E]]%mirror_transaction; [constructor|]. apply stx_bind_Ok in E as (v' & m2 & (-> & Ho & Hid & Hg)%incoming_job & E). cbv zeta in E. rewrite <- Ho in Ht.
  rewrite <- Hid in Hg. clear Hid Hv Ev. apply stx_bind_Ok in E as (o & m3 & Hl & E).
  apply (lookup_projection_Ok local_remote_job_projections) in Hl as [-> Hl]; [|apply _]. destruct o as [stored|].
  - destruct Hl as (row & Hrow & Hd). apply decodeJob_Ok in Hd as (_ & Hc & _ & _ & Hd).
    apply stx_bind_Ok in E as (? & ? & [Hsame <-]%lift_Ok & E).
    destruct (_ <? _) eqn:Elt; [apply stx_ret_Ok in E as [_ <-]; constructor|]. bool_norm.
    unfold validateRemoteJobProjectionIdentity in Hsame. tx_inv Hsame. bool_norm.
    assert (rj_command_id row = jp_CommandID v') as Hcid by congruence.
    unfold write_remote_job in E. tx_inv E. rewrite Hrow in Hrun. simplify_eq/=. apply rtc_once, ms_job.
    + rewrite Hrow. intros r0 [= <-]. split; [done|]. by eapply observed_newer.
    + intros g. cbn. rewrite Hcid. intros (? & ? & ?)%Hg. done.
  - unfold write_remote_job in E. tx_inv E. apply rtc_once, ms_job; [by rewrite Hl|]. intros g (H1 & H2 & H3)%Hg. done.
Qed.

Lemma stale_session m id r m' : MarkRemoteSessionProjectionStale m id = (r, m') -> rtc mstep m m'.
Proof.
  unfold MarkRemoteSessionProjectionStale. destruct (NewSessionID id); [|by intros [= _ <-]].
  intros [->|[u E]]%mirror_transaction; [constructor|]. tx_inv E. apply rtc_once, ms_session. rewrite Hrun. by intros r0 [= <-].
Qed.

Lemma alter_insert {A} (f : A -> A) (t : gmap string A) i x : t !! i = Some x -> alter f i t = <[i := f x]> t.
Proof.
  intros H. apply map_eq. intros j. destruct (decide (j = i)) as [->|Hne].
  - by rewrite lookup_alter_eq, H, lookup_insert_eq.
  - by rewrite lookup_alter_ne, lookup_insert_ne by done.
Qed.

(** Writing a row that differs from the stored one in neither identity, time, nor
    what a gap decides. *)
Lemma rewrite_command m id row f :
  mirror_inv m -> local_remote_command_projections m !! id = Some row ->
  command_identity (f row) = command_identity row -> rc_observed_at (f row) = rc_observed_at row ->
  (forall g, command_agrees g row -> command_agrees g (f row)) ->
  mstep m (set_remote_commands (alter f id (local_remote_command_projections m)) m).
Proof.
  intros Hinv Hrow Hid Ho Hg. rewrite (alter_insert _ _ _ _ Hrow). apply ms_command.
  - rewrite Hrow. intros r0 [= <-]. by rewrite Ho.
  - intros g Hgap. by eapply Hg, mv_command.
Qed.

Lemma rewrite_job m id row f :
  mirror_inv m -> local_remote_job_projections m !! id = Some row ->
  job_identity (f row) = job_identity row -> rj_observed_at (f row) = rj_observed_at row ->
  (forall g, job_agrees g row -> job_agrees g (f row)) ->
  mstep m (set_remote_jobs (alter f id (local_remote_job_projections m)) m).
Proof.
  intros Hinv Hrow Hid Ho Hg. rewrite (alter_insert _ _ _ _ Hrow). apply ms_job.
  - rewrite Hrow. intros r0 [= <-]. by rewrite Ho.
  - intros g Hgap. injection Hid as H1 H2 _ _ _ _. rewrite H2 in Hgap. by eapply Hg, mv_job.
Qed.

Lemma stale_command m id r m' : mirror_inv m -> MarkRemoteCommandProjectionStale m id = (r, m') -> rtc mstep m m'.
Proof.
  intros Hinv. unfold MarkRemoteCommandProjectionStale. destruct (NewCommandID id); [|by intros [= _ <-]].
  intros [->|[u E]]%mirror_transaction; [constructor|]. unfold update_remote_command in E. tx_inv E.
  apply rtc_once. by eapply rewrite_command.
Qed.

Lemma stale_job m id r m' : mirror_inv m -> MarkRemoteJobProjectionStale m id = (r, m') -> rtc mstep m m'.
Proof.
  intros Hinv. unfold MarkRemoteJobProjectionStale. destruct (NewJobID id); [|by intros [= _ <-]].
  intros [->|[u E]]%mirror_transaction; [constructor|]. unfold update_remote_job in E. tx_inv E.
  apply rtc_once. by eapply rewrite_job.
Qed.

(** ** Confirming a gap *)
Section gap.
Context (gap : RemoteEventGapRecord).
Notation id := (gap_CommandID gap).
Notation row := (gap_row gap).

(** The parts of the mirror that normalising the projections leaves alone. *)
Definition same_but_projections (m m' : Mirror) : Prop :=
  local_remote_events m' = local_remote_events m /\ local_remote_event_cursors m' = local_remote_event_cursors m /\
  local_remote_event_gaps m' = local_remote_event_gaps m.

Lemma normalize_command m m' :
  mirror_inv m -> normalizeCommandForGap gap m = Ok (tt, m') ->
  rtc mstep m m' /\ same_but_projections m m' /\ local_remote_job_projections m' = local_remote_job_projections m /\
  forall r, local_remote_command_projections m' !! id = Some r -> command_agrees row r.
Proof.
  intros Hinv. unfold normalizeCommandForGap, readRemoteCommandProjectionOnConnection. rewrite query_bind.
  destruct (local_remote_command_projections m !! id) as [r|] eqn:Hr.
  - rewrite or_fail_bind_some. unfold lift at 1. destruct (decodeRemoteCommand id r) as [p|e] eqn:Ed.
    2: { by rewrite (av_command id r e Ed). }
    apply decodeCommand_Ok in Ed as (_ & Hst & Hfin & _). intros H.
    unfold update_remote_command, validateProjectionAgainstRemoteEventGap in H. tx_inv H. bool_norm.
    split_and!; [|done|done|].
    + apply rtc_once. eapply rewrite_command; try done. by intros g (? & ? & ?).
    + intros r' Hr'. mirror_cbn. rewrite lookup_alter_eq, Hr in Hr'. injection Hr' as <-. unfold command_agrees. cbn.
      split_and!; congruence.
  - rewrite or_fail_bind_none. cbn. intros [= <-]. split_and!; [constructor|done|done|]. congruence.
Qed.

Lemma normalize_jobs jobs m m' :
  mirror_inv m -> normalizeJobsForGap gap jobs m = Ok (tt, m') ->
  rtc mstep m m' /\ same_but_projections m m' /\ local_remote_command_projections m' = local_remote_command_projections m /\
  forall j r, local_remote_job_projections m' !! j = Some r -> exists r0, local_remote_job_projections m !! j = Some r0 /\
    job_identity r = job_identity r0 /\ (job_agrees row r0 -> job_agrees row r) /\ (j ∈ jobs -> job_agrees row r).
Proof.
  revert m. induction jobs as [|j jobs IH]; intros m Hinv H.
  { injection H as <-. split_and!; [constructor|done|done|]. intros j r Hr. exists r. split_and!; try done. by intros ?%elem_of_nil. }
  cbn [normalizeJobsForGap] in H. unfold readRemoteJobProjectionOnConnection in H.
  apply stx_bind_Ok in H as (p & m1 & Hread & H). apply stx_bind_Ok in Hread as (o & m2 & [Ho <-]%query_Ok & Hread).
  apply stx_bind_Ok in Hread as (a0 & m2 & [Hrun <-]%or_fail_Ok & [Hread <-]%lift_Ok). rewrite Hrun in Ho.
  apply decodeJob_Ok in Hread as (_ & _ & Hst & Hfin & _).
  apply stx_bind_Ok in H as (st & m2 & [Hcs <-]%or_fail_Ok & H). apply stx_bind_Ok in H as (u & m3 & [Hval <-]%lift_Ok & H).
  unfold validateProjectionAgainstRemoteEventGap in Hval. apply refuse_if_Ok in Hval as [_ Hval]. bool_norm.
  apply stx_bind_Ok in H as (u' & m4 & Hupd & H). unfold update_remote_job in Hupd. apply modify_Ok in Hupd as [_ ->].
  match type of H with normalizeJobsForGap _ _ ?m1 = _ => assert (mstep m m1) as Hstep end.
  { eapply rewrite_job; try done. by intros g (? & ? & ?). }
  destruct (IH _ (mstep_inv _ _ Hstep Hinv) H) as (Hsteps & Hsame & Hc & Hjobs).
  split_and!; [by eapply rtc_l|done|done|]. intros k r Hr. destruct (Hjobs _ _ Hr) as (r0 & Hr0 & Hid & Hag & Hin). mirror_cbn.
  destruct (decide (k = j)) as [->|Hne].
  - rewrite lookup_alter_eq, Ho in Hr0. injection Hr0 as <-. assert (job_agrees row (job_gap_output a0)) as Ha.
    { unfold job_agrees. cbn. split_and!; congruence. }
    exists a0. split_and!; auto.
  - rewrite lookup_alter_ne in Hr0 by done. exists r0. split_and!; try done. intros [?|?]%elem_of_cons; auto. done.
Qed.
End gap.

Lemma validateGap_Ok gap gap' : validateRemoteEventGap gap = Ok gap' ->
  gap' = gap /\ gap_OutputComplete gap = false /\ gap_OutputUnavailableReason gap = remote_event_gap /\
  gap_AvailableSequence gap = gap_MissingFrom gap - 1.
Proof.
  unfold validateRemoteEventGap. intros H. tx_inv H. apply NewCommandID_Ok in Hrun as [-> _]. bool_norm. by destruct gap.
Qed.

Lemma decode_gap_row gap :
  validateRemoteEventGap gap = Ok gap -> storable (gap_ConfirmedAt gap) -> decodeGap (gap_CommandID gap) (gap_row gap) = Ok gap.
Proof.
  intros Hv Ht. pose proof Hv as (_ & Hc & Hr & _)%validateGap_Ok. unfold decodeGap. cbn [gap_row g_confirmed_at].
  rewrite parse_format by done. cbn [from_option mbind result_bind g_missing_from g_missing_to g_available_sequence g_final_sequence
    g_terminal_state g_output_complete g_output_unavailable_reason]. transitivity (validateRemoteEventGap gap); [|done]. f_equal. destruct gap; simpl in *; by subst.
Qed.

Lemma newJobIDs_Ok ids ids' : newJobIDs ids = Ok ids' -> ids' = ids.
Proof.
  revert ids'. induction ids as [|id ids IH]; intros ids' H; cbn [newJobIDs] in H; [by injection H|]. tx_inv H.
  apply NewJobID_Ok in Hrun as [-> _]. by rewrite (IH _ Hrun0).
Qed.

Lemma elem_of_jobs m id j r :
  local_remote_job_projections m !! j = Some r -> rj_command_id r = id -> j ∈ jobs_of_remote_command id m.
Proof.
  intros Hj Hr. unfold jobs_of_remote_command. apply list_elem_of_fmap. exists (j, r). split; [done|].
  apply list_elem_of_filter. split; [done|]. by apply elem_of_map_to_list.
Qed.

Lemma normalize_all gap m m' :
  mirror_inv m -> normalizeStoredRemoteProjectionsForEventGap gap m = Ok (tt, m') ->
  rtc mstep m m' /\ same_but_projections m m' /\
  (forall r, local_remote_command_projections m' !! gap_CommandID gap = Some r -> command_agrees (gap_row gap) r) /\
  (forall j r, local_remote_job_projections m' !! j = Some r -> rj_command_id r = gap_CommandID gap -> job_agrees (gap_row gap) r).
Proof.
  intros Hinv H. unfold normalizeStoredRemoteProjectionsForEventGap in H. apply stx_bind_Ok in H as ([] & m1 & H1 & H).
  destruct (normalize_command _ _ _ Hinv H1) as (S1 & (E1 & E2 & E3) & Ej & Hc).
  apply stx_bind_Ok in H as (ids & m2 & [<- <-]%query_Ok & H). apply stx_bind_Ok in H as (ids' & m2 & [->%newJobIDs_Ok <-]%lift_Ok & H).
  destruct (normalize_jobs _ _ _ _ (msteps_inv _ _ S1 Hinv) H) as (S2 & (F1 & F2 & F3) & Fc & Hj).
  split_and!; [by etrans|split_and!; congruence|by rewrite Fc|].
  intros j r Hr Hid. destruct (Hj _ _ Hr) as (r0 & Hr0 & Hi & _ & Hin). apply Hin. eapply elem_of_jobs; [done|].
  injection Hi as _ Hi _ _ _ _. congruence.
Qed.

Lemma record_gap m gap r m' :
  mirror_inv m -> storable (gap_ConfirmedAt gap) -> RecordRemoteEventGap m gap = (r, m') -> rtc mstep m m'.
Proof.
  intros Hinv Ht. unfold RecordRemoteEventGap. destruct (validateRemoteEventGap gap) as [v|] eqn:Ev; [|by intros [= _ <-]].
  pose proof (validateGap_Ok _ _ Ev) as (-> & _). intros [->|[v' E]]%mirror_transaction; [constructor|].
  destruct (mv_prefix _ Hinv (gap_CommandID gap)) as [evs [[l Hl] Hcur]].
  erewrite stx_bind_run in E by apply cursor_run. apply stx_bind_Ok in E as (? & ? & (_ & Ha & <-)%fail_if_Ok & E). bool_norm.
  apply stx_bind_Ok in E as (term & m1 & Hterm & E). unfold remoteEventPrefixHasTerminalOnConnection in Hterm.
  rewrite Hcur, (stx_bind_run _ _ _ _ _ (prefix_run _ _ _ _ Hl)) in Hterm. apply stx_ret_Ok in Hterm as [<- <-]. cbn [snd] in E.
  apply stx_bind_Ok in E as (? & ? & (_ & Hnt & <-)%fail_if_Ok & E). apply stx_bind_Ok in E as (o & m1 & [-> Ho]%lookup_gap_Ok & E).
  destruct o as [stored|]; [by tx_inv E|]. apply stx_bind_Ok in E as ([] & m2 & Hn & E).
  destruct (normalize_all _ _ _ Hinv Hn) as (Hsteps & (E1 & E2 & E3) & Hc & Hj).
  apply stx_bind_Ok in E as (? & m3 & Hins & [_ <-]%stx_ret_Ok). unfold insert_gap in Hins. tx_inv Hins.
  eapply rtc_r; [exact Hsteps|]. apply ms_gap; [by rewrite E3| |done|done]. apply (gap_follows_ext m); [by rewrite E1|]. split.
  - exists gap. by apply decode_gap_row.
  - exists evs, l. split_and!; [done|cbn; lia|]. by destruct (lc_TerminalState l).
Qed.

(** ** Mirroring *)
Lemma loop_unsupported id m evs l mir dup batch r m' :
  mirrored m id evs l -> sql_length_pos id = false -> Forall storable_event batch ->
  mirrorEvents id (Z.of_nat (length evs)) evs l mir dup batch m = Ok (r, m') -> m' = m /\ snd (fst r) = mir.
Proof.
  intros Hm Hsql Hf. revert dup. induction Hf as [|ev batch [Hv Ht] Hf IH]; intros dup H.
  { by apply stx_ret_Ok in H as [<- <-]. }
  apply loop_cons_Ok in H as [[_ H]|(l' & _ & Hsql' & _)]; [by eapply IH|congruence|done..].
Qed.

Lemma MirrorRemoteEvents_Err m now events e m' : MirrorRemoteEvents m now events = (Err e, m') -> m' = m.
Proof.
  unfold MirrorRemoteEvents. destruct (is_nil events); [by intros [= _ <-]|].
  destruct (validateRemoteEventBatch events) as [[|first rest]|]; [by intros [= _ <-]| |by intros [= _ <-]].
  cbv zeta. unfold withMirrorTransaction. match goal with |- match ?x with _ => _ end = _ -> _ => destruct x as [[]|] end; by intros [=].
Qed.

Lemma mirror_events_steps m now events r m' :
  mirror_inv m -> Forall (fun ev => storable (ev_OccurredAt ev)) events -> MirrorRemoteEvents m now events = (r, m') -> rtc mstep m m'.
Proof.
  intros Hinv Hf H. destruct r as [r|e]; [|apply MirrorRemoteEvents_Err in H as ->; constructor].
  destruct events as [|first rest]; [done|]. destruct (validateRemoteEventBatch (first :: rest)) as [v|] eqn:Ev;
    [|unfold MirrorRemoteEvents in H; by rewrite Ev in H].
  apply validateBatch_Ok in Ev as Ev'. destruct Ev' as [-> Hval]. set (id := ev_CommandID first).
  destruct (mv_prefix _ Hinv id) as [evs Hm]. assert (Forall storable_event (first :: rest)) as Hse by (by apply Forall_and).
  destruct (local_remote_event_gaps m !! id) as [g|] eqn:Hg.
  { destruct (mv_gap _ Hinv _ _ Hg) as [[gap Hgap] _]. unfold MirrorRemoteEvents in H. rewrite Ev in H. cbv zeta in H. fold id in H.
    unfold withMirrorTransaction in H. cbn [is_nil] in H. by rewrite (stx_bind_run _ _ _ _ _ (gap_run _ _ _ _ Hg Hgap)) in H. }
  destruct (sql_length_pos id) eqn:Hsql.
  - apply (mirror_batch m id evs) in H as (new & He & -> & _); try done. apply rtc_once. by eapply ms_events.
  - destruct (proj1 Hm) as [l Hl]. rewrite (mirror_batch_start m id evs Hm Hg now first rest l) in H by done.
    apply mirror_transaction in H as [->|[a H]]; [constructor|]. apply stx_bind_Ok in H as ([[n mir] dup] & m1 & H1 & H).
    apply loop_unsupported in H1 as [-> Hmir]; [|done..]. cbn in Hmir. subst mir. cbn in H. injection H as _ <-. constructor.
Qed.

(** ** Histories *)
Inductive MirrorOp : Type :=
  | MopMirrorRemoteEvents (events : list RemoteEventRecord)
  | MopRecordRemoteEventGap (gap : RemoteEventGapRecord)
  | MopUpsertSession (p : RemoteSessionProjection)
  | MopUpsertCommand (p : RemoteCommandProjection)
  | MopUpsertJob (p : RemoteJobProjection)
  | MopMarkSessionStale (id : string)
  | MopMarkCommandStale (id : string)
  | MopMarkJobStale (id : string).

Definition mirror_run (m : Mirror) (now : Z) (op : MirrorOp) : Mirror :=
  match op with
  | MopMirrorRemoteEvents events => snd (MirrorRemoteEvents m now events)
  | MopRecordRemoteEventGap gap => snd (RecordRemoteEventGap m gap)
  | MopUpsertSession p => snd (UpsertRemoteSessionProjection m p)
  | MopUpsertCommand p => snd (UpsertRemoteCommandProjection m p)
  | MopUpsertJob p => snd (UpsertRemoteJobProjection m p)
  | MopMarkSessionStale id => snd (MarkRemoteSessionProjectionStale m id)
  | MopMarkCommandStale id => snd (MarkRemoteCommandProjectionStale m id)
  | MopMarkJobStale id => snd (MarkRemoteJobProjectionStale m id)
  end.

Definition mirror_runs (history : list (Z * MirrorOp)) (m : Mirror) : Mirror :=
  fold_left (fun m '(now, op) => mirror_run m now op) history m.

(** The instants handed to the operation lie between the years 1 and 9999. *)
Definition dated (op : MirrorOp) : Prop :=
  match op with
  | MopMirrorRemoteEvents events => Forall (fun ev => storable (ev_OccurredAt ev)) events
  | MopRecordRemoteEventGap gap => storable (gap_ConfirmedAt gap)
  | MopUpsertSession p => storable (sp_ObservedAt p)
  | MopUpsertCommand p => storable (cp_ObservedAt p)
  | MopUpsertJob p => storable (jp_ObservedAt p)
  | _ => True
  end.

Lemma mirror_run_steps m now op : mirror_inv m -> dated op -> rtc mstep m (mirror_run m now op).
Proof.
  intros Hinv Hd. destruct op; cbn [mirror_run dated] in *; match goal with |- rtc _ _ (snd ?x) => destruct x as [r m'] eqn:E end; cbn [snd].
  - by eapply mirror_events_steps.
  - by eapply record_gap.
  - by eapply upsert_session.
  - by eapply upsert_command.
  - by eapply upsert_job.
  - by eapply stale_session.
  - by eapply stale_command.
  - by eapply stale_job.
Qed.

Lemma empty_mirror_inv : mirror_inv empty_mirror.
Proof. constructor; try done. intros id. exists []. apply mirrors_empty. Qed.

Lemma mirror_runs_steps history m :
  mirror_inv m -> Forall (fun e => dated (snd e)) history -> rtc mstep m (mirror_runs history m).
Proof.
  intros Hinv Hf. revert m Hinv. induction Hf as [|[now op] history Hd Hf IH]; intros m Hinv; [constructor|].
  pose proof (mirror_run_steps m now op Hinv Hd) as Hs. etrans; [exact Hs|]. apply IH. by eapply msteps_inv.
Qed.

Lemma mirror_runs_inv history : Forall (fun e => dated (snd e)) history -> mirror_inv (mirror_runs history empty_mirror).
Proof. intros Hf. eapply msteps_inv; [apply mirror_runs_steps; [apply empty_mirror_inv|done]|apply empty_mirror_inv]. Qed.


(** C19: A confirmed gap decides what is said about its command, whichever way and
    in whatever order the projections and the gap were stored: the projection of
    the command, and that of every job that ran it, has the terminal state and
    the final sequence of the gap and never claims complete output. *)
Theorem gap_decides_projections history m id g :
  Forall (fun e => dated (snd e)) history -> m = mirror_runs history empty_mirror ->
  local_remote_event_gaps m !! id = Some g ->
  (forall r, local_remote_command_projections m !! id = Some r -> command_agrees g r) /\
  (forall j r, local_remote_job_projections m !! j = Some r -> rj_command_id r = id -> job_agrees g r).
Proof.
  intros Hf -> Hg. pose proof (mirror_runs_inv _ Hf) as Hinv. split.
  - intros r Hr. by eapply mv_command.
  - intros j r Hr Hid. eapply mv_job; [done|done|]. by rewrite Hid.
Qed.


(** ** Witnesses *)
Definition sample_target : ExecutionTarget := mkExecutionTarget TargetKindRemote "mac-mini".
Definition sample_controller : ControllerIdentity := mkControllerIdentity ControllerTypeQueuedMac "laptop".
Definition sample_capabilities : RemoteCapabilities := mkRemoteCapabilities "mac" "os_user" "runner" (Some ∅).
Definition sample_command (complete : bool) (t : Z) : RemoteCommandProjection :=
  mkRemoteCommandProjection "c9" "s9" 1 CommandStateFailed (Some 1) (Some 9) complete false "" sample_target sample_controller
    "default" NewEmptySource sample_capabilities t false.
Definition sample_job (t : Z) : RemoteJobProjection :=
  mkRemoteJobProjection "j9" "s9" "c9" JobPhaseComplete (Some CommandStateFailed) (Some 1) (Some 9) true false "" ""
    JobTeardownClosed "" sample_target sample_controller "default" NewEmptySource sample_capabilities t false.
Definition sample_gap : RemoteEventGapRecord :=
  mkRemoteEventGapRecord "c9" 3 8 2 9 CommandStateFailed false remote_event_gap t0.
Definition sample_events : list RemoteEventRecord :=
  [mkCommandEventRecord "c9" 1 command_queued "" 0 t0; mkCommandEventRecord "c9" 2 command_started "" 0 (t0 + second)].

(** The command claims complete output before the gap, the job after it. *)
Definition sample_history : list (Z * MirrorOp) :=
  [(t0, MopMirrorRemoteEvents sample_events); (t0, MopUpsertCommand (sample_command true t0));
   (t0, MopRecordRemoteEventGap sample_gap); (t0, MopUpsertJob (sample_job t0)); (t0, MopMarkCommandStale "c9")].
Definition sample_mirror : Mirror := mirror_runs sample_history empty_mirror.

Lemma sample_dated : Forall (fun e => dated (snd e)) sample_history.
Proof. repeat constructor; vm_compute; congruence. Qed.

Example sample_mirror_holds :
  rc_output_complete <$> local_remote_command_projections sample_mirror !! "c9" = Some false /\
  rj_output_complete <$> local_remote_job_projections sample_mirror !! "j9" = Some false /\
  cursor_of sample_mirror "c9" = 2.
Proof. vm_compute. split; [reflexivity|split; reflexivity]. Qed.


Lemma gap_decides_projections_witness : exists g r,
  local_remote_event_gaps sample_mirror !! "c9" = Some g /\ local_remote_job_projections sample_mirror !! "j9" = Some r /\ job_agrees g r.
Proof.
  destruct (local_remote_event_gaps sample_mirror !! "c9") as [g|] eqn:Hg; [|vm_compute in Hg; discriminate].
  destruct (local_remote_job_projections sample_mirror !! "j9") as [r|] eqn:Hr; [|vm_compute in Hr; discriminate].
  exists g, r. split; [reflexivity|]. split; [reflexivity|].
  destruct (gap_decides_projections sample_history sample_mirror "c9" g sample_dated eq_refl Hg) as [_ H].
  apply (H "j9" r Hr). vm_compute in Hr. injection Hr as <-. reflexivity.
Defined.


(** ** Garbage collection of the event mirror

    [CollectGarbage] (store/gc.go) and [InspectRemoteEventPrefix]
    (store/remote_events.go) on the same tables: the pass removes the mirrored
    events of an expired command and keeps the cursor. *)

Lemma empty_prefix_gap m id : rows_of (local_remote_events m) id = [] -> 0 < cursor_of m id -> id <> "" ->
  InspectRemoteEventPrefix m id = Err ErrRemoteEventGap.
Proof.
  intros Hr Hc Hne. unfold InspectRemoteEventPrefix. rewrite (proj2 (NewCommandID_Ok id id)) by done. cbn [mbind result_bind].
  unfold withMirrorRead. erewrite stx_bind_run; [|apply cursor_run].
  unfold remoteEventPrefixOnConnection, readRemoteEventsOnConnection.
  assert (remote_events_after 0 id m = []) as Ha by (unfold remote_events_after; by rewrite Hr).
  unfold mbind, stx_bind, query. rewrite Ha. cbn [scanRemoteEvents lift length Z.of_nat].
  destruct (cursor_of m id) as [|n|n]; [lia|done|lia].
Qed.

(** C28: A pass that removes the mirrored events of a command keeps its cursor, so
    from then on the inspection of the prefix of an expired command always
    reports a gap in the events. *)
Theorem retention_breaks_prefix s m now options rep s' m' id r :
  CollectGarbage s m now options = (Ok rep, (s', m')) ->
  local_remote_command_projections m' !! id = Some r -> rc_output_unavailable_reason r = retention_expired ->
  pinned_events m' (formatStoredTime now) id = false -> 0 < cursor_of m id -> id <> "" ->
  cursor_of m' id = cursor_of m id /\ InspectRemoteEventPrefix m' id = Err ErrRemoteEventGap.
Proof.
  intros H Hr Hx Hp Hc Hne. apply CollectGarbage_Ok in H as (o & t & n & d1 & _ & _ & _ & ->).
  set (m' := pass_mirror _ _ _ m) in *. assert (cursor_of m' id = cursor_of m id) as Hcur by done.
  split; [done|]. apply empty_prefix_gap; [|by rewrite Hcur|done]. unfold rows_of.
  destruct (local_remote_events m' !! id) as [rows|] eqn:E; [|done]. exfalso.
  pose proof (no_remote_events_left _ _ _ _ _ _ E) as Hn. unfold remote_events_expire, expired_remote_command in Hn.
  fold m' in Hn. rewrite Hr, bool_decide_eq_true_2, Hp in Hn by done. done.
Qed.

Lemma retention_breaks_prefix_witness : exists rep s' m',
  CollectGarbage new_store sample_mirror (t0 + days 40) default_options = (Ok rep, (s', m')) /\
  gcr_RemoteCommandEventsDeleted rep = 2%nat /\ InspectRemoteEventPrefix m' "c9" = Err ErrRemoteEventGap.
Proof.
  destruct (CollectGarbage new_store sample_mirror (t0 + days 40) default_options) as [rep0 [s' m']] eqn:E.
  assert (exists rep, rep0 = Ok rep /\ gcr_RemoteCommandEventsDeleted rep = 2%nat) as (rep & -> & Hrep).
  { change rep0 with (fst (rep0, (s', m'))). rewrite <- E. eexists. vm_compute. split; reflexivity. }
  assert (exists r, local_remote_command_projections m' !! "c9" = Some r /\ rc_output_unavailable_reason r = retention_expired) as (r & Hr & Hx).
  { change m' with (snd (snd (@Ok GarbageCollectionReport rep, (s', m')))). rewrite <- E. eexists.
    split; [vm_compute; reflexivity|vm_compute; reflexivity]. }
  exists rep, s', m'. split; [reflexivity|]. split; [exact Hrep|].
  apply (retention_breaks_prefix new_store sample_mirror (t0 + days 40) default_options rep s' m' "c9" r E Hr Hx).
  - change m' with (snd (snd (@Ok GarbageCollectionReport rep, (s', m')))). rewrite <- E. vm_compute. reflexivity.
  - vm_compute. reflexivity.
  - discriminate.
Defined.
