(* ===== verification/IntentTheorems.v ===== *)
(** * Correctness of local intents

    In every reachable store the lifecycle of an intent is a run of the delivery
    state machine and its request never changes; an intent is claimed at most
    once, and in the order of its session; a retry under a retained key finds the
    intent that was recorded. *)
From stdpp Require Import relations.
From S2P Require Import Prelude GoStrings Sha256 Identity Lifecycle Policy JsonText Canonical.
From S2P Require Import RunPayload LaneAdmission AuditRecords Db AuditStore AdmissionStore Idempotency Sessions.
From S2P Require Import Listings RemoteDb RemoteProjections RemoteEvents RemoteUpserts LocalIntents Commands.
From S2P Require Import LocalIntentOps IntentSteps IntentRefinement JobTheorems ListingTheorems AuthorityTheorems RetentionTheorems.

(** ** What acceptance does *)

(** The rows of a fresh intent. *)
Definition recorded_as (v : LocalIntentCreate) (now : Z) (rec : LocalIntentRecord) (m : Mirror) : Prop :=
  exists r, local_intents m !! lic_IntentID v = Some r /\ decoded_as (lic_IntentID v) r rec /\
    (exists o, r = intent_row (with_ordinal o v) now) /\ local_idempotency m !! idem_key_of v = Some (binding_row v now).

Lemma accept_Ok s m now ingress wall input rec dup s' m' :
  intents_inv m -> AcceptLocalIntent s m now ingress wall input = (Ok (rec, dup), (s', m')) ->
  exists v, validateLocalIntentCreate input = Ok v /\
    if dup then m' = m else rtc (istep now) m m' /\ local_intents m !! lic_IntentID v = None /\ recorded_as v now rec m'.
Proof.
  intros Hinv. unfold AcceptLocalIntent. destruct (validateLocalIntentCreate input) as [v|]; [|done].
  destruct (accept_intent _ _ _ _ _) as [[[[rec0 dup0] saved] [d m0]]|] eqn:E; [|done]. intros [= -> -> _ ->]. exists v. split; [done|].
  unfold accept_intent in E. apply stx_bind_Ok in E as (u & st1 & (d1 & _ & ->)%on_db_Ok' & E). cbn [fst snd] in E.
  apply stx_bind_Ok in E as (o & st2 & (m1 & Hl & ->)%on_tables_Ok & E). cbn [fst snd] in Hl, E. apply lookup_binding_Ok in Hl.
  destruct o as [b|].
  - destruct Hl as [-> _]. apply stx_bind_Ok in E as (? & st3 & (_ & _ & <-)%fail_if_Ok & E).
    apply stx_bind_Ok in E as (? & st3 & [_ <-]%lift_Ok & E). apply stx_bind_Ok in E as (r1 & st3 & (m2 & [-> _]%readIntent_Ok & ->)%on_tables_Ok & E).
    apply stx_bind_Ok in E as (? & st3 & (d2 & _ & ->)%on_db_Ok' & E). apply stx_ret_Ok in E as [[= _ <- _] [= _ <-]]. done.
  - destruct Hl as (Hsteps & Hk & Hi & Hlc & _). apply stx_bind_Ok in E as (id & st3 & (m2 & Hrec & ->)%on_tables_Ok & E).
    apply stx_bind_Ok in E as (? & st3 & (d2 & _ & ->)%on_db_Ok' & E). cbn [fst snd] in E.
    apply stx_bind_Ok in E as (r1 & st3 & (m3 & Hread & ->)%on_tables_Ok & E). cbn [fst snd] in Hread.
    apply stx_ret_Ok in E as [[= -> <- _] [= _ <-]]. cbn [fst snd] in Hrec.
    assert (intents_inv m1) as Hinv1 by (by eapply isteps_inv).
    destruct (record_steps _ _ _ _ _ _ _ Hinv1 Hrec Hk Hread) as (-> & Hnone & Hstep & -> & o & Hr & Hb).
    split_and!; [by eapply rtc_r|by rewrite <- Hi|].
    apply readIntent_Ok in Hread as (_ & r' & Hr' & Hdec). rewrite Hr in Hr'. injection Hr' as <-.
    exists (intent_row (with_ordinal o v) now). split_and!; [done|by eapply decode_Ok|by exists o|done].
Qed.

Lemma accept_Err s m now ingress wall input e st : AcceptLocalIntent s m now ingress wall input = (Err e, st) -> st = (s, m).
Proof.
  unfold AcceptLocalIntent. destruct (validateLocalIntentCreate input); [|by intros [= _ <-]].
  destruct (accept_intent _ _ _ _ _) as [[[[? ?] ?] [? ?]]|]; by intros [=].
Qed.

(** ** Histories *)
Inductive IntentOp : Type :=
  | IopAccept (ingress : option Ingress) (wall : Z) (input : LocalIntentCreate)
  | IopTransition (id : string) (next : LocalIntentDeliveryState) (reason : string)
  | IopTerminalProof (id reason : string)
  | IopClaim (id owner : string) (leaseDuration : Z)
  | IopClaimNext (owner : string) (leaseDuration : Z)
  | IopRenewLease (id owner : string) (leaseDuration : Z)
  | IopStatusFailure (id code : string)
  | IopClearStatusFailure (id : string).

Definition intent_exec (st : AuthorityStore * Mirror) (now : Z) (op : IntentOp) : AuthorityStore * Mirror :=
  let '(s, m) := st in
  match op with
  | IopAccept ingress wall input => snd (AcceptLocalIntent s m now ingress wall input)
  | IopTransition id next reason => (s, snd (TransitionLocalIntent m now id next reason))
  | IopTerminalProof id reason => (s, snd (MarkRemoteIntentTerminalProof m now id reason))
  | IopClaim id owner d => (s, snd (ClaimLocalIntent m now id owner d))
  | IopClaimNext owner d => (s, snd (ClaimNextLocalIntent m now owner d))
  | IopRenewLease id owner d => (s, snd (RenewLocalIntentLease m now id owner d))
  | IopStatusFailure id code => (s, snd (MarkAcceptedRemoteRunStatusFailure m now id code))
  | IopClearStatusFailure id => (s, snd (ClearAcceptedRemoteRunStatusFailure m id))
  end.

Definition intent_execs (history : list (Z * IntentOp)) (st : AuthorityStore * Mirror) : AuthorityStore * Mirror :=
  fold_left (fun st '(now, op) => intent_exec st now op) history st.

Lemma exec_steps st now op : intents_inv (snd st) -> rtc (istep now) (snd st) (snd (intent_exec st now op)).
Proof.
  destruct st as [s m]. cbn [snd]. intros Hinv.
  destruct op as [ingress wall input|id next reason|id reason|id owner d|owner d|id owner d|id code|id]; cbn [intent_exec].
  2-8: match goal with |- rtc _ _ (snd (_, snd ?x)) => destruct x as [r m'] eqn:E end; cbn [snd].
  - destruct (AcceptLocalIntent s m now ingress wall input) as [[[rec dup]|e] [s' m']] eqn:E; cbn [snd].
    + apply accept_Ok in E as (v & _ & H); [|done]. destruct dup; [subst; constructor|by destruct H].
    + apply accept_Err in E. injection E as _ ->. constructor.
  - by eapply transition_steps.
  - by eapply proof_steps.
  - by eapply claim_one_steps.
  - by eapply claim_next_steps.
  - by eapply renew_steps.
  - by eapply failure_steps.
  - by eapply clear_steps.
Qed.

Lemma execs_inv history st : intents_inv (snd st) -> intents_inv (snd (intent_execs history st)).
Proof.
  revert st. induction history as [|[now op] history IH]; intros st Hinv; [done|]. apply IH.
  eapply isteps_inv; [by apply exec_steps|done].
Qed.

Lemma execs_le history st : intents_inv (snd st) -> intent_le (snd st) (snd (intent_execs history st)).
Proof.
  revert st. induction history as [|[now op] history IH]; intros st Hinv; [done|].
  pose proof (exec_steps st now op Hinv) as Hs. transitivity (snd (intent_exec st now op)); [by eapply isteps_le|].
  apply IH. by eapply isteps_inv.
Qed.

Lemma empty_intents_inv : intents_inv empty_mirror.
Proof. by constructor. Qed.

Definition intents_reachable (m : Mirror) : Prop :=
  exists s history, m = snd (intent_execs history (s, empty_mirror)).

Lemma intents_reachable_inv m : intents_reachable m -> intents_inv m.
Proof. intros (s & history & ->). apply execs_inv, empty_intents_inv. Qed.

(** In every reachable store the lifecycle of an intent is a run of the
    delivery state machine that ends in its delivery state: the rows are numbered
    1..n, each one is a permitted move and names the state it left; and the
    intent can always be read back, with its payload, script and hashes
    verified. *)
Theorem intent_lifecycle_is_run m id r :
  intents_reachable m -> local_intents m !! id = Some r ->
  intent_run (lifecycle_of id m) (li_delivery_state r) /\
  il_sequence <$> lifecycle_of id m = seqZ 1 (Z.of_nat (length (lifecycle_of id m))) /\
  exists rec, GetLocalIntent m id = Ok rec /\ decoded_as id r rec.
Proof.
  intros Hinv%intents_reachable_inv Hr. pose proof (ii_run _ Hinv _ _ Hr) as Hrun. split_and!; [done|by eapply intent_run_sequences|].
  destruct (ii_decodes _ Hinv _ _ Hr) as [rec Hrec]. exists rec. pose proof (decode_Ok _ _ _ _ Hrec) as Hd. split; [|done].
  unfold GetLocalIntent. rewrite (proj2 (NewIntentID_Ok id id)) by (split; [done|apply Hd]). cbn [result_map_err mbind result_bind].
  unfold withMirrorRead. by rewrite (proj2 (readIntent_Ok id m rec m)) by eauto.
Qed.

(** C24: What a controller recorded of a request is final: along any history an
    intent stays, its request (operation, resource, target, payload, script,
    hash, key, ordinal, creation time) never changes, its lifecycle only grows,
    and its delivery state only follows permitted moves; a reconciled or
    undelivered intent keeps its state for good. *)
Theorem intents_only_advance m s history id r :
  intents_reachable m -> local_intents m !! id = Some r ->
  exists r', local_intents (snd (intent_execs history (s, m))) !! id = Some r' /\ request_of r' = request_of r /\
    rtc delivery_move (li_delivery_state r) (li_delivery_state r') /\
    lifecycle_of id m `prefix_of` lifecycle_of id (snd (intent_execs history (s, m))) /\
    (settled (li_delivery_state r) -> li_delivery_state r' = li_delivery_state r).
Proof.
  intros Hinv%intents_reachable_inv Hr. destruct (execs_le history (s, m) Hinv) as [Hle].
  destruct (Hle _ _ Hr) as (r' & Hr' & Hreq & Hmv & Hpre). exists r'. split_and!; try done. intros Hset. clear -Hmv Hset.
  induction Hmv as [st|st1 st2 st3 H _ IH]; [done|]. pose proof (move_settled _ _ H Hset) as ->. by apply IH.
Qed.

Lemma moved_not_recorded st st' : rtc delivery_move st st' -> st <> LocalIntentRecorded -> st' <> LocalIntentRecorded.
Proof. induction 1 as [|st1 st2 st3 H _ IH]; [done|]. intros _. apply IH. by eapply move_claimed. Qed.

Lemma claim_claims m now id owner d rec m' :
  intents_inv m -> ClaimLocalIntent m now id owner d = (Ok rec, m') \/ ClaimNextLocalIntent m now owner d = (Ok rec, m') ->
  exists row, local_intents m !! lic_IntentID (lir_create rec) = Some row /\
    eligibleLocalIntent now m (lic_IntentID (lir_create rec)) row = true /\ intents_inv m' /\
    local_intents m' !! lic_IntentID (lir_create rec) = Some (with_claim owner d now row).
Proof.
  intros Hinv H. assert (exists i, claimLocalIntentOnConnection i owner d now m = Ok (rec, m')) as [i Hc].
  { destruct H as [H|H].
    - unfold ClaimLocalIntent in H. destruct (NewIntentID id) as [i|]; [|done]. destruct (validateLeaseRequest owner d); [|done].
      apply mirror_tx in H as [[_ [e He]]|(rec1 & Ha & H)]; [done|]. injection Ha as <-. by exists i.
    - unfold ClaimNextLocalIntent in H. destruct (validateLeaseRequest owner d); [|done].
      apply mirror_tx in H as [[_ [e He]]|(rec1 & Ha & H)]; [done|]. injection Ha as <-.
      apply stx_bind_Ok in H as (i & m1 & Hf & H). unfold findNextEligibleLocalIntentOnConnection in Hf. tx_inv Hf. by exists i. }
  destruct (claim_steps _ _ _ _ _ _ _ Hinv Hc) as (row & Hs & Hr & He & Hid & Hn). exists row. rewrite Hid. split_and!; try done.
  by eapply istep_inv.
Qed.

(** C22: A request is dispatched at most once from the queue: after an intent was
    claimed, by name or as the next one, no later claim of it succeeds, whatever
    happens in between and whoever asks, even after the lease expired. *)
Theorem intent_claimed_once m now id owner d rec m' s history now' owner' d' :
  intents_reachable m ->
  ClaimLocalIntent m now id owner d = (Ok rec, m') \/ ClaimNextLocalIntent m now owner d = (Ok rec, m') ->
  let m2 := snd (intent_execs history (s, m')) in
  (exists e, ClaimLocalIntent m2 now' (lic_IntentID (lir_create rec)) owner' d' = (Err e, m2)) /\
  (forall rec' m3, ClaimNextLocalIntent m2 now' owner' d' = (Ok rec', m3) ->
     lic_IntentID (lir_create rec') <> lic_IntentID (lir_create rec)).
Proof.
  intros Hinv%intents_reachable_inv Hc m2. destruct (claim_claims _ _ _ _ _ _ _ Hinv Hc) as (row & Hr & He & Hinv' & Hn).
  set (i := lic_IntentID (lir_create rec)) in *. pose proof (execs_inv history (s, m') Hinv') as Hinv2. fold m2 in Hinv2.
  destruct (execs_le history (s, m') Hinv') as [Hle]. destruct (Hle _ _ Hn) as (r2 & Hr2 & _ & Hmv & _). fold m2 in Hr2.
  assert (li_delivery_state r2 <> LocalIntentRecorded) as Hst.
  { eapply moved_not_recorded; [exact Hmv|]. unfold with_claim. by case_bool_decide. }
  assert (forall owner d now rec' m3, claimLocalIntentOnConnection i owner d now m2 <> Ok (rec', m3)) as Hno.
  { intros owner0 d0 now0 rec' m3 H. destruct (claim_steps _ _ _ _ _ _ _ Hinv2 H) as (row2 & _ & Hrow2 & Hel & _).
    rewrite Hr2 in Hrow2. injection Hrow2 as <-. unfold eligibleLocalIntent in Hel. by bool_norm. }
  split.
  - unfold ClaimLocalIntent. destruct (NewIntentID i) as [i'|] eqn:Ei; [|by eexists]. apply NewIntentID_Ok in Ei as [-> _].
    destruct (validateLeaseRequest owner' d'); [|by eexists]. unfold withMirrorTransaction.
    destruct (claimLocalIntentOnConnection i owner' d' now' m2) as [[rec' m3]|e] eqn:E; [by apply Hno in E|by eexists].
  - intros rec' m3 H Heq. destruct (claim_claims m2 now' "" owner' d' rec' m3 Hinv2 (or_intror H)) as (row2 & Hrow2 & Hel & _).
    rewrite Heq, Hr2 in Hrow2. injection Hrow2 as <-. unfold eligibleLocalIntent in Hel. by bool_norm.
Qed.

(** ** The order of claims *)

(** Not after, by ordinal and then by the second of creation; an intent without
    an ordinal comes last. *)
Definition queue_le (x y : IntentRow) : Prop :=
  match li_intent_ordinal x, li_intent_ordinal y with
  | Some n, Some k => n <= k
  | Some _, None => True
  | None, Some _ => False
  | None, None => second_le (li_created_at x) (li_created_at y)
  end.

Lemma queue_le_trans x y z : queue_le x y -> queue_le y z -> queue_le x z.
Proof.
  unfold queue_le. destruct (li_intent_ordinal x), (li_intent_ordinal y), (li_intent_ordinal z); try done; [lia|apply second_le_trans].
Qed.

#[export] Instance eligible_le_total : Total eligible_le.
Proof.
  intros x y. unfold eligible_le. destruct (li_intent_ordinal (snd x)) as [n|], (li_intent_ordinal (snd y)) as [k|]; auto; [|apply listed_le_total].
  destruct (Z.eqb_spec n k) as [->|Hne]; [rewrite Z.eqb_refl; apply listed_le_total|].
  rewrite (proj2 (Z.eqb_neq k n)) by done. lia.
Qed.

Lemma eligible_queue x y : eligible_le x y -> queue_le (snd x) (snd y).
Proof.
  unfold eligible_le, queue_le. destruct (li_intent_ordinal (snd x)) as [n|], (li_intent_ordinal (snd y)) as [k|]; try done;
    [|apply listed_second]. destruct (Z.eqb_spec n k); lia.
Qed.

Lemma head_first now m id ids : eligibleLocalIntentQuery now m = id :: ids ->
  exists row, local_intents m !! id = Some row /\ eligibleLocalIntent now m id row = true /\
    forall id' row', local_intents m !! id' = Some row' -> eligibleLocalIntent now m id' row' = true -> queue_le row row'.
Proof.
  unfold eligibleLocalIntentQuery. set (rows := select_intents (eligibleLocalIntent now m) m).
  assert (forall x, x ∈ rows <-> local_intents m !! fst x = Some (snd x) /\ eligibleLocalIntent now m (fst x) (snd x) = true) as Hrows.
  { intros [i r]. subst rows. unfold select_intents, rows_where. rewrite elem_of_map_to_list, map_lookup_filter_Some. done. }
  pose proof (Sorted_merge_sort eligible_le rows) as Hs. pose proof (merge_sort_Permutation eligible_le rows) as Hp.
  destruct (merge_sort eligible_le rows) as [|[i row] rest]; [done|]. intros [= -> _]. exists row.
  destruct (proj1 (Hrows (id, row))) as [H1 H2]; [rewrite <- Hp; by left|]. split_and!; try done. intros id' row' H1' H2'.
  assert ((id', row') ∈ (id, row) :: rest) as [Heq|Hin]%elem_of_cons by (rewrite Hp; by apply Hrows).
  - injection Heq as -> ->. unfold queue_le. destruct (li_intent_ordinal row); [lia|]. by destruct (li_created_at row); cbn.
  - assert (StronglySorted (fun x y : string * IntentRow => queue_le (snd x) (snd y)) ((id, row) :: rest)) as Hss.
    { apply Sorted_StronglySorted; [intros x y z; apply queue_le_trans|]. clear -Hs.
      induction Hs as [|x l _ IH Hd]; constructor; [done|]. destruct Hd; constructor. by apply eligible_queue. }
    apply StronglySorted_inv in Hss as [_ Hall]. rewrite Forall_forall in Hall. exact (Hall _ Hin).
Qed.

Lemma eligible_unblocked now m id row :
  eligibleLocalIntent now m id row = true -> li_operation row = localIntentSubmitCommandOperation ->
  forall n, li_intent_ordinal row = Some n -> forall id' prior k, local_intents m !! id' = Some prior ->
  li_session_id prior = li_session_id row -> li_operation prior = localIntentSubmitCommandOperation ->
  li_intent_ordinal prior = Some k -> k < n ->
  settled (li_delivery_state prior) \/ target_kind (li_target prior) = TargetKindLocal /\ li_delivery_state prior = LocalIntentAccepted.
Proof.
  intros Hel Hop n Hn id' prior k Hp Hs Ho Hk Hlt. unfold eligibleLocalIntent in Hel. bool_norm.
  rewrite (bool_decide_eq_true_2 _ Hop), Hn in *. cbn [negb is_Some_b orb] in *. bool_norm.
  destruct (blocks row prior) eqn:Eb.
  - exfalso. match goal with H : exists_row _ _ = false |- _ => apply not_true_iff_false in H; apply H end.
    unfold exists_row. apply existsb_exists. exists (id', prior). split; [by apply list_elem_of_In, elem_of_map_to_list|done].
  - unfold blocks in Eb. rewrite (bool_decide_eq_true_2 _ Hs), (bool_decide_eq_true_2 _ Ho), Hk, Hn, (proj2 (Z.ltb_lt _ _) Hlt) in Eb.
    cbn [andb] in Eb. unfold settled. destruct (bool_decide (li_delivery_state prior = LocalIntentReconciled)) eqn:E1;
      [bool_norm; by left; left|]. destruct (bool_decide (li_delivery_state prior = LocalIntentNotDelivered)) eqn:E2; [bool_norm; by left; right|].
    cbn [negb andb] in Eb. apply negb_false_iff, andb_true_iff in Eb as [E3 E4]. bool_norm. by right.
Qed.

(** C23: Claims follow the order of a session: when a submitted command is claimed,
    every intent of its session with a smaller ordinal is reconciled or
    undelivered, or was accepted by the local target; no two intents of a session
    share an ordinal; and the next claim takes an intent that no other eligible
    one precedes. *)
Theorem claims_follow_order m now id owner d rec m' row :
  intents_reachable m ->
  ClaimLocalIntent m now id owner d = (Ok rec, m') \/ ClaimNextLocalIntent m now owner d = (Ok rec, m') ->
  local_intents m !! lic_IntentID (lir_create rec) = Some row ->
  (forall n, li_operation row = localIntentSubmitCommandOperation -> li_intent_ordinal row = Some n ->
   forall id' prior k, local_intents m !! id' = Some prior -> li_session_id prior = li_session_id row ->
   li_operation prior = localIntentSubmitCommandOperation -> li_intent_ordinal prior = Some k ->
   (k = n -> id' = lic_IntentID (lir_create rec)) /\
   (k < n -> settled (li_delivery_state prior) \/
             target_kind (li_target prior) = TargetKindLocal /\ li_delivery_state prior = LocalIntentAccepted)) /\
  (ClaimNextLocalIntent m now owner d = (Ok rec, m') ->
   forall id' row', local_intents m !! id' = Some row' -> eligibleLocalIntent now m id' row' = true -> queue_le row row').
Proof.
  intros Hinv%intents_reachable_inv Hc Hrow. split.
  - destruct (claim_claims _ _ _ _ _ _ _ Hinv Hc) as (row0 & Hrow0 & Hel & _). rewrite Hrow in Hrow0. injection Hrow0 as <-.
    intros n Ho Hn id' prior k Hp Hs Hop Hk. split; [|intros Hlt; by eapply (eligible_unblocked now m _ row)].
    intros ->. by eapply (ii_ordinals _ Hinv id' prior _ row n).
  - unfold ClaimNextLocalIntent. destruct (validateLeaseRequest owner d); [|done]. intros [[_ [e He]]|(rec1 & Ha & H)]%mirror_tx; [done|].
    injection Ha as <-. apply stx_bind_Ok in H as (i & m1 & Hf & H). unfold findNextEligibleLocalIntentOnConnection in Hf.
    rewrite query_bind in Hf. destruct (eligibleLocalIntentQuery now m) as [|j ids] eqn:Eq; [done|]. cbn [head] in Hf. rewrite or_fail_bind_some in Hf.
    apply lift_Ok in Hf as [[-> _]%result_map_err_Ok%NewIntentID_Ok <-]. destruct (claim_steps _ _ _ _ _ _ _ Hinv H) as (r & _ & _ & _ & Hid & _).
    destruct (head_first _ _ _ _ Eq) as (row1 & Hrow1 & _ & Hmin). rewrite Hid, Hrow1 in Hrow. injection Hrow as <-. exact Hmin.
Qed.

(** ** Retries *)
Lemma istep_binding now m m' key b t :
  istep now m m' -> local_idempotency m !! key = Some b -> parseStoredTime (lk_expires_at b) = Some t -> now < t ->
  local_idempotency m' !! key = Some b.
Proof.
  intros Hs Hb Ht Hlt. destruct Hs as [key' b' t' Hb' Ht' Hle|id r init reason at_ key' b' Hnone Hk
    |id r st proof reason owner lease attempts prev row_reason at_ cleared Hr Hmv Hprev r' rows m' Hdec
    |id r lease Hr Hst r' m' Hdec|id r f Hr m' Hdec]; try done.
  - cbn. rewrite lookup_delete_ne; [done|]. intros ->. rewrite Hb in Hb'. injection Hb' as <-. rewrite Ht in Ht'. injection Ht' as <-. lia.
  - cbn. rewrite lookup_insert_ne; [done|]. intros ->. congruence.
  - by destruct cleared.
Qed.

Lemma isteps_binding now m m' key b t :
  rtc (istep now) m m' -> local_idempotency m !! key = Some b -> parseStoredTime (lk_expires_at b) = Some t -> now < t ->
  local_idempotency m' !! key = Some b.
Proof. induction 1 as [|m1 m2 m3 H _ IH]; intros; [done|]. apply IH; try done. by eapply istep_binding. Qed.

Lemma execs_binding history st key b t :
  intents_inv (snd st) -> Forall (fun e => fst e < t) history -> local_idempotency (snd st) !! key = Some b ->
  parseStoredTime (lk_expires_at b) = Some t -> local_idempotency (snd (intent_execs history st)) !! key = Some b.
Proof.
  intros Hinv Hf. revert st Hinv. induction Hf as [|[now op] history Hlt Hf IH]; intros st Hinv Hb Ht; [done|].
  pose proof (exec_steps st now op Hinv) as Hs. apply IH; [by eapply isteps_inv| |done]. by eapply isteps_binding.
Qed.

Lemma validated_fields input v : validateLocalIntentCreate input = Ok v ->
  hash_wf (lic_RequestHash v) /\ validLocalIntentOperation (lic_Operation v) = true /\ lic_ResourceID v <> "" /\
  known_controller (controller_typeName (lic_Controller v)) /\ controller_id (lic_Controller v) <> "".
Proof.
  unfold validateLocalIntentCreate. cbv zeta. intros H. apply result_bind_Ok in H as (? & _ & H). apply refuse_if_bind in H as [Hop H].
  apply refuse_if_bind in H as [Hres H]. apply refuse_if_bind in H as [_ H].
  apply result_bind_Ok in H as (? & _ & H). apply unit_bind_Ok in H as [_ H].
  apply result_bind_Ok in H as (c & Hc%result_map_err_Ok & H). apply result_bind_Ok in H as (? & _ & H).
  apply result_bind_Ok in H as (? & _ & H). do 4 apply refuse_if_bind in H as [_ H]. apply unit_bind_Ok in H as [_ H].
  apply unit_bind_Ok in H as [_ H]. apply result_bind_Ok in H as ([canonical hash] & Hp & H). do 2 apply refuse_if_bind in H as [_ H].
  injection H as <-. cbn [lic_RequestHash lic_Operation lic_ResourceID lic_Controller]. unfold bad_text in Hres. bool_norm.
  assert (known_controller (controller_typeName c) /\ controller_id c <> "") as [Hc1 Hc2].
  { unfold validateController in Hc. apply result_bind_Ok in Hc as (i & _ & [-> [Hk1 Hk2]]%result_map_err_Ok%NewControllerIdentity_Ok). done. }
  split_and!; [|done|by apply is_empty_false|done|done]. unfold validateLocalIntentPayload in Hp. cbv zeta in Hp. apply refuse_if_bind in Hp as [_ Hp].
  apply unit_bind_Ok in Hp as [_ Hp]. apply result_bind_Ok in Hp as (? & _ & Hp). apply refuse_if_bind in Hp as [_ Hp].
  apply result_bind_Ok in Hp as (h & Hh%result_map_err_Ok%HashMutation_wf & Hp). apply refuse_if_bind in Hp as [_ Hp].
  apply result_bind_Ok in Hp as (? & _ & Hp). do 4 apply refuse_if_bind in Hp as [_ Hp]. by injection Hp as _ <-.
Qed.

(** The immutable part of a record. *)
Definition request_of_record (rec : LocalIntentRecord) :=
  let c := lir_create rec in
  (lic_IntentID c, lic_Operation c, lic_ResourceID c, lic_SessionID c, lic_CommandID c, lic_JobID c, lic_IdempotencyKey c,
   lic_PayloadJSON c, lic_ScriptBytes c, lic_IntentOrdinal c).

Lemma decoded_request id r1 rec1 r2 rec2 :
  decoded_as id r1 rec1 -> decoded_as id r2 rec2 -> request_of r1 = request_of r2 -> request_of_record rec1 = request_of_record rec2.
Proof.
  intros [] [] E. injection E as E1 E2 E3 E4 E5 E6 E7 E8 E9 E10 E11 E12 E13 E14 E15 E16 E17. unfold request_of_record. cbv zeta. congruence.
Qed.

Section retry.
Context (s : AuthorityStore) (m : Mirror) (id : string) (v v' : LocalIntentCreate) (now t now' : Z) (r : IntentRow).
Context (Hinv : intents_inv m) (Hr : local_intents m !! lic_IntentID v = Some r).
Context (Hb : local_idempotency m !! idem_key_of v = Some (binding_row v now)).
Context (Hh : hash_wf (lic_RequestHash v)) (Hkey : idem_key_of v' = idem_key_of v).
Context (Hc : result_is_ok (NewControllerIdentity (controller_typeName (lic_Controller v')) (controller_id (lic_Controller v'))) = true).
Context (Hop : validLocalIntentOperation (lic_Operation v') = true) (Hres : lic_ResourceID v <> "").
Context (Hnow : storable now) (Hexp : storable (now + lic_IdempotencyRetention v)) (Hlt : now' < now + lic_IdempotencyRetention v).

Lemma retry_lookup : lookupLocalIdempotencyOnConnection (lic_Controller v') (lic_Operation v') (lic_IdempotencyKey v') now' m
  = Ok (Some (mkLocalIdempotencyBinding (lic_Controller v') (lic_Operation v') (lic_IdempotencyKey v') (lic_RequestHash v)
                (lic_IntentID v) (lic_ResourceID v) now (now + lic_IdempotencyRetention v)), m).
Proof.
  unfold lookupLocalIdempotencyOnConnection. cbv zeta. fold (idem_key_of v'). rewrite query_bind, Hkey, Hb.
  cbn [lk_hash_version lk_hash lk_created_at lk_expires_at lk_intent_id lk_resource_id binding_row].
  rewrite NewCanonicalHash_stored by done. cbn [result_map_err]. rewrite lift_bind_ok, !parse_format by done. tx_run.
  destruct (ii_decodes _ Hinv _ _ Hr) as [rec [_ Hne]%decode_Ok].
  rewrite (proj2 (is_empty_false _) Hne), (proj2 (is_empty_false _) Hres), Hop, Hc. cbn [orb negb]. tx_run.
  rewrite (proj2 (Z.ltb_lt _ _)) by done. done.
Qed.
End retry.

Lemma reads_back m id r : intents_inv m -> local_intents m !! id = Some r ->
  exists rec, readLocalIntentOnConnection id m = Ok (rec, m) /\ decoded_as id r rec.
Proof.
  intros Hinv Hr. destruct (ii_decodes _ Hinv _ _ Hr) as [rec Hd]. exists rec. split; [|by eapply decode_Ok].
  apply readIntent_Ok. split; [done|]. by exists r.
Qed.


(** A lease that still runs is listed as recoverable: lease times are compared
    as texts, in which a fraction of a second sorts before the whole second. *)
Lemma live_lease_recoverable now e id r :
  li_delivery_state r = LocalIntentDispatching -> li_lease_expires_at r = Some (formatStoredTime e) -> storable now -> storable e ->
  now mod second = 0 -> now < e -> e / second = now / second -> recoverable now id r = true.
Proof.
  intros Hst Hl Hn He H0 Hlt Hsec. unfold recoverable. rewrite Hst, Hl, !(format_storable _ He), (format_storable _ Hn). cbn [andb].
  apply bool_decide_eq_true. cbn [stored_le]. rewrite Hsec, Z.eqb_refl. cbn [negb]. rewrite H0. apply fraction_before.
  pose proof (Z.mod_pos_bound e second ltac:(done)). Z.div_mod_to_equations. lia.
Qed.

(** ** Witnesses *)
Definition quoted (text : string) : string := string_of (bytes_of text ≫= fun b => [if b =? 39 then 34 else b]).
Definition submit_payload (script : string) : string := quoted (String.append "{'operation':'submit_command','script':'" (String.append script "'}")).
Definition submit_hash (script : string) : CanonicalHash :=
  match HashMutationRequestJSON "submit_command" (submit_payload script) [] with Ok h => h | Err _ => mkCanonicalHash 0 "" end.

Definition submit_intent (id command key script : string) : LocalIntentCreate :=
  mkLocalIntentCreate id "submit_command" command "s1" command "" (mkExecutionTarget TargetKindRemote "mac-mini") " default "
    (mkControllerIdentity ControllerTypeLocalUser "alice") NewEmptySource (submit_hash script) key 0 (submit_payload script) script
    None (LocalIntentOther "") "" "" None 0 None.

Definition intent_history : list (Z * IntentOp) :=
  [(t0, IopAccept None t0 (submit_intent "i1" "c1" "k1" "make")); (t0 + second, IopAccept None t0 (submit_intent "i2" "c2" "k2" "test"))].
Definition intent_state : AuthorityStore * Mirror := Eval vm_compute in intent_execs intent_history (mkAuthorityStore empty_db false [] [], empty_mirror).
Definition intent_mirror : Mirror := snd intent_state.

Example intent_state_ordinals :
  li_intent_ordinal <$> local_intents intent_mirror !! "i1" = Some (Some 1) /\
  li_intent_ordinal <$> local_intents intent_mirror !! "i2" = Some (Some 2) /\
  eligibleLocalIntentQuery (t0 + minute) intent_mirror = ["i1"].
Proof. vm_compute. split; [reflexivity|split; reflexivity]. Qed.

Lemma intent_mirror_reachable : intents_reachable intent_mirror.
Proof. exists (mkAuthorityStore empty_db false [] []), intent_history. vm_compute. reflexivity. Qed.

Lemma intent_lifecycle_is_run_witness : exists r, local_intents intent_mirror !! "i2" = Some r /\
  intent_run (lifecycle_of "i2" intent_mirror) (li_delivery_state r).
Proof.
  destruct (local_intents intent_mirror !! "i2") as [r|] eqn:Hr; [|vm_compute in Hr; discriminate]. exists r. split; [reflexivity|].
  exact (proj1 (intent_lifecycle_is_run intent_mirror "i2" r intent_mirror_reachable Hr)).
Defined.

Lemma first_claim : exists rec m', ClaimNextLocalIntent intent_mirror (t0 + minute) "router" minute = (Ok rec, m') /\
  lic_IntentID (lir_create rec) = "i1".
Proof. eexists _, _. split; [vm_compute; reflexivity|reflexivity]. Qed.

Lemma first_row : exists row, local_intents intent_mirror !! "i1" = Some row.
Proof. eexists. vm_compute. reflexivity. Qed.

(** The first intent is claimed, delivered and proved terminal. *)
Definition delivery_history : list (Z * IntentOp) :=
  [(t0 + minute, IopClaimNext "router" minute); (t0 + 2 * minute, IopTransition "i1" LocalIntentAccepted "remote_target_accepted");
   (t0 + 3 * minute, IopTerminalProof "i1" "remote_terminal_confirmed")].

Example delivery_history_ends :
  li_delivery_state <$> local_intents (snd (intent_execs delivery_history intent_state)) !! "i1" = Some LocalIntentReconciled /\
  il_new_state <$> lifecycle_of "i1" (snd (intent_execs delivery_history intent_state))
    = [LocalIntentRecorded; LocalIntentDispatching; LocalIntentAccepted; LocalIntentReconciled] /\
  eligibleLocalIntentQuery (t0 + hour) (snd (intent_execs delivery_history intent_state)) = ["i2"].
Proof. vm_compute. split; [reflexivity|split; reflexivity]. Qed.

Lemma intents_only_advance_witness : exists r r', local_intents intent_mirror !! "i1" = Some r /\
  local_intents (snd (intent_execs delivery_history (fst intent_state, intent_mirror))) !! "i1" = Some r' /\ request_of r' = request_of r.
Proof.
  destruct first_row as [r Hr].
  destruct (intents_only_advance intent_mirror (fst intent_state) delivery_history "i1" r intent_mirror_reachable Hr) as (r' & Hr' & Hreq & _).
  exists r, r'. split; [exact Hr|]. split; [exact Hr'|exact Hreq].
Defined.

Lemma intent_claimed_once_witness : exists rec m', ClaimNextLocalIntent intent_mirror (t0 + minute) "router" minute = (Ok rec, m') /\
  exists e, ClaimLocalIntent m' (t0 + hour) "i1" "other" minute = (Err e, m').
Proof.
  destruct first_claim as (rec & m' & H & Hid). exists rec, m'. split; [exact H|].
  destruct (intent_claimed_once intent_mirror (t0 + minute) "" "router" minute rec m' (fst intent_state) [] (t0 + hour) "other" minute
    intent_mirror_reachable (or_intror H)) as [[e He] _]. exists e. rewrite Hid in He. exact He.
Defined.

Lemma claims_follow_order_witness : exists rec m' row, ClaimNextLocalIntent intent_mirror (t0 + minute) "router" minute = (Ok rec, m') /\
  forall id' row', local_intents intent_mirror !! id' = Some row' -> eligibleLocalIntent (t0 + minute) intent_mirror id' row' = true -> queue_le row row'.
Proof.
  destruct first_claim as (rec & m' & H & Hid). destruct first_row as [row Hr]. exists rec, m', row. split; [exact H|].
  rewrite <- Hid in Hr.
  destruct (claims_follow_order intent_mirror (t0 + minute) "" "router" minute rec m' row intent_mirror_reachable (or_intror H) Hr) as [_ Ho].
  exact (Ho H).
Defined.

(** Recording the first intent. *)
Definition first_state : AuthorityStore * Mirror :=
  Eval vm_compute in intent_execs (take 1 intent_history) (mkAuthorityStore empty_db false [] [], empty_mirror).

Lemma first_accept : exists rec,
  AcceptLocalIntent (mkAuthorityStore empty_db false [] []) empty_mirror t0 None t0 (submit_intent "i1" "c1" "k1" "make")
    = (Ok (rec, false), (fst first_state, snd first_state)).
Proof. eexists. vm_compute. reflexivity. Qed.

Definition validated_intent (id command : string) : LocalIntentCreate :=
  mkLocalIntentCreate id "submit_command" command "s1" command "" (mkExecutionTarget TargetKindRemote "mac-mini") "default"
    (mkControllerIdentity ControllerTypeLocalUser "alice") NewEmptySource (submit_hash "make") "k1" DefaultSessionIdempotencyRetention
    (submit_payload "make") "make" None LocalIntentRecorded "" "" None 0 None.
Lemma validated_first : validateLocalIntentCreate (submit_intent "i1" "c1" "k1" "make") = Ok (validated_intent "i1" "c1").
Proof. vm_compute. reflexivity. Qed.
Lemma validated_retry : validateLocalIntentCreate (submit_intent "i3" "c3" "k1" "make") = Ok (validated_intent "i3" "c3").
Proof. vm_compute. reflexivity. Qed.

