(* ===== verification/Footprints.v ===== *)
(** * Footprints of transactions

    A transaction leaves a part of the tables alone when it never changes that
    part.  The mirror transactions leave the intents alone and the intent
    transactions leave the mirror alone; both are found by the structure of the
    transactions. *)
From S2P Require Import Prelude GoStrings Identity Lifecycle LaneAdmission AuditRecords Db AuditStore AdmissionStore Idempotency.
From S2P Require Import RemoteDb RemoteProjections RemoteEvents RemoteUpserts LocalIntents LocalIntentOps.

(** The tables of the intents, and those of the mirror. *)
Definition intents_part (m : Mirror) :=
  (local_intents m, local_intent_lifecycle m, local_idempotency m, local_remote_status_failures m).
Definition mirror_part (m : Mirror) :=
  (local_remote_session_projections m, local_remote_command_projections m, local_remote_job_projections m,
   local_remote_events m, local_remote_event_cursors m, local_remote_event_gaps m).

Class Leaves {S T A : Type} (part : S -> T) (body : stx S A) : Prop :=
  leaves : forall s a s', body s = Ok (a, s') -> part s' = part s.

Section leaves.
Context {S T : Type} (part : S -> T).

#[export] Instance leaves_ret {A} (a : A) : Leaves part (mret a).
Proof. by intros s b s' [= <- <-]. Qed.
#[export] Instance leaves_bind {A B} (m : stx S A) (k : A -> stx S B) :
  Leaves part m -> (forall a, Leaves part (k a)) -> Leaves part (mbind k m).
Proof. intros Hm Hk s b s' (a & s1 & H1 & H2)%stx_bind_Ok. by rewrite (Hk _ _ _ _ H2), (Hm _ _ _ H1). Qed.
#[export] Instance leaves_throw {A} e : Leaves part (throw e : stx S A).
Proof. by intros s a s' H. Qed.
#[export] Instance leaves_lift {A} (r : result A) : Leaves part (lift r).
Proof. intros s a s' H. unfold lift in H. destruct r; [by injection H as _ <-|done]. Qed.
#[export] Instance leaves_query {A} (f : S -> A) : Leaves part (query f).
Proof. by intros s a s' [= _ <-]. Qed.
#[export] Instance leaves_fail b e : Leaves part (fail_if b e).
Proof. destruct b; apply _. Qed.
#[export] Instance leaves_or_fail {A} (o : option A) e : Leaves part (or_fail o e).
Proof. destruct o; apply _. Qed.
Lemma leaves_modify f : (forall s, part (f s) = part s) -> Leaves part (modify f).
Proof. intros H s a s' [= _ <-]. apply H. Qed.
End leaves.

(** The structure of a body: case distinctions, and writes to other tables. *)
Ltac leaves :=
  repeat first
    [ progress intros
    | match goal with
      | |- Leaves _ (modify _) => apply leaves_modify; intros; reflexivity
      | |- Leaves _ (mbind _ _) => apply leaves_bind
      | |- Leaves _ (match ?x with _ => _ end) => destruct x
      | |- Leaves _ (if ?x then _ else _) => destruct x
      | |- Leaves _ (let _ := _ in _) => cbv zeta
      end
    | exact _ ].

Lemma leaves_tx {T A} (part : Mirror -> T) m (body : mtx A) : Leaves part body -> part (snd (withMirrorTransaction m body)) = part m.
Proof. intros H. unfold withMirrorTransaction. destruct (body m) as [[a m']|] eqn:E; [by eapply H|done]. Qed.

(** ** Reads *)
Section reads.
Context {T : Type} (part : Mirror -> T).

#[export] Instance leaves_read_intent id : Leaves part (readLocalIntentOnConnection id).
Proof. unfold readLocalIntentOnConnection. leaves. Qed.
#[export] Instance leaves_read_session id : Leaves part (readRemoteSessionProjectionOnConnection id).
Proof. unfold readRemoteSessionProjectionOnConnection. leaves. Qed.
#[export] Instance leaves_read_command id : Leaves part (readRemoteCommandProjectionOnConnection id).
Proof. unfold readRemoteCommandProjectionOnConnection. leaves. Qed.
#[export] Instance leaves_read_job id : Leaves part (readRemoteJobProjectionOnConnection id).
Proof. unfold readRemoteJobProjectionOnConnection. leaves. Qed.
#[export] Instance leaves_lookup_projection {A} (read : mtx A) : Leaves part read -> Leaves part (lookup_projection read).
Proof.
  intros Hr m a m' H. unfold lookup_projection in H. destruct (read m) as [[b m1]|e] eqn:E; [injection H as _ <-; by eapply Hr|].
  destruct (errors_is _ _); [by injection H as _ <-|done].
Qed.
#[export] Instance leaves_lookup_gap id : Leaves part (lookupRemoteEventGap id).
Proof.
  intros m a m' H. unfold lookupRemoteEventGap in H. destruct (readRemoteEventGapOnConnection id m) as [[b m1]|e] eqn:E.
  - injection H as _ <-. revert E. unfold readRemoteEventGapOnConnection. apply (_ : Leaves part _).
  - destruct (errors_is _ _); [by injection H as _ <-|done].
Qed.
#[export] Instance leaves_cursor id : Leaves part (remoteEventCursorOnConnection id).
Proof. unfold remoteEventCursorOnConnection. leaves. Qed.
#[export] Instance leaves_read_events id n : Leaves part (readRemoteEventsOnConnection id n).
Proof. unfold readRemoteEventsOnConnection. leaves. Qed.
#[export] Instance leaves_read_event id n : Leaves part (readRemoteEventOnConnection id n).
Proof. unfold readRemoteEventOnConnection. leaves. Qed.
#[export] Instance leaves_prefix id n : Leaves part (remoteEventPrefixOnConnection id n).
Proof. unfold remoteEventPrefixOnConnection. leaves. Qed.
#[export] Instance leaves_prefix_terminal id n : Leaves part (remoteEventPrefixHasTerminalOnConnection id n).
Proof. unfold remoteEventPrefixHasTerminalOnConnection. leaves. Qed.
End reads.

(** ** The mirror leaves the intents alone *)
#[export] Instance leaves_write_session id r : Leaves intents_part (write_remote_session id r).
Proof. unfold write_remote_session. leaves. Qed.
#[export] Instance leaves_write_command id r : Leaves intents_part (write_remote_command id r).
Proof. unfold write_remote_command. leaves. Qed.
#[export] Instance leaves_write_job id r : Leaves intents_part (write_remote_job id r).
Proof. unfold write_remote_job. leaves. Qed.
#[export] Instance leaves_update_command id f : Leaves intents_part (update_remote_command id f).
Proof. unfold update_remote_command. leaves. Qed.
#[export] Instance leaves_update_job id f : Leaves intents_part (update_remote_job id f).
Proof. unfold update_remote_job. leaves. Qed.
#[export] Instance leaves_normalize_command p : Leaves intents_part (normalizeIncomingRemoteCommandProjectionForEventGap p).
Proof. unfold normalizeIncomingRemoteCommandProjectionForEventGap. leaves. Qed.
#[export] Instance leaves_normalize_job p : Leaves intents_part (normalizeIncomingRemoteJobProjectionForEventGap p).
Proof. unfold normalizeIncomingRemoteJobProjectionForEventGap. leaves. Qed.
#[export] Instance leaves_gap_command gap : Leaves intents_part (normalizeCommandForGap gap).
Proof.
  intros m a m' H. unfold normalizeCommandForGap in H. destruct (readRemoteCommandProjectionOnConnection _ m) as [[c m1]|e] eqn:E.
  - apply (leaves_read_command intents_part) in E. rewrite <- E. revert H. apply (_ : Leaves intents_part _).
  - destruct (errors_is _ _); [by injection H as _ <-|done].
Qed.
#[export] Instance leaves_gap_jobs gap ids : Leaves intents_part (normalizeJobsForGap gap ids).
Proof. induction ids as [|id ids IH]; cbn [normalizeJobsForGap]; leaves. Qed.
#[export] Instance leaves_gap_normalize gap : Leaves intents_part (normalizeStoredRemoteProjectionsForEventGap gap).
Proof. unfold normalizeStoredRemoteProjectionsForEventGap. leaves. Qed.
#[export] Instance leaves_insert_gap id r : Leaves intents_part (insert_gap id r).
Proof. unfold insert_gap. leaves. Qed.
#[export] Instance leaves_insert_event id r : Leaves intents_part (insert_remote_event id r).
Proof. unfold insert_remote_event. leaves. Qed.
#[export] Instance leaves_upsert_cursor id n now : Leaves intents_part (upsert_cursor id n now).
Proof. unfold upsert_cursor. leaves. Qed.
#[export] Instance leaves_mirror_events id last prefix l a b events : Leaves intents_part (mirrorEvents id last prefix l a b events).
Proof.
  revert last prefix l a b. induction events as [|ev events IH]; intros; cbn [mirrorEvents]; leaves.
  intros m c m' H. destruct (readRemoteEventOnConnection _ _ m) as [[x m1]|e] eqn:E; [|done]. injection H as _ <-.
  by apply (leaves_read_event intents_part) in E.
Qed.

Section quiet.
Context (m : Mirror).
Lemma upsert_session_intents p : intents_part (snd (UpsertRemoteSessionProjection m p)) = intents_part m.
Proof. unfold UpsertRemoteSessionProjection. destruct (validateRemoteSessionProjection p) as [[[v s] c]|]; [|done]. apply leaves_tx. leaves. Qed.
Lemma upsert_command_intents p : intents_part (snd (UpsertRemoteCommandProjection m p)) = intents_part m.
Proof. unfold UpsertRemoteCommandProjection. destruct (validateRemoteCommandProjection p) as [[[v s] c]|]; [|done]. apply leaves_tx. leaves. Qed.
Lemma upsert_job_intents p : intents_part (snd (UpsertRemoteJobProjection m p)) = intents_part m.
Proof. unfold UpsertRemoteJobProjection. destruct (validateRemoteJobProjection p) as [[[v s] c]|]; [|done]. apply leaves_tx. leaves. Qed.
Lemma stale_command_intents id : intents_part (snd (MarkRemoteCommandProjectionStale m id)) = intents_part m.
Proof. unfold MarkRemoteCommandProjectionStale. destruct (NewCommandID id); [|done]. apply leaves_tx. leaves. Qed.
Lemma record_gap_intents gap : intents_part (snd (RecordRemoteEventGap m gap)) = intents_part m.
Proof. unfold RecordRemoteEventGap. destruct (validateRemoteEventGap gap); [|done]. apply leaves_tx. leaves. Qed.
Lemma mirror_events_intents now events : intents_part (snd (MirrorRemoteEvents m now events)) = intents_part m.
Proof.
  unfold MirrorRemoteEvents. destruct (Policy.is_nil events); [done|]. destruct (validateRemoteEventBatch events) as [[|ev evs]|]; [done| |done].
  apply leaves_tx. leaves.
Qed.
End quiet.

(** ** The intents leave the mirror alone *)
#[export] Instance leaves_insert_lifecycle id r : Leaves mirror_part (insert_intent_lifecycle id r).
Proof. unfold insert_intent_lifecycle. leaves. Qed.
#[export] Instance leaves_append id next reason now : Leaves mirror_part (appendLocalIntentLifecycleOnConnection id next reason now).
Proof. unfold appendLocalIntentLifecycleOnConnection. leaves. Qed.
#[export] Instance leaves_update_intent id f : Leaves mirror_part (update_intent id f).
Proof. unfold update_intent. leaves. Qed.
#[export] Instance leaves_delete_failure id : Leaves mirror_part (delete_status_failure id).
Proof. unfold delete_status_failure. leaves. Qed.
#[export] Instance leaves_lookup_binding c op key now : Leaves mirror_part (lookupLocalIdempotencyOnConnection c op key now).
Proof. unfold lookupLocalIdempotencyOnConnection. leaves. Qed.
#[export] Instance leaves_record v now : Leaves mirror_part (record_intent v now).
Proof.
  unfold record_intent, allocate_ordinal, nextLocalIntentOrdinalOnConnection, insertLocalIntentOnConnection, insert_intent,
    insertLocalIdempotencyOnConnection. leaves.
Qed.

Lemma transition_mirror m now id next reason : mirror_part (snd (TransitionLocalIntent m now id next reason)) = mirror_part m.
Proof. unfold TransitionLocalIntent. destruct (NewIntentID id); [|done]. destruct (negb _); [done|]. apply leaves_tx. leaves. Qed.
Lemma proof_mirror m now id reason : mirror_part (snd (MarkRemoteIntentTerminalProof m now id reason)) = mirror_part m.
Proof. unfold MarkRemoteIntentTerminalProof. destruct (NewIntentID id); [|done]. destruct (_ || _); [done|]. apply leaves_tx. leaves. Qed.

Lemma on_tables_leaves {T A} (part : Mirror -> T) (b : mtx A) : Leaves part b -> Leaves (fun st : DB * Mirror => part (snd st)) (on_tables b).
Proof. intros Hb st a st' H. unfold on_tables in H. destruct (b (snd st)) as [[x m']|] eqn:E; [|done]. injection H as _ <-. by eapply Hb. Qed.
Lemma on_db_leaves {T A} (part : Mirror -> T) (b : tx A) : Leaves (fun st : DB * Mirror => part (snd st)) (on_db b).
Proof. intros st a st' H. unfold on_db in H. destruct (b (fst st)) as [[x d']|]; [|done]. by injection H as _ <-. Qed.

#[export] Instance leaves_accept runtime v audit now : Leaves (fun st : DB * Mirror => mirror_part (snd st)) (accept_intent runtime v audit now).
Proof. unfold accept_intent. leaves; first [apply on_tables_leaves | apply on_db_leaves]; apply _. Qed.

Lemma accept_mirror s m now ingress wall input : mirror_part (snd (snd (AcceptLocalIntent s m now ingress wall input))) = mirror_part m.
Proof.
  unfold AcceptLocalIntent. destruct (validateLocalIntentCreate input) as [v|]; [|done].
  destruct (accept_intent _ _ _ _ _) as [[[[rec dup] saved] [d m']]|] eqn:E; [|done]. exact (leaves_accept _ _ _ _ _ _ _ E).
Qed.
