(* ===== verification/DispatchInvariant.v ===== *)
(** * What the delivery states of a dispatcher are worth

    The invariant of a dispatcher between its store and its hosts: every
    mutation it sent is the frame of a recorded intent, a recorded intent was
    never sent, an undelivered one was refused, an accepted one was acknowledged,
    and every cached session state was reported by a host.  Computations are
    classified by what they may change. *)
From stdpp Require Import relations.
From Stdlib Require Import String.
From S2P Require Import Prelude GoStrings Identity Lifecycle Policy JsonText Canonical RunPayload LaneAdmission AuditRecords Db.
From S2P Require Import AuditStore AdmissionStore Idempotency Sessions Commands.
From S2P Require Import RemoteDb RemoteProjections RemoteEvents RemoteUpserts LocalIntents LocalIntentOps.
From S2P Require Import BridgeJson RemoteReplies RemoteReads Dispatcher Reconciliation.
From S2P Require Import IntentSteps IntentRefinement IntentTheorems Footprints.

(** ** What was said *)
Definition is_mutation (operation : Operation) : bool :=
  match operation with
  | OperationCreateOrResumeSession | OperationSubmitOrResumeCommand | OperationCancelCommand | OperationCloseSession
  | OperationRunOrResumeJob => true
  | _ => false
  end.

(** The answers to the mutations sent for an intent. *)
Definition sent_for (id : string) (i : Interaction) : option CallOutcome :=
  match i with
  | Called _ frame outcome => if is_mutation (rq_Operation frame) && bool_decide (rq_RequestID frame = id) then Some outcome else None
  | Streamed _ _ _ => None
  end.
Definition sends (id : string) (trace : list Interaction) : list CallOutcome := omap (sent_for id) trace.

(** The answer proves that the host did not take the request. *)
Definition refusal (outcome : CallOutcome) : Prop :=
  match outcome with
  | CallFailed before_send => before_send = true
  | Replied reply => rp_ResponseType reply = "error" /\
      exists payload, decodeErrorPayload true (rp_Payload reply) = Some payload /\ ep_Code payload <> "transport_uncertain"
  end.

(** A result with the string [value] in [field]. *)
Definition says (field value : string) (reply : ReplyFrame) : Prop :=
  rp_ResponseType reply = "result" /\
  exists object, payload_object (rp_Payload reply) = Some object /\ string_is object field value = true.

Definition answered (profile : string -> Prop) (P : ReplyFrame -> Prop) (trace : list Interaction) : Prop :=
  exists p frame reply, Called p frame (Replied reply) ∈ trace /\ profile p /\ rp_RequestID reply = rq_RequestID frame /\ P reply.

(** Some host answered with the resource of the intent. *)
Definition acknowledged (trace : list Interaction) (r : IntentRow) : Prop :=
  answered (fun _ => True) (says (resource_field (li_operation r)) (li_resource_id r)) trace.

Definition reported (trace : list Interaction) (profile session : string) (state : SessionState) : Prop :=
  answered (fun p => p = profile)
    (fun reply => says "session_id" session reply /\ remoteSessionStateFromResult (rp_Payload reply) = Ok (Some state)) trace.

Definition truthful (trace : list Interaction) (id : string) (r : IntentRow) : Prop :=
  match li_delivery_state r with
  | LocalIntentRecorded => sends id trace = []
  | LocalIntentNotDelivered => forall outcome, last (sends id trace) = Some outcome -> refusal outcome
  | LocalIntentAccepted | LocalIntentReconciled => acknowledged trace r
  | _ => True
  end.

(** The resource that the operation is about. *)
Definition own_id (r : IntentRow) : string :=
  if is_op (li_operation r) operationCreateSession || is_op (li_operation r) operationCloseSession then li_session_id r
  else if is_op (li_operation r) operationSubmitCommand || is_op (li_operation r) operationCancelCommand then li_command_id r
  else li_job_id r.

Notation intents_of d := (local_intents (d_mirror d)).

(** The host has decided, or nothing was sent and nothing will be. *)
Definition closed (state : LocalIntentDeliveryState) : Prop :=
  state = LocalIntentAccepted \/ state = LocalIntentReconciled \/ state = LocalIntentNotDelivered.

(** Closed intents that are watched, with the answers they had when the watch
    began. *)
Class Watched : Type := watched : gmap string (list CallOutcome).

Definition watch_kept {W : Watched} (d : RemoteDriver) : Prop :=
  forall id outcomes, (watched : gmap string (list CallOutcome)) !! id = Some outcomes ->
    sends id (d_trace d) = outcomes /\ exists r, intents_of d !! id = Some r /\ closed (li_delivery_state r).

Record driver_inv {W : Watched} (d : RemoteDriver) : Prop := {
  di_intents : intents_inv (d_mirror d);
  di_own : forall id r, intents_of d !! id = Some r -> own_id r = li_resource_id r;
  di_truth : forall id r, intents_of d !! id = Some r -> truthful (d_trace d) id r;
  di_frames : forall p frame outcome, Called p frame outcome ∈ d_trace d -> is_mutation (rq_Operation frame) = true ->
    exists r rec, intents_of d !! rq_RequestID frame = Some r /\ decoded_as (rq_RequestID frame) r rec /\
      frameForRemoteIntent rec = Ok frame /\ p = target_profile (li_target r);
  di_cache : forall p session state, d_sessionStates d !! (p, session) = Some state -> reported (d_trace d) p session state;
  di_watch : watch_kept d
}.

(** Nothing happened to the intents that were there, and no mutation was sent. *)
Record calm (d d' : RemoteDriver) : Prop := {
  ca_rows : forall id r, intents_of d !! id = Some r -> intents_of d' !! id = Some r;
  ca_trace : d_trace d `prefix_of` d_trace d';
  ca_sends : forall id, sends id (d_trace d') = sends id (d_trace d)
}.

#[export] Instance calm_preorder : PreOrder calm.
Proof.
  split.
  - intros d. by constructor.
  - intros d1 d2 d3 [R1 T1 S1] [R2 T2 S2]. constructor; [eauto|by etrans|]. intros id. by rewrite S2.
Qed.

Lemma watch_calm {W : Watched} d d' : calm d d' -> watch_kept d -> watch_kept d'.
Proof. intros Hc H id l Hl. destruct (H id l Hl) as (Hs & r & Hr & Hcl). split; [by rewrite (ca_sends _ _ Hc)|]. exists r. split; [by apply Hc|done]. Qed.

Definition quiet {W : Watched} {A} (m : drv A) : Prop := forall d, driver_inv d -> driver_inv (snd (m d)) /\ calm d (snd (m d)).

(** The invariant is kept, and a result satisfies [R]. *)
Definition triple {W : Watched} {A} (P : RemoteDriver -> Prop) (m : drv A) (R : A -> RemoteDriver -> Prop) : Prop :=
  forall d, driver_inv d -> P d -> driver_inv (snd (m d)) /\ forall a, fst (m d) = Ok a -> R a (snd (m d)).
Notation safe P m := (triple P m (fun _ _ => True)).

Class Stable (P : RemoteDriver -> Prop) : Prop := stable : forall d d', calm d d' -> P d -> P d'.

(** ** Lists of what was said *)
Lemma sends_app id l1 l2 : sends id (l1 ++ l2) = sends id l1 ++ sends id l2.
Proof. apply omap_app. Qed.

Lemma answered_mono (p : string -> Prop) (P : ReplyFrame -> Prop) l l' : l `prefix_of` l' -> answered p P l -> answered p P l'.
Proof. intros [k ->] (q & f & reply & H & H'). exists q, f, reply. split; [by apply elem_of_app; left|done]. Qed.

Lemma truthful_mono l l' id r : l `prefix_of` l' -> sends id l' = sends id l -> truthful l id r -> truthful l' id r.
Proof. intros Hp Hs. unfold truthful, acknowledged. rewrite Hs. destruct (li_delivery_state r); try done; by apply answered_mono. Qed.

Lemma resource_request r r' : request_of r = request_of r' -> li_operation r = li_operation r' /\ li_resource_id r = li_resource_id r' /\
  own_id r = own_id r' /\ li_target r = li_target r'.
Proof. intros E. injection E as E1 E2 E3 E4 E5 E6. unfold own_id. by rewrite E1, E2, E3, E4, E5, E6. Qed.

(** ** The frame of an intent is a function of its request *)
Lemma frame_request rec1 rec2 : request_of_record rec1 = request_of_record rec2 -> frameForRemoteIntent rec1 = frameForRemoteIntent rec2.
Proof.
  intros E. injection E as E1 E2 E3 E4 E5 E6 E7 E8 E9 E10. unfold frameForRemoteIntent, bridgePayloadForIntent. cbv zeta.
  by rewrite E1, E2, E3, E4, E5, E7, E8, E9, E10.
Qed.

Lemma frame_fields rec frame : frameForRemoteIntent rec = Ok frame ->
  rq_RequestID frame = lic_IntentID (lir_create rec) /\ is_mutation (rq_Operation frame) = true.
Proof.
  unfold frameForRemoteIntent. cbv zeta. intros H. apply result_bind_Ok in H as (payload & _ & H).
  apply result_bind_Ok in H as (o & Ho & H). injection H as <-. split; [done|]. cbn [rq_Operation]. unfold mutation_operation in Ho.
  repeat (case_bool_decide; [by injection Ho as <-|]). done.
Qed.

Lemma read_frame_quiet rec frame : readFrameForRemoteIntent rec = Ok frame -> is_mutation (rq_Operation frame) = false.
Proof. unfold readFrameForRemoteIntent. cbv zeta. repeat case_match; by intros [= <-]. Qed.

Lemma readiness_frame_quiet rec frame : readinessFrameForCreateIntent rec = Ok frame -> is_mutation (rq_Operation frame) = false.
Proof. unfold readinessFrameForCreateIntent. intros (f & Hf%read_frame_quiet & H)%result_bind_Ok. by injection H as <-. Qed.

(** ** The invariant depends on the intents only *)
Lemma intents_inv_part m m' : intents_part m' = intents_part m -> intents_inv m -> intents_inv m'.
Proof.
  intros E. injection E as E1 E2 E3 E4. assert (forall id, lifecycle_of id m' = lifecycle_of id m) as El
    by (intros id; unfold lifecycle_of; by rewrite E2).
  intros [H1 H2 H3 H4 H5]. constructor; rewrite ?E1, ?E2, ?E3; try done.
  - intros id r Hr. rewrite El. by apply H1.
  - intros id r Hr. destruct (H2 _ _ Hr) as [rec Hrec]. exists rec. by rewrite E4.
Qed.

(** ** Requests recorded by others *)
Lemma record_rows v now id m m' : record_intent v now m = Ok (id, m') ->
  local_intents m !! lic_IntentID v = None /\
  exists o, local_intents m' = <[lic_IntentID v := intent_row (with_ordinal o v) now]> (local_intents m).
Proof.
  unfold record_intent. intros H. apply stx_bind_Ok in H as (v' & m1 & (-> & o & ->)%allocate_Ok & H).
  apply stx_bind_Ok in H as (u & m1 & Hins & H). apply insert_intent_Ok in Hins as (Hnone & _ & ->).
  apply stx_bind_Ok in H as (u2 & m1 & ->%insert_intent_lifecycle_Ok & H). cbv zeta in H.
  apply stx_bind_Ok in H as (u' & m1 & Hidem & [_ <-]%stx_ret_Ok). apply insert_binding_Ok in Hidem as ->. split; [done|]. by exists o.
Qed.

Lemma accept_rows s m now ingress wall input (st := AcceptLocalIntent s m now ingress wall input) :
  intents_inv m -> intents_inv (snd (snd st)) /\
  (local_intents (snd (snd st)) = local_intents m \/
   exists v o, validateLocalIntentCreate input = Ok v /\ local_intents m !! lic_IntentID v = None /\
     local_intents (snd (snd st)) = <[lic_IntentID v := intent_row (with_ordinal o v) now]> (local_intents m)).
Proof.
  intros Hinv. split; [exact (isteps_inv _ _ _ (exec_steps (s, m) now (IopAccept ingress wall input) Hinv) Hinv)|].
  subst st. unfold AcceptLocalIntent. destruct (validateLocalIntentCreate input) as [v|]; [|by left].
  destruct (accept_intent _ _ _ _ _) as [[[[rec dup] saved] [d m']]|] eqn:E; [cbn [snd]|by left].
  unfold accept_intent in E. apply stx_bind_Ok in E as (u & st1 & (d1 & _ & ->)%on_db_Ok' & E). cbn [fst snd] in E.
  apply stx_bind_Ok in E as (o & st2 & (m1 & Hl & ->)%on_tables_Ok & E). cbn [fst snd] in Hl, E. apply lookup_binding_Ok in Hl.
  destruct o as [b|].
  - destruct Hl as [-> _]. left. apply stx_bind_Ok in E as (? & st3 & (_ & _ & <-)%fail_if_Ok & E).
    apply stx_bind_Ok in E as (? & st3 & [_ <-]%lift_Ok & E). apply stx_bind_Ok in E as (r1 & st3 & (m2 & [-> _]%readIntent_Ok & ->)%on_tables_Ok & E).
    apply stx_bind_Ok in E as (? & st3 & (d2 & _ & ->)%on_db_Ok' & E). by apply stx_ret_Ok in E as [_ [= _ <-]].
  - destruct Hl as (_ & _ & Hi & _). apply stx_bind_Ok in E as (id & st3 & (m2 & Hrec & ->)%on_tables_Ok & E).
    apply stx_bind_Ok in E as (? & st3 & (d2 & _ & ->)%on_db_Ok' & E). cbn [fst snd] in E, Hrec.
    apply stx_bind_Ok in E as (r1 & st3 & (m3 & [-> _]%readIntent_Ok & ->)%on_tables_Ok & E). apply stx_ret_Ok in E as [_ [= _ <-]].
    apply record_rows in Hrec as (Hnone & o & Ho). rewrite Hi in Hnone, Ho. right. by exists v, o.
Qed.

Lemma validated_own input v : validateLocalIntentCreate input = Ok v ->
  own_id (intent_row v 0) = lic_ResourceID v /\
  (lic_DeliveryState input = LocalIntentOther "" \/ lic_DeliveryState input = LocalIntentRecorded -> lic_DeliveryState v = LocalIntentRecorded).
Proof.
  unfold validateLocalIntentCreate. cbv zeta. intros H. apply result_bind_Ok in H as (? & _ & H). apply refuse_if_bind in H as [Hop H].
  do 2 apply refuse_if_bind in H as [_ H]. apply result_bind_Ok in H as (? & _ & H). apply unit_bind_Ok in H as [_ H].
  do 2 apply result_bind_Ok in H as (? & _ & H). apply result_bind_Ok in H as (? & _ & H). do 4 apply refuse_if_bind in H as [_ H].
  apply unit_bind_Ok in H as [Hid H]. apply unit_bind_Ok in H as [_ H]. apply result_bind_Ok in H as ([canonical hash] & _ & H).
  do 2 apply refuse_if_bind in H as [_ H]. injection H as <-. split.
  - unfold validateLocalIntentIdentityFields in Hid. cbv zeta in Hid. do 3 apply refuse_if_bind in Hid as [_ Hid].
    do 4 (let H := fresh "Hd" in apply refuse_if_bind in Hid as [H Hid]). apply refuse_if_Ok in Hid as [_ Hid].
    unfold own_id, intent_row. cbn [li_operation li_session_id li_command_id li_job_id lic_ResourceID lic_SessionID lic_CommandID lic_JobID lic_Operation].
    unfold validLocalIntentOperation in Hop. unfold operationCreateSession, operationCloseSession, operationSubmitCommand, operationCancelCommand.
    unfold localIntentCreateSessionOperation, localIntentCloseSessionOperation, localIntentSubmitCommandOperation,
      localIntentCancelCommandOperation, localIntentRunOperation in *.
    repeat case_bool_decide; simplify_eq; cbn in *; congruence.
  - cbn [lic_DeliveryState]. intros [->| ->]; done.
Qed.

(** ** The world *)

(** Front ends record requests that were not delivered yet. *)
Definition records_requests (w : World) : Prop :=
  forall n i, i ∈ w_others w n -> lic_DeliveryState (ig_input i) = LocalIntentOther "" \/ lic_DeliveryState (ig_input i) = LocalIntentRecorded.

Section driver.
Context {W : Watched} (w : World) (Hw : records_requests w).

Lemma unsent_new d id : driver_inv d -> intents_of d !! id = None -> sends id (d_trace d) = [].
Proof.
  intros Hinv Hnone. unfold sends. destruct (omap (sent_for id) (d_trace d)) as [|o l] eqn:E; [done|].
  assert (o ∈ omap (sent_for id) (d_trace d)) as Ho by (rewrite E; by left). apply list_elem_of_omap in Ho as (i & Hi & Hs).
  destruct i as [p f o'|]; [|done]. cbn [sent_for] in Hs. destruct (is_mutation (rq_Operation f)) eqn:Em; [|done].
  case_bool_decide as Hid; [|done]. destruct (di_frames _ Hinv _ _ _ Hi Em) as (r & rec & Hr & _). congruence.
Qed.

Definition with_tables (st : AuthorityStore * Mirror) (d : RemoteDriver) : RemoteDriver := with_store (fst st) (snd st) (d_ticks d) d.

Lemma ingest_inv d i : driver_inv d ->
  lic_DeliveryState (ig_input i) = LocalIntentOther "" \/ lic_DeliveryState (ig_input i) = LocalIntentRecorded ->
  let d' := with_tables (ingest (d_authority d, d_mirror d) i) d in
  driver_inv d' /\ calm d d' /\ mirror_part (d_mirror d') = mirror_part (d_mirror d).
Proof.
  intros Hinv Hi. unfold ingest, with_tables. cbn [fst snd].
  pose proof (accept_rows (d_authority d) (d_mirror d) (ig_now i) (ig_ingress i) (ig_wall i) (ig_input i) (di_intents _ Hinv)) as [Hinv' Hrows].
  pose proof (accept_mirror (d_authority d) (d_mirror d) (ig_now i) (ig_ingress i) (ig_wall i) (ig_input i)) as Hm.
  destruct (snd (AcceptLocalIntent _ _ _ _ _ _)) as [s' m']. cbn [fst snd] in *. destruct Hinv as [H1 H2 H3 H4 H5 H6].
  destruct Hrows as [Hrows|(v & o & Hv & Hnone & Hrows)].
  - assert (calm d (with_store s' m' (d_ticks d) d)) as Hc by (by constructor; cbn; rewrite ?Hrows).
    split_and!; [|done|done]. constructor; [..|by apply (watch_calm _ _ Hc)]; cbn; rewrite ?Hrows; done.
  - pose proof (validated_own _ _ Hv) as [Hown Hst]. specialize (Hst Hi).
    assert (forall id r, local_intents (d_mirror d) !! id = Some r -> local_intents m' !! id = Some r) as Hkeep
      by (intros id r Hr; rewrite Hrows, lookup_insert_ne by congruence; done).
    assert (calm d (with_store s' m' (d_ticks d) d)) as Hc by by constructor.
    split_and!; [|done|done]. constructor; [..|by apply (watch_calm _ _ Hc)]; cbn; try done.
    + intros id r. rewrite Hrows. intros [[<- <-]|[_ Hr]]%lookup_insert_Some; [exact Hown|by apply (H2 id)].
    + intros id r. rewrite Hrows. intros [[<- <-]|[_ Hr]]%lookup_insert_Some; [|by apply H3].
      unfold truthful. cbn [intent_row li_delivery_state lic_DeliveryState with_ordinal]. rewrite Hst. by apply (unsent_new d); [constructor|].
    + intros p f out Hin Hmut. destruct (H4 _ _ _ Hin Hmut) as (r & rec & Hr & Hrest). exists r, rec. split; [by apply Hkeep|done].
Qed.

Lemma interfere_inv d : driver_inv d ->
  driver_inv (interfere w d) /\ calm d (interfere w d) /\ mirror_part (d_mirror (interfere w d)) = mirror_part (d_mirror d) /\
  d_trace (interfere w d) = d_trace d.
Proof.
  unfold interfere. pose proof (Hw (d_ticks d)) as Hl. revert Hl. generalize (w_others w (d_ticks d)). intros l Hl Hinv.
  assert (let d' := with_tables (fold_left ingest l (d_authority d, d_mirror d)) d in
    driver_inv d' /\ calm d d' /\ mirror_part (d_mirror d') = mirror_part (d_mirror d)) as H.
  { revert d Hinv. induction l as [|i l IH]; intros d Hinv; [by destruct d|]. cbn [fold_left].
    pose proof (ingest_inv d i Hinv (Hl i ltac:(by left))) as (Hinv1 & Hc1 & Hm1).
    destruct (ingest (d_authority d, d_mirror d) i) as [s1 m1]. destruct (IH (fun j Hj => Hl j ltac:(by right)) _ Hinv1) as (Hinv2 & Hc2 & Hm2).
    unfold with_tables in *. cbn [fst snd d_authority d_mirror with_store d_ticks] in *. split_and!; [exact Hinv2|by etrans|congruence]. }
  unfold with_tables in H. destruct (fold_left ingest l (d_authority d, d_mirror d)) as [s m]. cbn [fst snd] in H.
  destruct H as ([] & [] & Hm). split_and!; [by constructor|by constructor|done|done].
Qed.

(** ** Quiet computations *)
Lemma quiet_ret {A} (a : A) : quiet (mret a). Proof. by intros d H. Qed.
Lemma quiet_throw {A} e : quiet (dthrow e : drv A). Proof. by intros d H. Qed.
Lemma quiet_lift {A} (r : result A) : quiet (dlift r). Proof. by intros d H. Qed.
Lemma quiet_get {A} (f : RemoteDriver -> A) : quiet (dget f). Proof. by intros d H. Qed.
Lemma quiet_fail b e : quiet (dfail_if b e). Proof. destruct b; by intros d H. Qed.
Lemma quiet_bind {A B} (m : drv A) (k : A -> drv B) : quiet m -> (forall a, quiet (k a)) -> quiet (mbind k m).
Proof.
  intros Hm Hk d Hd. unfold mbind, drv_bind. destruct (Hm d Hd) as [Hinv Hc]. destruct (m d) as [[a|e] d'] eqn:E; cbn [snd] in *; [|done].
  destruct (Hk a d' Hinv) as [Hinv' Hc']. split; [done|by etrans].
Qed.
Lemma quiet_attempt {A} (m : drv A) : quiet m -> quiet (attempt m).
Proof. intros Hm d Hd. unfold attempt. specialize (Hm d Hd). by destruct (m d). Qed.
Lemma quiet_map_err {A} f (m : drv A) : quiet m -> quiet (map_err f m).
Proof. intros Hm d Hd. unfold map_err. specialize (Hm d Hd). by destruct (m d). Qed.
Lemma quiet_clock : quiet (clock w). Proof. intros d Hd. by destruct (interfere_inv d Hd) as (? & ? & _). Qed.
Lemma quiet_read {A} (f : Mirror -> Z -> result A) : quiet (store_read w f).
Proof. intros d Hd. by destruct (interfere_inv d Hd) as (? & ? & _). Qed.

Lemma quiet_write {A} (f : Mirror -> Z -> result A * Mirror) :
  (forall m now, intents_part (snd (f m now)) = intents_part m) -> quiet (store_write w f).
Proof.
  intros Hf d Hd. unfold store_write. destruct (interfere_inv d Hd) as (Hinv & Hc & _). specialize (Hf (d_mirror (interfere w d)) (w_now w (d_ticks d))).
  destruct (f _ _) as [r m]. cbn [snd] in *. set (d1 := interfere w d) in *. clearbody d1.
  pose proof (intents_inv_part _ _ Hf (di_intents _ Hinv)) as Hi. injection Hf as Hf _ _ _. destruct Hinv as [? H2 H3 H4 H5 H6].
  assert (calm d1 (with_mirror m d1)) as Hc' by (constructor; cbn; rewrite ?Hf; done).
  split; [|by etrans]. constructor; [..|by apply (watch_calm _ _ Hc')]; cbn; rewrite ?Hf; done.
Qed.

Lemma quiet_call p frame : is_mutation (rq_Operation frame) = false -> quiet (call w p frame).
Proof.
  intros Hq d Hd. unfold call. cbn [snd]. set (i := Called p frame _).
  assert (forall id, sends id (d_trace d ++ [i]) = sends id (d_trace d)) as Hs
    by (intros id; rewrite sends_app; cbn; rewrite Hq; cbn; by rewrite app_nil_r).
  destruct Hd as [H1 H2 H3 H4 H5 H6]. assert (d_trace d `prefix_of` d_trace d ++ [i]) as Hp by by eexists.
  assert (calm d (with_said i d)) as Hc by by constructor.
  split; [|done]. constructor; [..|by apply (watch_calm _ _ Hc)]; cbn; try done.
  - intros id r Hr. eapply truthful_mono; [done|apply Hs|by apply H3].
  - intros p' f' o' [Hin|Hin%list_elem_of_singleton]%elem_of_app Hmut; [by eauto|]. subst i. simplify_eq. congruence.
  - intros p' session st Hst. eapply answered_mono; [done|by eapply H5].
Qed.

Lemma quiet_stream p frame : quiet (stream w p frame).
Proof.
  intros d Hd. unfold stream. cbn [snd]. set (i := Streamed p frame _).
  assert (forall id, sends id (d_trace d ++ [i]) = sends id (d_trace d)) as Hs
    by (intros id; rewrite sends_app; cbn; by rewrite app_nil_r).
  destruct Hd as [H1 H2 H3 H4 H5 H6]. assert (d_trace d `prefix_of` d_trace d ++ [i]) as Hp by by eexists.
  assert (calm d (with_said i d)) as Hc by by constructor.
  split; [|done]. constructor; [..|by apply (watch_calm _ _ Hc)]; cbn; try done.
  - intros id r Hr. eapply truthful_mono; [done|apply Hs|by apply H3].
  - intros p' f' o' [Hin|Hin%list_elem_of_singleton]%elem_of_app Hmut; [by eauto|]. by subst i.
  - intros p' session st Hst. eapply answered_mono; [done|by eapply H5].
Qed.

Lemma quiet_call_or_fail e p frame : is_mutation (rq_Operation frame) = false -> quiet (callOrFail w e p frame).
Proof. intros Hq. apply quiet_bind; [by apply quiet_call|]. intros [reply|b]; [apply quiet_ret|apply quiet_throw]. Qed.
End driver.
