(* ===== verification/DispatchSteps.v ===== *)
(** * Delivery steps keep the delivery states truthful

    The steps of a dispatcher that change an intent or send a mutation, each with
    what it needs to keep the invariant: a claim needs nothing, a mutation needs
    an intent in flight, and a delivery state needs what was said. *)
From stdpp Require Import relations.
From Stdlib Require Import String.
From S2P Require Import Prelude GoStrings Identity Lifecycle Policy JsonText Canonical RunPayload LaneAdmission AuditRecords Db.
From S2P Require Import AuditStore AdmissionStore Idempotency Sessions Commands.
From S2P Require Import RemoteDb RemoteProjections RemoteEvents RemoteUpserts LocalIntents LocalIntentOps.
From S2P Require Import BridgeJson RemoteReplies RemoteReads Dispatcher Reconciliation.
From S2P Require Import IntentSteps IntentRefinement IntentTheorems Footprints DispatchInvariant.

(** ** What the store does to the row of an intent *)
#[export] Instance leaves_append_rows id next reason now : Leaves local_intents (appendLocalIntentLifecycleOnConnection id next reason now).
Proof. unfold appendLocalIntentLifecycleOnConnection, insert_intent_lifecycle. leaves. Qed.

Lemma update_rows {A} id f row m m' a (k : mtx A) : local_intents m !! id = Some row -> Leaves local_intents k ->
  (update_intent id f;; k) m = Ok (a, m') -> local_intents m' = <[id := f row]> (local_intents m).
Proof.
  intros Hrow Hk H. unfold update_intent in H. rewrite modify_bind in H. apply Hk in H. rewrite H. cbn. by apply alter_put.
Qed.

Lemma transition_rows m now id next reason r m' : intents_inv m -> TransitionLocalIntent m now id next reason = (r, m') ->
  intents_inv m' /\
  (local_intents m' = local_intents m \/
   exists row, local_intents m !! id = Some row /\ delivery_move (li_delivery_state row) next /\
     local_intents m' = <[id := with_state next reason now row]> (local_intents m)) /\
  (forall rec, r = Ok rec -> lic_IntentID (lir_create rec) = id /\ exists row, local_intents m' !! id = Some row /\ li_delivery_state row = next).
Proof.
  intros Hinv Ht. split; [by eapply isteps_inv; [eapply transition_steps|]|]. revert Ht. unfold TransitionLocalIntent.
  destruct (NewIntentID id) as [i|] eqn:Ei; [|intros [= <- <-]; naive_solver]. apply NewIntentID_Ok in Ei as [-> _].
  destruct (negb _); [intros [= <- <-]; naive_solver|]. intros [[-> [e ->]]|(rec & -> & H)]%mirror_tx; [naive_solver|].
  apply stx_bind_Ok in H as (cur & m1 & (-> & row & Hrow & Hd%decode_Ok)%readIntent_Ok & H). cbv zeta in H.
  case_bool_decide as Hst.
  - apply stx_ret_Ok in H as [<- <-]. split; [by left|]. intros rec' [= <-]. split; [apply Hd|]. exists row. by rewrite <- (da_state _ _ _ Hd).
  - apply stx_bind_Ok in H as (u & m2 & (_ & Hok & <-)%fail_if_Ok & H). pose proof H as Hrows. bool_norm. rewrite (da_state _ _ _ Hd) in Hok.
    apply (update_rows _ _ row) in Hrows; [|done|leaves]. split; [right; exists row; split_and!; [done|by left|done]|]. intros rec' [= <-].
    unfold update_intent in H. rewrite modify_bind in H. apply stx_bind_Ok in H as (u' & m3 & _ & H).
    apply readIntent_Ok in H as (-> & row' & Hrow' & Hd'%decode_Ok). split; [apply Hd'|]. exists row'. split; [done|].
    rewrite Hrows, lookup_insert_eq in Hrow'. by injection Hrow' as <-.
Qed.

Lemma claim_rows m now id owner d r m' : intents_inv m -> ClaimLocalIntent m now id owner d = (r, m') ->
  intents_inv m' /\
  match r with
  | Ok rec => lic_IntentID (lir_create rec) = id /\
      exists row, local_intents m !! id = Some row /\ li_delivery_state row = LocalIntentRecorded /\
        local_intents m' = <[id := with_claim owner d now row]> (local_intents m)
  | Err _ => m' = m
  end.
Proof.
  intros Hinv Hc. split; [by eapply isteps_inv; [eapply claim_one_steps|]|]. revert Hc. unfold ClaimLocalIntent.
  destruct (NewIntentID id) as [i|] eqn:Ei; [|by intros [= <- <-]]. apply NewIntentID_Ok in Ei as [-> _].
  destruct (validateLeaseRequest owner d); [|by intros [= <- <-]]. intros [[-> [e ->]]|(rec & -> & H)]%mirror_tx; [done|].
  pose proof (claim_steps _ _ _ _ _ _ _ Hinv H) as (row & _ & Hrow & He & Hid & _). split; [done|]. exists row.
  split_and!; [done|unfold eligibleLocalIntent in He; by bool_norm|]. unfold claimLocalIntentOnConnection in H.
  apply stx_bind_Ok in H as (cur & m1 & [-> _]%readIntent_Ok & H).
  do 2 apply stx_bind_Ok in H as (? & ? & (_ & _ & <-)%fail_if_Ok & H).
  apply stx_bind_Ok in H as (el & ? & [_ <-]%query_Ok & H). apply stx_bind_Ok in H as (? & ? & (_ & _ & <-)%fail_if_Ok & H).
  eapply update_rows; [done| |exact H]. leaves.
Qed.

Lemma proof_rows m now id reason r m' : intents_inv m -> MarkRemoteIntentTerminalProof m now id reason = (r, m') ->
  intents_inv m' /\
  (local_intents m' = local_intents m \/
   exists row, local_intents m !! id = Some row /\ (li_delivery_state row = LocalIntentAccepted \/ li_delivery_state row = LocalIntentReconciled) /\
     local_intents m' = <[id := with_proof reason now row]> (local_intents m)).
Proof.
  intros Hinv Ht. split; [by eapply isteps_inv; [eapply proof_steps|]|]. revert Ht. unfold MarkRemoteIntentTerminalProof.
  destruct (NewIntentID id) as [i|] eqn:Ei; [|intros [= <- <-]; naive_solver]. apply NewIntentID_Ok in Ei as [-> _].
  destruct (_ || _); [intros [= <- <-]; naive_solver|]. intros [[-> [e ->]]|(rec & -> & H)]%mirror_tx; [naive_solver|].
  apply stx_bind_Ok in H as (cur & m1 & (-> & row & Hrow & Hd%decode_Ok)%readIntent_Ok & H). cbv zeta in H.
  apply stx_bind_Ok in H as (u & m2 & (_ & _ & <-)%fail_if_Ok & H). apply stx_bind_Ok in H as (u2 & m2 & (_ & Hst & <-)%fail_if_Ok & H).
  destruct (HasRemoteTerminalProof cur); [apply stx_ret_Ok in H as [_ <-]; auto|]. right. exists row. split_and!; [done| |].
  - rewrite (da_state _ _ _ Hd) in Hst. apply andb_false_iff in Hst as [Hst|Hst]; bool_norm; auto.
  - eapply update_rows; [done| |exact H]. unfold insert_intent_lifecycle, delete_status_failure. leaves.
Qed.

#[export] Instance leaves_read_rows id : Leaves local_intents (readLocalIntentOnConnection id) := _.

Lemma failure_rows m now id code : local_intents (snd (MarkAcceptedRemoteRunStatusFailure m now id code)) = local_intents m.
Proof. unfold MarkAcceptedRemoteRunStatusFailure. destruct (NewIntentID id); [|done]. destruct (negb _); [done|]. apply leaves_tx. leaves. Qed.
Lemma clear_rows m id : local_intents (snd (ClearAcceptedRemoteRunStatusFailure m id)) = local_intents m.
Proof. unfold ClearAcceptedRemoteRunStatusFailure, delete_status_failure. destruct (NewIntentID id); [|done]. apply leaves_tx. leaves. Qed.

(** ** Rewriting one row *)
Lemma closed_move st next : delivery_move st next -> closed st -> closed next.
Proof. intros [H|[-> ->]] Hc; [|done]. unfold closed in *. destruct Hc as [-> |[-> | ->]]; cbn in H; bool_norm; auto; done. Qed.

Section watched_steps.
Context {W : Watched}.

Lemma same_rows_inv d m : driver_inv d -> intents_inv m -> local_intents m = intents_of d ->
  driver_inv (with_mirror m d) /\ calm d (with_mirror m d).
Proof.
  intros [H1 H2 H3 H4 H5 H6] Hm E. assert (calm d (with_mirror m d)) as Hc by (constructor; cbn; rewrite ?E; done).
  split; [|done]. constructor; [..|by apply (watch_calm _ _ Hc)]; cbn; rewrite ?E; done.
Qed.

Lemma set_row_inv d m id row row' : driver_inv d -> intents_inv m -> local_intents m = <[id := row']> (intents_of d) ->
  intents_of d !! id = Some row -> request_of row' = request_of row -> truthful (d_trace d) id row' ->
  (closed (li_delivery_state row) -> closed (li_delivery_state row')) -> driver_inv (with_mirror m d).
Proof.
  intros [H1 H2 H3 H4 H5 H6] Hm E Hrow Hreq Ht Hcl. constructor; cbn; try done.
  - intros id' r. rewrite E. intros [[<- <-]|[_ Hr]]%lookup_insert_Some; [|by eapply H2].
    apply resource_request in Hreq as (_ & -> & -> & _). by eapply H2.
  - intros id' r. rewrite E. intros [[<- <-]|[_ Hr]]%lookup_insert_Some; [done|by apply H3].
  - intros p f o Hin Hmut. destruct (H4 _ _ _ Hin Hmut) as (r & rec & Hr & Hd & Hf & Hp).
    destruct (decide (rq_RequestID f = id)) as [Hid|Hne].
    + rewrite Hid in *. assert (r = row) as -> by congruence. assert (local_intents m !! id = Some row') as Hrow' by (by rewrite E, lookup_insert_eq).
      destruct (ii_decodes _ Hm _ _ Hrow') as [rec' Hd'%decode_Ok]. exists row', rec'. split_and!; [done|done| |].
      * rewrite <- Hf. apply frame_request. by eapply decoded_request.
      * apply resource_request in Hreq as (_ & _ & _ & ->). done.
    + exists r, rec. split; [by rewrite E, lookup_insert_ne|done].
  - intros id' l Hl. destruct (H6 id' l Hl) as (Hs & r & Hr & Hc). split; [done|]. cbn. rewrite E.
    destruct (decide (id' = id)) as [->|Hne]; [|exists r; by rewrite lookup_insert_ne].
    assert (r = row) as -> by congruence. exists row'. by rewrite lookup_insert_eq; auto.
Qed.

Lemma proof_inv d m now id reason r : driver_inv d -> MarkRemoteIntentTerminalProof (d_mirror d) now id reason = (r, m) ->
  driver_inv (with_mirror m d).
Proof.
  intros Hinv H. apply proof_rows in H as [Hm [E|(row & Hrow & Hst & E)]]; [by apply same_rows_inv| |apply Hinv].
  apply (set_row_inv _ _ id row (with_proof reason now row)); try done; [|intros _; right; by left]. pose proof (di_truth _ Hinv _ _ Hrow) as Ht.
  revert Ht. unfold truthful. cbn. destruct Hst as [-> | ->]; done.
Qed.

(** ** Rules for computations *)
Section rules.
Context {A B : Type} (P : RemoteDriver -> Prop).

Lemma triple_ret (a : A) (R : A -> RemoteDriver -> Prop) : (forall d, P d -> R a d) -> triple P (mret a) R.
Proof. intros H d Hd HP. split; [done|]. intros b [= <-]. by apply H. Qed.
Lemma triple_throw e (R : A -> RemoteDriver -> Prop) : triple P (dthrow e) R.
Proof. by intros d Hd HP. Qed.
Lemma triple_lift (r : result A) : triple P (dlift r) (fun a d => P d /\ r = Ok a).
Proof. intros d Hd HP. split; [done|]. by intros a H. Qed.
Lemma triple_fail b e : triple P (dfail_if b e) (fun _ d => P d /\ b = false).
Proof. destruct b; intros d Hd HP; (split; [done|]); by intros a H. Qed.
Lemma triple_get (f : RemoteDriver -> A) : triple P (dget f) (fun _ d => P d).
Proof. by intros d Hd HP. Qed.
Lemma triple_bind (m : drv A) (k : A -> drv B) R S : triple P m R -> (forall a, triple (R a) (k a) S) -> triple P (mbind k m) S.
Proof.
  intros Hm Hk d Hd HP. unfold mbind, drv_bind. destruct (Hm d Hd HP) as [Hinv HR]. destruct (m d) as [[a|e] d']; cbn [fst snd] in *.
  - apply Hk; [done|by apply HR].
  - split; [done|]. by intros b H.
Qed.
Lemma triple_conseq (m : drv A) (Q : RemoteDriver -> Prop) R S : triple Q m R -> (forall d, driver_inv d -> P d -> Q d) ->
  (forall a d, driver_inv d -> R a d -> S a d) -> triple P m S.
Proof. intros Hm HPQ HRS d Hd HP. destruct (Hm d Hd (HPQ d Hd HP)) as [Hinv H]. split; [done|]. intros a Ha. by apply HRS, H. Qed.
Lemma triple_quiet (m : drv A) : quiet m -> Stable P -> triple P m (fun _ => P).
Proof. intros Hm HP d Hd H. destruct (Hm d Hd) as [Hinv Hc]. split; [done|]. intros a _. by eapply HP. Qed.
Lemma triple_attempt (m : drv A) R : triple P m R -> safe P (attempt m).
Proof. intros Hm d Hd HP. unfold attempt. destruct (Hm d Hd HP) as [Hinv _]. by destruct (m d). Qed.
Lemma triple_attempt_quiet (m : drv A) R : quiet m -> Stable P -> triple P m R ->
  triple P (attempt m) (fun r d => P d /\ forall a, r = Ok a -> R a d).
Proof.
  intros Hq HP Hm d Hd H. destruct (Hq d Hd) as [Hinv Hc]. destruct (Hm d Hd H) as [_ HR]. unfold attempt.
  destruct (m d) as [r d']; cbn [fst snd] in *. split; [done|]. intros a [= <-]. split; [by eapply HP|done].
Qed.
End rules.

Lemma safe_weaken {A} (P : RemoteDriver -> Prop) (m : drv A) R : triple P m R -> safe P m.
Proof. intros H. by eapply triple_conseq. Qed.
Lemma safe_pre {A} (P Q : RemoteDriver -> Prop) (m : drv A) R : triple Q m R -> (forall d, driver_inv d -> P d -> Q d) -> triple P m R.
Proof. intros H HP. by eapply triple_conseq. Qed.

#[export] Instance stable_and P Q : Stable P -> Stable Q -> Stable (fun d => P d /\ Q d).
Proof. intros HP HQ d d' Hc [H1 H2]. split; [by eapply HP|by eapply HQ]. Qed.
#[export] Instance stable_pure (p : Prop) : Stable (fun _ => p).
Proof. by intros d d' _ H. Qed.

#[export] Instance stable_forall {A} (P : A -> RemoteDriver -> Prop) : (forall a, Stable (P a)) -> Stable (fun d => forall a, P a d).
Proof. intros HP d d' Hc H a. by eapply HP. Qed.
#[export] Instance stable_impl (p : Prop) P : Stable P -> Stable (fun d => p -> P d).
Proof. intros HP d d' Hc H Hp. eapply HP; [done|by apply H]. Qed.

(** ** What is known of an intent *)

(** The record is what the store has. *)
Definition current (rec : LocalIntentRecord) (d : RemoteDriver) : Prop :=
  exists r, intents_of d !! lic_IntentID (lir_create rec) = Some r /\ decoded_as (lic_IntentID (lir_create rec)) r rec.

(** The request of the record is in flight. *)
Definition in_flight (rec : LocalIntentRecord) (d : RemoteDriver) : Prop :=
  let id := lic_IntentID (lir_create rec) in
  exists r0 r, decoded_as id r0 rec /\ intents_of d !! id = Some r /\ request_of r = request_of r0 /\
    (li_delivery_state r = LocalIntentDispatching \/ li_delivery_state r = LocalIntentUncertain).

Definition unsent (id : string) (d : RemoteDriver) : Prop := sends id (d_trace d) = [].
Definition said (p : string) (frame : RequestFrame) (outcome : CallOutcome) (d : RemoteDriver) : Prop :=
  Called p frame outcome ∈ d_trace d /\
  (is_mutation (rq_Operation frame) = true -> last (sends (rq_RequestID frame) (d_trace d)) = Some outcome).

#[export] Instance stable_current rec : Stable (current rec).
Proof. intros d d' Hc (r & Hr & Hd). exists r. split; [by apply Hc|done]. Qed.
#[export] Instance stable_in_flight rec : Stable (in_flight rec).
Proof. intros d d' Hc (r0 & r & Hd & Hr & H). exists r0, r. split_and!; try done; [by apply Hc|apply H..]. Qed.
#[export] Instance stable_unsent id : Stable (unsent id).
Proof. intros d d' Hc H. unfold unsent. by rewrite (ca_sends _ _ Hc). Qed.
#[export] Instance stable_said p frame outcome : Stable (said p frame outcome).
Proof.
  intros d d' Hc [H1 H2]. split; [|by rewrite (ca_sends _ _ Hc)]. destruct (ca_trace _ _ Hc) as [l ->]. apply elem_of_app. by left.
Qed.
#[export] Instance stable_answered p P : Stable (fun d => answered p P (d_trace d)).
Proof. intros d d' Hc H. eapply answered_mono; [apply Hc|done]. Qed.

Lemma current_unsent rec d : driver_inv d -> current rec d -> is_state rec LocalIntentRecorded = true -> unsent (lic_IntentID (lir_create rec)) d.
Proof.
  intros Hinv (r & Hr & Hd) Hst. unfold is_state in Hst. bool_norm. rewrite (da_state _ _ _ Hd) in Hst.
  pose proof (di_truth _ Hinv _ _ Hr) as Ht. unfold truthful in Ht. by rewrite Hst in Ht.
Qed.

Lemma current_in_flight rec d : current rec d ->
  is_state rec LocalIntentDispatching = true \/ is_state rec LocalIntentUncertain = true -> in_flight rec d.
Proof.
  intros (r & Hr & Hd) Hst. exists r, r. split_and!; try done. rewrite <- (da_state _ _ _ Hd). unfold is_state in Hst. destruct Hst; bool_norm; auto.
Qed.

(** What a delivery state must be based on. *)
Definition justified (next : LocalIntentDeliveryState) (id : string) (d : RemoteDriver) : Prop :=
  match next with
  | LocalIntentNotDelivered => forall outcome, last (sends id (d_trace d)) = Some outcome -> refusal outcome
  | LocalIntentAccepted | LocalIntentReconciled => exists r, intents_of d !! id = Some r /\ acknowledged (d_trace d) r
  | LocalIntentDispatching | LocalIntentUncertain => True
  | _ => False
  end.

Lemma unsent_refused id d : unsent id d -> justified LocalIntentNotDelivered id d.
Proof. intros H o. unfold unsent in H. by rewrite H. Qed.

(** ** Steps of the store *)
Section steps.
Context (w : World) (Hw : records_requests w).
Notation quiet_here := (quiet_read w Hw).

Lemma newest_first_elem x rows : x ∈ newest_first rows <-> x ∈ rows.
Proof. unfold newest_first. by rewrite <- Permutation_rev, merge_sort_Permutation. Qed.

Lemma GetLocalIntent_Ok m id rec : GetLocalIntent m id = Ok rec ->
  lic_IntentID (lir_create rec) = id /\ exists r, local_intents m !! id = Some r /\ decoded_as id r rec.
Proof.
  unfold GetLocalIntent. intros (i & [-> _]%result_map_err_Ok%NewIntentID_Ok & H)%result_bind_Ok. unfold withMirrorRead in H.
  destruct (readLocalIntentOnConnection id m) as [[rec' m']|] eqn:E; [|done]. injection H as <-.
  apply readIntent_Ok in E as (_ & r & Hr & Hd%decode_Ok). split; [apply Hd|]. by exists r.
Qed.

Lemma ByResource_Ok m op rid ctl rec : GetLocalIntentByResource m op rid ctl = Ok rec ->
  exists r, local_intents m !! lic_IntentID (lir_create rec) = Some r /\ decoded_as (lic_IntentID (lir_create rec)) r rec /\
    li_operation r = op /\ li_resource_id r = rid.
Proof.
  unfold GetLocalIntentByResource. intros H. apply refuse_if_bind in H as [_ H]. apply result_bind_Ok in H as (? & _ & H).
  unfold withMirrorRead in H. match type of H with match ?x with _ => _ end = _ => destruct x as [[rec' m']|] eqn:E; [|done] end. injection H as <-.
  rewrite query_bind in E. apply stx_bind_Ok in E as ([i row] & m1 & [Hh <-]%or_fail_Ok & E). cbn [fst] in E.
  apply stx_bind_Ok in E as (i' & m1 & [[-> _]%result_map_err_Ok%NewIntentID_Ok <-]%lift_Ok & E).
  apply readIntent_Ok in E as (_ & r & Hr & Hd%decode_Ok). rewrite (da_id _ _ _ Hd). exists r.
  apply head_Some_elem_of in Hh. rewrite newest_first_elem in Hh.
  unfold select_intents, rows_where in Hh. apply elem_of_map_to_list, map_lookup_filter_Some in Hh as [Hrow Hp]. cbn [fst snd] in *.
  rewrite Hr in Hrow. injection Hrow as <-. bool_norm. done.
Qed.

Lemma triple_read {A} P (f : Mirror -> Z -> result A) (R : A -> Mirror -> Prop) : Stable P ->
  (forall m now a, f m now = Ok a -> R a m) -> triple P (store_read w f) (fun a d => P d /\ R a (d_mirror d)).
Proof.
  intros HP Hf d Hd H. destruct (quiet_read w Hw f d Hd) as [Hinv Hc]. split; [done|]. intros a Ha. split; [by eapply HP|].
  unfold store_read in *. cbn [fst snd] in *. by eapply Hf.
Qed.

Lemma get_intent P id : Stable P -> triple P (getLocalIntent w id) (fun rec d => P d /\ current rec d /\ lic_IntentID (lir_create rec) = id).
Proof.
  intros HP. eapply triple_conseq; [|done|].
  - apply (triple_read P _ (fun rec m => lic_IntentID (lir_create rec) = id /\ exists r, local_intents m !! id = Some r /\ decoded_as id r rec)); [done|].
    intros m now rec. apply GetLocalIntent_Ok.
  - intros rec d _ (H & Hid & Hr). split_and!; [done| |done]. unfold current. by rewrite Hid.
Qed.

(** The record is the one of a resource. *)
Definition found (op rid : string) (rec : LocalIntentRecord) (d : RemoteDriver) : Prop :=
  exists r, intents_of d !! lic_IntentID (lir_create rec) = Some r /\ decoded_as (lic_IntentID (lir_create rec)) r rec /\
    li_operation r = op /\ li_resource_id r = rid.
#[export] Instance stable_found op rid rec : Stable (found op rid rec).
Proof. intros d d' Hc (r & Hr & H). exists r. split; [by apply Hc|done]. Qed.
Lemma found_current op rid rec d : found op rid rec d -> current rec d.
Proof. intros (r & Hr & Hd & _). by exists r. Qed.

Lemma get_by_resource P op rid ctl : Stable P -> triple P (getByResource w op rid ctl) (fun rec d => P d /\ found op rid rec d).
Proof.
  intros HP. apply (triple_read P _ (fun rec m => exists r, local_intents m !! lic_IntentID (lir_create rec) = Some r /\
    decoded_as (lic_IntentID (lir_create rec)) r rec /\ li_operation r = op /\ li_resource_id r = rid)); [done|].
  intros m now rec. apply ByResource_Ok.
Qed.

Lemma find_by_resource P op rid ctl : Stable P ->
  triple P (findByResource w op rid ctl) (fun o d => P d /\ forall rec, o = Some rec -> found op rid rec d).
Proof.
  intros HP. eapply triple_bind; [apply triple_attempt_quiet; [apply (quiet_read w Hw)|done|by apply get_by_resource]|].
  intros [rec|e]; cbn beta.
  - apply triple_ret. intros d [H1 H2]. split; [done|]. intros rec' [= <-]. by apply (H2 rec).
  - destruct (errors_is _ _); [|apply triple_throw]. apply triple_ret. intros d [H1 H2]. by split.
Qed.

(** *** Transitions *)
Lemma truthful_state next id reason now row d : justified next id d -> intents_of d !! id = Some row ->
  truthful (d_trace d) id (with_state next reason now row).
Proof.
  intros Hj Hrow. unfold truthful, justified in *. cbn [with_state with_delivery li_delivery_state].
  destruct next; try done; destruct Hj as (r & Hr & Ha); assert (r = row) as -> by congruence; exact Ha.
Qed.

Lemma transition_step P id next reason : Stable P -> (forall d, driver_inv d -> P d -> justified next id d) ->
  triple P (transition w id next reason) (fun rec d => lic_IntentID (lir_create rec) = id /\ exists d0, P d0 /\ d_trace d = d_trace d0).
Proof.
  intros HP Hj d Hd H. unfold transition, store_write. destruct (interfere_inv w Hw d Hd) as (Hinv & Hc & _). apply (HP _ _ Hc) in H.
  set (d1 := interfere w d) in *. clearbody d1. destruct (TransitionLocalIntent _ _ _ _ _) as [r m] eqn:E.
  apply transition_rows in E as (Hm & Hrows & Hrec); [|apply Hinv]. cbn [fst snd]. split.
  - destruct Hrows as [Hrows|(row & Hrow & Hmv & Hrows)]; [by apply same_rows_inv|].
    eapply (set_row_inv _ _ id row); try done; [by apply truthful_state; [apply Hj|]|]. by apply closed_move.
  - intros rec ->. destruct (Hrec rec eq_refl) as [Hid _]. split; [done|]. by exists d1.
Qed.

Lemma transition_safe P id next reason : Stable P -> (forall d, driver_inv d -> P d -> justified next id d) ->
  triple P (transition w id next reason) (fun rec _ => lic_IntentID (lir_create rec) = id).
Proof. intros HP Hj. eapply triple_conseq; [by apply transition_step|done|]. by intros rec d _ [H _]. Qed.

Lemma transition_unsent id0 id next reason : (forall d, driver_inv d -> unsent id d -> justified next id d) ->
  triple (fun d => unsent id0 d /\ unsent id d) (transition w id next reason) (fun _ => unsent id0).
Proof.
  intros Hj. eapply triple_conseq; [apply (transition_step (fun d => unsent id0 d /\ unsent id d)); [apply _|]|done|].
  - intros d Hd [_ H]. by apply Hj.
  - intros rec d _ (_ & d0 & [H _] & Ht). unfold unsent. by rewrite Ht.
Qed.

Lemma supersede_safe id reason : triple (unsent id) (supersede w id reason) (fun _ _ => False).
Proof.
  eapply triple_bind; [apply transition_safe; [apply _|]|intros rec; apply triple_throw]. intros d _. apply unsent_refused.
Qed.

Lemma quiet_proof_safe P id reason : safe P (markTerminalProof w id reason).
Proof.
  intros d Hd H. unfold markTerminalProof, store_write. destruct (interfere_inv w Hw d Hd) as (Hinv & _).
  destruct (MarkRemoteIntentTerminalProof _ _ _ _) as [r m] eqn:E. split; [|done]. cbn [snd]. by eapply proof_inv.
Qed.

(** *** Claims *)
Lemma claim_flies intent P owner duration : Stable P ->
  triple (fun d => P d /\ current intent d)
    (store_write w (fun m now => ClaimLocalIntent m now (lic_IntentID (lir_create intent)) owner duration))
    (fun claimed d => lic_IntentID (lir_create claimed) = lic_IntentID (lir_create intent) /\ in_flight intent d).
Proof.
  intros HP d Hd [H Hcur]. unfold store_write. destruct (interfere_inv w Hw d Hd) as (Hinv & Hc & _). apply (stable_current _ _ _ Hc) in Hcur.
  set (d1 := interfere w d) in *. clearbody d1. destruct (ClaimLocalIntent _ _ _ _ _) as [r m] eqn:E.
  apply claim_rows in E as [Hm Hr]; [|apply Hinv]. cbn [fst snd]. destruct r as [claimed|e].
  2: { subst m. split; [|done]. by apply same_rows_inv. }
  destruct Hr as (Hid & row & Hrow & Hst & Hrows). destruct Hcur as (r & Hr & Hdec). assert (r = row) as -> by congruence.
  assert (request_of (with_claim owner duration (w_now w (d_ticks d)) row) = request_of row) as Hreq by (unfold with_claim; by case_bool_decide).
  assert (li_delivery_state (with_claim owner duration (w_now w (d_ticks d)) row) = LocalIntentDispatching) as Hnew
    by (unfold with_claim; by rewrite bool_decide_eq_true_2).
  split.
  - eapply set_row_inv; try done; [unfold truthful; by rewrite Hnew|]. rewrite Hst. by intros [?|[?|?]].
  - intros ? [= <-]. split; [done|]. eexists row, _. split_and!; [done| |exact Hreq|by left]. cbn. by rewrite Hrows, lookup_insert_eq.
Qed.

(** *** Sending a mutation *)
Lemma send_step intent frame P p : Stable P -> frameForRemoteIntent intent = Ok frame -> p = target_profile (lic_Target (lir_create intent)) ->
  triple (fun d => P d /\ in_flight intent d) (call w p frame)
    (fun outcome d => in_flight intent d /\ said p frame outcome d).
Proof.
  intros HP Hf -> d Hd [_ Hfl]. unfold call. cbn [fst snd]. set (p := target_profile _). set (out := w_call w (d_trace d) p frame).
  destruct (frame_fields _ _ Hf) as [Hid Hmut]. pose proof Hfl as (r0 & r & Hdec & Hr & Hreq & Hst).
  assert (forall id, id <> rq_RequestID frame -> sends id (d_trace d ++ [Called p frame out]) = sends id (d_trace d)) as Hother.
  { intros id Hne. rewrite sends_app. cbn. rewrite bool_decide_eq_false_2 by done. rewrite andb_false_r. by rewrite app_nil_r. }
  assert (d_trace d `prefix_of` d_trace d ++ [Called p frame out]) as Hp by by eexists. destruct Hd as [H1 H2 H3 H4 H5 H6].
  split; [constructor; cbn; try done|].
  - intros id r' Hr'. destruct (decide (id = rq_RequestID frame)) as [->|Hne].
    + rewrite Hid, Hr in Hr'. injection Hr' as <-. unfold truthful. by destruct Hst as [-> | ->].
    + eapply truthful_mono; [done|by apply Hother|by apply H3].
  - intros p' f' o' [Hin|Hin%list_elem_of_singleton]%elem_of_app Hmut'; [by eauto|]. injection Hin as -> -> ->.
    destruct (ii_decodes _ H1 _ _ Hr) as [rec' Hd'%decode_Ok]. rewrite Hid. exists r, rec'. split_and!; [done|done| |].
    + rewrite <- Hf. apply frame_request. by eapply decoded_request.
    + apply resource_request in Hreq as (_ & _ & _ & ->). subst p. by rewrite (da_target _ _ _ Hdec).
  - intros p' session st Hcs. eapply answered_mono; [done|by eapply H5].
  - intros id l Hl. destruct (H6 id l Hl) as (Hs & r1 & Hr1 & Hcl). split; [|by exists r1].
    cbn [d_trace with_said]. rewrite Hother; [done|]. intros ->. rewrite Hid, Hr in Hr1. injection Hr1 as <-.
    destruct Hst as [Hst|Hst], Hcl as [Hcl|[Hcl|Hcl]]; congruence.
  - intros a [= <-]. split; [by exists r0, r|]. split; [apply elem_of_app; right; by apply list_elem_of_singleton|].
    intros _. cbn [d_trace with_said]. rewrite sends_app. cbn. rewrite Hmut, bool_decide_eq_true_2 by done. cbn. by rewrite last_snoc.
Qed.
End steps.
End watched_steps.
