(* ===== verification/DispatchRuns.v ===== *)
(** * The operations of a dispatcher keep its invariant

    Every operation of the remote dispatcher, composed of the steps of
    [DispatchSteps]. *)
From stdpp Require Import relations.
From Stdlib Require Import String.
From S2P Require Import Prelude GoStrings Identity Lifecycle Policy JsonText Canonical RunPayload LaneAdmission AuditRecords Db.
From S2P Require Import AuditStore AdmissionStore Idempotency Sessions Commands.
From S2P Require Import RemoteDb RemoteProjections RemoteEvents RemoteUpserts LocalIntents LocalIntentOps.
From S2P Require Import BridgeJson RemoteReplies RemoteReads Dispatcher Reconciliation.
From S2P Require Import IntentSteps IntentRefinement IntentTheorems Footprints DispatchInvariant DispatchSteps.

(** ** What a validated reply proves *)
Lemma from_option_Ok {A} (o : option A) e a : from_option Ok (Err e) o = Ok a <-> o = Some a.
Proof. destruct o; cbn; split; congruence. Qed.

Lemma other_reply_false frame reply : other_reply frame reply = false -> rp_RequestID reply = rq_RequestID frame.
Proof. unfold other_reply. intros H. by bool_norm. Qed.

Lemma result_says reply object field value : rp_ResponseType reply = "result" -> payload_object (rp_Payload reply) = Some object ->
  string_is object field value = true -> says field value reply.
Proof. intros H1 H2 H3. split; [done|]. by exists object. Qed.

Lemma require_string_Ok e object name want u : require_string e object name want = Ok u -> string_is object name want = true.
Proof. unfold require_string. intros [_ H]%refuse_if_Ok. by bool_norm. Qed.

Lemma readReply_Ok create frame reply state : validateRemoteSessionReadReply create frame reply = Ok state ->
  rp_RequestID reply = rq_RequestID frame /\ says "session_id" (lic_SessionID (lir_create create)) reply /\
  remoteSessionStateFromResult (rp_Payload reply) = Ok (Some state).
Proof.
  unfold validateRemoteSessionReadReply. cbv zeta. intros H. apply refuse_if_bind in H as [Ho%other_reply_false H].
  case_bool_decide; [by apply result_bind_Ok in H as (? & _ & H)|]. apply refuse_if_bind in H as [Ht H].
  apply result_bind_Ok in H as (object & Hobj%from_option_Ok & H). apply unit_bind_Ok in H as [Hs%require_string_Ok H].
  apply unit_bind_Ok in H as [_ H]. apply unit_bind_Ok in H as [_ H].
  apply result_bind_Ok in H as (o & Hst%result_map_err_Ok & ->%from_option_Ok). bool_norm. split_and!; [done|by eapply result_says|done].
Qed.

Lemma validateReply_Ok intent frame reply u : validateRemoteReply intent frame reply = Ok u ->
  rp_RequestID reply = rq_RequestID frame /\
  says (resource_field (lic_Operation (lir_create intent))) (lic_ResourceID (lir_create intent)) reply.
Proof.
  unfold validateRemoteReply. cbv zeta. intros H. apply refuse_if_bind in H as [Ho%other_reply_false H]. split; [done|].
  case_bool_decide; [by apply result_bind_Ok in H as (? & _ & H)|]. apply refuse_if_bind in H as [Ht H].
  apply result_bind_Ok in H as (object & Hobj%from_option_Ok & H). apply refuse_if_bind in H as [Hs H]. bool_norm. by eapply result_says.
Qed.

Lemma validateReply_rejected intent frame reply e : validateRemoteReply intent frame reply = Err e -> errors_is e ErrRemoteRejected = true ->
  refusal (Replied reply).
Proof.
  unfold validateRemoteReply. cbv zeta. destruct (other_reply frame reply); [by intros [= <-]|]. cbn [refuse_if mbind result_bind].
  case_bool_decide as Ht.
  - destruct (decodeErrorPayload true (rp_Payload reply)) as [p|] eqn:Ep; [|by intros [= <-]]. cbn [from_option mbind result_bind].
    intros [= <-] He. split; [done|]. exists p. split; [done|]. by case_bool_decide.
  - repeat first [done | case_bool_decide; cbn [refuse_if negb mbind result_bind] | intros [= <-]
      | match goal with |- context [from_option _ _ ?o] => destruct o; cbn [from_option mbind result_bind] end
      | match goal with |- context [refuse_if ?b _] => destruct b; cbn [refuse_if mbind result_bind] end].
Qed.

(** The resource that a record is about. *)
Definition record_own_id (rec : LocalIntentRecord) : string :=
  let c := lir_create rec in
  if is_op (lic_Operation c) operationCreateSession || is_op (lic_Operation c) operationCloseSession then lic_SessionID c
  else if is_op (lic_Operation c) operationSubmitCommand || is_op (lic_Operation c) operationCancelCommand then lic_CommandID c
  else lic_JobID c.

Lemma decoded_own id r rec : decoded_as id r rec -> record_own_id rec = own_id r.
Proof. intros H. unfold record_own_id, own_id. cbv zeta. by rewrite (da_operation _ _ _ H), (da_session _ _ _ H), (da_command _ _ _ H), (da_job _ _ _ H). Qed.

Lemma reconciled_reply_Ok intent frame reply : reconcileRemoteReply intent frame reply = Ok reconcileAccepted ->
  rp_RequestID reply = rq_RequestID frame /\ says (resource_field (lic_Operation (lir_create intent))) (record_own_id intent) reply.
Proof.
  unfold reconcileRemoteReply. intros H. apply refuse_if_bind in H as [Ho%other_reply_false H]. split; [done|].
  case_bool_decide; [apply result_bind_Ok in H as (? & _ & H); by destruct (bool_decide _)|]. apply refuse_if_bind in H as [Ht H].
  apply result_bind_Ok in H as (object & Hobj%from_option_Ok & H). apply unit_bind_Ok in H as [Hv _]. bool_norm.
  eapply result_says; [done|done|]. unfold validateReconciledResource in Hv. cbv zeta in Hv. unfold resource_field, record_own_id. cbv zeta.
  unfold operationCreateSession, operationCloseSession, operationSubmitCommand, operationCancelCommand, operationRun in *.
  repeat case_bool_decide; cbn [orb]; try done; try congruence;
    first [by eapply require_string_Ok | by apply unit_bind_Ok in Hv as [Hv%require_string_Ok _] ].
Qed.

Lemma strict_command intent object p : strictRemoteCommandProjectionFromReadReply intent object = Ok p ->
  string_is object "command_id" (lic_CommandID (lir_create intent)) = true.
Proof.
  unfold strictRemoteCommandProjectionFromReadReply. cbv zeta. intros H. apply unit_bind_Ok in H as [_ H]. apply unit_bind_Ok in H as [H _].
  unfold requireProjectionIdentity in H. apply result_bind_Ok in H as (actual & Ha & H). apply refuse_if_Ok in H as [_ H]. bool_norm. subst actual.
  unfold require_present in Ha. apply result_bind_Ok in Ha as (o & Ho & ->%from_option_Ok). unfold readProjectionString in Ho. unfold string_is.
  destruct (member object "command_id") as [value|]; [|done]. destruct (Unmarshal_string "" value) as [text|]; [|done].
  destruct (is_empty _); [done|]. injection Ho as ->. by apply bool_decide_eq_true.
Qed.

(** ** Quiet operations *)
Section operations.
Context {W : Watched} (w : World) (Hw : records_requests w).

Ltac quiet_step :=
  first [ match goal with
          | |- quiet (clock _) => exact (quiet_clock w Hw)
          | |- quiet (store_read _ _) => apply (quiet_read w Hw)
          | |- quiet (stream _ _ _) => apply quiet_stream
          | |- quiet (mret _) => apply quiet_ret
          | |- quiet (dthrow _) => apply quiet_throw
          | |- quiet (dlift _) => apply quiet_lift
          | |- quiet (dget _) => apply quiet_get
          | |- quiet (dfail_if _ _) => apply quiet_fail
          | |- quiet (attempt _) => apply quiet_attempt
          | |- quiet (map_err _ _) => apply quiet_map_err
          | |- quiet (mbind _ _) => apply quiet_bind
          | |- quiet (store_write _ _) => apply (quiet_write w Hw); intros; first [apply upsert_session_intents | apply upsert_command_intents
              | apply upsert_job_intents | apply stale_command_intents | apply record_gap_intents | apply mirror_events_intents]
          | |- quiet (callOrFail _ _ _ _) => apply quiet_call_or_fail; reflexivity
          | |- quiet (match ?x with _ => _ end) => destruct x
          | |- quiet (if ?x then _ else _) => destruct x
          | |- quiet (let _ := _ in _) => cbv zeta
          end
        | eassumption ].
Ltac quiet := repeat first [progress intros | quiet_step].

Lemma quiet_upsert intent reply : quiet (upsertRemoteProjectionFromReply w intent reply).
Proof. unfold upsertRemoteProjectionFromReply. quiet. Qed.
Lemma quiet_retry_window intent : quiet (ensureRemoteRetryWindow w intent).
Proof. unfold ensureRemoteRetryWindow. quiet. Qed.
Lemma quiet_uncertainty intent : quiet (uncertaintyDeadline w intent).
Proof. unfold uncertaintyDeadline. quiet. Qed.
Lemma quiet_find op rid ctl : quiet (findByResource w op rid ctl).
Proof. unfold findByResource, getByResource. quiet. Qed.

(** A reply that was heard on a profile. *)
Definition heard (p : string) (reply : ReplyFrame) (d : RemoteDriver) : Prop :=
  exists frame, Called p frame (Replied reply) ∈ d_trace d /\ rp_RequestID reply = rq_RequestID frame.
#[export] Instance stable_heard p reply : Stable (heard p reply).
Proof. intros d d' Hc (f & Hin & H). exists f. split; [|done]. destruct (ca_trace _ _ Hc) as [l ->]. apply elem_of_app. by left. Qed.

Definition calmly {A} (P : RemoteDriver -> Prop) (m : drv A) : Prop :=
  forall d, driver_inv d -> P d -> driver_inv (snd (m d)) /\ calm d (snd (m d)).

Lemma remember_calm target session state reply :
  says "session_id" session reply -> remoteSessionStateFromResult (rp_Payload reply) = Ok (Some state) ->
  calmly (heard (target_profile target) reply) (rememberRemoteSessionState target session state).
Proof.
  intros Hs Hst d [H1 H2 H3 H4 H5 H6] (f & Hin & Hid). split; [|by constructor]. constructor; cbn; try done.
  intros p s st [[[= <- <-] <-]|[_ H]]%lookup_insert_Some; [|by eapply H5]. by exists (target_profile target), f, reply.
Qed.

Lemma observe_calm intent reply : says "session_id" (lic_SessionID (lir_create intent)) reply ->
  calmly (heard (target_profile (lic_Target (lir_create intent))) reply) (observeRemoteSessionState intent reply).
Proof.
  intros Hs d Hd Hh. unfold observeRemoteSessionState, mbind, drv_bind, dlift.
  destruct (remoteSessionStateFromResult (rp_Payload reply)) as [[state|]|] eqn:E; [|by split..]. by apply (remember_calm _ _ _ reply).
Qed.

Lemma calmly_triple {A} P (m : drv A) : Stable P -> calmly P m -> triple P m (fun _ => P).
Proof. intros HP Hm d Hd H. destruct (Hm d Hd H) as [Hinv Hc]. split; [done|]. intros a _. by eapply HP. Qed.

Lemma calmly_attempt {A} P (m : drv A) : calmly P m -> calmly P (attempt m).
Proof. intros Hm d Hd H. unfold attempt. specialize (Hm d Hd H). by destruct (m d). Qed.

Lemma quiet_calmly {A} P (m : drv A) : quiet m -> calmly P m.
Proof. intros Hm d Hd _. by apply Hm. Qed.
Lemma calmly_quiet {A} (m : drv A) : calmly (fun _ => True) m -> quiet m.
Proof. intros Hm d Hd. by apply Hm. Qed.
Lemma calmly_bind {A B} P (m : drv A) (k : A -> drv B) R : calmly P m -> triple P m R -> (forall a, calmly (R a) (k a)) -> calmly P (mbind k m).
Proof.
  intros Hm HR Hk d Hd H. unfold mbind, drv_bind. destruct (Hm d Hd H) as [Hinv Hc]. destruct (HR d Hd H) as [_ Ha].
  destruct (m d) as [[a|e] d1]; cbn [fst snd] in *; [|done]. destruct (Hk a d1 Hinv (Ha a eq_refl)) as [Hinv2 Hc2]. split; [done|by etrans].
Qed.
Lemma calmly_lift_bind {A B} P (r : result A) (k : A -> drv B) : (forall a, r = Ok a -> calmly P (k a)) -> calmly P (mbind k (dlift r)).
Proof. intros Hk d Hd H. unfold mbind, drv_bind, dlift. destruct r as [a|e]; [by apply Hk|done]. Qed.

Lemma heard_call P e p frame : Stable P -> is_mutation (rq_Operation frame) = false ->
  triple P (callOrFail w e p frame) (fun reply d => P d /\ said p frame (Replied reply) d).
Proof.
  intros HP Hq d Hd H. destruct (quiet_call_or_fail w e p frame Hq d Hd) as [Hinv Hc]. split; [done|]. intros reply Hr.
  split; [by eapply HP|]. unfold callOrFail, mbind, drv_bind, call in *. cbn in *.
  destruct (w_call w (d_trace d) p frame) as [reply'|b]; [|done]. injection Hr as ->. split; [|by rewrite Hq].
  apply elem_of_app. right. by apply list_elem_of_singleton.
Qed.

Lemma said_heard p frame reply d : said p frame (Replied reply) d -> rp_RequestID reply = rq_RequestID frame -> heard p reply d.
Proof. intros [H _] Hid. by exists frame. Qed.

Lemma quiet_refresh create : quiet (refreshRemoteSessionState w create).
Proof.
  apply calmly_quiet. unfold refreshRemoteSessionState. apply calmly_lift_bind. intros frame Hf%readiness_frame_quiet.
  apply calmly_lift_bind. intros _ _. eapply calmly_bind; [by apply quiet_calmly, quiet_call_or_fail|by apply heard_call; [apply _|]|].
  intros reply. apply calmly_lift_bind. intros state (Hid & Hs & Hst)%readReply_Ok. eapply (calmly_bind _ _ _ (fun _ _ => True)).
  - intros d Hd [_ Hsaid]. eapply (remember_calm _ _ _ reply); try done. by eapply said_heard.
  - intros d Hd [_ Hsaid]. split; [|done]. eapply (remember_calm _ _ _ reply); try done. by eapply said_heard.
  - intros _. apply quiet_calmly, quiet_ret.
Qed.

Lemma quiet_submit_ready intent : quiet (ensureRemoteSubmitReady w intent).
Proof.
  unfold ensureRemoteSubmitReady, ensureCreatedSessionReady, cachedRemoteSessionState, getByResource. quiet.
  all: apply quiet_refresh.
Qed.

Lemma quiet_next_read : quiet next_read.
Proof. intros d [H1 H2 H3 H4 H5 H6]. split; constructor; done. Qed.
Lemma quiet_read_object intent request : is_mutation (rq_Operation request) = false -> quiet (readRemoteProjectionObject w intent request).
Proof. intros Hq. unfold readRemoteProjectionObject. quiet. by apply quiet_call_or_fail. Qed.
Lemma quiet_refresh_command intent : quiet (refreshCommandProjectionForIntent w intent).
Proof. unfold refreshCommandProjectionForIntent. quiet. apply quiet_next_read. by apply quiet_read_object. Qed.
Lemma quiet_refresh_job intent : quiet (refreshJobProjectionForIntent w intent).
Proof. unfold refreshJobProjectionForIntent. quiet. apply quiet_next_read. by apply quiet_read_object. Qed.
Lemma quiet_gap_prefix id n p : quiet (validateRemoteEventGapPrefix w id n p).
Proof. unfold validateRemoteEventGapPrefix. quiet. Qed.
Lemma quiet_confirm id ctl n intent : quiet (confirmRemoteTerminal w id ctl n intent).
Proof. unfold confirmRemoteTerminal. quiet. by apply quiet_read_object. apply quiet_gap_prefix. Qed.
Lemma quiet_receive id rid s reply : quiet (receiveFrame w id rid s reply).
Proof. unfold receiveFrame. quiet. Qed.
Lemma quiet_frames id rid s frames : quiet (receiveFrames w id rid s frames).
Proof. revert s. induction frames as [|f frames IH]; intros s; cbn [receiveFrames]; quiet; [apply quiet_receive|apply IH]. Qed.
Lemma quiet_stale id : quiet (mark_command_stale w id).
Proof. unfold mark_command_stale. quiet. Qed.
Lemma quiet_boundary command : quiet (requireTerminalCommandEventBoundary w command).
Proof. unfold requireTerminalCommandEventBoundary. quiet. Qed.
Lemma quiet_recorded_gap id : quiet (recordedGap w id).
Proof. unfold recordedGap. quiet. Qed.
Lemma quiet_status_window intent : quiet (status_window_elapsed w intent).
Proof. unfold status_window_elapsed. quiet. Qed.
Lemma quiet_probe n profile : quiet (ProbeProfile w n profile).
Proof. unfold ProbeProfile. quiet. Qed.
Lemma quiet_refresh_session id ctl : quiet (RefreshSessionProjection w id ctl).
Proof.
  unfold RefreshSessionProjection, getByResource. apply quiet_bind; [quiet|intros v]. apply quiet_bind; [quiet|intros intent]. cbv zeta.
  apply quiet_bind; [quiet|intros _]. apply quiet_bind; [quiet|intros p]. apply calmly_quiet, calmly_lift_bind.
  intros frame Hf%readiness_frame_quiet. apply quiet_calmly. quiet. by apply quiet_call_or_fail.
Qed.

(** ** Controls recorded before delivery *)
Lemma never {A} P (m : drv A) R : triple P m (fun _ _ => False) -> triple P m R.
Proof. intros H. by eapply triple_conseq. Qed.

Lemma guard_control id predecessor predecessorReason reason P :
  triple (fun d => P d /\ unsent id d /\ forall p, predecessor = Some p -> current p d)
    (guardControl w id predecessor predecessorReason reason) (fun _ => P).
Proof.
  assert (forall Q : RemoteDriver -> Prop, (forall d, Q d -> unsent id d) -> triple Q (supersede w id reason) (fun _ => P)) as Hsup.
  { intros Q HQ. apply never. eapply safe_pre; [by apply supersede_safe|]. intros d _. apply HQ. }
  unfold guardControl. destruct predecessor as [p|]; [|apply Hsup; by intros d (_ & H & _)].
  destruct (is_state p LocalIntentRecorded) eqn:Est.
  - eapply triple_bind; [|intros rec; by apply (Hsup (unsent id))].
    eapply safe_pre; [apply (transition_unsent w Hw); intros d _; apply unsent_refused|].
    intros d Hd (_ & H & Hp). split; [done|]. by apply current_unsent; [|apply Hp|].
  - destruct (is_state p LocalIntentNotDelivered); [apply Hsup; by intros d (_ & H & _)|]. apply triple_ret. by intros d [H _].
Qed.

(** [Q] is what is known of the store when the intent is checked. *)
Section checks.
Context (intent : LocalIntentRecord) (Q : RemoteDriver -> Prop) {HQ : Stable Q} (Hcur : forall d, Q d -> current intent d).

Lemma guard_keeps : triple Q (guardRemoteIntentBeforeDelivery w intent) (fun _ => Q).
Proof.
  unfold guardRemoteIntentBeforeDelivery. cbv zeta. destruct (is_state intent LocalIntentRecorded) eqn:Est; cbn [negb]; [|by apply triple_ret].
  set (id := lic_IntentID (lir_create intent)).
  assert (forall (o : option LocalIntentRecord) op rid reason (k : drv unit),
    triple (fun d => Q d /\ forall rec, o = Some rec -> found op rid rec d) k (fun _ => Q) ->
    triple (fun d => Q d /\ forall rec, o = Some rec -> found op rid rec d)
      (if from_option activeControl false o then supersede w id reason else k) (fun _ => Q)) as Hctl.
  { intros o op rid reason k Hk. destruct (from_option activeControl false o); [|done]. apply never.
    eapply safe_pre; [by apply supersede_safe|]. intros d Hd [H _]. by apply current_unsent; [|apply Hcur|]. }
  assert (forall (o : option LocalIntentRecord) op rid r1 r2, triple (fun d => Q d /\ forall rec, o = Some rec -> found op rid rec d)
    (guardControl w id o r1 r2) (fun _ => Q)) as Hpre.
  { intros o op rid r1 r2. eapply safe_pre; [apply guard_control|]. intros d Hd [H Hf]. split_and!; [done|by apply current_unsent; [|apply Hcur|]|].
    intros p Hp. by eapply found_current, Hf. }
  assert (forall P, triple (fun d => Q d /\ P d) (mret () : drv unit) (fun _ => Q)) as Hret
    by (intros P; apply triple_ret; by intros d [H _]).
  repeat match goal with |- context [if is_op ?o ?c then _ else _] => destruct (is_op o c) end; [..|by apply triple_ret].
  - eapply triple_bind; [by apply (find_by_resource w Hw); apply _|]. intros close. apply Hctl, Hret.
  - eapply triple_bind; [by apply (find_by_resource w Hw); apply _|]. intros cancel. apply Hctl.
    eapply triple_bind; [eapply safe_pre; [apply (find_by_resource w Hw Q); apply _|by intros d _ [H _]]|].
    intros close. apply Hctl, Hret.
  - eapply triple_bind; [by apply (find_by_resource w Hw); apply _|]. intros submit. apply Hpre.
  - eapply triple_bind; [by apply (find_by_resource w Hw); apply _|]. intros create. apply Hpre.
Qed.

(** ** Checks before a claim *)
Lemma deadline_keeps : triple Q (checkDeadlineBeforeDispatch w intent) (fun _ => Q).
Proof.
  unfold checkDeadlineBeforeDispatch. destruct (is_state intent LocalIntentRecorded) eqn:Est; [|by apply triple_ret].
  eapply triple_bind; [apply triple_quiet; [apply quiet_attempt, quiet_retry_window|apply _]|]. intros [t|e]; cbn beta; [by apply triple_ret|].
  destruct (errors_is _ _); [|apply triple_throw]. eapply triple_bind; [|intros rec; apply triple_throw].
  apply (transition_safe w Hw); [apply _|]. intros d Hd H. by apply unsent_refused, current_unsent; [|apply Hcur|].
Qed.

Lemma ready_keeps (R : RemoteDriver -> Prop) : triple Q (ensureRemoteSubmitReady w intent) (fun _ => R) ->
  (lic_Operation (lir_create intent) <> operationSubmitCommand -> forall d, Q d -> R d) ->
  triple Q (checkSubmitReady w intent) (fun _ d => Q d /\ R d).
Proof.
  intros HR Hno. unfold checkSubmitReady. case_bool_decide; [|apply triple_ret; auto].
  eapply triple_bind; [apply triple_attempt_quiet; [apply quiet_submit_ready|apply _|exact HR]|].
  intros [[]|e]; cbn beta; [apply triple_ret; intros d [H1 H2]; split; [done|by apply (H2 tt)]|].
  destruct (errors_is _ _); [|apply triple_throw]. unfold markRemoteSubmitNotDelivered.
  destruct (is_state intent LocalIntentRecorded) eqn:Est; [|apply triple_throw]. eapply triple_bind; [|intros rec; apply triple_throw].
  eapply safe_pre; [apply (transition_safe w Hw Q); [apply _|]|by intros d _ [H' _]].
  intros d Hd H'. by apply unsent_refused, current_unsent; [|apply Hcur|].
Qed.
End checks.

(** ** The outcome of a mutation *)
Lemma settle_safe {A} P id next reason e (R : A -> RemoteDriver -> Prop) : Stable P ->
  (forall d, driver_inv d -> P d -> justified next id d) -> triple P (settle w id next reason e) R.
Proof. intros HP Hj. eapply triple_bind; [eapply triple_attempt, (transition_safe w Hw); [done|done]|]. intros r. apply triple_throw. Qed.

Lemma or_uncertain_keeps P id m : Stable P -> calmly P m -> triple P (or_uncertain w id m) (fun _ => P).
Proof.
  intros HP Hm. eapply triple_bind; [by apply calmly_triple, calmly_attempt|]. intros [u|e]; cbn beta; [by apply triple_ret|].
  by apply settle_safe.
Qed.

Lemma reply_accepts intent field value p frame reply d : driver_inv d -> in_flight intent d -> said p frame (Replied reply) d ->
  rp_RequestID reply = rq_RequestID frame -> says field value reply -> field = resource_field (lic_Operation (lir_create intent)) ->
  (value = lic_ResourceID (lir_create intent) \/ value = record_own_id intent) ->
  justified LocalIntentAccepted (lic_IntentID (lir_create intent)) d.
Proof.
  intros Hinv (r0 & r & Hd & Hr & Hreq & _) [Hin _] Hid Hs -> Hv. exists r. split; [done|]. exists p, frame, reply. split_and!; try done.
  pose proof (resource_request _ _ Hreq) as (E1 & E2 & E3 & _). rewrite E1, E2, <- (da_operation _ _ _ Hd).
  replace (li_resource_id r0) with value; [done|]. destruct Hv as [->| ->]; [by rewrite (da_resource _ _ _ Hd)|].
  rewrite (decoded_own _ _ _ Hd), <- E3, <- E2. by apply (di_own _ Hinv _ _ Hr).
Qed.

Lemma session_said intent value reply d : driver_inv d -> in_flight intent d ->
  says (resource_field (lic_Operation (lir_create intent))) value reply ->
  (value = lic_ResourceID (lir_create intent) \/ value = record_own_id intent) ->
  lic_Operation (lir_create intent) = operationCreateSession -> says "session_id" (lic_SessionID (lir_create intent)) reply.
Proof.
  intros Hinv (r0 & r & Hd & Hr & Hreq & _) Hs Hv Hop. rewrite Hop in Hs. cbn in Hs. replace (lic_SessionID (lir_create intent)) with value; [done|].
  assert (record_own_id intent = lic_SessionID (lir_create intent)) as Eo by (unfold record_own_id; cbv zeta; by rewrite Hop).
  destruct Hv as [->| ->]; [|done]. rewrite <- Eo, (decoded_own _ _ _ Hd), (da_resource _ _ _ Hd).
  pose proof (resource_request _ _ Hreq) as (_ & E2 & E3 & _). rewrite <- E3, <- E2. symmetry. by apply (di_own _ Hinv _ _ Hr).
Qed.

Lemma observe_if_create intent value p frame reply : p = target_profile (lic_Target (lir_create intent)) ->
  says (resource_field (lic_Operation (lir_create intent))) value reply -> rp_RequestID reply = rq_RequestID frame ->
  (value = lic_ResourceID (lir_create intent) \/ value = record_own_id intent) ->
  lic_Operation (lir_create intent) = operationCreateSession ->
  calmly (fun d => in_flight intent d /\ said p frame (Replied reply) d) (observeRemoteSessionState intent reply).
Proof.
  intros -> Hs Hid Hv Hop d Hd [Hf Hsaid]. apply observe_calm; [by eapply session_said|done|by eapply said_heard].
Qed.

Section outcome.
Context (intent : LocalIntentRecord) (frame : RequestFrame) (Hframe : frameForRemoteIntent intent = Ok frame).
Notation id := (lic_IntentID (lir_create intent)).
Notation p := (target_profile (lic_Target (lir_create intent))).
Notation sent outcome := (fun d => in_flight intent d /\ said p frame outcome d).

Lemma refused_justified outcome d : said p frame outcome d -> refusal outcome -> justified LocalIntentNotDelivered id d.
Proof.
  destruct (frame_fields _ _ Hframe) as [Hid Hmut]. intros [_ Hl] Hr o Ho. rewrite <- Hid, Hl in Ho by done. by injection Ho as <-.
Qed.

Lemma record_outcome outcome : safe (sent outcome) (recordOutcome w intent id frame outcome).
Proof.
  unfold recordOutcome. destruct outcome as [reply|before]; cbv iota.
  2: { destruct before; apply settle_safe; try apply _; [|done]. intros d _ [_ H]. by eapply refused_justified. }
  destruct (validateRemoteReply intent frame reply) as [u|e] eqn:Ev.
  2: { destruct (errors_is e ErrRemoteRejected) eqn:Ee; apply settle_safe; try apply _; [|done]. intros d _ [_ H].
       by eapply refused_justified, validateReply_rejected. }
  apply validateReply_Ok in Ev as [Hid Hs].
  eapply (triple_bind _ _ _ (fun _ => sent (Replied reply))).
  { case_bool_decide; [|by apply triple_ret]. apply or_uncertain_keeps; [apply _|]. eapply observe_if_create; eauto. }
  intros _. eapply (triple_bind _ _ _ (fun _ => sent (Replied reply))).
  { apply or_uncertain_keeps; [apply _|]. apply quiet_calmly, quiet_upsert. }
  intros _. eapply triple_bind; [|intros rec; by apply triple_ret]. apply (transition_safe w Hw); [apply _|].
  intros d Hd [Hf Hsaid]. eapply reply_accepts; eauto.
Qed.

Lemma send_or_fail e : triple (in_flight intent) (callOrFail w e p frame) (fun reply => sent (Replied reply)).
Proof.
  unfold callOrFail. eapply (triple_bind _ _ _ (fun outcome => sent outcome)).
  - eapply safe_pre; [by apply (send_step w intent frame (fun _ => True)); [apply _| |]|done].
  - intros [reply|b]; [by apply triple_ret|apply triple_throw].
Qed.

Lemma accept_after reply value reason : says (resource_field (lic_Operation (lir_create intent))) value reply ->
  rp_RequestID reply = rq_RequestID frame -> value = lic_ResourceID (lir_create intent) \/ value = record_own_id intent ->
  safe (sent (Replied reply)) (transition w id LocalIntentAccepted reason).
Proof.
  intros Hs Hid Hv. eapply safe_weaken, (transition_safe w Hw); [apply _|]. intros d Hd [Hf Hsaid]. by eapply reply_accepts.
Qed.
End outcome.

Lemma triple_lift_bind {A B} P (r : result A) (k : A -> drv B) S : (forall a, r = Ok a -> triple P (k a) S) -> triple P (mbind k (dlift r)) S.
Proof. intros Hk d Hd H. unfold mbind, drv_bind, dlift. destruct r as [a|e]; [by apply Hk|]. split; [done|]. by intros b Hb. Qed.

Lemma retry_safe intent : safe (in_flight intent) (retryRemoteIntent w intent).
Proof.
  unfold retryRemoteIntent. cbv zeta. apply triple_lift_bind. intros frame Hf. apply triple_lift_bind. intros _ _.
  eapply triple_bind; [by apply send_or_fail|]. intros reply. cbn beta.
  destruct (validateRemoteReply intent frame reply) as [u|e] eqn:Ev.
  2: { destruct (errors_is e ErrRemoteRejected) eqn:Ee; [|apply triple_throw]. eapply triple_bind; [|intros rec; apply triple_throw].
       apply (transition_safe w Hw); [apply _|]. intros d _ [_ H]. by eapply refused_justified, validateReply_rejected. }
  apply validateReply_Ok in Ev as [Hid Hs]. set (P := fun d => in_flight intent d /\ said _ frame (Replied reply) d).
  eapply (triple_bind P _ _ (fun _ => P)).
  { case_bool_decide; [|by apply triple_ret]. apply calmly_triple; [apply _|]. eapply observe_if_create; eauto. }
  intros _. eapply (triple_bind P _ _ (fun _ => P)); [apply triple_quiet; [apply quiet_upsert|apply _]|].
  intros _. eapply triple_bind; [eapply accept_after; eauto|]. intros rec. by apply triple_ret.
Qed.

(** ** Delivery and reconciliation *)
Lemma dispatch_safe id : safe (fun _ => True) (dispatchIntent w id).
Proof.
  unfold dispatchIntent. eapply triple_bind; [by apply (get_intent w Hw); apply _|]. intros intent. cbv zeta.
  apply triple_lift_bind. intros _ _. eapply triple_bind; [eapply safe_pre; [by apply (guard_keeps intent (current intent))|by intros d _ (_ & H & _)]|]. intros ?; cbn beta.
  eapply triple_bind; [by apply (deadline_keeps intent (current intent))|]. intros ?; cbn beta.
  eapply triple_bind; [apply (ready_keeps intent (current intent) ltac:(done) (fun _ => True)); [eapply safe_weaken, triple_quiet; [apply quiet_submit_ready|apply _]|done]|].
  intros ?; cbn beta.
  apply triple_lift_bind. intros frame Hf. eapply triple_bind; [apply triple_get|]. intros owner. eapply triple_bind; [apply triple_get|]. intros duration.
  eapply triple_bind; [eapply safe_pre; [apply (claim_flies w Hw intent (fun _ => True)); apply _|by intros d ? [H _]]|]. intros claimed.
  destruct (decide (lic_IntentID (lir_create claimed) = lic_IntentID (lir_create intent))) as [->|Hne].
  2: { intros d Hd [H _]. done. }
  eapply triple_bind; [eapply safe_pre; [by apply (send_step w intent frame (fun _ => True)); [apply _| |]|by intros d _ [_ H]]|].
  intros outcome. by apply record_outcome.
Qed.

Lemma reconcile_safe id : safe (fun _ => True) (ReconcileIntent w id).
Proof.
  unfold ReconcileIntent. eapply triple_bind; [by apply (get_intent w Hw); apply _|]. intros intent. cbv zeta.
  destruct (negb _ || _) eqn:Eg; [by apply triple_ret|]. apply orb_false_iff in Eg as [_ Eg].
  eapply safe_pre; [|intros d _ (_ & H & _); apply (current_in_flight _ _ H)].
  2: { apply andb_false_iff in Eg as [Eg|Eg]; bool_norm; auto. }
  eapply triple_bind; [apply triple_quiet; [apply quiet_uncertainty|apply _]|]. intros deadline.
  eapply triple_bind; [apply triple_quiet; [apply (quiet_clock w Hw)|apply _]|]. intros now.
  eapply triple_bind; [apply triple_quiet; [apply quiet_fail|apply _]|]. intros ?; cbn beta.
  apply triple_lift_bind. intros frame Hf%read_frame_quiet. apply triple_lift_bind. intros _ _.
  eapply triple_bind; [by apply heard_call; [apply _|]|]. intros reply. apply triple_lift_bind. intros [] Ho.
  - apply reconciled_reply_Ok in Ho as [Hid Hs]. set (P := fun d => in_flight intent d /\ said _ frame (Replied reply) d).
    eapply (triple_bind P _ _ (fun _ => P)); [apply triple_quiet; [apply quiet_upsert|apply _]|]. intros ?; cbn beta.
    eapply (triple_bind P _ _ (fun _ => P)).
    { case_bool_decide; [|by apply triple_ret]. apply calmly_triple; [apply _|]. eapply observe_if_create; eauto. }
    intros ?; cbn beta. eapply triple_bind; [eapply accept_after; eauto|]. intros rec. by apply triple_ret.
  - eapply triple_bind; [apply triple_quiet; [apply quiet_retry_window|apply _]|]. intros ?; cbn beta.
    eapply triple_bind; [eapply safe_pre; [apply retry_safe|by intros d _ [H _]]|]. intros delivered. by apply triple_ret.
Qed.
End operations.
