(* ===== verification/DispatchHistories.v ===== *)
(** * Histories of a dispatcher

    The operations that mirror events and settle accepted intents keep the
    invariant of the dispatcher too; a history is any sequence of operations,
    with restarts of the dispatcher in between. *)
From stdpp Require Import relations.
From Stdlib Require Import String.
From S2P Require Import Prelude GoStrings Identity Lifecycle Policy JsonText Canonical RunPayload LaneAdmission AuditRecords Db.
From S2P Require Import AuditStore AdmissionStore Idempotency Sessions Commands.
From S2P Require Import RemoteDb RemoteProjections RemoteEvents RemoteUpserts LocalIntents LocalIntentOps.
From S2P Require Import BridgeJson RemoteReplies RemoteReads Dispatcher Reconciliation.
From S2P Require Import IntentSteps IntentRefinement IntentTheorems Footprints DispatchInvariant DispatchSteps DispatchRuns.

Section histories.
Context {W : Watched} (w : World) (Hw : records_requests w).
Notation always := (fun _ : RemoteDriver => True).

Lemma safe_quiet {A} P (m : drv A) : quiet m -> safe P m.
Proof. intros Hm d Hd _. split; [by apply Hm|done]. Qed.
Lemma safe_bind {A B} P (m : drv A) (k : A -> drv B) : safe P m -> (forall a, safe always (k a)) -> safe P (mbind k m).
Proof. intros Hm Hk. eapply triple_bind; [done|]. intros a. apply Hk. Qed.
Lemma safe_always {A} P (m : drv A) : safe always m -> safe P m.
Proof. intros Hm. by eapply safe_pre. Qed.
Lemma safe_attempt {A} P (m : drv A) : safe P m -> safe P (attempt m).
Proof. by apply triple_attempt. Qed.
Lemma safe_map_err {A} P f (m : drv A) : safe P m -> safe P (map_err f m).
Proof. intros Hm d Hd H. unfold map_err. destruct (Hm d Hd H) as [Hinv _]. by destruct (m d). Qed.

(** ** Gaps *)
Definition said_command (commandID : string) (d : RemoteDriver) : Prop := answered (fun _ => True) (says "command_id" commandID) (d_trace d).
#[local] Instance stable_said_command id : Stable (said_command id).
Proof. unfold said_command. apply _. Qed.

Lemma triple_map_err {A} P f (m : drv A) R : triple P m R -> triple P (map_err f m) R.
Proof.
  intros Hm d Hd H. unfold map_err. destruct (Hm d Hd H) as [Hinv HR]. destruct (m d) as [r d']. cbn [fst snd] in *. split; [done|].
  intros a Ha. apply HR. by destruct r.
Qed.

Lemma read_object_says P intent request : Stable P -> is_mutation (rq_Operation request) = false ->
  triple P (readRemoteProjectionObject w intent request)
    (fun object d => P d /\ forall field value, string_is object field value = true -> answered (fun _ => True) (says field value) (d_trace d)).
Proof.
  intros HP Hq. unfold readRemoteProjectionObject. cbv zeta. apply triple_lift_bind. intros _ _.
  eapply triple_bind; [by apply (heard_call w)|]. intros reply. eapply triple_bind; [apply triple_fail|]. intros ?; cbn beta.
  eapply triple_bind; [apply triple_fail|]. intros ?; cbn beta. eapply triple_conseq; [apply triple_lift|intros d _ H; exact H|]. cbn beta.
  intros object d _ [[[[H [Hin _]] Ho%other_reply_false] Ht] Hobj%from_option_Ok]. bool_norm. split; [done|]. intros field value Hs.
  exists (target_profile (lic_Target (lir_create intent))), request, reply. split_and!; try done. by eapply result_says.
Qed.

Lemma confirm_says id ctl n intent : triple always (confirmRemoteTerminal w id ctl n intent) (fun _ => said_command id).
Proof.
  unfold confirmRemoteTerminal. cbv zeta. eapply triple_bind; [apply triple_fail|]. intros ?; cbn beta.
  eapply triple_bind; [apply triple_map_err; by apply read_object_says; [apply _|]|]. intros object. cbn beta.
  set (Q := fun d => (True /\ _ = false) /\ _). assert (Stable Q) as HQ.
  { intros d d' Hc [H1 H2]. split; [done|]. intros field value Hs. eapply answered_mono; [apply Hc|]. by apply H2. }
  eapply triple_bind; [apply triple_quiet; [apply (quiet_clock w Hw)|done]|]. intros ?; cbn beta.
  apply triple_lift_bind. intros p Hp%result_map_err_Ok%strict_command.
  eapply triple_bind; [apply triple_quiet; [apply quiet_fail|done]|]. intros ?; cbn beta.
  eapply triple_bind; [apply triple_quiet; [apply quiet_map_err, (quiet_gap_prefix w Hw)|done]|]. intros ?; cbn beta.
  eapply triple_bind; [apply triple_quiet; [apply quiet_map_err, (quiet_write w Hw); intros; apply upsert_command_intents|done]|]. intros stored; cbn beta.
  eapply triple_bind; [apply triple_quiet; [apply quiet_fail|done]|]. intros ?; cbn beta.
  eapply triple_bind; [apply triple_quiet; [apply (quiet_clock w Hw)|done]|]. intros now; cbn beta.
  apply triple_ret. intros d [[_ Hg] Ha]. apply Ha. repeat (apply orb_false_iff in Hg as [Hg ?]). bool_norm. congruence.
Qed.

Lemma gap_settles id ctl : safe (said_command id) (reconcileIntentAfterRemoteGap w id ctl).
Proof.
  unfold reconcileIntentAfterRemoteGap. eapply triple_bind; [by apply (find_by_resource w Hw); apply _|]. intros [intent|]; cbn beta; [|by apply triple_ret].
  cbv zeta. assert (forall P id0, safe P (markTerminalProof w id0 "remote_terminal_confirmed_event_gap";; mret tt)) as Hproof.
  { intros P id0. apply safe_bind; [by apply (quiet_proof_safe w Hw)|]. intros _. by apply triple_ret. }
  destruct (lic_DeliveryState (lir_create intent)); try first [by apply triple_throw | by apply Hproof | by apply triple_ret].
  - eapply triple_bind; [apply (transition_safe w Hw); [apply _|]|].
    + intros d Hd [Hs Hf]. destruct (Hf intent eq_refl) as (r & Hr & Hdec & Hop & Hres). exists r. split; [done|].
      unfold acknowledged. rewrite Hop, Hres. exact Hs.
    + intros rec. apply Hproof.
  - destruct (HasRemoteTerminalProof intent); [by apply triple_ret|apply Hproof].
Qed.

Lemma settle_gap_safe id ctl last available intent : safe always (settleRemoteGap w id ctl last available intent).
Proof.
  unfold settleRemoteGap. eapply triple_bind; [apply triple_quiet; [apply quiet_fail|apply _]|]. intros ?; cbn beta.
  eapply triple_bind; [apply triple_map_err, confirm_says|]. intros gap; cbn beta.
  eapply triple_bind; [apply triple_quiet; [apply (quiet_write w Hw); intros; apply record_gap_intents|apply _]|]. intros confirmed; cbn beta.
  eapply triple_bind; [apply gap_settles|]. intros ?. by apply triple_ret.
Qed.

Lemma mirror_safe id ctl intent : safe always (mirrorCommandEvents w id ctl intent).
Proof.
  unfold mirrorCommandEvents. cbv zeta. apply triple_lift_bind. intros streams _. apply safe_bind; [apply safe_quiet, quiet_fail|]. intros _.
  apply safe_bind; [apply safe_quiet, (quiet_read w Hw)|]. intros after. apply safe_bind; [apply safe_quiet, quiet_stream|]. intros outcome.
  apply safe_bind; [apply safe_quiet, (quiet_frames w Hw)|]. intros [s failure].
  destruct (match failure with Some _ => _ | None => _ end) as [f|]; [|by apply triple_ret].
  apply safe_bind; [apply safe_quiet, (quiet_stale w Hw)|]. intros _. destruct f as [available|e]; [|apply triple_throw].
  apply safe_bind; [apply settle_gap_safe|]. intros gap. by apply triple_ret.
Qed.

Lemma mirror_intent_safe intent : safe always (mirrorCommandEventsForIntent w intent).
Proof.
  unfold mirrorCommandEventsForIntent. cbv zeta. apply safe_bind; [apply safe_quiet, quiet_fail|]. intros _. apply triple_lift_bind. intros id _. apply mirror_safe.
Qed.

Lemma mirror_command_safe id ctl : safe always (MirrorCommandEvents w id ctl).
Proof.
  unfold MirrorCommandEvents. apply triple_lift_bind. intros v _. apply safe_bind; [apply safe_quiet, quiet_fail|]. intros _.
  apply safe_bind; [apply safe_quiet, quiet_attempt, (quiet_read w Hw)|]. intros [intent|e]; [apply mirror_intent_safe|apply triple_throw].
Qed.

(** ** Accepted intents *)
Lemma reconciled_safe intent reason : safe always (transitionAcceptedIntentReconciled w intent reason).
Proof.
  unfold transitionAcceptedIntentReconciled. cbv zeta. apply safe_bind; [apply safe_attempt; by apply (quiet_proof_safe w Hw)|]. intros [rec|e]; [by apply triple_ret|].
  apply safe_bind; [apply safe_quiet, quiet_attempt, (quiet_read w Hw)|]. intros [cur|e']; [|apply triple_throw].
  destruct (HasRemoteTerminalProof cur); [by apply triple_ret|apply triple_throw].
Qed.

Lemma accepted_submit_safe intent : safe always (reconcileAcceptedRemoteSubmit w intent).
Proof.
  unfold reconcileAcceptedRemoteSubmit. apply safe_bind; [apply safe_quiet, (quiet_refresh_command w Hw)|]. intros command.
  apply safe_bind; [apply safe_quiet, (quiet_recorded_gap w Hw)|]. intros gap. apply safe_bind.
  { destruct (must_mirror gap command); [|by apply triple_ret]. apply safe_bind; [apply mirror_intent_safe|]. intros _. by apply triple_ret. }
  intros _. apply safe_bind; [apply safe_quiet, (quiet_refresh_command w Hw)|]. intros command2. destruct (negb _); [by apply triple_ret|].
  apply safe_bind; [apply safe_quiet, (quiet_boundary w Hw)|]. intros _. apply reconciled_safe.
Qed.

Lemma accepted_run_safe intent : safe always (reconcileAcceptedRun w intent).
Proof.
  unfold reconcileAcceptedRun. apply safe_bind; [apply safe_quiet, (quiet_refresh_job w Hw)|]. intros job.
  destruct (provenPreSessionTerminalRemoteJob job); [apply reconciled_safe|]. apply safe_bind; [apply safe_quiet, quiet_fail|]. intros _.
  destruct (negb _); [by apply triple_ret|]. apply safe_bind; [apply safe_quiet, (quiet_refresh_command w Hw)|]. intros command.
  apply safe_bind; [apply safe_quiet, (quiet_recorded_gap w Hw)|]. intros gap. apply safe_bind.
  { destruct (must_mirror gap command); [|by apply triple_ret]. apply safe_bind; [apply mirror_intent_safe|]. intros [r [g|]]; [|by apply triple_ret].
    apply safe_quiet, (quiet_refresh_command w Hw). }
  intros command2. apply safe_bind; [apply safe_quiet, (quiet_refresh_job w Hw)|]. intros job2. apply safe_bind; [apply safe_quiet, quiet_fail|]. intros _.
  destruct (negb _); [by apply triple_ret|]. apply triple_lift_bind. intros _ _. apply safe_bind; [apply safe_quiet, (quiet_boundary w Hw)|]. intros _.
  apply reconciled_safe.
Qed.

Lemma quiet_same_rows {A} (f : Mirror -> Z -> result A * Mirror) :
  (forall m now, intents_inv m -> intents_inv (snd (f m now))) -> (forall m now, local_intents (snd (f m now)) = local_intents m) -> quiet (store_write w f).
Proof.
  intros Hi Hrows d Hd. unfold store_write. destruct (interfere_inv w Hw d Hd) as (Hinv & Hc & _).
  specialize (Hi (d_mirror (interfere w d)) (w_now w (d_ticks d)) (di_intents _ Hinv)). specialize (Hrows (d_mirror (interfere w d)) (w_now w (d_ticks d))).
  destruct (f _ _) as [r m]. cbn [snd] in *. destruct (same_rows_inv _ _ Hinv Hi Hrows) as [H1 H2]. split; [done|by etrans].
Qed.

Lemma quiet_failure id code : quiet (store_write w (fun m now => MarkAcceptedRemoteRunStatusFailure m now id code)).
Proof.
  apply quiet_same_rows; intros m now; [|apply failure_rows]. intros Hm. destruct (MarkAcceptedRemoteRunStatusFailure m now id code) as [r m'] eqn:E.
  by eapply isteps_inv; [eapply failure_steps|].
Qed.
Lemma quiet_clear id : quiet (store_write w (fun m _ => ClearAcceptedRemoteRunStatusFailure m id)).
Proof.
  apply quiet_same_rows; intros m now; [|apply clear_rows]. intros Hm. destruct (ClearAcceptedRemoteRunStatusFailure m id) as [r m'] eqn:E.
  by eapply (isteps_inv now); [eapply clear_steps|].
Qed.

Lemma submit_safe id : safe always (ReconcileAcceptedRemoteSubmit w id).
Proof.
  unfold ReconcileAcceptedRemoteSubmit. apply safe_bind; [apply safe_quiet, (quiet_read w Hw)|]. intros intent.
  apply safe_bind; [apply safe_quiet, quiet_fail|]. intros _. destruct (negb _); [by apply triple_ret|apply accepted_submit_safe].
Qed.

Lemma run_safe id : safe always (ReconcileAcceptedRun w id).
Proof.
  unfold ReconcileAcceptedRun. apply safe_bind; [apply safe_quiet, quiet_attempt, (quiet_read w Hw)|]. intros [intent|e]; [|by apply triple_ret]. cbv zeta.
  destruct (_ || _); [by apply triple_ret|]. destruct (negb _); [by apply triple_ret|].
  apply safe_bind; [apply safe_quiet, (quiet_status_window w Hw)|]. intros elapsed. destruct elapsed; [by apply triple_ret|].
  apply safe_bind; [apply safe_attempt, accepted_run_safe|]. intros [u|e].
  - apply safe_bind; [apply safe_quiet, quiet_attempt, (quiet_read w Hw)|]. intros [cur|e]; [|by apply triple_ret].
    destruct (_ && _); [|by apply triple_ret]. apply safe_bind; [apply safe_quiet, quiet_attempt, quiet_clear|]. intros [rec|e]; by apply triple_ret.
  - destruct (remoteRunStatusFailure e); [|by apply triple_ret]. apply safe_bind; [apply safe_quiet, quiet_attempt, quiet_failure|].
    intros [rec|e']; by apply triple_ret.
Qed.

(** ** Sweeps *)
Lemma quiet_cursors run submit : quiet (dmodify (with_cursors run submit)).
Proof. intros d [H1 H2 H3 H4 H5 H6]. split; constructor; done. Qed.

Lemma quiet_page list_after cursor (set_cursor : option RemoteIntentCursor -> drv unit) limit :
  quiet cursor -> (forall c, quiet (set_cursor c)) -> quiet (next_page w list_after cursor set_cursor limit).
Proof.
  intros Hc Hs. unfold next_page. apply quiet_bind; [done|]. intros at_. apply quiet_bind; [apply (quiet_read w Hw)|]. intros intents.
  apply quiet_bind; [destruct (_ && _); [|apply quiet_ret]; apply quiet_bind; [done|]; intros _; apply (quiet_read w Hw)|]. intros intents2.
  apply quiet_bind; [destruct (is_nil intents2); [apply quiet_ret|done]|]. intros _. apply quiet_ret.
Qed.

Lemma runs_safe intents : safe always (reconcileRuns w intents).
Proof.
  induction intents as [|i rest IH]; cbn [reconcileRuns]; [by apply triple_ret|]. apply safe_bind; [apply run_safe|]. intros f.
  apply safe_bind; [done|]. intros issues. by apply triple_ret.
Qed.
Lemma submits_safe intents : safe always (reconcileSubmits w intents).
Proof.
  induction intents as [|i rest IH]; cbn [reconcileSubmits]; [by apply triple_ret|]. apply safe_bind; [apply safe_attempt, submit_safe|]. intros f.
  apply safe_bind; [done|]. intros issues. by apply triple_ret.
Qed.

Lemma first_safe candidates : safe always (dispatchFirst w candidates).
Proof.
  induction candidates as [|c rest IH]; cbn [dispatchFirst]; [apply triple_throw|]. destruct (_ || _); [done|].
  apply safe_bind; [apply safe_attempt, (dispatch_safe w Hw)|]. intros [a|e]; [by apply triple_ret|]. destruct (skips e); [done|apply triple_throw].
Qed.
Lemma next_safe : safe always (DispatchNext w).
Proof. apply safe_bind; [apply safe_quiet, (quiet_read w Hw)|]. intros candidates. apply first_safe. Qed.
Lemma dispatch_one_safe id : safe always (DispatchIntent w id).
Proof.
  apply safe_bind; [apply safe_quiet, (quiet_read w Hw)|]. intros intent. do 2 (apply safe_bind; [apply safe_quiet, quiet_fail|]; intros _).
  apply (dispatch_safe w Hw).
Qed.
Lemma command_safe id ctl : safe always (RefreshCommandProjection w id ctl).
Proof.
  unfold RefreshCommandProjection. apply triple_lift_bind. intros v _. apply safe_bind; [apply safe_quiet, (quiet_read w Hw)|]. intros i.
  apply safe_quiet, (quiet_refresh_command w Hw).
Qed.
Lemma job_safe id ctl : safe always (RefreshJobProjection w id ctl).
Proof.
  unfold RefreshJobProjection. apply triple_lift_bind. intros v _. apply safe_bind; [apply safe_quiet, (quiet_read w Hw)|]. intros i.
  apply safe_quiet, (quiet_refresh_job w Hw).
Qed.
End histories.

(** ** Histories *)
Inductive DriverOp : Type :=
  | DopRestart (owner : string) (leaseDuration : Z)
  | DopDispatchNext
  | DopDispatchIntent (id : string)
  | DopReconcileIntent (id : string)
  | DopMirrorCommandEvents (id : string) (controller : ControllerIdentity)
  | DopRefreshCommand (id : string) (controller : ControllerIdentity)
  | DopRefreshJob (id : string) (controller : ControllerIdentity)
  | DopRefreshSession (id : string) (controller : ControllerIdentity)
  | DopReconcileAcceptedRun (id : string)
  | DopReconcileAcceptedSubmit (id : string)
  | DopReconcileRuns (limit : Z)
  | DopReconcileSubmits (limit : Z)
  | DopProbe (probes : Z) (profile : string).

(** A restart that is refused leaves the dispatcher as it was. *)
Definition restart (owner : string) (leaseDuration : Z) (d : RemoteDriver) : RemoteDriver :=
  match NewRemoteDriverWithResolverAndClock (d_authority d) (d_mirror d) owner leaseDuration (d_reads d) (d_ticks d) (d_trace d) with
  | Ok d' => d'
  | Err _ => d
  end.

Definition drive (w : World) (d : RemoteDriver) (op : DriverOp) : RemoteDriver :=
  match op with
  | DopRestart owner leaseDuration => restart owner leaseDuration d
  | DopDispatchNext => snd (DispatchNext w d)
  | DopDispatchIntent id => snd (DispatchIntent w id d)
  | DopReconcileIntent id => snd (ReconcileIntent w id d)
  | DopMirrorCommandEvents id controller => snd (MirrorCommandEvents w id controller d)
  | DopRefreshCommand id controller => snd (RefreshCommandProjection w id controller d)
  | DopRefreshJob id controller => snd (RefreshJobProjection w id controller d)
  | DopRefreshSession id controller => snd (RefreshSessionProjection w id controller d)
  | DopReconcileAcceptedRun id => snd (ReconcileAcceptedRun w id d)
  | DopReconcileAcceptedSubmit id => snd (ReconcileAcceptedRemoteSubmit w id d)
  | DopReconcileRuns limit => snd (ReconcileAcceptedRemoteRuns w limit d)
  | DopReconcileSubmits limit => snd (ReconcileAcceptedRemoteSubmits w limit d)
  | DopProbe probes profile => snd (ProbeProfile w probes profile d)
  end.

Definition drives (w : World) (history : list DriverOp) (d : RemoteDriver) : RemoteDriver := fold_left (drive w) history d.

(** A dispatcher on an empty store that has said nothing. *)
Definition first_driver (s : AuthorityStore) (owner : string) (leaseDuration : Z) : RemoteDriver :=
  mkRemoteDriver s empty_mirror owner leaseDuration ∅ None None 0 0 [].

Definition driver_reachable (w : World) (d : RemoteDriver) : Prop :=
  exists s owner leaseDuration history, d = drives w history (first_driver s owner leaseDuration).

Section watched_histories.
Context {W : Watched}.

Lemma safe_runs {A} (m : drv A) d : safe (fun _ => True) m -> driver_inv d -> driver_inv (snd (m d)).
Proof. intros H Hd. by apply H. Qed.

Lemma drive_inv w d op : records_requests w -> driver_inv d -> driver_inv (drive w d op).
Proof.
  intros Hw Hd. destruct op; cbn [drive]; try (by apply safe_runs; [|done];
    eauto using next_safe, dispatch_one_safe, reconcile_safe, mirror_command_safe, command_safe, job_safe, run_safe, submit_safe,
      safe_quiet, quiet_refresh_session, quiet_probe).
  - unfold restart, NewRemoteDriverWithResolverAndClock. destruct (_ || _); [done|]. destruct Hd as [H1 H2 H3 H4 H5 H6]. by constructor.
  - apply safe_runs; [|done]. unfold ReconcileAcceptedRemoteRuns, nextAcceptedRemoteRunPage. apply safe_bind; [|intros; by apply runs_safe].
    apply safe_quiet, quiet_page; [done|apply quiet_get|]. intros c d0 [H1 H2 H3 H4 H5 H6]. split; constructor; done.
  - apply safe_runs; [|done]. unfold ReconcileAcceptedRemoteSubmits, nextAcceptedRemoteSubmitPage. apply safe_bind; [|intros; by apply submits_safe].
    apply safe_quiet, quiet_page; [done|apply quiet_get|]. intros c d0 [H1 H2 H3 H4 H5 H6]. split; constructor; done.
Qed.

Lemma drives_inv w history d : records_requests w -> driver_inv d -> driver_inv (drives w history d).
Proof. intros Hw. revert d. induction history as [|op history IH]; intros d Hd; [done|]. by apply IH, drive_inv. Qed.

End watched_histories.

Definition unwatched : Watched := (∅ : gmap string (list CallOutcome)).

Lemma first_inv s owner leaseDuration : driver_inv (W := unwatched) (first_driver s owner leaseDuration).
Proof.
  constructor; [exact empty_intents_inv|done|done| |done|done]. intros p f o H. by apply not_elem_of_nil in H.
Qed.

Lemma driver_reachable_inv w d : records_requests w -> driver_reachable w d -> driver_inv (W := unwatched) d.
Proof. intros Hw (s & owner & leaseDuration & history & ->). by apply drives_inv, first_inv. Qed.
