(* ===== verification/DispatchTheorems.v ===== *)
(** * Correctness of delivery

    What holds of every history of a dispatcher, against hosts that answer
    anything at any time: a request is always sent as the one frame of its
    recorded intent, delivery states are truthful, a decided request is never
    sent again, a command waits for its session, and a request in doubt is sent
    again only inside the window of its key. *)
From stdpp Require Import relations.
From Stdlib Require Import String.
From S2P Require Import Prelude GoStrings Identity Lifecycle Policy JsonText Canonical RunPayload LaneAdmission AuditRecords Db.
From S2P Require Import AuditStore AdmissionStore Idempotency Sessions Commands.
From S2P Require Import RemoteDb RemoteProjections RemoteEvents RemoteUpserts LocalIntents LocalIntentOps.
From S2P Require Import BridgeJson RemoteReplies RemoteReads Dispatcher Reconciliation.
From S2P Require Import AuthorityTheorems IntentSteps IntentRefinement IntentTheorems Footprints.
From S2P Require Import DispatchInvariant DispatchSteps DispatchRuns DispatchHistories.

Lemma decoded_frame id r rec frame : decoded_as id r rec -> frameForRemoteIntent rec = Ok frame ->
  rq_ResourceID frame = li_resource_id r /\ rq_IdempotencyKey frame = li_idempotency_key r.
Proof.
  intros Hd H. unfold frameForRemoteIntent in H. cbv zeta in H. apply result_bind_Ok in H as (? & _ & H). apply result_bind_Ok in H as (? & _ & H).
  injection H as <-. cbn. split; apply Hd.
Qed.

(** C8: However often, and over whatever restarts, a request is sent, it is sent as
    one frame to one host: two mutations with the same request id are equal,
    payload included, and go to the same profile; and each carries the resource
    and the idempotency key of the intent that was recorded under its id, and
    goes to the profile recorded with it. *)
Theorem request_sent_as_one_frame w d p1 frame1 outcome1 p2 frame2 outcome2 :
  records_requests w -> driver_reachable w d ->
  Called p1 frame1 outcome1 ∈ d_trace d -> Called p2 frame2 outcome2 ∈ d_trace d ->
  is_mutation (rq_Operation frame1) = true -> is_mutation (rq_Operation frame2) = true -> rq_RequestID frame1 = rq_RequestID frame2 ->
  frame1 = frame2 /\ p1 = p2 /\
  exists r, intents_of d !! rq_RequestID frame1 = Some r /\ rq_ResourceID frame1 = li_resource_id r /\
    rq_IdempotencyKey frame1 = li_idempotency_key r /\ p1 = target_profile (li_target r).
Proof.
  intros Hw Hinv%driver_reachable_inv H1 H2 M1 M2 E; [|done].
  destruct (di_frames _ Hinv _ _ _ H1 M1) as (r1 & rec1 & Hr1 & Hd1 & Hf1 & ->).
  destruct (di_frames _ Hinv _ _ _ H2 M2) as (r2 & rec2 & Hr2 & Hd2 & Hf2 & ->).
  rewrite <- E in Hr2, Hd2. assert (r2 = r1) as -> by congruence.
  assert (frameForRemoteIntent rec1 = frameForRemoteIntent rec2) as Ef by (apply frame_request; by eapply decoded_request).
  split_and!; [congruence|done|]. exists r1. destruct (decoded_frame _ _ _ _ Hd1 Hf1). by split_and!.
Qed.


Lemma watch_inv d id r : driver_inv (W := unwatched) d -> intents_of d !! id = Some r -> closed (li_delivery_state r) ->
  driver_inv (W := {[id := sends id (d_trace d)]} : gmap string (list CallOutcome)) d.
Proof.
  intros [H1 H2 H3 H4 H5 _] Hr Hc. constructor; try done. intros id' l Hl. unfold watched in Hl. apply lookup_singleton_Some in Hl as [<- <-].
  split; [done|]. by exists r.
Qed.

(** C9: A decided request is never sent again: once an intent is accepted,
    reconciled or not delivered, no dispatch, retry, reconciliation or sweep, in
    any order and over any restarts, sends it another time. *)
Theorem decided_request_not_resent w d id r history :
  records_requests w -> driver_reachable w d -> intents_of d !! id = Some r -> closed (li_delivery_state r) ->
  sends id (d_trace (drives w history d)) = sends id (d_trace d).
Proof.
  intros Hw Hinv%driver_reachable_inv Hr Hc; [|done].
  pose proof (drives_inv (W := {[id := sends id (d_trace d)]} : gmap string (list CallOutcome)) w history d Hw (watch_inv _ _ _ Hinv Hr Hc)) as Hend.
  apply (di_watch _ Hend id). unfold watched. apply lookup_singleton_eq.
Qed.

(** ** Computations that send nothing *)

(** The trace grows without a mutation. *)
Record hushed (d d' : RemoteDriver) : Prop := {
  hu_trace : d_trace d `prefix_of` d_trace d';
  hu_sends : forall id, sends id (d_trace d') = sends id (d_trace d)
}.
#[export] Instance hushed_preorder : PreOrder hushed.
Proof. split; [intros d; by constructor|]. intros d1 d2 d3 [T1 S1] [T2 S2]. constructor; [by etrans|]. intros id. by rewrite S2. Qed.
Lemma hushed_same d d' : d_trace d' = d_trace d -> hushed d d'.
Proof. intros E. constructor; by rewrite E. Qed.

Definition silent {A} (m : drv A) : Prop := forall d, hushed d (snd (m d)).

Section silent.
Context (w : World).

Lemma interfere_trace d : d_trace (interfere w d) = d_trace d.
Proof. unfold interfere. by destruct (fold_left _ _ _). Qed.
Lemma silent_pure {A} (m : drv A) : (forall d, d_trace (snd (m d)) = d_trace d) -> silent m.
Proof. intros H d. by apply hushed_same. Qed.
Lemma silent_bind {A B} (m : drv A) (k : A -> drv B) : silent m -> (forall a, silent (k a)) -> silent (mbind k m).
Proof. intros Hm Hk d. unfold mbind, drv_bind. specialize (Hm d). destruct (m d) as [[a|e] d']; [|done]. etrans; [exact Hm|apply Hk]. Qed.
Lemma silent_attempt {A} (m : drv A) : silent m -> silent (attempt m).
Proof. intros Hm d. unfold attempt. specialize (Hm d). by destruct (m d). Qed.
Lemma silent_map_err {A} f (m : drv A) : silent m -> silent (map_err f m).
Proof. intros Hm d. unfold map_err. specialize (Hm d). by destruct (m d). Qed.
Lemma silent_read {A} (f : Mirror -> Z -> result A) : silent (store_read w f).
Proof. apply silent_pure. intros d. apply interfere_trace. Qed.
Lemma silent_write {A} (f : Mirror -> Z -> result A * Mirror) : silent (store_write w f).
Proof. apply silent_pure. intros d. unfold store_write. destruct (f _ _). apply interfere_trace. Qed.
Lemma silent_clock : silent (clock w).
Proof. apply silent_pure. intros d. apply interfere_trace. Qed.
Lemma silent_call p frame : is_mutation (rq_Operation frame) = false -> silent (call w p frame).
Proof.
  intros Hq d. constructor; cbn [snd call d_trace with_said]; [by eexists|]. intros id. rewrite sends_app. cbn. rewrite Hq. cbn. by rewrite app_nil_r.
Qed.
Lemma silent_call_or_fail e p frame : is_mutation (rq_Operation frame) = false -> silent (callOrFail w e p frame).
Proof. intros Hq. apply silent_bind; [by apply silent_call|]. intros [reply|b]; by apply silent_pure. Qed.
Lemma silent_lift_bind {A B} (r : result A) (k : A -> drv B) : (forall a, r = Ok a -> silent (k a)) -> silent (mbind k (dlift r)).
Proof. intros Hk d. unfold mbind, drv_bind, dlift. destruct r as [a|e]; [by apply Hk|done]. Qed.

Ltac silent_step :=
  first [ match goal with
          | |- silent (mbind _ (dlift _)) => apply silent_lift_bind; intros
          | |- silent (mbind _ _) => apply silent_bind
          | |- silent (attempt _) => apply silent_attempt
          | |- silent (map_err _ _) => apply silent_map_err
          | |- silent (store_read _ _) => apply silent_read
          | |- silent (store_write _ _) => apply silent_write
          | |- silent (clock _) => apply silent_clock
          | |- silent (mret _) => by apply silent_pure
          | |- silent (dthrow _) => by apply silent_pure
          | |- silent (dlift _) => by apply silent_pure
          | |- silent (dget _) => by apply silent_pure
          | |- silent (dmodify _) => by apply silent_pure
          | |- silent (dfail_if ?b _) => destruct b; by apply silent_pure
          | |- silent (callOrFail _ _ _ _) => apply silent_call_or_fail
          | |- silent (match ?x with _ => _ end) => destruct x
          | |- silent (if ?x then _ else _) => destruct x
          end
        | done
        | eauto using read_frame_quiet, readiness_frame_quiet ].
Ltac silent := cbv zeta; repeat first [progress intros | silent_step].

Lemma silent_guard intent : silent (guardRemoteIntentBeforeDelivery w intent).
Proof. unfold guardRemoteIntentBeforeDelivery, guardControl, findByResource, getByResource, supersede, transition. silent. Qed.
Lemma silent_deadline intent : silent (checkDeadlineBeforeDispatch w intent).
Proof. unfold checkDeadlineBeforeDispatch, ensureRemoteRetryWindow, transition. silent. Qed.
Lemma silent_ready intent : silent (checkSubmitReady w intent).
Proof.
  unfold checkSubmitReady, ensureRemoteSubmitReady, ensureCreatedSessionReady, refreshRemoteSessionState, markRemoteSubmitNotDelivered, getByResource,
    cachedRemoteSessionState, rememberRemoteSessionState, transition. silent.
Qed.
Lemma silent_upsert intent reply : silent (upsertRemoteProjectionFromReply w intent reply).
Proof. unfold upsertRemoteProjectionFromReply. silent. Qed.
Lemma silent_observe intent reply : silent (observeRemoteSessionState intent reply).
Proof. unfold observeRemoteSessionState, rememberRemoteSessionState. silent. Qed.
Lemma silent_outcome intent id frame outcome : silent (recordOutcome w intent id frame outcome).
Proof. unfold recordOutcome, or_uncertain, settle, transition. silent; auto using silent_upsert, silent_observe. Qed.
Lemma silent_window intent : silent (ensureRemoteRetryWindow w intent).
Proof. unfold ensureRemoteRetryWindow. silent. Qed.
Lemma silent_uncertainty intent : silent (uncertaintyDeadline w intent).
Proof. unfold uncertaintyDeadline. silent. Qed.
End silent.

Lemma dbind_inv {A B} (m : drv A) (k : A -> drv B) d r d' : mbind k m d = (r, d') ->
  (exists e, m d = (Err e, d') /\ r = Err e) \/ exists a d1, m d = (Ok a, d1) /\ k a d1 = (r, d').
Proof. unfold mbind, drv_bind. destruct (m d) as [[a|e] d1]; [eauto|]. intros [= <- <-]. eauto. Qed.

(** A step that sends nothing ends the computation, or hands on what it knows. *)
Lemma hushed_bind {W : Watched} {A B} (m : drv A) (k : A -> drv B) P R d0 d r d' :
  silent m -> triple P m R -> driver_inv d -> P d -> hushed d0 d -> mbind k m d = (r, d') ->
  hushed d0 d' \/ exists a d1, hushed d0 d1 /\ driver_inv d1 /\ R a d1 /\ k a d1 = (r, d').
Proof.
  intros Hs Ht Hd HP H0 H. specialize (Hs d). destruct (Ht d Hd HP) as [Hinv HR].
  apply dbind_inv in H as [(e & E & _)|(a & d1 & E & H)]; rewrite E in *; cbn [fst snd] in *; [left; by etrans|].
  right. exists a, d1. split_and!; [by etrans|done|by apply HR|done].
Qed.
Lemma hushed_lift {A B} (x : result A) (k : A -> drv B) d0 d r d' : hushed d0 d -> mbind k (dlift x) d = (r, d') ->
  hushed d0 d' \/ exists a, x = Ok a /\ k a d = (r, d').
Proof. intros H0 H. unfold mbind, drv_bind, dlift in H. destruct x as [a|e]; [eauto|]. injection H as _ <-. by left. Qed.

#[local] Existing Instance unwatched.

(** ** A command waits for its session *)
Lemma ByResource_found m c row e : intents_inv m -> local_intents m !! c = Some row ->
  GetLocalIntentByResource m (li_operation row) (li_resource_id row) (li_controller row) = Err e -> errors_is e ErrLocalIntentNotFound = false.
Proof.
  intros Hinv Hrow. unfold GetLocalIntentByResource. destruct (_ || _); [by intros [= <-]|]. cbn [refuse_if mbind result_bind].
  destruct (NewControllerIdentity _ _); [|by intros [= <-]]. cbn [result_map_err mbind result_bind]. unfold withMirrorRead. rewrite query_bind.
  match goal with |- context [head ?rows] => set (l := rows); assert (exists i row', head l = Some (i, row') /\ local_intents m !! i = Some row') as (i & row' & Hl & Hi) end.
  { assert ((c, row) ∈ l) as Hin.
    { apply newest_first_elem. unfold select_intents, rows_where. apply elem_of_map_to_list, map_lookup_filter_Some. split; [done|]. cbn.
      unfold of_controller. by rewrite !bool_decide_eq_true_2. }
    destruct (head l) as [[i row']|] eqn:Eh; [|destruct l; [by apply not_elem_of_nil in Hin|done]]. exists i, row'. split; [done|].
    apply head_Some_elem_of in Eh. apply (proj1 (newest_first_elem _ _)) in Eh. unfold select_intents, rows_where in Eh.
    by apply elem_of_map_to_list, map_lookup_filter_Some in Eh as [Eh _]. }
  rewrite Hl, or_fail_bind_some. cbn [fst]. unfold corrupt. destruct (NewIntentID i) as [i'|] eqn:Ei; [|cbn [result_map_err]; rewrite lift_bind_err; by intros [= <-]].
  apply NewIntentID_Ok in Ei as [-> _]. cbn [result_map_err]. rewrite lift_bind_ok. destruct (reads_back _ _ _ Hinv Hi) as (rec & -> & _). done.
Qed.

Section ready.
Context (w : World) (Hw : records_requests w).
Notation inv := (driver_inv (W := unwatched)).
Notation triple_here := (triple (W := unwatched)).

Lemma triple_get_value {A} P (f : RemoteDriver -> A) : triple_here P (dget f) (fun a d => P d /\ a = f d).
Proof. intros d Hd H. split; [done|]. by intros a [= <-]. Qed.

Lemma refresh_caches P create : Stable P ->
  triple_here P (refreshRemoteSessionState w create)
    (fun state d => P d /\ d_sessionStates d !! (target_profile (lic_Target (lir_create create)), lic_SessionID (lir_create create)) = Some state).
Proof.
  intros HP d Hd H. destruct (quiet_refresh w create d Hd) as [Hinv Hc]. split; [done|]. intros state Hs. split; [by eapply HP|]. revert Hs.
  destruct (refreshRemoteSessionState w create d) as [r d'] eqn:E. cbn [fst snd]. intros ->. unfold refreshRemoteSessionState in E.
  do 4 (apply dbind_inv in E as [(e & _ & [=])|(? & ? & _ & E)]). apply dbind_inv in E as [(e & _ & [=])|(u & d2 & Er & E)].
  injection E as -> <-. injection Er as _ <-. cbn. apply lookup_insert_eq.
Qed.

Lemma session_ready_Ok state u : session_ready state = Ok u -> state = SessionStateReady.
Proof. unfold session_ready. by case_bool_decide. Qed.

Lemma created_ready create intent session (P := found operationCreateSession session create) :
  triple_here P (ensureCreatedSessionReady w create intent)
    (fun _ d => reported (d_trace d) (target_profile (lic_Target (lir_create intent))) session SessionStateReady).
Proof.
  unfold ensureCreatedSessionReady. cbv zeta. set (key := (target_profile (lic_Target (lir_create create)), lic_SessionID (lir_create create))).
  eapply triple_bind; [apply triple_fail|]. intros ?; cbn beta. eapply triple_bind; [apply triple_fail|]. intros ?; cbn beta.
  eapply triple_bind; [apply triple_fail|]. intros ?; cbn beta. eapply triple_bind; [apply triple_get_value|]. intros known; cbn beta.
  assert (forall d, inv d -> P d -> sameRemoteTarget (lic_Target (lir_create create)) (lic_Target (lir_create intent)) = true ->
    d_sessionStates d !! key = Some SessionStateReady ->
    reported (d_trace d) (target_profile (lic_Target (lir_create intent))) session SessionStateReady) as Hrep.
  { intros d Hd (r & Hr & Hdec & Hop & Hres) Hsame Hc. apply (di_cache _ Hd) in Hc. unfold sameRemoteTarget in Hsame. bool_norm.
    pose proof (di_own _ Hd _ _ Hr) as Ho. unfold own_id in Ho. rewrite Hop, bool_decide_eq_true_2 in Ho by done. cbn [orb] in Ho. unfold key in Hc. rewrite (da_session _ _ _ Hdec), Ho, Hres in Hc.
    match goal with H : target_profile _ = target_profile _ |- _ => by rewrite <- H end. }
  assert (forall Q : RemoteDriver -> Prop, (forall d, Q d -> P d /\ sameRemoteTarget (lic_Target (lir_create create)) (lic_Target (lir_create intent)) = true) ->
    triple_here Q (state ← map_err wait_or_failed (refreshRemoteSessionState w create); dlift (session_ready state))
      (fun _ d => reported (d_trace d) (target_profile (lic_Target (lir_create intent))) session SessionStateReady)) as Hrefresh.
  { intros Q HQ. eapply safe_pre; [|intros d _ H; exact (HQ d H)]. eapply triple_bind; [apply triple_map_err, refresh_caches; apply _|].
    intros state; cbn beta. eapply triple_conseq; [apply triple_lift|intros d _ H; exact H|]. cbn beta.
    intros u d Hd [[[HP Hsame] Hst] ->%session_ready_Ok]. by apply Hrep. }
  destruct known as [state|]; [|apply Hrefresh; intros d [[[[H _] _] Hsame] _]; bool_norm; done].
  eapply triple_bind; [apply triple_fail|]. intros ?; cbn beta. case_bool_decide as Hst.
  - eapply triple_conseq; [apply (triple_ret _ _ (fun _ d => P d /\ sameRemoteTarget (lic_Target (lir_create create)) (lic_Target (lir_create intent)) = true /\ d_sessionStates d !! key = Some SessionStateReady))|intros d _ H; exact H|].
    + intros d [[[[[H _] _] Hsame] Hk] _]. apply negb_false_iff in Hsame. split_and!; [done|done|]. unfold key. by rewrite <- Hk, Hst.
    + intros u d Hd (HP & Hsame & Hc). by apply Hrep.
  - apply Hrefresh. intros d [[[[[H _] _] Hsame] _] _]. bool_norm. done.
Qed.

Section submit.
Context (intent : LocalIntentRecord) (id : string) (r : IntentRow) (c : string) (rc : IntentRow).
Context (Hdec : decoded_as id r intent) (Hop : li_operation rc = operationCreateSession) (Hres : li_resource_id rc = li_session_id r).
Context (Hctl : li_controller rc = li_controller r).

Definition both_on_record (d : RemoteDriver) : Prop := intents_of d !! id = Some r /\ intents_of d !! c = Some rc.
#[export] Instance stable_both : Stable both_on_record.
Proof. intros d d' Hc [H1 H2]. split; by apply Hc. Qed.

Lemma submit_ready : triple_here both_on_record (ensureRemoteSubmitReady w intent)
  (fun _ d => reported (d_trace d) (target_profile (li_target r)) (li_session_id r) SessionStateReady).
Proof.
  intros d Hd Hb. unfold ensureRemoteSubmitReady. cbv zeta. unfold mbind, drv_bind, attempt.
  rewrite (da_session _ _ _ Hdec), (da_controller _ _ _ Hdec).
  destruct (get_by_resource w Hw both_on_record operationCreateSession (li_session_id r) (li_controller r) ltac:(apply _) d Hd Hb) as [Hinv Hf].
  assert (forall e, fst (getByResource w operationCreateSession (li_session_id r) (li_controller r) d) = Err e -> errors_is e ErrLocalIntentNotFound = false) as Hne.
  { unfold getByResource, store_read. cbn [fst]. rewrite <- Hop, <- Hres, <- Hctl. intros e. apply (ByResource_found _ c).
    - by destruct (interfere_inv w Hw d Hd) as ([] & _).
    - destruct (interfere_inv w Hw d Hd) as (_ & Hc & _). by apply Hc, Hb. }
  destruct (getByResource _ _ _ _ d) as [[create|e] d1]; cbn [fst snd] in *.
  - destruct (Hf create eq_refl) as [_ Hfound]. pose proof (created_ready create intent (li_session_id r) d1 Hinv Hfound) as Hr.
    rewrite (da_target _ _ _ Hdec) in Hr. exact Hr.
  - rewrite (Hne e eq_refl). by split.
Qed.
End submit.
End ready.


(** ** A request in doubt *)
Lemma calm_bind {A B} (m : drv A) (k : A -> drv B) d0 d r d' : quiet m -> driver_inv d -> calm d0 d -> mbind k m d = (r, d') ->
  calm d0 d' \/ exists a d1, driver_inv d1 /\ calm d0 d1 /\ m d = (Ok a, d1) /\ k a d1 = (r, d').
Proof.
  intros Hq Hd H0 H. destruct (Hq d Hd) as [Hinv Hc]. apply dbind_inv in H as [(e & E & _)|(a & d1 & E & H)]; rewrite E in *; cbn [fst snd] in *.
  - left. by etrans.
  - right. exists a, d1. split_and!; [done|by etrans|done|done].
Qed.
Lemma calm_hushed d d' : calm d d' -> hushed d d'.
Proof. intros []. by constructor. Qed.

(** The host was asked for the resource and does not have it. *)
Definition not_found (trace : list Interaction) : Prop :=
  exists p frame reply payload, Called p frame (Replied reply) ∈ trace /\ is_mutation (rq_Operation frame) = false /\
    rp_RequestID reply = rq_RequestID frame /\ rp_ResponseType reply = "error" /\
    decodeErrorPayload true (rp_Payload reply) = Some payload /\ ep_Code payload = "resource_not_found".

Lemma reconcile_missing intent frame reply : reconcileRemoteReply intent frame reply = Ok reconcileNotDelivered ->
  rp_RequestID reply = rq_RequestID frame /\ rp_ResponseType reply = "error" /\
  exists payload, decodeErrorPayload true (rp_Payload reply) = Some payload /\ ep_Code payload = "resource_not_found".
Proof.
  unfold reconcileRemoteReply. intros H. apply refuse_if_bind in H as [Ho%other_reply_false H]. case_bool_decide as Ht.
  - apply result_bind_Ok in H as (payload & Hp%from_option_Ok & H). case_bool_decide; [|done]. eauto.
  - apply refuse_if_bind in H as [_ H]. apply result_bind_Ok in H as (object & _ & H). by apply unit_bind_Ok in H as [_ H].
Qed.

Lemma retry_once w intent d result d' : retryRemoteIntent w intent d = (result, d') ->
  d_trace d `prefix_of` d_trace d' /\
  (sends (lic_IntentID (lir_create intent)) (d_trace d') = sends (lic_IntentID (lir_create intent)) (d_trace d) \/
   exists outcome, sends (lic_IntentID (lir_create intent)) (d_trace d') = sends (lic_IntentID (lir_create intent)) (d_trace d) ++ [outcome]).
Proof.
  unfold retryRemoteIntent. cbv zeta. intros H. apply dbind_inv in H as [(e & [= _ <-] & _)|(frame & d1 & [= Hf <-] & H)]; [by auto|].
  apply dbind_inv in H as [(e & [= _ <-] & _)|(streams & d1 & [= _ <-] & H)]; [by auto|]. destruct (frame_fields _ _ Hf) as [Hid Hmut].
  set (id := lic_IntentID (lir_create intent)) in *. set (p := target_profile (lic_Target (lir_create intent))) in *.
  set (out := w_call w (d_trace d) p frame) in *. set (d1 := with_said (Called p frame out) d).
  assert (sends id (d_trace d1) = sends id (d_trace d) ++ [out]) as Hs.
  { subst d1. cbn [d_trace with_said]. rewrite sends_app. cbn. by rewrite Hmut, bool_decide_eq_true_2 by done. }
  assert (hushed d1 d') as Hh; [|split; [etrans; [by eexists|apply Hh]|right; exists out; by rewrite (hu_sends _ _ Hh)]].
  unfold callOrFail in H. apply dbind_inv in H as [(e & H & _)|(reply & d2 & H1 & H)].
  - apply dbind_inv in H as [(e' & [=] & _)|(o & d2 & [= <- <-] & H)]. fold p out d1 in H. destruct out; [done|]. by injection H as _ <-.
  - apply dbind_inv in H1 as [(e' & [=] & _)|(o & d3 & [= <- <-] & H1)]. fold p out d1 in H1. destruct out as [reply'|b]; [|done].
    injection H1 as -> <-. rewrite <- (f_equal snd H : _ = d'). clear. match goal with |- hushed ?d (snd (?m ?d)) => revert d end.
    destruct (validateRemoteReply intent frame reply) as [u|e].
    + apply silent_bind; [destruct (bool_decide _); [apply silent_observe|by apply silent_pure]|]. intros _.
      apply silent_bind; [apply silent_upsert|]. intros _. apply silent_bind; [apply silent_write|]. intros rec. by apply silent_pure.
    + destruct (errors_is _ _); [|by apply silent_pure]. apply silent_bind; [apply silent_write|]. intros rec. by apply silent_pure.
Qed.

Lemma window_open w intent d t d' : ensureRemoteRetryWindow w intent d = (Ok t, d') ->
  LocalIntentIdempotencyExpiry (d_mirror (interfere w d)) (lic_IntentID (lir_create intent)) = Ok (Some t) /\ w_now w (S (d_ticks d)) < t.
Proof.
  unfold ensureRemoteRetryWindow. intros H. apply dbind_inv in H as [(e & _ & [=])|(o & d1 & E1 & H)]. injection E1 as E1 <-.
  apply dbind_inv in H as [(e & _ & [=])|(t' & d2 & E2 & H)]. injection E2 as ->%from_option_Ok <-.
  apply dbind_inv in H as [(e & _ & [=])|(now & d2 & E3 & H)]. injection E3 as <- <-.
  apply dbind_inv in H as [(e & _ & [=])|(u & d3 & E4 & H)]. injection H as -> _. destruct (negb _) eqn:E; [done|]. bool_norm. split; [done|].
  unfold interfere in E. by destruct (fold_left _ _ _).
Qed.

(** What happens after the host said that it does not have the resource. *)
Lemma resend_after_missing w intent d result d' : records_requests w -> driver_inv d ->
  (ensureRemoteRetryWindow w intent;; delivered ← retryRemoteIntent w intent; mret (fst delivered, Some (snd delivered))) d = (result, d') ->
  let id := lic_IntentID (lir_create intent) in
  d_trace d `prefix_of` d_trace d' /\
  (sends id (d_trace d') = sends id (d_trace d) \/
   (exists outcome, sends id (d_trace d') = sends id (d_trace d) ++ [outcome]) /\
   exists deadline, LocalIntentIdempotencyExpiry (d_mirror (interfere w d)) id = Ok (Some deadline) /\ w_now w (S (d_ticks d)) < deadline).
Proof.
  intros Hw Hinv H id. destruct (calm_bind _ _ _ _ _ _ (quiet_retry_window w Hw intent) Hinv (reflexivity d) H)
    as [Hend|(expiry & d1 & _ & Hc & E & H1)]; [split; [apply Hend|left; apply Hend]|].
  apply window_open in E as [E1 E2]. assert (exists r, retryRemoteIntent w intent d1 = (r, d')) as [r Hr]
    by (apply dbind_inv in H1 as [(e & E & _)|(del & d2 & E & H1)]; [eauto|]; injection H1 as _ <-; eauto).
  apply retry_once in Hr as [Hp Hs]. fold id in Hs. rewrite (ca_sends _ _ Hc) in Hs. split; [etrans; [apply Hc|done]|].
  destruct Hs as [Hs|Hs]; [by left|right]. split; [done|]. by exists expiry.
Qed.

(** C11: A request in doubt is sent again only under its guarantee.  Reconciling an
    intent sends its mutation at most once more, and only after the host, asked
    for the resource, answered that it does not have it, while the uncertainty
    window of the intent is open, and while the idempotency key of the request has
    not expired by the clock that is read after the deadline. *)
Theorem resend_needs_open_window w d id result d' :
  records_requests w -> driver_reachable w d -> ReconcileIntent w id d = (result, d') ->
  sends id (d_trace d') = sends id (d_trace d) \/
  (exists outcome, sends id (d_trace d') = sends id (d_trace d) ++ [outcome]) /\ not_found (d_trace d') /\
  (exists intent d1 d2 deadline, calm d d1 /\ calm d d2 /\ GetLocalIntent (d_mirror d1) id = Ok intent /\
     uncertaintyDeadline w intent d1 = (Ok deadline, d2) /\ w_now w (d_ticks d2) < deadline) /\
  (exists d3 deadline, calm d d3 /\ LocalIntentIdempotencyExpiry (d_mirror (interfere w d3)) id = Ok (Some deadline) /\
     w_now w (S (d_ticks d3)) < deadline).
Proof.
  intros Hw Hinv%driver_reachable_inv H; [|done]. unfold ReconcileIntent in H.
  destruct (calm_bind _ _ _ _ _ _ (quiet_read w Hw _) Hinv (reflexivity d) H) as [Hend|(intent & d1 & Hinv1 & Hc1 & E1 & H1)]; [by left; apply Hend|].
  clear H. cbv zeta in H1. destruct (negb _ || _); [injection H1 as _ <-; by left; apply Hc1|].
  assert (GetLocalIntent (d_mirror d1) id = Ok intent) as Hget by (unfold getLocalIntent, store_read in E1; by injection E1 as E1 <-).
  destruct (GetLocalIntent_Ok _ _ _ Hget) as [Hid _].
  destruct (calm_bind _ _ _ _ _ _ (quiet_uncertainty w Hw intent) Hinv1 Hc1 H1) as [Hend|(deadline & d2 & Hinv2 & Hc2 & E2 & H2)]; [by left; apply Hend|].
  destruct (calm_bind _ _ _ _ _ _ (quiet_clock w Hw) Hinv2 Hc2 H2) as [Hend|(now & d3 & Hinv3 & Hc3 & E3 & H3)]; [by left; apply Hend|].
  apply dbind_inv in H3 as [(e & E & _)|(u & d4 & E4 & H4)]; [destruct (negb _); [injection E as _ <-|done]; by left; apply Hc3|].
  destruct (negb (now <? deadline)) eqn:Enow; [done|]. injection E4 as _ <-. injection E3 as <- _. bool_norm.
  destruct (hushed_lift _ _ d _ _ _ (calm_hushed _ _ Hc3) H4) as [Hend|(frame & Hf%read_frame_quiet & H5)]; [by left; apply Hend|].
  destruct (hushed_lift _ _ d _ _ _ (calm_hushed _ _ Hc3) H5) as [Hend|(streams & _ & H6)]; [by left; apply Hend|]. clear H1 H2 H4 H5.
  destruct (calm_bind _ _ _ _ _ _ (quiet_call_or_fail w _ _ _ Hf) Hinv3 Hc3 H6) as [Hend|(reply & d5 & Hinv5 & Hc5 & E5 & H7)]; [by left; apply Hend|].
  destruct (heard_call w (fun _ => True) ErrRemoteNotReconciled (target_profile (lic_Target (lir_create intent))) frame ltac:(apply _) Hf d3 Hinv3 I)
    as [_ Hsaid].
  rewrite E5 in Hsaid. destruct (Hsaid reply eq_refl) as [_ [Hin _]]. cbn [snd] in Hin.
  destruct (hushed_lift _ _ d _ _ _ (calm_hushed _ _ Hc5) H7) as [Hend|(outcome & Ho & H8)]; [by left; apply Hend|]. clear H6 H7 Hsaid.
  destruct outcome.
  { left. rewrite <- (ca_sends _ _ Hc5). apply hu_sends. rewrite <- (f_equal snd H8 : _ = d'). clear.
    match goal with |- hushed ?d (snd (?m ?d)) => revert d end.
    apply silent_bind; [apply silent_upsert|]. intros _. apply silent_bind; [destruct (bool_decide _); [apply silent_observe|by apply silent_pure]|].
    intros _. apply silent_bind; [apply silent_write|]. intros rec. by apply silent_pure. }
  apply reconcile_missing in Ho as (Hrid & Ht & payload & Hp & Hcode).
  apply (resend_after_missing w intent d5 result d' Hw Hinv5) in H8 as [Hpre [Hs|[[o Hs] (expiry & Hx & Hlt)]]]; rewrite Hid in *;
    rewrite (ca_sends _ _ Hc5) in Hs; [by left|right]. split_and!.
  - by exists o.
  - exists (target_profile (lic_Target (lir_create intent))), frame, reply, payload. split_and!; try done. destruct Hpre as [l ->].
    apply elem_of_app. by left.
  - by exists intent, d1, d2, deadline.
  - by exists d5, expiry.
Qed.

(** ** Witnesses *)

(** A host that loses the first answer to a submitted command. *)
Definition create_payload : string :=
  quoted "{'environment':'default','execution_target':{'kind':'remote','profile':'mac-mini'},'operation':'create_session','source':{'mode':'empty'}}".
Definition create_hash : CanonicalHash :=
  match HashMutationRequestJSON "create_session" create_payload [] with Ok h => h | Err _ => mkCanonicalHash 0 "" end.
Definition create_intent : LocalIntentCreate :=
  mkLocalIntentCreate "i0" "create_session" "s1" "s1" "" "" (mkExecutionTarget TargetKindRemote "mac-mini") " default "
    (mkControllerIdentity ControllerTypeLocalUser "alice") NewEmptySource create_hash "k0" 0 create_payload ""
    None (LocalIntentOther "") "" "" None 0 None.

Definition answer (frame : RequestFrame) (type : string) (payload : list (string * json)) : CallOutcome :=
  Replied (mkReplyFrame ProtocolVersion (rq_RequestID frame) type (Some (JObject payload))).

Definition lossy_call (trace : list Interaction) (_ : string) (frame : RequestFrame) : CallOutcome :=
  match rq_Operation frame with
  | OperationCreateOrResumeSession => answer frame "result" [("session_id", JString "s1"); ("session_state", JString "ready")]
  | OperationSubmitOrResumeCommand =>
      if is_nil (sends (rq_RequestID frame) trace) then CallFailed false
      else answer frame "result" [("command_id", JString "c1"); ("ordinal", JNumber "1")]
  | OperationGetCommand => answer frame "error" [("code", JString "resource_not_found"); ("message", JString "unknown command")]
  | _ => CallFailed true
  end.

Definition lossy_world : World :=
  mkWorld {["mac-mini" := true]} lossy_call (fun _ _ _ => mkStreamOutcome [] true) (fun n => t0 + Z.of_nat n * second)
    (fun n => match n with
              | O => [mkIngested t0 None t0 create_intent; mkIngested t0 None t0 (submit_intent "i1" "c1" "k1" "make")]
              | _ => []
              end).

Definition lossy_start : RemoteDriver := first_driver (mkAuthorityStore empty_db false [] []) "router" minute.
Definition states_of (d : RemoteDriver) : option LocalIntentDeliveryState * option LocalIntentDeliveryState :=
  (li_delivery_state <$> intents_of d !! "i0", li_delivery_state <$> intents_of d !! "i1").

Definition lossy_1 : RemoteDriver := Eval vm_compute in drives lossy_world [DopDispatchNext] lossy_start.
Definition lossy_2 : RemoteDriver := Eval vm_compute in drives lossy_world [DopDispatchNext; DopDispatchNext] lossy_start.
Definition lossy_3 : RemoteDriver := Eval vm_compute in drives lossy_world [DopDispatchNext; DopDispatchNext; DopReconcileIntent "i1"] lossy_start.

Example lossy_run :
  states_of lossy_1 = (Some LocalIntentAccepted, Some LocalIntentRecorded) /\
  states_of lossy_2 = (Some LocalIntentAccepted, Some LocalIntentUncertain) /\
  states_of lossy_3 = (Some LocalIntentAccepted, Some LocalIntentAccepted) /\ length (sends "i1" (d_trace lossy_3)) = 2%nat.
Proof. vm_compute. split; [reflexivity|]. split; [reflexivity|]. split; reflexivity. Qed.

Lemma lossy_requests : records_requests lossy_world.
Proof. intros [|n] i Hi; cbn in Hi; [|by apply not_elem_of_nil in Hi]. left. set_unfold. by destruct Hi as [->|[->|[]]]. Qed.

Lemma lossy_reaches history d : d = drives lossy_world history lossy_start -> driver_reachable lossy_world d.
Proof. intros ->. by exists (mkAuthorityStore empty_db false [] []), "router", minute, history. Qed.

Lemma lossy_reachable_1 : driver_reachable lossy_world lossy_1.
Proof. apply (lossy_reaches [DopDispatchNext]). vm_compute. reflexivity. Qed.
Lemma lossy_reachable_2 : driver_reachable lossy_world lossy_2.
Proof. apply (lossy_reaches [DopDispatchNext; DopDispatchNext]). vm_compute. reflexivity. Qed.
Lemma lossy_reachable_3 : driver_reachable lossy_world lossy_3.
Proof. apply (lossy_reaches [DopDispatchNext; DopDispatchNext; DopReconcileIntent "i1"]). vm_compute. reflexivity. Qed.

(** The two mutations sent for the command. *)
Lemma lossy_sent : exists p1 frame1 outcome1 p2 frame2 outcome2,
  Called p1 frame1 outcome1 ∈ d_trace lossy_3 /\ Called p2 frame2 outcome2 ∈ d_trace lossy_3 /\ outcome1 <> outcome2 /\
  is_mutation (rq_Operation frame1) = true /\ is_mutation (rq_Operation frame2) = true /\ rq_RequestID frame1 = rq_RequestID frame2.
Proof.
  eexists _, _, _, _, _, _. split; [apply list_elem_of_lookup; exists 1%nat; vm_compute; reflexivity|].
  split; [apply list_elem_of_lookup; exists 3%nat; vm_compute; reflexivity|]. split; [discriminate|]. split; [reflexivity|]. split; reflexivity.
Qed.

Lemma request_sent_as_one_frame_witness : exists p1 frame1 outcome1 p2 frame2 outcome2,
  Called p1 frame1 outcome1 ∈ d_trace lossy_3 /\ Called p2 frame2 outcome2 ∈ d_trace lossy_3 /\ outcome1 <> outcome2 /\ frame1 = frame2 /\ p1 = p2.
Proof.
  destruct lossy_sent as (p1 & f1 & o1 & p2 & f2 & o2 & H1 & H2 & Hne & M1 & M2 & E). exists p1, f1, o1, p2, f2, o2.
  destruct (request_sent_as_one_frame lossy_world lossy_3 p1 f1 o1 p2 f2 o2 lossy_requests lossy_reachable_3 H1 H2 M1 M2 E) as (Hf & Hp & _).
  split; [exact H1|]. split; [exact H2|]. split; [exact Hne|]. split; [exact Hf|exact Hp].
Defined.

Lemma lossy_rows : exists r r0, intents_of lossy_3 !! "i1" = Some r /\ li_delivery_state r = LocalIntentAccepted /\
  intents_of lossy_1 !! "i1" = Some r0 /\ li_delivery_state r0 = LocalIntentRecorded.
Proof. eexists _, _. split; [vm_compute; reflexivity|]. split; [reflexivity|]. split; [vm_compute; reflexivity|reflexivity]. Qed.


Lemma decided_request_not_resent_witness : exists r, intents_of lossy_3 !! "i1" = Some r /\ closed (li_delivery_state r) /\
  sends "i1" (d_trace (drives lossy_world [DopRestart "router" minute; DopDispatchIntent "i1"; DopReconcileIntent "i1"] lossy_3)) = sends "i1" (d_trace lossy_3).
Proof.
  destruct lossy_rows as (r & r0 & Hr & Hst & _). exists r. split; [exact Hr|]. assert (closed (li_delivery_state r)) as Hc by (left; exact Hst).
  split; [exact Hc|]. exact (decided_request_not_resent lossy_world lossy_3 "i1" r _ lossy_requests lossy_reachable_3 Hr Hc).
Defined.

Lemma lossy_session : exists r rc, intents_of lossy_1 !! "i1" = Some r /\ li_operation r = operationSubmitCommand /\
  intents_of lossy_1 !! "i0" = Some rc /\ li_operation rc = operationCreateSession /\ li_resource_id rc = li_session_id r /\
  li_controller rc = li_controller r /\ target_profile (li_target r) = "mac-mini" /\ li_session_id r = "s1".
Proof.
  eexists _, _. split; [vm_compute; reflexivity|]. split; [reflexivity|]. split; [vm_compute; reflexivity|]. split; [reflexivity|].
  split; [reflexivity|]. split; [reflexivity|]. split; reflexivity.
Qed.

Lemma lossy_dispatch : exists e d', dispatchIntent lossy_world "i1" lossy_1 = (Err e, d') /\ length (sends "i1" (d_trace d')) = 1%nat.
Proof. eexists _, _. split; [vm_compute; reflexivity|reflexivity]. Qed.


Lemma lossy_reconcile : exists v d', ReconcileIntent lossy_world "i1" lossy_2 = (Ok v, d') /\ length (sends "i1" (d_trace d')) = 2%nat.
Proof. eexists _, _. split; [vm_compute; reflexivity|reflexivity]. Qed.

Lemma resend_needs_open_window_witness : exists v d', ReconcileIntent lossy_world "i1" lossy_2 = (Ok v, d') /\ not_found (d_trace d').
Proof.
  destruct lossy_reconcile as (v & d' & H & Hlen). exists v, d'. split; [exact H|].
  destruct (resend_needs_open_window lossy_world lossy_2 "i1" (Ok v) d' lossy_requests lossy_reachable_2 H) as [Hsame|(_ & Hnf & _)].
  - exfalso. rewrite Hsame in Hlen. vm_compute in Hlen. discriminate.
  - exact Hnf.
Defined.
