(* ===== verification/Subscribers.v ===== *)
(** * Live event subscribers

    Models [src/src/internal/store/subscribers.go]: the bounded queue of one
    subscriber, the hand-off from the replayed prefix to the live events, and
    the table of subscribers of the store.

    A critical section under [mu] is one function on the subscription.  The
    buffered channel [events] is the list of the queued events, [errors] the
    list of the queued errors; both channels are closed exactly when [closed]
    is set.  A nil map is the empty map: the code only reads, ranges over and
    deletes from [pending] after it is set to nil. *)
From S2P Require Import Prelude GoStrings Sha256 Identity Lifecycle Policy Canonical LaneAdmission.
From S2P Require Import AuditRecords Db AuditStore AdmissionStore Idempotency Sessions Commands LostRecovery.
From S2P Require Import RestartPlan Jobs Scheduler Authority AuthorityOps JobOps Histories AuthorityTheorems.

Record CommandEventSubscription : Type := mkSubscription {
  sub_commandID : string;
  sub_capacity : Z;
  sub_maxBytes : Z;
  sub_events : list CommandEventRecord;
  sub_errors : list error;
  sub_replaying : bool;
  sub_pending : gmap Z CommandEventRecord;
  sub_charged : gmap Z Z;
  sub_bufferedBytes : Z;
  sub_lastSequence : Z;
  sub_closed : bool
}.

Definition newSubscription (commandID : string) (capacity maxBytes afterSequence : Z) : CommandEventSubscription :=
  mkSubscription commandID capacity maxBytes [] [] true ∅ ∅ 0 afterSequence false.

(** [len(event.Payload)] *)
Definition payload_bytes (event : CommandEventRecord) : Z := go_len (ev_Payload event).

Definition canBufferLocked (s : CommandEventSubscription) (event : CommandEventRecord) : bool :=
  let bytes := payload_bytes event in
  (bytes <=? sub_maxBytes s) && (sub_bufferedBytes s <=? sub_maxBytes s - bytes).

Definition chargeLocked (s : CommandEventSubscription) (event : CommandEventRecord) : CommandEventSubscription :=
  mkSubscription (sub_commandID s) (sub_capacity s) (sub_maxBytes s) (sub_events s) (sub_errors s) (sub_replaying s)
    (sub_pending s) (<[ev_Sequence event := payload_bytes event]> (sub_charged s))
    (sub_bufferedBytes s + payload_bytes event) (sub_lastSequence s) (sub_closed s).

(** [delete(s.charged, sequence); s.bufferedBytes -= size] when the sequence is charged *)
Definition uncharge (s : CommandEventSubscription) (sequence : Z) : CommandEventSubscription :=
  match sub_charged s !! sequence with
  | Some size =>
      mkSubscription (sub_commandID s) (sub_capacity s) (sub_maxBytes s) (sub_events s) (sub_errors s)
        (sub_replaying s) (sub_pending s) (delete sequence (sub_charged s)) (sub_bufferedBytes s - size)
        (sub_lastSequence s) (sub_closed s)
  | None => s
  end.

Definition Acknowledge (s : CommandEventSubscription) (event : CommandEventRecord) : CommandEventSubscription :=
  uncharge s (ev_Sequence event).

(** The sequences of [pending], in ascending order. *)
Definition pending_sequences (s : CommandEventSubscription) : list Z :=
  merge_sort (≤) (fst <$> map_to_list (sub_pending s)).

(** The order in which [range s.pending] visits the sequences does not matter. *)
Definition terminateLocked (s : CommandEventSubscription) (err : option error) : CommandEventSubscription :=
  if sub_closed s then s
  else
    let s := fold_left uncharge (pending_sequences s) s in
    mkSubscription (sub_commandID s) (sub_capacity s) (sub_maxBytes s) (sub_events s)
      (sub_errors s ++ option_list err) (sub_replaying s) ∅ (sub_charged s) (sub_bufferedBytes s)
      (sub_lastSequence s) true.

Definition set_pending (s : CommandEventSubscription) (pending : gmap Z CommandEventRecord) : CommandEventSubscription :=
  mkSubscription (sub_commandID s) (sub_capacity s) (sub_maxBytes s) (sub_events s) (sub_errors s) (sub_replaying s)
    pending (sub_charged s) (sub_bufferedBytes s) (sub_lastSequence s) (sub_closed s).

(** [s.events <- event; s.lastSequence = event.Sequence] *)
Definition queue_event (s : CommandEventSubscription) (event : CommandEventRecord) : CommandEventSubscription :=
  mkSubscription (sub_commandID s) (sub_capacity s) (sub_maxBytes s) (sub_events s ++ [event]) (sub_errors s)
    (sub_replaying s) (sub_pending s) (sub_charged s) (sub_bufferedBytes s) (ev_Sequence event) (sub_closed s).

(** The payload is copied, so the queued event is a value. *)
Definition enqueueLocked (s : CommandEventSubscription) (event : CommandEventRecord)
    : bool * CommandEventSubscription :=
  if sub_closed s || (ev_Sequence event <=? sub_lastSequence s) then
    (negb (sub_closed s), set_pending s (delete (ev_Sequence event) (sub_pending s)))
  else
    let alreadyCharged := is_Some_b (sub_charged s !! ev_Sequence event) in
    if negb alreadyCharged && negb (canBufferLocked s event) then
      (false, terminateLocked s (Some ErrSubscriberOverflow))
    else if Z.of_nat (length (sub_events s)) <? sub_capacity s then
      let s := if alreadyCharged then s else chargeLocked s event in
      let s := set_pending s (delete (ev_Sequence event) (sub_pending s)) in
      (true, queue_event s event)
    else (false, terminateLocked s (Some ErrSubscriberOverflow)).

(** The loops of [replay] and [finishReplay]: enqueue until one event is refused. *)
Fixpoint enqueueAll (s : CommandEventSubscription) (events : list CommandEventRecord)
    : bool * CommandEventSubscription :=
  match events with
  | [] => (true, s)
  | event :: rest =>
      match enqueueLocked s event with
      | (true, s') => enqueueAll s' rest
      | (false, s') => (false, s')
      end
  end.

Definition Subscription_replay (s : CommandEventSubscription) (events : list CommandEventRecord)
    : bool * CommandEventSubscription :=
  if sub_closed s then (false, s) else enqueueAll s events.

Definition set_live (s : CommandEventSubscription) : CommandEventSubscription :=
  mkSubscription (sub_commandID s) (sub_capacity s) (sub_maxBytes s) (sub_events s) (sub_errors s) false
    (sub_pending s) (sub_charged s) (sub_bufferedBytes s) (sub_lastSequence s) (sub_closed s).

(** The Boolean asks the caller to remove the subscriber from the store's table. *)
Definition finishReplay (s : CommandEventSubscription) : bool * CommandEventSubscription :=
  if sub_closed s then (false, s)
  else
    let s := set_live s in
    let events := omap (fun sequence => sub_pending s !! sequence) (pending_sequences s) in
    let s := (enqueueAll s events).2 in
    (sub_closed s, if sub_closed s then s else set_pending s ∅).

Definition Subscription_publish (s : CommandEventSubscription) (event : CommandEventRecord)
    : bool * CommandEventSubscription :=
  if sub_closed s || (ev_Sequence event <=? sub_lastSequence s) then (false, s)
  else if sub_replaying s then
    match sub_pending s !! ev_Sequence event with
    | Some _ => (false, s)
    | None =>
        if (sub_capacity s <=? Z.of_nat (size (sub_pending s))) || negb (canBufferLocked s event)
        then (true, terminateLocked s (Some ErrSubscriberOverflow))
        else (false, chargeLocked (set_pending s (<[ev_Sequence event := event]> (sub_pending s))) event)
    end
  else
    match enqueueLocked s event with
    | (queued, s') => (negb queued, s')
    end.

(** A receive from [Events()]; the channel can be drained after it is closed. *)
Definition receive (s : CommandEventSubscription) : option (CommandEventRecord * CommandEventSubscription) :=
  match sub_events s with
  | [] => None
  | event :: rest =>
      Some (event, mkSubscription (sub_commandID s) (sub_capacity s) (sub_maxBytes s) rest (sub_errors s)
        (sub_replaying s) (sub_pending s) (sub_charged s) (sub_bufferedBytes s) (sub_lastSequence s) (sub_closed s))
  end.

(** ** The table of subscribers

    Subscriptions are shared through pointers: [subs_heap] maps a pointer to
    the subscription it points to, [subscribersByID] a command to the pointers
    that are registered for it. *)
Record SubscriberTable : Type := mkSubscriberTable {
  subs_heap : gmap nat CommandEventSubscription;
  subscribersByID : gmap string (gset nat)
}.

Definition byCommand (t : SubscriberTable) (commandID : string) : gset nat :=
  default ∅ (subscribersByID t !! commandID).

Definition store_sub (t : SubscriberTable) (p : nat) (s : CommandEventSubscription) : SubscriberTable :=
  mkSubscriberTable (<[p := s]> (subs_heap t)) (subscribersByID t).

Definition addSubscriber (t : SubscriberTable) (commandID : string) (p : nat) : SubscriberTable :=
  mkSubscriberTable (subs_heap t) (<[commandID := {[p]} ∪ byCommand t commandID]> (subscribersByID t)).

Definition removeSubscriber (t : SubscriberTable) (commandID : string) (p : nat) : SubscriberTable :=
  let rest := byCommand t commandID ∖ {[p]} in
  mkSubscriberTable (subs_heap t)
    (if decide (rest = ∅) then delete commandID (subscribersByID t)
     else <[commandID := rest]> (subscribersByID t)).

(** Apply an operation to the subscription at [p]; it asks for the removal with [true]. *)
Definition at_subscription (t : SubscriberTable) (p : nat)
    (f : CommandEventSubscription -> bool * CommandEventSubscription) : SubscriberTable :=
  match subs_heap t !! p with
  | None => t
  | Some s =>
      let '(remove, s') := f s in
      let t' := store_sub t p s' in
      if remove then removeSubscriber t' (sub_commandID s) p else t'
  end.

(** The order in which the registered subscribers are visited does not matter. *)
Definition publishCommandEvent (t : SubscriberTable) (event : CommandEventRecord) : SubscriberTable :=
  fold_left (fun t p => at_subscription t p (fun s => Subscription_publish s event))
    (elements (byCommand t (ev_CommandID event))) t.

Definition Subscription_Close (t : SubscriberTable) (p : nat) : SubscriberTable :=
  at_subscription t p (fun s => (true, terminateLocked s None)).

(** [SubscribeCommandEventsWithByteLimit] run without interruption, on the
    fresh pointer [p].  Its four sections (registration, replay query, [replay],
    [finishReplay]) interleave with publications in [subscriber_step] below. *)
Definition SubscribeCommandEventsWithByteLimit (s : AuthorityStore) (t : SubscriberTable) (p : nat)
    (id : string) (afterSequence capacity maxBufferedBytes : Z) : result nat * SubscriberTable :=
  match NewCommandID id with
  | Err e => (Err e, t)
  | Ok validatedID =>
      if (afterSequence <? 0) || (capacity <=? 0) || (maxBufferedBytes <=? 0) then (Err ErrInvalidSubscriber, t)
      else
        let subscription := newSubscription validatedID capacity maxBufferedBytes afterSequence in
        let t := addSubscriber (store_sub t p subscription) validatedID p in
        match ReplayCommandEvents s validatedID afterSequence with
        | Err e => (Err e, Subscription_Close t p)
        | Ok replay =>
            let t := at_subscription t p (fun sub => let '(ok, sub') := Subscription_replay sub replay in (negb ok, sub')) in
            (Ok p, at_subscription t p finishReplay)
        end
  end.

Definition SubscribeCommandEvents (s : AuthorityStore) (t : SubscriberTable) (p : nat) (id : string)
    (afterSequence capacity : Z) : result nat * SubscriberTable :=
  SubscribeCommandEventsWithByteLimit s t p id afterSequence capacity (SubscriberBufferBytes DefaultServiceLimits).

(** ** Interleavings

    One subscriber of one command, against the goroutines that commit and
    publish the events of that command and the consumer that drains the
    channel.  Publications happen after the commit, outside the transaction;
    here they come in commit order ([w_published] counts them). *)
Inductive SubscribePhase : Type :=
  | PhaseQuery                                        (* registered, before the replay query *)
  | PhaseReplay (events : list CommandEventRecord)    (* the query returned [events] *)
  | PhaseHandoff                                      (* [replay] returned true *)
  | PhaseReturned.                                    (* the subscriber has the subscription *)

Record SubscriberWorld : Type := mkWorld {
  w_committed : list CommandEventRecord;    (* the event rows of the command *)
  w_published : nat;                        (* how many were handed to [publishCommandEvent] *)
  w_phase : SubscribePhase;
  w_sub : CommandEventSubscription;
  w_received : list CommandEventRecord;     (* taken from the channel, oldest first *)
  w_unacked : list CommandEventRecord       (* received and not acknowledged *)
}.

Section interleavings.
Context (after capacity maxBytes : Z).

(** A subscriber registers when the command has the events [committed], of
    which the first [n] were published. *)
Definition subscriber_start (commandID : string) (committed : list CommandEventRecord) (n : nat) : SubscriberWorld :=
  mkWorld committed n PhaseQuery (newSubscription commandID capacity maxBytes after) [] [].

Inductive subscriber_step : SubscriberWorld -> SubscriberWorld -> Prop :=
  | ss_commit c n ph s rcv ua ev :
      ev_Sequence ev = Z.of_nat (length c) + 1 ->
      subscriber_step (mkWorld c n ph s rcv ua) (mkWorld (c ++ [ev]) n ph s rcv ua)
  | ss_publish c n ph s rcv ua ev :
      c !! n = Some ev ->
      subscriber_step (mkWorld c n ph s rcv ua) (mkWorld c (S n) ph (Subscription_publish s ev).2 rcv ua)
  | ss_query c n s rcv ua :
      subscriber_step (mkWorld c n PhaseQuery s rcv ua)
        (mkWorld c n (PhaseReplay (drop (Z.to_nat after) c)) s rcv ua)
  | ss_replay c n events s rcv ua ok s' :
      Subscription_replay s events = (ok, s') ->
      subscriber_step (mkWorld c n (PhaseReplay events) s rcv ua)
        (mkWorld c n (if ok then PhaseHandoff else PhaseReturned) s' rcv ua)
  | ss_finish c n s rcv ua :
      subscriber_step (mkWorld c n PhaseHandoff s rcv ua) (mkWorld c n PhaseReturned (finishReplay s).2 rcv ua)
  | ss_receive c n ph s rcv ua ev s' :
      receive s = Some (ev, s') ->
      subscriber_step (mkWorld c n ph s rcv ua) (mkWorld c n ph s' (rcv ++ [ev]) (ua ++ [ev]))
  | ss_acknowledge c n ph s rcv ua1 ev ua2 :
      subscriber_step (mkWorld c n ph s rcv (ua1 ++ ev :: ua2)) (mkWorld c n ph (Acknowledge s ev) rcv (ua1 ++ ua2))
  | ss_close c n ph s rcv ua :
      subscriber_step (mkWorld c n ph s rcv ua) (mkWorld c n ph (terminateLocked s None) rcv ua).
End interleavings.
