(* ===== verification/SubscriberTheorems.v ===== *)
(** * Correctness of the subscribers

    The hand-off from replay to live events under every interleaving, the
    bounds of the queue and of its byte account, the table of subscribers, and
    what a subscription to a reachable store delivers. *)
From S2P Require Import Prelude GoStrings Sha256 Identity Lifecycle Policy Canonical LaneAdmission.
From S2P Require Import AuditRecords Db AuditStore AdmissionStore Idempotency Sessions Commands LostRecovery.
From S2P Require Import RestartPlan Jobs Scheduler Authority AuthorityOps JobOps Histories AuthorityTheorems.
From S2P Require Import Subscribers.

(** The committed events with a sequence in [(after, last]]. *)
Definition window (after last : Z) (c : list CommandEventRecord) : list CommandEventRecord :=
  drop (Z.to_nat after) (take (Z.to_nat last) c).

(** The event with sequence [q]. *)
Definition is_event (c : list CommandEventRecord) (q : Z) (ev : CommandEventRecord) : Prop :=
  1 <= q /\ ev_Sequence ev = q /\ c !! Z.to_nat (q - 1) = Some ev.

Definition numbered (c : list CommandEventRecord) : Prop :=
  forall i ev, c !! i = Some ev -> ev_Sequence ev = Z.of_nat i + 1.

Definition total (charged : gmap Z Z) : Z := map_fold (fun _ size acc => size + acc) 0 charged.

(** Who holds the bytes that are charged. *)
Definition holds (s : CommandEventSubscription) (ua : list CommandEventRecord) (q : Z) (ev : CommandEventRecord) : Prop :=
  ev_Sequence ev = q /\ (ev ∈ sub_events s \/ ev ∈ ua \/ sub_pending s !! q = Some ev).

(** ** Charged bytes *)
Lemma total_insert m q size : m !! q = None -> total (<[q := size]> m) = size + total m.
Proof. intros H. unfold total. rewrite map_fold_insert_L; [done|intros; lia|done]. Qed.

Lemma total_delete m q size : m !! q = Some size -> total (delete q m) = total m - size.
Proof. intros H. unfold total. rewrite (map_fold_delete_L _ _ q size m); [lia|intros; lia|done]. Qed.

Lemma total_nonneg m : (forall q size, m !! q = Some size -> 0 <= size) -> 0 <= total m.
Proof.
  unfold total. induction m as [|q size m Hq IH] using map_ind; intros H; [by rewrite map_fold_empty|].
  rewrite map_fold_insert_L by (done || (intros; lia)). assert (0 <= size) by (eapply H, lookup_insert_eq).
  cut (0 <= map_fold (fun _ size acc => size + acc) 0 m); [lia|]. apply IH. intros q' x Hx. eapply (H q').
  rewrite lookup_insert_ne by congruence. done.
Qed.

Lemma total_empty m : (forall q, m !! q = None) -> total m = 0.
Proof. intros H. replace m with (∅ : gmap Z Z); [done|]. symmetry. by apply map_empty. Qed.

Section invariant.
Context (after capacity maxBytes : Z) (Hafter : 0 <= after).

Record sub_ok (c : list CommandEventRecord) (n : nat) (rcv ua : list CommandEventRecord)
    (s : CommandEventSubscription) : Prop := {
  ok_window : rcv ++ sub_events s = window after (sub_lastSequence s) c;
  ok_last : after <= sub_lastSequence s /\ (sub_lastSequence s = after \/ sub_lastSequence s <= Z.of_nat (length c));
  ok_unacked : forall ev, ev ∈ ua -> ev ∈ rcv;
  ok_unacked_nodup : NoDup (ev_Sequence <$> ua);
  ok_pending : forall q ev, sub_pending s !! q = Some ev ->
    sub_lastSequence s < q <= Z.of_nat n /\ is_event c q ev;
  ok_charged : forall q size, sub_charged s !! q = Some size <-> exists ev, holds s ua q ev /\ size = payload_bytes ev;
  ok_bytes : sub_bufferedBytes s = total (sub_charged s) /\ sub_bufferedBytes s <= maxBytes;
  ok_sizes : Z.of_nat (length (sub_events s)) <= capacity /\ Z.of_nat (size (sub_pending s)) <= capacity;
  ok_config : sub_capacity s = capacity /\ sub_maxBytes s = maxBytes;
  ok_errors : sub_errors s = (if sub_closed s then sub_errors s else []) /\
    (sub_errors s = [] \/ sub_errors s = [ErrSubscriberOverflow]);
  ok_closed : sub_closed s = true -> sub_pending s = ∅
}.

(** *** Closing *)
Record only_uncharged (l : list Z) (s s' : CommandEventSubscription) : Prop := {
  ou_charged : forall q, sub_charged s' !! q = if decide (q ∈ l) then None else sub_charged s !! q;
  ou_bytes : sub_bufferedBytes s' - total (sub_charged s') = sub_bufferedBytes s - total (sub_charged s);
  ou_less : (forall q size, sub_charged s !! q = Some size -> 0 <= size) -> sub_bufferedBytes s' <= sub_bufferedBytes s;
  ou_events : sub_events s' = sub_events s;
  ou_pending : sub_pending s' = sub_pending s;
  ou_errors : sub_errors s' = sub_errors s;
  ou_last : sub_lastSequence s' = sub_lastSequence s;
  ou_config : sub_capacity s' = sub_capacity s /\ sub_maxBytes s' = sub_maxBytes s /\ sub_commandID s' = sub_commandID s;
  ou_flags : sub_replaying s' = sub_replaying s /\ sub_closed s' = sub_closed s
}.

Lemma uncharge_only q s : only_uncharged [q] s (uncharge s q).
Proof.
  unfold uncharge. destruct (sub_charged s !! q) as [size|] eqn:Hq; split; cbn; try done.
  - intros q'. rewrite lookup_delete. repeat case_decide; rewrite ?list_elem_of_singleton in *; congruence.
  - rewrite (total_delete _ _ size) by done. lia.
  - intros H. specialize (H _ _ Hq). lia.
  - intros q'. case_decide; rewrite ?list_elem_of_singleton in *; congruence.
Qed.

Lemma uncharge_fold l s : only_uncharged l s (fold_left uncharge l s).
Proof.
  revert s. induction l as [|q l IH]; intros s; cbn [fold_left]; [by split|].
  destruct (uncharge_only q s) as [A1 A2 A3 A4 A5 A6 A7 (A8 & A9 & A10) [A11 A12]].
  destruct (IH (uncharge s q)) as [B1 B2 B3 B4 B5 B6 B7 (B8 & B9 & B10) [B11 B12]].
  split; try congruence; try (split_and!; congruence).
  - intros q'. rewrite B1, A1. destruct (decide (q' ∈ l)), (decide (q' ∈ [q])), (decide (q' ∈ q :: l)); try done; set_solver.
  - intros H. etrans; [apply B3|by apply A3]. intros q' size. rewrite A1. case_decide; [done|apply H].
Qed.

Lemma elem_pending_sequences s q : q ∈ pending_sequences s <-> is_Some (sub_pending s !! q).
Proof.
  unfold pending_sequences. rewrite merge_sort_Permutation, list_elem_of_fmap. split.
  - intros ([q' ev] & -> & H%elem_of_map_to_list). by eexists.
  - intros [ev H]. exists (q, ev). split; [done|]. by apply elem_of_map_to_list.
Qed.

Lemma payload_bytes_nonneg ev : 0 <= payload_bytes ev.
Proof. apply go_len_nonneg. Qed.

Lemma window_sequences c last ev :
  numbered c -> ev ∈ window after last c -> after < ev_Sequence ev <= last /\ is_event c (ev_Sequence ev) ev.
Proof.
  intros Hn [i Hi]%list_elem_of_lookup. unfold window in Hi. rewrite lookup_drop in Hi.
  pose proof (lookup_lt_Some _ _ _ Hi) as Hlt. rewrite length_take in Hlt.
  rewrite lookup_take_lt in Hi by lia. pose proof (Hn _ _ Hi) as Hs. unfold is_event. rewrite Hs.
  replace (Z.to_nat (_ + 1 - 1)) with (Z.to_nat after + i)%nat by lia. split_and!; [lia..|done].
Qed.

Lemma window_nodup c last : numbered c -> NoDup (ev_Sequence <$> window after last c).
Proof.
  intros Hn. apply NoDup_alt. intros i j q. unfold window. rewrite !list_lookup_fmap, !lookup_drop.
  intros (e1 & H1 & ->)%fmap_Some (e2 & H2 & Heq)%fmap_Some.
  apply lookup_take_Some in H1 as [H1 _], H2 as [H2 _]. apply Hn in H1, H2. lia.
Qed.

Lemma held_sequences c n rcv ua s ev :
  numbered c -> sub_ok c n rcv ua s -> ev ∈ sub_events s \/ ev ∈ ua ->
  ev_Sequence ev <= sub_lastSequence s /\ is_event c (ev_Sequence ev) ev.
Proof.
  intros Hn H Hev. destruct (window_sequences c (sub_lastSequence s) ev) as [? ?]; [done| |by split; [lia|]].
  rewrite <-(ok_window _ _ _ _ _ H), elem_of_app. destruct Hev; [by right|left]. by eapply ok_unacked.
Qed.

Lemma is_event_unique c q ev ev' : is_event c q ev -> is_event c q ev' -> ev' = ev.
Proof. intros (_ & _ & H1) (_ & _ & H2). congruence. Qed.

Lemma terminate_ok c n rcv ua s err :
  numbered c -> sub_ok c n rcv ua s -> err = None \/ err = Some ErrSubscriberOverflow ->
  sub_ok c n rcv ua (terminateLocked s err) /\ sub_closed (terminateLocked s err) = true.
Proof.
  intros Hn H Herr. unfold terminateLocked. destruct (sub_closed s) eqn:Hc; [done|].
  destruct (uncharge_fold (pending_sequences s) s) as [H1 H2 H3 H4 H5 H6 H7 (H8 & H9 & _) [H10 H11]].
  set (s' := fold_left uncharge (pending_sequences s) s) in *.
  split; [|done]. pose proof H as [Hw Hl Hu Hnd Hp Hch [Hb Hle] Hz Hcf [He _] _]. rewrite Hc in He.
  assert (forall ev q, (ev ∈ sub_events s \/ ev ∈ ua) -> ev_Sequence ev = q -> sub_pending s !! q = None) as Hdis.
  { intros ev q Hev <-. destruct (sub_pending s !! ev_Sequence ev) as [ev'|] eqn:E; [|done].
    destruct (Hp _ _ E) as [? _]. destruct (held_sequences c n rcv ua s ev); [done..|]. lia. }
  split; cbn [sub_events sub_lastSequence sub_pending sub_charged sub_bufferedBytes sub_capacity sub_maxBytes
    sub_errors sub_closed]; rewrite ?H4, ?H6, ?H7, ?H8, ?H9; try done.
  - intros q size. rewrite H1. unfold holds. cbn [sub_events sub_pending].
    setoid_rewrite lookup_empty. case_decide as Hq; rewrite elem_pending_sequences in Hq.
    + split; [done|]. intros (ev & [Hs Hh] & _). destruct Hq as [ev' Hq].
      rewrite (Hdis ev) in Hq; [done| |done]. destruct Hh as [?|[?|?]]; [by left|by right|done].
    + rewrite Hch. unfold holds. split; intros (ev & [Hs Hh] & ->); exists ev; split_and!; try done; [|naive_solver].
      destruct Hh as [?|[?|Hpe]]; [tauto..|]. destruct Hq. by eexists.
  - split; [lia|]. etrans; [apply H3|done]. intros q size (ev & _ & ->)%Hch. apply payload_bytes_nonneg.
  - destruct Hz. split; [done|]. rewrite map_size_empty. lia.
  - rewrite He. destruct Herr as [->| ->]; cbn; auto.
Qed.

(** *** Queueing the next event *)
Lemma window_snoc c last ev :
  after <= last -> is_event c (last + 1) ev -> window after (last + 1) c = window after last c ++ [ev].
Proof.
  intros Ha (_ & _ & Hc). unfold window. replace (Z.to_nat (last + 1 - 1)) with (Z.to_nat last) in Hc by lia.
  pose proof (lookup_lt_Some _ _ _ Hc). replace (Z.to_nat (last + 1)) with (S (Z.to_nat last)) by lia.
  rewrite (take_S_r _ _ ev) by done. rewrite drop_app_le; [done|]. rewrite length_take. lia.
Qed.

(** The subscription after the event was sent on the channel. *)
Definition sent (s : CommandEventSubscription) (ev : CommandEventRecord) : CommandEventSubscription :=
  let s := if is_Some_b (sub_charged s !! ev_Sequence ev) then s else chargeLocked s ev in
  queue_event (set_pending s (delete (ev_Sequence ev) (sub_pending s))) ev.

Lemma sent_fields s ev :
  sub_events (sent s ev) = sub_events s ++ [ev] /\ sub_pending (sent s ev) = delete (ev_Sequence ev) (sub_pending s) /\
  sub_lastSequence (sent s ev) = ev_Sequence ev /\ sub_closed (sent s ev) = sub_closed s /\
  sub_replaying (sent s ev) = sub_replaying s /\ sub_errors (sent s ev) = sub_errors s /\
  sub_capacity (sent s ev) = sub_capacity s /\ sub_maxBytes (sent s ev) = sub_maxBytes s.
Proof. unfold sent. destruct (is_Some_b _); by split_and!. Qed.

Lemma next_charge c n rcv ua s ev :
  numbered c -> sub_ok c n rcv ua s -> is_event c (sub_lastSequence s + 1) ev ->
  forall size, sub_charged s !! ev_Sequence ev = Some size -> size = payload_bytes ev.
Proof.
  intros Hn H Hev size (ev' & [Hs Hh] & ->)%(ok_charged _ _ _ _ _ H). f_equal. pose proof Hev as (_ & Hq & _).
  destruct (decide (ev' ∈ sub_events s \/ ev' ∈ ua)) as [Hin|Hin].
  - destruct (held_sequences c n rcv ua s ev') as [? _]; [done..|]. lia.
  - assert (sub_pending s !! ev_Sequence ev = Some ev') as Hpe by tauto.
    destruct (ok_pending _ _ _ _ _ H _ _ Hpe) as [_ He]. rewrite Hq in He. by eapply is_event_unique.
Qed.

Lemma sent_charged c n rcv ua s ev :
  numbered c -> sub_ok c n rcv ua s -> is_event c (sub_lastSequence s + 1) ev ->
  sub_charged (sent s ev) = <[ev_Sequence ev := payload_bytes ev]> (sub_charged s).
Proof.
  intros Hn H Hev. unfold sent. destruct (sub_charged s !! ev_Sequence ev) as [size|] eqn:E; [|done].
  cbn. rewrite insert_id; [done|]. rewrite E. f_equal. by eapply next_charge.
Qed.

Lemma sent_ok c n rcv ua s ev :
  numbered c -> sub_ok c n rcv ua s -> sub_closed s = false -> is_event c (sub_lastSequence s + 1) ev ->
  (sub_charged s !! ev_Sequence ev = None -> canBufferLocked s ev = true) ->
  Z.of_nat (length (sub_events s)) < capacity -> sub_ok c n rcv ua (sent s ev).
Proof.
  intros Hn H Hcl Hev Hcan Hlen. destruct (sent_fields s ev) as (F1 & F2 & F3 & F4 & F5 & F6 & F7 & F8).
  pose proof (sent_charged _ _ _ _ _ _ Hn H Hev) as Fc.
  pose proof H as [Hw Hl Hu Hnd Hp Hch [Hb Hle] Hz [Hcap Hmax] He Hclp]. pose proof Hev as (_ & Hq & Hlk).
  split; rewrite ?F1, ?F2, ?F3, ?F4, ?F6, ?F7, ?F8, ?Hq; try done.
  - rewrite (window_snoc c _ ev) by (done || lia). by rewrite app_assoc, Hw.
  - apply lookup_lt_Some in Hlk. lia.
  - intros q e. rewrite lookup_delete_Some. intros [Hne Hpe]. destruct (Hp _ _ Hpe). split; [lia|done].
  - intros q size. rewrite Fc, Hq, lookup_insert. unfold holds. rewrite F1, F2, Hq. case_decide as Hqq.
    + subst q. split.
      * intros [= <-]. exists ev. split_and!; [done| |done]. left. set_solver.
      * intros (e & [Hs Hh] & ->). rewrite elem_of_app, list_elem_of_singleton in Hh. do 2 f_equal.
        rewrite lookup_delete_eq in Hh. destruct Hh as [[Hin| ->]|[Hin|?]]; [|done| |done];
          destruct (held_sequences c n rcv ua s e) as [? _]; auto; lia.
    + rewrite Hch. unfold holds. rewrite lookup_delete_ne by done. setoid_rewrite elem_of_app.
      setoid_rewrite list_elem_of_singleton. split; intros (e & [Hs Hh] & ->); exists e; split_and!; try done; [tauto|].
      destruct Hh as [[?| ->]|?]; [tauto|congruence|tauto].
  - rewrite Fc. unfold sent. destruct (sub_charged s !! ev_Sequence ev) as [size|] eqn:E; cbn [is_Some_b].
    + cbn. rewrite insert_id; [done|]. rewrite E. f_equal. by eapply next_charge.
    + cbn. rewrite total_insert by done. specialize (Hcan eq_refl). unfold canBufferLocked in Hcan. bool_norm. lia.
  - rewrite length_app. cbn. split; [lia|]. etrans; [|apply Hz]. apply inj_le, map_subseteq_size, delete_subseteq.
  - by rewrite Hcl.
Qed.

Lemma enqueue_next c n rcv ua s ev b s' :
  numbered c -> sub_ok c n rcv ua s -> sub_closed s = false -> is_event c (sub_lastSequence s + 1) ev ->
  enqueueLocked s ev = (b, s') ->
  sub_ok c n rcv ua s' /\ if b then s' = sent s ev else sub_closed s' = true.
Proof.
  intros Hn H Hcl Hev. unfold enqueueLocked. rewrite Hcl. pose proof Hev as (_ & Hq & _). cbn [orb].
  replace (ev_Sequence ev <=? sub_lastSequence s) with false by lia.
  assert (sub_capacity s = capacity) as Hcap by apply H.
  destruct (negb _ && negb _) eqn:Ech; [|destruct (_ <? _) eqn:El].
  - intros [= <- <-]. apply terminate_ok; auto.
  - intros [= <- <-]. split; [|done]. apply Z.ltb_lt in El. apply sent_ok; try done; [|lia].
    intros Hnone. rewrite Hnone in Ech. by apply negb_false_iff in Ech.
  - intros [= <- <-]. apply terminate_ok; auto.
Qed.

Lemma enqueueAll_next c n rcv ua evs s b s' :
  numbered c -> sub_ok c n rcv ua s -> sub_closed s = false ->
  (forall i ev, evs !! i = Some ev -> is_event c (sub_lastSequence s + 1 + Z.of_nat i) ev) ->
  enqueueAll s evs = (b, s') ->
  sub_ok c n rcv ua s' /\
  if b then sub_closed s' = false /\ sub_replaying s' = sub_replaying s /\
            sub_lastSequence s' = sub_lastSequence s + Z.of_nat (length evs) /\
            forall q, sub_lastSequence s' < q -> sub_pending s' !! q = sub_pending s !! q
  else sub_closed s' = true.
Proof.
  intros Hn. revert s. induction evs as [|ev evs IH]; intros s H Hcl Hevs; cbn [enqueueAll length].
  { intros [= <- <-]. split_and!; auto; lia. }
  assert (is_event c (sub_lastSequence s + 1) ev) as Hev by (rewrite <-(Z.add_0_r (_ + 1)); by apply (Hevs 0%nat)).
  destruct (enqueueLocked s ev) as [[|] s1] eqn:E; apply (enqueue_next c n rcv ua) in E as [H1 Hs1]; try done;
    [|by intros [= <- <-]].
  destruct (sent_fields s ev) as (F1 & F2 & F3 & F4 & F5 & _). rewrite <-Hs1 in F1, F2, F3, F4, F5.
  pose proof Hev as (_ & Hq & _). intros Hrun. apply IH in Hrun as [H2 Hb]; [|done|congruence|].
  - split; [done|]. destruct b; [|done]. destruct Hb as (B1 & B2 & B3 & B4).
    rewrite B1, B2, B3, F5, F3, Hq. split_and!; [done..|lia|]. intros q Hlt. rewrite B4 by lia.
    rewrite F2, lookup_delete_ne by lia. done.
  - intros i e He. rewrite F3, Hq. replace (_ + 1 + 1 + _) with (sub_lastSequence s + 1 + Z.of_nat (S i)) by lia.
    by apply Hevs.
Qed.

(** *** The other parties *)
Lemma commit_is_event c ev q e : is_event c q e -> is_event (c ++ [ev]) q e.
Proof. intros (H1 & H2 & H3). split_and!; [done..|]. by apply lookup_app_l_Some. Qed.

Lemma commit_numbered c ev : numbered c -> ev_Sequence ev = Z.of_nat (length c) + 1 -> numbered (c ++ [ev]).
Proof.
  intros Hn Hev i e [He|[Hi He]]%lookup_app_Some; [by apply Hn|]. apply list_lookup_singleton_Some in He as [Hz ->]. lia.
Qed.

Lemma commit_ok c n rcv ua s ev : sub_ok c n rcv ua s -> sub_ok (c ++ [ev]) n rcv ua s.
Proof.
  intros [Hw Hl Hu Hnd Hp Hch Hb Hz Hcf He Hclp]. split; try done.
  - rewrite Hw. unfold window. destruct Hl as [Hl1 [Hl2|Hl2]].
    + rewrite Hl2. rewrite !skipn_all2; [done| |]; rewrite length_take; lia.
    + rewrite take_app_le by lia. done.
  - rewrite length_app. lia.
  - intros q e Hq. destruct (Hp _ _ Hq). split; [done|]. by apply commit_is_event.
Qed.

Lemma published_ok_S c n rcv ua s : sub_ok c n rcv ua s -> sub_ok c (S n) rcv ua s.
Proof.
  intros [Hw Hl Hu Hnd Hp Hch Hb Hz Hcf He Hclp]. split; try done.
  intros q e Hq. destruct (Hp _ _ Hq). split; [lia|done].
Qed.

(** An event is either queued or received. *)
Lemma received_not_queued c n rcv ua s e ev :
  numbered c -> sub_ok c n rcv ua s -> e ∈ ua -> ev ∈ sub_events s -> ev_Sequence e <> ev_Sequence ev.
Proof.
  intros Hn H He Hev Heq. pose proof (window_nodup c (sub_lastSequence s) Hn) as Hnd.
  rewrite <-(ok_window _ _ _ _ _ H), fmap_app in Hnd. apply NoDup_app in Hnd as (_ & Hd & _).
  apply (Hd (ev_Sequence e)); apply list_elem_of_fmap; [|by eauto]. exists e. split; [done|]. by eapply ok_unacked.
Qed.

Lemma receive_ok c n rcv ua s ev s' :
  numbered c -> sub_ok c n rcv ua s -> receive s = Some (ev, s') -> sub_ok c n (rcv ++ [ev]) (ua ++ [ev]) s'.
Proof.
  unfold receive. intros Hn H. destruct (sub_events s) as [|ev' rest] eqn:E; [done|]. intros [= -> <-].
  pose proof H as [Hw Hl Hu Hnd Hp Hch Hb [Hz1 Hz2] Hcf He Hclp]. rewrite E in Hw, Hz1.
  split; cbn [sub_events sub_lastSequence sub_pending sub_charged sub_bufferedBytes sub_capacity sub_maxBytes
    sub_errors sub_closed]; try done.
  - by rewrite <-app_assoc.
  - intros e. rewrite !elem_of_app. naive_solver.
  - rewrite fmap_app. apply NoDup_app. split_and!; [done| |apply NoDup_singleton].
    intros q (e & -> & Hin)%list_elem_of_fmap Hq%list_elem_of_singleton.
    apply (received_not_queued c n rcv ua s e ev); [done..| |congruence]. rewrite E. by left.
  - intros q size. rewrite Hch. unfold holds. rewrite E. cbn [sub_events sub_pending].
    setoid_rewrite elem_of_app. setoid_rewrite list_elem_of_singleton. setoid_rewrite elem_of_cons.
    split; intros (e & [Hs Hh] & ->); exists e; (split; [split; [done|tauto]|done]).
  - split; [|done]. cbn [length] in Hz1. lia.
Qed.

Lemma acknowledge_ok c n rcv ua1 ev ua2 s :
  numbered c -> sub_ok c n rcv (ua1 ++ ev :: ua2) s -> sub_ok c n rcv (ua1 ++ ua2) (Acknowledge s ev).
Proof.
  intros Hn H. destruct (uncharge_only (ev_Sequence ev) s) as [H1 H2 H3 H4 H5 H6 H7 (H8 & H9 & _) [H10 H11]].
  fold (Acknowledge s ev) in *. pose proof H as [Hw Hl Hu Hnd Hp Hch [Hb Hle] Hz Hcf He Hclp].
  assert (ev ∈ rcv) as Hin by (apply Hu; set_solver).
  assert (ev_Sequence ev <= sub_lastSequence s /\ is_event c (ev_Sequence ev) ev) as [Hlast Hev]
    by (apply (held_sequences c n rcv (ua1 ++ ev :: ua2)); set_solver).
  split; rewrite ?H4, ?H5, ?H6, ?H7, ?H8, ?H9, ?H11; try done.
  - intros e Hea. apply Hu. set_solver.
  - rewrite fmap_app in *. cbn in Hnd. apply NoDup_app in Hnd as (N1 & N2 & [_ N3]%NoDup_cons).
    apply NoDup_app. split_and!; [done| |done]. set_solver.
  - intros q size. rewrite H1. unfold holds. rewrite H4, H5.
    assert (forall e, holds s (ua1 ++ ev :: ua2) (ev_Sequence ev) e -> e ∉ ua1 ++ ua2 /\ e ∉ sub_events s /\
      sub_pending s !! ev_Sequence ev = None) as Honly.
    { intros e [Hs Hh]. split_and!.
      - intros Hine. rewrite fmap_app in Hnd. cbn in Hnd. apply NoDup_app in Hnd as (_ & N2 & [N3 _]%NoDup_cons).
        apply elem_of_app in Hine as [Hine|Hine].
        + apply (N2 (ev_Sequence ev)); [apply list_elem_of_fmap; by exists e|]. by left.
        + apply N3. apply list_elem_of_fmap. by exists e.
      - intros Hine. eapply (received_not_queued c n rcv _ s ev e); [done..| |done|done]. set_solver.
      - destruct (sub_pending s !! ev_Sequence ev) as [e'|] eqn:E; [|done]. destruct (Hp _ _ E). lia. }
    assert (holds s (ua1 ++ ev :: ua2) (ev_Sequence ev) ev) as Hself by (split; [done|]; right; left; set_solver).
    case_decide as Hq.
    + apply list_elem_of_singleton in Hq as ->. split; [done|]. intros (e & [Hs Hh] & _). exfalso.
      destruct (Honly e) as (O1 & O2 & O3); [split; [done|]; set_solver|]. rewrite O3 in Hh. tauto || naive_solver.
    + rewrite Hch. unfold holds. rewrite list_elem_of_singleton in Hq. split; intros (e & [Hs Hh] & ->); exists e;
        (split; [split; [done|]|done]); set_solver.
  - split; [lia|]. etrans; [apply H3|done]. intros q size (e & _ & ->)%Hch. apply payload_bytes_nonneg.
Qed.

(** *** Publications *)
Lemma set_pending_id s : set_pending s (sub_pending s) = s.
Proof. by destruct s. Qed.

(** While the replay runs, a published event waits in [pending]. *)
Lemma publish_replaying c n rcv ua s ev :
  numbered c -> sub_ok c n rcv ua s -> sub_closed s = false -> sub_replaying s = true -> c !! n = Some ev ->
  let s' := (Subscription_publish s ev).2 in
  sub_ok c (S n) rcv ua s' /\
  (sub_closed s' = true \/
   sub_closed s' = false /\ sub_replaying s' = true /\ sub_lastSequence s' = sub_lastSequence s /\
   (forall q, is_Some (sub_pending s !! q) -> is_Some (sub_pending s' !! q)) /\
   (sub_lastSequence s < Z.of_nat (S n) -> is_Some (sub_pending s' !! Z.of_nat (S n)))).
Proof.
  intros Hn H Hcl Hre Hev. pose proof (Hn _ _ Hev) as Hs. unfold Subscription_publish. rewrite Hcl, Hre. cbn [orb].
  assert (ev_Sequence ev = Z.of_nat (S n)) as Hq by lia. rewrite Hq.
  destruct (Z.leb_spec (Z.of_nat (S n)) (sub_lastSequence s)) as [Hle|Hlt].
  { cbn [snd]. split; [by apply published_ok_S|]. right. split_and!; auto. lia. }
  destruct (sub_pending s !! Z.of_nat (S n)) as [e|] eqn:E.
  { destruct (ok_pending _ _ _ _ _ H _ _ E). lia. }
  destruct (_ || _) eqn:Eo; cbn [snd].
  { destruct (terminate_ok c n rcv ua s (Some ErrSubscriberOverflow)); auto. split; [by apply published_ok_S|by left]. }
  pose proof H as [Hw Hl Hu Hnd Hp Hch [Hb Hle] [Hz1 Hz2] Hcf He Hclp]. destruct Hcf as [Hcap Hmax].
  unfold canBufferLocked in Eo. bool_norm.
  assert (sub_charged s !! Z.of_nat (S n) = None) as Hnone.
  { destruct (sub_charged s !! Z.of_nat (S n)) as [size|] eqn:Ec; [|done].
    apply Hch in Ec as (e & [Hes Hh] & _). rewrite E in Hh.
    destruct (held_sequences c n rcv ua s e) as [? _]; [done|done|naive_solver|lia]. }
  split.
  - split; cbn; rewrite ?Hq; try done.
    + intros q e [[<- <-]|[Hne Hqe]]%lookup_insert_Some.
      * split; [lia|]. split_and!; [lia|done|]. by replace (Z.to_nat _) with n by lia.
      * destruct (Hp _ _ Hqe). split; [lia|done].
    + intros q size. unfold holds. cbn. destruct (decide (q = Z.of_nat (S n))) as [->|Hne].
      * rewrite !lookup_insert_eq. split.
        -- intros [= <-]. exists ev. split_and!; auto.
        -- intros (e & [Hes Hh] & ->). do 2 f_equal. destruct Hh as [Hin|[Hin|Hin]]; [| |congruence];
             destruct (held_sequences c n rcv ua s e) as [? _]; auto; lia.
      * rewrite !lookup_insert_ne by done. apply Hch.
    + rewrite total_insert by done. lia.
    + rewrite map_size_insert_None by done. lia.
    + by rewrite Hcl.
  - right. cbn. rewrite Hcl. split_and!; [done..| |].
    + intros q Hsome. rewrite lookup_insert. case_decide; [by eexists|done].
    + intros _. rewrite lookup_insert_eq. by eexists.
Qed.

(** Afterwards it is queued. *)
Lemma publish_live c n rcv ua s ev :
  numbered c -> sub_ok c n rcv ua s -> sub_closed s = false -> sub_replaying s = false ->
  sub_pending s = ∅ -> Z.of_nat n <= sub_lastSequence s -> c !! n = Some ev ->
  let s' := (Subscription_publish s ev).2 in
  sub_ok c (S n) rcv ua s' /\
  (sub_closed s' = true \/
   sub_closed s' = false /\ sub_replaying s' = false /\ sub_pending s' = ∅ /\ Z.of_nat (S n) <= sub_lastSequence s').
Proof.
  intros Hn H Hcl Hre Hpe Hpub Hev. pose proof (Hn _ _ Hev) as Hs. unfold Subscription_publish. rewrite Hcl, Hre.
  cbn [orb]. destruct (Z.leb_spec (ev_Sequence ev) (sub_lastSequence s)) as [Hle|Hlt].
  { cbn [snd]. split; [by apply published_ok_S|]. right. split_and!; auto. lia. }
  assert (is_event c (sub_lastSequence s + 1) ev) as Hie.
  { split_and!; [lia|lia|]. by replace (Z.to_nat (sub_lastSequence s + 1 - 1)) with n by lia. }
  destruct (enqueueLocked s ev) as [b s'] eqn:E. apply (enqueue_next c n rcv ua) in E as [Hok Hb]; try done.
  cbn [snd]. split; [by apply published_ok_S|]. destruct b; [right|by left]. subst s'.
  destruct (sent_fields s ev) as (_ & F2 & F3 & F4 & F5 & _). rewrite F2, F3, F4, F5, Hpe.
  split_and!; [done..|apply delete_empty|lia].
Qed.

(** *** The hand-off *)
Lemma omap_total {A B} (f : A -> option B) l :
  (forall x, x ∈ l -> is_Some (f x)) ->
  length (omap f l) = length l /\ forall i x, l !! i = Some x -> omap f l !! i = f x.
Proof.
  induction l as [|x l IH]; intros H; [done|].
  destruct IH as [IH1 IH2]; [intros y Hy; apply H; by right|].
  destruct (H x) as [y Hy]; [by left|]. cbn. rewrite Hy. cbn. split; [by rewrite IH1|].
  intros [|i] x'; cbn; [by intros [= <-]|apply IH2].
Qed.

Lemma pending_range s (n : nat) :
  (forall q, is_Some (sub_pending s !! q) <-> sub_lastSequence s < q <= Z.of_nat n) ->
  pending_sequences s = seqZ (sub_lastSequence s + 1) (Z.of_nat n - sub_lastSequence s).
Proof.
  intros Hdom. apply (StronglySorted_unique Z.le).
  - apply StronglySorted_merge_sort; apply _.
  - apply (numbered_sorted (fun q => q) Z.le) with (k := sub_lastSequence s + 1) (n := Z.of_nat n - sub_lastSequence s);
      [done|apply list_fmap_id].
  - apply NoDup_Permutation.
    + unfold pending_sequences. rewrite merge_sort_Permutation. apply NoDup_fst_map_to_list.
    + apply NoDup_seqZ.
    + intros q. rewrite elem_pending_sequences, elem_of_seqZ, Hdom. lia.
Qed.

Lemma finish_ok c n rcv ua s :
  numbered c -> sub_ok c n rcv ua s -> sub_closed s = false ->
  (forall q, sub_lastSequence s < q <= Z.of_nat n -> is_Some (sub_pending s !! q)) ->
  let s' := (finishReplay s).2 in
  sub_ok c n rcv ua s' /\
  (sub_closed s' = true \/
   sub_closed s' = false /\ sub_replaying s' = false /\ sub_pending s' = ∅ /\ Z.of_nat n <= sub_lastSequence s').
Proof.
  intros Hn H Hcl Hcov. unfold finishReplay. rewrite Hcl.
  assert (sub_ok c n rcv ua (set_live s)) as Hlive by (by destruct H).
  assert (pending_sequences (set_live s) = seqZ (sub_lastSequence s + 1) (Z.of_nat n - sub_lastSequence s)) as Hseq.
  { apply (pending_range (set_live s) n). intros q. split; [|apply Hcov]. intros [e He].
    by destruct (ok_pending _ _ _ _ _ H _ _ He). }
  rewrite Hseq. cbn [sub_pending set_live].
  destruct (omap_total (fun q => sub_pending s !! q)
    (seqZ (sub_lastSequence s + 1) (Z.of_nat n - sub_lastSequence s))) as [Hlen Hlk].
  { intros q Hq%elem_of_seqZ. apply Hcov. lia. }
  set (evs := omap _ _) in *. destruct (enqueueAll (set_live s) evs) as [b s'] eqn:E.
  apply (enqueueAll_next c n rcv ua) in E as [Hok Hb]; try done.
  - cbn [snd]. destruct b; [|rewrite Hb; by auto]. destruct Hb as (B1 & B2 & B3 & _). rewrite B1.
    rewrite length_seqZ in Hlen. cbn [set_live sub_lastSequence sub_replaying] in B2, B3.
    assert (sub_pending s' = ∅) as Hemp.
    { apply map_empty. intros q. destruct (sub_pending s' !! q) as [e|] eqn:Eq; [|done].
      destruct (ok_pending _ _ _ _ _ Hok _ _ Eq). lia. }
    rewrite <-Hemp at 1. rewrite set_pending_id. split; [done|]. right. rewrite <-Hemp, set_pending_id.
    split_and!; [done..|lia].
  - intros i ev Hi. cbn [set_live sub_lastSequence].
    assert (seqZ (sub_lastSequence s + 1) (Z.of_nat n - sub_lastSequence s) !! i
      = Some (sub_lastSequence s + 1 + Z.of_nat i)) as Hsi.
    { apply lookup_lt_Some in Hi. rewrite Hlen, length_seqZ in Hi. apply lookup_seqZ. lia. }
    rewrite (Hlk _ _ Hsi) in Hi. by destruct (ok_pending _ _ _ _ _ H _ _ Hi).
Qed.

(** *** The invariant of the interleavings

    [h] is the number of events published when the subscriber registered.
    Until the hand-off every event published since then waits in [pending];
    after it every published event is queued. *)
Definition phase_ok (h : nat) (c : list CommandEventRecord) (n : nat) (ph : SubscribePhase)
    (s : CommandEventSubscription) : Prop :=
  match ph with
  | PhaseQuery => sub_replaying s = true /\ sub_lastSequence s = after /\
      forall q, Z.max after (Z.of_nat h) < q <= Z.of_nat n -> is_Some (sub_pending s !! q)
  | PhaseReplay events => sub_replaying s = true /\ sub_lastSequence s = after /\
      (exists k, (h <= k <= length c)%nat /\ events = drop (Z.to_nat after) (take k c)) /\
      forall q, Z.max after (Z.of_nat h) < q <= Z.of_nat n -> is_Some (sub_pending s !! q)
  | PhaseHandoff => sub_replaying s = true /\
      forall q, sub_lastSequence s < q <= Z.of_nat n -> is_Some (sub_pending s !! q)
  | PhaseReturned => sub_replaying s = false /\ sub_pending s = ∅ /\ Z.of_nat n <= sub_lastSequence s
  end.

Record world_ok (h : nat) (w : SubscriberWorld) : Prop := {
  wo_numbered : numbered (w_committed w);
  wo_published : (h <= w_published w <= length (w_committed w))%nat;
  wo_sub : sub_ok (w_committed w) (w_published w) (w_received w) (w_unacked w) (w_sub w);
  wo_phase : sub_closed (w_sub w) = true \/
    sub_closed (w_sub w) = false /\ phase_ok h (w_committed w) (w_published w) (w_phase w) (w_sub w)
}.

Lemma start_ok id c h :
  0 < capacity -> 0 < maxBytes -> numbered c -> (h <= length c)%nat ->
  world_ok h (subscriber_start after capacity maxBytes id c h).
Proof.
  intros Hcap Hmax Hn Hh. split; cbn; [done|lia| |].
  - split; cbn; auto; try lia.
    + unfold window. rewrite skipn_all2; [done|]. rewrite length_take. lia.
    + apply NoDup_nil_2.
    + by intros q ev ?%lookup_empty_Some.
    + intros q size. unfold holds. cbn. rewrite !lookup_empty. split; [done|]. intros (ev & [_ Hh'] & _). set_solver.
    + split; [done|lia].
    + rewrite map_size_empty. lia.
  - right. split_and!; try done. lia.
Qed.

Lemma replay_step_ok h c n events s rcv ua ok s' :
  world_ok h (mkWorld c n (PhaseReplay events) s rcv ua) -> Subscription_replay s events = (ok, s') ->
  world_ok h (mkWorld c n (if ok then PhaseHandoff else PhaseReturned) s' rcv ua).
Proof.
  intros [Hn Hp Hs Hph]; cbn in *. unfold Subscription_replay.
  destruct Hph as [Hcl|(Hcl & Hre & Hlast & (k & Hk & ->) & Hcov)]; rewrite Hcl.
  { intros [= <- <-]. split; cbn; auto. }
  set (l := drop (Z.to_nat after) (take k c)). intros Hrun.
  assert (forall i ev, l !! i = Some ev -> is_event c (after + 1 + Z.of_nat i) ev) as Hl.
  { intros i ev Hi. unfold l in Hi. rewrite lookup_drop in Hi. apply lookup_take_Some in Hi as [Hi _].
    pose proof (Hn _ _ Hi). split_and!; [lia|lia|]. by replace (Z.to_nat _) with (Z.to_nat after + i)%nat by lia. }
  apply (enqueueAll_next c n rcv ua) in Hrun as [Hok Hb]; [|done|done|done|by rewrite Hlast].
  destruct ok; split; cbn; auto. destruct Hb as (B1 & B2 & B3 & B4). right. split_and!; [done|congruence|].
  intros q Hq. rewrite B4 by lia. apply Hcov. unfold l in B3. rewrite length_drop, length_take in B3. lia.
Qed.

Lemma step_ok h w w' : world_ok h w -> subscriber_step after w w' -> world_ok h w'.
Proof.
  intros H Hstep. destruct Hstep as [c n ph s rcv ua ev Hev|c n ph s rcv ua ev Hev|c n s rcv ua
    |c n events s rcv ua ok s' Hrun|c n s rcv ua|c n ph s rcv ua ev s' Hrun|c n ph s rcv ua1 ev ua2|c n ph s rcv ua];
    [..|by eapply replay_step_ok| | | |]; destruct H as [Hn Hp Hs Hph]; cbn in *.
  - split; cbn; [by apply commit_numbered|rewrite length_app; lia|by apply commit_ok|].
    destruct Hph as [?|[? Hph]]; [by left|right; split; [done|]]. destruct ph; cbn in *; try done.
    destruct Hph as (? & ? & (k & Hk & ->) & ?). split_and!; try done. exists k. rewrite length_app.
    split; [lia|]. by rewrite take_app_le by lia.
  - pose proof (lookup_lt_Some _ _ _ Hev).
    destruct Hph as [Hcl|[Hcl Hph]].
    { unfold Subscription_publish. rewrite Hcl. split; cbn; [done|lia|by apply published_ok_S|by left]. }
    destruct ph as [|events| |].
    4: { destruct Hph as (Hre & Hpe & Hpub). destruct (publish_live c n rcv ua s ev) as [Hok Hb]; try done.
         split; cbn; [done|lia|done|]. naive_solver. }
    all: destruct (publish_replaying c n rcv ua s ev) as [Hok Hb]; [done|done|done|by apply Hph|done|];
      split; cbn; [done|lia|done|]; destruct Hb as [?|(B1 & B2 & B3 & B4 & B5)]; [by left|right; split; [done|]].
    all: assert (forall low, sub_lastSequence s <= low ->
      (forall q, low < q <= Z.of_nat n -> is_Some (sub_pending s !! q)) ->
      forall q, low < q <= Z.of_nat (S n) -> is_Some (sub_pending (Subscription_publish s ev).2 !! q)) as Hext
      by (intros low Hlow Hc q Hq; destruct (decide (q = Z.of_nat (S n))) as [->|]; [apply B5; lia|apply B4, Hc; lia]).
    + destruct Hph as (R1 & R2 & R3). split_and!; [done|congruence|]. apply Hext; [lia|done].
    + destruct Hph as (R1 & R2 & R3 & R4). split_and!; [done|congruence|done|]. apply Hext; [lia|done].
    + destruct Hph as (R1 & R2). rewrite B3. split; [done|]. by apply Hext.
  - split; cbn; [done..|]. destruct Hph as [?|(Hcl & R1 & R2 & R3)]; [by left|right]. split_and!; try done.
    exists (length c). split; [lia|]. by rewrite firstn_all.
  - destruct Hph as [Hcl|(Hcl & R1 & R2)].
    { unfold finishReplay. rewrite Hcl. split; cbn; auto. }
    by destruct (finish_ok c n rcv ua s).
  - split; cbn; [done|done|by eapply receive_ok|]. unfold receive in Hrun. destruct (sub_events s); [done|].
    injection Hrun as <- <-. done.
  - split; cbn; [done|done|by apply acknowledge_ok|].
    destruct (uncharge_only (ev_Sequence ev) s) as [_ _ _ _ H5 _ H7 _ [H10 H11]]. unfold Acknowledge.
    rewrite H11. destruct ph; unfold phase_ok; rewrite ?H5, ?H7, ?H10; done.
  - destruct (terminate_ok c n rcv ua s None) as [Hok Hcl]; auto. split; cbn; auto.
Qed.

Lemma reachable_ok h id c w :
  0 < capacity -> 0 < maxBytes -> numbered c -> (h <= length c)%nat ->
  rtc (subscriber_step after) (subscriber_start after capacity maxBytes id c h) w -> world_ok h w.
Proof.
  intros Hcap Hmax Hn Hh Hrtc. assert (world_ok h (subscriber_start after capacity maxBytes id c h)) as H0
    by (by apply start_ok).
  induction Hrtc as [|w1 w2 w3 Hstep _ IH]; [done|]. apply IH. by eapply step_ok.
Qed.
End invariant.

(** ** An uninterrupted subscription *)
Definition sum_bytes (events : list CommandEventRecord) : Z := foldr (fun ev acc => payload_bytes ev + acc) 0 events.

Lemma sum_bytes_nonneg evs : 0 <= sum_bytes evs.
Proof.
  unfold sum_bytes. induction evs as [|e evs IH]; cbn [foldr]; [done|]. pose proof (payload_bytes_nonneg e). lia.
Qed.

(** Events that fit are all queued. *)
Lemma enqueueAll_fits evs s :
  sub_closed s = false -> sub_pending s = ∅ -> (forall q, sub_lastSequence s < q -> sub_charged s !! q = None) ->
  (forall i ev, evs !! i = Some ev -> ev_Sequence ev = sub_lastSequence s + 1 + Z.of_nat i) ->
  Z.of_nat (length (sub_events s ++ evs)) <= sub_capacity s -> sub_bufferedBytes s + sum_bytes evs <= sub_maxBytes s ->
  0 <= sub_bufferedBytes s ->
  exists s', enqueueAll s evs = (true, s') /\ sub_events s' = sub_events s ++ evs /\ sub_closed s' = false /\
    sub_pending s' = ∅ /\ sub_commandID s' = sub_commandID s /\
    sub_lastSequence s' = sub_lastSequence s + Z.of_nat (length evs).
Proof.
  revert s. induction evs as [|ev evs IH]; intros s Hcl Hpe Hch Hseq Hcap Hbytes Hpos; cbn [enqueueAll length].
  { exists s. rewrite app_nil_r. split_and!; auto. lia. }
  assert (ev_Sequence ev = sub_lastSequence s + 1) as Hq by (rewrite (Hseq 0%nat ev) by done; lia).
  pose proof (sum_bytes_nonneg evs) as Hsum.
  cbn [sum_bytes foldr] in Hbytes. fold (sum_bytes evs) in Hbytes. rewrite length_app in Hcap. cbn [length] in Hcap.
  pose proof (payload_bytes_nonneg ev).
  assert (enqueueLocked s ev = (true, sent s ev)) as ->.
  { unfold enqueueLocked, sent, canBufferLocked. rewrite Hcl, Hch by lia. cbn.
    replace (ev_Sequence ev <=? sub_lastSequence s) with false by lia.
    replace (_ && _) with true by (symmetry; apply andb_true_iff; lia). cbn.
    replace (_ <? _) with true by lia. done. }
  destruct (sent_fields s ev) as (F1 & F2 & F3 & F4 & F5 & _ & F7 & F8).
  assert (sent s ev = queue_event (set_pending (chargeLocked s ev) ∅) ev) as Hsent.
  { unfold sent. rewrite Hch by lia. cbn. by rewrite Hpe, delete_empty. }
  destruct (IH (sent s ev)) as (s' & -> & E1 & E2 & E3 & E4 & E5); rewrite ?F1, ?F2, ?F3, ?F4, ?F7, ?F8, ?Hpe.
  - done.
  - apply delete_empty.
  - intros q Hlt. rewrite Hsent. cbn. rewrite lookup_insert_ne by lia. apply Hch. lia.
  - intros i e He. rewrite (Hseq (S i) e) by done. lia.
  - rewrite <-app_assoc, length_app. cbn. lia.
  - rewrite Hsent. cbn. lia.
  - rewrite Hsent. cbn. lia.
  - exists s'. rewrite E1, E5, F1, F3, <-app_assoc, E4, Hsent. split_and!; [done..|lia].
Qed.

Lemma finishReplay_empty s :
  sub_closed s = false -> sub_pending s = ∅ -> finishReplay s = (false, set_live s).
Proof.
  intros Hcl Hpe. unfold finishReplay. rewrite Hcl.
  assert (pending_sequences (set_live s) = []) as ->.
  { destruct (pending_sequences (set_live s)) as [|q l] eqn:E; [done|].
    assert (is_Some (sub_pending (set_live s) !! q)) as [e He] by (apply elem_pending_sequences; rewrite E; by left).
    cbn in He. rewrite Hpe in He. done. }
  cbn. rewrite Hcl. f_equal. rewrite <-Hpe. by destruct s.
Qed.

(** ** The table *)
Lemma byCommand_remove t c p c' :
  byCommand (removeSubscriber t c p) c' = if decide (c' = c) then byCommand t c ∖ {[p]} else byCommand t c'.
Proof.
  unfold removeSubscriber, byCommand at 1. cbn [subscribersByID]. case_decide as He.
  - rewrite lookup_delete. destruct (decide (c' = c)) as [->|]; case_decide; try done.
  - rewrite lookup_insert. destruct (decide (c' = c)) as [->|]; case_decide; done.
Qed.

Lemma byCommand_add t c p c' :
  byCommand (addSubscriber t c p) c' = if decide (c' = c) then {[p]} ∪ byCommand t c else byCommand t c'.
Proof.
  unfold addSubscriber, byCommand at 1. cbn [subscribersByID]. rewrite lookup_insert.
  destruct (decide (c' = c)) as [->|]; case_decide; done.
Qed.

Lemma at_subscription_heap t p f q :
  subs_heap (at_subscription t p f) !! q
    = if decide (q = p) then (fun s => (f s).2) <$> subs_heap t !! p else subs_heap t !! q.
Proof.
  unfold at_subscription. destruct (subs_heap t !! p) as [s|] eqn:E.
  - destruct (f s) as [[|] s'] eqn:Ef; cbn; rewrite lookup_insert;
      repeat case_decide; subst; cbn; rewrite ?Ef; done.
  - case_decide; subst; cbn; done.
Qed.

Lemma at_subscription_registered t p f s c q :
  subs_heap t !! p = Some s ->
  q ∈ byCommand (at_subscription t p f) c <->
  q ∈ byCommand t c /\ ~ ((f s).1 = true /\ q = p /\ c = sub_commandID s).
Proof.
  intros E. unfold at_subscription. rewrite E. destruct (f s) as [[|] s']; cbn.
  - rewrite byCommand_remove. case_decide; subst; set_solver.
  - assert (byCommand (store_sub t p s') c = byCommand t c) as -> by done. naive_solver.
Qed.

(** The table holds open subscriptions only, each under its own command. *)
Definition table_ok (t : SubscriberTable) : Prop :=
  forall c p, p ∈ byCommand t c ->
    exists s, subs_heap t !! p = Some s /\ sub_commandID s = c /\ sub_closed s = false.

(** An operation that asks for the removal exactly when it closes the subscription. *)
Definition honest (f : CommandEventSubscription -> bool * CommandEventSubscription) : Prop :=
  forall s, sub_commandID (f s).2 = sub_commandID s /\ (sub_closed s = false -> sub_closed (f s).2 = (f s).1).

Lemma at_subscription_ok t p f : honest f -> table_ok t -> table_ok (at_subscription t p f).
Proof.
  intros Hf Ht c q Hq. destruct (subs_heap t !! p) as [s|] eqn:E.
  - destruct (proj1 (at_subscription_registered t p f s c q E) Hq) as [Hq' Hnot].
    destruct (Ht _ _ Hq') as (sq & Esq & Hc & Hcl). rewrite at_subscription_heap. case_decide as Hqp; [|by eauto].
    subst q. assert (sq = s) as -> by congruence. rewrite E. exists (f s).2. destruct (Hf s) as [Hid Hclosed].
    split_and!; [done|congruence|]. rewrite Hclosed by done. destruct ((f s).1) eqn:Ef; [|done]. by destruct Hnot.
  - unfold at_subscription in *. rewrite E in *. by apply Ht.
Qed.

Lemma uncharge_id s q : sub_commandID (uncharge s q) = sub_commandID s.
Proof. unfold uncharge. by destruct (_ !! _). Qed.

Lemma terminate_id s err :
  sub_commandID (terminateLocked s err) = sub_commandID s /\ sub_closed (terminateLocked s err) = true.
Proof.
  unfold terminateLocked. destruct (sub_closed s) eqn:E; [done|]. split; [|done]. cbn.
  generalize (pending_sequences s). intros l. clear E. revert s. induction l as [|q l IH]; intros s; [done|].
  cbn. by rewrite IH, uncharge_id.
Qed.

Lemma enqueue_id s ev b s' : enqueueLocked s ev = (b, s') ->
  sub_commandID s' = sub_commandID s /\ (sub_closed s = false -> sub_closed s' = negb b).
Proof.
  unfold enqueueLocked. repeat destruct (_ || _); repeat destruct (_ && _); repeat destruct (_ <? _);
    intros [= <- <-]; rewrite ?(proj1 (terminate_id _ _)), ?(proj2 (terminate_id _ _)); try done.
  - cbn. split; [done|]. by intros ->.
  - destruct (is_Some_b _); done.
Qed.

Lemma enqueueAll_id evs s b s' : enqueueAll s evs = (b, s') ->
  sub_commandID s' = sub_commandID s /\ (sub_closed s = false -> sub_closed s' = negb b).
Proof.
  revert s. induction evs as [|ev evs IH]; intros s; cbn; [by intros [= <- <-]|].
  destruct (enqueueLocked s ev) as [[|] s1] eqn:E; apply enqueue_id in E as [E1 E2].
  - intros [H1 H2]%IH. split; [congruence|]. auto.
  - intros [= <- <-]. done.
Qed.

Lemma publish_honest ev : honest (fun s => Subscription_publish s ev).
Proof.
  intros s. unfold Subscription_publish. destruct (sub_closed s) eqn:Hcl; cbn [orb]; [by split|].
  destruct (_ <=? _); [by split|]. destruct (sub_replaying s).
  - destruct (_ !! _); [by split|]. destruct (_ || _); cbn; [|done].
    split; [apply terminate_id|intros _; apply terminate_id].
  - destruct (enqueueLocked s ev) as [b s'] eqn:E. apply enqueue_id in E as [E1 E2]. cbn. split; [done|].
    intros _. by apply E2.
Qed.

Lemma replay_honest evs : honest (fun sub => let '(ok, sub') := Subscription_replay sub evs in (negb ok, sub')).
Proof.
  intros s. unfold Subscription_replay. destruct (sub_closed s) eqn:Hcl; [by split|].
  destruct (enqueueAll s evs) as [b s'] eqn:E. apply enqueueAll_id in E as [E1 E2]. cbn. split; [done|]. auto.
Qed.

Lemma finish_honest : honest finishReplay.
Proof.
  intros s. unfold finishReplay. destruct (sub_closed s) eqn:Hcl; [by split|]. cbv zeta.
  destruct (enqueueAll (set_live s) _) as [b s'] eqn:E. apply enqueueAll_id in E as [E1 E2]. cbn [fst snd].
  destruct (sub_closed s') eqn:Hcl'; [by split|]. split; [done|]. intros _. done.
Qed.

Lemma close_honest : honest (fun s => (true, terminateLocked s None)).
Proof. intros s. split; [apply terminate_id|intros _; apply terminate_id]. Qed.

Lemma fold_publish_ok ev l t :
  table_ok t -> table_ok (fold_left (fun t p => at_subscription t p (fun s => Subscription_publish s ev)) l t).
Proof.
  revert t. induction l as [|p l IH]; intros t Ht; [done|]. cbn. apply IH.
  apply at_subscription_ok; [apply publish_honest|done].
Qed.

Lemma fold_publish_heap ev l t q :
  NoDup l ->
  subs_heap (fold_left (fun t p => at_subscription t p (fun s => Subscription_publish s ev)) l t) !! q
    = if decide (q ∈ l) then (fun s => (Subscription_publish s ev).2) <$> subs_heap t !! q else subs_heap t !! q.
Proof.
  revert t. induction l as [|p l IH]; intros t; cbn [fold_left];
    [by destruct (decide (q ∈ [])) as [?%not_elem_of_nil|]|].
  intros [Hp Hnd]%NoDup_cons. rewrite IH, at_subscription_heap by done.
  destruct (decide (q ∈ l)), (decide (q = p)), (decide (q ∈ p :: l)); subst; try done; set_solver.
Qed.

(** ** Theorems *)

Lemma window_rest after last c :
  0 <= after <= last -> last = after \/ last <= Z.of_nat (length c) ->
  window after last c ++ drop (Z.to_nat last) c = drop (Z.to_nat after) c.
Proof.
  intros Ha [->|Hl]; unfold window.
  - by rewrite skipn_all2 by (rewrite length_take; lia).
  - rewrite <-(take_drop (Z.to_nat last) c) at 3. rewrite drop_app_le; [done|]. rewrite length_take. lia.
Qed.

(** C35: However the replay, the publications, the consumer and the closing of a
    subscription interleave, what the consumer received followed by what is
    queued is the gap-free and duplicate-free continuation of its cursor up to
    [LastSequence], which is therefore the cursor to resume from; and once the
    subscription is handed over and open, every published event is in it. *)
Theorem subscriber_delivers_continuation after capacity maxBytes id c h w :
  0 <= after -> 0 < capacity -> 0 < maxBytes -> numbered c -> (h <= length c)%nat ->
  rtc (subscriber_step after) (subscriber_start after capacity maxBytes id c h) w ->
  let last := sub_lastSequence (w_sub w) in
  (w_received w ++ sub_events (w_sub w)) ++ drop (Z.to_nat last) (w_committed w)
    = drop (Z.to_nat after) (w_committed w) /\
  (sub_closed (w_sub w) = false -> w_phase w = PhaseReturned -> Z.of_nat (w_published w) <= last).
Proof.
  intros Ha Hcap Hmax Hn Hh Hrtc. destruct (reachable_ok after capacity maxBytes Ha h id c w) as [_ _ Hs Hp]; try done.
  cbv zeta. rewrite (ok_window _ _ _ _ _ _ _ _ Hs). split.
  - apply window_rest; pose proof (ok_last _ _ _ _ _ _ _ _ Hs); lia.
  - intros Hcl Hph. rewrite Hcl, Hph in Hp. destruct Hp as [?|(_ & _ & _ & ?)]; [done|lia].
Qed.

(** C36: A subscription never holds more than its capacity of events nor more than
    its limit of payload bytes, and the byte account returns to zero when
    everything received was acknowledged and nothing is queued or waiting. *)
Theorem subscriber_is_bounded after capacity maxBytes id c h w :
  0 <= after -> 0 < capacity -> 0 < maxBytes -> numbered c -> (h <= length c)%nat ->
  rtc (subscriber_step after) (subscriber_start after capacity maxBytes id c h) w ->
  Z.of_nat (length (sub_events (w_sub w))) <= capacity /\
  Z.of_nat (size (sub_pending (w_sub w))) <= capacity /\
  0 <= sub_bufferedBytes (w_sub w) <= maxBytes /\
  (sub_events (w_sub w) = [] -> sub_pending (w_sub w) = ∅ -> w_unacked w = [] -> sub_bufferedBytes (w_sub w) = 0).
Proof.
  intros Ha Hcap Hmax Hn Hh Hrtc. destruct (reachable_ok after capacity maxBytes Ha h id c w) as [_ _ Hs _]; try done.
  destruct Hs as [_ _ _ _ _ Hch [Hb Hle] [Hz1 Hz2] _ _ _]. split_and!; [done..| |done|].
  - rewrite Hb. apply total_nonneg. intros q size (ev & _ & ->)%Hch. apply payload_bytes_nonneg.
  - intros He Hp Hu. rewrite Hb. apply total_empty. intros q.
    destruct (sub_charged (w_sub w) !! q) as [size|] eqn:E; [|done]. apply Hch in E as (ev & [_ Hh'] & _).
    rewrite He, Hp, Hu in Hh'. set_solver.
Qed.

(** A publication reaches every subscriber registered for the command of the
    event, each once, and no other subscription. *)
Theorem publication_fans_out t ev p :
  subs_heap (publishCommandEvent t ev) !! p
    = if decide (p ∈ byCommand t (ev_CommandID ev))
      then (fun s => (Subscription_publish s ev).2) <$> subs_heap t !! p
      else subs_heap t !! p.
Proof.
  unfold publishCommandEvent. rewrite fold_publish_heap by apply NoDup_elements.
  destruct (decide (p ∈ elements _)), (decide (p ∈ byCommand _ _)); try done; set_solver.
Qed.

(** Subscribing, publishing and closing keep the table free of closed
    subscriptions: one that overflows is removed by the operation that closes
    it, so the table never leaks a subscriber. *)
Theorem table_holds_open_subscriptions s t p id after capacity maxBytes ev :
  table_ok t -> subs_heap t !! p = None ->
  table_ok (SubscribeCommandEventsWithByteLimit s t p id after capacity maxBytes).2 /\
  table_ok (publishCommandEvent t ev) /\ table_ok (Subscription_Close t p).
Proof.
  intros Ht Hp. split_and!; [|by apply fold_publish_ok|by apply at_subscription_ok; [apply close_honest|]].
  unfold SubscribeCommandEventsWithByteLimit. destruct (NewCommandID id) as [vid|e]; [|done].
  destruct (_ || _); [done|].
  assert (table_ok (addSubscriber (store_sub t p (newSubscription vid capacity maxBytes after)) vid p)) as Hadd.
  { intros c q. rewrite byCommand_add. cbn [subs_heap addSubscriber store_sub]. intros Hq.
    destruct (decide (q = p)) as [->|Hqp].
    - rewrite lookup_insert_eq. eexists. split_and!; [done| |done]. cbn.
      case_decide; [done|]. destruct (Ht c p) as (? & Hx & _); [done|]. congruence.
    - rewrite lookup_insert_ne by done. apply Ht. case_decide; subst; set_solver. }
  destruct (ReplayCommandEvents s vid after) as [evs|e]; cbn [snd].
  - apply at_subscription_ok; [apply finish_honest|]. by apply at_subscription_ok; [apply replay_honest|].
  - by apply at_subscription_ok; [apply close_honest|].
Qed.

(** A subscription to a command of a reachable store, when the missed events
    fit its bounds, succeeds: exactly the events published after the cursor are
    queued, the subscription is live and open, and it is registered. *)
Theorem subscription_replays_published N M s t p id rec after capacity maxBytes :
  reachable N M s -> Forall (fun ev => storable (ev_OccurredAt ev)) (published s) ->
  GetCommand s id = Ok rec -> cr_OutputUnavailableReason rec <> retention_expired ->
  0 <= after -> 0 < capacity -> 0 < maxBytes ->
  Z.of_nat (length (drop (Z.to_nat after) (published_events id s))) <= capacity ->
  sum_bytes (drop (Z.to_nat after) (published_events id s)) <= maxBytes ->
  exists t' sub, SubscribeCommandEventsWithByteLimit s t p id after capacity maxBytes = (Ok p, t') /\
    subs_heap t' !! p = Some sub /\ sub_events sub = drop (Z.to_nat after) (published_events id s) /\
    sub_closed sub = false /\ sub_replaying sub = false /\ p ∈ byCommand t' id.
Proof.
  intros Hreach Hclock Hget Hreason Ha Hcap Hmax Hlen Hsum. pose proof (reachable_inv _ _ _ Hreach) as Hinv.
  pose proof (Replay_published _ _ _ _ _ _ Hinv Hclock Hget Hreason Ha) as Hreplay.
  assert (NewCommandID id = Ok id /\ exists row, exec_commands (db s) !! id = Some row) as [Hid [row Hrow]].
  { unfold GetCommand in Hget. tx_inv Hget. id_norm. unfold withReadTransaction in Hget.
    destruct (readCommandOnConnection id (db s)) as [[r d1]|] eqn:E; [|done].
    destruct (readCommand_Ok _ _ _ _ E) as (_ & row & Hrow & Hne & _). split; [by apply NewCommandID_Ok|by eauto]. }
  destruct (published_sequences _ _ _ _ _ Hinv Hrow) as (_ & Hseq & _).
  unfold SubscribeCommandEventsWithByteLimit. rewrite Hid.
  replace (_ || _ || _) with false by (symmetry; rewrite !orb_false_iff; lia).
  rewrite Hreplay. cbv beta zeta.
  destruct (enqueueAll_fits (drop (Z.to_nat after) (published_events id s)) (newSubscription id capacity maxBytes after))
    as (s1 & Hrun & E1 & E2 & E3 & E4 & _); try done.
  { intros i ev Hi. rewrite lookup_drop in Hi.
    assert (ev_Sequence <$> published_events id s !! (Z.to_nat after + i)%nat = Some (ev_Sequence ev)) as Hsi
      by (by rewrite Hi).
    rewrite <-list_lookup_fmap, Hseq in Hsi. apply lookup_seqZ in Hsi. cbn. lia. }
  set (t1 := addSubscriber _ _ _).
  assert (subs_heap t1 !! p = Some (newSubscription id capacity maxBytes after)) as Ht1 by apply lookup_insert_eq.
  set (f := fun sub => let '(ok, sub') := Subscription_replay sub _ in (negb ok, sub')).
  assert (f (newSubscription id capacity maxBytes after) = (false, s1)) as Hf
    by (unfold f, Subscription_replay; cbn [sub_closed newSubscription]; by rewrite Hrun).
  assert (subs_heap (at_subscription t1 p f) !! p = Some s1) as Ht2
    by (rewrite at_subscription_heap, decide_True, Ht1 by done; cbn; by rewrite Hf).
  exists (at_subscription (at_subscription t1 p f) p finishReplay), (set_live s1). split_and!; try done.
  - rewrite at_subscription_heap, decide_True, Ht2 by done. cbn. by rewrite finishReplay_empty.
  - apply (at_subscription_registered _ _ _ _ _ _ Ht2). rewrite finishReplay_empty by done. split; [|by intros [? _]].
    apply (at_subscription_registered _ _ _ _ _ _ Ht1). rewrite Hf. split; [|by intros [? _]].
    unfold t1. rewrite byCommand_add, decide_True by done. set_solver.
Qed.

(** The live queue trusts the order of publications: an event that is
    published after its successor is dropped, and the cursor to resume from is
    already past it.  Publications happen after the commit and outside the
    transaction, so two writers of one command can publish in that order. *)
Theorem overtaken_publication_is_dropped s ev1 ev2 :
  sub_closed s = false -> sub_replaying s = false ->
  ev_Sequence ev1 = sub_lastSequence s + 1 -> ev_Sequence ev2 = sub_lastSequence s + 2 ->
  (Subscription_publish s ev2).1 = false ->
  let s' := (Subscription_publish (Subscription_publish s ev2).2 ev1).2 in
  sub_events s' = sub_events s ++ [ev2] /\ sub_lastSequence s' = ev_Sequence ev1 + 1 /\
  sub_closed s' = false /\ sub_errors s' = sub_errors s.
Proof.
  intros Hcl Hre H1 H2. unfold Subscription_publish at 1 3. rewrite Hcl, Hre. cbn [orb].
  replace (ev_Sequence ev2 <=? sub_lastSequence s) with false by lia.
  destruct (enqueueLocked s ev2) as [[|] s2] eqn:E; [intros _|done].
  unfold enqueueLocked in E. rewrite Hcl in E. cbn [orb] in E.
  replace (ev_Sequence ev2 <=? sub_lastSequence s) with false in E by lia.
  destruct (_ && _); [done|]. destruct (_ <? _); [|done]. injection E as <-. fold (sent s ev2). cbn [snd].
  destruct (sent_fields s ev2) as (F1 & _ & F3 & F4 & _ & F6 & _). unfold Subscription_publish. rewrite F3, F4, Hcl.
  replace (ev_Sequence ev1 <=? ev_Sequence ev2) with true by lia. cbn [orb snd].
  rewrite F1, F3, F4, F6. split_and!; [done|lia|done|done].
Qed.

(** ** Examples

    A subscriber registers after two events, one of them published; a third is
    committed and published while the replay query runs. *)
Definition example_event (q : Z) (type : EventType) (payload : string) : CommandEventRecord :=
  mkCommandEventRecord "c1" q type payload (go_len payload) (t0 + q * second).
Definition example_e1 := example_event 1 command_queued "".
Definition example_e2 := example_event 2 command_started "".
Definition example_e3 := example_event 3 stdout "hi".
Definition example_e4 := example_event 4 stdout "ho".

Definition example_start : SubscriberWorld := subscriber_start 0 8 16 "c1" [example_e1; example_e2] 1.

(** The world the interleaving of the witnesses ends in. *)
Definition example_end : SubscriberWorld :=
  let s0 := newSubscription "c1" 8 16 0 in
  let s1 := (Subscription_publish s0 example_e2).2 in
  let s2 := (Subscription_publish s1 example_e3).2 in
  let s3 := (Subscription_replay s2 [example_e1; example_e2]).2 in
  let s4 := (finishReplay s3).2 in
  let s5 := from_option snd s4 (receive s4) in
  mkWorld [example_e1; example_e2; example_e3] 3 PhaseReturned (Acknowledge s5 example_e1) [example_e1] [].

Lemma example_interleaving : rtc (subscriber_step 0) example_start example_end.
Proof.
  eapply rtc_l; [apply ss_query|]. eapply rtc_l; [apply ss_publish; reflexivity|].
  eapply rtc_l; [apply (ss_commit 0 _ _ _ _ _ _ example_e3); reflexivity|].
  eapply rtc_l; [apply ss_publish; reflexivity|].
  eapply rtc_l; [eapply ss_replay; apply surjective_pairing|]. eapply rtc_l; [apply ss_finish|].
  eapply rtc_l; [apply ss_receive; vm_compute; reflexivity|].
  eapply rtc_l; [apply (ss_acknowledge 0 _ _ _ _ _ [])|].
  refine (eq_rect _ (fun w => rtc _ w _) (rtc_refl _ _) _ _). vm_compute. reflexivity.
Qed.

Lemma example_numbered : numbered [example_e1; example_e2].
Proof. intros [|[|i]] ev; cbn; [intros [= <-]; done..|done]. Qed.

Lemma subscriber_delivers_continuation_witness :
  sub_lastSequence (w_sub example_end) = 3 /\
  w_received example_end ++ sub_events (w_sub example_end) = [example_e1; example_e2; example_e3] /\
  Z.of_nat (w_published example_end) <= 3.
Proof.
  destruct (subscriber_delivers_continuation 0 8 16 "c1" [example_e1; example_e2] 1 example_end
    ltac:(lia) ltac:(lia) ltac:(lia) example_numbered ltac:(cbn; lia) example_interleaving) as [H1 H2].
  split; [vm_compute; reflexivity|]. split; [vm_compute; reflexivity|].
  etrans; [apply H2; vm_compute; reflexivity|]. vm_compute. discriminate.
Defined.

Lemma subscriber_is_bounded_witness :
  0 <= sub_bufferedBytes (w_sub example_end) <= 16 /\ sub_bufferedBytes (w_sub example_end) = 2.
Proof.
  destruct (subscriber_is_bounded 0 8 16 "c1" [example_e1; example_e2] 1 example_end
    ltac:(lia) ltac:(lia) ltac:(lia) example_numbered ltac:(cbn; lia) example_interleaving) as (_ & _ & H & _).
  split; [exact H|]. vm_compute. reflexivity.
Defined.

Definition empty_table : SubscriberTable := mkSubscriberTable ∅ ∅.

Lemma empty_table_ok : table_ok empty_table.
Proof. intros c p Hp. unfold byCommand, empty_table in Hp. cbn in Hp. set_solver. Qed.

Lemma table_holds_open_subscriptions_witness :
  table_ok (SubscribeCommandEvents example_state empty_table 0 "c1" 0 8).2.
Proof.
  apply (table_holds_open_subscriptions example_state empty_table 0 "c1" 0 8 _ example_e1 empty_table_ok).
  reflexivity.
Defined.

Lemma subscription_replays_published_witness :
  exists t' sub, SubscribeCommandEvents example_state empty_table 0 "c1" 2 8 = (Ok 0%nat, t') /\
    subs_heap t' !! 0%nat = Some sub /\ sub_events sub = drop 2 (published_events "c1" example_state).
Proof.
  destruct (GetCommand example_state "c1") as [rec|e] eqn:Hget; [|vm_compute in Hget; discriminate Hget].
  destruct (subscription_replays_published 4 20 example_state empty_table 0 "c1" rec 2 8
    (SubscriberBufferBytes DefaultServiceLimits) example_reachable) as (t' & sub & H1 & H2 & H3 & _).
  - refine (bool_decide_eq_true_1 _ _). vm_compute. reflexivity.
  - exact Hget.
  - vm_compute in Hget. injection Hget as <-. vm_compute. discriminate.
  - lia.
  - lia.
  - vm_compute. reflexivity.
  - vm_compute. discriminate.
  - vm_compute. discriminate.
  - exists t', sub. split; [exact H1|]. split; [exact H2|exact H3].
Defined.

Definition example_live : CommandEventSubscription := set_live (newSubscription "c1" 8 16 2).

Lemma overtaken_publication_is_dropped_witness :
  sub_events (Subscription_publish (Subscription_publish example_live example_e4).2 example_e3).2 = [example_e4].
Proof.
  destruct (overtaken_publication_is_dropped example_live example_e3 example_e4) as [H _];
    [vm_compute; reflexivity..|exact H].
Defined.
