(* ===== verification/MailboxChanges.v ===== *)
(** * The changes of the mailbox tables

    Every operation on the mailbox, as a sequence of elementary changes: a receipt
    is inserted, exchanges are updated without touching a terminal response, an
    event file is referenced, walked, claimed and removed, a diagnostic is recorded
    or advances one stage, a mailbox is registered or retired.  What a change does
    to one exchange is [row_change]; what a page of the walk establishes is
    [work_sound]. *)
From stdpp Require Import relations.
From Stdlib Require Import String.
From S2P Require Import Prelude GoStrings Sha256 Identity Lifecycle Policy Canonical JsonText LaneAdmission.
From S2P Require Import Db AuditStore AdmissionStore Idempotency Sessions Listings Commands RemoteDb LocalIntents LocalIntentOps.
From S2P Require Import RetentionTheorems Mailbox MailboxOps MailboxClosure MailboxCleanup MailboxConfig MailboxDiagnostics.

(** ** The deadline of a response *)
Definition parse_optional (t : option StoredTime) : option (option Z) :=
  match t with None => Some None | Some t => Some <$> parseStoredTime t end.

(** The stored deadline, else the one derived from publication and acknowledgement. *)
Definition response_deadline (r : ExchangeRow) : option Z :=
  match x_response_cleanup_at r with
  | Some at_ => parseStoredTime at_
  | None =>
      updated ← parseStoredTime (x_updated_at r);
      acknowledged ← parse_optional (x_acknowledged_at r);
      if 0 <? x_response_revision (x_response r) then Some (mailboxResponseCleanupDeadline updated acknowledged) else None
  end.

Definition state_of (r : ExchangeRow) : MailboxExchangeState := x_request_state (x_response r).
Definition mailbox_of (r : ExchangeRow) : string := x_mailbox_id (x_receipt r).
Definition exchange_id_of (r : ExchangeRow) : string :=
  mailboxExchangeID (mkMailboxExchangeRef (mailbox_of r) (x_client_request_id (x_receipt r))).
Definition terminal_row (r : ExchangeRow) : Prop := mailboxExchangeStateTerminal (state_of r) = true.

(** The timestamps of an exchange were written by the program. *)
Definition written (t : StoredTime) : Prop := exists u, t = formatStoredTime u.
Definition well_timed (r : ExchangeRow) : Prop :=
  written (x_updated_at r) /\ (forall t, x_acknowledged_at r = Some t -> written t) /\
  (forall t, x_response_cleanup_at r = Some t -> written t).

Lemma written_positive t u : written t -> parseStoredTime t = Some u -> 0 < u.
Proof. intros [v ->] [-> [? _]]%parse_format_Some. done. Qed.

Lemma deadline_positive r t : well_timed r -> response_deadline r = Some t -> 0 < t.
Proof.
  intros (Hu & Ha & Hc) H. unfold response_deadline in H. destruct (x_response_cleanup_at r) as [c|].
  { eapply written_positive; [by apply Hc|done]. }
  apply bind_Some in H as (u & Hup & H). apply bind_Some in H as (a & Hack & H).
  destruct (0 <? _); [|done]. injection H as <-. pose proof (written_positive _ _ Hu Hup).
  unfold mailboxResponseCleanupDeadline, MailboxUnackedResponseLifetime, MailboxAckedResponseLifetime, hour, minute, second.
  destruct a as [a|]; [|lia]. destruct (_ <? _); [|lia].
  unfold parse_optional in Hack. destruct (x_acknowledged_at r) as [ta|]; [|done].
  apply fmap_Some in Hack as (a' & Hp & [= ->]). pose proof (written_positive _ _ (Ha _ eq_refl) Hp). lia.
Qed.

(** ** What happens to one exchange *)
Record row_change (r r' : ExchangeRow) : Prop := {
  rw_receipt : x_receipt r' = x_receipt r;
  rw_timed : well_timed r -> well_timed r';
  rw_known : known_exchange_state (state_of r) = true -> known_exchange_state (state_of r') = true;
  rw_terminal : terminal_row r -> x_response r' = x_response r;
  rw_deadline : forall t, terminal_row r -> response_deadline r = Some t -> exists t', response_deadline r' = Some t' /\ t' <= t;
  rw_quiet : cleanup_changed r r' = false -> state_of r' = state_of r /\ (terminal_row r -> response_deadline r' = response_deadline r);
  rw_acknowledged : forall t, x_acknowledged_at r = Some t -> x_acknowledged_at r' = Some t;
  rw_removal : forall t, x_response_cleanup_started_at r = Some t -> x_response_cleanup_started_at r' = Some t;
  rw_removed : forall t, x_response_file_removed_at r = Some t -> x_response_file_removed_at r' = Some t
}.

Lemma row_change_refl r : row_change r r.
Proof. split; try done. intros. eexists. split; [done|lia]. Qed.

(** An accepted exchange may get any response. *)
Lemma respond_change p cleanup now r :
  state_of r = MailboxExchangeAccepted -> known_exchange_state (x_request_state p) = true -> (forall t, cleanup = Some t -> written t) ->
  row_change r (with_response p cleanup now r).
Proof.
  intros Ha Hk Hc. assert (Hn : ~ terminal_row r) by (unfold terminal_row; by rewrite Ha).
  split; try done.
  - intros (Hu & Hack & _). split; [by eexists|split; [done|done]].
  - intros Hq. unfold cleanup_changed, with_response in Hq. cbn in Hq. bool_norm. split; [done|done].
Qed.

(** A row is only marked. *)
Lemma mark_change r r' : x_receipt r' = x_receipt r -> x_response r' = x_response r -> x_updated_at r' = x_updated_at r ->
  x_acknowledged_at r' = x_acknowledged_at r -> x_response_cleanup_at r' = x_response_cleanup_at r ->
  (forall t, x_response_cleanup_started_at r = Some t -> x_response_cleanup_started_at r' = Some t) ->
  (forall t, x_response_file_removed_at r = Some t -> x_response_file_removed_at r' = Some t) -> row_change r r'.
Proof.
  intros Hr Hp Hu Ha Hc Hs Hf.
  assert (Hd : response_deadline r' = response_deadline r) by (unfold response_deadline; by rewrite Hp, Hu, Ha, Hc).
  split; try done.
  - unfold well_timed. by rewrite Hu, Ha, Hc.
  - unfold state_of. by rewrite Hp.
  - intros t _ H. rewrite Hd. eexists. split; [done|lia].
  - unfold state_of. by rewrite Hp, Hd.
  - intros t. by rewrite Ha.
Qed.

(** ** Reads *)

(** What a record says of its row. *)
Record read_as (m : Mirror) (ref : MailboxExchangeRef) (r : ExchangeRow) (rec : MailboxExchangeRecord) : Prop := {
  ra_valid : validateMailboxExchangeRef ref = Ok ref;
  ra_row : mailbox_exchanges m !! mailboxExchangeID ref = Some r;
  ra_id : mx_ExchangeID rec = mailboxExchangeID ref;
  ra_mailbox : mailbox_of r = ref_MailboxID ref;
  ra_request : x_client_request_id (x_receipt r) = ref_ClientRequestID ref;
  ra_create_mailbox : mc_MailboxID (mx_create rec) = ref_MailboxID ref;
  ra_create_request : mc_RequestID (mx_create rec) = ref_ClientRequestID ref;
  ra_state : mx_State rec = state_of r;
  ra_known : known_exchange_state (state_of r) = true;
  ra_revision : mx_ResponseRevision rec = x_response_revision (x_response r);
  ra_terminal_bytes : mx_TerminalResponseBytes rec = default "" (x_terminal_response_bytes (x_response r));
  ra_cursor : mx_AvailableEventSequence rec = x_available_event_sequence (x_response r);
  ra_acknowledged : parse_optional (x_acknowledged_at r) = Some (mx_AcknowledgedAt rec);
  ra_started : parse_optional (x_response_cleanup_started_at r) = Some (mx_ResponseCleanupStartedAt rec);
  ra_removed : parse_optional (x_response_file_removed_at r) = Some (mx_ResponseFileRemovedAt rec);
  ra_updated : parseStoredTime (x_updated_at r) = Some (mx_UpdatedAt rec);
  ra_deadline : match x_response_cleanup_at r with Some at_ => parseStoredTime at_ = mx_ResponseCleanupAt rec | None => True end;
  ra_cleanup : forall t, mx_ResponseCleanupAt rec = Some t -> terminal_row r \/ x_response_cleanup_at r <> None ->
    response_deadline r = Some t;
  ra_has_deadline : terminal_row r -> 0 < x_response_revision (x_response r) -> is_Some (mx_ResponseCleanupAt rec);
  ra_file : mx_EventFileCommandID rec = default "" (event_file_command (mailboxExchangeID ref) m)
}.

Lemma validate_ref_Ok ref v : validateMailboxExchangeRef ref = Ok v ->
  v = ref /\ validMailboxID (ref_MailboxID ref) = true /\ validateMailboxRequestID (ref_ClientRequestID ref) = Ok tt.
Proof.
  unfold validateMailboxExchangeRef, NewMailboxExchangeRef. intros H. apply refuse_if_bind in H as [H [= <-]]. bool_norm.
  destruct ref as [a b]. cbn in *. split; [done|]. split; [done|]. by destruct (validateMailboxRequestID b) as [[]|].
Qed.

Lemma optional_instant_Ok t o : optional_instant t = Ok o <-> parse_optional t = Some o.
Proof.
  unfold optional_instant, exchange_instant, parse_optional. destruct t as [t|]; [|naive_solver].
  destruct (parseStoredTime t); cbn; naive_solver.
Qed.
Lemma exchange_instant_Ok t u : exchange_instant t = Ok u <-> parseStoredTime t = Some u.
Proof. unfold exchange_instant. destruct (parseStoredTime t); cbn; naive_solver. Qed.

Lemma checked_response_Ok bytes digest b h : checked_response bytes digest = Ok (b, h) -> b = default "" bytes.
Proof.
  unfold checked_response. destruct (0 <? go_len (default "" bytes)) eqn:E.
  - intros [_ [= <- <-]]%refuse_if_bind. done.
  - intros [= <- <-]. apply Z.ltb_ge in E. unfold go_len in E. destruct (default "" bytes); [done|cbn in E; lia].
Qed.

Lemma fallback_deadline r updated ack : x_response_cleanup_at r = None -> parseStoredTime (x_updated_at r) = Some updated ->
  parse_optional (x_acknowledged_at r) = Some ack -> 0 < x_response_revision (x_response r) ->
  response_deadline r = Some (mailboxResponseCleanupDeadline updated ack).
Proof. intros Hc Hu Ha Hr. unfold response_deadline. rewrite Hc, Hu, Ha. cbn. by rewrite (proj2 (Z.ltb_lt _ _) Hr). Qed.

Lemma decode_read_as m ref r rec : validateMailboxExchangeRef ref = Ok ref -> mailbox_exchanges m !! mailboxExchangeID ref = Some r ->
  decodeMailboxExchange ref (mailboxExchangeID ref) r (event_file_command (mailboxExchangeID ref) m) = Ok rec -> read_as m ref r rec.
Proof.
  intros Hv Hr H. unfold decodeMailboxExchange in H. tx_inv H. bool_norm.
  repeat match goal with
  | E : optional_instant _ = Ok _ |- _ => apply optional_instant_Ok in E
  | E : exchange_instant _ = Ok _ |- _ => apply exchange_instant_Ok in E
  | E : checked_response _ _ = Ok ?p |- _ => destruct p; apply checked_response_Ok in E
  end. subst.
  split; cbn; try done; try congruence.
  - destruct (x_response_cleanup_at r) as [c|] eqn:Ec; [|done]. cbn in *.
    destruct (parseStoredTime c); [|done]. cbn in *. by simplify_eq.
  - intros t Ht Hor. destruct (x_response_cleanup_at r) as [c|] eqn:Ec; cbn in *.
    + unfold response_deadline. rewrite Ec. destruct (parseStoredTime c); [|done]. cbn in *. by simplify_eq.
    + simplify_eq. destruct Hor as [Ht'|]; [|done]. destruct (0 <? x_response_revision (x_response r)) eqn:E; [|done]. bool_norm.
      unfold terminal_row, state_of in Ht'. rewrite Ht' in Ht. cbn in Ht. injection Ht as <-. by apply fallback_deadline.
  - intros Ht Hrev. destruct (x_response_cleanup_at r) as [c|] eqn:Ec; cbn in *.
    + destruct (parseStoredTime c); [|done]. cbn in *. by simplify_eq.
    + simplify_eq. unfold terminal_row, state_of in Ht. rewrite Ht, (proj2 (Z.ltb_lt _ _) Hrev). done.
Qed.

Lemma read_exchange_Ok ref m rec m' : readMailboxExchangeOnConnection ref m = Ok (rec, m') ->
  m' = m /\ exists r, read_as m ref r rec.
Proof.
  unfold readMailboxExchangeOnConnection. intros H. tx_inv H.
  match goal with E : validateMailboxExchangeRef _ = Ok _ |- _ => destruct (validate_ref_Ok _ _ E) as [-> _] end.
  split; [done|]. eexists. by apply decode_read_as.
Qed.

#[export] Instance read_exchange_ro ref : ReadOnly (readMailboxExchangeOnConnection ref).
Proof. intros m rec m' [-> _]%read_exchange_Ok. done. Qed.
#[export] Instance read_exchange_by_id_ro ref : ReadOnly (readMailboxExchangeByIDOnConnection ref).
Proof. unfold readMailboxExchangeByIDOnConnection. apply _. Qed.
#[export] Instance read_latest_ro mb c o k : ReadOnly (readLatestMailboxExchangeByKeyOnConnection mb c o k).
Proof. unfold readLatestMailboxExchangeByKeyOnConnection. apply _. Qed.

(** ** The walk over the references of a file *)
Definition file_key : Type := string * string * bool.

(** The exchanges that reference the file. *)
Definition refers (b : MailboxTables) (key : file_key) (x : string) (r : ExchangeRow) : Prop :=
  let '(mb, c, remote) := key in
  references b remote !! x = Some c /\ mb_exchanges b !! x = Some r /\ mailbox_of r = mb.

(** The exchange is terminal and its deadline is [limit] at the latest. *)
Definition released (r : ExchangeRow) (limit : Z) : Prop :=
  terminal_row r /\ exists t, response_deadline r = Some t /\ t <= limit.

(** What the progress of a walk says: when every exchange walked so far is
    terminal, [latest] bounds their deadlines. *)
Definition walked (w : CleanupWorkRow) (x : string) : Prop := cw_scan_complete w = true \/ string_le x (cw_last_exchange_id w).
Definition work_sound (b : MailboxTables) (key : file_key) (w : CleanupWorkRow) : Prop :=
  exists latest, cw_latest_cleanup_at w = nullableStoredTime latest /\ 0 <= latest /\
    (cw_all_terminal w = true -> forall x r, refers b key x r -> walked w x -> released r latest).

(** The walk is over and the last deadline has passed. *)
Definition work_due (w : CleanupWorkRow) (now : Z) : Prop :=
  cw_scan_complete w = true /\ cw_all_terminal w = true /\
  exists latest, cw_latest_cleanup_at w = nullableStoredTime latest /\ 0 < latest <= now.

Definition timed (b : MailboxTables) : Prop := forall x r, mb_exchanges b !! x = Some r -> well_timed r.

Lemma fresh_sound b key : (forall x r, refers b key x r -> x <> "") -> work_sound b key fresh_work.
Proof.
  intros Hx. exists 0. split; [done|]. split; [lia|]. intros _ x r Hr [Hw|Hw]; [done|].
  cbn in Hw. destruct (Hx _ _ Hr). by destruct x.
Qed.

(** ** Changes *)
Definition reset_work (key : file_key) (b : MailboxTables) : MailboxTables :=
  set_cleanup_work (<[key := fresh_work]> (mb_event_cleanup_work b)) b.
Definition file_of (key : file_key) : string * string := let '(mb, c, _) := key in (mb, c).
Definition is_remote (key : file_key) : bool := snd key.

(** A configuration table grows by a pair whose identifier and root are new. *)
Definition registers (t t' : gmap string (string * StoredTime)) : Prop :=
  t' = t \/ exists id root at_, t !! id = None /\ root_taken t root = false /\ t' = <[id := (root, at_)]> t.

Inductive change (b : MailboxTables) : MailboxTables -> Prop :=
  | change_insert id r : mb_exchanges b !! id = None -> id = exchange_id_of r -> well_timed r -> known_exchange_state (state_of r) = true ->
      mb_ingress_diagnostics b !! (mailbox_of r, x_client_request_id (x_receipt r)) = None ->
      change b (set_exchanges (<[id := r]> (mb_exchanges b)) b)
  | change_update p f : (forall id r, mb_exchanges b !! id = Some r -> p id r = true -> row_change r (f r)) ->
      change b (update_exchanges p f b)
  | change_reactivate remote key row : file_cleanup b remote !! key = Some row -> is_Some (ec_file_removed_at row) ->
      change b (on_file_cleanup remote (delete key) b)
  | change_reference remote id c r : mb_exchanges b !! id = Some r -> file_cleanup b remote !! (mailbox_of r, c) = None ->
      mb_event_file_references b !! id = None -> mb_remote_event_file_references b !! id = None ->
      change b (reset_work (mailbox_of r, c, remote) (insert_reference remote id c b))
  | change_reset key : change b (reset_work key b)
  | change_cursor t : change b (set_work_cursor t b)
  | change_walk key w w' : mb_event_cleanup_work b !! key = Some w -> work_sound b key w' ->
      change b (set_cleanup_work (<[key := w']> (mb_event_cleanup_work b)) b)
  | change_claim key w now : mb_event_cleanup_work b !! key = Some w -> work_due w now -> storable now ->
      file_cleanup b (is_remote key) !! file_of key = None ->
      change b (on_file_cleanup (is_remote key) (<[file_of key := mkEventFileCleanupRow (formatStoredTime now) None]>) b)
  | change_removed key row at_ : file_cleanup b (is_remote key) !! file_of key = Some row ->
      change b (set_cleanup_work (delete key (mb_event_cleanup_work b))
                  (on_file_cleanup (is_remote key) (<[file_of key := mkEventFileCleanupRow (ec_cleanup_started_at row) (Some at_)]>) b))
  | change_diagnose key row : mb_ingress_diagnostics b !! key = None ->
      (forall id r, mb_exchanges b !! id = Some r -> (mailbox_of r, x_client_request_id (x_receipt r)) <> key) ->
      change b (set_ingress_diagnostics (<[key := row]> (mb_ingress_diagnostics b)) b)
  | change_stage key row row' : mb_ingress_diagnostics b !! key = Some row -> dg_core row' = dg_core row -> monotonic row row' = true ->
      change b (set_ingress_diagnostics (<[key := row']> (mb_ingress_diagnostics b)) b)
  | change_collect t : t ⊆ mb_ingress_diagnostics b -> change b (set_ingress_diagnostics t b)
  | change_register t : registers (mb_configuration_registry b) t -> change b (set_registry t b)
  | change_retire t : registers (mb_configuration_retirements b) t ->
      (forall id row, t !! id = Some row -> mb_configuration_retirements b !! id = Some row \/ fst <$> mb_configuration_registry b !! id = Some (fst row)) ->
      change b (set_retirements t b).

(** A transaction commits a sequence of changes. *)
Notation changes := (rtc change).

Lemma transaction_changes {A} m (body : mtx A) r m' : withMirrorTransaction m body = (r, m') ->
  (forall a m1, body m = Ok (a, m1) -> changes (mailbox m) (mailbox m1)) -> changes (mailbox m) (mailbox m').
Proof.
  unfold withMirrorTransaction. destruct (body m) as [[a m1]|e] eqn:E; intros [= <- <-] H; [by eapply H|done].
Qed.

(** ** The statements *)
Lemma mailbox_on_tables f m : mailbox (on_mailbox_tables f m) = f (mailbox m).
Proof. done. Qed.

Lemma insert_exchange_changes v m u m' : insertMailboxExchangeOnConnection v m = Ok (u, m') -> changes (mailbox m) (mailbox m').
Proof.
  unfold insertMailboxExchangeOnConnection. intros H. tx_inv H. bool_norm. rewrite mailbox_on_tables. apply rtc_once.
  apply change_insert; [by apply is_Some_b_false|done|split; [by eexists|by split]| |by apply is_Some_b_false].
  unfold exchange_checks in *. bool_norm. done.
Qed.

Lemma insert_and_read_changes v m rec m' : insert_and_read v m = Ok (rec, m') -> changes (mailbox m) (mailbox m').
Proof.
  unfold insert_and_read. intros H. tx_inv H. apply read_exchange_Ok in H as [-> _]. by eapply insert_exchange_changes.
Qed.

Lemma update_changes p f m u m' : exec_update_exchanges p f m = Ok (u, m') ->
  (forall id r, mailbox_exchanges m !! id = Some r -> p id r = true -> row_change r (f r)) -> changes (mailbox m) (mailbox m').
Proof. unfold exec_update_exchanges. intros H Hp. tx_inv H. rewrite mailbox_on_tables. by apply rtc_once, change_update. Qed.

(** Inversion of a transaction: the reads change nothing. *)
Ltac ro H := first [apply read_only in H; subst | fail].
Ltac txi H := tx_inv H; bool_norm;
  repeat match goal with
  | E : readMailboxExchangeOnConnection _ _ = Ok _ |- _ => apply read_exchange_Ok in E as [-> (? & E)]
  | E : readMailboxExchangeByIDOnConnection _ _ = Ok (_, _) |- _ => ro E
  | E : readLatestMailboxExchangeByKeyOnConnection _ _ _ _ _ = Ok (_, _) |- _ => ro E
  end.

(** ** Acceptance *)
Lemma accept_exchange_changes s v rc rd now m a m' : accept_exchange s v rc rd now m = Ok (a, m') -> changes (mailbox m) (mailbox m').
Proof.
  unfold accept_exchange, rejectMailboxExchangeIngressDiagnosticCollision. intros H. txi H.
  match type of H with context [match ?x with Some _ => _ | None => _ end] => destruct x as [byID|] end; [by txi H|].
  tx_inv H.
  match goal with E : (if _ then check_admission _ else _) _ = Ok _ |- _ => assert (Hro := E); apply read_only in Hro; subst; clear E end.
  match goal with E : (if _ then mret None else _) _ = Ok (?e, _) |- _ => apply read_only in E; subst; destruct e as [existing|] end.
  2:{ txi H. by eapply insert_and_read_changes. }
  destruct (negb (key_active now existing)); [txi H; by eapply insert_and_read_changes|].
  destruct (changed_request existing v); [txi H; by eapply insert_and_read_changes|].
  destruct rd; txi H; by eapply insert_and_read_changes.
Qed.

Lemma accept_changes s m now input rc rd ex r m' : acceptMailboxExchange s m now input rc rd ex = (r, m') ->
  changes (mailbox m) (mailbox m').
Proof.
  unfold acceptMailboxExchange. destruct (mailboxRefFromInput input ex) as [[ref input']|e]; [|by intros [= <- <-]].
  destruct (validateMailboxExchangeCreate input'); [|by intros [= <- <-]]. intros H. eapply transaction_changes; [done|].
  intros ???. by eapply accept_exchange_changes.
Qed.

(** ** Event files *)
Lemma file_cleanup_on remote f b : file_cleanup (on_file_cleanup remote f b) remote = f (file_cleanup b remote).
Proof. by destruct remote. Qed.
Lemma file_cleanup_on_other remote remote' f b : remote' <> remote -> file_cleanup (on_file_cleanup remote f b) remote' = file_cleanup b remote'.
Proof. by destruct remote, remote'. Qed.
Lemma on_file_cleanup_frame remote f b :
  mb_exchanges (on_file_cleanup remote f b) = mb_exchanges b /\
  mb_event_file_references (on_file_cleanup remote f b) = mb_event_file_references b /\
  mb_remote_event_file_references (on_file_cleanup remote f b) = mb_remote_event_file_references b /\
  mb_event_cleanup_work (on_file_cleanup remote f b) = mb_event_cleanup_work b.
Proof. by destruct remote. Qed.

Lemma reactivate_changes mb c remote m u m' : reactivate_file mb c remote m = Ok (u, m') ->
  changes (mailbox m) (mailbox m') /\ file_cleanup (mailbox m') remote !! (mb, c) = None /\
  mb_exchanges (mailbox m') = mb_exchanges (mailbox m).
Proof.
  unfold reactivate_file. intros H. tx_inv H.
  match type of H with match ?x with _ => _ end _ = _ => destruct x as [row|] eqn:Erow end; tx_inv H; [|done].
  bool_norm. rewrite mailbox_on_tables. split; [|split].
  - apply rtc_once. eapply change_reactivate; [done|]. by destruct (ec_file_removed_at row).
  - rewrite file_cleanup_on. apply lookup_delete_eq.
  - apply on_file_cleanup_frame.
Qed.

Lemma bind_changes s ref c now m u m' : bindMailboxEventFileReferenceOnConnection s ref c now m = Ok (u, m') ->
  changes (mailbox m) (mailbox m').
Proof.
  unfold bindMailboxEventFileReferenceOnConnection. intros H. tx_inv H.
  match goal with E : readMailboxExchangeOnConnection _ _ = Ok _ |- _ => apply read_exchange_Ok in E as [-> (r & Hr)] end.
  match goal with E : reactivate_file _ _ _ _ = Ok _ |- _ => apply reactivate_changes in E as (Hc & Hnone & Hx) end.
  etrans; [exact Hc|]. unfold mailbox_event_file_references, mailbox_remote_event_file_references in *.
  match type of H with match ?x with _ => _ end _ = _ => destruct x as [l|] eqn:El end;
  match type of H with match ?x with _ => _ end _ = _ => destruct x as [rm|] eqn:Erm end; try done;
    unfold resetMailboxEventCleanupWork, insertReference in H; tx_inv H; [by apply rtc_once, change_reset..|].
  rewrite !mailbox_on_tables. apply rtc_once. rewrite (ra_create_mailbox _ _ _ _ Hr), <- (ra_mailbox _ _ _ _ Hr) in *.
  rewrite (ra_id _ _ _ _ Hr) in *. apply change_reference; try done.
  rewrite Hx. apply (ra_row _ _ _ _ Hr).
Qed.

Lemma Bind_changes s m now ref c r m' : BindMailboxEventFileReferenceInMailbox s m now ref c = (r, m') -> changes (mailbox m) (mailbox m').
Proof.
  unfold BindMailboxEventFileReferenceInMailbox.
  destruct (validateMailboxExchangeRef ref), (NewCommandID c); try by intros [= <- <-].
  intros H. eapply transaction_changes; [done|]. intros ???. by eapply bind_changes.
Qed.

(** ** Responses *)
Lemma written_format t : written (formatStoredTime t).
Proof. by exists t. Qed.

Lemma row_of_true id p key r : row_of id p key r = true <-> key = id /\ p r = true.
Proof. unfold row_of. rewrite andb_true_iff, bool_decide_eq_true. done. Qed.
Lemma in_state_true st r : in_exchange_state st r = true <-> state_of r = st.
Proof. unfold in_exchange_state. by rewrite bool_decide_eq_true. Qed.

Lemma publish_changes s ref pub file now m rec m' : known_exchange_state (mp_State pub) = true ->
  publish_response s ref pub file now m = Ok (rec, m') -> changes (mailbox m) (mailbox m').
Proof.
  unfold publish_response. intros Hk H. tx_inv H.
  match goal with E : readMailboxExchangeOnConnection _ _ = Ok _ |- _ => apply read_exchange_Ok in E as [-> (r & Hr)] end.
  destruct (negb _); tx_inv H; [done|].
  apply read_exchange_Ok in H as [-> _]. etrans.
  - eapply update_changes; [done|]. intros id row _ [_ Hs]%row_of_true. apply in_state_true in Hs. apply respond_change; [done|done|].
    intros t. unfold publication_deadline. destruct (mailboxExchangeStateTerminal _); [|done]. intros [= <-]. apply written_format.
  - destruct file; [by eapply bind_changes|]. match goal with E : mret tt _ = Ok _ |- _ => tx_inv E end. done.
Qed.

Lemma Publish_changes s m now ref pub r m' : PublishMailboxResponseInMailbox s m now ref pub = (r, m') -> changes (mailbox m) (mailbox m').
Proof.
  unfold PublishMailboxResponseInMailbox. destruct (mbind _ _) as [[v f]|] eqn:E; [|by intros [= <- <-]].
  intros H. eapply transaction_changes; [done|]. intros ???. eapply publish_changes; [|done].
  tx_inv E. match goal with V : valid_publication _ = Ok _ |- _ => unfold valid_publication in V; tx_inv V end. by bool_norm.
Qed.

Lemma lookup_updated p f m id : mailbox_exchanges (on_mailbox_tables (update_exchanges p f) m) !! id =
  (fun r => if p id r then f r else r) <$> mailbox_exchanges m !! id.
Proof. unfold mailbox_exchanges. rewrite mailbox_on_tables. apply lookup_update_where. Qed.

Lemma parse_optional_None t : parse_optional t = Some None -> t = None.
Proof. destruct t as [t|]; [|done]. cbn. by destruct (parseStoredTime t). Qed.
Lemma parse_optional_Some t u : parse_optional t = Some (Some u) -> exists v, t = Some v /\ parseStoredTime v = Some u.
Proof. destruct t as [t|]; [|done]. cbn. destruct (parseStoredTime t) eqn:E; [|done]. intros [= <-]. by exists t. Qed.

(** An acknowledgement never extends the deadline. *)
Lemma acknowledged_earlier rec now t : mx_ResponseCleanupAt rec = Some t -> acknowledged_deadline rec now <= t.
Proof. unfold acknowledged_deadline. intros ->. cbn. destruct (_ && _ && _) eqn:E; bool_norm; lia. Qed.

Lemma acknowledgement_change m ref r rec now t : read_as m ref r rec -> terminal_row r -> x_acknowledged_at r = None ->
  mx_ResponseCleanupAt rec = Some t -> storable (acknowledged_deadline rec now) ->
  row_change r (with_acknowledgement now (acknowledged_deadline rec now) r).
Proof.
  intros Hr Ht Hn Hc Hs.
  assert (Hd : response_deadline (with_acknowledgement now (acknowledged_deadline rec now) r) = Some (acknowledged_deadline rec now)).
  { unfold response_deadline. cbn. by apply parse_format. }
  split; try done.
  - intros (Hu & _ & _). split; [done|]. split; intros ? [= <-]; apply written_format.
  - intros t' _ Ht'. rewrite Hd. rewrite (ra_cleanup _ _ _ _ Hr _ Hc (or_introl Ht)) in Ht'. injection Ht' as <-.
    eexists. split; [done|]. by apply acknowledged_earlier.
  - intros Hq. split; [done|]. intros _. unfold cleanup_changed in Hq. bool_norm. cbn [with_acknowledgement x_response_cleanup_at] in *.
    match goal with H : Some _ = x_response_cleanup_at r |- _ => rewrite Hd; unfold response_deadline; rewrite <- H end.
    by rewrite parse_format.
  - intros t'. by rewrite Hn.
Qed.

Lemma acknowledge_inv s ref ack now m rec m' : acknowledge s ref ack now m = Ok (rec, m') ->
  exists r rec0, read_as m ref r rec0 /\ terminal_row r /\ 1 <= x_response_revision (x_response r) /\
    x_response_revision (x_response r) = ack_ResponseRevision ack /\ x_available_event_sequence (x_response r) = ack_AvailableEventSequence ack /\
    (is_Some (mx_AcknowledgedAt rec0) /\ m' = m /\ rec = rec0 \/
     exists t, x_acknowledged_at r = None /\ mx_ResponseCleanupAt rec0 = Some t /\ storable (acknowledged_deadline rec0 now) /\
       m' = on_mailbox_tables (update_exchanges (row_of (mailboxExchangeID ref) (fun r => negb (is_Some_b (x_acknowledged_at r))))
              (with_acknowledgement now (acknowledged_deadline rec0 now))) m /\
       read_as m' ref (with_acknowledgement now (acknowledged_deadline rec0 now) r) rec).
Proof.
  unfold acknowledge, check_admission. intros H. tx_inv H. bool_norm.
  match goal with E : readMailboxExchangeOnConnection _ _ = Ok _ |- _ => apply read_exchange_Ok in E as [-> (r & Hr)] end.
  match type of Hr with read_as _ _ _ ?x => rename x into rec0 end.
  pose proof (ra_id _ _ _ _ Hr) as Hid. pose proof (ra_state _ _ _ _ Hr) as Hst. pose proof (ra_revision _ _ _ _ Hr) as Hrv.
  pose proof (ra_cursor _ _ _ _ Hr) as Hcu. exists r, rec0. split; [exact Hr|]. unfold sameCursor in *. bool_norm.
  assert (Ht : terminal_row r) by (unfold terminal_row; congruence).
  split; [done|]. split; [lia|]. split; [congruence|]. split; [congruence|].
  destruct (mx_AcknowledgedAt rec0) as [at0|] eqn:Eack; cbn [is_Some_b] in H; tx_inv H.
  - left. split; [by eexists|done].
  - right. destruct (ra_has_deadline _ _ _ _ Hr Ht) as [t Hdl]; [lia|]. exists t.
    assert (Hn : x_acknowledged_at r = None) by (apply parse_optional_None; rewrite <- Eack; apply (ra_acknowledged _ _ _ _ Hr)).
    apply read_exchange_Ok in H as [-> (r' & Hr')]. unfold exec_update_exchanges in *.
    match goal with E : modify _ _ = Ok _ |- _ => tx_inv E end.
    assert (Er : r' = with_acknowledgement now (acknowledged_deadline rec0 now) r).
    { pose proof (ra_row _ _ _ _ Hr') as E. rewrite lookup_updated, (ra_row _ _ _ _ Hr), Hid in E. cbn in E.
      unfold row_of in E. rewrite bool_decide_true, Hn in E by done. by injection E as <-. }
    subst r'. split; [done|]. split; [done|]. split; [|split; [by rewrite <- Hid|done]].
    destruct (ra_has_deadline _ _ _ _ Hr') as [t' Ht']; [done|cbn; lia|].
    pose proof (ra_deadline _ _ _ _ Hr') as E. cbn in E. rewrite Ht' in E. by apply parse_format_Some in E as [_ ?].
Qed.

Lemma acknowledge_changes s ref ack now m rec m' : acknowledge s ref ack now m = Ok (rec, m') -> changes (mailbox m) (mailbox m').
Proof.
  intros (r & rec0 & Hr & Ht & _ & _ & _ & [(_ & -> & _)|(t & Hn & Hc & Hs & -> & _)])%acknowledge_inv; [done|].
  rewrite mailbox_on_tables. apply rtc_once, change_update. intros id row Hrow [-> _]%row_of_true.
  pose proof (ra_row _ _ _ _ Hr) as E. unfold mailbox_exchanges in E. rewrite E in Hrow. injection Hrow as <-.
  by eapply acknowledgement_change.
Qed.

Lemma Acknowledge_changes s m now ref ack r m' : AcknowledgeMailboxExchangeInMailbox s m now ref ack = (r, m') -> changes (mailbox m) (mailbox m').
Proof.
  unfold AcknowledgeMailboxExchangeInMailbox. destruct (validateMailboxExchangeRef ref); [|by intros [= <- <-]].
  destruct (_ || _ || _ || _); [by intros [= <- <-]|]. intros H. eapply transaction_changes; [done|]. intros ???. by eapply acknowledge_changes.
Qed.

(** Completion, when the exchanges of the same binding are all accepted. *)
Definition none_settled (m : Mirror) (ref : MailboxExchangeRef) : Prop :=
  forall r rec id r', read_as m ref r rec -> mailbox_exchanges m !! id = Some r' -> same_binding_row rec id r' = true ->
    state_of r' = MailboxExchangeAccepted.

Lemma complete_change next now r : state_of r = MailboxExchangeAccepted -> mailboxExchangeStateTerminal next = true ->
  row_change r (with_request_state next now r).
Proof.
  intros Ha Hn. assert (Hnt : ~ terminal_row r) by (unfold terminal_row; by rewrite Ha). split; try done.
  - intros (_ & Hk & Hc). split; [by eexists|done].
  - intros _. by destruct next.
  - intros Hq. unfold cleanup_changed in Hq. bool_norm. unfold state_of in *. cbn in *. subst. by rewrite Ha in Hn.
Qed.

Lemma Complete_changes m now ref next r m' : none_settled m ref -> CompleteMailboxExchangeInMailbox m now ref next = (r, m') ->
  changes (mailbox m) (mailbox m').
Proof.
  intros Hg. unfold CompleteMailboxExchangeInMailbox. destruct (validateMailboxExchangeRef ref) as [v|] eqn:Hv; [|by intros [= <- <-]].
  apply validate_ref_Ok in Hv as [-> _]. destruct (negb (mailboxExchangeStateTerminal next)) eqn:Hn; [by intros [= <- <-]|]. bool_norm.
  intros H. eapply transaction_changes; [done|]. clear H. intros a m1 H. tx_inv H.
  match goal with E : readMailboxExchangeOnConnection _ _ = Ok _ |- _ => apply read_exchange_Ok in E as [-> (row & Hr)] end.
  destruct (negb _); tx_inv H; [done|]. apply read_exchange_Ok in H as [-> _].
  eapply update_changes; [done|]. intros id row' Hrow Hp. apply complete_change; [|done]. by eapply Hg.
Qed.

(** ** Closing uncertain runs *)
Lemma update_intent_mailbox id f m u m' : update_intent id f m = Ok (u, m') -> mailbox m' = mailbox m.
Proof. unfold update_intent. intros H. by tx_inv H. Qed.
Lemma append_lifecycle_mailbox id st reason now m u m' :
  appendLocalIntentLifecycleOnConnection id st reason now m = Ok (u, m') -> mailbox m' = mailbox m.
Proof. unfold appendLocalIntentLifecycleOnConnection, insert_intent_lifecycle. intros H. by tx_inv H. Qed.
#[export] Instance read_intent_by_exchange_ro e : ReadOnly (readLocalIntentByMailboxExchangeOnConnection e).
Proof. unfold readLocalIntentByMailboxExchangeOnConnection, readLocalIntentOnConnection. apply _. Qed.

Lemma indeterminate_change bytes revision now r : state_of r = MailboxExchangeAccepted -> row_change r (with_indeterminate bytes revision now r).
Proof. intros Ha. apply respond_change; [done|done|]. intros t [= <-]. apply written_format. Qed.

Lemma abandon_changes ref current want now m rec m' : abandon_run ref current want now m = Ok (rec, m') -> changes (mailbox m) (mailbox m').
Proof.
  unfold abandon_run. intros H. tx_inv H. apply read_exchange_Ok in H as [-> _].
  match goal with E : update_intent _ _ _ = Ok _ |- _ => apply update_intent_mailbox in E as <- end.
  match goal with E : appendLocalIntentLifecycleOnConnection _ _ _ _ _ = Ok _ |- _ => apply append_lifecycle_mailbox in E as <- end.
  eapply update_changes; [done|]. intros id row _ [_ Hs]%row_of_true. bool_norm. apply indeterminate_change. by apply in_state_true.
Qed.

Lemma Close_changes m checked now ref want r m' : CloseUncertainRemoteRunAsIndeterminateInMailbox m checked now ref want = (r, m') ->
  changes (mailbox m) (mailbox m').
Proof.
  unfold CloseUncertainRemoteRunAsIndeterminateInMailbox. destruct (mbind _ _) as [[v w]|]; [|by intros [= <- <-]].
  intros H. eapply transaction_changes; [done|]. clear H. intros a m1 H. unfold close_uncertain in H. tx_inv H.
  match goal with E : readMailboxExchangeOnConnection _ _ = Ok _ |- _ => apply read_exchange_Ok in E as [-> _] end.
  match goal with E : readLocalIntentByMailboxExchangeOnConnection _ _ = Ok _ |- _ => apply read_only in E; subst end.
  match type of H with (if ?b then _ else _) _ = _ => destruct b end; tx_inv H; [done|].
  match goal with E : abandon_run _ _ _ _ _ = Ok _ |- _ => exact (abandon_changes _ _ _ _ _ _ _ E) end.
Qed.

Lemma status_changes ref pub now m rec m' : publish_status_unavailable ref pub now m = Ok (rec, m') -> changes (mailbox m) (mailbox m').
Proof.
  unfold publish_status_unavailable. intros H. tx_inv H.
  match goal with E : readMailboxExchangeOnConnection _ _ = Ok _ |- _ => apply read_exchange_Ok in E as [-> _] end.
  match type of H with (let '_ := ?p in _) _ = _ => destruct p as [[job session] command] end. tx_inv H.
  match type of H with (let '_ := ?p in _) _ = _ => destruct p as [intentID intent] end. tx_inv H.
  apply read_exchange_Ok in H as [-> _].
  eapply update_changes; [done|]. intros id row _ [_ Hs]%row_of_true. apply indeterminate_change. by apply in_state_true.
Qed.

Lemma Status_changes m now ref pub r m' : PublishAcceptedRemoteStatusUnavailableInMailbox m now ref pub = (r, m') ->
  changes (mailbox m) (mailbox m').
Proof.
  unfold PublishAcceptedRemoteStatusUnavailableInMailbox. destruct (validateMailboxExchangeRef ref); [|by intros [= <- <-]].
  destruct (_ || _ || _ || _); [by intros [= <- <-]|]. intros H. eapply transaction_changes; [done|]. intros ???. by eapply status_changes.
Qed.

(** ** Response files *)
Lemma cleanup_started_change now r : row_change r (with_cleanup_started now r).
Proof. apply mark_change; try done. intros t H. cbn. by rewrite H. Qed.
Lemma file_removed_change now r : row_change r (with_file_removed now r).
Proof. apply mark_change; try done. intros t H. cbn. by rewrite H. Qed.

Lemma claim_responses_changes now refs : forall m a m', claim_responses now refs m = Ok (a, m') -> changes (mailbox m) (mailbox m').
Proof.
  induction refs as [|ref refs IH]; intros m a m' H; cbn [claim_responses] in H; [by tx_inv H|]. tx_inv H.
  match goal with E : readMailboxExchangeOnConnection _ _ = Ok _ |- _ => apply read_exchange_Ok in E as [-> _] end.
  match type of H with (if ?b then _ else _) _ = _ => destruct b end; [by eapply IH|]. tx_inv H.
  etrans; [|by eapply IH]. eapply update_changes; [done|]. intros. apply cleanup_started_change.
Qed.

Lemma Claim_responses_changes m now mb r m' : ClaimMailboxResponsesForCleanupInMailbox m now mb = (r, m') -> changes (mailbox m) (mailbox m').
Proof.
  unfold ClaimMailboxResponsesForCleanupInMailbox. destruct (validateMailboxID mb); [|by intros [= <- <-]].
  intros H. eapply transaction_changes; [done|]. clear H. intros refs m1 H. tx_inv H. by eapply claim_responses_changes.
Qed.

Lemma Mark_response_changes m now ref r m' : MarkMailboxResponseFileRemovedInMailbox m now ref = (r, m') -> changes (mailbox m) (mailbox m').
Proof.
  unfold MarkMailboxResponseFileRemovedInMailbox. destruct (validateMailboxExchangeRef ref); [|by intros [= <- <-]].
  intros H. eapply transaction_changes; [done|]. clear H. intros refs m1 H. tx_inv H.
  match goal with E : readMailboxExchangeOnConnection _ _ = Ok _ |- _ => apply read_exchange_Ok in E as [-> _] end.
  eapply update_changes; [done|]. intros. apply file_removed_change.
Qed.
