(* ===== verification/MailboxFiles.v ===== *)
(** * Event files of the mailbox

    The invariant of the event files and that every change keeps it: the progress
    of every walk is sound, and a file whose removal was claimed is referenced only
    by terminal exchanges whose deadline had passed at the claim.  Then the bounded
    walk of [ClaimMailboxEventFilesForCleanupInMailbox] and the other operations as
    changes. *)
From stdpp Require Import relations.
From Stdlib Require Import String.
From S2P Require Import Prelude GoStrings Sha256 Identity Lifecycle Policy Canonical JsonText LaneAdmission.
From S2P Require Import Db AuditStore AdmissionStore Idempotency Sessions Listings Commands RemoteDb LocalIntents LocalIntentOps.
From S2P Require Import RetentionTheorems Mailbox MailboxOps MailboxClosure MailboxCleanup MailboxConfig MailboxDiagnostics MailboxChanges.

(** ** The invariant *)
Record files_inv (b : MailboxTables) : Prop := {
  fi_keys : forall x r, mb_exchanges b !! x = Some r -> x <> "";
  fi_timed : timed b;
  fi_references : forall remote x c, references b remote !! x = Some c -> is_Some (mb_exchanges b !! x);
  fi_work : forall key w, mb_event_cleanup_work b !! key = Some w -> work_sound b key w;
  fi_claims : forall key row, file_cleanup b (is_remote key) !! file_of key = Some row ->
    exists now, storable now /\ ec_cleanup_started_at row = formatStoredTime now /\
      forall x r, refers b key x r -> released r now
}.

Lemma files_inv_empty : files_inv empty_mailbox.
Proof.
  split; [intros x r H|intros x r H|intros [] x c H|intros key w H|intros [[mb c] []] row H]; destruct (lookup_empty_Some _ _ H).
Qed.

(** Only the exchanges, the references, the work and the claims matter. *)
Lemma files_inv_frame b b' : mb_exchanges b' = mb_exchanges b -> (forall remote, references b' remote = references b remote) ->
  mb_event_cleanup_work b' = mb_event_cleanup_work b -> (forall remote, file_cleanup b' remote = file_cleanup b remote) ->
  files_inv b -> files_inv b'.
Proof.
  intros Hx Hr Hw Hf []. assert (Href : forall key x r, refers b' key x r <-> refers b key x r).
  { intros [[mb c] remote] x r. unfold refers. by rewrite Hx, Hr. }
  split.
  - by rewrite Hx.
  - unfold timed. by rewrite Hx.
  - intros remote x c. rewrite Hr, Hx. apply fi_references0.
  - intros key w. rewrite Hw. intros (latest & H1 & H2 & H3)%fi_work0. exists latest. split; [done|]. split; [done|].
    intros Ha x r Hrf. apply (H3 Ha). by apply Href.
  - intros key row. rewrite Hf. intros (now & H1 & H2 & H3)%fi_claims0. exists now. split; [done|]. split; [done|].
    intros x r Hrf. by apply (H3 x), Href.
Qed.

(** ** Event files: the walk *)
Lemma cleanup_instant_Ok t u : cleanup_instant t = Ok u <-> parseStoredTime t = Some u.
Proof. unfold cleanup_instant. destruct (parseStoredTime t); cbn; naive_solver. Qed.
Lemma cleanup_optional_Ok t o : cleanup_optional t = Ok o <-> parse_optional t = Some o.
Proof.
  unfold cleanup_optional, cleanup_instant, parse_optional. destruct t as [t|]; [|naive_solver].
  destruct (parseStoredTime t); cbn; naive_solver.
Qed.

Lemma metadata_Ok mb item id m o m' : readMailboxEventCleanupMetadata mb item id m = Ok (o, m') ->
  m' = m /\ exists r, mailbox_exchanges m !! id = Some r /\
    match o with Some t => terminal_row r /\ response_deadline r = Some t | None => ~ terminal_row r end.
Proof.
  unfold readMailboxEventCleanupMetadata. intros H. tx_inv H. split; [done|]. eexists. split; [done|].
  unfold decodeCleanupMetadata in H. tx_inv H. unfold terminal_row, state_of. unfold response_deadline.
  match type of H with (if negb ?b then _ else _) = _ => destruct b end; cbn [negb] in H; [|by injection H as <-].
  match type of H with match ?x with _ => _ end = _ => destruct x as [c|] end; tx_inv H.
  - split; [done|]. by apply cleanup_instant_Ok.
  - bool_norm. split; [done|].
    repeat match goal with
    | E : cleanup_instant _ = Ok _ |- _ => apply cleanup_instant_Ok in E; rewrite E
    | E : cleanup_optional _ = Ok _ |- _ => apply cleanup_optional_Ok in E; rewrite E
    end. cbn. by rewrite (proj2 (Z.ltb_lt _ _)) by lia.
Qed.

Lemma released_later r t t' : t <= t' -> released r t -> released r t'.
Proof. intros Hle (Ht & d & Hd & Hl). split; [done|]. exists d. split; [done|lia]. Qed.

Lemma scan_sound mb item ids : forall aT latest m aT' latest' m',
  timed (mailbox m) -> 0 <= latest -> scan_references mb item ids aT latest m = Ok ((aT', latest'), m') ->
  latest <= latest' /\
  (aT' = true -> aT = true /\ forall x, x ∈ ids -> exists r, mailbox_exchanges m !! x = Some r /\ released r latest').
Proof.
  induction ids as [|id ids IH]; intros aT latest m aT' latest' m' Ht Hl H; cbn [scan_references] in H; tx_inv H.
  - split; [lia|]. intros ->. split; [done|]. intros x Hx. by apply not_elem_of_nil in Hx.
  - match goal with E : readMailboxEventCleanupMetadata _ _ _ _ = Ok (?o, _) |- _ =>
      apply metadata_Ok in E as (-> & r & Hr & Ho); destruct o as [t|] end.
    + destruct Ho as [Htr Hd]. pose proof (deadline_positive _ _ (Ht _ _ Hr) Hd) as Hpos.
      apply IH in H as [Hle Hall]; [|done|destruct (_ || _); lia].
      assert (Hlt : latest <= latest' /\ t <= latest').
      { destruct (IsZero latest || (latest <? t)) eqn:E; [|bool_norm; lia].
        unfold IsZero in E. apply orb_true_iff in E as [E|E]; bool_norm; lia. }
      split; [lia|]. intros Ht'. destruct (Hall Ht') as [-> Hids]. split; [done|].
      intros x [->|Hx]%elem_of_cons; [|by apply Hids]. exists r. split; [done|]. split; [done|]. exists t. split; [done|lia].
    + apply IH in H as [Hle Hall]; [|done|done]. split; [done|]. intros Ht'. by destruct (Hall Ht').
Qed.

(** A page of a sorted list: what is not after its last element is in it. *)
Lemma page_prefix (l : list string) n x y : StronglySorted string_le l -> x ∈ l -> last (take n l) = Some y -> string_le x y -> x ∈ take n l.
Proof.
  intros Hs Hx Hy Hle. rewrite <- (take_drop n l) in Hx, Hs. apply elem_of_app in Hx as [Hx|Hx]; [done|].
  apply last_Some_elem_of in Hy as Hin. replace x with y; [done|]. apply (anti_symm string_le); [|done].
  eapply StronglySorted_app_1_elem_of; [exact Hs|done|done].
Qed.

Lemma elem_of_file_references mb item m x : x ∈ file_references mb item m <->
  exists r, refers (mailbox m) (mb, wk_commandID item, wk_remote item) x r.
Proof.
  unfold file_references, sort_strings. rewrite merge_sort_Permutation, list_elem_of_omap. split.
  - intros ([x' c] & Hin%elem_of_map_to_list & H). apply bind_Some in H as (r & Hr & H).
    destruct (_ && _) eqn:E; [|done]. injection H as <-. bool_norm. subst. exists r. done.
  - intros (r & Hc & Hr & Hm). exists (x, wk_commandID item). split; [by apply elem_of_map_to_list|].
    unfold mailbox_exchanges. rewrite Hr. cbn. unfold mailbox_of in Hm. by rewrite !bool_decide_true.
Qed.

Lemma sorted_filter {A} (R : relation A) (p : A -> bool) l : StronglySorted R l -> StronglySorted R (List.filter p l).
Proof.
  induction 1 as [|a l Hl IH Ha]; [constructor|]. cbn. destruct (p a); [|done]. constructor; [done|].
  apply Forall_forall. intros x Hx. rewrite Forall_forall in Ha. apply Ha.
  apply list_elem_of_In, filter_In in Hx as [Hx _]. by apply list_elem_of_In.
Qed.

Lemma string_ltb_true x y : string_ltb x y = true <-> ~ string_le y x.
Proof.
  unfold string_ltb. split.
  - intros H Hle. apply andb_true_iff in H as [H1 H2]. apply negb_true_iff, bool_decide_eq_false in H2. apply H2.
    by apply (anti_symm string_le).
  - intros Hn. destruct (total string_le x y) as [H|H]; [|done]. apply andb_true_iff. split; [exact H|].
    apply negb_true_iff, bool_decide_eq_false. intros ->. by apply Hn.
Qed.

(** A page holds the references after the cursor, up to its last one. *)
Lemma elem_of_page mb item last_ m x r : refers (mailbox m) (mb, wk_commandID item, wk_remote item) x r -> ~ string_le x last_ ->
  ((length (reference_page mb item last_ m) < maxEventCleanupRefsPerWorkItem)%nat \/
   string_le x (default last_ (last (reference_page mb item last_ m)))) -> x ∈ reference_page mb item last_ m.
Proof.
  intros Hr Hn Hor. unfold reference_page in *. set (l := List.filter (string_ltb last_) (file_references mb item m)) in *.
  assert (Hx : x ∈ l).
  { apply list_elem_of_In, filter_In. split; [|by apply string_ltb_true]. apply list_elem_of_In, elem_of_file_references. by eexists. }
  destruct (last (take maxEventCleanupRefsPerWorkItem l)) as [y|] eqn:Ey.
  - destruct Hor as [Hlen|Hle].
    + rewrite length_take in Hlen. rewrite take_ge by lia. done.
    + eapply page_prefix; [|done|done|done]. apply sorted_filter, StronglySorted_merge_sort; apply _.
  - apply last_None in Ey. destruct l; [by apply not_elem_of_nil in Hx|]. done.
Qed.

Lemma nullable_parse latest o : 0 <= latest -> parse_optional (nullableStoredTime latest) = Some o -> default 0 o = latest.
Proof.
  unfold nullableStoredTime, IsZero. intros Hl. destruct (latest =? 0) eqn:E; bool_norm; [by intros [= <-]|].
  cbn. destruct (parseStoredTime _) as [u|] eqn:Eu; [|done]. intros [= <-]. by apply parse_format_Some in Eu as [-> _].
Qed.

Lemma walk_sound mb item w scanned aT latest' lo m m' :
  timed (mailbox m) -> parse_optional (cw_latest_cleanup_at w) = Some lo -> cw_scan_complete w = false ->
  scan_references mb item (reference_page mb item (cw_last_exchange_id w) m) (cw_all_terminal w) (default 0 lo) m = Ok ((aT, latest'), m') ->
  work_sound (mailbox m) (mb, wk_commandID item, wk_remote item) w ->
  0 <= latest' /\
  work_sound (mailbox m) (mb, wk_commandID item, wk_remote item)
    (mkCleanupWorkRow (default (cw_last_exchange_id w) (last (reference_page mb item (cw_last_exchange_id w) m))) scanned
       (length (reference_page mb item (cw_last_exchange_id w) m) <? maxEventCleanupRefsPerWorkItem)%nat aT (nullableStoredTime latest')).
Proof.
  intros Ht Hlo Hc Hscan (latest & Hl & Hpos & Hold). rewrite Hl in Hlo. apply nullable_parse in Hlo; [|done]. rewrite Hlo in Hscan.
  apply scan_sound in Hscan as [Hle Hall]; [|done|done]. split; [lia|]. exists latest'. split; [done|]. split; [lia|].
  intros Ha. cbn [cw_all_terminal] in Ha. subst aT. destruct (Hall eq_refl) as [Hat Hpage]. intros x r Hr Hw.
  unfold walked in Hw. cbn [cw_scan_complete cw_last_exchange_id] in Hw.
  destruct (decide (string_le x (cw_last_exchange_id w))) as [Hx|Hx].
  { eapply released_later; [exact Hle|]. apply (Hold Hat x); [done|by right]. }
  destruct (Hpage x) as (r' & Hr' & Hrel).
  { eapply elem_of_page; [done|done|]. destruct Hw as [Hw|Hw]; [left; by apply Nat.ltb_lt in Hw|by right]. }
  destruct Hr as (_ & Hr & _). unfold mailbox_exchanges in Hr'. by simplify_eq.
Qed.

(** ** Every change keeps the invariant *)
Lemma references_set_exchanges t b remote : references (set_exchanges t b) remote = references b remote.
Proof. by destruct remote. Qed.
Lemma references_set_work t b remote : references (set_cleanup_work t b) remote = references b remote.
Proof. by destruct remote. Qed.

Lemma refers_not_empty b key x r : files_inv b -> refers b key x r -> x <> "".
Proof. destruct key as [[mb c] remote]. intros Hi (_ & Hr & _). by eapply fi_keys. Qed.

Lemma insert_files_inv b id r : mb_exchanges b !! id = None -> id <> "" -> well_timed r -> files_inv b ->
  files_inv (set_exchanges (<[id := r]> (mb_exchanges b)) b).
Proof.
  intros Hn Hid Ht Hi. set (b' := set_exchanges _ _).
  assert (Href : forall key x r', refers b' key x r' -> refers b key x r').
  { intros [[mb c] remote] x r' (H1 & H2 & H3). split; [by destruct remote|]. split; [|done].
    destruct (fi_references _ Hi remote x c) as [r0 H0]; [by destruct remote|].
    cbn in H2. rewrite lookup_insert_ne in H2 by congruence. done. }
  split.
  - intros x r' H. cbn in H. apply lookup_insert_Some in H as [[<- <-]|[_ H]]; [done|by eapply fi_keys].
  - intros x r' H. cbn in H. apply lookup_insert_Some in H as [[<- <-]|[_ H]]; [done|by eapply fi_timed].
  - intros remote x c H. destruct (fi_references _ Hi remote x c) as [r0 H0]; [by destruct remote|].
    apply lookup_insert_is_Some'. right. by eexists.
  - intros key w Hw. destruct (fi_work _ Hi key w Hw) as (latest & H1 & H2 & H3). exists latest. split; [done|]. split; [done|].
    intros Ha x r' Hr. apply (H3 Ha). by apply Href.
  - intros key row Hrow. destruct (fi_claims _ Hi key row) as (now & H1 & H2 & H3); [by destruct (is_remote key)|].
    exists now. split; [done|]. split; [done|]. intros x r' Hr. by apply (H3 x), Href.
Qed.

(** What an update makes of a row. *)
Definition updated (p : string -> ExchangeRow -> bool) (f : ExchangeRow -> ExchangeRow) (x : string) (r : ExchangeRow) : ExchangeRow :=
  if p x r then f r else r.

Lemma row_released r r' limit : row_change r r' -> released r limit -> released r' limit.
Proof.
  intros Hc (Ht & t & Hd & Hl). destruct (rw_deadline _ _ Hc t Ht Hd) as (t' & Hd' & Hl'). split.
  - unfold terminal_row, state_of. by rewrite (rw_terminal _ _ Hc Ht).
  - exists t'. split; [done|lia].
Qed.

Lemma quiet_released r r' limit : row_change r r' -> cleanup_changed r r' = false -> released r limit -> released r' limit.
Proof.
  intros Hc Hq (Ht & t & Hd & Hl). destruct (rw_quiet _ _ Hc Hq) as [Hs Hd']. split; [unfold terminal_row; by rewrite Hs|].
  exists t. split; [|done]. by rewrite (Hd' Ht).
Qed.

Section update.
Context (b : MailboxTables) (p : string -> ExchangeRow -> bool) (f : ExchangeRow -> ExchangeRow).
Hypothesis Hp : forall id r, mb_exchanges b !! id = Some r -> p id r = true -> row_change r (f r).

Lemma updated_change x r : mb_exchanges b !! x = Some r -> row_change r (updated p f x r).
Proof. intros Hr. unfold updated. destruct (p x r) eqn:E; [by eapply Hp|apply row_change_refl]. Qed.

Lemma refers_updated key x r' : refers (update_exchanges p f b) key x r' -> exists r, refers b key x r /\ r' = updated p f x r.
Proof.
  destruct key as [[mb c] remote]. intros (H1 & H2 & H3). unfold update_exchanges in H2. cbn in H2. rewrite lookup_update_where in H2.
  apply fmap_Some in H2 as (r & Hr & ->). exists r. split; [|done]. split; [by destruct remote|]. split; [done|].
  unfold mailbox_of in *. fold (updated p f x r) in H3. by rewrite (rw_receipt _ _ (updated_change _ _ Hr)) in H3.
Qed.

Lemma not_restarted key w x r : refers b key x r -> restarted p f b key w = false -> cleanup_changed r (updated p f x r) = false.
Proof.
  destruct key as [[mb c] remote]. intros (H1 & H2 & H3) H. unfold restarted in H. rewrite exists_row_false in H.
  specialize (H x r H2). unfold updated. destruct (p x r) eqn:E; [|unfold cleanup_changed; by rewrite !bool_decide_true].
  cbn in H. destruct (cleanup_changed r (f r)); [|done]. cbn in H.
  rewrite (rw_receipt _ _ (Hp _ _ H2 E)) in H. unfold mailbox_of in H3. by rewrite !bool_decide_true in H.
Qed.

Lemma update_files_inv : files_inv b -> files_inv (update_exchanges p f b).
Proof.
  intros Hi. split.
  - intros x r' H. unfold update_exchanges in H. cbn in H. rewrite lookup_update_where in H. apply fmap_Some in H as (r & Hr & _).
    by eapply fi_keys.
  - intros x r' H. unfold update_exchanges in H. cbn in H. rewrite lookup_update_where in H. apply fmap_Some in H as (r & Hr & ->).
    apply (rw_timed _ _ (updated_change _ _ Hr)). by eapply fi_timed.
  - intros remote x c H. unfold update_exchanges. cbn. rewrite lookup_update_where. apply fmap_is_Some.
    eapply (fi_references _ Hi remote). by destruct remote.
  - intros key w' Hw. unfold update_exchanges in Hw. cbn in Hw. rewrite lookup_update_where in Hw.
    apply fmap_Some in Hw as (w & Hw & ->). destruct (restarted p f b key w) eqn:E.
    + apply fresh_sound. intros x r' (r & Hr & _)%refers_updated. by eapply refers_not_empty.
    + destruct (fi_work _ Hi key w Hw) as (latest & H1 & H2 & H3). exists latest. split; [done|]. split; [done|].
      intros Ha x r' (r & Hr & ->)%refers_updated Hwk. eapply quiet_released; [|by eapply not_restarted|by eapply H3].
      destruct key as [[mb c] remote]. destruct Hr as (_ & Hr & _). by apply updated_change.
  - intros key row Hrow. destruct (fi_claims _ Hi key row) as (now & H1 & H2 & H3); [by destruct (is_remote key)|].
    exists now. split; [done|]. split; [done|]. intros x r' (r & Hr & ->)%refers_updated. eapply row_released; [|by eapply H3].
    destruct key as [[mb c] remote]. destruct Hr as (_ & Hr & _). by apply updated_change.
Qed.
End update.

(** The work of one file changes to a sound row. *)
Lemma work_files_inv b key w' : files_inv b -> work_sound b key w' ->
  files_inv (set_cleanup_work (<[key := w']> (mb_event_cleanup_work b)) b).
Proof.
  intros Hi Hs. set (b' := set_cleanup_work _ _).
  assert (Href : forall k x r, refers b' k x r <-> refers b k x r) by (intros [[mb c] remote] x r; by destruct remote).
  assert (Hsame : forall k w, work_sound b k w -> work_sound b' k w).
  { intros k w (latest & H1 & H2 & H3). exists latest. split; [done|]. split; [done|]. intros Ha x r Hr. apply (H3 Ha). by apply Href. }
  split.
  - apply (fi_keys _ Hi).
  - apply (fi_timed _ Hi).
  - intros remote x c H. eapply (fi_references _ Hi remote). by destruct remote.
  - intros k w H. cbn in H. apply lookup_insert_Some in H as [[<- <-]|[_ H]]; apply Hsame; [done|by apply (fi_work _ Hi)].
  - intros k row Hrow. destruct (fi_claims _ Hi k row) as (now & H1 & H2 & H3); [by destruct (is_remote k)|].
    exists now. split; [done|]. split; [done|]. intros x r Hr. by apply (H3 x), Href.
Qed.

Lemma reset_files_inv b key : files_inv b -> files_inv (reset_work key b).
Proof. intros Hi. apply work_files_inv; [done|]. apply fresh_sound. intros x r. by apply refers_not_empty. Qed.

(** The claims and the removals change. *)
Lemma claims_files_inv b b' : mb_exchanges b' = mb_exchanges b -> (forall remote, references b' remote = references b remote) ->
  mb_event_cleanup_work b' ⊆ mb_event_cleanup_work b ->
  (forall key row, file_cleanup b' (is_remote key) !! file_of key = Some row ->
     (exists row0, file_cleanup b (is_remote key) !! file_of key = Some row0 /\ ec_cleanup_started_at row = ec_cleanup_started_at row0) \/
     (exists now, storable now /\ ec_cleanup_started_at row = formatStoredTime now /\ forall x r, refers b key x r -> released r now)) ->
  files_inv b -> files_inv b'.
Proof.
  intros Hx Hr Hw Hc Hi.
  assert (Href : forall key x r, refers b' key x r <-> refers b key x r) by (intros [[mb c] remote] x r; unfold refers; by rewrite Hx, Hr).
  split.
  - rewrite Hx. apply Hi.
  - unfold timed. rewrite Hx. apply Hi.
  - intros remote x c. rewrite Hr, Hx. apply Hi.
  - intros key w Hk. eapply lookup_weaken in Hk; [|exact Hw]. destruct (fi_work _ Hi key w Hk) as (latest & H1 & H2 & H3).
    exists latest. split; [done|]. split; [done|]. intros Ha x r Hrf. apply (H3 Ha). by apply Href.
  - intros key row Hrow. destruct (Hc key row Hrow) as [(row0 & H0 & He)|(now & Hn & He & Hrel)].
    + destruct (fi_claims _ Hi key row0 H0) as (now & H1 & H2 & H3). exists now. rewrite He. split; [done|]. split; [done|].
      intros x r Hrf. by apply (H3 x), Href.
    + exists now. split; [done|]. split; [done|]. intros x r Hrf. by apply (Hrel x), Href.
Qed.

Lemma on_file_cleanup_references remote f b remote' : references (on_file_cleanup remote f b) remote' = references b remote'.
Proof. by destruct remote, remote'. Qed.

(** A claim, when the walk says that the file is due. *)
Lemma due_released b key w now : files_inv b -> mb_event_cleanup_work b !! key = Some w -> work_due w now -> storable now ->
  forall x r, refers b key x r -> released r now.
Proof.
  intros Hi Hw (Hc & Ha & latest & Hl & Hpos) Hnow x r Hr. destruct (fi_work _ Hi key w Hw) as (latest' & Hl' & Hpos' & Hall).
  assert (latest' = latest) as ->.
  { rewrite Hl in Hl'. unfold nullableStoredTime, IsZero in Hl'. rewrite (proj2 (Z.eqb_neq latest 0)) in Hl' by lia.
    destruct (latest' =? 0); [done|]. injection Hl' as E. rewrite format_storable in E by (unfold storable in *; lia).
    unfold formatStoredTime in E. destruct (_ && _); [|done]. by injection E. }
  eapply released_later; [apply Hpos|]. apply (Hall Ha x r Hr). by left.
Qed.

Lemma claim_files_inv b key row : files_inv b ->
  (exists now, storable now /\ ec_cleanup_started_at row = formatStoredTime now /\ forall x r, refers b key x r -> released r now) ->
  files_inv (on_file_cleanup (is_remote key) (<[file_of key := row]>) b).
Proof.
  intros Hi Hrow. eapply claims_files_inv; [apply on_file_cleanup_frame|apply on_file_cleanup_references| | |exact Hi].
  - by destruct (on_file_cleanup_frame (is_remote key) (<[file_of key := row]>) b) as (_ & _ & _ & ->).
  - intros k row' H. destruct (decide (is_remote k = is_remote key)) as [E|E].
    + rewrite E, file_cleanup_on in H. apply lookup_insert_Some in H as [[Hf <-]|[_ H]].
      * right. replace k with key; [done|]. destruct k as [[? ?] ?], key as [[? ?] ?]. cbn in *. by simplify_eq.
      * left. rewrite E. by eexists.
    + rewrite file_cleanup_on_other in H by done. left. by eexists.
Qed.

Lemma reactivate_files_inv b remote key : files_inv b -> files_inv (on_file_cleanup remote (delete key) b).
Proof.
  intros Hi. eapply claims_files_inv; [apply on_file_cleanup_frame|apply on_file_cleanup_references| | |exact Hi].
  - by destruct (on_file_cleanup_frame remote (delete key) b) as (_ & _ & _ & ->).
  - intros k row H. left. destruct (decide (is_remote k = remote)) as [<-|E].
    + rewrite file_cleanup_on in H. apply lookup_delete_Some in H as [_ H]. by eexists.
    + rewrite file_cleanup_on_other in H by done. by eexists.
Qed.

Lemma lookup_insert_reference remote id c b remote' x c' : references (insert_reference remote id c b) remote' !! x = Some c' ->
  remote' = remote /\ x = id /\ c' = c \/ references b remote' !! x = Some c'.
Proof. destruct remote, remote'; cbn; intros H; try (by right); apply lookup_insert_Some in H as [[<- <-]|[_ H]]; auto. Qed.

Lemma insert_reference_frame remote id c b : mb_exchanges (insert_reference remote id c b) = mb_exchanges b /\
  mb_event_cleanup_work (insert_reference remote id c b) = mb_event_cleanup_work b /\
  forall r, file_cleanup (insert_reference remote id c b) r = file_cleanup b r.
Proof. by destruct remote. Qed.

Lemma reference_files_inv b remote id c r : mb_exchanges b !! id = Some r -> file_cleanup b remote !! (mailbox_of r, c) = None ->
  files_inv b -> files_inv (reset_work (mailbox_of r, c, remote) (insert_reference remote id c b)).
Proof.
  intros Hid Hnone Hi. set (b0 := insert_reference remote id c b).
  destruct (insert_reference_frame remote id c b) as (Hx & Hw & Hf). fold b0 in Hx, Hw, Hf.
  set (b' := reset_work _ b0).
  assert (Href : forall key x r', refers b' key x r' -> key = (mailbox_of r, c, remote) \/ refers b key x r').
  { intros [[mb c'] remote'] x r' (H1 & H2 & H3). cbn in H2. rewrite Hx in H2.
    destruct (lookup_insert_reference remote id c b remote' x c') as [(-> & -> & ->)|H]; [by destruct remote'|left; congruence|by right]. }
  split.
  - cbn. rewrite Hx. apply Hi.
  - unfold timed. cbn. rewrite Hx. apply Hi.
  - intros remote' x c' H. cbn. rewrite Hx.
    destruct (lookup_insert_reference remote id c b remote' x c') as [(-> & -> & ->)|H']; [by destruct remote'|by eexists|by apply (fi_references _ Hi remote' x c')].
  - intros key w H. cbn in H. rewrite Hw in H. apply lookup_insert_Some in H as [[<- <-]|[Hne H]].
    + apply fresh_sound. intros x r' (_ & H2 & _). cbn in H2. rewrite Hx in H2. by eapply fi_keys.
    + destruct (fi_work _ Hi key w H) as (latest & H1 & H2 & H3). exists latest. split; [done|]. split; [done|].
      intros Ha x r' [->|Hr]%Href; [done|by apply (H3 Ha)].
  - intros key row H. assert (H' : file_cleanup b (is_remote key) !! file_of key = Some row) by (rewrite <- Hf; by destruct (is_remote key)).
    destruct (fi_claims _ Hi key row H') as (now & H1 & H2 & H3). exists now. split; [done|]. split; [done|].
    intros x r' [->|Hr]%Href; [|by apply (H3 x)]. cbn in H'. congruence.
Qed.

Lemma change_files_inv b b' : change b b' -> files_inv b -> files_inv b'.
Proof.
  intros Hc Hi. destruct Hc; try by (eapply files_inv_frame; [..|exact Hi]; done || by intros []).
  - apply insert_files_inv; try done. by subst.
  - by apply update_files_inv.
  - by apply reactivate_files_inv.
  - by apply reference_files_inv.
  - by apply reset_files_inv.
  - by apply work_files_inv.
  - apply claim_files_inv; [done|]. exists now. split; [done|]. split; [done|]. by eapply due_released.
  - set (b1 := on_file_cleanup _ _ b).
    assert (Hrow : files_inv b1) by (apply claim_files_inv; [done|exact (fi_claims _ Hi key row H)]).
    apply (claims_files_inv b1); [done|by intros []| |intros k row' Hk; left; exists row'; by destruct (is_remote k)|done].
    cbn. unfold b1. destruct (on_file_cleanup_frame (is_remote key) (<[file_of key := mkEventFileCleanupRow (ec_cleanup_started_at row) (Some at_)]>) b)
      as (_ & _ & _ & ->). apply delete_subseteq.
Qed.

Lemma changes_files_inv b b' : changes b b' -> files_inv b -> files_inv b'.
Proof. induction 1; [done|]. intros. by eauto using change_files_inv. Qed.

(** ** The bounded claims *)
Lemma alter_present {K A} `{Countable K} (f : A -> A) (t : gmap K A) i x : t !! i = Some x -> alter f i t = <[i := f x]> t.
Proof.
  intros Hx. apply map_eq. intros j. destruct (decide (i = j)) as [<-|Hne].
  - by rewrite lookup_alter_eq, lookup_insert_eq, Hx.
  - by rewrite lookup_alter_ne, lookup_insert_ne.
Qed.

Lemma ready_true scanned aT latest now : work_ready scanned aT latest now = true -> aT = true /\ latest <> 0 /\ latest <= now.
Proof. unfold work_ready, IsZero. intros H. bool_norm. done. Qed.

#[export] Instance scan_ro mb item ids aT latest : ReadOnly (scan_references mb item ids aT latest).
Proof.
  revert aT latest. induction ids as [|id ids IH]; intros aT latest; cbn [scan_references]; [apply _|].
  apply bind_ro; [|intros [t|]; apply IH]. intros m o m' [-> _]%metadata_Ok. done.
Qed.
#[export] Instance command_terminal_ro s item : ReadOnly (mailboxEventCommandTerminal s item).
Proof. unfold mailboxEventCommandTerminal. apply _. Qed.

Lemma advance_changes s mb item now m ready m' : files_inv (mailbox m) -> storable now ->
  advanceMailboxEventCleanupWork s mb item now m = Ok (ready, m') ->
  changes (mailbox m) (mailbox m') /\
  (ready = true -> exists w, mb_event_cleanup_work (mailbox m') !! (mb, wk_commandID item, wk_remote item) = Some w /\ work_due w now).
Proof.
  intros Hi Hnow H. unfold advanceMailboxEventCleanupWork in H. tx_inv H.
  match goal with E : mailboxEventCommandTerminal _ _ _ = Ok _ |- _ => apply read_only in E; subst end.
  match type of H with (if ?b then _ else _) _ = _ => destruct b end; [by tx_inv H|]. tx_inv H.
  match goal with E : mb_event_cleanup_work _ !! _ = Some ?x |- _ => rename x into w; rename E into Hw end.
  match goal with E : cleanup_optional _ = Ok ?x |- _ => rename x into lo; apply cleanup_optional_Ok in E; rename E into Hlo end.
  pose proof (fi_work _ Hi _ _ Hw) as Hs. destruct (cw_scan_complete w) eqn:Hc.
  - tx_inv H. split; [done|]. intros (Ht & Hz & Hle)%ready_true. exists w. split; [done|].
    destruct Hs as (latest & Hl & Hpos & _). rewrite Hl in Hlo. apply nullable_parse in Hlo; [|done]. subst latest.
    split; [done|]. split; [done|]. exists (default 0 lo). split; [done|lia].
  - tx_inv H. match type of H with (let '_ := ?p in _) _ = _ => destruct p as [aT latest'] end. tx_inv H.
    match goal with E : scan_references _ _ _ _ _ _ = Ok _ |- _ => pose proof E as Hscan; apply read_only in E; subst end.
    match type of Hscan with scan_references _ _ ?pg _ _ _ = _ => set (page := pg) in * end.
    destruct (walk_sound _ _ _ (cw_scanned_refs w + Z.of_nat (length page)) _ _ _ _ _ (fi_timed _ Hi) Hlo Hc Hscan Hs) as [Hpos Hs'].
    rewrite mailbox_on_tables. cbn [mb_event_cleanup_work set_cleanup_work]. rewrite (alter_present _ _ _ _ Hw). split.
    + apply rtc_once. by eapply change_walk.
    + intros [Hcomplete (Ht & Hz & Hle)%ready_true]%andb_true_iff. eexists. split; [apply lookup_insert_eq|].
      split; [done|]. split; [done|]. exists latest'. split; [done|lia].
Qed.

Lemma claim_file_changes mb item now m a m' w : storable now -> claim_file mb item now m = Ok (a, m') ->
  mb_event_cleanup_work (mailbox m) !! (mb, wk_commandID item, wk_remote item) = Some w -> work_due w now -> changes (mailbox m) (mailbox m').
Proof.
  intros Hnow H Hw Hd. unfold claim_file in H. tx_inv H. rewrite mailbox_on_tables.
  destruct (file_cleanup (mailbox m) (wk_remote item) !! (mb, wk_commandID item)) as [row|] eqn:E.
  - replace (on_file_cleanup _ _ (mailbox m)) with (mailbox m); [done|]. unfold file_cleanup in E.
    destruct m as [? ? ? ? ? ? ? ? ? ? []], (wk_remote item); cbn in *; by rewrite E.
  - replace (on_file_cleanup (wk_remote item) _ (mailbox m))
      with (on_file_cleanup (wk_remote item) (<[(mb, wk_commandID item) := mkEventFileCleanupRow (formatStoredTime now) None]>) (mailbox m)).
    + apply rtc_once. by eapply (change_claim _ (mb, wk_commandID item, wk_remote item)).
    + unfold file_cleanup in E. destruct (wk_remote item); cbn; by rewrite E.
Qed.

Lemma claim_event_files_changes s mb now work : forall m a m', files_inv (mailbox m) -> storable now ->
  claim_event_files s mb now work m = Ok (a, m') -> changes (mailbox m) (mailbox m').
Proof.
  induction work as [|item work IH]; intros m a m' Hi Hnow H; cbn [claim_event_files] in H; [by tx_inv H|].
  unfold saveMailboxEventCleanupCursor in H. tx_inv H.
  match goal with E : advanceMailboxEventCleanupWork _ _ _ _ ?m1 = Ok _ |- _ =>
    assert (Hcur : changes (mailbox m) (mailbox m1)) by (rewrite mailbox_on_tables; apply rtc_once, change_cursor);
    pose proof (changes_files_inv _ _ Hcur Hi) as Hi1; apply advance_changes in E as [Hadv Hready]; [|done|done] end.
  pose proof (changes_files_inv _ _ Hadv Hi1) as Hi2. etrans; [exact Hcur|]. etrans; [exact Hadv|].
  match goal with E : match ?b with true => _ | false => _ end _ = Ok _ |- _ => destruct b end.
  - destruct Hready as (w & Hw & Hd); [done|].
    match goal with E : claim_file _ _ _ _ = Ok _ |- _ => eapply claim_file_changes in E; [|done|done|done]; rename E into Hcl end.
    etrans; [exact Hcl|]. eapply IH; [|done|done]. by eapply changes_files_inv.
  - match goal with E : mret None _ = Ok _ |- _ => tx_inv E end. by eapply IH.
Qed.

Lemma Claim_event_files_changes s m now mb r m' : files_inv (mailbox m) -> storable now ->
  ClaimMailboxEventFilesForCleanupInMailbox s m now mb = (r, m') -> changes (mailbox m) (mailbox m').
Proof.
  intros Hi Hnow. unfold ClaimMailboxEventFilesForCleanupInMailbox. destruct (validateMailboxID mb) as [u|]; [|by intros [= <- <-]].
  intros H. eapply transaction_changes; [done|]. clear H. intros a m1 H. tx_inv H. by eapply claim_event_files_changes.
Qed.

Lemma mark_removed_changes mb c remote now otherwise m u m' : mark_removed mb c remote now otherwise m = Ok (u, m') ->
  (forall m'', otherwise m = Ok (u, m'') -> changes (mailbox m) (mailbox m'')) -> changes (mailbox m) (mailbox m').
Proof.
  intros H Ho. unfold mark_removed in H. rewrite query_bind in H.
  destruct (file_cleanup (mailbox m) remote !! (mb, c)) as [row|] eqn:E; cbn [is_Some_b] in H; [|by apply Ho].
  unfold deleteMailboxEventCleanupWork in H. tx_inv H. rewrite !mailbox_on_tables. apply rtc_once.
  set (at_ := default (formatStoredTime now) (ec_file_removed_at row)).
  replace (on_file_cleanup remote (alter _ (mb, c)) (mailbox m))
    with (on_file_cleanup remote (<[(mb, c) := mkEventFileCleanupRow (ec_cleanup_started_at row) (Some at_)]>) (mailbox m)).
  - replace (mb_event_cleanup_work (on_file_cleanup remote _ (mailbox m))) with (mb_event_cleanup_work (mailbox m)) by (by destruct remote).
    by apply (change_removed _ (mb, c, remote)).
  - unfold file_cleanup in E. destruct remote; cbn; by rewrite (alter_present _ _ _ _ E).
Qed.

Lemma Mark_event_file_changes m now ref r m' : MarkMailboxEventFileRemovedInMailbox m now ref = (r, m') -> changes (mailbox m) (mailbox m').
Proof.
  unfold MarkMailboxEventFileRemovedInMailbox.
  destruct (validateMailboxID (eref_MailboxID ref)), (NewCommandID (eref_CommandID ref)); try by intros [= <- <-].
  intros H. eapply transaction_changes; [done|]. clear H. intros u m1 H. eapply mark_removed_changes; [done|]. intros m2 H2.
  by eapply mark_removed_changes.
Qed.
