(* ===== verification/MailboxLedgers.v ===== *)
(** * Diagnostics and configuration of the mailbox as changes

    The operations of [MailboxDiagnostics] and [MailboxConfig] as changes, the
    invariant of the ledgers (a request is accepted or diagnosed, never both; the
    stages of a diagnostic are reached in order; identifiers and roots of mailboxes
    are distinct and a retirement names a registered pair), and what a successful
    registration or retirement makes the active set of mailboxes. *)
From stdpp Require Import relations.
From Stdlib Require Import String.
From S2P Require Import Prelude GoStrings Sha256 Identity Policy JsonText LaneAdmission.
From S2P Require Import Db Sessions Listings RemoteDb RetentionTheorems Mailbox MailboxOps MailboxCleanup MailboxConfig.
From S2P Require Import MailboxDiagnostics MailboxChanges.

(** ** Diagnostics *)
#[export] Instance read_diagnostic_ro ref : ReadOnly (readMailboxIngressDiagnosticOnConnection ref).
Proof. unfold readMailboxIngressDiagnosticOnConnection. apply _. Qed.
#[export] Instance found_diagnostic_ro ref : ReadOnly (found_diagnostic ref).
Proof. unfold found_diagnostic. apply _. Qed.

Lemma update_diagnostic_changes ref p f m u m' : update_diagnostic ref p f m = Ok (u, m') -> changes (mailbox m) (mailbox m').
Proof.
  unfold update_diagnostic. rewrite query_bind. intros H.
  destruct (mailbox_ingress_diagnostics m !! _) as [row|] eqn:E; [|by tx_inv H]. destruct (p row); [|by tx_inv H].
  unfold put_diagnostic in H. tx_inv H. bool_norm. rewrite mailbox_on_tables. apply rtc_once. by eapply change_stage.
Qed.

Lemma insert_diagnostic_changes r m u m' : insertMailboxIngressDiagnosticOnConnection r m = Ok (u, m') -> changes (mailbox m) (mailbox m').
Proof.
  unfold insertMailboxIngressDiagnosticOnConnection, put_diagnostic. intros H. tx_inv H. bool_norm. rewrite mailbox_on_tables.
  apply rtc_once, change_diagnose; [by apply is_Some_b_false|].
  match goal with E : exists_row _ _ = false |- _ => rewrite exists_row_false in E; rename E into Hn end.
  intros id row Hrow [= Hmb Hrq]. specialize (Hn id row Hrow). unfold has_identity in Hn. unfold mailbox_of in Hmb.
  by rewrite Hmb, Hrq, !bool_decide_true in Hn.
Qed.

Lemma Record_diagnostic_changes m now ref digest code detail r m' :
  recordMailboxIngressDiagnosticInMailbox m now ref digest code detail = (r, m') -> changes (mailbox m) (mailbox m').
Proof.
  unfold recordMailboxIngressDiagnosticInMailbox. destruct (validateMailboxIngressDiagnosticRef ref); [|by intros [= <- <-]].
  destruct (_ || _); [by intros [= <- <-]|]. intros H. eapply transaction_changes; [done|]. clear H. intros x m1 H.
  unfold rejectMailboxIngressDiagnosticExchangeCollision in H. tx_inv H.
  match goal with E : readMailboxIngressDiagnosticOnConnection _ _ = Ok (?e, _) |- _ => apply read_only in E; subst; destruct e end;
    tx_inv H; [done|]. by eapply insert_diagnostic_changes.
Qed.

(** The operations that advance a stage. *)
Lemma with_diagnostic_changes {A} m ref (body : MailboxIngressDiagnosticRef -> mtx A) r m' : with_diagnostic m ref body = (r, m') ->
  (forall v a m1, body v m = Ok (a, m1) -> changes (mailbox m) (mailbox m1)) -> changes (mailbox m) (mailbox m').
Proof.
  unfold with_diagnostic. destruct (validateMailboxIngressDiagnosticRef ref); [|by intros [= <- <-]].
  intros H Hb. eapply transaction_changes; [done|]. intros ???. by eapply Hb.
Qed.

Ltac stage_changes H :=
  cbn beta in H; tx_inv H; repeat match goal with E : found_diagnostic _ _ = Ok _ |- _ => apply read_only in E; subst end.

Lemma Project_changes m now ref r m' : MarkMailboxIngressDiagnosticProjectedInMailbox m now ref = (r, m') -> changes (mailbox m) (mailbox m').
Proof.
  intros H. eapply with_diagnostic_changes; [exact H|]. clear H. intros v a m1 H. stage_changes H.
  match type of H with (if ?b then _ else _) _ = _ => destruct b end; stage_changes H; [done|]. by eapply update_diagnostic_changes.
Qed.

Lemma Advance_changes m now ref digest complete r m' : advanceMailboxIngressDiagnosticInputCleanup m now ref digest complete = (r, m') ->
  changes (mailbox m) (mailbox m').
Proof.
  intros H. eapply with_diagnostic_changes; [exact H|]. clear H. intros v a m1 H. stage_changes H.
  match type of H with (if ?b then _ else _) _ = _ => destruct b end; stage_changes H; [done|].
  destruct complete; [by eapply update_diagnostic_changes|].
  match goal with E : (if ?b then _ else _) _ = Ok _ |- _ => destruct b; [by eapply update_diagnostic_changes|by tx_inv E] end.
Qed.

Lemma Remove_diagnostic_changes m now ref r m' : MarkMailboxIngressDiagnosticFileRemovedInMailbox m now ref = (r, m') ->
  changes (mailbox m) (mailbox m').
Proof.
  intros H. eapply with_diagnostic_changes; [exact H|]. clear H. intros v a m1 H. stage_changes H.
  match goal with E : (if ?b then _ else _) _ = Ok _ |- _ => destruct b; [by tx_inv E|by eapply update_diagnostic_changes] end.
Qed.

Lemma claim_diagnostics_changes mb now ids : forall m a m', claim_diagnostics mb now ids m = Ok (a, m') -> changes (mailbox m) (mailbox m').
Proof.
  induction ids as [|id ids IH]; intros m a m' H; cbn [claim_diagnostics] in H; tx_inv H; [done|].
  match goal with E : readMailboxIngressDiagnosticOnConnection _ _ = Ok _ |- _ => apply read_only in E; subst end.
  etrans; [by eapply update_diagnostic_changes|by eapply IH].
Qed.

Lemma Claim_diagnostics_changes m now mb limit r m' : ClaimMailboxIngressDiagnosticsForCleanupInMailbox m now mb limit = (r, m') ->
  changes (mailbox m) (mailbox m').
Proof.
  unfold ClaimMailboxIngressDiagnosticsForCleanupInMailbox. destruct (diagnostic_limit mb limit); [|by intros [= <- <-]].
  intros H. eapply transaction_changes; [done|]. clear H. intros x m1 H. tx_inv H. by eapply claim_diagnostics_changes.
Qed.

(** ** Configuration *)
Lemma insert_configuration_Ok t id root at_ t' : insert_configuration t id root at_ = Ok t' ->
  registers t t' /\ (t !! id <> None /\ t' = t \/ t !! id = None /\ t' = <[id := (root, at_)]> t).
Proof.
  unfold insert_configuration. intros H. apply refuse_if_bind in H as [_ H].
  destruct (t !! id) as [row|] eqn:E; cbn [is_Some_b] in H.
  - injection H as <-. split; [by left|by left].
  - apply refuse_if_bind in H as [Hr [= <-]]. split; [|by right]. right. by exists id, root, at_.
Qed.

Lemma register_changes cs now : forall b u b', registerMailboxConfigurations cs now b = Ok (u, b') -> changes b b'.
Proof.
  induction cs as [|c cs IH]; intros b u b' H; cbn [registerMailboxConfigurations] in H; tx_inv H; [done|].
  match goal with E : insert_configuration _ _ _ _ = Ok _ |- _ => apply insert_configuration_Ok in E as [E _] end.
  etrans; [by apply rtc_once, change_register|by eapply IH].
Qed.

Lemma retirement_changes c now b u b' : recordMailboxConfigurationRetirement c now b = Ok (u, b') -> changes b b'.
Proof.
  unfold recordMailboxConfigurationRetirement. intros H. tx_inv H. bool_norm.
  match goal with E : insert_configuration _ _ _ _ = Ok _ |- _ => apply insert_configuration_Ok in E as [Hreg Hcase] end.
  apply rtc_once, change_retire; [done|]. intros id row Hrow.
  destruct Hcase as [[_ ->]|[_ ->]]; [by left|]. apply lookup_insert_Some in Hrow as [[<- <-]|[_ Hrow]]; [|by left].
  right. match goal with E : context [fst <$> <[_ := _]> _ !! _] |- _ => rewrite lookup_insert_eq in E end.
  cbn in *. congruence.
Qed.

Lemma on_mailbox_changes {A} (body : stx MailboxTables A) m r m' : on_mailbox body m = (r, m') ->
  (forall a b, body (mailbox m) = Ok (a, b) -> changes (mailbox m) b) -> changes (mailbox m) (mailbox m').
Proof. unfold on_mailbox. destruct (body (mailbox m)) as [[a b]|e]; intros [= <- <-] H; [by eapply H|done]. Qed.

Lemma Register_changes m now cs base r m' : RegisterConfiguredMailboxSet m now cs base = (r, m') -> changes (mailbox m) (mailbox m').
Proof.
  unfold RegisterConfiguredMailboxSet. destruct (normalized_pair cs base) as [[n bl]|]; [|by intros [= <- <-]].
  intros H. eapply on_mailbox_changes; [exact H|]. clear H. intros a b H. tx_inv H. by eapply register_changes.
Qed.

Lemma Retire_changes m now cs base id r m' : RetireConfiguredMailboxSet m now cs base id = (r, m') -> changes (mailbox m) (mailbox m').
Proof.
  unfold RetireConfiguredMailboxSet. destruct (mbind _ _) as [[n bl]|]; [|by intros [= <- <-]].
  intros H. eapply on_mailbox_changes; [exact H|]. clear H. intros a b H. tx_inv H.
  etrans; [by eapply retirement_changes|by eapply register_changes].
Qed.

(** ** The ledgers *)
Definition reached_in_order (r : DiagnosticRow) : Prop :=
  (dg_input_cleanup_started_at r <> None -> dg_projected_at r <> None) /\
  (dg_input_pair_removed_at r <> None -> dg_input_cleanup_started_at r <> None) /\
  (dg_diagnostic_cleanup_started_at r <> None -> dg_input_pair_removed_at r <> None) /\
  (dg_diagnostic_file_removed_at r <> None -> dg_diagnostic_cleanup_started_at r <> None).

Definition distinct_roots (t : gmap string (string * StoredTime)) : Prop :=
  forall id id' row row', t !! id = Some row -> t !! id' = Some row' -> fst row = fst row' -> id = id'.

Definition identity_of (r : ExchangeRow) : string * string := (mailbox_of r, x_client_request_id (x_receipt r)).

Record ledgers_inv (b : MailboxTables) : Prop := {
  li_keyed : forall id r, mb_exchanges b !! id = Some r -> id = exchange_id_of r;
  li_exclusive : forall id r, mb_exchanges b !! id = Some r -> mb_ingress_diagnostics b !! identity_of r = None;
  li_registry : distinct_roots (mb_configuration_registry b);
  li_retirements : distinct_roots (mb_configuration_retirements b);
  li_retired : forall id row, mb_configuration_retirements b !! id = Some row -> fst <$> mb_configuration_registry b !! id = Some (fst row)
}.

Lemma ledgers_inv_empty : ledgers_inv empty_mailbox.
Proof. split; [intros id r H|intros id r H|intros id id' row row' H|intros id id' row row' H|intros id row H]; destruct (lookup_empty_Some _ _ H). Qed.

Lemma registers_distinct t t' : registers t t' -> distinct_roots t -> distinct_roots t'.
Proof.
  intros [->|(id & root & at_ & Hn & Hr & ->)] Hd; [done|]. unfold root_taken in Hr. rewrite exists_row_false in Hr.
  assert (Hfree : forall id' row, t !! id' = Some row -> fst row <> root).
  { intros id' row Hrow E. specialize (Hr id' row Hrow). by rewrite bool_decide_true in Hr. }
  intros i i' row row' H H' E. apply lookup_insert_Some in H as [[<- <-]|[_ H]]; apply lookup_insert_Some in H' as [[<- <-]|[_ H']]; cbn in *.
  - done.
  - by destruct (Hfree _ _ H').
  - by destruct (Hfree _ _ H).
  - by eapply Hd.
Qed.

Lemma registers_subseteq t t' : registers t t' -> t ⊆ t'.
Proof. intros [->|(id & root & at_ & Hn & _ & ->)]; [done|]. by apply insert_subseteq. Qed.

Lemma change_ledgers_inv b b' : change b b' -> ledgers_inv b -> ledgers_inv b'.
Proof.
  intros Hc [Hkey Hex Hreg Hret Hr].
  destruct Hc as [id r Hid Hk _ _ Hd|p f Hp|remote|remote| | | |[[? ?] remote]|[[? ?] remote]|key row Hn Hx|key row row' Hk _ _|t Ht|t Ht|t Ht Hin];
    try (split; done); try (destruct remote; split; done); split; try done; cbn.
  - intros x r' [[<- <-]|[_ Hq]]%lookup_insert_Some; [done|by eapply Hkey].
  - intros x r' [[<- <-]|[_ Hq]]%lookup_insert_Some; [done|by eapply Hex].
  - intros x r'. unfold update_exchanges. cbn. rewrite lookup_update_where. intros (r & Hq & ->)%fmap_Some. rewrite (Hkey _ _ Hq) at 1.
    destruct (p x r) eqn:E; [|done]. unfold exchange_id_of, mailbox_of. by rewrite (rw_receipt _ _ (Hp _ _ Hq E)).
  - intros x r'. unfold update_exchanges. cbn. rewrite lookup_update_where. intros (r & Hq & ->)%fmap_Some.
    replace (identity_of _) with (identity_of r); [by eapply Hex|]. destruct (p x r) eqn:E; [|done].
    unfold identity_of, mailbox_of. by rewrite (rw_receipt _ _ (Hp _ _ Hq E)).
  - intros x r Hq. rewrite lookup_insert_ne; [by eapply Hex|]. intros Heq. by eapply Hx.
  - intros x r Hq. rewrite lookup_insert_ne; [by eapply Hex|]. intros ->. by rewrite (Hex _ _ Hq) in Hk.
  - intros x r Hq. apply eq_None_not_Some. intros [row Hrow]. eapply lookup_weaken in Hrow; [|exact Ht]. by rewrite (Hex _ _ Hq) in Hrow.
  - by eapply registers_distinct.
  - intros id row Hq. destruct (fmap_Some_1 _ _ _ (Hr id row Hq)) as (row0 & Hq0 & ->).
    by rewrite (lookup_weaken _ _ _ _ Hq0 (registers_subseteq _ _ Ht)).
  - by eapply registers_distinct.
  - intros id row Hq. destruct (Hin id row Hq) as [Hq'|Hq']; [by apply Hr|done].
Qed.

Lemma changes_ledgers_inv b b' : changes b b' -> ledgers_inv b -> ledgers_inv b'.
Proof. induction 1; [done|]. intros. by eauto using change_ledgers_inv. Qed.
