(* ===== verification/MailboxTheorems.v ===== *)
(** * Theorems on the mailbox

    Histories of the mailbox are sequences of its operations, at any clock readings
    and against any authority stores, interleaved with the garbage collection of old
    diagnostics.  The theorems say what holds in every state they reach: an event
    file is claimed only after every response that shares it has expired, a terminal
    response is final, a request is accepted once and never also refused, and an
    exchange is never closed without the evidence that its operation asks for. *)
From stdpp Require Import relations.
From Stdlib Require Import String.
From S2P Require Import Prelude GoStrings Sha256 Identity Lifecycle Policy Canonical JsonText LaneAdmission.
From S2P Require Import Db AuditStore AdmissionStore Idempotency Sessions Listings Commands RemoteDb LocalIntents LocalIntentOps.
From S2P Require Import AuthorityTheorems MirrorInvariant Retention RetentionTheorems BridgeJson WireJson RemoteReplies.
From S2P Require Import Mailbox MailboxOps MailboxClosure MailboxCleanup MailboxConfig MailboxDiagnostics MailboxChanges MailboxFiles MailboxLedgers.

(** ** Histories *)

(** One operation.  Every operation reads its own authority store [s] and clock; the
    variants for one mailbox or for the default mailbox call the same transactions.
    Completion is taken where no exchange of the same binding is settled yet
    ([complete_rewrites_settled_exchange] shows what happens otherwise).  The other
    tables of the mirror may change in between, and diagnostics may be collected. *)
Inductive mailbox_step (m : Mirror) : Mirror -> Prop :=
  | step_accept s now input recordConflict refresh explicit :
      mailbox_step m (snd (acceptMailboxExchange s m now input recordConflict refresh explicit))
  | step_publish s now ref publication : mailbox_step m (snd (PublishMailboxResponseInMailbox s m now ref publication))
  | step_bind s now ref commandID : mailbox_step m (snd (BindMailboxEventFileReferenceInMailbox s m now ref commandID))
  | step_acknowledge s now ref ack : mailbox_step m (snd (AcknowledgeMailboxExchangeInMailbox s m now ref ack))
  | step_complete now ref next : none_settled m ref -> mailbox_step m (snd (CompleteMailboxExchangeInMailbox m now ref next))
  | step_close checked now ref want : mailbox_step m (snd (CloseUncertainRemoteRunAsIndeterminateInMailbox m checked now ref want))
  | step_unavailable now ref publication : mailbox_step m (snd (PublishAcceptedRemoteStatusUnavailableInMailbox m now ref publication))
  | step_claim_responses now mailboxID : mailbox_step m (snd (ClaimMailboxResponsesForCleanupInMailbox m now mailboxID))
  | step_response_removed now ref : mailbox_step m (snd (MarkMailboxResponseFileRemovedInMailbox m now ref))
  | step_claim_events s now mailboxID : storable now -> mailbox_step m (snd (ClaimMailboxEventFilesForCleanupInMailbox s m now mailboxID))
  | step_event_removed now ref : mailbox_step m (snd (MarkMailboxEventFileRemovedInMailbox m now ref))
  | step_diagnose now ref digest code detail : mailbox_step m (snd (recordMailboxIngressDiagnosticInMailbox m now ref digest code detail))
  | step_project now ref : mailbox_step m (snd (MarkMailboxIngressDiagnosticProjectedInMailbox m now ref))
  | step_input_cleanup now ref digest complete : mailbox_step m (snd (advanceMailboxIngressDiagnosticInputCleanup m now ref digest complete))
  | step_claim_diagnostics now mailboxID limit : mailbox_step m (snd (ClaimMailboxIngressDiagnosticsForCleanupInMailbox m now mailboxID limit))
  | step_diagnostic_removed now ref : mailbox_step m (snd (MarkMailboxIngressDiagnosticFileRemovedInMailbox m now ref))
  | step_register now configurations baseline : mailbox_step m (snd (RegisterConfiguredMailboxSet m now configurations baseline))
  | step_retire now configurations baseline id : mailbox_step m (snd (RetireConfiguredMailboxSet m now configurations baseline id))
  | step_elsewhere m' t : t ⊆ mb_ingress_diagnostics (mailbox m) -> mailbox m' = set_ingress_diagnostics t (mailbox m) -> mailbox_step m m'.

Notation mailbox_history := (rtc mailbox_step).
Definition reachable_mailbox (m : Mirror) : Prop := exists m0, mailbox m0 = empty_mailbox /\ mailbox_history m0 m.

(** ** Every step is a sequence of changes *)
Lemma step_changes m m' : mailbox_step m m' -> files_inv (mailbox m) -> changes (mailbox m) (mailbox m').
Proof.
  intros H Hi. destruct H; try (match goal with |- context [snd ?x] => destruct x eqn:E end; cbn [snd]);
    eauto using accept_changes, Publish_changes, Bind_changes, Acknowledge_changes, Complete_changes, Close_changes, Status_changes,
      Claim_responses_changes, Mark_response_changes, Claim_event_files_changes, Mark_event_file_changes, Record_diagnostic_changes,
      Project_changes, Advance_changes, Claim_diagnostics_changes, Remove_diagnostic_changes, Register_changes, Retire_changes.
  match goal with H : mailbox _ = _ |- _ => rewrite H end. by apply rtc_once, change_collect.
Qed.

Lemma history_changes m m' : mailbox_history m m' -> files_inv (mailbox m) -> changes (mailbox m) (mailbox m').
Proof.
  induction 1 as [|m m1 m2 Hs _ IH]; intros Hi; [done|]. pose proof (step_changes _ _ Hs Hi) as Hc.
  etrans; [exact Hc|]. apply IH. by eapply changes_files_inv.
Qed.

Lemma reachable_changes m : reachable_mailbox m -> changes empty_mailbox (mailbox m).
Proof. intros (m0 & E & H). rewrite <- E. apply history_changes; [done|]. rewrite E. apply files_inv_empty. Qed.
Lemma reachable_files m : reachable_mailbox m -> files_inv (mailbox m).
Proof. intros H%reachable_changes. by eapply changes_files_inv, files_inv_empty. Qed.
Lemma reachable_ledgers m : reachable_mailbox m -> ledgers_inv (mailbox m).
Proof. intros H%reachable_changes. by eapply changes_ledgers_inv, ledgers_inv_empty. Qed.
Lemma reachable_history m m' : reachable_mailbox m -> mailbox_history m m' -> reachable_mailbox m'.
Proof. intros (m0 & E & H) H'. exists m0. split; [done|]. by etrans. Qed.
#[export] Hint Resolve reachable_files reachable_ledgers reachable_history : mailbox.

(** ** One exchange along a history *)
Lemma change_row b b' id r : change b b' -> mb_exchanges b !! id = Some r ->
  exists r', mb_exchanges b' !! id = Some r' /\ row_change r r'.
Proof.
  intros Hc Hr. pose proof (row_change_refl r).
  destruct Hc as [id' r' Hn|p f Hp|remote|remote| | | |[[? ?] remote]|[[? ?] remote]| | | | |];
    try (exists r; split; [|done]; done || by destruct remote).
  - exists r. split; [|done]. cbn. rewrite lookup_insert_ne; [done|]. intros ->. by rewrite Hr in Hn.
  - unfold update_exchanges. cbn. rewrite lookup_update_where, Hr. cbn. eexists. split; [done|].
    destruct (p id r) eqn:E; [by eapply Hp|done].
Qed.

(** What a history may do to an exchange that has a terminal response. *)
Record settled (r r' : ExchangeRow) : Prop := {
  st_receipt : x_receipt r' = x_receipt r;
  st_response : x_response r' = x_response r;
  st_deadline : forall t, response_deadline r = Some t -> exists t', response_deadline r' = Some t' /\ t' <= t;
  st_acknowledged : forall t, x_acknowledged_at r = Some t -> x_acknowledged_at r' = Some t;
  st_removal : forall t, x_response_cleanup_started_at r = Some t -> x_response_cleanup_started_at r' = Some t;
  st_removed : forall t, x_response_file_removed_at r = Some t -> x_response_file_removed_at r' = Some t
}.

Lemma settled_refl r : settled r r.
Proof. split; try done. intros. eexists. split; [done|lia]. Qed.
Lemma settled_trans r1 r2 r3 : settled r1 r2 -> settled r2 r3 -> settled r1 r3.
Proof.
  intros [A1 A2 A3 A4 A5 A6] [B1 B2 B3 B4 B5 B6]. split; [congruence|congruence| |eauto|eauto|eauto].
  intros t H. destruct (A3 t H) as (t' & H' & ?). destruct (B3 t' H') as (t'' & ? & ?). exists t''. split; [done|lia].
Qed.

Lemma changes_receipt b b' id r : changes b b' -> mb_exchanges b !! id = Some r ->
  exists r', mb_exchanges b' !! id = Some r' /\ x_receipt r' = x_receipt r.
Proof.
  intros H. revert r. induction H as [b|b b1 b2 Hc _ IH]; intros r Hr; [by exists r|].
  destruct (change_row _ _ _ _ Hc Hr) as (r1 & Hr1 & Hw). destruct (IH _ Hr1) as (r2 & Hr2 & E). exists r2. split; [done|].
  rewrite E. apply (rw_receipt _ _ Hw).
Qed.

Lemma changes_settled b b' id r : changes b b' -> mb_exchanges b !! id = Some r -> terminal_row r ->
  exists r', mb_exchanges b' !! id = Some r' /\ settled r r'.
Proof.
  intros H. revert r. induction H as [b|b b1 b2 Hc _ IH]; intros r Hr Ht; [exists r; split; [done|apply settled_refl]|].
  destruct (change_row _ _ _ _ Hc Hr) as (r1 & Hr1 & Hw). pose proof (rw_terminal _ _ Hw Ht) as Hp.
  destruct (IH _ Hr1) as (r2 & Hr2 & Hs); [unfold terminal_row, state_of; by rewrite Hp|].
  exists r2. split; [done|]. eapply settled_trans; [|exact Hs].
  split; try apply Hw; try done. intros t. by apply (rw_deadline _ _ Hw).
Qed.

Definition known_states (b : MailboxTables) : Prop :=
  forall id r, mb_exchanges b !! id = Some r -> known_exchange_state (state_of r) = true.

Lemma change_known b b' : change b b' -> known_states b -> known_states b'.
Proof.
  intros Hc Hk. destruct Hc as [id' r' Hn _ _ Hs|p f Hp|remote|remote| | | |[[? ?] remote]|[[? ?] remote]| | | | |];
    try exact Hk; try (destruct remote; exact Hk).
  - intros id r. cbn. intros [[<- <-]|[_ Hr]]%lookup_insert_Some; [done|by eapply Hk].
  - intros id r. unfold update_exchanges. cbn. rewrite lookup_update_where. intros (r0 & Hr & ->)%fmap_Some.
    destruct (p id r0) eqn:E; [|by eapply Hk]. apply (rw_known _ _ (Hp _ _ Hr E)). by eapply Hk.
Qed.

Lemma reachable_known m : reachable_mailbox m -> known_states (mailbox m).
Proof.
  intros H%reachable_changes. assert (K : known_states empty_mailbox) by (intros id r E; destruct (lookup_empty_Some _ _ E)).
  revert K. induction H; eauto using change_known.
Qed.

(** ** A sample history *)

(** A run is accepted and answered with the events of the mirrored command [c9]; its
    retry under another request replays the answer and refers to the same file; one
    of them is acknowledged, and the file is claimed eight days later. *)
Definition day : Z := 24 * hour.
Definition sample_input (requestID key : string) : MailboxExchangeCreate :=
  mkMailboxExchangeCreate "box" requestID "run" sample_controller key "" (example_hash "a") "{}" "" None (MailboxExecutionSelectionOther "").
Definition sample_ref (requestID : string) : MailboxExchangeRef := mkMailboxExchangeRef "box" requestID.
Definition sample_answer : MailboxResponsePublication :=
  mkMailboxResponsePublication MailboxExchangeComplete
    (in_quotes "{'request_id':'r1','command_id':'c9','events_file':'events/c9.ndjson'}") (Some 2).

Definition sample_accept (m : Mirror) (now : Z) (requestID : string) :=
  acceptMailboxExchange example_store m now (sample_input requestID "k") false false true.
Definition box_accepted : Mirror := snd (sample_accept sample_mirror t0 "r1").
Definition box_published : Mirror := snd (PublishMailboxResponseInMailbox example_store box_accepted (t0 + second) (sample_ref "r1") sample_answer).
Definition box_replayed : Mirror := snd (sample_accept box_published (t0 + 2 * second) "r2").
Definition box_bound : Mirror := snd (BindMailboxEventFileReferenceInMailbox example_store box_replayed (t0 + 2 * second) (sample_ref "r2") "c9").
Definition sample_ack : MailboxAcknowledgement := mkMailboxAcknowledgement "" "" 1 (Some 2).
Definition box_acknowledged : Mirror :=
  snd (AcknowledgeMailboxExchangeInMailbox example_store box_bound (t0 + 3 * second) (sample_ref "r1") sample_ack).
Definition box_claimed : Mirror := snd (ClaimMailboxEventFilesForCleanupInMailbox example_store box_acknowledged (t0 + 8 * day) "box").

Lemma box_accepted_reachable : reachable_mailbox box_accepted.
Proof. exists sample_mirror. split; [vm_compute; reflexivity|]. apply rtc_once, step_accept. Qed.
Lemma box_published_history : mailbox_history box_accepted box_published.
Proof. apply rtc_once, step_publish. Qed.
Lemma box_bound_history : mailbox_history box_published box_bound.
Proof. apply rtc_l with box_replayed; [apply step_accept|]. apply rtc_l with box_bound; [apply step_bind|apply rtc_refl]. Qed.
Lemma box_claimed_history : mailbox_history box_bound box_claimed.
Proof.
  apply rtc_l with box_acknowledged; [apply step_acknowledge|]. apply rtc_l with box_claimed; [|apply rtc_refl].
  apply step_claim_events. by vm_compute.
Qed.
Lemma box_published_reachable : reachable_mailbox box_published.
Proof. eapply reachable_history; [apply box_accepted_reachable|apply box_published_history]. Qed.
Lemma box_bound_reachable : reachable_mailbox box_bound.
Proof. eapply reachable_history; [apply box_published_reachable|apply box_bound_history]. Qed.
Lemma box_claimed_reachable : reachable_mailbox box_claimed.
Proof. eapply reachable_history; [apply box_bound_reachable|apply box_claimed_history]. Qed.

(** The file is shared, and claimed once both responses have expired: the deadline
    of [r2] is seven days after its replay. *)
Example shared_file_is_claimed :
  references (mailbox box_claimed) true = {[ mailboxExchangeID (sample_ref "r1") := "c9"; mailboxExchangeID (sample_ref "r2") := "c9" ]} /\
  fst (ClaimMailboxEventFilesForCleanupInMailbox example_store box_acknowledged (t0 + 8 * day) "box") = Ok [mkMailboxEventRef "box" "c9"] /\
  fst (ClaimMailboxEventFilesForCleanupInMailbox example_store box_acknowledged (t0 + 2 * day) "box") = Ok [] /\
  file_cleanup (mailbox box_claimed) true !! ("box", "c9") = Some (mkEventFileCleanupRow (formatStoredTime (t0 + 8 * day)) None).
Proof. do 3 (split; [vm_compute; reflexivity|]). vm_compute. reflexivity. Qed.

(** ** Claimed event files *)
Lemma get_exchange_Ok m ref rec : GetMailboxExchangeInMailbox m ref = Ok rec ->
  exists r, read_as m ref r rec /\ readMailboxExchangeOnConnection ref m = Ok (rec, m).
Proof.
  unfold GetMailboxExchangeInMailbox, withMirrorRead. intros H. tx_inv H. destruct (validate_ref_Ok ref _ ltac:(eassumption)) as [-> _].
  destruct (readMailboxExchangeOnConnection ref m) as [[rec' m']|] eqn:E; [|done]. injection H as ->.
  destruct (read_exchange_Ok _ _ _ _ E) as (-> & r & Hr). by exists r.
Qed.

Lemma read_released m ref r rec limit : read_as m ref r rec -> released r limit ->
  exists t, mx_ResponseCleanupAt rec = Some t /\ t <= limit.
Proof.
  intros Hr (Ht & t & Hd & Hle). unfold response_deadline in Hd. pose proof (ra_deadline _ _ _ _ Hr) as Hc.
  destruct (x_response_cleanup_at r) as [c|] eqn:E; [exists t; by rewrite <- Hc|].
  apply bind_Some in Hd as (u & Hu & Hd). apply bind_Some in Hd as (a & Ha & Hd).
  destruct (0 <? x_response_revision (x_response r)) eqn:Hrev; [|done]. bool_norm.
  destruct (ra_has_deadline _ _ _ _ Hr Ht Hrev) as [t' Ht']. exists t'. split; [done|].
  pose proof (ra_cleanup _ _ _ _ Hr _ Ht' (or_introl Ht)) as Hd'.
  rewrite (fallback_deadline _ _ _ E Hu Ha Hrev) in Hd'. congruence.
Qed.

Lemma read_refers m ref r rec mb c remote : read_as m ref r rec -> references (mailbox m) remote !! mailboxExchangeID ref = Some c ->
  ref_MailboxID ref = mb -> refers (mailbox m) (mb, c, remote) (mailboxExchangeID ref) r.
Proof. intros Hr Hc <-. split; [done|]. split; [apply (ra_row _ _ _ _ Hr)|apply (ra_mailbox _ _ _ _ Hr)]. Qed.



(** ** Terminal responses *)


Definition sample_row (m : Mirror) (requestID : string) : option ExchangeRow := mailbox_exchanges m !! mailboxExchangeID (sample_ref requestID).
Lemma published_row : exists r, sample_row box_published "r1" = Some r /\ terminal_row r.
Proof. eexists. split; [vm_compute; reflexivity|]. vm_compute. reflexivity. Qed.


(** ** Acceptance *)

(** What a record says of the receipt is a function of the receipt. *)
Definition same_request (rec rec' : MailboxExchangeRecord) : Prop :=
  mx_create rec' = mx_create rec /\ mx_CreatedAt rec' = mx_CreatedAt rec /\
  mx_IdempotencyKeyExpiresAt rec' = mx_IdempotencyKeyExpiresAt rec /\ mx_IdempotencyBindingActive rec' = mx_IdempotencyBindingActive rec.

Lemma decode_same_request ref id r r' f f' rec rec' : decodeMailboxExchange ref id r f = Ok rec ->
  decodeMailboxExchange ref id r' f' = Ok rec' -> x_receipt r' = x_receipt r -> same_request rec rec'.
Proof.
  intros H H' E. unfold decodeMailboxExchange in H, H'. rewrite E in H'. tx_inv H. tx_inv H'.
  repeat match goal with A : ?x = Ok ?a, B : ?x = Ok ?b |- _ => rewrite A in B; injection B as <- end. done.
Qed.

Lemma read_decode ref m rec m' : readMailboxExchangeOnConnection ref m = Ok (rec, m') ->
  exists r, mailbox_exchanges m !! mailboxExchangeID ref = Some r /\
    decodeMailboxExchange ref (mailboxExchangeID ref) r (event_file_command (mailboxExchangeID ref) m) = Ok rec.
Proof.
  unfold readMailboxExchangeOnConnection. intros H. tx_inv H.
  match goal with E : validateMailboxExchangeRef _ = Ok _ |- _ => destruct (validate_ref_Ok _ _ E) as [-> _] end. eauto.
Qed.

Lemma insert_and_read_reads v m rec m' : insert_and_read v m = Ok (rec, m') ->
  readMailboxExchangeOnConnection (create_ref (vx_create v)) m' = Ok (rec, m').
Proof. unfold insert_and_read. intros H. tx_inv H. by destruct (read_exchange_Ok _ _ _ _ H) as [-> _]. Qed.

Lemma accept_new_reads now v m rec m' : accept_new now v m = Ok (rec, m') ->
  readMailboxExchangeOnConnection (create_ref (vx_create v)) m' = Ok (rec, m').
Proof. unfold accept_new. intros H%insert_and_read_reads. by destruct (_ && _). Qed.

Lemma find_exchange_Ok ref m o m' : readMailboxExchangeByIDOnConnection ref m = Ok (o, m') ->
  m' = m /\ match o with
            | Some rec => readMailboxExchangeOnConnection ref m = Ok (rec, m)
            | None => mailbox_exchanges m !! mailboxExchangeID ref = None
            end.
Proof.
  intros H. assert (m' = m) as -> by (by eapply read_only in H). split; [done|]. unfold readMailboxExchangeByIDOnConnection in H.
  tx_inv H. match goal with E : validateMailboxExchangeRef _ = Ok _ |- _ => destruct (validate_ref_Ok _ _ E) as [-> _] end.
  match type of H with context [is_Some_b ?x] => destruct x eqn:E end; cbn [is_Some_b] in H; tx_inv H; done.
Qed.

Lemma with_replay_create e v v' : with_replay e v = Ok v' -> vx_create v' = vx_create v.
Proof. unfold with_replay. intros H. by tx_inv H. Qed.

Ltac accepted_read :=
  match goal with
  | E : accept_new _ _ _ = Ok _ |- _ => exact (accept_new_reads _ _ _ _ _ E)
  | E : insert_and_read _ _ = Ok _ |- _ => exact (insert_and_read_reads _ _ _ _ E)
  end.

Lemma accept_exchange_reads s v rc rd now m rec d c m' : accept_exchange s v rc rd now m = Ok (rec, d, c, m') ->
  readMailboxExchangeOnConnection (create_ref (vx_create v)) m' = Ok (rec, m').
Proof.
  unfold accept_exchange. rewrite stx_bind_Ok. intros (? & m0 & _ & H). rewrite stx_bind_Ok in H. destruct H as (byID & m1 & Hid & H).
  apply find_exchange_Ok in Hid as [-> Hid]. destruct byID as [e|]; [by tx_inv H|].
  rewrite stx_bind_Ok in H. destruct H as (? & m1 & _ & H). rewrite stx_bind_Ok in H. destruct H as (existing & m2 & _ & H).
  destruct existing as [e|]; [|tx_inv H; accepted_read].
  destruct (negb (key_active now e)); [tx_inv H; accepted_read|].
  destruct (changed_request e v); [tx_inv H; accepted_read|].
  destruct rd; [tx_inv H; accepted_read|]. tx_inv H.
  match goal with E : with_replay _ _ = Ok _, F : insert_and_read _ _ = Ok _ |- _ =>
    apply with_replay_create in E; apply insert_and_read_reads in F; cbn in F; rewrite E in F; exact F end.
Qed.

(** The reference that the request names. *)
Lemma create_ref_of input ex ref i v : mailboxRefFromInput input ex = Ok (ref, i) -> validateMailboxExchangeCreate i = Ok v ->
  create_ref (vx_create v) = ref.
Proof.
  unfold mailboxRefFromInput, validateMailboxExchangeCreate. intros H H'. tx_inv H. tx_inv H'.
  unfold NewMailboxExchangeRef in *.
  repeat match goal with E : (refuse_if _ _;; _) = Ok _ |- _ => apply refuse_if_bind in E as [_ [= <-]] end. done.
Qed.

(** The same request ID again. *)
Lemma accept_again s v rc rd now m r : mailbox_exchanges m !! mailboxExchangeID (create_ref (vx_create v)) = Some r ->
  forall rec d c m', accept_exchange s v rc rd now m = Ok (rec, d, c, m') ->
  m' = m /\ d = true /\ c = false /\ sameMailboxBinding rec v = true /\ readMailboxExchangeOnConnection (create_ref (vx_create v)) m = Ok (rec, m).
Proof.
  intros Hr rec d c m'. unfold accept_exchange, rejectMailboxExchangeIngressDiagnosticCollision.
  rewrite stx_bind_Ok. intros (? & m0 & Hro%read_only & H). subst m0. rewrite stx_bind_Ok in H. destruct H as (byID & m1 & Hid & H).
  apply find_exchange_Ok in Hid as [-> Hid]. destruct byID as [e|]; [|by rewrite Hid in Hr]. tx_inv H. bool_norm. done.
Qed.

Lemma find_exchange_found ref m rec : readMailboxExchangeOnConnection ref m = Ok (rec, m) ->
  readMailboxExchangeByIDOnConnection ref m = Ok (Some rec, m).
Proof.
  intros H. destruct (read_exchange_Ok _ _ _ _ H) as (_ & r & Hr). unfold readMailboxExchangeByIDOnConnection.
  unfold mbind, stx_bind, lift, query. rewrite (ra_valid _ _ _ _ Hr). cbn. rewrite (ra_row _ _ _ _ Hr). cbn. by rewrite H.
Qed.

Lemma identity_free m ref rec : ledgers_inv (mailbox m) -> readMailboxExchangeOnConnection ref m = Ok (rec, m) ->
  mailbox_ingress_diagnostics m !! (ref_MailboxID ref, ref_ClientRequestID ref) = None.
Proof.
  intros Hl (_ & r & Hr)%read_exchange_Ok. pose proof (li_exclusive _ Hl _ _ (ra_row _ _ _ _ Hr)) as H.
  unfold identity_of in H. by rewrite (ra_mailbox _ _ _ _ Hr), (ra_request _ _ _ _ Hr) in H.
Qed.

Lemma accept_known s v rc rd now m rec : ledgers_inv (mailbox m) ->
  readMailboxExchangeOnConnection (create_ref (vx_create v)) m = Ok (rec, m) ->
  accept_exchange s v rc rd now m = if sameMailboxBinding rec v then Ok (rec, true, false, m) else Err ErrMailboxExchangeConflict.
Proof.
  intros Hl Hr. unfold accept_exchange, rejectMailboxExchangeIngressDiagnosticCollision.
  rewrite (stx_bind_run _ _ _ tt m).
  2:{ rewrite query_bind, (identity_free _ _ _ Hl Hr). reflexivity. }
  rewrite (stx_bind_run _ _ _ _ _ (find_exchange_found _ _ _ Hr)).
  destruct (sameMailboxBinding rec v); cbn [negb]; [by rewrite fail_if_bind_false|by rewrite fail_if_bind_true].
Qed.

Lemma same_binding_request rec rec' v : same_request rec rec' -> sameMailboxBinding rec' v = sameMailboxBinding rec v.
Proof. intros (E & _). unfold sameMailboxBinding. by rewrite E. Qed.

Lemma accept_exchange_Ok s m now input rc rd ex ref i r m' : mailboxRefFromInput input ex = Ok (ref, i) ->
  acceptMailboxExchange s m now input rc rd ex = (Ok r, m') ->
  exists v, validateMailboxExchangeCreate i = Ok v /\ create_ref (vx_create v) = ref /\ accept_exchange s v rc rd now m = Ok (r, m').
Proof.
  intros Hi. unfold acceptMailboxExchange. rewrite Hi. destruct (validateMailboxExchangeCreate i) as [v|e] eqn:Hv; [|done].
  unfold withMirrorTransaction. destruct (accept_exchange s v rc rd now m) as [[r1 m1]|e] eqn:E; intros [= <- <-].
  exists v. split; [done|]. split; [by eapply create_ref_of|done].
Qed.

(** C14: A request is accepted once.  After an acceptance succeeded, and whatever
    happened since, the same request ID in the same mailbox changes nothing, whether
    or not ingress is still admitted: if the exchange can be read and the arguments
    are valid, the answer is the recorded exchange as a duplicate when they name the
    same binding, and a conflict when they do not.  What the exchange says of the
    request, the key's expiry included, is what the first acceptance returned. *)
Theorem request_accepted_once s m now input rc rd ex ref i rec d c m1 m2 s' now' input' rc' rd' ex' i' :
  reachable_mailbox m -> mailboxRefFromInput input ex = Ok (ref, i) ->
  acceptMailboxExchange s m now input rc rd ex = (Ok (rec, d, c), m1) -> mailbox_history m1 m2 ->
  mailboxRefFromInput input' ex' = Ok (ref, i') ->
  snd (acceptMailboxExchange s' m2 now' input' rc' rd' ex') = m2 /\
  forall rec' v', GetMailboxExchangeInMailbox m2 ref = Ok rec' -> validateMailboxExchangeCreate i' = Ok v' ->
    same_request rec rec' /\
    fst (acceptMailboxExchange s' m2 now' input' rc' rd' ex') =
      if sameMailboxBinding rec v' then Ok (rec', true, false) else Err ErrMailboxExchangeConflict.
Proof.
  intros Hm Hi H Hh Hi'. assert (H1 : reachable_mailbox m1).
  { destruct Hm as (m0 & ? & ?). exists m0. split; [done|]. eapply rtc_r; [done|]. change m1 with (snd (Ok (rec, d, c), m1)). rewrite <- H. constructor. }
  destruct (accept_exchange_Ok _ _ _ _ _ _ _ _ _ _ _ Hi H) as (v & Hv & Href & Ha). apply accept_exchange_reads in Ha. rewrite Href in Ha.
  destruct (read_decode _ _ _ _ Ha) as (r & Hr & Hdec).
  destruct (changes_receipt (mailbox m1) (mailbox m2) _ r (history_changes _ _ Hh (reachable_files _ H1)) Hr) as (r2 & Hr2 & Hrec).
  unfold acceptMailboxExchange. rewrite Hi'. split.
  - destruct (validateMailboxExchangeCreate i') as [v'|e] eqn:Hv'; [|done]. pose proof (create_ref_of _ _ _ _ _ Hi' Hv') as Href'.
    unfold withMirrorTransaction. destruct (accept_exchange _ _ _ _ _ _) as [[[[rec' d'] c'] m3]|e] eqn:E; [|done]. cbn.
    eapply accept_again in E as [-> _]; [done|]. by rewrite Href'.
  - intros rec' v' Hget Hv'. destruct (get_exchange_Ok _ _ _ Hget) as (_ & _ & Hread).
    destruct (read_decode _ _ _ _ Hread) as (r2' & Hr2' & Hdec'). assert (r2' = r2) as -> by (unfold mailbox_exchanges in Hr2'; congruence).
    pose proof (decode_same_request _ _ _ _ _ _ _ _ Hdec Hdec' Hrec) as Hs. split; [done|].
    rewrite Hv'. unfold withMirrorTransaction. rewrite (accept_known _ _ _ _ _ _ rec');
      [|by eapply reachable_ledgers, reachable_history|by rewrite (create_ref_of _ _ _ _ _ Hi' Hv')].
    rewrite (same_binding_request _ _ _ Hs). by destruct (sameMailboxBinding rec v').
Qed.

Lemma sample_accepted : exists rec, sample_accept sample_mirror t0 "r1" = (Ok (rec, false, false), box_accepted).
Proof. eexists. vm_compute. reflexivity. Qed.
Lemma sample_mirror_reachable : reachable_mailbox sample_mirror.
Proof. exists sample_mirror. split; [vm_compute; reflexivity|]. apply rtc_refl. Qed.

Lemma request_accepted_once_witness : exists rec,
  snd (sample_accept box_published (t0 + day) "r1") = box_published /\
  forall rec' v', GetMailboxExchangeInMailbox box_published (sample_ref "r1") = Ok rec' ->
    validateMailboxExchangeCreate (sample_input "r1" "k") = Ok v' ->
    same_request rec rec' /\
    fst (sample_accept box_published (t0 + day) "r1") = if sameMailboxBinding rec v' then Ok (rec', true, false) else Err ErrMailboxExchangeConflict.
Proof.
  destruct sample_accepted as [rec H]. exists rec.
  apply (request_accepted_once example_store sample_mirror t0 (sample_input "r1" "k") false false true (sample_ref "r1")
           (sample_input "r1" "k") rec false false box_accepted box_published example_store (t0 + day) (sample_input "r1" "k") false
           false true (sample_input "r1" "k")).
  - exact sample_mirror_reachable.
  - vm_compute. reflexivity.
  - exact H.
  - exact box_published_history.
  - vm_compute. reflexivity.
Defined.

(** The retry is answered with the published response. *)
Example retry_is_answered :
  match fst (sample_accept box_published (t0 + day) "r1") with
  | Ok (rec, duplicate, conflict) => (mx_ResponseBytes rec, duplicate, conflict) = (mp_Bytes sample_answer, true, false)
  | Err _ => False
  end.
Proof. vm_compute. reflexivity. Qed.

(** ** Acknowledgement *)

Lemma acknowledge_reads s ref ack now m rec m' : acknowledge s ref ack now m = Ok (rec, m') ->
  check_admission s m' = Ok (tt, m') /\ readMailboxExchangeOnConnection ref m' = Ok (rec, m') /\
  forall r, mailbox_exchanges m !! mailboxExchangeID ref = Some r -> go_len (default "" (x_terminal_response_bytes (x_response r))) =? 0 = false.
Proof.
  unfold acknowledge. rewrite stx_bind_Ok. intros ([] & m0 & Hadm & H). pose proof (read_only _ _ _ Hadm) as ->.
  rewrite stx_bind_Ok in H. destruct H as (rec0 & m0 & Hread & H). destruct (read_exchange_Ok _ _ _ _ Hread) as (-> & r & Hr).
  assert (Hadm' : forall m1, check_admission s m1 = Ok (tt, m1)).
  { intros m1. unfold check_admission, lift in *. by destruct (withReadTransaction _ _) as [[]|]. }
  split; [apply Hadm'|]. clear Hadm. rewrite stx_bind_Ok in H. destruct H as (? & ? & Hc & H). tx_inv Hc. bool_norm.
  rewrite stx_bind_Ok in H. destruct H as (? & ? & Hro%read_only & H). subst. split.
  - destruct (is_Some_b (mx_AcknowledgedAt rec0)); tx_inv H; [done|]. by destruct (read_exchange_Ok _ _ _ _ H) as [-> _].
  - intros r' Hr'. pose proof (ra_row _ _ _ _ Hr) as E. assert (r' = r) as -> by congruence.
    rewrite <- (ra_terminal_bytes _ _ _ _ Hr). by apply Z.eqb_neq.
Qed.

Lemma acknowledge_repeats s ref ack now m rec r : check_admission s m = Ok (tt, m) -> readMailboxExchangeOnConnection ref m = Ok (rec, m) ->
  read_as m ref r rec -> terminal_row r -> 1 <= x_response_revision (x_response r) ->
  x_response_revision (x_response r) = ack_ResponseRevision ack -> x_available_event_sequence (x_response r) = ack_AvailableEventSequence ack ->
  go_len (default "" (x_terminal_response_bytes (x_response r))) =? 0 = false -> is_Some (mx_AcknowledgedAt rec) ->
  acknowledge s ref ack now m = Ok (rec, m).
Proof.
  intros Hadm Hread Hr Ht Hrev Erev Ecur Hb [at_ Hack]. unfold acknowledge.
  rewrite (stx_bind_run _ _ _ _ _ Hadm), (stx_bind_run _ _ _ _ _ Hread).
  rewrite (ra_state _ _ _ _ Hr), (ra_terminal_bytes _ _ _ _ Hr), (ra_revision _ _ _ _ Hr), (ra_cursor _ _ _ _ Hr), Hb, Hack.
  unfold terminal_row in Ht. rewrite Ht, (proj2 (Z.ltb_ge _ _) Hrev), Erev, Ecur, Z.eqb_refl. unfold sameCursor.
  rewrite bool_decide_true by done. done.
Qed.

Lemma sample_acknowledged : exists rec,
  AcknowledgeMailboxExchangeInMailbox example_store box_bound (t0 + 3 * second) (sample_ref "r1") sample_ack = (Ok rec, box_acknowledged).
Proof. eexists. vm_compute. reflexivity. Qed.

(** C15: An acknowledgement is exact and only shortens.  It succeeds only for the
    revision and the event cursor of a terminal response.  The exchange keeps its
    receipt and its response, becomes or stays acknowledged, and gets a deadline no
    later than before; every other exchange keeps its row.  Repeating it later, with
    any clock reading, returns the same record and changes nothing. *)
Theorem acknowledgement_is_exact s m now ref ack rec m' :
  AcknowledgeMailboxExchangeInMailbox s m now ref ack = (Ok rec, m') ->
  exists r r', mailbox_exchanges m !! mailboxExchangeID ref = Some r /\ mailbox_exchanges m' !! mailboxExchangeID ref = Some r' /\
    terminal_row r /\ x_response_revision (x_response r) = ack_ResponseRevision ack /\
    x_available_event_sequence (x_response r) = ack_AvailableEventSequence ack /\
    settled r r' /\ x_acknowledged_at r' <> None /\
    (forall id, id <> mailboxExchangeID ref -> mailbox_exchanges m' !! id = mailbox_exchanges m !! id) /\
    (forall now', AcknowledgeMailboxExchangeInMailbox s m' now' ref ack = (Ok rec, m')).
Proof.
  unfold AcknowledgeMailboxExchangeInMailbox. destruct (validateMailboxExchangeRef ref) as [w|] eqn:Hv; [|done].
  apply validate_ref_Ok in Hv as [-> _]. destruct (_ || _ || _ || _); [done|]. unfold withMirrorTransaction.
  destruct (acknowledge s ref ack now m) as [[rec1 m1]|] eqn:E; intros [= <- <-].
  destruct (acknowledge_reads _ _ _ _ _ _ _ E) as (Hadm & Hread & Hbytes).
  destruct (acknowledge_inv _ _ _ _ _ _ _ E) as (r & rec0 & Hr & Ht & Hrev & Erev & Ecur & Hcase). specialize (Hbytes r (ra_row _ _ _ _ Hr)).
  exists r. destruct Hcase as [(Hack & -> & ->)|(t & Hn & Hd & Hs & -> & Hr')].
  - exists r. pose proof (ra_acknowledged _ _ _ _ Hr) as Ha. destruct Hack as [at_ Hat]. rewrite Hat in Ha.
    apply parse_optional_Some in Ha as (ta & Ha & _). repeat (split; [done || apply Hr || apply settled_refl || by rewrite Ha|]).
    intros now'. rewrite (acknowledge_repeats s ref ack now' m rec0 r); try done; by eexists.
  - set (r' := with_acknowledgement now (acknowledged_deadline rec0 now) r) in *. exists r'.
    pose proof (acknowledgement_change _ _ _ _ _ _ Hr Ht Hn Hd Hs) as Hw.
    split; [apply Hr|]. split; [apply Hr'|]. repeat (split; [done|]).
    split. { split; try apply Hw; try done. intros u. by apply (rw_deadline _ _ Hw). }
    split; [done|]. split.
    + intros id Hid. rewrite lookup_updated. destruct (mailbox_exchanges m !! id); [|done]. cbn. unfold row_of. by rewrite bool_decide_false.
    + intros now'. erewrite (acknowledge_repeats s ref ack now' _ rec1 r'); try done.
      pose proof (ra_acknowledged _ _ _ _ Hr') as Ha. destruct (mx_AcknowledgedAt rec1); [by eexists|].
      cbn in Ha. destruct (parseStoredTime _); discriminate Ha.
Qed.

Lemma acknowledgement_is_exact_witness : exists r r', sample_row box_bound "r1" = Some r /\ sample_row box_acknowledged "r1" = Some r' /\
  terminal_row r /\ settled r r' /\ x_acknowledged_at r' <> None /\
  sample_row box_acknowledged "r2" = sample_row box_bound "r2".
Proof.
  destruct sample_acknowledged as [rec H].
  destruct (acknowledgement_is_exact example_store box_bound (t0 + 3 * second) (sample_ref "r1") sample_ack rec box_acknowledged H)
    as (r & r' & Hr & Hr' & Ht & _ & _ & Hs & Ha & Hother & _).
  exists r, r'. split; [exact Hr|]. split; [exact Hr'|]. split; [exact Ht|]. split; [exact Hs|]. split; [exact Ha|].
  apply Hother. vm_compute. discriminate.
Defined.

