(* ===== verification/MailboxOutcomes.v ===== *)
(** * Closing an uncertain run

    When the owner gives up on a remote run whose outcome is unknown, the exchange is
    closed as indeterminate and the intent as reconciled, in one transaction.  The
    theorem says what must hold for it and what it leaves behind: no proof of an
    outcome is written.  Then the evidence about requests, and the
    registry of mailboxes. *)
From stdpp Require Import relations.
From Stdlib Require Import String.
From S2P Require Import MailboxDiagnostics MailboxLedgers MailboxConfig.
From S2P Require Import Prelude GoStrings Sha256 Identity Lifecycle Policy JsonText Canonical LaneAdmission.
From S2P Require Import Db AuditStore AdmissionStore Idempotency Sessions Listings Commands RemoteDb LocalIntents LocalIntentOps.
From S2P Require Import IntentRefinement IntentTheorems AuthorityTheorems MirrorInvariant RetentionTheorems BridgeJson WireJson RemoteReplies.
From S2P Require Import Mailbox MailboxOps MailboxClosure MailboxChanges MailboxFiles MailboxTheorems.

Lemma next_revision_Ok revision next : next_revision revision = Ok next -> 0 <= revision -> next = revision + 1.
Proof.
  unfold next_revision. intros [H [= <-]]%refuse_if_bind Hr. bool_norm. destruct (revision =? max_int64) eqn:E; [|done]. by vm_compute in H.
Qed.

Lemma read_intent_by_exchange_Ok e m rec m' : readLocalIntentByMailboxExchangeOnConnection e m = Ok (rec, m') ->
  m' = m /\ exists li, local_intents m !! lic_IntentID (lir_create rec) = Some li /\ decoded_as (lic_IntentID (lir_create rec)) li rec.
Proof.
  unfold readLocalIntentByMailboxExchangeOnConnection. intros H. tx_inv H. apply readIntent_Ok in H as (-> & li & Hli & Hd).
  split; [done|]. apply decode_Ok in Hd. rewrite (da_id _ _ _ Hd). by exists li.
Qed.

(** The two tables that the closing writes. *)
Lemma abandon_run_Ok ref current want now m rec m' : abandon_run ref current want now m = Ok (rec, m') -> 0 <= mx_ResponseRevision current ->
  exists bytes li, local_intents m !! xr_IntentID want = Some li /\
    local_intents m' = <[xr_IntentID want := with_abandonment now li]> (local_intents m) /\
    mailbox m' = update_exchanges (row_of (mx_ExchangeID current) (fun r => in_exchange_state MailboxExchangeAccepted r
                     && (x_response_revision (x_response r) =? mx_ResponseRevision current)))
                   (with_indeterminate bytes (mx_ResponseRevision current + 1) now) (mailbox m).
Proof.
  intros H Hrev. unfold abandon_run in H. tx_inv H. apply read_exchange_Ok in H as [-> _].
  match goal with E : next_revision _ = Ok _ |- _ => apply next_revision_Ok in E as ->; [|done] end.
  match goal with E : exec_update_exchanges _ _ _ = Ok _ |- _ => unfold exec_update_exchanges in E; tx_inv E end.
  match goal with E : update_intent _ _ _ = Ok _ |- _ => unfold update_intent in E; tx_inv E end.
  match goal with E : appendLocalIntentLifecycleOnConnection _ _ _ _ _ = Ok _ |- _ =>
    unfold appendLocalIntentLifecycleOnConnection, insert_intent_lifecycle in E; tx_inv E end.
  match goal with E : context [match local_intents ?m !! xr_IntentID want with Some _ => _ | None => _ end] |- _ =>
    destruct (local_intents m !! xr_IntentID want) as [li|] eqn:Hli; [|done] end.
  eexists _, li. split; [done|]. split; [by apply alter_present|]. done.
Qed.

(** The arguments are only checked. *)
Lemma closing_arguments {A} m ref want (k : MailboxExchangeRef * ExpectedRun -> result A * Mirror) r m' :
  match (validated ← validateMailboxExchangeRef ref;
         intentID ← result_map_err (fun _ => ErrMailboxOwnerAbandonmentNotEligible) (NewIntentID (xr_IntentID want));
         jobID ← result_map_err (fun _ => ErrMailboxOwnerAbandonmentNotEligible) (NewJobID (xr_JobID want));
         sessionID ← result_map_err (fun _ => ErrMailboxOwnerAbandonmentNotEligible) (NewSessionID (xr_SessionID want));
         commandID ← result_map_err (fun _ => ErrMailboxOwnerAbandonmentNotEligible) (NewCommandID (xr_CommandID want));
         Ok (validated, mkExpectedRun intentID jobID sessionID commandID)) : result (MailboxExchangeRef * ExpectedRun) with
  | Err e => (Err e, m)
  | Ok p => k p
  end = (Ok r, m') -> k (ref, want) = (Ok r, m').
Proof.
  destruct (mbind _ _) as [[v w]|] eqn:Hv; [|done]. intros <-. tx_inv Hv.
  destruct (validate_ref_Ok _ _ ltac:(eassumption)) as [-> _]. destruct want. cbn in *.
  repeat match goal with E : result_map_err _ _ = Ok _ |- _ => apply result_map_err_Ok in E end.
  repeat match goal with
  | E : NewIntentID _ = Ok _ |- _ => apply NewIntentID_Ok in E as [-> _]
  | E : NewJobID _ = Ok _ |- _ => apply NewIntentID_Ok in E as [-> _]
  | E : NewSessionID _ = Ok _ |- _ => apply NewSessionID_Ok in E as [-> _]
  | E : NewCommandID _ = Ok _ |- _ => apply NewCommandID_Ok in E as [-> _]
  end. done.
Qed.

(** What an abandonable run is. *)
Lemma abandonable id current intent checked li : not_abandonable current intent checked = false -> decoded_as id li intent ->
  0 <= mx_ResponseRevision current /\ target_kind (li_target li) = TargetKindRemote /\ li_delivery_state li = LocalIntentUncertain /\
  li_remote_terminal_proof_version li = 0 /\ exists expires, li_lease_expires_at li ≫= parseStoredTime = Some expires /\ expires <= checked.
Proof.
  unfold not_abandonable. intros H Hd.
  rewrite <- (da_lease _ _ _ Hd), <- (da_target _ _ _ Hd), <- (da_state _ _ _ Hd), <- (da_proof _ _ _ Hd).
  destruct (lic_LeaseExpiresAt (lir_create intent)) as [expires|]; bool_norm; [|done].
  split; [lia|]. do 3 (split; [done|]). exists expires. split; [done|lia].
Qed.

(** C16: The owner can close a run only while its outcome is unknown, and closing it
    proves nothing.  The run must be the one that the identifiers name.  If the
    exchange is terminal already, its outcome is returned and nothing changes.  It is
    closed only when the exchange is accepted and the intent is a remote run in doubt,
    with no proof of an outcome and with a lease that had ended when it was checked;
    then the intent is reconciled, its proof version stays zero, the response gets the
    next revision and the state indeterminate, and no other intent and no other
    exchange is touched. *)
Theorem abandonment_needs_uncertainty m checked now ref want rec closed m' :
  CloseUncertainRemoteRunAsIndeterminateInMailbox m checked now ref want = (Ok (rec, closed), m') ->
  exists r li, mailbox_exchanges m !! mailboxExchangeID ref = Some r /\ local_intents m !! xr_IntentID want = Some li /\
    li_operation li = "run" /\ li_job_id li = xr_JobID want /\ li_session_id li = xr_SessionID want /\ li_command_id li = xr_CommandID want /\
    if closed then
      state_of r = MailboxExchangeAccepted /\ target_kind (li_target li) = TargetKindRemote /\
      li_delivery_state li = LocalIntentUncertain /\ li_remote_terminal_proof_version li = 0 /\
      (exists expires, li_lease_expires_at li ≫= parseStoredTime = Some expires /\ expires <= checked) /\
      local_intents m' = <[xr_IntentID want := with_abandonment now li]> (local_intents m) /\
      li_remote_terminal_proof_version (with_abandonment now li) = 0 /\
      (exists bytes, mailbox_exchanges m' !! mailboxExchangeID ref =
         Some (with_indeterminate bytes (x_response_revision (x_response r) + 1) now r)) /\
      (forall id, id <> mailboxExchangeID ref -> mailbox_exchanges m' !! id = mailbox_exchanges m !! id)
    else m' = m /\ terminal_row r /\ mx_State rec = state_of r.
Proof.
  unfold CloseUncertainRemoteRunAsIndeterminateInMailbox. intros E%closing_arguments. cbn beta in E. unfold withMirrorTransaction in E.
  destruct (close_uncertain ref want checked now m) as [[[rec1 closed1] m1]|] eqn:E1; [|done]. injection E as -> -> ->. rename E1 into E.
  unfold close_uncertain in E. rewrite stx_bind_Ok in E. destruct E as (current & m0 & Hread & E).
  destruct (read_exchange_Ok _ _ _ _ Hread) as (-> & r & Hr).
  rewrite stx_bind_Ok in E. destruct E as (? & m0 & Hro%read_only & E). subst m0.
  rewrite stx_bind_Ok in E. destruct E as (intent & m0 & Hint & E). apply read_intent_by_exchange_Ok in Hint as (-> & li & Hli & Hd).
  rewrite stx_bind_Ok in E. destruct E as (? & m0 & (_ & Hother & <-)%fail_if_Ok & E). unfold other_run in Hother. cbv zeta beta in Hother. bool_norm.
  match goal with H : lic_IntentID _ = xr_IntentID want |- _ => rewrite H in * end.
  exists r, li. split; [apply Hr|]. split; [done|].
  rewrite <- (da_operation _ _ _ Hd), <- (da_job _ _ _ Hd), <- (da_session _ _ _ Hd), <- (da_command _ _ _ Hd). do 4 (split; [done|]).
  pose proof (ra_state _ _ _ _ Hr) as Hst. pose proof (ra_revision _ _ _ _ Hr) as Hrv. pose proof (ra_id _ _ _ _ Hr) as Hid.
  match type of E with (if ?b then _ else _) _ = _ => destruct b eqn:Es end; rewrite stx_bind_Ok in E; destruct E as (? & m0 & (_ & Hf & <-)%fail_if_Ok & E).
  { tx_inv E. bool_norm. split; [done|]. split; [unfold terminal_row; congruence|done]. }
  apply negb_false_iff, bool_decide_eq_true in Es. rewrite stx_bind_Ok in E. destruct E as (rec0 & m0 & Hab & E). tx_inv E.
  destruct (abandonable _ _ _ _ _ Hf Hd) as (Hrev & Htgt & Hunc & Hproof & Hlease).
  destruct (abandon_run_Ok _ _ _ _ _ _ _ Hab Hrev) as (bytes & li' & Hli' & Hints & Hbox). assert (li' = li) as -> by congruence.
  split; [congruence|]. do 4 (split; [done|]). split; [done|]. split; [done|].
  unfold mailbox_exchanges. rewrite Hbox. unfold update_exchanges. cbn [mb_exchanges set_exchanges]. split.
  - exists bytes. rewrite lookup_update_where. pose proof (ra_row _ _ _ _ Hr) as Erow. unfold mailbox_exchanges in Erow. rewrite Erow. cbn.
    rewrite <- Hrv, <- Hid. unfold row_of, in_exchange_state. unfold state_of in Hst.
    rewrite !bool_decide_true by congruence. by rewrite Hrv, Z.eqb_refl.
  - intros id Hne. rewrite lookup_update_where. destruct (mb_exchanges _ !! id); [|done]. cbn. unfold row_of.
    by rewrite bool_decide_false by congruence.
Qed.

(** ** Witness *)

(** A run whose delivery was lost, and the exchange that asked for it. *)
Definition lost_run_payload : string :=
  in_quotes "{'environment':'default','execution_target':{'kind':'remote','profile':'mac-mini'},'operation':'run','script':'make','source':{'mode':'empty'}}".
Definition lost_run_hash : CanonicalHash :=
  match HashMutationRequestJSON "run" lost_run_payload [] with Ok h => h | Err _ => mkCanonicalHash 0 "" end.
Definition lost_run : LocalIntentCreate :=
  mkLocalIntentCreate "i7" "run" "j7" "s7" "c7" "j7" sample_target " default " sample_controller NewEmptySource lost_run_hash
    (mailboxExecutionIdempotencyKey "box" "k7") 0 lost_run_payload "make" None (LocalIntentOther "") "" "" None 0 None.
Definition lost_run_intents : Mirror :=
  snd (intent_execs [(t0, IopAccept None t0 lost_run); (t0 + second, IopClaim "i7" "router" minute);
                     (t0 + 2 * second, IopTransition "i7" LocalIntentUncertain remote_transport_uncertain)] (example_store, empty_mirror)).
Definition lost_run_input : MailboxExchangeCreate :=
  mkMailboxExchangeCreate "box" "u1" "run" sample_controller "k7" "" (example_hash "b") "{}" "" None (MailboxExecutionSelectionOther "").
Definition lost_run_status : MailboxResponsePublication :=
  mkMailboxResponsePublication MailboxExchangeAccepted
    (in_quotes "{'request_id':'u1','operation':'run','request_state':'accepted','response_revision':1,'job_id':'j7','session_id':'s7','command_id':'c7','delivery_state':'uncertain'}") None.
Definition lost_run_mirror : Mirror :=
  snd (PublishMailboxResponseInMailbox example_store
         (snd (acceptMailboxExchange example_store lost_run_intents (t0 + second) lost_run_input false false true))
         (t0 + 3 * second) (sample_ref "u1") lost_run_status).
Definition lost_run_names : ExpectedRun := mkExpectedRun "i7" "j7" "s7" "c7".
Definition close_lost_run (checked : Z) :=
  CloseUncertainRemoteRunAsIndeterminateInMailbox lost_run_mirror checked (t0 + hour) (sample_ref "u1") lost_run_names.

Definition lost_run_after : Mirror := snd (close_lost_run (t0 + hour)).
Lemma lost_run_closed : exists rec, close_lost_run (t0 + hour) = (Ok (rec, true), lost_run_after).
Proof.
  assert (B : match fst (close_lost_run (t0 + hour)) with Ok (_, closed) => closed | Err _ => false end = true) by (vm_compute; reflexivity).
  unfold lost_run_after. destruct (close_lost_run (t0 + hour)) as [[[rec closed]|e] m]; cbn in *; [|discriminate B].
  subst closed. exists rec. reflexivity.
Qed.
Example lost_run_indeterminate :
  match fst (close_lost_run (t0 + hour)) with
  | Ok (rec, closed) => (mx_State rec, mx_ResponseRevision rec, closed) = (MailboxExchangeIndeterminate, 2, true)
  | Err _ => False
  end.
Proof. vm_compute. reflexivity. Qed.

Example leased_run_is_not_closed : fst (close_lost_run (t0 + 30 * second)) = Err ErrMailboxOwnerAbandonmentNotEligible.
Proof. vm_compute. reflexivity. Qed.

Lemma abandonment_needs_uncertainty_witness : exists li,
  local_intents lost_run_mirror !! "i7" = Some li /\ li_delivery_state li = LocalIntentUncertain /\
  local_intents lost_run_after = <["i7" := with_abandonment (t0 + hour) li]> (local_intents lost_run_mirror).
Proof.
  destruct lost_run_closed as (rec & H).
  destruct (abandonment_needs_uncertainty lost_run_mirror (t0 + hour) (t0 + hour) (sample_ref "u1") lost_run_names rec true lost_run_after H)
    as (r & li & _ & Hli & _ & _ & _ & _ & _ & _ & Hunc & _ & _ & Hints & _).
  exists li. split; [exact Hli|]. split; [exact Hunc|exact Hints].
Defined.

(** ** Identities, evidence and completion

    The stored key of an exchange determines mailbox and request, so that a request
    has one exchange; the evidence lookup that decides which request files may be
    removed never meets a request that was both accepted and refused.  Then two
    operations whose behaviour differs from what is said of them. *)

(** ** The stored key *)
Definition hex_bytes (b : Z) : list Z := [hex_digit (b / 16); hex_digit (b mod 16)].

Lemma hex_digit_range n : 0 <= n < 16 -> 48 <= hex_digit n < 103.
Proof. unfold hex_digit. intros. destruct (n <? 10) eqn:E; lia. Qed.
Lemma hex_digit_inj x y : 0 <= x < 16 -> 0 <= y < 16 -> hex_digit x = hex_digit y -> x = y.
Proof. unfold hex_digit. intros ??. destruct (x <? 10) eqn:E, (y <? 10) eqn:F; lia. Qed.

Lemma hex_bytes_inj l l' : Forall (fun b => 0 <= b < 256) l -> Forall (fun b => 0 <= b < 256) l' ->
  flat_map hex_bytes l = flat_map hex_bytes l' -> l = l'.
Proof.
  intros H. revert l'. induction H as [|b l Hb _ IH]; intros l' H' E; destruct H' as [|b' l' Hb' H']; try done.
  cbn in E. injection E as E1 E2 E. f_equal; [|by apply IH].
  apply hex_digit_inj in E1; [|Z.div_mod_to_equations; lia..]. apply hex_digit_inj in E2; [|Z.div_mod_to_equations; lia..].
  Z.div_mod_to_equations. lia.
Qed.

Lemma hex_encode_inj s s' : hex_encode s = hex_encode s' -> s = s'.
Proof.
  intros E%(f_equal bytes_of). unfold hex_encode in E. apply bytes_of_inj.
  assert (R : forall l, Forall (fun b => 0 <= b < 256) l -> Forall (fun b => 0 <= b < 256) (flat_map hex_bytes l)).
  { induction 1 as [|b l Hb _ IH]; [done|]. cbn.
    pose proof (hex_digit_range (b / 16) ltac:(Z.div_mod_to_equations; lia)).
    pose proof (hex_digit_range (b mod 16) ltac:(Z.div_mod_to_equations; lia)).
    constructor; [lia|]. constructor; [lia|exact IH]. }
  apply hex_bytes_inj; [apply bytes_of_range..|].
  change (fun b => [hex_digit (b / 16); hex_digit (b mod 16)]) with hex_bytes in E.
  rewrite !bytes_of_string_of in E by apply R, bytes_of_range. done.
Qed.

Lemma append_inj_prefix p x y : (p ++ x = p ++ y)%string -> x = y.
Proof. induction p; cbn; [done|]. intros [= E]. by apply IHp. Qed.

(** The first NUL ends the name of the mailbox. *)
Lemma split_at_nul a a' b b' : contains_nul a = false -> contains_nul a' = false ->
  (a ++ string_of [0] ++ b = a' ++ string_of [0] ++ b')%string -> a = a' /\ b = b'.
Proof.
  revert a'. induction a as [|c a IH]; intros [|c' a'] Ha Ha' E; cbn in *.
  - injection E as E. exact (conj eq_refl E).
  - injection E as <- _. done.
  - injection E as -> _. done.
  - injection E as <- E. apply orb_false_elim in Ha as [_ Ha]. apply orb_false_elim in Ha' as [_ Ha'].
    by destruct (IH a' Ha Ha' E) as [-> ->].
Qed.

Lemma contains_nul_bytes s : Forall (fun b => b <> 0) (bytes_of s) -> contains_nul s = false.
Proof.
  induction s as [|c s IH]; cbn; [done|]. intros [Hc Hs]%Forall_cons. rewrite IH by done. rewrite orb_false_r.
  apply Ascii.eqb_neq. by intros ->.
Qed.

Lemma valid_mailbox_no_nul mb : validMailboxID mb = true -> contains_nul mb = false.
Proof.
  unfold validMailboxID. intros H. apply contains_nul_bytes. destruct (bytes_of mb) as [|b l]; [done|]. bool_norm.
  match goal with H : forallb _ l = true |- _ => rewrite forallb_forall in H; rename H into Hl end.
  constructor; [by intros ->|]. apply Forall_forall. intros x Hx%list_elem_of_In%Hl ->. done.
Qed.

Lemma exchange_id_inj ref ref' : validMailboxID (ref_MailboxID ref) = true -> validMailboxID (ref_MailboxID ref') = true ->
  mailboxExchangeID ref = mailboxExchangeID ref' -> ref = ref'.
Proof.
  intros Hv Hv' E%append_inj_prefix%hex_encode_inj%split_at_nul; [|by apply valid_mailbox_no_nul..].
  destruct ref, ref'. cbn in *. by destruct E as [-> ->].
Qed.

(** ** Lifecycle evidence *)
Lemma has_identity_true mb id x r : has_identity mb id x r = true <-> identity_of r = (mb, id).
Proof. unfold has_identity, identity_of, mailbox_of. rewrite andb_true_iff, !bool_decide_eq_true. naive_solver. Qed.

(** What the two queries find is what the tables hold. *)
Definition evidence_of (m : Mirror) (mb id : string) (e : MailboxLifecycleEvidence) : Prop :=
  (le_DiagnosticExists e = true <-> is_Some (mailbox_ingress_diagnostics m !! (mb, id))) /\
  (le_ExchangeExists e = true <-> exists r, mailbox_exchanges m !! mailboxExchangeID (mkMailboxExchangeRef mb id) = Some r /\ identity_of r = (mb, id)) /\
  (forall r, mailbox_exchanges m !! mailboxExchangeID (mkMailboxExchangeRef mb id) = Some r -> identity_of r = (mb, id) ->
     le_ExchangeState e = state_of r /\ le_ExchangeAcknowledged e = is_Some_b (x_acknowledged_at r)).

Lemma identity_key m mb id x r : ledgers_inv (mailbox m) -> mailbox_exchanges m !! x = Some r -> identity_of r = (mb, id) ->
  x = mailboxExchangeID (mkMailboxExchangeRef mb id).
Proof. intros Hl Hr [= <- <-]. exact (li_keyed _ Hl _ _ Hr). Qed.

Lemma is_Some_b_is_Some {A} (o : option A) : is_Some_b o = true <-> is_Some o.
Proof. destruct o; cbn; [naive_solver|]. split; [done|]. by intros []. Qed.

Lemma request_evidence_of m mb id : ledgers_inv (mailbox m) -> evidence_of m mb id (request_evidence m mb id).
Proof.
  intros Hl. unfold evidence_of, request_evidence.
  destruct (map_to_list (rows_where (has_identity mb id) (mailbox_exchanges m))) as [|[x r] rest] eqn:E; cbn.
  - assert (Hno : forall r, mailbox_exchanges m !! mailboxExchangeID (mkMailboxExchangeRef mb id) = Some r -> identity_of r <> (mb, id)).
    { intros r Hr Hi. apply map_to_list_empty_iff in E. assert (Hl' : rows_where (has_identity mb id) (mailbox_exchanges m) !! mailboxExchangeID (mkMailboxExchangeRef mb id) = Some r).
      { unfold rows_where. apply map_lookup_filter_Some. split; [done|]. by apply has_identity_true. }
      by rewrite E in Hl'. }
    split; [apply is_Some_b_is_Some|]. split; [|intros r Hr Hi; by destruct (Hno r Hr)].
    split; [done|]. intros (r & Hr & Hi). by destruct (Hno r Hr).
  - assert (Hx : rows_where (has_identity mb id) (mailbox_exchanges m) !! x = Some r).
    { apply elem_of_map_to_list. rewrite E. apply list_elem_of_here. }
    unfold rows_where in Hx. apply map_lookup_filter_Some in Hx as [Hx Hi%has_identity_true].
    pose proof (identity_key m mb id x r Hl Hx Hi) as Hkey. rewrite Hkey in Hx.
    split; [apply is_Some_b_is_Some|]. split; [naive_solver|]. intros r' Hr' _. rewrite Hx in Hr'. injection Hr' as <-. done.
Qed.

Lemma evidence_exclusive m mb id e : ledgers_inv (mailbox m) -> evidence_of m mb id e -> le_ExchangeExists e && le_DiagnosticExists e = false.
Proof.
  intros Hl (Hd & Hx & _). destruct (le_ExchangeExists e) eqn:E; [|done]. destruct (le_DiagnosticExists e) eqn:D; [|done].
  destruct (proj1 Hx eq_refl) as (r & Hr & Hi). destruct (proj1 Hd eq_refl) as [d Hdg].
  pose proof (li_exclusive _ Hl _ _ Hr) as Hn. rewrite Hi in Hn. unfold mailbox_ingress_diagnostics in Hdg. congruence.
Qed.

Lemma read_evidence_total m mb ids : ledgers_inv (mailbox m) -> known_states (mailbox m) ->
  exists found, read_evidence m mb ids = Ok found /\ forall id, id ∈ ids -> found !! id = Some (request_evidence m mb id).
Proof.
  intros Hl Hk. induction ids as [|id ids (found & IH & Hf)]; cbn [read_evidence]; [exists ∅; split; [done|]; intros id H; by apply not_elem_of_nil in H|].
  pose proof (request_evidence_of m mb id Hl) as He. pose proof (evidence_exclusive _ _ _ _ Hl He) as Hex. destruct He as (_ & Hx & Hs).
  replace (le_ExchangeExists (request_evidence m mb id) && _) with false.
  2:{ symmetry. destruct (le_ExchangeExists (request_evidence m mb id)); [|done]. cbn in Hex |- *. rewrite Hex. cbn.
      destruct (proj1 Hx eq_refl) as (r & Hr & Hi). destruct (Hs r Hr Hi) as [-> _]. unfold validMailboxLifecycleExchangeState.
      by rewrite (Hk _ _ Hr). }
  cbn. rewrite IH. cbn. eexists. split; [done|]. intros i [->|Hi]%elem_of_cons; [by rewrite lookup_insert_eq|].
  destruct (decide (i = id)) as [->|Hne]; [by rewrite lookup_insert_eq|]. rewrite lookup_insert_ne by congruence. by apply Hf.
Qed.

(** C25: The evidence about requests is complete and never contradictory.  In every
    reachable state the lookup succeeds for any list of valid request IDs, with an
    entry for each: it says that an exchange exists exactly when the mailbox has
    accepted the request, with the state and acknowledgement of that exchange, that
    a diagnostic exists exactly when the request was refused at ingress, and never
    both, so the error for contradictory evidence is never returned. *)
Theorem evidence_never_ambiguous m mb ids :
  reachable_mailbox m -> validMailboxID mb = true -> Forall (fun id => result_is_ok (NewMailboxExchangeRef mb id) = true) ids ->
  exists found, LookupMailboxLifecycleEvidenceForRequestIDsInMailbox m mb ids = Ok found /\
    forall id, id ∈ ids -> exists e, found !! id = Some e /\ evidence_of m mb id e /\ le_ExchangeExists e && le_DiagnosticExists e = false.
Proof.
  intros Hm Hmb Hids. pose proof (reachable_ledgers _ Hm) as Hl.
  destruct (read_evidence_total m mb ids Hl (reachable_known _ Hm)) as (found & Hf & Hl').
  exists found. unfold LookupMailboxLifecycleEvidenceForRequestIDsInMailbox. rewrite Hmb.
  replace (existsb _ ids) with false.
  2:{ symmetry. clear -Hids. induction Hids as [|id ids H _ IH]; cbn; [done|]. by rewrite H. }
  cbn. split; [done|]. intros id Hid. exists (request_evidence m mb id). split; [by apply Hl'|].
  pose proof (request_evidence_of m mb id Hl) as He. split; [exact He|]. by eapply evidence_exclusive.
Qed.

(** A refused request beside the accepted ones. *)
Definition box_diagnosed : Mirror :=
  snd (recordMailboxIngressDiagnosticInMailbox box_bound (t0 + 4 * second) (sample_ref "bad") (sha256 "x")
         MailboxIngressDiagnosticMalformedJSON None).
Lemma box_diagnosed_reachable : reachable_mailbox box_diagnosed.
Proof. eapply reachable_history; [apply box_bound_reachable|]. apply rtc_once, step_diagnose. Qed.

Lemma evidence_never_ambiguous_witness : exists found,
  LookupMailboxLifecycleEvidenceForRequestIDsInMailbox box_diagnosed "box" ["r1"; "bad"; "unknown"] = Ok found /\
  forall id, id ∈ ["r1"; "bad"; "unknown"] ->
    exists e, found !! id = Some e /\ evidence_of box_diagnosed "box" id e /\ le_ExchangeExists e && le_DiagnosticExists e = false.
Proof.
  apply (evidence_never_ambiguous box_diagnosed "box" ["r1"; "bad"; "unknown"]).
  - exact box_diagnosed_reachable.
  - vm_compute. reflexivity.
  - repeat constructor.
Defined.

Example evidence_of_three :
  (fun e => (le_ExchangeExists e, le_DiagnosticExists e)) <$> [request_evidence box_diagnosed "box" "r1";
     request_evidence box_diagnosed "box" "bad"; request_evidence box_diagnosed "box" "unknown"]
  = [(true, false); (false, true); (false, false)].
Proof. vm_compute. reflexivity. Qed.

(** ** Completion reaches settled exchanges *)

(** A second request with the key of an answered one, recorded as accepted. *)
Definition box_refreshed : Mirror :=
  snd (acceptMailboxExchange example_store box_published (t0 + 2 * second) (sample_input "r2" "k") true true true).
Lemma box_refreshed_reachable : reachable_mailbox box_refreshed.
Proof. eapply reachable_history; [apply box_published_reachable|]. apply rtc_l with box_refreshed; [apply step_accept|apply rtc_refl]. Qed.
Definition box_completed : Mirror := snd (CompleteMailboxExchangeInMailbox box_refreshed (t0 + 3 * second) (sample_ref "r2") MailboxExchangeRejected).

(** C27: Completing one request can rewrite the outcome of another.  The update of
    [CompleteMailboxExchangeInMailbox] selects every exchange with the same key and
    hash, whatever its state: in a reachable mailbox a request that was answered as
    complete, with a terminal response, becomes rejected when a later request of the
    same binding is rejected, and keeps the response that says the opposite. *)
Theorem complete_rewrites_settled_exchange :
  exists m ref ref' m' r r', reachable_mailbox m /\ ref <> ref' /\
    (exists rec, CompleteMailboxExchangeInMailbox m (t0 + 3 * second) ref MailboxExchangeRejected = (Ok rec, m')) /\
    mailbox_exchanges m !! mailboxExchangeID ref' = Some r /\ mailbox_exchanges m' !! mailboxExchangeID ref' = Some r' /\
    state_of r = MailboxExchangeComplete /\ state_of r' = MailboxExchangeRejected /\
    is_Some (x_terminal_response_bytes (x_response r)) /\ x_terminal_response_bytes (x_response r') = x_terminal_response_bytes (x_response r).
Proof.
  exists box_refreshed, (sample_ref "r2"), (sample_ref "r1"), box_completed. eexists _, _.
  split; [exact box_refreshed_reachable|].
  split; [discriminate|]. split; [eexists; vm_compute; reflexivity|].
  split; [vm_compute; reflexivity|]. split; [vm_compute; reflexivity|].
  split; [vm_compute; reflexivity|]. split; [vm_compute; reflexivity|].
  split; [vm_compute; eexists; reflexivity|]. vm_compute. reflexivity.
Qed.

(** ** Claims of diagnostics compare texts *)

(** Two refused requests, half a second apart, whose input files are gone. *)
Definition refuse_request (m : Mirror) (now : Z) (requestID : string) : Mirror :=
  let ref := sample_ref requestID in
  let m := snd (recordMailboxIngressDiagnosticInMailbox m now ref (sha256 "x") MailboxIngressDiagnosticMalformedJSON None) in
  let m := snd (MarkMailboxIngressDiagnosticProjectedInMailbox m (now + second) ref) in
  let m := snd (advanceMailboxIngressDiagnosticInputCleanup m (now + 2 * second) ref (sha256 "x") false) in
  snd (advanceMailboxIngressDiagnosticInputCleanup m (now + 3 * second) ref (sha256 "x") true).
Definition half_second : Z := 500000000.
Definition box_one : Mirror := refuse_request sample_mirror t0 "a".
Definition box_two : Mirror := refuse_request box_one (t0 + half_second) "b".
Definition claim_diagnostics_at (m : Mirror) (now : Z) := fst (ClaimMailboxIngressDiagnosticsForCleanupInMailbox m now "box" 0).

Lemma refuse_request_history m now requestID : mailbox_history m (refuse_request m now requestID).
Proof.
  unfold refuse_request. eapply rtc_l; [apply step_diagnose|]. eapply rtc_l; [apply step_project|].
  eapply rtc_l; [apply step_input_cleanup|]. apply rtc_once, step_input_cleanup.
Qed.

Lemma box_two_reachable : reachable_mailbox box_two.
Proof.
  apply reachable_history with box_one; [|exact (refuse_request_history box_one (t0 + half_second) "b")].
  apply reachable_history with sample_mirror; [exact sample_mirror_reachable|exact (refuse_request_history sample_mirror t0 "a")].
Qed.

(** One diagnostic can hold up the removal of all others.  The claim selects
    diagnostics by the text of their deadline, in which a fraction of a second sorts
    before the whole second, and then refuses a claim before the deadline: at a whole
    second a diagnostic that is due half a second later is selected, refused as
    invalid, and the claim of the diagnostic that is due fails with it. *)
Theorem undue_diagnostic_blocks_claims :
  exists m now, reachable_mailbox m /\
    claim_diagnostics_at m now = Err ErrMailboxIngressDiagnosticInvalid /\
    (exists r, mailbox_ingress_diagnostics m !! ("box", "a") = Some r /\ parseStoredTime (dg_diagnostic_cleanup_at (dg_core r)) = Some now).
Proof.
  exists box_two, (t0 + 7 * day).
  split; [exact box_two_reachable|].
  assert (E : claim_diagnostics_at box_two (t0 + 7 * day) = Err ErrMailboxIngressDiagnosticInvalid) by (vm_compute; reflexivity).
  split; [exact E|].
  eexists. split; vm_compute; reflexivity.
Qed.

(** ** The registry of mailboxes

    After a configuration was registered or a mailbox retired, the mailboxes that
    count as active are exactly the configured ones; what was registered or retired
    once stays so. *)

Definition roots (t : gmap string (string * StoredTime)) : gmap string string := fst <$> t.
(** Registered and not retired. *)
Definition active_mailboxes (b : MailboxTables) : gmap string string :=
  delete_where (fun id _ => is_Some_b (roots (mb_configuration_retirements b) !! id)) (roots (mb_configuration_registry b)).
Definition pairs (cs : list MailboxConfiguration) : list (string * string) := (fun c => (cfg_ID c, cfg_Root c)) <$> cs.

(** ** Reads *)
Lemma distinct_lookup l : forall acc t, distinct_configurations l acc = Ok t ->
  forall id root, t !! id = Some root <-> acc !! id = Some root \/ (id, root) ∈ l.
Proof.
  induction l as [|[i r] l IH]; intros acc t H id root; cbn [distinct_configurations] in H.
  { injection H as <-. split; [by left|]. intros [?|?%not_elem_of_nil]; done. }
  apply refuse_if_bind in H as [_ H]. apply refuse_if_bind in H as [Hf H]. apply orb_false_elim in Hf as [Hn%is_Some_b_false _].
  rewrite (IH _ _ H), elem_of_cons. destruct (decide (i = id)) as [->|Hne].
  - rewrite lookup_insert_eq, Hn. naive_solver.
  - rewrite lookup_insert_ne by done. naive_solver.
Qed.

Lemma normalized_lookup cs t : normalizeMailboxConfigurations cs = Ok t -> forall id root, t !! id = Some root <-> (id, root) ∈ pairs cs.
Proof. intros [_ H]%refuse_if_bind id root. rewrite (distinct_lookup _ _ _ H), lookup_empty. naive_solver. Qed.

Lemma registry_read t u : distinct_configurations (registry_rows t) ∅ = Ok u -> u = roots t.
Proof.
  intros H. apply map_eq. intros id. apply option_eq. intros root. rewrite (distinct_lookup _ _ _ H), lookup_empty.
  unfold registry_rows, roots. rewrite lookup_fmap, list_elem_of_fmap. split.
  - intros [?|([i row] & [= -> ->] & Hin%elem_of_map_to_list)]; [done|]. by rewrite Hin.
  - intros (row & Hrow & ->)%fmap_Some. right. exists (id, row). split; [done|]. by apply elem_of_map_to_list.
Qed.

(** ** Registration *)
Record registered (cs : list MailboxConfiguration) (b b' : MailboxTables) : Prop := {
  rg_retirements : mb_configuration_retirements b' = mb_configuration_retirements b;
  rg_exchanges : mb_exchanges b' = mb_exchanges b;
  rg_kept : mb_configuration_registry b ⊆ mb_configuration_registry b';
  rg_added : forall id root, (id, root) ∈ pairs cs -> is_Some (mb_configuration_registry b' !! id);
  rg_only : forall id row, mb_configuration_registry b' !! id = Some row ->
    mb_configuration_registry b !! id = Some row \/ (id, fst row) ∈ pairs cs
}.

Lemma register_registered cs now : forall b u b', registerMailboxConfigurations cs now b = Ok (u, b') -> registered cs b b'.
Proof.
  induction cs as [|c cs IH]; intros b u b' H; cbn [registerMailboxConfigurations] in H.
  { tx_inv H. split; try done; [|by left]. intros id root ?%not_elem_of_nil. done. }
  rewrite query_bind in H. destruct (insert_configuration _ _ _ _) as [t|e] eqn:E; [rewrite lift_bind_ok in H|by rewrite lift_bind_err in H].
  rewrite modify_bind in H. apply IH in H as [H1 H2 H3 H4 H5]. cbn in *.
  apply insert_configuration_Ok in E as [Hreg Hcase]. split; [done|done| | |].
  - etrans; [by apply registers_subseteq|done].
  - intros id root [[= -> ->]|Hin]%elem_of_cons; [|exact (H4 _ _ Hin)]. assert (is_Some (t !! cfg_ID c)) as [row Hrow].
    { destruct Hcase as [[Hn ->]|[_ ->]]; [by apply not_eq_None_Some|by rewrite lookup_insert_eq]. }
    exists row. by eapply lookup_weaken.
  - intros id row [Hrow|Hin]%H5; [|right; by apply list_elem_of_further].
    destruct Hcase as [[_ ->]|[_ ->]]; [by left|]. apply lookup_insert_Some in Hrow as [[<- <-]|[_ Hrow]]; [|by left].
    right. apply list_elem_of_here.
Qed.

(** ** The active mailboxes *)
Lemma lookup_active b id root : active_mailboxes b !! id = Some root <->
  roots (mb_configuration_registry b) !! id = Some root /\ roots (mb_configuration_retirements b) !! id = None.
Proof. unfold active_mailboxes. rewrite lookup_delete_where, is_Some_b_false. done. Qed.

(** What the validation of a configuration says about the registry. *)
Lemma validated_roots b set base : validateRegisteredMailboxRoots b set base = Ok tt ->
  (forall id root, roots (mb_configuration_retirements b) !! id = Some root -> set !! id = None) /\ active_mailboxes b ⊆ set.
Proof.
  unfold validateRegisteredMailboxRoots. intros H.
  apply result_bind_Ok in H as (reg & ->%registry_read & H). apply result_bind_Ok in H as (ret & ->%registry_read & H).
  apply result_bind_Ok in H as (? & Hreuse & H). unfold rejectRetiredMailboxReuse in Hreuse. apply refuse_if_Ok in Hreuse as [_ Hreuse].
  rewrite exists_row_false in Hreuse.
  assert (Hkeep : forall id root, roots (mb_configuration_retirements b) !! id = Some root -> set !! id = None).
  { intros id root [Hn%is_Some_b_false _]%Hreuse%orb_false_elim. done. }
  split; [done|]. unfold active_mailboxes. destruct (bool_decide (roots (mb_configuration_registry b) = ∅)) eqn:E.
  - apply bool_decide_eq_true in E. rewrite E. apply map_subseteq_spec. intros id root [Hl _]%lookup_delete_where. done.
  - apply result_bind_Ok in H as (active & Ha & H). unfold effectiveRegisteredMailboxConfigurations in Ha.
    apply refuse_if_bind in Ha as [_ [= <-]]. unfold validateMailboxConfigurationsAgainstRegistry in H. apply refuse_if_Ok in H as [_ H].
    rewrite exists_row_false in H. apply map_subseteq_spec. intros id root Hl%H. bool_norm. done.
Qed.

Lemma validated_register b cs set base now u b' : normalizeMailboxConfigurations cs = Ok set ->
  validateConfiguredMailboxSet b set base now = Ok tt -> registerMailboxConfigurations cs now b = Ok (u, b') -> active_mailboxes b' = set.
Proof.
  intros Hn Hv Hr. unfold validateConfiguredMailboxSet in Hv. apply result_bind_Ok in Hv as ([] & [Hret Hact]%validated_roots & _).
  apply register_registered in Hr as [Eret _ _ Hadd Honly]. apply map_eq. intros id. apply option_eq. intros root.
  rewrite lookup_active, Eret. unfold roots at 1. rewrite lookup_fmap.
  assert (Hin : forall row, mb_configuration_registry b' !! id = Some row -> roots (mb_configuration_retirements b) !! id = None ->
    set !! id = Some (fst row)).
  { intros row Hrow Hfree. destruct (Honly _ _ Hrow) as [Hold|Hnew]; [|by apply (normalized_lookup _ _ Hn)].
    eapply lookup_weaken; [|exact Hact]. apply lookup_active. unfold roots at 1. by rewrite lookup_fmap, Hold. }
  split.
  - intros [(row & Hrow & ->)%fmap_Some Hfree]. by apply Hin.
  - intros Hs. assert (Hfree : roots (mb_configuration_retirements b) !! id = None).
    { apply eq_None_not_Some. intros [root' Hq%Hret]. congruence. }
    split; [|done]. destruct (Hadd id root) as [row Hrow]; [by apply (normalized_lookup _ _ Hn)|].
    rewrite Hrow. cbn. rewrite <- Hs. symmetry. by apply Hin.
Qed.

(** No work of a mailbox outside the configuration is abandoned. *)
Definition no_work_outside (b : MailboxTables) (set : gmap string string) : Prop :=
  forall id r, mb_exchanges b !! id = Some r -> set !! mailbox_of r = None -> state_of r <> MailboxExchangeAccepted.

Lemma validated_work b set now : validateMailboxWorkForConfiguredSet b set now = Ok tt -> no_work_outside b set.
Proof.
  unfold validateMailboxWorkForConfiguredSet. intros [_ H]%refuse_if_Ok id r Hr Hout Hs. rewrite exists_row_false in H.
  specialize (H id r Hr). unfold pending_work in H. unfold mailbox_of in Hout. unfold state_of in Hs. rewrite Hout, Hs in H.
  rewrite bool_decide_true in H by done. done.
Qed.

(** The configuration is the truth about mailboxes.  When a configuration was
    registered, the registered mailboxes that are not retired are exactly the
    configured ones, each at its configured root; no mailbox that has an accepted
    request was left out, no exchange was touched, and nothing registered before was
    forgotten or moved. *)
Theorem registration_activates_exactly m now cs base m' :
  RegisterConfiguredMailboxSet m now cs base = (Ok tt, m') ->
  exists set, normalizeMailboxConfigurations cs = Ok set /\ active_mailboxes (mailbox m') = set /\ no_work_outside (mailbox m') set /\
    mailbox_exchanges m' = mailbox_exchanges m /\ mb_configuration_registry (mailbox m) ⊆ mb_configuration_registry (mailbox m') /\
    mb_configuration_retirements (mailbox m') = mb_configuration_retirements (mailbox m).
Proof.
  unfold RegisterConfiguredMailboxSet, normalized_pair. destruct (normalizeMailboxConfigurations cs) as [set|] eqn:Hn; [|done]. cbn [mbind result_bind].
  destruct (normalizeOptionalMailboxConfigurations base) as [bl|]; [|done]. cbn [mbind result_bind]. unfold on_mailbox.
  match goal with |- context [match ?x (mailbox m) with Ok _ => _ | Err _ => _ end] => destruct (x (mailbox m)) as [[u b']|] eqn:E; [|done] end. intros [= _ <-]. exists set. split; [done|].
  rewrite query_bind in E. rewrite stx_bind_Ok in E. destruct E as ([] & b1 & [Hv <-]%lift_Ok & Hr).
  pose proof (validated_register _ _ _ _ _ _ _ Hn Hv Hr) as Ha. apply register_registered in Hr as [Er Ex Hk _ _].
  unfold validateConfiguredMailboxSet in Hv. apply result_bind_Ok in Hv as ([] & _ & Hw%validated_work).
  split; [done|]. split; [intros id r; cbn; rewrite Ex; apply Hw|done].
Qed.

(** Along a history the two ledgers only grow. *)
Lemma change_ledgers_grow b b' : change b b' ->
  mb_configuration_registry b ⊆ mb_configuration_registry b' /\ mb_configuration_retirements b ⊆ mb_configuration_retirements b'.
Proof.
  intros Hc. destruct Hc as [| |remote|remote| | | |[[? ?] remote]|[[? ?] remote]| | | |t Ht|t Ht Hin];
    try (split; done); try (destruct remote; split; done); split; try done; by apply registers_subseteq.
Qed.

Lemma history_ledgers_grow m m' : reachable_mailbox m -> mailbox_history m m' ->
  mb_configuration_registry (mailbox m) ⊆ mb_configuration_registry (mailbox m') /\
  mb_configuration_retirements (mailbox m) ⊆ mb_configuration_retirements (mailbox m').
Proof.
  intros Hm Hh. apply history_changes in Hh; [|by apply reachable_files]. clear Hm.
  induction Hh as [b|b b1 b2 Hc _ [IH1 IH2]]; [done|]. destruct (change_ledgers_grow _ _ Hc) as [H1 H2]. split; etrans; done.
Qed.

Lemma retirement_recorded c now b u b' : recordMailboxConfigurationRetirement c now b = Ok (u, b') ->
  roots (mb_configuration_retirements b') !! cfg_ID c = Some (cfg_Root c) /\ mb_exchanges b' = mb_exchanges b /\
  mb_configuration_registry b' = mb_configuration_registry b /\ mb_configuration_retirements b ⊆ mb_configuration_retirements b'.
Proof.
  unfold recordMailboxConfigurationRetirement. intros H. tx_inv H. bool_norm.
  match goal with E : insert_configuration _ _ _ _ = Ok _ |- _ => apply insert_configuration_Ok in E as [E%registers_subseteq _] end.
  split; [|done]. unfold roots. cbn. rewrite lookup_fmap. congruence.
Qed.

(** C26: A retired mailbox never comes back.  When a mailbox was retired, the active
    mailboxes are exactly the configured ones, the retired one is not among them, and
    none with an accepted request was left out; and whatever operations follow, at any
    time, the mailbox stays retired: no later registration makes it active again. *)
Theorem retirement_is_permanent m now cs base id c m' m2 :
  reachable_mailbox m -> RetireConfiguredMailboxSet m now cs base id = (Ok c, m') -> mailbox_history m' m2 ->
  (exists set, normalizeMailboxConfigurations cs = Ok set /\ active_mailboxes (mailbox m') = set /\ set !! id = None /\
     no_work_outside (mailbox m') set) /\
  cfg_ID c = id /\ roots (mb_configuration_retirements (mailbox m2)) !! id = Some (cfg_Root c) /\ active_mailboxes (mailbox m2) !! id = None.
Proof.
  intros Hm H Hh. assert (Hm' : reachable_mailbox m').
  { destruct Hm as (m0 & ? & ?). exists m0. split; [done|]. eapply rtc_r; [done|]. change m' with (snd (Ok c, m')). rewrite <- H. constructor. }
  revert H. unfold RetireConfiguredMailboxSet, normalized_pair.
  destruct (normalizeMailboxConfigurations cs) as [set|] eqn:Hn; [|done]. cbn [mbind result_bind].
  destruct (normalizeOptionalMailboxConfigurations base) as [bl|]; [|done]. cbn [mbind result_bind].
  destruct (validateMailboxRetirement id) as [[]|]; [|done]. cbn [mbind result_bind]. unfold on_mailbox.
  match goal with |- context [match ?x (mailbox m) with Ok _ => _ | Err _ => _ end] => destruct (x (mailbox m)) as [[u b']|] eqn:E; [|done] end.
  intros [= -> <-]. rewrite query_bind in E. rewrite stx_bind_Ok in E. destruct E as (resolved & b1 & [Hv <-]%lift_Ok & E).
  rewrite stx_bind_Ok in E. destruct E as (? & b1 & Hrec & E). rewrite query_bind in E. rewrite stx_bind_Ok in E.
  destruct E as ([] & b2 & [Hset <-]%lift_Ok & E). rewrite stx_bind_Ok in E. destruct E as (? & b3 & Hreg & E). tx_inv E.
  assert (Hid : cfg_ID c = id).
  { clear -Hv. unfold validateConfiguredMailboxRetirement in Hv. by tx_inv Hv. }
  apply retirement_recorded in Hrec as (Hret & _ & _ & _). rewrite Hid in Hret.
  pose proof (validated_register _ _ _ _ _ _ _ Hn Hset Hreg) as Ha. apply register_registered in Hreg as [Er Ex _ _ _].
  unfold validateConfiguredMailboxSet in Hset. apply result_bind_Ok in Hset as ([] & _ & Hw%validated_work).
  assert (Hout : forall b, roots (mb_configuration_retirements b) !! id = Some (cfg_Root c) -> active_mailboxes b !! id = None).
  { intros b Hr. apply eq_None_not_Some. intros [root [_ Hq]%lookup_active]. congruence. }
  assert (Hr' : roots (mb_configuration_retirements b') !! id = Some (cfg_Root c)) by (by rewrite Er).
  split; [exists set; split; [done|]; split; [done|]; split; [rewrite <- Ha; by apply Hout|intros y r; cbn; rewrite Ex; apply Hw]|].
  split; [done|]. assert (Hr2 : roots (mb_configuration_retirements (mailbox m2)) !! id = Some (cfg_Root c)); [|by auto].
  destruct (history_ledgers_grow _ _ Hm' Hh) as [_ Hsub]. unfold roots in Hr' |- *. rewrite lookup_fmap in Hr' |- *.
  apply fmap_Some in Hr' as (row & Hrow & ->). cbn in Hsub. by rewrite (lookup_weaken _ _ _ _ Hrow Hsub).
Qed.

(** ** Witnesses *)
Definition box_configuration : MailboxConfiguration := mkMailboxConfiguration "box" "/srv/box".
Definition crate_configuration : MailboxConfiguration := mkMailboxConfiguration "crate" "/srv/crate".
Definition two_boxes : Mirror := snd (RegisterConfiguredMailboxSet sample_mirror t0 [box_configuration; crate_configuration] []).
Definition one_box : Mirror := snd (RetireConfiguredMailboxSet two_boxes (t0 + day) [box_configuration] [] "crate").

Lemma registration_activates_exactly_witness : exists set,
  normalizeMailboxConfigurations [box_configuration; crate_configuration] = Ok set /\ active_mailboxes (mailbox two_boxes) = set.
Proof.
  destruct (registration_activates_exactly sample_mirror t0 [box_configuration; crate_configuration] [] two_boxes) as (set & Hn & Ha & _).
  - vm_compute. reflexivity.
  - exists set. split; [exact Hn|exact Ha].
Defined.

Lemma retirement_is_permanent_witness :
  active_mailboxes (mailbox one_box) !! "crate" = None /\ active_mailboxes (mailbox one_box) !! "box" = Some "/srv/box".
Proof.
  destruct (retirement_is_permanent two_boxes (t0 + day) [box_configuration] [] "crate" crate_configuration one_box one_box) as (_ & _ & _ & H).
  - eapply reachable_history; [apply sample_mirror_reachable|]. apply rtc_once, step_register.
  - vm_compute. reflexivity.
  - apply rtc_refl.
  - split; [exact H|]. vm_compute. reflexivity.
Defined.

(** The retired mailbox cannot be configured again. *)
Example retired_mailbox_is_refused :
  fst (RegisterConfiguredMailboxSet one_box (t0 + 2 * day) [box_configuration; crate_configuration] []) = Err ErrMailboxConfigurationPending.
Proof. vm_compute. reflexivity. Qed.
